(* ===== verification/_CoqProject ===== *)
-Q . S2P
Prelude.v
Hypercube.v
HypercubeSet.v
HypercubeSubsets.v
BoundList.v
BoundTree.v
NeighbourManager.v
Json.v
JsonText.v
Odometer.v
Dataspace.v
Convert.v
CopyData.v
Partition.v
Split.v
Grid.v
GridTree.v
GridRegistry.v
GridVisit.v
GridRegion.v
Memory.v
Fragment.v
Ids.v
FragmentState.v
Posix.v
GridCover.v
Fragments.v
Request.v
Dataset.v
Metadata.v
Config.v
GridJson.v
DatasetMetadata.v
Container.v
MdPosix.v
Mkfs.v
Format.v
Lifecycle.v
Scheduler.v
Library.v
Stream.v
StreamCounts.v
SchedulerRead.v
ReadBlocking.v
SchedulerWrite.v
WriteBlocking.v
GridIO.v
GridMerge.v
GridWrite.v
GridRead.v
StreamWrite.v
StreamRead.v
Persistence.v
KdsaVolume.v
Kdsa.v
KdsaLogic.v
KdsaClients.v
KdsaAlloc.v
KdsaFormat.v
