(* ===== verification/Prelude.v ===== *)
(** * A verification of the ESDM middleware

    ESDM (the Earth System Data Middleware) stores multi-dimensional datasets of named
    containers.  A dataset has a dataspace (a type and a size per dimension); the data that is
    written to it is split into fragments, hypercubes that data backends store; the
    fragments are found again by their shape, by grids, or by searching the table of
    fragments.  This library models the C code that carries this logic, definition by definition, and
    proves what makes it correct.

    ** Parts of the program and files of the library

    - Hypercubes (src/hypercube.c): [Hypercube] has ranges, hypercubes and their operations,
      [HypercubeSet] the growing lists and the subtraction of cubes, [HypercubeSubsets] the search for
      irredundant covering subsets.
    - The neighbour manager (src/hypercube-neighbour-manager.c): [BoundList] has the interface of
      the bound lists (the function table of the C code as a class with laws) and its sorted
      array implementation, [BoundTree] the B-tree, [NeighbourManager] the client of the interface.
    - Dataspaces (src/esdm-datatypes.c): [Dataspace], with [Json] for the documents and [Odometer] for
      loops over coordinates.
    - Data movement (src/utils/auxiliary.c, src/esdm-scheduler.c): [Convert] converts elements,
      [CopyData] plans and executes the copy between two dataspaces.
    - Fragmentation (src/esdm-scheduler.c): [Split], over the partitions of [Partition].
    - Grids (src/esdm-grid.c): [Grid] (axes, subdivision, numbering of cells), [GridTree] (subgrids,
      completion, registry, iteration, region queries), [GridRegistry] (all operations as a state
      machine), [GridVisit], [GridRegion] and [GridCover] (iterator, fragments of a region, choice of
      a grid), [GridJson] (metadata), [GridIO] (writing and reading of cells through the scheduler) with
      [GridWrite] and [GridRead] for its correctness, [GridMerge] (the grid of another process).
    - Fragments (src/esdm-datatypes.c, src/estream.c, src/fragments.c): [Memory] is the heap, [Fragment]
      the stream format, [FragmentState] the life cycle over the interface [DataBackend], [Fragments] the
      table of a dataset.
    - Data backends: [Posix] (src/backends-data/posix/posix.c), an instance of [DataBackend]. KDSA
      (src/backends-data/kdsa): [KdsaVolume] has the volume and the programs that access it, [Kdsa] the
      operations, [KdsaLogic] a program logic for several nodes, [KdsaClients], [KdsaAlloc] and [KdsaFormat] the proofs.
    - Datasets and metadata (src/esdm-datatypes.c): [Dataset] has the fragments that serve a region,
      [JsonText], [Metadata] and [DatasetMetadata] the documents, [Container] the containers and the
      life cycle of datasets over the interface [MetadataBackend], [Lifecycle] its theorems, and [MdPosix]
      (src/backends-metadata/posix/md-posix.c) the instance that keeps the documents as files.
    - The scheduler (src/esdm-scheduler.c): [Request] is the synchronisation of the main thread with the backend
      threads, [Scheduler] the tasks and the blocking operations, [SchedulerRead], [ReadBlocking],
      [SchedulerWrite] and [WriteBlocking] their correctness. [Persistence] composes them with the containers.
    - Streams of dataset writes (src/esdm-stream.c): [Stream], with [StreamCounts], [StreamWrite] and [StreamRead].
    - Configuration and table of backends (src/esdm-config.c, src/esdm-modules.c): [Config]; start and stop of
      the library (src/esdm.c): [Library].
    - Formatting (mkfs() of the POSIX backends, [posix_recursive_remove()] of src/utils/auxiliary.c, [esdm_mkfs()] of
      src/esdm.c): [Mkfs] and [Format].
    - Random ids (src/utils/auxiliary.c): [Ids].

    ** How the code is modelled

    A C function is a Rocq function of the same name that returns an [outcome]: [Done] with the results
    and the state after the call, [Abort] when an [eassert()] fails, [Undef] for undefined behaviour (a NULL
    or dangling pointer, an index out of range, a signed overflow).  Theorems state that the
    result is [Done] where the code is meant to work; none is conditional on the result being
    defined.  Integers are elements of [Z]; [chk64] and [u64] mark the places where the C code computes in
    [int64_t] and [uint64_t].  Objects behind shared pointers (fragments, grids, datasets) have handles in a finite map or
    list; objects with one owner are values.  Error codes are values of [esdm_status].

    Loops are structural recursion, or recursion on fuel that is computed from the state: the length
    of the data plus the number of interrupted calls for [ea_write_check()] and [ea_read_check()], the number of
    existing names for the search of a free id, the depth of the hierarchy for grids, the nesting depth
    of a document, [PATH_MAX] for the removal of directories (every level has a longer path), the number of rounds of the loop that clears a bit of the KDSA bitmap.  The theorems about these
    functions show that the fuel is enough; the loop of KDSA needs two rounds when no other node interferes, and
    the theorems about several nodes hold for any number.

    Concurrency is a step relation: a schedule is the list of the threads (or nodes) that take the next step, and a
    theorem quantifies over all schedules.  A call under a schedule returns [Done None] when the schedule ends before
    the call; the theorems also state that some schedule completes it.

    ** What is shown

    - Geometry: subtraction removes exactly the points of the subtrahend, covering subsets cover,
      neighbours are exactly the touching cubes for both bound lists, the B-tree stays balanced.
    - Data movement: copying moves exactly the common elements, with their conversion, for all strides, and
      changes nothing else; the planned instructions stay within the intersection.
    - Fragmentation and grids: fragments partition the dataspace; the operations on grids keep the
      invariant of the registry; iteration and region queries visit exactly the right cells; a cell that
      is written is read back; a merge fills exactly the holes that the other process can fill.
    - Storage: a fragment that is written and retrieved has its data back, also after unloading, for every
      backend that satisfies the interface, and the POSIX backend does. On a KDSA volume the fragments of several
      nodes do not mix under any interleaving of their accesses, the search for a free block finds one if there is
      one, and a formatted volume can be connected to.
    - Concurrency: for every interleaving of the main thread and the backend threads, with spurious wakeups, the
      request terminates, is not lost and returns the noted error.
    - Reading and writing: a blocking write puts the data into fragments, a blocking read returns the content of the
      dataset with holes filled by the fill value; what was written, in one piece or as a stream, is read back.
    - Metadata: the document of a dataset recreates the dataset, its fragments and its grids; a dataset that is
      written, committed and closed is there when the container is opened again, in a new process too.
    - Configuration: the printed form of a configuration is read back, and the table of backends that is built is well-formed;
      a library that was started has the modules of its configuration and threads within its limits, and stopping it leads
      back to the initial state.
    - Formatting touches nothing outside of the targets and removes nothing in a directory that is not marked as a store of ESDM; a store
      that was formatted is empty.
    - Random ids can be parts of a path, and they are as uniformly distributed as the random bytes.

    Findings, places where the code does not do what it means to, are listed in the manifest; those that are
    theorems are named there.

    ** Parameters

    What is not part of the sources is a parameter with the laws the code relies on, and an instance shows
    that the laws can hold: the operating system ([FileSystem], instance [MapFS]), GLib's hash table ([GHashTable],
    instance [HashList]), the JSON reader of jansson ([Jansson], instance [JsonReader]), attributes and type descriptions of smd ([Smd],
    instance [PlainSmd]), the functions that initialise a backend, conversions that involve floating point numbers, the floating point estimates of the fragmentation, [rand()],
    [rand_r()], [qsort()] and the source of random bytes ([RandomSource], instance [Counter]).  The backends take the results of [ea_make_id()] as the parameter
    [makeId] and only rely on them being valid ids, which [Ids.madeId_valid] shows.  Formatting uses the calls on directories ([Directories], instance [DirFS]),
    with [Permissive] for a process that has the necessary permissions.  The class [Reliable] (instance
    [mapReliable]) describes an operating system with enough space and permissions, where only signals disturb [mkdir()],
    [open()] and [write()]; the theorems on streams use it.

    ** Not modelled

    The release of memory; the estimates of performance, timers and printing, which are floating point numbers and output; SCIL
    compression (a build without it is modelled); the spin lock between the threads of one KDSA node (a node performs one
    operation at a time); the data backends Motr, WOS, S3, IME and pmem, the MongoDB metadata backend, the MPI wrappers, the
    HDF5 interface and the tools, which are adapters to third-party libraries or programs around the library. *)

(** * Prelude

    The outcome monad of C executions, list and integer lemmas, tactics and hint databases. *)

From Stdlib Require Export ZArith Lia.
From stdpp Require Export base numbers sorting list.

#[global] Open Scope Z_scope.
#[export] Set Warnings "-clear-no-such-hyp".

(** * Outcomes of a C function

    A call either returns a value ([Done]), is stopped by a failing [eassert()]
    or an explicit [abort()] ([Abort]), or runs into behaviour the C standard
    leaves undefined ([Undef]): a null or wild pointer, an array index out of
    range, a division by zero, the use of an uninitialised variable. *)
Inductive outcome (A : Type) : Type :=
| Done (a : A)
| Abort
| Undef.
Arguments Done {A} a.
Arguments Abort {A}.
Arguments Undef {A}.

#[global] Instance outcome_ret : MRet outcome := fun A a => Done a.

#[global] Instance outcome_bind : MBind outcome := fun A B f m =>
  match m with
  | Done a => f a
  | Abort => Abort
  | Undef => Undef
  end.

#[global] Instance outcome_fmap : FMap outcome := fun A B f m =>
  match m with
  | Done a => Done (f a)
  | Abort => Abort
  | Undef => Undef
  end.

#[global] Instance outcome_eq_dec `{EqDecision A} : EqDecision (outcome A).
Proof. solve_decision. Defined.

(** [eassert(b)] of src/include/esdm-debug.h: it logs and terminates the
    process when the expression is false, in every build. *)
Definition eassert (b : bool) : outcome unit := if b then Done tt else Abort.

(** Reading an array cell or dereferencing a pointer that may not exist. *)
Definition deref {A} (o : option A) : outcome A :=
  match o with
  | Some a => Done a
  | None => Undef
  end.

(** [returns m P]: the call returns, with a value that satisfies [P]. *)
Definition returns {A} (m : outcome A) (P : A -> Prop) : Prop :=
  exists a, m = Done a /\ P a.

Lemma returns_done {A} (a : A) (P : A -> Prop) : P a -> returns (Done a) P.
Proof. intros H. exists a. split; [done | exact H]. Qed.

Lemma returns_bind {A B} (m : outcome A) (k : A -> outcome B) (P : A -> Prop) (Q : B -> Prop) :
  returns m P -> (forall a, P a -> returns (k a) Q) -> returns (m ≫= k) Q.
Proof. intros (a & -> & Ha) Hk. exact (Hk a Ha). Qed.

Lemma returns_mono {A} (m : outcome A) (P Q : A -> Prop) :
  returns m P -> (forall a, P a -> Q a) -> returns m Q.
Proof. intros (a & -> & Ha) H. exists a. auto. Qed.

(** [completes W m P]: the call returns with a value that satisfies [P], or the process is
    ended by [exit()] or [abort()], which happens only when [W] does not hold. *)
Definition completes (W : Prop) {A} (m : outcome A) (P : A -> Prop) : Prop :=
  (m = Abort /\ ~ W) \/ returns m P.

Lemma completes_done (W : Prop) {A} (a : A) (P : A -> Prop) : P a -> completes W (Done a) P.
Proof. intros H. right. by apply returns_done. Qed.

Lemma completes_bind (W : Prop) {A B} (m : outcome A) (k : A -> outcome B) (P : A -> Prop) (Q : B -> Prop) :
  completes W m P -> (forall a, P a -> completes W (k a) Q) -> completes W (m ≫= k) Q.
Proof. intros [[-> HW] | (a & -> & Ha)] Hk; [by left | exact (Hk a Ha)]. Qed.

Lemma completes_mono (W : Prop) {A} (m : outcome A) (P Q : A -> Prop) :
  completes W m P -> (forall a, P a -> Q a) -> completes W m Q.
Proof. intros [Hm | Hm] HPQ; [by left |]. right. by eapply returns_mono. Qed.

Lemma completes_returns (W : Prop) {A} (m : outcome A) (P : A -> Prop) : W -> completes W m P -> returns m P.
Proof. intros HW [[_ HN] | Hm]; [by destruct (HN HW) | exact Hm]. Qed.

Lemma bind_done {A B} (a : A) (k : A -> outcome B) : (Done a ≫= k) = k a.
Proof. reflexivity. Qed.

Lemma bind_done_inv {A B} (m : outcome A) (k : A -> outcome B) (b : B) :
  (m ≫= k) = Done b -> exists a, m = Done a /\ k a = Done b.
Proof. destruct m; simpl; intros H; try discriminate H. eauto. Qed.

Lemma eassert_true (b : bool) : b = true -> eassert b = Done tt.
Proof. intros ->. reflexivity. Qed.

Lemma eassert_inv (b : bool) (u : unit) : eassert b = Done u -> b = true.
Proof. destruct b; [done | discriminate]. Qed.

(** * Machine integers

    An [int64_t] is a [Z]; the operations whose overflow is undefined in C go
    through [chk64].  Unsigned types wrap: [u32] and [u64] reduce modulo the
    width. *)
Definition INT64_MIN : Z := - 2 ^ 63.
Definition INT64_MAX : Z := 2 ^ 63 - 1.

Definition int64_ok (z : Z) : bool := (INT64_MIN <=? z) && (z <=? INT64_MAX).

Definition chk64 (z : Z) : outcome Z := if int64_ok z then Done z else Undef.

Definition u32 (z : Z) : Z := z mod 2 ^ 32.
Definition u64 (z : Z) : Z := z mod 2 ^ 64.

(** The conversion to [int], which is also the arithmetic of an [atomic_int]. *)
Definition to_int32 (z : Z) : Z := (z + 2 ^ 31) mod 2 ^ 32 - 2 ^ 31.

Lemma int64_ok_iff (z : Z) : int64_ok z = true <-> INT64_MIN <= z <= INT64_MAX.
Proof. unfold int64_ok. rewrite andb_true_iff, !Z.leb_le. tauto. Qed.

Lemma chk64_ok (z : Z) : INT64_MIN <= z <= INT64_MAX -> chk64 z = Done z.
Proof. intros H. unfold chk64. apply int64_ok_iff in H. by rewrite H. Qed.

Lemma chk64_inv (z v : Z) : chk64 z = Done v -> v = z /\ INT64_MIN <= z <= INT64_MAX.
Proof.
  unfold chk64. destruct (int64_ok z) eqn:E; [| discriminate].
  intros [= <-]. split; [done |]. by apply int64_ok_iff.
Qed.

Lemma u32_range (z : Z) : 0 <= u32 z < 2 ^ 32.
Proof. apply Z.mod_pos_bound. lia. Qed.

Lemma u32_add_l (a b : Z) : u32 (u32 a + b) = u32 (a + b).
Proof. apply Zplus_mod_idemp_l. Qed.

Lemma u32_add_r (a b : Z) : u32 (a + u32 b) = u32 (a + b).
Proof. apply Zplus_mod_idemp_r. Qed.

Lemma u32_mul_l (a b : Z) : u32 (u32 a * b) = u32 (a * b).
Proof. apply Zmult_mod_idemp_l. Qed.

Lemma u32_mul_r (a b : Z) : u32 (a * u32 b) = u32 (a * b).
Proof. apply Zmult_mod_idemp_r. Qed.

Lemma u32_idem (a : Z) : u32 (u32 a) = u32 a.
Proof. apply Z.mod_mod. lia. Qed.

(** The factors of a bounded product are bounded when the others are at least one. *)
Lemma mul_factors_le (a b c m : Z) :
  1 <= a -> 0 <= b -> 1 <= c -> a * (b * c) <= m -> b <= m /\ a * b <= m.
Proof.
  intros Ha Hb Hc Hm. assert (a * b <= a * (b * c)) by nia. assert (b <= a * b) by nia. lia.
Qed.

Create Rewrite HintDb u32.
#[export] Hint Rewrite u32_add_l u32_add_r u32_mul_l u32_mul_r u32_idem : u32.

(** * Tactics *)

(** Turn the boolean tests of the code into propositions [lia] understands. *)
Ltac reflect_bools :=
  repeat match goal with
  | H : negb ?b = true |- _ => apply negb_true_iff in H
  | H : negb ?b = false |- _ => apply negb_false_iff in H
  | H : (_ && _)%bool = true |- _ => apply andb_true_iff in H; destruct H
  | H : (_ || _)%bool = false |- _ => apply orb_false_iff in H; destruct H
  | H : (_ || _)%bool = true |- _ => apply orb_true_iff in H
  | H : (_ && _)%bool = false |- _ => apply andb_false_iff in H
  | H : (?a =? ?b) = true |- _ => apply Z.eqb_eq in H
  | H : (?a =? ?b) = false |- _ => apply Z.eqb_neq in H
  | H : (?a <? ?b) = true |- _ => apply Z.ltb_lt in H
  | H : (?a <? ?b) = false |- _ => apply Z.ltb_ge in H
  | H : (?a <=? ?b) = true |- _ => apply Z.leb_le in H
  | H : (?a <=? ?b) = false |- _ => apply Z.leb_gt in H
  | H : (?a >=? ?b) = _ |- _ => rewrite Z.geb_leb in H
  | H : (?a >? ?b) = _ |- _ => rewrite Z.gtb_ltb in H
  end.

(** Case split on every boolean comparison of the goal or the context. *)
Ltac split_bools :=
  rewrite ?Z.geb_leb, ?Z.gtb_ltb in *;
  repeat match goal with
  | |- context [?a <? ?b] => destruct (Z.ltb_spec a b)
  | |- context [?a <=? ?b] => destruct (Z.leb_spec a b)
  | |- context [?a =? ?b] => destruct (Z.eqb_spec a b)
  | H : context [?a <? ?b] |- _ => destruct (Z.ltb_spec a b)
  | H : context [?a <=? ?b] |- _ => destruct (Z.leb_spec a b)
  | H : context [?a =? ?b] |- _ => destruct (Z.eqb_spec a b)
  end.

(** Invert a monadic computation that is known to have returned. *)
Ltac inv_outcome :=
  repeat match goal with
  | H : (_ ≫= _) = Done _ |- _ =>
      let a := fresh "v" in let E := fresh "E" in
      apply bind_done_inv in H; destruct H as (a & E & H)
  | H : Done _ = Done _ |- _ => injection H as H; try subst
  | H : mret _ = Done _ |- _ => unfold mret, outcome_ret in H
  | H : eassert _ = Done _ |- _ => apply eassert_inv in H
  | H : chk64 _ = Done _ |- _ => apply chk64_inv in H; destruct H as [-> H]
  end.

(** Advance a monadic computation whose next step is known. *)
Ltac run := cbn [mbind outcome_bind mret outcome_ret fmap outcome_fmap deref].

(** * Monadic maps *)

Lemma mapM_cons {A B} (f : A -> outcome B) (a : A) (k : list A) :
  mapM f (a :: k) = (b ← f a; bs ← mapM f k; mret (b :: bs)).
Proof. reflexivity. Qed.

Lemma mapM_ok {A B} (f : A -> outcome B) (P : A -> B -> Prop) (k : list A) :
  (forall a, a ∈ k -> exists b, f a = Done b /\ P a b) ->
  exists bs, mapM f k = Done bs /\ Forall2 P k bs.
Proof.
  induction k as [| a k IH]; intros H; [by exists [] |].
  destruct (H a) as (b & Eb & Hb); [left |]. destruct IH as (bs & Ebs & Hbs).
  { intros x Hx. apply H. by right. }
  exists (b :: bs). rewrite mapM_cons, Eb. run. rewrite Ebs. by split; [| constructor].
Qed.

Lemma mapM_done_length {A B} (f : A -> outcome B) (l : list A) (k : list B) :
  mapM f l = Done k -> length k = length l.
Proof.
  revert k. induction l as [| x l IH]; intros k H; csimpl in *.
  - injection H as <-. done.
  - inv_outcome. simpl. f_equal. by apply IH.
Qed.

(** A loop over the elements of a list that threads a state. *)
Fixpoint foldM {A S} (f : A -> S -> outcome S) (l : list A) (s : S) : outcome S :=
  match l with
  | [] => mret s
  | a :: l' => s' ← f a s; foldM f l' s'
  end.

(** * Lists *)

(** Element [k] of an array that is known to have it. *)
Definition nthZ (l : list Z) (k : nat) : Z := default 0 (l !! k).
Definition nthB (l : list bool) (k : nat) : bool := default false (l !! k).

Lemma fmap_rev {A B} (f : A -> B) (l : list A) : f <$> rev l = rev (f <$> l).
Proof. induction l as [| x l IH]; [done |]. cbn [rev]. rewrite fmap_app, IH. done. Qed.

Lemma Forall2_rev {A B} (P : A -> B -> Prop) (l : list A) (k : list B) : Forall2 P l k -> Forall2 P (rev l) (rev k).
Proof. induction 1 as [| x y l k Hxy _ IH]; [constructor |]. cbn [rev]. apply Forall2_app; [done |]. by constructor. Qed.

Lemma nthZ_seq (l : list Z) : nthZ l <$> seq 0 (length l) = l.
Proof.
  apply list_eq. intros i. rewrite list_lookup_fmap. destruct (l !! i) as [x |] eqn:E.
  - rewrite lookup_seq_lt by (by apply lookup_lt_Some in E). simpl. unfold nthZ. by rewrite E.
  - rewrite lookup_seq_ge; [done |]. by apply lookup_ge_None in E.
Qed.

(** Removing the element at [i] by overwriting it with the last one, the way the
    C code drops an element of an unordered array. *)
Definition swap_remove {A} (l : list A) (i : nat) : list A :=
  match last l with
  | Some x => take (length l - 1) (<[i := x]> l)
  | None => l
  end.

Lemma swap_remove_snoc {A} (l : list A) (x : A) (i : nat) :
  swap_remove (l ++ [x]) i = if decide (i < length l)%nat then <[i := x]> l else l.
Proof.
  unfold swap_remove. rewrite last_snoc, length_app. simpl.
  replace (length l + 1 - 1)%nat with (length l) by lia.
  case_decide as Hi.
  - rewrite insert_app_l by lia. rewrite take_app_le by (rewrite length_insert; lia).
    apply take_ge. rewrite length_insert. lia.
  - rewrite insert_app_r_alt by lia. rewrite take_app_le by lia. apply take_ge. lia.
Qed.

Lemma swap_remove_perm {A} (l : list A) (i : nat) (x : A) :
  l !! i = Some x -> l ≡ₚ x :: swap_remove l i.
Proof.
  destruct l as [| y l _] using rev_ind; [done |].
  rewrite swap_remove_snoc. intros Hi. case_decide as Hlt.
  - rewrite lookup_app_l in Hi by done.
    rewrite (Permutation_app_comm l [y]). simpl.
    rewrite <- (list_insert_id l i x Hi) at 1.
    rewrite !(insert_take_drop l i) by done.
    rewrite <- !Permutation_middle. apply Permutation_swap.
  - apply lookup_lt_Some in Hi as Hlen. rewrite length_app in Hlen. simpl in Hlen.
    assert (i = length l) as -> by lia.
    rewrite lookup_app_r in Hi by lia. rewrite Nat.sub_diag in Hi.
    simpl in Hi. injection Hi as ->. apply Permutation_app_comm.
Qed.

Lemma length_swap_remove {A} (l : list A) (i : nat) :
  length (swap_remove l i) = (length l - 1)%nat.
Proof.
  destruct l as [| y l _] using rev_ind; [done |].
  rewrite swap_remove_snoc. rewrite length_app; simpl.
  case_decide; rewrite ?length_insert; lia.
Qed.

Lemma list_insert_middle {A} (pre ms : list A) (m x : A) :
  <[length pre := x]> (pre ++ m :: ms) = pre ++ x :: ms.
Proof. rewrite insert_app_r_alt by done. by rewrite Nat.sub_diag. Qed.

(** A conjunct that is known to hold can be dropped from a test. *)
Lemma decide_and_r {A} (P Q : Prop) `{Decision (P /\ Q), Decision P} (x y : A) :
  Q -> (if decide (P /\ Q) then x else y) = (if decide P then x else y).
Proof. intros HQ. apply decide_ext. tauto. Qed.

Lemma elem_of_drop_swap_remove {A} (l : list A) (i : nat) (x : A) :
  x ∈ drop i (swap_remove l i) -> x ∈ drop (S i) l.
Proof.
  destruct l as [| y l _] using rev_ind; [cbn; by rewrite drop_nil |].
  rewrite swap_remove_snoc. case_decide as Hi.
  - rewrite (insert_take_drop l i) by done.
    rewrite drop_app_length' by (rewrite length_take; lia).
    rewrite drop_app_le by lia. rewrite elem_of_cons, elem_of_app.
    intros [-> | ?]; [right; by apply list_elem_of_singleton | by left].
  - rewrite drop_ge by lia. by intros ?%elem_of_nil.
Qed.

Lemma NoDup_omap_strong {A B} (f : A -> option B) (l : list A) :
  NoDup l -> (forall x y b, x ∈ l -> y ∈ l -> f x = Some b -> f y = Some b -> x = y) -> NoDup (omap f l).
Proof.
  induction 1 as [| x l Hx _ IH]; intros Hf; [constructor |].
  assert (Hl : NoDup (omap f l)) by (apply IH; intros y z b Hy Hz; apply Hf; by right).
  csimpl. destruct (f x) as [b |] eqn:E; [| done]. constructor; [| done].
  intros (y & Hy & Ey)%list_elem_of_omap. destruct Hx. rewrite (Hf x y b); [done | by left | by right | done | done].
Qed.
