(* ===== verification/Hypercube.v ===== *)
(** Ranges and hypercubes (src/hypercube.c and the inline functions of
    src/include/esdm-internal.h), with their meaning as sets of grid points. *)

From S2P Require Import Prelude.

(** * Data *)

(** [esdmI_range_t]: the integers [x] with [rstart <= x < rend]. *)
Record esdmI_range_t := Range { rstart : Z; rend : Z }.

#[global] Instance esdmI_range_t_eq_dec : EqDecision esdmI_range_t.
Proof. solve_decision. Defined.

(** [esdmI_hypercube_t]: [dims] is the length of the flexible array [ranges], so
    a hypercube is its list of ranges. *)
Abbreviation esdmI_hypercube_t := (list esdmI_range_t).

Definition esdmI_hypercube_dimensions (cube : esdmI_hypercube_t) : Z := Z.of_nat (length cube).

(** * Ranges *)

Definition esdmI_range_intersection (a b : esdmI_range_t) : esdmI_range_t :=
  {| rstart := if rstart a >? rstart b then rstart a else rstart b;
     rend := if rend a <? rend b then rend a else rend b |}.

Definition esdmI_range_isEmpty (range : esdmI_range_t) : bool := rstart range >=? rend range.

Definition esdmI_range_equal (a b : esdmI_range_t) : bool :=
  (rstart a =? rstart b) && (rend a =? rend b).

Definition esdmI_range_size (range : esdmI_range_t) : outcome Z :=
  if esdmI_range_isEmpty range then Done 0 else chk64 (rend range - rstart range).

(** * Hypercubes *)

Definition esdmI_hypercube_makeDefault (dimensions : Z) : outcome esdmI_hypercube_t :=
  eassert (dimensions >=? 0);;
  mret (replicate (Z.to_nat dimensions) (Range 0 0)).

(** The range written for one dimension by [esdmI_hypercube_make()]. *)
Definition esdmI_hypercube_make_range (offset size : list Z) (i : nat) : outcome esdmI_range_t :=
  o ← deref (offset !! i);
  s ← deref (size !! i);
  e ← chk64 (o + s);
  mret (Range o e).

Definition esdmI_hypercube_make (dimensions : Z) (offset size : list Z) : outcome esdmI_hypercube_t :=
  mapM (esdmI_hypercube_make_range offset size) (seq 0 (Z.to_nat dimensions)).

Definition esdmI_hypercube_makeCopy (original : esdmI_hypercube_t) : esdmI_hypercube_t := original.

(** Equality of the dimension counts, asserted by every binary operation. *)
Definition sameDims (a b : esdmI_hypercube_t) : bool :=
  esdmI_hypercube_dimensions a =? esdmI_hypercube_dimensions b.

Fixpoint makeIntersection_loop (a b : esdmI_hypercube_t) : option esdmI_hypercube_t :=
  match a, b with
  | ra :: a', rb :: b' =>
      let r := esdmI_range_intersection ra rb in
      if esdmI_range_isEmpty r then None
      else match makeIntersection_loop a' b' with
           | Some rest => Some (r :: rest)
           | None => None
           end
  | _, _ => Some []
  end.

Definition esdmI_hypercube_makeIntersection (a b : esdmI_hypercube_t) : outcome (option esdmI_hypercube_t) :=
  eassert (sameDims a b);;
  mret (makeIntersection_loop a b).

Fixpoint esdmI_hypercube_isEmpty (me : esdmI_hypercube_t) : bool :=
  match me with
  | [] => false
  | r :: me' => if esdmI_range_isEmpty r then true else esdmI_hypercube_isEmpty me'
  end.

Definition kRandomPrime : Z := 2146462999.

(** In [esdmI_hypercube_hash()] the factor is a [uint32_t] and the coordinate an
    [int64_t], so product and sum are computed as [int64_t] and truncated when
    they are stored back into the [uint32_t]. *)
Fixpoint hash_loop (factor result : Z) (ranges : esdmI_hypercube_t) : outcome Z :=
  match ranges with
  | [] => mret result
  | r :: ranges' =>
      let factor1 := u32 (factor * kRandomPrime) in
      p1 ← chk64 (factor1 * rstart r);
      s1 ← chk64 (result + p1);
      let factor2 := u32 (factor1 * kRandomPrime) in
      p2 ← chk64 (factor2 * rend r);
      s2 ← chk64 (u32 s1 + p2);
      hash_loop factor2 (u32 s2) ranges'
  end.

Definition esdmI_hypercube_hash (me : esdmI_hypercube_t) : outcome Z :=
  r0 ← chk64 (esdmI_hypercube_dimensions me * kRandomPrime);
  hash_loop kRandomPrime (u32 r0) me.

(** [esdmI_hypercube_hashOffsetSize()] casts the coordinates to [uint32_t], so its
    products wrap; only the sum [offset[i] + size[i]] is signed. *)
Fixpoint hashOffsetSize_loop (factor result : Z) (offset size : list Z) (i : nat) (n : nat) : outcome Z :=
  match n with
  | O => mret result
  | S n' =>
      o ← deref (offset !! i);
      s ← deref (size !! i);
      let factor1 := u32 (factor * kRandomPrime) in
      let result1 := u32 (result + u32 (factor1 * u32 o)) in
      e ← chk64 (o + s);
      let factor2 := u32 (factor1 * kRandomPrime) in
      let result2 := u32 (result1 + u32 (factor2 * u32 e)) in
      hashOffsetSize_loop factor2 result2 offset size (S i) n'
  end.

Definition esdmI_hypercube_hashOffsetSize (dimCount : Z) (offset size : list Z) : outcome Z :=
  eassert (dimCount >=? 0);;
  r0 ← chk64 (dimCount * kRandomPrime);
  hashOffsetSize_loop kRandomPrime (u32 r0) offset size 0 (Z.to_nat dimCount).

Fixpoint doesIntersect_loop (a b : esdmI_hypercube_t) : bool :=
  match a, b with
  | ra :: a', rb :: b' =>
      if esdmI_range_isEmpty (esdmI_range_intersection ra rb) then false
      else doesIntersect_loop a' b'
  | _, _ => true
  end.

Definition esdmI_hypercube_doesIntersect (a b : esdmI_hypercube_t) : outcome bool :=
  eassert (sameDims a b);;
  mret (doesIntersect_loop a b).

(** First loop of [esdmI_hypercube_touches()]: [None] is the early [return false]
    on a second shared bound. *)
Fixpoint touches_findBound (i : Z) (haveBound : bool) (boundDim : Z) (a b : esdmI_hypercube_t)
    : option (bool * Z) :=
  match a, b with
  | ra :: a', rb :: b' =>
      if (rstart ra =? rend rb) || (rend ra =? rstart rb) then
        if haveBound then None else touches_findBound (i + 1) true i a' b'
      else touches_findBound (i + 1) haveBound boundDim a' b'
  | _, _ => Some (haveBound, boundDim)
  end.

(** Second loop of [esdmI_hypercube_touches()]. *)
Fixpoint touches_overlapOthers (i boundDim : Z) (a b : esdmI_hypercube_t) : bool :=
  match a, b with
  | ra :: a', rb :: b' =>
      if negb (i =? boundDim) && esdmI_range_isEmpty (esdmI_range_intersection ra rb) then false
      else touches_overlapOthers (i + 1) boundDim a' b'
  | _, _ => true
  end.

Definition touches_body (a b : esdmI_hypercube_t) : bool :=
  match touches_findBound 0 false (-1) a b with
  | None => false
  | Some (false, _) => false
  | Some (true, boundDim) => touches_overlapOthers 0 boundDim a b
  end.

Definition esdmI_hypercube_touches (a b : esdmI_hypercube_t) : outcome bool :=
  eassert (sameDims a b);;
  mret (touches_body a b).

Fixpoint overlap_loop (overlap : Z) (a b : esdmI_hypercube_t) : outcome Z :=
  match a, b with
  | ra :: a', rb :: b' =>
      if overlap =? 0 then mret overlap
      else
        s ← esdmI_range_size (esdmI_range_intersection ra rb);
        overlap' ← chk64 (overlap * s);
        overlap_loop overlap' a' b'
  | _, _ => mret overlap
  end.

Definition esdmI_hypercube_overlap (a b : esdmI_hypercube_t) : outcome Z :=
  eassert (sameDims a b);;
  overlap_loop 1 a b.

Fixpoint equal_loop (a b : esdmI_hypercube_t) : bool :=
  match a, b with
  | ra :: a', rb :: b' => if negb (esdmI_range_equal ra rb) then false else equal_loop a' b'
  | _, _ => true
  end.

Definition esdmI_hypercube_equal (a b : esdmI_hypercube_t) : outcome bool :=
  eassert (sameDims a b);;
  mret (equal_loop a b).

Definition esdmI_hypercube_getOffsetAndSize (cube : esdmI_hypercube_t) : outcome (list Z * list Z) :=
  sizes ← mapM esdmI_range_size cube;
  mret (rstart <$> cube, sizes).

Fixpoint size_loop (result : Z) (cube : esdmI_hypercube_t) : outcome Z :=
  match cube with
  | [] => mret result
  | r :: cube' =>
      s ← esdmI_range_size r;
      result' ← chk64 (result * s);
      size_loop result' cube'
  end.

Definition esdmI_hypercube_size (cube : esdmI_hypercube_t) : outcome Z :=
  eassert (esdmI_hypercube_dimensions cube >? 0);;
  size_loop 1 cube.

(** * Meaning: hypercubes as sets of grid points *)

Definition in_range (z : Z) (r : esdmI_range_t) : Prop := rstart r <= z < rend r.

(** A point is the list of its coordinates. *)
Definition in_cube (p : list Z) (c : esdmI_hypercube_t) : Prop := Forall2 in_range p c.

#[global] Instance in_range_dec (z : Z) (r : esdmI_range_t) : Decision (in_range z r).
Proof. unfold in_range. apply _. Defined.

#[global] Instance in_cube_dec (p : list Z) (c : esdmI_hypercube_t) : Decision (in_cube p c).
Proof. unfold in_cube. apply _. Defined.

(** The number of integers of a range, and of points of a hypercube. *)
Definition rsize (r : esdmI_range_t) : Z := Z.max 0 (rend r - rstart r).

Fixpoint volume (c : esdmI_hypercube_t) : Z :=
  match c with
  | [] => 1
  | r :: c' => rsize r * volume c'
  end.

(** All points of a hypercube, in row-major order. *)
Fixpoint points (c : esdmI_hypercube_t) : list (list Z) :=
  match c with
  | [] => [[]]
  | r :: c' => z ← seqZ (rstart r) (rsize r); p ← points c'; [z :: p]
  end.

(** ** Ranges *)

Lemma range_isEmpty_spec (r : esdmI_range_t) : esdmI_range_isEmpty r = true <-> rend r <= rstart r.
Proof. unfold esdmI_range_isEmpty. split_bools; intuition (lia || done). Qed.

Lemma range_nonempty_spec (r : esdmI_range_t) : esdmI_range_isEmpty r = false <-> rstart r < rend r.
Proof. unfold esdmI_range_isEmpty. split_bools; intuition (lia || done). Qed.

Lemma in_range_intersection (z : Z) (a b : esdmI_range_t) :
  in_range z (esdmI_range_intersection a b) <-> in_range z a /\ in_range z b.
Proof. unfold in_range, esdmI_range_intersection; simpl. split_bools; lia. Qed.

Lemma rstart_intersection (a b : esdmI_range_t) :
  rstart (esdmI_range_intersection a b) = Z.max (rstart a) (rstart b).
Proof. unfold esdmI_range_intersection; simpl. split_bools; lia. Qed.

Lemma rend_intersection (a b : esdmI_range_t) :
  rend (esdmI_range_intersection a b) = Z.min (rend a) (rend b).
Proof. unfold esdmI_range_intersection; simpl. split_bools; lia. Qed.

Lemma range_intersection_comm (a b : esdmI_range_t) :
  esdmI_range_intersection a b = esdmI_range_intersection b a.
Proof. unfold esdmI_range_intersection. f_equal; split_bools; lia. Qed.

Lemma range_equal_iff (a b : esdmI_range_t) : esdmI_range_equal a b = true <-> a = b.
Proof.
  unfold esdmI_range_equal. rewrite andb_true_iff, !Z.eqb_eq.
  destruct a, b; simpl. split; [intros [-> ->]; done | intros [= -> ->]; done].
Qed.

Lemma range_size_ok (r : esdmI_range_t) :
  rend r - rstart r <= INT64_MAX -> esdmI_range_size r = Done (rsize r).
Proof.
  intros H. unfold esdmI_range_size, rsize. destruct (esdmI_range_isEmpty r) eqn:E.
  - apply range_isEmpty_spec in E. f_equal. lia.
  - apply range_nonempty_spec in E. rewrite chk64_ok by (unfold INT64_MIN; lia).
    f_equal. lia.
Qed.

Lemma range_size_inv (r : esdmI_range_t) (s : Z) :
  esdmI_range_size r = Done s -> s = rsize r /\ rsize r <= INT64_MAX.
Proof.
  unfold esdmI_range_size, rsize. destruct (esdmI_range_isEmpty r) eqn:E; intros H; inv_outcome.
  - apply range_isEmpty_spec in E. unfold INT64_MAX. lia.
  - apply range_nonempty_spec in E. lia.
Qed.

(** ** Dimension counts *)

Lemma sameDims_iff (a b : esdmI_hypercube_t) : sameDims a b = true <-> length a = length b.
Proof. unfold sameDims, esdmI_hypercube_dimensions. rewrite Z.eqb_eq. lia. Qed.

Lemma in_cube_length (p : list Z) (c : esdmI_hypercube_t) : in_cube p c -> length p = length c.
Proof. apply Forall2_length. Qed.

Lemma in_cube_nil (p : list Z) : in_cube p [] <-> p = [].
Proof. unfold in_cube. split; [by inversion 1 | intros ->; constructor]. Qed.

Lemma in_cube_cons (p : list Z) (r : esdmI_range_t) (c : esdmI_hypercube_t) :
  in_cube p (r :: c) <-> exists z p', p = z :: p' /\ in_range z r /\ in_cube p' c.
Proof.
  unfold in_cube. split.
  - inversion 1; subst; eauto.
  - intros (z & p' & -> & Hz & Hp). by constructor.
Qed.

Lemma in_cube_cons2 (z : Z) (p : list Z) (r : esdmI_range_t) (c : esdmI_hypercube_t) :
  in_cube (z :: p) (r :: c) <-> in_range z r /\ in_cube p c.
Proof. apply Forall2_cons. Qed.

(** ** Emptiness *)

Definition nonempty (c : esdmI_hypercube_t) : Prop := Forall (fun r => rstart r < rend r) c.

Lemma isEmpty_false_iff (c : esdmI_hypercube_t) : esdmI_hypercube_isEmpty c = false <-> nonempty c.
Proof.
  unfold nonempty. induction c as [| r c IH]; simpl; [done |].
  rewrite Forall_cons, <- range_nonempty_spec, <- IH.
  destruct (esdmI_range_isEmpty r); intuition congruence.
Qed.

Lemma nonempty_point (c : esdmI_hypercube_t) : nonempty c -> in_cube (rstart <$> c) c.
Proof.
  unfold in_cube. induction 1; simpl; constructor; [unfold in_range; lia | done].
Qed.

Lemma in_cube_nonempty (p : list Z) (c : esdmI_hypercube_t) : in_cube p c -> nonempty c.
Proof. induction 1; constructor; [unfold in_range in *; lia | done]. Qed.

Lemma nonempty_iff (c : esdmI_hypercube_t) : nonempty c <-> exists p, in_cube p c.
Proof. split; [eauto using nonempty_point | intros [p Hp]; eauto using in_cube_nonempty]. Qed.

(** ** Intersection *)

Lemma makeIntersection_loop_spec (a b : esdmI_hypercube_t) :
  length a = length b ->
  match makeIntersection_loop a b with
  | Some c => length c = length a /\ nonempty c /\
              forall p, in_cube p c <-> in_cube p a /\ in_cube p b
  | None => forall p, ~ (in_cube p a /\ in_cube p b)
  end.
Proof.
  revert b. induction a as [| ra a IH]; intros [| rb b] Hlen; simpl in *; try discriminate.
  - split; [done |]. split; [constructor | intros p; tauto].
  - specialize (IH b (eq_add_S _ _ Hlen)).
    destruct (esdmI_range_isEmpty _) eqn:E.
    + apply range_isEmpty_spec in E. intros p [(z & p' & -> & Hz & _)%in_cube_cons Hb].
      apply in_cube_cons2 in Hb as [Hz' _].
      pose proof (proj2 (in_range_intersection z ra rb) (conj Hz Hz')).
      unfold in_range in *. lia.
    + apply range_nonempty_spec in E.
      destruct (makeIntersection_loop a b) as [c |].
      * destruct IH as (Hl & Hn & IH). split; [simpl; congruence |].
        split; [by constructor |]. intros [| z p].
        { split; [by inversion 1 | intros [H _]; inversion H]. }
        rewrite !in_cube_cons2, in_range_intersection, IH. tauto.
      * intros p [(z & p' & -> & _ & Ha)%in_cube_cons Hb].
        apply in_cube_cons2 in Hb as [_ Hb]. exact (IH p' (conj Ha Hb)).
Qed.

Lemma doesIntersect_loop_spec (a b : esdmI_hypercube_t) :
  length a = length b ->
  doesIntersect_loop a b = match makeIntersection_loop a b with Some _ => true | None => false end.
Proof.
  revert b. induction a as [| ra a IH]; intros [| rb b] Hlen; simpl in *; try discriminate; [done |].
  destruct (esdmI_range_isEmpty _); [done |].
  rewrite IH by congruence. by destruct (makeIntersection_loop a b).
Qed.

Lemma doesIntersect_loop_iff (a b : esdmI_hypercube_t) :
  length a = length b ->
  doesIntersect_loop a b = true <-> exists p, in_cube p a /\ in_cube p b.
Proof.
  intros Hlen. rewrite doesIntersect_loop_spec by done.
  pose proof (makeIntersection_loop_spec a b Hlen) as H.
  destruct (makeIntersection_loop a b) as [c |].
  - destruct H as (_ & Hn & H). split; [intros _ | done].
    exists (rstart <$> c). apply H. by apply nonempty_point.
  - split; [done |]. intros [p Hp]. destruct (H p Hp).
Qed.

(** ** Counting points *)

Lemma elem_of_points (p : list Z) (c : esdmI_hypercube_t) : p ∈ points c <-> in_cube p c.
Proof.
  revert p. induction c as [| r c IH]; intros p; simpl.
  - rewrite list_elem_of_singleton, in_cube_nil. done.
  - rewrite in_cube_cons, list_elem_of_bind. setoid_rewrite elem_of_seqZ.
    setoid_rewrite list_elem_of_bind. setoid_rewrite list_elem_of_singleton.
    setoid_rewrite IH. unfold in_range, rsize. split.
    + intros (z & (q & -> & Hq) & Hz). exists z, q. split; [done | split; [lia | done]].
    + intros (z & q & -> & Hz & Hq). exists z. split; [eauto | lia].
Qed.

Lemma rsize_nonneg (r : esdmI_range_t) : 0 <= rsize r.
Proof. unfold rsize. lia. Qed.

Lemma volume_nonneg (c : esdmI_hypercube_t) : 0 <= volume c.
Proof. induction c as [| r c IH]; simpl; [lia |]. pose proof (rsize_nonneg r). nia. Qed.

Lemma volume_pos_iff (c : esdmI_hypercube_t) : 0 < volume c <-> nonempty c.
Proof.
  unfold nonempty. induction c as [| r c IH]; simpl; [split; [constructor | lia] |].
  rewrite Forall_cons, <- IH. pose proof (volume_nonneg c). unfold rsize. nia.
Qed.

Lemma length_bind_const {A B} (f : A -> list B) (l : list A) (n : nat) :
  (forall x, length (f x) = n) -> length (l ≫= f) = (length l * n)%nat.
Proof. intros Hf. induction l as [| x l IH]; [done |]. csimpl. rewrite length_app, Hf, IH. lia. Qed.

Lemma length_points (c : esdmI_hypercube_t) : Z.of_nat (length (points c)) = volume c.
Proof.
  induction c as [| r c IH]; simpl; [done |].
  rewrite (length_bind_const _ _ (length (points c))).
  - rewrite length_seqZ. pose proof (rsize_nonneg r). nia.
  - intros z. rewrite (length_bind_const _ _ 1) by done. lia.
Qed.

Lemma NoDup_points (c : esdmI_hypercube_t) : NoDup (points c).
Proof.
  induction c as [| r c IH]; simpl; [apply NoDup_singleton |].
  apply NoDup_bind; [| | apply NoDup_seqZ].
  - intros z1 z2 p _ _ H1 H2. apply list_elem_of_bind in H1 as (q1 & E1 & _).
    apply list_elem_of_bind in H2 as (q2 & E2 & _).
    apply list_elem_of_singleton in E1, E2. congruence.
  - intros z _. apply NoDup_bind; [| | done].
    + intros q1 q2 p _ _ H1 H2. apply list_elem_of_singleton in H1, H2. congruence.
    + intros q _. apply NoDup_singleton.
Qed.

(** The size of every range, and every partial product, stays in [int64_t] for
    a non-empty hypercube whose volume does. *)
Lemma nonempty_volume_ge_1 (c : esdmI_hypercube_t) : nonempty c -> 1 <= volume c.
Proof. intros H. apply volume_pos_iff in H. lia. Qed.

Lemma size_loop_ok (c : esdmI_hypercube_t) (acc : Z) :
  nonempty c -> 1 <= acc -> acc * volume c <= INT64_MAX -> size_loop acc c = Done (acc * volume c).
Proof.
  intros Hn. revert acc. induction Hn as [| r c Hr Hn IH]; intros acc Hacc Hmax; simpl in *.
  - unfold mret, outcome_ret. f_equal. lia.
  - pose proof (nonempty_volume_ge_1 c Hn).
    assert (Hs : rend r - rstart r <= rsize r /\ 1 <= rsize r) by (unfold rsize; lia).
    destruct (mul_factors_le acc (rsize r) (volume c) INT64_MAX) as [? ?]; [lia.. |].
    rewrite range_size_ok by lia. simpl.
    rewrite chk64_ok by (unfold INT64_MIN; nia). simpl.
    rewrite IH; [f_equal; ring | nia | nia].
Qed.

Lemma overlap_loop_ok (a b : esdmI_hypercube_t) (acc : Z) :
  length a = length b -> nonempty a -> 0 <= acc -> acc * volume a <= INT64_MAX ->
  overlap_loop acc a b =
    Done (acc * match makeIntersection_loop a b with Some c => volume c | None => 0 end).
Proof.
  intros Hlen Hn. revert b acc Hlen.
  induction Hn as [| ra a Hr Hn IH]; intros [| rb b] acc Hlen Hacc Hmax; simpl in *; try discriminate.
  { unfold mret, outcome_ret. f_equal. lia. }
  pose proof (nonempty_volume_ge_1 a Hn).
  destruct (Z.eqb_spec acc 0) as [-> |]; [unfold mret, outcome_ret; f_equal; lia |].
  set (r := esdmI_range_intersection ra rb).
  assert (Hle : rsize r <= rsize ra).
  { unfold rsize, r. rewrite rstart_intersection, rend_intersection. lia. }
  assert (Hr0 := rsize_nonneg r). assert (Hra := rsize_nonneg ra).
  destruct (mul_factors_le acc (rsize ra) (volume a) INT64_MAX) as [? ?]; [lia.. |].
  assert (Hm : 0 <= acc * rsize r <= acc * rsize ra) by nia.
  rewrite range_size_ok; [| unfold rsize in *; lia]. simpl.
  rewrite chk64_ok by (unfold INT64_MIN; lia). simpl.
  rewrite IH; [| congruence | lia |].
  2: { etransitivity; [apply Z.mul_le_mono_nonneg_r; [lia | apply Hm] | lia]. }
  destruct (esdmI_range_isEmpty r) eqn:E.
  - apply range_isEmpty_spec in E. unfold rsize. f_equal.
    replace (Z.max 0 (rend r - rstart r)) with 0 by lia. lia.
  - destruct (makeIntersection_loop a b); simpl; f_equal; lia.
Qed.

(** ** Touching *)

(** The two ranges have a common element. *)
Definition meets (ra rb : esdmI_range_t) : Prop :=
  Z.max (rstart ra) (rstart rb) < Z.min (rend ra) (rend rb).

(** One range ends where the other starts. *)
Definition abuts (ra rb : esdmI_range_t) : Prop := rstart ra = rend rb \/ rend ra = rstart rb.

(** The ranges abut in one dimension and meet in all others. *)
Inductive touch_at : esdmI_hypercube_t -> esdmI_hypercube_t -> Prop :=
| touch_here ra rb a b : abuts ra rb -> Forall2 meets a b -> touch_at (ra :: a) (rb :: b)
| touch_there ra rb a b : meets ra rb -> touch_at a b -> touch_at (ra :: a) (rb :: b).

(** Neighbouring grid points: they differ by one in exactly one coordinate. *)
Inductive adjacent : list Z -> list Z -> Prop :=
| adjacent_here x y p : Z.abs (x - y) = 1 -> adjacent (x :: p) (y :: p)
| adjacent_there x p q : adjacent p q -> adjacent (x :: p) (x :: q).

Lemma abuts_bool (ra rb : esdmI_range_t) :
  (rstart ra =? rend rb) || (rend ra =? rstart rb) = true <-> abuts ra rb.
Proof. unfold abuts. by rewrite orb_true_iff, !Z.eqb_eq. Qed.

Lemma meets_bool (ra rb : esdmI_range_t) :
  esdmI_range_isEmpty (esdmI_range_intersection ra rb) = false <-> meets ra rb.
Proof. unfold meets. by rewrite range_nonempty_spec, rstart_intersection, rend_intersection. Qed.

Lemma abuts_not_meets (ra rb : esdmI_range_t) : abuts ra rb -> ~ meets ra rb.
Proof. unfold abuts, meets. lia. Qed.

Lemma findBound_true (i d : Z) (a b : esdmI_hypercube_t) :
  touches_findBound i true d a b = None \/ touches_findBound i true d a b = Some (true, d).
Proof.
  revert i b. induction a as [| ra a IH]; intros i [| rb b]; simpl; auto.
  destruct (_ || _)%bool; auto.
Qed.

Lemma findBound_true_meets (i d : Z) (a b : esdmI_hypercube_t) :
  Forall2 meets a b -> touches_findBound i true d a b = Some (true, d).
Proof.
  intros H. revert i. induction H as [| ra rb a b Hm H IH]; intros i; simpl; [done |].
  destruct (_ || _)%bool eqn:E; [| apply IH].
  apply abuts_bool in E. by apply abuts_not_meets in E.
Qed.

Lemma findBound_index (i d k : Z) (a b : esdmI_hypercube_t) :
  touches_findBound i false d a b = Some (true, k) -> i <= k.
Proof.
  revert i b. induction a as [| ra a IH]; intros i [| rb b]; simpl; try discriminate.
  destruct (_ || _)%bool; intros H; [| apply IH in H; lia].
  destruct (findBound_true (i + 1) i a b) as [E | E]; rewrite E in H; [done |].
  injection H as ->. lia.
Qed.

Lemma overlapOthers_past (i k : Z) (a b : esdmI_hypercube_t) :
  length a = length b -> k < i -> touches_overlapOthers i k a b = true <-> Forall2 meets a b.
Proof.
  revert i b. induction a as [| ra a IH]; intros i [| rb b] Hlen Hk; simpl; try discriminate; [done |].
  rewrite Forall2_cons, <- meets_bool, <- (IH (i + 1)) by (simpl in Hlen; lia || congruence).
  rewrite (proj2 (Z.eqb_neq i k)) by lia. simpl.
  destruct (esdmI_range_isEmpty _); intuition congruence.
Qed.

Lemma touches_body_touch_at (a b : esdmI_hypercube_t) :
  length a = length b -> touches_body a b = true <-> touch_at a b.
Proof.
  unfold touches_body. generalize (-1) as d. generalize 0 as i.
  intros i d. revert i b. induction a as [| ra a IH]; intros i [| rb b] Hlen; simpl; try discriminate.
  { split; [discriminate | inversion 1]. }
  injection Hlen as Hlen. destruct (_ || _)%bool eqn:E.
  - apply abuts_bool in E. pose proof (abuts_not_meets _ _ E) as Hn.
    destruct (findBound_true (i + 1) i a b) as [F | F]; rewrite F.
    + split; [discriminate |]. inversion 1 as [? ? ? ? _ Hm |]; subst; [| done].
      by rewrite (findBound_true_meets (i + 1) i a b Hm) in F.
    + rewrite Z.eqb_refl. simpl. rewrite overlapOthers_past by (done || lia).
      split; [by constructor | by inversion 1].
  - assert (Hna : ~ abuts ra rb) by (rewrite <- abuts_bool, E; discriminate).
    assert (HT : touch_at (ra :: a) (rb :: b) <-> meets ra rb /\ touch_at a b).
    { split; [inversion 1; subst; done | intros []; by constructor]. }
    rewrite HT, <- (IH (i + 1) b Hlen), <- meets_bool.
    destruct (touches_findBound (i + 1) false d a b) as [[[|] k] |] eqn:F; [| intuition discriminate..].
    apply findBound_index in F. rewrite (proj2 (Z.eqb_neq i k)) by lia. simpl.
    destruct (esdmI_range_isEmpty _); intuition congruence.
Qed.

Lemma touch_at_sym (a b : esdmI_hypercube_t) : touch_at a b -> touch_at b a.
Proof.
  assert (Hm : forall ra rb, meets ra rb -> meets rb ra) by (unfold meets; lia).
  induction 1 as [ra rb a b Ha H | ra rb a b H _ IH].
  - apply touch_here; [unfold abuts in *; lia |].
    apply Forall2_flip. eapply Forall2_impl; [exact H | intros ? ?; apply Hm].
  - apply touch_there; auto.
Qed.

Lemma meets_common_point (a b : esdmI_hypercube_t) :
  Forall2 meets a b <-> length a = length b /\ exists p, in_cube p a /\ in_cube p b.
Proof.
  split.
  - intros H. split; [by eapply Forall2_length |].
    induction H as [| ra rb a b Hm H (p & Hpa & Hpb)]; [exists []; split; constructor |].
    exists (Z.max (rstart ra) (rstart rb) :: p). rewrite !in_cube_cons2.
    unfold in_range, meets in *. intuition lia.
  - intros (Hlen & p & Ha & Hb). revert b Hlen Hb.
    induction Ha as [| z ra p a Hz Ha IH]; intros [| rb b] Hlen Hb; simpl in *; try discriminate; [constructor |].
    apply in_cube_cons2 in Hb as [Hz' Hb]. constructor; [| apply IH; [congruence | done]].
    unfold meets, in_range in *. lia.
Qed.

Lemma touch_at_adjacent (a b : esdmI_hypercube_t) :
  nonempty a -> nonempty b -> touch_at a b ->
  (forall p, ~ (in_cube p a /\ in_cube p b)) /\
  exists p q, in_cube p a /\ in_cube q b /\ adjacent p q.
Proof.
  intros Ha Hb H. induction H as [ra rb a b Hab H | ra rb a b H _ IH];
    apply Forall_cons in Ha as [Hra Ha]; apply Forall_cons in Hb as [Hrb Hb].
  - split.
    + intros p [(z & p' & -> & Hz & _)%in_cube_cons [Hz' _]%in_cube_cons2].
      unfold abuts, in_range in *. lia.
    + apply meets_common_point in H as (_ & p & Hpa & Hpb). destruct Hab as [E | E].
      * exists (rstart ra :: p), (rend rb - 1 :: p). rewrite !in_cube_cons2. unfold in_range.
        split; [split; [lia | done] |]. split; [split; [lia | done] |]. constructor. lia.
      * exists (rend ra - 1 :: p), (rstart rb :: p). rewrite !in_cube_cons2. unfold in_range.
        split; [split; [lia | done] |]. split; [split; [lia | done] |]. constructor. lia.
  - destruct (IH Ha Hb) as [Hd (p & q & Hp & Hq & Hpq)]. split.
    + intros r [(z & r' & -> & _ & Hr)%in_cube_cons [_ Hr']%in_cube_cons2]. exact (Hd r' (conj Hr Hr')).
    + set (z := Z.max (rstart ra) (rstart rb)). unfold meets in H.
      exists (z :: p), (z :: q). rewrite !in_cube_cons2. unfold in_range.
      split; [split; [lia | done] |]. split; [split; [lia | done] |]. by constructor.
Qed.

Lemma adjacent_touch_at (p q : list Z) (a b : esdmI_hypercube_t) :
  adjacent p q -> in_cube p a -> in_cube q b ->
  (forall r, ~ (in_cube r a /\ in_cube r b)) -> touch_at a b.
Proof.
  intros H. revert a b. induction H as [x y p Hxy | x p q H IH]; intros a b Ha Hb Hd;
    inversion Ha as [| ? ra ? a' Hx Ha']; subst; inversion Hb as [| ? rb ? b' Hy Hb']; subst.
  - apply touch_here.
    + assert (Hn : forall z, ~ (in_range z ra /\ in_range z rb)).
      { intros z [? ?]. apply (Hd (z :: p)). by rewrite !in_cube_cons2. }
      pose proof (Hn x). pose proof (Hn y). unfold abuts, in_range in *. lia.
    + apply meets_common_point. split; [| eauto].
      by rewrite <- (in_cube_length p a'), <- (in_cube_length p b').
  - apply touch_there; [unfold meets, in_range in *; lia |].
    apply IH; [done | done |]. intros r [Hr Hr']. apply (Hd (x :: r)). by rewrite !in_cube_cons2.
Qed.

(** ** Hashing *)

Lemma hash_loops_agree (offset size : list Z) (n i : nat) (f r h : Z) (c : esdmI_hypercube_t) :
  mapM (esdmI_hypercube_make_range offset size) (seq i n) = Done c ->
  hash_loop f r c = Done h -> hashOffsetSize_loop f r offset size i n = Done h.
Proof.
  revert i f r c. induction n as [| n IH]; intros i f r c Hc Hh; csimpl in *.
  - injection Hc as <-. exact Hh.
  - apply bind_done_inv in Hc as (rg & Hrg & Hc). apply bind_done_inv in Hc as (c' & Hc' & Hc).
    unfold esdmI_hypercube_make_range in Hrg. injection Hc as <-.
    apply bind_done_inv in Hrg as (o & Ho & Hrg). apply bind_done_inv in Hrg as (s & Hs & Hrg).
    rewrite Ho, Hs. simpl in *. inv_outcome. simpl in *.
    rewrite chk64_ok by done. simpl. rewrite !u32_mul_r, !u32_add_r. eauto.
Qed.

(** * Properties *)

(** [esdmI_hypercube_makeIntersection()] of two hypercubes of equal rank returns
    the non-empty hypercube of exactly the common points, or NULL exactly when there
    is no common point. *)
Theorem makeIntersection_correct (a b : esdmI_hypercube_t) (Hdims : length a = length b) :
  exists r, esdmI_hypercube_makeIntersection a b = Done r /\
  match r with
  | Some c => length c = length a /\ (exists p, in_cube p c) /\
              (forall p, in_cube p c <-> in_cube p a /\ in_cube p b)
  | None => forall p, ~ (in_cube p a /\ in_cube p b)
  end.
Proof.
  exists (makeIntersection_loop a b). unfold esdmI_hypercube_makeIntersection.
  rewrite eassert_true by (by apply sameDims_iff). split; [done |].
  pose proof (makeIntersection_loop_spec a b Hdims) as H.
  destruct (makeIntersection_loop a b) as [c |]; [| done].
  rewrite <- nonempty_iff. tauto.
Qed.

Lemma makeIntersection_correct_witness :
  exists r, esdmI_hypercube_makeIntersection [Range 0 4; Range 2 9] [Range 3 8; Range 0 5] = Done r /\
  r = Some [Range 3 4; Range 2 5].
Proof.
  destruct (makeIntersection_correct [Range 0 4; Range 2 9] [Range 3 8; Range 0 5] eq_refl)
    as (r & Hr & _).
  exists r. split; [exact Hr | revert Hr; vm_compute; congruence].
Defined.

(** [esdmI_hypercube_touches()] on two non-empty hypercubes of equal rank answers
    true exactly when they are disjoint and contain a pair of grid points that differ by
    one in exactly one coordinate, which is the contract stated in the header. *)
Theorem touches_correct (a b : esdmI_hypercube_t)
    (Hdims : length a = length b) (Ha : nonempty a) (Hb : nonempty b) :
  exists r, esdmI_hypercube_touches a b = Done r /\
  (r = true <->
   (forall p, ~ (in_cube p a /\ in_cube p b)) /\
   exists p q, in_cube p a /\ in_cube q b /\ adjacent p q).
Proof.
  exists (touches_body a b). unfold esdmI_hypercube_touches.
  rewrite eassert_true by (by apply sameDims_iff). split; [done |].
  rewrite touches_body_touch_at by done. split.
  - by apply touch_at_adjacent.
  - intros (Hd & p & q & Hp & Hq & Hpq). by eapply adjacent_touch_at.
Qed.

Lemma touches_correct_witness :
  exists r, esdmI_hypercube_touches [Range 0 4; Range 2 9] [Range 4 8; Range 0 5] = Done r /\ r = true.
Proof.
  destruct (touches_correct [Range 0 4; Range 2 9] [Range 4 8; Range 0 5] eq_refl) as (r & Hr & _).
  { repeat constructor. }
  { repeat constructor. }
  exists r. split; [exact Hr | revert Hr; vm_compute; congruence].
Defined.

(** [esdmI_hypercube_overlap()] returns the number of grid points two hypercubes
    share, without overflow whenever the volume of the first fits an [int64_t]. *)
Theorem overlap_counts_common_points (a b : esdmI_hypercube_t)
    (Hdims : length a = length b) (Ha : nonempty a) (Hmax : volume a <= INT64_MAX) :
  exists l : list (list Z), NoDup l /\ (forall p, p ∈ l <-> in_cube p a /\ in_cube p b) /\
  esdmI_hypercube_overlap a b = Done (Z.of_nat (length l)).
Proof.
  unfold esdmI_hypercube_overlap. rewrite eassert_true by (by apply sameDims_iff). simpl.
  rewrite overlap_loop_ok by (lia || done).
  pose proof (makeIntersection_loop_spec a b Hdims) as H.
  destruct (makeIntersection_loop a b) as [c |].
  - exists (points c). split; [apply NoDup_points |]. split.
    + intros p. rewrite elem_of_points. apply H.
    + rewrite length_points. f_equal. lia.
  - exists []. split; [constructor |]. split; [| done].
    intros p. split; [by intros ?%elem_of_nil | intros Hp; destruct (H p Hp)].
Qed.

Lemma overlap_counts_common_points_witness :
  exists l : list (list Z), NoDup l /\ esdmI_hypercube_overlap [Range 0 4; Range 2 9] [Range 3 8; Range 0 5] = Done (Z.of_nat (length l)).
Proof.
  destruct (overlap_counts_common_points [Range 0 4; Range 2 9] [Range 3 8; Range 0 5] eq_refl)
    as (l & Hl & _ & H).
  { repeat constructor. }
  { vm_compute; discriminate. }
  exists l. split; [exact Hl | exact H].
Defined.

(** [esdmI_hypercube_hash()] and [esdmI_hypercube_hashOffsetSize()] agree: the hash of
    the hypercube made from an offset and a size vector, where it is defined, is the hash
    computed from the two vectors. *)
Theorem hash_agrees (dims : Z) (offset size : list Z) (c : esdmI_hypercube_t) (h : Z)
    (Hd : 0 <= dims) (Hc : esdmI_hypercube_make dims offset size = Done c)
    (Hh : esdmI_hypercube_hash c = Done h) :
  esdmI_hypercube_hashOffsetSize dims offset size = Done h.
Proof.
  unfold esdmI_hypercube_hashOffsetSize, esdmI_hypercube_hash, esdmI_hypercube_make in *.
  assert (Hl : esdmI_hypercube_dimensions c = dims).
  { unfold esdmI_hypercube_dimensions. apply mapM_done_length in Hc. rewrite length_seq in Hc. lia. }
  rewrite Hl in Hh. inv_outcome.
  rewrite eassert_true by (rewrite Z.geb_leb; by apply Z.leb_le). simpl.
  rewrite chk64_ok by done. simpl. by eapply hash_loops_agree.
Qed.

Lemma hash_agrees_witness :
  exists h, esdmI_hypercube_hashOffsetSize 2 [3; 5] [10; 20] = Done h.
Proof.
  eexists. eapply (hash_agrees 2 [3; 5] [10; 20]).
  - lia.
  - reflexivity.
  - reflexivity.
Defined.

(** the signed product in [esdmI_hypercube_hash()] overflows for coordinates that
    [esdmI_hypercube_hashOffsetSize()] handles: the hash of the hypercube is undefined
    behaviour where the hash of the same shape given as vectors is defined. *)
Lemma hash_undefined_for_large_coordinates :
  exists c h, esdmI_hypercube_make 1 [2 ^ 33] [1] = Done c /\
  esdmI_hypercube_hash c = Undef /\
  esdmI_hypercube_hashOffsetSize 1 [2 ^ 33] [1] = Done h.
Proof. eexists _, _. repeat split; vm_compute; reflexivity. Qed.

(** Coordinates that fit into 32 bits are safe. *)
Lemma hash_loop_defined (c : esdmI_hypercube_t) (factor result : Z) :
  Forall (fun r => - 2 ^ 31 < rstart r < 2 ^ 31 /\ - 2 ^ 31 < rend r < 2 ^ 31) c -> 0 <= result < 2 ^ 32 -> exists h, hash_loop factor result c = Done h.
Proof.
  intros Hc. revert factor result. induction Hc as [| r c [H1 H2] _ IH]; intros factor result Hr; cbn [hash_loop]; [by eexists |].
  assert (Hu : forall z, 0 <= u32 z < 2 ^ 32) by (intros z; unfold u32; apply Z.mod_pos_bound; lia).
  assert (Hp : forall z x, - 2 ^ 31 < x < 2 ^ 31 -> - 2 ^ 63 + 2 ^ 32 <= u32 z * x <= 2 ^ 63 - 2 ^ 32) by (intros z x Hx; specialize (Hu z); nia).
  pose proof (Hp (factor * kRandomPrime) _ H1). pose proof (Hp (u32 (factor * kRandomPrime) * kRandomPrime) _ H2).
  rewrite chk64_ok by (unfold INT64_MIN, INT64_MAX; lia). cbn [mbind outcome_bind]. rewrite chk64_ok by (unfold INT64_MIN, INT64_MAX; lia). cbn [mbind outcome_bind].
  rewrite chk64_ok by (unfold INT64_MIN, INT64_MAX; lia). cbn [mbind outcome_bind]. pose proof (Hu (result + u32 (factor * kRandomPrime) * rstart r)).
  rewrite chk64_ok by (unfold INT64_MIN, INT64_MAX; lia). cbn [mbind outcome_bind]. apply IH, Hu.
Qed.

Lemma hash_defined (c : esdmI_hypercube_t) :
  Forall (fun r => - 2 ^ 31 < rstart r < 2 ^ 31 /\ - 2 ^ 31 < rend r < 2 ^ 31) c -> Z.of_nat (length c) < 2 ^ 31 -> exists h, esdmI_hypercube_hash c = Done h.
Proof.
  intros Hc Hl. unfold esdmI_hypercube_hash, esdmI_hypercube_dimensions. rewrite chk64_ok by (unfold INT64_MIN, INT64_MAX, kRandomPrime; lia). simpl.
  apply hash_loop_defined; [done |]. unfold u32. apply Z.mod_pos_bound. lia.
Qed.
