(* ===== verification/HypercubeSet.v ===== *)
(** Hypercube lists and sets (src/hypercube.c): growth, emptiness, subtraction and
    coverage, with subtraction specified by how often each grid point is covered. *)

From S2P Require Import Prelude Hypercube.

(** * Data *)

(** [esdmI_hypercubeSet_t]: [list.count] is the length of [cubes]; the slots from
    there up to [allocatedCount] hold no cube. *)
Record esdmI_hypercubeSet_t := HypercubeSet {
  cubes : list esdmI_hypercube_t;
  allocatedCount : Z
}.

Definition esdmI_hypercubeSet_count (me : esdmI_hypercubeSet_t) : Z := Z.of_nat (length (cubes me)).

Definition esdmI_hypercubeSet_list (me : esdmI_hypercubeSet_t) : list esdmI_hypercube_t := cubes me.

(** * Operations *)

Definition esdmI_hypercubeSet_construct : esdmI_hypercubeSet_t :=
  {| cubes := []; allocatedCount := 8 |}.

Definition esdmI_hypercubeSet_make : esdmI_hypercubeSet_t := esdmI_hypercubeSet_construct.

Definition esdmI_hypercubeSet_add (me : esdmI_hypercubeSet_t) (cube : esdmI_hypercube_t)
    : outcome esdmI_hypercubeSet_t :=
  let allocated :=
    if esdmI_hypercubeSet_count me =? allocatedCount me
    then Z.shiftl (allocatedCount me) 1 else allocatedCount me in
  eassert (allocated >? esdmI_hypercubeSet_count me);;
  mret {| cubes := cubes me ++ [esdmI_hypercube_makeCopy cube]; allocatedCount := allocated |}.

(** Dropping the cube at index [i]: [cubes[i] = cubes[--count]]. *)
Definition dropCube (me : esdmI_hypercubeSet_t) (i : nat) : esdmI_hypercubeSet_t :=
  {| cubes := swap_remove (cubes me) i; allocatedCount := allocatedCount me |}.

Fixpoint isEmpty_loop (i : nat) (me : esdmI_hypercubeSet_t) : outcome (bool * esdmI_hypercubeSet_t) :=
  match i with
  | O => eassert (esdmI_hypercubeSet_count me =? 0);; mret (true, me)
  | S i' =>
      cube ← deref (cubes me !! i');
      if esdmI_hypercube_isEmpty cube then isEmpty_loop i' (dropCube me i') else mret (false, me)
  end.

Definition esdmI_hypercubeSet_isEmpty (me : esdmI_hypercubeSet_t) : outcome (bool * esdmI_hypercubeSet_t) :=
  isEmpty_loop (length (cubes me)) me.

(** The two parts of the minuend before and behind the subtrahend in dimension
    [curDim], added to the set. *)
Definition subtract_oneDim (me : esdmI_hypercubeSet_t) (minuend : esdmI_hypercube_t) (curDim : nat)
    (m s : esdmI_range_t) : outcome esdmI_hypercubeSet_t :=
  let copy := esdmI_hypercube_makeCopy minuend in
  '(me1, copy1) ←
    (if rstart m <? rstart s then
       let copy' := if rend m >? rstart s
                    then <[curDim := Range (rstart m) (rstart s)]> copy else copy in
       me' ← esdmI_hypercubeSet_add me copy';
       mret (me', copy')
     else mret (me, copy));
  if rend m >? rend s then
    c ← deref (copy1 !! curDim);
    let copy2 := if rstart c <? rend s
                 then <[curDim := Range (rend s) (rend m)]> copy1 else copy1 in
    esdmI_hypercubeSet_add me1 copy2
  else mret me1.

(** The loop over the dimensions; [n] is the number of dimensions left. *)
Fixpoint subtract_splitDims (n curDim : nat) (me : esdmI_hypercubeSet_t)
    (minuend subtrahend : esdmI_hypercube_t) : outcome esdmI_hypercubeSet_t :=
  match n with
  | O => mret me
  | S n' =>
      m ← deref (minuend !! curDim);
      s ← deref (subtrahend !! curDim);
      me' ← subtract_oneDim me minuend curDim m s;
      subtract_splitDims n' (S curDim) me'
        (<[curDim := esdmI_range_intersection m s]> minuend) subtrahend
  end.

(** The loop over the cubes, from the last index down to the first. *)
Fixpoint subtract_loop (i : nat) (me : esdmI_hypercubeSet_t) (subtrahend : esdmI_hypercube_t)
    : outcome esdmI_hypercubeSet_t :=
  match i with
  | O => mret me
  | S i' =>
      minuend ← deref (cubes me !! i');
      eassert (sameDims minuend subtrahend);;
      hit ← esdmI_hypercube_doesIntersect minuend subtrahend;
      if negb hit then subtract_loop i' me subtrahend
      else
        me' ← subtract_splitDims (length subtrahend) 0 (dropCube me i') minuend subtrahend;
        subtract_loop i' me' subtrahend
  end.

Definition esdmI_hypercubeSet_subtract (me : esdmI_hypercubeSet_t) (subtrahend : esdmI_hypercube_t)
    : outcome esdmI_hypercubeSet_t :=
  subtract_loop (length (cubes me)) me subtrahend.

Fixpoint esdmI_hypercubeList_doesIntersect (list : list esdmI_hypercube_t) (cube : esdmI_hypercube_t)
    : outcome bool :=
  match list with
  | [] => mret false
  | c :: list' =>
      hit ← esdmI_hypercube_doesIntersect c cube;
      if (hit : bool) then mret true else esdmI_hypercubeList_doesIntersect list' cube
  end.

Fixpoint fullyCovered_loop (restSet : esdmI_hypercubeSet_t) (coveringCubes : list (option esdmI_hypercube_t))
    : outcome esdmI_hypercubeSet_t :=
  match coveringCubes with
  | [] => mret restSet
  | None :: covering' => fullyCovered_loop restSet covering'
  | Some c :: covering' =>
      restSet' ← esdmI_hypercubeSet_subtract restSet c;
      if esdmI_hypercubeSet_count restSet' =? 0 then mret restSet'
      else fullyCovered_loop restSet' covering'
  end.

Definition hypercubeIsFullyCovered (coveredCube : esdmI_hypercube_t)
    (coveringCubes : list (option esdmI_hypercube_t)) : outcome bool :=
  restSet ← esdmI_hypercubeSet_add esdmI_hypercubeSet_construct coveredCube;
  restSet' ← fullyCovered_loop restSet coveringCubes;
  mret (esdmI_hypercubeSet_count restSet' =? 0).

Fixpoint intersectingCubes (list : list esdmI_hypercube_t) (cube : esdmI_hypercube_t)
    : outcome (Datatypes.list esdmI_hypercube_t) :=
  match list with
  | [] => mret []
  | c :: list' =>
      hit ← esdmI_hypercube_doesIntersect c cube;
      rest ← intersectingCubes list' cube;
      mret (if (hit : bool) then c :: rest else rest)
  end.

Definition esdmI_hypercubeList_doesCoverFully (list : list esdmI_hypercube_t) (cube : esdmI_hypercube_t)
    : outcome bool :=
  hits ← intersectingCubes list cube;
  hypercubeIsFullyCovered cube (Some <$> hits).

(** * Specification: how often a point is covered *)

(** The number of cubes of the list that contain the point. *)
Definition cover_count (l : list esdmI_hypercube_t) (p : list Z) : nat :=
  length (filter (in_cube p) l).

Definition covered (l : list esdmI_hypercube_t) (p : list Z) : Prop := exists c, c ∈ l /\ in_cube p c.

#[global] Instance cover_count_perm : Proper ((≡ₚ) ==> eq ==> eq) cover_count.
Proof. intros l k H p q <-. unfold cover_count. by rewrite H. Qed.

Lemma cover_count_nil (p : list Z) : cover_count [] p = 0%nat.
Proof. done. Qed.

Lemma cover_count_cons (c : esdmI_hypercube_t) (l : list esdmI_hypercube_t) (p : list Z) :
  cover_count (c :: l) p = ((if decide (in_cube p c) then 1 else 0) + cover_count l p)%nat.
Proof. unfold cover_count. rewrite filter_cons. by case_decide. Qed.

Lemma cover_count_app (l k : list esdmI_hypercube_t) (p : list Z) :
  cover_count (l ++ k) p = (cover_count l p + cover_count k p)%nat.
Proof. unfold cover_count. by rewrite filter_app, length_app. Qed.

Lemma covered_count (l : list esdmI_hypercube_t) (p : list Z) :
  covered l p <-> (0 < cover_count l p)%nat.
Proof.
  unfold covered. induction l as [| c l IH].
  - rewrite cover_count_nil. split; [by intros (c & ?%elem_of_nil & _) | lia].
  - rewrite cover_count_cons. setoid_rewrite elem_of_cons. split.
    + intros (d & [-> | Hd] & Hp); [rewrite decide_True by done; lia |].
      apply Nat.add_pos_r, IH. eauto.
    + case_decide as Hc; [eauto |]. intros (d & Hd & Hp)%IH. eauto.
Qed.

Lemma not_covered_count (l : list esdmI_hypercube_t) (p : list Z) :
  ~ covered l p <-> cover_count l p = 0%nat.
Proof. rewrite covered_count. lia. Qed.

Lemma cover_count_prefix (r : esdmI_range_t) (l : list esdmI_hypercube_t) (z : Z) (p : list Z) :
  cover_count (cons r <$> l) (z :: p) = if decide (in_range z r) then cover_count l p else 0%nat.
Proof.
  induction l as [| c l IH]; csimpl.
  - rewrite !cover_count_nil. by case_decide.
  - rewrite !cover_count_cons, IH.
    rewrite (decide_ext (in_cube (z :: p) (r :: c)) (in_range z r /\ in_cube p c)) by apply in_cube_cons2.
    repeat case_decide; tauto || lia.
Qed.

Lemma cover_count_prefix_nil (r : esdmI_range_t) (l : list esdmI_hypercube_t) :
  cover_count (cons r <$> l) [] = 0%nat.
Proof.
  apply not_covered_count. intros (c & Hc & Hp). apply list_elem_of_fmap in Hc as (d & -> & _).
  inversion Hp.
Qed.

(** * Well-formedness *)

(** The buffer is allocated and holds the cubes. *)
Definition set_wf (me : esdmI_hypercubeSet_t) : Prop :=
  0 < allocatedCount me /\ esdmI_hypercubeSet_count me <= allocatedCount me.

Definition set_dims (n : nat) (me : esdmI_hypercubeSet_t) : Prop :=
  Forall (fun c => length c = n) (cubes me).

Lemma construct_wf : set_wf esdmI_hypercubeSet_construct.
Proof. unfold set_wf, esdmI_hypercubeSet_count. simpl. lia. Qed.

Lemma add_ok (me : esdmI_hypercubeSet_t) (c : esdmI_hypercube_t) :
  set_wf me -> exists me', esdmI_hypercubeSet_add me c = Done me' /\ set_wf me' /\ cubes me' = cubes me ++ [c].
Proof.
  unfold set_wf, esdmI_hypercubeSet_add. intros [H0 Hle].
  rewrite (Z.shiftl_mul_pow2 _ 1) by lia. rewrite Z.pow_1_r.
  destruct (Z.eqb_spec (esdmI_hypercubeSet_count me) (allocatedCount me)) as [E | E];
    (rewrite eassert_true by (rewrite Z.gtb_ltb; apply Z.ltb_lt; lia)); eexists; (split; [reflexivity |]);
    unfold esdmI_hypercubeSet_count in *; simpl; rewrite length_app; simpl; (split; [lia | done]).
Qed.

Lemma dropCube_wf (me : esdmI_hypercubeSet_t) (i : nat) : set_wf me -> set_wf (dropCube me i).
Proof.
  unfold set_wf, esdmI_hypercubeSet_count, dropCube. simpl. rewrite length_swap_remove. lia.
Qed.

#[export] Hint Resolve construct_wf dropCube_wf : core.

(** * Subtraction *)

(** The parts of one minuend that remain, in the order the code adds them. *)
Fixpoint pieces (ms ss : esdmI_hypercube_t) : list esdmI_hypercube_t :=
  match ms, ss with
  | m :: ms', s :: ss' =>
      (if rstart m <? rstart s then [Range (rstart m) (rstart s) :: ms'] else []) ++
      (if rend m >? rend s then [Range (rend s) (rend m) :: ms'] else []) ++
      (cons (esdmI_range_intersection m s) <$> pieces ms' ss')
  | _, _ => []
  end.

Lemma subtract_oneDim_ok (me : esdmI_hypercubeSet_t) (pre ms : esdmI_hypercube_t) (m s : esdmI_range_t) :
  set_wf me -> meets m s ->
  exists me', subtract_oneDim me (pre ++ m :: ms) (length pre) m s = Done me' /\ set_wf me' /\
  cubes me' = cubes me ++
    (if rstart m <? rstart s then [pre ++ Range (rstart m) (rstart s) :: ms] else []) ++
    (if rend m >? rend s then [pre ++ Range (rend s) (rend m) :: ms] else []).
Proof.
  intros Hwf Hm. unfold meets in Hm. unfold subtract_oneDim, esdmI_hypercube_makeCopy.
  rewrite (proj2 (Z.gtb_lt (rend m) (rstart s))) by lia.
  rewrite list_insert_middle.
  destruct (Z.ltb_spec (rstart m) (rstart s)) as [Hlt | Hge].
  - destruct (add_ok me (pre ++ Range (rstart m) (rstart s) :: ms) Hwf) as (me1 & -> & Hwf1 & Hc1).
    simpl. destruct (rend m >? rend s).
    + rewrite list_lookup_middle by done. simpl.
      rewrite (proj2 (Z.ltb_lt (rstart m) (rend s))) by lia. rewrite list_insert_middle.
      destruct (add_ok me1 (pre ++ Range (rend s) (rend m) :: ms) Hwf1) as (me2 & -> & Hwf2 & Hc2).
      exists me2. split; [done |]. split; [done |]. by rewrite Hc2, Hc1, <- app_assoc.
    + exists me1. done.
  - simpl. destruct (rend m >? rend s).
    + rewrite list_lookup_middle by done. simpl.
      rewrite (proj2 (Z.ltb_lt (rstart m) (rend s))) by lia. rewrite list_insert_middle.
      destruct (add_ok me (pre ++ Range (rend s) (rend m) :: ms) Hwf) as (me2 & -> & Hwf2 & Hc2).
      exists me2. done.
    + exists me. simpl. by rewrite app_nil_r.
Qed.

Lemma subtract_splitDims_ok (me : esdmI_hypercubeSet_t) (pre spre ms ss : esdmI_hypercube_t) :
  set_wf me -> Forall2 meets ms ss -> length pre = length spre ->
  exists me', subtract_splitDims (length ss) (length pre) me (pre ++ ms) (spre ++ ss) = Done me' /\
  set_wf me' /\ cubes me' = cubes me ++ (app pre <$> pieces ms ss).
Proof.
  intros Hwf H. revert me pre spre Hwf.
  induction H as [| m s ms ss Hm H IH]; intros me pre spre Hwf Hlen; simpl.
  { exists me. rewrite app_nil_r. done. }
  rewrite list_lookup_middle by done. simpl. rewrite Hlen, list_lookup_middle by done. simpl.
  rewrite <- Hlen.
  destruct (subtract_oneDim_ok me pre ms m s Hwf Hm) as (me1 & -> & Hwf1 & Hc1). simpl.
  rewrite list_insert_middle.
  rewrite (cons_middle _ pre ms), (cons_middle _ spre ss), !(assoc_L (++)).
  replace (S (length pre)) with (length (pre ++ [esdmI_range_intersection m s]))
    by (rewrite length_app; simpl; lia).
  destruct (IH me1 (pre ++ [esdmI_range_intersection m s]) (spre ++ [s]) Hwf1)
    as (me2 & -> & Hwf2 & Hc2); [rewrite !length_app; simpl; lia |].
  exists me2. split; [done |]. split; [done |]. rewrite Hc2, Hc1.
  rewrite !fmap_app, <- !(assoc_L (++)), <- list_fmap_compose.
  f_equal. f_equal; [by destruct (_ <? _) |]. f_equal; [by destruct (_ >? _) |].
  apply list_fmap_ext. intros i c _. simpl. by rewrite <- (assoc_L (++)).
Qed.

(** Each point of the minuend outside the subtrahend is in exactly one piece, and
    no other point is in any. *)
Lemma cover_count_pieces (ms ss : esdmI_hypercube_t) (p : list Z) :
  Forall2 meets ms ss ->
  cover_count (pieces ms ss) p =
    if decide (in_cube p ms /\ ~ in_cube p ss) then 1%nat else 0%nat.
Proof.
  intros H. revert p. induction H as [| m s ms ss Hm H IH]; intros p; simpl.
  { rewrite cover_count_nil. rewrite decide_False; tauto. }
  rewrite !cover_count_app. destruct p as [| z p].
  { rewrite cover_count_prefix_nil, decide_False by (intros [Hp _]; inversion Hp).
    repeat case_match; rewrite ?cover_count_cons, ?cover_count_nil; try done;
      repeat rewrite decide_False by (intros Hp; inversion Hp); done. }
  rewrite cover_count_prefix, IH. clear IH.
  rewrite (decide_ext (in_cube (z :: p) (m :: ms) /\ ¬ in_cube (z :: p) (s :: ss))
                      ((in_range z m /\ in_cube p ms) /\ ¬ (in_range z s /\ in_cube p ss)))
    by (by rewrite !in_cube_cons2).
  rewrite (decide_ext (in_range z (esdmI_range_intersection m s)) (in_range z m /\ in_range z s))
    by apply in_range_intersection.
  assert (Hone : forall (b : bool) (x y : Z), cover_count (if b then [Range x y :: ms] else []) (z :: p) =
            if b then (if decide (in_range z (Range x y) /\ in_cube p ms) then 1 else 0)%nat else 0%nat).
  { intros [] x y; [| done]. rewrite cover_count_cons, cover_count_nil, Nat.add_0_r.
    apply decide_ext, in_cube_cons2. }
  rewrite !Hone. unfold in_range, meets in *. simpl. rewrite Z.gtb_ltb.
  destruct (decide (in_cube p ms)) as [Hms | Hms].
  - rewrite !(decide_and_r _ (in_cube p ms)) by done.
    rewrite (decide_ext (in_cube p ms /\ ¬ in_cube p ss) (¬ in_cube p ss)) by tauto.
    destruct (decide (in_cube p ss)) as [Hss | Hss].
    + rewrite (decide_False (P := ¬ in_cube p ss)) by tauto.
      rewrite (decide_ext (_ /\ ¬ _) (rstart m <= z < rend m /\ ¬ (rstart s <= z < rend s))) by tauto.
      clear Hone H. repeat (case_decide || case_match); reflect_bools; lia.
    + rewrite (decide_True (P := ¬ in_cube p ss)) by tauto.
      rewrite (decide_ext (_ /\ ¬ _) (rstart m <= z < rend m)) by tauto.
      clear Hone H. repeat (case_decide || case_match); reflect_bools; lia.
  - clear Hone H. repeat (case_decide || case_match); tauto.
Qed.

Lemma length_pieces (ms ss : esdmI_hypercube_t) :
  Forall (fun c => length c = length ms) (pieces ms ss).
Proof.
  revert ss. induction ms as [| m ms IH]; intros [| s ss]; simpl; try constructor.
  rewrite !Forall_app, Forall_fmap. split; [| split].
  - by destruct (_ <? _); repeat constructor.
  - by destruct (_ >? _); repeat constructor.
  - eapply Forall_impl; [apply IH |]. simpl. intros c ->. done.
Qed.

Lemma nonempty_pieces (ms ss : esdmI_hypercube_t) :
  Forall2 meets ms ss -> Forall nonempty (pieces ms ss).
Proof.
  intros H. assert (Hms : nonempty ms).
  { apply meets_common_point in H as (_ & p & Hp & _). eauto using in_cube_nonempty. }
  induction H as [| m s ms ss Hm H IH]; simpl; [constructor |].
  apply Forall_cons in Hms as [Hm0 Hms]. unfold meets in Hm.
  rewrite !Forall_app, Forall_fmap. split; [| split].
  - destruct (Z.ltb_spec (rstart m) (rstart s)); repeat constructor; done.
  - destruct (Z.gtb_spec (rend m) (rend s)); repeat constructor; simpl; done || lia.
  - eapply Forall_impl; [by apply IH |]. intros c Hc. constructor; [| done].
    rewrite rstart_intersection, rend_intersection. done.
Qed.

(** A cube that shares no point with the subtrahend. *)
Definition clean (subtrahend c : esdmI_hypercube_t) : Prop :=
  forall p, ~ (in_cube p c /\ in_cube p subtrahend).

Lemma clean_pieces (ms ss c : esdmI_hypercube_t) : Forall2 meets ms ss -> c ∈ pieces ms ss -> clean ss c.
Proof.
  intros H Hc p [Hp Hs].
  assert (Hcov : covered (pieces ms ss) p) by (exists c; done).
  apply covered_count in Hcov. rewrite cover_count_pieces in Hcov by done.
  rewrite decide_False in Hcov by tauto. lia.
Qed.

(** What one call of the subtraction guarantees. *)
Definition subtract_post (subtrahend : esdmI_hypercube_t) (me me' : esdmI_hypercubeSet_t) : Prop :=
  set_wf me' /\ set_dims (length subtrahend) me' /\
  (Forall nonempty (cubes me) -> Forall nonempty (cubes me')) /\
  forall p, cover_count (cubes me') p =
            if decide (in_cube p subtrahend) then 0%nat else cover_count (cubes me) p.

(** The step that replaces the cube at index [i]. *)
Lemma subtract_hit (me : esdmI_hypercubeSet_t) (c sub : esdmI_hypercube_t) (i : nat) :
  set_wf me -> set_dims (length sub) me -> cubes me !! i = Some c -> Forall2 meets c sub ->
  (forall d, d ∈ drop (S i) (cubes me) -> clean sub d) ->
  exists me1, subtract_splitDims (length sub) 0 (dropCube me i) c sub = Done me1 /\
    set_wf me1 /\ set_dims (length sub) me1 /\ (i <= length (cubes me1))%nat /\
    (forall d, d ∈ drop i (cubes me1) -> clean sub d) /\
    (Forall nonempty (cubes me) -> Forall nonempty (cubes me1)) /\
    (forall p, ~ in_cube p sub -> cover_count (cubes me1) p = cover_count (cubes me) p).
Proof.
  intros Hwf Hd Hi Hm Hclean. pose proof (swap_remove_perm _ _ _ Hi) as Hperm.
  pose proof (lookup_lt_Some _ _ _ Hi) as Hlt. unfold set_dims in *.
  assert (Hc : length c = length sub) by (by eapply (Forall_lookup_1 _ _ _ _ Hd)).
  destruct (subtract_splitDims_ok (dropCube me i) [] [] c sub) as (me1 & H1 & Hwf1 & Hc1); auto.
  rewrite (list_fmap_ext _ id) in Hc1 by done. rewrite list_fmap_id in Hc1. simpl in Hc1.
  exists me1. split; [exact H1 |]. split; [exact Hwf1 |]. rewrite Hc1.
  split; [| split; [| split; [| split]]].
  - rewrite Hperm in Hd. apply Forall_cons in Hd as [_ Hd]. apply Forall_app. split; [done |].
    rewrite <- Hc. apply length_pieces.
  - rewrite length_app, length_swap_remove. lia.
  - intros d. rewrite drop_app, elem_of_app. intros [Hin | Hin].
    + apply Hclean. by apply elem_of_drop_swap_remove.
    + eapply clean_pieces; [exact Hm |]. by eapply subseteq_drop.
  - intros Hn. rewrite Hperm in Hn. apply Forall_cons in Hn as [_ Hn].
    apply Forall_app. split; [done | by apply nonempty_pieces].
  - intros p Hp. rewrite cover_count_app, cover_count_pieces by done.
    rewrite (cover_count_perm _ _ Hperm p p eq_refl), cover_count_cons.
    rewrite (decide_ext (in_cube p c /\ ¬ in_cube p sub) (in_cube p c)) by tauto. lia.
Qed.

Lemma subtract_loop_ok (sub : esdmI_hypercube_t) (i : nat) (me : esdmI_hypercubeSet_t) :
  set_wf me -> set_dims (length sub) me -> (i <= length (cubes me))%nat ->
  (forall d, d ∈ drop i (cubes me) -> clean sub d) ->
  exists me', subtract_loop i me sub = Done me' /\ subtract_post sub me me'.
Proof.
  revert me. induction i as [| i IH]; intros me Hwf Hd Hi Hclean; simpl.
  - exists me. split; [done |]. split; [done |]. split; [done |]. split; [done |].
    intros p. case_decide as Hp; [| done]. apply not_covered_count. intros (d & Hin & Hpd).
    rewrite drop_0 in Hclean. exact (Hclean d Hin p (conj Hpd Hp)).
  - destruct (lookup_lt_is_Some_2 (cubes me) i) as [c Hc]; [lia |]. rewrite Hc. simpl.
    assert (Hlen : length c = length sub) by (by eapply (Forall_lookup_1 _ _ _ _ Hd)).
    unfold esdmI_hypercube_doesIntersect. rewrite eassert_true by (by apply sameDims_iff). simpl.
    pose proof (doesIntersect_loop_iff c sub Hlen) as Hhit.
    destruct (doesIntersect_loop c sub); simpl.
    + destruct (subtract_hit me c sub i) as (me1 & -> & Hwf1 & Hd1 & Hi1 & Hc1 & Hn1 & Hp1); auto.
      { apply meets_common_point. split; [done | by apply Hhit]. }
      simpl. destruct (IH me1 Hwf1 Hd1 Hi1 Hc1) as (me' & -> & Hw' & Hd' & Hn' & Hp').
      exists me'. split; [done |]. split; [done |]. split; [done |]. split; [auto |].
      intros p. rewrite Hp'. case_decide; [done | by apply Hp1].
    + apply IH; [done | done | lia |]. intros d. rewrite (drop_S _ c) by done.
      rewrite elem_of_cons. intros [-> | Hin]; [| by apply Hclean].
      intros p Hp. assert (false = true) as [=]. apply Hhit. eauto.
Qed.

Lemma subtract_ok (me : esdmI_hypercubeSet_t) (sub : esdmI_hypercube_t) :
  set_wf me -> set_dims (length sub) me ->
  exists me', esdmI_hypercubeSet_subtract me sub = Done me' /\ subtract_post sub me me'.
Proof.
  intros Hwf Hd. apply subtract_loop_ok; [done | done | done |].
  intros d. rewrite drop_all. by intros ?%elem_of_nil.
Qed.

(** * Coverage *)

(** Some of the given cubes, the NULL entries skipped, contains the point. *)
Definition covers_opt (covering : list (option esdmI_hypercube_t)) (p : list Z) : Prop :=
  exists c, Some c ∈ covering /\ in_cube p c.

#[global] Instance covers_opt_dec (covering : list (option esdmI_hypercube_t)) (p : list Z) :
  Decision (covers_opt covering p).
Proof.
  refine (cast_if (decide (Exists (in_cube p) (omap id covering)))); abstract (
    unfold covers_opt; rewrite Exists_exists in *; setoid_rewrite list_elem_of_omap in e || setoid_rewrite list_elem_of_omap in n;
    naive_solver).
Defined.

Definition opt_dims (n : nat) (covering : list (option esdmI_hypercube_t)) : Prop :=
  forall c, Some c ∈ covering -> length c = n.

Lemma covers_opt_cons (o : option esdmI_hypercube_t) (l : list (option esdmI_hypercube_t)) (p : list Z) :
  covers_opt (o :: l) p <-> (exists c, o = Some c /\ in_cube p c) \/ covers_opt l p.
Proof. unfold covers_opt. setoid_rewrite elem_of_cons. naive_solver. Qed.

Lemma opt_dims_cons (n : nat) (o : option esdmI_hypercube_t) (l : list (option esdmI_hypercube_t)) :
  opt_dims n (o :: l) <-> (forall c, o = Some c -> length c = n) /\ opt_dims n l.
Proof. unfold opt_dims. setoid_rewrite elem_of_cons. naive_solver. Qed.

Lemma count_zero_iff (me : esdmI_hypercubeSet_t) : esdmI_hypercubeSet_count me = 0 <-> cubes me = [].
Proof. unfold esdmI_hypercubeSet_count. destruct (cubes me); simpl; split; (done || lia). Qed.

Lemma fullyCovered_loop_ok (n : nat) (covering : list (option esdmI_hypercube_t)) (rest : esdmI_hypercubeSet_t) :
  set_wf rest -> set_dims n rest -> opt_dims n covering -> Forall nonempty (cubes rest) ->
  exists rest', fullyCovered_loop rest covering = Done rest' /\ Forall nonempty (cubes rest') /\
  forall p, covered (cubes rest') p <-> covered (cubes rest) p /\ ~ covers_opt covering p.
Proof.
  revert rest. induction covering as [| [c |] covering IH]; intros rest Hwf Hd Ho Hn; simpl.
  - exists rest. split; [done |]. split; [done |]. intros p. unfold covers_opt.
    split; [| tauto]. intros H. split; [done |]. by intros (c & ?%elem_of_nil & _).
  - apply opt_dims_cons in Ho as [Hc Ho]. specialize (Hc c eq_refl). subst n.
    destruct (subtract_ok rest c Hwf Hd) as (rest1 & -> & Hwf1 & Hd1 & Hn1 & Hp1). simpl.
    assert (Hcov : forall p, covered (cubes rest1) p <-> covered (cubes rest) p /\ ~ in_cube p c).
    { intros p. rewrite !covered_count, Hp1. case_decide; split; lia || tauto. }
    destruct (Z.eqb_spec (esdmI_hypercubeSet_count rest1) 0) as [E | E].
    + apply count_zero_iff in E. exists rest1. split; [done |]. split; [auto |].
      intros p. rewrite covers_opt_cons, Hcov. split; [| naive_solver].
      intros H. rewrite <- Hcov, covered_count, E in H. rewrite cover_count_nil in H. lia.
    + destruct (IH rest1 Hwf1 Hd1 Ho (Hn1 Hn)) as (rest' & -> & Hn' & Hp').
      exists rest'. split; [done |]. split; [done |].
      intros p. rewrite Hp', Hcov, covers_opt_cons. naive_solver.
  - apply opt_dims_cons in Ho as [_ Ho].
    destruct (IH rest Hwf Hd Ho Hn) as (rest' & -> & Hn' & Hp').
    exists rest'. split; [done |]. split; [done |].
    intros p. rewrite Hp', covers_opt_cons. naive_solver.
Qed.

Lemma hypercubeIsFullyCovered_ok (c : esdmI_hypercube_t) (covering : list (option esdmI_hypercube_t)) :
  nonempty c -> opt_dims (length c) covering ->
  exists b, hypercubeIsFullyCovered c covering = Done b /\
  (b = true <-> forall p, in_cube p c -> covers_opt covering p).
Proof.
  intros Hn Ho. unfold hypercubeIsFullyCovered.
  destruct (add_ok esdmI_hypercubeSet_construct c construct_wf) as (me & -> & Hwf & Hc). simpl in *.
  destruct (fullyCovered_loop_ok (length c) covering me) as (rest & -> & Hr & Hp).
  { done. }
  { unfold set_dims. rewrite Hc. by constructor. }
  { done. }
  { rewrite Hc. by constructor. }
  simpl. eexists. split; [reflexivity |]. rewrite Z.eqb_eq, count_zero_iff.
  assert (Hme : forall p, covered (cubes me) p <-> in_cube p c).
  { intros p. rewrite Hc. unfold covered. setoid_rewrite list_elem_of_singleton. naive_solver. }
  setoid_rewrite Hme in Hp. split.
  - intros E p Hpc. destruct (decide (covers_opt covering p)) as [| Hno]; [done |].
    assert (Hcov : covered (cubes rest) p) by (by apply Hp).
    rewrite E in Hcov. by destruct Hcov as (d & ?%elem_of_nil & _).
  - intros H. destruct (cubes rest) as [| d l] eqn:E; [done |].
    apply Forall_cons in Hr as [Hd _]. apply nonempty_point in Hd.
    assert (Hcov : covered (d :: l) (rstart <$> d)) by (exists d; split; [by constructor | done]).
    apply Hp in Hcov as [Hin Hno]. destruct Hno. by apply H.
Qed.

Lemma doesIntersect_ok (a b : esdmI_hypercube_t) :
  length a = length b -> esdmI_hypercube_doesIntersect a b = Done (doesIntersect_loop a b).
Proof.
  intros H. unfold esdmI_hypercube_doesIntersect. by rewrite eassert_true by (by apply sameDims_iff).
Qed.

Lemma intersectingCubes_ok (l : list esdmI_hypercube_t) (cube : esdmI_hypercube_t) :
  Forall (fun c => length c = length cube) l ->
  exists hits, intersectingCubes l cube = Done hits /\
  forall c, c ∈ hits <-> c ∈ l /\ exists p, in_cube p c /\ in_cube p cube.
Proof.
  induction 1 as [| c l Hc Hl (hits & E & IH)]; simpl.
  - exists []. split; [done |]. intros c. split; [by intros ?%elem_of_nil | by intros [?%elem_of_nil _]].
  - rewrite doesIntersect_ok, E by done. simpl. eexists. split; [reflexivity |].
    intros d. pose proof (doesIntersect_loop_iff c cube Hc) as Hit.
    destruct (doesIntersect_loop c cube); rewrite ?elem_of_cons, IH; naive_solver.
Qed.

Lemma listDoesIntersect_ok (l : list esdmI_hypercube_t) (cube : esdmI_hypercube_t) :
  Forall (fun c => length c = length cube) l ->
  exists b, esdmI_hypercubeList_doesIntersect l cube = Done b /\
  (b = true <-> exists p, covered l p /\ in_cube p cube).
Proof.
  induction 1 as [| c l Hc Hl (b & E & IH)]; simpl.
  - exists false. split; [done |]. split; [done |]. intros (p & (d & ?%elem_of_nil & _) & _). done.
  - rewrite doesIntersect_ok by done. simpl. pose proof (doesIntersect_loop_iff c cube Hc) as Hit.
    unfold covered in *. setoid_rewrite elem_of_cons.
    destruct (doesIntersect_loop c cube); [exists true | exists b]; (split; [done |]); naive_solver.
Qed.

Lemma isEmpty_loop_ok (me : esdmI_hypercubeSet_t) :
  set_wf me -> exists b me', isEmpty_loop (length (cubes me)) me = Done (b, me') /\ set_wf me' /\
  (b = true <-> forall p, ~ covered (cubes me) p) /\
  forall p, cover_count (cubes me') p = cover_count (cubes me) p.
Proof.
  destruct me as [l a]. simpl. induction l as [| c l IH] using rev_ind; intros Hwf.
  - exists true, (HypercubeSet [] a). simpl. split; [done |]. split; [done |]. split; [| done].
    split; [| done]. by intros _ p (d & ?%elem_of_nil & _).
  - rewrite length_app, Nat.add_1_r. simpl. rewrite lookup_app_r, Nat.sub_diag by done. simpl.
    destruct (esdmI_hypercube_isEmpty c) eqn:E.
    + unfold dropCube. simpl. rewrite swap_remove_snoc, decide_False by lia.
      destruct IH as (b & me' & -> & Hwf' & Hb & Hp).
      { apply (dropCube_wf _ (length l)) in Hwf. unfold dropCube in Hwf. simpl in Hwf.
        rewrite swap_remove_snoc, decide_False in Hwf by lia. done. }
      assert (Hc : forall p, cover_count (l ++ [c]) p = cover_count l p).
      { intros p. rewrite cover_count_app, cover_count_cons, cover_count_nil, decide_False; [lia |].
        intros Hin%in_cube_nonempty%isEmpty_false_iff. congruence. }
      exists b, me'. split; [done |]. split; [done |]. setoid_rewrite Hc. split; [| done].
      rewrite Hb. setoid_rewrite covered_count. by setoid_rewrite Hc.
    + exists false, (HypercubeSet (l ++ [c]) a). split; [done |]. split; [done |]. split; [| done].
      split; [done |]. apply isEmpty_false_iff, nonempty_point in E. intros H.
      destruct (H (rstart <$> c)). exists c. split; [| done].
      apply elem_of_app. right. by apply list_elem_of_singleton.
Qed.

(** * Properties *)

(** C30: [esdmI_hypercubeSet_subtract()] returns for every set of cubes of the subtrahend's
    rank; afterwards no point of the subtrahend is covered, every other point is covered by
    exactly as many cubes as before (so disjoint cubes stay disjoint), no empty cube is
    introduced, and the set keeps its rank and a large enough buffer. *)
Theorem subtract_correct (me : esdmI_hypercubeSet_t) (subtrahend : esdmI_hypercube_t)
    (Hwf : set_wf me) (Hdims : set_dims (length subtrahend) me) :
  exists me', esdmI_hypercubeSet_subtract me subtrahend = Done me' /\
  set_wf me' /\ set_dims (length subtrahend) me' /\
  (Forall nonempty (cubes me) -> Forall nonempty (cubes me')) /\
  forall p, cover_count (cubes me') p =
            if decide (in_cube p subtrahend) then 0%nat else cover_count (cubes me) p.
Proof. by apply subtract_ok. Qed.

Lemma subtract_correct_witness :
  exists me', esdmI_hypercubeSet_subtract (HypercubeSet [[Range 0 4; Range 0 4]] 8) [Range 1 2; Range 1 9]
              = Done me' /\ cover_count (cubes me') [1; 0] = 1%nat /\ cover_count (cubes me') [1; 2] = 0%nat.
Proof.
  destruct (subtract_correct (HypercubeSet [[Range 0 4; Range 0 4]] 8) [Range 1 2; Range 1 9])
    as (me' & E & _ & _ & _ & H).
  - split; vm_compute; done.
  - repeat constructor.
  - exists me'. split; [exact E |]. split; rewrite H; reflexivity.
Defined.

(** [esdmI_hypercubeList_doesCoverFully()] answers true exactly when every grid point of
    the given non-empty cube lies in some cube of the list. *)
Theorem doesCoverFully_correct (l : list esdmI_hypercube_t) (cube : esdmI_hypercube_t)
    (Hdims : Forall (fun c => length c = length cube) l) (Hn : nonempty cube) :
  exists b, esdmI_hypercubeList_doesCoverFully l cube = Done b /\
  (b = true <-> forall p, in_cube p cube -> covered l p).
Proof.
  unfold esdmI_hypercubeList_doesCoverFully.
  destruct (intersectingCubes_ok l cube Hdims) as (hits & -> & Hhits). simpl.
  destruct (hypercubeIsFullyCovered_ok cube (Some <$> hits) Hn) as (b & -> & Hb).
  { intros c Hc. apply list_elem_of_fmap in Hc as (d & [= ->] & [Hd _]%Hhits).
    rewrite Forall_forall in Hdims. by apply Hdims. }
  exists b. split; [done |]. rewrite Hb. clear Hb. unfold covers_opt, covered.
  split; intros H p Hp; destruct (H p Hp) as (c & Hc & Hpc); exists c; (split; [| done]).
  - apply list_elem_of_fmap in Hc as (d & [= ->] & [Hd _]%Hhits). done.
  - apply list_elem_of_fmap. exists c. split; [done |]. apply Hhits. eauto.
Qed.

Lemma doesCoverFully_correct_witness :
  exists b, esdmI_hypercubeList_doesCoverFully [[Range 0 3]; [Range 3 7]] [Range 1 6] = Done b /\ b = true.
Proof.
  destruct (doesCoverFully_correct [[Range 0 3]; [Range 3 7]] [Range 1 6]) as (b & E & _).
  - repeat constructor.
  - repeat constructor.
  - exists b. split; [exact E | revert E; vm_compute; congruence].
Defined.

(** [esdmI_hypercubeSet_isEmpty()] answers whether the set covers no point; the clean-up
    of empty cubes it performs on the way changes the coverage of no point. *)
Theorem set_isEmpty_correct (me : esdmI_hypercubeSet_t) (Hwf : set_wf me) :
  exists b me', esdmI_hypercubeSet_isEmpty me = Done (b, me') /\ set_wf me' /\
  (b = true <-> forall p, ~ covered (cubes me) p) /\
  forall p, cover_count (cubes me') p = cover_count (cubes me) p.
Proof. by apply isEmpty_loop_ok. Qed.

Lemma set_isEmpty_correct_witness :
  exists b me', esdmI_hypercubeSet_isEmpty (HypercubeSet [[Range 0 4; Range 3 3]] 8) = Done (b, me') /\ b = true.
Proof.
  destruct (set_isEmpty_correct (HypercubeSet [[Range 0 4; Range 3 3]] 8)) as (b & me' & E & _).
  - split; vm_compute; done.
  - exists b, me'. split; [exact E | revert E; vm_compute; congruence].
Defined.
