(* ===== verification/HypercubeSubsets.v ===== *)
(** Minimal covering subsets of a hypercube list (src/hypercube.c): the intersection
    matrix, the cubes that are required unconditionally, and the randomised search for
    irredundant subsets. *)

From S2P Require Import Prelude Hypercube HypercubeSet.

(** * Two-dimensional arrays

    [None] is a cell that has not been written yet. *)
Definition array2 (A : Type) : Type := nat -> nat -> option A.

Definition array2_uninit {A} : array2 A := fun _ _ => None.

Definition array2_set {A} (m : array2 A) (i j : nat) (v : A) : array2 A :=
  fun a b => if decide (a = i /\ b = j) then Some v else m a b.

(** * The intersection matrix *)

(** One cell above the diagonal, mirrored below it. *)
Definition matrix_cell (list : list esdmI_hypercube_t) (i j : nat)
    (st : array2 (option esdmI_hypercube_t) * array2 Z)
    : outcome (array2 (option esdmI_hypercube_t) * array2 Z) :=
  let '(matrix, sizes) := st in
  ci ← deref (list !! i);
  cj ← deref (list !! j);
  curIntersection ← esdmI_hypercube_makeIntersection ci cj;
  size ← match curIntersection with
         | Some c => esdmI_hypercube_size c
         | None => mret 0
         end;
  mret (array2_set (array2_set matrix j i curIntersection) i j curIntersection,
        array2_set (array2_set sizes j i size) i j size).

(** The columns [j, j + 1, ..., j + n - 1] of row [i]. *)
Fixpoint matrix_row (list : list esdmI_hypercube_t) (i j n : nat)
    (st : array2 (option esdmI_hypercube_t) * array2 Z)
    : outcome (array2 (option esdmI_hypercube_t) * array2 Z) :=
  match n with
  | O => mret st
  | S n' => st' ← matrix_cell list i j st; matrix_row list i (S j) n' st'
  end.

(** The rows [i, i + 1, ..., i + n - 1]. *)
Fixpoint matrix_rows (list : list esdmI_hypercube_t) (i n : nat)
    (st : array2 (option esdmI_hypercube_t) * array2 Z)
    : outcome (array2 (option esdmI_hypercube_t) * array2 Z) :=
  match n with
  | O => mret st
  | S n' =>
      let '(matrix, sizes) := st in
      ci ← deref (list !! i);
      size ← esdmI_hypercube_size ci;
      st' ← matrix_row list i (S i) n' (array2_set matrix i i None, array2_set sizes i i size);
      matrix_rows list (S i) n' st'
  end.

Definition makeIntersectionMatrix_internal (list : list esdmI_hypercube_t)
    : outcome (array2 (option esdmI_hypercube_t) * array2 Z) :=
  matrix_rows list 0 (length list) (array2_uninit, array2_uninit).

(** * Finding subsets *)

(** The first [count] cells of row [i]. *)
Definition array2_row {A} (m : array2 A) (i count : nat) : outcome (list A) :=
  mapM (fun j => deref (m i j)) (seq 0 count).

(** [for(; ; checkIndex++) if(!checkedCubes[checkIndex] && !cubeSelector--) break;] *)
Fixpoint selectUnchecked (checkedCubes : list bool) (cubeSelector : Z) (checkIndex : nat) : outcome nat :=
  match checkedCubes with
  | [] => Undef
  | b :: rest =>
      if negb b then
        if cubeSelector =? 0 then mret checkIndex
        else selectUnchecked rest (u64 (cubeSelector - 1)) (S checkIndex)
      else selectUnchecked rest cubeSelector (S checkIndex)
  end.

(** [for(j...) reducedMatrix[checkIndex][j] = reducedMatrix[j][checkIndex] = NULL;] *)
Fixpoint dropFromMatrix (m : array2 (option esdmI_hypercube_t)) (checkIndex j n : nat)
    : array2 (option esdmI_hypercube_t) :=
  match n with
  | O => m
  | S n' =>
      dropFromMatrix (array2_set (array2_set m j checkIndex None) checkIndex j None) checkIndex (S j) n'
  end.

Definition RAND_MAX : Z := 2147483647.

Section Random.

(** [rand_r()] of the C library: the next value and the updated seed. *)
Context (rand_r : Z -> Z * Z).

Fixpoint findMinimalSubset_loop (uncheckedCubeCount : nat) (cubes : list esdmI_hypercube_t) (seed : Z)
    (selectedCubes checkedCubes : list bool) (reducedMatrix : array2 (option esdmI_hypercube_t))
    : outcome (list bool * Z) :=
  match uncheckedCubeCount with
  | O => mret (selectedCubes, seed)
  | S unchecked' =>
      let '(randomValue, seed') := rand_r seed in
      let cubeSelector := u64 (randomValue * Z.of_nat uncheckedCubeCount) / (RAND_MAX + 1) in
      checkIndex ← selectUnchecked checkedCubes cubeSelector 0;
      cube ← deref (cubes !! checkIndex);
      row ← array2_row reducedMatrix checkIndex (length cubes);
      isCovered ← hypercubeIsFullyCovered cube row;
      findMinimalSubset_loop unchecked' cubes seed'
        (<[checkIndex := negb isCovered]> selectedCubes)
        (<[checkIndex := true]> checkedCubes)
        (if (isCovered : bool) then dropFromMatrix reducedMatrix checkIndex 0 (length cubes)
         else reducedMatrix)
  end.

Definition countFalse (l : list bool) : nat := length (filter (fun b => b = false) l).

Definition findMinimalSubset_internal (cubes : list esdmI_hypercube_t) (requiredCubes : list bool)
    (intersectionMatrix : array2 (option esdmI_hypercube_t)) (seed : Z) : outcome (list bool * Z) :=
  findMinimalSubset_loop (countFalse requiredCubes) cubes seed
    (replicate (length cubes) true) requiredCubes intersectionMatrix.

(** The sum of the first [n] sizes from column [j] of row [i] on. *)
Fixpoint coverage_loop (sizes : array2 Z) (i j n : nat) (coverage : Z) : outcome Z :=
  match n with
  | O => mret coverage
  | S n' =>
      s ← deref (sizes i j);
      coverage' ← chk64 (coverage + s);
      coverage_loop sizes i (S j) n' coverage'
  end.

Definition requiredCube (list : list esdmI_hypercube_t) (matrix : array2 (option esdmI_hypercube_t))
    (sizes : array2 Z) (i : nat) : outcome bool :=
  coverage ← coverage_loop sizes i 0 (length list) 0;
  self ← deref (sizes i i);
  twice ← chk64 (2 * self);
  if coverage <? twice then mret true
  else
    cube ← deref (list !! i);
    row ← array2_row matrix i (length list);
    isCovered ← hypercubeIsFullyCovered cube row;
    mret (negb isCovered).

(** The subsets are produced one after the other from the same static seed. *)
Fixpoint subsets_loop (n : nat) (list : list esdmI_hypercube_t) (requiredCubes : Datatypes.list bool)
    (matrix : array2 (option esdmI_hypercube_t)) (seed : Z) : outcome (Datatypes.list (Datatypes.list bool) * Z) :=
  match n with
  | O => mret ([], seed)
  | S n' =>
      '(subset, seed1) ← findMinimalSubset_internal list requiredCubes matrix seed;
      '(rest, seed2) ← subsets_loop n' list requiredCubes matrix seed1;
      mret (subset :: rest, seed2)
  end.

Definition esdmI_hypercubeList_nonredundantSubsets_internal (list : list esdmI_hypercube_t)
    (setCount : nat) (seed : Z) : outcome (Datatypes.list (Datatypes.list bool) * Z) :=
  '(matrix, sizes) ← makeIntersectionMatrix_internal list;
  requiredCubes ← mapM (requiredCube list matrix sizes) (seq 0 (length list));
  subsets_loop setCount list requiredCubes matrix seed.

End Random.

(** * The matrix holds all intersections *)

Lemma makeIntersection_loop_comm (a b : esdmI_hypercube_t) :
  makeIntersection_loop a b = makeIntersection_loop b a.
Proof.
  revert b. induction a as [| ra a IH]; intros [| rb b]; simpl; try done.
  rewrite (range_intersection_comm rb ra), IH. done.
Qed.

Lemma makeIntersection_loop_le (a b c : esdmI_hypercube_t) :
  length a = length b -> makeIntersection_loop a b = Some c -> volume c <= volume a.
Proof.
  intros Hlen E. pose proof (makeIntersection_loop_spec a b Hlen) as H. rewrite E in H.
  destruct H as (_ & _ & H). rewrite <- !length_points. apply Nat2Z.inj_le.
  apply submseteq_length, NoDup_submseteq; [apply NoDup_points |].
  intros p. rewrite !elem_of_points. intros Hp. by apply H.
Qed.

Lemma size_ok (c : esdmI_hypercube_t) :
  nonempty c -> (0 < length c)%nat -> volume c <= INT64_MAX -> esdmI_hypercube_size c = Done (volume c).
Proof.
  intros Hn Hl Hv. unfold esdmI_hypercube_size, esdmI_hypercube_dimensions.
  rewrite eassert_true by (rewrite Z.gtb_ltb; apply Z.ltb_lt; lia). simpl.
  rewrite size_loop_ok by (done || lia). f_equal. lia.
Qed.

(** A list of non-empty cubes of one positive rank whose sizes leave room for the
    sums of the algorithm. *)
Record list_ok (l : list esdmI_hypercube_t) : Prop := ListOk {
  list_ok_dims : exists d, (0 < d)%nat /\ Forall (fun c => length c = d) l;
  list_ok_nonempty : Forall nonempty l;
  list_ok_sizes : Forall (fun c => (Z.of_nat (length l) + 1) * volume c <= INT64_MAX) l
}.

Section Matrix.

Context (l : list esdmI_hypercube_t) (Hl : list_ok l).

Definition cell (a b : nat) : option esdmI_hypercube_t :=
  match l !! a, l !! b with
  | Some ca, Some cb => if decide (a = b) then None else makeIntersection_loop ca cb
  | _, _ => None
  end.

Definition cellSize (a b : nat) : Z :=
  match l !! a, l !! b with
  | Some ca, Some cb =>
      if decide (a = b) then volume ca
      else match makeIntersection_loop ca cb with Some c => volume c | None => 0 end
  | _, _ => 0
  end.

Lemma list_ok_cube (i : nat) (c : esdmI_hypercube_t) :
  l !! i = Some c -> nonempty c /\ (0 < length c)%nat /\ 1 <= volume c /\
  2 * volume c <= INT64_MAX /\ Z.of_nat (length l) * volume c <= INT64_MAX.
Proof.
  intros Hi. destruct Hl as [(d & Hd & Hdims) Hn Hs].
  pose proof (Forall_lookup_1 _ _ _ _ Hdims Hi) as H1.
  pose proof (Forall_lookup_1 _ _ _ _ Hn Hi) as H2.
  pose proof (Forall_lookup_1 _ _ _ _ Hs Hi) as H3. simpl in *.
  pose proof (nonempty_volume_ge_1 c H2). pose proof (lookup_lt_Some _ _ _ Hi).
  split; [done |]. split; [lia |]. split; [lia |]. nia.
Qed.

Lemma list_ok_same (i j : nat) (ci cj : esdmI_hypercube_t) :
  l !! i = Some ci -> l !! j = Some cj -> length ci = length cj.
Proof.
  destruct Hl as [(d & _ & Hdims) _ _]. intros Hi Hj.
  rewrite (Forall_lookup_1 _ _ _ _ Hdims Hi). by rewrite (Forall_lookup_1 _ _ _ _ Hdims Hj).
Qed.

Lemma cell_comm (a b : nat) : cell a b = cell b a.
Proof.
  unfold cell. destruct (l !! a), (l !! b); try done.
  rewrite makeIntersection_loop_comm. repeat case_decide; congruence.
Qed.

Lemma cellSize_comm (a b : nat) : cellSize a b = cellSize b a.
Proof.
  unfold cellSize. destruct (l !! a) eqn:Ea, (l !! b) eqn:Eb; try done.
  rewrite makeIntersection_loop_comm. repeat case_decide; congruence.
Qed.

(** The cells of all pairs whose smaller index is below [i], and those of row [i]
    left of column [j], are filled. *)
Definition filled (i j : nat) (st : array2 (option esdmI_hypercube_t) * array2 Z) : Prop :=
  forall a b, (a < length l)%nat -> (b < length l)%nat ->
  (a `min` b < i \/ a `min` b = i /\ a `max` b < j)%nat ->
  st.1 a b = Some (cell a b) /\ st.2 a b = Some (cellSize a b).

Lemma matrix_cell_ok (i j : nat) (st : array2 (option esdmI_hypercube_t) * array2 Z) :
  (i < j < length l)%nat -> filled i j st ->
  exists st', matrix_cell l i j st = Done st' /\ filled i (S j) st'.
Proof.
  intros Hij Hf. destruct st as [m s]. unfold matrix_cell.
  destruct (lookup_lt_is_Some_2 l i) as [ci Hi]; [lia |].
  destruct (lookup_lt_is_Some_2 l j) as [cj Hj]; [lia |].
  rewrite Hi, Hj. simpl. unfold esdmI_hypercube_makeIntersection.
  pose proof (list_ok_same _ _ _ _ Hi Hj) as Hlen.
  rewrite eassert_true by (by apply sameDims_iff). simpl.
  assert (Hs : match makeIntersection_loop ci cj with
               | Some c => esdmI_hypercube_size c | None => mret 0 end = Done (cellSize i j)).
  { unfold cellSize. rewrite Hi, Hj, decide_False by lia.
    pose proof (makeIntersection_loop_spec ci cj Hlen) as Hspec.
    destruct (makeIntersection_loop ci cj) as [c |] eqn:E; [| done].
    destruct Hspec as (Hc & Hn & _). destruct (list_ok_cube i ci Hi) as (_ & ? & _ & ? & _).
    pose proof (makeIntersection_loop_le _ _ _ Hlen E). pose proof (volume_nonneg ci).
    apply size_ok; [done | lia | lia]. }
  rewrite Hs. simpl. eexists. split; [reflexivity |].
  assert (Hcell : makeIntersection_loop ci cj = cell i j).
  { unfold cell. by rewrite Hi, Hj, decide_False by lia. }
  rewrite Hcell. intros a b Ha Hb Hab. unfold array2_set. simpl.
  destruct (decide (a = i /\ b = j)) as [[-> ->] | N1]; [done |].
  destruct (decide (a = j /\ b = i)) as [[-> ->] | N2]; [by rewrite cell_comm, cellSize_comm |].
  apply Hf; lia.
Qed.

Lemma matrix_row_ok (n i j : nat) (st : array2 (option esdmI_hypercube_t) * array2 Z) :
  (i < j)%nat -> (j + n = length l)%nat -> filled i j st ->
  exists st', matrix_row l i j n st = Done st' /\ filled i (length l) st'.
Proof.
  revert j st. induction n as [| n IH]; intros j st Hij Hn Hf; simpl.
  - exists st. split; [done |]. by replace (length l) with j by lia.
  - destruct (matrix_cell_ok i j st) as (st' & -> & Hf'); [lia | done |].
    apply IH; [lia | lia | done].
Qed.

Lemma matrix_rows_ok (n i : nat) (st : array2 (option esdmI_hypercube_t) * array2 Z) :
  (i + n = length l)%nat -> filled i i st ->
  exists st', matrix_rows l i n st = Done st' /\ filled (length l) 0 st'.
Proof.
  revert i st. induction n as [| n IH]; intros i st Hn Hf; simpl.
  - exists st. split; [done |]. intros a b Ha Hb _. apply Hf; lia.
  - destruct st as [m s]. destruct (lookup_lt_is_Some_2 l i) as [ci Hi]; [lia |]. rewrite Hi. simpl.
    destruct (list_ok_cube i ci Hi) as (? & ? & ? & ? & _).
    rewrite size_ok by (done || lia). simpl.
    destruct (matrix_row_ok n i (S i) (array2_set m i i None, array2_set s i i (volume ci)))
      as (st' & -> & Hf'); [lia | lia | |].
    + intros a b Ha Hb Hab. unfold array2_set. simpl. case_decide as Hd.
      * destruct Hd as [-> ->]. unfold cell, cellSize. by rewrite Hi, !decide_True.
      * apply Hf; lia.
    + simpl. apply IH; [lia |]. intros a b Ha Hb Hab. apply Hf'; lia.
Qed.

Lemma makeIntersectionMatrix_ok :
  exists m s, makeIntersectionMatrix_internal l = Done (m, s) /\
  forall a b, (a < length l)%nat -> (b < length l)%nat ->
  m a b = Some (cell a b) /\ s a b = Some (cellSize a b).
Proof.
  destruct (matrix_rows_ok (length l) 0 (array2_uninit, array2_uninit)) as ([m s] & E & H).
  - done.
  - intros a b _ _ Hab. lia.
  - exists m, s. split; [exact E |]. intros a b Ha Hb. apply H; lia.
Qed.

(** A cell is the set of common points of two different cubes. *)
Lemma cell_points (a b : nat) (p : list Z) :
  (exists c, cell a b = Some c /\ in_cube p c) <->
  a <> b /\ exists ca cb, l !! a = Some ca /\ l !! b = Some cb /\ in_cube p ca /\ in_cube p cb.
Proof.
  unfold cell. destruct (l !! a) as [ca |] eqn:Ea; [| naive_solver].
  destruct (l !! b) as [cb |] eqn:Eb; [| naive_solver].
  case_decide; [naive_solver |].
  pose proof (makeIntersection_loop_spec ca cb (list_ok_same _ _ _ _ Ea Eb)) as Hs.
  destruct (makeIntersection_loop ca cb) as [c |]; [destruct Hs as (_ & _ & Hs) |]; naive_solver.
Qed.

Lemma length_cell (a b : nat) (ca c : esdmI_hypercube_t) :
  l !! a = Some ca -> cell a b = Some c -> length c = length ca.
Proof.
  unfold cell. intros Ha. rewrite Ha. destruct (l !! b) as [cb |] eqn:Eb; [| done].
  case_decide; [done |]. intros E.
  pose proof (makeIntersection_loop_spec ca cb (list_ok_same _ _ _ _ Ha Eb)) as Hs.
  rewrite E in Hs. tauto.
Qed.

End Matrix.

(** * Coverage of one cube by the other selected ones *)

Section Select.

Context (l : list esdmI_hypercube_t) (Hl : list_ok l).

(** The matrix restricted to the selected cubes. *)
Definition cellSel (sel : list bool) (a b : nat) : option esdmI_hypercube_t :=
  if decide (sel !! a = Some true /\ sel !! b = Some true) then cell l a b else None.

(** Another selected cube contains the point. *)
Definition covered_by (sel : list bool) (i : nat) (p : list Z) : Prop :=
  exists j cj, j <> i /\ sel !! j = Some true /\ l !! j = Some cj /\ in_cube p cj.

(** The cube has a point of its own among the selected cubes. *)
Definition irredundant (sel : list bool) (i : nat) : Prop :=
  exists ci p, l !! i = Some ci /\ in_cube p ci /\ ~ covered_by sel i p.

Lemma array2_row_ok {A} (m : array2 A) (f : nat -> A) (i n : nat) :
  (forall j, (j < n)%nat -> m i j = Some (f j)) -> array2_row m i n = Done (f <$> seq 0 n).
Proof.
  intros H. unfold array2_row.
  assert (Hg : forall k s, (s + k = n)%nat -> mapM (fun j => deref (m i j)) (seq s k) = Done (f <$> seq s k)).
  { induction k as [| k IH]; intros s Hs; csimpl; [done |].
    rewrite H by lia. csimpl. rewrite IH by lia. done. }
  by apply Hg.
Qed.

Lemma covers_row (sel : list bool) (i : nat) (ci : esdmI_hypercube_t) (p : list Z) :
  length sel = length l -> l !! i = Some ci -> sel !! i = Some true -> in_cube p ci ->
  covers_opt (cellSel sel i <$> seq 0 (length l)) p <-> covered_by sel i p.
Proof.
  intros Hlen Hi Hsi Hp. unfold covers_opt, covered_by. setoid_rewrite list_elem_of_fmap. split.
  - intros (c & (j & Hj & _) & Hpc). unfold cellSel in Hj. case_decide as Hsel; [| done].
    assert (Hex : exists c, cell l i j = Some c /\ in_cube p c) by eauto.
    apply cell_points in Hex as (Hne & ca & cb & _ & Hcb & _ & Hpb); [| done].
    exists j, cb. split; [congruence |]. tauto.
  - intros (j & cj & Hne & Hsj & Hj & Hpj).
    destruct (proj2 (cell_points l Hl i j p)) as (c & Hc & Hpc).
    { split; [congruence |]. exists ci, cj. done. }
    exists c. split; [| done]. exists j. split.
    + unfold cellSel. by rewrite decide_True.
    + apply elem_of_seq. apply lookup_lt_Some in Hj. lia.
Qed.

Lemma row_dims (sel : list bool) (i : nat) (ci : esdmI_hypercube_t) :
  l !! i = Some ci -> opt_dims (length ci) (cellSel sel i <$> seq 0 (length l)).
Proof.
  intros Hi c Hc. apply list_elem_of_fmap in Hc as (j & Hj & _).
  unfold cellSel in Hj. case_decide; [| done]. eapply (length_cell l Hl); eauto.
Qed.

(** The coverage test on a row of the restricted matrix decides redundancy. *)
Lemma test_row_ok (sel : list bool) (i : nat) (ci : esdmI_hypercube_t) :
  length sel = length l -> l !! i = Some ci -> sel !! i = Some true ->
  exists b, hypercubeIsFullyCovered ci (cellSel sel i <$> seq 0 (length l)) = Done b /\
  (b = true -> forall p, in_cube p ci -> covered_by sel i p) /\
  (b = false -> irredundant sel i).
Proof.
  intros Hlen Hi Hsi. destruct (list_ok_cube l Hl i ci Hi) as (Hn & _).
  destruct (hypercubeIsFullyCovered_ok ci _ Hn (row_dims sel i ci Hi)) as (b & E & Hb).
  exists b. split; [exact E |]. split.
  - intros ->. intros p Hp. apply (covers_row sel i ci p); try done. by apply Hb.
  - intros ->. set (row := cellSel sel i <$> seq 0 (length l)) in *.
    destruct (decide (Forall (covers_opt row) (points ci))) as [Hall | Hnot].
    + assert (false = true) as [=]. apply Hb. intros p Hp.
      rewrite Forall_forall in Hall. by apply Hall, elem_of_points.
    + apply not_Forall_Exists in Hnot; [| apply _].
      apply Exists_exists in Hnot as (p & Hp & Hno). apply elem_of_points in Hp.
      exists ci, p. split; [done |]. split; [done |].
      intros Hcov. apply Hno. by apply (covers_row sel i ci p).
Qed.

Lemma irredundant_mono (sel sel' : list bool) (i : nat) :
  (forall j, sel' !! j = Some true -> sel !! j = Some true) -> irredundant sel i -> irredundant sel' i.
Proof.
  intros H (ci & p & Hi & Hp & Hno). exists ci, p. split; [done |]. split; [done |].
  intros (j & cj & Hne & Hsj & Hj & Hpj). apply Hno. exists j, cj. auto.
Qed.

(** * Helpers of the search loop *)

Lemma countFalse_cons (b : bool) (k : list bool) :
  countFalse (b :: k) = ((if b then 0 else 1) + countFalse k)%nat.
Proof. unfold countFalse. rewrite filter_cons. destruct b; by case_decide. Qed.

Lemma countFalse_insert (k : list bool) (i : nat) :
  k !! i = Some false -> countFalse k = S (countFalse (<[i := true]> k)).
Proof.
  revert i. induction k as [| b k IH]; intros [| i] H; simpl in *; try done.
  - injection H as ->. by rewrite !countFalse_cons.
  - rewrite !countFalse_cons, (IH i H). destruct b; lia.
Qed.

Lemma countFalse_le (k : list bool) : (countFalse k <= length k)%nat.
Proof. induction k as [| b k IH]; [done |]. rewrite countFalse_cons. simpl. destruct b; lia. Qed.

Lemma selectUnchecked_ok (k : list bool) (s : Z) (i0 : nat) :
  0 <= s < Z.of_nat (countFalse k) -> Z.of_nat (countFalse k) < 2 ^ 64 ->
  exists i, selectUnchecked k s i0 = Done (i0 + i)%nat /\ k !! i = Some false.
Proof.
  revert s i0. induction k as [| b k IH]; intros s i0 Hs Hmax; [cbn in Hs; lia |].
  rewrite countFalse_cons in *. destruct b; simpl in *.
  - destruct (IH s (S i0)) as (i & -> & Hi); [lia | lia |].
    exists (S i). split; [f_equal; lia | done].
  - destruct (Z.eqb_spec s 0) as [-> | Hne].
    + exists 0%nat. split; [unfold mret, outcome_ret; f_equal; lia | done].
    + replace (u64 (s - 1)) with (s - 1) by (symmetry; apply Z.mod_small; lia).
      destruct (IH (s - 1) (S i0)) as (i & -> & Hi); [lia | lia |].
      exists (S i). split; [f_equal; lia | done].
Qed.

Lemma dropFromMatrix_lookup (n j i : nat) (m : array2 (option esdmI_hypercube_t)) (a b : nat) :
  dropFromMatrix m i j n a b =
    if decide ((a = i /\ (j <= b < j + n)%nat) \/ (b = i /\ (j <= a < j + n)%nat))
    then Some None else m a b.
Proof.
  revert j m. induction n as [| n IH]; intros j m; simpl.
  - rewrite decide_False by lia. done.
  - rewrite IH. unfold array2_set.
    repeat case_decide; try done; exfalso; lia.
Qed.

Lemma cellSel_deselect (sel : list bool) (i a b : nat) :
  sel !! i = Some true ->
  cellSel (<[i := false]> sel) a b = if decide (a = i \/ b = i) then None else cellSel sel a b.
Proof.
  intros Hi. unfold cellSel. apply lookup_lt_Some in Hi.
  assert (E : forall x, <[i := false]> sel !! x = Some true <-> x <> i /\ sel !! x = Some true).
  { intros x. destruct (decide (x = i)) as [-> | Hne].
    - rewrite list_lookup_insert_eq by done. naive_solver.
    - rewrite list_lookup_insert_ne by done. naive_solver. }
  destruct (decide (_ /\ _)) as [[Ha Hb] | Hno].
  - rewrite E in Ha, Hb. rewrite decide_False, decide_True by tauto. done.
  - case_decide; [done |]. rewrite decide_False; [done |]. rewrite !E in Hno. tauto.
Qed.

(** * The search loop *)

Record subset_inv (sel checked : list bool) (m : array2 (option esdmI_hypercube_t)) : Prop := {
  si_length : length sel = length l;
  si_checked : length checked = length l;
  si_matrix : forall a b, (a < length l)%nat -> (b < length l)%nat -> m a b = Some (cellSel sel a b);
  si_unchecked : forall i, checked !! i = Some false -> sel !! i = Some true;
  si_covers : forall p, covered l p ->
    exists i c, sel !! i = Some true /\ l !! i = Some c /\ in_cube p c;
  si_minimal : forall i, checked !! i = Some true -> sel !! i = Some true -> irredundant sel i
}.

Lemma subset_inv_keep (sel checked : list bool) (m : array2 (option esdmI_hypercube_t)) (i : nat) :
  subset_inv sel checked m -> checked !! i = Some false -> irredundant sel i ->
  subset_inv (<[i := true]> sel) (<[i := true]> checked) m.
Proof.
  intros [H1 H2 H3 H4 H5 H6] Hi Hirr. pose proof (H4 i Hi) as Hsi.
  rewrite (list_insert_id sel i true Hsi). constructor; try done.
  - by rewrite length_insert.
  - intros j. destruct (decide (i = j)) as [<- | Hne]; [done |].
    rewrite list_lookup_insert_ne by done. apply H4.
  - intros j. destruct (decide (i = j)) as [<- | Hne]; [done |].
    rewrite list_lookup_insert_ne by done. apply H6.
Qed.

Lemma deselect_lookup (sel : list bool) (i j : nat) :
  <[i := false]> sel !! j = Some true -> j <> i /\ sel !! j = Some true.
Proof.
  destruct (decide (i = j)) as [<- | Hne].
  - intros H. apply list_lookup_insert_Some in H. naive_solver.
  - rewrite list_lookup_insert_ne by done. naive_solver.
Qed.

Lemma subset_inv_drop (sel checked : list bool) (m : array2 (option esdmI_hypercube_t)) (i : nat)
    (ci : esdmI_hypercube_t) :
  subset_inv sel checked m -> checked !! i = Some false -> l !! i = Some ci ->
  (forall p, in_cube p ci -> covered_by sel i p) ->
  subset_inv (<[i := false]> sel) (<[i := true]> checked) (dropFromMatrix m i 0 (length l)).
Proof.
  intros [H1 H2 H3 H4 H5 H6] Hi Hci Hcov. pose proof (H4 i Hi) as Hsi. constructor.
  - by rewrite length_insert.
  - by rewrite length_insert.
  - intros a b Ha Hb. rewrite dropFromMatrix_lookup, cellSel_deselect by done.
    repeat case_decide; try lia; try done. by apply H3.
  - intros j Hj. destruct (decide (i = j)) as [<- | Hne].
    + apply list_lookup_insert_Some in Hj. naive_solver.
    + rewrite list_lookup_insert_ne in * by done. by apply H4.
  - intros p Hp. destruct (H5 p Hp) as (j & cj & Hsj & Hj & Hpj).
    destruct (decide (i = j)) as [<- | Hne].
    + assert (cj = ci) as -> by congruence. destruct (Hcov p Hpj) as (k & ck & Hk & Hsk & Hlk & Hpk).
      exists k, ck. split; [by rewrite list_lookup_insert_ne by done | done].
    + exists j, cj. split; [by rewrite list_lookup_insert_ne by done | done].
  - intros j Hcj Hsj. apply deselect_lookup in Hsj as [Hne Hsj].
    rewrite list_lookup_insert_ne in Hcj by done.
    apply (irredundant_mono sel); [intros k Hk; by apply deselect_lookup in Hk as [_ ?] | by apply H6].
Qed.

Context (rand_r : Z -> Z * Z) (Hrand : forall seed, 0 <= (rand_r seed).1 <= RAND_MAX).
Context (Hcount : Z.of_nat (length l) < 2 ^ 32).

(** The scaled random value is an index into the unchecked cubes. *)
Lemma cubeSelector_ok (v : Z) (n : nat) :
  0 <= v <= RAND_MAX -> (0 < n)%nat -> Z.of_nat n < 2 ^ 32 ->
  0 <= u64 (v * Z.of_nat n) / (RAND_MAX + 1) < Z.of_nat n.
Proof.
  unfold RAND_MAX. intros Hv Hn Hmax.
  assert (u64 (v * Z.of_nat n) = v * Z.of_nat n) as -> by (apply Z.mod_small; nia).
  split; [apply Z.div_pos; nia | apply Z.div_lt_upper_bound; nia].
Qed.

Lemma findMinimalSubset_loop_ok (n : nat) (seed : Z) (sel checked : list bool)
    (m : array2 (option esdmI_hypercube_t)) :
  countFalse checked = n -> subset_inv sel checked m ->
  exists sel' checked' m' seed', findMinimalSubset_loop rand_r n l seed sel checked m = Done (sel', seed') /\
  subset_inv sel' checked' m' /\ countFalse checked' = 0%nat.
Proof.
  revert seed sel checked m. induction n as [| n IH]; intros seed sel checked m Hn Hinv.
  { exists sel, checked, m, seed. done. }
  cbn [findMinimalSubset_loop]. specialize (Hrand seed). destruct (rand_r seed) as [v seed']. simpl in Hrand.
  pose proof (countFalse_le checked) as Hle. pose proof (si_checked _ _ _ Hinv) as Hlc.
  destruct (selectUnchecked_ok checked (u64 (v * Z.of_nat (S n)) / (RAND_MAX + 1)) 0)
    as (i & -> & Hi).
  { rewrite Hn. apply cubeSelector_ok; lia. }
  { lia. }
  simpl. pose proof (si_unchecked _ _ _ Hinv i Hi) as Hsi.
  destruct (lookup_lt_is_Some_2 l i) as [ci Hci]; [apply lookup_lt_Some in Hi; lia |].
  rewrite Hci. simpl. rewrite (array2_row_ok m (cellSel sel i)).
  2: { intros j Hj. apply (si_matrix _ _ _ Hinv); [by apply lookup_lt_Some in Hci | done]. }
  simpl. destruct (test_row_ok sel i ci (si_length _ _ _ Hinv) Hci Hsi) as (b & -> & Hcov & Hirr).
  simpl. pose proof (countFalse_insert checked i Hi) as Hcf.
  apply IH; [lia |]. destruct b; simpl.
  - apply (subset_inv_drop _ _ _ i ci); auto.
  - apply subset_inv_keep; auto.
Qed.

(** * Cubes that are required unconditionally *)

Definition allSelected : list bool := replicate (length l) true.

Lemma cellSize_bounds (i j : nat) (ci : esdmI_hypercube_t) :
  l !! i = Some ci -> 0 <= cellSize l i j <= volume ci.
Proof.
  intros Hi. pose proof (volume_nonneg ci). unfold cellSize. rewrite Hi.
  destruct (l !! j) as [cj |] eqn:Hj; [| lia]. case_decide; [lia |].
  destruct (makeIntersection_loop ci cj) as [c |] eqn:E; [| lia].
  pose proof (makeIntersection_loop_le _ _ _ (list_ok_same l Hl _ _ _ _ Hi Hj) E).
  pose proof (volume_nonneg c). lia.
Qed.

Definition rowSum (i j n : nat) : Z := foldr Z.add 0 (cellSize l i <$> seq j n).

Lemma coverage_loop_ok (sizes : array2 Z) (i : nat) (ci : esdmI_hypercube_t) (n j : nat) (acc : Z) :
  l !! i = Some ci -> (forall b, (b < length l)%nat -> sizes i b = Some (cellSize l i b)) ->
  (j + n = length l)%nat -> 0 <= acc -> acc + Z.of_nat n * volume ci <= INT64_MAX ->
  coverage_loop sizes i j n acc = Done (acc + rowSum i j n).
Proof.
  intros Hi Hs. unfold rowSum. revert j acc. induction n as [| n IH]; intros j acc Hj H0 Hmax; csimpl.
  - unfold mret, outcome_ret. f_equal. lia.
  - rewrite Hs by lia. csimpl. pose proof (cellSize_bounds i j ci Hi).
    rewrite chk64_ok by (unfold INT64_MIN; nia). csimpl.
    rewrite IH by lia. f_equal. lia.
Qed.

(** The points of a row of intersections number at most the sum of the sizes without
    the diagonal. *)
Lemma row_points_length (i : nat) (js : list nat) :
  Z.of_nat (length (mjoin (from_option points [] <$> (cell l i <$> js)))) +
    foldr Z.add 0 ((fun j => if decide (i = j) then cellSize l i j else 0) <$> js) =
  foldr Z.add 0 (cellSize l i <$> js).
Proof.
  induction js as [| j js IH]; csimpl; [done |].
  rewrite length_app, Nat2Z.inj_add. rewrite <- IH.
  assert (Z.of_nat (length (from_option points [] (cell l i j))) +
          (if decide (i = j) then cellSize l i j else 0) = cellSize l i j); [| lia].
  unfold cell, cellSize. destruct (l !! i), (l !! j); try (case_decide; done).
  case_decide; [done |]. destruct (makeIntersection_loop _ _); simpl; [| done].
  rewrite length_points. lia.
Qed.

Lemma sum_diagonal (i s n : nat) (f : nat -> Z) :
  foldr Z.add 0 ((fun j => if decide (i = j) then f j else 0) <$> seq s n) =
  if decide (s <= i < s + n)%nat then f i else 0.
Proof.
  revert s. induction n as [| n IH]; intros s; csimpl; [rewrite decide_False by lia; done |].
  rewrite IH. repeat case_decide; subst; try lia; (exfalso; lia).
Qed.

Lemma allSelected_lookup (j : nat) (c : esdmI_hypercube_t) :
  l !! j = Some c -> allSelected !! j = Some true.
Proof. intros Hj. apply lookup_replicate. split; [done |]. by apply lookup_lt_Some in Hj. Qed.

Lemma cellSel_all (a b : nat) : cellSel allSelected a b = cell l a b.
Proof.
  unfold cellSel. case_decide as H; [done |]. unfold cell.
  destruct (l !! a) eqn:Ea; [| done]. destruct (l !! b) eqn:Eb; [| done].
  exfalso. apply H. split; by eapply allSelected_lookup.
Qed.

(** A cube that the others cover is counted at least twice in its row. *)
Lemma covered_rowSum (i : nat) (ci : esdmI_hypercube_t) :
  l !! i = Some ci -> (forall p, in_cube p ci -> covered_by allSelected i p) ->
  2 * volume ci <= rowSum i 0 (length l).
Proof.
  intros Hi Hcov. unfold rowSum. rewrite <- row_points_length.
  rewrite sum_diagonal, decide_True by (apply lookup_lt_Some in Hi; lia).
  assert (cellSize l i i = volume ci) as -> by (unfold cellSize; rewrite Hi; by rewrite decide_True).
  rewrite <- (length_points ci).
  assert (length (points ci) <= length (mjoin (from_option points [] <$> (cell l i <$> seq 0 (length l)))))%nat;
    [| lia].
  apply submseteq_length, NoDup_submseteq; [apply NoDup_points |]. intros p Hp%elem_of_points.
  specialize (Hcov p Hp). apply (covers_row allSelected i ci p) in Hcov as (c & Hc & Hpc);
    [| apply length_replicate | done | by eapply allSelected_lookup | done].
  apply list_elem_of_join. exists (points c). split; [by apply elem_of_points |].
  apply list_elem_of_fmap. exists (Some c). split; [done |].
  apply list_elem_of_fmap in Hc as (j & Hj & Hin). rewrite cellSel_all in Hj.
  apply list_elem_of_fmap. eauto.
Qed.

Lemma redundant_or_not (i : nat) (ci : esdmI_hypercube_t) :
  l !! i = Some ci ->
  irredundant allSelected i \/ (forall p, in_cube p ci -> covered_by allSelected i p).
Proof.
  intros Hi. destruct (test_row_ok allSelected i ci) as ([|] & _ & H1 & H2); auto.
  - apply length_replicate.
  - by eapply allSelected_lookup.
Qed.

Lemma requiredCube_ok (m : array2 (option esdmI_hypercube_t)) (sizes : array2 Z) (i : nat) :
  (forall a b, (a < length l)%nat -> (b < length l)%nat ->
     m a b = Some (cell l a b) /\ sizes a b = Some (cellSize l a b)) ->
  (i < length l)%nat ->
  exists b, requiredCube l m sizes i = Done b /\ (b = true -> irredundant allSelected i).
Proof.
  intros Hm Hi. destruct (lookup_lt_is_Some_2 l i Hi) as [ci Hci].
  destruct (list_ok_cube l Hl i ci Hci) as (_ & _ & H1 & H2 & H3).
  unfold requiredCube. rewrite (coverage_loop_ok sizes i ci) by (lia || done || (intros; by apply Hm)).
  run. rewrite (proj2 (Hm i i Hi Hi)). run.
  assert (cellSize l i i = volume ci) as -> by (unfold cellSize; rewrite Hci; by rewrite decide_True).
  rewrite chk64_ok by (unfold INT64_MIN; lia). run.
  rewrite Z.add_0_l. destruct (Z.ltb_spec (rowSum i 0 (length l)) (2 * volume ci)) as [Hlt | Hge].
  - exists true. split; [done |]. intros _.
    destruct (redundant_or_not i ci Hci) as [? | Hcov]; [done |].
    pose proof (covered_rowSum i ci Hci Hcov). lia.
  - rewrite Hci. run. rewrite (array2_row_ok m (cellSel allSelected i)).
    2: { intros j Hj. rewrite cellSel_all. by apply Hm. }
    run. destruct (test_row_ok allSelected i ci) as (b & -> & _ & Hb);
      [apply length_replicate | done | by eapply allSelected_lookup |].
    run. exists (negb b). split; [done |]. intros ?. apply Hb. by destruct b.
Qed.

(** The unconditionally required cubes are a correct starting point of the search. *)
Lemma required_inv (m : array2 (option esdmI_hypercube_t)) (required : list bool) :
  (forall a b, (a < length l)%nat -> (b < length l)%nat -> m a b = Some (cell l a b)) ->
  length required = length l ->
  (forall i, required !! i = Some true -> irredundant allSelected i) ->
  subset_inv allSelected required m.
Proof.
  intros Hm Hlen Hreq. constructor; try done.
  - apply length_replicate.
  - intros a b Ha Hb. rewrite cellSel_all. auto.
  - intros i Hi. apply lookup_lt_Some in Hi. apply lookup_replicate. split; [done | lia].
  - intros p (c & Hc & Hp). apply list_elem_of_lookup in Hc as [i Hi].
    exists i, c. split; [by eapply allSelected_lookup | done].
  - auto.
Qed.

(** A selection that covers everything the list covers, without a redundant member. *)
Record minimal_cover (sel : list bool) : Prop := {
  mc_length : length sel = length l;
  mc_covers : forall p, covered l p <-> exists i c, sel !! i = Some true /\ l !! i = Some c /\ in_cube p c;
  mc_minimal : forall i, sel !! i = Some true -> irredundant sel i
}.

Lemma countFalse_zero (k : list bool) (i : nat) :
  countFalse k = 0%nat -> (i < length k)%nat -> k !! i = Some true.
Proof.
  intros H Hi. destruct (lookup_lt_is_Some_2 k i Hi) as [[|] Hk]; [done |].
  rewrite (countFalse_insert k i Hk) in H. lia.
Qed.

Lemma subset_inv_final (sel checked : list bool) (m : array2 (option esdmI_hypercube_t)) :
  subset_inv sel checked m -> countFalse checked = 0%nat -> minimal_cover sel.
Proof.
  intros Hinv H0. constructor.
  - apply (si_length _ _ _ Hinv).
  - intros p. split; [apply (si_covers _ _ _ Hinv) |].
    intros (i & c & _ & Hi & Hp). exists c. split; [by eapply list_elem_of_lookup_2 | done].
  - intros i Hi. apply (si_minimal _ _ _ Hinv); [| done]. apply countFalse_zero; [done |].
    rewrite (si_checked _ _ _ Hinv), <- (si_length _ _ _ Hinv). by apply lookup_lt_Some in Hi.
Qed.

Lemma subsets_loop_ok (n : nat) (required : list bool) (m : array2 (option esdmI_hypercube_t)) (seed : Z) :
  subset_inv allSelected required m ->
  exists subsets seed', subsets_loop rand_r n l required m seed = Done (subsets, seed') /\
  length subsets = n /\ Forall minimal_cover subsets.
Proof.
  intros Hinv. revert seed. induction n as [| n IH]; intros seed; simpl; [by eexists _, _ |].
  unfold findMinimalSubset_internal.
  destruct (findMinimalSubset_loop_ok (countFalse required) seed allSelected required m)
    as (sel & checked & m' & seed1 & E & Hinv' & H0); [done | done |].
  unfold allSelected in E. rewrite E. simpl.
  destruct (IH seed1) as (rest & seed2 & -> & Hlen & Hall). simpl.
  eexists _, _. split; [reflexivity |]. split; [simpl; lia |].
  constructor; [by eapply subset_inv_final | done].
Qed.

Lemma required_ok (m : array2 (option esdmI_hypercube_t)) (sizes : array2 Z) :
  (forall a b, (a < length l)%nat -> (b < length l)%nat ->
     m a b = Some (cell l a b) /\ sizes a b = Some (cellSize l a b)) ->
  exists required, mapM (requiredCube l m sizes) (seq 0 (length l)) = Done required /\
  subset_inv allSelected required m.
Proof.
  intros Hm.
  destruct (mapM_ok (requiredCube l m sizes) (fun i b => b = true -> irredundant allSelected i)
    (seq 0 (length l))) as (req & E & H).
  { intros i Hi. apply elem_of_seq in Hi. apply requiredCube_ok; [done | lia]. }
  exists req. split; [done |]. apply required_inv.
  - intros a b Ha Hb. by apply Hm.
  - by rewrite <- (Forall2_length _ _ _ H), length_seq.
  - intros i Hi. destruct (Forall2_lookup_r _ _ _ _ _ H Hi) as (j & Hj & Hreq).
    apply lookup_seq in Hj as [-> _]. by apply Hreq.
Qed.

End Select.

(** C38: [esdmI_hypercubeList_nonredundantSubsets_internal()] returns [setCount]
    selections of the given cubes; each covers exactly the points the whole list
    covers, and every cube it selects has a point that no other selected cube has. *)
Theorem nonredundantSubsets_correct (rand_r : Z -> Z * Z) (list : list esdmI_hypercube_t)
    (setCount : nat) (seed : Z) :
  (forall s, 0 <= (rand_r s).1 <= RAND_MAX) -> list_ok list -> Z.of_nat (length list) < 2 ^ 32 ->
  exists subsets seed',
    esdmI_hypercubeList_nonredundantSubsets_internal rand_r list setCount seed = Done (subsets, seed') /\
    length subsets = setCount /\ Forall (minimal_cover list) subsets.
Proof.
  intros Hrand Hl Hcount. unfold esdmI_hypercubeList_nonredundantSubsets_internal.
  destruct (makeIntersectionMatrix_ok list Hl) as (m & s & -> & Hm). simpl.
  destruct (required_ok list Hl m s Hm) as (req & -> & Hinv). simpl.
  by apply subsets_loop_ok.
Qed.

(** Two cubes that together cover a third one, and a generator that always answers 7. *)
Lemma nonredundantSubsets_correct_witness :
  let cubes := [[Range 0 4; Range 0 4]; [Range 4 8; Range 0 4]; [Range 2 6; Range 0 4]] in
  exists subsets seed',
    esdmI_hypercubeList_nonredundantSubsets_internal (fun s => (7, s)) cubes 2 1 = Done (subsets, seed') /\
    length subsets = 2%nat /\ Forall (minimal_cover cubes) subsets.
Proof.
  apply (nonredundantSubsets_correct (fun s => (7, s))).
  - intros s. unfold RAND_MAX. simpl. lia.
  - constructor.
    + exists 2%nat. split; [lia |]. by repeat constructor.
    + repeat constructor; simpl; lia.
    + repeat constructor; vm_compute; discriminate.
  - simpl. lia.
Defined.
