(* ===== verification/BoundList.v ===== *)
(** Bound lists (src/hypercube-neighbour-manager.c): the interface of the virtual
    function table [esdmI_boundList_vtable_t] with the laws its users rely on, and the
    sorted array implementation. *)

From S2P Require Import Prelude.

(** * Entries *)

Record esdmI_boundListEntry_t := BoundListEntry { bakedBound : Z; cubeIndex : Z }.

#[global] Instance boundListEntry_eq_dec : EqDecision esdmI_boundListEntry_t.
Proof. solve_decision. Defined.

(** The lowest bit tells start bounds from end bounds. *)
Definition bakeBound (bound : Z) (isStart : bool) : outcome Z :=
  d ← chk64 (2 * bound);
  chk64 (d + (if isStart then 1 else 0)).

(** Entries are ordered by their baked bound. *)
Definition entry_le (a b : esdmI_boundListEntry_t) : Prop := bakedBound a <= bakedBound b.

#[global] Instance entry_le_dec (a b : esdmI_boundListEntry_t) : Decision (entry_le a b).
Proof. unfold entry_le. apply _. Defined.

(** Bounds whose baked form, and its predecessor, fit an [int64_t]. *)
Definition bound_ok (bound : Z) : Prop := - 2 ^ 62 < bound < 2 ^ 62.

Definition baked (bound : Z) (isStart : bool) : Z := 2 * bound + (if isStart then 1 else 0).

Lemma bakeBound_ok (bound : Z) (isStart : bool) :
  bound_ok bound -> bakeBound bound isStart = Done (baked bound isStart).
Proof.
  unfold bound_ok, bakeBound, baked. intros H.
  rewrite chk64_ok by (unfold INT64_MIN, INT64_MAX; lia). run.
  apply chk64_ok. unfold INT64_MIN, INT64_MAX. destruct isStart; lia.
Qed.

Lemma baked_inj (a b : Z) (x y : bool) : baked a x = baked b y -> a = b /\ x = y.
Proof. unfold baked. destruct x, y; intros H; split; (done || lia). Qed.

(** * The interface *)

(** More entries than any machine can hold; it keeps index arithmetic in range. *)
Definition MAX_ENTRIES : Z := 2 ^ 60.

Class BoundList (T I : Type) := {
  boundList_create : T;
  boundList_add : T -> Z -> bool -> Z -> outcome T;
  boundList_findFirst : T -> Z -> bool -> outcome (option (esdmI_boundListEntry_t * I));
  boundList_nextEntry : T -> I -> outcome (option (esdmI_boundListEntry_t * I))
}.

(** What an implementation promises: it represents a sorted list of entries; an
    iterator marks one position of that list. *)
Class BoundListLaws (T I : Type) `{BoundList T I} := {
  contents : T -> list esdmI_boundListEntry_t -> Prop;
  marks : T -> I -> list esdmI_boundListEntry_t -> esdmI_boundListEntry_t ->
          list esdmI_boundListEntry_t -> Prop;
  contents_sorted (t : T) (l : list esdmI_boundListEntry_t) :
    contents t l -> StronglySorted entry_le l;
  create_contents : contents boundList_create [];
  add_contents (t : T) (l : list esdmI_boundListEntry_t) (bound : Z) (isStart : bool) (index : Z) :
    contents t l -> bound_ok bound -> Z.of_nat (length l) < MAX_ENTRIES ->
    exists t' l', boundList_add t bound isStart index = Done t' /\ contents t' l' /\
    l' ≡ₚ BoundListEntry (baked bound isStart) index :: l;
  findFirst_contents (t : T) (l : list esdmI_boundListEntry_t) (bound : Z) (isStart : bool) :
    contents t l -> bound_ok bound ->
    exists r, boundList_findFirst t bound isStart = Done r /\
    match r with
    | None => Forall (fun e => bakedBound e <> baked bound isStart) l
    | Some (e, it) => exists pre post, l = pre ++ e :: post /\ marks t it pre e post /\
        bakedBound e = baked bound isStart /\ Forall (fun e' => bakedBound e' < baked bound isStart) pre
    end;
  nextEntry_contents (t : T) (it : I) (pre post : list esdmI_boundListEntry_t) (e : esdmI_boundListEntry_t) :
    contents t (pre ++ e :: post) -> marks t it pre e post ->
    exists r, boundList_nextEntry t it = Done r /\
    match r with
    | None => match post with [] => True | e' :: _ => bakedBound e' <> bakedBound e end
    | Some (e', it') => exists post', post = e' :: post' /\ bakedBound e' = bakedBound e /\
        marks t it' (pre ++ [e]) e' post'
    end
}.

(** * The array implementation *)

Module BoundArray.

(** [entries] are the first [count] entries of the allocated array. *)
Record esdmI_boundArray_t := BoundArray {
  entries : list esdmI_boundListEntry_t;
  allocatedCount : Z
}.

Definition count (me : esdmI_boundArray_t) : Z := Z.of_nat (length (entries me)).

Definition boundArray_construct : esdmI_boundArray_t := BoundArray [] 16.

(** The [while(low < high)] loop; [fuel] bounds the number of iterations. *)
Fixpoint boundArray_lookup_loop (fuel : nat) (me : esdmI_boundArray_t) (bound low high : Z) : outcome Z :=
  match fuel with
  | O => Undef
  | S fuel' =>
      if low <? high then
        sum ← chk64 (low + high);
        let mid := Z.quot sum 2 in
        eassert (mid <? high);;
        e ← deref (entries me !! Z.to_nat mid);
        if bakedBound e <? bound then boundArray_lookup_loop fuel' me bound (mid + 1) high
        else boundArray_lookup_loop fuel' me bound low mid
      else mret high
  end.

(** The returned pointer as an index into [entries]. *)
Definition boundArray_lookup (me : esdmI_boundArray_t) (bound : Z) : outcome Z :=
  boundArray_lookup_loop (S (length (entries me))) me bound 0 (count me).

Definition boundArray_add (me : esdmI_boundArray_t) (bound : Z) (isStart : bool) (index : Z)
    : outcome esdmI_boundArray_t :=
  let allocated := if count me =? allocatedCount me then allocatedCount me * 2 else allocatedCount me in
  eassert (allocated >? count me);;
  baked ← bakeBound bound isStart;
  iterator ← boundArray_lookup me baked;
  let i := Z.to_nat iterator in
  mret (BoundArray (take i (entries me) ++ BoundListEntry baked index :: drop i (entries me)) allocated).

(** The iterator is the position of the entry in the array. *)
Definition boundArray_findFirst (me : esdmI_boundArray_t) (bound : Z) (isStart : bool)
    : outcome (option (esdmI_boundListEntry_t * Z)) :=
  baked ← bakeBound bound isStart;
  result ← boundArray_lookup me baked;
  if result >=? count me then mret None
  else
    e ← deref (entries me !! Z.to_nat result);
    if negb (bakedBound e =? baked) then mret None else mret (Some (e, result)).

Definition boundArray_nextEntry (me : esdmI_boundArray_t) (iterator : Z)
    : outcome (option (esdmI_boundListEntry_t * Z)) :=
  let nextIndex := iterator + 1 in
  if nextIndex >=? count me then mret None
  else
    next ← deref (entries me !! Z.to_nat nextIndex);
    cur ← deref (entries me !! Z.to_nat iterator);
    if negb (bakedBound next =? bakedBound cur) then mret None else mret (Some (next, nextIndex)).

#[global] Instance boundArray_list : BoundList esdmI_boundArray_t Z := {
  boundList_create := boundArray_construct;
  boundList_add := boundArray_add;
  boundList_findFirst := boundArray_findFirst;
  boundList_nextEntry := boundArray_nextEntry
}.

(** ** Correctness *)

Lemma sorted_lookup_le (l : list esdmI_boundListEntry_t) (i j : nat) (a b : esdmI_boundListEntry_t) :
  StronglySorted entry_le l -> l !! i = Some a -> l !! j = Some b -> (i <= j)%nat -> bakedBound a <= bakedBound b.
Proof.
  intros Hs Hi Hj Hij. destruct (decide (i = j)) as [-> | Hne]; [replace b with a by congruence; lia |].
  apply take_drop_middle in Hi. rewrite <- Hi in Hs.
  apply StronglySorted_app_1_r, StronglySorted_cons in Hs as [Hs _].
  rewrite Forall_forall in Hs. apply Hs. apply list_elem_of_lookup. exists (j - S i)%nat.
  rewrite lookup_drop. by replace (S i + (j - S i))%nat with j by lia.
Qed.

(** The loop keeps the answer between [low] and [high]. *)
Lemma lookup_loop_ok (fuel : nat) (me : esdmI_boundArray_t) (bound low high : Z) :
  StronglySorted entry_le (entries me) -> count me < 2 ^ 62 ->
  0 <= low <= high -> high <= count me -> high - low < Z.of_nat fuel ->
  Forall (fun e => bakedBound e < bound) (take (Z.to_nat low) (entries me)) ->
  Forall (fun e => bound <= bakedBound e) (drop (Z.to_nat high) (entries me)) ->
  exists r, boundArray_lookup_loop fuel me bound low high = Done r /\ 0 <= r <= count me /\
  Forall (fun e => bakedBound e < bound) (take (Z.to_nat r) (entries me)) /\
  Forall (fun e => bound <= bakedBound e) (drop (Z.to_nat r) (entries me)).
Proof.
  intros Hs Hc. revert low high. induction fuel as [| fuel IH]; intros low high Hlow Hhigh Hfuel Hl Hr; [lia |].
  cbn [boundArray_lookup_loop]. destruct (Z.ltb_spec low high) as [Hlt | Hge].
  2: { exists high. assert (low = high) as -> by lia. auto with lia. }
  rewrite chk64_ok by (unfold INT64_MIN, INT64_MAX; lia). run.
  rewrite Z.quot_div_nonneg by lia. set (mid := (low + high) / 2).
  assert (low <= mid < high) as Hmid by (unfold mid; split; [apply Z.div_le_lower_bound | apply Z.div_lt_upper_bound]; lia).
  rewrite eassert_true by (apply Z.ltb_lt; lia). run.
  destruct (lookup_lt_is_Some_2 (entries me) (Z.to_nat mid)) as [e He]; [unfold count in *; lia |].
  rewrite He. run. destruct (Z.ltb_spec (bakedBound e) bound) as [Hb | Hb]; apply IH; try done; try lia.
  - apply Forall_lookup. intros i x Hx. apply lookup_take_Some in Hx as [Hx Hi].
    pose proof (sorted_lookup_le _ _ _ _ _ Hs Hx He). lia.
  - apply Forall_lookup. intros i x Hx. rewrite lookup_drop in Hx.
    pose proof (sorted_lookup_le _ _ _ _ _ Hs He Hx). lia.
Qed.

Lemma boundArray_lookup_ok (me : esdmI_boundArray_t) (bound : Z) :
  StronglySorted entry_le (entries me) -> count me < 2 ^ 62 ->
  exists r, boundArray_lookup me bound = Done r /\ 0 <= r <= count me /\
  Forall (fun e => bakedBound e < bound) (take (Z.to_nat r) (entries me)) /\
  Forall (fun e => bound <= bakedBound e) (drop (Z.to_nat r) (entries me)).
Proof.
  intros Hs Hc. apply lookup_loop_ok; try done; try (unfold count; lia).
  unfold count. by rewrite Nat2Z.id, drop_all.
Qed.

(** The array invariant: the entries are sorted, fit the allocation, and are few
    enough to be addressed. *)
Record array_contents (me : esdmI_boundArray_t) (l : list esdmI_boundListEntry_t) : Prop := {
  ac_entries : entries me = l;
  ac_sorted : StronglySorted entry_le l;
  ac_alloc : 0 < allocatedCount me /\ count me <= allocatedCount me;
  ac_max : Z.of_nat (length l) <= MAX_ENTRIES
}.

Definition array_marks (me : esdmI_boundArray_t) (it : Z) (pre : list esdmI_boundListEntry_t)
    (e : esdmI_boundListEntry_t) (post : list esdmI_boundListEntry_t) : Prop :=
  it = Z.of_nat (length pre).

Lemma sorted_insert (pre post : list esdmI_boundListEntry_t) (e : esdmI_boundListEntry_t) :
  StronglySorted entry_le (pre ++ post) ->
  Forall (fun x => entry_le x e) pre -> Forall (entry_le e) post ->
  StronglySorted entry_le (pre ++ e :: post).
Proof.
  rewrite !StronglySorted_app, StronglySorted_cons, !Forall_forall.
  intros (H1 & H2 & H3) Hpre Hpost. split; [| done].
  intros x y Hx Hy. apply elem_of_cons in Hy as [-> | Hy]; auto.
Qed.

Lemma array_lookup_ok (me : esdmI_boundArray_t) (l : list esdmI_boundListEntry_t) (bound : Z) :
  array_contents me l -> exists pre post, l = pre ++ post /\
  boundArray_lookup me bound = Done (Z.of_nat (length pre)) /\
  Forall (fun e => bakedBound e < bound) pre /\ Forall (fun e => bound <= bakedBound e) post.
Proof.
  intros [<- Hs _ Hmax].
  destruct (boundArray_lookup_ok me bound Hs) as (r & E & Hr & H1 & H2).
  { unfold count, MAX_ENTRIES in *. lia. }
  eexists _, _. split; [symmetry; apply (take_drop (Z.to_nat r)) |].
  split; [| done]. rewrite E. f_equal. rewrite length_take. unfold count in Hr. lia.
Qed.

Lemma boundArray_add_ok (me : esdmI_boundArray_t) (l : list esdmI_boundListEntry_t)
    (bound : Z) (isStart : bool) (index : Z) :
  array_contents me l -> bound_ok bound -> Z.of_nat (length l) < MAX_ENTRIES ->
  exists me' l', boundArray_add me bound isStart index = Done me' /\ array_contents me' l' /\
  l' ≡ₚ BoundListEntry (baked bound isStart) index :: l.
Proof.
  intros Hc Hb Hl. pose proof Hc as [He Hs Ha Hm].
  destruct (array_lookup_ok me l (baked bound isStart) Hc) as (pre & post & -> & E & H1 & H2).
  unfold boundArray_add. set (allocated := if count me =? _ then _ else _).
  assert (Halloc : count me < allocated).
  { unfold allocated. destruct (Z.eqb_spec (count me) (allocatedCount me)); lia. }
  rewrite eassert_true by (rewrite Z.gtb_ltb; by apply Z.ltb_lt). run.
  rewrite bakeBound_ok by done. run. rewrite E. run.
  rewrite Nat2Z.id, He, take_app_length, drop_app_length.
  eexists _, (pre ++ BoundListEntry (baked bound isStart) index :: post).
  split; [reflexivity |]. split; [| symmetry; apply Permutation_middle].
  constructor; simpl; [done | | |].
  - apply sorted_insert; [done | |].
    + eapply Forall_impl; [exact H1 |]. unfold entry_le. simpl. lia.
    + exact H2.
  - unfold count in *. rewrite He in *. simpl. rewrite !length_app in *. simpl in *. lia.
  - rewrite !length_app in *. simpl in *. lia.
Qed.

Lemma boundArray_findFirst_ok (me : esdmI_boundArray_t) (l : list esdmI_boundListEntry_t)
    (bound : Z) (isStart : bool) :
  array_contents me l -> bound_ok bound ->
  exists r, boundArray_findFirst me bound isStart = Done r /\
  match r with
  | None => Forall (fun e => bakedBound e <> baked bound isStart) l
  | Some (e, it) => exists pre post, l = pre ++ e :: post /\ array_marks me it pre e post /\
      bakedBound e = baked bound isStart /\ Forall (fun e' => bakedBound e' < baked bound isStart) pre
  end.
Proof.
  intros Hc Hb. pose proof Hc as [He Hs Ha Hm].
  destruct (array_lookup_ok me l (baked bound isStart) Hc) as (pre & post & -> & E & H1 & H2).
  unfold boundArray_findFirst. rewrite bakeBound_ok by done. run. rewrite E. run.
  assert (Hpre : Forall (fun e => bakedBound e <> baked bound isStart) pre).
  { eapply Forall_impl; [exact H1 |]. simpl. lia. }
  unfold count. rewrite He, Z.geb_leb, length_app. destruct post as [| e post]; simpl.
  - rewrite (proj2 (Z.leb_le _ _)) by lia. exists None. split; [done |]. by rewrite app_nil_r.
  - rewrite (proj2 (Z.leb_gt _ _)) by lia. rewrite Nat2Z.id, list_lookup_middle by done. run.
    destruct (Z.eqb_spec (bakedBound e) (baked bound isStart)) as [Heq | Hne]; simpl.
    + exists (Some (e, Z.of_nat (length pre))). split; [done |]. exists pre, post. done.
    + exists None. split; [done |]. apply Forall_app. split; [done |].
      apply Forall_cons in H2 as [H2 _]. constructor; [done |].
      apply StronglySorted_app_1_r, StronglySorted_cons in Hs as [Hs _].
      eapply Forall_impl; [exact Hs |]. unfold entry_le. simpl. lia.
Qed.

Lemma boundArray_nextEntry_ok (me : esdmI_boundArray_t) (it : Z)
    (pre post : list esdmI_boundListEntry_t) (e : esdmI_boundListEntry_t) :
  array_contents me (pre ++ e :: post) -> array_marks me it pre e post ->
  exists r, boundArray_nextEntry me it = Done r /\
  match r with
  | None => match post with [] => True | e' :: _ => bakedBound e' <> bakedBound e end
  | Some (e', it') => exists post', post = e' :: post' /\ bakedBound e' = bakedBound e /\
      array_marks me it' (pre ++ [e]) e' post'
  end.
Proof.
  intros [He _ _ _] ->. unfold boundArray_nextEntry, count. rewrite He, Z.geb_leb, length_app.
  destruct post as [| e' post]; simpl.
  - rewrite (proj2 (Z.leb_le _ _)) by lia. by exists None.
  - rewrite (proj2 (Z.leb_gt _ _)) by lia.
    replace (Z.to_nat (Z.of_nat (length pre) + 1)) with (length (pre ++ [e])) by (rewrite length_app; simpl; lia).
    assert ((pre ++ e :: e' :: post) !! length (pre ++ [e]) = Some e') as ->.
    { rewrite (cons_middle e pre (e' :: post)), app_assoc. by apply list_lookup_middle. }
    run. rewrite Nat2Z.id, list_lookup_middle by done. run.
    destruct (Z.eqb_spec (bakedBound e') (bakedBound e)) as [Heq | Hne]; simpl.
    + eexists. split; [reflexivity |]. exists post. split; [done |]. split; [done |].
      unfold array_marks. rewrite length_app. simpl. lia.
    + by exists None.
Qed.

#[global, refine] Instance boundArray_laws : BoundListLaws esdmI_boundArray_t Z := {
  contents := array_contents;
  marks := array_marks
}.
Proof.
  - intros t l [_ Hs _ _]. exact Hs.
  - constructor; simpl; [done | constructor | unfold count; simpl; lia | unfold MAX_ENTRIES; lia].
  - exact boundArray_add_ok.
  - exact boundArray_findFirst_ok.
  - exact boundArray_nextEntry_ok.
Defined.

End BoundArray.
