(* ===== verification/BoundTree.v ===== *)
(** The B-tree implementation of bound lists (src/hypercube-neighbour-manager.c,
    [boundTree_*]), which is the default one.

    A node owns its children; its [parent] pointer is represented by the path from
    the node to the root, each step of which holds the parent and the position of
    the child in it.  The C code finds that position by comparing pointers. *)

From S2P Require Import Prelude BoundList.

Module BoundTree.

(** * Data *)

Definition BOUND_TREE_MAX_BRANCH_FACTOR : nat := 21.
Definition BOUND_TREE_MAX_ENTRY_COUNT : nat := BOUND_TREE_MAX_BRANCH_FACTOR - 1.

(** [bounds] are the first [entryCount] cells of the array of the node, [children]
    the first [entryCount + 1]; a leaf has [NULL] children only. *)
#[warnings="-register-all"] Inductive esdmI_boundTree_t :=
| BoundTreeNode (bounds : list esdmI_boundListEntry_t) (children : list (option esdmI_boundTree_t)).

Definition bounds (me : esdmI_boundTree_t) : list esdmI_boundListEntry_t :=
  match me with BoundTreeNode b _ => b end.

Definition children (me : esdmI_boundTree_t) : list (option esdmI_boundTree_t) :=
  match me with BoundTreeNode _ c => c end.

Definition entryCount (me : esdmI_boundTree_t) : nat := length (bounds me).

(** The chain of [parent] pointers of a node, innermost first, with the position
    of each child in its parent. *)
Definition parents : Type := list (esdmI_boundTree_t * nat).

(** [treeIterator]: a node and an [entryPosition]. *)
Record treeIterator := TreeIterator { node : esdmI_boundTree_t; chain : parents; entryPosition : nat }.

(** The tree a node belongs to: the in-place update of a node is visible in its parents. *)
Fixpoint rootOf (chain : parents) (me : esdmI_boundTree_t) : esdmI_boundTree_t :=
  match chain with
  | [] => me
  | (parent, position) :: chain' =>
      rootOf chain' (BoundTreeNode (bounds parent) (<[position := Some me]> (children parent)))
  end.

(** The depth of the tree, along its first children. *)
Fixpoint depth (me : esdmI_boundTree_t) : nat :=
  match me with
  | BoundTreeNode _ (Some child :: _) => S (depth child)
  | _ => O
  end.

(** * Operations *)

Definition boundTree_construct : esdmI_boundTree_t := BoundTreeNode [] [None].

(** The first position with a greater bound. *)
Fixpoint boundPosition (l : list esdmI_boundListEntry_t) (bound : Z) : nat :=
  match l with
  | [] => O
  | e :: l' => if bakedBound e >? bound then O else S (boundPosition l' bound)
  end.

Definition boundTree_findBoundPosition (me : esdmI_boundTree_t) (bound : Z) : nat :=
  boundPosition (bounds me) bound.

(** The two [memmove()]s that make room for an entry and the child before it. *)
Definition insertAt {A} (i : nat) (x : A) (l : list A) : list A := take i l ++ x :: drop i l.

(** [childIndex] is the position of the new entry: that of [splittedChild] in [me]
    when there is one, that of the bound otherwise.  The result is the root. *)
Fixpoint boundTree_insert (chain : parents) (me : esdmI_boundTree_t) (childIndex : nat)
    (newEntry : esdmI_boundListEntry_t) (insertChild : option esdmI_boundTree_t) : outcome esdmI_boundTree_t :=
  let tempBounds := insertAt childIndex newEntry (bounds me) in
  let tempChildren := insertAt childIndex insertChild (children me) in
  if (entryCount me <? BOUND_TREE_MAX_ENTRY_COUNT)%nat then
    mret (rootOf chain (BoundTreeNode tempBounds tempChildren))
  else
    let splitIndex := (BOUND_TREE_MAX_ENTRY_COUNT / 2)%nat in
    let left := BoundTreeNode (take splitIndex tempBounds) (take (S splitIndex) tempChildren) in
    let right := BoundTreeNode (drop (S splitIndex) tempBounds) (drop (S splitIndex) tempChildren) in
    middle ← deref (tempBounds !! splitIndex);
    match chain with
    | (parent, position) :: chain' =>
        boundTree_insert chain' (BoundTreeNode (bounds parent) (<[position := Some right]> (children parent)))
          position middle (Some left)
    | [] => mret (BoundTreeNode [middle] [Some left; Some right])
    end.

(** The loops that walk down to a leaf: from child [childIndex] of [me], taking the
    child [next] selects in each node below.  [fuel] bounds the depth. *)
Fixpoint boundTree_descend (fuel : nat) (next : esdmI_boundTree_t -> nat) (chain : parents)
    (me : esdmI_boundTree_t) (childIndex : nat) : outcome treeIterator :=
  child ← deref (children me !! childIndex);
  match child, fuel with
  | None, _ => mret (TreeIterator me chain childIndex)
  | Some child, S fuel' => boundTree_descend fuel' next ((me, childIndex) :: chain) child (next child)
  | Some _, O => Undef
  end.

(** The loops that walk up while the position is behind the last entry of the node. *)
Fixpoint boundTree_ascend (chain : parents) (me : esdmI_boundTree_t) (childIndex : nat) : option treeIterator :=
  if (childIndex =? entryCount me)%nat then
    match chain with
    | [] => None
    | (parent, position) :: chain' => boundTree_ascend chain' parent position
    end
  else Some (TreeIterator me chain childIndex).

Definition boundTree_add_internal (me : esdmI_boundTree_t) (newEntry : esdmI_boundListEntry_t)
    : outcome esdmI_boundTree_t :=
  let position node := boundTree_findBoundPosition node (bakedBound newEntry) in
  leaf ← boundTree_descend (depth me) position [] me (position me);
  boundTree_insert (chain leaf) (node leaf) (position (node leaf)) newEntry None.

Definition boundTree_add (me : esdmI_boundTree_t) (bound : Z) (isStart : bool) (index : Z)
    : outcome esdmI_boundTree_t :=
  baked ← bakeBound bound isStart;
  boundTree_add_internal me (BoundListEntry baked index).

(** The end of both searches: the entry at the iterator, when it has the bound. *)
Definition entryWithBound (found : option treeIterator) (bound : Z)
    : outcome (option (esdmI_boundListEntry_t * treeIterator)) :=
  match found with
  | None => mret None
  | Some it =>
      e ← deref (bounds (node it) !! entryPosition it);
      if bakedBound e =? bound then mret (Some (e, it)) else mret None
  end.

Definition boundTree_findFirst_internal (me : esdmI_boundTree_t) (bound : Z)
    : outcome (option (esdmI_boundListEntry_t * treeIterator)) :=
  before ← chk64 (bound - 1);
  let position node := boundTree_findBoundPosition node before in
  leaf ← boundTree_descend (depth me) position [] me (position me);
  entryWithBound (boundTree_ascend (chain leaf) (node leaf) (entryPosition leaf)) bound.

Definition boundTree_findFirst (me : esdmI_boundTree_t) (bound : Z) (isStart : bool)
    : outcome (option (esdmI_boundListEntry_t * treeIterator)) :=
  baked ← bakeBound bound isStart;
  boundTree_findFirst_internal me baked.

Definition boundTree_nextEntry (me : esdmI_boundTree_t) (iterator : treeIterator)
    : outcome (option (esdmI_boundListEntry_t * treeIterator)) :=
  let me := node iterator in
  e ← deref (bounds me !! entryPosition iterator);
  leaf ← boundTree_descend (depth me) (fun _ => O) (chain iterator) me (S (entryPosition iterator));
  entryWithBound (boundTree_ascend (chain leaf) (node leaf) (entryPosition leaf)) (bakedBound e).

#[global] Instance boundTree_list : BoundList esdmI_boundTree_t treeIterator := {
  boundList_create := boundTree_construct;
  boundList_add := boundTree_add;
  boundList_findFirst := boundTree_findFirst;
  boundList_nextEntry := boundTree_nextEntry
}.

(** * The entries of a tree, in order *)

(** The entries [b] of a node between the contents [c] of its children. *)
Fixpoint interleave (b : list esdmI_boundListEntry_t) (c : list (list esdmI_boundListEntry_t)) {struct c}
    : list esdmI_boundListEntry_t :=
  match c with
  | [] => []
  | x :: c' => x ++ match b with [] => [] | y :: b' => y :: interleave b' c' end
  end.

Fixpoint inorder (me : esdmI_boundTree_t) : list esdmI_boundListEntry_t :=
  match me with
  | BoundTreeNode b c =>
      interleave b (map (fun child => match child with Some t => inorder t | None => [] end) c)
  end.

Definition content (child : option esdmI_boundTree_t) : list esdmI_boundListEntry_t :=
  match child with Some t => inorder t | None => [] end.

(** What precedes child [i] of a node in it, and what follows that child. *)
Definition before (me : esdmI_boundTree_t) (i : nat) : list esdmI_boundListEntry_t :=
  interleave (take i (bounds me)) (map content (take i (children me))).

Definition after (me : esdmI_boundTree_t) (i : nat) : list esdmI_boundListEntry_t :=
  match drop i (bounds me) with
  | [] => []
  | y :: b => y :: interleave b (map content (drop (S i) (children me)))
  end.

(** What precedes and follows a node in the tree it belongs to. *)
Fixpoint outer_before (chain : parents) : list esdmI_boundListEntry_t :=
  match chain with
  | [] => []
  | (parent, position) :: chain' => outer_before chain' ++ before parent position
  end.

Fixpoint outer_after (chain : parents) : list esdmI_boundListEntry_t :=
  match chain with
  | [] => []
  | (parent, position) :: chain' => after parent position ++ outer_after chain'
  end.

(** * The invariant of a B-tree

    All leaves are at depth [h], no node holds more than twenty entries, and every
    node below the root at least ten; a root with children holds at least one. *)
Fixpoint btree (h : nat) (me : esdmI_boundTree_t) : Prop :=
  (entryCount me <= BOUND_TREE_MAX_ENTRY_COUNT)%nat /\ length (children me) = S (entryCount me) /\
  match h with
  | O => Forall (eq None) (children me)
  | S h' => Forall (fun child => exists t, child = Some t /\ btree h' t /\
              (BOUND_TREE_MAX_ENTRY_COUNT / 2 <= entryCount t)%nat) (children me)
  end.

(** A node of height [h] belongs at the end of the path. *)
Fixpoint chain_ok (h : nat) (chain : parents) : Prop :=
  match chain with
  | [] => True
  | (parent, position) :: chain' =>
      btree (S h) parent /\ (position <= entryCount parent)%nat /\ chain_ok (S h) chain' /\
      (1 <= entryCount parent)%nat /\ (chain' <> [] -> (BOUND_TREE_MAX_ENTRY_COUNT / 2 <= entryCount parent)%nat)
  end.

Definition child_ok (h : nat) (child : option esdmI_boundTree_t) : Prop :=
  match h with
  | O => None = child
  | S h' => exists t, child = Some t /\ btree h' t /\ (BOUND_TREE_MAX_ENTRY_COUNT / 2 <= entryCount t)%nat
  end.

Lemma btree_unfold (h : nat) (me : esdmI_boundTree_t) :
  btree h me <-> (entryCount me <= BOUND_TREE_MAX_ENTRY_COUNT)%nat /\ length (children me) = S (entryCount me) /\
                 Forall (child_ok h) (children me).
Proof. destruct h; simpl; reflexivity. Qed.

Lemma max_entry_count : BOUND_TREE_MAX_ENTRY_COUNT = 20%nat.
Proof. reflexivity. Qed.

Lemma split_index : (BOUND_TREE_MAX_ENTRY_COUNT / 2)%nat = 10%nat.
Proof. reflexivity. Qed.

#[global] Opaque BOUND_TREE_MAX_ENTRY_COUNT.

(** ** Interleaving *)

Lemma interleave_at (b : list esdmI_boundListEntry_t) (c : list (list esdmI_boundListEntry_t)) (i : nat)
    (x : list esdmI_boundListEntry_t) :
  length c = S (length b) -> c !! i = Some x ->
  interleave b c = interleave (take i b) (take i c) ++ x ++
    match drop i b with [] => [] | y :: b' => y :: interleave b' (drop (S i) c) end.
Proof.
  revert b c. induction i as [| i IH]; intros b c Hl Hx; destruct c as [| z c]; try done; cbn in Hl.
  - injection Hx as ->. cbn [take interleave app]. by destruct b.
  - destruct b as [| y b]; cbn in *; [by destruct c |]. rewrite <- app_assoc. cbn. f_equal. f_equal. by apply IH; [lia |].
Qed.

Lemma interleave_split (b : list esdmI_boundListEntry_t) (c : list (list esdmI_boundListEntry_t)) (i : nat)
    (y : esdmI_boundListEntry_t) :
  length c = S (length b) -> b !! i = Some y ->
  interleave b c = interleave (take i b) (take (S i) c) ++ y :: interleave (drop (S i) b) (drop (S i) c).
Proof.
  revert b c. induction i as [| i IH]; intros b c Hl Hy; destruct c as [| z c], b as [| y' b]; try done; cbn in Hl.
  - injection Hy as ->. cbn. by rewrite app_nil_r, !skipn_O.
  - cbn in Hy. cbn [take drop interleave]. rewrite <- app_assoc. cbn [app]. f_equal. f_equal. apply IH; [lia | done].
Qed.

(** ** Nodes and paths *)

Lemma child_at (h : nat) (me : esdmI_boundTree_t) (i : nat) :
  btree h me -> (i <= entryCount me)%nat -> exists child, children me !! i = Some child /\ child_ok h child.
Proof.
  rewrite btree_unfold. intros (_ & Hl & Hc) Hi.
  destruct (lookup_lt_is_Some_2 (children me) i) as [child E]; [lia |].
  exists child. split; [done |]. by eapply Forall_lookup_1 in Hc.
Qed.

Lemma inorder_node (me : esdmI_boundTree_t) : inorder me = interleave (bounds me) (map content (children me)).
Proof. by destruct me. Qed.

Lemma inorder_at (me : esdmI_boundTree_t) (i : nat) (child : option esdmI_boundTree_t) :
  length (children me) = S (entryCount me) -> children me !! i = Some child ->
  inorder me = before me i ++ content child ++ after me i.
Proof.
  intros Hl E. rewrite inorder_node, (interleave_at _ _ i (content child)).
  - unfold before, after. by rewrite firstn_map, skipn_map.
  - by rewrite length_map.
  - change (map content (children me)) with (content <$> children me). by rewrite list_lookup_fmap, E.
Qed.

Lemma replace_child_before (me : esdmI_boundTree_t) (i : nat) (child : option esdmI_boundTree_t) :
  before (BoundTreeNode (bounds me) (<[i := child]> (children me))) i = before me i.
Proof. unfold before. cbn. by rewrite take_insert_ge. Qed.

Lemma replace_child_after (me : esdmI_boundTree_t) (i : nat) (child : option esdmI_boundTree_t) :
  after (BoundTreeNode (bounds me) (<[i := child]> (children me))) i = after me i.
Proof. unfold after. cbn. by rewrite drop_insert_lt by lia. Qed.

Lemma replace_child_btree (h : nat) (me : esdmI_boundTree_t) (i : nat) (child : option esdmI_boundTree_t) :
  btree h me -> child_ok h child -> btree h (BoundTreeNode (bounds me) (<[i := child]> (children me))).
Proof.
  rewrite !btree_unfold. unfold entryCount. cbn. intros (H1 & H2 & H3) Hc. rewrite length_insert.
  split_and!; [done | done |]. by apply Forall_insert.
Qed.

(** The tree of a node holds what precedes it, its own entries, and what follows. *)
Lemma rootOf_inorder (h : nat) (chain : parents) (me : esdmI_boundTree_t) :
  chain_ok h chain -> inorder (rootOf chain me) = outer_before chain ++ inorder me ++ outer_after chain.
Proof.
  revert h me. induction chain as [| [parent i] chain IH]; intros h me Hc; cbn; [by rewrite app_nil_r |].
  destruct Hc as (Hp & Hi & Hc & _). rewrite (IH (S h)) by done.
  apply btree_unfold in Hp as (_ & Hl & _).
  rewrite (inorder_at _ i (Some me)).
  - by rewrite replace_child_before, replace_child_after, <- !app_assoc.
  - unfold entryCount in *. cbn. by rewrite length_insert.
  - cbn. apply list_lookup_insert_eq. unfold entryCount in *. lia.
Qed.

Definition filled (chain : parents) (me : esdmI_boundTree_t) : Prop :=
  chain <> [] -> (BOUND_TREE_MAX_ENTRY_COUNT / 2 <= entryCount me)%nat.

Lemma rootOf_btree (h : nat) (chain : parents) (me : esdmI_boundTree_t) :
  chain_ok h chain -> btree h me -> filled chain me -> exists h', btree h' (rootOf chain me).
Proof.
  revert h me. induction chain as [| [parent i] chain IH]; intros h me Hc Hb Hf; cbn; [by exists h |].
  destruct Hc as (Hp & Hi & Hc & _ & Hf'). apply (IH (S h)); [done | | done].
  apply replace_child_btree; [done |]. exists me. split; [done |]. split; [done |]. by apply Hf.
Qed.

Lemma rootOf_count (h : nat) (chain : parents) (me : esdmI_boundTree_t) :
  chain_ok h chain -> (1 <= entryCount me)%nat -> (1 <= entryCount (rootOf chain me))%nat.
Proof.
  revert h me. induction chain as [| [parent i] chain IH]; intros h me Hc Hm; cbn; [done |].
  destruct Hc as (_ & _ & Hc & H1 & _). by apply (IH (S h)).
Qed.

(** ** Inserting an entry *)

Lemma insertAt_length {A} (i : nat) (x : A) (l : list A) : length (insertAt i x l) = S (length l).
Proof. unfold insertAt. rewrite length_app, length_take. cbn. rewrite length_drop. lia. Qed.

Lemma insertAt_Forall {A} (P : A -> Prop) (i : nat) (x : A) (l : list A) :
  Forall P l -> P x -> Forall P (insertAt i x l).
Proof. intros Hl Hx. apply Forall_app. split; [by apply Forall_take |]. constructor; [done |]. by apply Forall_drop. Qed.

Lemma insertAt_take {A} (i : nat) (x : A) (l : list A) : (i <= length l)%nat -> take i (insertAt i x l) = take i l.
Proof. intros H. unfold insertAt. by rewrite take_app_le, take_take, Nat.min_id by (rewrite length_take; lia). Qed.

Lemma insertAt_drop {A} (i : nat) (x : A) (l : list A) : (i <= length l)%nat -> drop i (insertAt i x l) = x :: drop i l.
Proof.
  intros H. unfold insertAt. rewrite drop_app_ge by (rewrite length_take; lia).
  by rewrite length_take, Nat.min_l, Nat.sub_diag by lia.
Qed.

Lemma insertAt_lookup {A} (i : nat) (x : A) (l : list A) : (i <= length l)%nat -> insertAt i x l !! i = Some x.
Proof. intros H. apply list_lookup_middle. rewrite length_take. lia. Qed.

Lemma insertAt_inorder (me : esdmI_boundTree_t) (i : nat) (e : esdmI_boundListEntry_t)
    (child c : option esdmI_boundTree_t) :
  length (children me) = S (entryCount me) -> (i <= entryCount me)%nat -> children me !! i = Some c ->
  inorder (BoundTreeNode (insertAt i e (bounds me)) (insertAt i child (children me))) =
  before me i ++ content child ++ e :: content c ++ after me i.
Proof.
  intros Hl Hi Hc. unfold entryCount in *. rewrite (inorder_at _ i child).
  - unfold before, after. cbn [bounds children].
    rewrite !insertAt_take, insertAt_drop by lia. replace (drop (S i) (insertAt i child (children me))) with (drop 1 (drop i (insertAt i child (children me)))) by (rewrite drop_drop; f_equal; lia).
    rewrite insertAt_drop, (drop_S (children me) c i) by (done || lia). simpl. done.
  - unfold entryCount. cbn. by rewrite !insertAt_length, Hl.
  - apply insertAt_lookup. lia.
Qed.

(** A node that has become too large is split into two half full ones. *)
Lemma insertAt_splits (h : nat) (me : esdmI_boundTree_t) (i : nat) (e : esdmI_boundListEntry_t)
    (child c : option esdmI_boundTree_t) :
  btree h me -> (i <= entryCount me)%nat -> child_ok h child -> children me !! i = Some c ->
  (BOUND_TREE_MAX_ENTRY_COUNT <= entryCount me)%nat ->
  let b := insertAt i e (bounds me) in let l := insertAt i child (children me) in
  let left := BoundTreeNode (take 10 b) (take 11 l) in let right := BoundTreeNode (drop 11 b) (drop 11 l) in
  exists m, b !! 10%nat = Some m /\ child_ok (S h) (Some left) /\ child_ok (S h) (Some right) /\
  inorder left ++ m :: inorder right = before me i ++ content child ++ e :: content c ++ after me i.
Proof.
  intros Hb Hi Hch E Hge. cbv zeta. apply btree_unfold in Hb as (Hcount & Hl & Hall).
  rewrite <- (insertAt_inorder me i e child c) by done. rewrite max_entry_count in *. unfold entryCount in *.
  pose proof (insertAt_length i e (bounds me)) as Hb. pose proof (insertAt_length i child (children me)) as Hc.
  pose proof (insertAt_Forall _ i child _ Hall Hch) as Hall'.
  destruct (lookup_lt_is_Some_2 (insertAt i e (bounds me)) 10) as [m Em]; [lia |].
  exists m. split; [done |]. split_and!.
  1, 2: eexists; split; [done |]; rewrite btree_unfold, split_index, max_entry_count; unfold entryCount; cbn [bounds children];
    rewrite ?length_take, ?length_drop; split_and!; try done; try lia; by auto using Forall_take, Forall_drop.
  rewrite !inorder_node. cbn [bounds children]. rewrite <- firstn_map, <- skipn_map. symmetry.
  apply interleave_split; [rewrite length_map; lia | done].
Qed.

Lemma insertAt_fits (h : nat) (me : esdmI_boundTree_t) (i : nat) (e : esdmI_boundListEntry_t) (child : option esdmI_boundTree_t) :
  btree h me -> child_ok h child -> (entryCount me < BOUND_TREE_MAX_ENTRY_COUNT)%nat ->
  btree h (BoundTreeNode (insertAt i e (bounds me)) (insertAt i child (children me))).
Proof.
  rewrite !btree_unfold. unfold entryCount. cbn [bounds children]. rewrite !insertAt_length. intros (H1 & H2 & H3) Hch Hlt.
  split_and!; [lia | lia |]. by apply insertAt_Forall.
Qed.

(** Inserting keeps the B-tree and puts the entry, with the new child before it,
    in front of what was child [i] of the node. *)
Lemma boundTree_insert_ok (h : nat) (chain : parents) (me : esdmI_boundTree_t) (i : nat) (e : esdmI_boundListEntry_t)
    (child c : option esdmI_boundTree_t) :
  btree h me -> chain_ok h chain -> filled chain me -> (i <= entryCount me)%nat -> child_ok h child ->
  children me !! i = Some c ->
  exists t h', boundTree_insert chain me i e child = Done t /\ btree h' t /\ (1 <= entryCount t)%nat /\
  inorder t = (outer_before chain ++ before me i) ++ content child ++ e :: content c ++ after me i ++ outer_after chain.
Proof.
  revert h me i e child c. induction chain as [| [parent k] chain IH]; intros h me i e child c Hb Hc Hf Hi Hch E;
    cbn [boundTree_insert]; destruct (Nat.ltb_spec (entryCount me) BOUND_TREE_MAX_ENTRY_COUNT) as [Hlt | Hge].
  1, 3: destruct (rootOf_btree h _ _ Hc (insertAt_fits h me i e child Hb Hch Hlt)) as [h' Ht];
    [intros Hne; specialize (Hf Hne); unfold entryCount in *; cbn [bounds]; rewrite insertAt_length; lia |];
    eexists _, h'; split; [reflexivity |]; split; [exact Ht |];
    split; [apply (rootOf_count h); [exact Hc |]; unfold entryCount; cbn [bounds]; rewrite insertAt_length; lia |];
    rewrite (rootOf_inorder h), (insertAt_inorder me i e child c) by (done || by apply btree_unfold in Hb as (_ & Hl & _));
    by repeat (rewrite <- ?app_assoc; cbn).
  all: destruct (insertAt_splits h me i e child c Hb Hi Hch E Hge) as (m & Em & Hleft & Hright & Hin);
    rewrite split_index, Em; run.
  - eexists _, (S h). split; [reflexivity |]. split; [| split; [done |]].
    + apply btree_unfold. unfold entryCount. rewrite max_entry_count. cbn [bounds children length]. auto 10 with lia.
    + cbn [outer_before outer_after app]. rewrite app_nil_r, <- Hin. cbn. by rewrite app_nil_r.
  - destruct Hc as (Hp & Hk & Hc & _ & Hf').
    edestruct (IH (S h)) as (t & h' & E1 & Ht & H1 & Et);
      [by apply replace_child_btree, Hright | exact Hc | exact Hf' | exact Hk | exact Hleft | |].
    { cbn. apply list_lookup_insert_eq. apply btree_unfold in Hp as (_ & Hp & _). lia. }
    eexists t, h'. split; [exact E1 |]. split; [exact Ht |]. split; [exact H1 |]. rewrite Et, replace_child_before, replace_child_after.
    cbn [outer_before outer_after content]. rewrite <- !app_assoc. f_equal. f_equal.
    transitivity ((before me i ++ content child ++ e :: content c ++ after me i) ++ after parent k ++ outer_after chain);
      [rewrite <- Hin |]; by repeat (rewrite <- ?app_assoc; cbn).
Qed.

(** ** Walking through the tree *)

Fixpoint linked (chain : parents) (me : esdmI_boundTree_t) : Prop :=
  match chain with
  | [] => True
  | (parent, k) :: chain' => children parent !! k = Some (Some me) /\ linked chain' parent
  end.

(** [it] points at a node of height [h] of the tree [t]. *)
Record cursor (h : nat) (t : esdmI_boundTree_t) (it : treeIterator) : Prop := {
  cu_node : btree h (node it);
  cu_chain : chain_ok h (chain it);
  cu_filled : filled (chain it) (node it);
  cu_entries : (0 < h)%nat -> (1 <= entryCount (node it))%nat;
  cu_linked : linked (chain it) (node it);
  cu_root : rootOf (chain it) (node it) = t;
  cu_position : (entryPosition it <= entryCount (node it))%nat
}.

(** The entries in front of the child an iterator points at, and those behind it. *)
Definition cur_before (it : treeIterator) : list esdmI_boundListEntry_t :=
  outer_before (chain it) ++ before (node it) (entryPosition it).

Definition cur_after (it : treeIterator) : list esdmI_boundListEntry_t :=
  after (node it) (entryPosition it) ++ outer_after (chain it).

Definition cur_child (it : treeIterator) : option (option esdmI_boundTree_t) :=
  children (node it) !! entryPosition it.

Lemma cursor_child (h : nat) (t : esdmI_boundTree_t) (it : treeIterator) :
  cursor h t it -> exists c, cur_child it = Some c /\ child_ok h c.
Proof. intros [H1 _ _ _ _ _ H2]. by apply child_at. Qed.

Lemma cursor_inorder (h : nat) (t : esdmI_boundTree_t) (it : treeIterator) (c : option esdmI_boundTree_t) :
  cursor h t it -> cur_child it = Some c -> inorder t = cur_before it ++ content c ++ cur_after it.
Proof.
  intros [H1 H2 _ _ _ <- _] E. rewrite (rootOf_inorder h) by done.
  rewrite (inorder_at _ (entryPosition it) c) by (done || by apply btree_unfold in H1 as (_ & H1 & _)).
  unfold cur_before, cur_after. by rewrite <- !app_assoc.
Qed.

Lemma cursor_down (h : nat) (t : esdmI_boundTree_t) (it : treeIterator) (child : esdmI_boundTree_t) (j : nat) :
  cursor (S h) t it -> cur_child it = Some (Some child) -> (j <= entryCount child)%nat ->
  cursor h t (TreeIterator child ((node it, entryPosition it) :: chain it) j).
Proof.
  intros Hc E Hj. destruct (cursor_child _ _ _ Hc) as (c & E' & Hok). rewrite E in E'. injection E' as <-.
  destruct Hok as (child' & [= <-] & Hb & Hf). destruct Hc as [H1 H2 H3 H0 H4 H5 H6]. specialize (H0 ltac:(lia)).
  constructor; cbn [node chain entryPosition]; try done.
  - by intros _.
  - intros _. rewrite split_index in Hf. lia.
  - cbn [rootOf]. rewrite list_insert_id by done. rewrite <- H5. f_equal. by destruct (node it).
Qed.

Lemma cursor_up (h : nat) (t me parent : esdmI_boundTree_t) (k i : nat) (chain : parents) :
  cursor h t (TreeIterator me ((parent, k) :: chain) i) ->
  cursor (S h) t (TreeIterator parent chain k) /\ cur_child (TreeIterator parent chain k) = Some (Some me).
Proof.
  intros [_ (H1 & H2 & H3 & H0 & H4) _ _ [H5 H6] H7 _]. split; [| exact H5]. constructor; cbn [node BoundTree.chain entryPosition] in *; try done.
  rewrite <- H7. cbn [rootOf]. rewrite list_insert_id by done. by destruct parent.
Qed.

Lemma depth_btree (h : nat) (me : esdmI_boundTree_t) : btree h me -> depth me = h.
Proof.
  revert me. induction h as [| h IH]; intros [b c] Hb; apply btree_unfold in Hb as (_ & Hl & Hc); cbn in Hl;
    destruct c as [| child c]; try done; apply Forall_cons in Hc as [Hc _].
  - by rewrite <- Hc.
  - destruct Hc as (t & -> & Ht & _). cbn. f_equal. by apply IH.
Qed.

(** Walking down ends at a leaf, with what the steps preserve. *)
Lemma boundTree_descend_ok (Q : treeIterator -> Prop) (next : esdmI_boundTree_t -> nat) (t : esdmI_boundTree_t)
    (h fuel : nat) (it : treeIterator) :
  (forall h' it child, cursor (S h') t it -> cur_child it = Some (Some child) -> Q it ->
     (next child <= entryCount child)%nat /\ Q (TreeIterator child ((node it, entryPosition it) :: chain it) (next child))) ->
  cursor h t it -> Q it -> (h <= fuel)%nat ->
  exists leaf, boundTree_descend fuel next (chain it) (node it) (entryPosition it) = Done leaf /\
  cursor 0 t leaf /\ Q leaf /\ cur_child leaf = Some None.
Proof.
  intros HQ. revert fuel it. induction h as [| h IH]; intros fuel it Hc Hq Hfuel;
    destruct (cursor_child _ _ _ Hc) as (c & E & Hok); destruct fuel as [| fuel]; try lia; cbn [boundTree_descend].
  1, 2: rewrite <- Hok in E; unfold cur_child in E; rewrite E; run; exists it; by destruct it.
  destruct Hok as (child & -> & _). destruct (HQ _ _ _ Hc E Hq) as [Hj Hq'].
  pose proof (cursor_down _ _ _ _ _ Hc E Hj) as Hc'. unfold cur_child in E. rewrite E. run.
  exact (IH fuel _ Hc' Hq' ltac:(lia)).
Qed.

Lemma after_nil (me : esdmI_boundTree_t) (i : nat) : (entryCount me <= i)%nat -> after me i = [].
Proof. intros H. unfold after. by rewrite drop_ge. Qed.

Lemma after_cons (me : esdmI_boundTree_t) (i : nat) (e : esdmI_boundListEntry_t) :
  bounds me !! i = Some e -> exists l, after me i = e :: l.
Proof. intros H. unfold after. rewrite (drop_S _ e i) by done. eauto. Qed.

(** Walking up does not move in the sequence of entries. *)
Lemma boundTree_ascend_ok (t : esdmI_boundTree_t) (chain : parents) (h : nat) (me : esdmI_boundTree_t) (i : nat)
    (c : option esdmI_boundTree_t) :
  let it := TreeIterator me chain i in
  cursor h t it -> cur_child it = Some c ->
  match boundTree_ascend chain me i with
  | None => cur_after it = []
  | Some it' => exists h' c', cursor h' t it' /\ cur_child it' = Some c' /\ (entryPosition it' < entryCount (node it'))%nat /\
      cur_before it' ++ content c' = cur_before it ++ content c /\ cur_after it' = cur_after it
  end.
Proof.
  cbv zeta. revert h me i c. induction chain as [| [parent k] chain IH]; intros h me i c Hc E; cbn [boundTree_ascend];
    destruct (Nat.eqb_spec i (entryCount me)) as [-> | Hne].
  2, 4: exists h, c; split_and!; try done; pose proof (cu_position _ _ _ Hc) as Hp; cbn in *; lia.
  - unfold cur_after. cbn. rewrite after_nil by done. done.
  - destruct (cursor_up _ _ _ _ _ _ _ Hc) as [Hup Eup]. specialize (IH _ _ _ _ Hup Eup).
    pose proof (cu_node _ _ _ Hc) as Hb. apply btree_unfold in Hb as (_ & Hl & _). cbn [node] in Hl.
    assert (Hafter : cur_after (TreeIterator me ((parent, k) :: chain) (entryCount me)) = cur_after (TreeIterator parent chain k)).
    { unfold cur_after. cbn. by rewrite after_nil by done. }
    rewrite Hafter. destruct (boundTree_ascend chain parent k) as [it' |]; [| exact IH].
    destruct IH as (h' & c' & H1 & H2 & H3 & H4 & H5). exists h', c'. split_and!; try done. rewrite H4.
    unfold cur_before. cbn [content node BoundTree.chain entryPosition outer_before]. rewrite (inorder_at me (entryCount me) c Hl E), after_nil, app_nil_r by done.
    by rewrite <- !app_assoc.
Qed.

(** ** The searches *)

Lemma boundPosition_le (b : list esdmI_boundListEntry_t) (p : Z) : (boundPosition b p <= length b)%nat.
Proof. induction b as [| y b IH]; cbn; [done |]. destruct (bakedBound y >? p); lia. Qed.

(** In a sorted node the position of a bound separates smaller entries from greater ones. *)
Lemma interleave_position (b : list esdmI_boundListEntry_t) (c : list (list esdmI_boundListEntry_t)) (p : Z) :
  length c = S (length b) -> StronglySorted entry_le (interleave b c) ->
  let i := boundPosition b p in
  Forall (fun e => bakedBound e <= p) (interleave (take i b) (take i c)) /\
  Forall (fun e => p < bakedBound e) match drop i b with [] => [] | y :: b' => y :: interleave b' (drop (S i) c) end.
Proof.
  revert c. induction b as [| y b IH]; intros [| x c] Hl Hs; try done. cbn in Hl. cbn [interleave] in Hs.
  apply StronglySorted_app in Hs as (Hxy & _ & Hs). pose proof Hs as [Hs' Hy]%StronglySorted_inv. cbv zeta. cbn [boundPosition].
  rewrite Z.gtb_ltb. destruct (Z.ltb_spec p (bakedBound y)) as [Hlt | Hge].
  - split; [constructor |]. constructor; [done |]. rewrite skipn_cons, skipn_O.
    eapply Forall_impl; [exact Hy |]. unfold entry_le. cbn. lia.
  - destruct (IH c ltac:(lia) Hs') as [H1 H2]. split; [| exact H2]. cbn [take interleave].
    apply Forall_app. split; [| by constructor]. apply Forall_forall. intros z Hz.
    specialize (Hxy z y Hz ltac:(by left)). unfold entry_le in Hxy. lia.
Qed.

Definition splits_at (p : Z) (it : treeIterator) : Prop :=
  Forall (fun e => bakedBound e <= p) (cur_before it) /\ Forall (fun e => p < bakedBound e) (cur_after it).

Lemma splits_at_position (h : nat) (t : esdmI_boundTree_t) (p : Z) (chain : parents) (me : esdmI_boundTree_t) :
  btree h me -> StronglySorted entry_le (inorder me) ->
  Forall (fun e => bakedBound e <= p) (outer_before chain) -> Forall (fun e => p < bakedBound e) (outer_after chain) ->
  splits_at p (TreeIterator me chain (boundTree_findBoundPosition me p)).
Proof.
  intros Hb Hs H1 H2. apply btree_unfold in Hb as (_ & Hl & _). rewrite inorder_node in Hs.
  destruct (interleave_position (bounds me) (map content (children me)) p) as [H3 H4]; [by rewrite length_map | done |].
  rewrite firstn_map in H3. rewrite skipn_map in H4. split; apply Forall_app; done.
Qed.

(** The leaf the search for a bound ends at. *)
Lemma treeSearch_ok (h : nat) (t : esdmI_boundTree_t) (p : Z) :
  let position node := boundTree_findBoundPosition node p in
  btree h t -> ((0 < h)%nat -> (1 <= entryCount t)%nat) -> StronglySorted entry_le (inorder t) ->
  exists leaf, boundTree_descend (depth t) position [] t (position t) = Done leaf /\
  cursor 0 t leaf /\ splits_at p leaf /\ cur_child leaf = Some None /\ entryPosition leaf = position (node leaf).
Proof.
  intros position Hb H0 Hs. rewrite (depth_btree h t Hb).
  destruct (boundTree_descend_ok (fun it => splits_at p it /\ entryPosition it = position (node it)) position t h h
    (TreeIterator t [] (position t))) as (leaf & E & H1 & [H2 H3] & H4).
  - intros h' it child Hc E [[Hq1 Hq2] _]. split; [apply boundPosition_le |]. split; [| done].
    pose proof (cursor_down _ _ _ _ _ Hc E (boundPosition_le _ p)) as Hc'.
    apply (splits_at_position h' t); [exact (cu_node _ _ _ Hc') | | exact Hq1 | exact Hq2].
    rewrite (cursor_inorder _ _ _ _ Hc E) in Hs. by apply StronglySorted_app in Hs as (_ & _ & (_ & Hs & _)%StronglySorted_app).
  - constructor; cbn; try done; [by intros [] |]. apply boundPosition_le.
  - split; [| done]. apply (splits_at_position h t); by try constructor.
  - done.
  - exists leaf. done.
Qed.

Definition tree_marks (t : esdmI_boundTree_t) (it : treeIterator) (pre : list esdmI_boundListEntry_t)
    (e : esdmI_boundListEntry_t) (post : list esdmI_boundListEntry_t) : Prop :=
  exists h c, cursor h t it /\ cur_child it = Some c /\ bounds (node it) !! entryPosition it = Some e /\
  pre = cur_before it ++ content c /\ e :: post = cur_after it.

(** From a leaf both searches return the entry behind it, when it has the bound. *)
Lemma entryWithBound_ok (t : esdmI_boundTree_t) (leaf : treeIterator) (bound : Z) :
  cursor 0 t leaf -> cur_child leaf = Some None ->
  exists r, entryWithBound (boundTree_ascend (chain leaf) (node leaf) (entryPosition leaf)) bound = Done r /\
  match r with
  | None => match cur_after leaf with [] => True | e :: _ => bakedBound e <> bound end
  | Some (e, it) => exists post, cur_after leaf = e :: post /\ bakedBound e = bound /\ tree_marks t it (cur_before leaf) e post
  end.
Proof.
  intros Hc E. destruct leaf as [me chain i]. cbn [node BoundTree.chain entryPosition].
  pose proof (boundTree_ascend_ok t chain 0 me i None Hc E) as Hup.
  destruct (boundTree_ascend chain me i) as [it |]; [| exists None; by rewrite Hup].
  destruct Hup as (h & c & Hc' & E' & Hlt & Hpre & Hpost). cbn [content] in Hpre. rewrite app_nil_r in Hpre.
  destruct (lookup_lt_is_Some_2 (bounds (node it)) (entryPosition it) Hlt) as [e Ee].
  destruct (after_cons (node it) (entryPosition it) e Ee) as [l El]. rewrite <- Hpost, <- Hpre. cbn [entryWithBound]. rewrite Ee. run.
  assert (Ea : cur_after it = e :: l ++ outer_after (BoundTree.chain it)) by (unfold cur_after; by rewrite El).
  rewrite Ea. destruct (Z.eqb_spec (bakedBound e) bound) as [Heq | Hne]; [| by exists None].
  exists (Some (e, it)). split; [done |]. eexists. split_and!; [done | done |]. by exists h, c.
Qed.

(** ** The laws of a bound list *)

(** A B-tree that holds the sorted list [l]. *)
Definition tree_contents (t : esdmI_boundTree_t) (l : list esdmI_boundListEntry_t) : Prop :=
  inorder t = l /\ StronglySorted entry_le l /\ exists h, btree h t /\ ((0 < h)%nat -> (1 <= entryCount t)%nat).

Lemma boundTree_add_ok (t : esdmI_boundTree_t) (l : list esdmI_boundListEntry_t) (bound : Z) (isStart : bool) (index : Z) :
  tree_contents t l -> bound_ok bound ->
  exists t' l', boundTree_add t bound isStart index = Done t' /\ tree_contents t' l' /\
  l' ≡ₚ BoundListEntry (baked bound isStart) index :: l.
Proof.
  intros (<- & Hs & h & Hb & H0) Hbound. unfold boundTree_add. rewrite bakeBound_ok by done. run.
  unfold boundTree_add_internal. cbn [bakedBound].
  destruct (treeSearch_ok h t (baked bound isStart) Hb H0 Hs) as (leaf & E & Hc & [H1 H2] & Ec & Hpos). rewrite E. run.
  rewrite (cursor_inorder _ _ _ _ Hc Ec) in *. cbn [content app] in *. pose proof Hc as [Hn Hch Hf _ _ _ Hp].
  destruct (boundTree_insert_ok 0 (chain leaf) (node leaf) (entryPosition leaf) (BoundListEntry (baked bound isStart) index) None None)
    as (t' & h' & E' & Hb' & H1' & Hin); try done.
  rewrite <- Hpos, E'. exists t', (inorder t'). split; [done |]. cbn [content app] in Hin. split.
  - split; [done |]. split; [| by exists h']. rewrite Hin. apply BoundArray.sorted_insert; [exact Hs | exact H1 |].
    eapply Forall_impl; [exact H2 |]. unfold entry_le. cbn. lia.
  - rewrite Hin. symmetry. apply Permutation_middle.
Qed.

Lemma boundTree_findFirst_ok (t : esdmI_boundTree_t) (l : list esdmI_boundListEntry_t) (bound : Z) (isStart : bool) :
  tree_contents t l -> bound_ok bound ->
  exists r, boundTree_findFirst t bound isStart = Done r /\
  match r with
  | None => Forall (fun e => bakedBound e <> baked bound isStart) l
  | Some (e, it) => exists pre post, l = pre ++ e :: post /\ tree_marks t it pre e post /\
      bakedBound e = baked bound isStart /\ Forall (fun e' => bakedBound e' < baked bound isStart) pre
  end.
Proof.
  intros (<- & Hs & h & Hb & H0) Hbound. unfold boundTree_findFirst. rewrite bakeBound_ok by done. run.
  unfold boundTree_findFirst_internal.
  rewrite chk64_ok by (unfold bound_ok, baked, INT64_MIN, INT64_MAX in *; destruct isStart; lia). run.
  destruct (treeSearch_ok h t (baked bound isStart - 1) Hb H0 Hs) as (leaf & E & Hc & [H1 H2] & Ec & _). rewrite E. run.
  rewrite (cursor_inorder _ _ _ _ Hc Ec) in *. cbn [content app] in *.
  destruct (entryWithBound_ok t leaf (baked bound isStart) Hc Ec) as (r & Er & Hr). rewrite Er. exists r. split; [done |].
  destruct r as [[e it] |].
  - destruct Hr as (post & Epost & He & Hm). exists (cur_before leaf), post. rewrite <- Epost. split_and!; try done.
    eapply Forall_impl; [exact H1 |]. cbn. lia.
  - apply Forall_app. split; [eapply Forall_impl; [exact H1 |]; cbn; lia |].
    destruct (cur_after leaf) as [| e post]; [constructor |]. constructor; [done |].
    apply StronglySorted_app in Hs as (_ & _ & [_ Hs]%StronglySorted_inv). apply Forall_cons in H2 as [H2 _].
    eapply Forall_impl; [exact Hs |]. unfold entry_le. cbn. lia.
Qed.

Lemma before_S (me : esdmI_boundTree_t) (i : nat) (e : esdmI_boundListEntry_t) (c c' : option esdmI_boundTree_t) :
  length (children me) = S (entryCount me) -> bounds me !! i = Some e -> children me !! i = Some c -> children me !! S i = Some c' ->
  before me (S i) = (before me i ++ content c) ++ [e] /\ after me i = e :: content c' ++ after me (S i).
Proof.
  intros Hl Ee Ec Ec'. pose proof (lookup_lt_Some _ _ _ Ee) as Hi. pose proof (inorder_at me i c Hl Ec) as H1.
  pose proof (inorder_at me (S i) c' Hl Ec') as H2.
  assert (Ha : after me i = e :: content c' ++ after me (S i)).
  { unfold after at 1. rewrite (drop_S _ e i Ee), (drop_S _ c' (S i) Ec'). by cbn. }
  split; [| done]. rewrite Ha in H1. rewrite H1 in H2. rewrite (cons_middle e), !app_assoc in H2.
  rewrite <- (app_assoc _ (content c')), <- (app_assoc _ (content c') (after _ _)) in H2. by apply app_inv_tail in H2.
Qed.

Lemma boundTree_nextEntry_ok (t : esdmI_boundTree_t) (it : treeIterator)
    (pre post : list esdmI_boundListEntry_t) (e : esdmI_boundListEntry_t) :
  tree_marks t it pre e post ->
  exists r, boundTree_nextEntry t it = Done r /\
  match r with
  | None => match post with [] => True | e' :: _ => bakedBound e' <> bakedBound e end
  | Some (e', it') => exists post', post = e' :: post' /\ bakedBound e' = bakedBound e /\
      tree_marks t it' (pre ++ [e]) e' post'
  end.
Proof.
  intros (h & c & Hc & Ec & Ee & -> & Epost). unfold boundTree_nextEntry. rewrite Ee. run.
  pose proof Hc as [Hn Hch Hf H0 Hlink Hroot Hp]. pose proof (proj1 (btree_unfold _ _) Hn) as (_ & Hl & _).
  pose proof (lookup_lt_Some _ _ _ Ee) as Hlt. set (it1 := TreeIterator (node it) (chain it) (S (entryPosition it))).
  assert (Hc1 : cursor h t it1) by (by constructor). destruct (cursor_child _ _ _ Hc1) as (c1 & Ec1 & _).
  destruct (before_S (node it) (entryPosition it) e c c1 Hl Ee Ec Ec1) as [Hpre Hpost].
  destruct (boundTree_descend_ok (fun it' => cur_before it' = cur_before it1) (fun _ => O) t h h it1) as (leaf & E & Hleaf & Hq & Eleaf).
  - intros h' it' child Hc' E' Hq. split; [lia |]. rewrite <- Hq. unfold cur_before. cbn. unfold before at 2. cbn. by rewrite app_nil_r.
  - done.
  - done.
  - done.
  - rewrite (depth_btree h) by done. change (boundTree_descend h _ _ _ _) with (boundTree_descend h (fun _ => O) (chain it1) (node it1) (entryPosition it1)).
    rewrite E. run. destruct (entryWithBound_ok t leaf (bakedBound e) Hleaf Eleaf) as (r & Er & Hr). rewrite Er. exists r. split; [done |].
    assert (Hb1 : cur_before leaf = (cur_before it ++ content c) ++ [e]).
    { rewrite Hq. unfold cur_before, it1. cbn [node chain entryPosition]. by rewrite Hpre, !app_assoc. }
    assert (Ha1 : cur_after leaf = post).
    { pose proof (cursor_inorder _ _ _ _ Hc Ec) as H1. rewrite (cursor_inorder _ _ _ _ Hleaf Eleaf), Hb1, <- Epost in H1.
      rewrite (app_assoc (cur_before it)), <- app_assoc in H1. apply app_inv_head in H1. by injection H1. }
    by rewrite Ha1, Hb1 in Hr.
Qed.

#[global, refine] Instance boundTree_laws : BoundListLaws esdmI_boundTree_t treeIterator := {
  contents := tree_contents;
  marks := tree_marks
}.
Proof.
  - by intros t l (_ & Hs & _).
  - split; [done |]. split; [constructor |]. exists 0%nat. split; [| lia]. apply btree_unfold. cbn. split_and!; [lia | done |]. by repeat constructor.
  - intros t l bound isStart index Hc Hb _. by apply boundTree_add_ok.
  - exact boundTree_findFirst_ok.
  - intros t it pre post e _. exact (boundTree_nextEntry_ok t it pre post e).
Defined.

(** ** The depth of the tree *)

Lemma interleave_length (b : list esdmI_boundListEntry_t) (c : list (list esdmI_boundListEntry_t)) (k : nat) :
  length c = S (length b) -> Forall (fun l => (k <= S (length l))%nat) c ->
  (S (length b) * k <= S (length (interleave b c)))%nat.
Proof.
  revert c. induction b as [| y b IH]; intros [| x c] Hl Hc; try done; cbn in Hl; apply Forall_cons in Hc as [Hx Hc];
    cbn [interleave]; rewrite length_app; cbn [length]; [lia |].
  specialize (IH c ltac:(lia) Hc). lia.
Qed.

(** Eleven subtrees or more below every node but the root. *)
Lemma btree_entries (h : nat) (me : esdmI_boundTree_t) :
  btree h me -> (S (entryCount me) * 11 ^ h <= S (length (inorder me)))%nat.
Proof.
  revert me. induction h as [| h IH]; intros me Hb; apply btree_unfold in Hb as (_ & Hl & Hc); rewrite inorder_node;
    apply interleave_length; rewrite ?length_map; try done; apply Forall_forall; intros l (child & -> & Hin)%list_elem_of_fmap;
    rewrite Forall_forall in Hc; specialize (Hc child Hin); cbn [child_ok] in Hc.
  - cbn. lia.
  - destruct Hc as (t & -> & Ht & Hcount). specialize (IH t Ht). rewrite split_index in Hcount. cbn [content].
    rewrite Nat.pow_succ_r'. nia.
Qed.

(** ** Sequences of additions *)

Fixpoint boundTree_addAll (me : esdmI_boundTree_t) (requests : list (Z * bool * Z)) : outcome esdmI_boundTree_t :=
  match requests with
  | [] => mret me
  | (bound, isStart, index) :: requests' =>
      me' ← boundTree_add me bound isStart index;
      boundTree_addAll me' requests'
  end.

Definition requestEntry (request : Z * bool * Z) : esdmI_boundListEntry_t :=
  BoundListEntry (baked request.1.1 request.1.2) request.2.

Lemma boundTree_addAll_ok (t : esdmI_boundTree_t) (l : list esdmI_boundListEntry_t) (requests : list (Z * bool * Z)) :
  tree_contents t l -> Forall (fun r => bound_ok r.1.1) requests ->
  exists t' l', boundTree_addAll t requests = Done t' /\ tree_contents t' l' /\ l' ≡ₚ (requestEntry <$> requests) ++ l.
Proof.
  intros Ht Hr. revert t l Ht. induction Hr as [| [[b s] i] requests Hb _ IH]; intros t l Ht; cbn [boundTree_addAll].
  - by exists t, l.
  - destruct (boundTree_add_ok t l b s i Ht Hb) as (t1 & l1 & -> & Ht1 & Hp1). run.
    destruct (IH t1 l1 Ht1) as (t' & l' & -> & Ht' & Hp'). exists t', l'. split; [done |]. split; [done |].
    rewrite Hp', Hp1. cbn. symmetry. apply Permutation_middle.
Qed.

(** C37: After any sequence of additions to a fresh bound tree it is a B-tree: it holds
    exactly the added entries, in the order of their bounds, all leaves are at the
    same depth [h], no node has more than twenty entries and none but the root less
    than ten.  So the depth that the searches walk through grows with the logarithm
    of the number of entries: [11 ^ h] is at most half of it, when [h] is positive. *)
Theorem boundTree_balanced (requests : list (Z * bool * Z)) :
  Forall (fun r => bound_ok r.1.1) requests ->
  exists t h, boundTree_addAll boundTree_construct requests = Done t /\ btree h t /\
  StronglySorted entry_le (inorder t) /\ inorder t ≡ₚ requestEntry <$> requests /\
  ((0 < h)%nat -> (2 * 11 ^ h <= S (length requests))%nat).
Proof.
  intros Hr. destruct (boundTree_addAll_ok boundTree_construct [] requests) as (t & l & E & (<- & Hs & h & Hb & H0) & Hp);
    [exact create_contents | done |].
  rewrite app_nil_r in Hp. exists t, h. split_and!; try done. intros Hh. specialize (H0 Hh).
  pose proof (btree_entries h t Hb) as Hcount. rewrite Hp, length_fmap in Hcount. nia.
Qed.

(** Thirty bounds make a tree with two levels. *)
Lemma boundTree_balanced_witness :
  let requests := (fun i => (Z.of_nat i * 7 mod 30, Nat.even i, Z.of_nat i)) <$> seq 0 30 in
  exists t h, boundTree_addAll boundTree_construct requests = Done t /\ btree h t /\
  StronglySorted entry_le (inorder t) /\ inorder t ≡ₚ requestEntry <$> requests /\
  ((0 < h)%nat -> (2 * 11 ^ h <= S (length requests))%nat).
Proof.
  apply boundTree_balanced. apply Forall_fmap, Forall_forall. intros i Hi. unfold bound_ok. cbn.
  pose proof (Z.mod_pos_bound (Z.of_nat i * 7) 30). lia.
Defined.

Example boundTree_two_levels :
  depth <$> boundTree_addAll boundTree_construct ((fun i => (Z.of_nat i * 7 mod 30, Nat.even i, Z.of_nat i)) <$> seq 0 30) = Done 1%nat.
Proof. vm_compute. reflexivity. Qed.

End BoundTree.
