(* ===== verification/NeighbourManager.v ===== *)
(** The hypercube neighbour manager (src/hypercube-neighbour-manager.c), over any
    implementation of the bound list interface. *)

From S2P Require Import Prelude Hypercube BoundList BoundTree.

(** * Neighbour lists *)

(** [neighbourIndices] are the first [neighbourCount] cells of the allocated array. *)
Record esdmI_neighbourList_t := NeighbourList {
  neighbourIndices : list Z;
  neighbourAllocated : Z
}.

Definition neighbourList_construct : esdmI_neighbourList_t := NeighbourList [] 8.

Definition neighbourList_add (me : esdmI_neighbourList_t) (index : Z) : outcome esdmI_neighbourList_t :=
  let neighbourCount := Z.of_nat (length (neighbourIndices me)) in
  let allocated := if neighbourCount =? neighbourAllocated me then neighbourAllocated me * 2
                   else neighbourAllocated me in
  eassert (neighbourCount <? allocated);;
  mret (NeighbourList (neighbourIndices me ++ [index]) allocated).

Definition neighbourList_getNeighbourIndices (me : esdmI_neighbourList_t) : list Z := neighbourIndices me.

(** Reading or writing element [i] of an array with an [int64_t] index. *)
Definition at_index {A} (l : list A) (i : Z) : option A :=
  if i <? 0 then None else l !! Z.to_nat i.

Definition addNeighbour (lists : list esdmI_neighbourList_t) (at_ index : Z)
    : outcome (list esdmI_neighbourList_t) :=
  me ← deref (at_index lists at_);
  me' ← neighbourList_add me index;
  mret (<[Z.to_nat at_ := me']> lists).

(** * The manager *)

Section Manager.

Context {T I : Type} `{BoundList T I}.

Record esdmI_hypercubeNeighbourManager_t := Manager {
  cubes : list esdmI_hypercube_t;
  allocatedCount : Z;
  dims : Z;
  neighbourLists : list esdmI_neighbourList_t;
  boundLists : list T
}.

Definition esdmI_hypercubeNeighbourManager_make (dimensions : Z) : esdmI_hypercubeNeighbourManager_t :=
  Manager [] 8 dimensions [] (replicate (Z.to_nat dimensions) boundList_create).

Definition esdmI_hypercubeNeighbourManager_list (me : esdmI_hypercubeNeighbourManager_t) : list esdmI_hypercube_t :=
  cubes me.

(** The body of the loops over bound list entries: record the pair when it touches. *)
Definition visitEntry (cubes : list esdmI_hypercube_t) (cube : esdmI_hypercube_t) (index : Z)
    (entry : esdmI_boundListEntry_t) (lists : list esdmI_neighbourList_t) : outcome (list esdmI_neighbourList_t) :=
  other ← deref (at_index cubes (cubeIndex entry));
  touching ← esdmI_hypercube_touches cube other;
  if (touching : bool) then
    lists' ← addNeighbour lists index (cubeIndex entry);
    addNeighbour lists' (cubeIndex entry) index
  else mret lists.

(** [for(entry = findFirst(...); entry; entry = nextEntry(...)) body]; [fuel] bounds
    the number of entries visited. *)
Fixpoint entryLoop {S : Type} (fuel : nat) (bounds : T) (current : option (esdmI_boundListEntry_t * I))
    (body : esdmI_boundListEntry_t -> S -> outcome S) (s : S) : outcome S :=
  match current with
  | None => mret s
  | Some (entry, iterator) =>
      match fuel with
      | O => Undef
      | Datatypes.S fuel' =>
          s' ← body entry s;
          next ← boundList_nextEntry bounds iterator;
          entryLoop fuel' bounds next body s'
      end
  end.

Definition boundLoop {S : Type} (fuel : nat) (bounds : T) (bound : Z) (isStart : bool)
    (body : esdmI_boundListEntry_t -> S -> outcome S) (s : S) : outcome S :=
  first ← boundList_findFirst bounds bound isStart;
  entryLoop fuel bounds first body s.

(** One iteration of the loop over the dimensions. *)
Definition pushBack_dim (fuel : nat) (cubes : list esdmI_hypercube_t) (cube : esdmI_hypercube_t) (index : Z)
    (range : esdmI_range_t) (bounds : T) (lists : list esdmI_neighbourList_t)
    : outcome (T * list esdmI_neighbourList_t) :=
  lists1 ← boundLoop fuel bounds (rstart range) false (visitEntry cubes cube index) lists;
  bounds1 ← boundList_add bounds (rstart range) true index;
  lists2 ← boundLoop fuel bounds1 (rend range) true (visitEntry cubes cube index) lists1;
  bounds2 ← boundList_add bounds1 (rend range) false index;
  mret (bounds2, lists2).

(** [for(dim...)] over the remaining ranges of the cube and their bound lists. *)
Fixpoint pushBack_dims (fuel : nat) (cubes : list esdmI_hypercube_t) (cube : esdmI_hypercube_t) (index : Z)
    (ranges : list esdmI_range_t) (boundLists : list T) (lists : list esdmI_neighbourList_t)
    : outcome (list T * list esdmI_neighbourList_t) :=
  match ranges, boundLists with
  | [], [] => mret ([], lists)
  | range :: ranges', bounds :: boundLists' =>
      '(bounds', lists') ← pushBack_dim fuel cubes cube index range bounds lists;
      '(rest, lists'') ← pushBack_dims fuel cubes cube index ranges' boundLists' lists';
      mret (bounds' :: rest, lists'')
  | _, _ => Undef
  end.

Definition esdmI_hypercubeNeighbourManager_pushBack (me : esdmI_hypercubeNeighbourManager_t)
    (cube : esdmI_hypercube_t) : outcome esdmI_hypercubeNeighbourManager_t :=
  eassert (esdmI_hypercube_dimensions cube =? dims me);;
  let count := Z.of_nat (length (cubes me)) in
  let allocated := if count =? allocatedCount me then allocatedCount me * 2 else allocatedCount me in
  eassert (count <? allocated);;
  let cubes' := cubes me ++ [cube] in
  let fuel := (2 * length cubes')%nat in
  '(boundLists', lists') ← pushBack_dims fuel cubes' cube count cube (boundLists me)
                             (neighbourLists me ++ [neighbourList_construct]);
  mret (Manager cubes' allocated (dims me) lists' boundLists').

Definition esdmI_hypercubeNeighbourManager_getNeighbours (me : esdmI_hypercubeNeighbourManager_t) (index : Z)
    : outcome (list Z) :=
  eassert (index <? Z.of_nat (length (cubes me)));;
  lists ← deref (at_index (neighbourLists me) index);
  mret (neighbourList_getNeighbourIndices lists).

(** * Iterating over the entries with one bound *)

Context `{!BoundListLaws T I}.

Definition with_bound (b : Z) (l : list esdmI_boundListEntry_t) : list esdmI_boundListEntry_t :=
  filter (fun e => bakedBound e = b) l.

Lemma with_bound_app (b : Z) (l k : list esdmI_boundListEntry_t) :
  with_bound b (l ++ k) = with_bound b l ++ with_bound b k.
Proof. apply filter_app. Qed.

Lemma with_bound_here (e : esdmI_boundListEntry_t) (l : list esdmI_boundListEntry_t) :
  with_bound (bakedBound e) (e :: l) = e :: with_bound (bakedBound e) l.
Proof. unfold with_bound. by rewrite filter_cons_True. Qed.

Lemma with_bound_none (b : Z) (l : list esdmI_boundListEntry_t) :
  Forall (fun e => bakedBound e <> b) l -> with_bound b l = [].
Proof.
  unfold with_bound. induction 1 as [| e l He _ IH]; [done |]. by rewrite filter_cons_False.
Qed.

Lemma with_bound_above (b : Z) (e : esdmI_boundListEntry_t) (l : list esdmI_boundListEntry_t) :
  StronglySorted entry_le (e :: l) -> b < bakedBound e -> with_bound b (e :: l) = [].
Proof.
  intros [Hall _]%StronglySorted_cons Hb. apply with_bound_none. constructor; [lia |].
  eapply Forall_impl; [exact Hall |]. unfold entry_le. simpl. lia.
Qed.

Lemma entryLoop_ok {S : Type} (bounds : T) (body : esdmI_boundListEntry_t -> S -> outcome S)
    (post pre : list esdmI_boundListEntry_t) (e : esdmI_boundListEntry_t) (it : I) (fuel : nat) (s : S) :
  contents bounds (pre ++ e :: post) -> marks bounds it pre e post -> (length post < fuel)%nat ->
  entryLoop fuel bounds (Some (e, it)) body s = foldM body (with_bound (bakedBound e) (e :: post)) s.
Proof.
  revert pre e it fuel s. induction post as [| e' post IH]; intros pre e it [| fuel] s Hc Hm Hf; simpl in Hf; try lia;
    cbn [entryLoop]; rewrite with_bound_here; cbn [foldM];
    destruct (body e s) as [s' | |]; try done; run;
    destruct (nextEntry_contents _ _ _ _ _ Hc Hm) as ([[e1 it1] |] & -> & Hr); run.
  - destruct Hr as (? & [=] & _).
  - by destruct fuel.
  - destruct Hr as (post' & [= <- <-] & He & Hm'). rewrite <- He. apply (IH (pre ++ [e])).
    + by rewrite <- app_assoc.
    + done.
    + lia.
  - rewrite (with_bound_above (bakedBound e) e' post); [by destruct fuel | |].
    + apply contents_sorted, StronglySorted_app_1_r, StronglySorted_cons in Hc. tauto.
    + apply contents_sorted, StronglySorted_app_1_r, StronglySorted_cons in Hc as [Hc _].
      apply Forall_cons in Hc as [Hc _]. unfold entry_le in Hc. lia.
Qed.

(** The loop visits exactly the entries with the bound, each once. *)
Lemma boundLoop_ok {S : Type} (fuel : nat) (bounds : T) (l : list esdmI_boundListEntry_t) (bound : Z)
    (isStart : bool) (body : esdmI_boundListEntry_t -> S -> outcome S) (s : S) :
  contents bounds l -> bound_ok bound -> (length l <= fuel)%nat ->
  boundLoop fuel bounds bound isStart body s = foldM body (with_bound (baked bound isStart) l) s.
Proof.
  intros Hc Hb Hf. unfold boundLoop.
  destruct (findFirst_contents bounds l bound isStart Hc Hb) as ([[e it] |] & -> & Hr); run.
  - destruct Hr as (pre & post & -> & Hm & He & Hpre).
    rewrite (entryLoop_ok _ _ post pre) by (done || (rewrite length_app in Hf; simpl in Hf; lia)).
    rewrite with_bound_app, (with_bound_none _ pre), He; [done |].
    eapply Forall_impl; [exact Hpre |]. simpl. lia.
  - rewrite with_bound_none by done. by destruct fuel.
Qed.

(** * Recording neighbours *)

Definition touchesIndex (cubes : list esdmI_hypercube_t) (cube : esdmI_hypercube_t) (j : Z) : bool :=
  match at_index cubes j with
  | Some c => touches_body cube c
  | None => false
  end.

(** The touching indices among visited entries, in the order of the visit. *)
Definition touching (cubes : list esdmI_hypercube_t) (cube : esdmI_hypercube_t)
    (es : list esdmI_boundListEntry_t) : list Z :=
  filter (fun j => touchesIndex cubes cube j = true) (cubeIndex <$> es).

(** The index lists alone, without their allocation. *)
Definition view (lists : list esdmI_neighbourList_t) : list (list Z) := neighbourIndices <$> lists.

Definition lists_ok (lists : list esdmI_neighbourList_t) : Prop :=
  Forall (fun nl => 0 < neighbourAllocated nl /\ Z.of_nat (length (neighbourIndices nl)) <= neighbourAllocated nl) lists.

Definition link (n j : Z) (v : list (list Z)) : list (list Z) :=
  alter (.++ [n]) (Z.to_nat j) (alter (.++ [j]) (Z.to_nat n) v).

Lemma addNeighbour_ok (lists : list esdmI_neighbourList_t) (i index : Z) :
  lists_ok lists -> 0 <= i < Z.of_nat (length lists) ->
  exists lists', addNeighbour lists i index = Done lists' /\ lists_ok lists' /\
  view lists' = alter (.++ [index]) (Z.to_nat i) (view lists).
Proof.
  intros Hok Hi. unfold addNeighbour, at_index. rewrite (proj2 (Z.ltb_ge i 0)) by lia.
  destruct (lookup_lt_is_Some_2 lists (Z.to_nat i)) as [nl Hnl]; [lia |].
  rewrite Hnl. run. pose proof (Forall_lookup_1 _ _ _ _ Hok Hnl) as [Ha Hc].
  unfold neighbourList_add. set (c := Z.of_nat (length (neighbourIndices nl))) in *.
  set (allocated := if c =? neighbourAllocated nl then _ else _).
  assert (c < allocated) by (unfold allocated; destruct (Z.eqb_spec c (neighbourAllocated nl)); lia).
  rewrite eassert_true by (by apply Z.ltb_lt). run.
  eexists. split; [reflexivity |]. split.
  - apply Forall_insert; [done |]. simpl. rewrite length_app. simpl. lia.
  - unfold view. rewrite list_fmap_insert. simpl. symmetry.
    apply list_eq. intros k. destruct (decide (k = Z.to_nat i)) as [-> | Hne].
    + rewrite list_lookup_alter_eq, list_lookup_fmap, Hnl. simpl.
      rewrite list_lookup_insert_eq; [done |]. rewrite length_fmap. lia.
    + by rewrite list_lookup_alter_ne, list_lookup_insert_ne by done.
Qed.

Lemma length_view (lists : list esdmI_neighbourList_t) : length (view lists) = length lists.
Proof. apply length_fmap. Qed.

Lemma length_link (n j : Z) (v : list (list Z)) : length (link n j v) = length v.
Proof. unfold link. by rewrite !length_alter. Qed.

Lemma visitEntry_ok (cubes : list esdmI_hypercube_t) (cube c : esdmI_hypercube_t) (n : Z)
    (e : esdmI_boundListEntry_t) (lists : list esdmI_neighbourList_t) :
  lists_ok lists -> 0 <= n < Z.of_nat (length lists) -> 0 <= cubeIndex e < Z.of_nat (length lists) ->
  at_index cubes (cubeIndex e) = Some c -> length cube = length c ->
  exists lists', visitEntry cubes cube n e lists = Done lists' /\ lists_ok lists' /\
  view lists' = if touchesIndex cubes cube (cubeIndex e) then link n (cubeIndex e) (view lists) else view lists.
Proof.
  intros Hok Hn He Hc Hlen. unfold visitEntry, touchesIndex. rewrite Hc. run.
  unfold esdmI_hypercube_touches. rewrite eassert_true by (by apply sameDims_iff). run.
  destruct (touches_body cube c); [| by exists lists].
  destruct (addNeighbour_ok lists n (cubeIndex e) Hok Hn) as (l1 & -> & Hok1 & Hv1). run.
  assert (Hlen1 : length l1 = length lists).
  { rewrite <- !length_view, Hv1. apply length_alter. }
  destruct (addNeighbour_ok l1 (cubeIndex e) n Hok1) as (l2 & -> & Hok2 & Hv2); [lia |].
  exists l2. split; [done |]. split; [done |]. by rewrite Hv2, Hv1.
Qed.

Lemma visitEntries_ok (cubes : list esdmI_hypercube_t) (cube : esdmI_hypercube_t) (n : Z)
    (es : list esdmI_boundListEntry_t) (lists : list esdmI_neighbourList_t) :
  lists_ok lists -> 0 <= n < Z.of_nat (length lists) -> length cubes = length lists ->
  Forall (fun e => exists c, at_index cubes (cubeIndex e) = Some c /\ length cube = length c) es ->
  exists lists', foldM (visitEntry cubes cube n) es lists = Done lists' /\ lists_ok lists' /\
  view lists' = foldl (fun v j => link n j v) (view lists) (touching cubes cube es).
Proof.
  intros Hok Hn Hcl Hes. revert lists Hok Hn Hcl.
  induction Hes as [| e es (c & Hc & Hlen) _ IH]; intros lists Hok Hn Hcl; [by exists lists |].
  assert (0 <= cubeIndex e < Z.of_nat (length lists)).
  { unfold at_index in Hc. destruct (Z.ltb_spec (cubeIndex e) 0); [done |].
    apply lookup_lt_Some in Hc. lia. }
  destruct (visitEntry_ok cubes cube c n e lists) as (l1 & E & Hok1 & Hv1); try done.
  cbn [foldM]. rewrite E. run.
  assert (Hl1 : length l1 = length lists).
  { rewrite <- !length_view, Hv1. destruct (touchesIndex _ _ _); [apply length_link | done]. }
  destruct (IH l1) as (l2 & -> & Hok2 & Hv2); [done | lia | lia |].
  exists l2. split; [done |]. split; [done |]. rewrite Hv2, Hv1. unfold touching.
  rewrite fmap_cons, filter_cons. by case_decide as Hd; destruct (touchesIndex _ _ _).
Qed.

(** Linking distinct indices below [n] appends them to list [n], and [n] to theirs. *)
Lemma foldl_link_new (n : Z) (js : list Z) (v : list (list Z)) (k : list Z) :
  0 <= n -> Forall (fun j => 0 <= j < n) js -> v !! Z.to_nat n = Some k ->
  foldl (fun v j => link n j v) v js !! Z.to_nat n = Some (k ++ js).
Proof.
  intros Hn Hjs. revert v k. induction Hjs as [| j js Hj _ IH]; intros v k Hk; simpl.
  { by rewrite app_nil_r. }
  rewrite (IH _ (k ++ [j])); [by rewrite <- app_assoc |].
  unfold link. rewrite list_lookup_alter_ne by lia. by rewrite list_lookup_alter_eq, Hk.
Qed.

Lemma foldl_link_old (n i : Z) (js : list Z) (v : list (list Z)) (k : list Z) :
  0 <= i < n -> Forall (fun j => 0 <= j < n) js -> NoDup js -> v !! Z.to_nat i = Some k ->
  foldl (fun v j => link n j v) v js !! Z.to_nat i = Some (k ++ if decide (i ∈ js) then [n] else []).
Proof.
  intros Hi Hjs. revert v k. induction Hjs as [| j js Hj Hjs IH]; intros v k Hnd Hk; cbn [foldl].
  { rewrite decide_False by (apply not_elem_of_nil). by rewrite app_nil_r. }
  apply NoDup_cons in Hnd as [Hnj Hnd]. destruct (decide (i = j)) as [-> | Hne].
  - rewrite (IH _ (k ++ [n])); [| done |].
    + rewrite decide_False, decide_True by (done || left). by rewrite app_nil_r.
    + unfold link. by rewrite list_lookup_alter_eq, list_lookup_alter_ne, Hk by lia.
  - rewrite (IH _ k); [| done |].
    + f_equal. f_equal. apply decide_ext. rewrite elem_of_cons. tauto.
    + unfold link. by rewrite !list_lookup_alter_ne by lia.
Qed.

Lemma length_foldl_link (n : Z) (js : list Z) (v : list (list Z)) :
  length (foldl (fun v j => link n j v) v js) = length v.
Proof. revert v. induction js as [| j js IH]; intros v; simpl; [done |]. by rewrite IH, length_link. Qed.

(** * One dimension after the other *)

(** What the bound list of dimension [d] holds for a list of cubes. *)
Definition entries_of (d : nat) (cubes : list esdmI_hypercube_t) : list esdmI_boundListEntry_t :=
  mjoin (imap (fun i c =>
    match c !! d with
    | Some r => [BoundListEntry (baked (rstart r) true) (Z.of_nat i);
                 BoundListEntry (baked (rend r) false) (Z.of_nat i)]
    | None => []
    end) cubes).

Definition range_ok (r : esdmI_range_t) : Prop := bound_ok (rstart r) /\ bound_ok (rend r) /\ rstart r < rend r.

(** The entries pushing a range back visits in a bound list that holds [l]. *)
Definition visited (r : esdmI_range_t) (l : list esdmI_boundListEntry_t) : list esdmI_boundListEntry_t :=
  with_bound (baked (rstart r) false) l ++ with_bound (baked (rend r) true) l.

Lemma with_bound_perm (b : Z) (l k : list esdmI_boundListEntry_t) :
  l ≡ₚ k -> with_bound b l ≡ₚ with_bound b k.
Proof. intros Hp. unfold with_bound. by rewrite Hp. Qed.

Lemma foldM_app {A S} (f : A -> S -> outcome S) (l k : list A) (s : S) :
  foldM f (l ++ k) s = (s' ← foldM f l s; foldM f k s').
Proof.
  revert s. induction l as [| a l IH]; intros s; cbn [foldM app]; [done |].
  destruct (f a s); run; [apply IH | done | done].
Qed.

Lemma entries_of_snoc (d : nat) (old : list esdmI_hypercube_t) (c : esdmI_hypercube_t) (r : esdmI_range_t) :
  c !! d = Some r ->
  entries_of d (old ++ [c]) = entries_of d old ++
    [BoundListEntry (baked (rstart r) true) (Z.of_nat (length old));
     BoundListEntry (baked (rend r) false) (Z.of_nat (length old))].
Proof.
  intros Hc. unfold entries_of. rewrite imap_app, join_app. simpl. f_equal.
  by rewrite Nat.add_0_r, Hc.
Qed.

Lemma length_entries_of (d : nat) (old : list esdmI_hypercube_t) :
  (length (entries_of d old) <= 2 * length old)%nat.
Proof.
  unfold entries_of. induction old as [| c old IH] using rev_ind; [done |].
  rewrite imap_app, join_app, !length_app. cbn [imap mjoin list_join]. rewrite length_app.
  destruct (c !! d); simpl; lia.
Qed.

(** All entries visited for the ranges of dimensions [d], [d + 1], ... *)
Fixpoint visitedAll (d : nat) (ranges : list esdmI_range_t) (old : list esdmI_hypercube_t)
    : list esdmI_boundListEntry_t :=
  match ranges with
  | [] => []
  | r :: ranges' => visited r (entries_of d old) ++ visitedAll (S d) ranges' old
  end.

Lemma pushBack_dim_ok (fuel : nat) (cs : list esdmI_hypercube_t) (cube : esdmI_hypercube_t) (n : Z)
    (r : esdmI_range_t) (bounds : T) (l : list esdmI_boundListEntry_t) :
  contents bounds l -> range_ok r -> (length l + 2 <= fuel)%nat -> Z.of_nat (length l) + 2 <= MAX_ENTRIES ->
  exists es bounds' l',
    (forall lists, pushBack_dim fuel cs cube n r bounds lists =
      (lists' ← foldM (visitEntry cs cube n) es lists; mret (bounds', lists'))) /\
    es ≡ₚ visited r l /\ contents bounds' l' /\
    l' ≡ₚ l ++ [BoundListEntry (baked (rstart r) true) n; BoundListEntry (baked (rend r) false) n].
Proof.
  intros Hc (Hs & He & Hne) Hf Hmax.
  destruct (add_contents bounds l (rstart r) true n Hc Hs) as (b1 & l1 & E1 & Hc1 & Hp1); [lia |].
  pose proof (Permutation_length Hp1) as Hl1. simpl in Hl1.
  destruct (add_contents b1 l1 (rend r) false n Hc1 He) as (b2 & l2 & E2 & Hc2 & Hp2); [lia |].
  exists (with_bound (baked (rstart r) false) l ++ with_bound (baked (rend r) true) l1), b2, l2.
  split; [| split; [| split; [done |]]].
  - intros lists. unfold pushBack_dim. rewrite (boundLoop_ok fuel bounds l), foldM_app by (done || lia).
    destruct (foldM _ _ lists) as [lists1 | |]; [| done | done]. run.
    rewrite E1. run. rewrite (boundLoop_ok fuel b1 l1) by (done || lia).
    destruct (foldM _ _ lists1); [| done | done]. run. by rewrite E2.
  - unfold visited. apply Permutation_app_head. rewrite (with_bound_perm _ _ _ Hp1).
    unfold with_bound. rewrite filter_cons_False; [done |]. simpl.
    intros Heq%baked_inj. lia.
  - rewrite Hp2, Hp1. rewrite (Permutation_app_comm l). simpl. apply Permutation_swap.
Qed.

Lemma pushBack_dims_ok (fuel : nat) (cs old : list esdmI_hypercube_t) (cube : esdmI_hypercube_t)
    (ranges : list esdmI_range_t) (d : nat) (bls : list T) :
  (forall k r, ranges !! k = Some r -> cube !! (d + k)%nat = Some r /\ range_ok r) ->
  length bls = length ranges ->
  (forall k b, bls !! k = Some b -> exists l, contents b l /\ l ≡ₚ entries_of (d + k) old) ->
  (2 * length old + 2 <= fuel)%nat -> Z.of_nat (2 * length old) + 2 <= MAX_ENTRIES ->
  exists es bls',
    (forall lists, pushBack_dims fuel cs cube (Z.of_nat (length old)) ranges bls lists =
      (lists' ← foldM (visitEntry cs cube (Z.of_nat (length old))) es lists; mret (bls', lists'))) /\
    es ≡ₚ visitedAll d ranges old /\ length bls' = length bls /\
    (forall k b, bls' !! k = Some b -> exists l, contents b l /\ l ≡ₚ entries_of (d + k) (old ++ [cube])).
Proof.
  intros Hr Hlen Hbl Hf Hmax. revert d bls Hr Hlen Hbl.
  induction ranges as [| r ranges IH]; intros d [| b bls] Hr Hlen Hbl; simpl in Hlen; try lia.
  { exists [], []. split; [done |]. split; [done |]. split; [done |]. intros k b Hk. by rewrite lookup_nil in Hk. }
  destruct (Hbl 0%nat b eq_refl) as (l & Hc & Hl). destruct (Hr 0%nat r eq_refl) as [Hcr Hrok].
  rewrite Nat.add_0_r in *. pose proof (length_entries_of d old) as Hle.
  pose proof (Permutation_length Hl) as Hll.
  destruct (pushBack_dim_ok fuel cs cube (Z.of_nat (length old)) r b l Hc Hrok)
    as (es & b' & l' & E & Hes & Hc' & Hl'); [lia | lia |].
  destruct (IH (S d) bls) as (es2 & bls' & E2 & Hes2 & Hlb & Hbl').
  { intros k r' Hk. destruct (Hr (S k) r' Hk) as [? ?]. by rewrite Nat.add_succ_r in *. }
  { lia. }
  { intros k b2 Hk. destruct (Hbl (S k) b2 Hk) as (l2 & ? & ?). rewrite Nat.add_succ_r in *. by exists l2. }
  exists (es ++ es2), (b' :: bls'). split; [| split; [| split]].
  - intros lists. cbn [pushBack_dims]. rewrite E, foldM_app.
    destruct (foldM _ es lists) as [lists1 | |]; [| done | done]. run. rewrite E2.
    by destruct (foldM _ es2 lists1).
  - cbn [visitedAll]. apply Permutation_app; [| done]. rewrite Hes. unfold visited.
    by rewrite !(with_bound_perm _ _ _ Hl).
  - simpl. lia.
  - intros [| k] b2 Hk; simpl in Hk.
    + injection Hk as <-. exists l'. split; [done |]. rewrite Nat.add_0_r.
      rewrite (entries_of_snoc d old cube r Hcr). by rewrite Hl', Hl.
    + rewrite Nat.add_succ_r. by apply Hbl'.
Qed.

(** * The visited indices are the neighbours *)

Lemma elem_of_entries_of (d : nat) (old : list esdmI_hypercube_t) (e : esdmI_boundListEntry_t) :
  e ∈ entries_of d old <-> exists i c r, old !! i = Some c /\ c !! d = Some r /\
  (e = BoundListEntry (baked (rstart r) true) (Z.of_nat i) \/
   e = BoundListEntry (baked (rend r) false) (Z.of_nat i)).
Proof.
  unfold entries_of. rewrite list_elem_of_join. setoid_rewrite elem_of_lookup_imap. split.
  - intros (k & He & i & c & -> & Hi). destruct (c !! d) as [r |] eqn:Hr; [| by apply elem_of_nil in He].
    exists i, c, r. split; [done |]. split; [done |].
    rewrite !elem_of_cons, elem_of_nil in He. tauto.
  - intros (i & c & r & Hi & Hr & He). eexists. split; [| exists i, c; split; [reflexivity | done]].
    rewrite Hr, !elem_of_cons. tauto.
Qed.

Lemma elem_of_visited (r : esdmI_range_t) (d : nat) (old : list esdmI_hypercube_t) (j : Z) :
  j ∈ cubeIndex <$> visited r (entries_of d old) <->
  exists i c rc, j = Z.of_nat i /\ old !! i = Some c /\ c !! d = Some rc /\ abuts r rc.
Proof.
  rewrite list_elem_of_fmap. unfold visited, with_bound.
  setoid_rewrite elem_of_app. setoid_rewrite list_elem_of_filter. setoid_rewrite elem_of_entries_of.
  unfold abuts. split.
  - intros (e & -> & [(Hb & i & c & rc & Hi & Hc & [-> | ->]) | (Hb & i & c & rc & Hi & Hc & [-> | ->])]);
      simpl in Hb; apply baked_inj in Hb as [Hb ?]; try discriminate; exists i, c, rc; simpl; auto with lia.
  - intros (i & c & rc & -> & Hi & Hc & [Hab | Hab]).
    + exists (BoundListEntry (baked (rend rc) false) (Z.of_nat i)). split; [done |]. left.
      simpl. rewrite Hab. split; [done |]. exists i, c, rc. auto.
    + exists (BoundListEntry (baked (rstart rc) true) (Z.of_nat i)). split; [done |]. right.
      simpl. rewrite Hab. split; [done |]. exists i, c, rc. auto.
Qed.

Lemma elem_of_visitedAll (ranges : list esdmI_range_t) (d : nat) (old : list esdmI_hypercube_t) (j : Z) :
  j ∈ cubeIndex <$> visitedAll d ranges old <->
  exists k r i c rc, ranges !! k = Some r /\ j = Z.of_nat i /\ old !! i = Some c /\
    c !! (d + k)%nat = Some rc /\ abuts r rc.
Proof.
  revert d. induction ranges as [| r ranges IH]; intros d; cbn [visitedAll].
  { rewrite elem_of_nil. split; [done |]. intros (k & r & _ & _ & _ & Hk & _). by rewrite lookup_nil in Hk. }
  rewrite fmap_app, elem_of_app, elem_of_visited, IH. split.
  - intros [(i & c & rc & H1) | (k & r' & i & c & rc & Hk & H1)].
    + exists 0%nat, r, i, c, rc. by rewrite Nat.add_0_r.
    + exists (S k), r', i, c, rc. by rewrite Nat.add_succ_r.
  - intros ([| k] & r' & i & c & rc & Hk & H1).
    + left. injection Hk as ->. exists i, c, rc. by rewrite Nat.add_0_r in H1.
    + right. exists k, r', i, c, rc. by rewrite Nat.add_succ_r in H1.
Qed.

Definition cubes_ok (n : nat) (old : list esdmI_hypercube_t) : Prop :=
  Forall (fun c => length c = n /\ Forall range_ok c) old.

(** No index is visited twice in one dimension. *)
Lemma NoDup_visited (r : esdmI_range_t) (d n : nat) (old : list esdmI_hypercube_t) :
  range_ok r -> cubes_ok n old -> (d < n)%nat -> NoDup (cubeIndex <$> visited r (entries_of d old)).
Proof.
  intros (_ & _ & Hr) Hok Hd. induction old as [| c old IH] using rev_ind; [constructor |].
  apply Forall_app in Hok as [Hok [[Hc Hrs] _]%Forall_cons].
  destruct (lookup_lt_is_Some_2 c d) as [rc Hrc]; [lia |].
  pose proof (Forall_lookup_1 _ _ _ _ Hrs Hrc) as (_ & _ & Hne).
  assert (Hnew : Z.of_nat (length old) ∉ cubeIndex <$> visited r (entries_of d old)).
  { rewrite elem_of_visited. intros (i & ? & ? & Heq & Hi & _). apply lookup_lt_Some in Hi. lia. }
  specialize (IH Hok). rewrite (entries_of_snoc d old c rc Hrc).
  unfold visited, with_bound in *. rewrite !filter_app, !filter_cons, !filter_nil. cbn [bakedBound].
  repeat (let Hb := fresh in case_decide as Hb;
    [apply baked_inj in Hb as [? ?]; first [discriminate | lia | idtac] | clear Hb]);
    rewrite ?app_nil_r; try done; rewrite !fmap_app in *; cbn [fmap list_fmap cubeIndex].
  - rewrite <- app_assoc. rewrite (Permutation_app_comm [_]), app_assoc, NoDup_app. split; [done |].
    split; [intros x Hx ->%list_elem_of_singleton; done | apply NoDup_singleton].
  - rewrite app_assoc, NoDup_app. split; [done |].
    split; [intros x Hx ->%list_elem_of_singleton; done | apply NoDup_singleton].
Qed.

Lemma touch_at_unique (a b : esdmI_hypercube_t) (i j : nat) (ra rb ra' rb' : esdmI_range_t) :
  touch_at a b -> a !! i = Some ra -> b !! i = Some rb -> abuts ra rb ->
  a !! j = Some ra' -> b !! j = Some rb' -> abuts ra' rb' -> i = j.
Proof.
  assert (Hrest : forall (a b : esdmI_hypercube_t) k ra rb, Forall2 meets a b ->
    a !! k = Some ra -> b !! k = Some rb -> abuts ra rb -> False).
  { intros x y k rx ry Hm Hx Hy Hab. apply (abuts_not_meets _ _ Hab). by eapply Forall2_lookup_lr. }
  intros Ht. revert i j. induction Ht as [sa sb a b Hab Hm | sa sb a b Hm _ IH];
    intros [| i] [| j] Hia Hib Hi Hja Hjb Hj; simpl in *; simplify_eq; try done;
    try (by exfalso; eapply Hrest); try (by destruct (abuts_not_meets _ _ Hi)); try (by destruct (abuts_not_meets _ _ Hj)).
  f_equal. eapply IH; eauto.
Qed.

Lemma touch_at_abuts (a b : esdmI_hypercube_t) :
  touch_at a b -> exists i ra rb, a !! i = Some ra /\ b !! i = Some rb /\ abuts ra rb.
Proof.
  induction 1 as [sa sb a b Hab _ | sa sb a b _ _ (i & ra & rb & IH)].
  - by exists 0%nat, sa, sb.
  - by exists (S i), ra, rb.
Qed.

Lemma elem_of_touching (cs : list esdmI_hypercube_t) (cube : esdmI_hypercube_t)
    (es : list esdmI_boundListEntry_t) (j : Z) :
  j ∈ touching cs cube es <-> touchesIndex cs cube j = true /\ j ∈ cubeIndex <$> es.
Proof. unfold touching. by rewrite list_elem_of_filter. Qed.

Lemma at_index_of_nat {A} (l : list A) (i : nat) : at_index l (Z.of_nat i) = l !! i.
Proof. unfold at_index. rewrite (proj2 (Z.ltb_ge _ _)) by lia. by rewrite Nat2Z.id. Qed.

Lemma NoDup_touching (old : list esdmI_hypercube_t) (cube : esdmI_hypercube_t) (ranges : list esdmI_range_t) (d : nat) :
  cubes_ok (length cube) old -> (forall k r, ranges !! k = Some r -> cube !! (d + k)%nat = Some r) ->
  Forall range_ok ranges -> NoDup (touching (old ++ [cube]) cube (visitedAll d ranges old)).
Proof.
  intros Hok. revert d. induction ranges as [| r ranges IH]; intros d Hr Hrok; [constructor |].
  apply Forall_cons in Hrok as [Hr0 Hrok]. pose proof (Hr 0%nat r eq_refl) as Hd. rewrite Nat.add_0_r in Hd.
  cbn [visitedAll]. unfold touching. rewrite fmap_app, filter_app, NoDup_app. split; [| split].
  - apply NoDup_filter. eapply NoDup_visited; eauto. by apply lookup_lt_Some in Hd.
  - intros j [Ht Hj]%list_elem_of_filter [_ Hj']%list_elem_of_filter.
    apply elem_of_visited in Hj as (i & c & rc & -> & Hi & Hc & Hab).
    apply elem_of_visitedAll in Hj' as (k & r' & i' & c' & rc' & Hk & Heq & Hi' & Hc' & Hab').
    assert (i' = i) as -> by lia. assert (c' = c) as -> by congruence.
    unfold touchesIndex in Ht. rewrite at_index_of_nat, lookup_app_l in Ht by (by apply lookup_lt_Some in Hi).
    rewrite Hi in Ht. apply touches_body_touch_at in Ht.
    2: { pose proof (Forall_lookup_1 _ _ _ _ Hok Hi) as [? _]. done. }
    pose proof (Hr (S k) r' Hk) as Hk'. rewrite Nat.add_succ_r in Hk'. simpl in Hc'.
    assert (d = S (d + k)) by (eapply (touch_at_unique cube c); eauto). lia.
  - apply (IH (S d)); [| done]. intros k r' Hk. pose proof (Hr (S k) r' Hk). by rewrite Nat.add_succ_r in *.
Qed.

Lemma touching_spec (old : list esdmI_hypercube_t) (cube : esdmI_hypercube_t) (j : Z) :
  cubes_ok (length cube) old ->
  j ∈ touching (old ++ [cube]) cube (visitedAll 0 cube old) <->
  exists i c, j = Z.of_nat i /\ old !! i = Some c /\ touch_at cube c.
Proof.
  intros Hok. rewrite elem_of_touching, elem_of_visitedAll. unfold touchesIndex. split.
  - intros [Ht (k & r & i & c & rc & _ & -> & Hi & _ & _)]. exists i, c. split; [done |]. split; [done |].
    rewrite at_index_of_nat, lookup_app_l, Hi in Ht by (by apply lookup_lt_Some in Hi).
    apply touches_body_touch_at; [| done]. by pose proof (Forall_lookup_1 _ _ _ _ Hok Hi) as [? _].
  - intros (i & c & -> & Hi & Ht). rewrite at_index_of_nat, lookup_app_l, Hi by (by apply lookup_lt_Some in Hi).
    split.
    + apply touches_body_touch_at; [| done]. by pose proof (Forall_lookup_1 _ _ _ _ Hok Hi) as [? _].
    + destruct (touch_at_abuts cube c Ht) as (k & ra & rb & Ha & Hb & Hab). exists k, ra, i, c, rb. done.
Qed.

(** * The invariant of the manager *)

(** Index list [k] of cube [i] is a duplicate-free enumeration of the cubes that touch it. *)
Definition neighbours_of (cs : list esdmI_hypercube_t) (i : nat) (k : list Z) : Prop :=
  NoDup k /\ forall j, j ∈ k <-> exists i' c c', j = Z.of_nat i' /\ cs !! i = Some c /\
                               cs !! i' = Some c' /\ touch_at c c'.

Record manager_ok (me : esdmI_hypercubeNeighbourManager_t) : Prop := {
  mo_cubes : cubes_ok (Z.to_nat (dims me)) (cubes me);
  mo_dims : length (boundLists me) = Z.to_nat (dims me) /\ 0 <= dims me;
  mo_bounds : forall d b, boundLists me !! d = Some b ->
    exists l, contents b l /\ l ≡ₚ entries_of d (cubes me);
  mo_alloc : 0 < allocatedCount me /\ Z.of_nat (length (cubes me)) <= allocatedCount me;
  mo_lists : lists_ok (neighbourLists me);
  mo_length : length (neighbourLists me) = length (cubes me);
  mo_neighbours : forall i k, view (neighbourLists me) !! i = Some k -> neighbours_of (cubes me) i k
}.

Lemma make_ok (dimensions : Z) :
  0 <= dimensions -> manager_ok (esdmI_hypercubeNeighbourManager_make dimensions).
Proof.
  intros Hd. constructor; simpl; try done.
  - constructor.
  - by rewrite length_replicate.
  - intros d b Hb. apply lookup_replicate in Hb as [-> _]. exists []. split; [apply create_contents | done].
  - constructor.
Qed.

Lemma touch_at_irrefl (c : esdmI_hypercube_t) : Forall range_ok c -> ~ touch_at c c.
Proof.
  intros Hc Ht. destruct (touch_at_abuts c c Ht) as (i & ra & rb & Ha & Hb & Hab).
  pose proof (Forall_lookup_1 _ _ _ _ Hc Ha) as (_ & _ & Hne). simplify_eq. unfold abuts in Hab. lia.
Qed.

Lemma touching_perm (cs : list esdmI_hypercube_t) (cube : esdmI_hypercube_t) (es es' : list esdmI_boundListEntry_t) :
  es ≡ₚ es' -> touching cs cube es ≡ₚ touching cs cube es'.
Proof. intros Hp. unfold touching. by rewrite Hp. Qed.

Section Linked.

Context (old : list esdmI_hypercube_t) (cube : esdmI_hypercube_t) (js : list Z).
Context (Hok : cubes_ok (length cube) old) (Hcube : Forall range_ok cube) (Hnd : NoDup js).
Context (Hjs : forall j, j ∈ js <-> exists i c, j = Z.of_nat i /\ old !! i = Some c /\ touch_at cube c).

Lemma linked_range : Forall (fun j => 0 <= j < Z.of_nat (length old)) js.
Proof. apply Forall_forall. intros j (x & c & -> & Hx & _)%Hjs. apply lookup_lt_Some in Hx. lia. Qed.

Lemma linked_new : neighbours_of (old ++ [cube]) (length old) js.
Proof.
  split; [done |]. intros j. rewrite Hjs, list_lookup_middle by done. split.
  - intros (x & c & -> & Hx & Ht). exists x, cube, c. split; [done |]. split; [done |]. split; [| done].
    by apply lookup_app_l_Some.
  - intros (x & c & c' & -> & [= <-] & Hx & Ht). exists x, c'. split; [done |]. split; [| done].
    apply lookup_snoc_Some in Hx as [[_ ?] | [_ ->]]; [done |]. by apply touch_at_irrefl in Ht.
Qed.

Lemma linked_old (i : nat) (ci : esdmI_hypercube_t) (k : list Z) :
  old !! i = Some ci -> neighbours_of old i k ->
  neighbours_of (old ++ [cube]) i (k ++ if decide (Z.of_nat i ∈ js) then [Z.of_nat (length old)] else []).
Proof.
  intros Hci [Hndk Hk].
  assert (Hkn : Z.of_nat (length old) ∉ k).
  { intros (x & _ & c' & Hx & _ & Hc' & _)%Hk. apply lookup_lt_Some in Hc'. lia. }
  assert (Hdec : forall j, j ∈ (if decide (Z.of_nat i ∈ js) then [Z.of_nat (length old)] else []) <->
                 j = Z.of_nat (length old) /\ touch_at ci cube).
  { intros j. case_decide as Hd; rewrite ?list_elem_of_singleton, ?elem_of_nil; rewrite Hjs in Hd.
    - destruct Hd as (x & c & Heq%Nat2Z.inj & Hx & Ht). subst x. simplify_eq. apply touch_at_sym in Ht. tauto.
    - split; [done |]. intros [_ Ht%touch_at_sym]. apply Hd. by exists i, ci. }
  split.
  - apply NoDup_app. split; [done |]. split; [intros x Hx [-> _]%Hdec; done |].
    case_decide; [apply NoDup_singleton | constructor].
  - intros j. rewrite elem_of_app, Hk, Hdec, lookup_app_l, Hci by (by apply lookup_lt_Some in Hci). split.
    + intros [(x & c & c' & -> & [= <-] & Hx & Ht) | [-> Ht]].
      * exists x, ci, c'. split; [done |]. split; [done |]. split; [by apply lookup_app_l_Some | done].
      * exists (length old), ci, cube. by rewrite list_lookup_middle.
    + intros (x & c & c' & -> & [= <-] & Hx & Ht). apply lookup_snoc_Some in Hx as [[_ Hx] | [-> ->]].
      * left. by exists x, ci, c'.
      * by right.
Qed.

(** The neighbour lists after linking the touching indices are those of the longer list. *)
Lemma linked_neighbours (v : list (list Z)) (i : nat) (k : list Z) :
  length v = length old -> (forall i k, v !! i = Some k -> neighbours_of old i k) ->
  foldl (fun v j => link (Z.of_nat (length old)) j v) (v ++ [[]]) js !! i = Some k ->
  neighbours_of (old ++ [cube]) i k.
Proof.
  intros Hv Hold Hi. pose proof linked_range as Hrange.
  pose proof (lookup_lt_Some _ _ _ Hi) as Hlt. rewrite length_foldl_link, length_app in Hlt. simpl in Hlt.
  destruct (decide (i = length old)) as [-> | Hne].
  - pose proof (foldl_link_new (Z.of_nat (length old)) js (v ++ [[]]) []) as E.
    rewrite Nat2Z.id in E. rewrite E in Hi; [| lia | done | by apply list_lookup_middle].
    injection Hi as <-. apply linked_new.
  - destruct (lookup_lt_is_Some_2 v i) as [k0 Hk0]; [lia |].
    destruct (lookup_lt_is_Some_2 old i) as [ci Hci]; [lia |].
    pose proof (foldl_link_old (Z.of_nat (length old)) (Z.of_nat i) js (v ++ [[]]) k0) as E.
    rewrite Nat2Z.id in E. rewrite E in Hi; [| lia | done | done | by apply lookup_app_l_Some].
    injection Hi as <-. eapply linked_old; eauto.
Qed.

End Linked.

Lemma pushBack_ok (me : esdmI_hypercubeNeighbourManager_t) (cube : esdmI_hypercube_t) :
  manager_ok me -> Z.of_nat (length cube) = dims me -> Forall range_ok cube ->
  2 * Z.of_nat (length (cubes me)) + 2 <= MAX_ENTRIES ->
  exists me', esdmI_hypercubeNeighbourManager_pushBack me cube = Done me' /\
  manager_ok me' /\ cubes me' = cubes me ++ [cube] /\ dims me' = dims me.
Proof.
  intros [Hcs [Hdl Hd0] Hb [Ha Hca] Hl Hll Hn] Hdims Hr Hmax.
  assert (Hcs' : cubes_ok (length cube) (cubes me)) by (by replace (length cube) with (Z.to_nat (dims me)) by lia).
  unfold esdmI_hypercubeNeighbourManager_pushBack, esdmI_hypercube_dimensions.
  rewrite (eassert_true (Z.of_nat (length cube) =? _)) by (by apply Z.eqb_eq). run.
  set (allocated := if _ =? allocatedCount me then _ else _).
  assert (Z.of_nat (length (cubes me)) < allocated).
  { unfold allocated. destruct (Z.eqb_spec (Z.of_nat (length (cubes me))) (allocatedCount me)); lia. }
  rewrite eassert_true by (by apply Z.ltb_lt). run.
  destruct (pushBack_dims_ok (2 * length (cubes me ++ [cube])) (cubes me ++ [cube]) (cubes me) cube cube 0 (boundLists me))
    as (es & bls' & E & Hes & Hlb & Hbl').
  { intros k r Hk. split; [done |]. by eapply Forall_lookup_1. }
  { lia. } { exact Hb. } { rewrite length_app. simpl. lia. } { lia. }
  destruct (visitEntries_ok (cubes me ++ [cube]) cube (Z.of_nat (length (cubes me))) es
    (neighbourLists me ++ [neighbourList_construct])) as (lists' & E2 & Hok2 & Hv2).
  { apply Forall_app. split; [done |]. constructor; [simpl; lia | constructor]. }
  { rewrite length_app. simpl. lia. } { rewrite !length_app. simpl. lia. }
  { apply Forall_forall. intros e He. apply (list_elem_of_fmap_2 cubeIndex) in He. rewrite Hes in He.
    apply elem_of_visitedAll in He as (k & r & i & c & rc & _ & -> & Hi & _).
    exists c. rewrite at_index_of_nat. split; [by apply lookup_app_l_Some |].
    by pose proof (Forall_lookup_1 _ _ _ _ Hcs' Hi) as [? _]. }
  rewrite E. run. rewrite E2. run. eexists. split; [reflexivity |]. split; [| done].
  constructor; simpl.
  - apply Forall_app. split; [done |]. constructor; [split; [lia | done] | constructor].
  - split; [lia | done].
  - exact Hbl'.
  - rewrite length_app. simpl. lia.
  - done.
  - rewrite <- length_view, Hv2, length_foldl_link, length_view, !length_app. simpl. lia.
  - intros i k. rewrite Hv2. unfold view. rewrite fmap_app. cbn [fmap list_fmap neighbourList_construct neighbourIndices].
    apply linked_neighbours; try done.
    + rewrite (touching_perm _ _ _ _ Hes). by apply NoDup_touching.
    + intros j. rewrite (touching_perm _ _ _ _ Hes). by apply touching_spec.
    + by rewrite length_fmap.
Qed.

Lemma getNeighbours_ok (me : esdmI_hypercubeNeighbourManager_t) (i : nat) :
  manager_ok me -> (i < length (cubes me))%nat ->
  exists k, esdmI_hypercubeNeighbourManager_getNeighbours me (Z.of_nat i) = Done k /\ neighbours_of (cubes me) i k.
Proof.
  intros Hok Hi. unfold esdmI_hypercubeNeighbourManager_getNeighbours.
  rewrite eassert_true by (apply Z.ltb_lt; lia). run. rewrite at_index_of_nat.
  destruct (lookup_lt_is_Some_2 (neighbourLists me) i) as [nl Hnl]; [by rewrite (mo_length _ Hok) |].
  rewrite Hnl. run. eexists. split; [reflexivity |]. apply (mo_neighbours _ Hok).
  unfold view. by rewrite list_lookup_fmap, Hnl.
Qed.

(** Pushing cubes back one after the other, the way a region's fragments are collected. *)
Definition pushBackAll (cs : list esdmI_hypercube_t) (me : esdmI_hypercubeNeighbourManager_t)
    : outcome esdmI_hypercubeNeighbourManager_t :=
  foldM (fun c me => esdmI_hypercubeNeighbourManager_pushBack me c) cs me.

Lemma pushBackAll_ok (cs : list esdmI_hypercube_t) (me : esdmI_hypercubeNeighbourManager_t) :
  manager_ok me -> Forall (fun c => Z.of_nat (length c) = dims me /\ Forall range_ok c) cs ->
  2 * Z.of_nat (length (cubes me) + length cs) <= MAX_ENTRIES ->
  exists me', pushBackAll cs me = Done me' /\ manager_ok me' /\ cubes me' = cubes me ++ cs.
Proof.
  unfold pushBackAll. revert me. induction cs as [| c cs IH]; intros me Hok Hcs Hmax; cbn [foldM].
  { exists me. by rewrite app_nil_r. }
  apply Forall_cons in Hcs as [[Hc Hr] Hcs]. simpl in Hmax.
  destruct (pushBack_ok me c Hok Hc Hr) as (me1 & -> & Hok1 & Hc1 & Hd1); [lia |]. run.
  destruct (IH me1 Hok1) as (me2 & -> & Hok2 & Hc2).
  - by rewrite Hd1.
  - rewrite Hc1, length_app. simpl. lia.
  - exists me2. rewrite Hc2, Hc1, <- app_assoc. done.
Qed.

Lemma touch_at_touches (c c' : esdmI_hypercube_t) :
  length c = length c' -> touch_at c c' <-> esdmI_hypercube_touches c c' = Done true.
Proof.
  intros Hlen. rewrite <- (touches_body_touch_at c c' Hlen). unfold esdmI_hypercube_touches.
  rewrite eassert_true by (by apply sameDims_iff). run. split; [by intros -> | by intros [=]].
Qed.

(** C36: After any sequence of hypercubes has been pushed into a fresh neighbour manager, over
    any bound list implementation that keeps its promises,
    [esdmI_hypercubeNeighbourManager_getNeighbours()] returns for each cube the indices of
    exactly the cubes it touches, each one once. *)
Theorem neighbours_correct (dimensions : Z) (cs : list esdmI_hypercube_t) :
  0 <= dimensions -> Forall (fun c => Z.of_nat (length c) = dimensions /\ Forall range_ok c) cs ->
  2 * Z.of_nat (length cs) <= MAX_ENTRIES ->
  exists me, pushBackAll cs (esdmI_hypercubeNeighbourManager_make dimensions) = Done me /\
  esdmI_hypercubeNeighbourManager_list me = cs /\
  forall i c, cs !! i = Some c ->
  exists k, esdmI_hypercubeNeighbourManager_getNeighbours me (Z.of_nat i) = Done k /\ NoDup k /\
  forall j, j ∈ k <-> exists i' c', j = Z.of_nat i' /\ cs !! i' = Some c' /\ esdmI_hypercube_touches c c' = Done true.
Proof.
  intros Hd Hcs Hmax.
  destruct (pushBackAll_ok cs _ (make_ok dimensions Hd) Hcs) as (me & E & Hok & Hc); [simpl; lia |].
  simpl in Hc. exists me. split; [done |]. split; [done |]. intros i c Hi.
  destruct (getNeighbours_ok me i Hok) as (k & Ek & Hnd & Hk); [rewrite Hc; by apply lookup_lt_Some in Hi |].
  exists k. split; [done |]. split; [done |]. intros j. rewrite Hk, Hc, Hi.
  assert (Hlen : forall i' c', cs !! i' = Some c' -> length c = length c').
  { intros i' c' Hi'. rewrite Forall_lookup in Hcs. destruct (Hcs i c Hi), (Hcs i' c' Hi'). lia. }
  split.
  - intros (i' & c0 & c' & -> & [= <-] & Hi' & Ht). exists i', c'. by rewrite <- touch_at_touches by eauto.
  - intros (i' & c' & -> & Hi' & Ht). exists i', c, c'. by rewrite touch_at_touches by eauto.
Qed.

End Manager.

Lemma neighbours_correct_witness :
  let cs := [[Range 0 4; Range 0 4]; [Range 4 8; Range 0 4]; [Range 2 6; Range 4 8]] in
  exists me, pushBackAll (T := BoundTree.esdmI_boundTree_t) cs (esdmI_hypercubeNeighbourManager_make 2) = Done me /\
  esdmI_hypercubeNeighbourManager_list me = cs /\
  forall i c, cs !! i = Some c ->
  exists k, esdmI_hypercubeNeighbourManager_getNeighbours me (Z.of_nat i) = Done k /\ NoDup k /\
  forall j, j ∈ k <-> exists i' c', j = Z.of_nat i' /\ cs !! i' = Some c' /\ esdmI_hypercube_touches c c' = Done true.
Proof.
  apply (neighbours_correct (T := BoundTree.esdmI_boundTree_t)).
  - lia.
  - repeat constructor; vm_compute; done.
  - vm_compute. done.
Defined.

(** The three cubes of a small example are all mutual neighbours. *)
Example neighbours_example :
  (me ← pushBackAll (T := BoundTree.esdmI_boundTree_t)
          [[Range 0 4; Range 0 4]; [Range 4 8; Range 0 4]; [Range 2 6; Range 4 8]]
          (esdmI_hypercubeNeighbourManager_make 2);
   esdmI_hypercubeNeighbourManager_getNeighbours me 2) = Done [0; 1].
Proof. vm_compute. reflexivity. Qed.

(** The array implementation finds them in another order. *)
Example neighbours_example_array :
  (me ← pushBackAll (T := BoundArray.esdmI_boundArray_t)
          [[Range 0 4; Range 0 4]; [Range 4 8; Range 0 4]; [Range 2 6; Range 4 8]]
          (esdmI_hypercubeNeighbourManager_make 2);
   esdmI_hypercubeNeighbourManager_getNeighbours me 2) = Done [1; 0].
Proof. reflexivity. Qed.
