(* ===== verification/Json.v ===== *)
(** JSON documents as the jansson library presents them, and their compact textual
    form, in which ESDM writes its metadata with [smd_string_stream_printf()]. *)

From stdpp Require Export strings pretty.
From S2P Require Import Prelude.

#[local] Set Warnings "-register-all".

(** [json_t]: the members of an object in the order of the text. *)
Inductive json : Type :=
| JNull
| JBool (b : bool)
| JInteger (z : Z)
| JString (s : string)
| JArray (elements : list json)
| JObject (members : list (string * json)).

(** The value stored under a key. *)
Fixpoint member (key : string) (members : list (string * json)) : option json :=
  match members with
  | [] => None
  | (k, v) :: rest => if decide (k = key) then Some v else member key rest
  end.

(** [jansson_object_get()] of src/utils/auxiliary.c. *)
Definition jansson_object_get (object : json) (key : string) : option json :=
  match object with
  | JObject members => member key members
  | _ => None
  end.

Definition json_is_object (j : json) : bool := match j with JObject _ => true | _ => false end.
Definition json_is_array (j : json) : bool := match j with JArray _ => true | _ => false end.
Definition json_is_integer (j : json) : bool := match j with JInteger _ => true | _ => false end.
Definition json_is_string (j : json) : bool := match j with JString _ => true | _ => false end.

(** Zero for a value that is not an integer. *)
Definition json_integer_value (j : json) : Z := match j with JInteger z => z | _ => 0 end.

(** The elements of an array; the empty list for other values. *)
Definition json_elements (j : json) : list json := match j with JArray l => l | _ => [] end.

Definition json_array_size (j : json) : Z := Z.of_nat (length (json_elements j)).

Definition json_array_get (j : json) (i : nat) : option json := json_elements j !! i.

(** * Text *)

Open Scope string_scope.

Definition dquote : string := String (Ascii.Ascii false true false false false true false false) "".

Definition quoted (s : string) : string := dquote ++ s ++ dquote.

(** The strings separated by commas. *)
Fixpoint commas (l : list string) : string :=
  match l with
  | [] => ""
  | [s] => s
  | s :: rest => s ++ "," ++ commas rest
  end.

(** The compact form of a document; the strings ESDM stores need no escapes. *)
Fixpoint render (j : json) : string :=
  match j with
  | JNull => "null"
  | JBool b => if b then "true" else "false"
  | JInteger z => pretty z
  | JString s => quoted s
  | JArray elements => "[" ++ commas (map render elements) ++ "]"
  | JObject members => "{" ++ commas (map (fun m => quoted m.1 ++ ":" ++ render m.2) members) ++ "}"
  end.

Close Scope string_scope.

(** [printf("%s%ld", i ? "," : "", data[i])] for every element prints the rendered array. *)
Fixpoint printed_list (first : bool) (l : list string) : string :=
  match l with
  | [] => ""%string
  | s :: rest => ((if first then "" else ",") ++ s ++ printed_list false rest)%string
  end.

Lemma string_app_nil_r (s : string) : (s ++ "")%string = s.
Proof. induction s as [| c s IH]; [done | exact (f_equal (String _) IH)]. Qed.

Lemma string_app_assoc (a b c : string) : ((a ++ b) ++ c)%string = (a ++ (b ++ c))%string.
Proof. induction a as [| x a IH]; [done | exact (f_equal (String _) IH)]. Qed.

Lemma string_length_app (a b : string) : String.length (a ++ b)%string = (String.length a + String.length b)%nat.
Proof. induction a as [| x a IH]; [done | exact (f_equal S IH)]. Qed.

Lemma printed_list_commas (l : list string) : printed_list true l = commas l.
Proof.
  assert (H : forall s l, (s ++ printed_list false l)%string = commas (s :: l)).
  { intros s k. revert s. induction k as [| t k IH]; intros s; [apply string_app_nil_r |].
    change (commas (s :: t :: k)) with (s ++ "," ++ commas (t :: k))%string.
    by rewrite <- (IH t). }
  destruct l as [| s l]; [done |]. apply H.
Qed.
