(* ===== verification/JsonText.v ===== *)
(** The texts of JSON documents that ESDM writes, and what it relies on of the reader of the jansson
    library, which is a parameter of the model.  A small reader that keeps the promise shows
    that it can be kept. *)

From Stdlib Require Import Ascii.
From stdpp Require Import strings pretty.
From S2P Require Import Prelude Json.

Open Scope string_scope.

(** * Texts *)

Definition newline : string := String (Ascii.ascii_of_nat 10) "".

(** Characters that stand for themselves in a JSON string. *)
Definition plainChar (c : ascii) : bool :=
  let n := nat_of_ascii c in (32 <=? n)%nat && (n <=? 126)%nat && negb (n =? 34)%nat && negb (n =? 92)%nat.

Fixpoint plain (s : string) : bool :=
  match s with
  | "" => true
  | String c s' => plainChar c && plain s'
  end.

(** The texts separated by [sep]. *)
Fixpoint join (sep : string) (l : list string) : string :=
  match l with
  | [] => ""
  | [s] => s
  | s :: rest => s ++ sep ++ join sep rest
  end.

(** The depth of the nesting; jansson reads no more than 2048 levels. *)
Fixpoint json_depth (j : json) : nat :=
  match j with
  | JArray l => S (foldr (fun x n => Nat.max (json_depth x) n) 0%nat l)
  | JObject members => S (foldr (fun m n => Nat.max (json_depth m.2) n) 0%nat members)
  | _ => 0%nat
  end.

(** [text_of j s]: [s] is a text of the document [j]; a line may end after the commas of an array. *)
Fixpoint text_of (j : json) (s : string) : Prop :=
  match j with
  | JNull => s = "null"
  | JBool b => s = if b then "true" else "false"
  | JInteger z => s = pretty z /\ (INT64_MIN <= z <= INT64_MAX)%Z
  | JString x => s = quoted x /\ plain x = true
  | JArray l =>
      exists sep ts, (sep = "," \/ sep = "," ++ newline) /\ s = "[" ++ join sep ts ++ "]" /\
      (fix elements (l : list json) (ts : list string) : Prop :=
         match l, ts with
         | [], [] => True
         | x :: l', t :: ts' => text_of x t /\ elements l' ts'
         | _, _ => False
         end) l ts
  | JObject members =>
      exists ts, s = "{" ++ join "," ts ++ "}" /\
      (fix elements (l : list (string * json)) (ts : list string) : Prop :=
         match l, ts with
         | [], [] => True
         | m :: l', t :: ts' => (exists u, t = quoted m.1 ++ ":" ++ u /\ plain m.1 = true /\ text_of m.2 u) /\ elements l' ts'
         | _, _ => False
         end) members ts
  end.

(** ** Texts of arrays and objects *)

Lemma text_of_array (l : list json) (ts : list string) (sep : string) :
  sep = "," \/ sep = "," ++ newline -> Forall2 text_of l ts -> text_of (JArray l) ("[" ++ join sep ts ++ "]").
Proof. intros Hsep Hl. cbn. exists sep, ts. split; [done |]. split; [done |]. induction Hl; done. Qed.

Definition member_text (m : string * json) (t : string) : Prop :=
  exists u, t = quoted m.1 ++ ":" ++ u /\ plain m.1 = true /\ text_of m.2 u.

Lemma text_of_object (l : list (string * json)) (ts : list string) :
  Forall2 member_text l ts -> text_of (JObject l) ("{" ++ join "," ts ++ "}").
Proof. intros Hl. cbn. exists ts. split; [done |]. induction Hl; done. Qed.

Lemma array_texts (l : list json) (s : string) :
  text_of (JArray l) s -> exists sep ts, (sep = "," \/ sep = "," ++ newline) /\ s = "[" ++ join sep ts ++ "]" /\ Forall2 text_of l ts.
Proof.
  intros (sep & ts & Hsep & -> & H). exists sep, ts. split; [done |]. split; [done |].
  revert ts H. induction l as [| x l IH]; intros [| t ts] H; try done. destruct H. constructor; [done |]. by apply IH.
Qed.

Lemma object_texts (l : list (string * json)) (s : string) :
  text_of (JObject l) s -> exists ts, s = "{" ++ join "," ts ++ "}" /\ Forall2 member_text l ts.
Proof.
  intros (ts & -> & H). exists ts. split; [done |].
  revert ts H. induction l as [| x l IH]; intros [| t ts] H; try done. destruct H. constructor; [done |]. by apply IH.
Qed.

Lemma join_commas (l : list string) : join "," l = commas l.
Proof.
  induction l as [| s l IH]; [done |]. destruct l as [| t l]; [done |].
  change (s ++ "," ++ join "," (t :: l) = s ++ "," ++ commas (t :: l)). by rewrite IH.
Qed.

(** Texts with the separator in front. *)
Definition continued (sep : string) (l : list string) : string := foldr (fun t s => sep ++ t ++ s) "" l.

Lemma join_continued (sep t : string) (l : list string) : join sep (t :: l) = t ++ continued sep l.
Proof.
  revert t. induction l as [| u l IH]; intros t; [cbn; by rewrite string_app_nil_r |].
  change (join sep (t :: u :: l)) with (t ++ sep ++ join sep (u :: l)). by rewrite IH.
Qed.

Lemma text_of_integer (z : Z) : (INT64_MIN <= z <= INT64_MAX)%Z -> text_of (JInteger z) (pretty z).
Proof. done. Qed.

Lemma text_of_string (s : string) : plain s = true -> text_of (JString s) (quoted s).
Proof. done. Qed.

(** Induction over documents. *)
Section Induction.

Context (P : json -> Prop) (Hnull : P JNull) (Hbool : forall b, P (JBool b)) (Hint : forall z, P (JInteger z))
  (Hstring : forall s, P (JString s)) (Harray : forall l, Forall P l -> P (JArray l))
  (Hobject : forall l, Forall (fun m => P m.2) l -> P (JObject l)).

Fixpoint json_nested_ind (j : json) : P j :=
  match j with
  | JNull => Hnull
  | JBool b => Hbool b
  | JInteger z => Hint z
  | JString s => Hstring s
  | JArray l => Harray l ((fix go (l : list json) : Forall P l :=
      match l with [] => Forall_nil_2 P | x :: l' => Forall_cons_2 P x l' (json_nested_ind x) (go l') end) l)
  | JObject l => Hobject l ((fix go (l : list (string * json)) : Forall (fun m => P m.2) l :=
      match l with [] => Forall_nil_2 _ | m :: l' => Forall_cons_2 _ m l' (json_nested_ind m.2) (go l') end) l)
  end.

End Induction.

(** ** Compact texts *)

(** Documents with numbers in range and without characters that need an escape. *)
Fixpoint json_ok (j : json) : Prop :=
  match j with
  | JInteger z => (INT64_MIN <= z <= INT64_MAX)%Z
  | JString s => plain s = true
  | JArray l => (fix go l := match l with [] => True | x :: l' => json_ok x /\ go l' end) l
  | JObject l => (fix go l := match l with [] => True | m :: l' => (plain m.1 = true /\ json_ok m.2) /\ go l' end) l
  | _ => True
  end.

Lemma json_ok_array (l : list json) : json_ok (JArray l) <-> Forall json_ok l.
Proof.
  cbn. induction l as [| x l IH]; [split; [constructor | done] |]. rewrite IH. split; [intros []; by constructor | intros H; by inversion H].
Qed.

Lemma json_ok_object (l : list (string * json)) : json_ok (JObject l) <-> Forall (fun m => plain m.1 = true /\ json_ok m.2) l.
Proof.
  cbn. induction l as [| x l IH]; [split; [constructor | done] |]. rewrite IH. split; [intros []; by constructor | intros H; by inversion H].
Qed.

Lemma text_of_render (j : json) : json_ok j -> text_of j (render j).
Proof.
  induction j as [| b | z | x | l IH | l IH] using json_nested_ind; intros Hj; try done.
  - apply json_ok_array in Hj. change (render (JArray l)) with ("[" ++ commas (map render l) ++ "]"). rewrite <- join_commas.
    apply text_of_array; [by left |]. induction l as [| x l IHl]; [constructor |]. inversion IH; inversion Hj; subst. constructor; [auto | by apply IHl].
  - apply json_ok_object in Hj.
    change (render (JObject l)) with ("{" ++ commas (map (fun m => quoted m.1 ++ ":" ++ render m.2) l) ++ "}"). rewrite <- join_commas.
    apply text_of_object. induction l as [| x l IHl]; [constructor |]. inversion IH; inversion Hj as [| ? ? []]; subst.
    constructor; [by exists (render x.2); auto | by apply IHl].
Qed.

(** * The library *)

(** [json_loads()]: it reads every text of an array or object, to the depth it supports. *)
Class Jansson := { json_loads : string -> option json }.

Class JanssonLaws `{Jansson} := {
  loads_law j s : text_of j s -> json_is_object j = true \/ json_is_array j = true -> (json_depth j <= 2048)%nat -> json_loads s = Some j
}.

(** [load_json()] of src/utils/auxiliary.c. *)
Definition load_json `{Jansson} (str : string) : option json := json_loads str.

(** * A reader *)

Module JsonReader.

Definition digit (c : ascii) : option N :=
  let n := N_of_ascii c in if (48 <=? n)%N && (n <=? 57)%N then Some (n - 48)%N else None.

(** The number in front of the text, and the rest. *)
Fixpoint digits (acc : N) (s : string) : N * string :=
  match s with
  | "" => (acc, "")
  | String c s' => match digit c with Some d => digits (10 * acc + d) s' | None => (acc, s) end
  end.

Definition integer (s : string) : option (json * string) :=
  let '(negative, t) := match s with String c s' => if Ascii.eqb c "-" then (true, s') else (false, s) | "" => (false, s) end in
  match t with
  | "" => None
  | String c _ =>
      match digit c with
      | None => None
      | Some _ => let '(n, rest) := digits 0 t in
                  Some (JInteger (if negative : bool then - Z.of_N n else Z.of_N n)%Z, rest)
      end
  end.

(** The characters up to the closing quote. *)
Fixpoint characters (s : string) : option (string * string) :=
  match s with
  | "" => None
  | String c s' =>
      if (nat_of_ascii c =? 34)%nat then Some ("", s')
      else if plainChar c then '(x, rest) ← characters s'; Some (String c x, rest) else None
  end.

(** The text after a prefix. *)
Fixpoint expect (prefix s : string) : option string :=
  match prefix, s with
  | "", _ => Some s
  | String a p, String b s' => if Ascii.eqb a b then expect p s' else None
  | _, _ => None
  end.

Definition skip_newline (s : string) : string := default s (expect newline s).

Fixpoint value (fuel : nat) (s : string) : option (json * string) :=
  match fuel with
  | O => None
  | S n =>
      match expect "null" s, expect "true" s, expect "false" s, expect dquote s, expect "[" s, expect "{" s with
      | Some rest, _, _, _, _, _ => Some (JNull, rest)
      | _, Some rest, _, _, _, _ => Some (JBool true, rest)
      | _, _, Some rest, _, _, _ => Some (JBool false, rest)
      | _, _, _, Some rest, _, _ => '(x, rest) ← characters rest; Some (JString x, rest)
      | _, _, _, _, Some rest, _ =>
          match expect "]" rest with
          | Some rest => Some (JArray [], rest)
          | None => '(l, rest) ← values n rest; Some (JArray l, rest)
          end
      | _, _, _, _, _, Some rest =>
          match expect "}" rest with
          | Some rest => Some (JObject [], rest)
          | None => '(l, rest) ← members n rest; Some (JObject l, rest)
          end
      | _, _, _, _, _, _ => integer s
      end
  end
with values (fuel : nat) (s : string) : option (list json * string) :=
  match fuel with
  | O => None
  | S n =>
      '(x, rest) ← value n s;
      match expect "," rest, expect "]" rest with
      | Some rest, _ => '(l, rest) ← values n (skip_newline rest); Some (x :: l, rest)
      | _, Some rest => Some ([x], rest)
      | _, _ => None
      end
  end
with members (fuel : nat) (s : string) : option (list (string * json) * string) :=
  match fuel with
  | O => None
  | S n =>
      rest ← expect dquote s;
      '(key, rest) ← characters rest;
      rest ← expect ":" rest;
      '(x, rest) ← value n rest;
      match expect "," rest, expect "}" rest with
      | Some rest, _ => '(l, rest) ← members n rest; Some ((key, x) :: l, rest)
      | _, Some rest => Some ([(key, x)], rest)
      | _, _ => None
      end
  end.

Definition loads (s : string) : option json :=
  match value (2 * String.length s) s with
  | Some (j, "") => if json_is_object j || json_is_array j then Some j else None
  | _ => None
  end.

#[global] Instance reader : Jansson := {| json_loads := loads |}.

(** ** The reader keeps the promise *)

Lemma expect_app (p s : string) : expect p (p ++ s) = Some s.
Proof. induction p as [| c p IH]; [by destruct s |]. change (String c p ++ s) with (String c (p ++ s)). cbn [expect]. by rewrite Ascii.eqb_refl. Qed.

Lemma characters_ok (x rest : string) : plain x = true -> characters (x ++ dquote ++ rest) = Some (x, rest).
Proof.
  induction x as [| c x IH]; intros Hp; [done |]. cbn in Hp. apply andb_true_iff in Hp as [Hc Hp].
  change ((String c x ++ dquote ++ rest)) with (String c (x ++ dquote ++ rest)). cbn [characters].
  destruct (nat_of_ascii c =? 34)%nat eqn:E.
  { unfold plainChar in Hc. rewrite E in Hc. by rewrite andb_false_r in Hc. }
  rewrite Hc, (IH Hp). done.
Qed.

Lemma digit_char (x : N) : (x < 10)%N -> digit (pretty_N_char x) = Some x.
Proof.
  intros H. assert (x = 0 \/ x = 1 \/ x = 2 \/ x = 3 \/ x = 4 \/ x = 5 \/ x = 6 \/ x = 7 \/ x = 8 \/ x = 9)%N as E by lia.
  repeat destruct E as [-> | E]; subst; done.
Qed.

Lemma digits_go (x : N) (s : string) : digits 0 (pretty_N_go x s) = digits x s.
Proof.
  revert s. induction (N.lt_wf_0 x) as [x _ IH]; intros s. destruct (decide (x = 0)%N) as [-> | Hx]; [done |].
  rewrite pretty_N_go_step by lia. rewrite IH by (apply N.div_lt; lia). cbn [digits].
  rewrite digit_char by (apply N.mod_lt; lia). f_equal. pose proof (N.div_mod x 10). lia.
Qed.

(** The remaining text does not continue the number. *)
Definition no_digit (s : string) : Prop := match s with "" => True | String c _ => digit c = None end.

Lemma digits_stop (n : N) (s : string) : no_digit s -> digits n s = (n, s).
Proof. destruct s as [| c s]; [done |]. cbn. by intros ->. Qed.

Lemma go_app (x : N) (s t : string) : pretty_N_go x s ++ t = pretty_N_go x (s ++ t).
Proof.
  revert s. induction (N.lt_wf_0 x) as [x _ IH]; intros s. destruct (decide (x = 0)%N) as [-> | Hx]; [done |].
  rewrite !(pretty_N_go_step x) by lia. by rewrite IH by (apply N.div_lt; lia).
Qed.

(** The text of a positive number starts with a digit. *)
Lemma go_head (x : N) (s : string) : (0 < x)%N -> exists c t, pretty_N_go x s = String c t /\ is_Some (digit c).
Proof.
  revert s. induction (N.lt_wf_0 x) as [x _ IH]; intros s Hx. rewrite pretty_N_go_step by done.
  destruct (decide (x / 10 = 0)%N) as [E | E].
  - rewrite E. eexists _, _. split; [done |]. rewrite digit_char by (apply N.mod_lt; lia). eauto.
  - apply IH; [by apply N.div_lt | by apply N.neq_0_lt_0].
Qed.

Lemma digit_not_minus (c : ascii) : is_Some (digit c) -> Ascii.eqb c "-" = false.
Proof. intros H. destruct (Ascii.eqb_spec c "-") as [-> |]; [by destruct H | done]. Qed.

Lemma positive_ok (x : N) (rest : string) (sign : bool) : (0 < x)%N -> no_digit rest ->
  (match pretty_N_go x rest with
   | "" => None
   | String c _ => match digit c with
                   | None => None
                   | Some _ => let '(n, rest) := digits 0 (pretty_N_go x rest) in
                               Some (JInteger (if sign then - Z.of_N n else Z.of_N n)%Z, rest)
                   end
   end) = Some (JInteger (if sign then - Z.of_N x else Z.of_N x)%Z, rest).
Proof.
  intros Hx Hr. rewrite digits_go, digits_stop by done. destruct (go_head x rest Hx) as (c & t & -> & d & ->). done.
Qed.

Lemma integer_ok (z : Z) (rest : string) : no_digit rest -> integer (pretty z ++ rest) = Some (JInteger z, rest).
Proof.
  intros Hr. destruct z as [| p | p].
  - change (pretty 0%Z ++ rest) with (String "0" rest). unfold integer. cbn -[digits].
    change (digits 0 (String "0" rest)) with (digits 0 rest). by rewrite digits_stop.
  - change (pretty (Z.pos p)) with (pretty_N_go (N.pos p) ""). rewrite go_app. change ("" ++ rest) with rest. unfold integer.
    destruct (go_head (N.pos p) rest ltac:(lia)) as (c & t & E & Hd). pose proof (positive_ok (N.pos p) rest false ltac:(lia) Hr) as Hp.
    rewrite E in Hp |- *. rewrite (digit_not_minus c Hd). exact Hp.
  - change (pretty (Z.neg p)) with ("-" ++ pretty_N_go (N.pos p) ""). rewrite string_app_assoc, go_app. change ("" ++ rest) with rest.
    exact (positive_ok (N.pos p) rest true ltac:(lia) Hr).
Qed.

(** [value] reads the texts of a document in front of anything that does not continue a number. *)
Definition readable (j : json) : Prop :=
  forall s rest fuel, text_of j s -> no_digit rest -> (2 * String.length s <= fuel)%nat -> value fuel (s ++ rest) = Some (j, rest).

(** ** The first character of a text *)

Definition starter (c : ascii) : bool :=
  bool_decide (nat_of_ascii c ∈ [110; 116; 102; 34; 91; 123; 45; 48; 49; 50; 51; 52; 53; 54; 55; 56; 57]%nat).

Lemma starter_digit (c : ascii) : is_Some (digit c) -> starter c = true.
Proof.
  intros [d E]. unfold digit in E. destruct ((48 <=? N_of_ascii c)%N && (N_of_ascii c <=? 57)%N) eqn:Eb; [| done].
  apply andb_true_iff in Eb as [H1 H2]. apply N.leb_le in H1, H2. apply bool_decide_eq_true. unfold nat_of_ascii.
  rewrite !elem_of_cons. lia.
Qed.

Lemma starter_ne (c d : ascii) : starter c = true -> starter d = false -> Ascii.eqb d c = false.
Proof. intros Hc Hd. destruct (Ascii.eqb_spec d c) as [-> |]; congruence. Qed.

Lemma text_head (j : json) (s : string) : text_of j s -> exists c t, s = String c t /\ starter c = true.
Proof.
  destruct j as [| b | z | x | l | l].
  - intros ->. by eexists _, _.
  - intros ->. by destruct b; eexists _, _.
  - intros [-> _]. destruct z as [| p | p]; [by eexists _, _ | | by eexists _, _].
    destruct (go_head (N.pos p) "" ltac:(lia)) as (c & t & E & Hd). exists c, t. split; [exact E | by apply starter_digit].
  - intros [-> _]. by eexists _, _.
  - intros (sep & ts & _ & -> & _). by eexists _, _.
  - intros (ts & -> & _). by eexists _, _.
Qed.

Lemma expect_head (a c : ascii) (p s : string) : starter c = true -> starter a = false -> expect (String a p) (String c s) = None.
Proof. intros Hc Ha. cbn [expect]. by rewrite starter_ne. Qed.

(** ** Arrays and objects *)

Lemma values_ok (l : list json) (ts : list string) (sep rest : string) (fuel : nat) :
  Forall readable l -> Forall2 text_of l ts -> l <> [] -> sep = "," \/ sep = "," ++ newline ->
  (2 * String.length (join sep ts) < fuel)%nat -> values fuel (join sep ts ++ "]" ++ rest) = Some (l, rest).
Proof.
  intros Hl. revert ts fuel. induction Hl as [| x l Hx Hl IH]; intros ts fuel Ht Hne Hsep Hf; [done |].
  inversion Ht as [| ? t ? ts' Htx Hts]; subst. destruct fuel as [| fuel]; [lia |]. cbn [values].
  destruct l as [| y l].
  - inversion Hts; subst. cbn [join] in *. rewrite (Hx t ("]" ++ rest)) by (done || lia). done.
  - inversion Hts as [| ? t' ? ts'' Hty Hts']; subst.
    change (join sep (t :: t' :: ts'')) with (t ++ sep ++ join sep (t' :: ts'')) in *.
    rewrite !string_length_app in Hf. rewrite !string_app_assoc.
    assert (Hs : exists u, sep = "," ++ u /\ skip_newline (u ++ join sep (t' :: ts'') ++ "]" ++ rest) = join sep (t' :: ts'') ++ "]" ++ rest).
    { destruct Hsep as [-> | ->]; [exists "" | exists newline]; (split; [done |]); unfold skip_newline.
      - destruct (text_head y t' Hty) as (c & k & -> & Hc).
        assert (exists k', join "," (String c k :: ts'') ++ "]" ++ rest = String c k') as [k' ->] by (destruct ts''; eexists; done).
        change ("" ++ String c k') with (String c k'). unfold newline. by rewrite expect_head.
      - by rewrite expect_app. }
    destruct Hs as (u & Eu & Hskip). rewrite Eu at 1. rewrite string_app_assoc.
    rewrite (Hx t) by (done || lia). cbn [mbind option_bind]. rewrite expect_app, Hskip.
    rewrite (IH (t' :: ts'')); [done | done | done | done |].
    assert (1 <= String.length sep)%nat by (rewrite Eu, string_length_app; cbn [String.length]; lia). lia.
Qed.

Lemma members_ok (l : list (string * json)) (ts : list string) (rest : string) (fuel : nat) :
  Forall (fun m => readable m.2) l -> Forall2 member_text l ts -> l <> [] ->
  (2 * String.length (join "," ts) < fuel)%nat -> members fuel (join "," ts ++ "}" ++ rest) = Some (l, rest).
Proof.
  intros Hl. revert ts fuel. induction Hl as [| [k x] l Hx Hl IH]; intros ts fuel Ht Hne Hf; [done |].
  inversion Ht as [| ? t ? ts' (u & Eu & Hk & Htx) Hts]; subst. cbn [fst snd] in *. destruct fuel as [| fuel]; [lia |]. cbn [members].
  destruct l as [| y l].
  - inversion Hts; subst. cbn [join] in *. unfold quoted in *. rewrite !string_length_app in Hf. rewrite !string_app_assoc.
    rewrite expect_app. cbn [mbind option_bind]. rewrite characters_ok by done. cbn [mbind option_bind]. rewrite expect_app. cbn [mbind option_bind].
    rewrite (Hx u ("}" ++ rest)) by (done || lia). done.
  - inversion Hts as [| ? t' ? ts'' Hty Hts']; subst.
    change (join "," ((quoted k ++ ":" ++ u) :: t' :: ts'')) with ((quoted k ++ ":" ++ u) ++ "," ++ join "," (t' :: ts'')) in *.
    unfold quoted in *. rewrite !string_length_app in Hf. rewrite !string_app_assoc.
    rewrite expect_app. cbn [mbind option_bind]. rewrite characters_ok by done. cbn [mbind option_bind]. rewrite expect_app. cbn [mbind option_bind].
    rewrite (Hx u) by (done || lia). cbn [mbind option_bind]. rewrite expect_app.
    rewrite (IH (t' :: ts'')); [done | done | done |]. cbn [String.length] in Hf. lia.
Qed.

Lemma value_integer (n : nat) (c : ascii) (t : string) :
  c = "-"%char \/ is_Some (digit c) -> value (S n) (String c t) = integer (String c t).
Proof.
  intros Hc. assert (Hne : forall a p, a <> "-"%char -> digit a = None -> expect (String a p) (String c t) = None).
  { intros a p Ha Hd. cbn [expect]. destruct (Ascii.eqb_spec a c) as [-> |]; [| done].
    destruct Hc as [-> | [d Ed]]; [done | congruence]. }
  cbn [value]. unfold dquote. by rewrite !Hne by done.
Qed.

Lemma value_array (n : nat) (s : string) :
  value (S n) ("[" ++ s) = match expect "]" s with Some rest => Some (JArray [], rest) | None => '(l, rest) ← values n s; Some (JArray l, rest) end.
Proof. done. Qed.

Lemma value_object (n : nat) (s : string) :
  value (S n) ("{" ++ s) = match expect "}" s with Some rest => Some (JObject [], rest) | None => '(l, rest) ← members n s; Some (JObject l, rest) end.
Proof. done. Qed.

Lemma joined_head (sep : string) (t k : string) (ts : list string) (c : ascii) :
  t = String c k -> exists k', forall rest, join sep (t :: ts) ++ rest = String c (k' ++ rest).
Proof. intros ->. destruct ts as [| u ts]; [by exists k |]. by exists (k ++ sep ++ join sep (u :: ts)). Qed.

Lemma value_ok (j : json) : readable j.
Proof.
  induction j as [| b | z | x | l IH | l IH] using json_nested_ind; intros s rest fuel Ht Hr Hf.
  - rewrite Ht in *. destruct fuel; [cbn in Hf; lia | done].
  - rewrite Ht in *. destruct fuel; [destruct b; cbn in Hf; lia | by destruct b].
  - pose proof (text_head _ _ Ht) as (c & t & E & _). destruct Ht as [-> _]. destruct fuel as [| n]; [rewrite E in Hf; cbn in Hf; lia |].
    assert (Hc : c = "-"%char \/ is_Some (digit c)).
    { destruct z as [| p | p]; [injection E as <- _; right; by eexists | | injection E as <- _; by left].
      destruct (go_head (N.pos p) "" ltac:(lia)) as (c' & t' & E' & Hd). change (pretty (Z.pos p)) with (pretty_N_go (N.pos p) "") in E.
      rewrite E' in E. injection E as <- <-. by right. }
    rewrite E at 1. change (String c t ++ rest) with (String c (t ++ rest)). rewrite value_integer by done.
    change (String c (t ++ rest)) with (String c t ++ rest). rewrite <- E. by apply integer_ok.
  - destruct Ht as [-> Hp]. destruct fuel as [| n]; [unfold quoted in Hf; rewrite string_length_app in Hf; cbn [dquote String.length] in Hf; lia |]. unfold quoted. rewrite !string_app_assoc.
    change (value (S n) (dquote ++ x ++ dquote ++ rest)) with ('(x, rest) ← characters (x ++ dquote ++ rest); Some (JString x, rest)).
    by rewrite characters_ok.
  - destruct (array_texts _ _ Ht) as (sep & ts & Hsep & -> & Hts). rewrite !string_length_app in Hf. cbn [String.length] in Hf.
    destruct fuel as [| n]; [lia |]. rewrite !string_app_assoc, value_array. destruct Hts as [| x t l ts Hx Hts]; [done |].
    destruct (text_head _ _ Hx) as (c & k & E & Hc). destruct (joined_head sep t k ts c E) as [k' Ek]. rewrite Ek at 1. rewrite expect_head by done.
    rewrite values_ok with (l := x :: l) by (done || (by constructor) || lia). done.
  - destruct (object_texts _ _ Ht) as (ts & -> & Hts). rewrite !string_length_app in Hf. cbn [String.length] in Hf.
    destruct fuel as [| n]; [lia |]. rewrite !string_app_assoc, value_object. destruct Hts as [| x t l ts Hx Hts]; [done |].
    destruct Hx as (u & Eu & Hm). destruct (joined_head "," t (x.1 ++ dquote ++ ":" ++ u) ts (Ascii.ascii_of_nat 34)) as [k' Ek]; [by rewrite Eu; unfold quoted; rewrite !string_app_assoc |].
    rewrite Ek at 1. rewrite expect_head by done.
    rewrite members_ok with (l := x :: l) by (done || (constructor; [by exists u | done]) || lia). done.
Qed.

#[global] Instance reader_laws : JanssonLaws.
Proof.
  constructor. intros j s Ht Hk _. change (loads s = Some j). unfold loads. pose proof (value_ok j s "" (2 * String.length s) Ht I ltac:(lia)) as E.
  rewrite string_app_nil_r in E. rewrite E. by destruct Hk as [-> | ->]; rewrite ?orb_true_r.
Qed.

End JsonReader.
