(* ===== verification/Odometer.v ===== *)
(** Mixed radix counters: the nested loops over coordinates that several components run
    as one loop with an array of counters. *)

From S2P Require Import Prelude.

(** * Products *)

Definition prod (l : list Z) : Z := foldr Z.mul 1 l.

Lemma prod_pos (l : list Z) : Forall (fun s => 0 < s) l -> 0 < prod l.
Proof. induction 1 as [| s l Hs _ IH]; simpl; [lia | nia]. Qed.

#[global] Instance prod_perm : Proper ((≡ₚ) ==> (=)) prod.
Proof.
  intros k l Hp. unfold prod. induction Hp as [| x k l _ IH | x y k | k l m _ IH1 _ IH2]; simpl; [done | | lia | congruence].
  by rewrite IH.
Qed.

(** * Digits *)

(** Mixed radix digits, least significant first. *)
Fixpoint digits (ns : list Z) (j : Z) : list Z :=
  match ns with
  | [] => []
  | n :: ns' => j mod n :: digits ns' (j / n)
  end.

Lemma succ_digit (n j : Z) :
  0 < n -> (j mod n + 1 < n -> (j + 1) mod n = j mod n + 1 /\ (j + 1) / n = j / n) /\
  (n <= j mod n + 1 -> (j + 1) mod n = 0 /\ (j + 1) / n = j / n + 1 /\ j mod n + 1 = n).
Proof.
  intros Hn. pose proof (Z.div_mod j n ltac:(lia)) as E. pose proof (Z.mod_pos_bound j n Hn) as B. split; intros H.
  - split; [symmetry; apply (Z.mod_unique_pos _ _ (j / n)) | symmetry; apply (Z.div_unique_pos _ _ _ (j mod n + 1))]; lia.
  - assert (j mod n + 1 = n) as Heq by lia.
    split; [symmetry; apply (Z.mod_unique_pos _ _ (j / n + 1)); lia |].
    split; [symmetry; apply (Z.div_unique_pos _ _ _ 0); lia | done].
Qed.

Lemma digits_bounds (ns : list Z) (j : Z) :
  Forall (fun n => 0 < n) ns -> Forall2 (fun c n => 0 <= c < n) (digits ns j) ns.
Proof.
  intros Hn. revert j. induction Hn as [| n ns Hn _ IH]; intros j; constructor; [| apply IH].
  by apply Z.mod_pos_bound.
Qed.

Lemma digits_onto (ns cs : list Z) :
  Forall2 (fun c n => 0 <= c < n) cs ns -> exists j, 0 <= j < prod ns /\ digits ns j = cs.
Proof.
  induction 1 as [| c n cs ns Hc _ (j & Hj & E)]; [by exists 0 |].
  exists (c + n * j). change (prod (n :: ns)) with (n * prod ns). split; [nia |]. cbn [digits].
  rewrite <- E. f_equal.
  - symmetry. apply (Z.mod_unique_pos _ _ j); lia.
  - f_equal. symmetry. apply (Z.div_unique_pos _ _ _ c); lia.
Qed.

(** Any values at distinct dimensions are the values of one function. *)
Lemma values_function (ks : list nat) (cs : list Z) :
  NoDup ks -> length cs = length ks -> exists i : nat -> Z, i <$> ks = cs.
Proof.
  revert cs. induction ks as [| k ks IH]; intros [| c cs] Hnd Hlen; simpl in Hlen; try lia.
  { by exists (fun _ => 0). }
  apply NoDup_cons in Hnd as [Hk Hnd]. destruct (IH cs Hnd ltac:(lia)) as [i Hi].
  exists (fun x => if decide (x = k) then c else i x). csimpl. rewrite decide_True by done. f_equal.
  rewrite <- Hi. apply list_fmap_ext. intros p x Hx. rewrite decide_False; [done |].
  intros ->. apply Hk. by eapply list_elem_of_lookup_2.
Qed.

Lemma digits_inj (ns : list Z) (j k : Z) :
  Forall (fun n => 0 < n) ns -> 0 <= j < prod ns -> 0 <= k < prod ns -> digits ns j = digits ns k -> j = k.
Proof.
  intros Hn. revert j k. induction Hn as [| n ns Hn Hns IH]; intros j k Hj Hk E; [simpl in *; lia |].
  change (prod (n :: ns)) with (n * prod ns) in *. cbn [digits] in E. injection E as Em Ed.
  pose proof (prod_pos ns Hns). pose proof (Z.div_mod j n ltac:(lia)). pose proof (Z.div_mod k n ltac:(lia)).
  assert (j / n = k / n); [| lia].
  apply IH; [| | done]; (split; [apply Z.div_pos; lia | apply Z.div_lt_upper_bound; lia]).
Qed.

(** * Advancing a counter vector *)

(** [for(i = n; i--; ) { if(++counters[i] < limits[i]) break; counters[i] = 0; }], innermost
    counter first; the flag is set when the loop ran through without a [break]. *)
Fixpoint advanceCoords (limits counters : list Z) : list Z * bool :=
  match limits, counters with
  | n :: limits', c :: counters' =>
      if c + 1 <? n then (c + 1 :: counters', false)
      else let '(cs, carry) := advanceCoords limits' counters' in (0 :: cs, carry)
  | _, _ => ([], true)
  end.

Lemma zero_digits_replicate (ns : list Z) : digits ns 0 = replicate (length ns) 0.
Proof. induction ns as [| n ns IH]; [done |]. simpl. by rewrite Zmod_0_l, Zdiv_0_l, IH. Qed.

Lemma advanceCoords_digits (ns : list Z) (j : Z) :
  Forall (fun n => 0 < n) ns -> 0 <= j < prod ns ->
  advanceCoords ns (digits ns j) =
    if j + 1 <? prod ns then (digits ns (j + 1), false) else (digits ns 0, true).
Proof.
  intros Hn. revert j. induction Hn as [| n ns Hn Hns IH]; intros j Hj.
  { simpl in *. by rewrite (proj2 (Z.ltb_ge _ _)) by lia. }
  change (prod (n :: ns)) with (n * prod ns) in *. cbn [digits advanceCoords].
  pose proof (prod_pos ns Hns) as Hp. destruct (succ_digit n j Hn) as [H1 H2].
  pose proof (Z.div_mod j n ltac:(lia)) as Hdm. pose proof (Z.mod_pos_bound j n Hn) as Hmod.
  assert (Hq : 0 <= j / n < prod ns) by (split; [apply Z.div_pos; lia | apply Z.div_lt_upper_bound; lia]).
  destruct (Z.ltb_spec (j mod n + 1) n) as [Hlt | Hge].
  - destruct (H1 Hlt) as [-> ->]. assert (n * (j / n + 1) <= n * prod ns) by (apply Z.mul_le_mono_nonneg_l; lia).
    by rewrite (proj2 (Z.ltb_lt (j + 1) _)) by lia.
  - destruct (H2 Hge) as (-> & -> & Heq). rewrite (IH _ Hq).
    assert ((j + 1 <? n * prod ns) = (j / n + 1 <? prod ns)) as ->.
    { destruct (Z.ltb_spec (j / n + 1) (prod ns)), (Z.ltb_spec (j + 1) (n * prod ns)); try done; nia. }
    rewrite Zmod_0_l, Zdiv_0_l. by destruct (_ <? _).
Qed.

Lemma digits_snoc (ns : list Z) (m j : Z) :
  Forall (fun n => 0 < n) ns -> digits (ns ++ [m]) j = digits ns j ++ [(j / prod ns) mod m].
Proof.
  intros Hn. revert j. induction Hn as [| n ns Hn Hns IH]; intros j; cbn [app digits].
  { change (prod []) with 1. by rewrite Z.div_1_r. }
  rewrite IH. change (prod (n :: ns)) with (n * prod ns). pose proof (prod_pos ns Hns).
  by rewrite Z.div_div by lia.
Qed.

Lemma digits_mod (ns : list Z) (j : Z) :
  Forall (fun n => 0 < n) ns -> digits ns (j mod prod ns) = digits ns j.
Proof.
  intros Hn. revert j. induction Hn as [| n ns Hn Hns IH]; intros j; [done |]. cbn [digits].
  change (prod (n :: ns)) with (n * prod ns). pose proof (prod_pos ns Hns) as Hp.
  rewrite Z.rem_mul_r by lia. f_equal.
  - rewrite (Z.mul_comm n), Z.mod_add by lia. apply Z.mod_mod. lia.
  - rewrite <- (IH (j / n)). f_equal. rewrite (Z.mul_comm n), Z.div_add by lia.
    rewrite (Z.div_small (j mod n)) by (apply Z.mod_pos_bound; lia). lia.
Qed.

(** Advancing from any number, with the carry. *)
Lemma advanceCoords_mod (ns : list Z) (j : Z) :
  Forall (fun n => 0 < n) ns -> 0 <= j ->
  exists carry, advanceCoords ns (digits ns j) = (digits ns (j + 1), carry) /\
  (j + 1) / prod ns = (if carry then j / prod ns + 1 else j / prod ns).
Proof.
  intros Hn Hj. pose proof (prod_pos ns Hn) as Hp. destruct (succ_digit (prod ns) j Hp) as [H1 H2].
  pose proof (Z.mod_pos_bound j (prod ns) Hp) as Hb.
  rewrite <- (digits_mod ns j Hn), advanceCoords_digits by done.
  rewrite <- (digits_mod ns (j + 1) Hn).
  destruct (Z.ltb_spec (j mod prod ns + 1) (prod ns)) as [Hlt | Hge].
  - destruct (H1 Hlt) as [-> ->]. by exists false.
  - destruct (H2 Hge) as (-> & -> & _). by exists true.
Qed.
