(* ===== verification/Dataspace.v ===== *)
(** Dataspaces (src/esdm-datatypes.c): shapes, strides, element addresses, subspaces
    and their metadata. *)

From S2P Require Import Prelude Hypercube Json Odometer.

Open Scope Z_scope.

(** * Data *)

(** [esdm_status] of src/include/esdm-datatypes.h. *)
Inductive esdm_status :=
| ESDM_SUCCESS
| ESDM_ERROR
| ESDM_INVALID_ARGUMENT_ERROR
| ESDM_INVALID_STATE_ERROR
| ESDM_INVALID_DATA_ERROR
| ESDM_INVALID_PERMISSIONS
| ESDM_INCOMPLETE_DATA
| ESDM_DIRTY_DATA_ERROR
| ESDM_DELETED_DATA_ERROR.

#[global] Instance esdm_status_eq_dec : EqDecision esdm_status.
Proof. solve_decision. Defined.

(** [esdm_type_t] is a pointer to a type description; [type_id] is its identity. *)
Record esdm_type_t := Type_ { type_id : Z; type_size : Z }.

#[global] Instance esdm_type_eq_dec : EqDecision esdm_type_t.
Proof. solve_decision. Defined.

(** The macro [esdm_sizeof(type)]. *)
Definition esdm_sizeof (type : esdm_type_t) : Z := type_size type.

(** [strideBacking] tells whether a stack buffer for a stride is attached; [stride]
    is [None] for the contiguous C order layout. *)
Record esdm_dataspace_t := Dataspace {
  type : esdm_type_t;
  dims : Z;
  size : list Z;
  offset : list Z;
  strideBacking : bool;
  stride : option (list Z)
}.

(** * Constructors and accessors *)

(** [ea_memdup()] of [count] array elements. *)
Definition memdup (data : list Z) (count : Z) : outcome (list Z) :=
  mapM (fun i => deref (data !! i)) (seq 0 (Z.to_nat count)).

Definition esdm_dataspace_create_full (dims : Z) (sizes offset : list Z) (type : esdm_type_t)
    : outcome esdm_dataspace_t :=
  eassert (dims >=? 0);;
  size' ← memdup sizes dims;
  offset' ← memdup offset dims;
  mret (Dataspace type dims size' offset' false None).

Definition esdm_dataspace_create (dims : Z) (sizes : list Z) (type : esdm_type_t) : outcome esdm_dataspace_t :=
  eassert (dims >=? 0);;
  esdm_dataspace_create_full dims sizes (replicate (Z.to_nat dims) 0) type.

Definition esdmI_dataspace_createFromHypercube (extends : esdmI_hypercube_t) (type : esdm_type_t)
    : outcome esdm_dataspace_t :=
  let dimensions := esdmI_hypercube_dimensions extends in
  eassert (dimensions >=? 0);;
  '(offset, size) ← esdmI_hypercube_getOffsetAndSize extends;
  mret (Dataspace type dimensions size offset false None).

Definition esdm_dataspace_copy (orig : esdm_dataspace_t) : outcome esdm_dataspace_t :=
  size' ← memdup (size orig) (dims orig);
  offset' ← memdup (offset orig) (dims orig);
  stride' ← match stride orig with
            | Some s => s' ← memdup s (dims orig); mret (Some s')
            | None => mret None
            end;
  mret (Dataspace (type orig) (dims orig) size' offset' false stride').

Definition esdmI_dataspace_getExtends (space : esdm_dataspace_t) : outcome esdmI_hypercube_t :=
  esdmI_hypercube_make (dims space) (offset space) (size space).

Definition esdmI_dataspace_setExtends (space : esdm_dataspace_t) (extends : esdmI_hypercube_t)
    : outcome esdm_dataspace_t :=
  eassert (dims space =? esdmI_hypercube_dimensions extends);;
  '(offset', size') ← esdmI_hypercube_getOffsetAndSize extends;
  mret (Dataspace (type space) (dims space) size' offset' (strideBacking space) (stride space)).

Definition esdm_dataspace_get_dims (d : esdm_dataspace_t) : Z := dims d.
Definition esdm_dataspace_get_size (d : esdm_dataspace_t) : list Z := size d.
Definition esdm_dataspace_get_offset (d : esdm_dataspace_t) : list Z := offset d.
Definition esdm_dataspace_get_type (d : esdm_dataspace_t) : esdm_type_t := type d.

(** [uint64_t size = 1; for(...) size *= subspace->size[i];] *)
Definition esdm_dataspace_element_count (subspace : esdm_dataspace_t) : outcome Z :=
  sizes ← memdup (size subspace) (dims subspace);
  mret (foldl (fun acc s => u64 (acc * s)) 1 sizes).

(** The unsigned product is stored into an [int64_t]. *)
Definition to_int64 (z : Z) : Z := let w := u64 z in if w <=? INT64_MAX then w else w - 2 ^ 64.

Definition esdm_dataspace_total_bytes (d : esdm_dataspace_t) : outcome Z :=
  elements ← esdm_dataspace_element_count d;
  mret (to_int64 (elements * esdm_sizeof (type d))).

(** * Strides and addresses *)

(** [abs_int64()] of src/esdm-scheduler.c: [a > 0 ? a : -a]. *)
Definition abs_int64 (a : Z) : outcome Z := if a >? 0 then mret a else chk64 (- a).

(** [for(i = dims; i--; curSize *= size[i]) out_stride[i] = curSize;] from index [i]
    downwards; [acc] is the part of the array that is written already. *)
Fixpoint effectiveStride_loop (i : nat) (curSize : Z) (size acc : list Z) : outcome (list Z) :=
  match i with
  | O => mret acc
  | S i' =>
      s ← deref (size !! i');
      curSize' ← chk64 (curSize * s);
      effectiveStride_loop i' curSize' size (curSize :: acc)
  end.

Definition esdm_dataspace_getEffectiveStride (space : esdm_dataspace_t) : outcome (list Z) :=
  match stride space with
  | Some s => memdup s (dims space)
  | None => effectiveStride_loop (Z.to_nat (dims space)) 1 (size space) []
  end.

(** The loop of [esdm_dataspace_elementOffset()], from index [i] downwards. *)
Fixpoint elementOffset_loop (i : nat) (space : esdm_dataspace_t) (coords : list Z) (acc curSize : Z) : outcome Z :=
  match i with
  | O => mret acc
  | S i' =>
      curStride ← match stride space with
                  | Some s => deref (s !! i')
                  | None => mret curSize
                  end;
      c ← deref (coords !! i');
      o ← deref (offset space !! i');
      distance ← chk64 (c - o);
      step ← chk64 (distance * curStride);
      acc' ← chk64 (acc + step);
      s ← deref (size space !! i');
      curSize' ← chk64 (curSize * s);
      elementOffset_loop i' space coords acc' curSize'
  end.

(** The element size is unsigned: the closing product wraps and is returned as an
    [int64_t]. *)
Definition esdm_dataspace_elementOffset (space : esdm_dataspace_t) (coords : list Z) : outcome Z :=
  result ← elementOffset_loop (Z.to_nat (dims space)) space coords 0 1;
  mret (to_int64 (result * esdm_sizeof (type space))).

(** A stack buffer is used when there is one, a heap buffer otherwise; either is
    overwritten completely by the callers. *)
Definition setStrideBuffer (space : esdm_dataspace_t) (contents : list Z) : esdm_dataspace_t :=
  Dataspace (type space) (dims space) (size space) (offset space) (strideBacking space) (Some contents).

Definition removeStrideBuffer (space : esdm_dataspace_t) : esdm_dataspace_t :=
  Dataspace (type space) (dims space) (size space) (offset space) (strideBacking space) None.

Definition esdm_dataspace_set_stride (space : esdm_dataspace_t) (stride : list Z)
    : outcome (esdm_status * esdm_dataspace_t) :=
  s ← memdup stride (dims space);
  mret (ESDM_SUCCESS, setStrideBuffer space s).

(** [for(i = 1; i < dims && !haveMismatch; i++) haveMismatch = a[i] != b[i];] *)
Fixpoint sizeMismatch_loop (i n : nat) (a b : list Z) : outcome bool :=
  match n with
  | O => mret false
  | S n' =>
      x ← deref (a !! i);
      y ← deref (b !! i);
      if negb (x =? y) then mret true else sizeMismatch_loop (S i) n' a b
  end.

Definition esdm_dataspace_copyDatalayout (space source : esdm_dataspace_t)
    : outcome (esdm_status * esdm_dataspace_t) :=
  eassert (dims space =? dims source);;
  let space := removeStrideBuffer space in
  needed ← match stride source with
           | Some _ => mret true
           | None => sizeMismatch_loop 1 (Z.to_nat (dims space) - 1) (size space) (size source)
           end;
  if (needed : bool) then
    s ← esdm_dataspace_getEffectiveStride source;
    mret (ESDM_SUCCESS, setStrideBuffer space s)
  else mret (ESDM_SUCCESS, space).

(** * Subspaces *)

(** One dimension of the consistency check; [false] is an invalid argument. *)
Definition subspace_checkDim (dataspace : esdm_dataspace_t) (size' offset' : list Z) (i : nat) : outcome bool :=
  s ← deref (size' !! i);
  o ← deref (offset' !! i);
  so ← deref (offset dataspace !! i);
  ss ← deref (size dataspace !! i);
  inside ← (if negb (ss =? 0) then
              e ← chk64 (o + s);
              se ← chk64 (so + ss);
              mret (negb (e >? se))
            else mret true);
  mret (negb (s <=? 0) && negb (o <? 0) && negb (o <? so) && inside).

Definition esdm_dataspace_subspace (dataspace : esdm_dataspace_t) (dims' : Z) (size' offset' : list Z)
    : outcome (esdm_status * option esdm_dataspace_t) :=
  if negb (dims' =? dims dataspace) then mret (ESDM_INVALID_ARGUMENT_ERROR, None)
  else
    ok ← mapM (subspace_checkDim dataspace size' offset') (seq 0 (Z.to_nat dims'));
    if forallb id ok then
      s ← memdup size' dims';
      o ← memdup offset' dims';
      mret (ESDM_SUCCESS, Some (Dataspace (type dataspace) dims' s o false None))
    else mret (ESDM_INVALID_ARGUMENT_ERROR, None).

Definition esdm_dataspace_makeContiguous (dataspace : esdm_dataspace_t)
    : outcome (esdm_status * option esdm_dataspace_t) :=
  esdm_dataspace_subspace dataspace (dims dataspace) (size dataspace) (offset dataspace).

(** * Metadata *)

Definition serializeArray (name : string) (count : Z) (data : list Z) : outcome string :=
  values ← memdup data count;
  mret (quoted name ++ ":[" ++ printed_list true (map pretty values) ++ "]")%string.

Definition esdm_dataspace_serialize (space : esdm_dataspace_t) : outcome string :=
  s ← serializeArray "size" (dims space) (size space);
  o ← serializeArray "offset" (dims space) (offset space);
  t ← match stride space with
      | Some st => t ← serializeArray "stride" (dims space) st; mret ("," ++ t)%string
      | None => mret ""%string
      end;
  mret ("{" ++ s ++ "," ++ o ++ t ++ "}")%string.

(** An array member of integers with exactly [n] elements; [None] for [goto fail]. *)
Definition integerArray (n : Z) (j : json) : option (list Z) :=
  if json_is_array j then
    if n =? json_array_size j then
      if forallb json_is_integer (json_elements j) then Some (json_integer_value <$> json_elements j)
      else None
    else None
  else None.

(** The type and rank are those of the dataset's dataspace. *)
Definition esdmI_dataspace_createFromJson (json : json) (datasetSpace : esdm_dataspace_t)
    : esdm_status * option esdm_dataspace_t :=
  let fail := (ESDM_INVALID_DATA_ERROR, None) in
  if negb (json_is_object json) then fail
  else
    match jansson_object_get json "size", jansson_object_get json "offset" with
    | Some sizeJson, Some offsetJson =>
        match integerArray (dims datasetSpace) sizeJson, integerArray (dims datasetSpace) offsetJson with
        | Some s, Some o =>
            let result st := (ESDM_SUCCESS, Some (Dataspace (type datasetSpace) (dims datasetSpace) s o false st)) in
            match jansson_object_get json "stride" with
            | Some strideJson =>
                match integerArray (dims datasetSpace) strideJson with
                | Some st => result (Some st)
                | None => fail
                end
            | None => result None
            end
        | _, _ => fail
        end
    | _, _ => fail
    end.

(** * Well-formed dataspaces *)

(** The arrays have one entry per dimension. *)
Record space_wf (space : esdm_dataspace_t) : Prop := {
  wf_dims : 0 <= dims space;
  wf_size : Z.of_nat (length (size space)) = dims space;
  wf_offset : Z.of_nat (length (offset space)) = dims space;
  wf_stride : forall s, stride space = Some s -> Z.of_nat (length s) = dims space
}.

Lemma deref_seq (data : list Z) (k i : nat) :
  (i + k = length data)%nat -> mapM (fun j => deref (data !! j)) (seq i k) = Done (drop i data).
Proof.
  revert i. induction k as [| k IH]; intros i Hi.
  - rewrite drop_ge by lia. done.
  - destruct (lookup_lt_is_Some_2 data i) as [x Hx]; [lia |].
    cbn [seq]. rewrite mapM_cons, Hx. run. rewrite IH by lia. run.
    by rewrite (drop_S data x i Hx).
Qed.

Lemma memdup_ok (data : list Z) (count : Z) :
  Z.of_nat (length data) = count -> memdup data count = Done data.
Proof. intros <-. unfold memdup. rewrite Nat2Z.id. by apply (deref_seq data _ 0). Qed.

(** * Row-major strides *)

Fixpoint cstrides (sizes : list Z) : list Z :=
  match sizes with
  | [] => []
  | _ :: rest => prod rest :: cstrides rest
  end.

Lemma length_cstrides (sizes : list Z) : length (cstrides sizes) = length sizes.
Proof. induction sizes as [| s sizes IH]; [done |]. simpl. by rewrite IH. Qed.

(** The strides in effect. *)
Definition eff (space : esdm_dataspace_t) : list Z :=
  match stride space with
  | Some s => s
  | None => cstrides (size space)
  end.

(** * Dataspaces whose element offsets are representable *)

(** The number of elements is an [int64_t]; an empty dimension counts as one. *)
Definition count_fits (space : esdm_dataspace_t) : Prop :=
  Forall (fun s => 0 <= s) (size space) /\ prod (Z.max 1 <$> size space) <= INT64_MAX.

(** The largest distance of two elements. *)
Fixpoint reach (sizes st : list Z) : Z :=
  match sizes, st with
  | s :: sizes', t :: st' => (Z.max 1 s - 1) * Z.abs t + reach sizes' st'
  | _, _ => 0
  end.

(** The size of the data, the byte offsets of the elements, the length in bytes of each dimension, and the
    difference of a stride and a partial run of another dimension are [int64_t] values. *)
Record space_fits (space : esdm_dataspace_t) : Prop := {
  sf_count : count_fits space;
  sf_bytes : prod (Z.max 1 <$> size space) * esdm_sizeof (type space) <= INT64_MAX;
  sf_reach : reach (size space) (eff space) * esdm_sizeof (type space) <= INT64_MAX;
  sf_run : forall k s t, size space !! k = Some s -> eff space !! k = Some t ->
    Z.max 1 s * Z.abs t * esdm_sizeof (type space) <= INT64_MAX;
  sf_relative : forall j k s t u n, size space !! k = Some s -> eff space !! k = Some t -> eff space !! j = Some u ->
    0 <= n <= s ->
    INT64_MIN <= u * esdm_sizeof (type space) - n * (t * esdm_sizeof (type space)) <= INT64_MAX
}.

Lemma int64_min : INT64_MIN = - INT64_MAX - 1 /\ 0 < INT64_MAX.
Proof. done. Qed.

Lemma abs_int64_ok (a : Z) : Z.abs a <= INT64_MAX -> abs_int64 a = Done (Z.abs a).
Proof.
  intros Ha. unfold abs_int64. pose proof int64_min. rewrite Z.gtb_ltb. destruct (Z.ltb_spec 0 a).
  - by rewrite Z.abs_eq by lia.
  - rewrite chk64_ok by lia. f_equal. lia.
Qed.

Lemma to_int64_id (z : Z) : INT64_MIN <= z <= INT64_MAX -> to_int64 z = z.
Proof.
  intros H. unfold to_int64, u64. unfold INT64_MIN, INT64_MAX in *. destruct (Z.leb_spec 0 z) as [Hz | Hz].
  - rewrite Z.mod_small by lia. by rewrite (proj2 (Z.leb_le _ _)) by lia.
  - replace (z mod 2 ^ 64) with (z + 2 ^ 64).
    + rewrite (proj2 (Z.leb_gt _ _)) by lia. lia.
    + apply Z.mod_unique with (-1); lia.
Qed.

(** Non-linear arithmetic over the spans [Z.max 1 s] of the dimensions. *)
Ltac span_nia :=
  repeat match goal with
  | H : context [Z.max 1 ?s] |- _ =>
      let m := fresh "m" in let E := fresh "E" in remember (Z.max 1 s) as m eqn:E; apply eq_sym in E;
      pose proof (Z.le_max_l 1 s); pose proof (Z.le_max_r 1 s); rewrite E in *; clear E
  | |- context [Z.max 1 ?s] =>
      let m := fresh "m" in let E := fresh "E" in remember (Z.max 1 s) as m eqn:E; apply eq_sym in E;
      pose proof (Z.le_max_l 1 s); pose proof (Z.le_max_r 1 s); rewrite E in *; clear E
  end; nia.

Lemma prod_span_pos (sizes : list Z) : 0 < prod (Z.max 1 <$> sizes).
Proof. apply prod_pos, Forall_fmap, Forall_forall. intros s _. simpl. lia. Qed.

Lemma prod_span_bounds (sizes : list Z) :
  Forall (fun s => 0 <= s) sizes -> 0 <= prod sizes <= prod (Z.max 1 <$> sizes).
Proof.
  induction 1 as [| s l Hs _ IH]; [done |]. csimpl. fold (prod l) (prod (Z.max 1 <$> l)). span_nia.
Qed.

Lemma prod_span_drop (i : nat) (sizes : list Z) :
  Forall (fun s => 0 <= s) sizes -> 0 <= prod (drop i sizes) <= prod (Z.max 1 <$> sizes).
Proof.
  intros H. revert i. induction H as [| s l Hs Hl IH]; intros i; [by destruct i |].
  destruct i as [| i]; [apply prod_span_bounds; by constructor |]. specialize (IH i). csimpl.
  fold (prod (Z.max 1 <$> l)). pose proof (prod_span_pos l). span_nia.
Qed.

Lemma span_positive (sizes : list Z) : Forall (fun s => 0 < s) sizes -> Z.max 1 <$> sizes = sizes.
Proof. induction 1 as [| s l Hs _ IH]; [done |]. csimpl. rewrite IH. f_equal. lia. Qed.

Lemma count_drop (space : esdm_dataspace_t) (i : nat) :
  count_fits space -> INT64_MIN <= prod (drop i (size space)) <= INT64_MAX.
Proof. intros [Hs Hp]. pose proof (prod_span_drop i _ Hs). pose proof int64_min. lia. Qed.

Lemma effectiveStride_loop_ok (i : nat) (space : esdm_dataspace_t) :
  count_fits space -> (i <= length (size space))%nat ->
  effectiveStride_loop i (prod (drop i (size space))) (size space) (cstrides (drop i (size space))) =
    Done (cstrides (size space)).
Proof.
  intros Hfit. induction i as [| i IH]; intros Hi; [done |].
  cbn [effectiveStride_loop]. destruct (lookup_lt_is_Some_2 (size space) i) as [s Hs]; [lia |].
  assert (E : prod (drop (S i) (size space)) * s = prod (drop i (size space))).
  { rewrite (drop_S _ s i Hs). apply Z.mul_comm. }
  rewrite Hs. run. rewrite E, chk64_ok by (by apply count_drop). run. rewrite <- (IH ltac:(lia)).
  by rewrite (drop_S (size space) s i Hs).
Qed.

Lemma getEffectiveStride_ok (space : esdm_dataspace_t) :
  space_wf space -> count_fits space -> esdm_dataspace_getEffectiveStride space = Done (eff space).
Proof.
  intros [Hd Hs Ho Ht] Hfit. unfold esdm_dataspace_getEffectiveStride, eff.
  destruct (stride space) as [st |]; [by apply memdup_ok, Ht |].
  rewrite <- (effectiveStride_loop_ok (length (size space)) space) by done.
  rewrite drop_all. f_equal. lia.
Qed.

Lemma length_eff (space : esdm_dataspace_t) :
  space_wf space -> Z.of_nat (length (eff space)) = dims space.
Proof.
  intros [Hd Hs Ho Ht]. unfold eff. destruct (stride space) as [st |]; [by apply Ht |].
  by rewrite length_cstrides.
Qed.

(** The element index of a point: its distance to the offset, weighted by the strides. *)
Fixpoint dot (p o st : list Z) : Z :=
  match p, o, st with
  | c :: p', x :: o', t :: st' => (c - x) * t + dot p' o' st'
  | _, _, _ => 0
  end.

(** The coordinates stay within the sizes. *)
Definition within (p o sizes : list Z) : Prop :=
  forall k c x s, p !! k = Some c -> o !! k = Some x -> sizes !! k = Some s -> 0 <= c - x < Z.max 1 s.

Lemma reach_nonneg (sizes st : list Z) : 0 <= reach sizes st.
Proof. revert st. induction sizes as [| s l IH]; intros [| t st]; simpl; try lia. specialize (IH st). span_nia. Qed.

Lemma dot_reach (p o sizes st : list Z) :
  within p o sizes -> length sizes = length p -> Z.abs (dot p o st) <= reach sizes st.
Proof.
  revert o sizes st. induction p as [| c p IH]; intros o sizes st Hw Hl; destruct sizes as [| s sizes]; try done.
  destruct st as [| t st]; [destruct o; simpl; lia |].
  destruct o as [| x o]; [simpl; pose proof (reach_nonneg sizes st); span_nia |].
  pose proof (Hw 0%nat c x s eq_refl eq_refl eq_refl). cbn [dot reach].
  assert (Z.abs (dot p o st) <= reach sizes st) by (apply IH; [intros k; apply (Hw (S k)) | by injection Hl]).
  span_nia.
Qed.

Lemma within_drop (i : nat) (p o sizes : list Z) : within p o sizes -> within (drop i p) (drop i o) (drop i sizes).
Proof. intros Hw k c x s. rewrite !lookup_drop. apply Hw. Qed.

Lemma reach_drop (i : nat) (sizes st : list Z) : reach (drop i sizes) (drop i st) <= reach sizes st.
Proof.
  revert sizes st. induction i as [| i IH]; intros sizes st; [done |].
  destruct sizes as [| s l], st as [| t st]; try done.
  { simpl. by destruct (drop i l). }
  simpl. specialize (IH l st). span_nia.
Qed.

Lemma space_fits_reach (space : esdm_dataspace_t) :
  space_fits space -> 0 < esdm_sizeof (type space) -> reach (size space) (eff space) <= INT64_MAX.
Proof. intros [_ _ H _ _] Ht. pose proof (reach_nonneg (size space) (eff space)). span_nia. Qed.

(** The strides are representable with their negation. *)
Definition strides_fit (space : esdm_dataspace_t) : Prop :=
  count_fits space /\ Forall (fun t => Z.abs t <= INT64_MAX) (eff space).

Lemma space_fits_strides (space : esdm_dataspace_t) :
  space_wf space -> space_fits space -> 0 < esdm_sizeof (type space) -> strides_fit space.
Proof.
  intros Hwf Hfit Ht. split; [apply Hfit |]. apply Forall_lookup. intros k t Hk.
  pose proof (length_eff space Hwf). pose proof Hwf as [_ ? _ _]. pose proof Hk as Hl. apply lookup_lt_Some in Hl.
  destruct (lookup_lt_is_Some_2 (size space) k) as [s Hs]; [lia |]. pose proof (sf_run _ Hfit k s t Hs Hk) as Hr.
  assert (Z.abs t <= Z.max 1 s * Z.abs t).
  { rewrite <- (Z.mul_1_l (Z.abs t)) at 1. apply Z.mul_le_mono_nonneg_r; lia. }
  nia.
Qed.

Lemma elementOffset_loop_ok (i : nat) (space : esdm_dataspace_t) (coords : list Z) :
  space_wf space -> space_fits space -> 0 < esdm_sizeof (type space) ->
  Z.of_nat (length coords) = dims space -> within coords (offset space) (size space) -> (i <= length coords)%nat ->
  elementOffset_loop i space coords (dot (drop i coords) (drop i (offset space)) (drop i (eff space)))
    (prod (drop i (size space))) = Done (dot coords (offset space) (eff space)).
Proof.
  intros Hwf Hfit Htype Hc Hin. pose proof Hwf as [Hd Hs Ho Ht]. pose proof (length_eff space Hwf) as He.
  pose proof (space_fits_reach space Hfit Htype) as Hreach. pose proof (sf_count _ Hfit) as Hcount.
  induction i as [| i IH]; intros Hi; [done |]. cbn [elementOffset_loop].
  destruct (lookup_lt_is_Some_2 coords i) as [c Hci]; [lia |].
  destruct (lookup_lt_is_Some_2 (offset space) i) as [o Hoi]; [lia |].
  destruct (lookup_lt_is_Some_2 (size space) i) as [s Hsi]; [lia |].
  destruct (lookup_lt_is_Some_2 (eff space) i) as [t Hti]; [lia |].
  assert (Hstride : match stride space with Some st => deref (st !! i)
                    | None => mret (prod (drop (S i) (size space))) end = Done t).
  { unfold eff in Hti. destruct (stride space) as [st |]; [by rewrite Hti |].
    unfold mret, outcome_ret. f_equal.
    assert (Hcs : forall l k x, cstrides l !! k = Some x -> x = prod (drop (S k) l)).
    { induction l as [| y l IHl]; intros [| k] x Hx; simpl in Hx; [done | done | by injection Hx as <- |].
      by apply IHl. }
    by rewrite <- (Hcs _ _ _ Hti). }
  pose proof (Hin i c o s Hci Hoi Hsi) as Hco.
  assert (Hsum : forall j, INT64_MIN <= dot (drop j coords) (drop j (offset space)) (drop j (eff space)) <= INT64_MAX).
  { intros j. pose proof (dot_reach _ _ _ (drop j (eff space)) (within_drop j _ _ _ Hin) ltac:(rewrite !length_drop; lia)).
    pose proof (reach_drop j (size space) (eff space)). pose proof int64_min. lia. }
  assert (E1 : dot (drop (S i) coords) (drop (S i) (offset space)) (drop (S i) (eff space)) + (c - o) * t =
    dot (drop i coords) (drop i (offset space)) (drop i (eff space))).
  { rewrite (drop_S _ _ _ Hci), (drop_S _ _ _ Hoi), (drop_S _ _ _ Hti). cbn [dot]. lia. }
  assert (E2 : prod (drop (S i) (size space)) * s = prod (drop i (size space))).
  { rewrite (drop_S _ _ _ Hsi). apply Z.mul_comm. }
  assert (Hrun : Z.abs ((c - o) * t) <= INT64_MAX).
  { pose proof (sf_run _ Hfit i s t Hsi Hti). rewrite Z.abs_mul, (Z.abs_eq (c - o)) by lia.
    assert ((c - o) * Z.abs t <= Z.max 1 s * Z.abs t) by (apply Z.mul_le_mono_nonneg_r; lia).
    assert (0 <= Z.max 1 s * Z.abs t) by (apply Z.mul_nonneg_nonneg; lia). nia. }
  assert (Hspan : Z.max 1 s <= INT64_MAX).
  { destruct Hcount as [_ Hprod]. clear -Hsi Hprod. revert i Hsi Hprod. induction (size space) as [| x l IHl]; intros i Hsi Hprod; [done |].
    change (prod (Z.max 1 <$> x :: l)) with (Z.max 1 x * prod (Z.max 1 <$> l)) in Hprod.
    pose proof (prod_span_pos l). destruct i as [| i]; [injection Hsi as ->; span_nia |]. apply (IHl i Hsi). span_nia. }
  rewrite Hstride. run. rewrite Hci, Hoi. run.
  rewrite (chk64_ok (c - o)) by (pose proof int64_min; lia). run.
  rewrite (chk64_ok ((c - o) * t)) by (pose proof int64_min; lia). run. rewrite E1, chk64_ok by done. run.
  rewrite Hsi. run. rewrite E2, chk64_ok by (by apply count_drop). run. by rewrite <- (IH ltac:(lia)).
Qed.

Lemma elementOffset_ok (space : esdm_dataspace_t) (coords : list Z) :
  space_wf space -> space_fits space -> 0 < esdm_sizeof (type space) ->
  Z.of_nat (length coords) = dims space -> within coords (offset space) (size space) ->
  esdm_dataspace_elementOffset space coords =
    Done (dot coords (offset space) (eff space) * esdm_sizeof (type space)).
Proof.
  intros Hwf Hfit Htype Hc Hin. pose proof (length_eff space Hwf). pose proof Hwf as [Hd Hs Ho Ht].
  unfold esdm_dataspace_elementOffset.
  pose proof (elementOffset_loop_ok (length coords) space coords Hwf Hfit Htype Hc Hin (le_n _)) as E.
  rewrite !drop_ge in E by lia. simpl in E. rewrite <- Hc, Nat2Z.id, E. run. rewrite to_int64_id; [done |].
  pose proof (dot_reach coords (offset space) (size space) (eff space) Hin ltac:(lia)).
  pose proof (sf_reach _ Hfit). pose proof int64_min. span_nia.
Qed.

(** A subset of the dimensions' runs of a representable dataspace. *)
Lemma reach_mono (sizes sizes' st : list Z) :
  Forall2 Z.le sizes' sizes -> reach sizes' st <= reach sizes st.
Proof.
  intros H. revert st. induction H as [| s' s l' l Hs _ IH]; intros [| t st]; simpl; try lia.
  apply Z.add_le_mono; [apply Z.mul_le_mono_nonneg_r; lia | apply IH].
Qed.

Lemma prod_span_mono (sizes sizes' : list Z) :
  Forall2 Z.le sizes' sizes -> prod (Z.max 1 <$> sizes') <= prod (Z.max 1 <$> sizes).
Proof.
  induction 1 as [| s' s l' l Hs _ IH]; [done |]. csimpl. fold (prod (Z.max 1 <$> l')) (prod (Z.max 1 <$> l)).
  pose proof (prod_span_pos l'). apply Z.mul_le_mono_nonneg; lia.
Qed.

Lemma space_fits_mono (space sub : esdm_dataspace_t) :
  space_fits space -> type sub = type space -> eff sub = eff space ->
  Forall (fun s => 0 <= s) (size sub) -> Forall2 Z.le (size sub) (size space) -> 0 <= esdm_sizeof (type space) ->
  space_fits sub.
Proof.
  intros [[Hnn Hcount] Hbytes Hreach Hrun Hrel] Et Ee Hpos Hle Hsz. constructor.
  - split; [done |]. pose proof (prod_span_mono _ _ Hle). lia.
  - rewrite Et. pose proof (prod_span_mono _ _ Hle). nia.
  - rewrite Et, Ee. pose proof (reach_mono _ _ (eff space) Hle). span_nia.
  - intros k s t Hs Ht. rewrite Et. rewrite Ee in Ht. destruct (Forall2_lookup_l _ _ _ _ _ Hle Hs) as (s0 & Hs0 & Hle0).
    specialize (Hrun k s0 t Hs0 Ht). etransitivity; [| exact Hrun].
    repeat apply Z.mul_le_mono_nonneg_r; lia.
  - intros j k s t u n Hs Ht Hu Hn. rewrite Et. rewrite Ee in Ht, Hu. destruct (Forall2_lookup_l _ _ _ _ _ Hle Hs) as (s0 & Hs0 & Hle0).
    apply (Hrel j k s0); (done || lia).
Qed.

(** Contiguous data of at most [INT64_MAX] bytes. *)
Lemma cstrides_lookup (sizes : list Z) (k : nat) (s t : Z) :
  Forall (fun s => 0 <= s) sizes -> sizes !! k = Some s -> cstrides sizes !! k = Some t ->
  0 <= t /\ Z.max 1 s * t <= prod (Z.max 1 <$> sizes).
Proof.
  intros H. revert k. induction H as [| x l Hx Hl IH]; intros k Hs Ht; [done |].
  change (prod (Z.max 1 <$> x :: l)) with (Z.max 1 x * prod (Z.max 1 <$> l)).
  destruct k as [| k]; simpl in Hs, Ht.
  - injection Hs as ->. injection Ht as <-. pose proof (prod_span_bounds l Hl). span_nia.
  - destruct (IH k Hs Ht). pose proof (prod_span_pos l). span_nia.
Qed.

Lemma reach_cstrides (sizes : list Z) :
  Forall (fun s => 0 <= s) sizes -> reach sizes (cstrides sizes) < prod (Z.max 1 <$> sizes).
Proof.
  induction 1 as [| s l Hs Hl IH]; [done |]. cbn [reach cstrides].
  change (prod (Z.max 1 <$> s :: l)) with (Z.max 1 s * prod (Z.max 1 <$> l)).
  pose proof (prod_span_bounds l Hl). span_nia.
Qed.

(** Strides of one sign cannot leave the range when they are made relative. *)
Lemma relative_forward (es s t u n : Z) :
  0 <= es -> 0 <= t -> 0 <= u -> 0 <= n <= s -> Z.max 1 s * t * es <= INT64_MAX -> u * es <= INT64_MAX ->
  INT64_MIN <= u * es - n * (t * es) <= INT64_MAX.
Proof.
  intros Hes Ht Hu Hn Hst Hue. pose proof int64_min.
  assert (n * (t * es) <= Z.max 1 s * t * es).
  { rewrite <- Z.mul_assoc. apply Z.mul_le_mono_nonneg_r; [apply Z.mul_nonneg_nonneg |]; lia. }
  assert (0 <= n * (t * es)) by (repeat apply Z.mul_nonneg_nonneg; lia).
  assert (0 <= u * es) by (apply Z.mul_nonneg_nonneg; lia). lia.
Qed.

Lemma contiguous_fits (space : esdm_dataspace_t) :
  stride space = None -> Forall (fun s => 0 <= s) (size space) -> 0 < esdm_sizeof (type space) ->
  prod (Z.max 1 <$> size space) * esdm_sizeof (type space) <= INT64_MAX -> space_fits space.
Proof.
  intros Hst Hs Ht Hb. pose proof (prod_span_pos (size space)).
  constructor; unfold eff; rewrite ?Hst.
  - split; [done | span_nia].
  - done.
  - pose proof (reach_cstrides _ Hs). span_nia.
  - intros k s t Hsk Htk. destruct (cstrides_lookup _ _ _ _ Hs Hsk Htk). span_nia.
  - intros j k s t u n Hsk Htk Huj Hn. destruct (cstrides_lookup _ _ _ _ Hs Hsk Htk).
    pose proof Huj as Huj'. apply lookup_lt_Some in Huj'. rewrite length_cstrides in Huj'.
    destruct (lookup_lt_is_Some_2 _ _ Huj') as [sj Hsj]. destruct (cstrides_lookup _ _ _ _ Hs Hsj Huj).
    apply (relative_forward _ s); try (done || lia); span_nia.
Qed.

Lemma positive_fits (space : esdm_dataspace_t) :
  stride space = None -> Forall (fun s => 0 < s) (size space) -> 0 < esdm_sizeof (type space) ->
  prod (size space) * esdm_sizeof (type space) <= INT64_MAX -> space_fits space.
Proof.
  intros Hst Hs Ht Hb. apply contiguous_fits; try done; [| by rewrite span_positive].
  eapply Forall_impl; [exact Hs |]. simpl. lia.
Qed.

(** Strides without a sign change need no separate bound on their differences. *)
Lemma forward_fits (space : esdm_dataspace_t) :
  Forall (fun s => 0 < s) (size space) -> Forall (fun t => 0 <= t) (eff space) -> 0 < esdm_sizeof (type space) ->
  prod (size space) * esdm_sizeof (type space) <= INT64_MAX ->
  reach (size space) (eff space) * esdm_sizeof (type space) <= INT64_MAX ->
  Forall2 (fun s t => s * t * esdm_sizeof (type space) <= INT64_MAX) (size space) (eff space) -> space_fits space.
Proof.
  intros Hs Ht Hes Hb Hr Hrun. pose proof (prod_pos _ Hs).
  assert (Hrun' : forall k s t, size space !! k = Some s -> eff space !! k = Some t ->
    0 <= t /\ Z.max 1 s * t * esdm_sizeof (type space) <= INT64_MAX).
  { intros k s t Es Et. pose proof (Forall_lookup_1 _ _ _ _ Hs Es). pose proof (Forall_lookup_1 _ _ _ _ Ht Et).
    pose proof (Forall2_lookup_lr _ _ _ _ _ _ Hrun Es Et). cbn beta in *. by rewrite Z.max_r by lia. }
  constructor.
  - split; [eapply Forall_impl; [exact Hs |]; simpl; lia | rewrite span_positive by done; nia].
  - by rewrite span_positive by done.
  - done.
  - intros k s t Es Et. destruct (Hrun' k s t Es Et). by rewrite Z.abs_eq by lia.
  - intros j k s t u n Es Et Eu Hn. destruct (Hrun' k s t Es Et) as [H1 H2].
    destruct (Forall2_lookup_r _ _ _ _ _ Hrun Eu) as (sj & Esj & _). destruct (Hrun' j sj u Esj Eu) as [H3 H4].
    apply (relative_forward _ s); try (done || lia). etransitivity; [| exact H4].
    apply Z.mul_le_mono_nonneg_r; [lia |]. rewrite <- (Z.mul_1_l u) at 1. apply Z.mul_le_mono_nonneg_r; lia.
Qed.

Lemma positive_count (space : esdm_dataspace_t) :
  Forall (fun s => 0 < s) (size space) -> prod (size space) <= INT64_MAX -> count_fits space.
Proof.
  intros Hs Hb. split; [| by rewrite span_positive]. eapply Forall_impl; [exact Hs |]. simpl. lia.
Qed.

(** * Extends *)

Definition extends (space : esdm_dataspace_t) : esdmI_hypercube_t :=
  zip_with (fun o s => Range o (o + s)) (offset space) (size space).

(** No coordinate of the dataspace overflows. *)
Definition space_int64 (space : esdm_dataspace_t) : Prop :=
  Forall2 (fun o s => INT64_MIN <= o /\ 0 <= s /\ o + s <= INT64_MAX /\ s <= INT64_MAX) (offset space) (size space).

Lemma zip_drop (i : nat) (o s : list Z) (f : Z -> Z -> esdmI_range_t) (x y : Z) :
  o !! i = Some x -> s !! i = Some y ->
  zip_with f (drop i o) (drop i s) = f x y :: zip_with f (drop (S i) o) (drop (S i) s).
Proof. intros Hx Hy. by rewrite (drop_S _ _ _ Hx), (drop_S _ _ _ Hy). Qed.

Lemma getExtends_ok (space : esdm_dataspace_t) :
  space_wf space -> space_int64 space -> esdmI_dataspace_getExtends space = Done (extends space).
Proof.
  intros [Hd Hs Ho _] H64. unfold esdmI_dataspace_getExtends, esdmI_hypercube_make, extends.
  assert (Hgen : forall k i, (i + k = length (size space))%nat ->
    mapM (esdmI_hypercube_make_range (offset space) (size space)) (seq i k) =
    Done (zip_with (fun o s => Range o (o + s)) (drop i (offset space)) (drop i (size space)))).
  { induction k as [| k IH]; intros i Hi; [by rewrite !drop_ge by lia |].
    destruct (lookup_lt_is_Some_2 (offset space) i) as [o Hoi]; [lia |].
    destruct (lookup_lt_is_Some_2 (size space) i) as [s Hsi]; [lia |].
    pose proof (Forall2_lookup_lr _ _ _ _ _ _ H64 Hoi Hsi) as Hb. simpl in Hb.
    assert (E : esdmI_hypercube_make_range (offset space) (size space) i = Done (Range o (o + s))).
    { unfold esdmI_hypercube_make_range. rewrite Hoi, Hsi. run. by rewrite chk64_ok by lia. }
    cbn [seq]. rewrite mapM_cons, E. run. rewrite (IH (S i)) by lia. run. by rewrite (zip_drop i _ _ _ o s). }
  rewrite <- Hs, Nat2Z.id. by apply (Hgen _ 0%nat).
Qed.

Lemma getOffsetAndSize_extends (space : esdm_dataspace_t) :
  space_wf space -> space_int64 space ->
  esdmI_hypercube_getOffsetAndSize (extends space) = Done (offset space, size space).
Proof.
  intros _ H64. unfold extends, esdmI_hypercube_getOffsetAndSize.
  assert (E : mapM esdmI_range_size (zip_with (fun o s => Range o (o + s)) (offset space) (size space)) =
              Done (size space) /\
              rstart <$> zip_with (fun o s => Range o (o + s)) (offset space) (size space) = offset space).
  { induction H64 as [| o s os ss Hb _ [IH1 IH2]]; [done |]. cbn [zip_with]. split.
    - assert (Hr : esdmI_range_size (Range o (o + s)) = Done s).
      { rewrite range_size_ok by (simpl; lia). unfold rsize. simpl. f_equal. lia. }
      rewrite mapM_cons, Hr. run. by rewrite IH1.
    - cbn [fmap list_fmap rstart]. by f_equal. }
  destruct E as [-> E2]. run. by rewrite E2.
Qed.

Lemma length_extends (space : esdm_dataspace_t) :
  space_wf space -> Z.of_nat (length (extends space)) = dims space.
Proof. intros [Hd Hs Ho _]. unfold extends. rewrite length_zip_with. lia. Qed.

Lemma within_extends (space : esdm_dataspace_t) (p : list Z) :
  in_cube p (extends space) -> within p (offset space) (size space).
Proof.
  unfold extends. intros Hp k c x s Hc Hx Hs.
  assert (Hr : zip_with (fun o s => Range o (o + s)) (offset space) (size space) !! k = Some (Range x (x + s))).
  { rewrite lookup_zip_with, Hx, Hs. done. }
  pose proof (Forall2_lookup_lr _ _ _ _ _ _ Hp Hc Hr) as H. unfold in_range in H. simpl in H. lia.
Qed.

Lemma elementOffset_in (space : esdm_dataspace_t) (p : list Z) :
  space_wf space -> space_fits space -> 0 < esdm_sizeof (type space) -> in_cube p (extends space) ->
  esdm_dataspace_elementOffset space p = Done (dot p (offset space) (eff space) * esdm_sizeof (type space)).
Proof.
  intros Hwf Hfit Ht Hp. apply elementOffset_ok; try done; [| by apply within_extends].
  apply in_cube_length in Hp. rewrite Hp. by apply length_extends.
Qed.

(** * The contiguous layout *)

Definition box (o s : list Z) : esdmI_hypercube_t := zip_with (fun x n => Range x (x + n)) o s.

Lemma index_bounds (o s p : list Z) :
  Forall (fun n => 0 < n) s -> in_cube p (box o s) -> length o = length s ->
  0 <= dot p o (cstrides s) < prod s.
Proof.
  intros Hs. revert o p. induction Hs as [| n s Hn Hs IH]; intros [| x o] p Hp Hlen; simpl in Hlen; try lia.
  { apply in_cube_nil in Hp as ->. simpl. lia. }
  apply in_cube_cons in Hp as (c & p' & -> & Hc & Hp). unfold in_range in Hc. simpl in Hc.
  specialize (IH o p' Hp ltac:(lia)). pose proof (prod_pos s Hs). cbn [dot cstrides prod foldr].
  fold (prod s). nia.
Qed.

Lemma index_inj (o s p q : list Z) :
  Forall (fun n => 0 < n) s -> length o = length s -> in_cube p (box o s) -> in_cube q (box o s) ->
  dot p o (cstrides s) = dot q o (cstrides s) -> p = q.
Proof.
  intros Hs. revert o p q. induction Hs as [| n s Hn Hs IH]; intros [| x o] p q Hlen Hp Hq E; simpl in Hlen; try lia.
  { apply in_cube_nil in Hp as ->. by apply in_cube_nil in Hq as ->. }
  apply in_cube_cons in Hp as (c & p' & -> & Hc & Hp). apply in_cube_cons in Hq as (d & q' & -> & Hd & Hq).
  cbn [dot cstrides] in E.
  pose proof (index_bounds o s p' Hs Hp ltac:(lia)). pose proof (index_bounds o s q' Hs Hq ltac:(lia)).
  destruct (Z.div_mod_unique (prod s) (c - x) (d - x) (dot p' o (cstrides s)) (dot q' o (cstrides s)))
    as [E1 E2]; [lia | lia | lia |].
  f_equal; [lia |]. apply (IH o); (done || lia).
Qed.

Lemma index_surj (o s : list Z) (k : Z) :
  Forall (fun n => 0 < n) s -> length o = length s -> 0 <= k < prod s ->
  exists p, in_cube p (box o s) /\ dot p o (cstrides s) = k.
Proof.
  intros Hs. revert o k. induction Hs as [| n s Hn Hs IH]; intros [| x o] k Hlen Hk; simpl in Hlen; try lia.
  { exists []. split; [by apply in_cube_nil |]. simpl in *. lia. }
  pose proof (prod_pos s Hs) as Hp. change (prod (n :: s)) with (n * prod s) in Hk.
  destruct (IH o (k mod prod s)) as (p & Hin & E); [lia | apply Z.mod_pos_bound; lia |].
  exists ((x + k / prod s) :: p). split.
  - apply in_cube_cons2. split; [| done]. unfold in_range. simpl.
    pose proof (Z.div_pos k (prod s)). pose proof (Z.div_lt_upper_bound k (prod s) n). lia.
  - cbn [dot cstrides]. rewrite E. pose proof (Z.div_mod k (prod s)). lia.
Qed.

(** In a dataspace without explicit strides [esdm_dataspace_elementOffset()] maps the points
    of the dataspace one-to-one onto the multiples of the element size below the size of
    the buffer. *)
Theorem contiguous_layout (space : esdm_dataspace_t) :
  space_wf space -> stride space = None -> Forall (fun s => 0 < s) (size space) ->
  0 < esdm_sizeof (type space) -> prod (size space) * esdm_sizeof (type space) <= INT64_MAX ->
  (forall p, in_cube p (extends space) -> exists k, 0 <= k < prod (size space) /\
     esdm_dataspace_elementOffset space p = Done (k * esdm_sizeof (type space))) /\
  (forall k, 0 <= k < prod (size space) -> exists p, in_cube p (extends space) /\
     esdm_dataspace_elementOffset space p = Done (k * esdm_sizeof (type space)) /\
     forall q, in_cube q (extends space) ->
       esdm_dataspace_elementOffset space q = Done (k * esdm_sizeof (type space)) -> q = p).
Proof.
  intros Hwf Hst Hs Hsz Hb. pose proof (length_extends space Hwf) as Hle.
  pose proof (positive_fits space Hst Hs Hsz Hb) as Hfit. pose proof Hwf as [Hd Hls Hlo _].
  assert (Hlen : length (offset space) = length (size space)) by lia.
  assert (E : forall p, in_cube p (extends space) -> esdm_dataspace_elementOffset space p =
    Done (dot p (offset space) (cstrides (size space)) * esdm_sizeof (type space))).
  { intros p Hp. rewrite elementOffset_in by done. unfold eff. by rewrite Hst. }
  split.
  - intros p Hp. exists (dot p (offset space) (cstrides (size space))).
    split; [by apply index_bounds | by apply E].
  - intros k Hk. destruct (index_surj (offset space) (size space) k Hs Hlen Hk) as (p & Hp & Hpk).
    exists p. split; [done |]. split; [by rewrite (E p Hp), Hpk |].
    intros q Hq. rewrite (E q Hq). intros [= Hqk]. apply (index_inj (offset space) (size space)); try done.
    apply Z.mul_cancel_r in Hqk; lia.
Qed.

Lemma contiguous_layout_witness :
  let space := Dataspace (Type_ 1 8) 2 [3; 4] [10; 20] false None in
  exists p, in_cube p (extends space) /\ esdm_dataspace_elementOffset space p = Done (6 * 8).
Proof.
  destruct (contiguous_layout (Dataspace (Type_ 1 8) 2 [3; 4] [10; 20] false None)) as [_ H].
  - by constructor.
  - done.
  - by repeat constructor.
  - done.
  - done.
  - destruct (H 6) as (p & Hp & E & _); [vm_compute; done |]. exists p. split; [exact Hp | exact E].
Defined.

(** * Copying a layout *)

Lemma sizeMismatch_loop_ok (n i : nat) (a b : list Z) :
  n = (length a - i)%nat -> length a = length b ->
  exists r, sizeMismatch_loop i n a b = Done r /\ (r = false -> drop i a = drop i b).
Proof.
  revert i. induction n as [| n IH]; intros i Hi Hlen; cbn [sizeMismatch_loop].
  { exists false. split; [done |]. intros _. by rewrite !drop_ge by lia. }
  destruct (lookup_lt_is_Some_2 a i) as [x Hx]; [lia |].
  destruct (lookup_lt_is_Some_2 b i) as [y Hy]; [lia |]. rewrite Hx, Hy. run.
  destruct (Z.eqb_spec x y) as [-> | Hne]; simpl; [| by exists true].
  destruct (IH (S i)) as (r & -> & Hr); [lia | done |]. exists r. split; [done |].
  intros Hf. rewrite (drop_S _ _ _ Hx), (drop_S _ _ _ Hy). f_equal. by apply Hr.
Qed.

Lemma cstrides_tail (a b : list Z) :
  length a = length b -> drop 1 a = drop 1 b -> cstrides a = cstrides b.
Proof.
  destruct a as [| x a], b as [| y b]; simpl; try done. rewrite !drop_0. by intros _ ->.
Qed.

Lemma copyDatalayout_ok (space source : esdm_dataspace_t) :
  space_wf space -> space_wf source -> count_fits space -> count_fits source -> dims space = dims source ->
  exists space', esdm_dataspace_copyDatalayout space source = Done (ESDM_SUCCESS, space') /\
  esdm_dataspace_getEffectiveStride space' = esdm_dataspace_getEffectiveStride source /\
  type space' = type space /\ dims space' = dims space /\ size space' = size space /\ offset space' = offset space /\
  space_wf space'.
Proof.
  intros Hwf Hws Hf Hfs Hd. pose proof Hwf as [Hd0 Hs Ho _]. pose proof Hws as [_ Hs' _ Ht'].
  unfold esdm_dataspace_copyDatalayout. rewrite eassert_true by (by apply Z.eqb_eq). run.
  assert (Hset : forall st, Z.of_nat (length st) = dims space ->
    esdm_dataspace_getEffectiveStride (setStrideBuffer (removeStrideBuffer space) st) = Done st).
  { intros st Hlen. by apply memdup_ok. }
  pose proof (length_eff source Hws) as Hle.
  assert (Hexpl : exists space', (s ← esdm_dataspace_getEffectiveStride source;
      mret (ESDM_SUCCESS, setStrideBuffer (removeStrideBuffer space) s)) = Done (ESDM_SUCCESS, space') /\
    esdm_dataspace_getEffectiveStride space' = esdm_dataspace_getEffectiveStride source /\
    type space' = type space /\ dims space' = dims space /\ size space' = size space /\ offset space' = offset space /\ space_wf space').
  { rewrite (getEffectiveStride_ok source Hws Hfs). run. eexists. split; [reflexivity |].
    split; [apply Hset; lia |]. repeat (split; [done |]). constructor; try done. intros st [= <-]. cbn [dims setStrideBuffer removeStrideBuffer]. lia. }
  destruct (stride source) as [st |] eqn:Est; run; [exact Hexpl |].
  destruct (sizeMismatch_loop_ok (Z.to_nat (dims space) - 1) 1 (size space) (size source)) as (r & E & Hr).
  { lia. } { lia. }
  cbn [removeStrideBuffer dims size]. rewrite E. run. destruct r; [exact Hexpl |].
  eexists. split; [reflexivity |]. split; [| repeat (split; [done |]); by constructor].
  rewrite (getEffectiveStride_ok source Hws Hfs), getEffectiveStride_ok.
  - unfold eff. rewrite Est. simpl. f_equal. apply cstrides_tail; [lia | by apply Hr].
  - by constructor.
  - exact Hf.
Qed.

(** After [esdm_dataspace_copyDatalayout()] the dataspace has the strides in effect of the
    source, whether or not an explicit stride had to be stored; its shape and type are
    unchanged. *)
Theorem copyDatalayout_correct (space source : esdm_dataspace_t) :
  space_wf space -> space_wf source -> count_fits space -> count_fits source -> dims space = dims source ->
  exists space', esdm_dataspace_copyDatalayout space source = Done (ESDM_SUCCESS, space') /\
  esdm_dataspace_getEffectiveStride space' = esdm_dataspace_getEffectiveStride source /\
  type space' = type space /\ dims space' = dims space /\ size space' = size space /\ offset space' = offset space.
Proof.
  intros Hwf Hws Hf Hfs Hd. destruct (copyDatalayout_ok space source Hwf Hws Hf Hfs Hd) as (space' & E & H1 & H2 & H3 & H4 & H5 & _). by exists space'.
Qed.

(** A wider source without explicit strides: the narrow space needs a stored stride. *)
Lemma copyDatalayout_correct_witness :
  exists space', esdm_dataspace_copyDatalayout (Dataspace (Type_ 1 8) 2 [3; 4] [0; 0] false None)
                   (Dataspace (Type_ 1 8) 2 [9; 7] [0; 0] false None) = Done (ESDM_SUCCESS, space') /\
  esdm_dataspace_getEffectiveStride space' = Done [7; 1].
Proof.
  destruct (copyDatalayout_correct (Dataspace (Type_ 1 8) 2 [3; 4] [0; 0] false None)
              (Dataspace (Type_ 1 8) 2 [9; 7] [0; 0] false None)) as (space' & E & H & _).
  - by constructor.
  - by constructor.
  - by split; [repeat constructor |].
  - by split; [repeat constructor |].
  - done.
  - exists space'. split; [exact E | exact H].
Defined.

(** * Subspaces *)

(** What [esdm_dataspace_subspace()] accepts in one dimension: a size of zero in the
    dataspace is an unlimited dimension. *)
Definition subrange_ok (so ss o s : Z) : Prop :=
  0 < s /\ 0 <= o /\ so <= o /\ (ss <> 0 -> o + s <= so + ss).

Definition int64_pair (o s : Z) : Prop := INT64_MIN <= o + s <= INT64_MAX.

Lemma subspace_checkDim_ok (dataspace : esdm_dataspace_t) (size' offset' : list Z) (i : nat) (s o so ss : Z) :
  size' !! i = Some s -> offset' !! i = Some o -> offset dataspace !! i = Some so -> size dataspace !! i = Some ss ->
  int64_pair o s -> int64_pair so ss ->
  exists b, subspace_checkDim dataspace size' offset' i = Done b /\ (b = true <-> subrange_ok so ss o s).
Proof.
  intros H1 H2 H3 H4 H5 H6. unfold subspace_checkDim. rewrite H1, H2, H3, H4. run.
  unfold int64_pair in *. unfold subrange_ok.
  destruct (Z.eqb_spec ss 0) as [-> | Hne]; cbn [negb].
  - run. eexists. split; [reflexivity |]. rewrite !andb_true_iff, !negb_true_iff, Z.leb_gt, !Z.ltb_ge. intuition lia.
  - rewrite (chk64_ok (o + s)), (chk64_ok (so + ss)) by lia. run. eexists. split; [reflexivity |].
    rewrite !andb_true_iff, !negb_true_iff, Z.leb_gt, !Z.ltb_ge, Z.gtb_ltb, Z.ltb_ge. intuition lia.
Qed.

Definition subspace_ok (dataspace : esdm_dataspace_t) (size' offset' : list Z) : Prop :=
  forall i s o so ss, size' !! i = Some s -> offset' !! i = Some o ->
    offset dataspace !! i = Some so -> size dataspace !! i = Some ss -> subrange_ok so ss o s.

Lemma forallb_id (l : list bool) : forallb id l = true <-> Forall (fun b => b = true) l.
Proof.
  induction l as [| b l IH]; simpl; [split; [constructor | done] |].
  by rewrite andb_true_iff, Forall_cons, IH.
Qed.

Lemma subspace_checks_ok (dataspace : esdm_dataspace_t) (size' offset' : list Z) :
  space_wf dataspace -> Z.of_nat (length size') = dims dataspace -> Z.of_nat (length offset') = dims dataspace ->
  Forall2 int64_pair offset' size' -> Forall2 int64_pair (offset dataspace) (size dataspace) ->
  exists bs, mapM (subspace_checkDim dataspace size' offset') (seq 0 (Z.to_nat (dims dataspace))) = Done bs /\
  (forallb id bs = true <-> subspace_ok dataspace size' offset').
Proof.
  intros [Hd Hs Ho _] Hls Hlo H64 H64'.
  set (P := fun (i : nat) (b : bool) => b = true <->
    forall s o so ss, size' !! i = Some s -> offset' !! i = Some o ->
    offset dataspace !! i = Some so -> size dataspace !! i = Some ss -> subrange_ok so ss o s).
  destruct (mapM_ok (subspace_checkDim dataspace size' offset') P (seq 0 (Z.to_nat (dims dataspace))))
    as (bs & E & Hbs).
  { intros i Hi. apply elem_of_seq in Hi.
    destruct (lookup_lt_is_Some_2 size' i) as [s Hsi]; [lia |].
    destruct (lookup_lt_is_Some_2 offset' i) as [o Hoi]; [lia |].
    destruct (lookup_lt_is_Some_2 (offset dataspace) i) as [so Hsoi]; [lia |].
    destruct (lookup_lt_is_Some_2 (size dataspace) i) as [ss Hssi]; [lia |].
    pose proof (Forall2_lookup_lr _ _ _ _ _ _ H64 Hoi Hsi). pose proof (Forall2_lookup_lr _ _ _ _ _ _ H64' Hsoi Hssi).
    destruct (subspace_checkDim_ok dataspace size' offset' i s o so ss) as (b & E & Hb); try done.
    exists b. split; [done |]. unfold P. rewrite Hb. split; [| intros H'; by apply H'].
    intros H' ? ? ? ? ? ? ? ?. by simplify_eq. }
  exists bs. split; [exact E |]. rewrite forallb_id, Forall_lookup. split.
  - intros Hb i s o so ss H1 H2 H3 H4. destruct (Forall2_lookup_l _ _ _ i i Hbs) as (b & Hbi & HP).
    { apply lookup_seq. split; [done |]. apply lookup_lt_Some in H1. lia. }
    eapply HP; eauto.
  - intros Hok i b Hbi. destruct (Forall2_lookup_r _ _ _ _ _ Hbs Hbi) as (j & Hj & HP).
    apply lookup_seq in Hj as [-> _]. apply HP. intros. by eapply Hok.
Qed.

(** [esdm_dataspace_subspace()] on arrays of the right length creates the contiguous dataspace
    of the requested shape exactly when the rank matches, no size is empty, no offset is
    negative and the region lies inside the dataspace (dimensions of size zero are
    unlimited); otherwise it reports an invalid argument. *)
Theorem subspace_correct (dataspace : esdm_dataspace_t) (dims' : Z) (size' offset' : list Z) :
  space_wf dataspace -> Z.of_nat (length size') = dims' -> Z.of_nat (length offset') = dims' ->
  Forall2 int64_pair offset' size' -> Forall2 int64_pair (offset dataspace) (size dataspace) ->
  (dims' = dims dataspace /\ subspace_ok dataspace size' offset' /\
   esdm_dataspace_subspace dataspace dims' size' offset' =
     Done (ESDM_SUCCESS, Some (Dataspace (type dataspace) dims' size' offset' false None))) \/
  (~ (dims' = dims dataspace /\ subspace_ok dataspace size' offset') /\
   esdm_dataspace_subspace dataspace dims' size' offset' = Done (ESDM_INVALID_ARGUMENT_ERROR, None)).
Proof.
  intros Hwf Hls Hlo H64 H64'. unfold esdm_dataspace_subspace.
  destruct (Z.eqb_spec dims' (dims dataspace)) as [-> | Hne]; [cbn [negb] | right; split; [tauto | done]].
  destruct (subspace_checks_ok dataspace size' offset') as (bs & -> & Hall); try done.
  run. destruct (forallb id bs) eqn:Eall.
  - left. split; [done |]. split; [by apply Hall |]. by rewrite !memdup_ok by done.
  - right. split; [| done]. intros [_ Hok]. by apply Hall in Hok.
Qed.

(** One region inside a dataspace with an unlimited first dimension. *)
Lemma subspace_correct_witness :
  esdm_dataspace_subspace (Dataspace (Type_ 1 8) 2 [0; 10] [0; 5] false None) 2 [7; 3] [100; 12] =
    Done (ESDM_SUCCESS, Some (Dataspace (Type_ 1 8) 2 [7; 3] [100; 12] false None)).
Proof.
  destruct (subspace_correct (Dataspace (Type_ 1 8) 2 [0; 10] [0; 5] false None) 2 [7; 3] [100; 12])
    as [(_ & _ & E) | (_ & E)].
  - by constructor.
  - done.
  - done.
  - by repeat constructor.
  - by repeat constructor.
  - exact E.
  - vm_compute in E. discriminate E.
Defined.

(** * Metadata round trip *)

Definition int_array (l : list Z) : json := JArray (JInteger <$> l).

(** The document [esdm_dataspace_serialize()] writes. *)
Definition space_json (space : esdm_dataspace_t) : json :=
  JObject ([("size"%string, int_array (size space)); ("offset"%string, int_array (offset space))] ++
           match stride space with Some s => [("stride"%string, int_array s)] | None => [] end).

Lemma render_int_array (l : list Z) : render (int_array l) = ("[" ++ commas (map pretty l) ++ "]")%string.
Proof. unfold int_array. cbn [render]. do 2 f_equal. f_equal. apply map_map. Qed.

Lemma integerArray_ok (l : list Z) (n : Z) :
  Z.of_nat (length l) = n -> integerArray n (int_array l) = Some l.
Proof.
  intros <-. unfold integerArray, int_array, json_array_size. simpl. rewrite length_fmap, Z.eqb_refl.
  assert (forallb json_is_integer (JInteger <$> l) = true) as ->.
  { induction l as [| z l IH]; [done | exact IH]. }
  f_equal. rewrite <- list_fmap_compose. apply list_fmap_id.
Qed.

Lemma serializeArray_ok (name : string) (l : list Z) (n : Z) :
  Z.of_nat (length l) = n ->
  serializeArray name n l = Done (quoted name ++ ":" ++ render (int_array l))%string.
Proof.
  intros Hn. unfold serializeArray. rewrite memdup_ok by done. run.
  by rewrite render_int_array, printed_list_commas.
Qed.

Lemma dataspace_json_ok (space datasetSpace : esdm_dataspace_t) :
  space_wf space -> dims datasetSpace = dims space -> type datasetSpace = type space ->
  esdm_dataspace_serialize space = Done (render (space_json space)) /\
  esdmI_dataspace_createFromJson (space_json space) datasetSpace =
    (ESDM_SUCCESS, Some (Dataspace (type space) (dims space) (size space) (offset space) false (stride space))).
Proof.
  intros [Hd Hs Ho Ht] Hdims Htype. split.
  - unfold esdm_dataspace_serialize, space_json. rewrite !serializeArray_ok by done. run.
    destruct (stride space) as [st |]; [rewrite serializeArray_ok by (by apply Ht) |]; run;
      cbn [render map app commas fst snd]; f_equal; by rewrite ?string_app_assoc.
  - unfold esdmI_dataspace_createFromJson, space_json. simpl. rewrite Hdims, Htype, !integerArray_ok by done.
    destruct (stride space) as [st |]; simpl; [| done]. by rewrite integerArray_ok by (by apply Ht).
Qed.

(** [esdm_dataspace_serialize()] writes the compact text of a JSON document from which
    [esdmI_dataspace_createFromJson()] recreates the dataspace, strides included. *)
Theorem dataspace_json_roundtrip (space datasetSpace : esdm_dataspace_t) :
  space_wf space -> dims datasetSpace = dims space -> type datasetSpace = type space ->
  esdm_dataspace_serialize space = Done (render (space_json space)) /\
  esdmI_dataspace_createFromJson (space_json space) datasetSpace =
    (ESDM_SUCCESS, Some (Dataspace (type space) (dims space) (size space) (offset space) false (stride space))).
Proof. apply dataspace_json_ok. Qed.

Lemma dataspace_json_roundtrip_witness :
  let space := Dataspace (Type_ 1 8) 2 [3; 4] [10; -2] false (Some [1; 3]) in
  esdm_dataspace_serialize space = Done (render (space_json space)) /\
  esdmI_dataspace_createFromJson (space_json space) (Dataspace (Type_ 1 8) 2 [0; 9] [0; 0] false None) =
    (ESDM_SUCCESS, Some space).
Proof.
  apply (dataspace_json_roundtrip (Dataspace (Type_ 1 8) 2 [3; 4] [10; -2] false (Some [1; 3]))).
  - constructor; simpl; [done | done | done | by intros s [= <-]].
  - done.
  - done.
Defined.

(** * Extends round trip and sizes *)

(** A dataspace created from the extends of another one has the same shape, and
    [esdmI_dataspace_setExtends()] to the extends of a dataspace copies its shape. *)
Theorem extends_roundtrip (space target : esdm_dataspace_t) (newType : esdm_type_t) :
  space_wf space -> space_int64 space -> dims target = dims space ->
  exists cube, esdmI_dataspace_getExtends space = Done cube /\
  esdmI_dataspace_createFromHypercube cube newType =
    Done (Dataspace newType (dims space) (size space) (offset space) false None) /\
  esdmI_dataspace_setExtends target cube =
    Done (Dataspace (type target) (dims target) (size space) (offset space) (strideBacking target) (stride target)).
Proof.
  intros Hwf H64 Hd. exists (extends space). split; [by apply getExtends_ok |].
  pose proof (getOffsetAndSize_extends space Hwf H64) as E. pose proof (length_extends space Hwf) as Hl.
  pose proof Hwf as [Hd0 _ _ _]. unfold esdmI_dataspace_createFromHypercube, esdmI_dataspace_setExtends,
    esdmI_hypercube_dimensions. rewrite Hl, Hd. split.
  - rewrite eassert_true by (apply Z.geb_le; lia). run. by rewrite E.
  - rewrite eassert_true by (apply Z.eqb_refl). run. by rewrite E.
Qed.

Lemma extends_roundtrip_witness :
  exists cube, esdmI_dataspace_getExtends (Dataspace (Type_ 1 8) 2 [3; 4] [10; -2] false (Some [1; 3])) = Done cube /\
  cube = [Range 10 13; Range (-2) 2].
Proof.
  destruct (extends_roundtrip (Dataspace (Type_ 1 8) 2 [3; 4] [10; -2] false (Some [1; 3]))
             (Dataspace (Type_ 1 8) 2 [0; 0] [0; 0] false None) (Type_ 2 4)) as (cube & E & _).
  - constructor; simpl; [done | done | done | by intros s [= <-]].
  - by repeat constructor.
  - done.
  - exists cube. split; [exact E |]. vm_compute in E. by injection E as <-.
Defined.

Lemma element_count_loop (sizes : list Z) (acc : Z) :
  Forall (fun s => 0 < s) sizes -> 0 <= acc -> acc * prod sizes < 2 ^ 64 ->
  foldl (fun acc s => u64 (acc * s)) acc sizes = acc * prod sizes.
Proof.
  intros Hs. revert acc. induction Hs as [| s l Hs Hl IH]; intros acc Ha Hmax; simpl; [lia |].
  pose proof (prod_pos l Hl). change (foldr Z.mul 1 l) with (prod l) in *.
  change (prod (s :: l)) with (s * prod l) in Hmax.
  assert (u64 (acc * s) = acc * s) as -> by (apply Z.mod_small; nia).
  rewrite IH by nia. lia.
Qed.

Lemma volume_extends (space : esdm_dataspace_t) :
  space_wf space -> Forall (fun s => 0 < s) (size space) -> volume (extends space) = prod (size space).
Proof.
  intros [Hd Hs Ho _] Hpos. unfold extends. assert (length (offset space) = length (size space)) as Hlen by lia.
  clear -Hpos Hlen. revert Hlen. generalize (offset space).
  induction Hpos as [| s l Hs Hl IH]; intros [| o os] Hlen; simpl in *; try lia.
  rewrite IH by lia. unfold rsize. simpl. f_equal. lia.
Qed.

Lemma total_bytes_ok (space : esdm_dataspace_t) :
  space_wf space -> Forall (fun s => 0 < s) (size space) -> 0 < esdm_sizeof (type space) ->
  prod (size space) * esdm_sizeof (type space) <= INT64_MAX ->
  esdm_dataspace_total_bytes space = Done (volume (extends space) * esdm_sizeof (type space)).
Proof.
  intros Hwf Hpos Hsz Hmax. rewrite volume_extends by done. pose proof Hwf as [Hd Hs Ho _].
  pose proof (prod_pos _ Hpos) as Hp.
  unfold esdm_dataspace_total_bytes, esdm_dataspace_element_count. rewrite memdup_ok by done. run.
  unfold INT64_MAX in *. rewrite element_count_loop by (done || nia). unfold to_int64.
  assert (u64 (1 * prod (size space) * esdm_sizeof (type space)) = prod (size space) * esdm_sizeof (type space)) as ->.
  { rewrite Z.mul_1_l. apply Z.mod_small. nia. }
  by rewrite (proj2 (Z.leb_le _ _)) by (unfold INT64_MAX; lia).
Qed.

(** [esdm_dataspace_total_bytes()] is the number of points of the dataspace times the
    element size, as long as that fits an [int64_t]. *)
Theorem total_bytes_correct (space : esdm_dataspace_t) :
  space_wf space -> Forall (fun s => 0 < s) (size space) -> 0 < esdm_sizeof (type space) ->
  prod (size space) * esdm_sizeof (type space) <= INT64_MAX ->
  esdm_dataspace_total_bytes space = Done (volume (extends space) * esdm_sizeof (type space)).
Proof. apply total_bytes_ok. Qed.

Lemma total_bytes_correct_witness :
  esdm_dataspace_total_bytes (Dataspace (Type_ 1 8) 2 [3; 4] [10; 20] false None) = Done 96.
Proof.
  rewrite (total_bytes_correct (Dataspace (Type_ 1 8) 2 [3; 4] [10; 20] false None)).
  - reflexivity.
  - by constructor.
  - by repeat constructor.
  - done.
  - vm_compute. done.
Defined.
