(* ===== verification/Convert.v ===== *)
(** Element conversion (src/utils/auxiliary.c): the byte level effect of the functions
    [ea_converter_for_types()] selects. *)

From S2P Require Import Prelude Hypercube Json Dataspace.

Open Scope Z_scope.

(** * Memory

    A buffer is a function from byte offsets to byte values. *)
Definition mem : Type := Z -> Z.

Definition read_bytes (m : mem) (a n : Z) : list Z := (fun i => m (a + Z.of_nat i)) <$> seq 0 (Z.to_nat n).

Definition write_bytes (m : mem) (a : Z) (bytes : list Z) : mem := fun x =>
  if (a <=? x) && (x <? a + Z.of_nat (length bytes)) then default 0 (bytes !! Z.to_nat (x - a)) else m x.

(** * The fundamental types *)

Inductive basic_type :=
| BasicInt (signed : bool)
| BasicFloat.

(** The type objects of the smd library that have a converter, with the C type each
    one stands for. *)
Definition SMD_DTYPE_INT8 := Type_ 1 1.
Definition SMD_DTYPE_INT16 := Type_ 2 2.
Definition SMD_DTYPE_INT32 := Type_ 3 4.
Definition SMD_DTYPE_INT64 := Type_ 4 8.
Definition SMD_DTYPE_UINT8 := Type_ 5 1.
Definition SMD_DTYPE_UINT16 := Type_ 6 2.
Definition SMD_DTYPE_UINT32 := Type_ 7 4.
Definition SMD_DTYPE_UINT64 := Type_ 8 8.
Definition SMD_DTYPE_FLOAT := Type_ 9 4.
Definition SMD_DTYPE_DOUBLE := Type_ 10 8.

Definition basicTypes : list (esdm_type_t * basic_type) :=
  [(SMD_DTYPE_INT8, BasicInt true); (SMD_DTYPE_INT16, BasicInt true); (SMD_DTYPE_INT32, BasicInt true);
   (SMD_DTYPE_INT64, BasicInt true); (SMD_DTYPE_UINT8, BasicInt false); (SMD_DTYPE_UINT16, BasicInt false);
   (SMD_DTYPE_UINT32, BasicInt false); (SMD_DTYPE_UINT64, BasicInt false);
   (SMD_DTYPE_FLOAT, BasicFloat); (SMD_DTYPE_DOUBLE, BasicFloat)].

Fixpoint lookupBasic (types : list (esdm_type_t * basic_type)) (t : esdm_type_t) : option basic_type :=
  match types with
  | [] => None
  | (u, b) :: rest => if decide (u = t) then Some b else lookupBasic rest t
  end.

(** * Integer representations *)

(** Little-endian bytes. *)
Fixpoint decode_unsigned (bytes : list Z) : Z :=
  match bytes with
  | [] => 0
  | b :: rest => b + 256 * decode_unsigned rest
  end.

Definition decode (signed : bool) (bytes : list Z) : Z :=
  let v := decode_unsigned bytes in
  let bits := 8 * Z.of_nat (length bytes) in
  if signed && (2 ^ (bits - 1) <=? v) then v - 2 ^ bits else v.

Fixpoint encode (n : nat) (z : Z) : list Z :=
  match n with
  | O => []
  | S n' => z mod 256 :: encode n' (z / 256)
  end.

Section Converters.

(** The C casts from or to a floating point type: destination and source type, and the
    bytes of the source element. *)
Context (floatCast : esdm_type_t -> esdm_type_t -> list Z -> list Z).

(** [(destType)source[i]] for one element. *)
Definition castElement (dest source : esdm_type_t) (bytes : list Z) : list Z :=
  match lookupBasic basicTypes dest, lookupBasic basicTypes source with
  | Some (BasicInt _), Some (BasicInt signed) =>
      encode (Z.to_nat (esdm_sizeof dest)) (decode signed bytes)
  | _, _ => floatCast dest source bytes
  end.

(** [for(i = 0; i < elementCount; i++) dest[i] = (destType)source[i];] from element [i]. *)
Fixpoint convert_loop (count : nat) (i : Z) (destType sourceType : esdm_type_t)
    (source : mem) (s : Z) (dest : mem) (d : Z) : mem :=
  match count with
  | O => dest
  | S count' =>
      convert_loop count' (i + 1) destType sourceType source s
        (write_bytes dest (d + i * esdm_sizeof destType)
           (castElement destType sourceType
              (read_bytes source (s + i * esdm_sizeof sourceType) (esdm_sizeof sourceType)))) d
  end.

(** The functions the macro [defineConverter] generates. *)
Definition convert_from_to (destType sourceType : esdm_type_t)
    (source : mem) (s : Z) (dest : mem) (d : Z) (sourceBytes : Z) : outcome mem :=
  let elementCount := sourceBytes / esdm_sizeof sourceType in
  eassert (elementCount * esdm_sizeof sourceType =? sourceBytes);;
  mret (convert_loop (Z.to_nat elementCount) 0 destType sourceType source s dest d).

Definition memcpy (source : mem) (s : Z) (dest : mem) (d : Z) (bytes : Z) : outcome mem :=
  mret (write_bytes dest d (read_bytes source s bytes)).

Definition ea_datatype_converter : Type := mem -> Z -> mem -> Z -> Z -> outcome mem.

Definition ea_converter_for_types (requestDestType requestSourceType : esdm_type_t) : option ea_datatype_converter :=
  if decide (requestDestType = requestSourceType) then Some memcpy
  else
    match lookupBasic basicTypes requestSourceType with
    | Some _ =>
        match lookupBasic basicTypes requestDestType with
        | Some _ => Some (convert_from_to requestDestType requestSourceType)
        | None => None
        end
    | None => None
    end.

(** What one element becomes. *)
Definition element (destType sourceType : esdm_type_t) (bytes : list Z) : list Z :=
  if decide (destType = sourceType) then bytes else castElement destType sourceType bytes.

Context (Hcast : forall d s bytes, 0 <= esdm_sizeof d -> Z.of_nat (length (floatCast d s bytes)) = esdm_sizeof d).

(** * The effect of a converter *)

Lemma length_read_bytes (m : mem) (a n : Z) : 0 <= n -> Z.of_nat (length (read_bytes m a n)) = n.
Proof. intros Hn. unfold read_bytes. rewrite length_fmap, length_seq. lia. Qed.

Lemma length_encode (n : nat) (z : Z) : length (encode n z) = n.
Proof. revert z. induction n as [| n IH]; intros z; simpl; [done |]. by rewrite IH. Qed.

Lemma length_castElement (d s : esdm_type_t) (bytes : list Z) :
  0 <= esdm_sizeof d -> Z.of_nat (length (castElement d s bytes)) = esdm_sizeof d.
Proof.
  intros Hd. unfold castElement. destruct (lookupBasic basicTypes d) as [[] |]; [| by apply Hcast | by apply Hcast].
  destruct (lookupBasic basicTypes s) as [[] |]; [| by apply Hcast | by apply Hcast]. rewrite length_encode. lia.
Qed.

(** The memory [dest'] is [dest] with converted elements written at some places: each
    pair [P s d] is an element at [s] of the source written to [d] of the destination. *)
Definition copied (destType sourceType : esdm_type_t) (source : mem) (P : Z -> Z -> Prop) (dest dest' : mem) : Prop :=
  forall a,
  (exists s d, P s d /\ d <= a < d + esdm_sizeof destType /\
     element destType sourceType (read_bytes source s (esdm_sizeof sourceType)) !! Z.to_nat (a - d) = Some (dest' a)) \/
  ((forall s d, P s d -> ~ (d <= a < d + esdm_sizeof destType)) /\ dest' a = dest a).

Lemma copied_none (dt st : esdm_type_t) (source dest : mem) (P : Z -> Z -> Prop) :
  (forall s d, ~ P s d) -> copied dt st source P dest dest.
Proof. intros HP a. right. split; [| done]. intros s d H. destruct (HP s d H). Qed.

Lemma copied_seq (dt st : esdm_type_t) (source m1 m2 m3 : mem) (P Q : Z -> Z -> Prop) :
  copied dt st source P m1 m2 -> copied dt st source Q m2 m3 ->
  copied dt st source (fun s d => P s d \/ Q s d) m1 m3.
Proof.
  intros H1 H2 a. destruct (H2 a) as [(s & d & HQ & Hd & E) | [HQ E]].
  - left. exists s, d. auto.
  - rewrite E. destruct (H1 a) as [(s & d & HP & Hd & E') | [HP E']].
    + left. exists s, d. auto.
    + right. split; [| done]. intros s d [H | H]; [exact (HP s d H) | exact (HQ s d H)].
Qed.

Lemma copied_ext (dt st : esdm_type_t) (source m1 m2 : mem) (P Q : Z -> Z -> Prop) :
  (forall s d, P s d <-> Q s d) -> copied dt st source P m1 m2 -> copied dt st source Q m1 m2.
Proof.
  intros HPQ H a. destruct (H a) as [(s & d & HP & Hd & E) | [HP E]].
  - left. exists s, d. split; [by apply HPQ | done].
  - right. split; [| done]. intros s d HQ. apply (HP s d). by apply HPQ.
Qed.

Lemma write_bytes_in (m : mem) (a x : Z) (bytes : list Z) (b : Z) :
  a <= x -> bytes !! Z.to_nat (x - a) = Some b -> write_bytes m a bytes x = b.
Proof.
  intros Ha Hb. unfold write_bytes. pose proof (lookup_lt_Some _ _ _ Hb).
  rewrite (proj2 (Z.leb_le _ _)), (proj2 (Z.ltb_lt _ _)) by lia. simpl. by rewrite Hb.
Qed.

Lemma write_bytes_out (m : mem) (a x : Z) (bytes : list Z) :
  ~ (a <= x < a + Z.of_nat (length bytes)) -> write_bytes m a bytes x = m x.
Proof.
  intros Ha. unfold write_bytes. destruct (Z.leb_spec a x), (Z.ltb_spec x (a + Z.of_nat (length bytes))); simpl; try done. lia.
Qed.

(** Writing one converted element. *)
Lemma copied_one (dt st : esdm_type_t) (source dest : mem) (s d : Z) :
  dt <> st -> 0 <= esdm_sizeof dt ->
  copied dt st source (fun s' d' => s' = s /\ d' = d) dest
    (write_bytes dest d (castElement dt st (read_bytes source s (esdm_sizeof st)))).
Proof.
  intros Hne Hdt a. set (bytes := castElement dt st (read_bytes source s (esdm_sizeof st))).
  pose proof (length_castElement dt st (read_bytes source s (esdm_sizeof st)) Hdt) as Hlen. fold bytes in Hlen.
  destruct (decide (d <= a < d + esdm_sizeof dt)) as [Ha | Ha].
  - left. exists s, d. split; [done |]. split; [done |]. unfold element. rewrite decide_False by done.
    fold bytes. destruct (lookup_lt_is_Some_2 bytes (Z.to_nat (a - d))) as [b Hb]; [lia |].
    rewrite (write_bytes_in dest d a bytes b) by (done || lia). done.
  - right. split; [intros s' d' [-> ->]; done |]. apply write_bytes_out. lia.
Qed.

Lemma convert_loop_copied (count : nat) (i : Z) (dt st : esdm_type_t) (source dest : mem) (s d : Z) :
  dt <> st -> 0 <= esdm_sizeof dt ->
  copied dt st source
    (fun s' d' => exists t, i <= t < i + Z.of_nat count /\ s' = s + t * esdm_sizeof st /\ d' = d + t * esdm_sizeof dt)
    dest (convert_loop count i dt st source s dest d).
Proof.
  intros Hne Hdt. revert i dest. induction count as [| count IH]; intros i dest; cbn [convert_loop].
  { apply copied_none. intros s' d' (t & Ht & _). lia. }
  eapply copied_ext; [| eapply copied_seq; [by apply copied_one | apply (IH (i + 1))]].
  intros s' d'. cbn beta. split.
  - intros [[-> ->] | (t & Ht & -> & ->)]; [exists i | exists t]; split; (done || lia).
  - intros (t & Ht & -> & ->). destruct (decide (t = i)) as [-> | Hn]; [by left |].
    right. exists t. split; [lia | done].
Qed.

Lemma lookup_read_bytes (m : mem) (a n i : Z) :
  0 <= i < n -> read_bytes m a n !! Z.to_nat i = Some (m (a + i)).
Proof.
  intros Hi. unfold read_bytes. rewrite list_lookup_fmap, lookup_seq_lt by lia. simpl.
  f_equal. f_equal. lia.
Qed.

(** [memcpy()] of whole elements copies them one by one. *)
Lemma memcpy_copied (t : esdm_type_t) (source dest : mem) (s d n : Z) :
  0 < esdm_sizeof t -> 0 <= n ->
  copied t t source
    (fun s' d' => exists k, 0 <= k < n /\ s' = s + k * esdm_sizeof t /\ d' = d + k * esdm_sizeof t)
    dest (write_bytes dest d (read_bytes source s (n * esdm_sizeof t))).
Proof.
  intros Ht Hn a. set (z := esdm_sizeof t) in *.
  pose proof (length_read_bytes source s (n * z) ltac:(nia)) as Hlen.
  destruct (decide (d <= a < d + n * z)) as [Ha | Ha].
  - left. set (k := (a - d) / z). pose proof (Z.div_mod (a - d) z ltac:(lia)) as Hdm.
    pose proof (Z.mod_pos_bound (a - d) z Ht) as Hmod.
    assert (Hk : 0 <= k < n) by (split; [apply Z.div_pos | apply Z.div_lt_upper_bound]; lia).
    fold k in Hdm. exists (s + k * z), (d + k * z). split; [by exists k |]. split; [lia |].
    unfold element. rewrite decide_True by done. rewrite lookup_read_bytes by lia.
    rewrite (write_bytes_in dest d a _ (source (s + (a - d)))) by (lia || (apply lookup_read_bytes; lia)).
    f_equal. f_equal. lia.
  - right. split.
    + intros s' d' (k & Hk & -> & ->) Hd. apply Ha. nia.
    + apply write_bytes_out. lia.
Qed.

(** A converter applied to [n] elements writes each of them. *)
Lemma converter_copied (dt st : esdm_type_t) (conv : ea_datatype_converter) (source dest : mem) (s d n : Z) :
  ea_converter_for_types dt st = Some conv -> 0 < esdm_sizeof dt -> 0 < esdm_sizeof st -> 0 <= n ->
  exists dest', conv source s dest d (n * esdm_sizeof st) = Done dest' /\
  copied dt st source
    (fun s' d' => exists k, 0 <= k < n /\ s' = s + k * esdm_sizeof st /\ d' = d + k * esdm_sizeof dt) dest dest'.
Proof.
  intros Hconv Hdt Hst Hn. unfold ea_converter_for_types in Hconv.
  destruct (decide (dt = st)) as [-> | Hne].
  - injection Hconv as <-. eexists. split; [reflexivity |]. by apply memcpy_copied.
  - assert (conv = convert_from_to dt st) as ->.
    { destruct (lookupBasic basicTypes st); [| done]. destruct (lookupBasic basicTypes dt); [| done]. by injection Hconv. }
    unfold convert_from_to. rewrite Z.div_mul by lia. rewrite eassert_true by (apply Z.eqb_refl). run.
    eexists. split; [reflexivity |].
    eapply copied_ext; [| apply (convert_loop_copied (Z.to_nat n) 0); [done | lia]].
    intros s' d'. cbn beta. split; intros (t & Ht & H); exists t; (split; [lia | exact H]).
Qed.

(** * Integer conversions *)

Lemma decode_unsigned_encode (n : nat) (z : Z) : decode_unsigned (encode n z) = z mod 2 ^ (8 * Z.of_nat n).
Proof.
  revert z. induction n as [| n IH]; intros z; cbn [encode decode_unsigned].
  - by rewrite Z.mod_1_r.
  - rewrite IH. replace (8 * Z.of_nat (S n)) with (8 + 8 * Z.of_nat n) by lia.
    rewrite Z.pow_add_r by lia. change (2 ^ 8) with 256.
    rewrite Z.rem_mul_r by lia. lia.
Qed.

(** The value a C integer type of [n] bytes stores for [z]. *)
Definition wrapped (signed : bool) (n : nat) (z : Z) : Z :=
  let bits := 8 * Z.of_nat n in
  let v := z mod 2 ^ bits in
  if signed && (2 ^ (bits - 1) <=? v) then v - 2 ^ bits else v.

Definition representable (signed : bool) (n : nat) (z : Z) : Prop :=
  let bits := 8 * Z.of_nat n in
  if signed then - 2 ^ (bits - 1) <= z < 2 ^ (bits - 1) else 0 <= z < 2 ^ bits.

Lemma decode_encode (signed : bool) (n : nat) (z : Z) : decode signed (encode n z) = wrapped signed n z.
Proof. unfold decode, wrapped. by rewrite decode_unsigned_encode, length_encode. Qed.

Lemma wrapped_representable (signed : bool) (n : nat) (z : Z) :
  (0 < n)%nat -> representable signed n z -> wrapped signed n z = z.
Proof.
  intros Hn. unfold representable, wrapped. set (bits := 8 * Z.of_nat n).
  assert (Hpow : 2 ^ bits = 2 * 2 ^ (bits - 1)).
  { rewrite <- Z.pow_succ_r by lia. f_equal. lia. }
  pose proof (Z.pow_pos_nonneg 2 (bits - 1) ltac:(lia) ltac:(lia)) as Hp.
  destruct signed; simpl; intros Hz.
  - destruct (Z.leb_spec 0 z).
    + rewrite Z.mod_small by lia. rewrite (proj2 (Z.leb_gt _ _)) by lia. done.
    + assert (z mod 2 ^ bits = z + 2 ^ bits) as ->.
      { symmetry. apply (Z.mod_unique_pos z (2 ^ bits) (-1)); lia. }
      rewrite (proj2 (Z.leb_le _ _)) by lia. lia.
  - apply Z.mod_small. lia.
Qed.

(** The converter of two different integer types turns the element [v] of the source into the
    element [v] of the destination when the destination type can represent it, and into
    [v] modulo the width otherwise. *)
Theorem integer_conversion_correct (dt st : esdm_type_t) (dsigned ssigned : bool) (source dest : mem) (s d : Z)
    (conv : ea_datatype_converter) :
  lookupBasic basicTypes dt = Some (BasicInt dsigned) -> lookupBasic basicTypes st = Some (BasicInt ssigned) ->
  dt <> st -> ea_converter_for_types dt st = Some conv ->
  exists dest', conv source s dest d (esdm_sizeof st) = Done dest' /\
  let v := decode ssigned (read_bytes source s (esdm_sizeof st)) in
  decode dsigned (read_bytes dest' d (esdm_sizeof dt)) = wrapped dsigned (Z.to_nat (esdm_sizeof dt)) v /\
  (representable dsigned (Z.to_nat (esdm_sizeof dt)) v ->
   decode dsigned (read_bytes dest' d (esdm_sizeof dt)) = v).
Proof.
  intros Hdt Hst Hne Hconv.
  assert (Hpos : forall t b, lookupBasic basicTypes t = Some b -> 0 < esdm_sizeof t).
  { intros t b. simpl. repeat (case_decide; [subst; intros _; vm_compute; done |]). done. }
  pose proof (Hpos _ _ Hdt) as Hd. pose proof (Hpos _ _ Hst) as Hs.
  destruct (converter_copied dt st conv source dest s d 1 Hconv Hd Hs) as (dest' & E & Hc); [lia |].
  rewrite Z.mul_1_l in E. exists dest'. split; [exact E |]. cbv zeta.
  set (v := decode ssigned (read_bytes source s (esdm_sizeof st))).
  assert (Hbytes : read_bytes dest' d (esdm_sizeof dt) = encode (Z.to_nat (esdm_sizeof dt)) v).
  { apply list_eq_same_length with (n := Z.to_nat (esdm_sizeof dt)).
    - apply length_encode.
    - unfold read_bytes. by rewrite length_fmap, length_seq.
    - intros i x y Hi Hx Hy. replace i with (Z.to_nat (Z.of_nat i)) in Hx, Hy by lia.
      rewrite lookup_read_bytes in Hx by lia. injection Hx as <-.
      destruct (Hc (d + Z.of_nat i)) as [(s' & d' & (k & Hk & -> & ->) & Hr & Hel) | [Hno _]].
      + assert (k = 0) as -> by lia. rewrite !Z.mul_0_l, !Z.add_0_r in Hel.
        unfold element, castElement in Hel. rewrite decide_False, Hdt, Hst in Hel by done.
        replace (d + Z.of_nat i - d) with (Z.of_nat i) in Hel by lia. fold v in Hel. congruence.
      + exfalso. apply (Hno s d); [exists 0; lia | lia]. }
  rewrite Hbytes, decode_encode. split; [done |]. apply wrapped_representable. lia.
Qed.

End Converters.

(** A stand-in for the floating point casts that has the right lengths. *)
Definition zeroCast (d s : esdm_type_t) (bytes : list Z) : list Z := replicate (Z.to_nat (esdm_sizeof d)) 0.

Lemma length_zeroCast (d s : esdm_type_t) (bytes : list Z) :
  0 <= esdm_sizeof d -> Z.of_nat (length (zeroCast d s bytes)) = esdm_sizeof d.
Proof. intros Hd. unfold zeroCast. rewrite length_replicate. lia. Qed.

(** A negative 16 bit number widened to 32 bits. *)
Lemma integer_conversion_correct_witness :
  let source : mem := fun a => if a =? 0 then 254 else 255 in
  exists dest', convert_from_to zeroCast SMD_DTYPE_INT32 SMD_DTYPE_INT16 source 0 (fun _ => 0) 0 2 = Done dest' /\
  decode true (read_bytes dest' 0 4) = -2.
Proof.
  intros source.
  destruct (integer_conversion_correct zeroCast length_zeroCast SMD_DTYPE_INT32 SMD_DTYPE_INT16 true true
    source (fun _ => 0) 0 0 (convert_from_to zeroCast SMD_DTYPE_INT32 SMD_DTYPE_INT16)) as (dest' & E & _ & H).
  - reflexivity.
  - reflexivity.
  - discriminate.
  - reflexivity.
  - exists dest'. split; [exact E |]. apply H. vm_compute. split; [discriminate | reflexivity].
Defined.
