(* ===== verification/CopyData.v ===== *)
(** Copying data between dataspaces (src/esdm-scheduler.c): the planning of memcpy()
    instructions, their execution, and the direct I/O test. *)

From S2P Require Import Prelude Hypercube Json Odometer Dataspace Convert.

Open Scope Z_scope.

(** * Planning *)

(** [for(curDim = dimensions; curDim--; ) if(...) break;] below [i]; [None] is -1. *)
Fixpoint fuse_find (i : nat) (memcpyDims : list bool) (sourceStride destStride : list Z) (chunkSize : Z)
    : outcome (option nat) :=
  match i with
  | O => mret None
  | S curDim =>
      if negb (nthB memcpyDims curDim) && (nthZ sourceStride curDim =? nthZ destStride curDim) then
        absStride ← abs_int64 (nthZ sourceStride curDim);
        if absStride =? chunkSize then mret (Some curDim)
        else fuse_find curDim memcpyDims sourceStride destStride chunkSize
      else fuse_find curDim memcpyDims sourceStride destStride chunkSize
  end.

(** The [while(true)] loop that fuses dimensions into one memcpy() chunk. *)
Fixpoint fuse_loop (fuel : nat) (overlapSize sourceSize destSize sourceStride destStride : list Z)
    (memcpyDims : list bool) (dataPointerOffset chunkSize : Z) : outcome (list bool * Z * Z) :=
  match fuel with
  | O => Undef
  | S fuel' =>
      found ← fuse_find (length memcpyDims) memcpyDims sourceStride destStride chunkSize;
      match found with
      | Some curDim =>
          let memcpyDims' := <[curDim := true]> memcpyDims in
          dataPointerOffset' ←
            (if nthZ sourceStride curDim <? 0
             then (last ← chk64 (nthZ overlapSize curDim - 1);
                   skipped ← chk64 (chunkSize * last);
                   chk64 (dataPointerOffset + skipped))
             else mret dataPointerOffset);
          chunkSize' ← chk64 (chunkSize * nthZ overlapSize curDim);
          if negb (nthZ overlapSize curDim =? nthZ sourceSize curDim) ||
             negb (nthZ overlapSize curDim =? nthZ destSize curDim)
          then mret (memcpyDims', dataPointerOffset', chunkSize')
          else fuse_loop fuel' overlapSize sourceSize destSize sourceStride destStride
                 memcpyDims' dataPointerOffset' chunkSize'
      | None => mret (memcpyDims, dataPointerOffset, chunkSize)
      end
  end.

(** The inner loop that picks the unselected dimension with the largest jump;
    [None] is [bestDim < 0]. *)
Fixpoint best_loop (n dim : nat) (selectedDims : list bool) (sourceStride destStride : list Z)
    (bestDim : option nat) (jumpFactor : Z) : outcome (option nat) :=
  match n with
  | O => mret bestDim
  | S n' =>
      if negb (nthB selectedDims dim) then
        sourceJump ← abs_int64 (nthZ sourceStride dim);
        destJump ← abs_int64 (nthZ destStride dim);
        let curJumpFactor := Z.min sourceJump destJump in
        if match bestDim with None => true | Some _ => jumpFactor <? curJumpFactor end
        then best_loop n' (S dim) selectedDims sourceStride destStride (Some dim) curJumpFactor
        else best_loop n' (S dim) selectedDims sourceStride destStride bestDim jumpFactor
      else best_loop n' (S dim) selectedDims sourceStride destStride bestDim jumpFactor
  end.

(** [memcpyDim2LogicalDim]: the remaining dimensions, outermost first. *)
Fixpoint order_loop (fuel : nat) (selectedDims : list bool) (sourceStride destStride : list Z)
    : outcome (list nat) :=
  match fuel with
  | O => Undef
  | S fuel' =>
      bestDim ← best_loop (length selectedDims) 0 selectedDims sourceStride destStride None 0;
      match bestDim with
      | Some bestDim =>
          rest ← order_loop fuel' (<[bestDim := true]> selectedDims) sourceStride destStride;
          mret (bestDim :: rest)
      | None => mret []
      end
  end.

(** One loop of the copy: the slice count and the relative byte strides. *)
Record instruction := Instruction { iSize : Z; relSourceStride : Z; relDestStride : Z }.

(** Make the stride of the last instruction relative to a new inner one. *)
Definition makeRelative (prev : list instruction) (inner : instruction) : outcome (list instruction) :=
  match last prev with
  | Some p =>
      sourceRun ← chk64 (iSize inner * relSourceStride inner);
      s ← chk64 (relSourceStride p - sourceRun);
      destRun ← chk64 (iSize inner * relDestStride inner);
      d ← chk64 (relDestStride p - destRun);
      mret (take (length prev - 1) prev ++ [Instruction (iSize p) s d])
  | None => mret []
  end.

(** The element sizes are [uint64_t]: the products with them wrap and are stored into
    [int64_t] variables. *)
Fixpoint instruction_loop (order : list nat) (overlapSize sourceStride destStride : list Z)
    (sourceElementSize destElementSize : Z) (acc : list instruction) : outcome (list instruction) :=
  match order with
  | [] => mret acc
  | logicalDim :: order' =>
      let inner := Instruction (nthZ overlapSize logicalDim) (to_int64 (nthZ sourceStride logicalDim * sourceElementSize))
                     (to_int64 (nthZ destStride logicalDim * destElementSize)) in
      prev ← makeRelative acc inner;
      instruction_loop order' overlapSize sourceStride destStride sourceElementSize destElementSize (prev ++ [inner])
  end.

(** [index += (overlapOffset[i] - offset[i])*stride[i]] over all dimensions; the source
    and the destination index share the loop of the code. *)
Fixpoint baseIndex (overlapOffset offset stride : list Z) (index : Z) : outcome Z :=
  match overlapOffset, offset, stride with
  | x :: overlapOffset', o :: offset', t :: stride' =>
      distance ← chk64 (x - o);
      step ← chk64 (distance * t);
      index' ← chk64 (index + step);
      baseIndex overlapOffset' offset' stride' index'
  | _, _, _ => mret index
  end.

(** The output parameters of [esdmI_dataspace_copy_instructions()]. *)
Record copy_plan := CopyPlan {
  instructions : list instruction;
  sourceChunkBytes : Z;
  sourceOffset : Z;
  destOffset : Z
}.

(** [None]: the function returned without writing its output parameters. *)
Definition esdmI_dataspace_copy_instructions (sourceSpace destSpace : esdm_dataspace_t)
    : outcome (option copy_plan) :=
  eassert (dims sourceSpace =? dims destSpace);;
  let dimensions := Z.to_nat (dims sourceSpace) in
  sourceExtends ← esdmI_dataspace_getExtends sourceSpace;
  destExtends ← esdmI_dataspace_getExtends destSpace;
  overlap ← esdmI_hypercube_makeIntersection sourceExtends destExtends;
  match overlap with
  | None => mret None
  | Some overlap =>
      '(overlapOffset, overlapSize) ← esdmI_hypercube_getOffsetAndSize overlap;
      sourceStride ← esdm_dataspace_getEffectiveStride sourceSpace;
      destStride ← esdm_dataspace_getEffectiveStride destSpace;
      '(memcpyDims, dataPointerOffset, chunkSize) ←
        fuse_loop (S dimensions) overlapSize (size sourceSpace) (size destSpace) sourceStride destStride
          (replicate dimensions false) 0 1;
      order ← order_loop (S dimensions) memcpyDims sourceStride destStride;
      let sourceElementSize := esdm_sizeof (type sourceSpace) in
      let destElementSize := esdm_sizeof (type destSpace) in
      instructions ← instruction_loop order overlapSize sourceStride destStride sourceElementSize destElementSize [];
      sourceIndex ← baseIndex overlapOffset (offset sourceSpace) sourceStride 0;
      destIndex ← baseIndex overlapOffset (offset destSpace) destStride 0;
      sourceStart ← chk64 (sourceIndex - dataPointerOffset);
      destStart ← chk64 (destIndex - dataPointerOffset);
      mret (Some (CopyPlan instructions (to_int64 (chunkSize * sourceElementSize))
        (to_int64 (sourceStart * sourceElementSize)) (to_int64 (destStart * destElementSize))))
  end.

(** * Execution *)

(** The [for(i = instructionDims; i--; )] loop after one chunk, innermost loop first: the
    new counters and data pointers, or [None] when all loops are done. *)
Fixpoint advance (inner : list instruction) (counters : list Z) (sourceData destData : Z)
    : option (list Z * Z * Z) :=
  match inner, counters with
  | ins :: inner', c :: counters' =>
      let sourceData := sourceData + relSourceStride ins in
      let destData := destData + relDestStride ins in
      if c + 1 <? iSize ins then Some (c + 1 :: counters', sourceData, destData)
      else
        match advance inner' counters' sourceData destData with
        | Some (counters'', s, d) => Some (0 :: counters'', s, d)
        | None => None
        end
  | _, _ => None
  end.

(** The [while(true)] loop; [counters] and [inner] are innermost first. *)
Fixpoint execute_loop (fuel : nat) (converter : ea_datatype_converter) (source : mem) (inner : list instruction)
    (chunkSize : Z) (counters : list Z) (sourceData destData : Z) (dest : mem) : outcome mem :=
  match fuel with
  | O => Undef
  | S fuel' =>
      dest' ← converter source sourceData dest destData chunkSize;
      match advance inner counters sourceData destData with
      | Some (counters', s, d) => execute_loop fuel' converter source inner chunkSize counters' s d dest'
      | None => mret dest'
      end
  end.

Section Copy.

Context (floatCast : esdm_type_t -> esdm_type_t -> list Z -> list Z).

(** Reading [instructionDims] after a plan that was not written is undefined. *)
Definition esdm_dataspace_copy_data (sourceSpace : esdm_dataspace_t) (source : mem)
    (destSpace : esdm_dataspace_t) (dest : mem) : outcome (esdm_status * mem) :=
  eassert (dims sourceSpace =? dims destSpace);;
  match ea_converter_for_types floatCast (type destSpace) (type sourceSpace) with
  | None => mret (ESDM_ERROR, dest)
  | Some converter =>
      plan ← esdmI_dataspace_copy_instructions sourceSpace destSpace;
      plan ← deref plan;
      let inner := rev (instructions plan) in
      dest' ← execute_loop (S (Z.to_nat (prod (iSize <$> inner)))) converter source inner (sourceChunkBytes plan)
                (replicate (length inner) 0) (sourceOffset plan) (destOffset plan) dest;
      mret (ESDM_SUCCESS, dest')
  end.

(** The part of a fragment the direct I/O test looks at: its dataspace, and whether a
    buffer is attached.  The result is the decision and, for a positive one that attaches the
    user's buffer, the byte offset of the fragment's data in it. *)
Definition esdmI_scheduler_try_direct_io (dataspace : esdm_dataspace_t) (haveBuffer : bool) (da : esdm_dataspace_t)
    : outcome (bool * option Z) :=
  if negb (bool_decide (type dataspace = type da)) then mret (false, None)
  else
    eassert (dims dataspace =? dims da);;
    plan ← esdmI_dataspace_copy_instructions dataspace da;
    plan ← deref plan;
    if 0 <? Z.of_nat (length (instructions plan)) then mret (false, None)
    else
      total ← esdm_dataspace_total_bytes dataspace;
      if negb (total =? sourceChunkBytes plan) then mret (false, None)
      else if haveBuffer then mret (false, None)
      else
        eassert (sourceOffset plan =? 0);;
        mret (true, Some (destOffset plan)).

(** [data] and [fillElement] are buffers; null pointers are reported by the callers. *)
Definition esdm_dataspace_fill (dataspace : esdm_dataspace_t) (data fillElement : mem) : outcome (esdm_status * mem) :=
  let dimensions := esdm_dataspace_get_dims dataspace in
  sourceSpace ← esdm_dataspace_create dimensions (size dataspace) (type dataspace);
  o ← memdup (offset dataspace) dimensions;
  let sourceSpace := Dataspace (type sourceSpace) (dims sourceSpace) (size sourceSpace) o
                       (strideBacking sourceSpace) (stride sourceSpace) in
  '(ret, sourceSpace) ← esdm_dataspace_set_stride sourceSpace (replicate (Z.to_nat dimensions) 0);
  eassert (bool_decide (ret = ESDM_SUCCESS));;
  '(_, data') ← esdm_dataspace_copy_data sourceSpace fillElement dataspace data;
  mret (ESDM_SUCCESS, data').

End Copy.

(** * The plan in unbounded arithmetic *)

Fixpoint find_dim (i : nat) (mask : list bool) (ss ds : list Z) (chunk : Z) : option nat :=
  match i with
  | O => None
  | S k =>
      if negb (nthB mask k) && (nthZ ss k =? nthZ ds k) && (Z.abs (nthZ ss k) =? chunk) then Some k
      else find_dim k mask ss ds chunk
  end.

Fixpoint best_dim (n dim : nat) (sel : list bool) (ss ds : list Z) (best : option nat) (jump : Z) : option nat :=
  match n with
  | O => best
  | S n' =>
      if negb (nthB sel dim) then
        let cur := Z.min (Z.abs (nthZ ss dim)) (Z.abs (nthZ ds dim)) in
        if match best with None => true | Some _ => jump <? cur end
        then best_dim n' (S dim) sel ss ds (Some dim) cur
        else best_dim n' (S dim) sel ss ds best jump
      else best_dim n' (S dim) sel ss ds best jump
  end.

Definition subtract_run (prev : list instruction) (inner : instruction) : list instruction :=
  match last prev with
  | Some p => take (length prev - 1) prev ++
      [Instruction (iSize p) (relSourceStride p - iSize inner * relSourceStride inner)
         (relDestStride p - iSize inner * relDestStride inner)]
  | None => []
  end.

Fixpoint plan_loops (order : list nat) (os ss ds : list Z) (ssz dsz : Z) (acc : list instruction) : list instruction :=
  match order with
  | [] => acc
  | k :: order' =>
      let inner := Instruction (nthZ os k) (nthZ ss k * ssz) (nthZ ds k * dsz) in
      plan_loops order' os ss ds ssz dsz (subtract_run acc inner ++ [inner])
  end.

(** Strides whose absolute values are representable. *)
Definition abs_fits (st : list Z) : Prop := forall k, Z.abs (nthZ st k) <= INT64_MAX.

Lemma fuse_find_ok (i : nat) (mask : list bool) (ss ds : list Z) (chunk : Z) :
  abs_fits ss -> fuse_find i mask ss ds chunk = Done (find_dim i mask ss ds chunk).
Proof.
  intros Hs. induction i as [| k IH]; [done |]. cbn [fuse_find find_dim].
  destruct (negb (nthB mask k) && (nthZ ss k =? nthZ ds k)); [| exact IH]. rewrite abs_int64_ok by apply Hs. run.
  cbn [andb]. destruct (Z.abs (nthZ ss k) =? chunk); [done | exact IH].
Qed.

Lemma best_loop_ok (n dim : nat) (sel : list bool) (ss ds : list Z) (best : option nat) (jump : Z) :
  abs_fits ss -> abs_fits ds -> best_loop n dim sel ss ds best jump = Done (best_dim n dim sel ss ds best jump).
Proof.
  intros Hs Hd. revert dim best jump. induction n as [| n IH]; intros dim best jump; [done |]. cbn [best_loop best_dim].
  destruct (negb (nthB sel dim)); [| apply IH]. rewrite !abs_int64_ok by (apply Hs || apply Hd). run.
  destruct (match best with None => true | Some _ => _ end); apply IH.
Qed.

(** * Sums over dimensions *)

Definition sumf (ks : list nat) (f : nat -> Z) : Z := foldr (fun k acc => f k + acc) 0 ks.

Lemma sumf_app (ks ls : list nat) (f : nat -> Z) : sumf (ks ++ ls) f = sumf ks f + sumf ls f.
Proof. induction ks as [| k ks IH]; simpl; [done | lia]. Qed.

#[global] Instance sumf_perm : Proper ((≡ₚ) ==> (=) ==> (=)) sumf.
Proof.
  intros ks ls Hp f ? <-. induction Hp as [| k ks ls _ IH | k l ks | ks ls ms _ IH1 _ IH2]; simpl; lia.
Qed.

Lemma sumf_ext (ks : list nat) (f g : nat -> Z) :
  (forall k, k ∈ ks -> f k = g k) -> sumf ks f = sumf ks g.
Proof.
  induction ks as [| k ks IH]; intros H; simpl; [done |].
  rewrite (H k) by left. f_equal. apply IH. intros j Hj. apply H. by right.
Qed.

Lemma sumf_mul (ks : list nat) (f : nat -> Z) (c : Z) : sumf ks (fun k => f k * c) = sumf ks f * c.
Proof. induction ks as [| k ks IH]; simpl; [done | lia]. Qed.

Lemma sumf_fmap (g : nat -> nat) (ks : list nat) (f : nat -> Z) : sumf (g <$> ks) f = sumf ks (fun k => f (g k)).
Proof. induction ks as [| k ks IH]; csimpl; [done |]. simpl. by rewrite IH. Qed.

Lemma sumf_nonneg (ks : list nat) (f : nat -> Z) : (forall k, k ∈ ks -> 0 <= f k) -> 0 <= sumf ks f.
Proof.
  induction ks as [| k ks IH]; intros H; [done |]. pose proof (H k ltac:(by left)).
  assert (0 <= sumf ks f) by (apply IH; intros j Hj; apply H; by right). simpl. lia.
Qed.

Lemma sumf_abs (ks : list nat) (f g : nat -> Z) :
  (forall k, k ∈ ks -> Z.abs (f k) <= g k) -> Z.abs (sumf ks f) <= sumf ks g.
Proof.
  induction ks as [| k ks IH]; intros H; [done |]. pose proof (H k ltac:(by left)).
  assert (Z.abs (sumf ks f) <= sumf ks g) by (apply IH; intros j Hj; apply H; by right). simpl. lia.
Qed.

(** * Fusing dimensions *)

Definition fused (mask : list bool) : list nat := filter (fun k => nthB mask k = true) (seq 0 (length mask)).

Definition unfused (mask : list bool) : list nat := filter (fun k => nthB mask k = false) (seq 0 (length mask)).

Lemma elem_of_fused (mask : list bool) (k : nat) : k ∈ fused mask <-> nthB mask k = true.
Proof.
  unfold fused. rewrite list_elem_of_filter, elem_of_seq. split; [tauto |]. intros Hk. split; [done |].
  unfold nthB in Hk. destruct (mask !! k) eqn:E; [| done]. apply lookup_lt_Some in E. lia.
Qed.

Lemma elem_of_unfused (mask : list bool) (k : nat) : k ∈ unfused mask <-> nthB mask k = false /\ (k < length mask)%nat.
Proof. unfold unfused. rewrite list_elem_of_filter, elem_of_seq. intuition lia. Qed.

Lemma NoDup_fused (mask : list bool) : NoDup (fused mask).
Proof. apply NoDup_filter, NoDup_seq. Qed.

Lemma NoDup_unfused (mask : list bool) : NoDup (unfused mask).
Proof. apply NoDup_filter, NoDup_seq. Qed.

Lemma nthB_insert (mask : list bool) (k j : nat) :
  (k < length mask)%nat -> nthB (<[k := true]> mask) j = if decide (j = k) then true else nthB mask j.
Proof.
  intros Hk. unfold nthB. case_decide as Hd; [subst; by rewrite list_lookup_insert_eq |].
  by rewrite list_lookup_insert_ne by congruence.
Qed.

Lemma fused_insert (mask : list bool) (k : nat) :
  (k < length mask)%nat -> nthB mask k = false -> fused (<[k := true]> mask) ≡ₚ k :: fused mask.
Proof.
  intros Hk Hf. apply NoDup_Permutation; [apply NoDup_fused | |].
  - constructor; [rewrite elem_of_fused; congruence | apply NoDup_fused].
  - intros j. rewrite elem_of_cons, !elem_of_fused, nthB_insert by done. case_decide; intuition congruence.
Qed.

Lemma unfused_insert (mask : list bool) (k : nat) :
  (k < length mask)%nat -> nthB mask k = false -> unfused mask ≡ₚ k :: unfused (<[k := true]> mask).
Proof.
  intros Hk Hf. apply NoDup_Permutation; [apply NoDup_unfused | |].
  - constructor; [rewrite elem_of_unfused, nthB_insert, decide_True by done; intuition done | apply NoDup_unfused].
  - intros j. rewrite elem_of_cons, !elem_of_unfused, nthB_insert, length_insert by done.
    case_decide; subst; intuition congruence.
Qed.

Lemma fused_unfused (mask : list bool) : fused mask ++ unfused mask ≡ₚ seq 0 (length mask).
Proof.
  apply NoDup_Permutation.
  - apply NoDup_app. split; [apply NoDup_fused |]. split; [| apply NoDup_unfused].
    intros k Hk. rewrite elem_of_fused in Hk. rewrite elem_of_unfused. intros [? _]. congruence.
  - apply NoDup_seq.
  - intros k. rewrite elem_of_app, elem_of_unfused, elem_of_seq. unfold fused.
    rewrite list_elem_of_filter, elem_of_seq. destruct (nthB mask k); intuition (done || lia).
Qed.

Lemma fused_sum_le (mask : list bool) (g : nat -> Z) :
  (forall k, (k < length mask)%nat -> 0 <= g k) -> sumf (fused mask) g <= sumf (seq 0 (length mask)) g.
Proof.
  intros Hg. rewrite <- (fused_unfused mask), sumf_app.
  assert (0 <= sumf (unfused mask) g); [| lia]. apply sumf_nonneg. intros k Hk. apply elem_of_unfused in Hk as [_ Hk]. by apply Hg.
Qed.

Section Fusion.

Context (n : nat) (o s d : nat -> Z) (Ho : forall k, (k < n)%nat -> 1 <= o k).

(** The index vectors of the overlap. *)
Definition inbox (i : nat -> Z) : Prop := forall k, (k < n)%nat -> 0 <= i k < o k.

(** The elements of the fused dimensions are one gapless run of [chunk] elements that
    starts [dpo] before the first index vector. *)
Record fuse_inv (mask : list bool) (dpo chunk : Z) : Prop := {
  fi_length : length mask = n;
  fi_same : forall k, nthB mask k = true -> s k = d k;
  fi_chunk : 1 <= chunk;
  fi_prod : chunk = prod (o <$> fused mask);
  fi_range : forall i, inbox i -> - dpo <= sumf (fused mask) (fun k => i k * s k) < chunk - dpo;
  fi_onto : forall t, - dpo <= t < chunk - dpo -> exists i, inbox i /\ sumf (fused mask) (fun k => i k * s k) = t
}.

Lemma inbox_zero : inbox (fun _ => 0).
Proof. intros k Hk. specialize (Ho k Hk). lia. Qed.

Lemma fuse_inv_start : fuse_inv (replicate n false) 0 1.
Proof.
  assert (Hf : fused (replicate n false) = []).
  { destruct (fused (replicate n false)) as [| k l] eqn:E; [done |]. exfalso.
    assert (Hk : k ∈ fused (replicate n false)) by (rewrite E; left).
    rewrite elem_of_fused in Hk. unfold nthB in Hk.
    destruct (replicate n false !! k) eqn:El; [| done]. apply lookup_replicate in El as [-> _]. done. }
  constructor; try lia.
  - apply length_replicate.
  - intros k Hk. apply elem_of_fused in Hk. rewrite Hf in Hk. by apply elem_of_nil in Hk.
  - by rewrite Hf.
  - intros i _. rewrite Hf. simpl. lia.
  - intros t Ht. exists (fun _ => 0). split; [apply inbox_zero |]. rewrite Hf. simpl. lia.
Qed.

Lemma fuse_inv_step (mask : list bool) (dpo chunk : Z) (k : nat) :
  fuse_inv mask dpo chunk -> (k < n)%nat -> nthB mask k = false -> s k = d k -> Z.abs (s k) = chunk ->
  fuse_inv (<[k := true]> mask) (if s k <? 0 then dpo + chunk * (o k - 1) else dpo) (chunk * o k).
Proof.
  intros [Hlen Hsame Hc Hprod Hr Honto] Hk Hf Hsd Habs. specialize (Ho k Hk) as Hok.
  assert (Hsum : forall i, sumf (fused (<[k := true]> mask)) (fun j => i j * s j) =
                           i k * s k + sumf (fused mask) (fun j => i j * s j)).
  { intros i. rewrite fused_insert by (done || lia). done. }
  constructor.
  - by rewrite length_insert.
  - intros j. rewrite nthB_insert by lia. case_decide; [by subst | apply Hsame].
  - nia.
  - rewrite fused_insert by (done || lia). rewrite fmap_cons, Hprod. cbn [prod foldr]. apply Z.mul_comm.
  - intros i Hi. rewrite Hsum. specialize (Hr i Hi). specialize (Hi k Hk).
    destruct (Z.ltb_spec (s k) 0); nia.
  - intros t Ht.
    assert (Hq : exists q r, 0 <= q < o k /\ - dpo <= r < chunk - dpo /\ t = q * s k + r).
    { destruct (Z.ltb_spec (s k) 0).
      - set (x := t + dpo + chunk * (o k - 1)). pose proof (Z.div_mod x chunk ltac:(lia)).
        pose proof (Z.mod_pos_bound x chunk ltac:(lia)).
        assert (0 <= x / chunk < o k) by (split; [apply Z.div_pos | apply Z.div_lt_upper_bound]; lia).
        exists (o k - 1 - x / chunk), (x mod chunk - dpo). split; [lia |]. split; [lia |].
        assert (s k = - chunk) as -> by lia. nia.
      - set (x := t + dpo). pose proof (Z.div_mod x chunk ltac:(lia)).
        pose proof (Z.mod_pos_bound x chunk ltac:(lia)).
        assert (0 <= x / chunk < o k) by (split; [apply Z.div_pos | apply Z.div_lt_upper_bound]; lia).
        exists (x / chunk), (x mod chunk - dpo). split; [lia |]. split; [lia |].
        assert (s k = chunk) as -> by lia. nia. }
    destruct Hq as (q & r & Hq & Hrr & ->). destruct (Honto r Hrr) as (i & Hi & Ei).
    exists (fun j => if decide (j = k) then q else i j). split.
    + intros j Hj. case_decide; [by subst | by apply Hi].
    + rewrite Hsum, decide_True by done. rewrite <- Ei. f_equal. apply sumf_ext. intros j Hj.
      rewrite decide_False; [done |]. intros ->. apply elem_of_fused in Hj. congruence.
Qed.

(** The chunk starts no further away than the elements of the overlap reach. *)
Lemma fuse_inv_dpo (mask : list bool) (dpo chunk : Z) :
  fuse_inv mask dpo chunk -> Z.abs dpo <= sumf (seq 0 n) (fun k => (o k - 1) * Z.abs (s k)).
Proof.
  intros [Hlen Hsame Hc Hprod Hr Honto]. destruct (Honto (- dpo)) as (i & Hi & E); [lia |].
  rewrite <- Z.abs_opp, <- E, <- Hlen. etransitivity; [| apply fused_sum_le].
  - apply sumf_abs. intros k Hk. apply elem_of_fused in Hk. unfold nthB in Hk.
    destruct (mask !! k) eqn:Em; [| done]. apply lookup_lt_Some in Em. specialize (Hi k ltac:(lia)).
    rewrite Z.abs_mul, Z.abs_eq by lia. apply Z.mul_le_mono_nonneg_r; lia.
  - intros k Hk. specialize (Ho k ltac:(lia)). apply Z.mul_nonneg_nonneg; lia.
Qed.

End Fusion.

Lemma find_dim_Some (i : nat) (mask : list bool) (ss ds : list Z) (chunk : Z) (k : nat) :
  find_dim i mask ss ds chunk = Some k ->
  (k < i)%nat /\ nthB mask k = false /\ nthZ ss k = nthZ ds k /\ Z.abs (nthZ ss k) = chunk.
Proof.
  induction i as [| i IH]; cbn [find_dim]; [done |].
  destruct (_ && _ && _)%bool eqn:E.
  - intros [= <-]. reflect_bools. auto with lia.
  - intros Hk. apply IH in Hk. intuition lia.
Qed.

Lemma unfused_length (mask : list bool) (k : nat) :
  (k < length mask)%nat -> nthB mask k = false ->
  length (unfused mask) = S (length (unfused (<[k := true]> mask))).
Proof. intros Hk Hf. by rewrite (Permutation_length (unfused_insert mask k Hk Hf)). Qed.

Lemma length_unfused (mask : list bool) : (length (unfused mask) <= length mask)%nat.
Proof. unfold unfused. rewrite length_filter, length_seq. done. Qed.

(** Planning the chunk terminates without overflow and keeps the invariant. *)
Lemma fuse_loop_ok (n fuel : nat) (os sz dz ss ds : list Z) (mask : list bool) (dpo chunk : Z) :
  (forall k, (k < n)%nat -> 1 <= nthZ os k) -> abs_fits ss ->
  (forall k, (k < n)%nat -> nthZ os k * Z.abs (nthZ ss k) <= INT64_MAX) ->
  sumf (seq 0 n) (fun k => (nthZ os k - 1) * Z.abs (nthZ ss k)) <= INT64_MAX ->
  fuse_inv n (nthZ os) (nthZ ss) (nthZ ds) mask dpo chunk -> (length (unfused mask) < fuel)%nat ->
  (chunk = 1 \/ exists k, (k < n)%nat /\ chunk = nthZ os k * Z.abs (nthZ ss k)) ->
  exists mask' dpo' chunk', fuse_loop fuel os sz dz ss ds mask dpo chunk = Done (mask', dpo', chunk') /\
  fuse_inv n (nthZ os) (nthZ ss) (nthZ ds) mask' dpo' chunk' /\
  (chunk' = 1 \/ exists k, (k < n)%nat /\ chunk' = nthZ os k * Z.abs (nthZ ss k)).
Proof.
  intros Ho Habs Hrun Hreach. revert mask dpo chunk. induction fuel as [| fuel IH]; intros mask dpo chunk Hinv Hf Hch; [lia |].
  cbn [fuse_loop]. rewrite fuse_find_ok by done. run. destruct (find_dim _ _ _ _ _) as [k |] eqn:E; [| by eexists _, _, _].
  apply find_dim_Some in E as (Hk & Hm & Hsd & Hka). pose proof (fi_length _ _ _ _ _ _ _ Hinv) as Hlen.
  assert (Hinv' := fuse_inv_step n (nthZ os) (nthZ ss) (nthZ ds) Ho mask dpo chunk k Hinv ltac:(lia) Hm Hsd Hka).
  pose proof (fuse_inv_dpo _ _ _ _ Ho _ _ _ Hinv') as Hdpo. pose proof int64_min as [Hmin Hmax].
  pose proof (Ho k ltac:(lia)) as Hok. pose proof (Hrun k ltac:(lia)) as Hrk. rewrite Hka in Hrk.
  assert (0 <= chunk * (nthZ os k - 1) <= chunk * nthZ os k).
  { pose proof (fi_chunk _ _ _ _ _ _ _ Hinv). split; [apply Z.mul_nonneg_nonneg | apply Z.mul_le_mono_nonneg_l]; lia. }
  assert (Hos : nthZ os k <= INT64_MAX) by (pose proof (fi_chunk _ _ _ _ _ _ _ Hinv); nia).
  assert (Ed : (if nthZ ss k <? 0 then (last ← chk64 (nthZ os k - 1); skipped ← chk64 (chunk * last); chk64 (dpo + skipped))
                else mret dpo) = Done (if nthZ ss k <? 0 then dpo + chunk * (nthZ os k - 1) else dpo)).
  { destruct (nthZ ss k <? 0); [| done]. rewrite (chk64_ok (nthZ os k - 1)) by lia. run.
    rewrite (chk64_ok (chunk * _)) by lia. run. by rewrite chk64_ok by lia. }
  rewrite Ed. run. rewrite chk64_ok by lia. run.
  assert (Hch' : chunk * nthZ os k = 1 \/ exists j, (j < n)%nat /\ chunk * nthZ os k = nthZ os j * Z.abs (nthZ ss j)).
  { right. exists k. split; [lia |]. rewrite Hka. apply Z.mul_comm. }
  destruct (_ || _)%bool; [by eexists _, _, _ |].
  apply IH; [exact Hinv' | | exact Hch']. rewrite (unfused_length mask k) in Hf by (done || lia). lia.
Qed.

Lemma best_dim_spec (m dim : nat) (sel : list bool) (ss ds : list Z) (best : option nat) (jump : Z) :
  match best_dim m dim sel ss ds best jump with
  | Some b => best = Some b \/ ((dim <= b < dim + m)%nat /\ nthB sel b = false)
  | None => best = None /\ forall k, (dim <= k < dim + m)%nat -> nthB sel k = true
  end.
Proof.
  revert dim best jump. induction m as [| m IH]; intros dim best jump; cbn [best_dim].
  { destruct best; [by left |]. split; [done |]. lia. }
  destruct (nthB sel dim) eqn:Es; cbn [negb].
  - specialize (IH (S dim) best jump). destruct (best_dim _ _ _ _ _ _ _) as [b |].
    + destruct IH as [-> | [Hb Hs]]; [by left | right; split; [lia | done]].
    + destruct IH as [-> Hall]. split; [done |]. intros k Hk.
      destruct (decide (k = dim)) as [-> | Hne]; [done |]. apply Hall. lia.
  - set (cur := Z.min _ _).
    assert (Hnew : forall r, match r with
        | Some b => Some dim = Some b \/ ((S dim <= b < S dim + m)%nat /\ nthB sel b = false)
        | None => Some dim = None /\ forall k, (S dim <= k < S dim + m)%nat -> nthB sel k = true end ->
      match r with
        | Some b => best = Some b \/ ((dim <= b < dim + S m)%nat /\ nthB sel b = false)
        | None => best = None /\ forall k, (dim <= k < dim + S m)%nat -> nthB sel k = true end).
    { intros [b |]; [| by intros [? _]]. intros [[= <-] | [Hb Hs]]; right; split; (done || lia). }
    destruct best as [b0 |]; [destruct (jump <? cur) |]; try apply Hnew, IH.
    specialize (IH (S dim) (Some b0) jump). destruct (best_dim _ _ _ _ _ _ _) as [b |]; [| by destruct IH].
    destruct IH as [-> | [Hb Hs]]; [by left | right; split; [lia | done]].
Qed.

(** The remaining dimensions are listed once each. *)
Lemma order_loop_ok (fuel : nat) (sel : list bool) (ss ds : list Z) :
  abs_fits ss -> abs_fits ds -> (length (unfused sel) < fuel)%nat ->
  exists order, order_loop fuel sel ss ds = Done order /\ order ≡ₚ unfused sel.
Proof.
  intros Hs Hd. revert sel. induction fuel as [| fuel IH]; intros sel Hf; [lia |]. cbn [order_loop].
  rewrite best_loop_ok by done. run.
  pose proof (best_dim_spec (length sel) 0 sel ss ds None 0) as Hb.
  destruct (best_dim _ _ _ _ _ _ _) as [b |].
  - destruct Hb as [[=] | [Hb Hsel]]. rewrite (unfused_length sel b) in Hf by (done || lia).
    destruct (IH (<[b := true]> sel)) as (rest & -> & Hp); [lia |]. run.
    exists (b :: rest). split; [done |]. rewrite Hp. symmetry. apply unfused_insert; (done || lia).
  - destruct Hb as [_ Hall]. exists []. split; [done |].
    destruct (unfused sel) as [| k l] eqn:E; [done |]. exfalso.
    assert (Hk : k ∈ unfused sel) by (rewrite E; left). apply elem_of_unfused in Hk as [Hk Hlt].
    rewrite Hall in Hk by lia. done.
Qed.

(** * The loops of the execution *)

(** A loop with absolute strides, innermost first. *)
Record aloop := ALoop { aSize : Z; aSource : Z; aDest : Z }.

(** The instructions with relative strides; [p] is the next inner loop. *)
Fixpoint relative (p : aloop) (l : list aloop) : list instruction :=
  match l with
  | [] => []
  | a :: l' => Instruction (aSize a) (aSource a - aSize p * aSource p) (aDest a - aSize p * aDest p) :: relative a l'
  end.

Definition nocarry : aloop := ALoop 0 0 0.

Definition aloop_of (os ss ds : list Z) (ssz dsz : Z) (k : nat) : aloop :=
  ALoop (nthZ os k) (nthZ ss k * ssz) (nthZ ds k * dsz).

Lemma rev_subtract_run (l : list instruction) (inner : instruction) :
  rev (subtract_run l inner) =
  match rev l with
  | p :: rest => Instruction (iSize p) (relSourceStride p - iSize inner * relSourceStride inner)
                   (relDestStride p - iSize inner * relDestStride inner) :: rest
  | [] => []
  end.
Proof.
  unfold subtract_run. destruct l as [| p l _] using rev_ind; [done |].
  rewrite last_snoc, length_app, rev_app_distr. simpl.
  rewrite rev_app_distr. simpl. f_equal. f_equal.
  rewrite take_app_le by lia. rewrite take_ge by lia. done.
Qed.

Lemma plan_loops_app (order order' : list nat) (os ss ds : list Z) (ssz dsz : Z) (acc : list instruction) :
  plan_loops (order ++ order') os ss ds ssz dsz acc =
  plan_loops order' os ss ds ssz dsz (plan_loops order os ss ds ssz dsz acc).
Proof. revert acc. induction order as [| k order IH]; intros acc; simpl; [done |]. apply IH. Qed.

(** The relative strides are the absolute ones minus a full run of the next inner loop. *)
Lemma plan_loops_relative (order : list nat) (os ss ds : list Z) (ssz dsz : Z) :
  rev (plan_loops order os ss ds ssz dsz []) = relative nocarry (aloop_of os ss ds ssz dsz <$> rev order).
Proof.
  induction order as [| k order IH] using rev_ind; [done |].
  rewrite plan_loops_app. cbn [plan_loops]. rewrite !rev_app_distr, rev_subtract_run, IH. simpl.
  f_equal; [f_equal; lia |]. destruct (rev order) as [| k' rest]; simpl; [done |].
  f_equal. f_equal; lia.
Qed.

(** The displacement of a counter vector. *)
Fixpoint displacement (f : aloop -> Z) (l : list aloop) (cs : list Z) : Z :=
  match l, cs with
  | a :: l', c :: cs' => c * f a + displacement f l' cs'
  | _, _ => 0
  end.

(** The odometer steps from one counter vector to the next; the data pointers follow. *)
Lemma advance_digits (l : list aloop) (p : aloop) (j bs bd : Z) :
  Forall (fun a => 0 < aSize a) l -> 0 <= j < prod (aSize <$> l) ->
  let ns := aSize <$> l in
  advance (relative p l) (digits ns j) (bs + aSize p * aSource p + displacement aSource l (digits ns j))
    (bd + aSize p * aDest p + displacement aDest l (digits ns j)) =
  if j + 1 <? prod ns then
    Some (digits ns (j + 1), bs + displacement aSource l (digits ns (j + 1)), bd + displacement aDest l (digits ns (j + 1)))
  else None.
Proof.
  intros Hl. revert p j. induction Hl as [| a l Ha Hl IH]; intros p j Hj; cbv zeta.
  { simpl in *. rewrite (proj2 (Z.ltb_ge _ _)) by lia. done. }
  cbn [fmap list_fmap digits relative advance displacement iSize relSourceStride relDestStride] in *.
  change (prod (aSize a :: (aSize <$> l))) with (aSize a * prod (aSize <$> l)) in *.
  assert (Hp : 0 < prod (aSize <$> l)) by (apply prod_pos; by apply Forall_fmap).
  destruct (succ_digit (aSize a) j Ha) as [H1 H2]. pose proof (Z.div_mod j (aSize a) ltac:(lia)) as Hdm.
  pose proof (Z.mod_pos_bound j (aSize a) Ha) as Hmod.
  assert (Hq : 0 <= j / aSize a < prod (aSize <$> l)).
  { split; [apply Z.div_pos; lia | apply Z.div_lt_upper_bound; lia]. }
  destruct (Z.ltb_spec (j mod aSize a + 1) (aSize a)) as [Hlt | Hge].
  - destruct (H1 Hlt) as [-> ->].
    assert (aSize a * (j / aSize a + 1) <= aSize a * prod (aSize <$> l)) by (apply Z.mul_le_mono_nonneg_l; lia).
    rewrite (proj2 (Z.ltb_lt _ _)) by lia. do 2 f_equal; [f_equal |]; lia.
  - destruct (H2 Hge) as (-> & -> & Heq). specialize (IH a (j / aSize a) Hq). cbv zeta in IH.
    replace (bs + aSize p * aSource p + _ + _) with
      (bs + aSize a * aSource a + displacement aSource l (digits (aSize <$> l) (j / aSize a))) by nia.
    replace (bd + aSize p * aDest p + _ + _) with
      (bd + aSize a * aDest a + displacement aDest l (digits (aSize <$> l) (j / aSize a))) by nia.
    rewrite IH. assert (Hcmp : (j / aSize a + 1 <? prod (aSize <$> l)) = (j + 1 <? aSize a * prod (aSize <$> l))).
    { destruct (Z.ltb_spec (j / aSize a + 1) (prod (aSize <$> l))), (Z.ltb_spec (j + 1) (aSize a * prod (aSize <$> l)));
        try done; nia. }
    rewrite Hcmp. repeat match goal with |- context [?x <? ?y] => destruct (x <? y) end; done.
Qed.

Lemma relative_sizes (l : list aloop) (p : aloop) : iSize <$> relative p l = aSize <$> l.
Proof. revert p. induction l as [| a l IH]; intros p; [done |]. csimpl. by rewrite IH. Qed.

Lemma zero_digits (l : list aloop) (p : aloop) : replicate (length (relative p l)) 0 = digits (aSize <$> l) 0.
Proof.
  revert p. induction l as [| a l IH]; intros p; [done |]. csimpl. by rewrite IH, Zmod_0_l, Zdiv_0_l.
Qed.

Lemma displacement_zero (f : aloop -> Z) (l : list aloop) : displacement f l (digits (aSize <$> l) 0) = 0.
Proof. induction l as [| a l IH]; [done |]. csimpl. by rewrite Zmod_0_l, Zdiv_0_l, IH. Qed.

Section Execute.

Context (floatCast : esdm_type_t -> esdm_type_t -> list Z -> list Z).
Context (Hcast : forall d s bytes, 0 <= esdm_sizeof d -> Z.of_nat (length (floatCast d s bytes)) = esdm_sizeof d).
Context (dt st : esdm_type_t) (Hdt : 0 < esdm_sizeof dt) (Hst : 0 < esdm_sizeof st).
Context (converter : ea_datatype_converter) (Hconv : ea_converter_for_types floatCast dt st = Some converter).

(** Executing the loops from counter vector number [j] on copies every remaining chunk. *)
Lemma execute_loop_ok (fuel : nat) (l : list aloop) (source dest : mem) (chunk bs bd j : Z) :
  Forall (fun a => 0 < aSize a) l -> 0 <= chunk -> 0 <= j < prod (aSize <$> l) ->
  prod (aSize <$> l) - j < Z.of_nat fuel ->
  exists dest',
    execute_loop fuel converter source (relative nocarry l) (chunk * esdm_sizeof st) (digits (aSize <$> l) j)
      (bs + displacement aSource l (digits (aSize <$> l) j)) (bd + displacement aDest l (digits (aSize <$> l) j)) dest =
      Done dest' /\
    copied floatCast dt st source (fun s d => exists j' t, j <= j' < prod (aSize <$> l) /\ 0 <= t < chunk /\
      s = bs + displacement aSource l (digits (aSize <$> l) j') + t * esdm_sizeof st /\
      d = bd + displacement aDest l (digits (aSize <$> l) j') + t * esdm_sizeof dt) dest dest'.
Proof.
  intros Hl Hc. revert j dest. induction fuel as [| fuel IH]; intros j dest Hj Hf; [lia |]. cbn [execute_loop].
  destruct (converter_copied floatCast Hcast dt st converter source dest
    (bs + displacement aSource l (digits (aSize <$> l) j)) (bd + displacement aDest l (digits (aSize <$> l) j)) chunk
    Hconv Hdt Hst Hc) as (dest1 & -> & Hcop). run.
  pose proof (advance_digits l nocarry j bs bd Hl Hj) as Hadv. cbv zeta in Hadv. cbn [aSize aSource aDest nocarry] in Hadv.
  rewrite Z.mul_0_l, !Z.add_0_r in Hadv. rewrite Hadv.
  destruct (Z.ltb_spec (j + 1) (prod (aSize <$> l))) as [Hlt | Hge].
  - destruct (IH (j + 1) dest1) as (dest2 & -> & Hcop2); [lia | lia |]. exists dest2. split; [done |].
    eapply copied_ext; [| eapply copied_seq; [exact Hcop | exact Hcop2]]. intros s d. cbn beta. split.
    + intros [(t & Ht & -> & ->) | (j' & t & Hj' & H)]; [exists j, t | exists j', t]; split; (done || lia).
    + intros (j' & t & Hj' & Ht & H). destruct (decide (j' = j)) as [-> | Hne]; [left; by exists t |].
      right. exists j', t. split; [lia | done].
  - exists dest1. split; [done |]. eapply copied_ext; [| exact Hcop]. intros s d. cbn beta. split.
    + intros (t & Ht & H). exists j, t. split; [lia | done].
    + intros (j' & t & Hj' & Ht & H). assert (j' = j) as -> by lia. by exists t.
Qed.

End Execute.

(** * Counter vectors and index vectors *)

Lemma displacement_sum (f : aloop -> Z) (g : nat -> aloop) (ks : list nat) (i : nat -> Z) :
  displacement f (g <$> ks) (i <$> ks) = sumf ks (fun k => i k * f (g k)).
Proof. induction ks as [| k ks IH]; csimpl; [done |]. simpl. by rewrite IH. Qed.

(** * Points of the overlap *)

Definition shift (oo : list Z) (i : nat -> Z) : list Z := imap (fun k x => x + i k) oo.

Lemma dot_shift (oo o st : list Z) (i : nat -> Z) :
  length o = length oo -> length st = length oo ->
  dot (shift oo i) o st = dot oo o st + sumf (seq 0 (length oo)) (fun k => i k * nthZ st k).
Proof.
  unfold shift. revert o st i. induction oo as [| x oo IH]; intros [| y o] [| t st] i Ho Hs; simpl in Ho, Hs; try lia; [done |].
  rewrite imap_cons. change (imap (_ ∘ S) oo) with (imap (fun k x => x + (i ∘ S) k) oo).
  cbn [dot length seq sumf foldr]. rewrite (IH o st (i ∘ S)) by lia.
  assert (E : sumf (seq 1 (length oo)) (fun k => i k * nthZ (t :: st) k) =
              sumf (seq 0 (length oo)) (fun k => (i ∘ S) k * nthZ st k)).
  { rewrite <- (fmap_S_seq 0), sumf_fmap. by apply sumf_ext. }
  change (foldr _ 0 (seq 1 (length oo))) with (sumf (seq 1 (length oo)) (fun k => i k * nthZ (t :: st) k)).
  rewrite E. change (nthZ (t :: st) 0) with t. lia.
Qed.

Definition osizes (c : esdmI_hypercube_t) : list Z := (fun r => rend r - rstart r) <$> c.

Lemma in_cube_shift (c : esdmI_hypercube_t) (p : list Z) :
  in_cube p c <-> exists i, inbox (length c) (nthZ (osizes c)) i /\ p = shift (rstart <$> c) i.
Proof.
  unfold shift, osizes. split.
  - intros H. induction H as [| x r p c Hx _ (i & Hi & ->)].
    { exists (fun _ => 0). split; [intros k Hk; simpl in Hk; lia | done]. }
    exists (fun k => match k with O => x - rstart r | S k' => i k' end). split.
    + intros [| k] Hk; [unfold nthZ, in_range in *; simpl; lia |]. apply Hi. simpl in Hk. lia.
    + rewrite fmap_cons, imap_cons. f_equal. lia.
  - intros (i & Hi & ->). revert i Hi. induction c as [| r c IH]; intros i Hi; [constructor |].
    rewrite fmap_cons, imap_cons. apply in_cube_cons2. split.
    + specialize (Hi 0%nat ltac:(simpl; lia)). unfold nthZ, in_range in *. simpl in Hi. lia.
    + apply (IH (i ∘ S)). intros k Hk. apply (Hi (S k)). simpl. lia.
Qed.

Lemma makeIntersection_loop_zip (a b c : esdmI_hypercube_t) :
  makeIntersection_loop a b = Some c -> length a = length b -> c = zip_with esdmI_range_intersection a b.
Proof.
  revert b c. induction a as [| ra a IH]; intros [| rb b] c; simpl; intros E Hlen; try lia; [by injection E as <- |].
  destruct (esdmI_range_isEmpty _); [done |]. destruct (makeIntersection_loop a b) eqn:Ec; [| done].
  injection E as <-. f_equal. apply IH; [done | lia].
Qed.

Lemma overlap_offset_size (a b c : esdmI_hypercube_t) :
  makeIntersection_loop a b = Some c -> length a = length b ->
  Forall (fun r => rend r - rstart r <= INT64_MAX) a ->
  esdmI_hypercube_getOffsetAndSize c = Done (rstart <$> c, osizes c) /\
  (forall k, (k < length c)%nat -> 1 <= nthZ (osizes c) k).
Proof.
  intros E Hlen Ha. pose proof (makeIntersection_loop_spec a b Hlen) as Hs. rewrite E in Hs.
  destruct Hs as (Hl & Hn & _). pose proof (makeIntersection_loop_zip a b c E Hlen) as ->.
  split.
  - unfold esdmI_hypercube_getOffsetAndSize.
    assert (Hm : mapM esdmI_range_size (zip_with esdmI_range_intersection a b) =
                 Done (osizes (zip_with esdmI_range_intersection a b))).
    { clear E Hl. revert b Hlen Hn. induction Ha as [| ra a Hra _ IH]; intros [| rb b] Hlen Hn; simpl in Hlen; try lia; [done |].
      cbn [zip_with] in *. apply Forall_cons in Hn as [Hr Hn].
      rewrite mapM_cons, range_size_ok.
      - run. rewrite IH by (done || lia). run. unfold rsize. by rewrite Z.max_r by (cbn beta in Hr; lia).
      - rewrite rstart_intersection, rend_intersection in *. lia. }
    rewrite Hm. done.
  - intros k Hk. unfold osizes, nthZ. rewrite list_lookup_fmap.
    destruct (lookup_lt_is_Some_2 _ k Hk) as [r Hr]. rewrite Hr. simpl.
    pose proof (Forall_lookup_1 _ _ _ _ Hn Hr). simpl in *. lia.
Qed.

(** * The plan covers the overlap *)

(** The element of a point. *)
Definition index (space : esdm_dataspace_t) (p : list Z) : Z := dot p (offset space) (eff space).

Section Pairs.

Context (n : nat) (c : esdmI_hypercube_t) (so sdo ss ds : list Z) (ssz dsz : Z).
Context (Hc : length c = n) (Hso : length so = n) (Hdo : length sdo = n) (Hss : length ss = n) (Hds : length ds = n).
Context (Ho : forall k, (k < n)%nat -> 1 <= nthZ (osizes c) k).
Context (mask : list bool) (dpo chunk : Z) (Hinv : fuse_inv n (nthZ (osizes c)) (nthZ ss) (nthZ ds) mask dpo chunk).
Context (order : list nat) (Horder : order ≡ₚ unfused mask).

Definition loops : list aloop := aloop_of (osizes c) ss ds ssz dsz <$> rev order.

Lemma NoDup_order : NoDup (rev order).
Proof. rewrite <- Permutation_rev, Horder. apply NoDup_unfused. Qed.

Lemma order_lt (k : nat) : k ∈ rev order -> (k < n)%nat /\ nthB mask k = false.
Proof.
  rewrite <- Permutation_rev, Horder, elem_of_unfused, (fi_length _ _ _ _ _ _ _ Hinv). tauto.
Qed.

Lemma loops_pos : Forall (fun a => 0 < aSize a) loops.
Proof.
  unfold loops. apply Forall_fmap, Forall_forall. intros k Hk. apply order_lt in Hk as [Hk _].
  simpl. specialize (Ho k Hk). lia.
Qed.

Lemma loops_sizes : aSize <$> loops = nthZ (osizes c) <$> rev order.
Proof. unfold loops. by rewrite <- list_fmap_compose. Qed.

(** The sum over all dimensions, split into the chunk and the loops. *)
Lemma split_sum (i : nat -> Z) (f : nat -> Z) :
  sumf (seq 0 n) (fun k => i k * f k) =
  sumf (fused mask) (fun k => i k * f k) + sumf (rev order) (fun k => i k * f k).
Proof.
  rewrite <- Permutation_rev, Horder, <- sumf_app, fused_unfused. by rewrite (fi_length _ _ _ _ _ _ _ Hinv).
Qed.

Lemma fused_dest (i : nat -> Z) :
  sumf (fused mask) (fun k => i k * nthZ ds k) = sumf (fused mask) (fun k => i k * nthZ ss k).
Proof.
  apply sumf_ext. intros k Hk. apply elem_of_fused in Hk. by rewrite (fi_same _ _ _ _ _ _ _ Hinv k Hk).
Qed.

(** Source and destination element of the point [shift oo i]. *)
Lemma point_element (o st : list Z) (i : nat -> Z) :
  length o = n -> length st = n ->
  dot (shift (rstart <$> c) i) o st = dot (rstart <$> c) o st +
    sumf (fused mask) (fun k => i k * nthZ st k) + sumf (rev order) (fun k => i k * nthZ st k).
Proof.
  intros Hlo Hlst. rewrite dot_shift by (rewrite length_fmap; congruence).
  rewrite length_fmap, Hc, split_sum. lia.
Qed.

Lemma loops_displacement (i : nat -> Z) :
  displacement aSource loops (i <$> rev order) = sumf (rev order) (fun k => i k * nthZ ss k) * ssz /\
  displacement aDest loops (i <$> rev order) = sumf (rev order) (fun k => i k * nthZ ds k) * dsz.
Proof.
  unfold loops. rewrite !displacement_sum, <- !sumf_mul.
  split; apply sumf_ext; intros k _; simpl; lia.
Qed.

Definition plan_pair (s d : Z) : Prop :=
  exists j t, 0 <= j < prod (aSize <$> loops) /\ 0 <= t < chunk /\
  s = (dot (rstart <$> c) so ss - dpo) * ssz + displacement aSource loops (digits (aSize <$> loops) j) + t * ssz /\
  d = (dot (rstart <$> c) sdo ds - dpo) * dsz + displacement aDest loops (digits (aSize <$> loops) j) + t * dsz.

Definition point_pair (s d : Z) : Prop :=
  exists p, in_cube p c /\ s = dot p so ss * ssz /\ d = dot p sdo ds * dsz.

(** Every element the plan copies is a point of the overlap. *)
Lemma plan_sound (s d : Z) : plan_pair s d -> point_pair s d.
Proof.
  intros (j & t & Hj & Ht & -> & ->). rewrite loops_sizes in *. set (ns := nthZ (osizes c) <$> rev order) in *.
  assert (Hns : Forall (fun x => 0 < x) ns).
  { apply Forall_fmap, Forall_forall. intros k Hk. apply order_lt in Hk as [Hk _]. simpl. specialize (Ho k Hk). lia. }
  pose proof (digits_bounds ns j Hns) as Hb.
  destruct (values_function (rev order) (digits ns j)) as [ic Hic].
  { apply NoDup_order. } { rewrite (Forall2_length _ _ _ Hb). unfold ns. by rewrite length_fmap. }
  destruct (fi_onto _ _ _ _ _ _ _ Hinv (t - dpo)) as (i' & Hi' & Ei'); [lia |].
  set (i := fun k => if nthB mask k then i' k else ic k).
  assert (Hfused : sumf (fused mask) (fun k => i k * nthZ ss k) = t - dpo).
  { rewrite <- Ei'. apply sumf_ext. intros k Hk. apply elem_of_fused in Hk. unfold i. by rewrite Hk. }
  assert (Hiorder : i <$> rev order = digits ns j).
  { rewrite <- Hic. apply list_fmap_ext. intros x k Hk. apply list_elem_of_lookup_2, order_lt in Hk as [_ Hk].
    unfold i. by rewrite Hk. }
  exists (shift (rstart <$> c) i). split; [| split].
  - apply in_cube_shift. exists i. split; [| done]. rewrite Hc. intros k Hk. unfold i.
    destruct (nthB mask k) eqn:Em; [by apply Hi' |].
    assert (Hin : k ∈ rev order).
    { rewrite <- Permutation_rev, Horder, elem_of_unfused, (fi_length _ _ _ _ _ _ _ Hinv). auto. }
    apply list_elem_of_lookup in Hin as [x Hx]. rewrite <- Hic in Hb. unfold ns in Hb.
    apply (Forall2_lookup_lr _ _ _ x _ _ Hb); by rewrite list_lookup_fmap, Hx.
  - rewrite point_element, Hfused by done. rewrite <- Hiorder, (proj1 (loops_displacement i)). lia.
  - rewrite point_element, fused_dest, Hfused by done. rewrite <- Hiorder, (proj2 (loops_displacement i)). lia.
Qed.

(** Every point of the overlap is copied by the plan. *)
Lemma plan_complete (s d : Z) : point_pair s d -> plan_pair s d.
Proof.
  intros (p & Hp & -> & ->). apply in_cube_shift in Hp as (i & Hi & ->). rewrite Hc in Hi.
  pose proof (fi_range _ _ _ _ _ _ _ Hinv i Hi) as Hr.
  destruct (digits_onto (nthZ (osizes c) <$> rev order) (i <$> rev order)) as (j & Hj & Ej).
  { apply Forall2_fmap, Forall_Forall2_diag, Forall_forall. intros k Hk. apply order_lt in Hk as [Hk _]. by apply Hi. }
  exists j, (sumf (fused mask) (fun k => i k * nthZ ss k) + dpo). rewrite loops_sizes.
  split; [done |]. split; [lia |]. rewrite Ej.
  destruct (loops_displacement i) as [-> ->]. rewrite !point_element, fused_dest by done. split; lia.
Qed.

End Pairs.

(** * Correctness of the copy *)

Record spaces_ok (sourceSpace destSpace : esdm_dataspace_t) : Prop := {
  so_source : space_wf sourceSpace;
  so_dest : space_wf destSpace;
  so_source64 : space_int64 sourceSpace;
  so_dest64 : space_int64 destSpace;
  so_dims : dims sourceSpace = dims destSpace;
  so_sourceSize : 0 < esdm_sizeof (type sourceSpace);
  so_destSize : 0 < esdm_sizeof (type destSpace);
  so_sourceFits : space_fits sourceSpace;
  so_destFits : space_fits destSpace
}.

Lemma extends_size64 (space : esdm_dataspace_t) :
  space_int64 space -> Forall (fun r => rend r - rstart r <= INT64_MAX) (extends space).
Proof.
  unfold space_int64, extends. induction 1 as [| o s os ss Hb _ IH]; constructor; [simpl; lia | done].
Qed.

Lemma extends_same_rank (sourceSpace destSpace : esdm_dataspace_t) :
  spaces_ok sourceSpace destSpace -> length (extends sourceSpace) = length (extends destSpace).
Proof.
  intros [H1 H2 _ _ Hd _ _ _ _]. pose proof (length_extends _ H1). pose proof (length_extends _ H2). lia.
Qed.

(** * The plan is computed without overflow *)

Lemma reach_sumf (sizes st : list Z) :
  length st = length sizes ->
  reach sizes st = sumf (seq 0 (length sizes)) (fun k => (Z.max 1 (nthZ sizes k) - 1) * Z.abs (nthZ st k)).
Proof.
  revert st. induction sizes as [| s sizes IH]; intros [| t st] Hl; simpl in Hl; try lia; [done |].
  cbn [reach length seq sumf foldr]. rewrite (IH st) by lia. f_equal.
  change (foldr _ 0 (seq 1 (length sizes))) with
    (sumf (seq 1 (length sizes)) (fun k => (Z.max 1 (nthZ (s :: sizes) k) - 1) * Z.abs (nthZ (t :: st) k))).
  by rewrite <- (fmap_S_seq 0), sumf_fmap.
Qed.

(** A hypercube of the same rank with no larger sizes. *)
Record part_of (c : esdmI_hypercube_t) (space : esdm_dataspace_t) : Prop := {
  po_rank : length c = length (extends space);
  po_size : forall k, (k < length c)%nat -> 1 <= nthZ (osizes c) k <= nthZ (size space) k;
  po_point : forall p, in_cube p c -> in_cube p (extends space)
}.

Section Side.

Context (space : esdm_dataspace_t) (c : esdmI_hypercube_t).
Context (Hwf : space_wf space) (Hfit : space_fits space) (Htype : 0 < esdm_sizeof (type space)) (Hpart : part_of c space).

Lemma side_lookup (k : nat) :
  (k < length c)%nat -> exists s t, size space !! k = Some s /\ eff space !! k = Some t /\
  nthZ (size space) k = s /\ nthZ (eff space) k = t.
Proof.
  intros Hk. pose proof (length_extends _ Hwf). pose proof (length_eff _ Hwf). pose proof Hwf as [_ ? _ _].
  rewrite (po_rank _ _ Hpart) in Hk.
  destruct (lookup_lt_is_Some_2 (size space) k) as [s Hs]; [lia |].
  destruct (lookup_lt_is_Some_2 (eff space) k) as [t Ht]; [lia |].
  exists s, t. unfold nthZ. by rewrite Hs, Ht.
Qed.

Lemma side_run_bytes (k : nat) :
  (k < length c)%nat -> nthZ (osizes c) k * Z.abs (nthZ (eff space) k) * esdm_sizeof (type space) <= INT64_MAX /\
  Z.abs (nthZ (eff space) k) * esdm_sizeof (type space) <= INT64_MAX.
Proof.
  intros Hk. destruct (side_lookup k Hk) as (s & t & Hs & Ht & Es & ->). pose proof (po_size _ _ Hpart k Hk) as Ho. rewrite Es in Ho.
  pose proof (sf_run _ Hfit k s t Hs Ht) as Hr. split; (etransitivity; [| exact Hr]).
  - repeat apply Z.mul_le_mono_nonneg_r; lia.
  - apply Z.mul_le_mono_nonneg_r; [lia |]. rewrite <- (Z.mul_1_l (Z.abs t)) at 1. apply Z.mul_le_mono_nonneg_r; lia.
Qed.

Lemma side_run (k : nat) : (k < length c)%nat -> nthZ (osizes c) k * Z.abs (nthZ (eff space) k) <= INT64_MAX.
Proof.
  intros Hk. destruct (side_run_bytes k Hk) as [H _]. pose proof (po_size _ _ Hpart k Hk).
  assert (0 <= nthZ (osizes c) k * Z.abs (nthZ (eff space) k)) by (apply Z.mul_nonneg_nonneg; lia). nia.
Qed.

Lemma side_abs : abs_fits (eff space).
Proof.
  intros k. destruct (decide (k < length c)%nat) as [Hk | Hk].
  - pose proof (side_run k Hk). pose proof (po_size _ _ Hpart k Hk). nia.
  - unfold nthZ. rewrite lookup_ge_None_2; [done |]. pose proof (length_eff _ Hwf). pose proof (length_extends _ Hwf).
    pose proof (po_rank _ _ Hpart). lia.
Qed.

Lemma side_reach :
  sumf (seq 0 (length c)) (fun k => (nthZ (osizes c) k - 1) * Z.abs (nthZ (eff space) k)) <= INT64_MAX.
Proof.
  pose proof (space_fits_reach _ Hfit Htype) as Hr. pose proof (length_eff _ Hwf). pose proof (length_extends _ Hwf).
  pose proof Hwf as [_ ? _ _]. pose proof (po_rank _ _ Hpart).
  rewrite reach_sumf in Hr by lia. replace (length (size space)) with (length c) in Hr by lia.
  etransitivity; [| exact Hr]. match goal with |- ?a <= _ => transitivity (Z.abs a); [lia |] end. apply sumf_abs. intros k Hk. apply elem_of_seq in Hk.
  pose proof (po_size _ _ Hpart k ltac:(lia)). rewrite Z.abs_mul, Z.abs_idemp, Z.abs_eq by lia.
  apply Z.mul_le_mono_nonneg_r; lia.
Qed.

Lemma side_relative (j k : nat) : (j < length c)%nat -> (k < length c)%nat ->
  INT64_MIN <= nthZ (eff space) j * esdm_sizeof (type space) -
    nthZ (osizes c) k * (nthZ (eff space) k * esdm_sizeof (type space)) <= INT64_MAX.
Proof.
  intros Hj Hk. destruct (side_lookup j Hj) as (_ & u & _ & Hu & _ & ->). destruct (side_lookup k Hk) as (s & t & Hs & Ht & Es & ->).
  pose proof (po_size _ _ Hpart k Hk). apply (sf_relative _ Hfit j k s t u); (done || lia).
Qed.

Lemma side_dot (p : list Z) : in_cube p c -> Z.abs (dot p (offset space) (eff space)) * esdm_sizeof (type space) <= INT64_MAX.
Proof.
  intros Hp. apply (po_point _ _ Hpart) in Hp. pose proof (sf_reach _ Hfit). pose proof (length_extends _ Hwf). pose proof Hwf as [_ ? _ _].
  pose proof (dot_reach p (offset space) (size space) (eff space) (within_extends _ _ Hp)) as Hd.
  apply in_cube_length in Hp. specialize (Hd ltac:(lia)). nia.
Qed.

End Side.

Lemma baseIndex_ok (x o sizes st : list Z) (acc : Z) :
  within x o sizes -> length sizes = length x -> Z.abs acc + reach sizes st <= INT64_MAX ->
  Forall (fun s => s <= INT64_MAX) sizes -> baseIndex x o st acc = Done (acc + dot x o st).
Proof.
  pose proof int64_min as [Hmin Hmax]. revert o sizes st acc.
  induction x as [| c x IH]; intros [| y o] [| s sizes] [| t st] acc Hw Hl Hr Hs; cbn [baseIndex dot]; try done;
    rewrite ?Z.add_0_r; try done.
  pose proof (Hw 0%nat c y s eq_refl eq_refl eq_refl) as Hc. cbn [reach] in Hr. pose proof (reach_nonneg sizes st).
  inversion Hs as [| ? ? Hs1 Hs2]; subst.
  assert (Z.abs ((c - y) * t) <= (Z.max 1 s - 1) * Z.abs t).
  { rewrite Z.abs_mul, Z.abs_eq by lia. apply Z.mul_le_mono_nonneg_r; lia. }
  rewrite (chk64_ok (c - y)) by lia. run. rewrite (chk64_ok ((c - y) * t)) by lia. run. rewrite chk64_ok by lia. run.
  rewrite (IH o sizes) by (done || lia || (intros k; apply (Hw (S k))) || (by injection Hl)). f_equal. lia.
Qed.

(** The sizes are [int64_t] values as well. *)
Lemma space_int64_sizes (space : esdm_dataspace_t) :
  space_int64 space -> Forall (fun s => s <= INT64_MAX) (size space).
Proof. unfold space_int64. induction 1 as [| o s os ss Hb _ IH]; constructor; [lia | done]. Qed.

Lemma baseIndex_part (space : esdm_dataspace_t) (c : esdmI_hypercube_t) :
  space_wf space -> space_int64 space -> space_fits space -> 0 < esdm_sizeof (type space) -> part_of c space -> nonempty c ->
  baseIndex (rstart <$> c) (offset space) (eff space) 0 = Done (dot (rstart <$> c) (offset space) (eff space)).
Proof.
  intros Hwf H64 Hfit Ht Hpart Hn. pose proof (space_fits_reach _ Hfit Ht). pose proof (length_extends _ Hwf). pose proof Hwf as [_ ? _ _].
  rewrite (baseIndex_ok _ _ (size space)); [done | | | |].
  - apply within_extends, (po_point _ _ Hpart), nonempty_point, Hn.
  - rewrite length_fmap, (po_rank _ _ Hpart). lia.
  - simpl. lia.
  - by apply space_int64_sizes.
Qed.

Section Instructions.

Context (sourceSpace destSpace : esdm_dataspace_t) (c : esdmI_hypercube_t).
Context (H1 : space_wf sourceSpace) (Hf1 : space_fits sourceSpace) (Ht1 : 0 < esdm_sizeof (type sourceSpace)) (Hp1 : part_of c sourceSpace).
Context (H2 : space_wf destSpace) (Hf2 : space_fits destSpace) (Ht2 : 0 < esdm_sizeof (type destSpace)) (Hp2 : part_of c destSpace).

Abbreviation ss := (eff sourceSpace).
Abbreviation ds := (eff destSpace).
Abbreviation ssz := (esdm_sizeof (type sourceSpace)).
Abbreviation dsz := (esdm_sizeof (type destSpace)).

Lemma makeRelative_ok (acc : list instruction) (k : nat) :
  (k < length c)%nat ->
  (acc = [] \/ exists j, (j < length c)%nat /\ last acc = Some (Instruction (nthZ (osizes c) j) (nthZ ss j * ssz) (nthZ ds j * dsz))) ->
  let inner := Instruction (nthZ (osizes c) k) (nthZ ss k * ssz) (nthZ ds k * dsz) in
  makeRelative acc inner = Done (subtract_run acc inner).
Proof.
  intros Hk Hacc inner. unfold makeRelative, subtract_run. destruct Hacc as [-> | (j & Hj & ->)]; [done |].
  cbn [iSize relSourceStride relDestStride inner]. pose proof int64_min as [Hmin _]. pose proof (po_size _ _ Hp1 k Hk) as Ho.
  destruct (side_run_bytes _ _ H1 Hf1 Ht1 Hp1 k Hk) as [R1 _]. destruct (side_run_bytes _ _ H2 Hf2 Ht2 Hp2 k Hk) as [R2 _].
  assert (A : forall t z, 0 < z -> nthZ (osizes c) k * Z.abs t * z <= INT64_MAX -> Z.abs (nthZ (osizes c) k * (t * z)) <= INT64_MAX).
  { intros t z Hz H. rewrite !Z.abs_mul, (Z.abs_eq z), (Z.abs_eq (nthZ _ k)) by lia. lia. }
  apply A in R1, R2; [| lia | lia].
  rewrite chk64_ok by lia. run. rewrite chk64_ok by (by apply side_relative). run.
  rewrite chk64_ok by lia. run. by rewrite chk64_ok by (by apply side_relative).
Qed.

Lemma instruction_loop_ok (order : list nat) (acc : list instruction) :
  (forall k, k ∈ order -> (k < length c)%nat) ->
  (acc = [] \/ exists j, (j < length c)%nat /\ last acc = Some (Instruction (nthZ (osizes c) j) (nthZ ss j * ssz) (nthZ ds j * dsz))) ->
  instruction_loop order (osizes c) ss ds ssz dsz acc = Done (plan_loops order (osizes c) ss ds ssz dsz acc).
Proof.
  revert acc. induction order as [| k order IH]; intros acc Hord Hacc; [done |]. cbn [instruction_loop plan_loops].
  pose proof (Hord k ltac:(by left)) as Hk. pose proof int64_min as [Hmin _].
  destruct (side_run_bytes _ _ H1 Hf1 Ht1 Hp1 k Hk) as [_ R1]. destruct (side_run_bytes _ _ H2 Hf2 Ht2 Hp2 k Hk) as [_ R2].
  rewrite !to_int64_id by lia. rewrite makeRelative_ok by done. run.
  apply IH; [intros j Hj; apply Hord; by right |]. right. exists k. split; [done |]. by rewrite last_snoc.
Qed.

End Instructions.

Lemma overlap_part (sourceSpace destSpace : esdm_dataspace_t) (c : esdmI_hypercube_t) :
  spaces_ok sourceSpace destSpace -> makeIntersection_loop (extends sourceSpace) (extends destSpace) = Some c ->
  part_of c sourceSpace /\ part_of c destSpace.
Proof.
  intros Hok E. pose proof (extends_same_rank _ _ Hok) as Hlen. pose proof Hok as [H1 H2 H3 H4 Hd _ _ _ _].
  pose proof (makeIntersection_loop_spec _ _ Hlen) as Hspec. rewrite E in Hspec. destruct Hspec as (Hcl & Hn & Hc).
  destruct (overlap_offset_size _ _ _ E Hlen (extends_size64 _ H3)) as [_ Hpos].
  pose proof (makeIntersection_loop_zip _ _ _ E Hlen) as Ez.
  assert (Hsz : forall k, (k < length c)%nat -> nthZ (osizes c) k <= nthZ (size sourceSpace) k /\ nthZ (osizes c) k <= nthZ (size destSpace) k).
  { intros k Hk. pose proof (length_extends _ H1). pose proof (length_extends _ H2). pose proof H1 as [_ ? ? _]. pose proof H2 as [_ ? ? _].
    destruct (lookup_lt_is_Some_2 (size sourceSpace) k) as [s1 Es1]; [lia |]. destruct (lookup_lt_is_Some_2 (offset sourceSpace) k) as [o1 Eo1]; [lia |].
    destruct (lookup_lt_is_Some_2 (size destSpace) k) as [s2 Es2]; [lia |]. destruct (lookup_lt_is_Some_2 (offset destSpace) k) as [o2 Eo2]; [lia |].
    unfold osizes, nthZ. rewrite list_lookup_fmap, Ez, lookup_zip_with. unfold extends. rewrite !lookup_zip_with, Es1, Eo1, Es2, Eo2.
    cbn [mbind option_bind fmap option_fmap option_map default from_option Datatypes.id].
    rewrite rstart_intersection, rend_intersection. simpl. lia. }
  split; (constructor; [lia | intros k Hk; split; [by apply Hpos | by apply Hsz] | intros p Hp; by apply Hc]).
Qed.

(** The start of the first chunk is the place of a point. *)
Lemma chunk_start (space : esdm_dataspace_t) (c : esdmI_hypercube_t) (ss ds : list Z) (mask : list bool) (dpo chunk : Z) :
  space_wf space -> part_of c space ->
  fuse_inv (length c) (nthZ (osizes c)) (nthZ ss) (nthZ ds) mask dpo chunk -> eff space = ss \/ eff space = ds ->
  (forall k, (k < length c)%nat -> 1 <= nthZ (osizes c) k) ->
  exists p, in_cube p c /\ dot (rstart <$> c) (offset space) (eff space) - dpo = dot p (offset space) (eff space).
Proof.
  intros Hwf Hpart [Hlen Hsame Hch _ _ Honto] He Hpos. destruct (Honto (- dpo)) as (i & Hi & Ei); [lia |].
  pose proof (length_extends _ Hwf). pose proof (length_eff _ Hwf). pose proof Hwf as [_ _ ? _]. pose proof (po_rank _ _ Hpart).
  set (i' := fun k => if nthB mask k then i k else 0).
  exists (shift (rstart <$> c) i'). split.
  - apply in_cube_shift. exists i'. split; [| done]. intros k Hk. unfold i'. destruct (nthB mask k); [by apply Hi |].
    specialize (Hpos k Hk). lia.
  - rewrite dot_shift by (rewrite length_fmap; lia). rewrite length_fmap, <- Hlen, <- (fused_unfused mask), sumf_app.
    rewrite (sumf_ext (unfused mask) _ (fun _ => 0)).
    + rewrite (sumf_ext (fused mask) _ (fun k => i k * nthZ ss k)).
      * rewrite Ei. assert (sumf (unfused mask) (fun _ => 0) = 0) as ->; [| lia]. clear. by induction (unfused mask).
      * intros k Hk. apply elem_of_fused in Hk. unfold i'. rewrite Hk. destruct He as [-> | ->]; [done |]. by rewrite (Hsame k Hk).
    + intros k Hk. apply elem_of_unfused in Hk as [Hk _]. unfold i'. by rewrite Hk.
Qed.

(** The plan for a non-empty overlap. *)
Lemma copy_instructions_ok (sourceSpace destSpace : esdm_dataspace_t) (c : esdmI_hypercube_t) :
  spaces_ok sourceSpace destSpace ->
  makeIntersection_loop (extends sourceSpace) (extends destSpace) = Some c ->
  exists mask dpo chunk order,
    let ssz := esdm_sizeof (type sourceSpace) in
    let dsz := esdm_sizeof (type destSpace) in
    esdmI_dataspace_copy_instructions sourceSpace destSpace = Done (Some (CopyPlan
      (plan_loops order (osizes c) (eff sourceSpace) (eff destSpace) ssz dsz [])
      (chunk * ssz)
      ((dot (rstart <$> c) (offset sourceSpace) (eff sourceSpace) - dpo) * ssz)
      ((dot (rstart <$> c) (offset destSpace) (eff destSpace) - dpo) * dsz))) /\
    fuse_inv (length c) (nthZ (osizes c)) (nthZ (eff sourceSpace)) (nthZ (eff destSpace)) mask dpo chunk /\
    order ≡ₚ unfused mask.
Proof.
  intros Hok E. pose proof (extends_same_rank _ _ Hok) as Hlen. pose proof Hok as [H1 H2 H3 H4 Hd Ht1 Ht2 Hf1 Hf2].
  destruct (overlap_part _ _ _ Hok E) as [Hp1 Hp2]. pose proof int64_min as [Hmin _].
  pose proof (makeIntersection_loop_spec _ _ Hlen) as Hspec. rewrite E in Hspec. destruct Hspec as (Hcl & Hn & _).
  destruct (overlap_offset_size _ _ _ E Hlen (extends_size64 _ H3)) as [Hos Hpos].
  pose proof (length_extends _ H1) as Hle. assert (Hdn : Z.to_nat (dims sourceSpace) = length c) by lia.
  pose proof (side_abs _ _ H1 Hf1 Ht1 Hp1) as Ha1. pose proof (side_abs _ _ H2 Hf2 Ht2 Hp2) as Ha2.
  destruct (fuse_loop_ok (length c) (S (length c)) (osizes c) (size sourceSpace) (size destSpace)
    (eff sourceSpace) (eff destSpace) (replicate (length c) false) 0 1 Hpos Ha1
    (side_run _ _ H1 Hf1 Ht1 Hp1) (side_reach _ _ H1 Hf1 Ht1 Hp1) (fuse_inv_start _ _ _ _ Hpos))
    as (mask & dpo & chunk & Ef & Hinv & Hch); [| by left |].
  { pose proof (length_unfused (replicate (length c) false)). rewrite length_replicate in *. lia. }
  destruct (order_loop_ok (S (length c)) mask (eff sourceSpace) (eff destSpace) Ha1 Ha2) as (order & Eo & Hord).
  { pose proof (length_unfused mask). pose proof (fi_length _ _ _ _ _ _ _ Hinv). lia. }
  exists mask, dpo, chunk, order. cbv zeta. split; [| done].
  unfold esdmI_dataspace_copy_instructions. rewrite eassert_true by (by apply Z.eqb_eq). run.
  rewrite (getExtends_ok _ H1 H3), (getExtends_ok _ H2 H4). run.
  unfold esdmI_hypercube_makeIntersection. rewrite eassert_true by (by apply sameDims_iff). run.
  rewrite E, Hos. run. rewrite (getEffectiveStride_ok _ H1 (sf_count _ Hf1)), (getEffectiveStride_ok _ H2 (sf_count _ Hf2)). run.
  rewrite Hdn, Ef. run. rewrite Eo. run.
  rewrite (instruction_loop_ok sourceSpace destSpace c H1 Hf1 Ht1 Hp1 H2 Hf2 Ht2 Hp2); [run | | by left].
  2: { intros k Hk. rewrite Hord, elem_of_unfused, (fi_length _ _ _ _ _ _ _ Hinv) in Hk. tauto. }
  rewrite (baseIndex_part sourceSpace c), (baseIndex_part destSpace c) by done. run.
  destruct (chunk_start sourceSpace c _ _ _ _ _ H1 Hp1 Hinv ltac:(by left) Hpos) as (p & Hp & ->).
  destruct (chunk_start destSpace c _ _ _ _ _ H2 Hp2 Hinv ltac:(by right) Hpos) as (q & Hq & ->).
  pose proof (side_dot _ _ H1 Hf1 Ht1 Hp1 p Hp) as Hdp. pose proof (side_dot _ _ H2 Hf2 Ht2 Hp2 q Hq) as Hdq.
  rewrite !chk64_ok by nia. run. rewrite !to_int64_id; [done | nia | nia |].
  pose proof (fi_chunk _ _ _ _ _ _ _ Hinv). split; [nia |].
  destruct Hch as [-> | (k & Hk & ->)]; [| by apply side_run_bytes].
  destruct (sf_count _ Hf1) as [_ Hcnt]. pose proof (sf_bytes _ Hf1). pose proof (prod_span_pos (size sourceSpace)). nia.
Qed.

Section Correct.

Context (floatCast : esdm_type_t -> esdm_type_t -> list Z -> list Z).
Context (Hcast : forall d s bytes, 0 <= esdm_sizeof d -> Z.of_nat (length (floatCast d s bytes)) = esdm_sizeof d).

(** The copy writes the converted element of every point of the overlap. *)
Lemma copy_data_copied (sourceSpace destSpace : esdm_dataspace_t) (source dest : mem) (c : esdmI_hypercube_t)
    (converter : ea_datatype_converter) :
  spaces_ok sourceSpace destSpace ->
  ea_converter_for_types floatCast (type destSpace) (type sourceSpace) = Some converter ->
  makeIntersection_loop (extends sourceSpace) (extends destSpace) = Some c ->
  exists dest', esdm_dataspace_copy_data floatCast sourceSpace source destSpace dest = Done (ESDM_SUCCESS, dest') /\
  copied floatCast (type destSpace) (type sourceSpace) source
    (fun s d => exists p, in_cube p c /\ s = index sourceSpace p * esdm_sizeof (type sourceSpace) /\
                          d = index destSpace p * esdm_sizeof (type destSpace)) dest dest'.
Proof.
  intros Hok Hconv E. destruct (copy_instructions_ok _ _ _ Hok E) as (mask & dpo & chunk & order & Ep & Hinv & Hord).
  cbv zeta in Ep. pose proof (extends_same_rank _ _ Hok) as Hlen. pose proof Hok as [H1 H2 H3 H4 Hd Hs1 Hs2 Hf1 Hf2].
  pose proof (makeIntersection_loop_spec _ _ Hlen) as Hspec. rewrite E in Hspec. destruct Hspec as (Hcl & _).
  destruct (overlap_offset_size _ _ _ E Hlen (extends_size64 _ H3)) as [Hos Hpos].
  pose proof (length_extends _ H1). pose proof (length_extends _ H2). pose proof (length_eff _ H1). pose proof (length_eff _ H2).
  pose proof H1 as [? ? ? _]. pose proof H2 as [? ? ? _].
  set (ssz := esdm_sizeof (type sourceSpace)) in *. set (dsz := esdm_sizeof (type destSpace)) in *.
  set (l := loops c (eff sourceSpace) (eff destSpace) ssz dsz order).
  assert (Hl : Forall (fun a => 0 < aSize a) l) by (eapply (loops_pos (length c)) with (so := offset sourceSpace) (sdo := offset destSpace); try eassumption; (done || lia)).
  assert (Hp : 0 < prod (aSize <$> l)) by (apply prod_pos; by apply Forall_fmap).
  destruct (execute_loop_ok floatCast Hcast (type destSpace) (type sourceSpace) Hs2 Hs1 converter Hconv
    (S (Z.to_nat (prod (aSize <$> l)))) l source dest chunk
    ((dot (rstart <$> c) (offset sourceSpace) (eff sourceSpace) - dpo) * ssz)
    ((dot (rstart <$> c) (offset destSpace) (eff destSpace) - dpo) * dsz) 0 Hl) as (dest' & Ex & Hcop).
  { pose proof (fi_chunk _ _ _ _ _ _ _ Hinv). lia. } { lia. } { lia. }
  fold ssz dsz in Ex, Hcop. exists dest'. split.
  - unfold esdm_dataspace_copy_data. rewrite eassert_true by (by apply Z.eqb_eq). run.
    rewrite Hconv, Ep. run. cbn [instructions sourceChunkBytes sourceOffset destOffset].
    rewrite plan_loops_relative. fold (loops c (eff sourceSpace) (eff destSpace) ssz dsz order). fold l.
    rewrite relative_sizes, zero_digits. rewrite !displacement_zero, !Z.add_0_r in Ex. by rewrite Ex.
  - eapply copied_ext; [| exact Hcop]. intros s d. cbn beta. split.
    + intros Hpair. apply (plan_sound (length c) c (offset sourceSpace) (offset destSpace) (eff sourceSpace)
        (eff destSpace) ssz dsz) with (mask := mask) (dpo := dpo) (chunk := chunk) (order := order); (done || lia).
    + intros Hpair. apply (plan_complete (length c) c (offset sourceSpace) (offset destSpace) (eff sourceSpace)
        (eff destSpace) ssz dsz) with (mask := mask) (dpo := dpo) (chunk := chunk) (order := order); (done || lia).
Qed.

Lemma overlap_some (a b : esdmI_hypercube_t) (p : list Z) :
  length a = length b -> in_cube p a -> in_cube p b ->
  exists c, makeIntersection_loop a b = Some c /\ forall q, in_cube q c <-> in_cube q a /\ in_cube q b.
Proof.
  intros Hlen Ha Hb. pose proof (makeIntersection_loop_spec a b Hlen) as H.
  destruct (makeIntersection_loop a b) as [c |].
  - exists c. split; [done |]. apply H.
  - exfalso. by apply (H p).
Qed.

Lemma elementOffset_index (space : esdm_dataspace_t) (p : list Z) :
  space_wf space -> space_fits space -> 0 < esdm_sizeof (type space) -> in_cube p (extends space) ->
  esdm_dataspace_elementOffset space p = Done (index space p * esdm_sizeof (type space)).
Proof. apply elementOffset_in. Qed.

(** What a copy does: each common point receives its converted element, nothing else
    is written. *)
Definition copy_result (sourceSpace destSpace : esdm_dataspace_t) (source dest dest' : mem) : Prop :=
  (forall p, in_cube p (extends sourceSpace) -> in_cube p (extends destSpace) ->
     exists s d, esdm_dataspace_elementOffset sourceSpace p = Done s /\ esdm_dataspace_elementOffset destSpace p = Done d /\
     forall b, 0 <= b < esdm_sizeof (type destSpace) ->
       element floatCast (type destSpace) (type sourceSpace)
         (read_bytes source s (esdm_sizeof (type sourceSpace))) !! Z.to_nat b = Some (dest' (d + b))) /\
  (forall a, (forall p d, in_cube p (extends sourceSpace) -> in_cube p (extends destSpace) ->
                esdm_dataspace_elementOffset destSpace p = Done d -> ~ (d <= a < d + esdm_sizeof (type destSpace))) ->
     dest' a = dest a).

(** The points of the overlap have different places in the destination. *)
Definition dest_injective (sourceSpace destSpace : esdm_dataspace_t) : Prop :=
  forall p q, in_cube p (extends sourceSpace) -> in_cube p (extends destSpace) ->
  in_cube q (extends sourceSpace) -> in_cube q (extends destSpace) ->
  esdm_dataspace_elementOffset destSpace p = esdm_dataspace_elementOffset destSpace q -> p = q.

Lemma copy_data_ok (sourceSpace destSpace : esdm_dataspace_t) (source dest : mem)
    (converter : ea_datatype_converter) (p0 : list Z) :
  spaces_ok sourceSpace destSpace ->
  ea_converter_for_types floatCast (type destSpace) (type sourceSpace) = Some converter ->
  in_cube p0 (extends sourceSpace) -> in_cube p0 (extends destSpace) -> dest_injective sourceSpace destSpace ->
  exists dest', esdm_dataspace_copy_data floatCast sourceSpace source destSpace dest = Done (ESDM_SUCCESS, dest') /\
  copy_result sourceSpace destSpace source dest dest'.
Proof.
  intros Hok Hconv Hp0 Hp0' Hinj. pose proof Hok as [H1 H2 _ _ _ Hs1 Hs2 Hf1 Hf2].
  destruct (overlap_some _ _ p0 (extends_same_rank _ _ Hok) Hp0 Hp0') as (c & E & Hc).
  destruct (copy_data_copied sourceSpace destSpace source dest c converter Hok Hconv E) as (dest' & Ed & Hcop).
  exists dest'. split; [done |]. set (dsz := esdm_sizeof (type destSpace)) in *. split.
  - intros p Hp Hp'. pose proof (elementOffset_index _ _ H1 Hf1 Hs1 Hp) as E1. pose proof (elementOffset_index _ _ H2 Hf2 Hs2 Hp') as E2.
    fold dsz in E2. eexists _, _. split; [exact E1 |]. split; [exact E2 |]. intros b Hb.
    destruct (Hcop (index destSpace p * dsz + b)) as [(s & d & (q & Hq & -> & ->) & Ha & Hel) | [Hno _]].
    + apply Hc in Hq as [Hq Hq']. assert (index destSpace q = index destSpace p) as Hidx by nia.
      assert (p = q) as <-.
      { apply Hinj; try done. rewrite E2, (elementOffset_index _ _ H2 Hf2 Hs2 Hq'). by rewrite Hidx. }
      by replace (index destSpace p * dsz + b - index destSpace p * dsz) with b in Hel by lia.
    + exfalso. apply (Hno (index sourceSpace p * esdm_sizeof (type sourceSpace)) (index destSpace p * dsz)); [| lia].
      exists p. split; [by apply Hc | done].
  - intros a Hout. destruct (Hcop a) as [(s & d & (q & Hq & -> & ->) & Ha & _) | [_ E']]; [| done].
    apply Hc in Hq as [Hq Hq']. exfalso. by apply (Hout q _ Hq Hq' (elementOffset_index _ _ H2 Hf2 Hs2 Hq')).
Qed.

(** C29: When source and destination share a point, the element types are convertible and the
    common points have different places in the destination, [esdm_dataspace_copy_data()]
    succeeds: the destination element of every common point, at
    [esdm_dataspace_elementOffset()], holds the converted source element, and no other byte
    of the destination changes, for any combination of strides. *)
Theorem copy_data_correct (sourceSpace destSpace : esdm_dataspace_t) (source dest : mem)
    (converter : ea_datatype_converter) (p0 : list Z) :
  spaces_ok sourceSpace destSpace ->
  ea_converter_for_types floatCast (type destSpace) (type sourceSpace) = Some converter ->
  in_cube p0 (extends sourceSpace) -> in_cube p0 (extends destSpace) -> dest_injective sourceSpace destSpace ->
  exists dest', esdm_dataspace_copy_data floatCast sourceSpace source destSpace dest = Done (ESDM_SUCCESS, dest') /\
  copy_result sourceSpace destSpace source dest dest'.
Proof. apply copy_data_ok. Qed.

Lemma copy_instructions_none (sourceSpace destSpace : esdm_dataspace_t) :
  spaces_ok sourceSpace destSpace ->
  (forall p, in_cube p (extends sourceSpace) -> ~ in_cube p (extends destSpace)) ->
  esdmI_dataspace_copy_instructions sourceSpace destSpace = Done None.
Proof.
  intros Hok Hno. pose proof (extends_same_rank _ _ Hok) as Hlen. pose proof Hok as [H1 H2 H3 H4 Hd _ _ _ _].
  pose proof (makeIntersection_loop_spec _ _ Hlen) as Hspec.
  destruct (makeIntersection_loop (extends sourceSpace) (extends destSpace)) as [c |] eqn:E.
  - destruct Hspec as (_ & Hn & Hc). apply nonempty_iff in Hn as [p Hp]. apply Hc in Hp as [Hp Hp'].
    by destruct (Hno p Hp).
  - unfold esdmI_dataspace_copy_instructions. rewrite eassert_true by (by apply Z.eqb_eq). run.
    rewrite (getExtends_ok _ H1 H3), (getExtends_ok _ H2 H4). run.
    unfold esdmI_hypercube_makeIntersection. rewrite eassert_true by (by apply sameDims_iff). run. by rewrite E.
Qed.

(** When the two dataspaces have no point in common, the planner returns without setting
    the number of instruction dimensions, and [esdm_dataspace_copy_data()] of convertible
    types goes on to read it: the behaviour is undefined. *)
Theorem copy_data_without_overlap_undefined (sourceSpace destSpace : esdm_dataspace_t) (source dest : mem)
    (converter : ea_datatype_converter) :
  spaces_ok sourceSpace destSpace ->
  ea_converter_for_types floatCast (type destSpace) (type sourceSpace) = Some converter ->
  (forall p, in_cube p (extends sourceSpace) -> ~ in_cube p (extends destSpace)) ->
  esdm_dataspace_copy_data floatCast sourceSpace source destSpace dest = Undef.
Proof.
  intros Hok Hconv Hno. unfold esdm_dataspace_copy_data.
  rewrite eassert_true by (apply Z.eqb_eq, so_dims; done). run. rewrite Hconv.
  rewrite copy_instructions_none by done. done.
Qed.

End Correct.

(** A transposing copy of a 2x3 block out of a 4x4 array. *)
Lemma copy_data_correct_witness :
  let sourceSpace := Dataspace SMD_DTYPE_INT32 2 [4; 4] [0; 0] false None in
  let destSpace := Dataspace SMD_DTYPE_INT64 2 [2; 3] [1; 1] false (Some [1; 2]) in
  exists dest', esdm_dataspace_copy_data zeroCast sourceSpace (fun a => a) destSpace (fun _ => 0) = Done (ESDM_SUCCESS, dest') /\
  copy_result zeroCast sourceSpace destSpace (fun a => a) (fun _ => 0) dest'.
Proof.
  intros sourceSpace destSpace.
  apply (copy_data_correct zeroCast length_zeroCast sourceSpace destSpace (fun a => a) (fun _ => 0)
    (convert_from_to zeroCast SMD_DTYPE_INT64 SMD_DTYPE_INT32) [1; 1]).
  - constructor; try done; try (by repeat constructor); try (by constructor; try done; intros s [= <-]).
    + apply positive_fits; by repeat constructor.
    + apply forward_fits; by repeat constructor.
  - reflexivity.
  - repeat constructor; simpl; lia.
  - repeat constructor; simpl; lia.
  - intros p q _ Hp _ Hq E.
    apply in_cube_cons in Hp as (a & p' & -> & Ha & Hp). apply in_cube_cons in Hp as (b & p'' & -> & Hb & Hp).
    apply in_cube_nil in Hp as ->.
    apply in_cube_cons in Hq as (c & q' & -> & Hc & Hq). apply in_cube_cons in Hq as (d & q'' & -> & Hd & Hq).
    apply in_cube_nil in Hq as ->. unfold in_range in *. simpl in Ha, Hb, Hc, Hd.
    assert (Hfit : space_fits destSpace) by (apply forward_fits; by repeat constructor).
    rewrite !elementOffset_in in E by
      (done || (constructor; try done; intros s [= <-]; done) || (repeat constructor; simpl; lia)).
    injection E as E. unfold eff in E. simpl in E. f_equal; [lia |]. f_equal. lia.
Defined.

Lemma copy_data_without_overlap_undefined_witness :
  esdm_dataspace_copy_data zeroCast (Dataspace SMD_DTYPE_INT32 1 [4] [0] false None) (fun a => a)
    (Dataspace SMD_DTYPE_INT32 1 [4] [4] false None) (fun _ => 0) = Undef.
Proof.
  apply (copy_data_without_overlap_undefined zeroCast _ _ _ _ memcpy).
  - constructor; try done; try (by repeat constructor); try (by constructor); apply positive_fits; by repeat constructor.
  - reflexivity.
  - intros p Hp Hp'. apply in_cube_cons in Hp as (a & p' & -> & Ha & _). apply in_cube_cons2 in Hp' as [Ha' _].
    unfold in_range in *. simpl in *. lia.
Defined.

(** * Filling *)

Lemma dot_zero_strides (p o : list Z) (n : nat) : dot p o (replicate n 0) = 0.
Proof.
  revert o n. induction p as [| c p IH]; intros [| x o] [| n]; simpl; try done. rewrite IH. lia.
Qed.

(** The single fill element, seen as a dataspace of the shape to fill. *)
Definition fillSource (dataspace : esdm_dataspace_t) : esdm_dataspace_t :=
  Dataspace (type dataspace) (dims dataspace) (size dataspace) (offset dataspace) false
    (Some (replicate (Z.to_nat (dims dataspace)) 0)).

Lemma reach_zero (sizes : list Z) (n : nat) : reach sizes (replicate n 0) = 0.
Proof. revert n. induction sizes as [| s l IH]; intros [| n]; try done. cbn [replicate reach]. rewrite IH. lia. Qed.

Lemma fillSource_fits (dataspace : esdm_dataspace_t) : space_fits dataspace -> space_fits (fillSource dataspace).
Proof.
  intros [Hc Hb _ _ _]. pose proof int64_min.
  assert (Hz : forall k t, eff (fillSource dataspace) !! k = Some t -> t = 0) by (intros k t H'; by apply lookup_replicate in H' as [-> _]).
  constructor; try done.
  - unfold eff. cbn [fillSource stride size type]. rewrite reach_zero. lia.
  - intros k s t _ Ht. rewrite (Hz k t Ht). lia.
  - intros j k s t u n _ Ht Hu _. rewrite (Hz k t Ht), (Hz j u Hu). lia.
Qed.

Lemma fillSource_ok (dataspace : esdm_dataspace_t) :
  space_wf dataspace -> space_int64 dataspace -> 0 < esdm_sizeof (type dataspace) -> space_fits dataspace ->
  spaces_ok (fillSource dataspace) dataspace.
Proof.
  intros Hwf H64 Hsz Hfit. pose proof Hwf as [Hd Hs Ho _]. constructor; try done; [| by apply fillSource_fits].
  constructor; simpl; try done. intros s [= <-]. rewrite length_replicate. lia.
Qed.

Lemma fill_is_copy (floatCast : esdm_type_t -> esdm_type_t -> list Z -> list Z) (dataspace : esdm_dataspace_t)
    (data fillElement : mem) :
  space_wf dataspace ->
  esdm_dataspace_fill floatCast dataspace data fillElement =
    ('(_, data') ← esdm_dataspace_copy_data floatCast (fillSource dataspace) fillElement dataspace data;
     mret (ESDM_SUCCESS, data')).
Proof.
  intros [Hd Hs Ho _]. unfold esdm_dataspace_fill, esdm_dataspace_create, esdm_dataspace_create_full, esdm_dataspace_get_dims.
  rewrite eassert_true by (apply Z.geb_le; lia). run.
  rewrite (memdup_ok (size dataspace)), (memdup_ok (replicate _ _)), (memdup_ok (offset dataspace))
    by (done || (rewrite length_replicate; lia)). run.
  cbn [type dims size offset strideBacking stride]. unfold esdm_dataspace_set_stride. cbn [dims].
  rewrite memdup_ok by (rewrite length_replicate; lia). run. by rewrite eassert_true by (by apply bool_decide_eq_true).
Qed.

(** [esdm_dataspace_fill()] of a non-empty dataspace whose points have different places puts
    the fill element at every point and leaves all other bytes alone. *)
Theorem fill_correct (floatCast : esdm_type_t -> esdm_type_t -> list Z -> list Z) (dataspace : esdm_dataspace_t)
    (data fillElement : mem) (p0 : list Z) :
  (forall d s bytes, 0 <= esdm_sizeof d -> Z.of_nat (length (floatCast d s bytes)) = esdm_sizeof d) ->
  space_wf dataspace -> space_int64 dataspace -> 0 < esdm_sizeof (type dataspace) -> space_fits dataspace ->
  in_cube p0 (extends dataspace) ->
  (forall p q, in_cube p (extends dataspace) -> in_cube q (extends dataspace) ->
     esdm_dataspace_elementOffset dataspace p = esdm_dataspace_elementOffset dataspace q -> p = q) ->
  exists data', esdm_dataspace_fill floatCast dataspace data fillElement = Done (ESDM_SUCCESS, data') /\
  (forall p, in_cube p (extends dataspace) -> exists d, esdm_dataspace_elementOffset dataspace p = Done d /\
     forall b, 0 <= b < esdm_sizeof (type dataspace) -> data' (d + b) = fillElement b) /\
  (forall a, (forall p d, in_cube p (extends dataspace) -> esdm_dataspace_elementOffset dataspace p = Done d ->
                ~ (d <= a < d + esdm_sizeof (type dataspace))) -> data' a = data a).
Proof.
  intros Hcast Hwf H64 Hsz Hfit Hp0 Hinj. rewrite fill_is_copy by done.
  destruct (copy_data_ok floatCast Hcast (fillSource dataspace) dataspace fillElement data memcpy p0)
    as (data' & -> & Hin & Hout); try done.
  { by apply fillSource_ok. }
  { unfold ea_converter_for_types. by rewrite decide_True. }
  { intros p q _ Hp _ Hq. by apply Hinj. }
  exists data'. split; [done |]. split.
  - intros p Hp. destruct (Hin p Hp Hp) as (s & d & Es & Ed & Hb). exists d. split; [done |]. intros b Hbr.
    specialize (Hb b Hbr). unfold element in Hb. rewrite decide_True in Hb by done.
    pose proof (fillSource_ok _ Hwf H64 Hsz Hfit) as Hok.
    rewrite elementOffset_index in Es; [| apply Hok | apply Hok | done | done].
    injection Es as <-. unfold index, eff in Hb. cbn [fillSource stride] in Hb. rewrite dot_zero_strides in Hb.
    cbn [type fillSource] in Hb. rewrite Z.mul_0_l, lookup_read_bytes in Hb by done. injection Hb as Hb. by rewrite <- Hb.
  - intros a Ha. apply Hout. intros p d _ Hp. by apply Ha.
Qed.

(** Filling every second element of a buffer. *)
Lemma fill_correct_witness :
  let dataspace := Dataspace SMD_DTYPE_INT16 1 [3] [5] false (Some [2]) in
  exists data', esdm_dataspace_fill zeroCast dataspace (fun _ => 0) (fun b => b + 7) = Done (ESDM_SUCCESS, data') /\
  data' 4 = 7 /\ data' 9 = 8.
Proof.
  intros dataspace.
  destruct (fill_correct zeroCast dataspace (fun _ => 0) (fun b => b + 7) [5]) as (data' & E & Hin & _).
  - exact length_zeroCast.
  - constructor; try done. by intros s [= <-].
  - by repeat constructor.
  - done.
  - apply forward_fits; by repeat constructor.
  - repeat constructor; simpl; lia.
  - intros p q Hp Hq E.
    apply in_cube_cons in Hp as (a & p' & -> & Ha & Hp). apply in_cube_nil in Hp as ->.
    apply in_cube_cons in Hq as (c & q' & -> & Hc & Hq). apply in_cube_nil in Hq as ->.
    assert (Hfit : space_fits dataspace) by (apply forward_fits; by repeat constructor).
    rewrite !elementOffset_in in E by
      (done || (constructor; try done; by intros s [= <-]) || (by repeat constructor)).
    injection E as E. unfold eff in E. simpl in E. f_equal. lia.
  - exists data'. split; [exact E |].
    destruct (Hin [6]) as (d & Ed & Hd); [repeat constructor; simpl; lia |].
    destruct (Hin [7]) as (d' & Ed' & Hd'); [repeat constructor; simpl; lia |].
    vm_compute in Ed, Ed'. injection Ed as <-. injection Ed' as <-.
    split; [apply (Hd 0) | apply (Hd' 1)]; done.
Defined.

(** * Direct I/O *)

Lemma length_relative (l : list aloop) (p : aloop) : length (relative p l) = length l.
Proof. revert p. induction l as [| a l IH]; intros p; simpl; [done |]. by rewrite IH. Qed.

Lemma length_instructions (order : list nat) (os ss ds : list Z) (ssz dsz : Z) :
  length (plan_loops order os ss ds ssz dsz []) = length order.
Proof. by rewrite <- length_rev, plan_loops_relative, length_relative, length_fmap, length_rev. Qed.

Lemma volume_osizes (c : esdmI_hypercube_t) : nonempty c -> volume c = prod (osizes c).
Proof.
  unfold osizes. induction 1 as [| r c Hr _ IH]; [done |]. csimpl. rewrite IH. unfold rsize.
  by rewrite Z.max_r by lia.
Qed.

(** A sub-box with as many points is the whole box. *)
Lemma same_volume_all (a c : esdmI_hypercube_t) :
  (forall p, in_cube p c -> in_cube p a) -> volume c = volume a -> forall p, in_cube p a -> in_cube p c.
Proof.
  intros Hsub Hvol p Hp. rewrite <- elem_of_points in Hp |- *.
  assert (Hperm : points c ≡ₚ points a).
  { apply submseteq_length_Permutation.
    - apply NoDup_submseteq; [apply NoDup_points |]. intros q. rewrite !elem_of_points. apply Hsub.
    - apply Nat2Z.inj_le. rewrite !length_points. lia. }
  by rewrite Hperm.
Qed.

(** With all dimensions in one chunk the two places of a point differ by a constant. *)
Lemma single_chunk (n : nat) (c : esdmI_hypercube_t) (so sdo ss ds : list Z) (mask : list bool) (dpo chunk : Z) (p : list Z) :
  length c = n -> length so = n -> length sdo = n -> length ss = n -> length ds = n ->
  (forall k, (k < n)%nat -> 1 <= nthZ (osizes c) k) ->
  fuse_inv n (nthZ (osizes c)) (nthZ ss) (nthZ ds) mask dpo chunk -> unfused mask = [] -> in_cube p c ->
  exists t, 0 <= t < chunk /\ dot p so ss = dot (rstart <$> c) so ss - dpo + t /\
  dot p sdo ds = dot (rstart <$> c) sdo ds - dpo + t.
Proof.
  intros Hc Hso Hdo Hss Hds Ho Hinv Hun Hp. apply in_cube_shift in Hp as (i & Hi & ->). rewrite Hc in Hi.
  pose proof (fi_range _ _ _ _ _ _ _ Hinv i Hi) as Hr.
  exists (sumf (fused mask) (fun k => i k * nthZ ss k) + dpo). split; [lia |].
  rewrite (point_element n c so sdo ss ds Hc Hso Hdo Hss Hds mask dpo chunk Hinv [] ltac:(by rewrite Hun) so ss i Hso Hss).
  rewrite (point_element n c so sdo ss ds Hc Hso Hdo Hss Hds mask dpo chunk Hinv [] ltac:(by rewrite Hun) sdo ds i Hdo Hds).
  rewrite (fused_dest n c ss ds mask dpo chunk Hinv i). simpl. lia.
Qed.

(** A positive answer for overlapping dataspaces. *)
Lemma direct_io_inv (dataspace da : esdm_dataspace_t) (haveBuffer : bool) (off : Z) (p0 : list Z) :
  spaces_ok dataspace da -> in_cube p0 (extends dataspace) -> in_cube p0 (extends da) ->
  esdmI_scheduler_try_direct_io dataspace haveBuffer da = Done (true, Some off) ->
  exists c mask dpo chunk,
    (forall q, in_cube q c <-> in_cube q (extends dataspace) /\ in_cube q (extends da)) /\
    length c = length (extends dataspace) /\
    nonempty c /\ (forall k, (k < length c)%nat -> 1 <= nthZ (osizes c) k) /\
    fuse_inv (length c) (nthZ (osizes c)) (nthZ (eff dataspace)) (nthZ (eff da)) mask dpo chunk /\ unfused mask = [] /\
    type dataspace = type da /\ haveBuffer = false /\
    esdm_dataspace_total_bytes dataspace = Done (chunk * esdm_sizeof (type dataspace)) /\
    (dot (rstart <$> c) (offset dataspace) (eff dataspace) - dpo) * esdm_sizeof (type dataspace) = 0 /\
    off = (dot (rstart <$> c) (offset da) (eff da) - dpo) * esdm_sizeof (type da).
Proof.
  intros Hok Hp Hp' E. pose proof (extends_same_rank _ _ Hok) as Hlen. pose proof Hok as [H1 H2 H3 H4 Hd Hs1 Hs2 Hf1 Hf2].
  destruct (overlap_some _ _ p0 Hlen Hp Hp') as (c & Ec & Hc).
  destruct (overlap_offset_size _ _ _ Ec Hlen (extends_size64 _ H3)) as [_ Hpos].
  pose proof (makeIntersection_loop_spec _ _ Hlen) as Hspec. rewrite Ec in Hspec. destruct Hspec as (Hcl & Hn & _).
  destruct (copy_instructions_ok _ _ _ Hok Ec) as (mask & dpo & chunk & order & Ep & Hinv & Hord). cbv zeta in Ep.
  unfold esdmI_scheduler_try_direct_io in E. destruct (bool_decide (type dataspace = type da)) eqn:Et; [| done].
  apply bool_decide_eq_true in Et. cbn [negb] in E.
  rewrite eassert_true in E by (by apply Z.eqb_eq). cbn [mbind outcome_bind] in E.
  rewrite Ep in E. cbn [mbind outcome_bind deref instructions sourceChunkBytes sourceOffset destOffset] in E.
  rewrite length_instructions in E.
  destruct (Z.ltb_spec 0 (Z.of_nat (length order))) as [? | Hlo]; [done |].
  apply bind_done_inv in E as (total & Etot & E).
  destruct (Z.eqb_spec total (chunk * esdm_sizeof (type dataspace))) as [-> |]; [cbn [negb] in E | done].
  destruct haveBuffer; [done |]. apply bind_done_inv in E as ([] & Easrt & E). apply eassert_inv, Z.eqb_eq in Easrt.
  injection E as <-. exists c, mask, dpo, chunk.
  assert (order = []) as -> by (destruct order; [done | simpl in Hlo; lia]).
  symmetry in Hord. apply Permutation_nil_r in Hord. by repeat (split; [done |]).
Qed.

Lemma chunk_volume (c : esdmI_hypercube_t) (s d : nat -> Z) (mask : list bool) (dpo chunk : Z) :
  nonempty c -> fuse_inv (length c) (nthZ (osizes c)) s d mask dpo chunk -> unfused mask = [] -> chunk = volume c.
Proof.
  intros Hn Hinv Hun. rewrite (fi_prod _ _ _ _ _ _ _ Hinv), volume_osizes by done.
  pose proof (fused_unfused mask) as Hfu. rewrite Hun, app_nil_r, (fi_length _ _ _ _ _ _ _ Hinv) in Hfu.
  rewrite Hfu. replace (length c) with (length (osizes c)) by apply length_fmap. by rewrite nthZ_seq.
Qed.

(** The places of the points for a positive answer. *)
Lemma direct_io_ok (dataspace da : esdm_dataspace_t) (haveBuffer : bool) (off : Z) (p0 : list Z) :
  spaces_ok dataspace da -> Forall (fun s => 0 < s) (size dataspace) ->
  prod (size dataspace) * esdm_sizeof (type dataspace) <= INT64_MAX ->
  in_cube p0 (extends dataspace) -> in_cube p0 (extends da) ->
  esdmI_scheduler_try_direct_io dataspace haveBuffer da = Done (true, Some off) ->
  type dataspace = type da /\ haveBuffer = false /\
  exists total, esdm_dataspace_total_bytes dataspace = Done total /\
  forall p, in_cube p (extends dataspace) -> in_cube p (extends da) /\
  exists s, esdm_dataspace_elementOffset dataspace p = Done s /\ esdm_dataspace_elementOffset da p = Done (off + s) /\
  0 <= s /\ s + esdm_sizeof (type dataspace) <= total.
Proof.
  intros Hok Hsz Hmax Hp Hp' E. pose proof Hok as [H1 H2 _ _ Hd Hs1 Hs2 Hf1 Hf2]. pose proof H1 as [_ Hls _ _].
  destruct (direct_io_inv _ _ _ _ p0 Hok Hp Hp' E)
    as (c & mask & dpo & chunk & Hc & Hcl & Hn & Hpos & Hinv & Hun & Ht & Hb & Htot & Hoff & ->).
  split; [done |]. split; [done |]. eexists. split; [exact Htot |].
  pose proof (chunk_volume c _ _ mask dpo chunk Hn Hinv Hun) as Hchunk.
  rewrite total_bytes_ok in Htot by done. injection Htot as Hvol. apply Z.mul_reg_r in Hvol; [| lia].
  pose proof (length_extends _ H1). pose proof (length_eff _ H1). pose proof (length_eff _ H2).
  pose proof H1 as [_ _ ? _]. pose proof H2 as [_ _ ? _].
  intros p Hin. assert (Hpc : in_cube p c).
  { apply (same_volume_all (extends dataspace)); [by intros q [? _]%Hc | lia | done]. }
  split; [by apply Hc |].
  destruct (single_chunk (length c) c (offset dataspace) (offset da) (eff dataspace) (eff da) mask dpo chunk p)
    as (t & Htr & Es & Ed); try done; try lia.
  exists (index dataspace p * esdm_sizeof (type dataspace)).
  rewrite !elementOffset_index by (done || by apply Hc). unfold index. rewrite Es, Ed, <- Ht.
  split; [done |]. split; [f_equal; nia | nia].
Qed.

Lemma dot_nonneg (p o t : list Z) : Forall2 Z.le o p -> Forall (fun x => 0 <= x) t -> 0 <= dot p o t.
Proof.
  intros Hp. revert t. induction Hp as [| a b o p Hab _ IH]; intros t Ht; [by destruct t |]. destruct Ht as [| x t Hx Ht]; [done |].
  cbn [dot]. specialize (IH t Ht). nia.
Qed.

Lemma dot_self (o t : list Z) : dot o o t = 0.
Proof. revert t. induction o as [| x o IH]; intros [| y t]; try done. cbn [dot]. rewrite IH. lia. Qed.

Lemma offset_in_extends (space : esdm_dataspace_t) :
  space_wf space -> Forall (fun s => 0 < s) (size space) -> in_cube (offset space) (extends space).
Proof.
  intros [Hd Hs Ho _] Hpos. unfold extends. assert (Hl : length (offset space) = length (size space)) by lia.
  clear -Hpos Hl. revert Hl. generalize (offset space). induction Hpos as [| s ss Hs _ IH]; intros [| o os] Hl; try done.
  { by apply in_cube_nil. }
  cbn [zip_with]. apply in_cube_cons2. split; [unfold in_range; simpl; lia |]. apply IH. simpl in Hl. lia.
Qed.

Lemma extends_above_offset (space : esdm_dataspace_t) (p : list Z) :
  space_wf space -> in_cube p (extends space) -> Forall2 Z.le (offset space) p.
Proof.
  intros [Hd Hs Ho _]. unfold extends. assert (Hl : length (offset space) = length (size space)) by lia. revert p Hl. clear.
  generalize (size space). induction (offset space) as [| o os IH]; intros [| s ss] p Hl Hp; try discriminate Hl.
  - apply in_cube_length in Hp. by destruct p.
  - destruct p as [| x p]; [by apply in_cube_length in Hp |]. cbn [zip_with] in Hp. apply in_cube_cons2 in Hp as [Hx Hp].
    unfold in_range in Hx. simpl in Hx. constructor; [lia |]. apply (IH ss); [by injection Hl | done].
Qed.

(** Without negative strides the tests either refuse or give an offset. *)
Lemma direct_io_defined (dataspace da : esdm_dataspace_t) (haveBuffer : bool) (p0 : list Z) :
  spaces_ok dataspace da -> Forall (fun s => 0 < s) (size dataspace) ->
  prod (size dataspace) * esdm_sizeof (type dataspace) <= INT64_MAX -> Forall (fun t => 0 <= t) (eff dataspace) ->
  in_cube p0 (extends dataspace) -> in_cube p0 (extends da) ->
  esdmI_scheduler_try_direct_io dataspace haveBuffer da = Done (false, None) \/
  exists off, esdmI_scheduler_try_direct_io dataspace haveBuffer da = Done (true, Some off).
Proof.
  intros Hok Hsz Hmax Hfwd Hp Hp'. pose proof (extends_same_rank _ _ Hok) as Hlen. pose proof Hok as [H1 H2 H3 H4 Hd Hs1 Hs2 Hf1 Hf2].
  destruct (overlap_some _ _ p0 Hlen Hp Hp') as (c & Ec & Hc).
  destruct (overlap_offset_size _ _ _ Ec Hlen (extends_size64 _ H3)) as [_ Hpos].
  pose proof (makeIntersection_loop_spec _ _ Hlen) as Hspec. rewrite Ec in Hspec. destruct Hspec as (Hcl & Hn & _).
  destruct (copy_instructions_ok _ _ _ Hok Ec) as (mask & dpo & chunk & order & Ep & Hinv & Hord). cbv zeta in Ep.
  unfold esdmI_scheduler_try_direct_io. destruct (bool_decide (type dataspace = type da)); [| by left]. cbn [negb].
  rewrite eassert_true by (by apply Z.eqb_eq). run. rewrite Ep. run. cbn [instructions sourceChunkBytes sourceOffset destOffset].
  rewrite length_instructions. destruct (Z.ltb_spec 0 (Z.of_nat (length order))) as [? | Hlo]; [by left |].
  rewrite total_bytes_ok by done. run. destruct (Z.eqb_spec (volume (extends dataspace) * esdm_sizeof (type dataspace)) (chunk * esdm_sizeof (type dataspace))) as [Heq |]; [| by left].
  cbn [negb]. destruct haveBuffer; [by left |]. right.
  assert (order = []) as -> by (destruct order; [done | simpl in Hlo; lia]). symmetry in Hord. apply Permutation_nil_r in Hord.
  pose proof (length_extends _ H1) as Hl1. pose proof (length_eff _ H1) as Hl2. pose proof (length_eff _ H2) as Hl3.
  pose proof H1 as [_ Hls Hlo1 _]. pose proof H2 as [_ _ Hlo2 _].
  assert (Hdpo : dpo <= 0).
  { destruct (fi_onto _ _ _ _ _ _ _ Hinv (- dpo)) as (i & Hi & Hsum); [pose proof (fi_chunk _ _ _ _ _ _ _ Hinv); lia |].
    assert (0 <= sumf (fused mask) (fun k => i k * nthZ (eff dataspace) k)); [| lia]. rewrite <- (fi_length _ _ _ _ _ _ _ Hinv) in Hi.
    assert (Hk : forall k, k ∈ fused mask -> 0 <= i k * nthZ (eff dataspace) k).
    { intros k Hk. apply elem_of_fused in Hk. unfold nthB in Hk. destruct (mask !! k) eqn:Em; [| done]. apply lookup_lt_Some in Em.
      specialize (Hi k Em). unfold nthZ. destruct (eff dataspace !! k) as [x |] eqn:Ex; [| simpl; lia].
      pose proof (Forall_lookup_1 _ _ _ _ Hfwd Ex). simpl in *. nia. }
    clear -Hk. induction (fused mask) as [| k l IH]; [done |]. cbn [sumf foldr fmap]. simpl.
    pose proof (Hk k ltac:(by left)). assert (0 <= sumf l (fun k => i k * nthZ (eff dataspace) k)) by (apply IH; intros j Hj; apply Hk; by right).
    unfold sumf in *. lia. }
  assert (Hall : forall p, in_cube p (extends dataspace) -> in_cube p c).
  { apply same_volume_all; [by intros q [? _]%Hc |]. rewrite <- (chunk_volume c _ _ mask dpo chunk Hn Hinv Hord). nia. }
  destruct (single_chunk (length c) c (offset dataspace) (offset da) (eff dataspace) (eff da) mask dpo chunk (offset dataspace))
    as (t & Htr & Es & _); try done; try lia; [by apply Hall, offset_in_extends |].
  rewrite dot_self in Es. pose proof (dot_nonneg (rstart <$> c) (offset dataspace) (eff dataspace)) as Hnn.
  rewrite eassert_true; [by eexists |]. apply Z.eqb_eq. specialize (Hnn ltac:(apply extends_above_offset; [done | apply Hc, nonempty_point, Hn]) Hfwd).
  assert (dot (rstart <$> c) (offset dataspace) (eff dataspace) - dpo = 0) as -> by lia. lia.
Qed.

(** When [esdmI_scheduler_try_direct_io()] lets a backend read a fragment straight into the
    user's buffer (for overlapping dataspaces), every point of the fragment belongs to the
    requested region, has its element inside the fragment's data, and has exactly that place,
    displaced by the returned offset, in the user's layout: reading the fragment's bytes there
    is the same as copying them. *)
Theorem direct_io_correct (dataspace da : esdm_dataspace_t) (haveBuffer : bool) (off : Z) (p0 : list Z) :
  spaces_ok dataspace da -> Forall (fun s => 0 < s) (size dataspace) ->
  prod (size dataspace) * esdm_sizeof (type dataspace) <= INT64_MAX ->
  in_cube p0 (extends dataspace) -> in_cube p0 (extends da) ->
  esdmI_scheduler_try_direct_io dataspace haveBuffer da = Done (true, Some off) ->
  type dataspace = type da /\ haveBuffer = false /\
  exists total, esdm_dataspace_total_bytes dataspace = Done total /\
  forall p, in_cube p (extends dataspace) -> in_cube p (extends da) /\
  exists s, esdm_dataspace_elementOffset dataspace p = Done s /\ esdm_dataspace_elementOffset da p = Done (off + s) /\
  0 <= s /\ s + esdm_sizeof (type dataspace) <= total.
Proof. by apply direct_io_ok. Qed.

(** A fragment that is one row of the requested block. *)
Lemma direct_io_correct_witness :
  let fragment := Dataspace SMD_DTYPE_INT32 2 [1; 4] [2; 0] false None in
  let da := Dataspace SMD_DTYPE_INT32 2 [3; 4] [1; 0] false None in
  esdmI_scheduler_try_direct_io fragment false da = Done (true, Some 16) /\
  exists total, esdm_dataspace_total_bytes fragment = Done total.
Proof.
  intros fragment da. assert (E : esdmI_scheduler_try_direct_io fragment false da = Done (true, Some 16)) by reflexivity.
  split; [exact E |].
  destruct (direct_io_correct fragment da false 16 [2; 0]) as (_ & _ & total & Et & _).
  - constructor; try done; try (by repeat constructor); try (by constructor); apply positive_fits; by repeat constructor.
  - by repeat constructor.
  - vm_compute. done.
  - repeat constructor; simpl; lia.
  - repeat constructor; simpl; lia.
  - exact E.
  - exists total. exact Et.
Defined.

(** A fragment stored with a negative stride that is read into a buffer with the same layout
    passes all tests of [esdmI_scheduler_try_direct_io()] but its closing assertion on the
    source offset: the process is aborted. *)
Lemma direct_io_negative_stride_aborts :
  let space := Dataspace SMD_DTYPE_INT32 1 [4] [0] false (Some [-1]) in
  esdmI_scheduler_try_direct_io space false space = Abort.
Proof. reflexivity. Qed.
