(* ===== verification/Partition.v ===== *)
(** Partitions of a hypercube into the cells of a rectilinear grid, the shape that both the
    fragmentation of the scheduler and the grids of a dataset have. *)

From S2P Require Import Prelude Hypercube HypercubeSet Odometer.

(** The cubes are non-empty, pairwise disjoint, and together have the points of the whole. *)
Record partitions (cs : list esdmI_hypercube_t) (whole : esdmI_hypercube_t) : Prop := {
  pa_nonempty : Forall nonempty cs;
  pa_covers : forall p, covered cs p <-> in_cube p whole;
  pa_disjoint : forall k l c c' p, cs !! k = Some c -> cs !! l = Some c' -> in_cube p c -> in_cube p c' -> k = l
}.

Lemma partitions_single (c : esdmI_hypercube_t) : nonempty c -> partitions [c] c.
Proof.
  intros Hc. constructor.
  - by constructor.
  - intros p. unfold covered. setoid_rewrite list_elem_of_singleton. naive_solver.
  - intros [| k] [| l] c1 c2 p; simpl; try done; by rewrite ?lookup_nil.
Qed.

(** * Bounds of one dimension *)

Definition cells (b : list Z) : Z := Z.of_nat (length b) - 1.

Definition cell_range (b : list Z) (k : Z) : esdmI_range_t :=
  Range (nthZ b (Z.to_nat k)) (nthZ b (S (Z.to_nat k))).

Definition bounds_ok (b : list Z) : Prop := StronglySorted Z.lt b /\ (2 <= length b)%nat.

Lemma sorted_nth_lt (b : list Z) (i j : nat) :
  StronglySorted Z.lt b -> (i < j < length b)%nat -> nthZ b i < nthZ b j.
Proof.
  intros Hs Hij. destruct (lookup_lt_is_Some_2 b i) as [x Hx]; [lia |]. destruct (lookup_lt_is_Some_2 b j) as [y Hy]; [lia |].
  unfold nthZ. rewrite Hx, Hy. simpl. apply take_drop_middle in Hx. rewrite <- Hx in Hs.
  apply StronglySorted_app_1_r, StronglySorted_cons in Hs as [Hs _]. rewrite Forall_forall in Hs. apply Hs.
  apply list_elem_of_lookup. exists (j - S i)%nat. rewrite lookup_drop. by replace (S i + (j - S i))%nat with j by lia.
Qed.

Lemma sorted_nth_le (b : list Z) (i j : nat) :
  StronglySorted Z.lt b -> (i <= j < length b)%nat -> nthZ b i <= nthZ b j.
Proof.
  intros Hs Hij. destruct (decide (i = j)) as [-> | Hne]; [lia |]. pose proof (sorted_nth_lt b i j Hs). lia.
Qed.

(** Every coordinate between the first and the last bound is in exactly one cell. *)
Lemma cell_exists (b : list Z) (x : Z) :
  bounds_ok b -> nthZ b 0 <= x < nthZ b (length b - 1) ->
  exists k, 0 <= k < cells b /\ in_range x (cell_range b k).
Proof.
  intros [Hs Hlen] Hx.
  assert (Hgen : forall m, (m < length b)%nat -> x < nthZ b m -> exists k, 0 <= k < Z.of_nat m /\ in_range x (cell_range b k)).
  { induction m as [| m IH]; intros Hm Hlt; [lia |]. destruct (Z.ltb_spec x (nthZ b m)).
    - destruct IH as (k & Hk & Hr); [lia | done |]. exists k. split; [lia | done].
    - exists (Z.of_nat m). split; [lia |]. unfold in_range, cell_range. rewrite Nat2Z.id. done. }
  destruct (Hgen (length b - 1)%nat) as (k & Hk & Hr); [lia | lia |]. exists k. split; [unfold cells; lia | done].
Qed.

Lemma cell_unique (b : list Z) (x k l : Z) :
  bounds_ok b -> 0 <= k < cells b -> 0 <= l < cells b ->
  in_range x (cell_range b k) -> in_range x (cell_range b l) -> k = l.
Proof.
  intros [Hs Hlen] Hk Hl. unfold in_range, cell_range, cells in *. simpl. intros H1 H2.
  destruct (Z.lt_trichotomy k l) as [Hlt | [? | Hlt]]; [| done |].
  - pose proof (sorted_nth_le b (S (Z.to_nat k)) (Z.to_nat l) Hs ltac:(lia)). lia.
  - pose proof (sorted_nth_le b (S (Z.to_nat l)) (Z.to_nat k) Hs ltac:(lia)). lia.
Qed.

Lemma cell_inside (b : list Z) (x k : Z) :
  bounds_ok b -> 0 <= k < cells b -> in_range x (cell_range b k) -> nthZ b 0 <= x < nthZ b (length b - 1).
Proof.
  intros [Hs Hlen] Hk. unfold in_range, cell_range, cells in *. simpl. intros H1.
  pose proof (sorted_nth_le b 0 (Z.to_nat k) Hs ltac:(lia)).
  pose proof (sorted_nth_le b (S (Z.to_nat k)) (length b - 1) Hs ltac:(lia)). lia.
Qed.

Lemma cell_nonempty (b : list Z) (k : Z) :
  bounds_ok b -> 0 <= k < cells b -> rstart (cell_range b k) < rend (cell_range b k).
Proof. intros [Hs Hlen] Hk. unfold cells in Hk. simpl. apply sorted_nth_lt; [done | lia]. Qed.

(** * Cells in all dimensions *)

Section Cells.

Context (n : nat) (b : nat -> list Z) (Hb : forall d, (d < n)%nat -> bounds_ok (b d)).

Definition cellcube (i : nat -> Z) : esdmI_hypercube_t := (fun d => cell_range (b d) (i d)) <$> seq 0 n.

Definition wholecube : esdmI_hypercube_t := (fun d => Range (nthZ (b d) 0) (nthZ (b d) (length (b d) - 1))) <$> seq 0 n.

Lemma in_cube_seq (f : nat -> esdmI_range_t) (p : list Z) :
  in_cube p (f <$> seq 0 n) <-> length p = n /\ forall d, (d < n)%nat -> in_range (nthZ p d) (f d).
Proof.
  unfold in_cube. rewrite Forall2_fmap_r. split.
  - intros H. pose proof (Forall2_length _ _ _ H) as Hl. rewrite length_seq in Hl. split; [done |].
    intros d Hd. destruct (lookup_lt_is_Some_2 p d) as [x Hx]; [lia |].
    unfold nthZ. rewrite Hx. simpl. apply (Forall2_lookup_lr _ _ _ d _ _ H Hx). by apply lookup_seq_lt.
  - intros [Hl H]. apply Forall2_same_length_lookup_2; [by rewrite length_seq |].
    intros d x y Hx Hy. apply lookup_seq in Hy as [-> Hy]. specialize (H d Hy). unfold nthZ in H. by rewrite Hx in H.
Qed.

Definition in_cells (i : nat -> Z) : Prop := forall d, (d < n)%nat -> 0 <= i d < cells (b d).

Lemma cellcube_nonempty (i : nat -> Z) : in_cells i -> nonempty (cellcube i).
Proof.
  intros Hi. apply Forall_fmap, Forall_forall. intros d Hd%elem_of_seq. apply cell_nonempty; [apply Hb | apply Hi]; lia.
Qed.

Lemma cellcube_inside (i : nat -> Z) (p : list Z) : in_cells i -> in_cube p (cellcube i) -> in_cube p wholecube.
Proof.
  intros Hi. unfold cellcube, wholecube. rewrite !in_cube_seq. intros [Hl H]. split; [done |]. intros d Hd.
  apply (cell_inside (b d) _ (i d)); auto.
Qed.

Lemma cellcube_unique (i i' : nat -> Z) (p : list Z) :
  in_cells i -> in_cells i' -> in_cube p (cellcube i) -> in_cube p (cellcube i') ->
  forall d, (d < n)%nat -> i d = i' d.
Proof.
  intros Hi Hi'. unfold cellcube. rewrite !in_cube_seq. intros [_ H] [_ H'] d Hd.
  apply (cell_unique (b d) (nthZ p d)); auto.
Qed.

Lemma cellcube_exists (p : list Z) : in_cube p wholecube -> exists i, in_cells i /\ in_cube p (cellcube i).
Proof.
  unfold wholecube. rewrite in_cube_seq. intros [Hl H].
  assert (Hex : forall m, (m <= n)%nat -> exists i, forall d, (d < m)%nat ->
    0 <= i d < cells (b d) /\ in_range (nthZ p d) (cell_range (b d) (i d))).
  { induction m as [| m IH]; intros Hm; [exists (fun _ => 0); lia |].
    destruct IH as [i Hi]; [lia |].
    destruct (cell_exists (b m) (nthZ p m) (Hb m ltac:(lia)) (H m ltac:(lia))) as (k & Hk & Hr).
    exists (fun d => if decide (d = m) then k else i d). intros d Hd. case_decide; [by subst | apply Hi; lia]. }
  destruct (Hex n (le_n n)) as [i Hi]. exists i. split; [intros d Hd; by apply Hi |].
  unfold cellcube. rewrite in_cube_seq. split; [done |]. intros d Hd. by apply Hi.
Qed.

Lemma cellcube_ext (i i' : nat -> Z) : (forall d, (d < n)%nat -> i d = i' d) -> cellcube i = cellcube i'.
Proof.
  intros H. apply list_fmap_ext. intros k d Hd. apply lookup_seq in Hd as [-> Hd]. simpl in Hd. by rewrite H by lia.
Qed.

(** An enumeration of all cells, each once, partitions the whole. *)
Lemma cells_partition (L : list (nat -> Z)) :
  (forall i, i ∈ L -> in_cells i) ->
  (forall i, in_cells i -> exists i', i' ∈ L /\ forall d, (d < n)%nat -> i' d = i d) ->
  (forall k l i i', L !! k = Some i -> L !! l = Some i' -> (forall d, (d < n)%nat -> i d = i' d) -> k = l) ->
  partitions (cellcube <$> L) wholecube.
Proof.
  intros Hin Hall Huniq. constructor.
  - apply Forall_fmap, Forall_forall. intros i Hi. by apply cellcube_nonempty, Hin.
  - intros p. split.
    + intros (c & (i & -> & Hi)%list_elem_of_fmap & Hp). apply (cellcube_inside i); auto.
    + intros Hp. destruct (cellcube_exists p Hp) as (i & Hi & Hpi). destruct (Hall i Hi) as (i' & Hi' & Heq).
      exists (cellcube i'). split; [by apply list_elem_of_fmap_2 |]. by rewrite (cellcube_ext i' i Heq).
  - intros k l c c' p Hk Hl Hp Hp'. rewrite list_lookup_fmap in Hk, Hl.
    destruct (L !! k) as [i |] eqn:Ek; [injection Hk as <- | done].
    destruct (L !! l) as [i' |] eqn:El; [injection Hl as <- | done].
    apply (Huniq k l i i' Ek El). apply (cellcube_unique i i' p); try done; apply Hin; by eapply list_elem_of_lookup_2.
Qed.

(** * Cells enumerated by a counter *)

(** The function that has the values [cs] at the dimensions [ks] and is zero elsewhere. *)
Fixpoint assign (ks : list nat) (cs : list Z) (d : nat) : Z :=
  match ks, cs with
  | k :: ks', c :: cs' => if decide (d = k) then c else assign ks' cs' d
  | _, _ => 0
  end.

Lemma assign_fmap (ks : list nat) (cs : list Z) :
  NoDup ks -> length cs = length ks -> assign ks cs <$> ks = cs.
Proof.
  revert cs. induction ks as [| k ks IH]; intros [| c cs] Hnd Hlen; simpl in Hlen; try lia; [done |].
  apply NoDup_cons in Hnd as [Hk Hnd]. rewrite fmap_cons. cbn [assign]. rewrite decide_True by done. f_equal.
  transitivity (assign ks cs <$> ks); [| apply IH; [done | lia]].
  apply list_fmap_ext. intros p x Hx. rewrite decide_False; [done |]. intros ->. apply Hk. by eapply list_elem_of_lookup_2.
Qed.

Lemma assign_out (ks : list nat) (cs : list Z) (d : nat) : d ∉ ks -> assign ks cs d = 0.
Proof.
  revert cs. induction ks as [| k ks IH]; intros [| c cs] Hd; simpl; try done.
  apply not_elem_of_cons in Hd as [Hne Hd]. rewrite decide_False by done. by apply IH.
Qed.

Lemma assign_lookup (ks : list nat) (cs : list Z) (x d : nat) (c : Z) :
  NoDup ks -> ks !! x = Some d -> cs !! x = Some c -> assign ks cs d = c.
Proof.
  revert cs x. induction ks as [| k ks IH]; intros [| c' cs] [| x] Hnd Hk Hc; simpl in *; try done; simplify_eq.
  - by rewrite decide_True.
  - apply NoDup_cons in Hnd as [Hn Hnd]. rewrite decide_False; [by eapply IH |].
    intros ->. apply Hn. by eapply list_elem_of_lookup_2.
Qed.

Lemma digits_partition (ks : list nat) :
  NoDup ks -> (forall d, d ∈ ks -> (d < n)%nat) -> (forall d, (d < n)%nat -> d ∉ ks -> cells (b d) = 1) ->
  let ns := (fun d => cells (b d)) <$> ks in
  partitions ((fun j => cellcube (assign ks (digits ns j))) <$> seqZ 0 (prod ns)) wholecube.
Proof.
  intros Hnd Hks Hone ns.
  assert (Hns : Forall (fun x => 0 < x) ns).
  { apply Forall_fmap, Forall_forall. intros d Hd. pose proof (Hb d (Hks d Hd)) as [_ ?]. unfold compose, cells. lia. }
  assert (Hlen : forall j, length (digits ns j) = length ks).
  { intros j. rewrite (Forall2_length _ _ _ (digits_bounds ns j Hns)). apply length_fmap. }
  change (fun j => cellcube (assign ks (digits ns j))) with (cellcube ∘ (fun j => assign ks (digits ns j))).
  rewrite list_fmap_compose. apply cells_partition.
  - intros i (j & -> & Hj)%list_elem_of_fmap d Hd. destruct (decide (d ∈ ks)) as [Hin | Hout].
    + apply list_elem_of_lookup in Hin as [x Hx]. pose proof (digits_bounds ns j Hns) as Hbd.
      rewrite <- (assign_fmap ks (digits ns j) Hnd (Hlen j)) in Hbd at 1. unfold ns in Hbd at 2.
      apply (Forall2_lookup_lr _ _ _ x _ _ Hbd); by rewrite list_lookup_fmap, Hx.
    + rewrite assign_out, Hone by done. lia.
  - intros i Hi. destruct (digits_onto ns (i <$> ks)) as (j & Hj & Ej).
    { unfold ns. apply Forall2_fmap, Forall_Forall2_diag, Forall_forall. intros d Hd. apply Hi. by apply Hks. }
    exists (assign ks (digits ns j)). split.
    + apply list_elem_of_fmap. exists j. split; [done |]. apply elem_of_seqZ. lia.
    + intros d Hd. rewrite Ej. destruct (decide (d ∈ ks)) as [Hin | Hout].
      * apply list_elem_of_lookup in Hin as [x Hx].
        pose proof (assign_fmap ks (i <$> ks) Hnd ltac:(apply length_fmap)) as E.
        apply (f_equal (fun l => l !! x)) in E. rewrite !list_lookup_fmap, Hx in E. by injection E.
      * rewrite assign_out by done. specialize (Hi d Hd). rewrite (Hone d Hd Hout) in Hi. lia.
  - intros k l i i' Hk Hl Heq. apply list_lookup_fmap_Some in Hk as (j & -> & Hj).
    apply list_lookup_fmap_Some in Hl as (j' & -> & Hj').
    apply lookup_seqZ in Hj as [-> Hj]. apply lookup_seqZ in Hj' as [-> Hj'].
    assert (0 + Z.of_nat k = 0 + Z.of_nat l); [| lia]. apply (digits_inj ns); [done | lia | lia |].
    rewrite <- (assign_fmap ks (digits ns (0 + Z.of_nat k)) Hnd (Hlen _)).
    rewrite <- (assign_fmap ks (digits ns (0 + Z.of_nat l)) Hnd (Hlen _)).
    apply list_fmap_ext. intros x d Hd. apply Heq, Hks. by eapply list_elem_of_lookup_2.
Qed.

End Cells.
