(* ===== verification/Split.v ===== *)
(** Fragmentation (src/esdm-scheduler.c): the split of a dataspace into fragments and its
    distribution over the backends. *)

From S2P Require Import Prelude Hypercube HypercubeSet Json Odometer Dataspace Partition.

Open Scope Z_scope.

(** C integer division; by zero it is undefined. *)
Definition cdiv (a b : Z) : outcome Z := if b =? 0 then Undef else mret (Z.quot a b).

(** * Balanced fragments *)

(** [offset + c*size/f] and [offset + (c + 1)*size/f]: slice [c] of [f]. *)
Definition sliceOf (o s f c : Z) : outcome esdmI_range_t :=
  a ← chk64 (c * s);
  lo ← chk64 (o + Z.quot a f);
  c' ← chk64 (c + 1);
  b ← chk64 (c' * s);
  hi ← chk64 (o + Z.quot b f);
  mret (Range lo hi).

(** The cube for one vector of split coordinates. *)
Fixpoint balancedCube (offset size splitFactors splitCoords : list Z) : outcome esdmI_hypercube_t :=
  match offset, size, splitFactors, splitCoords with
  | o :: offset', s :: size', f :: splitFactors', c :: splitCoords' =>
      range ← sliceOf o s f c;
      ranges ← balancedCube offset' size' splitFactors' splitCoords';
      mret (range :: ranges)
  | _, _, _, _ => mret []
  end.

(** The [while(true)] loop; the coordinates are kept innermost first. *)
Fixpoint balanced_loop (fuel : nat) (offset size splitFactors : list Z) (revCoords : list Z)
    (result : esdmI_hypercubeSet_t) : outcome esdmI_hypercubeSet_t :=
  match fuel with
  | O => Undef
  | S fuel' =>
      curCube ← balancedCube offset size splitFactors (rev revCoords);
      result' ← esdmI_hypercubeSet_add result curCube;
      let '(revCoords', done) := advanceCoords (rev splitFactors) revCoords in
      if (done : bool) then mret result' else balanced_loop fuel' offset size splitFactors revCoords' result'
  end.

Section Balanced.

(** [(int64_t)ceil(size/targetEdgeLength)] with the edge length
    [floor(pow(maxFragmentSize/(double)elementSize, 1.0/splitDims))], in double precision. *)
Context (splitFactor : Z -> Z -> Z -> Z -> Z).

Definition makeSplitRecommendation_balancedDims (space : esdm_dataspace_t) (maxFragmentSize : Z)
    : outcome esdmI_hypercubeSet_t :=
  let result := esdmI_hypercubeSet_make in
  sizes ← memdup (size space) (dims space);
  offsets ← memdup (offset space) (dims space);
  let splitDims := Z.of_nat (length (filter (fun s => 1 < s) sizes)) in
  if splitDims =? 0 then
    cube ← esdmI_dataspace_getExtends space;
    esdmI_hypercubeSet_add result cube
  else
    let factor := splitFactor maxFragmentSize (esdm_sizeof (esdm_dataspace_get_type space)) splitDims in
    splitFactors ← mapM (fun s =>
      eassert (factor s >=? 1);;
      eassert (factor s <=? s);;
      mret (factor s)) sizes;
    balanced_loop (Z.to_nat (prod splitFactors)) offsets sizes splitFactors (replicate (length sizes) 0) result.

End Balanced.

(** * Contiguous fragments *)

Record dimInfo_t := DimInfo { dimension : nat; absStride : Z }.

(** The order [compare_dimInfo()] sorts by. *)
Definition dimInfo_le (a b : dimInfo_t) : Prop := absStride a <= absStride b.

#[global] Instance dimInfo_le_dec (a b : dimInfo_t) : Decision (dimInfo_le a b).
Proof. unfold dimInfo_le. apply _. Defined.

(** The array [dimInfo] before it is sorted, from dimension [i] on. *)
Fixpoint makeDimInfo (i : nat) (stride : list Z) : outcome (list dimInfo_t) :=
  match stride with
  | [] => mret []
  | s :: stride' =>
      a ← abs_int64 s;
      rest ← makeDimInfo (S i) stride';
      mret (DimInfo i a :: rest)
  end.

(** [for(; splitDim < dimensions; splitDim++)]: the position of the first dimension whose slices
    reach the size limit, and the size of one of its slices. *)
Fixpoint findSplitDim (dimInfo : list dimInfo_t) (size : list Z) (maxFragmentSize : Z) (splitDim : nat)
    (fragmentSize : Z) : outcome (nat * Z) :=
  match dimInfo with
  | [] => mret (splitDim, fragmentSize)
  | d :: rest =>
      p ← chk64 (fragmentSize * nthZ size (dimension d));
      if p >=? maxFragmentSize then mret (splitDim, fragmentSize)
      else findSplitDim rest size maxFragmentSize (S splitDim) p
  end.

(** The single-element ranges of the dimensions outside the split one. *)
Fixpoint unitRanges (outer : list dimInfo_t) (offset : list Z) (coords : list Z) (extends : esdmI_hypercube_t)
    : outcome esdmI_hypercube_t :=
  match outer, coords with
  | d :: outer', c :: coords' =>
      lo ← chk64 (nthZ offset (dimension d) + c);
      hi ← chk64 (lo + 1);
      unitRanges outer' offset coords' (<[dimension d := Range lo hi]> extends)
  | _, _ => mret extends
  end.

(** The [while(fragmentCoords[splitDim] < splitSlices)] loop: [slice] is the coordinate of the
    split dimension, [revCoords] those of the outer dimensions, innermost first.  [extends] is
    updated in place, as in the code. *)
Fixpoint contiguous_loop (fuel : nat) (split : dimInfo_t) (outer : list dimInfo_t) (offset size : list Z)
    (splitSlices slice : Z) (revCoords : list Z) (extends : esdmI_hypercube_t) (result : esdmI_hypercubeSet_t)
    : outcome esdmI_hypercubeSet_t :=
  if slice <? splitSlices then
    match fuel with
    | O => Undef
    | S fuel' =>
        let o := nthZ offset (dimension split) in
        let s := nthZ size (dimension split) in
        range ← sliceOf o s splitSlices slice;
        extends2 ← unitRanges outer offset (rev revCoords) (<[dimension split := range]> extends);
        result' ← esdmI_hypercubeSet_add result extends2;
        let '(revCoords', carry) := advanceCoords (rev ((fun d => nthZ size (dimension d)) <$> outer)) revCoords in
        contiguous_loop fuel' split outer offset size splitSlices (if (carry : bool) then slice + 1 else slice)
          revCoords' extends2 result'
    end
  else mret result.

Section Contiguous.

(** [qsort()] of the C library with [compare_dimInfo()]; the order of equal strides is
    unspecified. *)
Context (qsort : list dimInfo_t -> list dimInfo_t).

Definition makeSplitRecommendation_contiguousFragments (space : esdm_dataspace_t) (maxFragmentSize : Z)
    : outcome esdmI_hypercubeSet_t :=
  let result := esdmI_hypercubeSet_make in
  extends ← esdmI_dataspace_getExtends space;
  total ← esdm_dataspace_total_bytes space;
  if (maxFragmentSize >? 0) && (u64 total <? maxFragmentSize) then esdmI_hypercubeSet_add result extends
  else
    let elementSize := esdm_sizeof (esdm_dataspace_get_type space) in
    stride ← esdm_dataspace_getEffectiveStride space;
    '(offset, size) ← esdmI_hypercube_getOffsetAndSize extends;
    infos ← makeDimInfo 0 stride;
    let dimInfo := qsort infos in
    '(splitDim, fragmentSize) ← findSplitDim dimInfo size maxFragmentSize 0 elementSize;
    eassert (Z.of_nat splitDim <? dims space);;
    split ← deref (dimInfo !! splitDim);
    maxSliceThickness ← cdiv maxFragmentSize fragmentSize;
    roundedUp ← chk64 (nthZ size (dimension split) + maxSliceThickness);
    splitSlices ← cdiv (roundedUp - 1) maxSliceThickness;
    let outer := drop (S splitDim) dimInfo in
    contiguous_loop (Z.to_nat (splitSlices * prod ((fun d => nthZ size (dimension d)) <$> outer))) split outer
      offset size splitSlices 0 (replicate (length outer) 0) extends result.

End Contiguous.

(** * Dispatch *)

Inductive fragmentation_method_t :=
| ESDMI_FRAGMENTATION_METHOD_CONTIGUOUS
| ESDMI_FRAGMENTATION_METHOD_EQUALIZED.

Definition esdm_scheduler_makeSplitRecommendation (splitFactor : Z -> Z -> Z -> Z -> Z)
    (qsort : list dimInfo_t -> list dimInfo_t) (space : esdm_dataspace_t)
    (fragmentation_method : fragmentation_method_t) (max_fragment_size : Z) : outcome esdmI_hypercubeSet_t :=
  match fragmentation_method with
  | ESDMI_FRAGMENTATION_METHOD_EQUALIZED => makeSplitRecommendation_balancedDims splitFactor space max_fragment_size
  | ESDMI_FRAGMENTATION_METHOD_CONTIGUOUS => makeSplitRecommendation_contiguousFragments qsort space max_fragment_size
  end.

(** * Distribution over the backends *)

Section Backends.

(** Single precision weights: their order, their sum, and
    [(int64_t)roundf(weight*size/totalWeight)]. *)
Context {F : Type} (fzero : F) (fle : F -> F -> bool) (fadd : F -> F -> F) (scaled : F -> Z -> F -> Z).

(** The dimension with the largest stride among those that can be split; the last one wins. *)
Fixpoint bestDim_loop (i : Z) (stride size : list Z) (bestDim bestStride : Z) : outcome Z :=
  match stride, size with
  | t :: stride', s :: size' =>
      absStride ← abs_int64 t;
      if (absStride >=? bestStride) && (s >? 1) then bestDim_loop (i + 1) stride' size' i absStride
      else bestDim_loop (i + 1) stride' size' bestDim bestStride
  | _, _ => mret bestDim
  end.

(** [for(i = 1; i < backendCount; i++) weights[i] += weights[i-1];] *)
Fixpoint cumulative (acc : F) (weights : list F) : list F :=
  match weights with
  | [] => []
  | w :: rest => let w' := fadd w acc in w' :: cumulative w' rest
  end.

(** The output array: the caller passes uninitialised entries.  The flag tells whether the local
    variable [out_backendExtends] still points to the array. *)
Definition slot : Type := option (option esdmI_hypercube_t).

(** [None] models the uninitialised pointer. *)
Fixpoint backendCubes (i : nat) (bounds : list Z) (totalExtends : esdmI_hypercube_t) (bestDim : nat)
    (pointsToArray : bool) (out : list slot) : outcome (list slot) :=
  match bounds with
  | lo :: ((hi :: _) as bounds') =>
      eassert (lo <=? hi);;
      if lo =? hi then backendCubes (S i) bounds' totalExtends bestDim false out
      else if pointsToArray then
        backendCubes (S i) bounds' totalExtends bestDim true
          (<[i := Some (Some (<[bestDim := Range lo hi]> totalExtends))]> out)
      else Undef
  | _ => mret out
  end.

Fixpoint bestBackend_loop (i : Z) (weights : list F) (bestBackend : Z) (bestWeight : F) : Z :=
  match weights with
  | [] => bestBackend
  | w :: rest =>
      if fle bestWeight w then bestBackend_loop (i + 1) rest i w
      else bestBackend_loop (i + 1) rest bestBackend bestWeight
  end.

(** The bounds of the pieces, for cumulated weights. *)
Definition backendBounds (cumulated : list F) (totalWeight : F) (range : esdmI_range_t) (s : Z) : outcome (list Z) :=
  inner ← mapM (fun w => chk64 (scaled w s totalWeight + rstart range)) (take (length cumulated - 1) cumulated);
  mret (rstart range :: inner ++ [rend range]).

(** [estimates] has the throughput estimate of each backend; [None] is a backend without the
    callback, whose entry of [weights] stays uninitialised. *)
Definition splitToBackends (space : esdm_dataspace_t) (estimates : list (option F)) : outcome (list slot) :=
  let backendCount := length estimates in
  eassert (0 <? Z.of_nat backendCount);;
  weights ← mapM deref estimates;
  stride ← esdm_dataspace_getEffectiveStride space;
  totalExtends ← esdmI_dataspace_getExtends space;
  bestDim ← bestDim_loop 0 stride (size space) (-1) 0;
  if bestDim >=? 0 then
    first ← deref (head weights);
    let cumulated := first :: cumulative first (tail weights) in
    totalWeight ← deref (last cumulated);
    range ← deref (totalExtends !! Z.to_nat bestDim);
    s ← esdmI_range_size range;
    bounds ← backendBounds cumulated totalWeight range s;
    backendCubes 0 bounds totalExtends (Z.to_nat bestDim) true
      (replicate backendCount None)
  else
    let bestBackend := bestBackend_loop 0 weights (-1) fzero in
    eassert (bestBackend >=? 0);;
    mret (<[Z.to_nat bestBackend := Some (Some totalExtends)]> (replicate backendCount (Some None))).

End Backends.

(** * The slices in unbounded arithmetic *)

Fixpoint balancedCells (os ss fs cs : list Z) : esdmI_hypercube_t :=
  match os, ss, fs, cs with
  | o :: os', s :: ss', f :: fs', c :: cs' =>
      Range (o + Z.quot (c * s) f) (o + Z.quot ((c + 1) * s) f) :: balancedCells os' ss' fs' cs'
  | _, _, _, _ => []
  end.

Fixpoint unitCells (outer : list dimInfo_t) (os cs : list Z) (e : esdmI_hypercube_t) : esdmI_hypercube_t :=
  match outer, cs with
  | d :: outer', c :: cs' =>
      unitCells outer' os cs' (<[dimension d := Range (nthZ os (dimension d) + c) (nthZ os (dimension d) + c + 1)]> e)
  | _, _ => e
  end.

(** A dimension whose [f] slices are computed without overflow. *)
Definition slice_fits (o s f : Z) : Prop := INT64_MIN <= o /\ o + s <= INT64_MAX /\ f * s <= INT64_MAX.

Lemma sliceOf_ok (o s f c : Z) :
  1 <= f <= s -> 0 <= c < f -> slice_fits o s f ->
  sliceOf o s f c = Done (Range (o + Z.quot (c * s) f) (o + Z.quot ((c + 1) * s) f)).
Proof.
  intros Hf Hc (Ho & Hos & Hfs). pose proof int64_min as [Hmin Hmax]. unfold sliceOf.
  assert (Hk : forall k, 0 <= k <= f -> 0 <= k * s <= INT64_MAX /\ 0 <= Z.quot (k * s) f <= s).
  { intros k Hk. assert (0 <= k * s <= f * s) by nia. split; [lia |].
    rewrite Z.quot_div_nonneg by lia. split; [apply Z.div_pos; lia |]. apply Z.div_le_upper_bound; lia. }
  destruct (Hk c ltac:(lia)). destruct (Hk (c + 1) ltac:(lia)).
  assert (f <= INT64_MAX) by nia.
  rewrite (chk64_ok (c * s)) by lia. run. rewrite (chk64_ok (o + _)) by lia. run. rewrite (chk64_ok (c + 1)) by lia. run.
  rewrite (chk64_ok ((c + 1) * s)) by lia. run. by rewrite (chk64_ok (o + _)) by lia.
Qed.

Lemma unitRanges_ok (outer : list dimInfo_t) (os ss cs : list Z) (e : esdmI_hypercube_t) :
  Forall2 (fun x c => INT64_MIN <= nthZ os (dimension x) /\ nthZ os (dimension x) + nthZ ss (dimension x) <= INT64_MAX /\
    0 <= c < nthZ ss (dimension x)) outer cs ->
  unitRanges outer os cs e = Done (unitCells outer os cs e).
Proof.
  intros H. revert e. induction H as [| x c outer cs (H1 & H2 & H3) _ IH]; intros e; [done |]. cbn [unitRanges unitCells].
  pose proof int64_min. rewrite (chk64_ok (_ + c)) by lia. run. rewrite chk64_ok by lia. run. apply IH.
Qed.

Lemma makeDimInfo_ok (i : nat) (st : list Z) :
  Forall (fun t => Z.abs t <= INT64_MAX) st ->
  makeDimInfo i st = Done (imap (fun k s => DimInfo (i + k) (Z.abs s)) st).
Proof.
  intros H. revert i. induction H as [| s st Hs _ IH]; intros i; [done |]. cbn [makeDimInfo].
  rewrite abs_int64_ok by done. run. rewrite IH. run. rewrite imap_cons, Nat.add_0_r. do 2 f_equal.
  apply imap_ext. intros k x _. unfold compose. f_equal. lia.
Qed.

(** * Cutting one dimension *)

(** The bounds of [f] slices of [s] elements that start at [o]. *)
Definition slices (o s f : Z) : list Z := (fun k => o + k * s / f) <$> seqZ 0 (f + 1).

Lemma nthZ_slices (o s f : Z) (k : nat) : (Z.of_nat k <= f) -> nthZ (slices o s f) k = o + Z.of_nat k * s / f.
Proof.
  intros Hk. unfold nthZ, slices. rewrite list_lookup_fmap.
  rewrite (proj2 (lookup_seqZ 0 (f + 1) k (Z.of_nat k))) by lia. done.
Qed.

Lemma length_slices (o s f : Z) : 0 <= f -> Z.of_nat (length (slices o s f)) = f + 1.
Proof. intros Hf. unfold slices. rewrite length_fmap, length_seqZ. lia. Qed.

Lemma cells_slices (o s f : Z) : 0 <= f -> cells (slices o s f) = f.
Proof. intros Hf. unfold cells. rewrite length_slices by done. lia. Qed.

Lemma slices_step (k s f : Z) : 1 <= f <= s -> k * s / f < (k + 1) * s / f.
Proof.
  intros Hf. replace ((k + 1) * s) with (k * s + s) by lia.
  assert (k * s / f + 1 <= (k * s + s) / f); [| lia].
  rewrite <- Z.div_add by lia. apply Z.div_le_mono; lia.
Qed.

Lemma sorted_lookup_step (l : list Z) :
  (forall i x y, l !! i = Some x -> l !! S i = Some y -> x < y) -> StronglySorted Z.lt l.
Proof.
  intros H. apply Sorted_StronglySorted; [exact Z.lt_trans |].
  induction l as [| x l IH]; [constructor |]. constructor.
  - apply IH. intros i a b Ha Hb. by apply (H (S i)).
  - destruct l as [| y l]; constructor. by apply (H 0%nat).
Qed.

Lemma slices_ok (o s f : Z) : 1 <= f <= s -> bounds_ok (slices o s f).
Proof.
  intros Hf. split; [| pose proof (length_slices o s f ltac:(lia)); lia].
  apply sorted_lookup_step. intros i x y Hx Hy. unfold slices in *. rewrite list_lookup_fmap in Hx, Hy.
  destruct (seqZ 0 (f + 1) !! i) as [a |] eqn:Ea; [injection Hx as <- | done].
  destruct (seqZ 0 (f + 1) !! S i) as [b |] eqn:Eb; [injection Hy as <- | done].
  apply lookup_seqZ in Ea as [-> _]. apply lookup_seqZ in Eb as [-> _].
  pose proof (slices_step (Z.of_nat i) s f Hf). rewrite Nat2Z.inj_succ, <- Z.add_1_r, !Z.add_0_l. lia.
Qed.

Lemma slices_ends (o s f : Z) :
  1 <= f <= s -> Range (nthZ (slices o s f) 0) (nthZ (slices o s f) (length (slices o s f) - 1)) = Range o (o + s).
Proof.
  intros Hf. pose proof (length_slices o s f ltac:(lia)) as Hl. rewrite !nthZ_slices by lia.
  replace (Z.of_nat (length (slices o s f) - 1)) with f by lia.
  rewrite (Z.mul_comm f s), Z.div_mul by lia. by rewrite Z.mul_0_l, Z.div_0_l, Z.add_0_r by lia.
Qed.

Lemma slices_cell (o s f c : Z) :
  1 <= f <= s -> 0 <= c < f ->
  cell_range (slices o s f) c = Range (o + Z.quot (c * s) f) (o + Z.quot ((c + 1) * s) f).
Proof.
  intros Hf Hc. unfold cell_range. rewrite !nthZ_slices by lia.
  rewrite !Z.quot_div_nonneg, Nat2Z.inj_succ, Z2Nat.id by nia. by rewrite Z.add_1_r.
Qed.

(** Slices of at most [t] elements. *)
Lemma slice_thickness (s t k : Z) :
  1 <= t -> 1 <= s -> 0 <= k -> let f := (s + t - 1) / t in (k + 1) * s / f - k * s / f <= t.
Proof.
  intros Ht Hs Hk f. assert (Hf : 1 <= f) by (apply Z.div_le_lower_bound; lia).
  assert (Hft : s <= f * t).
  { pose proof (Z.div_mod (s + t - 1) t ltac:(lia)). pose proof (Z.mod_pos_bound (s + t - 1) t ltac:(lia)). fold f in H. nia. }
  pose proof (Z.div_mod (k * s) f ltac:(lia)) as E1. pose proof (Z.mod_pos_bound (k * s) f ltac:(lia)) as B1.
  pose proof (Z.div_mod ((k + 1) * s) f ltac:(lia)) as E2. pose proof (Z.mod_pos_bound ((k + 1) * s) f ltac:(lia)) as B2.
  nia.
Qed.

Lemma extends_seq (space : esdm_dataspace_t) :
  space_wf space ->
  extends space = (fun d => Range (nthZ (offset space) d) (nthZ (offset space) d + nthZ (size space) d)) <$> seq 0 (length (size space)).
Proof.
  intros [Hd Hs Ho _]. apply list_eq. intros i. unfold extends. rewrite lookup_zip_with, list_lookup_fmap.
  destruct (size space !! i) as [x |] eqn:Ex.
  - rewrite lookup_seq_lt by (by apply lookup_lt_Some in Ex).
    destruct (lookup_lt_is_Some_2 (offset space) i) as [y Hy]; [apply lookup_lt_Some in Ex; lia |].
    simpl. unfold nthZ. by rewrite Hy, Ex.
  - rewrite lookup_seq_ge by (by apply lookup_ge_None in Ex). by destruct (offset space !! i).
Qed.

(** * Balanced fragments partition the dataspace *)

Section BalancedProof.

Context (os ss fs : list Z) (n : nat).
Context (Ho : length os = n) (Hs : length ss = n) (Hf : length fs = n).
Context (Hfs : Forall2 (fun f s => 1 <= f <= s) fs ss).
Context (Hfit : forall d, (d < n)%nat -> slice_fits (nthZ os d) (nthZ ss d) (nthZ fs d)).

Definition bbounds (d : nat) : list Z := slices (nthZ os d) (nthZ ss d) (nthZ fs d).

Lemma bfactor (d : nat) : (d < n)%nat -> 1 <= nthZ fs d <= nthZ ss d.
Proof.
  intros Hd. destruct (lookup_lt_is_Some_2 fs d) as [f Hfd]; [lia |]. destruct (lookup_lt_is_Some_2 ss d) as [s Hsd]; [lia |].
  unfold nthZ. rewrite Hfd, Hsd. by apply (Forall2_lookup_lr _ _ _ d _ _ Hfs).
Qed.

Lemma bbounds_ok (d : nat) : (d < n)%nat -> bounds_ok (bbounds d).
Proof. intros Hd. by apply slices_ok, bfactor. Qed.

Lemma balancedCells_cell (i : nat -> Z) :
  in_cells n bbounds i -> balancedCells os ss fs (i <$> seq 0 n) = cellcube n bbounds i.
Proof.
  intros Hi. unfold cellcube.
  assert (Hgen : forall k d, (d + k = n)%nat ->
    balancedCells (drop d os) (drop d ss) (drop d fs) (i <$> seq d k) = (fun d => cell_range (bbounds d) (i d)) <$> seq d k).
  { induction k as [| k IH]; intros d Hd.
    - rewrite !drop_ge by lia. done.
    - destruct (lookup_lt_is_Some_2 os d) as [o Hod]; [lia |]. destruct (lookup_lt_is_Some_2 ss d) as [s Hsd]; [lia |].
      destruct (lookup_lt_is_Some_2 fs d) as [f Hfd]; [lia |].
      rewrite (drop_S _ _ _ Hod), (drop_S _ _ _ Hsd), (drop_S _ _ _ Hfd). cbn [seq]. rewrite !fmap_cons. cbn [balancedCells].
      rewrite IH by lia. f_equal. unfold bbounds. specialize (Hi d ltac:(lia)). unfold bbounds in Hi.
      pose proof (bfactor d ltac:(lia)) as Hb. rewrite cells_slices in Hi by lia. rewrite slices_cell by (done || lia).
      unfold nthZ. by rewrite Hod, Hsd, Hfd. }
  by apply (Hgen n 0%nat).
Qed.

Lemma balancedCube_ok (i : nat -> Z) :
  in_cells n bbounds i -> balancedCube os ss fs (i <$> seq 0 n) = Done (balancedCells os ss fs (i <$> seq 0 n)).
Proof.
  intros Hi.
  assert (Hgen : forall k d, (d + k = n)%nat ->
    balancedCube (drop d os) (drop d ss) (drop d fs) (i <$> seq d k) =
      Done (balancedCells (drop d os) (drop d ss) (drop d fs) (i <$> seq d k))).
  { induction k as [| k IH]; intros d Hd.
    - rewrite !drop_ge by lia. done.
    - destruct (lookup_lt_is_Some_2 os d) as [o Hod]; [lia |]. destruct (lookup_lt_is_Some_2 ss d) as [s Hsd]; [lia |].
      destruct (lookup_lt_is_Some_2 fs d) as [f Hfd]; [lia |].
      rewrite (drop_S _ _ _ Hod), (drop_S _ _ _ Hsd), (drop_S _ _ _ Hfd). cbn [seq]. rewrite !fmap_cons. cbn [balancedCube balancedCells].
      specialize (Hi d ltac:(lia)). unfold bbounds in Hi. pose proof (bfactor d ltac:(lia)) as Hb. rewrite cells_slices in Hi by lia.
      pose proof (Hfit d ltac:(lia)) as Hd'. unfold nthZ in Hi, Hb, Hd'. rewrite ?Hod, ?Hsd, ?Hfd in *. simpl in Hi, Hb, Hd'.
      rewrite sliceOf_ok by done. run. rewrite IH by lia. done. }
  by apply (Hgen n 0%nat).
Qed.

Definition bkeys : list nat := rev (seq 0 n).

Lemma bkeys_limits : (fun d => cells (bbounds d)) <$> bkeys = rev fs.
Proof.
  unfold bkeys. rewrite fmap_rev. f_equal. apply list_eq. intros d. rewrite list_lookup_fmap.
  destruct (fs !! d) as [f |] eqn:Ef.
  - rewrite lookup_seq_lt by (apply lookup_lt_Some in Ef; lia). simpl. f_equal. unfold bbounds.
    pose proof (bfactor d ltac:(apply lookup_lt_Some in Ef; lia)). rewrite cells_slices by lia. unfold nthZ. by rewrite Ef.
  - rewrite lookup_seq_ge; [done |]. apply lookup_ge_None in Ef. lia.
Qed.

Lemma NoDup_bkeys : NoDup bkeys.
Proof. unfold bkeys. rewrite <- Permutation_rev. apply NoDup_seq. Qed.

Lemma elem_of_bkeys (d : nat) : d ∈ bkeys <-> (d < n)%nat.
Proof. unfold bkeys. rewrite <- Permutation_rev, elem_of_seq. lia. Qed.

Lemma balanced_digits (j : Z) :
  0 <= j < prod (rev fs) ->
  rev (digits (rev fs) j) = assign bkeys (digits (rev fs) j) <$> seq 0 n /\ in_cells n bbounds (assign bkeys (digits (rev fs) j)).
Proof.
  intros Hj.
  assert (Hpos : Forall (fun f => 0 < f) (rev fs)).
  { apply Forall_rev. apply Forall_forall. intros f Hin. apply list_elem_of_lookup in Hin as [d Hd].
    pose proof (bfactor d ltac:(apply lookup_lt_Some in Hd; lia)) as Hb. unfold nthZ in Hb. rewrite Hd in Hb. simpl in Hb. lia. }
  pose proof (digits_bounds (rev fs) j Hpos) as Hdb. pose proof (Forall2_length _ _ _ Hdb) as Hdl.
  assert (Hk : assign bkeys (digits (rev fs) j) <$> bkeys = digits (rev fs) j).
  { apply assign_fmap; [apply NoDup_bkeys |]. unfold bkeys. rewrite Hdl, !length_rev, length_seq. done. }
  split.
  - rewrite <- Hk at 1. unfold bkeys at 2. by rewrite fmap_rev, rev_involutive.
  - intros d Hd. apply elem_of_bkeys in Hd as Hin. apply list_elem_of_lookup in Hin as [x Hx].
    assert (Hdb' : Forall2 (fun c m => 0 <= c < m) (assign bkeys (digits (rev fs) j) <$> bkeys)
                     ((fun d => cells (bbounds d)) <$> bkeys)) by (by rewrite Hk, bkeys_limits).
    apply (Forall2_lookup_lr _ _ _ x _ _ Hdb'); by rewrite list_lookup_fmap, Hx.
Qed.

Lemma balanced_cube_digits (j : Z) :
  0 <= j < prod (rev fs) ->
  balancedCells os ss fs (rev (digits (rev fs) j)) = cellcube n bbounds (assign bkeys (digits (rev fs) j)).
Proof. intros Hj. destruct (balanced_digits j Hj) as [-> Hin]. by apply balancedCells_cell. Qed.

Lemma balanced_loop_ok (fuel : nat) (j : Z) (me : esdmI_hypercubeSet_t) :
  set_wf me -> 0 <= j < prod (rev fs) -> Z.of_nat fuel = prod (rev fs) - j -> Forall (fun f => 0 < f) (rev fs) ->
  exists me', balanced_loop fuel os ss fs (digits (rev fs) j) me = Done me' /\ set_wf me' /\
  cubes me' = cubes me ++ ((fun k => balancedCells os ss fs (rev (digits (rev fs) k))) <$> seqZ j (prod (rev fs) - j)).
Proof.
  intros Hwf Hj Hfu Hpos. revert j me Hwf Hj Hfu. induction fuel as [| fuel IH]; intros j me Hwf Hj Hfu; [lia |].
  cbn [balanced_loop]. destruct (balanced_digits j Hj) as [Er Hin]. rewrite Er, balancedCube_ok, <- Er by done. run.
  destruct (add_ok me (balancedCells os ss fs (rev (digits (rev fs) j))) Hwf) as (me1 & -> & Hwf1 & Hc1).
  run. rewrite advanceCoords_digits by done. rewrite seqZ_cons by lia. rewrite fmap_cons.
  destruct (Z.ltb_spec (j + 1) (prod (rev fs))) as [Hlt | Hge].
  - destruct (IH (j + 1) me1 Hwf1) as (me2 & -> & Hwf2 & Hc2); [lia | lia |]. exists me2. split; [done |]. split; [done |].
    rewrite Hc2, Hc1, <- app_assoc. simpl. do 2 f_equal. f_equal. f_equal; lia.
  - exists me1. split; [done |]. split; [done |]. rewrite Hc1. f_equal. f_equal.
    replace (Z.pred (prod (rev fs) - j)) with 0 by lia. done.
Qed.

(** The cubes of all coordinates partition the whole. *)
Lemma balanced_cubes_partition :
  partitions ((fun k => balancedCells os ss fs (rev (digits (rev fs) k))) <$> seqZ 0 (prod (rev fs))) ((fun d => Range (nthZ os d) (nthZ os d + nthZ ss d)) <$> seq 0 n).
Proof.
  pose proof (digits_partition n bbounds bbounds_ok bkeys NoDup_bkeys) as Hpart. cbv zeta in Hpart.
  rewrite bkeys_limits in Hpart.
  assert (Hcells : ((fun k => balancedCells os ss fs (rev (digits (rev fs) k))) <$> seqZ 0 (prod (rev fs))) =
                   ((fun j => cellcube n bbounds (assign bkeys (digits (rev fs) j))) <$> seqZ 0 (prod (rev fs)))).
  { apply list_fmap_ext. intros i j Hj. apply balanced_cube_digits. apply lookup_seqZ in Hj. lia. }
  rewrite Hcells. assert (Hwhole : (fun d => Range (nthZ os d) (nthZ os d + nthZ ss d)) <$> seq 0 n = wholecube n bbounds).
  { unfold wholecube. apply list_fmap_ext. intros i d Hd. apply lookup_seq in Hd as [-> Hd].
    symmetry. apply slices_ends, bfactor. lia. }
  rewrite Hwhole. apply Hpart.
  - intros d. by rewrite elem_of_bkeys.
  - intros d Hd Hout. by rewrite elem_of_bkeys in Hout.
Qed.

Lemma balanced_partition :
  exists me, balanced_loop (Z.to_nat (prod fs)) os ss fs (replicate n 0) esdmI_hypercubeSet_make = Done me /\ set_wf me /\
  partitions (cubes me) ((fun d => Range (nthZ os d) (nthZ os d + nthZ ss d)) <$> seq 0 n).
Proof.
  assert (Hpos : Forall (fun f => 0 < f) (rev fs)).
  { apply Forall_rev. eapply Forall2_Forall_l; [exact Hfs |]. apply Forall_true. simpl. lia. }
  assert (Hprod : prod fs = prod (rev fs)) by (by rewrite <- Permutation_rev).
  pose proof (prod_pos _ Hpos) as Hp.
  assert (Hz : replicate n 0 = digits (rev fs) 0) by (by rewrite zero_digits_replicate, length_rev, Hf).
  rewrite Hz, Hprod.
  destruct (balanced_loop_ok (Z.to_nat (prod (rev fs))) 0 esdmI_hypercubeSet_make)
    as (me & -> & Hwfm & Hc); [apply construct_wf | lia | lia | done |].
  exists me. split; [done |]. split; [done |]. rewrite Hc, Z.sub_0_r. cbn [cubes esdmI_hypercubeSet_make esdmI_hypercubeSet_construct app].
  apply balanced_cubes_partition.
Qed.

End BalancedProof.

Lemma factors_ok (factor : Z -> Z) (sizes : list Z) :
  Forall (fun s => 1 <= factor s <= s) sizes ->
  mapM (fun s => eassert (factor s >=? 1);; eassert (factor s <=? s);; mret (factor s)) sizes = Done (factor <$> sizes).
Proof.
  induction 1 as [| s sizes Hs _ IH]; [done |]. rewrite mapM_cons.
  rewrite (eassert_true (factor s >=? 1)) by (apply Z.geb_le; lia). run.
  rewrite (eassert_true (factor s <=? s)) by (apply Z.leb_le; lia). run. by rewrite IH.
Qed.

Lemma extends_nonempty (space : esdm_dataspace_t) :
  space_wf space -> Forall (fun s => 1 <= s) (size space) -> nonempty (extends space).
Proof.
  intros Hwf Hs. rewrite extends_seq by done. apply Forall_fmap, Forall_forall. intros d Hd%elem_of_seq.
  destruct (lookup_lt_is_Some_2 (size space) d) as [s Hsd]; [lia |].
  pose proof (Forall_lookup_1 _ _ _ _ Hs Hsd). unfold compose, nthZ. rewrite Hsd. simpl in *. lia.
Qed.

Lemma balanced_ok (splitFactor : Z -> Z -> Z -> Z -> Z) (space : esdm_dataspace_t) (maxFragmentSize : Z) :
  space_wf space -> space_int64 space -> Forall (fun s => 1 <= s) (size space) ->
  (forall splitDims s, s ∈ size space ->
     1 <= splitFactor maxFragmentSize (esdm_sizeof (type space)) splitDims s <= s /\
     splitFactor maxFragmentSize (esdm_sizeof (type space)) splitDims s * s <= INT64_MAX) ->
  exists result, makeSplitRecommendation_balancedDims splitFactor space maxFragmentSize = Done result /\
  set_wf result /\ partitions (cubes result) (extends space).
Proof.
  intros Hwf H64 Hs Hfac. pose proof Hwf as [Hd Hls Hlo _].
  unfold makeSplitRecommendation_balancedDims, esdm_dataspace_get_type.
  rewrite (memdup_ok (size space)), (memdup_ok (offset space)) by done. run. cbv zeta.
  destruct (Z.eqb_spec (Z.of_nat (length (filter (fun s => 1 < s) (size space)))) 0) as [E0 | E0].
  - rewrite (getExtends_ok _ Hwf H64). run.
    destruct (add_ok esdmI_hypercubeSet_make (extends space) construct_wf) as (me & -> & Hwfm & Hc).
    exists me. split; [done |]. split; [done |]. rewrite Hc. by apply partitions_single, extends_nonempty.
  - set (splitDims := Z.of_nat (length (filter _ _))) in *. specialize (Hfac splitDims).
    rewrite (factors_ok (splitFactor maxFragmentSize (esdm_sizeof (type space)) splitDims))
      by (apply Forall_forall; intros s Hin; by apply Hfac). run.
    destruct (balanced_partition (offset space) (size space)
      (splitFactor maxFragmentSize (esdm_sizeof (type space)) splitDims <$> size space) (length (size space)))
      as (me & E & Hwfm & Hp).
    { lia. } { done. } { apply length_fmap. }
    { apply Forall2_fmap_l, Forall_Forall2_diag. apply Forall_forall. intros s Hin. by apply Hfac. }
    { intros d Hdl. destruct (lookup_lt_is_Some_2 (size space) d Hdl) as [s Hsd].
      destruct (Forall2_lookup_r _ _ _ _ _ H64 Hsd) as (o & Hod & Hb).
      unfold nthZ. rewrite list_lookup_fmap, Hsd, Hod. simpl. apply list_elem_of_lookup_2 in Hsd.
      destruct (Hfac s Hsd). unfold slice_fits. lia. }
    exists me. split; [done |]. split; [done |]. by rewrite extends_seq.
Qed.

(** C35: [makeSplitRecommendation_balancedDims()] splits a dataspace with positive sizes into
    non-empty, pairwise disjoint cubes that together are exactly the dataspace, whatever split
    factors the floating point computation yields that pass its two assertions and whose
    product with the size of the dimension is an [int64_t]: the code computes such products
    in signed 64 bit arithmetic and would overflow otherwise; with this bound it does not. *)
Theorem balanced_fragments_partition (splitFactor : Z -> Z -> Z -> Z -> Z) (space : esdm_dataspace_t)
    (maxFragmentSize : Z) :
  space_wf space -> space_int64 space -> Forall (fun s => 1 <= s) (size space) ->
  (forall splitDims s, s ∈ size space ->
     1 <= splitFactor maxFragmentSize (esdm_sizeof (type space)) splitDims s <= s /\
     splitFactor maxFragmentSize (esdm_sizeof (type space)) splitDims s * s <= INT64_MAX) ->
  exists result, makeSplitRecommendation_balancedDims splitFactor space maxFragmentSize = Done result /\
  partitions (esdmI_hypercubeSet_list result) (extends space).
Proof.
  intros Hwf H64 Hs Hfac. destruct (balanced_ok splitFactor space maxFragmentSize Hwf H64 Hs Hfac) as (r & E & _ & Hp).
  by exists r.
Qed.

Lemma balanced_fragments_partition_witness :
  let space := Dataspace (Type_ 1 8) 2 [7; 5] [10; 20] false None in
  exists result, makeSplitRecommendation_balancedDims (fun _ _ _ s => (s + 2) / 3) space 100 = Done result /\
  partitions (esdmI_hypercubeSet_list result) (extends space).
Proof.
  apply (balanced_fragments_partition (fun _ _ _ s => (s + 2) / 3) (Dataspace (Type_ 1 8) 2 [7; 5] [10; 20] false None)).
  - by constructor.
  - by repeat constructor.
  - by repeat constructor.
  - intros _ s Hin. simpl in Hin. rewrite !elem_of_cons, elem_of_nil in Hin.
    destruct Hin as [-> | [-> | []]]; vm_compute; done.
Defined.

(** * Contiguous fragments *)

Lemma unitCells_lookup (outer : list dimInfo_t) (os coords : list Z) (e : esdmI_hypercube_t) (d : nat) :
  NoDup (dimension <$> outer) -> length coords = length outer -> Forall (fun x => (dimension x < length e)%nat) outer ->
  unitCells outer os coords e !! d =
    if decide (d ∈ dimension <$> outer)
    then let c := assign (dimension <$> outer) coords d in Some (Range (nthZ os d + c) (nthZ os d + c + 1))
    else e !! d.
Proof.
  revert coords e. induction outer as [| x outer IH]; intros [| c coords] e Hnd Hlen Hlt; simpl in Hlen; try lia.
  { rewrite decide_False; [done |]. apply not_elem_of_nil. }
  rewrite fmap_cons in *. apply NoDup_cons in Hnd as [Hx Hnd]. apply Forall_cons in Hlt as [Hxl Hlt].
  cbn [unitCells]. rewrite IH; [| done | lia | by rewrite length_insert]. cbn [assign].
  destruct (decide (d = dimension x)) as [-> | Hne].
  - rewrite decide_False, decide_True by (done || left). by rewrite list_lookup_insert_eq.
  - rewrite list_lookup_insert_ne by done.
    rewrite (decide_ext (d ∈ dimension x :: (dimension <$> outer)) (d ∈ dimension <$> outer)); [done |].
    rewrite elem_of_cons. tauto.
Qed.

Lemma length_unitCells (outer : list dimInfo_t) (os coords : list Z) (e : esdmI_hypercube_t) :
  length (unitCells outer os coords e) = length e.
Proof.
  revert coords e. induction outer as [| x outer IH]; intros [| c coords] e; simpl; try done.
  by rewrite IH, length_insert.
Qed.

(** A split dimension of [m] slices, and outer dimensions that are cut into single elements. *)
Record csplit_ok (os ss : list Z) (n : nat) (split : dimInfo_t) (outer : list dimInfo_t) (m : Z) : Prop := {
  cs_offset : length os = n;
  cs_size : length ss = n;
  cs_pos : forall d, (d < n)%nat -> 1 <= nthZ ss d;
  cs_nodup : NoDup ((dimension <$> outer) ++ [dimension split]);
  cs_lt : forall x, x ∈ (dimension <$> outer) ++ [dimension split] -> (x < n)%nat;
  cs_slices : 1 <= m <= nthZ ss (dimension split);
  cs_int64 : forall d, (d < n)%nat -> INT64_MIN <= nthZ os d /\ nthZ os d + nthZ ss d <= INT64_MAX;
  cs_fits : m * nthZ ss (dimension split) <= INT64_MAX
}.

Section ContiguousProof.

Context (os ss : list Z) (n : nat) (split : dimInfo_t) (outer : list dimInfo_t) (m : Z).
Context (Hcs : csplit_ok os ss n split outer m).

Definition cfactor (d : nat) : Z :=
  if decide (d = dimension split) then m else if decide (d ∈ dimension <$> outer) then nthZ ss d else 1.

Definition cbounds (d : nat) : list Z := slices (nthZ os d) (nthZ ss d) (cfactor d).

Definition ckeys : list nat := rev (dimension <$> outer) ++ [dimension split].

Definition climits : list Z := rev ((fun d => nthZ ss (dimension d)) <$> outer).

Lemma cfactor_ok (d : nat) : (d < n)%nat -> 1 <= cfactor d <= nthZ ss d.
Proof. pose proof Hcs as [Hos Hss Hpos Hnd Hlt Hm H64 Hsq]. intros Hd. specialize (Hpos d Hd). unfold cfactor. repeat case_decide; subst; lia. Qed.

Lemma cbounds_ok (d : nat) : (d < n)%nat -> bounds_ok (cbounds d).
Proof. pose proof Hcs as [Hos Hss Hpos Hnd Hlt Hm H64 Hsq]. intros Hd. by apply slices_ok, cfactor_ok. Qed.

Lemma split_not_outer : dimension split ∉ dimension <$> outer.
Proof. pose proof Hcs as [Hos Hss Hpos Hnd Hlt Hm H64 Hsq]. apply NoDup_app in Hnd as (_ & Hd & _). intros Hin. apply (Hd _ Hin). by apply list_elem_of_singleton. Qed.

Lemma NoDup_ckeys : NoDup ckeys.
Proof. pose proof Hcs as [Hos Hss Hpos Hnd Hlt Hm H64 Hsq]. unfold ckeys. by rewrite <- Permutation_rev. Qed.

Lemma elem_of_ckeys (d : nat) : d ∈ ckeys <-> d ∈ dimension <$> outer \/ d = dimension split.
Proof. pose proof Hcs as [Hos Hss Hpos Hnd Hlt Hm H64 Hsq]. unfold ckeys. by rewrite elem_of_app, <- Permutation_rev, list_elem_of_singleton. Qed.

Lemma ckeys_lt (d : nat) : d ∈ ckeys -> (d < n)%nat.
Proof. pose proof Hcs as [Hos Hss Hpos Hnd Hlt Hm H64 Hsq]. intros Hd. apply Hlt. rewrite elem_of_app, list_elem_of_singleton. by apply elem_of_ckeys. Qed.

Lemma ckeys_limits : (fun d => cells (cbounds d)) <$> ckeys = climits ++ [m].
Proof. pose proof Hcs as [Hos Hss Hpos Hnd Hlt Hm H64 Hsq].
  unfold ckeys, climits. rewrite fmap_app, fmap_rev. f_equal.
  - f_equal. rewrite <- list_fmap_compose. apply list_fmap_ext. intros i x Hx. unfold compose.
    assert (Hin : dimension x ∈ dimension <$> outer) by (apply list_elem_of_fmap_2; by eapply list_elem_of_lookup_2).
    pose proof (ckeys_lt (dimension x) ltac:(apply elem_of_ckeys; by left)) as Hx'. unfold cbounds.
    pose proof (cfactor_ok _ Hx'). rewrite cells_slices by lia. unfold cfactor.
    rewrite decide_False, decide_True; [done | done |]. intros E. apply split_not_outer. by rewrite <- E.
  - cbn [fmap list_fmap]. f_equal. unfold cbounds, cfactor. rewrite decide_True by done. apply cells_slices. lia.
Qed.

Lemma climits_pos : Forall (fun x => 0 < x) climits.
Proof. pose proof Hcs as [Hos Hss Hpos Hnd Hlt Hm H64 Hsq].
  unfold climits. apply Forall_rev, Forall_fmap, Forall_forall. intros x Hx. unfold compose.
  specialize (Hpos (dimension x)). assert (dimension x < n)%nat; [| lia].
  apply ckeys_lt, elem_of_ckeys. left. by apply list_elem_of_fmap_2.
Qed.

(** The cube of fragment number [j], for any current contents of the scratch cube outside the
    split dimensions. *)
Definition fragmentCube (j : Z) : esdmI_hypercube_t := cellcube n cbounds (assign ckeys (digits (climits ++ [m]) j)).

Definition scratch_ok (e : esdmI_hypercube_t) : Prop :=
  length e = n /\ forall d, (d < n)%nat -> d ∉ ckeys -> e !! d = Some (Range (nthZ os d) (nthZ os d + nthZ ss d)).

Lemma assign_outer (cs : list Z) (c : Z) (d : nat) :
  length cs = length outer -> d ∈ dimension <$> outer ->
  assign ckeys (cs ++ [c]) d = assign (dimension <$> outer) (rev cs) d.
Proof. pose proof Hcs as [Hos Hss Hpos Hnd Hlt Hm H64 Hsq].
  intros Hlen Hd. pose proof Hnd as (Hnd' & _ & _)%NoDup_app.
  assert (Hl : length (cs ++ [c]) = length ckeys).
  { unfold ckeys. rewrite !length_app, length_rev, length_fmap. simpl. lia. }
  pose proof (assign_fmap ckeys (cs ++ [c]) NoDup_ckeys Hl) as Hf. unfold ckeys in Hf at 2.
  rewrite fmap_app, fmap_rev in Hf. apply app_inj_1 in Hf as [Hf _]; [| by rewrite length_rev, !length_fmap].
  pose proof (assign_fmap (dimension <$> outer) (rev cs) Hnd') as Hg.
  rewrite length_rev, length_fmap in Hg. specialize (Hg Hlen).
  apply (f_equal (@rev Z)) in Hf. rewrite rev_involutive, <- Hg in Hf.
  apply list_elem_of_lookup in Hd as [x Hx]. apply (f_equal (fun l => l !! x)) in Hf.
  rewrite !list_lookup_fmap in Hf. rewrite list_lookup_fmap in Hx. destruct (outer !! x); [| done].
  simpl in Hf, Hx. by simplify_eq.
Qed.

Lemma length_digits_climits (j : Z) : length (digits climits j) = length outer.
Proof. pose proof Hcs as [Hos Hss Hpos Hnd Hlt Hm H64 Hsq].
  rewrite (Forall2_length _ _ _ (digits_bounds climits j climits_pos)). unfold climits. by rewrite length_rev, length_fmap.
Qed.

Lemma outer_digit_bounds (j : Z) (d : nat) :
  d ∈ dimension <$> outer -> 0 <= assign (dimension <$> outer) (rev (digits climits j)) d < nthZ ss d.
Proof. pose proof Hcs as [Hos Hss Hpos Hnd Hlt Hm H64 Hsq].
  intros Hin. pose proof Hnd as (Hnd' & _ & _)%NoDup_app.
  pose proof (assign_fmap (dimension <$> outer) (rev (digits climits j)) Hnd'
    ltac:(by rewrite length_rev, length_fmap, length_digits_climits)) as Hf.
  pose proof (Forall2_rev _ _ _ (digits_bounds climits j climits_pos)) as Hr. unfold climits in Hr at 2.
  rewrite rev_involutive, <- Hf in Hr. rewrite (list_fmap_compose dimension (nthZ ss)) in Hr.
  apply list_elem_of_lookup in Hin as [x Hx].
  apply (Forall2_lookup_lr _ _ _ x _ _ Hr); by rewrite list_lookup_fmap, Hx.
Qed.

Lemma whole_cell (d : nat) :
  (d < n)%nat -> d ∉ ckeys -> cell_range (cbounds d) 0 = Range (nthZ os d) (nthZ os d + nthZ ss d).
Proof. pose proof Hcs as [Hos Hss Hpos Hnd Hlt Hm H64 Hsq].
  intros Hd Hout. pose proof (cfactor_ok d Hd) as Hcf. unfold cbounds, cfactor in *. rewrite elem_of_ckeys in Hout.
  rewrite !decide_False in * by tauto. rewrite slices_cell by lia.
  by rewrite Z.mul_0_l, Z.quot_0_l, Z.add_0_r, Z.add_0_l, Z.mul_1_l, Z.quot_1_r by lia.
Qed.

(** The range of the split dimension in the slice of fragment [j]. *)
Definition sliceRange (j : Z) : esdmI_range_t :=
  Range (nthZ os (dimension split) + Z.quot (j / prod climits * nthZ ss (dimension split)) m)
    (nthZ os (dimension split) + Z.quot ((j / prod climits + 1) * nthZ ss (dimension split)) m).

Lemma fragment_digits (j : Z) :
  0 <= j < prod climits * m ->
  digits (climits ++ [m]) j = digits climits j ++ [j / prod climits] /\ 0 <= j / prod climits < m.
Proof. pose proof Hcs as [Hos Hss Hpos Hnd Hlt Hm H64 Hsq].
  intros Hj. pose proof (prod_pos _ climits_pos) as HP.
  assert (Hq : 0 <= j / prod climits < m) by (split; [apply Z.div_pos; lia | apply Z.div_lt_upper_bound; lia]).
  split; [| done]. rewrite digits_snoc by apply climits_pos. by rewrite Z.mod_small.
Qed.

Lemma split_lt : (dimension split < n)%nat.
Proof. pose proof Hcs as [Hos Hss Hpos Hnd Hlt Hm H64 Hsq]. apply ckeys_lt, elem_of_ckeys. by right. Qed.

Lemma scratch_lookup (e : esdmI_hypercube_t) (j : Z) (d : nat) :
  scratch_ok e -> 0 <= j < prod climits * m -> (d < n)%nat ->
  unitCells outer os (rev (digits climits j)) (<[dimension split := sliceRange j]> e) !! d =
    Some (cell_range (cbounds d) (assign ckeys (digits (climits ++ [m]) j) d)).
Proof. pose proof Hcs as [Hos Hss Hpos Hnd Hlt Hm H64 Hsq].
  intros [Hel He] Hj Hd. pose proof Hnd as (Hnd' & _ & _)%NoDup_app. destruct (fragment_digits j Hj) as [-> Hq].
  pose proof (length_digits_climits j) as Hco. pose proof split_lt as Hsl. rewrite unitCells_lookup.
  - pose proof (cfactor_ok d Hd) as Hcf. case_decide as Hin.
    + assert (Hne : d <> dimension split) by (intros ->; by apply split_not_outer).
      rewrite (assign_outer _ _ d Hco Hin). pose proof (outer_digit_bounds j d Hin).
      unfold cbounds, cfactor in *. rewrite decide_False, decide_True in * by done. rewrite slices_cell by lia.
      rewrite !Z.quot_mul by lia. cbv zeta. do 2 f_equal. lia.
    + destruct (decide (d = dimension split)) as [-> | Hne].
      * rewrite list_lookup_insert_eq by lia. rewrite (assign_lookup ckeys _ (length outer) (dimension split) (j / prod climits)).
        -- unfold cbounds, cfactor in *. rewrite decide_True in * by done. by rewrite slices_cell by lia.
        -- apply NoDup_ckeys.
        -- unfold ckeys. apply list_lookup_middle. by rewrite length_rev, length_fmap.
        -- by apply list_lookup_middle.
      * rewrite list_lookup_insert_ne by done.
        assert (Hout : d ∉ ckeys) by (rewrite elem_of_ckeys; tauto).
        by rewrite (assign_out _ _ _ Hout), (He d Hd Hout), whole_cell.
  - done.
  - by rewrite length_rev.
  - apply Forall_forall. intros x Hx. rewrite length_insert, Hel. apply ckeys_lt, elem_of_ckeys.
    left. by apply list_elem_of_fmap_2.
Qed.

(** The scratch cube after the updates of one iteration is the cube of the fragment. *)
Lemma scratch_update (e : esdmI_hypercube_t) (j : Z) :
  scratch_ok e -> 0 <= j < prod climits * m ->
  let e' := unitCells outer os (rev (digits climits j)) (<[dimension split := sliceRange j]> e) in
  e' = fragmentCube j /\ scratch_ok e'.
Proof. pose proof Hcs as [Hos Hss Hpos Hnd Hlt Hm H64 Hsq].
  intros He Hj e'. pose proof (fun d => scratch_lookup e j d He Hj) as Hlook. fold e' in Hlook.
  assert (Hlen : length e' = n) by (unfold e'; rewrite length_unitCells, length_insert; apply He).
  assert (E : e' = fragmentCube j).
  { apply list_eq. intros d. unfold fragmentCube, cellcube. rewrite list_lookup_fmap.
    destruct (decide (d < n)%nat) as [Hd | Hd].
    - rewrite lookup_seq_lt by done. simpl. by apply Hlook.
    - rewrite lookup_seq_ge by lia. simpl. apply lookup_ge_None. lia. }
  split; [done |]. split; [done |]. intros d Hd Hout. by rewrite Hlook, (assign_out _ _ _ Hout), whole_cell by done.
Qed.

(** The updates of one iteration do not overflow. *)
Lemma scratch_checked (e : esdmI_hypercube_t) (j : Z) :
  0 <= j < prod climits * m ->
  sliceOf (nthZ os (dimension split)) (nthZ ss (dimension split)) m (j / prod climits) = Done (sliceRange j) /\
  forall e', unitRanges outer os (rev (digits climits j)) e' = Done (unitCells outer os (rev (digits climits j)) e').
Proof. pose proof Hcs as [Hos Hss Hpos Hnd Hlt Hm H64 Hsq].
  intros Hj. destruct (fragment_digits j Hj) as [_ Hq]. split.
  - apply sliceOf_ok; [done | done |]. destruct (H64 _ split_lt). by repeat split.
  - intros e'. apply (unitRanges_ok _ _ ss).
    pose proof (Forall2_rev _ _ _ (digits_bounds climits j climits_pos)) as Hr. unfold climits in Hr at 2.
    rewrite rev_involutive in Hr. apply Forall2_flip in Hr. rewrite Forall2_fmap_l in Hr.
    apply Forall2_same_length_lookup_2; [by eapply Forall2_length |]. intros i x c Hx Hc.
    pose proof (Forall2_lookup_lr _ _ _ _ _ _ Hr Hx Hc) as Hb. cbn beta in Hb.
    destruct (H64 (dimension x)); [| done]. apply ckeys_lt, elem_of_ckeys. left.
    apply list_elem_of_fmap_2. by eapply list_elem_of_lookup_2.
Qed.

Lemma contiguous_loop_ok (fuel : nat) (j : Z) (e : esdmI_hypercube_t) (me : esdmI_hypercubeSet_t) :
  set_wf me -> scratch_ok e -> 0 <= j <= prod climits * m -> Z.of_nat fuel = prod climits * m - j ->
  exists me', contiguous_loop fuel split outer os ss m (j / prod climits) (digits climits j) e me = Done me' /\ set_wf me' /\
  cubes me' = cubes me ++ (fragmentCube <$> seqZ j (prod climits * m - j)).
Proof. pose proof Hcs as [Hos Hss Hpos Hnd Hlt Hm H64 Hsq].
  intros Hwf He Hj Hf. pose proof (prod_pos _ climits_pos) as HP.
  revert j e me Hwf He Hj Hf. induction fuel as [| fuel IH]; intros j e me Hwf He Hj Hf; cbn [contiguous_loop].
  - assert (j = prod climits * m) as -> by lia. rewrite Z.mul_comm, Z.div_mul by lia.
    rewrite (proj2 (Z.ltb_ge _ _)) by lia. exists me. by rewrite Z.sub_diag, app_nil_r.
  - destruct (fragment_digits j ltac:(lia)) as [_ Hq]. rewrite (proj2 (Z.ltb_lt _ _)) by lia. cbv zeta.
    destruct (scratch_checked e j ltac:(lia)) as [-> Hunit]. run. rewrite Hunit. run.
    fold climits. destruct (scratch_update e j He ltac:(lia)) as [E He']. cbv zeta in E, He'.
    set (e' := unitCells _ _ _ _) in *.
    destruct (add_ok me e' Hwf) as (me1 & -> & Hwf1 & Hc1). run.
    destruct (advanceCoords_mod climits j climits_pos ltac:(lia)) as (carry & -> & Hdiv). rewrite <- Hdiv.
    destruct (IH (j + 1) e' me1 Hwf1 He') as (me2 & -> & Hwf2 & Hc2); [lia | lia |].
    exists me2. split; [done |]. split; [done |]. rewrite Hc2, Hc1, <- app_assoc, (seqZ_cons j), fmap_cons, E by lia.
    simpl. do 2 f_equal. f_equal. f_equal; lia.
Qed.

Lemma contiguous_partition (e : esdmI_hypercube_t) :
  scratch_ok e ->
  exists me, contiguous_loop (Z.to_nat (m * prod ((fun d => nthZ ss (dimension d)) <$> outer))) split outer os ss m 0
    (replicate (length outer) 0) e esdmI_hypercubeSet_make = Done me /\ set_wf me /\
  cubes me = fragmentCube <$> seqZ 0 (prod climits * m) /\
  partitions (cubes me) ((fun d => Range (nthZ os d) (nthZ os d + nthZ ss d)) <$> seq 0 n).
Proof. pose proof Hcs as [Hos Hss Hpos Hnd Hlt Hm H64 Hsq].
  intros He. pose proof (prod_pos _ climits_pos) as HP.
  assert (Hprod : prod ((fun d => nthZ ss (dimension d)) <$> outer) = prod climits).
  { unfold climits. by rewrite <- Permutation_rev. }
  assert (Hz : replicate (length outer) 0 = digits climits 0).
  { rewrite zero_digits_replicate. unfold climits. by rewrite length_rev, length_fmap. }
  rewrite Hprod, Hz, (Z.mul_comm m).
  destruct (contiguous_loop_ok (Z.to_nat (prod climits * m)) 0 e esdmI_hypercubeSet_make construct_wf He)
    as (me & E & Hwf & Hc); [lia | lia |].
  rewrite Z.div_0_l in E by lia. exists me. split; [done |]. split; [done |].
  rewrite Z.sub_0_r in Hc. cbn [cubes esdmI_hypercubeSet_make esdmI_hypercubeSet_construct app] in Hc. split; [done |].
  rewrite Hc. pose proof (digits_partition n cbounds cbounds_ok ckeys NoDup_ckeys ckeys_lt) as Hpart. cbv zeta in Hpart.
  rewrite ckeys_limits in Hpart.
  assert (Hp : prod (climits ++ [m]) = prod climits * m).
  { rewrite (Permutation_app_comm climits [m]). cbn [app prod foldr]. fold (prod climits). lia. }
  rewrite Hp in Hpart.
  assert (Hwhole : (fun d => Range (nthZ os d) (nthZ os d + nthZ ss d)) <$> seq 0 n = wholecube n cbounds).
  { unfold wholecube. apply list_fmap_ext. intros i d Hd. apply lookup_seq in Hd as [-> Hd].
    symmetry. apply slices_ends, cfactor_ok. lia. }
  rewrite Hwhole. apply Hpart. intros d Hd Hout. unfold cbounds. pose proof (cfactor_ok d Hd).
  rewrite cells_slices by lia. unfold cfactor. rewrite elem_of_ckeys in Hout. by rewrite !decide_False by tauto.
Qed.

End ContiguousProof.

Lemma volume_seq (f : nat -> esdmI_range_t) (n : nat) : volume (f <$> seq 0 n) = prod ((fun d => rsize (f d)) <$> seq 0 n).
Proof. generalize (seq 0 n). intros l. induction l as [| d l IH]; [done |]. csimpl. by rewrite IH. Qed.

Lemma prod_app (k l : list Z) : prod (k ++ l) = prod k * prod l.
Proof. induction k as [| x k IH]; cbn [app prod foldr] in *; fold (prod l) in *; [lia |]. unfold prod in IH |- *. rewrite IH. lia. Qed.

Lemma prod_ones (l : list Z) : Forall (fun x => x = 1) l -> prod l = 1.
Proof. induction 1 as [| x l -> _ IH]; [done |]. cbn [prod foldr]. fold (prod l). lia. Qed.

(** The loop stops at the first dimension that reaches the limit. *)
Lemma findSplitDim_ok (infos : list dimInfo_t) (ss : list Z) (limit : Z) (pos : nat) (acc : Z) :
  (forall x, x ∈ infos -> 1 <= nthZ ss (dimension x)) -> 1 <= acc <= limit ->
  limit <= acc * prod ((fun x => nthZ ss (dimension x)) <$> infos) <= INT64_MAX -> infos <> [] ->
  exists inner x outer, infos = inner ++ x :: outer /\
  findSplitDim infos ss limit pos acc = Done ((pos + length inner)%nat, acc * prod ((fun x => nthZ ss (dimension x)) <$> inner)) /\
  1 <= acc * prod ((fun x => nthZ ss (dimension x)) <$> inner) <= limit /\
  limit <= acc * prod ((fun x => nthZ ss (dimension x)) <$> inner) * nthZ ss (dimension x).
Proof.
  revert pos acc. induction infos as [| x infos IH]; intros pos acc Hpos Hacc Hlim Hne; [done |].
  rewrite fmap_cons in Hlim. cbn [prod foldr] in Hlim. fold (prod ((fun x => nthZ ss (dimension x)) <$> infos)) in Hlim.
  pose proof (Hpos x ltac:(left)) as Hx.
  assert (Hrest : 0 < prod ((fun x => nthZ ss (dimension x)) <$> infos)).
  { apply prod_pos, Forall_fmap, Forall_forall. intros y Hy. unfold compose. specialize (Hpos y ltac:(by right)). lia. }
  cbn [findSplitDim]. rewrite chk64_ok by (unfold INT64_MIN; nia). run. rewrite Z.geb_leb.
  destruct (Z.leb_spec limit (acc * nthZ ss (dimension x))) as [Hge | Hlt].
  - exists [], x, infos. split; [done |]. simpl. rewrite Nat.add_0_r, Z.mul_1_r. done.
  - destruct (IH (S pos) (acc * nthZ ss (dimension x))) as (inner & y & outer & -> & E & Hb).
    { intros y Hy. apply Hpos. by right. } { nia. } { nia. }
    { intros ->. simpl in Hlim. lia. }
    exists (x :: inner), y, outer. split; [done |]. rewrite E. rewrite fmap_cons. cbn [prod foldr].
    fold (prod ((fun x => nthZ ss (dimension x)) <$> inner)). rewrite Z.mul_assoc.
    split; [f_equal; f_equal; simpl; lia | done].
Qed.

(** * The whole function *)

Section Fragments.

Context (os ss : list Z) (n : nat) (inner : list dimInfo_t) (split : dimInfo_t) (outer : list dimInfo_t) (t : Z).
Context (Hos : length os = n) (Hss : length ss = n) (Hpos : forall d, (d < n)%nat -> 1 <= nthZ ss d).
Context (Hperm : dimension <$> (inner ++ split :: outer) ≡ₚ seq 0 n) (Ht : 1 <= t).
Context (H64 : forall d, (d < n)%nat -> INT64_MIN <= nthZ os d /\ nthZ os d + nthZ ss d <= INT64_MAX).
Context (Hsq : forall d, (d < n)%nat -> nthZ ss d * nthZ ss d <= INT64_MAX).

Let m : Z := (nthZ ss (dimension split) + t - 1) / t.

Lemma order_parts : (dimension <$> inner) ++ ((dimension <$> outer) ++ [dimension split]) ≡ₚ seq 0 n.
Proof.
  rewrite <- Hperm, fmap_app, fmap_cons. apply Permutation_app_head. apply Permutation_app_comm.
Qed.

Lemma parts_NoDup : NoDup ((dimension <$> outer) ++ [dimension split]).
Proof.
  pose proof (NoDup_seq 0 n) as Hnd. rewrite <- order_parts in Hnd. by apply NoDup_app in Hnd as (_ & _ & ?).
Qed.

Lemma parts_lt (x : nat) : x ∈ (dimension <$> outer) ++ [dimension split] -> (x < n)%nat.
Proof.
  intros Hx. assert (Hin : x ∈ seq 0 n) by (rewrite <- order_parts, elem_of_app; by right).
  apply elem_of_seq in Hin. lia.
Qed.

Lemma inner_lt (x : nat) : x ∈ dimension <$> inner -> (x < n)%nat.
Proof.
  intros Hx. assert (Hin : x ∈ seq 0 n) by (rewrite <- order_parts, elem_of_app; by left).
  apply elem_of_seq in Hin. lia.
Qed.

Lemma inner_not_keys (x : nat) : x ∈ dimension <$> inner -> x ∉ ckeys split outer.
Proof.
  intros Hx Hin. pose proof (NoDup_seq 0 n) as Hnd. rewrite <- order_parts in Hnd.
  apply NoDup_app in Hnd as (_ & Hdis & _). apply (Hdis x Hx). rewrite elem_of_app, list_elem_of_singleton.
  unfold ckeys in Hin. by rewrite elem_of_app, <- Permutation_rev, list_elem_of_singleton in Hin.
Qed.

Lemma slice_count : 1 <= m <= nthZ ss (dimension split).
Proof.
  assert (Hs : (dimension split < n)%nat) by (apply parts_lt; rewrite elem_of_app, list_elem_of_singleton; by right).
  specialize (Hpos _ Hs). unfold m. split; [apply Z.div_le_lower_bound; lia |].
  assert ((nthZ ss (dimension split) + t - 1) / t < nthZ ss (dimension split) + 1); [| lia].
  apply Z.div_lt_upper_bound; nia.
Qed.

Lemma parts_ok : csplit_ok os ss n split outer m.
Proof.
  pose proof slice_count as Hm. constructor; try done; [apply parts_NoDup | apply parts_lt |].
  assert (Hs : (dimension split < n)%nat) by (apply parts_lt; rewrite elem_of_app, list_elem_of_singleton; by right).
  specialize (Hsq _ Hs). nia.
Qed.

(** A fragment has at most [t] slices of the inner dimensions. *)
Lemma fragment_volume (j : Z) :
  0 <= j < prod (climits ss outer) * m ->
  volume (fragmentCube os ss n split outer m j) <= prod ((fun x => nthZ ss (dimension x)) <$> inner) * t.
Proof.
  intros Hj. pose proof slice_count as Hm. pose proof parts_ok as Hcs.
  unfold fragmentCube, cellcube. rewrite volume_seq, <- order_parts, !fmap_app, !prod_app.
  destruct (fragment_digits os ss n split outer m Hcs j Hj) as [Hdig Hq]. rewrite Hdig.
  set (cell := fun d => rsize _).
  assert (Hin : cell <$> (dimension <$> inner) = (fun x => nthZ ss (dimension x)) <$> inner).
  { rewrite <- list_fmap_compose. apply list_fmap_ext. intros i x Hx. unfold compose, cell.
    assert (Hx' : dimension x ∈ dimension <$> inner) by (apply list_elem_of_fmap_2; by eapply list_elem_of_lookup_2).
    rewrite assign_out by (by apply inner_not_keys).
    rewrite (whole_cell os ss n split outer m Hcs) by (by apply inner_lt || by apply inner_not_keys).
    pose proof (Hpos _ (inner_lt _ Hx')). unfold rsize. simpl. lia. }
  assert (Hout : prod (cell <$> (dimension <$> outer)) = 1).
  { apply prod_ones. rewrite Forall_fmap. apply Forall_forall. intros d Hd. unfold compose, cell.
    rewrite (assign_outer os ss n split outer m Hcs) by (done || by eapply length_digits_climits).
    pose proof (outer_digit_bounds os ss n split outer m Hcs j d Hd) as Hb.
    assert (Hne : d <> dimension split) by (intros ->; by eapply split_not_outer).
    unfold cbounds, cfactor. rewrite decide_False, decide_True by done. rewrite slices_cell by lia.
    rewrite !Z.quot_mul by lia. unfold rsize. simpl. lia. }
  assert (Hsp : cell (dimension split) <= t).
  { unfold cell. rewrite (assign_lookup _ _ (length outer) (dimension split) (j / prod (climits ss outer))).
    - unfold cbounds, cfactor. rewrite decide_True by done. rewrite slices_cell by lia.
      rewrite !Z.quot_div_nonneg by nia. unfold rsize. simpl.
      pose proof (slice_thickness (nthZ ss (dimension split)) t (j / prod (climits ss outer)) Ht ltac:(lia) ltac:(lia)) as Hth.
      cbv zeta in Hth. fold m in Hth. lia.
    - by eapply NoDup_ckeys.
    - unfold ckeys. apply list_lookup_middle. by rewrite length_rev, length_fmap.
    - apply list_lookup_middle. by erewrite length_digits_climits. }
  rewrite Hin, Hout. cbn [fmap list_fmap prod foldr].
  assert (0 < prod ((fun x => nthZ ss (dimension x)) <$> inner)).
  { apply prod_pos, Forall_fmap, Forall_forall. intros x Hx. unfold compose.
    pose proof (Hpos _ (inner_lt (dimension x) ltac:(by apply list_elem_of_fmap_2))). lia. }
  rewrite Z.mul_1_l, Z.mul_1_r. by apply Z.mul_le_mono_nonneg_l; lia.
Qed.

End Fragments.

Lemma dimInfo_perm (qsort : list dimInfo_t -> list dimInfo_t) (st : list Z) :
  (forall l, qsort l ≡ₚ l) ->
  dimension <$> qsort (imap (fun i s => DimInfo i (Z.abs s)) st) ≡ₚ seq 0 (length st).
Proof.
  intros Hq. rewrite Hq, fmap_imap. unfold compose. simpl.
  assert (Hgen : forall k, imap (fun i (_ : Z) => (k + i)%nat) st = seq k (length st)).
  { induction st as [| x st IH]; intros k; [done |]. rewrite imap_cons. cbn [length seq].
    rewrite Nat.add_0_r. f_equal. rewrite <- (IH (S k)). apply imap_ext. intros i y _. unfold compose. lia. }
  by rewrite <- (Hgen 0%nat).
Qed.

(** The slow path, from the sorted dimensions on. *)
Lemma contiguous_slow (infos : list dimInfo_t) (os ss : list Z) (n : nat) (e : esdmI_hypercube_t) (limit elementSize : Z) :
  length os = n -> length ss = n -> (forall d, (d < n)%nat -> 1 <= nthZ ss d) -> (0 < n)%nat ->
  (forall d, (d < n)%nat -> INT64_MIN <= nthZ os d /\ nthZ os d + nthZ ss d <= INT64_MAX) ->
  (forall d, (d < n)%nat -> nthZ ss d * nthZ ss d <= INT64_MAX) ->
  dimension <$> infos ≡ₚ seq 0 n -> 1 <= elementSize <= limit -> limit <= elementSize * prod ss <= INT64_MAX ->
  e = (fun d => Range (nthZ os d) (nthZ os d + nthZ ss d)) <$> seq 0 n ->
  exists result,
    ('(splitDim, fragmentSize) ← findSplitDim infos ss limit 0 elementSize;
     eassert (Z.of_nat splitDim <? Z.of_nat n);;
     split ← deref (infos !! splitDim);
     maxSliceThickness ← cdiv limit fragmentSize;
     roundedUp ← chk64 (nthZ ss (dimension split) + maxSliceThickness);
     splitSlices ← cdiv (roundedUp - 1) maxSliceThickness;
     contiguous_loop (Z.to_nat (splitSlices * prod ((fun d => nthZ ss (dimension d)) <$> drop (S splitDim) infos))) split
       (drop (S splitDim) infos) os ss splitSlices 0 (replicate (length (drop (S splitDim) infos)) 0) e
       esdmI_hypercubeSet_make) = Done result /\
  partitions (cubes result) e /\ Forall (fun c => volume c * elementSize <= limit) (cubes result).
Proof.
  intros Hos Hss Hpos Hn H64 Hsq Hperm Hsz Hlim He.
  assert (Hinfo : forall x, x ∈ infos -> (dimension x < n)%nat).
  { intros x Hx. apply (list_elem_of_fmap_2 dimension) in Hx. rewrite Hperm in Hx. apply elem_of_seq in Hx. lia. }
  assert (Hall : prod ((fun x => nthZ ss (dimension x)) <$> infos) = prod ss).
  { rewrite (list_fmap_compose dimension (nthZ ss)), Hperm, <- Hss. by rewrite nthZ_seq. }
  destruct (findSplitDim_ok infos ss limit 0 elementSize) as (inner & x & outer & Einf & -> & Hb & Hreach).
  { intros x Hx. by apply Hpos, Hinfo. } { lia. } { by rewrite Hall. }
  { intros ->. apply Permutation_length in Hperm. rewrite length_seq in Hperm. simpl in Hperm. lia. }
  run. rewrite Nat.add_0_l. set (fragmentSize := elementSize * prod (_ <$> inner)) in *.
  assert (Hlen : (length inner < n)%nat).
  { apply Permutation_length in Hperm. rewrite length_fmap, length_seq, Einf, length_app in Hperm. simpl in Hperm. lia. }
  rewrite eassert_true by (apply Z.ltb_lt; lia). run. rewrite Einf, list_lookup_middle by done. run.
  replace (drop (S (length inner)) (inner ++ x :: outer)) with outer.
  2: { rewrite (cons_middle x inner outer), app_assoc. symmetry. apply drop_app_length'. rewrite length_app. simpl. lia. }
  unfold cdiv. rewrite (proj2 (Z.eqb_neq fragmentSize 0)) by lia. run. rewrite (Z.quot_div_nonneg limit) by lia.
  assert (Ht : 1 <= limit / fragmentSize) by (apply Z.div_le_lower_bound; lia).
  assert (Hx : (dimension x < n)%nat) by (apply Hinfo; rewrite Einf, elem_of_app, elem_of_cons; auto).
  assert (Hthick : limit / fragmentSize <= nthZ ss (dimension x)) by (apply Z.div_le_upper_bound; lia).
  rewrite chk64_ok by (pose proof int64_min; pose proof (Hpos _ Hx); pose proof (Hsq _ Hx); unfold INT64_MAX in *; nia). run.
  rewrite (proj2 (Z.eqb_neq (limit / fragmentSize) 0)) by lia. run.
  rewrite Z.quot_div_nonneg by (specialize (Hpos _ Hx); lia). rewrite Einf in Hperm.
  pose proof (parts_ok os ss n inner x outer (limit / fragmentSize) Hos Hss Hpos Hperm Ht H64 Hsq) as Hcs.
  destruct (contiguous_partition os ss n x outer _ Hcs e) as (me & -> & _ & Hc & Hp).
  { rewrite He. split; [by rewrite length_fmap, length_seq |]. intros d Hd _. by rewrite list_lookup_fmap, lookup_seq_lt. }
  exists me. split; [done |]. rewrite He. split; [done |].
  rewrite Hc. apply Forall_fmap, Forall_forall. intros j Hj%elem_of_seqZ. unfold compose.
  pose proof (fragment_volume os ss n inner x outer _ Hos Hss Hpos Hperm Ht H64 Hsq j ltac:(lia)) as Hv.
  pose proof (Z.mul_div_le limit fragmentSize ltac:(lia)). unfold fragmentSize in *. nia.
Qed.

Lemma contiguousFragments_ok (qsort : list dimInfo_t -> list dimInfo_t) (space : esdm_dataspace_t) (limit : Z) :
  (forall l, qsort l ≡ₚ l) -> space_wf space -> space_int64 space -> 1 <= dims space -> Forall (fun s => 1 <= s) (size space) ->
  1 <= esdm_sizeof (type space) <= limit ->
  prod (size space) * esdm_sizeof (type space) <= INT64_MAX ->
  Forall (fun t => Z.abs t <= INT64_MAX) (eff space) -> Forall (fun s => s * s <= INT64_MAX) (size space) ->
  exists result, makeSplitRecommendation_contiguousFragments qsort space limit = Done result /\
  partitions (esdmI_hypercubeSet_list result) (extends space) /\
  Forall (fun c => volume c * esdm_sizeof (type space) <= limit) (esdmI_hypercubeSet_list result).
Proof.
  intros Hq Hwf H64 Hd Hs Hsz Hmax Hst Hsq. pose proof Hwf as [_ Hls Hlo _].
  assert (Hs0 : Forall (fun s => 0 < s) (size space)) by (eapply Forall_impl; [exact Hs | simpl; lia]).
  pose proof (prod_pos _ Hs0) as Hprod. unfold esdmI_hypercubeSet_list.
  unfold makeSplitRecommendation_contiguousFragments, esdm_dataspace_get_type. rewrite (getExtends_ok _ Hwf H64). run.
  rewrite (total_bytes_ok space Hwf Hs0) by lia. run. rewrite (volume_extends space Hwf Hs0).
  assert (u64 (prod (size space) * esdm_sizeof (type space)) = prod (size space) * esdm_sizeof (type space)) as ->.
  { apply Z.mod_small. unfold INT64_MAX in Hmax. nia. }
  rewrite (proj2 (Z.gtb_lt limit 0)) by lia. cbn [andb].
  destruct (Z.ltb_spec (prod (size space) * esdm_sizeof (type space)) limit) as [Hfast | Hslow].
  { destruct (add_ok esdmI_hypercubeSet_make (extends space) construct_wf) as (me & -> & _ & Hc).
    exists me. rewrite Hc. split; [done |]. split; [by apply partitions_single, extends_nonempty |].
    repeat constructor. rewrite volume_extends by done. lia. }
  rewrite (getEffectiveStride_ok space Hwf) by (apply positive_count; [done | nia]). run.
  rewrite (getOffsetAndSize_extends space Hwf H64). run. rewrite makeDimInfo_ok by done. run. cbv zeta.
  pose proof (length_eff space Hwf) as Hle. rewrite <- Hls.
  apply contiguous_slow; try done; try lia.
  - intros d Hdl. destruct (lookup_lt_is_Some_2 (size space) d Hdl) as [x Hx]. unfold nthZ. rewrite Hx.
    by apply (Forall_lookup_1 _ _ _ _ Hs Hx).
  - intros d Hdl. destruct (lookup_lt_is_Some_2 (size space) d Hdl) as [x Hx].
    destruct (Forall2_lookup_r _ _ _ _ _ H64 Hx) as (o & Ho & Hb). unfold nthZ. rewrite Hx, Ho. simpl. lia.
  - intros d Hdl. destruct (lookup_lt_is_Some_2 (size space) d Hdl) as [x Hx]. unfold nthZ. rewrite Hx.
    by apply (Forall_lookup_1 _ _ _ _ Hsq Hx).
  - rewrite dimInfo_perm by done. by replace (length (eff space)) with (length (size space)) by lia.
  - by apply extends_seq.
Qed.

(** [makeSplitRecommendation_contiguousFragments()] with a limit of at least one element
    splits a dataspace into non-empty, pairwise disjoint cubes that together are exactly the
    dataspace, none of them larger than the limit, whatever order [qsort()] gives to
    dimensions of equal stride.  The data is at most [INT64_MAX] bytes, no stride is
    [INT64_MIN] and the square of each size is an [int64_t]: nothing overflows then. *)
Theorem contiguous_fragments_correct (qsort : list dimInfo_t -> list dimInfo_t) (space : esdm_dataspace_t) (limit : Z) :
  (forall l, qsort l ≡ₚ l) -> space_wf space -> space_int64 space -> 1 <= dims space -> Forall (fun s => 1 <= s) (size space) ->
  1 <= esdm_sizeof (type space) <= limit ->
  prod (size space) * esdm_sizeof (type space) <= INT64_MAX ->
  Forall (fun t => Z.abs t <= INT64_MAX) (eff space) -> Forall (fun s => s * s <= INT64_MAX) (size space) ->
  exists result, makeSplitRecommendation_contiguousFragments qsort space limit = Done result /\
  partitions (esdmI_hypercubeSet_list result) (extends space) /\
  Forall (fun c => volume c * esdm_sizeof (type space) <= limit) (esdmI_hypercubeSet_list result).
Proof. apply contiguousFragments_ok. Qed.

Lemma contiguous_fragments_correct_witness :
  let space := Dataspace (Type_ 1 8) 2 [7; 5] [10; 20] false None in
  exists result, makeSplitRecommendation_contiguousFragments (merge_sort dimInfo_le) space 100 = Done result /\
  partitions (esdmI_hypercubeSet_list result) (extends space) /\
  Forall (fun c => volume c * 8 <= 100) (esdmI_hypercubeSet_list result).
Proof.
  apply (contiguous_fragments_correct (merge_sort dimInfo_le) (Dataspace (Type_ 1 8) 2 [7; 5] [10; 20] false None)).
  - apply merge_sort_Permutation.
  - by constructor.
  - by repeat constructor.
  - done.
  - by repeat constructor.
  - done.
  - vm_compute. done.
  - by repeat constructor.
  - by repeat constructor.
Defined.

(** With a size limit below the element size the slice thickness becomes zero and
    [makeSplitRecommendation_contiguousFragments()] divides by it: undefined behaviour. *)
Lemma contiguous_fragments_small_limit :
  makeSplitRecommendation_contiguousFragments (fun l => l) (Dataspace (Type_ 1 8) 1 [4] [0] false None) 4 = Undef.
Proof. reflexivity. Qed.

(** * Distribution over the backends *)

Section BackendProof.

Context {F : Type} (fzero : F) (fle : F -> F -> bool) (fadd : F -> F -> F) (scaled : F -> Z -> F -> Z).

(** [bestDim_loop] in unbounded arithmetic. *)
Fixpoint widestDim (i : Z) (st sz : list Z) (best bs : Z) : Z :=
  match st, sz with
  | t :: st', s :: sz' =>
      if (Z.abs t >=? bs) && (s >? 1) then widestDim (i + 1) st' sz' i (Z.abs t) else widestDim (i + 1) st' sz' best bs
  | _, _ => best
  end.

Lemma bestDim_loop_ok (st sz : list Z) (i best bs : Z) :
  Forall (fun t => Z.abs t <= INT64_MAX) st -> bestDim_loop i st sz best bs = Done (widestDim i st sz best bs).
Proof.
  intros H. revert sz i best bs. induction H as [| t st Ht _ IH]; intros [| s sz] i best bs; try done.
  cbn [bestDim_loop widestDim]. rewrite abs_int64_ok by done. run. destruct (_ && _); apply IH.
Qed.

Lemma widestDim_spec (st sz : list Z) (i best bs : Z) :
  length st = length sz -> 0 <= i -> best < i -> 0 <= bs -> (best < 0 -> bs = 0) ->
  let r := widestDim i st sz best bs in
  r = best \/ (i <= r < i + Z.of_nat (length sz) /\ 1 < nthZ sz (Z.to_nat (r - i))).
Proof.
  revert sz i best bs. induction st as [| t st IH]; intros [| s sz] i best bs Hlen Hi Hb Hbs H0; simpl in Hlen; try lia; [by left |].
  cbn [widestDim]. cbv zeta in *.
  assert (Hstep : forall best' bs', best' < i + 1 -> 0 <= bs' -> (best' < 0 -> bs' = 0) -> best' = best \/ (best' = i /\ 1 < s) ->
    let r := widestDim (i + 1) st sz best' bs' in
    r = best \/ (i <= r < i + Z.of_nat (length (s :: sz)) /\ 1 < nthZ (s :: sz) (Z.to_nat (r - i)))).
  { intros best' bs' H1 H2 H3 H4. cbv zeta. destruct (IH sz (i + 1) best' bs') as [-> | [Hr Hs]]; try lia.
    - destruct H4 as [-> | [-> Hs]]; [by left |]. right. split; [simpl; lia |]. by rewrite Z.sub_diag.
    - right. split; [simpl; lia |].
      replace (Z.to_nat (widestDim (i + 1) st sz best' bs' - i))
        with (S (Z.to_nat (widestDim (i + 1) st sz best' bs' - (i + 1)))) by lia. exact Hs. }
  destruct (_ && _)%bool eqn:E.
  - apply andb_true_iff in E as [E1 E2]. rewrite Z.gtb_ltb in E2. apply Z.ltb_lt in E2. apply Hstep; try lia.
  - apply Hstep; try lia; auto.
Qed.

(** The cubes written for increasing bounds. *)
Definition backendCube (e : esdmI_hypercube_t) (k : nat) (bounds : list Z) (i : nat) : esdmI_hypercube_t :=
  <[k := Range (nthZ bounds i) (nthZ bounds (S i))]> e.

Lemma backendCubes_ok (bounds : list Z) (e : esdmI_hypercube_t) (k i : nat) (out : list slot) :
  StronglySorted Z.lt bounds -> (1 <= length bounds)%nat -> (i + (length bounds - 1) = length out)%nat ->
  backendCubes i bounds e k true out =
    Done (take i out ++ ((fun j => Some (Some (backendCube e k bounds j))) <$> seq 0 (length bounds - 1))).
Proof.
  revert i out. induction bounds as [| lo bounds IH]; intros i out Hs Hlen Hi; [simpl in Hlen; lia |].
  destruct bounds as [| hi bounds].
  { simpl. rewrite app_nil_r, take_ge by (simpl in Hi; lia). done. }
  pose proof Hs as Hs'. apply StronglySorted_cons in Hs' as [Hlt Hs'].
  apply Forall_cons in Hlt as [Hlt _].
  transitivity (backendCubes (S i) (hi :: bounds) e k true (<[i := Some (Some (<[k := Range lo hi]> e))]> out)).
  { cbn [backendCubes]. rewrite eassert_true by (apply Z.leb_le; lia). run. by rewrite (proj2 (Z.eqb_neq lo hi)) by lia. }
  simpl in Hi. assert (Hio : (i < length out)%nat) by lia. rewrite IH; [| done | simpl; lia | rewrite length_insert; simpl; lia]. f_equal.
  rewrite (take_S_r _ i (Some (Some (<[k := Range lo hi]> e)))) by (apply list_lookup_insert_eq; exact Hio).
  rewrite take_insert_ge by lia. rewrite <- app_assoc. f_equal.
  replace (length (lo :: hi :: bounds) - 1)%nat with (S (length (hi :: bounds) - 1)) by (simpl; lia).
  cbn [seq]. rewrite fmap_cons. cbn [app]. f_equal.
  rewrite <- (fmap_S_seq 0), <- list_fmap_compose. done.
Qed.

(** The pieces of one dimension partition the whole. *)
Lemma backendCubes_partition (e : esdmI_hypercube_t) (k : nat) (bounds : list Z) :
  bounds_ok bounds -> nonempty e -> e !! k = Some (Range (nthZ bounds 0) (nthZ bounds (length bounds - 1))) ->
  partitions (backendCube e k bounds <$> seq 0 (length bounds - 1)) e.
Proof.
  intros Hb Hne Hk.
  set (b := fun d => if decide (d = k) then bounds else
    match e !! d with Some r => [rstart r; rend r] | None => [0; 1] end).
  assert (Hbd : forall d, (d < length e)%nat -> bounds_ok (b d)).
  { intros d Hd. unfold b. case_decide; [done |]. destruct (lookup_lt_is_Some_2 e d Hd) as [r Hr]. rewrite Hr.
    pose proof (Forall_lookup_1 _ _ _ _ Hne Hr) as Hlt. simpl in Hlt. split; [| simpl; lia]. repeat constructor. exact Hlt. }
  assert (Hw : wholecube (length e) b = e).
  { apply list_eq. intros d. unfold wholecube. rewrite list_lookup_fmap. destruct (decide (d < length e)%nat) as [Hd | Hd].
    - rewrite lookup_seq_lt by done. simpl. unfold b. case_decide as Hdk; [by subst |].
      destruct (lookup_lt_is_Some_2 e d Hd) as [[lo hi] Hr]. by rewrite Hr.
    - rewrite lookup_seq_ge by lia. symmetry. apply lookup_ge_None. lia. }
  assert (Hc : forall j, backendCube e k bounds j = cellcube (length e) b (assign [k] [Z.of_nat j])).
  { intros j. apply list_eq. intros d. unfold backendCube, cellcube. rewrite list_lookup_fmap.
    destruct (decide (d < length e)%nat) as [Hd | Hd].
    - rewrite lookup_seq_lt by done. simpl. unfold b. destruct (decide (d = k)) as [-> | Hdk].
      + rewrite list_lookup_insert_eq by (by eapply lookup_lt_Some). unfold cell_range. by rewrite Nat2Z.id.
      + rewrite list_lookup_insert_ne by done. destruct (lookup_lt_is_Some_2 e d Hd) as [[lo hi] Hr]. by rewrite Hr.
    - rewrite lookup_seq_ge by lia. apply lookup_ge_None. rewrite length_insert. lia. }
  pose proof (digits_partition (length e) b Hbd [k]) as Hp. cbv zeta in Hp. rewrite Hw in Hp.
  assert (Ek : b k = bounds) by (unfold b; by rewrite decide_True). cbn [fmap list_fmap] in Hp. rewrite Ek in Hp.
  replace (backendCube e k bounds <$> seq 0 (length bounds - 1))
    with ((fun j => cellcube (length e) b (assign [k] (digits [cells bounds] j))) <$> seqZ 0 (prod [cells bounds])).
  - apply Hp.
    + apply NoDup_singleton.
    + intros d ->%list_elem_of_singleton. by eapply lookup_lt_Some.
    + intros d Hd Hin. rewrite list_elem_of_singleton in Hin. unfold b. rewrite decide_False by done.
      destruct (lookup_lt_is_Some_2 e d Hd) as [r ->]. done.
  - unfold seqZ, cells. cbn [prod foldr digits]. rewrite Z.mul_1_r, <- list_fmap_compose.
    replace (Z.to_nat (Z.of_nat (length bounds) - 1)) with (length bounds - 1)%nat by lia.
    apply list_fmap_ext. intros j x Hx. apply lookup_seq in Hx as [-> Hx]. rewrite Hc. unfold compose.
    rewrite Z.add_0_r, Z.mod_small by lia. done.
Qed.

(** The share of the backends before each bound, of [s] slices. *)
Definition shares (cumulated : list F) (totalWeight : F) (s : Z) : list Z :=
  0 :: ((fun w => scaled w s totalWeight) <$> take (length cumulated - 1) cumulated) ++ [s].

Lemma backendBounds_shares (cumulated : list F) (totalWeight : F) (o s : Z) :
  StronglySorted Z.lt (shares cumulated totalWeight s) -> INT64_MIN <= o -> o + s <= INT64_MAX ->
  backendBounds scaled cumulated totalWeight (Range o (o + s)) s = Done ((fun x => x + o) <$> shares cumulated totalWeight s).
Proof.
  intros Hs Ho Hos. unfold backendBounds, shares in *. set (l := take _ _) in *. cbn [rstart rend].
  apply StronglySorted_cons in Hs as [Hpos Hs].
  assert (Hin : Forall (fun w => INT64_MIN <= scaled w s totalWeight + o <= INT64_MAX) l).
  { apply Forall_forall. intros w Hw. assert (Hw' : scaled w s totalWeight ∈ (fun w => scaled w s totalWeight) <$> l) by (apply list_elem_of_fmap; by exists w).
    rewrite Forall_app in Hpos. pose proof (proj1 (Forall_forall _ _) (proj1 Hpos) _ Hw') as H0. cbn beta in H0.
    assert (H1 : scaled w s totalWeight < s).
    { clear -Hs Hw'. induction ((fun w => scaled w s totalWeight) <$> l) as [| x k IH]; [by apply elem_of_nil in Hw' |].
      apply StronglySorted_cons in Hs as [Hx Hs]. apply elem_of_cons in Hw' as [<- | Hw']; [| by apply IH].
      rewrite Forall_app in Hx. destruct Hx as [_ Hx]. apply Forall_cons in Hx as [Hx _]. exact Hx. }
    lia. }
  assert (E : mapM (fun w => chk64 (scaled w s totalWeight + o)) l = Done ((fun w => scaled w s totalWeight + o) <$> l)).
  { clear -Hin. induction Hin as [| w l Hw _ IH]; [done |]. rewrite mapM_cons, chk64_ok by done. run. by rewrite IH. }
  rewrite E. run. f_equal. rewrite fmap_cons, fmap_app, <- list_fmap_compose. cbn. by rewrite (Z.add_comm s o).
Qed.

Lemma shares_bounds (cumulated : list F) (totalWeight : F) (o s : Z) :
  StronglySorted Z.lt (shares cumulated totalWeight s) ->
  let b := (fun x => x + o) <$> shares cumulated totalWeight s in
  bounds_ok b /\ nthZ b 0 = o /\ nthZ b (length b - 1) = o + s.
Proof.
  intros Hs b. unfold b. split; [| split].
  - split.
    + clear b. induction Hs as [| x l Hs IH Hx]; [constructor |]. rewrite fmap_cons. constructor; [done |].
      rewrite Forall_fmap. eapply Forall_impl; [exact Hx |]. unfold compose. simpl. lia.
    + rewrite length_fmap. unfold shares. simpl. rewrite length_app. simpl. lia.
  - done.
  - unfold shares, nthZ. rewrite fmap_cons, fmap_app. cbn [length]. rewrite length_app. cbn [length fmap list_fmap].
    set (l := (fun x => x + o) <$> _). replace (S (length l + 1) - 1)%nat with (S (length l)) by lia.
    rewrite lookup_cons, list_lookup_middle by done. simpl. lia.
Qed.

Lemma length_cumulative (w : F) (ws : list F) : length (cumulative fadd w ws) = length ws.
Proof. revert w. induction ws as [| x ws IH]; intros w; simpl; [done |]. by rewrite IH. Qed.

Lemma bestBackend_found (ws : list F) (i best : Z) (bw : F) :
  0 <= i -> (0 <= best < i \/ (bw = fzero /\ exists w, head ws = Some w /\ fle fzero w = true)) ->
  0 <= bestBackend_loop fle i ws best bw < i + Z.of_nat (length ws).
Proof.
  revert i best bw. induction ws as [| w ws IH]; intros i best bw Hi H.
  { destruct H as [H | (_ & w & Hw & _)]; [simpl; lia | done]. }
  cbn [bestBackend_loop]. destruct (fle bw w) eqn:E.
  - specialize (IH (i + 1) i w ltac:(lia) ltac:(left; lia)). simpl. lia.
  - destruct H as [H | (-> & x & [= ->] & Hx)]; [| by rewrite Hx in E].
    specialize (IH (i + 1) best bw ltac:(lia) ltac:(left; lia)). simpl. lia.
Qed.

Lemma omap_single {A : Type} (x : A) (n k : nat) : (k < n)%nat -> omap id (<[k := Some x]> (replicate n None)) = [x].
Proof.
  revert k. induction n as [| n IH]; intros [| k] Hk; try lia; simpl.
  - f_equal. clear. by induction n.
  - apply IH. lia.
Qed.

Lemma omap_all {A : Type} (l : list A) : omap id (Some <$> l) = l.
Proof. induction l as [| x l IH]; simpl; [done |]. by f_equal. Qed.

Lemma mapM_deref (l : list F) : mapM deref (Some <$> l) = Done l.
Proof. induction l as [| x l IH]; [done |]. rewrite fmap_cons, mapM_cons. simpl. run. rewrite IH. by run. Qed.

Lemma splitToBackends_ok (space : esdm_dataspace_t) (w : F) (ws : list F) :
  space_wf space -> space_int64 space -> Forall (fun s => 1 <= s) (size space) -> strides_fit space ->
  fle fzero w = true ->
  (forall s totalWeight, s ∈ size space -> 1 < s -> last (w :: cumulative fadd w ws) = Some totalWeight ->
     StronglySorted Z.lt (shares (w :: cumulative fadd w ws) totalWeight s)) ->
  exists out : list (option esdmI_hypercube_t),
    splitToBackends fzero fle fadd scaled space (Some <$> w :: ws) = Done (Some <$> out) /\
    length out = length (w :: ws) /\ partitions (omap id out) (extends space).
Proof.
  intros Hwf H64 Hs Hst Hw Hsh. pose proof Hwf as [Hd Hls Hlo _]. pose proof (extends_nonempty space Hwf Hs) as Hne.
  unfold splitToBackends. rewrite eassert_true by (rewrite length_fmap; apply Z.ltb_lt; simpl; lia). run.
  rewrite mapM_deref. run. rewrite (getEffectiveStride_ok space Hwf) by apply Hst. run. rewrite (getExtends_ok _ Hwf H64). run. cbv zeta.
  rewrite bestDim_loop_ok by apply Hst. run.
  pose proof (length_eff space Hwf) as Hle. rewrite length_fmap.
  destruct (widestDim_spec (eff space) (size space) 0 (-1) 0) as [-> | [Hr Hgt]]; try lia.
  - cbn [Z.geb Z.compare].
    pose proof (bestBackend_found (w :: ws) 0 (-1) fzero ltac:(lia) ltac:(right; eauto)) as Hbb.
    set (bb := bestBackend_loop _ _ _ _ _) in *.
    rewrite eassert_true by (rewrite Z.geb_leb; apply Z.leb_le; lia). run.
    exists (<[Z.to_nat bb := Some (extends space)]> (replicate (length (w :: ws)) None)).
    rewrite list_fmap_insert, fmap_replicate, length_insert, length_replicate. split; [done |]. split; [done |].
    rewrite omap_single by lia. by apply partitions_single.
  - set (k := widestDim _ _ _ _ _) in *. rewrite Z.sub_0_r in Hgt.
    rewrite (proj2 (Z.geb_le k 0)) by lia. cbn [head tail]. run.
    destruct (last (w :: cumulative fadd w ws)) as [total |] eqn:El; [| by apply last_None in El]. run.
    destruct (lookup_lt_is_Some_2 (size space) (Z.to_nat k)) as [s Hsk]; [lia |].
    assert (Hx : extends space !! Z.to_nat k = Some (Range (nthZ (offset space) (Z.to_nat k)) (nthZ (offset space) (Z.to_nat k) + s))).
    { rewrite extends_seq, list_lookup_fmap, lookup_seq_lt by (done || lia). simpl. unfold nthZ at 3. by rewrite Hsk. }
    unfold nthZ in Hgt. rewrite Hsk in Hgt. simpl in Hgt. rewrite Hx. run.
    set (o := nthZ (offset space) (Z.to_nat k)) in *.
    assert (H64s : s <= INT64_MAX /\ INT64_MIN <= o /\ o + s <= INT64_MAX).
    { destruct (Forall2_lookup_r _ _ _ _ _ H64 Hsk) as (o' & Ho' & ?). unfold o, nthZ. rewrite Ho'. simpl. lia. }
    rewrite range_size_ok by (simpl; lia). run. replace (rsize (Range o (o + s))) with s by (unfold rsize; simpl; lia).
    destruct (shares_bounds (w :: cumulative fadd w ws) total o s) as (Hb & H0 & Hlast).
    { apply Hsh; [by eapply list_elem_of_lookup_2 | lia | done]. }
    rewrite backendBounds_shares by (lia || (apply Hsh; [by eapply list_elem_of_lookup_2 | lia | done])). run.
    set (b := (fun x => x + o) <$> shares _ _ _) in *.
    assert (Hlb : length b = S (length (w :: ws))).
    { unfold b, shares. rewrite length_fmap. cbn [length]. rewrite length_app, length_fmap, length_take. cbn [length].
      rewrite length_cumulative. lia. }
    rewrite backendCubes_ok; [| apply Hb | lia | rewrite length_replicate; lia].
    exists ((fun j => Some (backendCube (extends space) (Z.to_nat k) b j)) <$> seq 0 (length b - 1)).
    rewrite take_0, <- list_fmap_compose, length_fmap, length_seq. split; [done |]. split; [lia |].
    rewrite (list_fmap_compose (backendCube (extends space) (Z.to_nat k) b) Some), omap_all.
    apply backendCubes_partition; [done | done |]. by rewrite H0, Hlast.
Qed.

(** C34: [splitToBackends()] assigns the dataspace to the backends without gap or overlap: every
    entry of the output array is written, the assigned cubes are non-empty and pairwise disjoint
    and together are exactly the dataspace, provided that every backend has a throughput
    estimate that is not negative and gets at least one slice of any dimension that can be
    split.  The number of elements is an [int64_t] and no stride is [INT64_MIN]: the strides
    in effect and their absolute values are computed in signed 64 bit arithmetic. *)
Theorem splitToBackends_correct (space : esdm_dataspace_t) (w : F) (ws : list F) :
  space_wf space -> space_int64 space -> Forall (fun s => 1 <= s) (size space) -> strides_fit space ->
  fle fzero w = true ->
  (forall s totalWeight, s ∈ size space -> 1 < s -> last (w :: cumulative fadd w ws) = Some totalWeight ->
     StronglySorted Z.lt (shares (w :: cumulative fadd w ws) totalWeight s)) ->
  exists out : list (option esdmI_hypercube_t),
    splitToBackends fzero fle fadd scaled space (Some <$> w :: ws) = Done (Some <$> out) /\
    length out = length (w :: ws) /\ partitions (omap id out) (extends space).
Proof. apply splitToBackends_ok. Qed.

End BackendProof.

Lemma splitToBackends_correct_witness :
  let scaled w s total := (2 * w * s + total) / (2 * total) in
  exists out : list (option esdmI_hypercube_t),
    splitToBackends 0 Z.leb Z.add scaled (Dataspace (Type_ 1 8) 2 [6; 1] [10; 20] false None) [Some 1; Some 2; Some 3] =
      Done (Some <$> out) /\
    length out = 3%nat /\ partitions (omap id out) [Range 10 16; Range 20 21].
Proof.
  apply (splitToBackends_correct 0 Z.leb Z.add (fun w s total => (2 * w * s + total) / (2 * total))
    (Dataspace (Type_ 1 8) 2 [6; 1] [10; 20] false None) 1 [2; 3]).
  - by constructor.
  - by repeat constructor.
  - by repeat constructor.
  - split; [split |]; by repeat constructor.
  - done.
  - intros s total Hin Hs [= <-]. apply elem_of_cons in Hin as [-> | ->%list_elem_of_singleton]; [| lia].
    vm_compute. repeat constructor.
Defined.

(** When the weight of a backend is too small for a single slice, [splitToBackends()] clears
    its local copy of the pointer to the output array instead of the entry, and the next backend
    is stored through a null pointer: undefined behaviour, for any rounding to the nearest. *)
Lemma splitToBackends_small_share :
  splitToBackends 0 Z.leb Z.add (fun w s total => (2 * w * s + total) / (2 * total))
    (Dataspace (Type_ 1 8) 1 [2] [0] false None) [Some 1; Some 1000] = Undef.
Proof. reflexivity. Qed.
