(* ===== verification/Grid.v ===== *)
(** Grids of a dataset (src/esdm-grid.c), part one: the axes of a grid, their subdivision, the
    numbering of the cells and the search for the cell of a coordinate or of a dataspace.  The
    hierarchy of subgrids is in GridTree.v. *)

From S2P Require Import Prelude Hypercube Odometer Json Dataspace Partition Split.

#[local] Set Warnings "-register-all,-notation-for-abbreviation".

(** [int64_t] remainder. *)
Definition crem (a b : Z) : outcome Z := if b =? 0 then Undef else mret (Z.rem a b).

(** * Data *)

(** [allBounds] points to [outerBounds] as long as there is one interval ([ownBounds] is [None])
    and to an allocated array otherwise. *)
Record esdm_axis_t := Axis {
  intervals : Z;
  outerLow : Z;
  outerHigh : Z;
  ownBounds : option (list Z)
}.

Definition allBounds (axis : esdm_axis_t) : list Z :=
  match ownBounds axis with
  | None => [outerLow axis; outerHigh axis]
  | Some bounds => bounds
  end.

Record esdm_gridEntry_t (G F : Type) := Entry { subgrid : option G; fragment : option F }.
Arguments Entry {G F} _ _.
Arguments subgrid {G F} _.
Arguments fragment {G F} _.

(** [F] is the type of the pointers to fragments.  A pointer to a subgrid is represented by the
    subgrid itself: a subgrid is only referenced by the one cell of its parent. *)
Inductive esdm_grid_t (F : Type) := Grid {
  dimCount : Z;
  id : option string;
  emptyCells : Z;
  grid : option (list (esdm_gridEntry_t (esdm_grid_t F) F));
  axes : list esdm_axis_t
}.
Arguments Grid {F} _ _ _ _ _.
Arguments dimCount {F} _.
Arguments id {F} _.
Arguments emptyCells {F} _.
Arguments grid {F} _.
Arguments axes {F} _.

Section GridOperations.

Context {F : Type}.

Notation esdm_grid_t := (esdm_grid_t F).

(** * Creation *)

Definition makeAxis (offset : option (list Z)) (size : list Z) (i : nat) : outcome esdm_axis_t :=
  o ← match offset with Some l => deref (l !! i) | None => mret 0 end;
  s ← deref (size !! i);
  e ← chk64 (o + s);
  mret (Axis 1 o e None).

(** The registration of a top-level grid with its dataset is [esdmI_dataset_registerGrid]. *)
Definition esdm_grid_create_internal (datasetDims dimCount : Z) (offset : option (list Z)) (size : list Z)
    : outcome esdm_grid_t :=
  eassert (datasetDims =? dimCount);;
  eassert (0 <? dimCount);;
  axes ← mapM (makeAxis offset size) (seq 0 (Z.to_nat dimCount));
  mret (Grid dimCount None 0 None axes).

(** * Subdivision *)

Definition setAxis (g : esdm_grid_t) (dim : nat) (axis : esdm_axis_t) : esdm_grid_t :=
  Grid (dimCount g) (id g) (emptyCells g) (grid g) (<[dim := axis]> (axes g)).

(** The loop that writes the bounds 0 to [count]; [bound lo i] computes bound [i] where [lo] is the
    current value of [outerBounds[0]].  A negative allocation size is too large as a [size_t]. *)
Definition writeBounds (axis : esdm_axis_t) (count : Z) (bound : Z -> Z -> outcome Z) : outcome esdm_axis_t :=
  if count =? 1 then
    lo ← bound (outerLow axis) 0;
    hi ← bound lo 1;
    mret (Axis count lo hi None)
  else if count + 1 <? 0 then Abort
  else
    bounds ← mapM (bound (outerLow axis)) (seqZ 0 (count + 1));
    mret (Axis count (outerLow axis) (outerHigh axis) (Some bounds)).

(** The checks that the three subdivision functions share. *)
Definition subdivideAxis (g : esdm_grid_t) (dim : Z)
    (body : esdm_axis_t -> outcome (esdm_status * esdm_axis_t)) : outcome (esdm_status * esdm_grid_t) :=
  if (dim <? 0) || (dim >=? dimCount g) then mret (ESDM_INVALID_ARGUMENT_ERROR, g)
  else match grid g with
  | Some _ => mret (ESDM_INVALID_STATE_ERROR, g)
  | None =>
      axis ← deref (axes g !! Z.to_nat dim);
      '(result, axis') ← body axis;
      mret (result, setAxis g (Z.to_nat dim) axis')
  end.

Definition fixedBound (size axisSize lo i : Z) : outcome Z :=
  p ← chk64 (size * i);
  chk64 (lo + (if p <? axisSize then p else axisSize)).

Definition subdivideFixed_axis (size : Z) (allowIncomplete : bool) (axis : esdm_axis_t)
    : outcome (esdm_status * esdm_axis_t) :=
    axisSize ← chk64 (outerHigh axis - outerLow axis);
    if axisSize <? size then mret (ESDM_INVALID_ARGUMENT_ERROR, axis)
    else
      mismatch ← (if allowIncomplete then mret 0 else crem axisSize size);
      if negb (mismatch =? 0) then mret (ESDM_INVALID_ARGUMENT_ERROR, axis)
      else
        sum ← chk64 (axisSize + size);
        dividend ← chk64 (sum - 1);
        count ← cdiv dividend size;
        axis' ← writeBounds axis count (fixedBound size axisSize);
        mret (ESDM_SUCCESS, axis').

Definition esdm_grid_subdivideFixed (g : esdm_grid_t) (dim size : Z) (allowIncomplete : bool)
    : outcome (esdm_status * esdm_grid_t) :=
  subdivideAxis g dim (subdivideFixed_axis size allowIncomplete).

Definition flexibleBound (count axisSize lo i : Z) : outcome Z :=
  p ← chk64 (axisSize * i);
  q ← cdiv p count;
  chk64 (lo + q).

Definition subdivideFlexible_axis (count : Z) (axis : esdm_axis_t) : outcome (esdm_status * esdm_axis_t) :=
    axisSize ← chk64 (outerHigh axis - outerLow axis);
    if axisSize <? count then mret (ESDM_INVALID_ARGUMENT_ERROR, axis)
    else
      axis' ← writeBounds axis count (flexibleBound count axisSize);
      mret (ESDM_SUCCESS, axis').

Definition esdm_grid_subdivideFlexible (g : esdm_grid_t) (dim count : Z) : outcome (esdm_status * esdm_grid_t) :=
  subdivideAxis g dim (subdivideFlexible_axis count).

(** [for(i = 0; i < count; i++) if(bounds[i] >= bounds[i+1]) return ...] *)
Fixpoint notIncreasing (count : nat) (bounds : list Z) : outcome bool :=
  match count with
  | O => mret false
  | S count' =>
      match bounds with
      | a :: ((b :: _) as rest) => if a >=? b then mret true else notIncreasing count' rest
      | _ => Undef
      end
  end.

Definition subdivide_axis (count : Z) (bounds : list Z) (axis : esdm_axis_t) : outcome (esdm_status * esdm_axis_t) :=
    first ← deref (bounds !! 0%nat);
    if negb (first =? outerLow axis) then mret (ESDM_INVALID_ARGUMENT_ERROR, axis)
    else
      last ← deref (bounds !! Z.to_nat count);
      if negb (last =? outerHigh axis) then mret (ESDM_INVALID_ARGUMENT_ERROR, axis)
      else
        bad ← notIncreasing (Z.to_nat count) bounds;
        if bad : bool then mret (ESDM_INVALID_ARGUMENT_ERROR, axis)
        else mret (ESDM_SUCCESS, Axis count (outerLow axis) (outerHigh axis)
               (if count =? 1 then None else Some (take (Z.to_nat (count + 1)) bounds))).

Definition esdm_grid_subdivide (g : esdm_grid_t) (dim count : Z) (bounds : list Z) : outcome (esdm_status * esdm_grid_t) :=
  eassert (0 <? count);;
  subdivideAxis g dim (subdivide_axis count bounds).

(** * Cells *)

Fixpoint cellCount_loop (axes : list esdm_axis_t) (entryCount : Z) : outcome Z :=
  match axes with
  | [] => mret entryCount
  | axis :: rest => n ← chk64 (entryCount * intervals axis); cellCount_loop rest n
  end.

Definition esdmI_grid_cellCount (g : esdm_grid_t) : outcome Z := cellCount_loop (axes g) 1.

Definition esdm_grid_ensureGrid (g : esdm_grid_t) : outcome esdm_grid_t :=
  match grid g with
  | Some _ => mret g
  | None =>
      n ← esdmI_grid_cellCount g;
      if n <? 0 then Abort
      else mret (Grid (dimCount g) (id g) n (Some (replicate (Z.to_nat n) (Entry None None))) (axes g))
  end.

Fixpoint linearIndex_loop (axes : list esdm_axis_t) (index : list Z) (result : Z) : outcome Z :=
  match axes with
  | [] => mret result
  | axis :: rest =>
      match index with
      | [] => Undef
      | i :: index' =>
          if (i <? 0) || (i >=? intervals axis) then mret (-1)
          else p ← chk64 (result * intervals axis); r ← chk64 (p + i); linearIndex_loop rest index' r
      end
  end.

Definition esdm_grid_linearIndex (g : esdm_grid_t) (index : list Z) : outcome Z := linearIndex_loop (axes g) index 0.

(** From the last axis to the first. *)
Fixpoint indexCoordinates_loop (revAxes : list esdm_axis_t) (linearIndex : Z) (out : list Z) : outcome (list Z) :=
  match revAxes with
  | [] => eassert (linearIndex =? 0);; mret out
  | axis :: rest =>
      r ← crem linearIndex (intervals axis);
      q ← cdiv linearIndex (intervals axis);
      indexCoordinates_loop rest q (r :: out)
  end.

Definition esdm_grid_indexCoordinates (g : esdm_grid_t) (linearIndex : Z) : outcome (list Z) :=
  indexCoordinates_loop (rev (axes g)) linearIndex [].

(** The offsets and sizes; [None] for [ESDM_INVALID_ARGUMENT_ERROR]. *)
Fixpoint cellSize_loop (axes : list esdm_axis_t) (cellIndex : list Z) : outcome (option (list Z * list Z)) :=
  match axes with
  | [] => mret (Some ([], []))
  | axis :: rest =>
      match cellIndex with
      | [] => Undef
      | index :: cellIndex' =>
          if (index <? 0) || (index >=? intervals axis) then mret None
          else
            lo ← deref (allBounds axis !! Z.to_nat index);
            hi ← deref (allBounds axis !! Z.to_nat (index + 1));
            s ← chk64 (hi - lo);
            r ← cellSize_loop rest cellIndex';
            mret (match r with Some (os, ss) => Some (lo :: os, s :: ss) | None => None end)
      end
  end.

Definition esdm_grid_cellSize (g : esdm_grid_t) (cellIndex : list Z) : outcome (option (list Z * list Z)) :=
  cellSize_loop (axes g) cellIndex.

Definition esdm_grid_cellExtends (g : esdm_grid_t) (cellIndex : list Z) : outcome (option esdmI_hypercube_t) :=
  r ← esdm_grid_cellSize g cellIndex;
  match r with
  | Some (offset, size) => cube ← esdmI_hypercube_make (dimCount g) offset size; mret (Some cube)
  | None => mret None
  end.

Definition esdm_grid_getBound (g : esdm_grid_t) (dim index : Z) : outcome (esdm_status * option Z) :=
  if (dim <? 0) || (dim >=? dimCount g) then mret (ESDM_INVALID_ARGUMENT_ERROR, None)
  else
    axis ← deref (axes g !! Z.to_nat dim);
    if (index <? 0) || (index >? intervals axis) then mret (ESDM_INVALID_ARGUMENT_ERROR, None)
    else b ← deref (allBounds axis !! Z.to_nat index); mret (ESDM_SUCCESS, Some b).

(** * Searching *)

(** The interpolating binary search; [fuel] bounds the number of iterations. *)
Fixpoint findInterval_loop (fuel : nat) (bounds : list Z) (location startIndex endIndex : Z) : outcome Z :=
  match fuel with
  | O => Undef
  | S fuel' =>
      if startIndex + 1 <? endIndex then
        lo ← deref (bounds !! Z.to_nat startIndex);
        hi ← deref (bounds !! Z.to_nat endIndex);
        p ← chk64 ((endIndex - startIndex) * (location - lo));
        q ← cdiv p (hi - lo);
        let midIndex := startIndex + q in
        eassert ((startIndex <=? midIndex) && (midIndex <=? endIndex));;
        let midIndex := if midIndex =? startIndex then midIndex + 1
                        else if midIndex =? endIndex then midIndex - 1 else midIndex in
        eassert ((startIndex <? midIndex) && (midIndex <? endIndex));;
        b ← deref (bounds !! Z.to_nat midIndex);
        if b >? location then findInterval_loop fuel' bounds location startIndex midIndex
        else findInterval_loop fuel' bounds location midIndex endIndex
      else
        eassert (startIndex + 1 =? endIndex);;
        mret startIndex
  end.

Definition esdmI_axis_findInterval (axis : esdm_axis_t) (location : Z) : outcome Z :=
  if (location <? outerLow axis) || (location >=? outerHigh axis) then mret (-1)
  else findInterval_loop (S (Z.to_nat (intervals axis))) (allBounds axis) location 0 (intervals axis).

(** [isShort] is the value of [*out_isShort] before and after the call. *)
Definition esdmI_axis_matchInterval (axis : esdm_axis_t) (start end_ : Z) (isShort : bool) : outcome (Z * bool) :=
  if start >=? end_ then mret (-1, isShort)
  else if (start <? outerLow axis) || (end_ >? outerHigh axis) then mret (-1, isShort)
  else
    intervalIndex ← esdmI_axis_findInterval axis start;
    eassert (intervalIndex <? intervals axis);;
    if intervalIndex <? 0 then mret (-1, isShort)
    else
      hi ← deref (allBounds axis !! Z.to_nat (intervalIndex + 1));
      if end_ >? hi then mret (-1, isShort)
      else
        lo ← deref (allBounds axis !! Z.to_nat intervalIndex);
        mret (intervalIndex, if (start >? lo) || (end_ <? hi) then true else isShort).

(** The cell index and [*out_spaceTooSmall]; [None] for [ESDM_ERROR]. *)
Fixpoint findCell_loop (axes : list esdm_axis_t) (offset size : list Z) (tooSmall : bool)
    : outcome (option (list Z) * bool) :=
  match axes with
  | [] => mret (Some [], tooSmall)
  | axis :: rest =>
      match offset, size with
      | o :: offset', s :: size' =>
          e ← chk64 (o + s);
          '(curIndex, tooSmall') ← esdmI_axis_matchInterval axis o e tooSmall;
          if curIndex <? 0 then mret (None, tooSmall')
          else
            '(r, tooSmall'') ← findCell_loop rest offset' size' tooSmall';
            mret (match r with Some index => Some (curIndex :: index) | None => None end, tooSmall'')
      | _, _ => Undef
      end
  end.

Definition esdmI_grid_findCell (g : esdm_grid_t) (space : esdm_dataspace_t) : outcome (option (list Z) * bool) :=
  findCell_loop (axes g) (offset space) (size space) false.

End GridOperations.

(** * Well-formed axes *)

Record axis_wf (a : esdm_axis_t) : Prop := {
  aw_bounds : bounds_ok (allBounds a);
  aw_intervals : intervals a = cells (allBounds a);
  aw_low : outerLow a = nthZ (allBounds a) 0;
  aw_high : outerHigh a = nthZ (allBounds a) (length (allBounds a) - 1);
  aw_own : intervals a = 1 <-> ownBounds a = None
}.

(** The products of the search do not overflow. *)
Record axis_int64 (a : esdm_axis_t) : Prop := {
  ai_low : INT64_MIN <= outerLow a;
  ai_high : outerHigh a <= INT64_MAX;
  ai_product : intervals a * (outerHigh a - outerLow a) <= INT64_MAX
}.

Section AxisFacts.

Context (a : esdm_axis_t) (Hwf : axis_wf a).

Lemma axis_intervals_pos : 1 <= intervals a.
Proof. destruct Hwf as [[_ Hl] -> _ _ _]. unfold cells. lia. Qed.

Lemma axis_nonempty : outerLow a < outerHigh a.
Proof. destruct Hwf as [[Hs Hl] _ -> -> _]. apply sorted_nth_lt; [done | lia]. Qed.

Lemma axis_bound (k : Z) :
  0 <= k <= intervals a -> allBounds a !! Z.to_nat k = Some (nthZ (allBounds a) (Z.to_nat k)).
Proof.
  intros Hk. destruct Hwf as [[_ Hl] Hi _ _ _]. unfold cells in Hi.
  destruct (lookup_lt_is_Some_2 (allBounds a) (Z.to_nat k)) as [x Hx]; [lia |]. unfold nthZ. by rewrite Hx.
Qed.

Lemma axis_bound_lt (j k : Z) :
  0 <= j < k -> k <= intervals a -> nthZ (allBounds a) (Z.to_nat j) < nthZ (allBounds a) (Z.to_nat k).
Proof.
  intros Hj Hk. destruct Hwf as [[Hs Hl] Hi _ _ _]. unfold cells in Hi. apply sorted_nth_lt; [done | lia].
Qed.

Lemma axis_bound_le (j k : Z) :
  0 <= j <= k -> k <= intervals a -> nthZ (allBounds a) (Z.to_nat j) <= nthZ (allBounds a) (Z.to_nat k).
Proof.
  intros Hj Hk. destruct Hwf as [[Hs Hl] Hi _ _ _]. unfold cells in Hi. apply sorted_nth_le; [done | lia].
Qed.

Lemma axis_last : outerHigh a = nthZ (allBounds a) (Z.to_nat (intervals a)).
Proof. destruct Hwf as [[_ Hl] Hi _ -> _]. unfold cells in Hi. f_equal. lia. Qed.

Lemma axis_cell_range (k : Z) :
  0 <= k < intervals a ->
  cell_range (allBounds a) k = Range (nthZ (allBounds a) (Z.to_nat k)) (nthZ (allBounds a) (Z.to_nat (k + 1))).
Proof. intros Hk. unfold cell_range. do 2 f_equal. lia. Qed.

Lemma findInterval_loop_ok (fuel : nat) (x s e : Z) :
  axis_int64 a -> 0 <= s < e -> e <= intervals a -> e - s <= Z.of_nat fuel ->
  nthZ (allBounds a) (Z.to_nat s) <= x < nthZ (allBounds a) (Z.to_nat e) ->
  exists k, findInterval_loop fuel (allBounds a) x s e = Done k /\ 0 <= k < intervals a /\ in_range x (cell_range (allBounds a) k).
Proof.
  intros H64. revert s e. induction fuel as [| fuel IH]; intros s e Hs He Hfuel Hx; [lia |].
  cbn [findInterval_loop]. destruct (Z.ltb_spec (s + 1) e) as [Hlt | Hge].
  - rewrite !axis_bound by lia. run. set (lo := nthZ _ (Z.to_nat s)) in *. set (hi := nthZ _ (Z.to_nat e)) in *.
    assert (Hlo : outerLow a <= lo).
    { rewrite (aw_low _ Hwf). change 0%nat with (Z.to_nat 0). apply axis_bound_le; lia. }
    assert (Hhi : hi <= outerHigh a) by (rewrite axis_last; apply axis_bound_le; lia).
    destruct H64 as [H1 H2 H3]. pose proof axis_nonempty.
    assert (Hp : 0 <= (e - s) * (x - lo) <= INT64_MAX).
    { split; [nia |]. transitivity (intervals a * (outerHigh a - outerLow a)); [| lia].
      apply Z.mul_le_mono_nonneg; lia. }
    rewrite chk64_ok by (unfold INT64_MIN; lia). run. unfold cdiv. rewrite (proj2 (Z.eqb_neq _ 0)) by lia. run.
    rewrite Z.quot_div_nonneg by lia.
    assert (Hq : 0 <= (e - s) * (x - lo) / (hi - lo) <= e - s).
    { split; [apply Z.div_pos; lia |]. apply Z.div_le_upper_bound; [lia |]. nia. }
    set (q := _ / _) in *. rewrite (eassert_true ((s <=? s + q) && (s + q <=? e))) by (rewrite andb_true_iff, !Z.leb_le; lia).
    run. cbv zeta.
    set (mid := if _ =? s then _ else _).
    assert (Hm : s < mid < e) by (unfold mid; split_bools; lia).
    rewrite eassert_true by (rewrite andb_true_iff, !Z.ltb_lt; lia). run. rewrite axis_bound by lia. run.
    rewrite Z.gtb_ltb. destruct (Z.ltb_spec x (nthZ (allBounds a) (Z.to_nat mid))); apply IH; lia.
  - rewrite eassert_true by (apply Z.eqb_eq; lia). run. exists s. split; [done |]. split; [lia |].
    rewrite axis_cell_range by lia. unfold in_range. simpl. replace (s + 1) with e by lia. lia.
Qed.

Lemma findInterval_ok (x : Z) :
  axis_int64 a -> outerLow a <= x < outerHigh a ->
  exists k, esdmI_axis_findInterval a x = Done k /\ 0 <= k < intervals a /\ in_range x (cell_range (allBounds a) k).
Proof.
  intros H64 Hx. unfold esdmI_axis_findInterval.
  rewrite (proj2 (Z.ltb_ge x _)), Z.geb_leb, (proj2 (Z.leb_gt _ x)) by lia. cbn [orb].
  pose proof axis_intervals_pos. apply findInterval_loop_ok; try done; try lia.
  rewrite <- axis_last. change (Z.to_nat 0) with 0%nat. by rewrite <- (aw_low _ Hwf).
Qed.

Lemma findInterval_outside (x : Z) :
  x < outerLow a \/ outerHigh a <= x -> esdmI_axis_findInterval a x = Done (-1).
Proof.
  intros Hx. unfold esdmI_axis_findInterval. rewrite Z.geb_leb.
  destruct (Z.ltb_spec x (outerLow a)), (Z.leb_spec (outerHigh a) x); try done; lia.
Qed.

End AxisFacts.

(** * Subdivision *)

(** The axis with given bounds. *)
Definition axisOf (bs : list Z) : esdm_axis_t :=
  Axis (cells bs) (nthZ bs 0) (nthZ bs (length bs - 1)) (if cells bs =? 1 then None else Some bs).

Lemma allBounds_axisOf (bs : list Z) : bounds_ok bs -> allBounds (axisOf bs) = bs.
Proof.
  intros [_ Hl]. unfold allBounds, axisOf. cbn [ownBounds outerLow outerHigh].
  destruct (Z.eqb_spec (cells bs) 1) as [H |]; [| done]. unfold cells in H.
  destruct bs as [| x [| y [| z bs]]]; simpl in *; try lia. done.
Qed.

Lemma axisOf_wf (bs : list Z) : bounds_ok bs -> axis_wf (axisOf bs).
Proof.
  intros Hb. constructor; rewrite ?allBounds_axisOf by done; try done.
  unfold axisOf. simpl. destruct (Z.eqb_spec (cells bs) 1); split; intros; congruence.
Qed.

Lemma axisOf_allBounds (a : esdm_axis_t) : axis_wf a -> axisOf (allBounds a) = a.
Proof.
  intros [Hb Hi Hlo Hhi Ho]. unfold axisOf. rewrite <- Hi, <- Hlo, <- Hhi. destruct a as [n lo hi [l |]]; simpl in *.
  - destruct (Z.eqb_spec n 1) as [-> |]; [| done]. by destruct (proj1 Ho eq_refl).
  - by rewrite (proj2 Ho eq_refl).
Qed.

Lemma writeBounds_ok (a : esdm_axis_t) (bs : list Z) (bound : Z -> Z -> outcome Z) :
  bounds_ok bs -> nthZ bs 0 = outerLow a -> nthZ bs (length bs - 1) = outerHigh a ->
  (forall i, 0 <= i <= cells bs -> bound (outerLow a) i = Done (nthZ bs (Z.to_nat i))) ->
  writeBounds a (cells bs) bound = Done (axisOf bs).
Proof.
  intros [Hs Hl] H0 Hlast Hb. unfold writeBounds, axisOf. destruct (Z.eqb_spec (cells bs) 1) as [E | E].
  - rewrite Hb by lia. run. change (Z.to_nat 0) with 0%nat. rewrite H0, Hb by lia. run. unfold cells in E.
    replace (length bs - 1)%nat with (Z.to_nat 1) by lia. done.
  - assert (1 <= cells bs) by (unfold cells; lia). rewrite (proj2 (Z.ltb_ge _ 0)) by lia.
    destruct (mapM_ok (bound (outerLow a)) (fun i b => b = nthZ bs (Z.to_nat i)) (seqZ 0 (cells bs + 1))) as (r & -> & Hr).
    { intros i Hi%elem_of_seqZ. eexists. split; [apply Hb; lia | done]. }
    run. rewrite H0, Hlast. do 3 f_equal. apply list_eq. intros k.
    assert (Hlr : length r = length bs).
    { rewrite <- (Forall2_length _ _ _ Hr), length_seqZ. unfold cells. lia. }
    destruct (r !! k) as [x |] eqn:Ek.
    + destruct (Forall2_lookup_r _ _ _ _ _ Hr Ek) as (i & Hi & ->). apply lookup_seqZ in Hi as [-> Hi].
      apply lookup_lt_Some in Ek. destruct (lookup_lt_is_Some_2 bs k) as [y Hy]; [lia |]. rewrite Hy. f_equal.
      unfold nthZ. rewrite Z.add_0_l, Nat2Z.id, Hy. done.
    + symmetry. apply lookup_ge_None. apply lookup_ge_None in Ek. lia.
Qed.

Lemma nthZ_fmap_seqZ (f : Z -> Z) (n k : Z) : 0 <= k < n -> nthZ (f <$> seqZ 0 n) (Z.to_nat k) = f k.
Proof.
  intros Hk. unfold nthZ. rewrite list_lookup_fmap, (proj2 (lookup_seqZ 0 n (Z.to_nat k) k)) by lia. done.
Qed.

Lemma fmap_seqZ_bounds (f : Z -> Z) (n : Z) :
  1 <= n -> (forall i, 0 <= i < n -> f i < f (i + 1)) -> bounds_ok (f <$> seqZ 0 (n + 1)) /\ cells (f <$> seqZ 0 (n + 1)) = n.
Proof.
  intros Hn Hf. split; [split |].
  - assert (Hgen : forall i j, 0 <= i -> i < j -> j <= n -> f i < f j).
    { intros i j Hi Hij Hj. remember (Z.to_nat (j - i)) as k eqn:Ek. revert j Hij Hj Ek.
      induction k as [| k IH]; intros j Hij Hj Ek; [lia |]. destruct (decide (j = i + 1)) as [-> | Hne]; [apply Hf; lia |].
      specialize (IH (j - 1) ltac:(lia) ltac:(lia) ltac:(lia)). specialize (Hf (j - 1) ltac:(lia)).
      replace (j - 1 + 1) with j in Hf by lia. lia. }
    assert (Hgo : forall k m, (0 <= m) -> m + Z.of_nat k <= n + 1 -> StronglySorted Z.lt (f <$> seqZ m (Z.of_nat k))).
    { induction k as [| k IH]; intros m Hm Hk; [constructor |].
      rewrite seqZ_cons by lia. rewrite fmap_cons. constructor; [replace (Z.pred (Z.of_nat (S k))) with (Z.of_nat k) by lia; apply IH; lia |].
      apply Forall_fmap, Forall_forall. intros j Hj%elem_of_seqZ. unfold compose. apply Hgen; lia. }
    replace (n + 1) with (Z.of_nat (Z.to_nat (n + 1))) by lia. apply Hgo; lia.
  - rewrite length_fmap, length_seqZ. lia.
  - unfold cells. rewrite length_fmap, length_seqZ. lia.
Qed.

Inductive subdivision :=
| Fixed (size : Z) (allowIncomplete : bool)
| Flexible (count : Z)
| Explicit (bounds : list Z).

Definition fixedCount (size axisSize : Z) : Z := (axisSize + size - 1) / size.

(** The bounds that a subdivision asks for. *)
Definition requested (op : subdivision) (a : esdm_axis_t) : list Z :=
  let axisSize := outerHigh a - outerLow a in
  match op with
  | Fixed size _ => (fun i => outerLow a + Z.min (size * i) axisSize) <$> seqZ 0 (fixedCount size axisSize + 1)
  | Flexible count => (fun i => outerLow a + axisSize * i / count) <$> seqZ 0 (count + 1)
  | Explicit bounds => bounds
  end.

Definition admissible (op : subdivision) (a : esdm_axis_t) : Prop :=
  let axisSize := outerHigh a - outerLow a in
  match op with
  | Fixed size allowIncomplete => size <= axisSize /\ (allowIncomplete = true \/ axisSize mod size = 0)
  | Flexible count => count <= axisSize
  | Explicit bounds => bounds_ok bounds /\ nthZ bounds 0 = outerLow a /\ nthZ bounds (length bounds - 1) = outerHigh a
  end.

(** The arguments the functions can handle, and the absence of overflow. *)
Definition arguments_ok (op : subdivision) (a : esdm_axis_t) : Prop :=
  INT64_MIN <= outerLow a /\ outerHigh a <= INT64_MAX /\
  let axisSize := outerHigh a - outerLow a in
  match op with
  | Fixed size _ => 1 <= size /\ 2 * axisSize <= INT64_MAX
  | Flexible count => 1 <= count /\ axisSize * count <= INT64_MAX
  | Explicit bounds => (2 <= length bounds)%nat /\ axisSize <= INT64_MAX
  end.

Lemma requested_ok (op : subdivision) (a : esdm_axis_t) :
  axis_wf a -> arguments_ok op a -> admissible op a ->
  bounds_ok (requested op a) /\ nthZ (requested op a) 0 = outerLow a /\
  nthZ (requested op a) (length (requested op a) - 1) = outerHigh a.
Proof.
  intros Hwf (_ & _ & Ha) Hadm. pose proof (axis_nonempty a Hwf) as Hne.
  destruct op as [size allow | count | bounds]; cbn [requested admissible] in *; [| | done].
  - destruct Hadm as [Hle _]. set (n := outerHigh a - outerLow a) in *. set (c := fixedCount size n).
    assert (Hc : 1 <= c /\ size * (c - 1) < n <= size * c).
    { unfold c, fixedCount. pose proof (Z.div_mod (n + size - 1) size ltac:(lia)) as E.
      pose proof (Z.mod_pos_bound (n + size - 1) size ltac:(lia)). split; [| nia].
      apply Z.div_le_lower_bound; lia. }
    destruct (fmap_seqZ_bounds (fun i => outerLow a + Z.min (size * i) n) c) as [Hb Hcells]; [lia | intros i Hi; nia |].
    split; [done |]. change 0%nat with (Z.to_nat 0) at 1. rewrite nthZ_fmap_seqZ by lia. split; [lia |].
    replace (length _ - 1)%nat with (Z.to_nat c) by (unfold cells in Hcells; lia). rewrite nthZ_fmap_seqZ by lia. lia.
  - destruct Ha as [Hc Ho]. set (n := outerHigh a - outerLow a) in *.
    destruct (fmap_seqZ_bounds (fun i => outerLow a + n * i / count) count) as [Hb Hcells]; [lia | |].
    { intros i Hi. pose proof (slices_step i n count ltac:(lia)). rewrite (Z.mul_comm n i), (Z.mul_comm n (i + 1)). lia. }
    split; [done |]. change 0%nat with (Z.to_nat 0) at 1. rewrite nthZ_fmap_seqZ by lia.
    split; [rewrite Z.mul_0_r, Z.div_0_l by lia; lia |].
    replace (length _ - 1)%nat with (Z.to_nat count) by (unfold cells in Hcells; lia). rewrite nthZ_fmap_seqZ by lia.
    rewrite Z.div_mul by lia. lia.
Qed.

Lemma notIncreasing_ok (n : nat) (bs : list Z) :
  length bs = S n -> exists bad, notIncreasing n bs = Done bad /\ (bad = false <-> StronglySorted Z.lt bs).
Proof.
  revert bs. induction n as [| n IH]; intros bs Hl.
  { destruct bs as [| x [| y bs]]; simpl in Hl; try lia. exists false. repeat constructor. }
  destruct bs as [| x [| y bs]]; simpl in Hl; try lia. destruct (IH (y :: bs)) as (bad & E & Hbad); [simpl; lia |].
  cbn [notIncreasing]. rewrite Z.geb_leb. destruct (Z.leb_spec y x) as [Hle | Hlt].
  - exists true. split; [done |]. split; [done |]. intros Hs. apply StronglySorted_cons in Hs as [Hx _].
    apply Forall_cons in Hx as [Hx _]. lia.
  - exists bad. split; [exact E |]. rewrite Hbad. split.
    + intros Hs. constructor; [done |]. constructor; [done |].
      apply StronglySorted_cons in Hs as [Hy _]. eapply Forall_impl; [exact Hy |]. simpl. lia.
    + intros Hs. by apply StronglySorted_cons in Hs as [_ Hs].
Qed.

Section Subdivide.

Context {F : Type}.

Notation esdm_grid_t := (esdm_grid_t F).

Record grid_wf (g : esdm_grid_t) : Prop := {
  gw_dims : Z.of_nat (length (axes g)) = dimCount g;
  gw_pos : 0 < dimCount g;
  gw_axes : Forall axis_wf (axes g)
}.

(** The hypercube that a grid divides. *)
Definition domain (g : esdm_grid_t) : esdmI_hypercube_t := (fun a => Range (outerLow a) (outerHigh a)) <$> axes g.

Definition subdivideBy (op : subdivision) (g : esdm_grid_t) (dim : Z) : outcome (esdm_status * esdm_grid_t) :=
  match op with
  | Fixed size allowIncomplete => esdm_grid_subdivideFixed g dim size allowIncomplete
  | Flexible count => esdm_grid_subdivideFlexible g dim count
  | Explicit bounds => esdm_grid_subdivide g dim (cells bounds) bounds
  end.

(** The axis of a subdivision on one axis. *)
Definition subdivided (op : subdivision) (a : esdm_axis_t) (r : esdm_status * esdm_axis_t) : Prop :=
  (r = (ESDM_SUCCESS, axisOf (requested op a)) /\ admissible op a) \/ (r = (ESDM_INVALID_ARGUMENT_ERROR, a) /\ ~ admissible op a).

Lemma subdivideAxis_ok (op : subdivision) (g : esdm_grid_t) (dim : Z) (a : esdm_axis_t) body :
  grid_wf g -> grid g = None -> 0 <= dim < dimCount g -> axes g !! Z.to_nat dim = Some a -> arguments_ok op a ->
  returns (body a) (subdivided op a) ->
  exists st g', subdivideAxis g dim body = Done (st, g') /\ grid_wf g' /\ grid g' = None /\ domain g' = domain g /\
    ((st = ESDM_SUCCESS /\ admissible op a /\ allBounds <$> axes g' = <[Z.to_nat dim := requested op a]> (allBounds <$> axes g)) \/
     (st = ESDM_INVALID_ARGUMENT_ERROR /\ ~ admissible op a /\ g' = g)).
Proof.
  intros [Hd Hp Hax] Hg Hdim Ha Hargs (r & Er & Hr). unfold subdivideAxis.
  rewrite (proj2 (Z.ltb_ge dim 0)), Z.geb_leb, (proj2 (Z.leb_gt _ dim)), Hg, Ha by lia. run. rewrite Er. run.
  pose proof (Forall_lookup_1 _ _ _ _ Hax Ha) as Hwf.
  destruct Hr as [[-> Hadm] | [-> Hadm]]; run.
  - destruct (requested_ok op a Hwf Hargs Hadm) as (Hb & H0 & Hl).
    eexists _, _. split; [done |]. split; [| split; [done | split]].
    + constructor; simpl; [by rewrite length_insert | done | by apply Forall_insert, axisOf_wf].
    + unfold domain. simpl. rewrite list_fmap_insert. apply list_insert_id. rewrite list_lookup_fmap, Ha. simpl.
      by rewrite H0, Hl.
    + left. split; [done |]. split; [done |]. simpl. by rewrite list_fmap_insert, allBounds_axisOf.
  - unfold setAxis. rewrite list_insert_id by done. exists ESDM_INVALID_ARGUMENT_ERROR, g.
    split; [by destruct g |]. split; [done |]. split; [done |]. split; [done |]. by right.
Qed.

Lemma fixed_ok (size : Z) (allow : bool) (a : esdm_axis_t) :
  axis_wf a -> arguments_ok (Fixed size allow) a ->
  returns (subdivideFixed_axis size allow a) (subdivided (Fixed size allow) a).
Proof.
  intros Hwf Hargs. pose proof Hargs as (Hlo & Hhi & Hsz & H2). pose proof (axis_nonempty a Hwf).
  unfold subdivideFixed_axis. rewrite chk64_ok by (unfold INT64_MIN; lia). run.
  set (n := outerHigh a - outerLow a) in *. destruct (Z.ltb_spec n size) as [Hlt | Hge].
  { apply returns_done. right. split; [done |]. cbn. intros [? _]. lia. }
  assert (Em : (if allow then mret 0 else crem n size) = Done (if allow then 0 else n mod size)).
  { destruct allow; [done |]. unfold crem. rewrite (proj2 (Z.eqb_neq size 0)) by lia. run. by rewrite Z.rem_mod_nonneg by lia. }
  rewrite Em. run. destruct (Z.eqb_spec (if allow then 0 else n mod size) 0) as [Hm | Hm]; cbn [negb].
  2: { apply returns_done. right. split; [done |]. cbn. intros [_ [-> | H0]]; [done |]. destruct allow; [done |]. exact (Hm H0). }
  rewrite !chk64_ok by (unfold INT64_MIN; lia). run. rewrite chk64_ok by (unfold INT64_MIN; lia). run.
  unfold cdiv. rewrite (proj2 (Z.eqb_neq size 0)) by lia. run. rewrite Z.quot_div_nonneg by lia.
  assert (Hadm : admissible (Fixed size allow) a) by (split; [done | destruct allow; auto]).
  destruct (requested_ok _ a Hwf Hargs Hadm) as (Hb & H0 & Hl). fold (fixedCount size n).
  assert (Hc : 1 <= fixedCount size n /\ size * fixedCount size n <= n + size - 1).
  { unfold fixedCount. split; [apply Z.div_le_lower_bound; lia |]. apply Z.mul_div_le. lia. }
  assert (Hcells : cells (requested (Fixed size allow) a) = fixedCount size n).
  { unfold cells. cbn [requested]. rewrite length_fmap, length_seqZ. fold n. lia. }
  rewrite <- Hcells, (writeBounds_ok a); [| done | done | done |].
  - run. apply returns_done. left. done.
  - intros i Hi. unfold fixedBound. rewrite Hcells in Hi. rewrite chk64_ok by (unfold INT64_MIN; nia). run.
    cbn [requested]. fold n. rewrite nthZ_fmap_seqZ by lia. rewrite chk64_ok; [do 2 f_equal; split_bools; lia |].
    split_bools; nia.
Qed.

Lemma flexible_ok (count : Z) (a : esdm_axis_t) :
  axis_wf a -> arguments_ok (Flexible count) a ->
  returns (subdivideFlexible_axis count a) (subdivided (Flexible count) a).
Proof.
  intros Hwf Hargs. pose proof Hargs as (Hlo & Hhi & Hc & H2). pose proof (axis_nonempty a Hwf).
  unfold subdivideFlexible_axis. set (n := outerHigh a - outerLow a) in *.
  rewrite chk64_ok by (unfold INT64_MIN; nia). run. destruct (Z.ltb_spec n count) as [Hlt | Hge].
  { apply returns_done. right. split; [done |]. cbn. lia. }
  assert (Hadm : admissible (Flexible count) a) by (cbn; lia).
  destruct (requested_ok _ a Hwf Hargs Hadm) as (Hb & H0 & Hl).
  assert (Hcells : cells (requested (Flexible count) a) = count).
  { unfold cells. cbn [requested]. rewrite length_fmap, length_seqZ. lia. }
  rewrite <- Hcells at 1. rewrite (writeBounds_ok a); [| done | done | done |].
  - run. apply returns_done. left. done.
  - intros i Hi. unfold flexibleBound, cdiv. rewrite Hcells in Hi. rewrite chk64_ok by (unfold INT64_MIN; nia). run.
    rewrite (proj2 (Z.eqb_neq count 0)) by lia. run. rewrite Z.quot_div_nonneg by nia.
    cbn [requested]. fold n. rewrite nthZ_fmap_seqZ by lia. apply chk64_ok.
    assert (0 <= n * i / count <= n); [| lia]. split; [apply Z.div_pos; nia |]. apply Z.div_le_upper_bound; nia.
Qed.

Lemma explicit_ok (bounds : list Z) (a : esdm_axis_t) :
  axis_wf a -> arguments_ok (Explicit bounds) a ->
  returns (subdivide_axis (cells bounds) bounds a) (subdivided (Explicit bounds) a).
Proof.
  intros Hwf (Hlo & Hhi & Hlen & _). unfold subdivide_axis, cells.
  assert (Hnth : forall k, (k < length bounds)%nat -> bounds !! k = Some (nthZ bounds k)).
  { intros k Hk. destruct (lookup_lt_is_Some_2 bounds k Hk) as [x Hx]. unfold nthZ. by rewrite Hx. }
  rewrite (Hnth 0%nat) by lia. run. destruct (Z.eqb_spec (nthZ bounds 0) (outerLow a)) as [H0 | H0]; cbn [negb].
  2: { apply returns_done. right. split; [done |]. cbn. tauto. }
  replace (Z.to_nat (Z.of_nat (length bounds) - 1)) with (length bounds - 1)%nat by lia.
  rewrite (Hnth (length bounds - 1)%nat) by lia. run. destruct (Z.eqb_spec (nthZ bounds (length bounds - 1)) (outerHigh a)) as [Hl | Hl]; cbn [negb].
  2: { apply returns_done. right. split; [done |]. cbn. tauto. }
  destruct (notIncreasing_ok (length bounds - 1) bounds) as (bad & -> & Hbad); [lia |]. run.
  destruct bad; apply returns_done.
  - right. split; [done |]. intros ((Hs & _) & _). by apply Hbad in Hs.
  - left. assert (Hs : StronglySorted Z.lt bounds) by (by apply Hbad). split; [| by repeat split].
    cbn [requested]. unfold axisOf, cells. rewrite H0, Hl. rewrite take_ge by lia. done.
Qed.

Lemma subdivide_ok (op : subdivision) (g : esdm_grid_t) (dim : Z) (a : esdm_axis_t) :
  grid_wf g -> grid g = None -> 0 <= dim < dimCount g -> axes g !! Z.to_nat dim = Some a -> arguments_ok op a ->
  exists st g', subdivideBy op g dim = Done (st, g') /\ grid_wf g' /\ grid g' = None /\ domain g' = domain g /\
    ((st = ESDM_SUCCESS /\ admissible op a /\ allBounds <$> axes g' = <[Z.to_nat dim := requested op a]> (allBounds <$> axes g)) \/
     (st = ESDM_INVALID_ARGUMENT_ERROR /\ ~ admissible op a /\ g' = g)).
Proof.
  intros Hwf Hg Hdim Ha Hargs. pose proof (Forall_lookup_1 _ _ _ _ (gw_axes _ Hwf) Ha) as Hax.
  destruct op as [size allow | count | bounds]; cbn [subdivideBy].
  - apply (subdivideAxis_ok _ g dim a); try done. by apply fixed_ok.
  - apply (subdivideAxis_ok _ g dim a); try done. by apply flexible_ok.
  - unfold esdm_grid_subdivide. rewrite eassert_true.
    + run. apply (subdivideAxis_ok _ g dim a); try done. by apply explicit_ok.
    + destruct Hargs as (_ & _ & Hlen & _). apply Z.ltb_lt. unfold cells. lia.
Qed.

(** On a grid whose axes are well-formed and whose cells are not allocated yet, each of the
    three subdivision functions either installs exactly the requested bounds on the axis and
    keeps every other axis, or reports [ESDM_INVALID_ARGUMENT_ERROR] and changes nothing; it
    succeeds exactly for admissible arguments, and always leaves well-formed axes and the same
    domain. *)
Theorem subdivision_correct (op : subdivision) (g : esdm_grid_t) (dim : Z) (a : esdm_axis_t) :
  grid_wf g -> grid g = None -> 0 <= dim < dimCount g -> axes g !! Z.to_nat dim = Some a -> arguments_ok op a ->
  exists st g', subdivideBy op g dim = Done (st, g') /\ grid_wf g' /\ grid g' = None /\ domain g' = domain g /\
    ((st = ESDM_SUCCESS /\ admissible op a /\ allBounds <$> axes g' = <[Z.to_nat dim := requested op a]> (allBounds <$> axes g)) \/
     (st = ESDM_INVALID_ARGUMENT_ERROR /\ ~ admissible op a /\ g' = g)).
Proof. apply subdivide_ok. Qed.

End Subdivide.

Lemma subdivision_correct_witness :
  exists st g', subdivideBy (F := unit) (Fixed 3 true) (Grid 2 None 0 None [Axis 1 0 10 None; Axis 1 5 9 None]) 0 = Done (st, g') /\
    grid_wf g' /\ grid g' = None /\ domain g' = [Range 0 10; Range 5 9] /\
    ((st = ESDM_SUCCESS /\ admissible (Fixed 3 true) (Axis 1 0 10 None) /\ allBounds <$> axes g' = [[0; 3; 6; 9; 10]; [5; 9]]) \/
     (st = ESDM_INVALID_ARGUMENT_ERROR /\ ~ admissible (Fixed 3 true) (Axis 1 0 10 None) /\
      g' = Grid 2 None 0 None [Axis 1 0 10 None; Axis 1 5 9 None])).
Proof.
  apply (subdivision_correct (F := unit) (Fixed 3 true) (Grid 2 None 0 None [Axis 1 0 10 None; Axis 1 5 9 None]) 0 (Axis 1 0 10 None)).
  - constructor; [done | done |]. repeat apply Forall_cons_2; try apply Forall_nil_2.
    + exact (axisOf_wf [0; 10] ltac:(split; [by repeat constructor | simpl; lia])).
    + exact (axisOf_wf [5; 9] ltac:(split; [by repeat constructor | simpl; lia])).
  - done.
  - done.
  - done.
  - repeat split; by vm_compute.
Defined.

(** [esdm_grid_subdivideFlexible()] does not reject a count of zero: it divides by it, which is
    undefined behaviour, and a count of [-1] is accepted as a success that leaves an axis with a
    negative number of intervals. *)
Lemma subdivide_flexible_bad_count :
  let g := Grid (F := unit) 1 None 0 None [Axis 1 0 10 None] in
  esdm_grid_subdivideFlexible g 0 0 = Undef /\
  esdm_grid_subdivideFlexible g 0 (-1) = Done (ESDM_SUCCESS, Grid 1 None 0 None [Axis (-1) 0 10 (Some [])]).
Proof. split; reflexivity. Qed.

(** * The cells of a grid *)

Definition index_ok (axs : list esdm_axis_t) (index : list Z) : Prop :=
  Forall2 (fun i a => 0 <= i < intervals a) index axs.

(** The index of cell number [j]; the last axis runs fastest. *)
Definition coordinates (axs : list esdm_axis_t) (j : Z) : list Z := rev (digits (rev (intervals <$> axs)) j).

(** The hypercube of the cell with a given index. *)
Definition cellOf (axs : list esdm_axis_t) (index : list Z) : esdmI_hypercube_t :=
  zip_with (fun a i => cell_range (allBounds a) i) axs index.

Definition cellTotal (axs : list esdm_axis_t) : Z := prod (intervals <$> axs).

Definition axisBounds (axs : list esdm_axis_t) (d : nat) : list Z := from_option allBounds [] (axs !! d).

Lemma list_eq_nthZ (k l : list Z) :
  length k = length l -> (forall d, (d < length l)%nat -> nthZ k d = nthZ l d) -> k = l.
Proof.
  intros Hl H. rewrite <- (nthZ_seq k), <- (nthZ_seq l), Hl. apply list_fmap_ext.
  intros i d Hd. apply lookup_seq in Hd as [-> Hd]. apply H. lia.
Qed.

Section CellFacts.

Context (axs : list esdm_axis_t) (Hwf : Forall axis_wf axs).

Lemma intervals_pos : Forall (fun n => 0 < n) (rev (intervals <$> axs)).
Proof.
  apply Forall_rev, Forall_fmap. eapply Forall_impl; [exact Hwf |]. intros a Ha. unfold compose.
  pose proof (axis_intervals_pos a Ha). lia.
Qed.

Lemma cellTotal_rev : prod (rev (intervals <$> axs)) = cellTotal axs.
Proof. unfold cellTotal. by rewrite <- Permutation_rev. Qed.

Lemma cellTotal_pos : 0 < cellTotal axs.
Proof. rewrite <- cellTotal_rev. apply prod_pos, intervals_pos. Qed.

Lemma coordinates_ok (j : Z) : index_ok axs (coordinates axs j).
Proof.
  pose proof (Forall2_rev _ _ _ (digits_bounds _ j intervals_pos)) as H. rewrite rev_involutive in H.
  by apply Forall2_fmap_r in H.
Qed.

Lemma coordinates_onto (index : list Z) :
  index_ok axs index -> exists j, 0 <= j < cellTotal axs /\ coordinates axs j = index.
Proof.
  intros H. destruct (digits_onto (rev (intervals <$> axs)) (rev index)) as (j & Hj & Ej).
  { apply Forall2_rev. by apply Forall2_fmap_r. }
  exists j. rewrite <- cellTotal_rev. split; [done |]. unfold coordinates. by rewrite Ej, rev_involutive.
Qed.

Lemma coordinates_inj (j k : Z) :
  0 <= j < cellTotal axs -> 0 <= k < cellTotal axs -> coordinates axs j = coordinates axs k -> j = k.
Proof.
  rewrite <- cellTotal_rev. intros Hj Hk E. apply (digits_inj _ j k intervals_pos Hj Hk).
  unfold coordinates in E. by rewrite <- (rev_involutive (digits _ j)), E, rev_involutive.
Qed.

Lemma axisBounds_ok (d : nat) : (d < length axs)%nat -> bounds_ok (axisBounds axs d).
Proof.
  intros Hd. destruct (lookup_lt_is_Some_2 axs d Hd) as [a Ha]. unfold axisBounds. rewrite Ha.
  exact (aw_bounds _ (Forall_lookup_1 _ _ _ _ Hwf Ha)).
Qed.

Lemma axisBounds_cells (d : nat) (a : esdm_axis_t) : axs !! d = Some a -> cells (axisBounds axs d) = intervals a.
Proof. intros Ha. unfold axisBounds. rewrite Ha. symmetry. exact (aw_intervals _ (Forall_lookup_1 _ _ _ _ Hwf Ha)). Qed.

Lemma cellOf_cellcube (index : list Z) :
  length index = length axs -> cellOf axs index = cellcube (length axs) (axisBounds axs) (nthZ index).
Proof.
  intros Hl. apply list_eq. intros d. unfold cellOf, cellcube. rewrite lookup_zip_with, list_lookup_fmap.
  destruct (axs !! d) as [a |] eqn:Ea.
  - apply lookup_lt_Some in Ea as Hd. destruct (lookup_lt_is_Some_2 index d) as [i Hi]; [lia |].
    rewrite lookup_seq_lt, Hi by done. simpl. unfold axisBounds. rewrite Ea. do 2 f_equal. unfold nthZ. by rewrite Hi.
  - apply lookup_ge_None in Ea. by rewrite lookup_seq_ge.
Qed.

Lemma in_cells_index (index : list Z) :
  index_ok axs index -> in_cells (length axs) (axisBounds axs) (nthZ index).
Proof.
  intros H d Hd. destruct (lookup_lt_is_Some_2 axs d Hd) as [a Ha]. rewrite (axisBounds_cells d a Ha).
  destruct (Forall2_lookup_r _ _ _ _ _ H Ha) as (i & Hi & Hb). unfold nthZ. by rewrite Hi.
Qed.

Lemma domain_wholecube : (fun a => Range (outerLow a) (outerHigh a)) <$> axs = wholecube (length axs) (axisBounds axs).
Proof.
  apply list_eq. intros d. unfold wholecube. rewrite !list_lookup_fmap. destruct (axs !! d) as [a |] eqn:Ea.
  - apply lookup_lt_Some in Ea as Hd. rewrite lookup_seq_lt by done. simpl. unfold axisBounds. rewrite Ea. simpl.
    destruct (Forall_lookup_1 _ _ _ _ Hwf Ea) as [_ _ -> -> _]. done.
  - apply lookup_ge_None in Ea. by rewrite lookup_seq_ge.
Qed.

Lemma cells_partition_axes :
  partitions ((fun j => cellOf axs (coordinates axs j)) <$> seqZ 0 (cellTotal axs))
    ((fun a => Range (outerLow a) (outerHigh a)) <$> axs).
Proof.
  rewrite domain_wholecube.
  assert (E : (fun j => cellOf axs (coordinates axs j)) <$> seqZ 0 (cellTotal axs) =
    cellcube (length axs) (axisBounds axs) <$> ((fun j => nthZ (coordinates axs j)) <$> seqZ 0 (cellTotal axs))).
  { rewrite <- list_fmap_compose. apply list_fmap_ext. intros i j _. unfold compose.
    apply cellOf_cellcube. exact (Forall2_length _ _ _ (coordinates_ok j)). }
  rewrite E. apply (cells_partition _ _ axisBounds_ok).
  - intros i (j & -> & _)%list_elem_of_fmap. apply in_cells_index, coordinates_ok.
  - intros i Hi. destruct (coordinates_onto (i <$> seq 0 (length axs))) as (j & Hj & Ej).
    { apply Forall2_fmap_l, Forall2_same_length_lookup_2; [by rewrite length_seq |].
      intros d x a Hx Ha. apply lookup_seq in Hx as [-> Hx]. unfold compose. simpl. rewrite <- (axisBounds_cells d a Ha). by apply Hi. }
    exists (nthZ (coordinates axs j)). split.
    + apply list_elem_of_fmap. exists j. split; [done |]. apply elem_of_seqZ. lia.
    + intros d Hd. rewrite Ej. unfold nthZ. by rewrite list_lookup_fmap, lookup_seq_lt.
  - intros k l i i' Hk Hl Heq. apply list_lookup_fmap_Some in Hk as (j & -> & Hj).
    apply list_lookup_fmap_Some in Hl as (j' & -> & Hj'). apply lookup_seqZ in Hj as [-> Hj]. apply lookup_seqZ in Hj' as [-> Hj'].
    assert (0 + Z.of_nat k = 0 + Z.of_nat l); [| lia]. apply coordinates_inj; [lia | lia |].
    pose proof (Forall2_length _ _ _ (coordinates_ok (0 + Z.of_nat k))). pose proof (Forall2_length _ _ _ (coordinates_ok (0 + Z.of_nat l))) as E'.
    apply list_eq_nthZ; [lia |]. rewrite E'. exact Heq.
Qed.

End CellFacts.

(** * The index functions *)

Lemma mul_ge_one_le (a b m : Z) : 0 <= a -> 1 <= b -> a * b <= m -> a <= m.
Proof. intros Ha Hb Hm. nia. Qed.

Lemma cellCount_loop_ok (axs : list esdm_axis_t) (c : Z) :
  Forall axis_wf axs -> 1 <= c -> c * cellTotal axs <= INT64_MAX -> cellCount_loop axs c = Done (c * cellTotal axs).
Proof.
  intros Hwf. revert c. induction Hwf as [| a axs Ha Hwf IH]; intros c Hc Hm; cbn [cellCount_loop].
  { unfold cellTotal. simpl. by rewrite Z.mul_1_r. }
  pose proof (axis_intervals_pos a Ha). pose proof (cellTotal_pos axs Hwf).
  unfold cellTotal in *. rewrite fmap_cons in *. change (prod (intervals a :: ?l)) with (intervals a * prod l) in *.
  rewrite chk64_ok by (unfold INT64_MIN; nia). run. rewrite IH by nia. f_equal. lia.
Qed.

Fixpoint horner (axs : list esdm_axis_t) (index : list Z) (acc : Z) : Z :=
  match axs, index with
  | a :: axs', i :: index' => horner axs' index' (acc * intervals a + i)
  | _, _ => acc
  end.

Lemma horner_snoc (axs : list esdm_axis_t) (index : list Z) (a : esdm_axis_t) (i acc : Z) :
  length index = length axs -> horner (axs ++ [a]) (index ++ [i]) acc = horner axs index acc * intervals a + i.
Proof.
  revert index acc. induction axs as [| b axs IH]; intros [| k index] acc Hl; simpl in Hl; try lia; [done |].
  cbn [app horner]. apply IH. lia.
Qed.

Lemma coordinates_horner (axs : list esdm_axis_t) (index : list Z) :
  index_ok axs index -> 0 <= horner axs index 0 < cellTotal axs /\ coordinates axs (horner axs index 0) = index.
Proof.
  revert index. induction axs as [| a axs IH] using rev_ind; intros index Hi.
  { apply Forall2_nil_inv_r in Hi as ->. done. }
  apply Forall2_app_inv_r in Hi as (index' & k & Hi & Hk & ->).
  apply Forall2_cons_inv_r in Hk as (i & k' & Hia & Hk & ->). apply Forall2_nil_inv_r in Hk as ->.
  destruct (IH index' Hi) as [Hb He]. pose proof (Forall2_length _ _ _ Hi) as Hl. rewrite horner_snoc by done.
  set (h := horner axs index' 0) in *. unfold cellTotal, coordinates in *.
  rewrite fmap_app. change (intervals <$> [a]) with [intervals a]. rewrite rev_unit. cbn [digits rev].
  rewrite Z.add_comm, Z.mod_add, Z.div_add, Z.mod_small, Z.div_small by lia. rewrite Z.add_0_l, He. split; [| done].
  rewrite (Permutation_app_comm (intervals <$> axs)). cbn [app]. change (prod (intervals a :: ?l)) with (intervals a * prod l). nia.
Qed.

Lemma linearIndex_loop_ok (axs : list esdm_axis_t) (index : list Z) (acc : Z) :
  Forall axis_wf axs -> index_ok axs index -> 0 <= acc -> (acc + 1) * cellTotal axs <= INT64_MAX ->
  linearIndex_loop axs index acc = Done (horner axs index acc).
Proof.
  intros Hwf Hi. revert acc. induction Hi as [| i a index axs Hia Hi IH]; intros acc Hacc Hm; [done |].
  apply Forall_cons in Hwf as [Ha Hwf]. cbn [linearIndex_loop horner].
  rewrite (proj2 (Z.ltb_ge i 0)), Z.geb_leb, (proj2 (Z.leb_gt _ i)) by lia. cbn [orb].
  pose proof (cellTotal_pos axs Hwf). unfold cellTotal in *. rewrite fmap_cons in Hm.
  change (prod (intervals a :: ?l)) with (intervals a * prod l) in Hm.
  assert (acc * intervals a + i + 1 <= (acc + 1) * intervals a) by lia.
  assert ((acc * intervals a + i + 1) * prod (intervals <$> axs) <= INT64_MAX) by nia.
  assert (0 <= acc * intervals a) by nia.
  assert (acc * intervals a + i + 1 <= INT64_MAX) by (apply (mul_ge_one_le _ (prod (intervals <$> axs))); lia).
  rewrite chk64_ok by (unfold INT64_MIN; lia). run. rewrite chk64_ok by (unfold INT64_MIN; lia). run.
  apply IH; [done | nia | done].
Qed.

Lemma linearIndex_loop_bad (axs : list esdm_axis_t) (index : list Z) (acc : Z) :
  Forall axis_wf axs -> length index = length axs -> ~ index_ok axs index -> 0 <= acc -> (acc + 1) * cellTotal axs <= INT64_MAX ->
  linearIndex_loop axs index acc = Done (-1).
Proof.
  intros Hwf. revert index acc. induction Hwf as [| a axs Ha Hwf IH]; intros [| i index] acc Hl Hbad Hacc Hm; simpl in Hl; try lia.
  { destruct Hbad. constructor. }
  cbn [linearIndex_loop]. rewrite Z.geb_leb. destruct (Z.ltb_spec i 0), (Z.leb_spec (intervals a) i); try done. cbn [orb].
  pose proof (cellTotal_pos axs Hwf). pose proof (axis_intervals_pos a Ha). unfold cellTotal in *. rewrite fmap_cons in Hm.
  change (prod (intervals a :: ?l)) with (intervals a * prod l) in Hm.
  assert ((acc * intervals a + i + 1) * prod (intervals <$> axs) <= INT64_MAX) by nia.
  assert (0 <= acc * intervals a) by nia.
  assert (acc * intervals a + i + 1 <= INT64_MAX) by (apply (mul_ge_one_le _ (prod (intervals <$> axs))); lia).
  rewrite chk64_ok by (unfold INT64_MIN; lia). run. rewrite chk64_ok by (unfold INT64_MIN; lia). run.
  apply IH; [lia | | nia | done]. intros H'. apply Hbad. by constructor.
Qed.

Lemma indexCoordinates_loop_ok (axs : list esdm_axis_t) (j : Z) (out : list Z) :
  Forall (fun a => 0 < intervals a) axs -> 0 <= j < cellTotal axs ->
  indexCoordinates_loop axs j out = Done (rev (digits (intervals <$> axs) j) ++ out).
Proof.
  intros Hp. revert j out. induction Hp as [| a axs Ha Hp IH]; intros j out Hj; cbn [indexCoordinates_loop].
  { unfold cellTotal in Hj. simpl in Hj. assert (j = 0) as -> by lia. done. }
  unfold cellTotal in *. rewrite fmap_cons in *. change (prod (intervals a :: ?l)) with (intervals a * prod l) in Hj.
  unfold crem, cdiv. rewrite (proj2 (Z.eqb_neq _ 0)) by lia. run. rewrite Z.rem_mod_nonneg, Z.quot_div_nonneg by lia.
  rewrite IH by (split; [apply Z.div_pos; lia | apply Z.div_lt_upper_bound; lia]).
  cbn [digits rev]. by rewrite <- app_assoc.
Qed.

Lemma cellSize_loop_ok (axs : list esdm_axis_t) (index : list Z) :
  Forall axis_wf axs -> Forall axis_int64 axs -> index_ok axs index ->
  cellSize_loop axs index = Done (Some (rstart <$> cellOf axs index, (fun r => rend r - rstart r) <$> cellOf axs index)).
Proof.
  intros Hwf H64 Hi. induction Hi as [| i a index axs Hia Hi IH]; [done |].
  apply Forall_cons in Hwf as [Ha Hwf]. apply Forall_cons in H64 as [[H1 H2 H3] H64]. cbn [cellSize_loop].
  rewrite (proj2 (Z.ltb_ge i 0)), Z.geb_leb, (proj2 (Z.leb_gt _ i)) by lia. cbn [orb].
  rewrite !(axis_bound a Ha) by lia. run.
  pose proof (axis_bound_le a Ha 0 i ltac:(lia) ltac:(lia)) as Hlo. pose proof (axis_bound_le a Ha (i + 1) (intervals a) ltac:(lia) ltac:(lia)) as Hhi.
  rewrite <- (axis_last a Ha) in Hhi. change (Z.to_nat 0) with 0%nat in Hlo. rewrite <- (aw_low _ Ha) in Hlo.
  pose proof (axis_bound_lt a Ha i (i + 1) ltac:(lia) ltac:(lia)). pose proof (axis_nonempty a Ha).
  rewrite chk64_ok by (unfold INT64_MIN; nia). run. rewrite IH by done. run.
  unfold cellOf. cbn [zip_with]. rewrite !fmap_cons, axis_cell_range by lia. done.
Qed.

Section IndexClaims.

Context {F : Type}.

Notation esdm_grid_t := (esdm_grid_t F).

(** The products of the axes stay within an [int64_t]. *)
Record grid_int64 (g : esdm_grid_t) : Prop := {
  gi_axes : Forall axis_int64 (axes g);
  gi_cells : cellTotal (axes g) <= INT64_MAX
}.

Lemma cellCount_ok (g : esdm_grid_t) :
  grid_wf g -> grid_int64 g -> esdmI_grid_cellCount g = Done (cellTotal (axes g)).
Proof.
  intros [_ _ Hwf] [_ Hc]. unfold esdmI_grid_cellCount. rewrite cellCount_loop_ok by (done || lia). f_equal. lia.
Qed.

Lemma indexCoordinates_ok (g : esdm_grid_t) (j : Z) :
  grid_wf g -> 0 <= j < cellTotal (axes g) -> esdm_grid_indexCoordinates g j = Done (coordinates (axes g) j).
Proof.
  intros [_ _ Hwf] Hj. unfold esdm_grid_indexCoordinates, coordinates. rewrite indexCoordinates_loop_ok.
  - by rewrite app_nil_r, fmap_rev.
  - apply Forall_rev. eapply Forall_impl; [exact Hwf |]. intros a Ha. pose proof (axis_intervals_pos a Ha). simpl. lia.
  - unfold cellTotal in *. by rewrite fmap_rev, <- Permutation_rev.
Qed.

Lemma linearIndex_ok (g : esdm_grid_t) (index : list Z) :
  grid_wf g -> grid_int64 g -> index_ok (axes g) index ->
  esdm_grid_linearIndex g index = Done (horner (axes g) index 0).
Proof. intros [_ _ Hwf] [_ Hc] Hi. apply linearIndex_loop_ok; [done | done | lia | lia]. Qed.

Lemma cellSize_ok (g : esdm_grid_t) (index : list Z) :
  grid_wf g -> grid_int64 g -> index_ok (axes g) index ->
  esdm_grid_cellSize g index =
    Done (Some (rstart <$> cellOf (axes g) index, (fun r => rend r - rstart r) <$> cellOf (axes g) index)).
Proof. intros [_ _ Hwf] [H64 _] Hi. by apply cellSize_loop_ok. Qed.

(** The numbering of the cells is a bijection: [esdm_grid_indexCoordinates()] maps every number
    below the cell count to an index inside the grid and [esdm_grid_linearIndex()] maps that index
    back; [esdm_grid_linearIndex()] maps every index inside the grid to a number below the cell
    count that [esdm_grid_indexCoordinates()] maps back, and reports [-1] for an index outside. *)
Theorem grid_index_roundtrip (g : esdm_grid_t) :
  grid_wf g -> grid_int64 g ->
  exists n, esdmI_grid_cellCount g = Done n /\
  (forall j, 0 <= j < n -> exists index,
     esdm_grid_indexCoordinates g j = Done index /\ index_ok (axes g) index /\ esdm_grid_linearIndex g index = Done j) /\
  (forall index, index_ok (axes g) index -> exists j,
     esdm_grid_linearIndex g index = Done j /\ 0 <= j < n /\ esdm_grid_indexCoordinates g j = Done index) /\
  (forall index, length index = length (axes g) -> ~ index_ok (axes g) index -> esdm_grid_linearIndex g index = Done (-1)).
Proof.
  intros Hwf H64. exists (cellTotal (axes g)). pose proof (gw_axes _ Hwf) as Hax. split; [by apply cellCount_ok |]. split; [| split].
  - intros j Hj. exists (coordinates (axes g) j). pose proof (coordinates_ok _ Hax j) as Hi.
    split; [by apply indexCoordinates_ok |]. split; [done |]. rewrite linearIndex_ok by done. f_equal.
    destruct (coordinates_horner _ _ Hi) as [Hb He]. by apply (coordinates_inj _ Hax).
  - intros index Hi. destruct (coordinates_horner _ _ Hi) as [Hb He]. exists (horner (axes g) index 0).
    split; [by apply linearIndex_ok |]. split; [done |]. by rewrite indexCoordinates_ok, He.
  - intros index Hl Hbad. destruct H64 as [_ Hc]. apply linearIndex_loop_bad; [done | done | done | lia | lia].
Qed.

Lemma cellRange_int64 (g : esdm_grid_t) (index : list Z) :
  grid_wf g -> grid_int64 g -> index_ok (axes g) index ->
  Forall (fun r => INT64_MIN <= rstart r < rend r /\ rend r <= INT64_MAX /\ rend r - rstart r <= INT64_MAX) (cellOf (axes g) index).
Proof.
  intros [_ _ Hwf] [H64 _] Hi. revert H64. induction Hi as [| i a index axs Hia Hi IH]; intros H64; [constructor |].
  apply Forall_cons in Hwf as [Ha Hwf]. apply Forall_cons in H64 as [[H1 H2 H3] H64]. unfold cellOf. cbn [zip_with].
  constructor; [| by apply IH]. rewrite axis_cell_range by lia. simpl.
  pose proof (axis_bound_le a Ha 0 i ltac:(lia) ltac:(lia)) as Hlo. pose proof (axis_bound_le a Ha (i + 1) (intervals a) ltac:(lia) ltac:(lia)) as Hhi.
  rewrite <- (axis_last a Ha) in Hhi. change (Z.to_nat 0) with 0%nat in Hlo. rewrite <- (aw_low _ Ha) in Hlo.
  pose proof (axis_bound_lt a Ha i (i + 1) ltac:(lia) ltac:(lia)). pose proof (axis_nonempty a Ha).
  assert (outerHigh a - outerLow a <= INT64_MAX) by (apply (mul_ge_one_le _ (intervals a)); lia). lia.
Qed.

Lemma cellExtends_ok (g : esdm_grid_t) (index : list Z) :
  grid_wf g -> grid_int64 g -> index_ok (axes g) index -> esdm_grid_cellExtends g index = Done (Some (cellOf (axes g) index)).
Proof.
  intros Hwf H64 Hi. unfold esdm_grid_cellExtends. rewrite cellSize_ok by done. run.
  pose proof (cellRange_int64 g index Hwf H64 Hi) as Hr. pose proof (Forall2_length _ _ _ Hi) as Hl. destruct Hwf as [Hd _ _].
  assert (Hlc : length (cellOf (axes g) index) = length (axes g)) by (unfold cellOf; rewrite length_zip_with; lia).
  set (c := cellOf (axes g) index) in *.
  assert (E : esdmI_hypercube_make (dimCount g) (rstart <$> c) ((fun r => rend r - rstart r) <$> c) = Done c); [| by rewrite E].
  pose (space := Dataspace (Type_ 0 0) (dimCount g) ((fun r => rend r - rstart r) <$> c) (rstart <$> c) false None).
  assert (Ee : extends space = c).
  { unfold extends, space. simpl. clear -Hr. induction Hr as [| [lo hi] c H _ IH]; [done |]. cbn. f_equal; [| exact IH].
    f_equal. lia. }
  rewrite <- Ee at 3. apply (getExtends_ok space).
  - constructor; simpl; [lia | by rewrite length_fmap, Hlc | by rewrite length_fmap, Hlc | done].
  - unfold space_int64, space. simpl. clear -Hr. induction Hr as [| r c H _ IH]; [constructor |]. rewrite !fmap_cons.
    constructor; [lia | exact IH].
Qed.

(** The hypercube of cell number [j]. *)
Definition cellAt (g : esdm_grid_t) (j : Z) : outcome (option esdmI_hypercube_t) :=
  index ← esdm_grid_indexCoordinates g j; esdm_grid_cellExtends g index.

Lemma cellAt_ok (g : esdm_grid_t) (j : Z) :
  grid_wf g -> grid_int64 g -> 0 <= j < cellTotal (axes g) ->
  cellAt g j = Done (Some (cellOf (axes g) (coordinates (axes g) j))).
Proof.
  intros Hwf H64 Hj. unfold cellAt. rewrite indexCoordinates_ok by done. run. apply cellExtends_ok; [done | done |].
  apply coordinates_ok, Hwf.
Qed.

(** The cells of a grid partition its domain: the hypercubes that [esdm_grid_cellExtends()]
    returns for the cell numbers below [esdmI_grid_cellCount()] are non-empty and pairwise
    disjoint, and their union is exactly the domain of the grid. *)
Theorem grid_cells_partition (g : esdm_grid_t) :
  grid_wf g -> grid_int64 g ->
  exists n cubes, esdmI_grid_cellCount g = Done n /\ mapM (cellAt g) (seqZ 0 n) = Done (Some <$> cubes) /\
  partitions cubes (domain g).
Proof.
  intros Hwf H64. pose proof (gw_axes _ Hwf) as Hax.
  exists (cellTotal (axes g)), ((fun j => cellOf (axes g) (coordinates (axes g) j)) <$> seqZ 0 (cellTotal (axes g))).
  split; [by apply cellCount_ok |]. split; [| by apply cells_partition_axes].
  rewrite <- list_fmap_compose.
  assert (Hgen : forall l, (forall j, j ∈ l -> 0 <= j < cellTotal (axes g)) ->
    mapM (cellAt g) l = Done ((Some ∘ (fun j => cellOf (axes g) (coordinates (axes g) j))) <$> l)).
  { induction l as [| j l IH]; intros Hl; [done |]. rewrite mapM_cons. rewrite cellAt_ok by (done || (apply Hl; left)). run.
    rewrite IH by (intros; apply Hl; by right). done. }
  apply Hgen. intros j Hj%elem_of_seqZ. lia.
Qed.

(** * The cell of a dataspace *)

Definition range_inside (r r' : esdmI_range_t) : Prop := rstart r' <= rstart r /\ rend r <= rend r'.

Lemma matchInterval_ok (a : esdm_axis_t) (s e : Z) (short : bool) :
  axis_wf a -> axis_int64 a -> s < e ->
  exists k short', esdmI_axis_matchInterval a s e short = Done (k, short') /\
  ((0 <= k < intervals a /\ range_inside (Range s e) (cell_range (allBounds a) k) /\
    short' = short || negb (bool_decide (Range s e = cell_range (allBounds a) k))) \/
   (k < 0 /\ forall j, 0 <= j < intervals a -> ~ range_inside (Range s e) (cell_range (allBounds a) j))).
Proof.
  intros Hwf H64 Hlt. unfold esdmI_axis_matchInterval. rewrite Z.geb_leb, (proj2 (Z.leb_gt e s)), Z.gtb_ltb by lia.
  assert (Hin : forall j, 0 <= j < intervals a -> outerLow a <= rstart (cell_range (allBounds a) j) /\ rend (cell_range (allBounds a) j) <= outerHigh a).
  { intros j Hj. rewrite axis_cell_range by done. simpl. split.
    - rewrite (aw_low _ Hwf). change 0%nat with (Z.to_nat 0). apply axis_bound_le; [done | lia | lia].
    - rewrite (axis_last a Hwf). apply axis_bound_le; [done | lia | lia]. }
  destruct (Z.ltb_spec s (outerLow a)) as [H1 | H1]; cbn [orb].
  { exists (-1), short. split; [done |]. right. split; [done |]. intros j Hj [Ha Hb]. simpl in *. pose proof (Hin j Hj). lia. }
  destruct (Z.ltb_spec (outerHigh a) e) as [H2 | H2].
  { exists (-1), short. split; [done |]. right. split; [done |]. intros j Hj [Ha Hb]. simpl in *. pose proof (Hin j Hj). lia. }
  destruct (findInterval_ok a Hwf s H64 ltac:(lia)) as (k & -> & Hk & Hr). run.
  rewrite eassert_true by (apply Z.ltb_lt; lia). run. rewrite (proj2 (Z.ltb_ge k 0)), !(axis_bound a Hwf) by lia. run.
  rewrite Z.gtb_ltb. pose proof (axis_cell_range a k Hk) as Ec.
  destruct (Z.ltb_spec (nthZ (allBounds a) (Z.to_nat (k + 1))) e) as [H3 | H3].
  - exists (-1), short. split; [done |]. right. split; [done |]. intros j Hj Hins.
    assert (j = k); [| subst j; destruct Hins as [_ Hb]; rewrite Ec in Hb; simpl in Hb; lia].
    destruct Hwf as [Hb Hi _ _ _]. apply (cell_unique (allBounds a) s); try done; try lia.
    destruct Hins as [Hx Hy]. unfold in_range. simpl in *. lia.
  - eexists k, _. split; [done |]. left. split; [done |]. rewrite Ec in *. unfold in_range in Hr. simpl in Hr.
    split; [split; simpl; lia |]. rewrite Z.gtb_ltb.
    destruct (Z.ltb_spec (nthZ (allBounds a) (Z.to_nat k)) s), (Z.ltb_spec e (nthZ (allBounds a) (Z.to_nat (k + 1)))); cbn [orb];
      destruct (bool_decide_reflect (Range s e = Range (nthZ (allBounds a) (Z.to_nat k)) (nthZ (allBounds a) (Z.to_nat (k + 1)))));
      destruct short; simplify_eq; try done; try lia. exfalso. apply n. f_equal; lia.
Qed.

Lemma findCell_loop_ok (axs : list esdm_axis_t) (os ss : list Z) (short : bool) :
  Forall axis_wf axs -> Forall axis_int64 axs -> length os = length axs -> length ss = length axs ->
  Forall2 (fun o s => 1 <= s /\ INT64_MIN <= o + s <= INT64_MAX) os ss ->
  exists r short', findCell_loop axs os ss short = Done (r, short') /\
  match r with
  | Some index => index_ok axs index /\ Forall2 range_inside (box os ss) (cellOf axs index) /\
                  short' = short || negb (bool_decide (box os ss = cellOf axs index))
  | None => forall index, index_ok axs index -> ~ Forall2 range_inside (box os ss) (cellOf axs index)
  end.
Proof.
  intros Hwf. revert os ss short. induction Hwf as [| a axs Ha Hwf IH]; intros [| o os] [| s ss] short H64 Hlo Hls Hos; simpl in Hlo, Hls; try lia.
  { exists (Some []), short. split; [done |]. split; [constructor |]. split; [constructor |]. by destruct short. }
  apply Forall_cons in H64 as [Ha64 H64]. apply Forall2_cons in Hos as [[Hs Hsum] Hos]. cbn [findCell_loop].
  rewrite chk64_ok by lia. run.
  destruct (matchInterval_ok a o (o + s) short Ha Ha64 ltac:(lia)) as (k & sh & -> & [(Hk & Hin & ->) | [Hk Hno]]); run.
  - rewrite (proj2 (Z.ltb_ge k 0)) by lia.
    destruct (IH os ss (short || negb (bool_decide (Range o (o + s) = cell_range (allBounds a) k))) H64 ltac:(lia) ltac:(lia) Hos)
      as (r & sh & -> & Hr). run. destruct r as [index |].
    + eexists (Some (k :: index)), _. split; [done |]. destruct Hr as (Hi & Hf & ->). split; [by constructor |].
      split; [by constructor |]. unfold box, cellOf. cbn [zip_with]. fold (box os ss). fold (cellOf axs index).
      destruct short; [done |]. cbn [orb].
      destruct (bool_decide_reflect (Range o (o + s) = cell_range (allBounds a) k)) as [-> | Hne]; cbn [negb orb].
      * destruct (bool_decide_reflect (box os ss = cellOf axs index)) as [-> | Hne']; [by rewrite bool_decide_eq_true_2 |].
        rewrite bool_decide_eq_false_2; [done |]. congruence.
      * rewrite bool_decide_eq_false_2; [done |]. congruence.
    + eexists None, _. split; [done |]. intros index Hi Hf. apply Forall2_cons_inv_r in Hi as (i & index' & _ & Hi & ->).
      apply Forall2_cons in Hf as [_ Hf]. by apply (Hr index').
  - rewrite (proj2 (Z.ltb_lt k 0)) by lia. eexists None, _. split; [done |].
    intros index Hi Hf. apply Forall2_cons_inv_r in Hi as (i & index' & Hia & Hi & ->).
    apply Forall2_cons in Hf as [Hf _]. by apply (Hno i).
Qed.

Lemma findCell_ok (g : esdm_grid_t) (space : esdm_dataspace_t) :
  grid_wf g -> grid_int64 g -> space_wf space -> space_int64 space -> dims space = dimCount g ->
  Forall (fun s => 1 <= s) (size space) ->
  exists r tooSmall, esdmI_grid_findCell g space = Done (r, tooSmall) /\
  match r with
  | Some index => index_ok (axes g) index /\ Forall2 range_inside (extends space) (cellOf (axes g) index) /\
                  (tooSmall = false <-> extends space = cellOf (axes g) index)
  | None => forall index, index_ok (axes g) index -> ~ Forall2 range_inside (extends space) (cellOf (axes g) index)
  end.
Proof.
  intros Hwf H64 Hsw Hs64 Hdims Hs. pose proof Hwf as [Hd _ Hax]. pose proof Hsw as [_ Hls Hlo _].
  destruct (findCell_loop_ok (axes g) (offset space) (size space) false Hax (gi_axes _ H64)) as (r & sh & E & Hr); [lia | lia | |].
  { pose proof (Forall2_length _ _ _ Hs64) as Hl. clear -Hs Hs64. unfold space_int64 in Hs64.
    induction Hs64 as [| o s os ss H _ IH]; [constructor |]. apply Forall_cons in Hs as [Hs Hss].
    constructor; [unfold INT64_MIN in *; lia | by apply IH]. }
  exists r, sh. split; [exact E |]. destruct r as [index |]; [| exact Hr]. destruct Hr as (Hi & Hf & ->).
  split; [done |]. split; [done |]. cbn [orb]. change (extends space) with (box (offset space) (size space)).
  destruct (bool_decide_reflect (box (offset space) (size space) = cellOf (axes g) index)) as [-> | Hne]; cbn; [done |].
  split; [done |]. intros. contradiction.
Qed.

(** [esdmI_grid_findCell()] for a non-empty dataspace of the rank of the grid returns the index
    of the cell that contains the dataspace and sets the flag exactly when the dataspace is
    smaller than the cell; it reports an error exactly when no cell contains the dataspace. *)
Theorem findCell_correct (g : esdm_grid_t) (space : esdm_dataspace_t) :
  grid_wf g -> grid_int64 g -> space_wf space -> space_int64 space -> dims space = dimCount g ->
  Forall (fun s => 1 <= s) (size space) ->
  exists r tooSmall, esdmI_grid_findCell g space = Done (r, tooSmall) /\
  match r with
  | Some index => index_ok (axes g) index /\ Forall2 range_inside (extends space) (cellOf (axes g) index) /\
                  (tooSmall = false <-> extends space = cellOf (axes g) index)
  | None => forall index, index_ok (axes g) index -> ~ Forall2 range_inside (extends space) (cellOf (axes g) index)
  end.
Proof. apply findCell_ok. Qed.

End IndexClaims.

(** A grid used in the witnesses. *)
Definition exampleGrid : esdm_grid_t unit := Grid 2 None 0 None [axisOf [0; 3; 6; 9; 10]; axisOf [5; 9]].

Lemma exampleGrid_wf : grid_wf exampleGrid.
Proof.
  constructor; [done | done |]. repeat apply Forall_cons_2; try apply Forall_nil_2;
    (apply axisOf_wf; split; [by repeat constructor | simpl; lia]).
Qed.

Lemma exampleGrid_int64 : grid_int64 exampleGrid.
Proof. constructor; [| by vm_compute]. repeat apply Forall_cons_2; try apply Forall_nil_2; constructor; by vm_compute. Qed.

Lemma grid_index_roundtrip_witness :
  exists n, esdmI_grid_cellCount exampleGrid = Done n /\
  (forall j, 0 <= j < n -> exists index,
     esdm_grid_indexCoordinates exampleGrid j = Done index /\ index_ok (axes exampleGrid) index /\
     esdm_grid_linearIndex exampleGrid index = Done j) /\
  (forall index, index_ok (axes exampleGrid) index -> exists j,
     esdm_grid_linearIndex exampleGrid index = Done j /\ 0 <= j < n /\ esdm_grid_indexCoordinates exampleGrid j = Done index) /\
  (forall index, length index = 2%nat -> ~ index_ok (axes exampleGrid) index -> esdm_grid_linearIndex exampleGrid index = Done (-1)).
Proof. exact (grid_index_roundtrip exampleGrid exampleGrid_wf exampleGrid_int64). Defined.

Lemma grid_cells_partition_witness :
  exists n cubes, esdmI_grid_cellCount exampleGrid = Done n /\ mapM (cellAt exampleGrid) (seqZ 0 n) = Done (Some <$> cubes) /\
  partitions cubes [Range 0 10; Range 5 9].
Proof. exact (grid_cells_partition exampleGrid exampleGrid_wf exampleGrid_int64). Defined.

Lemma findCell_correct_witness :
  let space := Dataspace (Type_ 1 8) 2 [2; 4] [3; 5] false None in
  exists r tooSmall, esdmI_grid_findCell exampleGrid space = Done (r, tooSmall) /\
  match r with
  | Some index => index_ok (axes exampleGrid) index /\ Forall2 range_inside (extends space) (cellOf (axes exampleGrid) index) /\
                  (tooSmall = false <-> extends space = cellOf (axes exampleGrid) index)
  | None => forall index, index_ok (axes exampleGrid) index -> ~ Forall2 range_inside (extends space) (cellOf (axes exampleGrid) index)
  end.
Proof.
  apply (findCell_correct exampleGrid (Dataspace (Type_ 1 8) 2 [2; 4] [3; 5] false None) exampleGrid_wf exampleGrid_int64).
  - by constructor.
  - by repeat constructor.
  - done.
  - by repeat constructor.
Defined.
