(* ===== verification/GridTree.v ===== *)
(** Grids of a dataset (src/esdm-grid.c), part two: the hierarchy of subgrids, the completion of
    cells, the registry of the grids of a dataset, the iteration over the cells and the selection
    of the fragments of a region. *)

From S2P Require Import Prelude Hypercube HypercubeSet Odometer Json Dataspace Partition Split Grid.

#[local] Set Warnings "-register-all,-notation-for-abbreviation".

Section TreeOperations.

Context {F : Type}.

Notation esdm_grid_t := (esdm_grid_t F).
Notation esdm_gridEntry_t := (esdm_gridEntry_t esdm_grid_t F).

(** * Subgrids *)

(** Store a cell. *)
Definition setCell (g : esdm_grid_t) (i : nat) (e : esdm_gridEntry_t) : esdm_grid_t :=
  Grid (dimCount g) (id g) (emptyCells g) (<[i := e]> <$> grid g) (axes g).

(** [grid->grid[i]] *)
Definition getCell (g : esdm_grid_t) (i : nat) : outcome esdm_gridEntry_t :=
  cells ← deref (grid g); deref (cells !! i).

(** The parent with the new subgrid in its cell; a fixed structure ([id] set) is not changed. *)
Definition esdm_grid_createSubgrid (datasetDims : Z) (parent : esdm_grid_t) (index : list Z)
    : outcome (esdm_status * esdm_grid_t) :=
  match id parent with
  | Some _ => mret (ESDM_INVALID_STATE_ERROR, parent)
  | None =>
      linearIndex ← esdm_grid_linearIndex parent index;
      if linearIndex <? 0 then mret (ESDM_INVALID_ARGUMENT_ERROR, parent)
      else
        parent ← esdm_grid_ensureGrid parent;
        cell ← getCell parent (Z.to_nat linearIndex);
        match subgrid cell, fragment cell with
        | None, None =>
            r ← esdm_grid_cellSize parent index;
            match r with
            | None => mret (ESDM_INVALID_ARGUMENT_ERROR, parent)
            | Some (offset, size) =>
                child ← esdm_grid_create_internal datasetDims (dimCount parent) (Some offset) size;
                mret (ESDM_SUCCESS, setCell parent (Z.to_nat linearIndex) (Entry (Some child) (fragment cell)))
            end
        | _, _ => mret (ESDM_INVALID_STATE_ERROR, parent)
        end
  end.

(** The depth of the hierarchy, which bounds the descent. *)
Fixpoint depth (g : esdm_grid_t) : nat :=
  match grid g with
  | None => 1
  | Some cells => S (foldr (fun e d => Nat.max (from_option depth 0%nat (subgrid e)) d) 0%nat cells)
  end.

(** The cell numbers on the way down to the cell that fits the dataspace; [None] is
    [ESDM_INVALID_ARGUMENT_ERROR].  Every grid on the way gets its cells allocated. *)
Fixpoint findCellInHierarchy_loop (fuel : nat) (g : esdm_grid_t) (space : esdm_dataspace_t)
    : outcome (option (list nat) * esdm_grid_t) :=
  match fuel with
  | O => Undef
  | S fuel' =>
      '(r, spaceIsTooSmall) ← esdmI_grid_findCell g space;
      match r with
      | None => mret (None, g)
      | Some index =>
          linearIndex ← esdm_grid_linearIndex g index;
          eassert (linearIndex >=? 0);;
          if bool_decide (grid g = None) && spaceIsTooSmall then mret (None, g)
          else
            g ← esdm_grid_ensureGrid g;
            cell ← getCell g (Z.to_nat linearIndex);
            match subgrid cell with
            | None => mret (if spaceIsTooSmall then None else Some [Z.to_nat linearIndex], g)
            | Some child =>
                '(path, child') ← findCellInHierarchy_loop fuel' child space;
                mret (cons (Z.to_nat linearIndex) <$> path,
                      setCell g (Z.to_nat linearIndex) (Entry (Some child') (fragment cell)))
            end
      end
  end.

Definition esdm_grid_findCellInHierarchy (g : esdm_grid_t) (space : esdm_dataspace_t)
    : outcome (option (list nat) * esdm_grid_t) :=
  findCellInHierarchy_loop (depth g) g space.

(** * Completion *)

(** [cell->fragment = f] for the cell at a path. *)
Fixpoint setFragment (g : esdm_grid_t) (path : list nat) (f : F) : outcome esdm_grid_t :=
  match path with
  | [] => Undef
  | i :: rest =>
      cell ← getCell g i;
      match rest with
      | [] => mret (setCell g i (Entry (subgrid cell) (Some f)))
      | _ => child ← deref (subgrid cell);
             child' ← setFragment child rest f;
             mret (setCell g i (Entry (Some child') (fragment cell)))
      end
  end.

(** One cell less is empty; the flag tells whether it was the last one. *)
Definition countCompletedCell (g : esdm_grid_t) : outcome (esdm_grid_t * bool) :=
  eassert (0 <? emptyCells g);;
  mret (Grid (dimCount g) (id g) (emptyCells g - 1) (grid g) (axes g), emptyCells g =? 1).

(** [esdmI_grid_registerCompletedCell()] of the grid at a path: the call for the parent follows
    when the grid is complete.  The flag tells whether the top-level grid is complete, and
    [esdmI_dataset_registerGridCompletion()] is called. *)
Fixpoint esdmI_grid_registerCompletedCell (g : esdm_grid_t) (path : list nat) : outcome (esdm_grid_t * bool) :=
  match path with
  | [] => countCompletedCell g
  | i :: rest =>
      cell ← getCell g i;
      child ← deref (subgrid cell);
      '(child', completed) ← esdmI_grid_registerCompletedCell child rest;
      let g' := setCell g i (Entry (Some child') (fragment cell)) in
      if completed : bool then countCompletedCell g' else mret (g', false)
  end.

(** A fragment is stored in a cell and the cell is counted. *)
Definition completeCell (g : esdm_grid_t) (path : list nat) (f : F) : outcome (esdm_grid_t * bool) :=
  g' ← setFragment g path f;
  esdmI_grid_registerCompletedCell g' (take (length path - 1) path).

(** * Iteration *)

(** The iterator with its parents, innermost first; the iterated grids do not change. *)
Record iteratorFrame := IteratorFrame { itGrid : esdm_grid_t; lastIndex : Z; cellCount : Z }.

Definition esdm_gridIterator_create_internal (g : esdm_grid_t) (parent : list iteratorFrame) : outcome (list iteratorFrame) :=
  n ← esdmI_grid_cellCount g;
  mret (IteratorFrame g (-1) n :: parent).

Definition esdm_gridIterator_create (g : esdm_grid_t) : outcome (esdm_status * option (list iteratorFrame)) :=
  if negb (emptyCells g =? 0) then mret (ESDM_INVALID_STATE_ERROR, None)
  else it ← esdm_gridIterator_create_internal g []; mret (ESDM_SUCCESS, Some it).

(** The empty list is the iterator that has become [NULL]. *)
Fixpoint gridIterator_advance_loop (fuel : nat) (iterator : list iteratorFrame) (increment : Z) : outcome (list iteratorFrame) :=
  match fuel with
  | O => Undef
  | S fuel' =>
      if increment =? 0 then mret iterator
      else match iterator with
      | [] => Undef
      | frame :: parent =>
          let index := lastIndex frame + 1 in
          if index >=? cellCount frame then
            match parent with
            | [] => mret []
            | _ => gridIterator_advance_loop fuel' parent increment
            end
          else
            entry ← getCell (itGrid frame) (Z.to_nat index);
            let frame' := IteratorFrame (itGrid frame) index (cellCount frame) in
            match subgrid entry with
            | Some child =>
                it ← esdm_gridIterator_create_internal child (frame' :: parent);
                gridIterator_advance_loop fuel' it increment
            | None => gridIterator_advance_loop fuel' (frame' :: parent) (increment - 1)
            end
      end
  end.

(** [None] is the end of the iteration. *)
Definition esdm_gridIterator_next (fuel : nat) (datasetSpace : esdm_dataspace_t) (iterator : list iteratorFrame) (increment : Z)
    : outcome (list iteratorFrame * esdm_status * option esdm_dataspace_t) :=
  iterator ← gridIterator_advance_loop fuel iterator increment;
  match iterator with
  | [] => mret ([], ESDM_SUCCESS, None)
  | frame :: _ =>
      cellIndex ← esdm_grid_indexCoordinates (itGrid frame) (lastIndex frame);
      r ← esdm_grid_cellSize (itGrid frame) cellIndex;
      match r with
      | None => Abort
      | Some (offset, size) =>
          '(status, space) ← esdm_dataspace_subspace datasetSpace (dimCount (itGrid frame)) size offset;
          mret (iterator, status, space)
      end
  end.

(** * The fragments of a region *)

Record esdmI_grid_fragmentsInRegion_state_t := RegionState { fragments : list F; bufferSize : Z }.

Definition esdmI_grid_fragmentsInRegion_addFragment (state : esdmI_grid_fragmentsInRegion_state_t) (f : F)
    : outcome esdmI_grid_fragmentsInRegion_state_t :=
  let fragmentCount := Z.of_nat (length (fragments state)) in
  let bufferSize' := if fragmentCount =? bufferSize state then bufferSize state * 2 else bufferSize state in
  eassert (fragmentCount <? bufferSize');;
  mret (RegionState (fragments state ++ [f]) bufferSize').

(** The cells of one axis that overlap with the region: first and one past the last. *)
Definition indexRange_dim (axis : esdm_axis_t) (start size : Z) : outcome (Z * Z) :=
  e ← chk64 (start + size);
  let s := Z.min (Z.max start (outerLow axis)) (outerHigh axis) in
  let e := Z.min (Z.max e (outerLow axis)) (outerHigh axis) in
  last ← chk64 (e - 1);
  startIndex ← esdmI_axis_findInterval axis s;
  endIndex ← esdmI_axis_findInterval axis last;
  mret (startIndex, endIndex + 1).

Fixpoint indexRange_loop (axes : list esdm_axis_t) (start size : list Z) : outcome (list (Z * Z)) :=
  match axes with
  | [] => mret []
  | axis :: rest =>
      match start, size with
      | o :: start', s :: size' =>
          r ← indexRange_dim axis o s;
          rs ← indexRange_loop rest start' size';
          mret (r :: rs)
      | _, _ => Undef
      end
  end.

Definition esdmI_grid_indexRange (g : esdm_grid_t) (region : esdmI_hypercube_t) : outcome (list Z * list Z) :=
  eassert (dimCount g =? esdmI_hypercube_dimensions region);;
  '(start, size) ← esdmI_hypercube_getOffsetAndSize region;
  rs ← indexRange_loop (axes g) start size;
  mret (rs.*1, rs.*2).

(** The index and the cell number of the next cell of the range, innermost dimension first; the
    flag tells whether there is one. *)
Fixpoint advanceIndex (revAxes : list esdm_axis_t) (cur start end_ : list Z) (linearIndex increment : Z) : list Z * Z * bool :=
  match revAxes, cur, start, end_ with
  | axis :: revAxes', c :: cur', s :: start', e :: end_' =>
      let linearIndex := linearIndex + increment in
      if negb (c + 1 =? e) then (c + 1 :: cur', linearIndex, true)
      else
        let '(cs, l, incremented) :=
          advanceIndex revAxes' cur' start' end_' (linearIndex - (c + 1 - s) * increment) (increment * intervals axis) in
        (s :: cs, l, incremented)
  | _, _, _, _ => ([], linearIndex, false)
  end.

Section RegionLoop.

Context (visitSubgrid : esdm_grid_t -> esdmI_grid_fragmentsInRegion_state_t ->
          outcome (esdm_status * esdmI_grid_fragmentsInRegion_state_t)).

(** The [while(true)] loop; the coordinates are kept innermost first. *)
Fixpoint region_loop (fuel : nat) (g : esdm_grid_t) (start end_ cur : list Z) (linearIndex : Z)
    (state : esdmI_grid_fragmentsInRegion_state_t) : outcome (esdm_status * esdmI_grid_fragmentsInRegion_state_t) :=
  match fuel with
  | O => Undef
  | S fuel' =>
      cell ← getCell g (Z.to_nat linearIndex);
      '(result, state) ←
        match fragment cell, subgrid cell with
        | Some f, _ => state' ← esdmI_grid_fragmentsInRegion_addFragment state f; mret (ESDM_SUCCESS, state')
        | None, Some child => visitSubgrid child state
        | None, None => mret (ESDM_INVALID_STATE_ERROR, state)
        end;
      if bool_decide (result = ESDM_SUCCESS) then
        let '(cur', linearIndex', incremented) := advanceIndex (rev (axes g)) cur start end_ linearIndex 1 in
        if incremented : bool then region_loop fuel' g start end_ cur' linearIndex' state
        else mret (ESDM_SUCCESS, state)
      else mret (result, state)
  end.

End RegionLoop.

(** [fuel] bounds the depth of the recursion into subgrids. *)
Fixpoint esdmI_grid_fragmentsInRegion_internal (fuel : nat) (region : esdmI_hypercube_t) (g : esdm_grid_t)
    (state : esdmI_grid_fragmentsInRegion_state_t) : outcome (esdm_status * esdmI_grid_fragmentsInRegion_state_t) :=
  match fuel with
  | O => Undef
  | S fuel' =>
      '(startIndex, endIndex) ← esdmI_grid_indexRange g region;
      eassert (bool_decide (startIndex <> endIndex));;
      linearIndex ← esdm_grid_linearIndex g startIndex;
      eassert (linearIndex >=? 0);;
      region_loop (esdmI_grid_fragmentsInRegion_internal fuel' region)
        (S (Z.to_nat (prod (zip_with Z.sub endIndex startIndex)))) g (rev startIndex) (rev endIndex) (rev startIndex) linearIndex state
  end.

Definition esdmI_grid_fragmentsInRegion (g : esdm_grid_t) (region : esdmI_hypercube_t) : outcome (esdm_status * option (list F)) :=
  eassert (bool_decide (is_Some (grid g)));;
  '(result, state) ← esdmI_grid_fragmentsInRegion_internal (depth g) region g (RegionState [] 8);
  mret (result, if bool_decide (result = ESDM_SUCCESS) then Some (fragments state) else None).

End TreeOperations.

Arguments iteratorFrame F : clear implicits.
Arguments esdmI_grid_fragmentsInRegion_state_t F : clear implicits.

(** * The grids of a dataset *)

(** The used part of the array [grids] of a dataset: first the complete grids, then the incomplete
    ones.  A pointer to a grid is a number. *)
Record gridRegistry := GridRegistry {
  gridCount : Z;
  incompleteGridCount : Z;
  gridSlotCount : Z;
  grids : list nat
}.

Definition kInitialGridSlotCount : Z := 8.

Definition emptyRegistry : gridRegistry := GridRegistry 0 0 kInitialGridSlotCount [].

Definition esdmI_dataset_registerGrid (dataset : gridRegistry) (g : nat) : outcome gridRegistry :=
  let used := gridCount dataset + incompleteGridCount dataset in
  let slots := if used =? gridSlotCount dataset then gridSlotCount dataset * 2 else gridSlotCount dataset in
  eassert (used <? slots);;
  mret (GridRegistry (gridCount dataset) (incompleteGridCount dataset + 1) slots (grids dataset ++ [g])).

(** The position of the grid among the incomplete grids. *)
Fixpoint findGrid (n : nat) (index : nat) (grids : list nat) (g : nat) : outcome nat :=
  match n with
  | O => Abort
  | S n' =>
      x ← deref (grids !! index);
      if bool_decide (x = g) then mret index else findGrid n' (S index) grids g
  end.

Definition esdmI_dataset_registerGridCompletion (dataset : gridRegistry) (g : nat) : outcome gridRegistry :=
  eassert (negb (incompleteGridCount dataset =? 0));;
  index ← findGrid (Z.to_nat (incompleteGridCount dataset)) (Z.to_nat (gridCount dataset)) (grids dataset) g;
  first ← deref (grids dataset !! Z.to_nat (gridCount dataset));
  mret (GridRegistry (gridCount dataset + 1) (incompleteGridCount dataset - 1) (gridSlotCount dataset)
    (<[Z.to_nat (gridCount dataset) := g]> (<[index := first]> (grids dataset)))).

(** * Well-formed hierarchies *)

Section TreeFacts.

Context {F : Type}.

Notation esdm_grid_t := (esdm_grid_t F).
Notation esdm_gridEntry_t := (esdm_gridEntry_t esdm_grid_t F).

(** A grid is complete when its cells are allocated and none is empty. *)
Definition grid_complete (g : esdm_grid_t) : bool :=
  match grid g with
  | None => false
  | Some _ => emptyCells g =? 0
  end.

Definition cell_complete (e : esdm_gridEntry_t) : bool :=
  match fragment e, subgrid e with
  | Some _, _ => true
  | None, Some s => grid_complete s
  | None, None => false
  end.

Definition weight (e : esdm_gridEntry_t) : Z := if cell_complete e then 0 else 1.

(** The number of cells without complete data. *)
Definition incomplete (cs : list esdm_gridEntry_t) : Z := foldr (fun e n => weight e + n) 0 cs.

Record node_wf (g : esdm_grid_t) : Prop := {
  nw_grid : grid_wf g;
  nw_int64 : grid_int64 g;
  nw_unallocated : grid g = None -> emptyCells g = 0;
  nw_cells cs : grid g = Some cs -> Z.of_nat (length cs) = cellTotal (axes g);
  nw_count cs : grid g = Some cs -> emptyCells g = incomplete cs;
  nw_exclusive cs j e : grid g = Some cs -> cs !! j = Some e -> subgrid e = None \/ fragment e = None;
  nw_domain cs j e s : grid g = Some cs -> cs !! j = Some e -> subgrid e = Some s ->
    domain s = cellOf (axes g) (coordinates (axes g) (Z.of_nat j))
}.

(** All grids of the hierarchy are well-formed, and a subgrid divides the cell it is in. *)
Inductive tree_wf (g : esdm_grid_t) : Prop :=
| TreeWf : node_wf g ->
    (forall cs j e s, grid g = Some cs -> cs !! j = Some e -> subgrid e = Some s -> tree_wf s) ->
    tree_wf g.

Lemma tree_node (g : esdm_grid_t) : tree_wf g -> node_wf g.
Proof. by intros []. Qed.

(** The cell at a path, a list of cell numbers from the top-level grid down. *)
Fixpoint cellAtPath (g : esdm_grid_t) (path : list nat) : option esdm_gridEntry_t :=
  match path with
  | [] => None
  | i :: rest =>
      cs ← grid g;
      e ← cs !! i;
      match rest with
      | [] => Some e
      | _ => s ← subgrid e; cellAtPath s rest
      end
  end.

(** The fragment stored in the cell at a path. *)
Definition fragmentAt (g : esdm_grid_t) (path : list nat) : option F := cellAtPath g path ≫= fragment.

(** A grid with one cell and the counter replaced. *)
Definition update (g : esdm_grid_t) (n : Z) (i : nat) (e : esdm_gridEntry_t) : esdm_grid_t :=
  Grid (dimCount g) (id g) n (<[i := e]> <$> grid g) (axes g).

Lemma weight_bounds (e : esdm_gridEntry_t) : 0 <= weight e <= 1.
Proof. unfold weight. destruct (cell_complete e); lia. Qed.

Lemma incomplete_nonneg (cs : list esdm_gridEntry_t) : 0 <= incomplete cs.
Proof. induction cs as [| e cs IH]; simpl; [lia |]. pose proof (weight_bounds e). lia. Qed.

Lemma incomplete_insert (cs : list esdm_gridEntry_t) (i : nat) (e e' : esdm_gridEntry_t) :
  cs !! i = Some e -> incomplete (<[i := e']> cs) = incomplete cs - weight e + weight e'.
Proof.
  revert i. induction cs as [| x cs IH]; intros [| i] Hi; simpl in *; simplify_eq; [lia |]. rewrite (IH i Hi). lia.
Qed.

Lemma incomplete_elem (cs : list esdm_gridEntry_t) (i : nat) (e : esdm_gridEntry_t) :
  cs !! i = Some e -> weight e <= incomplete cs.
Proof.
  revert i. induction cs as [| x cs IH]; intros [| i] Hi; simpl in *; simplify_eq.
  - pose proof (incomplete_nonneg cs). lia.
  - specialize (IH i Hi). pose proof (weight_bounds x). lia.
Qed.

Lemma setCell_setCell (g : esdm_grid_t) (i : nat) (a b : esdm_gridEntry_t) : setCell (setCell g i a) i b = setCell g i b.
Proof. unfold setCell. simpl. destruct (grid g) as [cs |]; [| done]. simpl. by rewrite list_insert_insert_eq. Qed.

Lemma getCell_setCell (g : esdm_grid_t) (cs : list esdm_gridEntry_t) (i : nat) (e a : esdm_gridEntry_t) :
  grid g = Some cs -> cs !! i = Some e -> getCell (setCell g i a) i = Done a.
Proof.
  intros Hg Hi. unfold getCell, setCell. simpl. rewrite Hg. simpl. rewrite list_lookup_insert_eq; [done |].
  by eapply lookup_lt_Some.
Qed.

(** Replacing one cell and adjusting the counter keeps a hierarchy well-formed. *)
Lemma update_wf (g : esdm_grid_t) (cs : list esdm_gridEntry_t) (i : nat) (e e' : esdm_gridEntry_t) (n : Z) :
  tree_wf g -> grid g = Some cs -> cs !! i = Some e ->
  n = emptyCells g - weight e + weight e' ->
  subgrid e' = None \/ fragment e' = None ->
  (forall s, subgrid e' = Some s -> tree_wf s /\ domain s = cellOf (axes g) (coordinates (axes g) (Z.of_nat i))) ->
  tree_wf (update g n i e').
Proof.
  intros [Hn Hs] Hg Hi -> Hex Hsub. destruct Hn as [H1 H2 H3 H4 H5 H6 H7].
  assert (Hl : forall j x, (<[i := e']> cs) !! j = Some x -> (j = i /\ x = e') \/ (cs !! j = Some x)).
  { intros j x Hj. destruct (decide (j = i)) as [-> | Hne]; [left | right].
    - rewrite list_lookup_insert_eq in Hj by (by eapply lookup_lt_Some). by simplify_eq.
    - by rewrite list_lookup_insert_ne in Hj. }
  constructor.
  - constructor.
    + by destruct H1.
    + by destruct H2.
    + simpl. by rewrite Hg.
    + intros cs'. simpl. rewrite Hg. intros [= <-]. rewrite length_insert. by apply H4.
    + intros cs'. simpl. rewrite Hg. intros [= <-]. rewrite (incomplete_insert cs i e e' Hi), (H5 cs Hg). lia.
    + intros cs' j x. simpl. rewrite Hg. intros [= <-] Hj. destruct (Hl j x Hj) as [[-> ->] | Hj']; [done | by eapply H6].
    + intros cs' j x s. simpl. rewrite Hg. intros [= <-] Hj Hx.
      destruct (Hl j x Hj) as [[-> ->] | Hj']; [by apply Hsub | by eapply H7].
  - intros cs' j x s. simpl. rewrite Hg. intros [= <-] Hj Hx.
    destruct (Hl j x Hj) as [[-> ->] | Hj']; [by apply Hsub | by eapply Hs].
Qed.

Lemma cellAtPath_cons (g : esdm_grid_t) (cs : list esdm_gridEntry_t) (i : nat) (e : esdm_gridEntry_t) (p : list nat) :
  grid g = Some cs -> cs !! i = Some e -> p <> [] ->
  cellAtPath g (i :: p) = subgrid e ≫= (fun s => cellAtPath s p).
Proof. intros Hg Hi Hp. cbn [cellAtPath]. rewrite Hg. simpl. rewrite Hi. simpl. by destruct p. Qed.

Lemma fragmentAt_update_ne (g : esdm_grid_t) (n : Z) (i j : nat) (e : esdm_gridEntry_t) (p : list nat) :
  i <> j -> fragmentAt (update g n i e) (j :: p) = fragmentAt g (j :: p).
Proof.
  intros Hne. unfold fragmentAt. cbn [cellAtPath update grid]. destruct (grid g) as [cs |]; [| done]. simpl.
  by rewrite list_lookup_insert_ne.
Qed.

Lemma fragmentAt_update (g : esdm_grid_t) (cs : list esdm_gridEntry_t) (n : Z) (i : nat) (e e' : esdm_gridEntry_t) (p : list nat) :
  grid g = Some cs -> cs !! i = Some e ->
  fragmentAt (update g n i e') (i :: p) =
    match p with [] => fragment e' | _ => subgrid e' ≫= (fun s => fragmentAt s p) end.
Proof.
  intros Hg Hi. unfold fragmentAt. cbn [cellAtPath update grid]. rewrite Hg. simpl.
  rewrite list_lookup_insert_eq by (by eapply lookup_lt_Some). simpl. destruct p; [done |]. by destruct (subgrid e').
Qed.

Lemma count_update (g : esdm_grid_t) (i : nat) (e : esdm_gridEntry_t) :
  0 < emptyCells g ->
  countCompletedCell (setCell g i e) = Done (update g (emptyCells g - 1) i e, emptyCells g =? 1).
Proof. intros H. unfold countCompletedCell. simpl. by rewrite eassert_true by (by apply Z.ltb_lt). Qed.

Lemma setFragment_cons (g : esdm_grid_t) (i j : nat) (p : list nat) (f : F) :
  setFragment g (i :: j :: p) f =
    (cell ← getCell g i; child ← deref (subgrid cell); child' ← setFragment child (j :: p) f;
     mret (setCell g i (Entry (Some child') (fragment cell)))).
Proof. reflexivity. Qed.

Lemma completeCell_cons (g : esdm_grid_t) (cs : list esdm_gridEntry_t) (i j : nat) (p : list nat) (f : F)
    (e : esdm_gridEntry_t) (child child' : esdm_grid_t) (completed : bool) :
  grid g = Some cs -> cs !! i = Some e -> subgrid e = Some child ->
  completeCell child (j :: p) f = Done (child', completed) ->
  completeCell g (i :: j :: p) f =
    let g' := setCell g i (Entry (Some child') (fragment e)) in
    if completed then countCompletedCell g' else Done (g', false).
Proof.
  intros Hg Hi He Hc. unfold completeCell in *. rewrite setFragment_cons.
  assert (Hge : getCell g i = Done e) by (unfold getCell; rewrite Hg; simpl; by rewrite Hi).
  rewrite Hge. run. rewrite He. run. apply bind_done_inv in Hc as (c1 & Hc1 & Hc2). rewrite Hc1. run.
  cbn [length] in *. rewrite Nat.sub_succ, Nat.sub_0_r in *. cbn [take esdmI_grid_registerCompletedCell].
  erewrite getCell_setCell by done. run. cbn [subgrid fragment]. run. rewrite Hc2. run. by rewrite setCell_setCell.
Qed.

(** The extents of the cell at a path that has no subgrid; the cells of a grid that is not
    allocated are empty. *)
Fixpoint leafExtents (g : esdm_grid_t) (path : list nat) : option esdmI_hypercube_t :=
  match path with
  | [] => None
  | i :: rest =>
      match grid g with
      | None =>
          match rest with
          | [] => if Z.of_nat i <? cellTotal (axes g) then Some (cellOf (axes g) (coordinates (axes g) (Z.of_nat i))) else None
          | _ => None
          end
      | Some cs =>
          e ← cs !! i;
          match subgrid e with
          | Some s => leafExtents s rest
          | None =>
              match rest with
              | [] => Some (cellOf (axes g) (coordinates (axes g) (Z.of_nat i)))
              | _ => None
              end
          end
      end
  end.

(** Replacing a cell keeps the leaves when it keeps those of its subgrid. *)
Lemma leaves_update (g : esdm_grid_t) (cs : list esdm_gridEntry_t) (n : Z) (i : nat) (e e' : esdm_gridEntry_t) (p : list nat) :
  grid g = Some cs -> cs !! i = Some e ->
  match subgrid e, subgrid e' with
  | Some s, Some s' => forall p, leafExtents s' p = leafExtents s p
  | None, None => True
  | _, _ => False
  end -> leafExtents (update g n i e') p = leafExtents g p.
Proof.
  intros Hg Hi Hs. destruct p as [| k p]; [done |]. cbn [leafExtents update grid axes]. rewrite Hg. simpl.
  destruct (decide (k = i)) as [-> | Hne]; [| by rewrite list_lookup_insert_ne].
  rewrite list_lookup_insert_eq by (by eapply lookup_lt_Some). rewrite Hi. simpl. by destruct (subgrid e), (subgrid e'); try done; rewrite Hs.
Qed.

(** The effect of completing the empty cell at a path. *)
Record completes (g : esdm_grid_t) (path : list nat) (f : F) (g' : esdm_grid_t) : Prop := {
  cp_result : completeCell g path f = Done (g', grid_complete g');
  cp_wf : tree_wf g';
  cp_axes : axes g' = axes g;
  cp_id : id g' = id g;
  cp_before : grid_complete g = false;
  cp_fragments p : fragmentAt g' p = if decide (p = path) then Some f else fragmentAt g p;
  cp_leaves p : leafExtents g' p = leafExtents g p
}.

Section CompleteCell.

Context (g : esdm_grid_t) (Hwf : tree_wf g) (cs : list esdm_gridEntry_t) (Hg : grid g = Some cs)
  (i : nat) (e : esdm_gridEntry_t) (Hi : cs !! i = Some e).

Lemma incomplete_grid : weight e = 1 -> 0 < emptyCells g /\ grid_complete g = false.
Proof.
  intros Hw. pose proof (nw_count _ (tree_node g Hwf) cs Hg). pose proof (incomplete_elem cs i e Hi).
  unfold grid_complete. rewrite Hg, Z.eqb_neq. lia.
Qed.

Lemma complete_flag (n : Z) (e' : esdm_gridEntry_t) : grid_complete (update g n i e') = (n =? 0).
Proof. unfold grid_complete. simpl. by rewrite Hg. Qed.

Lemma last_flag : (emptyCells g =? 1) = (emptyCells g - 1 =? 0).
Proof. destruct (Z.eqb_spec (emptyCells g) 1), (Z.eqb_spec (emptyCells g - 1) 0); try done; lia. Qed.

Lemma completeCell_leaf (f : F) :
  e = Entry None None -> completes g [i] f (update g (emptyCells g - 1) i (Entry None (Some f))).
Proof.
  intros He. assert (Hw : weight e = 1) by (by rewrite He). destruct (incomplete_grid Hw) as [Hpos Hgc].
  constructor; [| | reflexivity | reflexivity | exact Hgc | | intros p; apply (leaves_update g cs _ i e _ p Hg Hi); by rewrite He].
  - unfold completeCell. cbn [setFragment]. unfold getCell. rewrite Hg. simpl. rewrite Hi, He. simpl.
    by rewrite count_update, complete_flag, last_flag by done.
  - apply (update_wf g cs i e _ _ Hwf Hg Hi); [rewrite Hw; cbn; lia | by left | intros s [=]].
  - intros [| k p]; [by rewrite decide_False |]. destruct (decide (k = i)) as [-> | Hne].
    + rewrite (fragmentAt_update g cs _ i _ _ p Hg Hi). destruct p as [| k p]; [by rewrite decide_True |].
      rewrite decide_False by congruence. unfold fragmentAt. rewrite (cellAtPath_cons g cs i _ _ Hg Hi), He by done. done.
    + rewrite fragmentAt_update_ne, decide_False by congruence. done.
Qed.

Lemma completeCell_sub (j : nat) (path : list nat) (f : F) (child child' : esdm_grid_t) :
  subgrid e = Some child -> completes child (j :: path) f child' ->
  let e' := Entry (Some child') (fragment e) in
  completes g (i :: j :: path) f (update g (emptyCells g - 1 + weight e') i e').
Proof.
  intros He [Hc Hwf' Hax Hid Hinc Hfr Hlv] e'. pose proof (tree_node g Hwf) as Hnode.
  assert (Hfe : fragment e = None).
  { destruct (nw_exclusive _ Hnode cs i e Hg Hi) as [H | H]; [congruence | done]. }
  assert (Hw : weight e = 1) by (unfold weight, cell_complete; by rewrite Hfe, He, Hinc).
  assert (Hw' : weight e' = if grid_complete child' then 0 else 1) by (unfold e', weight, cell_complete; simpl; by rewrite Hfe).
  destruct (incomplete_grid Hw) as [Hpos Hgc].
  constructor; [| | reflexivity | reflexivity | exact Hgc | | intros p; apply (leaves_update g cs _ i e _ p Hg Hi); by rewrite He].
  - rewrite (completeCell_cons g cs i j path f e child child' _ Hg Hi He Hc). cbv zeta. fold e'.
    rewrite complete_flag, Hw'. destruct (grid_complete child').
    + by rewrite count_update, last_flag, Z.add_0_r by done.
    + replace (emptyCells g - 1 + 1) with (emptyCells g) by lia. by rewrite (proj2 (Z.eqb_neq (emptyCells g) 0)) by lia.
  - apply (update_wf g cs i e _ _ Hwf Hg Hi); [by rewrite Hw | right; exact Hfe |]. intros s [= <-]. split; [exact Hwf' |].
    unfold domain. rewrite Hax. exact (nw_domain _ Hnode cs i e child Hg Hi He).
  - intros [| k p]; [by rewrite decide_False |]. destruct (decide (k = i)) as [-> | Hne].
    + rewrite (fragmentAt_update g cs _ i e _ p Hg Hi). destruct p as [| k p].
      { rewrite decide_False by congruence. unfold fragmentAt. cbn [cellAtPath]. rewrite Hg. simpl. by rewrite Hi. }
      unfold e'. cbn [subgrid]. simpl. rewrite Hfr. unfold fragmentAt at 2. rewrite (cellAtPath_cons g cs i e _ Hg Hi), He by done.
      simpl. destruct (decide (k :: p = j :: path)) as [-> | Hne]; [by rewrite decide_True |].
      rewrite decide_False by congruence. done.
    + rewrite fragmentAt_update_ne, decide_False by congruence. done.
Qed.

End CompleteCell.

Lemma completeCell_ok (path : list nat) (f : F) (g : esdm_grid_t) :
  tree_wf g -> cellAtPath g path = Some (Entry None None) -> exists g', completes g path f g'.
Proof.
  revert g. induction path as [| i path IH]; intros g Hwf Hcell; [done |].
  destruct (grid g) as [cs |] eqn:Hg; [| cbn [cellAtPath] in Hcell; by rewrite Hg in Hcell].
  destruct (cs !! i) as [e |] eqn:Hi; [| cbn [cellAtPath] in Hcell; rewrite Hg in Hcell; simpl in Hcell; by rewrite Hi in Hcell].
  destruct path as [| j path].
  - cbn [cellAtPath] in Hcell. rewrite Hg in Hcell. simpl in Hcell. rewrite Hi in Hcell. injection Hcell as Hcell.
    eexists. eapply completeCell_leaf; [exact Hwf | exact Hg | exact Hi | exact Hcell].
  - rewrite (cellAtPath_cons g cs i e _ Hg Hi) in Hcell by done.
    destruct (subgrid e) as [child |] eqn:He; [| done]. simpl in Hcell.
    assert (Hwfc : tree_wf child) by (destruct Hwf as [_ Hs]; by eapply Hs).
    destruct (IH child Hwfc Hcell) as [child' Hc]. eexists. eapply completeCell_sub; [exact Hwf | exact Hg | exact Hi | exact He | exact Hc].
Qed.

Lemma cube_inside_trans (a b c : esdmI_hypercube_t) :
  Forall2 range_inside a b -> Forall2 range_inside b c -> Forall2 range_inside a c.
Proof.
  intros H. revert c. induction H as [| r r' a b Hr _ IH]; intros c Hc; [done |].
  apply Forall2_cons_inv_l in Hc as (r2 & c' & Hr2 & Hc & ->). constructor; [unfold range_inside in *; lia | by apply IH].
Qed.

Lemma cube_inside_refl (c : esdmI_hypercube_t) : Forall2 range_inside c c.
Proof. induction c as [| r c IH]; constructor; [unfold range_inside; lia | done]. Qed.

Lemma cell_inside_domain (axs : list esdm_axis_t) (index : list Z) :
  Forall axis_wf axs -> index_ok axs index ->
  Forall2 range_inside (cellOf axs index) ((fun a => Range (outerLow a) (outerHigh a)) <$> axs).
Proof.
  intros Hwf Hi. induction Hi as [| i a index axs Hia Hi IH]; [constructor |]. apply Forall_cons in Hwf as [Ha Hwf].
  unfold cellOf. cbn [zip_with]. rewrite fmap_cons. constructor; [| by apply IH].
  rewrite axis_cell_range by done. split; simpl.
  - rewrite (aw_low _ Ha). change 0%nat with (Z.to_nat 0). apply axis_bound_le; [done | lia | lia].
  - rewrite (axis_last a Ha). apply axis_bound_le; [done | lia | lia].
Qed.

(** A non-empty hypercube is inside at most one cell. *)
Lemma cell_inside_unique (axs : list esdm_axis_t) (c : esdmI_hypercube_t) (index index' : list Z) :
  Forall axis_wf axs -> nonempty c -> index_ok axs index -> index_ok axs index' ->
  Forall2 range_inside c (cellOf axs index) -> Forall2 range_inside c (cellOf axs index') -> index = index'.
Proof.
  intros Hwf Hne Hi. revert c index' Hne. induction Hi as [| i a index axs Hia Hi IH]; intros c index' Hne Hi' H H'.
  { by apply Forall2_nil_inv_r in Hi'. }
  apply Forall2_cons_inv_r in Hi' as (i' & index2 & Hia' & Hi' & ->). apply Forall_cons in Hwf as [Ha Hwf].
  unfold cellOf in H, H'. cbn [zip_with] in H, H'. apply Forall2_cons_inv_r in H as (r & c' & Hr & H & ->).
  apply Forall2_cons in H' as [Hr' H']. apply Forall_cons in Hne as [Hner Hne]. f_equal; [| by apply (IH Hwf c')].
  destruct Ha as [Hb Hint _ _ _]. rewrite Hint in *. simpl in Hner.
  apply (cell_unique (allBounds a) (rstart r)); try done; unfold range_inside, in_range in *; lia.
Qed.

Lemma leafExtents_inside (g : esdm_grid_t) (path : list nat) (c : esdmI_hypercube_t) :
  tree_wf g -> leafExtents g path = Some c -> Forall2 range_inside c (domain g).
Proof.
  intros Hwf. revert path c. induction Hwf as [g Hn Hs IH]; intros path c Hc.
  pose proof (gw_axes _ (nw_grid _ Hn)) as Hax.
  destruct path as [| i path]; [done |]. cbn [leafExtents] in Hc. destruct (grid g) as [cs |] eqn:Hg.
  - destruct (cs !! i) as [e |] eqn:Hi; [| done]. simpl in Hc. destruct (subgrid e) as [s |] eqn:He.
    + pose proof (IH cs i e s eq_refl Hi He path c Hc) as H. rewrite (nw_domain _ Hn cs i e s Hg Hi He) in H.
      eapply cube_inside_trans; [exact H |]. apply cell_inside_domain; [done |]. by apply coordinates_ok.
    + destruct path; [| done]. injection Hc as <-. apply cell_inside_domain; [done |]. by apply coordinates_ok.
  - destruct path; [| done]. destruct (_ <? _); [| done]. injection Hc as <-.
    apply cell_inside_domain; [done |]. by apply coordinates_ok.
Qed.

(** A leaf cell lies inside the cell of the top-level grid that starts its path. *)
Lemma leafExtents_first (g : esdm_grid_t) (i : nat) (path : list nat) (c : esdmI_hypercube_t) :
  tree_wf g -> leafExtents g (i :: path) = Some c ->
  Z.of_nat i < cellTotal (axes g) /\ Forall2 range_inside c (cellOf (axes g) (coordinates (axes g) (Z.of_nat i))).
Proof.
  intros Hwf Hc. pose proof (tree_node g Hwf) as Hn. cbn [leafExtents] in Hc. destruct (grid g) as [cs |] eqn:Hg.
  - destruct (cs !! i) as [e |] eqn:Hi; [| done]. simpl in Hc.
    split; [rewrite <- (nw_cells _ Hn cs Hg); apply lookup_lt_Some in Hi; lia |].
    destruct (subgrid e) as [s |] eqn:He.
    + rewrite <- (nw_domain _ Hn cs i e s Hg Hi He). apply (leafExtents_inside s path); [| done].
      destruct Hwf as [_ Hs]. by apply (Hs cs i e).
    + destruct path; [| done]. injection Hc as <-. apply cube_inside_refl.
  - destruct path; [| done]. destruct (Z.ltb_spec (Z.of_nat i) (cellTotal (axes g))); [| done]. injection Hc as <-.
    split; [done | apply cube_inside_refl].
Qed.

(** * Allocation of the cells *)

(** Two hierarchies with the same structure and contents. *)
Record same_tree (g g' : esdm_grid_t) : Prop := {
  sm_axes : axes g' = axes g;
  sm_id : id g' = id g;
  sm_complete : grid_complete g' = grid_complete g;
  sm_fragments p : fragmentAt g' p = fragmentAt g p;
  sm_leaves p : leafExtents g' p = leafExtents g p
}.

Lemma incomplete_replicate (n : nat) : incomplete (replicate n (Entry None None)) = Z.of_nat n.
Proof. induction n as [| n IH]; [done |]. change (incomplete (replicate (S n) _)) with (1 + incomplete (replicate n (Entry None None))). lia. Qed.

Lemma ensureGrid_ok (g : esdm_grid_t) :
  tree_wf g -> exists g' cs, esdm_grid_ensureGrid g = Done g' /\ grid g' = Some cs /\ tree_wf g' /\ same_tree g g' /\
  (forall j e, cs !! j = Some e -> (exists cs0, grid g = Some cs0 /\ cs0 !! j = Some e) \/ (grid g = None /\ e = Entry None None)).
Proof.
  intros Hwf. unfold esdm_grid_ensureGrid. destruct (grid g) as [cs |] eqn:Hg.
  { exists g, cs. do 4 (split; [done || exact Hwf |]). intros j e He. left. eauto. }
  pose proof (tree_node g Hwf) as [H1 H2 H3 _ _ _ _]. pose proof (cellTotal_pos _ (gw_axes _ H1)) as Hp.
  rewrite cellCount_ok by done. run. rewrite (proj2 (Z.ltb_ge _ 0)) by lia.
  set (n := cellTotal (axes g)) in *. eexists _, _. split; [done |]. split; [done |].
  assert (Hrep : forall j e, replicate (Z.to_nat n) (Entry (F := F) (G := esdm_grid_t) None None) !! j = Some e -> e = Entry None None).
  { intros j e He. by apply lookup_replicate in He as [-> _]. }
  split; [| split].
  - constructor.
    + constructor; simpl; try (intros cs [= <-]); try done.
      * by destruct H1.
      * by destruct H2.
      * rewrite length_replicate. lia.
      * rewrite incomplete_replicate. lia.
      * intros cs j e [= <-] He. rewrite (Hrep j e He). by left.
      * intros cs j e s [= <-] He. rewrite (Hrep j e He). done.
    + intros cs j e s [= <-] He. rewrite (Hrep j e He). intros [=].
  - constructor; try done.
    + unfold grid_complete. simpl. rewrite Hg. apply Z.eqb_neq. lia.
    + intros [| i p]; [done |]. unfold fragmentAt. cbn [cellAtPath grid]. rewrite Hg. simpl.
      destruct (replicate (Z.to_nat n) _ !! i) as [e |] eqn:E; [| done]. simpl. rewrite (Hrep i e E). by destruct p.
    + intros [| i p]; [done |]. cbn [leafExtents grid axes]. rewrite Hg.
      destruct (replicate (Z.to_nat n) _ !! i) as [e |] eqn:E; simpl.
      * rewrite (Hrep i e E). destruct p; [| done]. apply lookup_lt_Some in E. rewrite length_replicate in E.
        by rewrite (proj2 (Z.ltb_lt _ _)) by lia.
      * destruct p; [| done]. apply lookup_ge_None in E. rewrite length_replicate in E.
        by rewrite (proj2 (Z.ltb_ge _ _)) by lia.
  - intros j e He. right. split; [done |]. by apply (Hrep j).
Qed.

Lemma same_tree_trans (g1 g2 g3 : esdm_grid_t) : same_tree g1 g2 -> same_tree g2 g3 -> same_tree g1 g3.
Proof. intros [a1 b1 c1 d1 e1] [a2 b2 c2 d2 e2]. constructor; intros; congruence. Qed.

(** Replacing a subgrid by one with the same structure and contents. *)
Lemma same_tree_child (g : esdm_grid_t) (cs : list esdm_gridEntry_t) (i : nat) (e : esdm_gridEntry_t) (child child' : esdm_grid_t) :
  tree_wf g -> grid g = Some cs -> cs !! i = Some e -> subgrid e = Some child -> tree_wf child' -> same_tree child child' ->
  let g' := setCell g i (Entry (Some child') (fragment e)) in tree_wf g' /\ same_tree g g'.
Proof.
  intros Hwf Hg Hi He Hwf' [Hax Hid Hc Hf Hl] g'. pose proof (tree_node g Hwf) as Hn.
  change g' with (update g (emptyCells g) i (Entry (Some child') (fragment e))). split.
  - apply (update_wf g cs i e _ _ Hwf Hg Hi).
    + unfold weight, cell_complete. simpl. rewrite He, Hc. lia.
    + right. destruct (nw_exclusive _ Hn cs i e Hg Hi); [congruence | done].
    + intros s [= <-]. split; [exact Hwf' |]. unfold domain. rewrite Hax. exact (nw_domain _ Hn cs i e child Hg Hi He).
  - constructor; [done | done | unfold grid_complete; simpl; by rewrite Hg | |].
    + intros [| k p]; [done |]. destruct (decide (k = i)) as [-> | Hne]; [| by rewrite fragmentAt_update_ne].
      rewrite (fragmentAt_update g cs _ i e _ p Hg Hi). unfold fragmentAt at 2. destruct p as [| k p].
      * cbn [cellAtPath]. rewrite Hg. simpl. by rewrite Hi.
      * rewrite (cellAtPath_cons g cs i e _ Hg Hi), He by done. simpl. rewrite Hf. done.
    + intros p. apply (leaves_update g cs _ i e _ p Hg Hi). by rewrite He.
Qed.

Lemma depth_child (g : esdm_grid_t) (cs : list esdm_gridEntry_t) (i : nat) (e : esdm_gridEntry_t) (s : esdm_grid_t) :
  grid g = Some cs -> cs !! i = Some e -> subgrid e = Some s -> (depth s < depth g)%nat.
Proof.
  intros Hg Hi He. destruct g as [d id n gr axs]. simpl in *. subst gr. simpl.
  revert i Hi. induction cs as [| x cs IH]; intros [| i] Hi; simpl in *; simplify_eq; [rewrite He; simpl; lia |].
  specialize (IH i Hi). lia.
Qed.

Lemma child_dims (g : esdm_grid_t) (cs : list esdm_gridEntry_t) (i : nat) (e : esdm_gridEntry_t) (s : esdm_grid_t) :
  tree_wf g -> grid g = Some cs -> cs !! i = Some e -> subgrid e = Some s -> tree_wf s /\ dimCount s = dimCount g.
Proof.
  intros Hwf Hg Hi He. pose proof (tree_node g Hwf) as Hn. destruct Hwf as [_ Hs]. pose proof (Hs cs i e s Hg Hi He) as Hws.
  split; [exact Hws |]. pose proof (nw_domain _ Hn cs i e s Hg Hi He) as Hd. apply (f_equal length) in Hd.
  pose proof (Forall2_length _ _ _ (coordinates_ok _ (gw_axes _ (nw_grid _ Hn)) (Z.of_nat i))) as Hl.
  unfold domain, cellOf in Hd. rewrite length_fmap, length_zip_with, Hl in Hd.
  rewrite <- (gw_dims _ (nw_grid _ Hn)), <- (gw_dims _ (nw_grid _ (tree_node s Hws))). lia.
Qed.

End TreeFacts.

(** * Finding the cell of a dataspace *)

Section FindInHierarchy.

Context {F : Type} (space : esdm_dataspace_t) (Hsw : space_wf space) (Hs64 : space_int64 space)
  (Hpos : Forall (fun s => 1 <= s) (size space)).

Notation esdm_grid_t := (esdm_grid_t F).

(** The result of the search: the hierarchy only gets cells allocated, and the path leads to the
    leaf cell with exactly the extents of the dataspace, or there is none. *)
Definition found (g : esdm_grid_t) (r : option (list nat)) (g' : esdm_grid_t) : Prop :=
  tree_wf g' /\ same_tree g g' /\
  match r with
  | Some p => leafExtents g p = Some (extends space) /\ exists f, cellAtPath g' p = Some (Entry None f)
  | None => forall p, leafExtents g p <> Some (extends space)
  end.

Section Node.

Context (g : esdm_grid_t) (Hwf : tree_wf g) (index : list Z) (Hi : index_ok (axes g) index)
  (Hin : Forall2 range_inside (extends space) (cellOf (axes g) index)).

(** The cell of the top-level grid that contains the dataspace. *)
Definition cellNumber : nat := Z.to_nat (horner (axes g) index 0).

Lemma cellNumber_coordinates : Z.of_nat cellNumber < cellTotal (axes g) /\ coordinates (axes g) (Z.of_nat cellNumber) = index.
Proof.
  destruct (coordinates_horner (axes g) index Hi) as [Hb He]. unfold cellNumber. rewrite Z2Nat.id by lia. split; [lia | done].
Qed.

(** Any leaf with the extents of the dataspace is below that cell. *)
Lemma leaf_below (p : list nat) : leafExtents g p = Some (extends space) -> exists p', p = cellNumber :: p'.
Proof.
  intros Hp. destruct p as [| k p]; [done |]. destruct (leafExtents_first g k p _ Hwf Hp) as [Hk Hk2].
  pose proof (gw_axes _ (nw_grid _ (tree_node g Hwf))) as Hax. destruct cellNumber_coordinates as [Hc1 Hc2].
  assert (E : coordinates (axes g) (Z.of_nat k) = index).
  { eapply cell_inside_unique; [exact Hax | by apply extends_nonempty | by apply coordinates_ok | exact Hi | exact Hk2 | exact Hin]. }
  rewrite <- Hc2 in E. apply (coordinates_inj _ Hax) in E; [| lia | lia]. exists p. f_equal. lia.
Qed.

End Node.

Lemma getCell_lookup (g : esdm_grid_t) cs i e : grid g = Some cs -> cs !! i = Some e -> getCell g i = Done e.
Proof. intros Hg Hi. unfold getCell. rewrite Hg. simpl. by rewrite Hi. Qed.

Lemma same_tree_refl (g : esdm_grid_t) : same_tree g g.
Proof. by constructor. Qed.

(** A cell without a subgrid. *)
Lemma found_leaf (g g' : esdm_grid_t) cs (index : list Z) (e : esdm_gridEntry_t esdm_grid_t F) (tooSmall : bool) :
  tree_wf g -> tree_wf g' -> same_tree g g' -> grid g' = Some cs -> index_ok (axes g) index ->
  Forall2 range_inside (extends space) (cellOf (axes g) index) ->
  (tooSmall = false <-> extends space = cellOf (axes g) index) ->
  cs !! cellNumber g index = Some e -> subgrid e = None ->
  found g (if tooSmall then None else Some [cellNumber g index]) g'.
Proof.
  intros Hwf Hwf' Hsame Hg Hi Hin Hts He Hsub. split; [exact Hwf' |]. split; [exact Hsame |].
  assert (Hle : leafExtents g [cellNumber g index] = Some (cellOf (axes g) index)).
  { rewrite <- (sm_leaves _ _ Hsame). cbn [leafExtents]. rewrite Hg. simpl. rewrite He. simpl. rewrite Hsub.
    rewrite (sm_axes _ _ Hsame). by rewrite (proj2 (cellNumber_coordinates g index Hi)). }
  destruct tooSmall.
  - intros p Hp. destruct (leaf_below g Hwf index Hi Hin p Hp) as [p' ->].
    rewrite <- (sm_leaves _ _ Hsame) in Hp, Hle. cbn [leafExtents] in Hp, Hle. rewrite Hg in Hp, Hle. simpl in Hp, Hle.
    rewrite He in Hp, Hle. simpl in Hp, Hle. rewrite Hsub in Hp, Hle. destruct p'; [| done].
    rewrite Hp in Hle. injection Hle as Hle. by apply Hts in Hle.
  - rewrite (proj1 Hts eq_refl). split; [exact Hle |]. exists (fragment e). cbn [cellAtPath]. rewrite Hg. simpl.
    rewrite He. simpl. destruct e as [sub f]. simpl in *. by subst.
Qed.

(** A cell with a subgrid. *)
Lemma found_child (g g' : esdm_grid_t) cs (index : list Z) (e : esdm_gridEntry_t esdm_grid_t F) (child child' : esdm_grid_t) r :
  tree_wf g -> tree_wf g' -> same_tree g g' -> grid g' = Some cs -> index_ok (axes g) index ->
  Forall2 range_inside (extends space) (cellOf (axes g) index) ->
  cs !! cellNumber g index = Some e -> subgrid e = Some child -> found child r child' ->
  found g (cons (cellNumber g index) <$> r) (setCell g' (cellNumber g index) (Entry (Some child') (fragment e))).
Proof.
  intros Hwf Hwf' Hsame Hg Hi Hin He Hsub (Hcwf & Hcsame & Hr).
  destruct (same_tree_child g' cs _ e child child' Hwf' Hg He Hsub Hcwf Hcsame) as [Hw2 Hs2].
  split; [exact Hw2 |]. split; [by eapply same_tree_trans |].
  assert (Hle : forall p, leafExtents g (cellNumber g index :: p) = leafExtents child p).
  { intros p. rewrite <- (sm_leaves _ _ Hsame). cbn [leafExtents]. rewrite Hg. simpl. rewrite He. simpl. by rewrite Hsub. }
  destruct r as [p |]; cbn [fmap option_fmap option_map].
  - rewrite Hle. destruct Hr as [Hr (f & Hf)]. split; [done |]. exists f.
    erewrite cellAtPath_cons; [| simpl; by rewrite Hg | rewrite list_lookup_insert_eq; [done | by eapply lookup_lt_Some] | by destruct p].
    done.
  - intros p Hp. destruct (leaf_below g Hwf index Hi Hin p Hp) as [p' ->]. rewrite Hle in Hp. by apply (Hr p').
Qed.

Lemma findCellInHierarchy_loop_ok (fuel : nat) (g : esdm_grid_t) :
  tree_wf g -> dims space = dimCount g -> (depth g <= fuel)%nat ->
  exists r g', findCellInHierarchy_loop fuel g space = Done (r, g') /\ found g r g'.
Proof.
  revert g. induction fuel as [| fuel IH]; intros g Hwf Hd Hfuel.
  { destruct g as [d id n [cs |] axs]; simpl in Hfuel; lia. }
  pose proof (tree_node g Hwf) as Hn. cbn [findCellInHierarchy_loop].
  destruct (findCell_ok g space (nw_grid _ Hn) (nw_int64 _ Hn) Hsw Hs64 Hd Hpos) as (r & ts & -> & Hr). run.
  destruct r as [index |].
  2: { exists None, g. split; [done |]. split; [exact Hwf |]. split; [apply same_tree_refl |]. intros [| k p] Hp; [done |].
       destruct (leafExtents_first g k p _ Hwf Hp) as [_ Hk]. apply (Hr (coordinates (axes g) (Z.of_nat k))); [| exact Hk].
       apply coordinates_ok, Hn. }
  destruct Hr as (Hi & Hin & Hts). rewrite linearIndex_ok by (done || apply Hn). run.
  destruct (coordinates_horner (axes g) index Hi) as [Hb _].
  rewrite eassert_true by (rewrite Z.geb_leb; apply Z.leb_le; lia). run. fold (cellNumber g index).
  destruct (cellNumber_coordinates g index Hi) as [Hc1 Hc2].
  destruct (bool_decide (grid g = None) && ts)%bool eqn:Esmall.
  { apply andb_true_iff in Esmall as [Hg%bool_decide_eq_true ->]. exists None, g. split; [done |]. split; [exact Hwf |].
    split; [apply same_tree_refl |]. intros p Hp. destruct (leaf_below g Hwf index Hi Hin p Hp) as [p' ->].
    cbn [leafExtents] in Hp. rewrite Hg in Hp. destruct p'; [| done]. rewrite (proj2 (Z.ltb_lt _ _)), Hc2 in Hp by lia.
    injection Hp as Hp. symmetry in Hp. by apply Hts in Hp. }
  destruct (ensureGrid_ok g Hwf) as (g' & cs & -> & Hg' & Hwf' & Hsame & Hold). run.
  destruct (lookup_lt_is_Some_2 cs (cellNumber g index)) as [e He].
  { pose proof (nw_cells _ (tree_node g' Hwf') cs Hg') as Hl. rewrite (sm_axes _ _ Hsame) in Hl. lia. }
  rewrite (getCell_lookup g' cs _ e Hg' He). run. destruct (subgrid e) as [child |] eqn:Hsub.
  - destruct (child_dims g' cs _ e child Hwf' Hg' He Hsub) as [Hcwf Hcd].
    assert (Hdg : dimCount g' = dimCount g).
    { rewrite <- (gw_dims _ (nw_grid _ (tree_node g' Hwf'))), (sm_axes _ _ Hsame). apply (gw_dims _ (nw_grid _ Hn)). }
    destruct (Hold _ e He) as [(cs0 & Hg0 & He0) | [_ ->]]; [| done].
    destruct (IH child Hcwf) as (r & child' & -> & Hf); [congruence | |].
    { pose proof (depth_child g cs0 _ e child Hg0 He0 Hsub). lia. }
    run. eexists _, _. split; [done |]. by eapply found_child.
  - eexists _, _. split; [done |]. by eapply found_leaf.
Qed.

(** [esdm_grid_findCellInHierarchy()] for a non-empty dataspace finds the cell of the hierarchy
    that has exactly its extents and no subgrid, if there is one, and reports an error otherwise;
    the only change to the hierarchy is the allocation of cells on the way. *)
Theorem findCellInHierarchy_correct (g : esdm_grid_t) :
  tree_wf g -> dims space = dimCount g ->
  exists r g', esdm_grid_findCellInHierarchy g space = Done (r, g') /\ tree_wf g' /\ same_tree g g' /\
  match r with
  | Some p => leafExtents g p = Some (extends space)
  | None => forall p, leafExtents g p <> Some (extends space)
  end.
Proof.
  intros Hwf Hd. destruct (findCellInHierarchy_loop_ok (depth g) g Hwf Hd ltac:(lia)) as (r & g' & E & Hw & Hs & Hr).
  exists r, g'. split; [exact E |]. split; [exact Hw |]. split; [exact Hs |]. destruct r; [apply Hr | exact Hr].
Qed.

End FindInHierarchy.
