(* ===== verification/GridRegistry.v ===== *)
(** Grids of a dataset (src/esdm-grid.c), part three: the registry of complete and incomplete grids
    and the operations on the grids of a dataset as a state machine. *)

From S2P Require Import Prelude Hypercube Odometer Json Dataspace Partition Split Grid GridTree.

#[local] Set Warnings "-register-all,-notation-for-abbreviation".

(** * The registry *)

(** The registry holds every grid once, the complete ones first. *)
Record registry_ok (complete : nat -> bool) (r : gridRegistry) : Prop := {
  ro_count : 0 <= gridCount r;
  ro_incomplete : 0 <= incompleteGridCount r;
  ro_length : Z.of_nat (length (grids r)) = gridCount r + incompleteGridCount r;
  ro_slots : gridCount r + incompleteGridCount r <= gridSlotCount r /\ 0 < gridSlotCount r;
  ro_nodup : NoDup (grids r);
  ro_order k h : grids r !! k = Some h -> (Z.of_nat k < gridCount r <-> complete h = true)
}.

Lemma registerGrid_ok (complete : nat -> bool) (r : gridRegistry) (h : nat) :
  registry_ok complete r -> h ∉ grids r -> complete h = false ->
  exists r', esdmI_dataset_registerGrid r h = Done r' /\ registry_ok complete r' /\ grids r' = grids r ++ [h].
Proof.
  intros [H1 H2 H3 H4 H5 H6] Hh Hc. unfold esdmI_dataset_registerGrid. set (slots := if _ =? _ then _ else _).
  assert (Hs : gridCount r + incompleteGridCount r < slots) by (unfold slots; split_bools; lia).
  rewrite eassert_true by (by apply Z.ltb_lt). run. eexists. split; [done |]. split; [| done]. constructor; simpl; try lia.
  - rewrite length_app. simpl. lia.
  - apply NoDup_app. split; [done |]. split; [| apply NoDup_singleton]. intros x Hx ->%list_elem_of_singleton. done.
  - intros k x Hx. apply lookup_app_Some in Hx as [Hx | [Hk Hx]]; [by apply H6 |].
    apply list_lookup_singleton_Some in Hx as [Hk2 ->]. split; [lia | congruence].
Qed.

Lemma findGrid_ok (n index k : nat) (l : list nat) (h : nat) :
  NoDup l -> (index <= k < index + n)%nat -> l !! k = Some h -> (index + n <= length l)%nat ->
  findGrid n index l h = Done k.
Proof.
  intros Hnd. revert index. induction n as [| n IH]; intros index Hk Hh Hl; [lia |]. cbn [findGrid].
  destruct (lookup_lt_is_Some_2 l index) as [x Hx]; [lia |]. rewrite Hx. run. case_bool_decide as Hxh.
  - subst x. by rewrite (NoDup_lookup l index k h Hnd Hx Hh).
  - apply IH; [| done | lia]. split; [| lia]. destruct (decide (index = k)) as [-> | Hne]; [congruence | lia].
Qed.

(** Exchanging two elements. *)
Lemma swap_lookup {A} (l : list A) (a b k : nat) (x y z : A) :
  l !! a = Some x -> l !! b = Some y -> <[a := y]> (<[b := x]> l) !! k = Some z ->
  (k = a /\ z = y) \/ (k = b /\ k <> a /\ z = x) \/ (k <> a /\ k <> b /\ l !! k = Some z).
Proof.
  intros Ha Hb Hk. apply lookup_lt_Some in Ha as Hla. apply lookup_lt_Some in Hb as Hlb.
  destruct (decide (k = a)) as [-> | Hka].
  - rewrite list_lookup_insert_eq in Hk by (by rewrite length_insert). left. by simplify_eq.
  - rewrite list_lookup_insert_ne in Hk by done. right. destruct (decide (k = b)) as [-> | Hkb].
    + rewrite list_lookup_insert_eq in Hk by done. left. by simplify_eq.
    + rewrite list_lookup_insert_ne in Hk by done. by right.
Qed.

Lemma swap_perm {A} (l : list A) (a b : nat) (x y : A) :
  l !! a = Some x -> l !! b = Some y -> <[a := y]> (<[b := x]> l) ≡ₚ l.
Proof.
  intros Ha Hb. apply lookup_lt_Some in Ha as Hla. apply lookup_lt_Some in Hb as Hlb.
  destruct (decide (a = b)) as [-> | Hne].
  { assert (x = y) as -> by congruence. rewrite list_insert_insert_eq. by rewrite list_insert_id. }
  assert (Hgen : forall (a b : nat) (x y : A) (l : list A), (a < b)%nat -> l !! a = Some x -> l !! b = Some y -> <[a := y]> (<[b := x]> l) ≡ₚ l).
  { clear. induction a as [| a IH]; intros b x y [| z l] Hlt Ha Hb; simpl in *; simplify_eq; destruct b as [| b]; simpl in *; simplify_eq; try lia.
    - apply (Permutation_cons_inv (a := y)). apply list_insert_id in Hb as Hid.
      rewrite <- Hid at 2. rewrite !insert_take_drop by (by eapply lookup_lt_Some).
      rewrite <- !Permutation_middle. by apply perm_skip, Permutation_swap.
    - apply perm_skip, IH; [lia | done | done]. }
  destruct (decide (a < b)%nat); [by apply Hgen |]. rewrite list_insert_insert_ne by done. apply Hgen; [lia | done | done].
Qed.

Lemma registerGridCompletion_ok (complete : nat -> bool) (r : gridRegistry) (h : nat) :
  registry_ok complete r -> h ∈ grids r -> complete h = false ->
  exists r', esdmI_dataset_registerGridCompletion r h = Done r' /\
  registry_ok (fun x => if decide (x = h) then true else complete x) r' /\ grids r' ≡ₚ grids r.
Proof.
  intros [H1 H2 H3 H4 H5 H6] Hh Hc. apply list_elem_of_lookup in Hh as [k Hk]. apply lookup_lt_Some in Hk as Hlk.
  assert (Hge : gridCount r <= Z.of_nat k).
  { destruct (H6 k h Hk) as [Hi _]. destruct (Z.ltb_spec (Z.of_nat k) (gridCount r)) as [Hlt | Hge]; [| done]. by rewrite (Hi Hlt) in Hc. }
  unfold esdmI_dataset_registerGridCompletion. rewrite eassert_true by (rewrite negb_true_iff; apply Z.eqb_neq; lia). run.
  rewrite (findGrid_ok _ _ k _ h) by (done || lia). run.
  destruct (lookup_lt_is_Some_2 (grids r) (Z.to_nat (gridCount r))) as [x Hx]; [lia |]. rewrite Hx. run.
  pose proof (swap_perm _ _ _ _ _ Hx Hk) as Hp. eexists. split; [done |]. split; [| exact Hp]. constructor; simpl; try lia.
  - rewrite !length_insert. lia.
  - by rewrite Hp.
  - intros j z Hz. destruct (swap_lookup _ _ _ j _ _ z Hx Hk Hz) as [[-> ->] | [(-> & Hne & ->) | (Hja & Hjk & Hj)]].
    + rewrite decide_True by done. split; [done | lia].
    + rewrite decide_False by (intros ->; apply Hne; by eapply NoDup_lookup). pose proof (H6 _ _ Hx). split; [lia |].
      intros Hcx. apply H6 in Hx. rewrite Hcx in Hx. lia.
    + rewrite decide_False by (intros ->; apply Hjk; by eapply NoDup_lookup). rewrite <- (H6 j z Hj). lia.
Qed.

(** * Creation of grids *)

Section Creation.

Context {F : Type}.

Notation esdm_grid_t := (esdm_grid_t F).
Notation esdm_gridEntry_t := (esdm_gridEntry_t esdm_grid_t F).

(** A box whose coordinates and sizes are [int64_t] values. *)
Definition box_ok (os ss : list Z) : Prop :=
  Forall2 (fun o s => 1 <= s <= INT64_MAX /\ INT64_MIN <= o /\ o + s <= INT64_MAX) os ss.

Lemma makeAxis_ok (offset : option (list Z)) (os ss : list Z) (n : nat) :
  length os = n -> box_ok os ss -> offset = Some os \/ (offset = None /\ os = replicate n 0) ->
  mapM (makeAxis offset ss) (seq 0 n) = Done (zip_with (fun o s => Axis 1 o (o + s) None) os ss).
Proof.
  intros Hn Hb Ho. pose proof (Forall2_length _ _ _ Hb) as Hl.
  assert (Hgen : forall k i, (i + k = n)%nat ->
    mapM (makeAxis offset ss) (seq i k) = Done (zip_with (fun o s => Axis 1 o (o + s) None) (drop i os) (drop i ss))).
  { induction k as [| k IH]; intros i Hi; [by rewrite !drop_ge by lia |]. cbn [seq]. rewrite mapM_cons, (IH (S i)) by lia.
    destruct (lookup_lt_is_Some_2 os i) as [o Hio]; [lia |]. destruct (lookup_lt_is_Some_2 ss i) as [s His]; [lia |].
    pose proof (Forall2_lookup_lr _ _ _ i _ _ Hb Hio His) as (H1 & H2 & H3).
    rewrite (drop_S _ _ _ Hio), (drop_S _ _ _ His). unfold makeAxis.
    assert (E : match offset with Some l => deref (l !! i) | None => mret 0 end = Done o).
    { destruct Ho as [-> | [-> ->]]; [by rewrite Hio |]. by apply lookup_replicate in Hio as [-> _]. }
    rewrite E. run. rewrite His. run. rewrite chk64_ok by lia. done. }
  by rewrite (Hgen n 0%nat).
Qed.

Lemma newAxes_ok (os ss : list Z) :
  box_ok os ss -> let axs := zip_with (fun o s => Axis 1 o (o + s) None) os ss in
  Forall axis_wf axs /\ Forall axis_int64 axs /\ cellTotal axs = 1 /\ (fun a => Range (outerLow a) (outerHigh a)) <$> axs = box os ss.
Proof.
  intros Hb. cbv zeta. induction Hb as [| o s os ss (H1 & H2 & H3) _ (IH1 & IH2 & IH3 & IH4)]; [by repeat constructor |]. cbn [zip_with].
  split; [| split; [| split]].
  - constructor; [| exact IH1]. constructor; simpl; try done. split; [| by simpl].
    apply SSorted_cons; [apply SSorted_cons; constructor | apply Forall_singleton; simpl; lia].
  - constructor; [constructor; simpl; lia | exact IH2].
  - unfold cellTotal in *. rewrite fmap_cons. change (prod (?x :: ?l)) with (x * prod l). rewrite IH3. done.
  - rewrite fmap_cons. unfold box in *. cbn [zip_with]. by f_equal.
Qed.

Lemma create_ok (n : Z) (offset : option (list Z)) (os ss : list Z) :
  0 < n -> Z.of_nat (length os) = n -> box_ok os ss -> offset = Some os \/ (offset = None /\ os = replicate (Z.to_nat n) 0) ->
  exists g : esdm_grid_t, esdm_grid_create_internal n n offset ss = Done g /\ tree_wf g /\ grid g = None /\ dimCount g = n /\
  id g = None /\ domain g = box os ss.
Proof.
  intros Hn Hl Hb Ho. unfold esdm_grid_create_internal. rewrite (eassert_true (n =? n)) by (by apply Z.eqb_eq). run.
  rewrite eassert_true by (by apply Z.ltb_lt). run. rewrite (makeAxis_ok offset os) by (done || lia). run.
  destruct (newAxes_ok os ss Hb) as (H1 & H2 & H3 & H4). eexists. split; [done |]. split; [| done].
  constructor; [| done]. constructor; simpl; try done.
  - constructor; simpl; [| done | done]. rewrite length_zip_with, <- (Forall2_length _ _ _ Hb). lia.
  - constructor; simpl; [done |]. rewrite H3. done.
Qed.

(** Replacing a subgrid by one for the same cell and with the same completion. *)
Lemma replace_child (g : esdm_grid_t) cs (i : nat) (e : esdm_gridEntry_t) (child child' : esdm_grid_t) :
  tree_wf g -> grid g = Some cs -> cs !! i = Some e -> subgrid e = Some child -> tree_wf child' ->
  domain child' = domain child -> grid_complete child' = grid_complete child ->
  let g' := setCell g i (Entry (Some child') (fragment e)) in
  tree_wf g' /\ domain g' = domain g /\ grid_complete g' = grid_complete g.
Proof.
  intros Hwf Hg Hi He Hwf' Hd Hc g'. pose proof (tree_node g Hwf) as Hn.
  change g' with (update g (emptyCells g) i (Entry (Some child') (fragment e))). split; [| split].
  - apply (update_wf g cs i e _ _ Hwf Hg Hi).
    + unfold weight, cell_complete. simpl. rewrite He, Hc. lia.
    + right. destruct (nw_exclusive _ Hn cs i e Hg Hi); [congruence | done].
    + intros s [= <-]. split; [exact Hwf' |]. rewrite Hd. exact (nw_domain _ Hn cs i e child Hg Hi He).
  - done.
  - unfold grid_complete. simpl. by rewrite Hg.
Qed.

(** A new subgrid in an empty cell. *)
Lemma newSubgrid_ok (g : esdm_grid_t) cs (j : nat) (e : esdm_gridEntry_t) (index : list Z) :
  tree_wf g -> grid g = Some cs -> cs !! j = Some e -> subgrid e = None -> fragment e = None ->
  index_ok (axes g) index -> coordinates (axes g) (Z.of_nat j) = index ->
  let c := cellOf (axes g) index in
  exists child, esdm_grid_create_internal (dimCount g) (dimCount g) (Some (rstart <$> c)) ((fun r => rend r - rstart r) <$> c) = Done child /\
  let g' := setCell g j (Entry (Some child) None) in
  tree_wf g' /\ domain g' = domain g /\ grid_complete g' = grid_complete g.
Proof.
  intros Hwf Hg He Hse Hfe Hi Hco c. pose proof (tree_node g Hwf) as Hn.
  pose proof (cellRange_int64 g index (nw_grid _ Hn) (nw_int64 _ Hn) Hi) as Hr. fold c in Hr.
  pose proof (Forall2_length _ _ _ Hi) as Hl.
  destruct (create_ok (dimCount g) (Some (rstart <$> c)) (rstart <$> c) ((fun r => rend r - rstart r) <$> c))
    as (child & -> & Hwc & Hgc & _ & _ & Hdc).
  - apply Hn.
  - rewrite length_fmap. unfold c, cellOf. rewrite length_zip_with, Hl, Nat.min_id. apply Hn.
  - clear -Hr. induction Hr as [| r c H _ IH]; [constructor |]. rewrite !fmap_cons. constructor; [lia | exact IH].
  - by left.
  - exists child. split; [done |]. cbv zeta. change (setCell g j (Entry (Some child) None)) with (update g (emptyCells g) j (Entry (Some child) None)).
    split; [| split; [done | unfold grid_complete; simpl; by rewrite Hg]].
    apply (update_wf g cs j e _ _ Hwf Hg He); [| by right |].
    + unfold weight, cell_complete. simpl. rewrite Hse, Hfe. unfold grid_complete. rewrite Hgc. lia.
    + intros s [= <-]. split; [exact Hwc |]. rewrite Hdc, Hco. fold c. clear -Hr. unfold box.
      induction Hr as [| [lo hi] c H _ IH]; [done |]. cbn. f_equal; [f_equal; lia | exact IH].
Qed.

Lemma createSubgrid_ok (g : esdm_grid_t) (index : list Z) :
  tree_wf g -> length index = length (axes g) ->
  exists st g', esdm_grid_createSubgrid (dimCount g) g index = Done (st, g') /\
  tree_wf g' /\ domain g' = domain g /\ grid_complete g' = grid_complete g.
Proof.
  intros Hwf Hl. pose proof (tree_node g Hwf) as Hn. unfold esdm_grid_createSubgrid.
  destruct (id g); [eexists _, _; split; [done |]; split; [exact Hwf | done] |].
  assert (Hdec : index_ok (axes g) index \/ ~ index_ok (axes g) index).
  { unfold index_ok. destruct (decide (Forall2 (fun i a => 0 <= i < intervals a) index (axes g))); auto. }
  destruct Hdec as [Hi | Hi].
  2: { unfold esdm_grid_linearIndex. rewrite linearIndex_loop_bad; [| apply Hn | done | done | lia | destruct (nw_int64 _ Hn); lia].
       run. simpl. eexists _, _. split; [done |]. split; [exact Hwf | done]. }
  rewrite linearIndex_ok by (done || apply Hn). run. destruct (coordinates_horner (axes g) index Hi) as [Hb Hco].
  rewrite (proj2 (Z.ltb_ge _ 0)) by lia. destruct (ensureGrid_ok g Hwf) as (g' & cs & -> & Hg' & Hwf' & Hsame & _). run.
  assert (Hdg : domain g' = domain g) by (unfold domain; by rewrite (sm_axes _ _ Hsame)).
  pose proof (tree_node g' Hwf') as Hn'. rewrite <- (sm_axes _ _ Hsame) in Hi, Hb, Hco. set (j := Z.to_nat _) in *.
  rewrite (sm_axes _ _ Hsame) in Hb, Hco.
  destruct (lookup_lt_is_Some_2 cs j) as [e He].
  { pose proof (nw_cells _ Hn' cs Hg'). rewrite (sm_axes _ _ Hsame) in *. unfold j. lia. }
  rewrite (getCell_lookup g' cs j e Hg' He). run.
  destruct (subgrid e) as [c |] eqn:Hse; [eexists _, _; split; [done |]; split; [exact Hwf' | split; [done | apply Hsame]] |].
  destruct (fragment e) as [c |] eqn:Hfe; [eexists _, _; split; [done |]; split; [exact Hwf' | split; [done | apply Hsame]] |].
  rewrite (cellSize_ok g' index) by (done || apply Hn'). run.
  assert (Hdim : dimCount g = dimCount g').
  { rewrite <- (gw_dims _ (nw_grid _ Hn)), <- (gw_dims _ (nw_grid _ Hn')). by rewrite (sm_axes _ _ Hsame). }
  destruct (newSubgrid_ok g' cs j e index Hwf' Hg' He Hse Hfe Hi) as (child & Ec & Hw2 & Hd2 & Hc2).
  { unfold j. rewrite Z2Nat.id by lia. by rewrite (sm_axes _ _ Hsame). }
  rewrite Hdim, Ec. run. eexists _, _. split; [done |]. split; [exact Hw2 |].
  rewrite Hd2, Hc2. split; [done | apply Hsame].
Qed.

End Creation.

(** * The grids of a dataset as a state machine *)

Section Machine.

Context {F : Type}.

Notation esdm_grid_t := (esdm_grid_t F).
Notation esdm_gridEntry_t := (esdm_gridEntry_t esdm_grid_t F).

(** The top-level grids of a dataset; the number of a grid is its position in [trees]. *)
Record datasetGrids := DatasetGrids { registry : gridRegistry; trees : list esdm_grid_t }.

(** A call with a pointer to the grid at a path. *)
Fixpoint atPath (op : esdm_grid_t -> outcome (esdm_status * esdm_grid_t)) (g : esdm_grid_t) (path : list nat)
    : outcome (esdm_status * esdm_grid_t) :=
  match path with
  | [] => op g
  | i :: rest =>
      cell ← getCell g i;
      child ← deref (subgrid cell);
      '(st, child') ← atPath op child rest;
      mret (st, setCell g i (Entry (Some child') (fragment cell)))
  end.

Fixpoint gridAt (g : esdm_grid_t) (path : list nat) : option esdm_grid_t :=
  match path with
  | [] => Some g
  | i :: rest => cs ← grid g; e ← cs !! i; s ← subgrid e; gridAt s rest
  end.

(** The calls that change the grids of a dataset. *)
Inductive action :=
| CreateGrid (offset size : list Z)
| CreateSimple (size : list Z)
| SubdivideGrid (g : nat) (path : list nat) (op : subdivision) (dim : Z)
| CreateSubgrid (g : nat) (path : list nat) (index : list Z)
| FindCell (g : nat) (space : esdm_dataspace_t)
| FillCell (g : nat) (path : list nat) (f : F).

Definition onGrid (s : datasetGrids) (h : nat) (path : list nat) (op : esdm_grid_t -> outcome (esdm_status * esdm_grid_t))
    : outcome datasetGrids :=
  g ← deref (trees s !! h);
  '(_, g') ← atPath op g path;
  mret (DatasetGrids (registry s) (<[h := g']> (trees s))).

(** [esdm_grid_create()] and [esdm_grid_createSimple()] with the number of the new grid; [None] is a null
    pointer for the offset. *)
Definition createGrid (datasetDims dimCount : Z) (offset : option (list Z)) (size : list Z) (s : datasetGrids) : outcome (esdm_status * nat * datasetGrids) :=
  g ← esdm_grid_create_internal datasetDims dimCount offset size;
  r ← esdmI_dataset_registerGrid (registry s) (length (trees s));
  mret (ESDM_SUCCESS, length (trees s), DatasetGrids r (trees s ++ [g])).

Definition esdm_grid_create (datasetDims dimCount : Z) (offset size : list Z) (s : datasetGrids) : outcome (esdm_status * nat * datasetGrids) :=
  createGrid datasetDims dimCount (Some offset) size s.

Definition esdm_grid_createSimple (datasetDims dimCount : Z) (size : list Z) (s : datasetGrids) : outcome (esdm_status * nat * datasetGrids) :=
  createGrid datasetDims dimCount None size s.

Definition perform (n : Z) (a : action) (s : datasetGrids) : outcome datasetGrids :=
  match a with
  | CreateGrid offset size => '(_, _, s) ← esdm_grid_create n n offset size s; mret s
  | CreateSimple size => '(_, _, s) ← esdm_grid_createSimple n n size s; mret s
  | SubdivideGrid h path op dim => onGrid s h path (fun g => subdivideBy op g dim)
  | CreateSubgrid h path index => onGrid s h path (fun g => esdm_grid_createSubgrid n g index)
  | FindCell h space => onGrid s h [] (fun g => '(_, g') ← esdm_grid_findCellInHierarchy g space; mret (ESDM_SUCCESS, g'))
  | FillCell h path f =>
      g ← deref (trees s !! h);
      '(g', completed) ← completeCell g path f;
      r ← (if completed : bool then esdmI_dataset_registerGridCompletion (registry s) h else mret (registry s));
      mret (DatasetGrids r (<[h := g']> (trees s)))
  end.

(** What a caller must respect: valid pointers, boxes and arguments within the range of the
    integer types, and, as [esdm_write_grid()] checks, only empty cells are filled. *)
Definition allowed (n : Z) (a : action) (s : datasetGrids) : Prop :=
  match a with
  | CreateGrid offset size => Z.of_nat (length offset) = n /\ box_ok offset size
  | CreateSimple size => box_ok (replicate (Z.to_nat n) 0) size
  | SubdivideGrid h path op dim =>
      exists top g ax, trees s !! h = Some top /\ gridAt top path = Some g /\ 0 <= dim < dimCount g /\
      axes g !! Z.to_nat dim = Some ax /\ arguments_ok op ax /\
      forall st g', subdivideBy op g dim = Done (st, g') -> grid_int64 g'
  | CreateSubgrid h path index =>
      exists top g, trees s !! h = Some top /\ gridAt top path = Some g /\ Z.of_nat (length index) = n
  | FindCell h space =>
      (h < length (trees s))%nat /\ space_wf space /\ space_int64 space /\ Forall (fun x => 1 <= x) (size space) /\ dims space = n
  | FillCell h path f => exists top, trees s !! h = Some top /\ cellAtPath top path = Some (Entry None None)
  end.

Definition completeHandle (s : datasetGrids) (h : nat) : bool := from_option grid_complete false (trees s !! h).

(** Every grid of the dataset is registered once, the complete grids come first, and all
    hierarchies are well-formed. *)
Record grids_inv (n : Z) (s : datasetGrids) : Prop := {
  gv_registry : registry_ok (completeHandle s) (registry s);
  gv_handles h : h ∈ grids (registry s) <-> (h < length (trees s))%nat;
  gv_trees h g : trees s !! h = Some g -> tree_wf g /\ dimCount g = n
}.

Lemma registry_ok_ext (c c' : nat -> bool) (r : gridRegistry) :
  (forall h, h ∈ grids r -> c h = c' h) -> registry_ok c r -> registry_ok c' r.
Proof.
  intros He [H1 H2 H3 H4 H5 H6]. constructor; try done. intros k h Hk. rewrite <- He; [by apply H6 |]. by eapply list_elem_of_lookup_2.
Qed.

(** An operation on the grid at a path that keeps its extents and its completion. *)
Lemma atPath_ok (op : esdm_grid_t -> outcome (esdm_status * esdm_grid_t)) (path : list nat) (top g : esdm_grid_t) :
  tree_wf top -> gridAt top path = Some g ->
  (tree_wf g -> exists st g', op g = Done (st, g') /\ tree_wf g' /\ domain g' = domain g /\ grid_complete g' = grid_complete g) ->
  exists st top', atPath op top path = Done (st, top') /\ tree_wf top' /\ domain top' = domain top /\
  grid_complete top' = grid_complete top.
Proof.
  intros Hwf Hg Hop. revert top Hwf Hg. induction path as [| i path IH]; intros top Hwf Hg.
  { injection Hg as ->. by apply Hop. }
  cbn [gridAt] in Hg. destruct (grid top) as [cs |] eqn:Hgr; [| done]. simpl in Hg.
  destruct (cs !! i) as [e |] eqn:He; [| done]. simpl in Hg. destruct (subgrid e) as [child |] eqn:Hse; [| done]. simpl in Hg.
  destruct (child_dims top cs i e child Hwf Hgr He Hse) as [Hwc _].
  destruct (IH child Hwc Hg) as (st & child' & Ec & Hw' & Hd' & Hc').
  cbn [atPath]. rewrite (getCell_lookup top cs i e Hgr He). run. rewrite Hse. run. rewrite Ec. run.
  destruct (replace_child top cs i e child child' Hwf Hgr He Hse Hw' Hd' Hc') as (Hw & Hd & Hc).
  eexists _, _. split; [done |]. split; [exact Hw |]. split; [exact Hd | exact Hc].
Qed.

Lemma domain_dims (g g' : esdm_grid_t) : tree_wf g -> tree_wf g' -> domain g' = domain g -> dimCount g' = dimCount g.
Proof.
  intros Hg Hg' Hd. apply (f_equal length) in Hd. unfold domain in Hd. rewrite !length_fmap in Hd.
  rewrite <- (gw_dims _ (nw_grid _ (tree_node g Hg))), <- (gw_dims _ (nw_grid _ (tree_node g' Hg'))). lia.
Qed.

Lemma gridAt_wf (path : list nat) (top g : esdm_grid_t) :
  tree_wf top -> gridAt top path = Some g -> tree_wf g /\ dimCount g = dimCount top.
Proof.
  revert top. induction path as [| i path IH]; intros top Hwf Hg; [injection Hg as ->; split; [exact Hwf | done] |].
  cbn [gridAt] in Hg. destruct (grid top) as [cs |] eqn:Hgr; [| done]. simpl in Hg.
  destruct (cs !! i) as [e |] eqn:He; [| done]. simpl in Hg. destruct (subgrid e) as [child |] eqn:Hse; [| done]. simpl in Hg.
  destruct (child_dims top cs i e child Hwf Hgr He Hse) as [Hwc Hdc].
  destruct (IH child Hwc Hg) as [Hw Hd]. split; [exact Hw | congruence].
Qed.

Lemma onGrid_inv (n : Z) (s : datasetGrids) (h : nat) (path : list nat) (top g : esdm_grid_t) op :
  grids_inv n s -> trees s !! h = Some top -> gridAt top path = Some g ->
  (tree_wf g -> exists st g', op g = Done (st, g') /\ tree_wf g' /\ domain g' = domain g /\ grid_complete g' = grid_complete g) ->
  exists s', onGrid s h path op = Done s' /\ grids_inv n s'.
Proof.
  intros [Hr Hh Ht] Htop Hg Hop. destruct (Ht h top Htop) as [Hwf Hdim].
  destruct (atPath_ok op path top g Hwf Hg Hop) as (st & top' & E & Hw & Hd & Hc).
  unfold onGrid. rewrite Htop. run. rewrite E. run. eexists. split; [done |].
  assert (Hlt := lookup_lt_Some _ _ _ Htop). constructor; simpl.
  - eapply registry_ok_ext; [| exact Hr]. intros x _. unfold completeHandle. simpl.
    destruct (decide (x = h)) as [-> | Hne]; [| by rewrite list_lookup_insert_ne].
    rewrite list_lookup_insert_eq, Htop by done. simpl. by rewrite Hc.
  - intros x. by rewrite length_insert.
  - intros x y Hx. apply list_lookup_insert_Some in Hx as [(<- & <- & _) | [_ Hx]]; [| by apply (Ht x)].
    split; [exact Hw |]. rewrite <- Hdim. by apply domain_dims.
Qed.

Lemma subdivideBy_allocated (op : subdivision) (g : esdm_grid_t) (dim : Z) (a : esdm_axis_t) cs :
  grid g = Some cs -> 0 <= dim < dimCount g -> arguments_ok op a -> subdivideBy op g dim = Done (ESDM_INVALID_STATE_ERROR, g).
Proof.
  intros Hg Hdim Hargs.
  assert (E : forall body, subdivideAxis g dim body = Done (ESDM_INVALID_STATE_ERROR, g)).
  { intros body. unfold subdivideAxis. by rewrite (proj2 (Z.ltb_ge dim 0)), Z.geb_leb, (proj2 (Z.leb_gt _ dim)), Hg by lia. }
  destruct op as [size allow | count | bounds]; cbn [subdivideBy]; [apply E | apply E |].
  unfold esdm_grid_subdivide. rewrite eassert_true; [apply E |]. destruct Hargs as (_ & _ & Hl & _). apply Z.ltb_lt. unfold cells. lia.
Qed.

Lemma subdivideBy_emptyCells (op : subdivision) (g g' : esdm_grid_t) (dim : Z) (st : esdm_status) :
  subdivideBy op g dim = Done (st, g') -> emptyCells g' = emptyCells g.
Proof.
  assert (E : forall body, subdivideAxis g dim body = Done (st, g') -> emptyCells g' = emptyCells g).
  { intros body. unfold subdivideAxis. destruct (_ || _); [by intros [= _ <-] |]. destruct (grid g); [by intros [= _ <-] |].
    intros H. apply bind_done_inv in H as (a & _ & H). apply bind_done_inv in H as ([r a'] & _ & H). by injection H as _ <-. }
  destruct op as [size allow | count | bounds]; cbn [subdivideBy]; [apply E | apply E |].
  unfold esdm_grid_subdivide. intros H. apply bind_done_inv in H as (? & _ & H). by eapply E.
Qed.

Lemma subdivideBy_tree (op : subdivision) (g : esdm_grid_t) (dim : Z) (a : esdm_axis_t) :
  tree_wf g -> 0 <= dim < dimCount g -> axes g !! Z.to_nat dim = Some a -> arguments_ok op a ->
  (forall st g', subdivideBy op g dim = Done (st, g') -> grid_int64 g') ->
  exists st g', subdivideBy op g dim = Done (st, g') /\ tree_wf g' /\ domain g' = domain g /\ grid_complete g' = grid_complete g.
Proof.
  intros Hwf Hdim Ha Hargs H64. pose proof (tree_node g Hwf) as Hn. destruct (grid g) as [cs |] eqn:Hg.
  { rewrite (subdivideBy_allocated op g dim a cs) by done. eexists _, _. split; [done |]. split; [exact Hwf | done]. }
  destruct (subdivide_ok op g dim a (nw_grid _ Hn) Hg Hdim Ha Hargs) as (st & g' & E & Hw & Hg' & Hd & Hcase).
  exists st, g'. split; [exact E |]. split; [| split; [exact Hd | unfold grid_complete; by rewrite Hg, Hg']].
  constructor; [| intros cs j e s; congruence]. constructor; try (intros; congruence); [by eapply H64 |].
  intros _. destruct Hcase as [(_ & _ & Hb) | (_ & _ & ->)]; [| by apply (nw_unallocated _ Hn)].
  assert (He : emptyCells g' = emptyCells g); [| rewrite He; by apply (nw_unallocated _ Hn)].
  by eapply subdivideBy_emptyCells.
Qed.

Lemma fillCell_inv (n : Z) (s : datasetGrids) (h : nat) (path : list nat) (f : F) (top : esdm_grid_t) :
  grids_inv n s -> trees s !! h = Some top -> cellAtPath top path = Some (Entry None None) ->
  exists s' g', perform n (FillCell h path f) s = Done s' /\ grids_inv n s' /\ trees s' = <[h := g']> (trees s) /\ completes top path f g'.
Proof.
  intros [Hr Hh Ht] Htop Hcell. destruct (Ht h top Htop) as [Hwf Hdim].
  destruct (completeCell_ok path f top Hwf Hcell) as (g' & Hcomp). pose proof Hcomp as [E Hw Hax Hid Hbefore _ _].
  cbn [perform]. rewrite Htop. run. rewrite E. run. assert (Hlt := lookup_lt_Some _ _ _ Htop).
  assert (Hdg : dimCount g' = n).
  { rewrite <- Hdim. apply domain_dims; [exact Hwf | exact Hw |]. unfold domain. by rewrite Hax. }
  assert (Hch : forall r x, completeHandle (DatasetGrids r (<[h := g']> (trees s))) x =
                          if decide (x = h) then grid_complete g' else completeHandle s x).
  { intros r x. unfold completeHandle. simpl. destruct (decide (x = h)) as [-> | Hne]; [by rewrite list_lookup_insert_eq |].
    by rewrite list_lookup_insert_ne. }
  assert (Htrees : forall x y, <[h := g']> (trees s) !! x = Some y -> tree_wf y /\ dimCount y = n).
  { intros x y Hx. apply list_lookup_insert_Some in Hx as [(<- & <- & _) | [_ Hx]]; [split; [exact Hw | exact Hdg] | by apply (Ht x)]. }
  assert (Hinc : completeHandle s h = false) by (unfold completeHandle; by rewrite Htop).
  destruct (grid_complete g') eqn:Egc.
  - destruct (registerGridCompletion_ok (completeHandle s) (registry s) h Hr) as (r & -> & Hr' & Hp); [by apply Hh | done |].
    run. eexists _, g'. split; [done |]. split; [| done]. constructor; simpl; [| | exact Htrees].
    + eapply registry_ok_ext; [| exact Hr']. intros x _. by rewrite Hch.
    + intros x. rewrite length_insert, Hp. apply Hh.
  - run. eexists _, g'. split; [done |]. split; [| done]. constructor; simpl; [| | exact Htrees].
    + eapply registry_ok_ext; [| exact Hr]. intros x _. rewrite Hch. case_decide; [by subst | done].
    + intros x. rewrite length_insert. apply Hh.
Qed.

Lemma createGrid_inv (n : Z) (s : datasetGrids) (offset : option (list Z)) (os ss : list Z) :
  0 < n -> grids_inv n s -> Z.of_nat (length os) = n -> box_ok os ss -> offset = Some os \/ (offset = None /\ os = replicate (Z.to_nat n) 0) ->
  exists s', createGrid n n offset ss s = Done (ESDM_SUCCESS, length (trees s), s') /\ grids_inv n s'.
Proof.
  intros Hn [Hr Hh Ht] Hl Hb Ho. unfold createGrid.
  destruct (create_ok (F := F) n offset os ss Hn Hl Hb Ho) as (g & -> & Hw & Hg & Hd & _). run.
  assert (Hfresh : length (trees s) ∉ grids (registry s)) by (rewrite Hh; lia).
  destruct (registerGrid_ok (completeHandle s) (registry s) (length (trees s)) Hr Hfresh) as (r & -> & Hr' & Hgr).
  { unfold completeHandle. by rewrite lookup_ge_None_2. }
  run. eexists. split; [done |]. constructor; simpl.
  - eapply registry_ok_ext; [| exact Hr']. intros x Hx. unfold completeHandle. simpl. rewrite Hgr in Hx.
    apply elem_of_app in Hx as [Hx | ->%list_elem_of_singleton].
    + rewrite Hh in Hx. by rewrite lookup_app_l.
    + rewrite lookup_ge_None_2, lookup_app_r, Nat.sub_diag by lia. simpl. unfold grid_complete. by rewrite Hg.
  - intros x. rewrite Hgr, elem_of_app, list_elem_of_singleton, length_app, Hh. simpl. lia.
  - intros x y Hx. apply lookup_app_Some in Hx as [Hx | [_ Hx]]; [by apply (Ht x) |].
    apply list_lookup_singleton_Some in Hx as [_ <-]. split; [exact Hw | exact Hd].
Qed.

Lemma perform_inv (n : Z) (a : action) (s : datasetGrids) :
  0 < n -> grids_inv n s -> allowed n a s -> exists s', perform n a s = Done s' /\ grids_inv n s'.
Proof.
  intros Hn Hinv Ha. destruct a as [os ss | ss | h path op dim | h path index | h space | h path f]; cbn [allowed] in Ha.
  - destruct Ha as [Hl Hb]. destruct (createGrid_inv n s (Some os) os ss Hn Hinv Hl Hb ltac:(by left)) as (s' & E & Hs'). cbn [perform]. unfold esdm_grid_create. rewrite E. by exists s'.
  - destruct (createGrid_inv n s None (replicate (Z.to_nat n) 0) ss Hn Hinv) as (s' & E & Hs'); [rewrite length_replicate; lia | done | by right |].
    cbn [perform]. unfold esdm_grid_createSimple. rewrite E. by exists s'.
  - destruct Ha as (top & g & ax & Htop & Hg & Hdim & Hax & Hargs & H64). apply (onGrid_inv n s h path top g); try done.
    intros Hwf. by apply (subdivideBy_tree op g dim ax).
  - destruct Ha as (top & g & Htop & Hg & Hl). apply (onGrid_inv n s h path top g); try done.
    intros Hwf. destruct (gv_trees _ _ Hinv h top Htop) as [Hwt Hdt]. destruct (gridAt_wf path top g Hwt Hg) as [_ Hdg].
    rewrite <- Hdt, <- Hdg. apply createSubgrid_ok; [exact Hwf |].
    pose proof (gw_dims _ (nw_grid _ (tree_node g Hwf))). lia.
  - destruct Ha as (Hlt & Hw & H64 & Hs & Hd). destruct (lookup_lt_is_Some_2 _ _ Hlt) as [top Htop].
    apply (onGrid_inv n s h [] top top); try done. intros Hwf. destruct (gv_trees _ _ Hinv h top Htop) as [_ Hdt].
    destruct (findCellInHierarchy_loop_ok space Hw H64 Hs (depth top) top Hwf ltac:(congruence) ltac:(lia)) as (r & g' & E & Hw' & Hsame & _).
    unfold esdm_grid_findCellInHierarchy. rewrite E. run. eexists _, _. split; [done |]. split; [exact Hw' |].
    split; [unfold domain; by rewrite (sm_axes _ _ Hsame) | apply Hsame].
  - destruct Ha as (top & Htop & Hcell). destruct (fillCell_inv n s h path f top Hinv Htop Hcell) as (s' & _ & ? & ? & _). by exists s'.
Qed.

(** The states a dataset of rank [n] can reach. *)
Inductive reachable (n : Z) : datasetGrids -> Prop :=
| reachable_init : reachable n (DatasetGrids emptyRegistry [])
| reachable_step s a s' : reachable n s -> allowed n a s -> perform n a s = Done s' -> reachable n s'.

Lemma reachable_inv (n : Z) (s : datasetGrids) : 0 < n -> reachable n s -> grids_inv n s.
Proof.
  intros Hn Hr. induction Hr as [| s a s' _ IH Ha Hp].
  - constructor; simpl.
    + constructor; simpl; try done. constructor.
    + intros h. rewrite elem_of_nil. lia.
    + intros h g Hh. by rewrite lookup_nil in Hh.
  - destruct (perform_inv n a s Hn IH Ha) as (s2 & E & Hs2). congruence.
Qed.


End Machine.

Arguments datasetGrids F : clear implicits.
Arguments action F : clear implicits.

(** A dataset with a grid of two cells, one of which is filled. *)
Definition exampleState : datasetGrids nat :=
  DatasetGrids (GridRegistry 0 1 8 [0%nat])
    [Grid 1 None 1 (Some [Entry None (Some 7%nat); Entry None None]) [Axis 2 0 10 (Some [0; 5; 10])]].

Lemma exampleState_reachable : reachable 1 exampleState.
Proof.
  assert (R1 : reachable (F := nat) 1 (DatasetGrids (GridRegistry 0 1 8 [0%nat]) [Grid 1 None 0 None [Axis 1 0 10 None]])).
  { eapply (reachable_step 1 _ (CreateGrid [0] [10])); [apply reachable_init | | reflexivity]. split; [done |]. by repeat constructor. }
  assert (R2 : reachable (F := nat) 1 (DatasetGrids (GridRegistry 0 1 8 [0%nat]) [Grid 1 None 0 None [Axis 2 0 10 (Some [0; 5; 10])]])).
  { eapply (reachable_step 1 _ (SubdivideGrid 0 [] (Flexible 2) 0)); [exact R1 | | reflexivity].
    eexists _, _, _. split; [reflexivity |]. split; [reflexivity |]. split; [simpl; lia |]. split; [reflexivity |].
    split; [repeat split; by vm_compute |]. intros st g' E. vm_compute in E. injection E as <- <-.
    constructor; [| by vm_compute]. apply Forall_singleton. constructor; by vm_compute. }
  assert (R3 : reachable (F := nat) 1 (DatasetGrids (GridRegistry 0 1 8 [0%nat])
    [Grid 1 None 2 (Some [Entry None None; Entry None None]) [Axis 2 0 10 (Some [0; 5; 10])]])).
  { eapply (reachable_step 1 _ (FindCell 0 (Dataspace (Type_ 1 8) 1 [5] [0] false None))); [exact R2 | | reflexivity].
    split; [simpl; lia |]. split; [by constructor |]. split; [by repeat constructor |]. by repeat constructor. }
  eapply (reachable_step 1 _ (FillCell 0 [0%nat] 7%nat)); [exact R3 | eexists; split; reflexivity | reflexivity].
Qed.


Lemma findCellInHierarchy_correct_witness :
  let space := Dataspace (Type_ 1 8) 1 [5] [5] false None in
  let g := Grid 1 None 1 (Some [Entry None (Some 7%nat); Entry None None]) [Axis 2 0 10 (Some [0; 5; 10])] in
  exists r g', esdm_grid_findCellInHierarchy g space = Done (r, g') /\ tree_wf g' /\ same_tree g g' /\
  match r with
  | Some p => leafExtents g p = Some [Range 5 10]
  | None => forall p, leafExtents g p <> Some [Range 5 10]
  end.
Proof.
  apply (findCellInHierarchy_correct (Dataspace (Type_ 1 8) 1 [5] [5] false None)).
  - by constructor.
  - by repeat constructor.
  - by repeat constructor.
  - exact (proj1 (gv_trees _ _ (reachable_inv 1 exampleState ltac:(lia) exampleState_reachable) 0%nat _ eq_refl)).
  - done.
Defined.
