(* ===== verification/GridVisit.v ===== *)
(** Grids of a dataset (src/esdm-grid.c), part four: the iterator visits exactly the cells of the
    hierarchy, and the fragments of a region are those of the cells that overlap with it. *)

From S2P Require Import Prelude Hypercube HypercubeSet Odometer Json Dataspace Partition Split Grid GridTree GridRegistry.

#[local] Set Warnings "-register-all,-notation-for-abbreviation".

(** * Leaf cells *)

Section Leaves.

Context {F : Type}.

Notation esdm_grid_t := (esdm_grid_t F).
Notation esdm_gridEntry_t := (esdm_gridEntry_t esdm_grid_t F).

(** The cells without a subgrid, in the order of their numbers. *)
Fixpoint leafCells (g : esdm_grid_t) : list (esdmI_hypercube_t * option F) :=
  match grid g with
  | None => []
  | Some cs =>
      (fix go (j : nat) (cs : list esdm_gridEntry_t) : list (esdmI_hypercube_t * option F) :=
         match cs with
         | [] => []
         | e :: cs' =>
             match subgrid e with
             | Some s => leafCells s
             | None => [(cellOf (axes g) (coordinates (axes g) (Z.of_nat j)), fragment e)]
             end ++ go (S j) cs'
         end) 0%nat cs
  end.

(** The leaves of one cell, and of a list of cells that starts at number [j]. *)
Definition entryLeaves (g : esdm_grid_t) (j : nat) (e : esdm_gridEntry_t) : list (esdmI_hypercube_t * option F) :=
  match subgrid e with
  | Some s => leafCells s
  | None => [(cellOf (axes g) (coordinates (axes g) (Z.of_nat j)), fragment e)]
  end.

Fixpoint leavesFrom (g : esdm_grid_t) (j : nat) (cs : list esdm_gridEntry_t) : list (esdmI_hypercube_t * option F) :=
  match cs with
  | [] => []
  | e :: cs' => entryLeaves g j e ++ leavesFrom g (S j) cs'
  end.

Lemma leafCells_from (g : esdm_grid_t) (cs : list esdm_gridEntry_t) :
  grid g = Some cs -> leafCells g = leavesFrom g 0 cs.
Proof.
  intros Hg. destruct g as [d id n gr axs]. simpl in Hg. subst gr. cbn [leafCells grid].
  set (g0 := Grid d id n (Some cs) axs). change axs with (axes g0). generalize 0%nat. generalize g0. clear.
  induction cs as [| e cs IH]; intros g0 j; [done |]. cbn [leavesFrom]. unfold entryLeaves at 1. f_equal. apply IH.
Qed.

(** Every grid of the hierarchy is allocated and has data in all its cells. *)
Inductive tree_complete (g : esdm_grid_t) : Prop :=
| TreeComplete cs : grid g = Some cs ->
    (forall j e, cs !! j = Some e -> subgrid e = None -> is_Some (fragment e)) ->
    (forall j e s, cs !! j = Some e -> subgrid e = Some s -> tree_complete s) ->
    tree_complete g.

Lemma incomplete_zero (cs : list esdm_gridEntry_t) : incomplete cs = 0 -> forall j e, cs !! j = Some e -> cell_complete e = true.
Proof.
  intros H j e He. pose proof (incomplete_elem cs j e He) as Hw. unfold weight in Hw. destruct (cell_complete e); [done | lia].
Qed.

(** The counters tell the truth about the whole hierarchy. *)
Lemma grid_complete_tree (g : esdm_grid_t) : tree_wf g -> grid_complete g = true -> tree_complete g.
Proof.
  intros Hwf. induction Hwf as [g Hn Hs IH]. intros Hc. unfold grid_complete in Hc.
  destruct (grid g) as [cs |] eqn:Hg; [| done]. apply Z.eqb_eq in Hc. rewrite (nw_count _ Hn cs Hg) in Hc.
  pose proof (incomplete_zero cs Hc) as Hall. apply (TreeComplete g cs Hg).
  - intros j e He Hse. specialize (Hall j e He). unfold cell_complete in Hall. rewrite Hse in Hall.
    destruct (fragment e); [eauto | done].
  - intros j e s He Hse. apply (IH cs j e s eq_refl He Hse). specialize (Hall j e He). unfold cell_complete in Hall.
    destruct (nw_exclusive _ Hn cs j e Hg He) as [H | H]; [congruence |]. by rewrite H, Hse in Hall.
Qed.

(** * Leaves partition the domain *)

Lemma covered_app (a b : list esdmI_hypercube_t) (p : list Z) : covered (a ++ b) p <-> covered a p \/ covered b p.
Proof. unfold covered. setoid_rewrite elem_of_app. naive_solver. Qed.

(** Refining every piece of a partition gives a partition. *)
Lemma partitions_refine (pieces : list esdmI_hypercube_t) (parts : list (list esdmI_hypercube_t)) (whole : esdmI_hypercube_t) :
  partitions pieces whole -> Forall2 (fun c l => partitions l c) pieces parts -> partitions (concat parts) whole.
Proof.
  intros [Hne Hcov Hdis] Hp. constructor.
  - clear -Hp. induction Hp as [| c l pieces parts Hl _ IH]; [constructor |]. simpl. apply Forall_app. split; [apply Hl | exact IH].
  - intros p. rewrite <- Hcov. clear -Hp. induction Hp as [| c l pieces parts Hl _ IH]; [done |]. simpl.
    rewrite covered_app, IH, (pa_covers _ _ Hl). unfold covered. setoid_rewrite elem_of_cons. naive_solver.
  - clear Hne Hcov whole. induction Hp as [| c l pieces parts Hl Hp IH]; intros k1 k2 c1 c2 p H1 H2 Hp1 Hp2; [done |]. simpl in H1, H2.
    assert (Hrest : forall k d, concat parts !! k = Some d -> in_cube p d -> exists m c', pieces !! m = Some c' /\ in_cube p c').
    { intros k d Hk Hd. assert (Hc : covered (concat parts) p) by (exists d; split; [by eapply list_elem_of_lookup_2 | done]).
      clear -Hp Hc. induction Hp as [| c l pieces parts Hl _ IH]; simpl in Hc.
      - destruct Hc as (x & Hx & _). by apply elem_of_nil in Hx.
      - apply covered_app in Hc as [Hc | Hc].
        + exists 0%nat, c. split; [done |]. by apply (pa_covers _ _ Hl).
        + destruct (IH Hc) as (m & c' & Hm & Hc'). by exists (S m), c'. }
    assert (Hhead : forall k d, l !! k = Some d -> in_cube p d -> in_cube p c).
    { intros k d Hk Hd. apply (pa_covers _ _ Hl). exists d. split; [by eapply list_elem_of_lookup_2 | done]. }
    apply lookup_app_Some in H1 as [H1 | [L1 H1]]; apply lookup_app_Some in H2 as [H2 | [L2 H2]].
    + by eapply (pa_disjoint _ _ Hl).
    + destruct (Hrest _ _ H2 Hp2) as (m & c' & Hm & Hc'). exfalso.
      pose proof (Hdis 0%nat (S m) c c' p eq_refl Hm (Hhead _ _ H1 Hp1) Hc'). lia.
    + destruct (Hrest _ _ H1 Hp1) as (m & c' & Hm & Hc'). exfalso.
      pose proof (Hdis 0%nat (S m) c c' p eq_refl Hm (Hhead _ _ H2 Hp2) Hc'). lia.
    + assert (k1 - length l = k2 - length l)%nat; [| lia]. apply (IH) with c1 c2 p; try done.
      intros i j a b q Hi Hj Ha Hb. assert (S i = S j); [| lia]. by apply (Hdis (S i) (S j) a b q).
Qed.

Lemma leavesFrom_concat (g : esdm_grid_t) (j : nat) (cs : list esdm_gridEntry_t) :
  leavesFrom g j cs = concat (imap (fun k e => entryLeaves g (j + k) e) cs).
Proof.
  revert j. induction cs as [| e cs IH]; intros j; [done |]. cbn [leavesFrom imap concat]. rewrite Nat.add_0_r. f_equal.
  rewrite IH. f_equal. apply imap_ext. intros k x _. simpl. f_equal. lia.
Qed.

Lemma fst_concat {A B} (ls : list (list (A * B))) : (concat ls).*1 = concat ((fun l => l.*1) <$> ls).
Proof. induction ls as [| l ls IH]; [done |]. simpl. by rewrite fmap_app, IH. Qed.

Lemma leaves_partition (g : esdm_grid_t) : tree_wf g -> tree_complete g -> partitions (leafCells g).*1 (domain g).
Proof.
  intros Hwf. induction Hwf as [g Hn Hs IH]. intros [cs Hg _ Hsub].
  pose proof (gw_axes _ (nw_grid _ Hn)) as Hax. pose proof (nw_cells _ Hn cs Hg) as Hlen.
  rewrite (leafCells_from g cs Hg), leavesFrom_concat, fst_concat.
  apply (partitions_refine ((fun j => cellOf (axes g) (coordinates (axes g) j)) <$> seqZ 0 (cellTotal (axes g)))).
  - by apply cells_partition_axes.
  - apply Forall2_same_length_lookup_2.
    { rewrite !length_fmap, length_imap, length_seqZ. lia. }
    intros j c l Hc Hl. rewrite list_lookup_fmap in Hl. rewrite list_lookup_imap in Hl.
    destruct (cs !! j) as [e |] eqn:He; [| done]. injection Hl as <-.
    apply list_lookup_fmap_Some in Hc as (k & -> & Hk). apply lookup_seqZ in Hk as [-> Hk].
    rewrite Z.add_0_l. simpl. unfold entryLeaves. destruct (subgrid e) as [s |] eqn:Hse.
    + rewrite <- (nw_domain _ Hn cs j e s Hg He Hse). apply (IH cs j e s Hg He Hse). by eapply Hsub.
    + simpl. apply partitions_single. apply Forall_forall. intros r Hr.
      pose proof (cellRange_int64 g _ (nw_grid _ Hn) (nw_int64 _ Hn) (coordinates_ok _ Hax (Z.of_nat j))) as Hci.
      rewrite Forall_forall in Hci. specialize (Hci r Hr). simpl in Hci. lia.
Qed.

(** * The iterator *)

(** The number of loop iterations that a complete traversal of a grid takes. *)
Fixpoint nodes (g : esdm_grid_t) : nat :=
  match grid g with
  | None => 1
  | Some cs => S (foldr (fun e n => S (from_option nodes 0%nat (subgrid e)) + n)%nat 0%nat cs)
  end.

Definition entrySteps (e : esdm_gridEntry_t) : nat := S (from_option nodes 0%nat (subgrid e)).

Definition steps (cs : list esdm_gridEntry_t) : nat := foldr (fun e n => entrySteps e + n)%nat 0%nat cs.

Lemma nodes_steps (g : esdm_grid_t) (cs : list esdm_gridEntry_t) : grid g = Some cs -> nodes g = S (steps cs).
Proof. intros Hg. destruct g as [d id n gr axs]. simpl in Hg. by subst gr. Qed.

Definition remaining (f : iteratorFrame F) : list esdm_gridEntry_t :=
  drop (Z.to_nat (lastIndex f + 1)) (default [] (grid (itGrid f))).

Definition frameLeaves (f : iteratorFrame F) : list (esdmI_hypercube_t * option F) :=
  leavesFrom (itGrid f) (Z.to_nat (lastIndex f + 1)) (remaining f).

Definition stackLeaves (it : list (iteratorFrame F)) : list (esdmI_hypercube_t * option F) := concat (frameLeaves <$> it).

Definition stackSteps (it : list (iteratorFrame F)) : nat := foldr (fun f n => S (steps (remaining f)) + n)%nat 0%nat it.

(** The cell an iterator is at. *)
Definition frameCell (f : iteratorFrame F) : esdmI_hypercube_t :=
  cellOf (axes (itGrid f)) (coordinates (axes (itGrid f)) (lastIndex f)).

Record frame_ok (f : iteratorFrame F) : Prop := {
  fo_wf : tree_wf (itGrid f);
  fo_complete : tree_complete (itGrid f);
  fo_count : cellCount f = cellTotal (axes (itGrid f));
  fo_index : -1 <= lastIndex f < cellCount f
}.

Lemma newFrame_ok (g : esdm_grid_t) (parent : list (iteratorFrame F)) :
  tree_wf g -> tree_complete g ->
  exists f, esdm_gridIterator_create_internal g parent = Done (f :: parent) /\ frame_ok f /\ itGrid f = g /\
  frameLeaves f = leafCells g /\ S (steps (remaining f)) = nodes g.
Proof.
  intros Hwf Hc. pose proof (tree_node g Hwf) as Hn. unfold esdm_gridIterator_create_internal.
  rewrite cellCount_ok by apply Hn. run. eexists. split; [done |]. destruct Hc as [cs Hg H1 H2].
  pose proof (cellTotal_pos _ (gw_axes _ (nw_grid _ Hn))). split; [| split; [done |]].
  - constructor; simpl; [exact Hwf | by apply (TreeComplete g cs) | done | lia].
  - unfold frameLeaves, remaining. simpl. rewrite Hg. simpl. split; [symmetry; by apply leafCells_from |].
    symmetry. by apply nodes_steps.
Qed.

(** The next cell of the innermost iterator. *)
Lemma frame_next (f : iteratorFrame F) :
  frame_ok f -> lastIndex f + 1 < cellCount f ->
  exists e, getCell (itGrid f) (Z.to_nat (lastIndex f + 1)) = Done e /\
  let f' := IteratorFrame (itGrid f) (lastIndex f + 1) (cellCount f) in
  frame_ok f' /\ frameLeaves f = entryLeaves (itGrid f) (Z.to_nat (lastIndex f + 1)) e ++ frameLeaves f' /\
  steps (remaining f) = (entrySteps e + steps (remaining f'))%nat /\
  (forall s, subgrid e = Some s -> tree_wf s /\ tree_complete s).
Proof.
  intros [Hwf Hc Hcount Hidx] Hlt. pose proof (tree_node _ Hwf) as Hn. pose proof Hc as [cs Hg H1 H2].
  pose proof (nw_cells _ Hn cs Hg) as Hlen. set (i := Z.to_nat (lastIndex f + 1)).
  destruct (lookup_lt_is_Some_2 cs i) as [e He]; [unfold i; lia |]. exists e. split; [by apply (getCell_lookup _ cs) |].
  cbv zeta. set (f' := IteratorFrame _ _ _).
  assert (Hr : remaining f = e :: remaining f').
  { unfold remaining, f'. simpl. rewrite Hg. simpl. fold i. replace (Z.to_nat (lastIndex f + 1 + 1)) with (S i) by (unfold i; lia).
    by apply drop_S. }
  split; [constructor; simpl; try done; lia |]. split; [| split; [by rewrite Hr |]].
  - unfold frameLeaves. rewrite Hr. cbn [leavesFrom]. fold i. unfold f' at 2. simpl.
    by replace (Z.to_nat (lastIndex f + 1 + 1)) with (S i) by (unfold i; lia).
  - intros s Hs. split; [by apply (child_dims (itGrid f) cs i e s) | by eapply H2].
Qed.

Lemma frame_end (f : iteratorFrame F) : frame_ok f -> cellCount f <= lastIndex f + 1 -> frameLeaves f = [].
Proof.
  intros [Hwf Hc Hcount Hidx] Hge. destruct Hc as [cs Hg _ _]. pose proof (nw_cells _ (tree_node _ Hwf) cs Hg).
  unfold frameLeaves, remaining. rewrite Hg. simpl. by rewrite drop_ge by lia.
Qed.

Lemma stackLeaves_cons (f : iteratorFrame F) (it : list (iteratorFrame F)) : stackLeaves (f :: it) = frameLeaves f ++ stackLeaves it.
Proof. reflexivity. Qed.

Lemma advance_zero (fuel : nat) (it : list (iteratorFrame F)) : (1 <= fuel)%nat -> gridIterator_advance_loop fuel it 0 = Done it.
Proof. intros Hf. destruct fuel; [lia | done]. Qed.

(** One call to [esdm_gridIterator_advance()] with an increment of one. *)
Lemma advance_ok (fuel : nat) (f : iteratorFrame F) (it : list (iteratorFrame F)) :
  Forall frame_ok (f :: it) -> (stackSteps (f :: it) < fuel)%nat ->
  match stackLeaves (f :: it) with
  | [] => gridIterator_advance_loop fuel (f :: it) 1 = Done []
  | c :: rest => exists f' it', gridIterator_advance_loop fuel (f :: it) 1 = Done (f' :: it') /\ Forall frame_ok (f' :: it') /\
      stackLeaves (f' :: it') = rest /\ frameCell f' = c.1 /\ 0 <= lastIndex f' /\ (stackSteps (f' :: it') <= stackSteps (f :: it))%nat
  end.
Proof.
  revert f it. induction fuel as [| fuel IH]; intros f it Hok Hfuel; [lia |].
  cbn [gridIterator_advance_loop]. change (1 =? 0) with false. cbv iota zeta. apply Forall_cons in Hok as [Hf Hit].
  rewrite stackLeaves_cons, Z.geb_leb. cbn [stackSteps foldr] in Hfuel.
  destruct (Z.leb_spec (cellCount f) (lastIndex f + 1)) as [Hge | Hlt].
  - rewrite (frame_end f Hf Hge). cbn [app]. destruct it as [| f2 it]; [done |].
    specialize (IH f2 it Hit ltac:(unfold stackSteps in *; lia)). destruct (stackLeaves (f2 :: it)) as [| c rest]; [done |].
    destruct IH as (f' & it' & E & H1 & H2 & H3 & H4 & H5). exists f', it'. split; [exact E |]. split; [exact H1 |]. split; [exact H2 |].
    split; [exact H3 |]. split; [exact H4 |]. change (stackSteps (f :: f2 :: it)) with (S (steps (remaining f)) + stackSteps (f2 :: it))%nat. lia.
  - destruct (frame_next f Hf Hlt) as (e & -> & Hf' & Hl & Hst & Hsub). run. rewrite Hl.
    set (f' := IteratorFrame _ _ _) in *. unfold entryLeaves, entrySteps in *. destruct (subgrid e) as [s |] eqn:Hse.
    + destruct (Hsub s eq_refl) as [Hws Hcs]. destruct (newFrame_ok s (f' :: it) Hws Hcs) as (fs & -> & Hfs & _ & Hls & Hns). run.
      assert (Hm : (stackSteps (fs :: f' :: it) < stackSteps (f :: it))%nat) by (cbn [stackSteps foldr] in *; simpl in Hst; lia).
      specialize (IH fs (f' :: it) (Forall_cons_2 _ _ _ Hfs (Forall_cons_2 _ _ _ Hf' Hit)) ltac:(cbn [stackSteps foldr] in *; simpl in Hst; lia)).
      rewrite !stackLeaves_cons, Hls, app_assoc in IH.
      destruct ((leafCells s ++ frameLeaves f') ++ stackLeaves it) as [| c rest]; [done |].
      destruct IH as (f2 & it2 & E & H1 & H2 & H3 & H4 & H5). exists f2, it2. split; [exact E |]. split; [exact H1 |].
      split; [exact H2 |]. split; [exact H3 |]. split; [exact H4 | lia].
    + change (1 - 1) with 0. rewrite advance_zero by lia. cbn [app]. exists f', it. split; [done |]. split; [exact (Forall_cons_2 _ _ _ Hf' Hit) |].
      split; [by rewrite stackLeaves_cons |]. destruct Hf as [_ _ _ Hidx]. unfold frameCell. simpl.
      rewrite Z2Nat.id by lia. split; [done |]. split; [lia |]. cbn [stackSteps foldr]. simpl in Hst. lia.
Qed.

Lemma leavesFrom_elem (g : esdm_grid_t) (j : nat) (cs : list esdm_gridEntry_t) x :
  x ∈ leavesFrom g j cs -> exists k e, cs !! k = Some e /\ x ∈ entryLeaves g (j + k) e.
Proof.
  revert j. induction cs as [| e cs IH]; intros j Hx; [by apply elem_of_nil in Hx |]. cbn [leavesFrom] in Hx.
  apply elem_of_app in Hx as [Hx | Hx].
  - exists 0%nat, e. by rewrite Nat.add_0_r.
  - destruct (IH (S j) Hx) as (k & e' & He & Hk). exists (S k), e'. by replace (j + S k)%nat with (S j + k)%nat by lia.
Qed.

Lemma leafCells_inside (g : esdm_grid_t) x : tree_wf g -> x ∈ leafCells g -> Forall2 range_inside x.1 (domain g).
Proof.
  intros Hwf. induction Hwf as [g Hn Hs IH]. intros Hx. pose proof (gw_axes _ (nw_grid _ Hn)) as Hax.
  destruct (grid g) as [cs |] eqn:Hg; [| destruct g; simpl in *; subst; by apply elem_of_nil in Hx].
  rewrite (leafCells_from g cs Hg) in Hx. apply leavesFrom_elem in Hx as (k & e & He & Hx). unfold entryLeaves in Hx.
  pose proof (cell_inside_domain (axes g) _ Hax (coordinates_ok _ Hax (Z.of_nat k))) as Hcell.
  destruct (subgrid e) as [s |] eqn:Hse.
  - pose proof (IH cs k e s eq_refl He Hse Hx) as H. rewrite (nw_domain _ Hn cs k e s Hg He Hse) in H.
    eapply cube_inside_trans; [exact H | exact Hcell].
  - apply list_elem_of_singleton in Hx as ->. exact Hcell.
Qed.

(** The dataspace that the iterator creates for a cell. *)
Definition cellSpace (ds : esdm_dataspace_t) (c : esdmI_hypercube_t) : esdm_dataspace_t :=
  Dataspace (type ds) (dims ds) ((fun r => rend r - rstart r) <$> c) (rstart <$> c) false None.

Record dataset_space_ok (ds : esdm_dataspace_t) : Prop := {
  do_wf : space_wf ds;
  do_int64 : space_int64 ds;
  do_offset : Forall (fun o => 0 <= o) (offset ds)
}.

Lemma extends_cellSpace (ds : esdm_dataspace_t) (c : esdmI_hypercube_t) : extends (cellSpace ds c) = c.
Proof. unfold extends, cellSpace. simpl. induction c as [| [lo hi] c IH]; [done |]. cbn. f_equal; [f_equal; lia | exact IH]. Qed.

Lemma subspace_cell (ds : esdm_dataspace_t) (c : esdmI_hypercube_t) :
  dataset_space_ok ds -> Forall2 range_inside c (extends ds) ->
  Forall (fun r => INT64_MIN <= rstart r < rend r /\ rend r <= INT64_MAX /\ rend r - rstart r <= INT64_MAX) c ->
  esdm_dataspace_subspace ds (dims ds) ((fun r => rend r - rstart r) <$> c) (rstart <$> c) = Done (ESDM_SUCCESS, Some (cellSpace ds c)).
Proof.
  intros [Hwf H64 Hoff] Hin Hr. pose proof Hwf as [Hd Hls Hlo _].
  assert (Hlc : Z.of_nat (length c) = dims ds).
  { rewrite (Forall2_length _ _ _ Hin). unfold extends. rewrite length_zip_with. lia. }
  unfold esdm_dataspace_subspace. rewrite Z.eqb_refl. cbn [negb].
  destruct (subspace_checks_ok ds ((fun r => rend r - rstart r) <$> c) (rstart <$> c) Hwf) as (bs & -> & Hbs).
  - by rewrite length_fmap.
  - by rewrite length_fmap.
  - clear -Hr. induction Hr as [| r c H _ IH]; [constructor |]. rewrite !fmap_cons. constructor; [unfold int64_pair; lia | exact IH].
  - eapply Forall2_impl; [exact H64 |]. unfold int64_pair, INT64_MIN. simpl. lia.
  - run. rewrite (proj2 Hbs); [by rewrite !memdup_ok by (by rewrite length_fmap) |].
    intros i s o so ss H1 H2 H3 H4. rewrite list_lookup_fmap in H1, H2. destruct (c !! i) as [r |] eqn:Er; [| done].
    injection H1 as <-. injection H2 as <-. pose proof (Forall_lookup_1 _ _ _ _ Hr Er) as Hri. simpl in Hri.
    assert (He : extends ds !! i = Some (Range so (so + ss))) by (unfold extends; by rewrite lookup_zip_with, H3, H4).
    pose proof (Forall2_lookup_lr _ _ _ _ _ _ Hin Er He) as [Ha Hb]. simpl in Ha, Hb.
    pose proof (Forall_lookup_1 _ _ _ _ Hoff H3) as Hso. simpl in Hso. unfold subrange_ok. lia.
Qed.

(** Calling [esdm_gridIterator_next()] until it returns no dataspace. *)
Fixpoint drain (n fuel : nat) (ds : esdm_dataspace_t) (it : list (iteratorFrame F)) : outcome (list esdm_dataspace_t) :=
  match n with
  | O => Undef
  | S n' =>
      '(it, status, space) ← esdm_gridIterator_next fuel ds it 1;
      eassert (bool_decide (status = ESDM_SUCCESS));;
      match space with
      | None => mret []
      | Some s => rest ← drain n' fuel ds it; mret (s :: rest)
      end
  end.

Lemma drain_ok (n fuel : nat) (ds : esdm_dataspace_t) (f : iteratorFrame F) (it : list (iteratorFrame F)) :
  dataset_space_ok ds -> Forall frame_ok (f :: it) -> (stackSteps (f :: it) < fuel)%nat ->
  (length (stackLeaves (f :: it)) < n)%nat -> Forall (fun x => Forall2 range_inside x.1 (extends ds)) (stackLeaves (f :: it)) ->
  drain n fuel ds (f :: it) = Done (cellSpace ds <$> (stackLeaves (f :: it)).*1).
Proof.
  intros Hds. revert f it. induction n as [| n IH]; intros f it Hok Hfuel Hn Hin; [lia |]. cbn [drain].
  unfold esdm_gridIterator_next. pose proof (advance_ok fuel f it Hok Hfuel) as Ha.
  destruct (stackLeaves (f :: it)) as [| c rest]; [by rewrite Ha |].
  destruct Ha as (f' & it' & -> & Hok' & Hl & Hcell & Hidx & Hsteps). run.
  apply Forall_cons in Hok' as Hf'. destruct Hf' as [Hf' _]. pose proof (tree_node _ (fo_wf _ Hf')) as Hnode.
  pose proof (fo_index _ Hf') as Hi. rewrite (fo_count _ Hf') in Hi.
  rewrite indexCoordinates_ok by (apply Hnode || lia). run.
  pose proof (coordinates_ok _ (gw_axes _ (nw_grid _ Hnode)) (lastIndex f')) as Hco.
  rewrite cellSize_ok by (done || apply Hnode). run. fold (frameCell f'). rewrite Hcell.
  apply Forall_cons in Hin as [Hc Hin].
  assert (Hdim : dimCount (itGrid f') = dims ds).
  { rewrite <- (gw_dims _ (nw_grid _ Hnode)). pose proof (Forall2_length _ _ _ Hc) as Hl1. rewrite <- Hcell in Hl1.
    unfold frameCell, cellOf, extends in Hl1. rewrite !length_zip_with, (Forall2_length _ _ _ Hco) in Hl1.
    pose proof (do_wf _ Hds) as [_ Hs1 Ho1 _]. lia. }
  rewrite Hdim, (subspace_cell ds c.1 Hds Hc).
  2: { rewrite <- Hcell. apply cellRange_int64; [apply Hnode | apply Hnode | exact Hco]. }
  run. rewrite eassert_true by (by apply bool_decide_eq_true). run. rewrite (IH f' it' Hok').
  - rewrite Hl. done.
  - lia.
  - rewrite Hl. simpl in Hn. lia.
  - by rewrite Hl.
Qed.

(** On a complete grid inside the dataspace of its dataset, calling the iterator until it ends
    yields one dataspace for each cell of the hierarchy that has no subgrid, in the order of the
    cell numbers; these dataspaces partition the domain of the grid. *)
Theorem grid_iteration_correct (g : esdm_grid_t) (ds : esdm_dataspace_t) :
  tree_wf g -> grid_complete g = true -> dataset_space_ok ds -> Forall2 range_inside (domain g) (extends ds) ->
  exists it spaces, esdm_gridIterator_create g = Done (ESDM_SUCCESS, Some it) /\
  drain (S (length (leafCells g))) (S (nodes g)) ds it = Done spaces /\
  extends <$> spaces = (leafCells g).*1 /\ partitions (extends <$> spaces) (domain g).
Proof.
  intros Hwf Hc Hds Hin. pose proof (grid_complete_tree g Hwf Hc) as Htc.
  destruct (newFrame_ok g [] Hwf Htc) as (f & E & Hf & Hfg & Hl & Hns).
  assert (Hz : emptyCells g = 0).
  { unfold grid_complete in Hc. destruct (grid g); [by apply Z.eqb_eq in Hc | done]. }
  exists [f], (cellSpace ds <$> (leafCells g).*1). unfold esdm_gridIterator_create. rewrite Hz, E. split; [done |].
  assert (Hsl : stackLeaves [f] = leafCells g) by (unfold stackLeaves; simpl; by rewrite app_nil_r).
  assert (Hext : extends <$> (cellSpace ds <$> (leafCells g).*1) = (leafCells g).*1).
  { rewrite <- list_fmap_compose. rewrite <- (list_fmap_id (leafCells g).*1) at 2. apply list_fmap_ext. intros i c _. apply extends_cellSpace. }
  split; [| split; [exact Hext |]].
  - rewrite <- Hsl. apply drain_ok; [done | constructor; [exact Hf | constructor] | cbn [stackSteps foldr]; lia | lia |].
    rewrite Hsl. apply Forall_forall. intros x Hx. eapply cube_inside_trans; [by apply leafCells_inside | exact Hin].
  - rewrite Hext. by apply leaves_partition.
Qed.

End Leaves.
