(* ===== verification/GridRegion.v ===== *)
(** Grids of a dataset (src/esdm-grid.c), part five: [esdmI_grid_fragmentsInRegion()] returns the
    fragments of exactly those cells of the hierarchy that overlap with a region. *)

From S2P Require Import Prelude Hypercube HypercubeSet Odometer Json Dataspace Partition Split Grid GridTree GridRegistry GridVisit.

#[local] Set Warnings "-register-all,-notation-for-abbreviation".

(** * Overlapping cells of one axis *)

Definition range_overlaps (r r' : esdmI_range_t) : Prop := rstart r < rend r' /\ rstart r' < rend r.

Definition cube_overlaps (c c' : esdmI_hypercube_t) : Prop := Forall2 range_overlaps c c'.

#[global] Instance range_overlaps_dec (r r' : esdmI_range_t) : Decision (range_overlaps r r').
Proof. unfold range_overlaps. apply _. Defined.

#[global] Instance cube_overlaps_dec (c c' : esdmI_hypercube_t) : Decision (cube_overlaps c c').
Proof. unfold cube_overlaps. apply _. Defined.

(** A range whose bounds and size are [int64_t] values. *)
Definition range_int64 (r : esdmI_range_t) : Prop :=
  INT64_MIN <= rstart r < rend r /\ rend r <= INT64_MAX /\ rend r - rstart r <= INT64_MAX.

Lemma indexRange_dim_ok (a : esdm_axis_t) (r : esdmI_range_t) :
  axis_wf a -> axis_int64 a -> range_int64 r -> range_overlaps (Range (outerLow a) (outerHigh a)) r ->
  exists s e, indexRange_dim a (rstart r) (rend r - rstart r) = Done (s, e) /\ 0 <= s < e /\ e <= intervals a /\
  forall k, 0 <= k < intervals a -> (s <= k < e <-> range_overlaps (cell_range (allBounds a) k) r).
Proof.
  intros Hwf H64 (H1 & H2 & H3) [H4 H5]. simpl in H4, H5. pose proof H64 as [Hlo Hhi _]. unfold indexRange_dim.
  replace (rstart r + (rend r - rstart r)) with (rend r) by lia. rewrite (chk64_ok (rend r)) by lia. run.
  set (s := Z.min (Z.max (rstart r) (outerLow a)) (outerHigh a)). set (e := Z.min (Z.max (rend r) (outerLow a)) (outerHigh a)).
  pose proof (axis_nonempty a Hwf) as Hne.
  assert (Hs0 : outerLow a <= s < outerHigh a /\ s = Z.max (rstart r) (outerLow a)) by (unfold s; lia).
  assert (He0 : outerLow a < e <= outerHigh a /\ e = Z.min (rend r) (outerHigh a)) by (unfold e; lia).
  clearbody s e. rewrite chk64_ok by lia. run.
  destruct (findInterval_ok a Hwf s H64 ltac:(lia)) as (si & -> & Hsi & Hs). run.
  destruct (findInterval_ok a Hwf (e - 1) H64 ltac:(lia)) as (ei & -> & Hei & He). run.
  rewrite axis_cell_range in Hs, He by done. unfold in_range in Hs, He. simpl in Hs, He.
  assert (Hk : forall k, 0 <= k < intervals a -> (si <= k < ei + 1 <-> range_overlaps (cell_range (allBounds a) k) r)).
  { intros k Hk. rewrite axis_cell_range by done. unfold range_overlaps. simpl.
    pose proof (axis_bound_le a Hwf 0 k ltac:(lia) ltac:(lia)) as Hb0. pose proof (axis_bound_le a Hwf (k + 1) (intervals a) ltac:(lia) ltac:(lia)) as Hbn.
    pose proof (axis_bound_lt a Hwf k (k + 1) ltac:(lia) ltac:(lia)) as Hbk.
    rewrite <- (axis_last a Hwf) in Hbn. change (Z.to_nat 0) with 0%nat in Hb0. rewrite <- (aw_low _ Hwf) in Hb0.
    assert (Hleft : si <= k <-> s < nthZ (allBounds a) (Z.to_nat (k + 1))).
    { split; intros Hx; [pose proof (axis_bound_le a Hwf (si + 1) (k + 1) ltac:(lia) ltac:(lia)); lia |].
      destruct (Z.ltb_spec k si) as [Hlt | Hge]; [| done]. pose proof (axis_bound_le a Hwf (k + 1) si ltac:(lia) ltac:(lia)). lia. }
    assert (Hright : k < ei + 1 <-> nthZ (allBounds a) (Z.to_nat k) < e).
    { split; intros Hx; [pose proof (axis_bound_le a Hwf k ei ltac:(lia) ltac:(lia)); lia |].
      destruct (Z.ltb_spec ei k) as [Hlt | Hge]; [| lia]. pose proof (axis_bound_le a Hwf (ei + 1) k ltac:(lia) ltac:(lia)). lia. }
    rewrite Hleft, Hright. lia. }
  eexists _, _. split; [done |]. split; [| split; [lia | exact Hk]]. split; [lia |].
  assert (si <= ei); [| lia]. destruct (Z.ltb_spec ei si) as [Hlt | Hge]; [| done].
  pose proof (axis_bound_le a Hwf (ei + 1) si ltac:(lia) ltac:(lia)). lia.
Qed.

(** * Overlapping cells of a grid *)

(** The index box that [esdmI_grid_indexRange()] computes. *)
Record index_box (axs : list esdm_axis_t) (region : esdmI_hypercube_t) (s e : list Z) : Prop := {
  ib_start : length s = length axs;
  ib_end : length e = length axs;
  ib_range : Forall2 (fun x y => 0 <= x < y) s e;
  ib_upper : Forall2 (fun y a => y <= intervals a) e axs;
  ib_overlap index : index_ok axs index ->
    (Forall2 (fun i b => b.1 <= i < b.2) index (zip s e) <-> cube_overlaps (cellOf axs index) region)
}.

Lemma indexRange_loop_ok (axs : list esdm_axis_t) (region : esdmI_hypercube_t) :
  Forall axis_wf axs -> Forall axis_int64 axs -> Forall range_int64 region ->
  cube_overlaps ((fun a => Range (outerLow a) (outerHigh a)) <$> axs) region ->
  exists rs, indexRange_loop axs (rstart <$> region) ((fun r => rend r - rstart r) <$> region) = Done rs /\
  index_box axs region rs.*1 rs.*2.
Proof.
  intros Hwf. revert region. induction Hwf as [| a axs Ha Hwf IH]; intros region H64 Hr Ho.
  { apply Forall2_nil_inv_l in Ho as ->. exists []. split; [done |]. constructor; try done; try constructor.
    - intros _. apply Forall2_nil_inv_r in H as ->. constructor.
    - intros _. apply Forall2_nil_inv_r in H as ->. constructor. }
  rewrite fmap_cons in Ho. apply Forall2_cons_inv_l in Ho as (r & region' & Hro & Ho & ->).
  apply Forall_cons in H64 as [Ha64 H64]. apply Forall_cons in Hr as [Hr Hrs].
  destruct (indexRange_dim_ok a r Ha Ha64 Hr Hro) as (s & e & Ed & Hse & Hei & Hk).
  destruct (IH region' H64 Hrs Ho) as (rs & El & [Hs He Hran Hup Hov]).
  rewrite !fmap_cons. cbn [indexRange_loop]. rewrite Ed. run. rewrite El. run. exists ((s, e) :: rs). split; [done |].
  constructor; cbn [fmap list_fmap length fst snd zip_with].
  - simpl. f_equal. exact Hs.
  - simpl. f_equal. exact He.
  - constructor; [done | exact Hran].
  - constructor; [done | exact Hup].
  - intros index Hi. apply Forall2_cons_inv_r in Hi as (i & index' & Hia & Hi & ->). unfold cellOf, cube_overlaps. cbn [zip_with].
    fold (cellOf axs index'). rewrite !Forall2_cons. simpl. rewrite (Hk i Hia). rewrite <- (Hov index' Hi). done.
Qed.

Lemma indexRange_ok {F : Type} (g : esdm_grid_t F) (region : esdmI_hypercube_t) :
  node_wf g -> Forall range_int64 region -> cube_overlaps (domain g) region ->
  exists s e, esdmI_grid_indexRange g region = Done (s, e) /\ index_box (axes g) region s e.
Proof.
  intros Hn Hr Ho. unfold esdmI_grid_indexRange.
  assert (Hl : esdmI_hypercube_dimensions region = dimCount g).
  { unfold esdmI_hypercube_dimensions. rewrite <- (gw_dims _ (nw_grid _ Hn)), <- (Forall2_length _ _ _ Ho). unfold domain. by rewrite length_fmap. }
  rewrite Hl, eassert_true by (by apply Z.eqb_eq). run.
  assert (E : esdmI_hypercube_getOffsetAndSize region = Done (rstart <$> region, (fun r => rend r - rstart r) <$> region)).
  { unfold esdmI_hypercube_getOffsetAndSize.
    assert (E : mapM esdmI_range_size region = Done ((fun r => rend r - rstart r) <$> region)); [| by rewrite E].
    clear -Hr. induction Hr as [| r region Hr _ IH]; [done |]. rewrite mapM_cons. destruct Hr as (H1 & H2 & H3).
    rewrite range_size_ok by done. run. rewrite IH. run. rewrite fmap_cons. do 2 f_equal. unfold rsize. lia. }
  rewrite E. run.
  destruct (indexRange_loop_ok (axes g) region (gw_axes _ (nw_grid _ Hn)) (gi_axes _ (nw_int64 _ Hn)) Hr Ho) as (rs & -> & Hbox).
  run. eauto.
Qed.

(** * Walking through the index box *)

(** The cell number of an index, innermost dimension first. *)
Fixpoint revNumber (axs : list esdm_axis_t) (index : list Z) : Z :=
  match axs, index with
  | a :: axs', i :: index' => i + intervals a * revNumber axs' index'
  | _, _ => 0
  end.

Lemma horner_revNumber (axs : list esdm_axis_t) (index : list Z) :
  length index = length axs -> horner axs index 0 = revNumber (rev axs) (rev index).
Proof.
  revert index. induction axs as [| a axs IH] using rev_ind; intros index Hl.
  { destruct index; [done | simpl in Hl; lia]. }
  destruct index as [| i index _] using rev_ind; rewrite !length_app in Hl; simpl in Hl; [lia |].
  rewrite horner_snoc, !rev_unit by lia. cbn [revNumber]. rewrite IH by lia. lia.
Qed.

Lemma advanceIndex_ok (axs : list esdm_axis_t) (s e d : list Z) (l inc : Z) :
  length s = length axs -> Forall2 (fun x y => 0 <= x < y) s e -> Forall2 (fun x n => 0 <= x < n) d (zip_with Z.sub e s) ->
  let '(d', carry) := advanceCoords (zip_with Z.sub e s) d in
  advanceIndex axs (zip_with Z.add s d) s e l inc =
    (zip_with Z.add s d', l + inc * (revNumber axs (zip_with Z.add s d') - revNumber axs (zip_with Z.add s d)), negb carry).
Proof.
  revert s e d l inc. induction axs as [| a axs IH]; intros s e d l inc Hl Hse Hd.
  { destruct s; [| simpl in Hl; lia]. apply Forall2_nil_inv_l in Hse as ->. apply Forall2_nil_inv_r in Hd as ->.
    simpl. do 2 f_equal. lia. }
  destruct s as [| s0 s]; simpl in Hl; [lia |]. apply Forall2_cons_inv_l in Hse as (e0 & e' & Hse0 & Hse & ->).
  cbn [zip_with] in Hd. apply Forall2_cons_inv_r in Hd as (d0 & d' & Hd0 & Hd & ->). cbn [zip_with advanceCoords advanceIndex].
  destruct (Z.ltb_spec (d0 + 1) (e0 - s0)) as [Hlt | Hge].
  - rewrite (proj2 (Z.eqb_neq _ _)) by lia. cbn [negb zip_with revNumber]. f_equal. f_equal; [f_equal; lia | lia].
  - rewrite (proj2 (Z.eqb_eq _ _)) by lia. cbn [negb].
    specialize (IH s e' d' (l + inc - (s0 + d0 + 1 - s0) * inc) (inc * intervals a) ltac:(lia) Hse Hd).
    destruct (advanceCoords (zip_with Z.sub e' s) d') as [d2 carry]. rewrite IH. cbn [zip_with revNumber].
    f_equal. f_equal; [f_equal; lia | lia].
Qed.

(** The index of step [t] of the walk. *)
Definition boxIndex (s e : list Z) (t : Z) : list Z := rev (zip_with Z.add (rev s) (digits (zip_with Z.sub (rev e) (rev s)) t)).

Definition boxSize (s e : list Z) : Z := prod (zip_with Z.sub e s).

Lemma zip_with_rev {A B C} (f : A -> B -> C) (l : list A) (k : list B) :
  length l = length k -> zip_with f (rev l) (rev k) = rev (zip_with f l k).
Proof.
  revert k. induction l as [| x l IH]; intros [| y k] Hl; simpl in Hl; try lia; [done |]. cbn [rev zip_with].
  rewrite zip_with_app by (rewrite !length_rev; lia). by rewrite IH by lia.
Qed.

Section Box.

Context (axs : list esdm_axis_t) (region : esdmI_hypercube_t) (s e : list Z) (Hbox : index_box axs region s e)
  (Hwf : Forall axis_wf axs).

Lemma box_lengths : length (rev s) = length (rev axs) /\ length s = length e.
Proof. destruct Hbox as [H1 H2 _ _ _]. rewrite !length_rev. lia. Qed.

Lemma box_limits : zip_with Z.sub (rev e) (rev s) = rev (zip_with Z.sub e s).
Proof. apply zip_with_rev. destruct Hbox. lia. Qed.

Lemma boxSize_rev : prod (zip_with Z.sub (rev e) (rev s)) = boxSize s e.
Proof. rewrite box_limits. unfold boxSize. by rewrite <- Permutation_rev. Qed.

Lemma box_limits_pos : Forall (fun n => 0 < n) (zip_with Z.sub (rev e) (rev s)).
Proof.
  rewrite box_limits. apply Forall_rev. pose proof (ib_range _ _ _ _ Hbox) as H. clear -H.
  induction H as [| x y s e Hxy _ IH]; constructor; [lia | exact IH].
Qed.

Lemma box_range_rev : Forall2 (fun x y => 0 <= x < y) (rev s) (rev e).
Proof. apply Forall2_rev, Hbox. Qed.

(** The walk starts at the first index. *)
Lemma boxIndex_zero : boxIndex s e 0 = s.
Proof.
  unfold boxIndex. rewrite zero_digits_replicate. rewrite <- (rev_involutive s) at 3. f_equal.
  assert (Hl : length (zip_with Z.sub (rev e) (rev s)) = length (rev s)).
  { rewrite length_zip_with, !length_rev. destruct Hbox. lia. }
  rewrite Hl. generalize (rev s). intros l. induction l as [| x l IH]; [done |]. simpl. f_equal; [lia | exact IH].
Qed.

(** All indices of the walk are inside the box. *)
Lemma boxIndex_inside (t : Z) : Forall2 (fun i b => b.1 <= i < b.2) (boxIndex s e t) (zip s e).
Proof.
  unfold boxIndex. pose proof (digits_bounds _ t box_limits_pos) as Hd. destruct box_lengths as [_ Hl].
  set (d := digits _ t) in *. clearbody d.
  assert (Hgen : Forall2 (fun i b => b.1 <= i < b.2) (zip_with Z.add (rev s) d) (zip (rev s) (rev e))).
  { pose proof box_range_rev as Hr. revert Hd Hr. generalize (rev s) as a, (rev e) as b. clear. induction d as [| x d IH]; intros a b Hd Hr.
    - apply Forall2_nil_inv_l in Hd. destruct a as [| a0 a]; [constructor |].
      apply Forall2_cons_inv_l in Hr as (b0 & b' & _ & _ & ->). done.
    - apply Forall2_cons_inv_l in Hd as (y & k & Hx & Hd & Hk). destruct b as [| b0 b]; [done |]. destruct a as [| a0 a]; [done |].
      simpl in Hk. injection Hk as <- <-. apply Forall2_cons in Hr as [_ Hr]. cbn [zip_with]. constructor; [simpl; lia | by apply IH]. }
  apply Forall2_rev in Hgen. rewrite zip_with_rev, rev_involutive in Hgen by done. exact Hgen.
Qed.

Lemma box_index_ok (index : list Z) : Forall2 (fun i b => b.1 <= i < b.2) index (zip s e) -> index_ok axs index.
Proof.
  destruct Hbox as [H1 H2 H3 H4 _]. clear -H1 H2 H3 H4. revert s e axs H1 H2 H3 H4.
  induction index as [| i index IH]; intros s e axs H1 H2 H3 H4 Hi.
  - apply Forall2_nil_inv_l in Hi. destruct s as [| s0 s]; [destruct axs; [constructor | simpl in H1; lia] |].
    apply Forall2_cons_inv_l in H3 as (e0 & e' & _ & _ & ->). done.
  - apply Forall2_cons_inv_l in Hi as (b & k & Hib & Hi & Hk). destruct s as [| s0 s]; [done |].
    apply Forall2_cons_inv_l in H3 as (e0 & e' & Hse & H3 & ->). simpl in Hk. injection Hk as <- <-.
    apply Forall2_cons_inv_l in H4 as (a & axs' & Hea & H4 & ->). constructor; [simpl in Hib; lia |].
    apply (IH s e'); simpl in *; try done; lia.
Qed.

(** The cell number of step [t]. *)
Definition boxNumber (t : Z) : Z := horner axs (boxIndex s e t) 0.

Lemma boxNumber_bounds (t : Z) : 0 <= boxNumber t < cellTotal axs /\ coordinates axs (boxNumber t) = boxIndex s e t.
Proof. apply coordinates_horner, box_index_ok, boxIndex_inside. Qed.

Lemma boxIndex_inj (t u : Z) : 0 <= t < boxSize s e -> 0 <= u < boxSize s e -> boxIndex s e t = boxIndex s e u -> t = u.
Proof.
  rewrite <- boxSize_rev. intros Ht Hu E. apply (digits_inj _ t u box_limits_pos Ht Hu).
  unfold boxIndex in E. apply (f_equal (@rev Z)) in E. rewrite !rev_involutive in E.
  pose proof (Forall2_length _ _ _ (digits_bounds _ t box_limits_pos)) as L1.
  pose proof (Forall2_length _ _ _ (digits_bounds _ u box_limits_pos)) as L2.
  assert (Hls : length (rev s) = length (zip_with Z.sub (rev e) (rev s))).
  { rewrite length_zip_with, !length_rev. destruct Hbox. lia. }
  revert L1 L2 E. rewrite <- Hls. generalize (digits (zip_with Z.sub (rev e) (rev s)) t) as d, (digits (zip_with Z.sub (rev e) (rev s)) u) as d'.
  generalize (rev s). clear. intros l. induction l as [| x l IH]; intros [| y d] [| z d'] L1 L2 E; simpl in *; try lia; [done |].
  injection E as E0 E. f_equal; [lia |]. apply IH; [lia | lia | exact E].
Qed.

(** Every index of the box is visited. *)
Lemma boxIndex_onto (index : list Z) :
  Forall2 (fun i b => b.1 <= i < b.2) index (zip s e) -> exists t, 0 <= t < boxSize s e /\ boxIndex s e t = index.
Proof.
  intros Hi. destruct box_lengths as [_ Hl]. apply Forall2_rev in Hi. rewrite <- zip_with_rev in Hi by done.
  destruct (digits_onto (zip_with Z.sub (rev e) (rev s)) (zip_with Z.sub (rev index) (rev s))) as (t & Ht & Et).
  { revert Hi. pose proof box_range_rev as Hr. revert Hr. generalize (rev index) as k, (rev s) as a, (rev e) as b. clear.
    induction k as [| x k IH]; intros a b Hr Hi.
    - apply Forall2_nil_inv_l in Hi. destruct a as [| a0 a]; [destruct b; constructor |].
      apply Forall2_cons_inv_l in Hr as (b0 & b' & _ & _ & ->). done.
    - apply Forall2_cons_inv_l in Hi as (y & l & Hx & Hi & Hk). destruct a as [| a0 a]; [done |].
      apply Forall2_cons_inv_l in Hr as (b0 & b' & _ & Hr & ->). simpl in Hk. injection Hk as <- <-. cbn [zip_with].
      constructor; [simpl in Hx; lia | by apply IH]. }
  exists t. rewrite <- boxSize_rev. split; [done |]. unfold boxIndex. rewrite Et. transitivity (rev (rev index)); [f_equal | apply rev_involutive].
  pose proof (Forall2_length _ _ _ Hi) as Hli. rewrite length_zip_with, !length_rev in Hli.
  assert (Hlen : length (rev index) = length (rev s)) by (rewrite !length_rev; lia).
  revert Hlen. generalize (rev index) as k, (rev s) as a. clear. induction k as [| x k IH]; intros [| y a] Hl; simpl in Hl; try lia; [done |].
  simpl. rewrite IH by lia. f_equal. lia.
Qed.

(** One step of the walk. *)
Lemma advanceIndex_box (t : Z) :
  0 <= t < boxSize s e ->
  advanceIndex (rev axs) (rev (boxIndex s e t)) (rev s) (rev e) (boxNumber t) 1 =
    if t + 1 <? boxSize s e then (rev (boxIndex s e (t + 1)), boxNumber (t + 1), true)
    else (rev (boxIndex s e 0), boxNumber 0, false).
Proof.
  intros Ht. destruct box_lengths as [Hls Hle].
  pose proof (advanceIndex_ok (rev axs) (rev s) (rev e) (digits (zip_with Z.sub (rev e) (rev s)) t) (boxNumber t) 1 Hls box_range_rev
    (digits_bounds _ t box_limits_pos)) as Ha.
  rewrite advanceCoords_digits in Ha by (exact box_limits_pos || by rewrite boxSize_rev). rewrite boxSize_rev in Ha.
  assert (Hn : forall u, boxNumber u = revNumber (rev axs) (zip_with Z.add (rev s) (digits (zip_with Z.sub (rev e) (rev s)) u))).
  { intros u. unfold boxNumber. rewrite horner_revNumber; [unfold boxIndex; by rewrite rev_involutive |].
    pose proof (Forall2_length _ _ _ (box_index_ok _ (boxIndex_inside u))) as Hl. exact Hl. }
  unfold boxIndex at 1. rewrite rev_involutive.
  destruct (t + 1 <? boxSize s e); rewrite Ha, <- !Hn; unfold boxIndex; rewrite rev_involutive; cbn [negb];
    f_equal; f_equal; lia.
Qed.

End Box.

(** * The fragments of a region *)

(** Elements that contribute nothing can be left out. *)
Lemma bind_subset {A} (f : Z -> list A) (l k : list Z) :
  NoDup l -> (forall j, j ∈ l -> j ∈ k) -> NoDup k -> (forall j, j ∈ k -> j ∉ l -> f j = []) -> l ≫= f ≡ₚ k ≫= f.
Proof.
  intros Hl Hsub Hk Hout.
  assert (Hp : k ≡ₚ l ++ filter (fun j => j ∉ l) k).
  { apply NoDup_Permutation; [done | |].
    - apply NoDup_app. split; [done |]. split; [| by apply NoDup_filter]. intros j Hj Hf. by apply list_elem_of_filter in Hf as [? _].
    - intros j. rewrite elem_of_app, list_elem_of_filter. split; [destruct (decide (j ∈ l)); tauto |].
      intros [Hj | [_ Hj]]; [by apply Hsub | exact Hj]. }
  rewrite Hp, bind_app.
  assert (Hnil : filter (fun j => j ∉ l) k ≫= f = []); [| by rewrite Hnil, app_nil_r].
  assert (Hall : Forall (fun j => f j = []) (filter (fun j => j ∉ l) k)).
  { apply Forall_forall. intros j Hj. apply list_elem_of_filter in Hj as [? ?]. by apply Hout. }
  clear Hp. induction Hall as [| j m Hj _ IH]; [done |]. csimpl. rewrite Hj. exact IH.
Qed.

Section Region.

Context {F : Type} (region : esdmI_hypercube_t) (Hreg : Forall range_int64 region).

Notation esdm_grid_t := (esdm_grid_t F).
Notation esdm_gridEntry_t := (esdm_gridEntry_t esdm_grid_t F).
Notation state_t := (esdmI_grid_fragmentsInRegion_state_t F).

(** The fragments of the leaf cells that overlap with the region. *)
Definition selectFragments (leaves : list (esdmI_hypercube_t * option F)) : list F :=
  omap snd (filter (fun x => cube_overlaps x.1 region) leaves).

Definition regionFragments (g : esdm_grid_t) : list F := selectFragments (leafCells g).

(** What one cell contributes. *)
Definition cellFragments (g : esdm_grid_t) (cs : list esdm_gridEntry_t) (j : Z) : list F :=
  from_option (fun e => selectFragments (entryLeaves g (Z.to_nat j) e)) [] (cs !! Z.to_nat j).

Definition state_ok (st : state_t) : Prop := Z.of_nat (length (fragments st)) <= bufferSize st /\ 0 < bufferSize st.

(** A call appends exactly the given fragments, in some order. *)
Definition appends (r : outcome (esdm_status * state_t)) (st : state_t) (fs : list F) : Prop :=
  exists st' out, r = Done (ESDM_SUCCESS, st') /\ state_ok st' /\ fragments st' = fragments st ++ out /\ out ≡ₚ fs.

Lemma addFragment_ok (st : state_t) (f : F) :
  state_ok st -> exists st', esdmI_grid_fragmentsInRegion_addFragment st f = Done st' /\ state_ok st' /\ fragments st' = fragments st ++ [f].
Proof.
  intros [H1 H2]. unfold esdmI_grid_fragmentsInRegion_addFragment. set (b := if _ =? _ then _ else _).
  assert (Hb : Z.of_nat (length (fragments st)) < b) by (unfold b; split_bools; lia).
  rewrite eassert_true by (by apply Z.ltb_lt). run. eexists. split; [done |]. split; [| done]. split; simpl; [| lia].
  rewrite length_app. simpl. lia.
Qed.

Lemma overlaps_inside (c c' r : esdmI_hypercube_t) : Forall2 range_inside c c' -> cube_overlaps c r -> cube_overlaps c' r.
Proof.
  intros H. revert r. induction H as [| x y c c' Hxy _ IH]; intros r Hr.
  { exact Hr. }
  apply Forall2_cons_inv_l in Hr as (z & r' & Hxz & Hr & ->). constructor; [| by apply IH].
  unfold range_inside, range_overlaps in *. lia.
Qed.

Lemma selectFragments_app (l k : list (esdmI_hypercube_t * option F)) :
  selectFragments (l ++ k) = selectFragments l ++ selectFragments k.
Proof. unfold selectFragments. by rewrite filter_app, omap_app. Qed.

Section Node.

Context (g : esdm_grid_t) (cs : list esdm_gridEntry_t) (Hg : grid g = Some cs) (Hwf : tree_wf g) (Htc : tree_complete g).

(** A cell that does not overlap with the region contributes nothing. *)
Lemma cellFragments_outside (j : Z) :
  0 <= j < cellTotal (axes g) -> ~ cube_overlaps (cellOf (axes g) (coordinates (axes g) j)) region -> cellFragments g cs j = [].
Proof.
  intros Hj Hno. pose proof (tree_node g Hwf) as Hn. unfold cellFragments. destruct (cs !! Z.to_nat j) as [e |] eqn:He; [| done].
  simpl. unfold selectFragments.
  assert (Hall : Forall (fun x => ~ cube_overlaps x.1 region) (entryLeaves g (Z.to_nat j) e)).
  { apply Forall_forall. intros x Hx Hov. apply Hno. unfold entryLeaves in Hx. rewrite Z2Nat.id in Hx by lia.
    destruct (subgrid e) as [s |] eqn:Hse.
    - destruct (child_dims g cs _ e s Hwf Hg He Hse) as [Hws _]. pose proof (leafCells_inside s x Hws Hx) as Hin.
      rewrite (nw_domain _ Hn cs _ e s Hg He Hse), Z2Nat.id in Hin by lia. by eapply overlaps_inside.
    - apply list_elem_of_singleton in Hx as ->. exact Hov. }
  clear -Hall. induction Hall as [| x l Hx _ IH]; [done |]. by rewrite filter_cons_False.
Qed.

Lemma regionFragments_cells : regionFragments g = seqZ 0 (cellTotal (axes g)) ≫= cellFragments g cs.
Proof.
  pose proof (nw_cells _ (tree_node g Hwf) cs Hg) as Hl. unfold regionFragments. rewrite (leafCells_from g cs Hg), <- Hl.
  assert (Hgen : forall k j, (j + k = length cs)%nat ->
    selectFragments (leavesFrom g j (drop j cs)) = seqZ (Z.of_nat j) (Z.of_nat k) ≫= cellFragments g cs).
  { induction k as [| k IH]; intros j Hj.
    - by rewrite drop_ge by lia.
    - destruct (lookup_lt_is_Some_2 cs j) as [e He]; [lia |]. rewrite (drop_S _ _ _ He). cbn [leavesFrom].
      rewrite selectFragments_app, seqZ_cons, (IH (S j)) by lia. csimpl. f_equal.
      + unfold cellFragments. by rewrite Nat2Z.id, He.
      + f_equal. f_equal; lia. }
  exact (Hgen (length cs) 0%nat eq_refl).
Qed.

(** The visit of one overlapping cell. *)
Lemma visit_cell (visit : esdm_grid_t -> state_t -> outcome (esdm_status * state_t)) (j : Z) (st : state_t) :
  0 <= j < cellTotal (axes g) -> cube_overlaps (cellOf (axes g) (coordinates (axes g) j)) region -> state_ok st ->
  (forall e s st, cs !! Z.to_nat j = Some e -> subgrid e = Some s -> state_ok st -> appends (visit s st) st (regionFragments s)) ->
  exists e, getCell g (Z.to_nat j) = Done e /\
  appends (match fragment e, subgrid e with
           | Some f, _ => state' ← esdmI_grid_fragmentsInRegion_addFragment st f; mret (ESDM_SUCCESS, state')
           | None, Some child => visit child st
           | None, None => mret (ESDM_INVALID_STATE_ERROR, st)
           end) st (cellFragments g cs j).
Proof.
  intros Hj Hov Hst Hvisit. pose proof (tree_node g Hwf) as Hn. pose proof (nw_cells _ Hn cs Hg) as Hl.
  destruct (lookup_lt_is_Some_2 cs (Z.to_nat j)) as [e He]; [lia |]. exists e. split; [by apply (getCell_lookup g cs) |].
  unfold cellFragments. rewrite He. simpl. unfold entryLeaves. rewrite Z2Nat.id by lia.
  destruct (subgrid e) as [s |] eqn:Hse.
  - destruct (nw_exclusive _ Hn cs _ e Hg He) as [H | ->]; [congruence |]. by eapply Hvisit.
  - destruct Htc as [cs' Hg' Hfr _]. rewrite Hg in Hg'. injection Hg' as <-. destruct (Hfr _ e He Hse) as [f Hf]. rewrite Hf.
    destruct (addFragment_ok st f Hst) as (st' & -> & Hst' & Hfs). run. exists st', [f]. split; [done |]. split; [done |].
    split; [done |]. unfold selectFragments. rewrite filter_cons_True by done. done.
Qed.

Lemma region_loop_ok (visit : esdm_grid_t -> state_t -> outcome (esdm_status * state_t)) (s e : list Z) (fuel : nat) (t : Z) (st : state_t) :
  index_box (axes g) region s e -> 0 <= t < boxSize s e -> boxSize s e - t <= Z.of_nat fuel -> state_ok st ->
  (forall j e s st, cs !! Z.to_nat j = Some e -> subgrid e = Some s -> cube_overlaps (cellOf (axes g) (coordinates (axes g) j)) region ->
     0 <= j -> state_ok st -> appends (visit s st) st (regionFragments s)) ->
  appends (region_loop visit fuel g (rev s) (rev e) (rev (boxIndex s e t)) (boxNumber (axes g) s e t) st) st
    (seqZ t (boxSize s e - t) ≫= (fun u => cellFragments g cs (boxNumber (axes g) s e u))).
Proof.
  intros Hbox Ht Hfuel Hst Hvisit. pose proof (gw_axes _ (nw_grid _ (tree_node g Hwf))) as Hax.
  revert t st Ht Hfuel Hst. induction fuel as [| fuel IH]; intros t st Ht Hfuel Hst; [lia |]. cbn [region_loop].
  destruct (boxNumber_bounds (axes g) region s e Hbox t) as [Hb Hco].
  assert (Hov : cube_overlaps (cellOf (axes g) (coordinates (axes g) (boxNumber (axes g) s e t))) region).
  { rewrite Hco. apply (ib_overlap _ _ _ _ Hbox); [by eapply box_index_ok, boxIndex_inside | by eapply boxIndex_inside]. }
  destruct (visit_cell visit (boxNumber (axes g) s e t) st Hb Hov Hst) as (x & -> & st' & out & E & Hst' & Hfs & Hp).
  { intros e0 s0 st0 He0 Hs0 Hst0. eapply Hvisit; [exact He0 | exact Hs0 | exact Hov | lia | exact Hst0]. }
  run. rewrite E. run. rewrite bool_decide_eq_true_2 by done. rewrite (advanceIndex_box (axes g) region s e Hbox t Ht).
  rewrite seqZ_cons by lia. csimpl. destruct (Z.ltb_spec (t + 1) (boxSize s e)) as [Hlt | Hge].
  - destruct (IH (t + 1) st' ltac:(lia) ltac:(lia) Hst') as (st2 & out2 & -> & Hst2 & Hfs2 & Hp2).
    exists st2, (out ++ out2). split; [done |]. split; [done |]. split; [by rewrite Hfs2, Hfs, app_assoc |].
    rewrite Hp, Hp2. replace (Z.pred (boxSize s e - t)) with (boxSize s e - (t + 1)) by lia. done.
  - exists st', out. split; [done |]. split; [done |]. split; [done |].
    replace (Z.pred (boxSize s e - t)) with 0 by lia. csimpl. by rewrite app_nil_r.
Qed.

(** The cells of the walk are all cells that contribute. *)
Lemma walk_fragments (s e : list Z) :
  index_box (axes g) region s e ->
  seqZ 0 (boxSize s e) ≫= (fun u => cellFragments g cs (boxNumber (axes g) s e u)) ≡ₚ regionFragments g.
Proof.
  intros Hbox. pose proof (gw_axes _ (nw_grid _ (tree_node g Hwf))) as Hax. rewrite regionFragments_cells.
  change (fun u => cellFragments g cs (boxNumber (axes g) s e u)) with (cellFragments g cs ∘ boxNumber (axes g) s e).
  rewrite <- list_fmap_bind. apply bind_subset.
  - apply NoDup_fmap_2_strong; [| apply NoDup_seqZ]. intros t u Ht%elem_of_seqZ Hu%elem_of_seqZ E.
    apply (boxIndex_inj (axes g) region s e Hbox); [lia | lia |].
    rewrite <- (proj2 (boxNumber_bounds (axes g) region s e Hbox t)), E. apply (boxNumber_bounds (axes g) region s e Hbox u).
  - intros j (t & -> & _)%list_elem_of_fmap. apply elem_of_seqZ. pose proof (proj1 (boxNumber_bounds (axes g) region s e Hbox t)). lia.
  - apply NoDup_seqZ.
  - intros j Hj%elem_of_seqZ Hnot. apply cellFragments_outside; [lia |]. intros Hov. apply Hnot.
    apply (ib_overlap _ _ _ _ Hbox) in Hov; [| by apply coordinates_ok].
    destruct (boxIndex_onto (axes g) region s e Hbox _ Hov) as (t & Ht & Et). apply list_elem_of_fmap. exists t.
    split; [| apply elem_of_seqZ; lia]. destruct (boxNumber_bounds (axes g) region s e Hbox t) as [Hb Hc].
    apply (coordinates_inj _ Hax); [lia | lia | congruence].
Qed.

End Node.

Lemma boxSize_pos (axs : list esdm_axis_t) (s e : list Z) : index_box axs region s e -> 0 < boxSize s e.
Proof.
  intros Hbox. apply prod_pos. pose proof (ib_range _ _ _ _ Hbox) as H. clear -H.
  induction H as [| x y s e Hxy _ IH]; constructor; [lia | exact IH].
Qed.

Lemma fragmentsInRegion_internal_ok (fuel : nat) (g : esdm_grid_t) (st : state_t) :
  tree_wf g -> tree_complete g -> cube_overlaps (domain g) region -> (depth g <= fuel)%nat -> state_ok st ->
  appends (esdmI_grid_fragmentsInRegion_internal fuel region g st) st (regionFragments g).
Proof.
  revert g st. induction fuel as [| fuel IH]; intros g st Hwf Htc Hov Hfuel Hst.
  { destruct g as [d id n [cs |] axs]; simpl in Hfuel; lia. }
  pose proof (tree_node g Hwf) as Hn. pose proof Htc as [cs Hg _ Hsub]. cbn [esdmI_grid_fragmentsInRegion_internal].
  destruct (indexRange_ok g region Hn Hreg Hov) as (s & e & -> & Hbox). run. pose proof (boxSize_pos _ _ _ Hbox) as Hbs.
  assert (Hne : s <> e).
  { intros ->. pose proof (ib_range _ _ _ _ Hbox) as Hr. pose proof (ib_end _ _ _ _ Hbox) as Hl.
    pose proof (gw_pos _ (nw_grid _ Hn)) as Hp. rewrite <- (gw_dims _ (nw_grid _ Hn)) in Hp.
    destruct e as [| x e]; [simpl in Hl; lia |]. apply Forall2_cons in Hr as [Hx _]. lia. }
  rewrite eassert_true by (by apply bool_decide_eq_true). run.
  pose proof (boxIndex_zero (axes g) region s e Hbox) as Hz.
  pose proof (box_index_ok (axes g) region s e Hbox _ (boxIndex_inside (axes g) region s e Hbox 0)) as Hi0. rewrite Hz in Hi0.
  rewrite linearIndex_ok by (done || apply Hn). run. destruct (coordinates_horner (axes g) s Hi0) as [Hb _].
  rewrite eassert_true by (rewrite Z.geb_leb; apply Z.leb_le; lia). run.
  replace (horner (axes g) s 0) with (boxNumber (axes g) s e 0) by (unfold boxNumber; by rewrite Hz).
  rewrite <- Hz at 3.
  destruct (region_loop_ok g cs Hg Hwf Htc (esdmI_grid_fragmentsInRegion_internal fuel region) s e
    (S (Z.to_nat (prod (zip_with Z.sub e s)))) 0 st Hbox) as (st' & out & E & Hst' & Hfs & Hp); [lia | fold (boxSize s e); lia | done | |].
  { intros j x child st0 Hx Hc Hovj Hj Hst0. destruct (child_dims g cs _ x child Hwf Hg Hx Hc) as [Hwc _].
    apply IH; [exact Hwc | by eapply Hsub | | | exact Hst0].
    - rewrite (nw_domain _ Hn cs _ x child Hg Hx Hc), Z2Nat.id by lia. exact Hovj.
    - pose proof (depth_child g cs _ x child Hg Hx Hc). lia. }
  exists st', out. split; [exact E |]. split; [done |]. split; [done |]. rewrite Hp, Z.sub_0_r. by apply walk_fragments.
Qed.

Lemma fragmentsInRegion_ok (g : esdm_grid_t) :
  tree_wf g -> grid_complete g = true -> cube_overlaps (domain g) region ->
  exists fs, esdmI_grid_fragmentsInRegion g region = Done (ESDM_SUCCESS, Some fs) /\ fs ≡ₚ regionFragments g.
Proof.
  intros Hwf Hc Hov. pose proof (grid_complete_tree g Hwf Hc) as Htc. pose proof Htc as [cs Hg _ _].
  unfold esdmI_grid_fragmentsInRegion. rewrite eassert_true by (apply bool_decide_eq_true; rewrite Hg; eauto). run.
  destruct (fragmentsInRegion_internal_ok (depth g) g (RegionState [] 8) Hwf Htc Hov) as (st & out & -> & _ & Hfs & Hp); [lia | by split |].
  run. rewrite bool_decide_eq_true_2 by done. exists out. rewrite Hfs. done.
Qed.

(** C32: For a complete grid and a region that overlaps with it, [esdmI_grid_fragmentsInRegion()]
    returns, each once, the fragments of exactly those cells of the hierarchy, subgrids included,
    that overlap with the region. *)
Theorem region_fragments_correct (g : esdm_grid_t) :
  tree_wf g -> grid_complete g = true -> cube_overlaps (domain g) region ->
  exists fs, esdmI_grid_fragmentsInRegion g region = Done (ESDM_SUCCESS, Some fs) /\ fs ≡ₚ regionFragments g.
Proof. apply fragmentsInRegion_ok. Qed.

End Region.

(** A complete grid of two cells, one of which has a subgrid of two cells. *)
Definition completeGrid : esdm_grid_t nat :=
  Grid 1 None 0
    (Some [Entry None (Some 1%nat);
           Entry (Some (Grid 1 None 0 (Some [Entry None (Some 2%nat); Entry None (Some 3%nat)]) [axisOf [5; 7; 10]])) None])
    [axisOf [0; 5; 10]].

Lemma completeGrid_wf : tree_wf completeGrid.
Proof.
  assert (H1 : forall n e c, grid_wf (Grid (F := nat) 1 n e c [axisOf [0; 5; 10]]) /\ grid_int64 (Grid (F := nat) 1 n e c [axisOf [0; 5; 10]])).
  { intros n e c. split; constructor; try done; apply Forall_singleton; [| constructor; by vm_compute].
    apply axisOf_wf. split; [by repeat constructor | simpl; lia]. }
  assert (H2 : forall n e c, grid_wf (Grid (F := nat) 1 n e c [axisOf [5; 7; 10]]) /\ grid_int64 (Grid (F := nat) 1 n e c [axisOf [5; 7; 10]])).
  { intros n e c. split; constructor; try done; apply Forall_singleton; [| constructor; by vm_compute].
    apply axisOf_wf. split; [by repeat constructor | simpl; lia]. }
  constructor.
  - constructor; try done; try apply H1.
    + by intros cs [= <-].
    + by intros cs [= <-].
    + intros cs [| [| j]] e [= <-] He; simpl in He; simplify_eq; [by left | by right].
    + intros cs [| [| j]] e s [= <-] He Hs; simpl in He; simplify_eq; simpl in Hs; simplify_eq. by vm_compute.
  - intros cs [| [| j]] e s [= <-] He Hs; simpl in He; simplify_eq; simpl in Hs; simplify_eq. constructor; [| intros cs [| [| j]] e s [= <-] He Hs; simpl in He; simplify_eq; simpl in Hs; simplify_eq].
    constructor; try done; try apply H2.
    + by intros cs [= <-].
    + by intros cs [= <-].
    + intros cs [| [| j]] e [= <-] He; simpl in He; simplify_eq; by left.
    + intros cs [| [| j]] e s [= <-] He Hs; simpl in He; simplify_eq; simpl in Hs; simplify_eq.
Qed.

Lemma region_fragments_correct_witness :
  exists fs, esdmI_grid_fragmentsInRegion completeGrid [Range 4 6] = Done (ESDM_SUCCESS, Some fs) /\ fs ≡ₚ [1%nat; 2%nat].
Proof.
  apply (region_fragments_correct [Range 4 6] ltac:(by repeat constructor) completeGrid completeGrid_wf).
  - reflexivity.
  - by repeat constructor.
Defined.

Lemma grid_iteration_correct_witness :
  let ds := Dataspace (Type_ 1 8) 1 [10] [0] false None in
  exists it spaces, esdm_gridIterator_create completeGrid = Done (ESDM_SUCCESS, Some it) /\
  drain 4 (S (nodes completeGrid)) ds it = Done spaces /\
  extends <$> spaces = [[Range 0 5]; [Range 5 7]; [Range 7 10]] /\ partitions (extends <$> spaces) [Range 0 10].
Proof.
  apply (grid_iteration_correct completeGrid (Dataspace (Type_ 1 8) 1 [10] [0] false None) completeGrid_wf).
  - reflexivity.
  - constructor; [by constructor | by repeat constructor | by repeat constructor].
  - by repeat constructor.
Defined.

(** A region outside the domain of the grid does not give an empty range of cells, as the
    comment in [esdmI_grid_indexRange()] says: behind the domain the range starts at [-1] and
    ends at the last cell, and [esdmI_grid_fragmentsInRegion()] fails an assertion. *)
Lemma region_outside_aborts :
  esdmI_grid_indexRange completeGrid [Range 20 30] = Done ([-1], [2]) /\
  esdmI_grid_fragmentsInRegion completeGrid [Range 20 30] = Abort.
Proof. split; reflexivity. Qed.
