(* ===== verification/Memory.v ===== *)
(** The heap: allocated blocks of bytes, and pointers into them.  User supplied buffers are
    blocks like any other; addresses inside a block are not bounded. *)

From stdpp Require Export gmap.
From S2P Require Import Prelude Convert.

Open Scope Z_scope.

Definition pointer : Type := nat * Z.

Abbreviation heap := (gmap nat mem).

(** [p + n] for a pointer to bytes. *)
Definition offsetPointer (p : pointer) (n : Z) : pointer := (p.1, p.2 + n).

(** The memory as seen from a pointer. *)
Definition seen (p : pointer) (m : mem) : mem := fun a => m (p.2 + a).
Definition unseen (p : pointer) (m : mem) : mem := fun a => m (a - p.2).

Definition view (p : pointer) (h : heap) : outcome mem := seen p <$> deref (h !! p.1).

(** Store what an operation left of the memory seen from a pointer. *)
Definition put (p : pointer) (m : mem) (h : heap) : outcome heap :=
  (fun _ => <[p.1 := unseen p m]> h) <$> deref (h !! p.1).

(** Bytes arrive at a pointer. *)
Definition store (p : pointer) (data : list Z) (h : heap) : outcome heap :=
  (fun m => <[p.1 := write_bytes m p.2 data]> h) <$> deref (h !! p.1).

(** [free()]: only the start of an allocated block may be passed, or a null pointer. *)
Definition free (p : option pointer) (h : heap) : outcome heap :=
  match p with
  | None => mret h
  | Some p => if decide (p.2 = 0 /\ is_Some (h !! p.1)) then mret (delete p.1 h) else Undef
  end.

Section Malloc.

(** The unspecified content of a new block. *)
Context (junk : mem).

(** [ea_checked_malloc()]: a running process always has memory left, as the function
    aborts it otherwise. *)
Definition malloc (h : heap) : pointer * heap :=
  let block := fresh (dom h) in ((block, 0), <[block := junk]> h).

Lemma malloc_fresh (h : heap) : h !! (malloc h).1.1 = None.
Proof. simpl. apply not_elem_of_dom, is_fresh. Qed.

End Malloc.

Lemma view_ok (p : pointer) (h : heap) (m : mem) : h !! p.1 = Some m -> view p h = Done (seen p m).
Proof. intros E. unfold view. by rewrite E. Qed.

Lemma put_ok (p : pointer) (h : heap) (m m' : mem) : h !! p.1 = Some m -> put p m' h = Done (<[p.1 := unseen p m']> h).
Proof. intros E. unfold put. by rewrite E. Qed.

Lemma seen_unseen (p : pointer) (m : mem) (a : Z) : seen p (unseen p m) a = m a.
Proof. unfold seen, unseen. f_equal. lia. Qed.

(** * Bytes of a block *)

Lemma read_bytes_ext (m m' : mem) (a n : Z) :
  (forall b, 0 <= b < n -> m (a + b) = m' (a + b)) -> read_bytes m a n = read_bytes m' a n.
Proof.
  intros H. unfold read_bytes. apply list_fmap_ext. intros i x Hx. apply lookup_seq in Hx as [-> Hi].
  apply H. lia.
Qed.

Lemma read_bytes_shift (m : mem) (k a n : Z) : read_bytes (fun x => m (k + x)) a n = read_bytes m (k + a) n.
Proof. unfold read_bytes. apply list_fmap_ext. intros. f_equal. lia. Qed.

(** The memory whose first bytes are those of a file. *)
Definition mem_of (bytes : list Z) : mem := fun a => nthZ bytes (Z.to_nat a).

Lemma read_mem_of (bytes : list Z) (a n : Z) :
  0 <= a -> 0 <= n -> a + n <= Z.of_nat (length bytes) ->
  read_bytes (mem_of bytes) a n = take (Z.to_nat n) (drop (Z.to_nat a) bytes).
Proof.
  intros Ha Hn Hl. apply list_eq. intros i. unfold read_bytes. rewrite list_lookup_fmap.
  destruct (decide (i < Z.to_nat n)%nat) as [Hi |].
  - rewrite lookup_seq_lt by done. simpl. rewrite lookup_take_lt, lookup_drop by done.
    unfold mem_of, nthZ. replace (Z.to_nat (a + Z.of_nat i)) with (Z.to_nat a + i)%nat by lia.
    destruct (lookup_lt_is_Some_2 bytes (Z.to_nat a + i)) as [x Hx]; [lia |]. by rewrite Hx.
  - rewrite lookup_seq_ge by lia. simpl. by rewrite lookup_take_ge by lia.
Qed.

Lemma mem_of_read (m : mem) (a n x : Z) :
  0 <= x < n -> mem_of (read_bytes m a n) x = m (a + x).
Proof.
  intros Hx. unfold mem_of, nthZ, read_bytes. rewrite list_lookup_fmap, lookup_seq_lt by lia. simpl.
  f_equal. lia.
Qed.

Lemma write_read_bytes (m m' : mem) (a b n x : Z) :
  0 <= n -> write_bytes m b (read_bytes m' a n) x = if decide (b <= x < b + n) then m' (a + (x - b)) else m x.
Proof.
  intros Hn. case_decide as Hx.
  - apply write_bytes_in; [lia |]. apply lookup_read_bytes. lia.
  - apply write_bytes_out. by rewrite length_read_bytes.
Qed.
