(* ===== verification/Fragment.v ===== *)
(** Fragments (src/esdm-datatypes.c, src/include/esdm-datatypes-internal.h) and the
    serialization of their data (src/estream.c) in a build without the SCIL compression library. *)

From Stdlib Require Import Ascii.
From S2P Require Import Prelude Memory Hypercube Json Odometer Dataspace Convert CopyData.

Open Scope Z_scope.

(** * Data *)

(** [esdm_data_status_e] *)
Inductive esdm_data_status_e :=
| ESDM_DATA_NOT_LOADED
| ESDM_DATA_DIRTY
| ESDM_DATA_PERSISTENT
| ESDM_DATA_DELETED.

#[global] Instance esdm_data_status_eq_dec : EqDecision esdm_data_status_e.
Proof. solve_decision. Defined.

(** A fragment; [datasetId] is [f->dataset->id], [backend] the index of its backend in the
    list of data backends.  [backend_md] is null for all backends without
    [fragment_metadata_load()]. *)
Record esdm_fragment_t := Fragment {
  id : option string;
  datasetId : string;
  dataspace : esdm_dataspace_t;
  backend : option nat;
  buf : option pointer;
  elements : Z;
  bytes : Z;
  actual_bytes : Z;
  status : esdm_data_status_e;
  ownsBuf : bool
}.

(** [(size_t)-1], the value of [actual_bytes] for data that is not compressed. *)
Definition SIZE_NONE : Z := u64 (-1).

Section Stream.

Context (floatCast : esdm_type_t -> esdm_type_t -> list Z -> list Z) (junk : mem).

(** * Serialization of the data: src/estream.c *)

(** [esdm_dataspace_copy_data()] between two pointers. *)
Definition copyData (sourceSpace : esdm_dataspace_t) (source : pointer) (destSpace : esdm_dataspace_t) (dest : pointer)
    (h : heap) : outcome heap :=
  s ← view source h;
  d ← view dest h;
  '(_, d') ← esdm_dataspace_copy_data floatCast sourceSpace s destSpace d;
  put dest d' h.

(** The flag, [*out_buf] and [*out_size]. *)
Definition estream_mem_unpack_fragment_param (f : esdm_fragment_t) (h : heap) : bool * option pointer * Z * heap :=
  if negb (actual_bytes f =? SIZE_NONE) then
    let '(out_buf, h) := malloc junk h in (true, Some out_buf, actual_bytes f, h)
  else
    match stride (dataspace f) with
    | Some _ => let '(out_buf, h) := malloc junk h in (true, Some out_buf, bytes f, h)
    | None => (false, buf f, bytes f, h)
    end.

Definition estream_mem_unpack_fragment (f : esdm_fragment_t) (rbuff : pointer) (h : heap) : outcome (esdm_status * heap) :=
  if negb (actual_bytes f =? SIZE_NONE) then mret (ESDM_ERROR, h)
  else
    match stride (dataspace f) with
    | Some _ =>
        '(_, contiguousSpace) ← esdm_dataspace_makeContiguous (dataspace f);
        contiguousSpace ← deref contiguousSpace;
        dest ← deref (buf f);
        h ← copyData contiguousSpace rbuff (dataspace f) dest h;
        h ← free (Some rbuff) h;
        mret (ESDM_SUCCESS, h)
    | None => mret (ESDM_SUCCESS, h)
    end.

(** The final [*in_out_buff], and [*out_size].  Phase two, the compression, is empty. *)
Definition estream_mem_pack_fragment (f : esdm_fragment_t) (in_out_buff : option pointer) (h : heap)
    : outcome (esdm_status * option pointer * Z * heap) :=
  match stride (dataspace f) with
  | None =>
      match in_out_buff with
      | Some out =>
          inBuff ← deref (buf f);
          source ← view inBuff h;
          dest ← view out h;
          dest' ← memcpy source 0 dest 0 (bytes f);
          h ← put out dest' h;
          mret (ESDM_SUCCESS, Some out, bytes f, h)
      | None => mret (ESDM_SUCCESS, buf f, bytes f, h)
      end
  | Some _ =>
      let '(outBuff, h) := match in_out_buff with Some out => (out, h) | None => malloc junk h end in
      '(_, contiguousSpace) ← esdm_dataspace_makeContiguous (dataspace f);
      contiguousSpace ← deref contiguousSpace;
      inBuff ← deref (buf f);
      h ← copyData (dataspace f) inBuff contiguousSpace outBuff h;
      mret (ESDM_SUCCESS, Some outBuff, bytes f, h)
  end.

End Stream.

(** * The data of a dataspace in memory *)

Definition elementAt (space : esdm_dataspace_t) (m : mem) (p : list Z) : list Z :=
  read_bytes m (index space p * esdm_sizeof (type space)) (esdm_sizeof (type space)).

(** The address belongs to the element of a point that satisfies [P]. *)
Definition elementByte (space : esdm_dataspace_t) (P : list Z -> Prop) (a : Z) : Prop :=
  exists p, in_cube p (extends space) /\ P p /\
  index space p * esdm_sizeof (type space) <= a < index space p * esdm_sizeof (type space) + esdm_sizeof (type space).

(** The same shape in C order. *)
Definition contiguous (space : esdm_dataspace_t) : esdm_dataspace_t :=
  Dataspace (type space) (dims space) (size space) (offset space) false None.

(** A non-empty dataspace with non-negative coordinates whose data fits into memory and whose
    element offsets are representable. *)
Record data_space (space : esdm_dataspace_t) : Prop := {
  ds_wf : space_wf space;
  ds_int64 : space_int64 space;
  ds_size : Forall (fun s => 0 < s) (size space);
  ds_offset : Forall (fun o => 0 <= o) (offset space);
  ds_type : 0 < esdm_sizeof (type space);
  ds_bytes : prod (size space) * esdm_sizeof (type space) <= INT64_MAX;
  ds_fits : space_fits space
}.

(** In C order the size of the data bounds all offsets. *)
Lemma data_space_intro (space : esdm_dataspace_t) :
  stride space = None -> space_wf space -> space_int64 space -> Forall (fun s => 0 < s) (size space) ->
  Forall (fun o => 0 <= o) (offset space) -> 0 < esdm_sizeof (type space) ->
  prod (size space) * esdm_sizeof (type space) <= INT64_MAX -> data_space space.
Proof. intros. constructor; try done. by apply positive_fits. Qed.

(** A concrete dataspace. *)
Ltac solve_data_space :=
  constructor; [constructor; try done; by intros ? [= <-] | by repeat constructor | by repeat constructor
               | by repeat constructor | done | done | apply forward_fits; cbn; by repeat constructor].

(** A concrete id. *)
Ltac solve_id := by repeat split; simpl; lia.

(** Different points have different places. *)
Definition injective_layout (space : esdm_dataspace_t) : Prop :=
  forall p q, in_cube p (extends space) -> in_cube q (extends space) ->
  index space p = index space q -> p = q.

Lemma data_space_contiguous (space : esdm_dataspace_t) : data_space space -> data_space (contiguous space).
Proof. intros [[? ? ? ?] ? ? ? ? ? _]. by apply data_space_intro. Qed.

Lemma data_space_point (space : esdm_dataspace_t) : data_space space -> in_cube (offset space) (extends space).
Proof. intros [Hwf _ Hpos _ _ _ _]. by apply offset_in_extends. Qed.

Lemma contiguous_injective (space : esdm_dataspace_t) : data_space space -> injective_layout (contiguous space).
Proof.
  intros [[Hd Hs Ho _] _ Hpos _ _ _ _] p q Hp Hq E.
  apply (index_inj (offset space) (size space) p q); (done || lia).
Qed.

Lemma contiguous_bounds (space : esdm_dataspace_t) (p : list Z) :
  data_space space -> in_cube p (extends space) -> 0 <= index (contiguous space) p < prod (size space).
Proof.
  intros [[Hd Hs Ho _] _ Hpos _ _ _ _] Hp. apply (index_bounds (offset space) (size space) p); (done || lia).
Qed.

Lemma makeContiguous_ok (space : esdm_dataspace_t) :
  data_space space -> esdm_dataspace_makeContiguous space = Done (ESDM_SUCCESS, Some (contiguous space)).
Proof.
  intros [Hwf H64 Hpos Hoff _ _ _]. pose proof Hwf as [Hd Hs Ho _]. unfold esdm_dataspace_makeContiguous, esdm_dataspace_subspace.
  rewrite Z.eqb_refl. cbn [negb].
  assert (H64' : Forall2 int64_pair (offset space) (size space)).
  { eapply Forall2_impl; [exact H64 |]. intros o s H. unfold int64_pair. cbn beta in H. lia. }
  destruct (subspace_checks_ok space (size space) (offset space)) as (bs & -> & Hall); try done. run.
  assert (forallb Datatypes.id bs = true) as Eb.
  { apply Hall. intros i s o so ss H1 H2 H3 H4. simplify_eq.
    pose proof (Forall_lookup_1 _ _ _ _ Hpos H1). pose proof (Forall_lookup_1 _ _ _ _ Hoff H2). simpl in *.
    unfold subrange_ok. lia. }
  rewrite Eb. by rewrite !memdup_ok by done.
Qed.

Section Copying.

Context (floatCast : esdm_type_t -> esdm_type_t -> list Z -> list Z).
Context (Hcast : forall d s bytes, 0 <= esdm_sizeof d -> Z.of_nat (length (floatCast d s bytes)) = esdm_sizeof d).

(** Copying between dataspaces of one type moves the elements of the common points. *)
Lemma copy_same_type (sourceSpace destSpace : esdm_dataspace_t) (source dest : mem) (p0 : list Z) :
  data_space sourceSpace -> data_space destSpace -> dims sourceSpace = dims destSpace -> type sourceSpace = type destSpace ->
  in_cube p0 (extends sourceSpace) -> in_cube p0 (extends destSpace) -> injective_layout destSpace ->
  exists dest', esdm_dataspace_copy_data floatCast sourceSpace source destSpace dest = Done (ESDM_SUCCESS, dest') /\
  (forall p, in_cube p (extends sourceSpace) -> in_cube p (extends destSpace) ->
     elementAt destSpace dest' p = elementAt sourceSpace source p) /\
  (forall a, ~ elementByte destSpace (fun p => in_cube p (extends sourceSpace)) a -> dest' a = dest a).
Proof.
  intros Hs Hd Hdims Ht Hp0 Hp0' Hinj.
  destruct (copy_data_ok floatCast Hcast sourceSpace destSpace source dest memcpy p0) as (dest' & E & Hin & Hout); try done.
  - destruct Hs, Hd. by constructor.
  - unfold ea_converter_for_types. by rewrite decide_True.
  - intros p q Hp Hp' Hq Hq'. rewrite !elementOffset_index by (done || apply Hd). intros [= E].
    apply Z.mul_cancel_r in E; [by apply Hinj |]. pose proof (ds_type _ Hd). lia.
  - exists dest'. split; [done |]. split.
    + intros p Hp Hp'. destruct (Hin p Hp Hp') as (s & d & Es & Ed & Hb).
      rewrite elementOffset_index in Es, Ed by (done || apply Hs || apply Hd). injection Es as <-. injection Ed as <-.
      unfold elementAt. rewrite Ht in *. apply list_eq. intros i.
      destruct (decide (i < Z.to_nat (esdm_sizeof (type destSpace)))%nat) as [Hi | Hi].
      * specialize (Hb (Z.of_nat i) ltac:(lia)). rewrite Nat2Z.id in Hb. unfold element in Hb.
        rewrite decide_True in Hb by done. rewrite Hb. rewrite <- (Nat2Z.id i) at 1. apply lookup_read_bytes. lia.
      * rewrite !lookup_ge_None_2; [done | |]; unfold read_bytes; rewrite length_fmap, length_seq; lia.
    + intros a Ha. apply Hout. intros p d Hp Hp' Ed Had. apply Ha. exists p. split; [done |]. split; [done |].
      rewrite elementOffset_index in Ed by (done || apply Hd). by injection Ed as <-.
Qed.

Context (junk : mem).

Lemma elementAt_ext (space : esdm_dataspace_t) (m m' : mem) (p : list Z) :
  (forall a, m a = m' a) -> elementAt space m p = elementAt space m' p.
Proof. intros H. apply read_bytes_ext. intros b _. apply H. Qed.

(** The copy between two blocks. *)
Lemma copyData_ok (sourceSpace destSpace : esdm_dataspace_t) (source dest : pointer) (h : heap) (ms md : mem) (p0 : list Z) :
  data_space sourceSpace -> data_space destSpace -> dims sourceSpace = dims destSpace -> type sourceSpace = type destSpace ->
  in_cube p0 (extends sourceSpace) -> in_cube p0 (extends destSpace) -> injective_layout destSpace ->
  h !! source.1 = Some ms -> h !! dest.1 = Some md ->
  exists md', copyData floatCast sourceSpace source destSpace dest h = Done (<[dest.1 := md']> h) /\
  (forall p, in_cube p (extends sourceSpace) -> in_cube p (extends destSpace) ->
     elementAt destSpace (seen dest md') p = elementAt sourceSpace (seen source ms) p) /\
  (forall a, ~ elementByte destSpace (fun p => in_cube p (extends sourceSpace)) a -> seen dest md' a = seen dest md a).
Proof.
  intros Hs Hd Hdims Ht Hp0 Hp0' Hinj Es Ed.
  destruct (copy_same_type sourceSpace destSpace (seen source ms) (seen dest md) p0) as (d' & E & Hin & Hout); try done.
  exists (unseen dest d'). unfold copyData. rewrite (view_ok _ _ _ Es), (view_ok _ _ _ Ed). run. rewrite E. run.
  split; [by apply (put_ok _ _ md) |]. split.
  - intros p Hp Hp'. rewrite <- (Hin p Hp Hp'). apply elementAt_ext. apply seen_unseen.
  - intros a Ha. rewrite seen_unseen. by apply Hout.
Qed.

(** Ids are made by [ea_make_id()]: from three to 255 characters, none of which is a slash or a dot. *)
Fixpoint no_slash (s : string) : bool :=
  match s with
  | EmptyString => true
  | String c s' => negb (Ascii.eqb c "/"%char) && no_slash s'
  end.

Fixpoint no_dot (s : string) : bool :=
  match s with
  | EmptyString => true
  | String c s' => negb (Ascii.eqb c "."%char) && no_dot s'
  end.

Definition valid_id (s : string) : Prop := (3 <= String.length s <= 255)%nat /\ no_slash s = true /\ no_dot s = true.

(** The index of a data backend; a configuration with more than 256 of them is not considered. *)
Definition valid_backend (k : nat) : Prop := (k < 256)%nat.

#[global] Instance valid_id_dec (s : string) : Decision (valid_id s).
Proof. unfold valid_id. apply _. Defined.

(** A fragment whose data can be moved. *)
Record fragment_ok (f : esdm_fragment_t) : Prop := {
  fr_dataset : valid_id (datasetId f);
  fr_id : forall i, id f = Some i -> valid_id i;
  fr_space : data_space (dataspace f);
  fr_bytes : bytes f = prod (size (dataspace f)) * esdm_sizeof (type (dataspace f));
  fr_plain : actual_bytes f = SIZE_NONE;
  fr_backend : forall k, backend f = Some k -> valid_backend k
}.

(** A file holds the data of a dataspace in C order. *)
Definition fileElement (space : esdm_dataspace_t) (file : list Z) (p : list Z) : list Z :=
  elementAt (contiguous space) (mem_of file) p.

Lemma fileElement_read (space : esdm_dataspace_t) (m : mem) (a : Z) (p : list Z) :
  data_space space -> in_cube p (extends space) ->
  fileElement space (read_bytes m a (prod (size space) * esdm_sizeof (type space))) p =
  elementAt (contiguous space) (fun x => m (a + x)) p.
Proof.
  intros Hs Hp. pose proof (contiguous_bounds _ _ Hs Hp) as Hb. apply read_bytes_ext. intros b Hbr. apply mem_of_read.
  cbn [contiguous type] in *. pose proof (ds_type _ Hs). nia.
Qed.

(** The data written to the storage for a buffer. *)
Lemma pack_ok (f : esdm_fragment_t) (h : heap) (ptr : pointer) (m : mem) :
  fragment_ok f -> buf f = Some ptr -> h !! ptr.1 = Some m ->
  exists out mo h', estream_mem_pack_fragment floatCast junk f None h = Done (ESDM_SUCCESS, Some out, bytes f, h') /\
  h' !! out.1 = Some mo /\
  (forall p, in_cube p (extends (dataspace f)) ->
     fileElement (dataspace f) (read_bytes mo out.2 (bytes f)) p = elementAt (dataspace f) (seen ptr m) p) /\
  ((out = ptr /\ h' = h) \/ (out.2 = 0 /\ h !! out.1 = None /\ delete out.1 h' = h)).
Proof.
  intros [_ _ Hs Hb Hpl _] Eb Em. unfold estream_mem_pack_fragment. destruct (stride (dataspace f)) as [st |] eqn:Est.
  - destruct (malloc junk h) as [out h1] eqn:Emal. pose proof (malloc_fresh junk h) as Hf. rewrite Emal in Hf. cbn [fst] in Hf.
    injection Emal as <- <-. set (b := fresh (dom h)) in *. cbn [fst] in *.
    rewrite makeContiguous_ok by done. run. rewrite Eb. run.
    destruct (copyData_ok (dataspace f) (contiguous (dataspace f)) ptr (b, 0) (<[b := junk]> h) m junk (offset (dataspace f)))
      as (md' & -> & Hin & _); try done.
    + by apply data_space_contiguous.
    + by apply data_space_point.
    + by apply (data_space_point (dataspace f)).
    + by apply contiguous_injective.
    + rewrite lookup_insert_ne; [done |]. intros Eq. by rewrite <- Eq, Hf in Em.
    + by rewrite lookup_insert_eq.
    + run. cbn [fst]. eexists _, _, _. split; [reflexivity |]. cbn [fst snd]. rewrite lookup_insert_eq. split; [done |].
      split; [intros p Hp; rewrite Hb, fileElement_read by done; by rewrite <- (Hin p Hp Hp) |].
      right. split; [done |]. split; [done |]. rewrite insert_insert_eq. by apply delete_insert_id.
  - exists ptr, m, h. rewrite Eb. split; [done |]. split; [done |]. split; [| by left].
    intros p Hp. rewrite Hb, fileElement_read by done. unfold elementAt, index, eff. by rewrite Est.
Qed.

(** A block that received the data of a file: the elements are there, and no other byte
    changed. *)
Definition loaded (space : esdm_dataspace_t) (ptr : pointer) (file : list Z) (m m' : mem) : Prop :=
  (forall p, in_cube p (extends space) -> elementAt space (seen ptr m') p = fileElement space file p) /\
  (forall a, ~ elementByte space (fun _ => True) a -> seen ptr m' a = seen ptr m a).

Lemma seen_write (ptr : pointer) (m : mem) (file : list Z) (x : Z) :
  seen ptr (write_bytes m ptr.2 file) x =
  if decide (0 <= x < Z.of_nat (length file)) then mem_of file x else seen ptr m x.
Proof.
  unfold seen. case_decide as Hx.
  - destruct (lookup_lt_is_Some_2 file (Z.to_nat x)) as [b Hb]; [lia |].
    unfold mem_of, nthZ. rewrite Hb. apply write_bytes_in; [lia |]. by replace (ptr.2 + x - ptr.2) with x by lia.
  - apply write_bytes_out. lia.
Qed.

(** In C order every byte of the buffer belongs to an element. *)
Lemma contiguous_bytes (space : esdm_dataspace_t) (a : Z) :
  data_space space -> stride space = None -> 0 <= a < prod (size space) * esdm_sizeof (type space) ->
  elementByte space (fun _ => True) a.
Proof.
  intros Hs Hst Hin. pose proof Hs as [[Hd Hls Hlo _] _ Hpos _ Hsz _]. set (z := esdm_sizeof (type space)) in *.
  assert (0 <= a / z < prod (size space)) as Hk.
  { split; [apply Z.div_pos; lia | apply Z.div_lt_upper_bound; lia]. }
  destruct (index_surj (offset space) (size space) (a / z) Hpos ltac:(lia) Hk) as (p & Hp & Hi).
  exists p. split; [exact Hp |]. split; [done |]. unfold index, eff. rewrite Hst, Hi. fold z.
  pose proof (Z.div_mod a z ltac:(lia)). pose proof (Z.mod_pos_bound a z ltac:(lia)). lia.
Qed.

(** Reading the file straight into the buffer of a fragment in C order. *)
Lemma loaded_direct (space : esdm_dataspace_t) (ptr : pointer) (file : list Z) (m : mem) :
  data_space space -> stride space = None ->
  Z.of_nat (length file) = prod (size space) * esdm_sizeof (type space) ->
  loaded space ptr file m (write_bytes m ptr.2 file).
Proof.
  intros Hs Hst Hl. pose proof (ds_type _ Hs) as Hsz. assert (E : forall p, index space p = index (contiguous space) p).
  { intros p. unfold index, eff. by rewrite Hst. }
  split.
  - intros p Hp. unfold fileElement, elementAt. rewrite E. apply read_bytes_ext. cbn [contiguous type]. intros b Hb.
    pose proof (contiguous_bounds _ _ Hs Hp). rewrite seen_write, decide_True by nia. done.
  - intros a Ha. rewrite seen_write. case_decide as Hin; [| done]. destruct Ha. apply contiguous_bytes; (done || lia).
Qed.

(** The two steps around the reading of the file by a backend. *)
Lemma unpack_ok (f : esdm_fragment_t) (h : heap) (ptr : pointer) (m : mem) (file : list Z) :
  fragment_ok f -> injective_layout (dataspace f) -> buf f = Some ptr -> h !! ptr.1 = Some m ->
  Z.of_nat (length file) = bytes f ->
  exists need rbuff h1 mr m', estream_mem_unpack_fragment_param junk f h = (need, Some rbuff, bytes f, h1) /\
  h1 !! rbuff.1 = Some mr /\
  (let h2 := <[rbuff.1 := write_bytes mr rbuff.2 file]> h1 in
   (if need then estream_mem_unpack_fragment floatCast f rbuff h2 else Done (ESDM_SUCCESS, h2)) =
   Done (ESDM_SUCCESS, <[ptr.1 := m']> h)) /\
  loaded (dataspace f) ptr file m m'.
Proof.
  intros [_ _ Hs Hb Hpl _] Hinj Eb Em Hl. unfold estream_mem_unpack_fragment_param, estream_mem_unpack_fragment.
  rewrite Hpl, Z.eqb_refl. cbn [negb]. destruct (stride (dataspace f)) as [st |] eqn:Est.
  - pose proof (malloc_fresh junk h) as Hf. cbn [malloc fst] in Hf. unfold malloc. set (b := fresh (dom h)) in *.
    assert (Hne : b <> ptr.1) by (intros Eq; by rewrite <- Eq, Hf in Em).
    set (mr := write_bytes junk 0 file).
    destruct (copyData_ok (contiguous (dataspace f)) (dataspace f) (b, 0) ptr (<[b := mr]> (<[b := junk]> h)) mr m
                (offset (dataspace f))) as (m' & Ec & Hin & Hout); try done.
    + by apply data_space_contiguous.
    + by apply (data_space_point (dataspace f)).
    + by apply data_space_point.
    + by rewrite lookup_insert_eq.
    + by rewrite !lookup_insert_ne.
    + exists true, (b, 0), (<[b := junk]> h), junk, m'. split; [done |]. cbn [fst snd] in *.
      rewrite lookup_insert_eq. split; [done |]. split.
      * rewrite makeContiguous_ok by done. run. rewrite Eb. run. fold mr. rewrite Ec. run. cbn [free fst snd].
        rewrite decide_True by (split; [done |]; rewrite lookup_insert_ne, lookup_insert_eq by done; eauto). run. f_equal.
        rewrite delete_insert_ne, insert_insert_eq, delete_insert_id by done. done.
      * split.
        -- intros p Hp. rewrite (Hin p Hp Hp). unfold fileElement, elementAt. apply read_bytes_ext. cbn [contiguous type].
           intros x Hx. pose proof (contiguous_bounds _ _ Hs Hp). pose proof (ds_type _ Hs).
           unfold mr. rewrite (seen_write (b, 0)), decide_True by nia. done.
        -- intros a Ha. apply Hout. intros (p & Hp & _ & Hpa). apply Ha. by exists p.
  - exists false, ptr, h, m, (write_bytes m ptr.2 file). rewrite Eb. split; [done |]. split; [done |].
    split; [done |]. apply loaded_direct; (done || lia).
Qed.

(** What [estream_mem_pack_fragment()] hands to a backend, [bytes] long, can be unpacked into
    the buffer of any fragment of the same shape and type, whatever the layouts of the two
    buffers: every element of the second buffer becomes the element of the first one, no
    other byte of it and no other block changes, and the temporary buffer is released. *)
Theorem stream_roundtrip (f g : esdm_fragment_t) (h hg : heap) (ptr ptrg : pointer) (m mg : mem) :
  fragment_ok f -> fragment_ok g -> contiguous (dataspace f) = contiguous (dataspace g) ->
  injective_layout (dataspace g) ->
  buf f = Some ptr -> h !! ptr.1 = Some m -> buf g = Some ptrg -> hg !! ptrg.1 = Some mg ->
  exists out mo h', estream_mem_pack_fragment floatCast junk f None h = Done (ESDM_SUCCESS, Some out, bytes f, h') /\
  h' !! out.1 = Some mo /\
  exists need rbuff h1 mr m', estream_mem_unpack_fragment_param junk g hg = (need, Some rbuff, bytes f, h1) /\
  h1 !! rbuff.1 = Some mr /\
  (let h2 := <[rbuff.1 := write_bytes mr rbuff.2 (read_bytes mo out.2 (bytes f))]> h1 in
   (if need then estream_mem_unpack_fragment floatCast g rbuff h2 else Done (ESDM_SUCCESS, h2)) =
   Done (ESDM_SUCCESS, <[ptrg.1 := m']> hg)) /\
  (forall p, in_cube p (extends (dataspace f)) ->
     elementAt (dataspace g) (seen ptrg m') p = elementAt (dataspace f) (seen ptr m) p) /\
  (forall a, ~ elementByte (dataspace g) (fun _ => True) a -> seen ptrg m' a = seen ptrg mg a).
Proof.
  intros Hf Hg Hsame Hinj Ebf Em Ebg Emg.
  destruct (pack_ok f h ptr m Hf Ebf Em) as (out & mo & h' & Ep & Eo & Hfile & _).
  assert (Hbytes : bytes f = bytes g).
  { rewrite (fr_bytes _ Hf), (fr_bytes _ Hg). by injection Hsame as -> _ -> _. }
  exists out, mo, h'. split; [done |]. split; [done |].
  destruct (unpack_ok g hg ptrg mg (read_bytes mo out.2 (bytes f)) Hg Hinj Ebg Emg)
    as (need & rbuff & h1 & mr & m' & Eparam & Er & Eun & Hin & Hout).
  { rewrite length_read_bytes; [done |]. rewrite (fr_bytes _ Hf). pose proof (fr_space _ Hf) as [_ _ Hpos _ Ht _ _].
    pose proof (prod_pos _ Hpos). nia. }
  exists need, rbuff, h1, mr, m'. rewrite Hbytes at 1. split; [done |]. split; [done |]. split; [done |].
  split; [| exact Hout]. intros p Hp. rewrite <- (Hfile p Hp). unfold fileElement. rewrite Hsame. apply Hin.
  unfold extends in *. by injection Hsame as _ _ <- <-.
Qed.

End Copying.

(** The backend of a concrete fragment. *)
Ltac solve_backend := intros ? [= <-]; unfold valid_backend; lia.

(** A transposed 2x2 buffer, unpacked into C order. *)
Lemma stream_roundtrip_witness :
  let sp := Dataspace SMD_DTYPE_INT16 2 [2; 2] [0; 3] false in
  let f := Fragment None "dst" (sp (Some [1; 2])) None (Some (0%nat, 4)) 4 8 SIZE_NONE ESDM_DATA_DIRTY false in
  let g := Fragment None "dst" (sp None) None (Some (1%nat, 0)) 4 8 SIZE_NONE ESDM_DATA_NOT_LOADED false in
  exists out mo h', estream_mem_pack_fragment zeroCast (fun _ => 0) f None {[0%nat := fun a => a]} =
    Done (ESDM_SUCCESS, Some out, 8, h') /\ h' !! out.1 = Some mo.
Proof.
  intros sp f g.
  destruct (stream_roundtrip zeroCast length_zeroCast (fun _ => 0) f g {[0%nat := fun a => a]} {[1%nat := fun _ => 7]}
              (0%nat, 4) (1%nat, 0) (fun a => a) (fun _ => 7)) as (out & mo & h' & E & Em & _).
  - constructor; [solve_id | done | solve_data_space | done | done | done].
  - constructor; [solve_id | done | solve_data_space | done | done | done].
  - reflexivity.
  - apply (contiguous_injective (sp None)).
    solve_data_space.
  - reflexivity.
  - reflexivity.
  - reflexivity.
  - reflexivity.
  - exists out, mo, h'. split; [exact E | exact Em].
Defined.
