(* ===== verification/Ids.v ===== *)
(** The ids of fragments, datasets and grids (src/utils/auxiliary.c): [getRandom()], [ea_generate_id()] and [ea_make_id()].
    The source of the random bytes is the parameter [RandomSource]. *)

From Stdlib Require Import Ascii.
From stdpp Require Import strings.
From S2P Require Import Prelude Fragment.

Open Scope Z_scope.

(** * The source of random bytes *)

(** [fopen()] and [fread()] of "/dev/urandom"; [idle] bounds how often [fread()] will return without any byte. *)
Class RandomSource (W : Type) := {
  fopen : W -> bool * W;
  fread : nat -> W -> list Z * W;
  idle : W -> nat
}.

Definition byte (b : Z) : Prop := 0 <= b < 256.

Class RandomSourceLaws (W : Type) `{RandomSource W} : Prop := {
  fread_law count w chunk w' : fread count w = (chunk, w') -> (0 < count)%nat ->
    (length chunk <= count)%nat /\ Forall byte chunk /\ (idle w' <= idle w)%nat /\ (chunk = [] -> (idle w' < idle w)%nat)
}.

(** * Operations *)

Section Operations.

Context {W : Type} `{RandomSource W}.

(** [randomSource] is a static variable: the file stays open. *)
Record random_state := RandomState { opened : bool; world_of : W }.

(** [while(count)]. *)
Fixpoint read_random (fuel count : nat) (got : list Z) (w : W) : outcome (list Z * W) :=
  match count with
  | O => mret (got, w)
  | S _ =>
      match fuel with
      | O => Undef
      | S fuel' => let '(chunk, w) := fread count w in read_random fuel' (count - length chunk) (got ++ chunk) w
      end
  end.

Definition getRandom (count : nat) (s : random_state) : outcome (list Z * random_state) :=
  let '(ok, w) := if opened s then (true, world_of s) else fopen (world_of s) in
  eassert ok;;
  '(bytes, w) ← read_random (count + idle w) count [] w;
  mret (bytes, RandomState true w).

Definition kCharset : string := "abcdefghijklmnopqrstuvwxyzABCDEFGHIJKLMNOPQRSTUVWXYZ0123456789_-".

Definition kCharsetBits : Z := 6.

Record cache_t := Cache { bitCache : Z; cachedBits : Z; usedRandomBytes : nat }.

(** [while(cachedBits < kCharsetBits)]. *)
Fixpoint load_bits (fuel : nat) (randomBytes : list Z) (c : cache_t) : outcome cache_t :=
  if cachedBits c <? kCharsetBits then
    match fuel with
    | O => Undef
    | S fuel' =>
        eassert (usedRandomBytes c <? length randomBytes)%nat;;
        b ← deref (randomBytes !! usedRandomBytes c);
        load_bits fuel' randomBytes (Cache (Z.lor (u64 (Z.shiftl (bitCache c) 8)) b) (cachedBits c + 8) (S (usedRandomBytes c)))
    end
  else mret c.

(** One character; every turn of the inner loop adds bits to the cache. *)
Definition next_character (randomBytes : list Z) (c : cache_t) : outcome (ascii * cache_t) :=
  c ← load_bits (Z.to_nat kCharsetBits) randomBytes c;
  let index := Z.land (bitCache c) (Z.shiftl 1 kCharsetBits - 1) in
  a ← deref (String.get (Z.to_nat index) kCharset);
  mret (a, Cache (Z.shiftr (bitCache c) kCharsetBits) (cachedBits c - kCharsetBits) (usedRandomBytes c)).

(** The characters that are still missing. *)
Fixpoint id_characters (n : nat) (randomBytes : list Z) (c : cache_t) : outcome (string * cache_t) :=
  match n with
  | O => mret (""%string, c)
  | S n' =>
      '(a, c) ← next_character randomBytes c;
      '(str, c) ← id_characters n' randomBytes c;
      mret (String a str, c)
  end.

Definition id_of_bytes (length : nat) (randomBytes : list Z) : outcome string :=
  '(str, _) ← id_characters length randomBytes (Cache 0 0 0); mret str.

Definition ea_generate_id (length : Z) (s : random_state) : outcome (string * random_state) :=
  let randomBitCount := u64 (length * kCharsetBits) in
  eassert (128 <=? randomBitCount);;
  let randomByteCount := u64 (randomBitCount + 7) / 8 in
  '(randomBytes, s) ← getRandom (Z.to_nat randomByteCount) s;
  str ← id_of_bytes (Z.to_nat length) randomBytes;
  mret (str, s).

Definition ea_make_id (length : Z) (s : random_state) : outcome (string * random_state) := ea_generate_id length s.

End Operations.
Arguments random_state W : clear implicits.

(** * Random bytes *)

Definition random_bytes (count : nat) (bytes : list Z) : Prop := length bytes = count /\ Forall byte bytes.

Section Source.

Context {W : Type} `{RandomSourceLaws W}.

Lemma read_random_ok (fuel count : nat) (got : list Z) (w : W) : (count + idle w <= fuel)%nat -> Forall byte got ->
  exists bytes w', read_random fuel count got w = Done (bytes, w') /\ random_bytes (length got + count) bytes.
Proof.
  revert count got w. induction fuel as [| fuel IH]; intros count got w Hfuel Hgot; (destruct count as [| count]; [exists got, w; split; [done | split; [lia | done]] |]); [lia |].
  cbn [read_random]. destruct (fread (S count) w) as [chunk w1] eqn:E.
  destruct (fread_law _ _ _ _ E) as (Hlen & Hbytes & Hidle & Hnil); [lia |].
  destruct (IH (S count - length chunk)%nat (got ++ chunk) w1) as (bytes & w' & E' & Hb).
  { destruct chunk as [| b chunk]; [specialize (Hnil eq_refl); simpl; lia | simpl in *; lia]. }
  { by apply Forall_app. }
  exists bytes, w'. split; [done |]. rewrite length_app in Hb. by replace (length got + S count)%nat with (length got + length chunk + (S count - length chunk))%nat by lia.
Qed.

Lemma getRandom_ok (count : nat) (s : random_state W) : opened s = true \/ (fopen (world_of s)).1 = true ->
  exists bytes s', getRandom count s = Done (bytes, s') /\ random_bytes count bytes /\ opened s' = true.
Proof.
  intros Hopen. unfold getRandom. assert (exists w, (if opened s then (true, world_of s) else fopen (world_of s)) = (true, w)) as [w ->].
  { destruct (opened s); [by eexists |]. destruct Hopen as [[=] | Hopen]. destruct (fopen _); simpl in *. subst. by eexists. }
  run. destruct (read_random_ok (count + idle w) count [] w) as (bytes & w' & E & Hb); [lia | done |].
  cbn [eassert]. run. rewrite E. run. by eexists _, _.
Qed.

End Source.

(** * The bits of an id

    [id_characters] maps the cached bits and the bytes it reads to the characters and the bits that stay in the cache.  The map is
    a bijection, and [bitsOf] is its inverse: the first component are the cached bits, the second the bytes. *)

Definition index_ok (i : Z) : Prop := 0 <= i < 64.

Definition charOf (i : Z) : ascii := default "a"%char (String.get (Z.to_nat i) kCharset).

Definition textOf (l : list Z) : string := String.string_of_list_ascii (charOf <$> l).

(** The bytes that [n] characters take when [k] bits are in the cache. *)
Fixpoint bytesNeeded (n : nat) (k : Z) : nat :=
  match n with
  | O => O
  | S n' => if k <? 6 then S (bytesNeeded n' (k + 2)) else bytesNeeded n' (k - 6)
  end.

Definition bitsLeft (n : nat) (k : Z) : Z := k + 8 * Z.of_nat (bytesNeeded n k) - 6 * Z.of_nat n.

Fixpoint bitsOf (k : Z) (l : list Z) (left : Z) : Z * list Z :=
  match l with
  | [] => (left, [])
  | i :: l' =>
      if k <? 6 then let '(c, bytes) := bitsOf (k + 2) l' left in ((c * 64 + i) / 256, (c * 64 + i) mod 256 :: bytes)
      else let '(c, bytes) := bitsOf (k - 6) l' left in (c * 64 + i, bytes)
  end.

Lemma bitsLeft_cons (n : nat) (k : Z) : bitsLeft (S n) k = bitsLeft n (if k <? 6 then k + 2 else k - 6).
Proof. unfold bitsLeft. cbn [bytesNeeded]. destruct (k <? 6); lia. Qed.

Lemma bitsLeft_range (n : nat) (k : Z) : 0 <= k < 8 -> 0 <= bitsLeft n k < 8.
Proof.
  revert k. induction n as [| n IH]; intros k Hk; [unfold bitsLeft; simpl; lia |].
  rewrite bitsLeft_cons. apply IH. split_bools; lia.
Qed.

Lemma bytesNeeded_start (n : nat) : Z.of_nat (bytesNeeded n 0) = (6 * Z.of_nat n + 7) / 8.
Proof. pose proof (bitsLeft_range n 0 ltac:(lia)) as Hr. unfold bitsLeft in Hr. apply (Z.div_unique_pos _ _ _ (7 - bitsLeft n 0)); unfold bitsLeft; lia. Qed.

Lemma charOf_get (i : Z) : index_ok i -> String.get (Z.to_nat i) kCharset = Some (charOf i).
Proof.
  intros Hi. unfold charOf. destruct (String.get (Z.to_nat i) kCharset) eqn:E; [done |]. exfalso.
  assert (H : forallb (fun n => bool_decide (is_Some (String.get n kCharset))) (seq 0 64) = true) by (vm_compute; reflexivity).
  rewrite forallb_forall in H. specialize (H (Z.to_nat i)). rewrite E in H. unfold index_ok in Hi. apply bool_decide_eq_true in H as [? [=]]. apply in_seq. lia.
Qed.

Lemma charOf_inj (i j : Z) : index_ok i -> index_ok j -> charOf i = charOf j -> i = j.
Proof.
  intros Hi Hj E.
  assert (H : forallb (fun m => forallb (fun n => bool_decide (charOf (Z.of_nat m) = charOf (Z.of_nat n) -> m = n)) (seq 0 64)) (seq 0 64) = true) by (vm_compute; reflexivity).
  unfold index_ok in *. rewrite forallb_forall in H. specialize (H (Z.to_nat i) ltac:(apply in_seq; lia)).
  rewrite forallb_forall in H. specialize (H (Z.to_nat j) ltac:(apply in_seq; lia)). apply bool_decide_eq_true in H. rewrite !Z2Nat.id in H by lia. specialize (H E). lia.
Qed.

Lemma textOf_inj (l l' : list Z) : Forall index_ok l -> Forall index_ok l' -> textOf l = textOf l' -> l = l'.
Proof.
  intros Hl. revert l'. induction Hl as [| i l Hi Hl IH]; intros l' Hl' E; destruct Hl' as [| j l' Hj Hl']; [done | done | done |].
  injection E as E1 E2. f_equal; [by apply charOf_inj | by apply IH].
Qed.

(** Adding a byte to the cache, and taking a character from it. *)
Lemma cache_load (k c b : Z) : 0 <= k < 8 -> 0 <= c < 2 ^ k -> byte b -> Z.lor (u64 (Z.shiftl c 8)) b = c * 256 + b.
Proof.
  intros Hk Hc Hb. unfold byte in Hb. assert (c < 256) by (pose proof (Z.pow_lt_mono_r 2 k 8); lia).
  unfold u64. rewrite Z.shiftl_mul_pow2 by lia. rewrite Z.mod_small by lia. rewrite <- Z.lxor_lor, <- Z.add_nocarry_lxor; [done | |];
    (apply Z.bits_inj'; intros n Hn; rewrite Z.land_spec, Z.bits_0; rewrite <- (Z.shiftl_mul_pow2 c 8) by lia; destruct (Z.ltb_spec n 8);
    [by rewrite Z.shiftl_spec_low by lia | rewrite <- (Z.mod_small b (2 ^ 8)) by lia; rewrite (Z.mod_pow2_bits_high b) by lia; apply andb_false_r]).
Qed.

Lemma cache_index (c : Z) : Z.land c (Z.shiftl 1 6 - 1) = c mod 64.
Proof. change (Z.shiftl 1 6 - 1) with (Z.ones 6). by rewrite Z.land_ones. Qed.

Lemma cache_rest (c : Z) : Z.shiftr c 6 = c / 64.
Proof. by rewrite Z.shiftr_div_pow2. Qed.

Lemma next_character_load (bytes : list Z) (k c b : Z) (used : nat) : 0 <= k < 6 -> 0 <= c < 2 ^ k -> bytes !! used = Some b -> byte b ->
  next_character bytes (Cache c k used) = Done (charOf ((c * 256 + b) mod 64), Cache ((c * 256 + b) / 64) (k + 2) (S used)).
Proof.
  intros Hk Hc Hb Hbyte. unfold next_character. change (Z.to_nat kCharsetBits) with 6%nat. cbn [load_bits cachedBits usedRandomBytes bitCache].
  unfold kCharsetBits. destruct (Z.ltb_spec k 6); [| lia]. pose proof (lookup_lt_Some _ _ _ Hb) as Hlt. apply Nat.ltb_lt in Hlt as ->.
  cbn [eassert]. run. rewrite Hb. run. destruct (Z.ltb_spec (k + 8) 6); [lia |]. run. cbn [bitCache cachedBits usedRandomBytes].
  rewrite (cache_load k) by (done || lia). rewrite cache_index, cache_rest, charOf_get; [| apply Z.mod_pos_bound; lia]. run.
  by replace (k + 8 - 6) with (k + 2) by lia.
Qed.

Lemma next_character_keep (bytes : list Z) (k c : Z) (used : nat) : 6 <= k -> 0 <= c ->
  next_character bytes (Cache c k used) = Done (charOf (c mod 64), Cache (c / 64) (k - 6) used).
Proof.
  intros Hk Hc. unfold next_character. change (Z.to_nat kCharsetBits) with 6%nat. cbn [load_bits cachedBits usedRandomBytes bitCache].
  unfold kCharsetBits. destruct (Z.ltb_spec k 6); [lia |]. run. cbn [bitCache cachedBits usedRandomBytes].
  rewrite cache_index, cache_rest, charOf_get; [done |]. apply Z.mod_pos_bound; lia.
Qed.

Lemma index_split (c i : Z) : index_ok i -> (c * 64 + i) mod 64 = i /\ (c * 64 + i) / 64 = c.
Proof. unfold index_ok. intros Hi. split; [symmetry; apply (Z.mod_unique_pos _ _ c); lia | symmetry; apply (Z.div_unique_pos _ _ _ i); lia]. Qed.

Lemma join_byte (x : Z) : x / 256 * 256 + x mod 256 = x.
Proof. pose proof (Z.div_mod x 256). lia. Qed.

Lemma characters_bitsOf (l : list Z) (k left : Z) (pre : list Z) : Forall index_ok l -> 0 <= k < 8 -> 0 <= left < 2 ^ bitsLeft (length l) k ->
  0 <= (bitsOf k l left).1 < 2 ^ k /\ random_bytes (bytesNeeded (length l) k) (bitsOf k l left).2 /\
  id_characters (length l) (pre ++ (bitsOf k l left).2) (Cache (bitsOf k l left).1 k (length pre)) =
    Done (textOf l, Cache left (bitsLeft (length l) k) (length pre + bytesNeeded (length l) k)).
Proof.
  intros Hl. revert k pre. induction Hl as [| i l Hi Hl IH]; intros k pre Hk Hleft.
  { unfold bitsLeft in *. cbn [length bytesNeeded bitsOf fst snd id_characters] in *. rewrite Z.add_0_r, Z.sub_0_r, Nat.add_0_r in *. done. }
  cbn [length] in *. rewrite bitsLeft_cons in *. cbn [bitsOf bytesNeeded id_characters]. unfold index_ok in Hi. destruct (Z.ltb_spec k 6).
  - pose proof (IH (k + 2)) as IH'. destruct (bitsOf (k + 2) l left) as [c bytes] eqn:Eb. cbn [fst snd] in *. set (x := c * 64 + i).
    destruct (IH' (pre ++ [x mod 256]) ltac:(lia) Hleft) as (Hc & (Hlen & Hbytes) & E).
    assert (Hpow : 2 ^ (k + 2) = 2 ^ k * 4) by (by rewrite Z.pow_add_r by lia). assert (0 <= x / 256 < 2 ^ k) by (split; [apply Z.div_pos; lia | apply Z.div_lt_upper_bound; lia]).
    assert (Hbyte : byte (x mod 256)) by (apply Z.mod_pos_bound; lia).
    split; [done |]. split; [split; [simpl; lia | by constructor] |]. rewrite (next_character_load _ _ _ (x mod 256)); [| lia | done | | done].
    2: { by rewrite lookup_app_r, Nat.sub_diag by lia. }
    run. rewrite join_byte. subst x. destruct (index_split c i) as [-> ->]; [done |]. rewrite <- app_assoc, length_app in E. cbn [app length] in E. rewrite Nat.add_1_r in E. rewrite E. run.
    by rewrite Nat.add_succ_r.
  - pose proof (IH (k - 6)) as IH'. destruct (bitsOf (k - 6) l left) as [c bytes] eqn:Eb. cbn [fst snd] in *.
    destruct (IH' pre ltac:(lia) Hleft) as (Hc & Hbytes & E). assert (Hpow : 2 ^ k = 2 ^ (k - 6) * 64) by (change 64 with (2 ^ 6); rewrite <- Z.pow_add_r by lia; f_equal; lia).
    split; [lia |]. split; [done |]. rewrite next_character_keep by lia. run. destruct (index_split c i) as [-> ->]; [done |]. rewrite E. done.
Qed.

Lemma bitsOf_onto (n : nat) (k c : Z) (bytes : list Z) : 0 <= k < 8 -> 0 <= c < 2 ^ k -> random_bytes (bytesNeeded n k) bytes ->
  exists l left, length l = n /\ Forall index_ok l /\ 0 <= left < 2 ^ bitsLeft n k /\ bitsOf k l left = (c, bytes).
Proof.
  revert k c bytes. induction n as [| n IH]; intros k c bytes Hk Hc [Hlen Hbytes].
  { apply nil_length_inv in Hlen as ->. exists [], c. unfold bitsLeft. cbn [bytesNeeded length bitsOf]. rewrite Z.add_0_r, Z.sub_0_r. split; [done |]. split; [done |]. by split. }
  rewrite bitsLeft_cons. cbn [bytesNeeded] in Hlen. destruct (Z.ltb_spec k 6).
  - destruct Hbytes as [| b bytes Hb Hbytes]; [done |]. injection Hlen as Hlen. unfold byte in Hb. set (x := c * 256 + b).
    assert (Hpow : 2 ^ (k + 2) = 2 ^ k * 4) by (by rewrite Z.pow_add_r by lia).
    destruct (IH (k + 2) (x / 64) bytes) as (l & left & Hl & Hidx & Hleft & E); [lia | split; [apply Z.div_pos; lia | apply Z.div_lt_upper_bound; lia] | done |].
    exists (x mod 64 :: l), left. split; [simpl; lia |]. split; [constructor; [apply Z.mod_pos_bound; lia | done] |]. split; [done |].
    cbn [bitsOf]. destruct (Z.ltb_spec k 6); [| lia]. rewrite E. replace (x / 64 * 64 + x mod 64) with x by (pose proof (Z.div_mod x 64); lia).
    f_equal; [symmetry; apply (Z.div_unique_pos _ _ _ b); lia | f_equal; symmetry; apply (Z.mod_unique_pos _ _ c); lia].
  - assert (Hpow : 2 ^ k = 2 ^ (k - 6) * 64) by (change 64 with (2 ^ 6); rewrite <- Z.pow_add_r by lia; f_equal; lia).
    destruct (IH (k - 6) (c / 64) bytes) as (l & left & Hl & Hidx & Hleft & E); [lia | split; [apply Z.div_pos; lia | apply Z.div_lt_upper_bound; lia] | done |].
    exists (c mod 64 :: l), left. split; [simpl; lia |]. split; [constructor; [apply Z.mod_pos_bound; lia | done] |]. split; [done |].
    cbn [bitsOf]. destruct (Z.ltb_spec k 6); [lia |]. rewrite E. f_equal. pose proof (Z.div_mod c 64). lia.
Qed.

Definition inCharset (str : string) : Prop := Forall (fun a => a ∈ String.list_ascii_of_string kCharset) (String.list_ascii_of_string str).

Lemma charset_index (a : ascii) : a ∈ String.list_ascii_of_string kCharset <-> exists i, index_ok i /\ charOf i = a.
Proof.
  assert (Hchars : String.list_ascii_of_string kCharset = (fun n => charOf (Z.of_nat n)) <$> seq 0 64) by (vm_compute; reflexivity).
  rewrite Hchars, list_elem_of_fmap. split.
  - intros (n & -> & Hn). apply elem_of_seq in Hn. exists (Z.of_nat n). split; [unfold index_ok; lia | done].
  - intros (i & Hi & <-). unfold index_ok in Hi. exists (Z.to_nat i). split; [by rewrite Z2Nat.id by lia | apply elem_of_seq; lia].
Qed.

Lemma textOf_charset (l : list Z) : Forall index_ok l -> inCharset (textOf l).
Proof.
  intros Hl. unfold inCharset, textOf. rewrite String.list_ascii_of_string_of_list_ascii. apply Forall_fmap. eapply Forall_impl; [exact Hl |].
  intros i Hi. apply charset_index. eauto.
Qed.

Lemma charset_textOf (str : string) : inCharset str -> exists l, Forall index_ok l /\ length l = String.length str /\ textOf l = str.
Proof.
  unfold inCharset. induction str as [| a str IH]; intros Hstr; [by exists [] |].
  apply Forall_cons in Hstr as [(i & Hi & Ha)%charset_index Hstr]. destruct (IH Hstr) as (l & Hl & Hlen & <-).
  exists (i :: l). split; [by constructor |]. split; [simpl; lia |]. unfold textOf. rewrite fmap_cons, Ha. done.
Qed.

Lemma length_textOf (l : list Z) : String.length (textOf l) = length l.
Proof. induction l as [| i l IH]; [done |]. cbn. by rewrite <- IH. Qed.

Lemma charset_no_slash (str : string) : inCharset str -> no_slash str = true /\ no_dot str = true.
Proof.
  unfold inCharset. induction str as [| a str IH]; [done |]. intros Hstr.
  apply Forall_cons in Hstr as [Ha Hstr]. destruct (IH Hstr) as [IH1 IH2]. cbn [no_slash no_dot]. rewrite IH1, IH2, !andb_true_r.
  split.
  - destruct (Ascii.eqb_spec a "/"); [| done]. subst. contradict Ha. apply (bool_decide_eq_true_1 (not _)). vm_compute. reflexivity.
  - destruct (Ascii.eqb_spec a "."); [| done]. subst. contradict Ha. apply (bool_decide_eq_true_1 (not _)). vm_compute. reflexivity.
Qed.

Lemma charset_valid (str : string) : (3 <= String.length str <= 255)%nat -> inCharset str -> valid_id str.
Proof. intros Hlen Hstr. split; [done |]. by apply charset_no_slash. Qed.

Lemma id_of_bitsOf (l : list Z) (left : Z) : Forall index_ok l -> 0 <= left < 2 ^ bitsLeft (length l) 0 ->
  random_bytes (bytesNeeded (length l) 0) (bitsOf 0 l left).2 /\ id_of_bytes (length l) (bitsOf 0 l left).2 = Done (textOf l) /\
  exists c, id_characters (length l) (bitsOf 0 l left).2 (Cache 0 0 0) = Done (textOf l, c) /\ bitCache c = left.
Proof.
  intros Hl Hleft. destruct (characters_bitsOf l 0 left []) as (Hc & Hbytes & E); [done | lia | done |]. change (2 ^ 0) with 1 in Hc.
  replace (bitsOf 0 l left).1 with 0 in E by lia. cbn [app length] in E. split; [done |]. split; [unfold id_of_bytes; by rewrite E | by eexists].
Qed.

Lemma id_of_bytes_ok (n : nat) (bytes : list Z) : random_bytes (bytesNeeded n 0) bytes ->
  exists l left, length l = n /\ Forall index_ok l /\ 0 <= left < 2 ^ bitsLeft n 0 /\ bytes = (bitsOf 0 l left).2 /\ id_of_bytes n bytes = Done (textOf l).
Proof.
  intros Hbytes. destruct (bitsOf_onto n 0 0 bytes) as (l & left & Hl & Hidx & Hleft & E); [lia | simpl; lia | done |].
  exists l, left. destruct (id_of_bitsOf l left) as (_ & Hid & _); [done | by rewrite Hl |]. rewrite E, Hl in Hid. by rewrite E.
Qed.

(** The byte sequences that give an id. *)
Definition sourcesOf (l : list Z) : list (list Z) := (fun left => (bitsOf 0 l left).2) <$> seqZ 0 (2 ^ bitsLeft (length l) 0).

Lemma sourcesOf_ok (l : list Z) (bytes : list Z) : Forall index_ok l ->
  bytes ∈ sourcesOf l <-> random_bytes (bytesNeeded (length l) 0) bytes /\ id_of_bytes (length l) bytes = Done (textOf l).
Proof.
  intros Hl. unfold sourcesOf. rewrite list_elem_of_fmap. split.
  - intros (left & -> & Hleft%elem_of_seqZ). destruct (id_of_bitsOf l left) as (Hb & Hid & _); [done | lia | done].
  - intros [Hb Hid]. destruct (id_of_bytes_ok _ _ Hb) as (l' & left & Hl' & Hidx & Hleft & -> & E). rewrite E in Hid. injection Hid as Hid.
    apply textOf_inj in Hid as ->; [| done | done]. exists left. split; [done |]. apply elem_of_seqZ. lia.
Qed.

Lemma sourcesOf_NoDup (l : list Z) : Forall index_ok l -> NoDup (sourcesOf l).
Proof.
  intros Hl. apply NoDup_fmap_2_strong; [| apply NoDup_seqZ]. intros x y Hx%elem_of_seqZ Hy%elem_of_seqZ E.
  destruct (id_of_bitsOf l x) as (_ & _ & c & Ec & <-); [done | lia |]. destruct (id_of_bitsOf l y) as (_ & _ & c' & Ec' & <-); [done | lia |].
  congruence.
Qed.

Section Uniform.

Context {W : Type} `{RandomSourceLaws W}.

Lemma make_id_ok (length : Z) (s : random_state W) : 22 <= length -> 6 * length + 7 < 2 ^ 64 -> opened s = true \/ (fopen (world_of s)).1 = true ->
  exists bytes str s', getRandom (bytesNeeded (Z.to_nat length) 0) s = Done (bytes, s') /\ random_bytes (bytesNeeded (Z.to_nat length) 0) bytes /\
    ea_make_id length s = Done (str, s') /\ id_of_bytes (Z.to_nat length) bytes = Done str /\ Z.of_nat (String.length str) = length /\ inCharset str /\ opened s' = true.
Proof.
  intros Hlow Hhigh Hopen. set (n := Z.to_nat length). assert (Hn : length = Z.of_nat n) by (subst n; lia).
  destruct (getRandom_ok (bytesNeeded n 0) s Hopen) as (bytes & s' & E & Hb & Hs'). destruct (id_of_bytes_ok n bytes Hb) as (l & left & Hl & Hidx & _ & _ & Eid).
  exists bytes, (textOf l), s'. split; [done |]. split; [done |]. split.
  - unfold ea_make_id, ea_generate_id, kCharsetBits. unfold u64. rewrite (Z.mod_small (length * 6)) by lia. destruct (Z.leb_spec 128 (length * 6)); [| lia]. cbn [eassert]. run.
    rewrite Z.mod_small by lia. replace (Z.to_nat ((length * 6 + 7) / 8)) with (bytesNeeded n 0).
    2: { pose proof (bytesNeeded_start n) as Hneed. rewrite <- Hn, (Z.mul_comm 6) in Hneed. lia. }
    rewrite E. run. fold n. rewrite Eid. done.
  - split; [done |]. rewrite length_textOf, Hl. split; [lia |]. split; [by apply textOf_charset | done].
Qed.

(** The results of consecutive calls: what the parameter [makeId] of the backends stands for. *)
Fixpoint stateAfter (length : Z) (n : nat) (s : random_state W) : outcome (random_state W) :=
  match n with
  | O => mret s
  | S n' => '(_, s) ← ea_make_id length s; stateAfter length n' s
  end.

Definition madeId (length : Z) (s : random_state W) (n : nat) : string :=
  match stateAfter length n s ≫= ea_make_id length with
  | Done (str, _) => str
  | _ => ""%string
  end.

(** The hypothesis that the backends make on [makeId]. *)
Lemma madeId_valid (length : Z) (s : random_state W) (n : nat) : 22 <= length <= 255 ->
  opened s = true \/ (fopen (world_of s)).1 = true -> valid_id (madeId length s n).
Proof.
  intros Hlength. assert (Hlow : 22 <= length) by lia. assert (Hhigh : 6 * length + 7 < 2 ^ 64) by lia. revert s. unfold madeId. induction n as [| n IH]; intros s Hopen; cbn [stateAfter];
    destruct (make_id_ok length s Hlow Hhigh Hopen) as (_ & str & s' & _ & _ & E & _ & Hlen & Hstr & Hs'); run; rewrite E; run.
  - apply charset_valid; [lia | done].
  - apply IH. by left.
Qed.

(** C28: [ea_make_id()] returns an id of the length it is asked for, made of the 64 characters of [kCharset], so that it can be
    a component of a path (up to 255 characters; the library asks for 23); it never reads behind the random bytes; and when these bytes are uniformly distributed, so are the ids: every id
    comes from the same number of byte sequences.  For lengths below 22 the call stops at its assertion. *)
Theorem make_id_uniform (length : Z) (s : random_state W) : 22 <= length -> 6 * length + 7 < 2 ^ 64 -> opened s = true \/ (fopen (world_of s)).1 = true ->
  let count := Z.to_nat ((6 * length + 7) / 8) in
  (exists bytes str s', getRandom count s = Done (bytes, s') /\ random_bytes count bytes /\ ea_make_id length s = Done (str, s') /\
    id_of_bytes (Z.to_nat length) bytes = Done str /\ Z.of_nat (String.length str) = length /\ inCharset str /\ no_slash str = true /\
    (length <= 255 -> valid_id str)) /\
  (forall str, Z.of_nat (String.length str) = length -> inCharset str ->
    exists sources, NoDup sources /\ Z.of_nat (List.length sources) = 2 ^ (8 * Z.of_nat count - 6 * length) /\
    forall bytes, bytes ∈ sources <-> random_bytes count bytes /\ id_of_bytes (Z.to_nat length) bytes = Done str) /\
  (forall short, 0 <= short < 22 -> ea_make_id short s = Abort).
Proof.
  intros Hlow Hhigh Hopen count. set (n := Z.to_nat length). assert (Hcount : count = bytesNeeded n 0).
  { pose proof (bytesNeeded_start n) as Hneed. subst n count. rewrite Z2Nat.id in Hneed by lia. lia. }
  split; [| split].
  - destruct (make_id_ok length s Hlow Hhigh Hopen) as (bytes & str & s' & E & Hb & Emake & Eid & Hlen & Hstr & _).
    exists bytes, str, s'. rewrite Hcount. repeat (split; [done |]). split; [by apply charset_no_slash |]. intros Hle. apply charset_valid; [lia | done].
  - intros str Hlen (l & Hl & Hll & <-)%charset_textOf. assert (Hln : List.length l = n) by (subst n; lia). exists (sourcesOf l).
    split; [by apply sourcesOf_NoDup |]. pose proof (bitsLeft_range n 0 ltac:(lia)) as Hr. split.
    + unfold sourcesOf. rewrite length_fmap, length_seqZ, Hln, Z2Nat.id by lia. f_equal. unfold bitsLeft. subst n. lia.
    + intros bytes. rewrite sourcesOf_ok by done. by rewrite Hln, Hcount.
  - intros short Hs. unfold ea_make_id, ea_generate_id, kCharsetBits, u64. rewrite (Z.mod_small (short * 6)) by lia. by destruct (Z.leb_spec 128 (short * 6)); [lia |].
Qed.

End Uniform.

(** * An example: a source that delivers two bytes per call, and sometimes none. *)

Module Counter.

Record counter := { next : Z; pauses : nat }.

#[global] Instance randomSource : RandomSource counter := {
  fopen c := (true, c);
  fread count c :=
    match pauses c with
    | S p => ([], {| next := next c; pauses := p |})
    | O => (take count [next c mod 256; (next c + 1) mod 256], {| next := next c + 77; pauses := 0 |})
    end;
  idle := pauses
}.

#[global] Instance randomSourceLaws : RandomSourceLaws counter.
Proof.
  constructor. intros count c chunk c' E Hcount. cbn [fread randomSource] in E. cbn [idle randomSource]. destruct (pauses c) eqn:Ep; injection E as <- <-.
  - destruct count as [| count]; [lia |]. split; [rewrite length_take; lia |]. split; [| by split; [simpl; lia |]].
    apply Forall_take. repeat constructor; apply Z.mod_pos_bound; lia.
  - split; [simpl; lia |]. split; [done |]. simpl. lia.
Qed.

Definition start : random_state counter := RandomState false {| next := 5; pauses := 2 |}.

End Counter.

Lemma make_id_uniform_witness : exists str s', ea_make_id 23 Counter.start = Done (str, s') /\ valid_id str.
Proof.
  destruct (make_id_uniform 23 Counter.start ltac:(lia) ltac:(lia) ltac:(right; reflexivity)) as [(bytes & str & s' & _ & _ & E & _ & _ & _ & _ & Hv) _].
  exists str, s'. split; [exact E | apply Hv; lia].
Defined.
