(* ===== verification/FragmentState.v ===== *)
(** The life cycle of a fragment (src/esdm-datatypes.c) over a data backend: creation,
    retrieval, loading, unloading, commit and destruction, and the interface a data backend
    promises to them. *)

From S2P Require Import Prelude Memory Hypercube Json Odometer Dataspace Convert CopyData Fragment.

Open Scope Z_scope.

(** * The interface of the data backends *)

(** [esdmI_backend_fragment_*()] of src/performance.c, which call the callbacks of the backend
    the fragment belongs to.  [B] is the state of the storage behind all backends. *)
Class DataBackend (B : Type) := {
  esdmI_backend_fragment_retrieve : nat -> esdm_fragment_t -> heap -> B -> outcome (esdm_status * heap * B);
  esdmI_backend_fragment_update : nat -> esdm_fragment_t -> heap -> B -> outcome (esdm_status * esdm_fragment_t * heap * B);
  esdmI_backend_fragment_delete : nat -> esdm_fragment_t -> B -> outcome (esdm_status * B)
}.

(** The name under which a backend stores the data of a fragment. *)
Definition storageKey : Type := nat * string * string.

Definition withId (f : esdm_fragment_t) (i : option string) : esdm_fragment_t :=
  Fragment i (datasetId f) (dataspace f) (backend f) (buf f) (elements f) (bytes f) (actual_bytes f) (status f) (ownsBuf f).

Definition withStatus (f : esdm_fragment_t) (s : esdm_data_status_e) : esdm_fragment_t :=
  Fragment (id f) (datasetId f) (dataspace f) (backend f) (buf f) (elements f) (bytes f) (actual_bytes f) s (ownsBuf f).

Definition withBuf (f : esdm_fragment_t) (b : option pointer) (owns : bool) : esdm_fragment_t :=
  Fragment (id f) (datasetId f) (dataspace f) (backend f) b (elements f) (bytes f) (actual_bytes f) (status f) owns.

Definition withSpace (f : esdm_fragment_t) (s : esdm_dataspace_t) : esdm_fragment_t :=
  Fragment (id f) (datasetId f) s (backend f) (buf f) (elements f) (bytes f) (actual_bytes f) (status f) (ownsBuf f).

Section Lifecycle.

Context {B : Type} `{DataBackend B} (junk : mem).

(** * Operations *)

(** The checks of one dimension: a dataset size of zero is an unlimited dimension. *)
Definition create_checkDim (datasetSize : list Z) (sspace : esdm_dataspace_t) (i : nat) : outcome unit :=
  s ← deref (size sspace !! i);
  eassert (s >? 0);;
  d ← deref (datasetSize !! i);
  if d =? 0 then mret tt
  else
    o ← deref (offset sspace !! i);
    e ← chk64 (s + o);
    eassert (e <=? d).

(** [esdmI_fragment_create()] for a dataset with the given id and sizes; the call of
    [esdmI_dataset_update_actual_size()] is modelled with the dataset. *)
Definition esdmI_fragment_create (datasetId : string) (datasetSize : list Z) (sspace : esdm_dataspace_t) (buf : option pointer)
    : outcome esdm_fragment_t :=
  _ ← mapM (create_checkDim datasetSize sspace) (seq 0 (Z.to_nat (dims sspace)));
  elements ← esdm_dataspace_element_count sspace;
  let bytes := to_int64 (elements * esdm_sizeof (type sspace)) in
  space ← esdm_dataspace_copy sspace;
  mret (Fragment None datasetId space None buf elements (u64 bytes) SIZE_NONE
          (if buf is Some _ then ESDM_DATA_DIRTY else ESDM_DATA_NOT_LOADED) false).

(** A buffer for a fragment that has none. *)
Definition ensureBuffer (f : esdm_fragment_t) (h : heap) : outcome (esdm_status * esdm_fragment_t * heap) :=
  match buf f with
  | Some _ => mret (ESDM_SUCCESS, f, h)
  | None =>
      '(ret, f) ← match stride (dataspace f) with
                  | Some _ =>
                      '(ret, contiguousSpace) ← esdm_dataspace_makeContiguous (dataspace f);
                      if decide (ret = ESDM_SUCCESS) then
                        contiguousSpace ← deref contiguousSpace;
                        mret (ESDM_SUCCESS, withSpace f contiguousSpace)
                      else mret (ret, f)
                  | None => mret (ESDM_SUCCESS, f)
                  end;
      if decide (ret = ESDM_SUCCESS) then
        eassert (negb (bool_decide (is_Some (stride (dataspace f)))));;
        _ ← esdm_dataspace_total_bytes (dataspace f);
        let '(p, h) := malloc junk h in
        mret (ESDM_SUCCESS, withBuf f (Some p) true, h)
      else mret (ret, f, h)
  end.

Definition esdm_fragment_retrieve (fragment : esdm_fragment_t) (h : heap) (b : B)
    : outcome (esdm_status * esdm_fragment_t * heap * B) :=
  match status fragment with
  | ESDM_DATA_NOT_LOADED =>
      '(ret, fragment, h) ← ensureBuffer fragment h;
      if decide (ret = ESDM_SUCCESS) then
        backend ← deref (backend fragment);
        '(ret, h, b) ← esdmI_backend_fragment_retrieve backend fragment h b;
        mret (ret, if decide (ret = ESDM_SUCCESS) then withStatus fragment ESDM_DATA_PERSISTENT else fragment, h, b)
      else mret (ret, fragment, h, b)
  | ESDM_DATA_PERSISTENT => mret (ESDM_SUCCESS, fragment, h, b)
  | ESDM_DATA_DIRTY => mret (ESDM_DIRTY_DATA_ERROR, fragment, h, b)
  | ESDM_DATA_DELETED => mret (ESDM_DELETED_DATA_ERROR, fragment, h, b)
  end.

Definition esdm_fragment_load (fragment : esdm_fragment_t) (h : heap) (b : B)
    : outcome (esdm_status * esdm_fragment_t * heap * B) :=
  if decide (status fragment = ESDM_DATA_DIRTY) then mret (ESDM_SUCCESS, fragment, h, b)
  else esdm_fragment_retrieve fragment h b.

Definition esdm_fragment_commit (f : esdm_fragment_t) (h : heap) (b : B)
    : outcome (esdm_status * esdm_fragment_t * heap * B) :=
  backend ← deref (backend f);
  '(ret, f, h, b) ← esdmI_backend_fragment_update backend f h b;
  mret (ret, if decide (ret = ESDM_SUCCESS) then withStatus f ESDM_DATA_PERSISTENT else f, h, b).

(** The part of [esdm_fragment_unload()] the dirty case falls through to. *)
Definition unload_persistent (fragment : esdm_fragment_t) (h : heap) (b : B)
    : outcome (esdm_status * esdm_fragment_t * heap * B) :=
  h ← if ownsBuf fragment then free (buf fragment) h else mret h;
  mret (ESDM_SUCCESS, withStatus (withBuf fragment None false) ESDM_DATA_NOT_LOADED, h, b).

Definition esdm_fragment_unload (fragment : esdm_fragment_t) (h : heap) (b : B)
    : outcome (esdm_status * esdm_fragment_t * heap * B) :=
  match status fragment with
  | ESDM_DATA_NOT_LOADED => mret (ESDM_SUCCESS, fragment, h, b)
  | ESDM_DATA_DIRTY =>
      '(ret, fragment, h, b) ← esdm_fragment_commit fragment h b;
      if decide (ret = ESDM_SUCCESS) then unload_persistent fragment h b else mret (ret, fragment, h, b)
  | ESDM_DATA_PERSISTENT => unload_persistent fragment h b
  | ESDM_DATA_DELETED => mret (ESDM_SUCCESS, fragment, h, b)
  end.

(** The fragment itself is gone; the memory and the status remain. *)
Definition esdm_fragment_destroy (frag : esdm_fragment_t) (h : heap) : outcome (esdm_status * heap) :=
  let result := if decide (status frag = ESDM_DATA_DIRTY) then ESDM_ERROR else ESDM_SUCCESS in
  h ← if ownsBuf frag then free (buf frag) h else mret h;
  mret (result, h).

End Lifecycle.

(** * What a backend promises *)

Definition keyOf (f : esdm_fragment_t) : option storageKey :=
  k ← backend f; i ← id f; Some (k, datasetId f, i).

(** A file holds what a buffer shows. *)
Definition holdsData (f : esdm_fragment_t) (file : list Z) (ptr : pointer) (m : mem) : Prop :=
  Z.of_nat (length file) = bytes f /\
  forall p, in_cube p (extends (dataspace f)) -> fileElement (dataspace f) file p = elementAt (dataspace f) (seen ptr m) p.

(** The outcome of an update: only the entry of the fragment may change, the update of a new
    fragment keeps all existing entries, and after a success the entry holds the data. *)
Record updated {B} (stored : B -> storageKey -> option (list Z)) (f : esdm_fragment_t) (h : heap) (b : B) (ptr : pointer)
    (m : mem) (st : esdm_status) (f' : esdm_fragment_t) (h' : heap) (b' : B) : Prop := {
  up_fragment : f' = withId f (id f');
  up_id : is_Some (id f) -> id f' = id f;
  up_valid : forall i, id f' = Some i -> valid_id i;
  up_heap : h ⊆ h';
  up_others : forall key, keyOf f' <> Some key -> stored b' key = stored b key;
  up_kept : forall key file, id f = None -> stored b key = Some file -> stored b' key = Some file;
  up_fresh : forall key, st = ESDM_SUCCESS -> id f = None -> keyOf f' = Some key -> stored b key = None;
  up_data : st = ESDM_SUCCESS -> exists key file, keyOf f' = Some key /\ stored b' key = Some file /\ holdsData f file ptr m
}.

(** The outcome of a retrieval into a buffer: the storage and all other memory are unchanged,
    and after a success the elements are in the buffer. *)
Record retrieved {B} (stored : B -> storageKey -> option (list Z)) (f : esdm_fragment_t) (h : heap) (b : B) (ptr : pointer)
    (m : mem) (file : list Z) (st : esdm_status) (h' : heap) (b' : B) : Prop := {
  re_stored : forall key, stored b' key = stored b key;
  re_heap : delete ptr.1 h ⊆ h';
  re_data : exists m', h' !! ptr.1 = Some m' /\
    (forall a, ~ elementByte (dataspace f) (fun _ => True) a -> seen ptr m' a = seen ptr m a) /\
    (st = ESDM_SUCCESS -> forall p, in_cube p (extends (dataspace f)) ->
       elementAt (dataspace f) (seen ptr m') p = fileElement (dataspace f) file p)
}.

Class DataBackendLaws (B : Type) `{DataBackend B} := {
  backend_inv : B -> Prop;
  stored : B -> storageKey -> option (list Z);
  update_law f h b k ptr m :
    fragment_ok f -> backend f = Some k -> buf f = Some ptr -> h !! ptr.1 = Some m -> backend_inv b ->
    exists st f' h' b', esdmI_backend_fragment_update k f h b = Done (st, f', h', b') /\ backend_inv b' /\
    updated stored f h b ptr m st f' h' b';
  retrieve_law f h b k ptr m key file :
    fragment_ok f -> injective_layout (dataspace f) -> backend f = Some k -> buf f = Some ptr -> h !! ptr.1 = Some m ->
    keyOf f = Some key -> stored b key = Some file -> Z.of_nat (length file) = bytes f -> backend_inv b ->
    exists st h' b', esdmI_backend_fragment_retrieve k f h b = Done (st, h', b') /\ backend_inv b' /\
    retrieved stored f h b ptr m file st h' b';
  delete_law f b k key :
    fragment_ok f -> backend f = Some k -> keyOf f = Some key -> backend_inv b ->
    exists st b', esdmI_backend_fragment_delete k f b = Done (st, b') /\ backend_inv b' /\
    (forall key', key' <> key -> stored b' key' = stored b key') /\ (st = ESDM_SUCCESS -> stored b' key = None)
}.

(** * The content of a fragment *)

Section Content.

Context {B : Type} `{DataBackendLaws B} (junk : mem).

(** The logical content: the element bytes of every point. *)
Definition content_t : Type := list Z -> list Z.

Definition inMemory (f : esdm_fragment_t) (h : heap) (content : content_t) : Prop :=
  exists ptr m, buf f = Some ptr /\ h !! ptr.1 = Some m /\
  forall p, in_cube p (extends (dataspace f)) -> elementAt (dataspace f) (seen ptr m) p = content p.

Definition inStorage (f : esdm_fragment_t) (b : B) (content : content_t) : Prop :=
  exists key file, keyOf f = Some key /\ stored b key = Some file /\ Z.of_nat (length file) = bytes f /\
  forall p, in_cube p (extends (dataspace f)) -> fileElement (dataspace f) file p = content p.

(** Where the content is, depending on the status. *)
Definition hasContent (f : esdm_fragment_t) (h : heap) (b : B) (content : content_t) : Prop :=
  match status f with
  | ESDM_DATA_NOT_LOADED => inStorage f b content /\ (is_Some (buf f) -> injective_layout (dataspace f))
  | ESDM_DATA_DIRTY => inMemory f h content
  | ESDM_DATA_PERSISTENT => inMemory f h content /\ inStorage f b content
  | ESDM_DATA_DELETED => True
  end.

Record fragment_inv (f : esdm_fragment_t) (h : heap) (b : B) (content : content_t) : Prop := {
  fi_ok : fragment_ok f;
  fi_backend : is_Some (backend f);
  fi_buf : forall ptr, buf f = Some ptr -> is_Some (h !! ptr.1);
  fi_owns : ownsBuf f = true -> exists block, buf f = Some (block, 0);
  fi_content : hasContent f h b content
}.

(** What an operation on a fragment leaves alone. *)
Record evolves (f : esdm_fragment_t) (h : heap) (b : B) (content : content_t)
    (f' : esdm_fragment_t) (h' : heap) (b' : B) : Prop := {
  ev_inv : fragment_inv f' h' b' content;
  ev_backend : backend_inv b';
  ev_shape : contiguous (dataspace f') = contiguous (dataspace f);
  ev_dataset : datasetId f' = datasetId f /\ backend f' = backend f;
  ev_others : forall key, keyOf f' <> Some key -> stored b' key = stored b key;
  ev_key : is_Some (keyOf f) -> keyOf f' = keyOf f;
  ev_kept : forall key file, keyOf f = None -> stored b key = Some file -> stored b' key = Some file;
  ev_fresh : forall key, keyOf f = None -> status f' <> ESDM_DATA_DIRTY -> keyOf f' = Some key -> stored b key = None;
  ev_heap : forall block m, h !! block = Some m -> (forall ptr, buf f = Some ptr -> ptr.1 <> block) -> h' !! block = Some m;
  ev_buf : forall ptr m, buf f = Some ptr -> ownsBuf f = false -> h !! ptr.1 = Some m ->
    exists m', h' !! ptr.1 = Some m' /\ forall a, ~ elementByte (dataspace f) (fun _ => True) a -> seen ptr m' a = seen ptr m a
}.

Lemma evolves_refl (f : esdm_fragment_t) (h : heap) (b : B) (content : content_t) :
  fragment_inv f h b content -> backend_inv b -> evolves f h b content f h b.
Proof. intros Hi Hb. constructor; try done; [intros key -> _; done | eauto]. Qed.

Lemma contiguous_shape (f g : esdm_fragment_t) :
  contiguous (dataspace f) = contiguous (dataspace g) ->
  extends (dataspace f) = extends (dataspace g) /\ forall file, fileElement (dataspace f) file = fileElement (dataspace g) file.
Proof.
  intros E. split; [| intros file; unfold fileElement; by rewrite E].
  unfold extends. by injection E as _ _ -> ->.
Qed.

(** The content in storage depends on the key and the shape of the fragment only. *)
Lemma inStorage_same (f g : esdm_fragment_t) (b b' : B) (content : content_t) :
  keyOf g = keyOf f -> bytes g = bytes f -> contiguous (dataspace g) = contiguous (dataspace f) ->
  (forall key, keyOf f = Some key -> stored b' key = stored b key) -> inStorage f b content -> inStorage g b' content.
Proof.
  intros Ek Eb Ec Hst (key & file & Hk & Hs & Hl & Hc). apply contiguous_shape in Ec as [Ee Ef].
  exists key, file. rewrite Ek, Eb, Ee. repeat split; try done; [by rewrite Hst |]. intros p Hp. by rewrite Ef, Hc.
Qed.

Lemma ensureBuffer_ok (f : esdm_fragment_t) (h : heap) (b : B) (content : content_t) :
  fragment_inv f h b content -> status f = ESDM_DATA_NOT_LOADED ->
  exists f1 h1 ptr m, ensureBuffer junk f h = Done (ESDM_SUCCESS, f1, h1) /\
  fragment_inv f1 h1 b content /\ status f1 = ESDM_DATA_NOT_LOADED /\ buf f1 = Some ptr /\ h1 !! ptr.1 = Some m /\ h ⊆ h1 /\
  keyOf f1 = keyOf f /\ datasetId f1 = datasetId f /\ backend f1 = backend f /\ contiguous (dataspace f1) = contiguous (dataspace f) /\
  (f1 = f \/ h !! ptr.1 = None /\ buf f = None /\ ownsBuf f1 = true /\ ptr.2 = 0).
Proof.
  intros Hi Hst. pose proof Hi as [[Hv Hvi Hs Hb Hpl Hvb] Hbk Hbuf Hown Hc]. unfold hasContent in Hc. rewrite Hst in Hc. destruct Hc as [Hstore Hinj].
  unfold ensureBuffer. destruct (buf f) as [ptr |] eqn:Eb.
  { destruct (Hbuf ptr eq_refl) as [m Em]. exists f, h, ptr, m. by repeat (split; [done |]); left. }
  set (g := withSpace f (contiguous (dataspace f))).
  assert (Hg : exists f0, (match stride (dataspace f) with
    | Some _ => '(ret, contiguousSpace) ← esdm_dataspace_makeContiguous (dataspace f);
                if decide (ret = ESDM_SUCCESS) then contiguousSpace ← deref contiguousSpace; mret (ESDM_SUCCESS, withSpace f contiguousSpace)
                else mret (ret, f)
    | None => mret (ESDM_SUCCESS, f) end) = Done (ESDM_SUCCESS, f0) /\ stride (dataspace f0) = None /\ data_space (dataspace f0) /\
    f0 = withSpace f (dataspace f0) /\ contiguous (dataspace f0) = contiguous (dataspace f)).
  { destruct (stride (dataspace f)) as [st |] eqn:Est.
    - rewrite makeContiguous_ok by done. run. rewrite decide_True by done. run. exists g.
      split; [done |]. split; [done |]. split; [by apply data_space_contiguous | done].
    - exists f. by destruct f. }
  destruct Hg as (f0 & -> & Hst0 & Hs0 & Ef0 & Ec0). run. rewrite decide_True by done. rewrite Hst0. cbn [is_Some bool_decide negb].
  rewrite bool_decide_eq_false_2 by (by intros [? ?]). run.
  rewrite total_bytes_ok by (apply Hs0). run. pose proof (malloc_fresh junk h) as Hf. unfold malloc in *. cbn [fst] in Hf.
  set (block := fresh (dom h)) in *. exists (withBuf f0 (Some (block, 0)) true), (<[block := junk]> h), (block, 0), junk.
  assert (Hsz : size (dataspace f0) = size (dataspace f) /\ type (dataspace f0) = type (dataspace f)) by (by injection Ec0).
  assert (Hinj0 : injective_layout (dataspace f0)).
  { pose proof (contiguous_injective _ Hs0) as Hc0. intros p q Hp Hq E. apply Hc0; [done | done |].
    revert E. unfold index, eff. by rewrite Hst0. }
  split; [done |]. cbn [fst]. rewrite lookup_insert_eq. rewrite Ef0. cbn [withBuf withSpace status buf datasetId backend dataspace keyOf id].
  split; [| repeat (split; [done |]); split; [by apply insert_subseteq | repeat (split; [done |])]; by right].
  constructor; cbn [withBuf withSpace status buf datasetId backend dataspace ownsBuf].
  - destruct Hsz as [E1 E2]. constructor; cbn [withBuf withSpace dataspace bytes actual_bytes]; [done | done | done | by rewrite E1, E2 | done | done].
  - done.
  - intros ptr [= <-]. cbn [fst]. rewrite lookup_insert_eq. eauto.
  - eauto.
  - unfold hasContent. cbn [withBuf withSpace status buf dataspace]. rewrite Hst. split; [| done].
    by apply (inStorage_same f _ b b).
Qed.

(** The buffer an operation uses: the one the fragment has, or a new block of its own. *)
Definition sameBuffer (f : esdm_fragment_t) (h : heap) (f' : esdm_fragment_t) : Prop :=
  (buf f' = buf f /\ dataspace f' = dataspace f /\ ownsBuf f' = ownsBuf f) \/
  (buf f = None /\ ownsBuf f' = true /\ exists block, buf f' = Some (block, 0) /\ h !! block = None).

Lemma retrieve_ok (f : esdm_fragment_t) (h : heap) (b : B) (content : content_t) :
  fragment_inv f h b content -> backend_inv b ->
  exists st f' h' b', esdm_fragment_retrieve junk f h b = Done (st, f', h', b') /\ evolves f h b content f' h' b' /\
  sameBuffer f h f' /\
  status f' = (if decide (status f = ESDM_DATA_NOT_LOADED /\ st = ESDM_SUCCESS) then ESDM_DATA_PERSISTENT else status f) /\
  (st = ESDM_SUCCESS -> status f' = ESDM_DATA_PERSISTENT).
Proof.
  intros Hi Hb. unfold esdm_fragment_retrieve. destruct (status f) eqn:Est.
  2-4: eexists _, f, h, b; split; [reflexivity |]; split; [by apply evolves_refl |]; split; [by left |];
       rewrite decide_False by (by intros [? _]); by rewrite Est.
  destruct (ensureBuffer_ok f h b content Hi Est) as (f1 & h1 & ptr & m & -> & Hi1 & Hst1 & Eb1 & Em1 & Hsub & Hkey & Hds & Hbk & Hc & Hnew).
  run. rewrite decide_True by done. pose proof Hi1 as [Hok [k Ek] Hbuf Hown Hcont]. unfold hasContent in Hcont. rewrite Hst1 in Hcont.
  destruct Hcont as [(key & file & Ekey & Estored & Hl & Hfile) Hinj]. rewrite Ek. run.
  destruct (retrieve_law f1 h1 b k ptr m key file) as (st & h' & b' & -> & Hb' & [Hst Hheap (m' & Em' & Hout & Hin)]); try done; [eauto |].
  run. set (f' := if decide (st = ESDM_SUCCESS) then withStatus f1 ESDM_DATA_PERSISTENT else f1).
  assert (Hf' : f' = withStatus f1 (status f')) by (unfold f'; case_decide; by destruct f1).
  assert (Hstat : status f' = if decide (st = ESDM_SUCCESS) then ESDM_DATA_PERSISTENT else ESDM_DATA_NOT_LOADED).
  { unfold f'. by case_decide. }
  assert (Hbuf' : buf f' = buf f1 /\ dataspace f' = dataspace f1 /\ keyOf f' = keyOf f1 /\ bytes f' = bytes f1 /\ ownsBuf f' = ownsBuf f1 /\
                  backend f' = backend f1 /\ datasetId f' = datasetId f1) by (by rewrite Hf').
  destruct Hbuf' as (B1 & B2 & B3 & B4 & B5 & B6 & B7).
  exists st, f', h', b'. split; [done |].
  assert (Hstore' : inStorage f' b' content).
  { apply (inStorage_same f1 f' b b'); try done; [by rewrite B2 |]. by exists key, file. }
  split; [constructor | split; [| split]].
  - constructor.
    + rewrite Hf'. by destruct Hok.
    + rewrite B6, Ek. eauto.
    + intros q. rewrite B1, Eb1. intros [= <-]. eauto.
    + rewrite B5, B1. done.
    + unfold hasContent. rewrite Hstat. case_decide as Hs; [split; [| done] | split; [done |]].
      * exists ptr, m'. rewrite B1, B2. split; [done |]. split; [done |]. intros p Hp. by rewrite (Hin Hs p Hp), (Hfile p Hp).
      * intros _. rewrite B2. eauto.
  - done.
  - by rewrite B2.
  - by rewrite B7, B6, Hds, Hbk.
  - intros key' _. apply Hst.
  - intros _. by rewrite B3.
  - intros key' file' _. by rewrite Hst.
  - intros key' Hn _. rewrite B3, Hkey, Hn. done.
  - intros block mb Hblk Hne. apply (lookup_weaken _ h' block mb) in Hheap; [done |]. rewrite lookup_delete_ne.
    + by eapply lookup_weaken.
    + destruct Hnew as [-> | (Hnone & _)]; [by apply Hne |]. intros <-. by rewrite Hnone in Hblk.
  - intros q mq Hq Ho Emq. destruct Hnew as [-> | (_ & Hnone & _)]; [| by rewrite Hnone in Hq].
    rewrite Hq in Eb1. injection Eb1 as ->. pose proof (lookup_weaken _ _ _ _ Emq Hsub) as Emq'. rewrite Em1 in Emq'. injection Emq' as ->.
    by exists m'.
  - destruct Hnew as [-> | (Hn1 & Hn2 & Hn3 & Hn4)]; [left; by rewrite B1, B2, B5 |]. right. split; [done |].
    split; [by rewrite B5 |]. exists ptr.1. rewrite B1, Eb1. destruct ptr as [block o]. simpl in *. by subst.
  - rewrite Hstat. apply decide_ext. tauto.
  - intros ->. rewrite Hstat. by rewrite decide_True.
Qed.

Lemma load_ok (f : esdm_fragment_t) (h : heap) (b : B) (content : content_t) :
  fragment_inv f h b content -> backend_inv b -> status f <> ESDM_DATA_DELETED ->
  exists st f' h' b', esdm_fragment_load junk f h b = Done (st, f', h', b') /\ evolves f h b content f' h' b' /\
  sameBuffer f h f' /\ status f' <> ESDM_DATA_DELETED /\ (st = ESDM_SUCCESS -> inMemory f' h' content).
Proof.
  intros Hi Hb Hd. unfold esdm_fragment_load. case_decide as Hdirty.
  - exists ESDM_SUCCESS, f, h, b. split; [done |]. split; [by apply evolves_refl |]. split; [by left |]. split; [done |].
    intros _. apply fi_content in Hi. unfold hasContent in Hi. by rewrite Hdirty in Hi.
  - destruct (retrieve_ok f h b content Hi Hb) as (st & f' & h' & b' & E & Hev & Hsame & Hst & Hok).
    exists st, f', h', b'. split; [done |]. split; [done |]. split; [done |]. split.
    + rewrite Hst. by case_decide.
    + intros Hs. pose proof (fi_content _ _ _ _ (ev_inv _ _ _ _ _ _ _ Hev)) as Hc. unfold hasContent in Hc.
      rewrite (Hok Hs) in Hc. apply Hc.
Qed.

Lemma commit_ok (f : esdm_fragment_t) (h : heap) (b : B) (content : content_t) :
  fragment_inv f h b content -> backend_inv b -> status f = ESDM_DATA_DIRTY ->
  exists st f' h' b', esdm_fragment_commit f h b = Done (st, f', h', b') /\ evolves f h b content f' h' b' /\
  buf f' = buf f /\ dataspace f' = dataspace f /\ ownsBuf f' = ownsBuf f /\ h ⊆ h' /\
  status f' = (if decide (st = ESDM_SUCCESS) then ESDM_DATA_PERSISTENT else ESDM_DATA_DIRTY).
Proof.
  intros Hi Hb Hd. pose proof Hi as [Hok [k Ek] Hbuf Hown Hcont]. unfold hasContent in Hcont. rewrite Hd in Hcont.
  destruct Hcont as (ptr & m & Eb & Em & Hmem). unfold esdm_fragment_commit. rewrite Ek. run.
  destruct (update_law f h b k ptr m) as (st & f1 & h' & b' & -> & Hb' & [Hf1 Hid1 Hvalid Hsub Hoth Hkept Hfresh Hdata]); try done.
  run. set (f' := if decide (st = ESDM_SUCCESS) then withStatus f1 ESDM_DATA_PERSISTENT else f1).
  assert (Hstat : status f' = if decide (st = ESDM_SUCCESS) then ESDM_DATA_PERSISTENT else ESDM_DATA_DIRTY).
  { unfold f'. case_decide; [done |]. by rewrite Hf1. }
  assert (Hf' : f' = withStatus (withId f (id f1)) (status f')) by (unfold f'; rewrite Hf1; case_decide; by destruct f).
  assert (Hkey : keyOf f' = keyOf f1) by (unfold keyOf; rewrite Hf'; cbn; by rewrite Hf1).
  assert (B1 : buf f' = buf f /\ dataspace f' = dataspace f /\ bytes f' = bytes f /\ ownsBuf f' = ownsBuf f /\ backend f' = backend f /\
    datasetId f' = datasetId f /\ actual_bytes f' = actual_bytes f) by (by rewrite Hf').
  destruct B1 as (B1 & B2 & B3 & B4 & B5 & B6 & B7). exists st, f', h', b'. split; [done |].
  assert (Hmem' : inMemory f' h' content).
  { exists ptr, m. rewrite B1, B2. split; [done |]. split; [by eapply lookup_weaken | done]. }
  split; [constructor | by repeat (split; [done |])].
  - constructor; rewrite ?B1, ?B4, ?B5; try done.
    + rewrite Hf'. by destruct Hok.
    + intros q Hq. destruct (Hbuf q Hq) as [mq Emq]. exists mq. by eapply lookup_weaken.
    + unfold hasContent. rewrite Hstat. case_decide as Hs; [split; [done |] | done].
      destruct (Hdata Hs) as (key & file & Ekey & Est & Hl & Hfile). exists key, file. rewrite Hkey, B2, B3.
      repeat (split; [done |]). intros p Hp. by rewrite (Hfile p Hp), (Hmem p Hp).
  - done.
  - by rewrite B2.
  - done.
  - intros key. rewrite Hkey. apply Hoth.
  - intros [key Ekey]. rewrite Hkey. revert Ekey. unfold keyOf. rewrite Hf1, Ek. cbn. destruct (id f) as [i |] eqn:Eid; [| done].
    intros _. cbn. rewrite Ek, Hid1 by eauto. done.
  - intros key file Hnone. apply Hkept. revert Hnone. unfold keyOf. rewrite Ek. cbn. by destruct (id f).
  - intros key Hnone Hnd. rewrite Hkey. rewrite Hstat in Hnd. case_decide; [| done]. apply Hfresh; [done |].
    revert Hnone. unfold keyOf. rewrite Ek. cbn. by destruct (id f).
  - intros block mb Hblk _. by eapply lookup_weaken.
  - intros q mq _ _ Emq. exists mq. split; [by eapply lookup_weaken | done].
Qed.

Lemma unload_persistent_ok (f : esdm_fragment_t) (h : heap) (b : B) (content : content_t) :
  fragment_inv f h b content -> backend_inv b -> status f = ESDM_DATA_PERSISTENT ->
  exists f' h', unload_persistent f h b = Done (ESDM_SUCCESS, f', h', b) /\ evolves f h b content f' h' b /\
  f' = withStatus (withBuf f None false) ESDM_DATA_NOT_LOADED /\ (ownsBuf f = false -> h' = h).
Proof.
  intros Hi Hb Hst. pose proof Hi as [Hok Hbk Hbuf Hown Hcont]. unfold hasContent in Hcont. rewrite Hst in Hcont.
  destruct Hcont as [_ Hstore]. unfold unload_persistent.
  set (f' := withStatus (withBuf f None false) ESDM_DATA_NOT_LOADED).
  assert (exists h', (if ownsBuf f then free (buf f) h else mret h) = Done h' /\ (ownsBuf f = false -> h' = h) /\
    (forall block m, h !! block = Some m -> (forall ptr, buf f = Some ptr -> ptr.1 <> block) -> h' !! block = Some m)) as (h' & E & Hh & Hkeep).
  { destruct (ownsBuf f) eqn:Eo; [| by exists h]. destruct (Hown eq_refl) as [block Ebuf]. rewrite Ebuf in *. cbn [free fst snd].
    rewrite decide_True by (split; [done |]; by apply (Hbuf (block, 0))). eexists. split; [done |]. split; [done |].
    intros blk m Hblk Hne. rewrite lookup_delete_ne; [done |]. by apply (Hne (block, 0)). }
  rewrite E. run. exists f', h'. split; [done |]. split; [| done]. constructor; try done.
  - constructor; try done; [by destruct Hok |]. split; [by apply (inStorage_same f f' b b) | by intros [? [=]]].
  - intros key Hn. unfold f'. change (keyOf (withStatus (withBuf f None false) ESDM_DATA_NOT_LOADED)) with (keyOf f). by rewrite Hn.
  - intros ptr m _ Ho Em. rewrite (Hh Ho). eauto.
Qed.

Lemma evolves_trans (f f1 f2 : esdm_fragment_t) (h h1 h2 : heap) (b b1 : B) (content : content_t) :
  evolves f h b content f1 h1 b1 -> evolves f1 h1 b1 content f2 h2 b1 -> status f1 <> ESDM_DATA_DIRTY -> buf f1 = buf f -> ownsBuf f1 = ownsBuf f -> dataspace f1 = dataspace f ->
  evolves f h b content f2 h2 b1.
Proof.
  intros [Hi1 Hb1 Hc1 [Hd1 Hk1] Ho1 Hkey1 Hke1 Hfr1 Hh1 Hbuf1] [Hi2 Hb2 Hc2 [Hd2 Hk2] Ho2 Hkey2 _ Hfr2 Hh2 Hbuf2] Hnd Ebuf Eown Esp.
  constructor; try done.
  - by rewrite Hc2.
  - by rewrite Hd2, Hk2.
  - intros key Hne. destruct (decide (keyOf f1 = Some key)) as [E | E]; [| by apply Ho1].
    rewrite Hkey2 in Hne by eauto. done.
  - intros Hs. rewrite Hkey2, Hkey1; [done | done |]. by rewrite Hkey1.
  - intros key Hn Hnd2 E. destruct (keyOf f1) as [key1 |] eqn:E1.
    + rewrite Hkey2 in E by eauto. injection E as <-. by apply Hfr1.
    + rewrite <- (Ho1 key) by congruence. by apply Hfr2.
  - intros block m Em Hne. apply Hh2; [by apply Hh1 |]. by rewrite Ebuf.
  - intros ptr m Ep Eo Em. destruct (Hbuf1 ptr m Ep Eo Em) as (m1 & Em1 & Hout1).
    destruct (Hbuf2 ptr m1) as (m2 & Em2 & Hout2); [by rewrite Ebuf | by rewrite Eown | done |].
    exists m2. split; [done |]. rewrite Esp in Hout2. intros a Ha. by rewrite Hout2, Hout1.
Qed.

Lemma unload_ok (f : esdm_fragment_t) (h : heap) (b : B) (content : content_t) :
  fragment_inv f h b content -> backend_inv b ->
  exists st f' h' b', esdm_fragment_unload f h b = Done (st, f', h', b') /\ evolves f h b content f' h' b' /\
  dataspace f' = dataspace f /\ (ownsBuf f = false -> h ⊆ h') /\
  (st = ESDM_SUCCESS -> (status f <> ESDM_DATA_DELETED -> status f' = ESDM_DATA_NOT_LOADED) /\
     (status f = ESDM_DATA_DIRTY \/ status f = ESDM_DATA_PERSISTENT -> buf f' = None)) /\
  (st <> ESDM_SUCCESS -> status f = ESDM_DATA_DIRTY /\ status f' = ESDM_DATA_DIRTY /\ buf f' = buf f).
Proof.
  intros Hi Hb. unfold esdm_fragment_unload. destruct (status f) eqn:Est.
  - exists ESDM_SUCCESS, f, h, b. split; [done |]. split; [by apply evolves_refl |]. rewrite Est. naive_solver.
  - destruct (commit_ok f h b content Hi Hb Est) as (st & f1 & h1 & b1 & -> & Hev & E1 & E2 & E3 & Hsub & Hst1). run.
    case_decide as Hs.
    + destruct (unload_persistent_ok f1 h1 b1 content) as (f2 & h2 & -> & Hev2 & -> & Hh2); [apply Hev | apply Hev | done |].
      eexists ESDM_SUCCESS, _, h2, b1. split; [done |]. split; [eapply evolves_trans; try done; by rewrite Hst1 |]. split; [done |].
      split; [intros Ho; by rewrite Hh2 by congruence |]. done.
    + exists st, f1, h1, b1. repeat (split; [done |]). done.
  - destruct (unload_persistent_ok f h b content) as (f2 & h2 & -> & Hev2 & -> & Hh2); [done | done | done |].
    eexists ESDM_SUCCESS, _, h2, b. split; [done |]. split; [done |]. split; [done |].
    split; [intros Ho; by rewrite Hh2 |]. done.
  - exists ESDM_SUCCESS, f, h, b. split; [done |]. split; [by apply evolves_refl |]. rewrite Est. naive_solver.
Qed.

(** ** Sequences of operations *)

Inductive fragment_op := OpRetrieve | OpLoad | OpCommit | OpUnload.

Definition apply_op (op : fragment_op) : esdm_fragment_t -> heap -> B -> outcome (esdm_status * esdm_fragment_t * heap * B) :=
  match op with
  | OpRetrieve => esdm_fragment_retrieve junk
  | OpLoad => esdm_fragment_load junk
  | OpCommit => esdm_fragment_commit
  | OpUnload => esdm_fragment_unload
  end.

(** Only dirty fragments are committed. *)
Definition op_allowed (op : fragment_op) (f : esdm_fragment_t) : Prop := op = OpCommit -> status f = ESDM_DATA_DIRTY.

Inductive life (f : esdm_fragment_t) (h : heap) (b : B) : esdm_fragment_t -> heap -> B -> Prop :=
| life_start : life f h b f h b
| life_step (op : fragment_op) (st : esdm_status) (f1 f2 : esdm_fragment_t) (h1 h2 : heap) (b1 b2 : B) :
    life f h b f1 h1 b1 -> op_allowed op f1 -> apply_op op f1 h1 b1 = Done (st, f2, h2, b2) -> life f h b f2 h2 b2.

(** What a successful operation is for. *)
Definition op_result (op : fragment_op) (f : esdm_fragment_t) (h : heap) (b : B) (content : content_t) : Prop :=
  match op with
  | OpRetrieve | OpLoad => inMemory f h content
  | OpCommit => inStorage f b content
  | OpUnload => status f = ESDM_DATA_NOT_LOADED
  end.

Lemma apply_op_ok (op : fragment_op) (f : esdm_fragment_t) (h : heap) (b : B) (content : content_t) :
  fragment_inv f h b content -> backend_inv b -> status f <> ESDM_DATA_DELETED -> op_allowed op f ->
  exists st f' h' b', apply_op op f h b = Done (st, f', h', b') /\ evolves f h b content f' h' b' /\ status f' <> ESDM_DATA_DELETED /\
  (st = ESDM_SUCCESS -> op_result op f' h' b' content).
Proof.
  intros Hi Hb Hd Hal.
  assert (Hpers : forall f' h' b', evolves f h b content f' h' b' -> status f' = ESDM_DATA_PERSISTENT -> inMemory f' h' content /\ inStorage f' b' content).
  { intros f' h' b' Hev Hst. pose proof (fi_content _ _ _ _ (ev_inv _ _ _ _ _ _ _ Hev)) as Hc. unfold hasContent in Hc. by rewrite Hst in Hc. }
  destruct op; cbn [apply_op op_result].
  - destruct (retrieve_ok f h b content Hi Hb) as (st & f' & h' & b' & E & Hev & _ & Hst & Hok). exists st, f', h', b'.
    split; [done |]. split; [done |]. split; [rewrite Hst; by case_decide |]. intros Hs. by apply (Hpers f' h' b' Hev (Hok Hs)).
  - destruct (load_ok f h b content Hi Hb Hd) as (st & f' & h' & b' & E & Hev & _ & Hst & Hok). by exists st, f', h', b'.
  - destruct (commit_ok f h b content Hi Hb (Hal eq_refl)) as (st & f' & h' & b' & E & Hev & _ & _ & _ & _ & Hst). exists st, f', h', b'.
    split; [done |]. split; [done |]. split; [rewrite Hst; by case_decide |]. intros ->. by apply (Hpers f' h' b' Hev Hst).
  - destruct (unload_ok f h b content Hi Hb) as (st & f' & h' & b' & E & Hev & _ & _ & Hok & Hno). exists st, f', h', b'.
    split; [done |]. split; [done |]. destruct (decide (st = ESDM_SUCCESS)) as [Hs | Hs].
    + destruct (Hok Hs) as [Hnl _]. by rewrite (Hnl Hd).
    + destruct (Hno Hs) as (_ & E' & _). by rewrite E'.
Qed.

Lemma life_inv (f : esdm_fragment_t) (h : heap) (b : B) (content : content_t) (f' : esdm_fragment_t) (h' : heap) (b' : B) :
  fragment_inv f h b content -> backend_inv b -> status f <> ESDM_DATA_DELETED -> life f h b f' h' b' ->
  fragment_inv f' h' b' content /\ backend_inv b' /\ status f' <> ESDM_DATA_DELETED /\
  contiguous (dataspace f') = contiguous (dataspace f) /\
  (is_Some (keyOf f) -> keyOf f' = keyOf f) /\
  (forall key, keyOf f <> Some key -> keyOf f' <> Some key -> stored b' key = stored b key).
Proof.
  intros Hi Hb Hd. induction 1 as [| op st f1 f2 h1 h2 b1 b2 _ IH Hal E]; [done |].
  destruct IH as (Hi1 & Hb1 & Hd1 & Hc1 & Hk1 & Ho1).
  destruct (apply_op_ok op f1 h1 b1 content Hi1 Hb1 Hd1 Hal) as (st' & f2' & h2' & b2' & E' & Hev & Hd2 & _).
  rewrite E in E'. injection E' as <- <- <- <-. destruct Hev as [Hi2 Hb2 Hc2 _ Ho2 Hk2 _ _ _ _].
  split; [done |]. split; [done |]. split; [done |]. split; [by rewrite Hc2 |]. split.
  - intros Hs. rewrite Hk2; [by apply Hk1 |]. by rewrite Hk1.
  - intros key Hne Hne2. rewrite (Ho2 key Hne2). apply Ho1; [done |]. intros Hs. rewrite Hk2 in Hne2 by eauto. done.
Qed.


End Content.
