(* ===== verification/Posix.v ===== *)
(** The POSIX data backend (src/backends-data/posix/posix.c) and the file helpers it uses
    (src/utils/auxiliary.c): fragments are files below the target directory of the backend.
    The operating system is the parameter [FileSystem]. *)

From Stdlib Require Import Ascii.
From S2P Require Import Prelude Memory Hypercube Json Odometer Dataspace Convert CopyData Fragment FragmentState.

Open Scope Z_scope.

(** * System calls *)

(** The outcome of [mkdir()] and of [open()] with [O_CREAT | O_EXCL]. *)
Inductive create_result := Created | AlreadyExists | CreateError.

(** The outcome of [write()] and [read()]: progress, [EINTR], or another error. *)
Inductive io_result (A : Type) := IoDone (a : A) | IoInterrupted | IoError.
Arguments IoDone {A} a.
Arguments IoInterrupted {A}.
Arguments IoError {A}.

(** The calls the backend makes.  A descriptor is the path of the open file together with the
    position, which is the end of the file for [fs_write]. *)
Class FileSystem (FS : Type) := {
  fs_stat : string -> FS -> bool;
  fs_mkdir : string -> FS -> create_result * FS;
  fs_create : string -> FS -> create_result * FS;
  fs_truncate : string -> FS -> bool * FS;
  fs_open : string -> FS -> bool;
  fs_write : string -> list Z -> FS -> io_result Z * FS;
  fs_read : string -> Z -> Z -> FS -> io_result (list Z) * FS;
  fs_unlink : string -> FS -> bool * FS;
  fs_rmdir : string -> FS -> bool * FS;
  (** How many calls signals will still interrupt, and the names that exist. *)
  fs_interrupts : FS -> nat;
  fs_names : FS -> list string
}.

Section Posix.

Context {FS : Type} `{FileSystem FS}.

(** * src/utils/auxiliary.c *)

(** [PATH_MAX] of Linux: the size of the arrays for paths. *)
Definition PATH_MAX : Z := 4096.

(** [sprintf()] into an array of [PATH_MAX] characters; a longer text is undefined behaviour. *)
Definition sprintf_path (text : string) : outcome string := if Z.of_nat (String.length text) <? PATH_MAX then mret text else Undef.

(** [while(len > 0)]; the result is whether everything was written.  An error other than
    [EINTR] is reported with [ESDM_ERROR_COM_FMT()], which ends the process. *)
Fixpoint write_loop (fuel : nat) (path : string) (data : list Z) (fs : FS) : outcome (bool * FS) :=
  match data with
  | [] => mret (true, fs)
  | _ :: _ =>
      match fuel with
      | O => Undef
      | S fuel' =>
          let '(ret, fs) := fs_write path data fs in
          match ret with
          | IoDone n => write_loop fuel' path (drop (Z.to_nat n) data) fs
          | IoInterrupted => write_loop fuel' path data fs
          | IoError => Abort
          end
      end
  end.

Definition ea_write_check (path : string) (data : list Z) (fs : FS) : outcome (bool * FS) :=
  write_loop (length data + fs_interrupts fs) path data fs.

(** [done] are the bytes in the buffer already; the result is whether all [len] bytes came.  An
    error other than [EINTR] ends the process. *)
Fixpoint read_loop (fuel : nat) (path : string) (len : Z) (done : list Z) (fs : FS) : outcome (bool * list Z * FS) :=
  if len <=? 0 then mret (true, done, fs)
  else
    match fuel with
    | O => Undef
    | S fuel' =>
        let '(ret, fs) := fs_read path (Z.of_nat (length done)) len fs in
        match ret with
        | IoDone [] => mret (false, done, fs)
        | IoDone data => read_loop fuel' path (len - Z.of_nat (length data)) (done ++ data) fs
        | IoInterrupted => read_loop fuel' path len done fs
        | IoError => Abort
        end
    end.

Definition ea_read_check (path : string) (len : Z) (fs : FS) : outcome (bool * list Z * FS) :=
  read_loop (Z.to_nat len + fs_interrupts fs) path len [] fs.

(** The calls of [mkdir()] for the prefixes that end before position [p] and later ones, and
    for the whole path. *)
Fixpoint mkdir_loop (n p : nat) (tmp : string) (fs : FS) : create_result * FS :=
  match n with
  | O => fs_mkdir tmp fs
  | S n' =>
      let fs := if decide (String.get p tmp = Some "/"%char /\ (1 < p)%nat) then (fs_mkdir (String.substring 0 p tmp) fs).2 else fs in
      mkdir_loop n' (S p) tmp fs
  end.

(** [snprintf()] cuts a longer path; a slash at the end of the path is cut off. *)
Definition mkdir_recursive (path : string) (fs : FS) : create_result * FS :=
  let tmp := String.substring 0 (Z.to_nat (PATH_MAX - 1)) path in
  let len := String.length tmp in
  let tmp := if decide (String.get (len - 1) tmp = Some "/"%char) then String.substring 0 (len - 1) tmp else tmp in
  mkdir_loop (String.length tmp - 1) 1 tmp fs.

(** * src/backends-data/posix/posix.c *)

(** [sprintfFragmentDir]; reading behind the end of an id is undefined. *)
Definition sprintfFragmentDir (tgt : string) (f : esdm_fragment_t) : outcome string :=
  match datasetId f, id f with
  | String d0 (String d1 dataset), Some (String i0 (String i1 _)) =>
      sprintf_path (tgt ++ "/" ++ String d0 ("/" ++ String d1 ("/" ++ dataset ++ "/" ++ String i0 ("/" ++ String i1 ""))))%string
  | _, _ => Undef
  end.

Definition sprintfFragmentPath (tgt : string) (f : esdm_fragment_t) : outcome string :=
  match datasetId f, id f with
  | String d0 (String d1 dataset), Some (String i0 (String i1 i)) =>
      sprintf_path (tgt ++ "/" ++ String d0 ("/" ++ String d1 ("/" ++ dataset ++ "/" ++ String i0 ("/" ++ String i1 ("/" ++ i)))))%string
  | _, _ => Undef
  end.

Context (floatCast : esdm_type_t -> esdm_type_t -> list Z -> list Z) (junk : mem).
(** The target directories of the backends, and the results of [ea_make_id()] in their order. *)
Context (target : nat -> string) (makeId : nat -> string).

Record posix_state := PosixState { files : FS; madeIds : nat }.

Definition entry_retrieve (path : string) (size : Z) (s : posix_state) : outcome (esdm_status * list Z * posix_state) :=
  if fs_open path (files s) then
    '(ok, data, fs) ← ea_read_check path size (files s);
    mret (if ok : bool then ESDM_SUCCESS else ESDM_ERROR, data, PosixState fs (madeIds s))
  else mret (ESDM_ERROR, [], s).

Definition entry_update (path : string) (data : list Z) (update_only : bool) (s : posix_state) : outcome (esdm_status * posix_state) :=
  let '(opened, fs) :=
    if update_only then fs_truncate path (files s)
    else let '(r, fs) := fs_create path (files s) in (match r with Created => true | _ => false end, fs) in
  if opened : bool then
    '(ok, fs) ← ea_write_check path data fs;
    mret (if ok : bool then ESDM_SUCCESS else ESDM_ERROR, PosixState fs (madeIds s))
  else mret (ESDM_ERROR, PosixState fs (madeIds s)).

Definition fragment_delete (k : nat) (f : esdm_fragment_t) (s : posix_state) : outcome (esdm_status * posix_state) :=
  match id f with
  | None => mret (ESDM_ERROR, s)
  | Some _ =>
      path ← sprintfFragmentPath (target k) f;
      let '(ok, fs) := fs_unlink path (files s) in
      if ok : bool then
        dir ← sprintfFragmentDir (target k) f;
        let '(ok, fs) := fs_rmdir dir fs in
        mret (if ok : bool then ESDM_SUCCESS else ESDM_ERROR, PosixState fs (madeIds s))
      else mret (ESDM_ERROR, PosixState fs (madeIds s))
  end.

(** The bytes that were read are in the buffer, also when some are missing. *)
Definition fragment_retrieve (k : nat) (f : esdm_fragment_t) (h : heap) (s : posix_state)
    : outcome (esdm_status * heap * posix_state) :=
  path ← sprintfFragmentPath (target k) f;
  let '(needUnpack, readBuffer, size, h) := estream_mem_unpack_fragment_param junk f h in
  '(ret, data, s) ← entry_retrieve path size s;
  h ← match data with
      | [] => mret h
      | _ => rb ← deref readBuffer; store rb data h
      end;
  if decide (ret = ESDM_SUCCESS) then
    if needUnpack : bool then
      rb ← deref readBuffer;
      '(ret, h) ← estream_mem_unpack_fragment floatCast f rb h;
      mret (ret, h, s)
    else mret (ret, h, s)
  else mret (ret, h, s).

(** The path of the open file on success. *)
Fixpoint create_posix_id (fuel : nat) (tgt : string) (f : esdm_fragment_t) (s : posix_state)
    : outcome (esdm_status * esdm_fragment_t * string * posix_state) :=
  match fuel with
  | O => Undef
  | S fuel' =>
      let f := withId f (Some (makeId (madeIds s))) in
      let s := PosixState (files s) (S (madeIds s)) in
      dir ← sprintfFragmentDir tgt f;
      let '(ret, fs) := if fs_stat dir (files s) then (Created, files s) else mkdir_recursive dir (files s) in
      let s := PosixState fs (madeIds s) in
      if match ret with CreateError => true | _ => false end then mret (ESDM_ERROR, f, ""%string, s)
      else
        path ← sprintfFragmentPath tgt f;
        let '(fd, fs) := fs_create path (files s) in
        let s := PosixState fs (madeIds s) in
        match fd with
        | Created => mret (ESDM_SUCCESS, f, path, s)
        | AlreadyExists => create_posix_id fuel' tgt f s
        | CreateError => mret (ESDM_ERROR, f, ""%string, s)
        end
  end.

Definition fragment_update (k : nat) (f : esdm_fragment_t) (h : heap) (s : posix_state)
    : outcome (esdm_status * esdm_fragment_t * heap * posix_state) :=
  '(ret, buff, buff_size, h) ← estream_mem_pack_fragment floatCast junk f None h;
  if decide (ret = ESDM_SUCCESS) then
    p ← deref buff;
    m ← view p h;
    let data := read_bytes m 0 buff_size in
    '(ret, f, s) ← match id f with
      | Some _ =>
          path ← sprintfFragmentPath (target k) f;
          '(ret, s) ← entry_update path data true s;
          mret (ret, f, s)
      | None =>
          '(ret, f, path, s) ← create_posix_id (S (length (fs_names (files s)))) (target k) f s;
          if decide (ret = ESDM_SUCCESS) then
            '(ok, fs) ← ea_write_check path data (files s);
            mret (if ok : bool then ESDM_SUCCESS else ESDM_ERROR, f, PosixState fs (madeIds s))
          else mret (ret, f, s)
      end;
    h ← if decide (buff <> buf f) then free buff h else mret h;
    mret (ret, f, h, s)
  else mret (ret, f, h, s).

#[local] Instance posix_backend : DataBackend posix_state := {
  esdmI_backend_fragment_retrieve := fragment_retrieve;
  esdmI_backend_fragment_update := fragment_update;
  esdmI_backend_fragment_delete := fragment_delete
}.

End Posix.

(** * What the operating system promises *)

(** The name of an entry of a directory. *)
Definition fileName (n : string) : Prop := no_slash n = true /\ n <> ""%string /\ n <> "."%string /\ n <> ".."%string.

(** Different path strings can name the same file.  [proper] holds of the paths in a normal form,
    one for each file: relative to the working directory or absolute, without empty components,
    without [.] and [..], and without symbolic links.  [fs_files] and [fs_names] list the files
    with these paths, and the laws are about calls with such paths. *)
Class FileSystemLaws (FS : Type) `{FileSystem FS} := {
  (** The content of the regular files. *)
  fs_files : FS -> string -> option (list Z);
  proper : string -> Prop;
  proper_child d n : proper d -> fileName n -> proper (d ++ "/" ++ n)%string;
  proper_prefix p x : proper (p ++ "/" ++ x)%string -> (1 < String.length p)%nat -> proper p;
  mkdir_law p fs r fs' : fs_mkdir p fs = (r, fs') -> proper p ->
    (forall q, fs_files fs' q = fs_files fs q) /\ (forall n, n ∈ fs_names fs' -> n = p \/ n ∈ fs_names fs) /\
    (fs_interrupts fs' <= fs_interrupts fs)%nat;
  create_law p fs r fs' : fs_create p fs = (r, fs') -> proper p ->
    (forall q, q <> p \/ r <> Created -> fs_files fs' q = fs_files fs q) /\
    (r = Created -> fs_files fs p = None /\ fs_files fs' p = Some []) /\
    (r = AlreadyExists -> p ∈ fs_names fs /\ forall n, n ∈ fs_names fs' -> n ∈ fs_names fs) /\
    (fs_interrupts fs' <= fs_interrupts fs)%nat;
  truncate_law p fs r fs' : fs_truncate p fs = (r, fs') -> proper p ->
    (forall q, q <> p \/ r = false -> fs_files fs' q = fs_files fs q) /\ (r = true -> fs_files fs' p = Some []);
  write_law p data fs old r fs' : fs_write p data fs = (r, fs') -> proper p -> fs_files fs p = Some old -> data <> [] ->
    (forall q, q <> p -> fs_files fs' q = fs_files fs q) /\ (fs_interrupts fs' <= fs_interrupts fs)%nat /\
    match r with
    | IoDone n => 0 < n <= Z.of_nat (length data) /\ fs_files fs' p = Some (old ++ take (Z.to_nat n) data)
    | IoInterrupted => fs_files fs' p = Some old /\ (fs_interrupts fs' < fs_interrupts fs)%nat
    | IoError => True
    end;
  read_law p pos len fs file r fs' : fs_read p pos len fs = (r, fs') -> proper p -> fs_files fs p = Some file ->
    0 <= pos <= Z.of_nat (length file) -> 0 < len ->
    (forall q, fs_files fs' q = fs_files fs q) /\ (fs_interrupts fs' <= fs_interrupts fs)%nat /\
    match r with
    | IoDone data => data = take (length data) (drop (Z.to_nat pos) file) /\ Z.of_nat (length data) <= len /\
                     (data = [] -> pos = Z.of_nat (length file))
    | IoInterrupted => (fs_interrupts fs' < fs_interrupts fs)%nat
    | IoError => True
    end;
  unlink_law p fs r fs' : fs_unlink p fs = (r, fs') -> proper p ->
    (forall q, q <> p \/ r = false -> fs_files fs' q = fs_files fs q) /\ (r = true -> fs_files fs' p = None);
  rmdir_law p fs r fs' : fs_rmdir p fs = (r, fs') -> proper p -> forall q, fs_files fs' q = fs_files fs q
}.

(** A file system has room for [fs_capacity] names. *)
Class BoundedNames (FS : Type) `{FileSystem FS} := {
  fs_capacity : nat;
  names_capacity fs : (length (fs_names fs) <= fs_capacity)%nat
}.

(** [read()] and [write()] on an open file fail with [EINTR] only. *)
Class IoWorks (FS : Type) `{FileSystemLaws FS} : Prop := {
  write_works p data fs : is_Some (fs_files fs p) -> (fs_write p data fs).1 <> IoError;
  read_works p pos len fs : is_Some (fs_files fs p) -> (fs_read p pos len fs).1 <> IoError
}.

Lemma sprintf_path_ok (text : string) : Z.of_nat (String.length text) < PATH_MAX -> sprintf_path text = Done text.
Proof. intros Hlen. unfold sprintf_path. apply Z.ltb_lt in Hlen as ->. done. Qed.

Lemma prefix_all (n : nat) (s : string) : (String.length s <= n)%nat -> String.substring 0 n s = s.
Proof. revert n. induction s as [| c s IH]; intros [| n] Hl; simpl in *; [done | done | lia |]. f_equal. apply IH. lia. Qed.

Lemma prefix_cut (k : nat) (s : string) (c : ascii) : String.get k s = Some c -> 
  exists x, s = (String.substring 0 k s ++ String c x)%string /\ String.length (String.substring 0 k s) = k.
Proof.
  revert s. induction k as [| k IH]; intros [| d s] Hg; simpl in Hg; try done; [injection Hg as ->; by exists s |].
  destruct (IH s Hg) as (x & E & El). exists x. simpl. rewrite El. split; [by rewrite E at 1 | done].
Qed.

Section Helpers.

Context {FS : Type} `{FileSystemLaws FS}.

Lemma write_loop_ok (fuel : nat) (p : string) (data old : list Z) (fs : FS) :
  proper p -> fs_files fs p = Some old -> (length data + fs_interrupts fs <= fuel)%nat ->
  completes (IoWorks FS) (write_loop fuel p data fs) (fun '(ok, fs') =>
    ok = true /\ (forall q, q <> p -> fs_files fs' q = fs_files fs q) /\ fs_files fs' p = Some (old ++ data)).
Proof.
  intros Hpr. revert data old fs. induction fuel as [| fuel IH]; intros data old fs Hp Hfuel.
  { destruct data; [| simpl in Hfuel; lia]. apply completes_done. by rewrite app_nil_r. }
  destruct data as [| x data]; [apply completes_done; by rewrite app_nil_r |].
  cbn [write_loop]. destruct (fs_write p (x :: data) fs) as [r fs1] eqn:E.
  destruct (write_law _ _ _ _ _ _ E Hpr Hp) as (Hoth & Hint & Hr); [done |]. destruct r as [n | |].
  - destruct Hr as [Hn Hfile]. eapply completes_mono.
    { apply (IH (drop (Z.to_nat n) (x :: data)) (old ++ take (Z.to_nat n) (x :: data)) fs1); [done | rewrite length_drop; simpl in *; lia]. }
    intros [ok fs2] (-> & Hoth2 & Hdata). split; [done |]. split; [intros q Hq; by rewrite Hoth2, Hoth |].
    by rewrite Hdata, <- app_assoc, take_drop.
  - destruct Hr as [Hsame Hlt]. eapply completes_mono; [apply (IH (x :: data) old fs1); [done | lia] |].
    intros [ok fs2] (-> & Hoth2 & Hdata). split; [done |]. split; [intros q Hq; by rewrite Hoth2, Hoth | done].
  - left. split; [done |]. intros W. apply (write_works p (x :: data) fs); [by eexists | by rewrite E].
Qed.

Lemma write_check_ok (p : string) (data old : list Z) (fs : FS) :
  proper p -> fs_files fs p = Some old ->
  completes (IoWorks FS) (ea_write_check p data fs) (fun '(ok, fs') =>
    ok = true /\ (forall q, q <> p -> fs_files fs' q = fs_files fs q) /\ fs_files fs' p = Some (old ++ data)).
Proof. intros Hpr Hp. unfold ea_write_check. by apply write_loop_ok. Qed.

Lemma read_loop_ok (fuel : nat) (p : string) (len : Z) (got file : list Z) (fs : FS) :
  proper p -> fs_files fs p = Some file -> got = take (length got) file -> 0 <= len ->
  Z.of_nat (length got) + len <= Z.of_nat (length file) -> (Z.to_nat len + fs_interrupts fs <= fuel)%nat ->
  completes (IoWorks FS) (read_loop fuel p len got fs) (fun '(ok, data, fs') =>
    ok = true /\ (forall q, fs_files fs' q = fs_files fs q) /\
    data = take (length data) file /\ Z.of_nat (length data) = Z.of_nat (length got) + len).
Proof.
  intros Hpr. revert len got fs. induction fuel as [| fuel IH]; intros len got fs Hp Hgot Hlen Hfile Hfuel; cbn [read_loop];
    destruct (Z.leb_spec len 0); try lia; try (apply completes_done; repeat (split; [done || lia |]); lia).
  destruct (fs_read p (Z.of_nat (length got)) len fs) as [r fs1] eqn:E.
  destruct (read_law _ _ _ _ _ _ _ E Hpr Hp) as (Hsame & Hint & Hr); [lia | lia |]. destruct r as [data | |].
  - destruct Hr as (Hdata & Hl & Hnil). destruct data as [| x data]; [specialize (Hnil eq_refl); lia |].
    rewrite Nat2Z.id in Hdata. set (new := x :: data) in *.
    eapply completes_mono; [apply (IH (len - Z.of_nat (length new)) (got ++ new) fs1) |].
    + by rewrite Hsame.
    + rewrite length_app, <- take_take_drop, <- Hgot. f_equal. exact Hdata.
    + lia.
    + rewrite length_app. lia.
    + subst new. simpl length in *. lia.
    + intros [[ok res] fs2] (-> & Hsame2 & Hres & Hle). split; [done |]. split; [intros q; by rewrite Hsame2, Hsame |]. split; [done |].
      rewrite length_app in Hle. lia.
  - eapply completes_mono; [apply (IH len got fs1); [by rewrite Hsame | done | done | done | lia] |].
    intros [[ok res] fs2] (-> & Hsame2 & Hres). split; [done |]. split; [intros q; by rewrite Hsame2, Hsame | done].
  - left. split; [done |]. intros W. apply (read_works p (Z.of_nat (length got)) len fs); [by eexists | by rewrite E].
Qed.

Lemma length_prefix (n : nat) (s : string) : (String.length (String.substring 0 n s) <= String.length s)%nat.
Proof. revert n. induction s as [| c s IH]; intros [| n]; simpl; [lia | lia | lia |]. specialize (IH n). lia. Qed.

Lemma mkdir_loop_ok (n k : nat) (tmp : string) (fs fs' : FS) (r : create_result) :
  mkdir_loop n k tmp fs = (r, fs') -> proper tmp ->
  (forall q, fs_files fs' q = fs_files fs q) /\
  (forall nm, nm ∈ fs_names fs' -> nm ∈ fs_names fs \/ (String.length nm <= String.length tmp)%nat) /\
  (fs_interrupts fs' <= fs_interrupts fs)%nat.
Proof.
  intros E Hpr. revert k fs E. induction n as [| n IH]; intros k fs E; cbn [mkdir_loop] in E.
  { apply mkdir_law in E as (Hsame & Hn & Hi); [| done]. split; [done |]. split; [| done].
    intros nm Hnm. destruct (Hn nm Hnm) as [-> | ?]; [by right | by left]. }
  apply IH in E as (Hsame & Hn & Hi). case_decide as Hk; [| done]. destruct Hk as [Hk H1].
  destruct (prefix_cut _ _ _ Hk) as (x & Ex & El).
  destruct (fs_mkdir (String.substring 0 k tmp) fs) as [r1 fs1] eqn:E1. apply mkdir_law in E1 as (Hsame1 & Hn1 & Hi1).
  2: { apply (proper_prefix _ x); [change ("/" ++ x)%string with (String "/" x); by rewrite <- Ex | lia]. }
  simpl in *. split; [intros q; by rewrite Hsame, Hsame1 |]. split; [| lia]. intros nm Hnm. destruct (Hn nm Hnm) as [Hnm1 | ?]; [| by right].
  destruct (Hn1 nm Hnm1) as [-> | ?]; [right; apply length_prefix | by left].
Qed.

(** A path that is no longer than the array and does not end with a slash is taken as it is. *)
Definition directoryPath (path : string) : Prop :=
  Z.of_nat (String.length path) < PATH_MAX /\ String.get (String.length path - 1) path <> Some "/"%char.

Lemma mkdir_recursive_loop (path : string) (fs : FS) :
  directoryPath path -> mkdir_recursive path fs = mkdir_loop (String.length path - 1) 1 path fs.
Proof. intros [Hl Hs]. unfold mkdir_recursive. rewrite (prefix_all _ path) by lia. by rewrite decide_False. Qed.

Lemma mkdir_recursive_ok (path : string) (fs fs' : FS) (r : create_result) :
  mkdir_recursive path fs = (r, fs') -> proper path -> directoryPath path ->
  (forall q, fs_files fs' q = fs_files fs q) /\
  (forall nm, nm ∈ fs_names fs' -> nm ∈ fs_names fs \/ (String.length nm <= String.length path)%nat) /\
  (fs_interrupts fs' <= fs_interrupts fs)%nat.
Proof. intros E Hpr Hd. rewrite mkdir_recursive_loop in E by done. by apply mkdir_loop_ok in E. Qed.

End Helpers.

(** * Paths *)

Lemma no_slash_cut (a b x y : string) :
  no_slash a = true -> no_slash b = true -> (a ++ String "/" x)%string = (b ++ String "/" y)%string -> a = b /\ x = y.
Proof.
  revert b. induction a as [| c a IH]; intros [| d b] Ha Hb E; simpl in *.
  - by injection E.
  - injection E as <- _. done.
  - injection E as -> _. done.
  - injection E as -> E. apply andb_true_iff in Ha as [_ Ha]. apply andb_true_iff in Hb as [_ Hb].
    by destruct (IH b Ha Hb E) as [-> ->].
Qed.

Lemma string_app_inj (a x y : string) : (a ++ x)%string = (a ++ y)%string -> x = y.
Proof. induction a as [| c a IH]; simpl; [done |]. intros [= E]. by apply IH. Qed.

Lemma length_string_app (a b : string) : String.length (a ++ b) = (String.length a + String.length b)%nat.
Proof. induction a as [| c a IH]; simpl; [done |]. by rewrite IH. Qed.

(** The path of an id below a target. *)
Definition pathOf (tgt ds i : string) : string :=
  match ds, i with
  | String d0 (String d1 dataset), String i0 (String i1 i) =>
      (tgt ++ "/" ++ String d0 ("/" ++ String d1 ("/" ++ dataset ++ "/" ++ String i0 ("/" ++ String i1 ("/" ++ i)))))%string
  | _, _ => tgt
  end.

Lemma no_dot_fileName (n : string) : no_slash n = true -> no_dot n = true -> n <> ""%string -> fileName n.
Proof. intros Hs Hd Hn. split; [done |]. split; [done |]. by split; intros ->. Qed.

(** The components of the path of an id are names of directory entries. *)
Lemma valid_id_cons (s : string) : valid_id s ->
  exists c0 c1 s', s = String c0 (String c1 s') /\ fileName (String c0 "") /\ fileName (String c1 "") /\ fileName s' /\ (String.length s' <= 253)%nat.
Proof.
  intros ([Hl Hl'] & Hn & Hd). destruct s as [| c0 [| c1 s']]; simpl in *; try lia. exists c0, c1, s'.
  rewrite !andb_true_iff in Hn, Hd. destruct Hn as (H0 & H1 & Hn), Hd as (H0' & H1' & Hd). split; [done |].
  split; [apply no_dot_fileName; simpl; by rewrite ?H0, ?H0' |]. split; [apply no_dot_fileName; simpl; by rewrite ?H1, ?H1' |].
  split; [| lia]. apply no_dot_fileName; [done | done |]. intros ->. simpl in *. lia.
Qed.

Lemma last_no_slash (s : string) : no_slash s = true -> forall k, String.get k s <> Some "/"%char.
Proof.
  induction s as [| c s IH]; intros Hs k; [by destruct k |]. simpl in Hs. apply andb_true_iff in Hs as [Hc Hs].
  destruct k as [| k]; simpl; [| by apply IH]. intros [= ->]. done.
Qed.

Lemma get_app (a b : string) (k : nat) : String.get (String.length a + k) (a ++ b) = String.get k b.
Proof. induction a as [| c a IH]; simpl; [done | exact IH]. Qed.

(** The last component of a directory is a name. *)
Lemma directoryPath_child (d n : string) :
  fileName n -> Z.of_nat (String.length (d ++ "/" ++ n)) < PATH_MAX -> directoryPath (d ++ "/" ++ n).
Proof.
  intros (Hn & Hne & _) Hl. split; [done |]. rewrite <- string_app_assoc. rewrite length_string_app.
  destruct n as [| c n]; [done |]. change (String.length (String c n)) with (S (String.length n)).
  replace (String.length (d ++ "/") + S (String.length n) - 1)%nat with (String.length (d ++ "/") + String.length n)%nat by lia.
  rewrite get_app. by apply last_no_slash.
Qed.

Lemma pathOf_inj (tgt ds ds' i i' : string) :
  valid_id ds -> valid_id ds' -> valid_id i -> valid_id i' -> pathOf tgt ds i = pathOf tgt ds' i' -> ds = ds' /\ i = i'.
Proof.
  intros (d0 & d1 & d & -> & _ & _ & [Hd _] & _)%valid_id_cons (d0' & d1' & d' & -> & _ & _ & [Hd' _] & _)%valid_id_cons
    (i0 & i1 & j & -> & _)%valid_id_cons (i0' & i1' & j' & -> & _)%valid_id_cons E.
  cbn [pathOf] in E. apply string_app_inj in E. injection E as -> -> E.
  simpl in E. apply no_slash_cut in E as [-> E]; [| done | done]. simpl in E. injection E as -> -> E. by apply (string_app_inj "") in E as ->.
Qed.

(** The directory of an id below a target. *)
Definition dirOf (tgt ds i : string) : string :=
  match ds, i with
  | String d0 (String d1 dataset), String i0 (String i1 _) =>
      (tgt ++ "/" ++ String d0 ("/" ++ String d1 ("/" ++ dataset ++ "/" ++ String i0 ("/" ++ String i1 ""))))%string
  | _, _ => tgt
  end.

(** All directories of a dataset have names of the same length. *)
Definition dirLength (tgt ds : string) : nat := String.length tgt + String.length ds + 7.

Lemma path_lengths (tgt ds i : string) : valid_id ds -> valid_id i ->
  String.length (dirOf tgt ds i) = dirLength tgt ds /\ String.length (pathOf tgt ds i) = (dirLength tgt ds + String.length i - 1)%nat /\
  (dirLength tgt ds < String.length (pathOf tgt ds i))%nat.
Proof.
  intros (d0 & d1 & d & -> & _)%valid_id_cons (i0 & i1 & j & -> & _)%valid_id_cons. unfold dirLength. cbn [dirOf pathOf].
  repeat (rewrite length_string_app || simpl). lia.
Qed.

Lemma path_ok (tgt : string) (f : esdm_fragment_t) (i : string) :
  valid_id (datasetId f) -> valid_id i -> id f = Some i -> Z.of_nat (String.length tgt) + 520 < PATH_MAX ->
  sprintfFragmentPath tgt f = Done (pathOf tgt (datasetId f) i) /\ sprintfFragmentDir tgt f = Done (dirOf tgt (datasetId f) i).
Proof.
  intros Hd Hi Ei Hl. destruct (path_lengths tgt _ _ Hd Hi) as (Hl1 & Hl2 & Hl3). unfold dirLength in *.
  pose proof Hd as ([_ Hdl] & _). pose proof Hi as ([_ Hil] & _). unfold sprintfFragmentPath, sprintfFragmentDir. rewrite Ei.
  destruct (valid_id_cons _ Hd) as (d0 & d1 & d & Ed & _). destruct (valid_id_cons _ Hi) as (i0 & i1 & j & Ej & _).
  rewrite Ed, Ej in *. cbn [pathOf dirOf] in *. rewrite !sprintf_path_ok by lia. done.
Qed.

Lemma proper_paths {FS : Type} `{FileSystemLaws FS} (tgt ds i : string) :
  valid_id ds -> valid_id i -> proper tgt -> Z.of_nat (String.length tgt) + 520 < PATH_MAX ->
  proper (pathOf tgt ds i) /\ proper (dirOf tgt ds i) /\ directoryPath (dirOf tgt ds i).
Proof.
  intros Hds Hi Hp Hl. destruct (path_lengths tgt _ _ Hds Hi) as (Hl1 & Hl2 & Hl3). unfold dirLength in Hl1.
  pose proof Hds as ([_ Hdl] & _). revert Hl1. clear Hl2 Hl3.
  apply valid_id_cons in Hds as (d0 & d1 & d & -> & Hc0 & Hc1 & Hc2 & _). apply valid_id_cons in Hi as (i0 & i1 & j & -> & Hc3 & Hc4 & Hc5 & _).
  pose proof (proper_child _ _ (proper_child _ _ (proper_child _ _ Hp Hc0) Hc1) Hc2) as Hp1.
  pose proof (proper_child _ _ Hp1 Hc3) as Hp2.
  assert (Edir : dirOf tgt (String d0 (String d1 d)) (String i0 (String i1 j)) =
    (((((tgt ++ "/" ++ String d0 "") ++ "/" ++ String d1 "") ++ "/" ++ d) ++ "/" ++ String i0 "") ++ "/" ++ String i1 "")%string).
  { by rewrite !string_app_assoc. }
  assert (Epath : pathOf tgt (String d0 (String d1 d)) (String i0 (String i1 j)) = (dirOf tgt (String d0 (String d1 d)) (String i0 (String i1 j)) ++ "/" ++ j)%string).
  { rewrite Edir. by rewrite !string_app_assoc. }
  rewrite Epath, Edir. intros Hl1. split; [by repeat apply proper_child |]. split; [by apply proper_child |].
  apply directoryPath_child; [done |]. simpl String.length in Hl1, Hdl. lia.
Qed.

(** * The backend keeps its promises *)

(** The configuration of the backends and the ids.  No target directory lies below another one, and
    the paths of the fragments fit into the arrays for them.  [ea_make_id()] is random; an id does
    not come again within [fs_capacity] further calls, so that it ends up with a name that is free. *)
Record posix_setup (FS : Type) `{FileSystemLaws FS} `{!BoundedNames FS} (target : nat -> string) (makeId : nat -> string) : Prop := {
  ps_apart k k' x y : valid_backend k -> valid_backend k' -> (target k ++ "/" ++ x)%string = (target k' ++ "/" ++ y)%string -> k = k';
  ps_proper k : valid_backend k -> proper (target k);
  ps_length k : valid_backend k -> Z.of_nat (String.length (target k)) + 520 < PATH_MAX;
  ps_ids n : valid_id (makeId n);
  ps_distinct m n : (m < n <= m + fs_capacity)%nat -> makeId m <> makeId n
}.
Arguments ps_apart {FS _ _ _ target makeId}.
Arguments ps_proper {FS _ _ _ target makeId}.
Arguments ps_length {FS _ _ _ target makeId}.
Arguments ps_ids {FS _ _ _ target makeId}.
Arguments ps_distinct {FS _ _ _ target makeId}.

Section Laws.

Context {FS : Type} `{FileSystemLaws FS} `{!BoundedNames FS}.
Context (floatCast : esdm_type_t -> esdm_type_t -> list Z -> list Z) (junk : mem).
Context (Hcast : forall d s bytes, 0 <= esdm_sizeof d -> Z.of_nat (length (floatCast d s bytes)) = esdm_sizeof d).
Context (target : nat -> string) (makeId : nat -> string).
Context (Hsetup : posix_setup FS target makeId).

Abbreviation posix_state := (posix_state (FS := FS)).

Definition posix_stored (s : posix_state) (key : storageKey) : option (list Z) :=
  let '(k, ds, i) := key in
  if decide (valid_backend k /\ valid_id ds /\ valid_id i) then fs_files (files s) (pathOf (target k) ds i) else None.

Lemma pathOf_target (tgt ds i : string) : valid_id ds -> valid_id i -> exists x, pathOf tgt ds i = (tgt ++ "/" ++ x)%string.
Proof. intros (d0 & d1 & d & -> & _)%valid_id_cons (i0 & i1 & j & -> & _)%valid_id_cons. cbn [pathOf]. eauto. Qed.

Lemma key_path_inj (k k' : nat) (ds ds' i i' : string) :
  valid_backend k -> valid_backend k' -> valid_id ds -> valid_id ds' -> valid_id i -> valid_id i' ->
  pathOf (target k) ds i = pathOf (target k') ds' i' -> (k, ds, i) = (k', ds', i').
Proof.
  intros Hk Hk' H1 H2 H3 H4 E. destruct (pathOf_target (target k) ds i H1 H3) as [x Ex], (pathOf_target (target k') ds' i' H2 H4) as [y Ey].
  assert (k = k') as ->. { apply (ps_apart Hsetup k k' x y Hk Hk'). by rewrite <- Ex, <- Ey. }
  by destruct (pathOf_inj (target k') ds ds' i i' H1 H2 H3 H4 E) as [-> ->].
Qed.

(** Changes of one file are changes of one entry. *)
Lemma stored_others (s s' : posix_state) (k : nat) (ds i : string) (key : storageKey) :
  valid_backend k -> valid_id ds -> valid_id i -> (forall q, q <> pathOf (target k) ds i -> fs_files (files s') q = fs_files (files s) q) ->
  key <> (k, ds, i) -> posix_stored s' key = posix_stored s key.
Proof.
  intros Hk Hds Hi Hq Hne. destruct key as [[k' ds'] i']. unfold posix_stored. case_decide as Hv; [| done]. destruct Hv as (Hv1 & Hv2 & Hv3).
  apply Hq. intros E. apply Hne. by apply key_path_inj.
Qed.

Lemma stored_same (s s' : posix_state) (key : storageKey) :
  (forall q, fs_files (files s') q = fs_files (files s) q) -> posix_stored s' key = posix_stored s key.
Proof. intros Hq. destruct key as [[k ds] i]. unfold posix_stored. case_decide; [apply Hq | done]. Qed.

Lemma stored_path (s : posix_state) (k : nat) (ds i : string) :
  valid_backend k -> valid_id ds -> valid_id i -> posix_stored s (k, ds, i) = fs_files (files s) (pathOf (target k) ds i).
Proof. intros Hk Hd Hi. unfold posix_stored. by rewrite decide_True. Qed.

(** The paths of a fragment of a backend. *)
Lemma fragment_paths (k : nat) (f : esdm_fragment_t) (i : string) :
  valid_backend k -> valid_id (datasetId f) -> valid_id i -> id f = Some i ->
  sprintfFragmentPath (target k) f = Done (pathOf (target k) (datasetId f) i) /\
  sprintfFragmentDir (target k) f = Done (dirOf (target k) (datasetId f) i) /\
  proper (pathOf (target k) (datasetId f) i) /\ proper (dirOf (target k) (datasetId f) i) /\ directoryPath (dirOf (target k) (datasetId f) i).
Proof.
  intros Hk Hd Hi Ei. pose proof (ps_length Hsetup k Hk). destruct (path_ok (target k) f i) as [-> ->]; try done.
  split; [done |]. split; [done |]. apply proper_paths; try done. by apply (ps_proper Hsetup).
Qed.

Section Create.

Context (k : nat) (Hk : valid_backend k) (f : esdm_fragment_t) (Hds : valid_id (datasetId f)) (names0 : list string) (n0 : nat).

Definition candidate (n : nat) : string := pathOf (target k) (datasetId f) (makeId n).

(** Every rejected candidate is one of the names that existed at the start, so the loop ends. *)
Lemma create_posix_id_ok (fuel : nat) (g : esdm_fragment_t) (tried : list string) (s : posix_state) :
  (length names0 <= fs_capacity)%nat -> withId g None = withId f None -> NoDup tried -> tried ⊆ names0 ->
  madeIds s = (n0 + length tried)%nat -> (forall q, q ∈ tried -> exists n, (n0 <= n < madeIds s)%nat /\ q = candidate n) ->
  (forall nm, nm ∈ fs_names (files s) -> nm ∈ names0 \/ (String.length nm <= dirLength (target k) (datasetId f))%nat) ->
  (length names0 < length tried + fuel)%nat ->
  exists st n path s', create_posix_id makeId fuel (target k) g s = Done (st, withId f (Some (makeId n)), path, s') /\
  (forall q, q <> candidate n \/ st <> ESDM_SUCCESS -> fs_files (files s') q = fs_files (files s) q) /\
  (st = ESDM_SUCCESS -> path = candidate n /\ proper path /\ fs_files (files s) path = None /\ fs_files (files s') path = Some []).
Proof.
  clear Hcast. intros Hcap. revert g tried s. induction fuel as [| fuel IH]; intros g tried s Hg Hnd Hsub Hmade Htr Hnames Hlen.
  { pose proof (submseteq_length tried names0 (NoDup_submseteq _ _ Hnd Hsub)). lia. }
  pose proof (submseteq_length tried names0 (NoDup_submseteq _ _ Hnd Hsub)) as Htl.
  cbn [create_posix_id]. set (n := madeIds s) in *.
  assert (Hf1 : withId g (Some (makeId n)) = withId f (Some (makeId n)))
    by (change (withId g (Some (makeId n))) with (withId (withId g None) (Some (makeId n))); by rewrite Hg).
  pose proof (ps_ids Hsetup n) as Hv. rewrite Hf1.
  destruct (fragment_paths k (withId f (Some (makeId n))) (makeId n)) as (-> & -> & Hp & Hpd & Hdp); [done | done | done | done |].
  destruct (path_lengths (target k) (datasetId f) (makeId n)) as (Hdir & _ & Hpath); [done | done |].
  cbn [withId datasetId] in Hp, Hpd, Hdp |- *. fold (candidate n) in Hp, Hpath |- *.
  run. cbn [files madeIds]. set (dir := dirOf (target k) (datasetId f) (makeId n)) in *.
  destruct (if fs_stat dir (files s) then (Created, files s) else mkdir_recursive dir (files s)) as [ret fs1] eqn:E1.
  assert (H1 : (forall q, fs_files fs1 q = fs_files (files s) q) /\
               (forall nm, nm ∈ fs_names fs1 -> nm ∈ fs_names (files s) \/ (String.length nm <= String.length dir)%nat)).
  { destruct (fs_stat dir (files s)); [injection E1 as <- <-; split; [done | by left] |].
    apply mkdir_recursive_ok in E1 as (Hs & Hn & _); done. }
  destruct H1 as [Hs1 Hn1]. cbn [files madeIds]. destruct (match ret with CreateError => true | _ => false end).
  { eexists ESDM_ERROR, n, _, _. split; [reflexivity |]. cbn [files]. split; [intros q _; apply Hs1 | done]. }
  run. destruct (fs_create (candidate n) fs1) as [fd fs2] eqn:E2. apply create_law in E2 as (Hs2 & Hcr & Hex & _); [| done]. destruct fd; cbn [files madeIds].
  - destruct Hcr as [Hnone Hnew]; [done |]. eexists ESDM_SUCCESS, n, _, _. split; [reflexivity |]. cbn [files].
    split; [intros q [Hq |]; [rewrite Hs2 by (by left); apply Hs1 | done] |]. intros _. by rewrite <- Hs1.
  - destruct Hex as [Hin Hnm]; [done |].
    assert (Hin0 : candidate n ∈ names0).
    { destruct (Hn1 _ Hin) as [Hin1 | Hlt]; [| lia]. destruct (Hnames _ Hin1) as [| Hlt]; [done | lia]. }
    destruct (IH (withId f (Some (makeId n))) (candidate n :: tried) (PosixState fs2 (S n))) as (st & n' & path & s' & E & Hq & Hsucc).
    + by destruct f.
    + constructor; [| done]. intros Ht. destruct (Htr _ Ht) as (m & Hm & Em).
      apply pathOf_inj in Em as [_ Em]; [| done | done | done | apply (ps_ids Hsetup)].
      apply (ps_distinct Hsetup m n); [lia | done].
    + intros q [-> | Hq]%elem_of_cons; [done | by apply Hsub].
    + cbn [madeIds length]. lia.
    + cbn [madeIds]. intros q [-> | Ht]%elem_of_cons; [exists n; split; [lia | done] |].
      destruct (Htr q Ht) as (m & Hm & ->). exists m. split; [lia | done].
    + cbn [files]. intros nm Hnm2. apply Hnm, Hn1 in Hnm2 as [Hnm1 | Hle]; [by apply Hnames |]. right. lia.
    + simpl. lia.
    + cbn [files] in *. assert (Hs : forall q, fs_files fs2 q = fs_files (files s) q) by (intros q; rewrite Hs2 by (by right); apply Hs1).
      exists st, n', path, s'. split; [done |]. split; [intros q Hq'; by rewrite Hq, Hs |]. intros Hst. rewrite <- Hs. by apply Hsucc.
  - eexists ESDM_ERROR, n, _, _. split; [reflexivity |]. cbn [files]. split; [| done]. intros q _. rewrite Hs2 by (by right). apply Hs1.
Qed.

End Create.

(** The call of [create_posix_id()] by the backend. *)
Lemma create_id_ok (k : nat) (f : esdm_fragment_t) (s : posix_state) :
  valid_backend k -> valid_id (datasetId f) ->
  exists st n path s', create_posix_id makeId (S (length (fs_names (files s)))) (target k) f s = Done (st, withId f (Some (makeId n)), path, s') /\
  (forall q, q <> candidate k f n \/ st <> ESDM_SUCCESS -> fs_files (files s') q = fs_files (files s) q) /\
  (st = ESDM_SUCCESS -> path = candidate k f n /\ proper path /\ fs_files (files s) path = None /\ fs_files (files s') path = Some []).
Proof.
  clear Hcast. intros Hk Hds. apply (create_posix_id_ok k Hk f Hds (fs_names (files s)) (madeIds s) _ f [] s);
    [apply names_capacity | done | constructor | set_solver | simpl; lia | by intros q ?%elem_of_nil | by left | simpl; lia].
Qed.

(** The middle part of an update: store the packed data. *)
Lemma store_ok (k : nat) (f : esdm_fragment_t) (data : list Z) (s : posix_state) :
  valid_backend k -> valid_id (datasetId f) -> (forall i, id f = Some i -> valid_id i) ->
  completes (IoWorks FS) (match id f with
    | Some _ => path ← sprintfFragmentPath (target k) f; '(ret, s) ← entry_update path data true s; mret (ret, f, s)
    | None => '(ret, f, path, s) ← create_posix_id makeId (S (length (fs_names (files s)))) (target k) f s;
              if decide (ret = ESDM_SUCCESS) then
                '(ok, fs) ← ea_write_check path data (files s);
                mret (if ok : bool then ESDM_SUCCESS else ESDM_ERROR, f, PosixState fs (madeIds s))
              else mret (ret, f, s)
    end) (fun '(st, f', s') => exists i, f' = withId f (Some i) /\ valid_id i /\ (is_Some (id f) -> id f = Some i) /\
  (forall key, key <> (k, datasetId f, i) -> posix_stored s' key = posix_stored s key) /\
  (forall key file, id f = None -> posix_stored s key = Some file -> posix_stored s' key = Some file) /\
  (st = ESDM_SUCCESS -> (id f = None -> posix_stored s (k, datasetId f, i) = None) /\
                        posix_stored s' (k, datasetId f, i) = Some data)).
Proof.
  intros Hk Hds Hid. destruct (id f) as [i |] eqn:Eid.
  - specialize (Hid i eq_refl). destruct (fragment_paths k f i) as (-> & _ & Hp & _); [done | done | done | done |]. run. unfold entry_update.
    set (path := pathOf (target k) (datasetId f) i) in *. destruct (fs_truncate path (files s)) as [opened fs1] eqn:E1.
    apply truncate_law in E1 as [Hs1 Hnew]; [| done].
    assert (Hf : f = withId f (Some i)) by (destruct f; simpl in *; by subst).
    destruct opened.
    + destruct (write_check_ok path data [] fs1) as [[-> HW] | ([ok fs2] & -> & -> & Hs2 & Hd)]; [done | by apply Hnew | by left |].
      run. apply completes_done. exists i. split; [done |]. split; [done |]. split; [done |]. split; [| split; [done |]].
      * intros key Hne. apply (stored_others _ _ k (datasetId f) i); try done. cbn [files]. intros q Hq. rewrite Hs2 by done. apply Hs1. by left.
      * intros _. split; [done |]. rewrite stored_path by done. exact Hd.
    + run. apply completes_done. exists i. split; [done |]. split; [done |]. split; [done |]. split; [| done].
      intros key _. apply stored_same. cbn [files]. intros q. apply Hs1. by right.
  - destruct (create_id_ok k f s Hk Hds) as (st & n & path & s1 & -> & Hs1 & Hsucc). run. pose proof (ps_ids Hsetup n) as Hv. case_decide as Hst.
    + destruct (Hsucc Hst) as (-> & Hp & Hnone & Hempty).
      destruct (write_check_ok (candidate k f n) data [] (files s1)) as [[-> HW] | ([ok fs2] & -> & -> & Hs2 & Hd)]; [done | done | by left |].
      run. apply completes_done. exists (makeId n). split; [done |]. split; [done |]. split; [by intros [? [=]] |].
      assert (Hothers : forall key, key <> (k, datasetId f, makeId n) -> posix_stored (PosixState fs2 (madeIds s1)) key = posix_stored s key).
      { intros key Hne. apply (stored_others _ _ k (datasetId f) (makeId n)); try done. cbn [files]. intros q Hq.
        rewrite Hs2 by done. apply Hs1. by left. }
      split; [done |]. split.
      * intros key file _ Hkey. rewrite Hothers; [done |]. intros ->. rewrite stored_path in Hkey by done. fold (candidate k f n) in Hkey. by rewrite Hnone in Hkey.
      * intros _. rewrite !stored_path by done. split; [done |]. exact Hd.
    + assert (Hsame : forall key, posix_stored s1 key = posix_stored s key) by (intros key; apply stored_same; intros q; apply Hs1; by right).
      apply completes_done. exists (makeId n). split; [done |]. split; [done |]. split; [by intros [? [=]] |]. split; [done |]. split; [| done].
      intros key file _. by rewrite Hsame.
Qed.

Lemma posix_update_ok (f : esdm_fragment_t) (h : heap) (s : posix_state) (k : nat) (ptr : pointer) (m : mem) :
  fragment_ok f -> backend f = Some k -> buf f = Some ptr -> h !! ptr.1 = Some m ->
  completes (IoWorks FS) (fragment_update floatCast junk target makeId k f h s) (fun '(st, f', h', s') => updated posix_stored f h s ptr m st f' h' s').
Proof.
  intros Hok Ek Eb Em. pose proof Hok as [Hds Hid Hs Hbytes _ Hvb]. unfold fragment_update.
  destruct (pack_ok floatCast Hcast junk f h ptr m Hok Eb Em) as (out & mo & h1 & -> & Eo & Hfile & Hcase). run.
  rewrite decide_True by done. run. rewrite (view_ok _ _ _ Eo). run. set (data := read_bytes (seen out mo) 0 (bytes f)).
  assert (Hdata : data = read_bytes mo out.2 (bytes f)).
  { unfold data, seen. rewrite read_bytes_shift. by rewrite Z.add_0_r. }
  eapply completes_bind; [apply (store_ok k f data s (Hvb k Ek) Hds Hid) |].
  intros [[st f'] s'] (i & -> & Hv & Hsame & Hoth & Hkept & Hsucc).
  assert (Hrel : (if decide (Some out <> buf (withId f (Some i))) then free (Some out) h1 else mret h1) = Done h).
  { cbn [withId buf]. rewrite Eb. destruct Hcase as [[-> ->] | (Hz & Hnone & Hdel)]; [by rewrite decide_False by tauto |].
    rewrite decide_True by (intros [= ->]; by rewrite Hnone in Em). cbn [free]. rewrite decide_True by eauto. by rewrite Hdel. }
  rewrite Hrel. run. apply completes_done.
  assert (Hkey : keyOf (withId f (Some i)) = Some (k, datasetId f, i)) by (unfold keyOf; cbn [withId backend id]; by rewrite Ek).
  constructor; try done.
  - intros Hi. by rewrite (Hsame Hi).
  - by intros ? [= <-].
  - intros key. rewrite Hkey. intros Hne. apply Hoth. intros ->. by apply Hne.
  - intros key Hst Hn. rewrite Hkey. intros [= <-]. by apply Hsucc.
  - intros Hst. exists (k, datasetId f, i), data. split; [done |]. split; [by apply Hsucc |]. rewrite Hdata. split; [| done].
    rewrite length_read_bytes; [done |]. rewrite Hbytes. pose proof (ds_type _ Hs). pose proof (prod_pos _ (ds_size _ Hs)). nia.
Qed.

Lemma store_prefix (space : esdm_dataspace_t) (ptr : pointer) (m : mem) (data : list Z) (a : Z) :
  data_space space -> stride space = None -> Z.of_nat (length data) <= prod (size space) * esdm_sizeof (type space) ->
  ~ elementByte space (fun _ => True) a -> seen ptr (write_bytes m ptr.2 data) a = seen ptr m a.
Proof.
  intros Hs Hst Hl Ha. rewrite seen_write. case_decide; [| done]. destruct Ha. apply contiguous_bytes; (done || lia).
Qed.

(** Bytes in the read buffer disturb nothing but the elements. *)
Lemma param_frame (f : esdm_fragment_t) (h h1 : heap) (need : bool) (rb ptr : pointer) (m mr : mem) (data : list Z) :
  fragment_ok f -> buf f = Some ptr -> h !! ptr.1 = Some m -> Z.of_nat (length data) <= bytes f ->
  estream_mem_unpack_fragment_param junk f h = (need, Some rb, bytes f, h1) -> h1 !! rb.1 = Some mr ->
  let h2 := match data with [] => h1 | _ => <[rb.1 := write_bytes mr rb.2 data]> h1 end in
  delete ptr.1 h ⊆ h2 /\
  exists m2, h2 !! ptr.1 = Some m2 /\ forall a, ~ elementByte (dataspace f) (fun _ => True) a -> seen ptr m2 a = seen ptr m a.
Proof.
  intros [_ _ Hs Hbytes Hpl _] Eb Em Hl Ep Er h2. unfold estream_mem_unpack_fragment_param in Ep. rewrite Hpl, Z.eqb_refl in Ep. cbn [negb] in Ep.
  destruct (stride (dataspace f)) as [st |] eqn:Est.
  - pose proof (malloc_fresh junk h) as Hf. cbn [malloc fst] in Hf. cbn [malloc] in Ep. injection Ep as <- <- <-.
    assert (Hne : fresh (dom h) <> ptr.1) by (intros E; by rewrite E, Em in Hf).
    assert (Hsub : h ⊆ h2).
    { subst h2. destruct data; [by apply insert_subseteq |]. cbn [fst]. rewrite insert_insert_eq. by apply insert_subseteq. }
    split; [by etrans; [apply delete_subseteq |] |]. exists m. split; [by eapply lookup_weaken | done].
  - rewrite Eb in Ep. injection Ep as <- <- <-. rewrite Em in Er. injection Er as <-. subst h2. destruct data as [| x data].
    + split; [apply delete_subseteq |]. by exists m.
    + split; [| exists (write_bytes m ptr.2 (x :: data)); rewrite lookup_insert_eq; split; [done |]].
      * apply map_subseteq_spec. intros b mb [Hne Hb]%lookup_delete_Some. by rewrite lookup_insert_ne.
      * intros a. apply store_prefix; (done || lia).
Qed.

Lemma posix_retrieve_ok (f : esdm_fragment_t) (h : heap) (s : posix_state) (k : nat) (ptr : pointer) (m : mem)
    (key : storageKey) (file : list Z) :
  fragment_ok f -> injective_layout (dataspace f) -> backend f = Some k -> buf f = Some ptr -> h !! ptr.1 = Some m ->
  keyOf f = Some key -> posix_stored s key = Some file -> Z.of_nat (length file) = bytes f ->
  completes (IoWorks FS) (fragment_retrieve floatCast junk target k f h s) (fun '(st, h', s') => retrieved posix_stored f h s ptr m file st h' s').
Proof.
  intros Hok Hinj Ek Eb Em Ekey Hst Hl. pose proof Hok as [Hds Hid Hs Hbytes _ Hvb].
  destruct (id f) as [i |] eqn:Eid; [| by unfold keyOf in Ekey; rewrite Ek, Eid in Ekey].
  unfold keyOf in Ekey. rewrite Ek, Eid in Ekey. injection Ekey as <-. specialize (Hid i eq_refl). specialize (Hvb k Ek). rewrite stored_path in Hst by done.
  unfold fragment_retrieve. destruct (fragment_paths k f i) as (-> & _ & Hp & _); [done | done | done | done |]. run. set (path := pathOf (target k) (datasetId f) i) in *.
  destruct (unpack_ok floatCast Hcast junk f h ptr m file Hok Hinj Eb Em Hl) as (need & rb & h1 & mr & m' & Ep & Er & Eun & Hin & Hout).
  rewrite Ep. pose proof (ds_type _ Hs) as Hsz. pose proof (prod_pos _ (ds_size _ Hs)) as Hprod.
  assert (Hdata : completes (IoWorks FS) (entry_retrieve path (bytes f) s) (fun '(ret, data, s') =>
    (forall q, fs_files (files s') q = fs_files (files s) q) /\ Z.of_nat (length data) <= bytes f /\
    (ret = ESDM_SUCCESS -> data = file))).
  { unfold entry_retrieve. destruct (fs_open path (files s)); [| apply completes_done; repeat split; simpl; (done || lia)].
    unfold ea_read_check. eapply completes_bind.
    { apply (read_loop_ok (Z.to_nat (bytes f) + fs_interrupts (files s)) path (bytes f) [] file (files s)); (done || simpl; lia). }
    intros [[ok data] fs'] (-> & Hsame & Hpre & Hle). apply completes_done. split; [done |]. simpl in Hle. split; [lia |].
    intros _. rewrite Hpre. apply take_ge. lia. }
  eapply completes_bind; [exact Hdata |]. clear Hdata. intros [[ret data] s'] (Hsame & Hle & Hfull). cbn beta iota.
  assert (Hstore : (match data with [] => mret h1 | _ => store rb data h1 end) =
                   Done (match data with [] => h1 | _ => <[rb.1 := write_bytes mr rb.2 data]> h1 end)).
  { destruct data; [done |]. unfold store. by rewrite Er. }
  run. rewrite Hstore. run. clear Hstore. case_decide as Hret.
  - rewrite (Hfull Hret) in *. destruct file as [| x file]; [simpl in Hl; nia |]. cbn zeta in Eun. right.
    exists (ESDM_SUCCESS, <[ptr.1 := m']> h, s'). split.
    + destruct need; run.
      * by rewrite Eun.
      * injection Eun as ->. by rewrite Hret.
    + constructor; [intros key; by apply stored_same | |].
      * apply map_subseteq_spec. intros b mb [Hne Hb]%lookup_delete_Some. by rewrite lookup_insert_ne.
      * exists m'. rewrite lookup_insert_eq. done.
  - assert (Hkeep : delete ptr.1 h ⊆ (match data with [] => h1 | _ => <[rb.1 := write_bytes mr rb.2 data]> h1 end) /\
      exists m2, (match data with [] => h1 | _ => <[rb.1 := write_bytes mr rb.2 data]> h1 end) !! ptr.1 = Some m2 /\
      forall a, ~ elementByte (dataspace f) (fun _ => True) a -> seen ptr m2 a = seen ptr m a).
    { by apply (param_frame f h h1 need rb). }
    destruct Hkeep as (Hk1 & m2 & Em2 & Hm2). apply completes_done.
    constructor; [intros key; by apply stored_same | done |]. exists m2. split; [done |]. split; [done |]. by intros ->.
Qed.

Lemma posix_delete_ok (f : esdm_fragment_t) (s : posix_state) (k : nat) (key : storageKey) :
  fragment_ok f -> backend f = Some k -> keyOf f = Some key ->
  exists st s', fragment_delete target k f s = Done (st, s') /\
  (forall key', key' <> key -> posix_stored s' key' = posix_stored s key') /\ (st = ESDM_SUCCESS -> posix_stored s' key = None).
Proof.
  intros [Hds Hid _ _ _ Hvb] Ek Ekey. unfold keyOf in Ekey. rewrite Ek in Ekey. unfold fragment_delete. specialize (Hvb k Ek).
  destruct (id f) as [i |] eqn:Eid; [| done]. injection Ekey as <-. specialize (Hid i eq_refl).
  destruct (fragment_paths k f i) as (-> & -> & Hp & Hpd & _); [done | done | done | done |]. run.
  destruct (fs_unlink (pathOf (target k) (datasetId f) i) (files s)) as [ok fs1] eqn:E1.
  apply unlink_law in E1 as [Hs1 Hgone]; [| done]. destruct ok.
  - run. destruct (fs_rmdir _ fs1) as [ok2 fs2] eqn:E2. pose proof (rmdir_law _ _ _ _ E2 Hpd) as Hs2. eexists _, _. split; [done |]. split.
    + intros key' Hne. apply (stored_others _ _ k (datasetId f) i); try done. cbn [files]. intros q Hq. rewrite Hs2. apply Hs1. by left.
    + intros _. rewrite stored_path by done. cbn [files]. rewrite Hs2. by apply Hgone.
  - eexists ESDM_ERROR, _. split; [done |]. split; [| done]. intros key' _. apply stored_same. cbn [files]. intros q. apply Hs1. by right.
Qed.

#[local] Instance posix_laws `{!IoWorks FS} : @DataBackendLaws posix_state (posix_backend floatCast junk target makeId).
Proof.
  unshelve refine {| backend_inv := fun _ => True; stored := posix_stored |}.
  - intros f h b k ptr m Hok Ek Eb Em _.
    destruct (completes_returns _ _ _ _ (posix_update_ok f h b k ptr m Hok Ek Eb Em)) as ([[[st f'] h'] b'] & E & Hu). by exists st, f', h', b'.
  - intros f h b k ptr m key file Hok Hinj Ek Eb Em Ekey Hst Hl _.
    destruct (completes_returns _ _ _ _ (posix_retrieve_ok f h b k ptr m key file Hok Hinj Ek Eb Em Ekey Hst Hl)) as ([[st h'] b'] & E & Hr).
    by exists st, h', b'.
  - intros f b k key Hok Ek Ekey _. destruct (posix_delete_ok f b k key Hok Ek Ekey) as (st & b' & E & Hd1 & Hd2).
    by exists st, b'.
Defined.


End Laws.

(** * A file system *)

(** Up to one hundred files in a finite map, below directories that always exist; no call is interrupted. *)
Module MapFS.

Abbreviation mapFS := (gmap string (list Z)).

Definition names (fs : mapFS) : list string := take 100 (map_to_list fs).*1.

#[global] Instance fileSystem : FileSystem mapFS := {
  fs_stat p fs := true;
  fs_mkdir p fs := (AlreadyExists, fs);
  fs_create p fs := if decide (p ∈ names fs) then (AlreadyExists, fs)
                    else match fs !! p with
                         | Some _ => (CreateError, fs)
                         | None => if decide (length (map_to_list fs) < 100)%nat then (Created, <[p := []]> fs) else (CreateError, fs)
                         end;
  fs_truncate p fs := match fs !! p with Some _ => (true, <[p := []]> fs) | None => (false, fs) end;
  fs_open p fs := bool_decide (is_Some (fs !! p));
  fs_write p data fs := match fs !! p with
                        | Some old => (IoDone (Z.of_nat (length data)), <[p := old ++ data]> fs)
                        | None => (IoError, fs)
                        end;
  fs_read p pos len fs := match fs !! p with
                          | Some file => (IoDone (take (Z.to_nat len) (drop (Z.to_nat pos) file)), fs)
                          | None => (IoError, fs)
                          end;
  fs_unlink p fs := match fs !! p with Some _ => (true, delete p fs) | None => (false, fs) end;
  fs_rmdir p fs := (true, fs);
  fs_interrupts fs := O;
  fs_names fs := names fs
}.

(** What a read of at most [len] bytes returns. *)
Lemma read_part (file : list Z) (pos len : Z) :
  0 <= pos <= Z.of_nat (length file) -> 0 < len ->
  let data := take (Z.to_nat len) (drop (Z.to_nat pos) file) in
  data = take (length data) (drop (Z.to_nat pos) file) /\ Z.of_nat (length data) <= len /\ (data = [] -> pos = Z.of_nat (length file)).
Proof.
  intros Hpos Hlen. set (d := drop (Z.to_nat pos) file). cbv zeta. rewrite length_take. split; [| split].
  - destruct (decide (Z.to_nat len <= length d)%nat); [by rewrite Nat.min_l |]. rewrite Nat.min_r by lia. by rewrite !take_ge by lia.
  - lia.
  - intros Hnil. apply (f_equal length) in Hnil. rewrite length_take in Hnil. unfold d in Hnil. rewrite length_drop in Hnil. simpl in Hnil. lia.
Qed.

#[global] Instance fileSystemLaws : FileSystemLaws mapFS.
Proof.
  unshelve refine {| fs_files := fun fs p => fs !! p; proper := fun _ => True |};
    cbn [fs_mkdir fs_create fs_truncate fs_write fs_read fs_unlink fs_rmdir fs_interrupts fs_names fileSystem].
  - done.
  - done.
  - intros p fs r fs' [= <- <-] _. repeat split; auto.
  - intros p fs r fs' E _. case_decide as Hin; [injection E as <- <-; by repeat split |].
    destruct (fs !! p) as [old |] eqn:Ep; [by injection E as <- <- |]. case_decide; injection E as <- <-; [| done].
    split; [intros q [Hq | ]; [by rewrite lookup_insert_ne | done] |]. split; [by rewrite lookup_insert_eq | done].
  - intros p fs r fs' E _. destruct (fs !! p) eqn:Ep; injection E as <- <-; [| done].
    split; [intros q [Hq |]; [by rewrite lookup_insert_ne | done] | by rewrite lookup_insert_eq].
  - intros p data fs old r fs' E _ Ep Hne. rewrite Ep in E. injection E as <- <-. split; [intros q Hq; by rewrite lookup_insert_ne |].
    split; [done |]. rewrite lookup_insert_eq, Nat2Z.id, firstn_all. split; [| done]. destruct data; [done | simpl; lia].
  - intros p pos len fs file r fs' E _ Ep Hpos Hlen. rewrite Ep in E. injection E as <- <-. split; [done |]. split; [done |].
    by apply read_part.
  - intros p fs r fs' E _. destruct (fs !! p) eqn:Ep; injection E as <- <-; [| done].
    split; [intros q [Hq |]; [by rewrite lookup_delete_ne | done] | by rewrite lookup_delete_eq].
  - by intros p fs r fs' [= <- <-].
Defined.

Lemma names_room (fs : mapFS) : (length (names fs) <= 100)%nat.
Proof. unfold names. rewrite length_take. lia. Qed.

#[global] Instance boundedNames : BoundedNames mapFS := {| fs_capacity := 100; names_capacity := names_room |}.

#[global] Instance ioWorks : IoWorks mapFS.
Proof.
  split; cbn [fs_write fs_read fs_files fileSystem fileSystemLaws]; [intros p data fs [? ->] | intros p pos len fs [? ->]]; done.
Qed.

(** Names for the examples. *)
Fixpoint unary (n : nat) : string := match n with O => EmptyString | S n' => String "a" (unary n') end.

Definition ids (n : nat) : string := String "i" (String "d" (String "_" (unary (n mod 200)))).
Definition targets (k : nat) : string := String "t" (unary k).

Lemma unary_inj (m n : nat) : unary m = unary n -> m = n.
Proof. revert n. induction m as [| m IH]; intros [| n] [=]; [done |]. f_equal. by apply IH. Qed.

Lemma unary_plain (n : nat) : no_slash (unary n) = true /\ no_dot (unary n) = true /\ String.length (unary n) = n.
Proof. induction n as [| n (IH1 & IH2 & IH3)]; [done |]. simpl. by rewrite IH3. Qed.

Lemma ids_valid (n : nat) : valid_id (ids n).
Proof.
  pose proof (Nat.mod_upper_bound n 200). unfold ids, valid_id. destruct (unary_plain (n mod 200)) as (E1 & E2 & E3).
  cbn [no_slash no_dot String.length]. rewrite E1, E2, E3. split; [lia | done].
Qed.

Lemma posixSetup : posix_setup mapFS targets ids.
Proof.
  constructor.
  - intros k k' x y _ _ E. apply (no_slash_cut (targets k) (targets k') x y) in E as [[= E] _]; [by apply unary_inj | apply unary_plain..].
  - done.
  - unfold valid_backend, targets, PATH_MAX. intros k Hk. destruct (unary_plain k) as (_ & _ & E). cbn [String.length]. rewrite E. lia.
  - apply ids_valid.
  - cbn [fs_capacity boundedNames]. intros m n Hmn E. assert (Emod : (m mod 200)%nat = (n mod 200)%nat) by (apply unary_inj; by injection E).
    assert (Hm : (m = 200 * (m / 200) + m mod 200)%nat) by (by apply Nat.div_mod).
    assert (Hn : (n = 200 * (n / 200) + n mod 200)%nat) by (by apply Nat.div_mod).
    revert Hm Hn Emod. generalize (m / 200)%nat (n / 200)%nat (m mod 200)%nat (n mod 200)%nat. lia.
Qed.

End MapFS.

(** A transposed block is written, and its fragment is retrieved in C order. *)
Definition writtenFragment : esdm_fragment_t :=
  Fragment None "dst" (Dataspace SMD_DTYPE_INT16 2 [2; 2] [0; 3] false (Some [1; 2])) (Some 0%nat) (Some (0%nat, 4)) 4 8
    SIZE_NONE ESDM_DATA_DIRTY false.

Definition readFragment : esdm_fragment_t :=
  Fragment (Some (MapFS.ids 0)) "dst" (Dataspace SMD_DTYPE_INT16 2 [2; 2] [0; 3] false None) (Some 0%nat) (Some (1%nat, 0)) 4 8
    SIZE_NONE ESDM_DATA_NOT_LOADED false.

Lemma writtenFragment_ok : fragment_ok writtenFragment.
Proof. constructor; [solve_id | done | solve_data_space | done | done | solve_backend]. Qed.

Lemma readFragment_ok : fragment_ok readFragment.
Proof. constructor; [solve_id | intros ? [= <-]; apply MapFS.ids_valid | solve_data_space | done | done | solve_backend]. Qed.

(** The file the update makes. *)
Definition writtenState : posix_state (FS := MapFS.mapFS) :=
  PosixState {[pathOf (MapFS.targets 0) "dst" (MapFS.ids 0) := [4; 5; 8; 9; 6; 7; 10; 11]]} 1.

Definition updateWritten := fragment_update zeroCast (fun _ => 0) MapFS.targets MapFS.ids 0 writtenFragment {[0%nat := fun a => a]} (PosixState ∅ 0).


(** The backend over the map file system. *)
#[global] Instance mapBackend : DataBackend (posix_state (FS := MapFS.mapFS)) :=
  posix_backend zeroCast (fun _ => 0) MapFS.targets MapFS.ids.

#[global] Instance mapBackendLaws : DataBackendLaws (posix_state (FS := MapFS.mapFS)) :=
  posix_laws zeroCast (fun _ => 0) length_zeroCast MapFS.targets MapFS.ids MapFS.posixSetup.

