(* ===== verification/GridCover.v ===== *)
(** Grids of a dataset (src/esdm-grid.c, src/esdm-datatypes.c), part six: which grid serves a read
    request.  [esdmI_dataset_gridCoveringRegion()] picks, among the complete grids that contain
    the whole region, the one whose cells hold the least data outside of the region. *)

From S2P Require Import Prelude Hypercube HypercubeSet HypercubeSubsets Odometer Json Dataspace Partition Split Grid GridTree GridRegistry GridVisit GridRegion.

(** * Operations *)

(** The part of an axis that a region covers: [max(0, end - start)]. *)
Definition coverSize_dim (axis : esdm_axis_t) (o s : Z) : outcome Z :=
  e ← chk64 (o + s);
  let start := Z.max o (outerLow axis) in
  let end_ := Z.min e (outerHigh axis) in
  d ← chk64 (end_ - start);
  mret (Z.max 0 d).

Fixpoint coverRegionSize_loop (axes : list esdm_axis_t) (offset size : list Z) (result : Z) : outcome Z :=
  match axes with
  | [] => mret result
  | axis :: axes' =>
      match offset, size with
      | o :: offset', s :: size' =>
          c ← coverSize_dim axis o s;
          result' ← chk64 (result * c);
          coverRegionSize_loop axes' offset' size' result'
      | _, _ => Undef
      end
  end.

(** The data of the cells that a region touches on one axis. *)
Definition fetchedSize_dim (axis : esdm_axis_t) (o s : Z) : outcome Z :=
  e ← chk64 (o + s);
  let start := Z.max o (outerLow axis) in
  let end_ := Z.min e (outerHigh axis) in
  startInterval ← esdmI_axis_findInterval axis start;
  eassert (startInterval >=? 0);;
  last ← chk64 (end_ - 1);
  endInterval ← esdmI_axis_findInterval axis last;
  eassert (endInterval >=? 0);;
  hi ← deref (allBounds axis !! Z.to_nat (endInterval + 1));
  lo ← deref (allBounds axis !! Z.to_nat startInterval);
  chk64 (hi - lo).

Fixpoint coverRegionOverhead_loop (axes : list esdm_axis_t) (offset size : list Z) (coverRegionSize fetchedRegionSize : Z)
    : outcome Z :=
  match axes with
  | [] => chk64 (fetchedRegionSize - coverRegionSize)
  | axis :: axes' =>
      match offset, size with
      | o :: offset', s :: size' =>
          c ← coverSize_dim axis o s;
          coverRegionSize' ← chk64 (coverRegionSize * c);
          f ← fetchedSize_dim axis o s;
          fetchedRegionSize' ← chk64 (fetchedRegionSize * f);
          coverRegionOverhead_loop axes' offset' size' coverRegionSize' fetchedRegionSize'
      | _, _ => Undef
      end
  end.

Section Cover.

Context {F : Type}.

#[local] Abbreviation esdm_grid_t := (esdm_grid_t F).

Definition esdmI_grid_coverRegionSize (g : esdm_grid_t) (region : esdmI_hypercube_t) : outcome Z :=
  eassert (esdmI_hypercube_dimensions region =? dimCount g);;
  '(offset, size) ← esdmI_hypercube_getOffsetAndSize region;
  coverRegionSize_loop (axes g) offset size 1.

Definition esdmI_grid_coverRegionOverhead (g : esdm_grid_t) (region : esdmI_hypercube_t) : outcome Z :=
  eassert (esdmI_hypercube_dimensions region =? dimCount g);;
  '(offset, size) ← esdmI_hypercube_getOffsetAndSize region;
  coverRegionOverhead_loop (axes g) offset size 1 1.

(** The loop over the complete grids; the best grid is an index into the array. *)
Fixpoint covering_loop (i : nat) (grids : list esdm_grid_t) (region : esdmI_hypercube_t) (regionSize : Z)
    (bestGrid : option nat) (smallestOverhead : Z) : outcome (option nat) :=
  match grids with
  | [] => mret bestGrid
  | g :: grids' =>
      coverage ← esdmI_grid_coverRegionSize g region;
      if coverage =? regionSize then
        overhead ← esdmI_grid_coverRegionOverhead g region;
        if overhead <=? smallestOverhead then covering_loop (S i) grids' region regionSize (Some i) overhead
        else covering_loop (S i) grids' region regionSize bestGrid smallestOverhead
      else covering_loop (S i) grids' region regionSize bestGrid smallestOverhead
  end.

Definition esdmI_dataset_gridCoveringRegion (grids : list esdm_grid_t) (region : esdmI_hypercube_t) : outcome (option nat) :=
  regionSize ← esdmI_hypercube_size region;
  covering_loop 0 grids region regionSize None INT64_MAX.

End Cover.

(** * Coverage *)

(** The part of a region on an axis. *)
Definition coverLength (axis : esdm_axis_t) (r : esdmI_range_t) : Z :=
  Z.max 0 (Z.min (rend r) (outerHigh axis) - Z.max (rstart r) (outerLow axis)).

(** The cells a region touches on an axis: from the start of the first to the end of the last. *)
Definition touched (axis : esdm_axis_t) (r : esdmI_range_t) (t : esdmI_range_t) : Prop :=
  exists i j, 0 <= i < intervals axis /\ 0 <= j < intervals axis /\
  in_range (rstart r) (cell_range (allBounds axis) i) /\ in_range (rend r - 1) (cell_range (allBounds axis) j) /\
  t = Range (rstart (cell_range (allBounds axis) i)) (rend (cell_range (allBounds axis) j)).

Lemma coverSize_dim_ok (axis : esdm_axis_t) (r : esdmI_range_t) :
  axis_wf axis -> axis_int64 axis -> range_int64 r -> 0 <= outerLow axis -> 0 <= rstart r ->
  coverSize_dim axis (rstart r) (rend r - rstart r) = Done (coverLength axis r).
Proof.
  intros Hwf [H1 H2 _] (H3 & H4 & H5) H6 H7. unfold coverSize_dim. replace (rstart r + (rend r - rstart r)) with (rend r) by lia.
  rewrite chk64_ok by lia. run. pose proof (axis_nonempty axis Hwf). rewrite chk64_ok; [done |]. unfold INT64_MIN, INT64_MAX in *. lia.
Qed.

Lemma coverLength_bounds (axis : esdm_axis_t) (r : esdmI_range_t) :
  axis_wf axis -> range_int64 r -> 0 <= coverLength axis r <= rend r - rstart r /\
  (coverLength axis r = rend r - rstart r <-> range_inside r (Range (outerLow axis) (outerHigh axis))).
Proof.
  intros Hwf (H1 & H2 & H3). pose proof (axis_nonempty axis Hwf). unfold coverLength, range_inside. simpl. lia.
Qed.

(** A product of parts is the product of the wholes only when every part is the whole. *)
Lemma parts_product (cs ss : list Z) :
  Forall2 (fun c s => 0 <= c <= s /\ 0 < s) cs ss -> 0 <= prod cs <= prod ss /\ (prod cs = prod ss <-> cs = ss).
Proof.
  induction 1 as [| c s cs ss [Hc Hs] Hcs [IH1 IH2]]; [done |].
  change (prod (c :: cs)) with (c * prod cs). change (prod (s :: ss)) with (s * prod ss).
  assert (Hp : 0 < prod ss). { apply prod_pos. clear -Hcs. induction Hcs as [| ? ? ? ? [_ ?] ? ?]; by constructor. }
  split; [nia |]. split; [| by intros [= -> ->]].
  intros E. assert (c = s) by nia. subst c. f_equal. apply IH2. nia.
Qed.

(** What the two loops need of the axes and the region. *)
Record cover_ok (axs : list esdm_axis_t) (region : esdmI_hypercube_t) : Prop := {
  co_wf : Forall axis_wf axs;
  co_axes : Forall axis_int64 axs;
  co_low : Forall (fun a => 0 <= outerLow a) axs;
  co_length : length region = length axs;
  co_region : Forall range_int64 region;
  co_start : Forall (fun r => 0 <= rstart r) region
}.

Lemma cover_ok_cons (a : esdm_axis_t) (axs : list esdm_axis_t) (r : esdmI_range_t) (region : esdmI_hypercube_t) :
  cover_ok (a :: axs) (r :: region) ->
  axis_wf a /\ axis_int64 a /\ 0 <= outerLow a /\ range_int64 r /\ 0 <= rstart r /\ cover_ok axs region.
Proof.
  intros [H1 H2 H3 H4 H5 H6]. apply Forall_cons in H1 as [? ?]. apply Forall_cons in H2 as [? ?]. apply Forall_cons in H3 as [? ?].
  apply Forall_cons in H5 as [? ?]. apply Forall_cons in H6 as [? ?]. simpl in H4. do 5 (split; [done |]). constructor; (done || lia).
Qed.

Lemma cover_ok_volume (axs : list esdm_axis_t) (region : esdmI_hypercube_t) : cover_ok axs region -> 1 <= volume region.
Proof.
  intros [_ _ _ _ Hr _]. assert (0 < volume region); [| lia]. apply volume_pos_iff. eapply Forall_impl; [exact Hr |]. intros r (H & _). lia.
Qed.

Lemma volume_cons (r : esdmI_range_t) (region : esdmI_hypercube_t) : range_int64 r -> volume (r :: region) = (rend r - rstart r) * volume region.
Proof. intros (H & _). cbn [volume]. unfold rsize. by rewrite Z.max_r by lia. Qed.

Lemma coverRegionSize_loop_ok (axs : list esdm_axis_t) (region : esdmI_hypercube_t) (acc : Z) :
  cover_ok axs region -> 0 <= acc -> acc * volume region <= INT64_MAX ->
  coverRegionSize_loop axs (rstart <$> region) ((fun r => rend r - rstart r) <$> region) acc =
  Done (acc * prod (zip_with coverLength axs region)).
Proof.
  revert region acc. induction axs as [| a axs IH]; intros [| r region] acc Hok Hacc Hmax; try (pose proof (co_length _ _ Hok) as Hl; simpl in Hl; lia).
  { simpl. f_equal. lia. }
  apply cover_ok_cons in Hok as (H1 & H2 & H3 & H4 & H5 & Hok). rewrite volume_cons in Hmax by done.
  pose proof (cover_ok_volume _ _ Hok) as Hv. pose proof (coverLength_bounds a r H1 H4) as [Hc _].
  rewrite !fmap_cons. cbn [coverRegionSize_loop]. rewrite coverSize_dim_ok by done. run.
  assert (acc * coverLength a r <= acc * (rend r - rstart r)) by nia.
  assert (acc * (rend r - rstart r) <= acc * ((rend r - rstart r) * volume region)) by nia.
  rewrite chk64_ok by (unfold INT64_MIN; nia). run. rewrite IH; [| done | nia | nia].
  cbn [zip_with]. change (prod (?x :: ?l)) with (x * prod l). f_equal.
  change (prod (coverLength a r :: zip_with coverLength axs region)) with (coverLength a r * prod (zip_with coverLength axs region)). lia.
Qed.

(** The coverage is the size of the region exactly when the grid contains it. *)
Lemma coverage_inside (axs : list esdm_axis_t) (region : esdmI_hypercube_t) :
  cover_ok axs region ->
  0 <= prod (zip_with coverLength axs region) <= volume region /\
  (prod (zip_with coverLength axs region) = volume region <->
   Forall2 range_inside region ((fun a => Range (outerLow a) (outerHigh a)) <$> axs)).
Proof.
  intros Hok. set (sizes := (fun r => rend r - rstart r) <$> region).
  assert (Hvol : volume region = prod sizes /\ Forall2 (fun c s => 0 <= c <= s /\ 0 < s) (zip_with coverLength axs region) sizes /\
    (zip_with coverLength axs region = sizes <-> Forall2 range_inside region ((fun a => Range (outerLow a) (outerHigh a)) <$> axs))).
  { subst sizes. revert region Hok. induction axs as [| a axs IH]; intros [| r region] Hok; try (pose proof (co_length _ _ Hok) as Hl; simpl in Hl; lia).
    { repeat split; try done; constructor. }
    apply cover_ok_cons in Hok as (H1 & H2 & H3 & H4 & H5 & Hok). destruct (IH region Hok) as (E & Hf & Hiff).
    pose proof (coverLength_bounds a r H1 H4) as [Hc Hci]. rewrite volume_cons, E, !fmap_cons by done. cbn [zip_with].
    split; [done |]. split; [constructor; [destruct H4; lia | done] |]. rewrite Forall2_cons, <- Hiff, <- Hci.
    split; [by intros [= -> ->] | by intros [-> ->]]. }
  destruct Hvol as (-> & Hf & Hiff). rewrite <- Hiff. by apply parts_product.
Qed.

(** * Overhead *)

Lemma fetchedSize_dim_ok (axis : esdm_axis_t) (r : esdmI_range_t) :
  axis_wf axis -> axis_int64 axis -> range_int64 r -> 0 <= outerLow axis -> range_inside r (Range (outerLow axis) (outerHigh axis)) ->
  exists t, fetchedSize_dim axis (rstart r) (rend r - rstart r) = Done (rend t - rstart t) /\ touched axis r t /\
  range_inside r t /\ range_inside t (Range (outerLow axis) (outerHigh axis)).
Proof.
  intros Hwf H64 (H1 & H2 & H3) Hlow [H4 H5]. simpl in H4, H5. pose proof H64 as [Hlo Hhi _]. unfold fetchedSize_dim.
  replace (rstart r + (rend r - rstart r)) with (rend r) by lia. rewrite (chk64_ok (rend r)) by lia. run.
  rewrite Z.max_l, Z.min_l by lia.
  destruct (findInterval_ok axis Hwf (rstart r) H64 ltac:(lia)) as (i & -> & Hi & Hri). run.
  rewrite eassert_true by (apply Z.geb_le; lia). run. rewrite (chk64_ok (rend r - 1)) by (unfold INT64_MIN in *; lia). run.
  destruct (findInterval_ok axis Hwf (rend r - 1) H64 ltac:(lia)) as (j & -> & Hj & Hrj). run.
  rewrite eassert_true by (apply Z.geb_le; lia). run. rewrite !(axis_bound axis Hwf) by lia. run.
  rewrite axis_cell_range in Hri, Hrj by done. unfold in_range in Hri, Hrj. simpl in Hri, Hrj.
  pose proof (axis_bound_le axis Hwf 0 i ltac:(lia) ltac:(lia)) as Hb0. pose proof (axis_bound_le axis Hwf (j + 1) (intervals axis) ltac:(lia) ltac:(lia)) as Hbn.
  rewrite <- (axis_last axis Hwf) in Hbn. change (Z.to_nat 0) with 0%nat in Hb0. rewrite <- (aw_low _ Hwf) in Hb0.
  exists (Range (nthZ (allBounds axis) (Z.to_nat i)) (nthZ (allBounds axis) (Z.to_nat (j + 1)))). cbn [rstart rend].
  rewrite chk64_ok by (unfold INT64_MIN in *; lia). split; [done |]. split.
  - exists i, j. rewrite !axis_cell_range by done. unfold in_range. simpl. repeat split; lia.
  - unfold range_inside. simpl. lia.
Qed.

Lemma coverRegionOverhead_loop_ok (axs : list esdm_axis_t) (region : esdmI_hypercube_t) (cov fet : Z) :
  cover_ok axs region -> Forall2 range_inside region ((fun a => Range (outerLow a) (outerHigh a)) <$> axs) ->
  1 <= cov <= fet -> fet * volume ((fun a => Range (outerLow a) (outerHigh a)) <$> axs) <= INT64_MAX ->
  exists ts, Forall2 (fun p t => touched p.1 p.2 t) (zip axs region) ts /\
  coverRegionOverhead_loop axs (rstart <$> region) ((fun r => rend r - rstart r) <$> region) cov fet =
  Done (fet * volume ts - cov * volume region) /\ volume region <= volume ts.
Proof.
  revert region cov fet. induction axs as [| a axs IH]; intros [| r region] cov fet Hok Hin Hcf Hmax;
    try (pose proof (co_length _ _ Hok) as Hl; simpl in Hl; lia).
  { exists []. split; [constructor |]. split; [| done]. cbn [coverRegionOverhead_loop fmap list_fmap]. simpl in *.
    rewrite chk64_ok; [f_equal; lia |]. unfold INT64_MIN, INT64_MAX in *. lia. }
  rewrite fmap_cons in Hin, Hmax. apply Forall2_cons in Hin as [Hr Hin]. pose proof Hok as Hok0.
  apply cover_ok_cons in Hok as (H1 & H2 & H3 & H4 & H5 & Hok). pose proof (cover_ok_volume _ _ Hok) as Hv.
  destruct (fetchedSize_dim_ok a r H1 H2 H4 H3 Hr) as (t & Et & Ht & [Hrt1 Hrt2] & [Hta1 Hta2]). simpl in Hta1, Hta2.
  set (dom := (fun a => Range (outerLow a) (outerHigh a)) <$> axs) in *.
  assert (Hdom : 1 <= volume dom).
  { assert (0 < volume dom); [| lia]. apply volume_pos_iff. apply Forall_fmap. pose proof (co_wf _ _ Hok) as Hw.
    eapply Forall_impl; [exact Hw |]. intros x Hx. unfold compose. simpl. by apply axis_nonempty. }
  pose proof (axis_nonempty a H1) as Hne. change (volume (Range (outerLow a) (outerHigh a) :: dom)) with (rsize (Range (outerLow a) (outerHigh a)) * volume dom) in Hmax.
  unfold rsize in Hmax. cbn [rstart rend] in Hmax. rewrite Z.max_r in Hmax by lia.
  destruct H4 as (H4 & H4' & H4''). assert (Hc : coverLength a r = rend r - rstart r).
  { apply (coverLength_bounds a r H1); done. }
  rewrite !fmap_cons. cbn [coverRegionOverhead_loop]. rewrite coverSize_dim_ok by done. run. rewrite Hc.
  set (ri := rend r - rstart r) in *. set (ti := rend t - rstart t) in *. set (di := outerHigh a - outerLow a) in *.
  assert (Hrti : 1 <= ri <= ti) by lia. assert (Htdi : ti <= di) by lia.
  assert (Hdi : 1 <= di <= di * volume dom) by (unfold di; nia).
  assert (fet * ti <= INT64_MAX /\ cov * ri <= fet * ti /\ fet * ti * volume dom <= INT64_MAX) as (Hm1 & Hm2 & Hm3).
  { assert (fet * ti <= fet * di) by nia. assert (fet * di <= fet * (di * volume dom)) by (apply Z.mul_le_mono_nonneg_l; lia).
    split; [lia |]. split; [apply Z.mul_le_mono_nonneg; lia |]. rewrite <- Z.mul_assoc. etrans; [| exact Hmax].
    apply Z.mul_le_mono_nonneg_l; [lia |]. apply Z.mul_le_mono_nonneg_r; lia. }
  rewrite chk64_ok by (unfold INT64_MIN; nia). run. rewrite Et. run. rewrite chk64_ok by (unfold INT64_MIN; nia). run.
  destruct (IH region (cov * ri) (fet * ti) Hok Hin) as (ts & Hts & E & Hle); [nia | done |].
  exists (t :: ts). split; [by constructor |]. rewrite E.
  assert (Evt : volume (t :: ts) = ti * volume ts). { cbn [volume]. unfold rsize, ti. rewrite Z.max_r by lia. done. }
  rewrite Evt, (volume_cons r region) by done. fold ri. split; [f_equal; nia | nia].
Qed.

(** * The choice *)

Section Choice.

Context {F : Type} (region : esdmI_hypercube_t).

(** A grid that the two size functions can handle. *)
Record servable (g : esdm_grid_t F) : Prop := {
  sv_wf : grid_wf g;
  sv_cover : cover_ok (axes g) region;
  sv_volume : volume (domain g) <= INT64_MAX
}.

(** The grid contains the region. *)
Definition contains_region (g : esdm_grid_t F) : Prop := Forall2 range_inside region (domain g).

(** The hypercube of all cells that overlap with the region. *)
Definition touchedCells (g : esdm_grid_t F) (ts : esdmI_hypercube_t) : Prop :=
  Forall2 (fun p t => touched p.1 p.2 t) (zip (axes g) region) ts.

Lemma touched_functional (a : esdm_axis_t) (r t t' : esdmI_range_t) : axis_wf a -> touched a r t -> touched a r t' -> t = t'.
Proof.
  intros [Hb Hi _ _ _] (i & j & Hi1 & Hj1 & Hri & Hrj & ->) (i' & j' & Hi2 & Hj2 & Hri' & Hrj' & ->). rewrite Hi in *.
  assert (i = i') as -> by (by apply (cell_unique (allBounds a) (rstart r))).
  assert (j = j') as -> by (by apply (cell_unique (allBounds a) (rend r - 1))). done.
Qed.

Lemma touchedCells_functional (g : esdm_grid_t F) (ts ts' : esdmI_hypercube_t) :
  grid_wf g -> touchedCells g ts -> touchedCells g ts' -> ts = ts'.
Proof.
  intros [_ _ Hax]. unfold touchedCells. generalize region as rs. revert ts ts'. induction Hax as [| a axs Ha _ IH]; intros ts ts' rs H1 H2.
  { apply Forall2_nil_inv_l in H1 as ->. by apply Forall2_nil_inv_l in H2 as ->. }
  destruct rs as [| r rs]; cbn [zip_with] in H1, H2; [apply Forall2_nil_inv_l in H1 as ->; by apply Forall2_nil_inv_l in H2 as -> |].
  apply Forall2_cons_inv_l in H1 as (t & l & Ht & Hl & ->). apply Forall2_cons_inv_l in H2 as (t' & l' & Ht' & Hl' & ->).
  f_equal; [by apply (touched_functional a r) | by apply (IH l l' rs)].
Qed.

Lemma offsetAndSize_ok : Forall range_int64 region ->
  esdmI_hypercube_getOffsetAndSize region = Done (rstart <$> region, (fun r => rend r - rstart r) <$> region).
Proof.
  intros Hr. unfold esdmI_hypercube_getOffsetAndSize.
  assert (E : mapM esdmI_range_size region = Done ((fun r => rend r - rstart r) <$> region)); [| by rewrite E].
  clear -Hr. induction Hr as [| r region Hr _ IH]; [done |]. rewrite mapM_cons. destruct Hr as (H1 & H2 & H3).
  rewrite range_size_ok by done. run. rewrite IH. run. rewrite fmap_cons. do 2 f_equal. unfold rsize. lia.
Qed.

Lemma coverRegionSize_ok (g : esdm_grid_t F) :
  servable g -> volume region <= INT64_MAX ->
  exists c, esdmI_grid_coverRegionSize g region = Done c /\ (c = volume region <-> contains_region g).
Proof.
  intros [Hwf Hco _] Hv. pose proof Hco as [_ _ _ Hl Hr _]. unfold esdmI_grid_coverRegionSize, esdmI_hypercube_dimensions.
  rewrite eassert_true by (apply Z.eqb_eq; rewrite Hl; apply Hwf). run. rewrite offsetAndSize_ok by done. run.
  rewrite coverRegionSize_loop_ok by (done || lia). eexists. split; [done |]. rewrite Z.mul_1_l. by apply coverage_inside.
Qed.

Lemma coverRegionOverhead_ok (g : esdm_grid_t F) :
  servable g -> contains_region g ->
  exists ts, esdmI_grid_coverRegionOverhead g region = Done (volume ts - volume region) /\ touchedCells g ts /\ volume region <= volume ts.
Proof.
  intros [Hwf Hco Hvol] Hin. pose proof Hco as [_ _ _ Hl Hr _]. unfold esdmI_grid_coverRegionOverhead, esdmI_hypercube_dimensions.
  rewrite eassert_true by (apply Z.eqb_eq; rewrite Hl; apply Hwf). run. rewrite offsetAndSize_ok by done. run.
  destruct (coverRegionOverhead_loop_ok (axes g) region 1 1 Hco Hin) as (ts & Hts & E & Hle); [lia | unfold domain in Hvol; lia |].
  exists ts. split; [rewrite E; f_equal; lia | done].
Qed.

Lemma coverRegionOverhead_int64 (axs : list esdm_axis_t) (os ss : list Z) (c f v : Z) :
  coverRegionOverhead_loop axs os ss c f = Done v -> v <= INT64_MAX.
Proof.
  revert os ss c f. induction axs as [| a axs IH]; intros os ss c f E; cbn [coverRegionOverhead_loop] in E.
  - apply chk64_inv in E as [-> ?]. lia.
  - destruct os as [| o os]; [done |]. destruct ss as [| s ss]; [done |]. inv_outcome. by eapply IH.
Qed.

(** The grid at an index is the best one of a list. *)
Definition best_grid (grids : list (esdm_grid_t F)) (k : nat) : Prop :=
  exists g ts, grids !! k = Some g /\ contains_region g /\ touchedCells g ts /\
  forall g' ts', g' ∈ grids -> contains_region g' -> touchedCells g' ts' -> volume ts <= volume ts'.

Lemma covering_loop_ok (grids : list (esdm_grid_t F)) (i : nat) (best : option nat) (smallest : Z) :
  Forall servable grids -> volume region <= INT64_MAX ->
  exists r, covering_loop i grids region (volume region) best smallest = Done r /\
  ((r = best /\ forall g ts, g ∈ grids -> contains_region g -> touchedCells g ts -> smallest < volume ts - volume region) \/
   (exists k g ts, r = Some (i + k)%nat /\ grids !! k = Some g /\ contains_region g /\ touchedCells g ts /\ volume ts - volume region <= smallest /\
    forall g' ts', g' ∈ grids -> contains_region g' -> touchedCells g' ts' -> volume ts <= volume ts')).
Proof.
  intros Hs Hv. revert i best smallest. induction Hs as [| g grids Hg _ IH]; intros i best smallest.
  { exists best. split; [done |]. left. split; [done |]. by intros g ts ?%elem_of_nil. }
  cbn [covering_loop]. destruct (coverRegionSize_ok g Hg Hv) as (c & -> & Hc). run.
  assert (Hskip : forall best smallest, (forall ts, contains_region g -> touchedCells g ts -> smallest < volume ts - volume region) ->
    exists r, covering_loop (S i) grids region (volume region) best smallest = Done r /\
    ((r = best /\ forall g' ts, g' ∈ g :: grids -> contains_region g' -> touchedCells g' ts -> smallest < volume ts - volume region) \/
     (exists k g' ts, r = Some (i + k)%nat /\ (g :: grids) !! k = Some g' /\ contains_region g' /\ touchedCells g' ts /\
      volume ts - volume region <= smallest /\
      forall g'' ts', g'' ∈ g :: grids -> contains_region g'' -> touchedCells g'' ts' -> volume ts <= volume ts'))).
  { intros b sm Hno. destruct (IH (S i) b sm) as (r & -> & [[-> Hall] | (k & g' & ts & -> & Hk & Hin & Ht & Hle & Hmin)]); eexists; (split; [done |]).
    - left. split; [done |]. intros g' ts [-> | Hg']%elem_of_cons; [by apply Hno | by apply Hall].
    - right. exists (S k), g', ts. split; [f_equal; lia |]. do 4 (split; [done |]).
      intros g'' ts' [-> | Hg']%elem_of_cons Hin' Ht'; [specialize (Hno ts' Hin' Ht'); lia | by apply (Hmin g'')]. }
  destruct (Z.eqb_spec c (volume region)) as [Ec | Ec].
  2: { apply Hskip. intros ts Hin _. apply Hc in Hin. done. }
  apply Hc in Ec as Hin. destruct (coverRegionOverhead_ok g Hg Hin) as (ts & -> & Hts & Hle). run.
  destruct (Z.leb_spec (volume ts - volume region) smallest) as [Hsm | Hsm].
  2: { apply Hskip. intros ts' _ Ht'. by rewrite (touchedCells_functional g ts' ts (sv_wf _ Hg) Ht' Hts). }
  destruct (IH (S i) (Some i) (volume ts - volume region)) as (r & -> & [[-> Hall] | (k & g' & ts' & -> & Hk & Hin' & Ht & Hle' & Hmin)]);
    eexists; (split; [done |]); right.
  - exists 0%nat, g, ts. split; [f_equal; lia |]. do 4 (split; [done |]). intros g' ts' [-> | Hg']%elem_of_cons Hin' Ht'.
    + by rewrite (touchedCells_functional g ts' ts (sv_wf _ Hg) Ht' Hts).
    + specialize (Hall g' ts' Hg' Hin' Ht'). lia.
  - exists (S k), g', ts'. split; [f_equal; lia |]. do 3 (split; [done |]). split; [lia |].
    intros g'' ts'' [-> | Hg']%elem_of_cons Hin'' Ht''; [| by apply (Hmin g'')].
    rewrite (touchedCells_functional g ts'' ts (sv_wf _ Hg) Ht'' Hts). lia.
Qed.

Lemma gridCoveringRegion_ok (grids : list (esdm_grid_t F)) :
  Forall servable grids -> Forall range_int64 region -> (0 < length region)%nat -> volume region <= INT64_MAX ->
  exists r, esdmI_dataset_gridCoveringRegion grids region = Done r /\
  match r with
  | Some k => best_grid grids k
  | None => forall g, g ∈ grids -> ~ contains_region g
  end.
Proof.
  intros Hs Hr Hl Hv. unfold esdmI_dataset_gridCoveringRegion. rewrite HypercubeSubsets.size_ok; [| | done | done].
  2: { eapply Forall_impl; [exact Hr |]. intros r (H & _). lia. }
  run. destruct (covering_loop_ok grids 0 None INT64_MAX Hs Hv) as (r & -> & [[-> Hall] | (k & g & ts & -> & Hk & Hin & Ht & _ & Hmin)]).
  - exists None. split; [done |]. intros g Hg Hin.
    pose proof (proj1 (Forall_forall _ _) Hs g Hg) as Hsg. destruct (coverRegionOverhead_ok g Hsg Hin) as (ts & E & Hts & _).
    specialize (Hall g ts Hg Hin Hts). unfold esdmI_grid_coverRegionOverhead in E. inv_outcome. destruct v0 as [os ss].
    apply coverRegionOverhead_int64 in E. lia.
  - eexists. split; [done |]. by exists g, ts.
Qed.

(** C33: [esdmI_dataset_gridCoveringRegion()] returns a grid exactly when one of the complete grids
    contains the whole region, and then one for which the cells that overlap with the region
    have the smallest total size. *)
Theorem grid_choice_correct (grids : list (esdm_grid_t F)) :
  Forall servable grids -> Forall range_int64 region -> (0 < length region)%nat -> volume region <= INT64_MAX ->
  exists r, esdmI_dataset_gridCoveringRegion grids region = Done r /\
  match r with
  | Some k => best_grid grids k
  | None => forall g, g ∈ grids -> ~ contains_region g
  end.
Proof. apply gridCoveringRegion_ok. Qed.

End Choice.

(** Of two grids of the same domain the one with the smaller cells is chosen. *)
Lemma grid_choice_correct_witness :
  let coarse : esdm_grid_t nat := Grid 1 None 0 None [axisOf [0; 10; 20]] in
  let fine : esdm_grid_t nat := Grid 1 None 0 None [axisOf [0; 4; 8; 12; 20]] in
  best_grid [Range 3 7] [coarse; fine; coarse] 1.
Proof.
  intros coarse fine.
  assert (Hs : Forall (servable [Range 3 7]) [coarse; fine; coarse]).
  { assert (Hax : forall bs, bounds_ok bs -> 0 <= nthZ bs 0 -> nthZ bs (length bs - 1) = 20 -> cells bs <= 20 ->
      servable [Range 3 7] (Grid (F := nat) 1 None 0 None [axisOf bs])).
    { intros bs Hb H0 Hlast Hc. pose proof (axisOf_wf bs Hb) as Hw. pose proof (axis_nonempty _ Hw) as Hne. cbn [axisOf outerLow outerHigh] in Hne.
      constructor; [constructor; [done | done | by constructor] | | ].
      - constructor; [by constructor | | by constructor | done | by repeat constructor | by repeat constructor].
        constructor; [| constructor]. constructor; cbn [axisOf outerLow outerHigh intervals]; rewrite ?Hlast; unfold INT64_MIN, INT64_MAX; try lia.
        assert (0 <= cells bs) by (unfold cells; destruct Hb as [_ Hl]; lia). nia.
      - unfold domain. cbn [axes fmap list_fmap volume axisOf outerLow outerHigh]. unfold rsize. cbn [rstart rend]. rewrite Hlast. unfold INT64_MAX. lia. }
    constructor; [| constructor; [| constructor; [| constructor]]]; (apply Hax; [split; [by repeat constructor | simpl; lia] | done | done | done]). }
  destruct (grid_choice_correct [Range 3 7] [coarse; fine; coarse] Hs) as (r & E & Hr).
  - by repeat constructor.
  - simpl. lia.
  - done.
  - assert (E' : esdmI_dataset_gridCoveringRegion [coarse; fine; coarse] [Range 3 7] = Done (Some 1%nat)) by reflexivity.
    rewrite E' in E. injection E as <-. exact Hr.
Defined.
