(* ===== verification/Fragments.v ===== *)
(** The fragments of a dataset (src/fragments.c): a hash table from shapes to fragments.  The hash
    table is GLib's, a parameter of the model; the hash and equality functions are ESDM's. *)

From S2P Require Import Prelude Memory Hypercube HypercubeSet Json Odometer Dataspace Convert CopyData Fragment FragmentState Posix.

Open Scope Z_scope.

(** * GHashTable *)

(** The hash and equality callbacks. *)
Definition esdmI_fragments_hashKey (key : esdmI_hypercube_t) : outcome Z := esdmI_hypercube_hash key.

Definition esdmI_fragments_equalKeys (key1 key2 : esdmI_hypercube_t) : outcome bool := esdmI_hypercube_equal key1 key2.

(** The calls of the library.  Fragments are handles; [g_hash_table_entries] is the order in which
    [g_hash_table_foreach()] visits the table. *)
Class GHashTable (T : Type) := {
  g_hash_table_new_full : T;
  g_hash_table_contains : T -> esdmI_hypercube_t -> outcome bool;
  g_hash_table_lookup : T -> esdmI_hypercube_t -> outcome (option nat);
  g_hash_table_insert : T -> esdmI_hypercube_t -> nat -> outcome T;
  g_hash_table_entries : T -> list (esdmI_hypercube_t * nat);
  g_hash_table_remove : T -> list nat -> T
}.

Section Foreach.

Context {T : Type} `{GHashTable T}.

Definition g_hash_table_foreach {S} (func : esdmI_hypercube_t -> nat -> S -> outcome S) (t : T) (s : S) : outcome S :=
  foldM (fun e s => func e.1 e.2 s) (g_hash_table_entries t) s.

(** The entries for which the function returns [TRUE] are removed and deallocated on the way; the
    result lists them. *)
Fixpoint foreach_remove_loop {S} (func : esdmI_hypercube_t -> nat -> S -> outcome (bool * S)) (dealloc : nat -> S -> outcome S)
    (entries : list (esdmI_hypercube_t * nat)) (s : S) : outcome (list nat * S) :=
  match entries with
  | [] => mret ([], s)
  | e :: entries' =>
      r ← func e.1 e.2 s;
      s ← if r.1 : bool then dealloc e.2 r.2 else mret r.2;
      rest ← foreach_remove_loop func dealloc entries' s;
      mret ((if r.1 : bool then [e.2] else []) ++ rest.1, rest.2)
  end.

Definition g_hash_table_foreach_remove {S} (func : esdmI_hypercube_t -> nat -> S -> outcome (bool * S))
    (dealloc : nat -> S -> outcome S) (t : T) (s : S) : outcome (T * S) :=
  r ← foreach_remove_loop func dealloc (g_hash_table_entries t) s;
  mret (g_hash_table_remove t r.1, r.2).

End Foreach.

(** A key of [n] dimensions whose hash is defined. *)
Definition key_ok (n : nat) (key : esdmI_hypercube_t) : Prop := length key = n /\ exists h, esdmI_fragments_hashKey key = Done h.

(** All entries have usable and different keys, and different values. *)
Record table_wf {T} `{GHashTable T} (n : nat) (t : T) : Prop := {
  tw_keys : Forall (key_ok n) (g_hash_table_entries t).*1;
  tw_nodup : NoDup (g_hash_table_entries t).*1;
  tw_values : NoDup (g_hash_table_entries t).*2
}.

(** The documented behaviour, for keys of one rank. *)
Class GHashTableLaws (T : Type) `{GHashTable T} := {
  new_law : g_hash_table_entries g_hash_table_new_full = [];
  contains_law n t key : table_wf n t -> key_ok n key ->
    g_hash_table_contains t key = Done (bool_decide (key ∈ (g_hash_table_entries t).*1));
  lookup_law n t key : table_wf n t -> key_ok n key ->
    exists r, g_hash_table_lookup t key = Done r /\ forall v, r = Some v <-> (key, v) ∈ g_hash_table_entries t;
  insert_law n t key v : table_wf n t -> key_ok n key -> key ∉ (g_hash_table_entries t).*1 ->
    exists t', g_hash_table_insert t key v = Done t' /\ g_hash_table_entries t' ≡ₚ (key, v) :: g_hash_table_entries t;
  remove_law t vs : g_hash_table_entries (g_hash_table_remove t vs) = filter (fun e => e.2 ∉ vs) (g_hash_table_entries t)
}.

(** * The memory of the fragments *)

(** The fragment objects, the heap and the storage. *)
Record store (B : Type) := Store { objects : gmap nat esdm_fragment_t; memory : heap; disk : B }.
Arguments Store {B} objects memory disk.
Arguments objects {B} s.
Arguments memory {B} s.
Arguments disk {B} s.

Section Operations.

Context {T : Type} `{GHashTable T} {B : Type} `{DataBackend B}.

Definition esdmI_fragments_construct : T := g_hash_table_new_full.

(** [fragment] is the handle of a fragment object. *)
Definition esdmI_fragments_add (me : T) (objs : gmap nat esdm_fragment_t) (fragment : nat) : outcome (esdm_status * T) :=
  f ← deref (objs !! fragment);
  key ← esdmI_dataspace_getExtends (dataspace f);
  present ← g_hash_table_contains me key;
  if present : bool then mret (ESDM_INVALID_STATE_ERROR, me)
  else me ← g_hash_table_insert me key fragment; mret (ESDM_SUCCESS, me).

Definition esdmI_fragments_lookupForShape (me : T) (shape : esdmI_hypercube_t) : outcome (option nat) :=
  g_hash_table_lookup me shape.

(** [esdmI_fragments_deallocateValue()]: the object is destroyed. *)
Definition esdmI_fragments_deallocateValue (value : nat) (s : store B) : outcome (store B) :=
  f ← deref (objects s !! value);
  '(result, h) ← esdm_fragment_destroy f (memory s);
  eassert (bool_decide (result = ESDM_SUCCESS));;
  mret (Store (delete value (objects s)) h (disk s)).

(** The first failure is kept. *)
Definition esdmI_fragments_deleteFragmentsFromBackend (key : esdmI_hypercube_t) (value : nat) (state : esdm_status * store B)
    : outcome (bool * (esdm_status * store B)) :=
  let '(stateResult, s) := state in
  f ← deref (objects s !! value);
  backend ← deref (backend f);
  '(result, b) ← esdmI_backend_fragment_delete backend f (disk s);
  mret (bool_decide (result = ESDM_SUCCESS),
        (if decide (stateResult = ESDM_SUCCESS) then result else stateResult, Store (objects s) (memory s) b)).

Definition esdmI_fragments_deleteAll (me : T) (s : store B) : outcome (esdm_status * T * store B) :=
  '(me, (result, s)) ← g_hash_table_foreach_remove esdmI_fragments_deleteFragmentsFromBackend
      (fun value '(r, s) => s ← esdmI_fragments_deallocateValue value s; mret (r, s)) me (ESDM_SUCCESS, s);
  mret (result, me, s).

(** The selected fragments and the size of the buffer for them. *)
Definition esdmI_fragments_selectFragmentsInRegion (region key : esdmI_hypercube_t) (value : nat) (state : list nat * Z)
    : outcome (list nat * Z) :=
  let '(fragments, bufferSize) := state in
  overlap ← esdmI_hypercube_overlap key region;
  if overlap =? 0 then mret state
  else
    bufferSize ← if Z.of_nat (length fragments) =? bufferSize then chk64 (bufferSize * 2) else mret bufferSize;
    eassert (Z.of_nat (length fragments) <? bufferSize);;
    mret (fragments ++ [value], bufferSize).

Definition esdmI_fragments_makeSetCoveringRegion (me : T) (bounds : esdmI_hypercube_t) : outcome (list nat) :=
  singleFragment ← esdmI_fragments_lookupForShape me bounds;
  match singleFragment with
  | Some f => mret [f]
  | None =>
      '(fragments, _) ← g_hash_table_foreach (esdmI_fragments_selectFragmentsInRegion bounds) me ([], 8);
      mret fragments
  end.

(** [esdmI_fragments_purge()]: all fragments are destroyed. *)
Definition esdmI_fragments_purge (me : T) (s : store B) : outcome (T * store B) :=
  s ← foldM (fun e s => esdmI_fragments_deallocateValue e.2 s) (g_hash_table_entries me) s;
  mret (g_hash_table_new_full, s).

End Operations.

(** * Shapes of the fragments *)

Section Table.

Context {T : Type} `{GHashTableLaws T}.

(** A fragment object whose shape can be a key. *)
Record keyed (n : nat) (f : esdm_fragment_t) : Prop := {
  ky_wf : space_wf (dataspace f);
  ky_int64 : space_int64 (dataspace f);
  ky_key : key_ok n (extends (dataspace f))
}.

(** The table maps the shape of each of its fragments to the fragment. *)
Record fragments_inv (n : nat) (t : T) (objs : gmap nat esdm_fragment_t) : Prop := {
  fs_table : table_wf n t;
  fs_objects : forall key v, (key, v) ∈ g_hash_table_entries t -> exists f, objs !! v = Some f /\ keyed n f /\ key = extends (dataspace f)
}.

Lemma construct_inv (n : nat) (objs : gmap nat esdm_fragment_t) : fragments_inv n esdmI_fragments_construct objs.
Proof.
  unfold esdmI_fragments_construct. constructor; [constructor |]; rewrite new_law; try constructor. by intros key v ?%elem_of_nil.
Qed.

Lemma fragments_add_ok (n : nat) (t : T) (objs : gmap nat esdm_fragment_t) (v : nat) (f : esdm_fragment_t) :
  fragments_inv n t objs -> objs !! v = Some f -> keyed n f -> v ∉ (g_hash_table_entries t).*2 ->
  exists st t', esdmI_fragments_add t objs v = Done (st, t') /\ fragments_inv n t' objs /\
  ((st = ESDM_SUCCESS /\ (extends (dataspace f) ∉ (g_hash_table_entries t).*1) /\
    g_hash_table_entries t' ≡ₚ ((extends (dataspace f), v) :: g_hash_table_entries t)) \/
   (st = ESDM_INVALID_STATE_ERROR /\ extends (dataspace f) ∈ (g_hash_table_entries t).*1 /\ t' = t)).
Proof.
  intros Hinv Ev Hk Hv. pose proof Hinv as [Ht Ho]. pose proof Hk as [H1 H2 Hkey]. unfold esdmI_fragments_add. rewrite Ev. run.
  rewrite getExtends_ok by done. run. rewrite (contains_law n) by done. run. case_bool_decide as Hin.
  - eexists _, t. split; [done |]. split; [done |]. by right.
  - destruct (insert_law n t (extends (dataspace f)) v Ht Hkey Hin) as (t' & -> & Hp). run. eexists _, t'. split; [done |].
    split; [| by left]. destruct Ht as [Hks Hnd Hvs]. constructor; [constructor |].
    + rewrite Hp. by constructor.
    + rewrite Hp. by constructor.
    + rewrite Hp. by constructor.
    + intros key w. rewrite Hp, elem_of_cons. intros [[= -> ->] | Hkw]; [by exists f | by apply Ho].
Qed.

(** Shapes of fragments are found, and only those. *)
Lemma lookupForShape_ok (n : nat) (t : T) (objs : gmap nat esdm_fragment_t) (shape : esdmI_hypercube_t) :
  fragments_inv n t objs -> key_ok n shape ->
  exists r, esdmI_fragments_lookupForShape t shape = Done r /\
  match r with
  | Some v => exists f, objs !! v = Some f /\ extends (dataspace f) = shape /\ (shape, v) ∈ g_hash_table_entries t
  | None => shape ∉ (g_hash_table_entries t).*1
  end.
Proof.
  intros [Ht Ho] Hk. unfold esdmI_fragments_lookupForShape. destruct (lookup_law n t shape Ht Hk) as (r & -> & Hr). exists r. split; [done |].
  destruct r as [v |].
  - pose proof (proj1 (Hr v) eq_refl) as Hin. destruct (Ho shape v Hin) as (f & E & _ & ->). by exists f.
  - intros [[key v] [-> Hin]]%list_elem_of_fmap. apply Hr in Hin. done.
Qed.

(** * Fragments for a region *)

Lemma overlap_shared (a b : esdmI_hypercube_t) :
  length a = length b -> nonempty a -> volume a <= INT64_MAX ->
  exists v, esdmI_hypercube_overlap a b = Done v /\ (v <> 0 <-> exists p, in_cube p a /\ in_cube p b).
Proof.
  intros Hl Hn Hv. unfold esdmI_hypercube_overlap. rewrite eassert_true by (by apply sameDims_iff). run.
  rewrite overlap_loop_ok by (done || lia). rewrite Z.mul_1_l. eexists. split; [done |].
  pose proof (makeIntersection_loop_spec a b Hl) as Hs. destruct (makeIntersection_loop a b) as [c |].
  - destruct Hs as (_ & Hc & Hiff). apply volume_pos_iff in Hc as Hvol. apply nonempty_iff in Hc as [p Hp].
    split; [intros _; exists p; by apply Hiff | lia].
  - split; [done |]. intros (p & Hp & Hp'). by destruct (Hs p).
Qed.

Definition sharesPoint (region : esdmI_hypercube_t) (e : esdmI_hypercube_t * nat) : Prop := exists p, in_cube p e.1 /\ in_cube p region.

Lemma select_ok (n : nat) (region : esdmI_hypercube_t) (entries : list (esdmI_hypercube_t * nat)) (fs : list nat) (bufferSize : Z) :
  length region = n -> Forall (fun e => length e.1 = n /\ nonempty e.1 /\ volume e.1 <= INT64_MAX) entries ->
  Z.of_nat (length fs) <= bufferSize -> 1 <= bufferSize ->
  bufferSize <= 2 * (Z.of_nat (length fs) + 8) -> Z.of_nat (length fs + length entries) < 2 ^ 60 ->
  exists sel bufferSize', foldM (fun e s => esdmI_fragments_selectFragmentsInRegion region e.1 e.2 s) entries (fs, bufferSize) =
    Done (fs ++ sel.*2, bufferSize') /\ sel `sublist_of` entries /\ forall e, e ∈ entries -> (e ∈ sel <-> sharesPoint region e).
Proof.
  intros Hr Hes. revert fs bufferSize. induction Hes as [| e entries (He1 & He2 & He3) Hes IH]; intros fs bs H1 H2 H3 H4.
  { exists [], bs. cbn [foldM]. rewrite app_nil_r. split; [done |]. split; [constructor |]. by intros e ?%elem_of_nil. }
  cbn [foldM esdmI_fragments_selectFragmentsInRegion]. destruct (overlap_shared e.1 region) as (v & -> & Hv); [lia | done | done |]. run.
  simpl length in H4. destruct (Z.eqb_spec v 0) as [E0 | E0].
  - destruct (IH fs bs H1 H2 H3 ltac:(lia)) as (sel & bs' & E & Hsub & Hiff). exists sel, bs'. split; [done |]. split; [by constructor |].
    intros e' [-> | He']%elem_of_cons; [| by apply Hiff].
    split; [| intros Hsh; by apply Hv in Hsh]. intros Hin.
    apply Hiff; [| done]. by eapply sublist_subseteq.
  - set (bs1 := if Z.of_nat (length fs) =? bs then bs * 2 else bs).
    assert (Hb : (if Z.of_nat (length fs) =? bs then chk64 (bs * 2) else mret bs) = Done bs1 /\ Z.of_nat (length fs) < bs1 /\
                 bs1 <= 2 * (Z.of_nat (length fs) + 8) /\ 1 <= bs1).
    { unfold bs1. destruct (Z.eqb_spec (Z.of_nat (length fs)) bs); [rewrite chk64_ok by (unfold INT64_MIN, INT64_MAX; lia) |]; (split; [done |]; lia). }
    destruct Hb as (-> & Hb1 & Hb2 & Hb3). run. rewrite eassert_true by (by apply Z.ltb_lt). run.
    destruct (IH (fs ++ [e.2]) bs1) as (sel & bs' & E & Hsub & Hiff); [rewrite length_app; simpl; lia | done | rewrite length_app; lia | rewrite length_app; simpl; lia |].
    exists (e :: sel), bs'. split; [by rewrite E, <- app_assoc |]. split; [by constructor |].
    intros e' [-> | He']%elem_of_cons; [split; [intros _; by apply Hv | by left] |]. rewrite elem_of_cons, (Hiff e' He').
    split; [intros [-> | ?]; [by apply Hv | done] | by right].
Qed.

(** The size of the fragments of a table. *)
Definition sizes_ok (t : T) : Prop :=
  Forall (fun e => nonempty e.1 /\ volume e.1 <= INT64_MAX) (g_hash_table_entries t) /\
  Z.of_nat (length (g_hash_table_entries t)) < 2 ^ 60.

Lemma makeSetCoveringRegion_ok (n : nat) (t : T) (objs : gmap nat esdm_fragment_t) (region : esdmI_hypercube_t) :
  fragments_inv n t objs -> sizes_ok t -> key_ok n region -> nonempty region ->
  exists sel, esdmI_fragments_makeSetCoveringRegion t region = Done sel.*2 /\ NoDup sel /\
  (forall e, e ∈ sel -> e ∈ g_hash_table_entries t /\ sharesPoint region e) /\
  (forall p, in_cube p region -> (exists e, e ∈ g_hash_table_entries t /\ in_cube p e.1) -> exists e, e ∈ sel /\ in_cube p e.1).
Proof.
  intros Hinv [Hs Hcount] Hk Hne. unfold esdmI_fragments_makeSetCoveringRegion.
  destruct (lookupForShape_ok n t objs region Hinv Hk) as (r & -> & Hr). run. destruct r as [v |].
  - destruct Hr as (f & _ & _ & Hin). exists [(region, v)]. split; [done |]. split; [by repeat constructor; intros ?%elem_of_nil |]. split.
    + intros e ->%list_elem_of_singleton. split; [done |]. apply nonempty_iff in Hne as [p Hp]. by exists p.
    + intros p Hp _. exists (region, v). split; [by left | done].
  - destruct (select_ok n region (g_hash_table_entries t) [] 8) as (sel & bs & E & Hsub & Hiff).
    + apply Hk.
    + apply Forall_forall. intros e He. pose proof (proj1 (Forall_forall _ _) Hs e He) as [H1 H2]. split; [| done].
      pose proof (proj1 (Forall_forall _ _) (tw_keys n t (fs_table _ _ _ Hinv)) e.1) as [Hl _]; [| done]. apply list_elem_of_fmap. by exists e.
    + simpl. lia.
    + lia.
    + simpl. lia.
    + simpl. lia.
    + unfold g_hash_table_foreach. rewrite E. run. exists sel. split; [done |]. split; [| split].
      * eapply sublist_NoDup; [| exact Hsub]. eapply NoDup_fmap_1. apply (tw_nodup n t (fs_table _ _ _ Hinv)).
      * intros e He. assert (e ∈ g_hash_table_entries t) by (by eapply sublist_subseteq). split; [done |]. by apply Hiff.
      * intros p Hp (e & He & Hpe). exists e. split; [| done]. apply Hiff; [done |]. by exists p.
Qed.

(** The fragments, by their handles. *)
Lemma coveringSet_ok (n : nat) (t : T) (objs : gmap nat esdm_fragment_t) (region : esdmI_hypercube_t) :
  fragments_inv n t objs -> sizes_ok t -> key_ok n region -> nonempty region ->
  exists vs, esdmI_fragments_makeSetCoveringRegion t region = Done vs /\ NoDup vs /\
  (forall v, v ∈ vs -> exists f, objs !! v = Some f /\ (extends (dataspace f), v) ∈ g_hash_table_entries t /\
     exists p, in_cube p region /\ in_cube p (extends (dataspace f))) /\
  (forall p key w, in_cube p region -> (key, w) ∈ g_hash_table_entries t -> in_cube p key ->
     exists v f, v ∈ vs /\ objs !! v = Some f /\ in_cube p (extends (dataspace f))) /\
  (forall v, (region, v) ∈ g_hash_table_entries t -> vs = [v]).
Proof.
  intros Hinv Hs Hk Hne. destruct (makeSetCoveringRegion_ok n t objs region Hinv Hs Hk Hne) as (sel & E & Hnd & Hsel & Hcov).
  exists sel.*2. split; [done |]. split; [| split; [| split]].
  - apply (NoDup_fmap_2_strong snd); [| done]. intros [k v] [k' v'] H1 H2 [= <-].
    apply Hsel in H1 as [H1 _]. apply Hsel in H2 as [H2 _].
    destruct (fs_objects _ _ _ Hinv k v H1) as (f & Ef & _ & ->). destruct (fs_objects _ _ _ Hinv k' v H2) as (f' & Ef' & _ & ->).
    rewrite Ef in Ef'. by injection Ef' as <-.
  - intros v [[k v'] [-> H1]]%list_elem_of_fmap. apply Hsel in H1 as [H1 (p & Hp & Hp')].
    destruct (fs_objects _ _ _ Hinv k v' H1) as (f & Ef & _ & ->). exists f. split; [done |]. split; [done |]. by exists p.
  - intros p key w Hp Hin Hpk. destruct (Hcov p Hp) as ([k v] & He & Hpe); [by exists (key, w) |].
    destruct (fs_objects _ _ _ Hinv k v) as (f & Ef & _ & ->); [by apply Hsel in He as [? _] |].
    exists v, f. split; [apply list_elem_of_fmap; by exists (extends (dataspace f), v) | done].
  - intros v Hin. destruct (lookup_law n t region (fs_table _ _ _ Hinv) Hk) as (r & Er & Hr). apply Hr in Hin. subst r.
    unfold esdmI_fragments_makeSetCoveringRegion, esdmI_fragments_lookupForShape in E. rewrite Er in E. run. by injection E as <-.
Qed.

(** C31: [esdmI_fragments_makeSetCoveringRegion()] returns different fragments of the dataset, each
    of which shares a point with the region, and together they hold every point of the region that
    any fragment of the dataset holds; the fragments are read off the table that
    [esdmI_fragments_add()] filled, and a fragment with exactly the region's shape is returned
    alone. *)
Theorem covering_set_correct (n : nat) (t : T) (objs : gmap nat esdm_fragment_t) (region : esdmI_hypercube_t) :
  fragments_inv n t objs -> sizes_ok t -> key_ok n region -> nonempty region ->
  exists vs, esdmI_fragments_makeSetCoveringRegion t region = Done vs /\ NoDup vs /\
  (forall v, v ∈ vs -> exists f, objs !! v = Some f /\ (extends (dataspace f), v) ∈ g_hash_table_entries t /\
     exists p, in_cube p region /\ in_cube p (extends (dataspace f))) /\
  (forall p key w, in_cube p region -> (key, w) ∈ g_hash_table_entries t -> in_cube p key ->
     exists v f, v ∈ vs /\ objs !! v = Some f /\ in_cube p (extends (dataspace f))) /\
  (forall v, (region, v) ∈ g_hash_table_entries t -> vs = [v]).
Proof. apply coveringSet_ok. Qed.

End Table.

(** * Deletion *)

Section Deletion.

Context {T : Type} `{GHashTableLaws T} {B : Type} `{DataBackendLaws B}.

(** A fragment that can be destroyed: stored, not dirty, its own buffer is a block. *)
Record disposable (s : store B) (v : nat) (f : esdm_fragment_t) : Prop := {
  dp_object : objects s !! v = Some f;
  dp_ok : fragment_ok f;
  dp_key : is_Some (keyOf f);
  dp_clean : status f <> ESDM_DATA_DIRTY;
  dp_buffer : ownsBuf f = true -> exists block, buf f = Some (block, 0) /\ is_Some (memory s !! block)
}.

(** The fragments of a list of handles are disposable and share no memory and no storage. *)
Definition all_disposable (s : store B) (vs : list nat) : Prop :=
  NoDup vs /\ (forall v, v ∈ vs -> exists f, disposable s v f) /\
  (forall v w f g, v ∈ vs -> w ∈ vs -> v <> w -> objects s !! v = Some f -> objects s !! w = Some g ->
     keyOf f <> keyOf g /\ (ownsBuf f = true -> ownsBuf g = true -> buf f <> buf g)).

Lemma keyOf_backend (f : esdm_fragment_t) : is_Some (keyOf f) -> is_Some (backend f).
Proof. intros [key E]. unfold keyOf in E. destruct (backend f); [eauto | done]. Qed.

Lemma deallocate_ok (s : store B) (v : nat) (f : esdm_fragment_t) :
  disposable s v f ->
  exists h, esdmI_fragments_deallocateValue v s = Done (Store (delete v (objects s)) h (disk s)) /\
  forall block, (ownsBuf f = true -> buf f <> Some (block, 0)) -> h !! block = memory s !! block.
Proof.
  intros [Eo _ _ Hc Hb]. unfold esdmI_fragments_deallocateValue, esdm_fragment_destroy. rewrite Eo. run. rewrite decide_False by done.
  destruct (ownsBuf f) eqn:Eown.
  - destruct (Hb eq_refl) as (block & -> & Hblk). cbn [free fst snd]. rewrite decide_True by done. run. eexists. split; [done |].
    intros block' Hne. rewrite lookup_delete_ne; [done |]. intros ->. by destruct (Hne eq_refl).
  - run. eexists. split; [done |]. done.
Qed.

Lemma disposable_step (s s' : store B) (v w : nat) (f g : esdm_fragment_t) :
  disposable s w g -> v <> w -> objects s !! v = Some f -> (forall u, u <> v -> objects s' !! u = objects s !! u) ->
  (forall block, (ownsBuf f = true -> buf f <> Some (block, 0)) -> memory s' !! block = memory s !! block) ->
  (ownsBuf f = true -> ownsBuf g = true -> buf f <> buf g) -> disposable s' w g.
Proof.
  intros [Eo Hok Hk Hc Hb] Hne Ef Hobj Hmem Hap. constructor; try done; [by rewrite Hobj |].
  intros Ho. destruct (Hb Ho) as (block & Ebuf & Hblk). exists block. split; [done |]. rewrite Hmem; [done |].
  intros Hof Ef'. apply (Hap Hof Ho). by rewrite Ef', Ebuf.
Qed.

(** The rest of the list after its head was deleted or kept. *)
Lemma all_disposable_tail (s s' : store B) (v : nat) (vs : list nat) (f : esdm_fragment_t) :
  all_disposable s (v :: vs) -> objects s !! v = Some f -> (forall u, u <> v -> objects s' !! u = objects s !! u) ->
  (forall block, (ownsBuf f = true -> buf f <> Some (block, 0)) -> memory s' !! block = memory s !! block) -> all_disposable s' vs.
Proof.
  intros (Hnd & Hall & Hap) Ef Hobj Hmem. apply NoDup_cons in Hnd as [Hni Hnd].
  assert (Hne : forall w, w ∈ vs -> w <> v) by (by intros w Hw ->).
  split; [done |]. split.
  - intros w Hw. destruct (Hall w) as [g Hg]; [by right |]. exists g. apply (disposable_step s s' v w f); try done; [by intros -> |].
    apply (Hap v w); [by left | by right | by intros -> | done | apply Hg].
  - intros w u g g' Hw Hu Hwu Eg Eg'. rewrite Hobj in Eg, Eg' by auto. apply (Hap w u); auto; by right.
Qed.

(** What the loop leaves: the removed fragments are gone, from memory and from the storage. *)
Lemma deleteAll_loop_ok (entries : list (esdmI_hypercube_t * nat)) (st0 : esdm_status) (s : store B) :
  all_disposable s entries.*2 -> backend_inv (disk s) ->
  exists removed st s',
    foreach_remove_loop esdmI_fragments_deleteFragmentsFromBackend
      (fun value '(r, s) => s ← esdmI_fragments_deallocateValue value s; mret (r, s)) entries (st0, s) = Done (removed, (st, s')) /\
    backend_inv (disk s') /\ removed ⊆ entries.*2 /\
    (st = ESDM_SUCCESS <-> st0 = ESDM_SUCCESS /\ entries.*2 ⊆ removed) /\
    (forall v f, v ∈ removed -> objects s !! v = Some f -> objects s' !! v = None /\ forall key, keyOf f = Some key -> stored (disk s') key = None) /\
    (forall v, v ∉ removed -> objects s' !! v = objects s !! v) /\
    (forall key, (forall v f, v ∈ entries.*2 -> objects s !! v = Some f -> keyOf f <> Some key) -> stored (disk s') key = stored (disk s) key).
Proof.
  revert st0 s. induction entries as [| e entries IH]; intros st0 s Hdis Hb.
  { exists [], st0, s. cbn [foreach_remove_loop]. split; [done |]. split; [done |]. split; [done |].
    split; [split; [by intros -> | by intros [-> _]] |]. split; [by intros v f ?%elem_of_nil | done]. }
  cbn [fmap list_fmap] in *. pose proof Hdis as (Hnd & Hall & Hapart). apply NoDup_cons in Hnd as [Hni Hnd].
  destruct (Hall e.2) as [f Hf]; [by left |]. pose proof Hf as [Eo Hok [key Ekey] Hclean Hbuf].
  cbn [foreach_remove_loop esdmI_fragments_deleteFragmentsFromBackend]. rewrite Eo. run.
  destruct (keyOf_backend f) as [k Ek]; [eauto |]. rewrite Ek. run.
  destruct (delete_law f (disk s) k key Hok Ek Ekey Hb) as (result & b & -> & Hb' & Hoth & Hgone). run. cbn [fst snd].
  set (st1 := if decide (st0 = ESDM_SUCCESS) then result else st0).
  assert (Hst1 : st1 = ESDM_SUCCESS <-> st0 = ESDM_SUCCESS /\ result = ESDM_SUCCESS) by (unfold st1; case_decide; naive_solver).
  (* the state before the rest of the loop *)
  assert (exists s1, (if bool_decide (result = ESDM_SUCCESS)
                      then s0 ← esdmI_fragments_deallocateValue e.2 (Store (objects s) (memory s) b); mret (st1, s0)
                      else mret (st1, Store (objects s) (memory s) b)) = Done (st1, s1) /\ disk s1 = b /\
    (forall u, u <> e.2 -> objects s1 !! u = objects s !! u) /\
    (forall block, (ownsBuf f = true -> buf f <> Some (block, 0)) -> memory s1 !! block = memory s !! block) /\
    objects s1 !! e.2 = (if bool_decide (result = ESDM_SUCCESS) then None else Some f)) as (s1 & E1 & Ed & Hobj & Hmem & He2).
  { case_bool_decide.
    - destruct (deallocate_ok (Store (objects s) (memory s) b) e.2 f) as (h & -> & Hh).
      { constructor; (done || by exists key). }
      run. eexists. split; [done |]. cbn [disk objects memory]. split; [done |]. split; [intros u Hu; by rewrite lookup_delete_ne |].
      split; [done |]. by rewrite lookup_delete_eq.
    - eexists. split; [done |]. done. }
  cbn [mbind outcome_bind] in E1 |- *. rewrite E1. run.
  pose proof (all_disposable_tail s s1 e.2 entries.*2 f Hdis Eo Hobj Hmem) as Hdis1.
  destruct (IH st1 s1 Hdis1) as (removed & st & s' & -> & Hb2 & Hsub & Hst & Hrem & Hkeep & Hstore); [by rewrite Ed |]. run. cbn [fst snd].
  eexists _, st, s'. split; [done |]. split; [done |].
  assert (Hni' : e.2 ∉ removed) by (intros Hin; by apply Hni, Hsub).
  split; [case_bool_decide; clear -Hsub; set_solver |]. split; [| split; [| split]].
  - rewrite Hst, Hst1. case_bool_decide as Hr; clear -Hr Hni Hni' Hsub; set_solver.
  - intros v g Hv Eg. destruct (decide (v = e.2)) as [-> | Hne].
    + rewrite Eo in Eg. injection Eg as <-. case_bool_decide as Hr; [| set_solver].
      rewrite Hkeep by done. split; [done |]. intros key' Ekey'. rewrite Ekey in Ekey'. injection Ekey' as <-. rewrite Hstore.
      * rewrite Ed. by apply Hgone.
      * intros w g Hw Eg. assert (w <> e.2) by (by intros ->). rewrite Hobj in Eg by done.
        destruct (Hapart w e.2 g f) as [Hk _]; [by right | by left | done | done | done |]. by rewrite <- Ekey.
    + apply Hrem; [case_bool_decide; set_solver | by rewrite Hobj].
  - intros v Hv. destruct (decide (v = e.2)) as [-> | Hne].
    + rewrite Hkeep, He2 by done. case_bool_decide; [set_solver | by rewrite Eo].
    + rewrite Hkeep, Hobj by (done || (case_bool_decide; set_solver)). done.
  - intros key' Hk. rewrite Hstore; [rewrite Ed; apply Hoth; intros ->; by apply (Hk e.2 f); [left | |] |].
    intros v g Hv Eg. assert (v <> e.2) by (by intros ->). rewrite Hobj in Eg by done. apply (Hk v); [by right | done].
Qed.

(** [esdmI_fragments_deleteAll()] on clean fragments removes from the table exactly the
    fragments whose data the backends deleted, destroys those objects, and returns success
    exactly when the table is empty afterwards; other objects and other entries of the storage
    are not touched. *)
Theorem delete_all_correct (t : T) (s : store B) :
  all_disposable s (g_hash_table_entries t).*2 -> backend_inv (disk s) ->
  exists st t' s', esdmI_fragments_deleteAll t s = Done (st, t', s') /\
  g_hash_table_entries t' ⊆ g_hash_table_entries t /\
  (st = ESDM_SUCCESS <-> g_hash_table_entries t' = []) /\
  (forall e f, e ∈ g_hash_table_entries t -> objects s !! e.2 = Some f ->
     (e ∈ g_hash_table_entries t' /\ objects s' !! e.2 = Some f) \/
     ((e ∉ g_hash_table_entries t') /\ objects s' !! e.2 = None /\ forall key, keyOf f = Some key -> stored (disk s') key = None)) /\
  (forall v, v ∉ (g_hash_table_entries t).*2 -> objects s' !! v = objects s !! v) /\
  (forall key, (forall v f, v ∈ (g_hash_table_entries t).*2 -> objects s !! v = Some f -> keyOf f <> Some key) ->
     stored (disk s') key = stored (disk s) key).
Proof.
  intros Hdis Hb. unfold esdmI_fragments_deleteAll, g_hash_table_foreach_remove.
  destruct (deleteAll_loop_ok (g_hash_table_entries t) ESDM_SUCCESS s Hdis Hb) as (removed & st & s' & -> & _ & Hsub & Hst & Hrem & Hkeep & Hstore).
  run. cbn [fst snd]. eexists st, _, s'. split; [done |].
  assert (Ht : forall e, e ∈ g_hash_table_entries (g_hash_table_remove t removed) <-> (e.2 ∉ removed) /\ e ∈ g_hash_table_entries t).
  { intros e. by rewrite remove_law, list_elem_of_filter. }
  split; [intros e He; by apply Ht |]. split; [| split; [| split; [| done]]].
  - rewrite Hst. split.
    + intros [_ Hall]. destruct (g_hash_table_entries (g_hash_table_remove t removed)) as [| e l] eqn:E; [done |]. exfalso.
      destruct (proj1 (Ht e)) as [Hn He]; [left |]. apply Hn, Hall. apply list_elem_of_fmap. by exists e.
    + intros E. split; [done |]. intros v [e [-> He]]%list_elem_of_fmap. destruct (decide (e.2 ∈ removed)) as [| Hn]; [done |].
      assert (Hin : e ∈ g_hash_table_entries (g_hash_table_remove t removed)) by (by apply Ht). rewrite E in Hin. by apply elem_of_nil in Hin.
  - intros e f He Ef. destruct (decide (e.2 ∈ removed)) as [Hr | Hr].
    + right. split; [intros Hin%Ht; by destruct Hin |]. by apply Hrem.
    + left. split; [by apply Ht | by rewrite Hkeep].
  - intros v Hv. apply Hkeep. intros Hr. by apply Hv, Hsub.
Qed.

End Deletion.

(** * A hash table *)

(** The table as a list of entries, searched the way a bucket is: hash codes first, then the
    equality callback. *)
Module HashList.

Abbreviation hashList := (list (esdmI_hypercube_t * nat)).

Fixpoint search (t : hashList) (hash : Z) (key : esdmI_hypercube_t) : outcome (option nat) :=
  match t with
  | [] => mret None
  | e :: t' =>
      hash' ← esdmI_fragments_hashKey e.1;
      if hash' =? hash then
        same ← esdmI_fragments_equalKeys e.1 key;
        if same : bool then mret (Some e.2) else search t' hash key
      else search t' hash key
  end.

Definition lookup (t : hashList) (key : esdmI_hypercube_t) : outcome (option nat) :=
  hash ← esdmI_fragments_hashKey key; search t hash key.

#[global] Instance hashTable : GHashTable hashList := {
  g_hash_table_new_full := [];
  g_hash_table_contains t key := r ← lookup t key; mret (bool_decide (is_Some r));
  g_hash_table_lookup := lookup;
  g_hash_table_insert t key v := mret ((key, v) :: t);
  g_hash_table_entries t := t;
  g_hash_table_remove t vs := filter (fun e => e.2 ∉ vs) t
}.

Lemma equalKeys_ok (n : nat) (a b : esdmI_hypercube_t) :
  length a = n -> length b = n -> esdmI_fragments_equalKeys a b = Done (bool_decide (a = b)).
Proof.
  intros Ha Hb. unfold esdmI_fragments_equalKeys, esdmI_hypercube_equal. rewrite eassert_true by (apply sameDims_iff; lia). run. f_equal.
  subst n. revert b Hb. induction a as [| r a IH]; intros [| r' b] [=]; cbn [equal_loop].
  - by rewrite bool_decide_true.
  - rewrite IH by done. destruct (esdmI_range_equal r r') eqn:E; cbn [negb].
    + apply range_equal_iff in E as ->. apply bool_decide_ext. naive_solver.
    + symmetry. apply bool_decide_false. intros [= -> _]. assert (esdmI_range_equal r' r' = true) by (by apply range_equal_iff). congruence.
Qed.

Lemma search_ok (n : nat) (t : hashList) (key : esdmI_hypercube_t) (hash : Z) :
  Forall (key_ok n) t.*1 -> NoDup t.*1 -> length key = n -> esdmI_fragments_hashKey key = Done hash ->
  exists r, search t hash key = Done r /\ forall v, r = Some v <-> (key, v) ∈ t.
Proof.
  intros Hall Hnd Hl Hh. induction t as [| [k w] t IH].
  { exists None. split; [done |]. intros v. rewrite elem_of_nil. done. }
  apply Forall_cons in Hall as [[Hk [h Eh]] Hall]. apply NoDup_cons in Hnd as [Hni Hnd]. destruct (IH Hall Hnd) as (r & E & Hr).
  cbn [search fst snd]. cbn [fst] in Eh, Hk. rewrite Eh. run. rewrite (equalKeys_ok n) by done. run. destruct (decide (k = key)) as [-> | Hne].
  - rewrite Hh in Eh. injection Eh as <-. rewrite Z.eqb_refl, bool_decide_true by done. exists (Some w). split; [done |].
    intros v. rewrite elem_of_cons. split; [intros [= ->]; by left |]. intros [[= ->] | Hin]; [done |].
    destruct Hni. apply list_elem_of_fmap. by exists (key, v).
  - exists r. rewrite bool_decide_false by done. split; [by destruct (h =? hash) |]. intros v. rewrite elem_of_cons, Hr. naive_solver.
Qed.

Lemma lookup_ok (n : nat) (t : hashList) (key : esdmI_hypercube_t) :
  table_wf n t -> key_ok n key -> exists r, lookup t key = Done r /\ forall v, r = Some v <-> (key, v) ∈ t.
Proof. intros [H1 H2 _] [Hl [hash Eh]]. unfold lookup. rewrite Eh. run. by apply (search_ok n). Qed.

#[global] Instance hashTableLaws : GHashTableLaws hashList.
Proof.
  constructor; try done.
  - intros n t key Ht Hk. cbn. destruct (lookup_ok n t key Ht Hk) as (r & -> & Hr). run. f_equal. apply bool_decide_ext.
    rewrite list_elem_of_fmap. split.
    + intros [v Ev]. exists (key, v). split; [done | by apply Hr].
    + intros [[k v] [-> Hin]]. apply Hr in Hin. by exists v.
  - intros n t key Ht Hk. by apply (lookup_ok n).
  - intros n t key v _ _ _. by eexists.
Qed.

End HashList.

(** Two fragments of a 2 x 4 dataset, in a file system that holds both. *)
Definition blockFragment (id : nat) (column : Z) (b : nat) : esdm_fragment_t :=
  Fragment (Some (MapFS.ids id)) "dst" (Dataspace SMD_DTYPE_INT16 2 [2; 2] [0; column] false None) (Some 0%nat) (Some (b, 0)) 4 8
    SIZE_NONE ESDM_DATA_PERSISTENT true.

Definition blockTable : HashList.hashList :=
  [([{| rstart := 0; rend := 2 |}; {| rstart := 2; rend := 4 |}], 1%nat); ([{| rstart := 0; rend := 2 |}; {| rstart := 0; rend := 2 |}], 0%nat)].

Definition blockStore : store (posix_state (FS := MapFS.mapFS)) :=
  Store {[0%nat := blockFragment 0 0 0; 1%nat := blockFragment 1 2 1]} {[0%nat := fun a => a; 1%nat := fun a => a]}
    (PosixState {[pathOf (MapFS.targets 0) "dst" (MapFS.ids 0) := [0; 1; 2; 3; 4; 5; 6; 7];
                  pathOf (MapFS.targets 0) "dst" (MapFS.ids 1) := [0; 1; 2; 3; 4; 5; 6; 7]]} 2).

Lemma blockFragment_ok (id : nat) (column : Z) (b : nat) : 0 <= column <= 2 -> fragment_ok (blockFragment id column b).
Proof.
  intros Hc. constructor; [solve_id | intros ? [= <-]; apply MapFS.ids_valid | | done | done | solve_backend].
  apply data_space_intro; [done | by constructor | | by repeat constructor | | done | done].
  - unfold space_int64, INT64_MIN, INT64_MAX. simpl. constructor; [lia |]. constructor; [lia | constructor].
  - simpl. constructor; [lia |]. constructor; [lia | constructor].
Qed.

Lemma blockTable_inv : fragments_inv 2 blockTable (objects blockStore).
Proof.
  assert (Hkey : forall key, key ∈ blockTable.*1 -> key_ok 2 key).
  { intros key [-> | [-> | []%elem_of_nil]%elem_of_cons]%elem_of_cons; (split; [done |]; eexists; vm_compute; reflexivity). }
  constructor; [constructor |].
  - by apply Forall_forall.
  - apply (bool_decide_unpack _). by vm_compute.
  - apply (bool_decide_unpack _). by vm_compute.
  - intros key v [[= -> ->] | [[= -> ->] | []%elem_of_nil]%elem_of_cons]%elem_of_cons; (eexists; split; [vm_compute; reflexivity |]);
      (split; [| done]); constructor; try (by constructor); [by constructor; [done | constructor] | | by constructor; [done | constructor] |];
      (split; [done |]; eexists; vm_compute; reflexivity).
Qed.

(** Both fragments are needed for the two middle columns. *)
Lemma covering_set_correct_witness :
  let region := [{| rstart := 0; rend := 2 |}; {| rstart := 1; rend := 3 |}] in
  exists vs, esdmI_fragments_makeSetCoveringRegion blockTable region = Done vs /\ NoDup vs /\ vs = [1%nat; 0%nat].
Proof.
  intros region. destruct (covering_set_correct 2 blockTable (objects blockStore) region blockTable_inv) as (vs & E & Hnd & _).
  - split; [by repeat constructor | done].
  - split; [done |]. eexists. vm_compute. reflexivity.
  - by repeat constructor.
  - exists vs. split; [exact E |]. split; [exact Hnd |]. vm_compute in E. by injection E as <-.
Defined.

Lemma blocks_disposable : all_disposable blockStore blockTable.*2.
Proof.
  split; [apply (bool_decide_unpack _); by vm_compute |]. split.
  - intros v [-> | [-> | []%elem_of_nil]%elem_of_cons]%elem_of_cons; [exists (blockFragment 1 2 1) | exists (blockFragment 0 0 0)];
      (constructor; [reflexivity | by apply blockFragment_ok | by eexists | done |]);
      intros _; eexists; (split; [reflexivity |]); by eexists.
  - intros v w f g [-> | [-> | []%elem_of_nil]%elem_of_cons]%elem_of_cons [-> | [-> | []%elem_of_nil]%elem_of_cons]%elem_of_cons Hne Ef Eg;
      try done; vm_compute in Ef, Eg; injection Ef as <-; injection Eg as <-; by split.
Qed.

(** Both fragments are deleted. *)
Lemma delete_all_correct_witness :
  all_disposable blockStore blockTable.*2 /\
  exists st t' s', esdmI_fragments_deleteAll blockTable blockStore = Done (st, t', s') /\ st = ESDM_SUCCESS /\ g_hash_table_entries t' = [].
Proof.
  pose proof blocks_disposable as Hd. split; [exact Hd |].
  destruct (delete_all_correct blockTable blockStore) as (st & t' & s' & E & _ & Hst & _); [exact Hd | exact I |].
  exists st, t', s'. split; [exact E |].
  assert (Hrun : match esdmI_fragments_deleteAll blockTable blockStore with Done (st, _, _) => st | _ => ESDM_ERROR end = ESDM_SUCCESS) by (by vm_compute).
  rewrite E in Hrun. subst st. split; [reflexivity | by apply Hst].
Defined.

(** [esdmI_fragments_deallocateValue()] asserts that the fragment could be destroyed, and
    [esdm_fragment_destroy()] refuses a dirty fragment: purging a table that holds a fragment
    whose data could not be written aborts the process. *)
Lemma purge_aborts_on_dirty :
  esdmI_fragments_purge [(extends (dataspace writtenFragment), 0%nat)] (Store {[0%nat := writtenFragment]} {[0%nat := fun a => a]} (PosixState (FS := MapFS.mapFS) ∅ 0)) = Abort.
Proof. by vm_compute. Qed.
