(* ===== verification/Request.v ===== *)
(** The requests of the scheduler (src/esdm-scheduler.c): the status object that the main thread and
    the backend threads share, the dispatch of tasks to the thread pools, the critical section of
    [backend_thread()] and [esdm_scheduler_wait()], as a transition system in which the threads
    interleave at every access to the shared object.  What a task does to the data is a parameter;
    the scheduler's tasks are in Scheduler.v. *)

From stdpp Require Import sets.
From S2P Require Import Prelude Hypercube HypercubeSet Json Odometer Dataspace.

Open Scope Z_scope.

(** * The shared state *)

Record io_request_status_t := RequestStatus { pending_ops : Z; return_code : esdm_status }.

(** [esdm_scheduler_status_init()] *)
Definition esdm_scheduler_status_init : io_request_status_t := RequestStatus 0 ESDM_SUCCESS.

(** Where a task is: waiting in the pool; started; its operation and callback have returned; and the
    steps of the critical section of [backend_thread()]. *)
Inductive work_phase :=
| Queued
| Running
| Returned (ret : esdm_status)
| Locked (ret : esdm_status)
| Counted (ret : esdm_status) (pendings : Z)
| Noted (pendings : Z)
| Signalled
| Unlocked
| Finished.

(** What the main thread does before it waits: it announces tasks, pushes them, and works on items
    (fragments to read, regions to write), which yields the next commands. *)
Inductive command (Q T : Type) :=
| AddPending (n : Z)
| Push (task : T)
| Prepare (item : Q).
Arguments AddPending {Q T} n.
Arguments Push {Q T} task.
Arguments Prepare {Q T} item.

(** The main thread: dispatching, in [esdm_scheduler_wait()] and in [esdm_scheduler_status_finalize()]. *)
Inductive main_pc (Q T : Type) :=
| Dispatch (commands : list (command Q T))
| WaitLock
| WaitTest
| WaitSleep
| WaitLeave
| Finalize
| ReturnedMain (ret : esdm_status).
Arguments Dispatch {Q T} commands.
Arguments WaitLock {Q T}.
Arguments WaitTest {Q T}.
Arguments WaitSleep {Q T}.
Arguments WaitLeave {Q T}.
Arguments Finalize {Q T}.
Arguments ReturnedMain {Q T} ret.

Inductive thread := MainThread | Worker (i : nat).

#[global] Instance thread_eq_dec : EqDecision thread.
Proof. solve_decision. Defined.

(** The world is what the tasks work on; [finalized] is set when the mutex has been cleared. *)
Record system (Q T W : Type) := System {
  world : W;
  request : io_request_status_t;
  mutex : option thread;
  finalized : bool;
  pc : main_pc Q T;
  tasks : list (T * work_phase)
}.
Arguments System {Q T W} world request mutex finalized pc tasks.
Arguments world {Q T W} s.
Arguments request {Q T W} s.
Arguments mutex {Q T W} s.
Arguments finalized {Q T W} s.
Arguments pc {Q T W} s.
Arguments tasks {Q T W} s.

(** A task that has a thread. *)
Definition active (p : work_phase) : bool :=
  match p with Queued | Finished => false | _ => true end.

Definition unfinished (p : work_phase) : bool :=
  match p with Finished => false | _ => true end.

(** * The threads *)

Section Steps.

Context {Q T W : Type}.

(** The backend of a task, the number of threads of a backend, what the main thread does with an
    item, and what a task does. *)
Context (backendOf : T -> nat) (threads : nat -> nat) (prepare : Q -> W -> outcome (list (command Q T) * W))
  (perform : T -> W -> outcome (esdm_status * W)).

Abbreviation state := (system Q T W).

Definition setPc (s : state) (pc' : main_pc Q T) : state := System (world s) (request s) (mutex s) (finalized s) pc' (tasks s).
Definition setMutex (s : state) (m : option thread) : state := System (world s) (request s) m (finalized s) (pc s) (tasks s).
Definition setRequest (s : state) (r : io_request_status_t) : state := System (world s) r (mutex s) (finalized s) (pc s) (tasks s).
Definition setPhase (s : state) (i : nat) (t : T) (p : work_phase) : state :=
  System (world s) (request s) (mutex s) (finalized s) (pc s) (<[i := (t, p)]> (tasks s)).

(** A backend without threads: the main thread runs the task itself, and dispatches nothing else
    before the task is finished. *)
Definition inline (t : T) : bool := (threads (backendOf t) =? 0)%nat.

Definition inlineBusy (s : state) : bool := existsb (fun e => inline e.1 && unfinished e.2) (tasks s).

Definition activeOn (b : nat) (s : state) : nat :=
  length (filter (fun e => backendOf e.1 = b /\ active e.2 = true) (tasks s)).

(** A step of the main thread; [None] when it is blocked or has returned.  [g_cond_wait()] releases
    the mutex and sleeps until it is woken. *)
Definition main_step (s : state) : outcome (option state) :=
  match pc s with
  | Dispatch [] => if inlineBusy s then mret None else mret (Some (setPc s WaitLock))
  | Dispatch (AddPending n :: cs) =>
      if inlineBusy s then mret None
      else mret (Some (setPc (setRequest s (RequestStatus (to_int32 (pending_ops (request s) + n)) (return_code (request s)))) (Dispatch cs)))
  | Dispatch (Push t :: cs) =>
      if inlineBusy s then mret None
      else mret (Some (System (world s) (request s) (mutex s) (finalized s) (Dispatch cs) (tasks s ++ [(t, Queued)])))
  | Dispatch (Prepare q :: cs) =>
      if inlineBusy s then mret None
      else
        '(cs', w) ← prepare q (world s);
        mret (Some (System w (request s) (mutex s) (finalized s) (Dispatch (cs' ++ cs)) (tasks s)))
  | WaitLock =>
      match mutex s with
      | None => mret (Some (setPc (setMutex s (Some MainThread)) WaitTest))
      | Some _ => mret None
      end
  | WaitTest =>
      if pending_ops (request s) =? 0 then mret (Some (setPc s WaitLeave))
      else mret (Some (setPc (setMutex s None) WaitSleep))
  | WaitSleep => mret None
  | WaitLeave => mret (Some (setPc (setMutex s None) Finalize))
  | Finalize =>
      match mutex s with
      | None => mret (Some (System (world s) (request s) None true (ReturnedMain (return_code (request s))) (tasks s)))
      | Some _ => Undef
      end
  | ReturnedMain _ => mret None
  end.

(** [g_cond_signal()] wakes the main thread when it sleeps. *)
Definition signal (s : state) : state :=
  match pc s with WaitSleep => setPc s WaitLock | _ => s end.

(** The accesses to the status object are undefined once it was finalised. *)
Definition live (s : state) : outcome unit := if finalized s then Undef else mret tt.

(** A step of [backend_thread()] for task [i]; [None] when it is blocked or finished. *)
Definition worker_step (i : nat) (s : state) : outcome (option state) :=
  match tasks s !! i with
  | None => mret None
  | Some (t, phase) =>
      match phase with
      | Queued =>
          if inline t || (activeOn (backendOf t) s <? threads (backendOf t))%nat then mret (Some (setPhase s i t Running)) else mret None
      | Running =>
          '(ret, w) ← perform t (world s);
          mret (Some (System w (request s) (mutex s) (finalized s) (pc s) (<[i := (t, Returned ret)]> (tasks s))))
      | Returned ret =>
          live s;;
          match mutex s with
          | None => mret (Some (setPhase (setMutex s (Some (Worker i))) i t (Locked ret)))
          | Some _ => mret None
          end
      | Locked ret =>
          live s;;
          let pendings := u64 (pending_ops (request s)) in
          mret (Some (setPhase (setRequest s (RequestStatus (to_int32 (pending_ops (request s) - 1)) (return_code (request s)))) i t (Counted ret pendings)))
      | Counted ret pendings =>
          live s;;
          mret (Some (setPhase (if decide (ret <> ESDM_SUCCESS) then setRequest s (RequestStatus (pending_ops (request s)) ret) else s)
                        i t (Noted pendings)))
      | Noted pendings =>
          eassert (pendings >=? 1);;
          live s;;
          mret (Some (setPhase (if pendings =? 1 then signal s else s) i t Signalled))
      | Signalled =>
          live s;;
          mret (Some (setPhase (setMutex s None) i t Unlocked))
      | Unlocked => mret (Some (setPhase s i t Finished))
      | Finished => mret None
      end
  end.

(** The interleavings.  [g_cond_wait()] may also return without a signal. *)
Inductive step (s : state) : state -> Prop :=
| step_main s' : main_step s = Done (Some s') -> step s s'
| step_worker i s' : worker_step i s = Done (Some s') -> step s s'.

Inductive spurious (s : state) : state -> Prop :=
| wakeup : pc s = WaitSleep -> spurious s (setPc s WaitLock).

(** Executions with the numbers of proper steps and of spurious wakeups. *)
Inductive execution (s : state) : nat -> nat -> state -> Prop :=
| execution_start : execution s 0 0 s
| execution_step n k s1 s2 : execution s n k s1 -> step s1 s2 -> execution s (S n) k s2
| execution_wakeup n k s1 s2 : execution s n k s1 -> spurious s1 s2 -> execution s n (S k) s2.

(** A request with the commands that dispatch its tasks. *)
Definition start (w : W) (commands : list (command Q T)) : state :=
  System w esdm_scheduler_status_init None false (Dispatch commands) [].

(** Nothing is left to do. *)
Definition finished (s : state) : Prop :=
  (exists ret, pc s = ReturnedMain ret) /\ Forall (fun e => e.2 = Finished) (tasks s).

(** The tasks and the items of a list of commands. *)
Definition pushed (commands : list (command Q T)) : list T :=
  omap (fun c => match c with Push t => Some t | _ => None end) commands.

Definition items (commands : list (command Q T)) : list Q :=
  omap (fun c => match c with Prepare q => Some q | _ => None end) commands.

(** What an item yields: the task of an item that was [announced] before, or, for other items,
    nothing or the announcement and the task. *)
Definition item_commands (announced : bool) (commands : list (command Q T)) : Prop :=
  if announced then exists t, commands = [Push t] else commands = [] \/ exists t, commands = [AddPending 1; Push t].

(** Each task is announced before it is pushed, and every announced task is pushed. *)
Fixpoint announces (announced : Q -> bool) (n : Z) (commands : list (command Q T)) : Prop :=
  match commands with
  | [] => n = 0
  | AddPending k :: cs => 0 <= k /\ announces announced (n + k) cs
  | Push _ :: cs => 1 <= n /\ announces announced (n - 1) cs
  | Prepare q :: cs => if announced q then 1 <= n /\ announces announced (n - 1) cs else announces announced n cs
  end.

End Steps.

(** * Sums over lists *)

Section Total.

Context {A : Type} (f : A -> Z).

Definition total (l : list A) : Z := foldr (fun a n => f a + n) 0 l.

Lemma total_cons (a : A) (l : list A) : total (a :: l) = f a + total l.
Proof. reflexivity. Qed.

Lemma total_app (l k : list A) : total (l ++ k) = total l + total k.
Proof. induction l as [| a l IH]; simpl; [done |]. rewrite IH. lia. Qed.

Lemma total_insert (l : list A) (i : nat) (a b : A) : l !! i = Some a -> total (<[i := b]> l) = total l - f a + f b.
Proof.
  revert i. induction l as [| c l IH]; intros [| i] E; simpl in *; try discriminate; [injection E as ->; lia |].
  rewrite (IH i E). lia.
Qed.

Lemma total_nonneg (l : list A) : (forall a, 0 <= f a) -> 0 <= total l.
Proof. intros H. induction l as [| a l IH]; simpl; [done |]. specialize (H a). lia. Qed.

Lemma total_elem (l : list A) (a : A) : (forall a, 0 <= f a) -> a ∈ l -> f a <= total l.
Proof.
  intros H. induction l as [| b l IH]; [by intros ?%elem_of_nil |]. simpl. pose proof (total_nonneg l H). pose proof (H b).
  intros [-> | Hin]%elem_of_cons; [lia |]. specialize (IH Hin). lia.
Qed.

Lemma total_length (l : list A) : (forall a, f a <= 1) -> total l <= Z.of_nat (length l).
Proof. intros H. induction l as [| a l IH]; simpl; [done |]. specialize (H a). lia. Qed.

End Total.

Lemma to_int32_ok (z : Z) : - 2 ^ 31 <= z < 2 ^ 31 -> to_int32 z = z.
Proof. intros H. unfold to_int32. rewrite Z.mod_small by lia. lia. Qed.

(** * The invariant *)

Section Protocol.

Context {Q T W : Type} (backendOf : T -> nat) (threads : nat -> nat) (prepare : Q -> W -> outcome (list (command Q T) * W))
  (perform : T -> W -> outcome (esdm_status * W)).

(** The items of the request, which of them are announced together, and the world it starts in. *)
Context (qs : list Q) (announced : Q -> bool) (w0 : W).

(** What has happened to the world so far: items were prepared, in their order, and tasks were
    performed, in any order. *)
Inductive event :=
| Prepared (q : Q) (commands : list (command Q T))
| Performed (i : nat) (ret : esdm_status).

Definition preparedItems (ev : list event) : list Q := omap (fun e => match e with Prepared q _ => Some q | Performed _ _ => None end) ev.
Definition submitted (ev : list event) : list T := ev ≫= fun e => match e with Prepared _ cs => pushed cs | Performed _ _ => [] end.
Definition results (ev : list event) : list (nat * esdm_status) :=
  omap (fun e => match e with Performed i ret => Some (i, ret) | Prepared _ _ => None end) ev.

Inductive happens : list event -> W -> Prop :=
| happens_nil : happens [] w0
| happens_prepare ev w q cs w' :
    happens ev w -> qs !! length (preparedItems ev) = Some q -> prepare q w = Done (cs, w') -> happens (ev ++ [Prepared q cs]) w'
| happens_perform ev w i t ret w' :
    happens ev w -> submitted ev !! i = Some t -> i ∉ (results ev).*1 -> perform t w = Done (ret, w') -> happens (ev ++ [Performed i ret]) w'.

Definition uncounted (p : work_phase) : bool :=
  match p with Queued | Running | Returned _ | Locked _ => true | _ => false end.

Definition holding (p : work_phase) : bool :=
  match p with Locked _ | Counted _ _ | Noted _ | Signalled => true | _ => false end.

Definition counter (p : work_phase) : option Z :=
  match p with Counted _ n | Noted n => Some n | _ => None end.

Definition noted (p : work_phase) : bool :=
  match p with Noted _ | Signalled | Unlocked | Finished => true | _ => false end.

Definition result (p : work_phase) : option esdm_status :=
  match p with Returned r | Locked r | Counted r _ => Some r | _ => None end.

Definition waiting (p : work_phase) : bool :=
  match p with Queued | Running => true | _ => false end.

Definition remaining (pc : main_pc Q T) : list (command Q T) :=
  match pc with Dispatch cs => cs | _ => [] end.

(** Prepared tasks are pushed before the next item is prepared. *)
Fixpoint pushed_first (cs : list (command Q T)) : Prop :=
  match cs with
  | [] => True
  | Prepare _ :: cs' => pushed cs' = []
  | _ :: cs' => pushed_first cs'
  end.

(** The main thread has left [esdm_scheduler_wait()]. *)
Definition left_wait (pc : main_pc Q T) : bool :=
  match pc with Finalize | ReturnedMain _ => true | _ => false end.

Definition main_holds (pc : main_pc Q T) : bool :=
  match pc with WaitTest | WaitLeave => true | _ => false end.

Definition no_pending (pc : main_pc Q T) : bool :=
  match pc with WaitLeave | Finalize | ReturnedMain _ => true | _ => false end.

Abbreviation rc := (fun s : system Q T W => return_code (request s)).
Abbreviation pending := (fun s : system Q T W => pending_ops (request s)).

Definition uncountedTasks (s : system Q T W) : Z := total (fun e => if uncounted e.2 then 1 else 0) (tasks s).

Record task_ok (log : list (nat * esdm_status)) (s : system Q T W) (i : nat) (p : work_phase) : Prop := {
  tk_waiting : waiting p = true <-> i ∉ log.*1;
  tk_result : forall r, result p = Some r -> (i, r) ∈ log;
  tk_mutex : holding p = true <-> mutex s = Some (Worker i);
  tk_counter : forall n, counter p = Some n -> 1 <= n /\ (pc s = WaitSleep -> n = pending s + 1);
  tk_noted : noted p = true -> forall r, (i, r) ∈ log -> r <> ESDM_SUCCESS -> rc s <> ESDM_SUCCESS;
  tk_left : left_wait (pc s) = true -> p = Unlocked \/ p = Finished
}.

Record request_inv (ev : list event) (s : system Q T W) : Prop := {
  ri_events : happens ev (world s);
  ri_once : NoDup (results ev).*1;
  ri_range : forall i, i ∈ (results ev).*1 -> (i < length (tasks s))%nat;
  ri_items : preparedItems ev ++ items (remaining (pc s)) = qs;
  ri_tasks : (tasks s).*1 ++ pushed (remaining (pc s)) = submitted ev;
  ri_first : pushed_first (remaining (pc s));
  ri_submitted : (length (submitted ev) <= length (preparedItems ev))%nat;
  ri_task : forall i t p, tasks s !! i = Some (t, p) -> task_ok (results ev) s i p;
  ri_pending : exists n, 0 <= n /\ announces announced n (remaining (pc s)) /\ pending s = n + uncountedTasks s;
  ri_main : mutex s = Some MainThread <-> main_holds (pc s) = true;
  ri_worker : forall i, mutex s = Some (Worker i) -> (i < length (tasks s))%nat;
  ri_sleep : pc s = WaitSleep -> 1 <= pending s \/ exists i t p, tasks s !! i = Some (t, p) /\ is_Some (counter p);
  ri_rc : rc s <> ESDM_SUCCESS -> exists i, (i, rc s) ∈ results ev;
  ri_done : no_pending (pc s) = true -> pending s = 0;
  ri_final : finalized s = true <-> exists r, pc s = ReturnedMain r;
  ri_return : forall r, pc s = ReturnedMain r -> r = rc s
}.

(** The fields of an updated system. *)
Ltac fields :=
  cbn [world request mutex finalized pc tasks setPc setMutex setRequest setPhase pending_ops return_code remaining main_holds no_pending left_wait].

Hypothesis count_fits : Z.of_nat (length qs) < 2 ^ 31.
Hypothesis prepare_commands : forall q w cs w', prepare q w = Done (cs, w') -> item_commands (announced q) cs.

Lemma announces_pushed (n : Z) (cs : list (command Q T)) : announces announced n cs -> n <= Z.of_nat (length (pushed cs) + length (items cs)).
Proof.
  revert n. induction cs as [| [k | t | q] cs IH]; intros n; simpl; [lia | | |].
  - intros [Hk H%IH]. lia.
  - intros [Hk H%IH]. lia.
  - destruct (announced q); [intros [Hk H%IH] | intros H%IH]; lia.
Qed.

Lemma pushed_app (cs cs' : list (command Q T)) : pushed (cs ++ cs') = pushed cs ++ pushed cs'.
Proof. apply omap_app. Qed.

Lemma items_app (cs cs' : list (command Q T)) : items (cs ++ cs') = items cs ++ items cs'.
Proof. apply omap_app. Qed.

Lemma results_app (ev ev' : list event) : results (ev ++ ev') = results ev ++ results ev'.
Proof. apply omap_app. Qed.

Lemma preparedItems_app (ev ev' : list event) : preparedItems (ev ++ ev') = preparedItems ev ++ preparedItems ev'.
Proof. apply omap_app. Qed.

Lemma submitted_app (ev ev' : list event) : submitted (ev ++ ev') = submitted ev ++ submitted ev'.
Proof. apply bind_app. Qed.

Lemma pushed_first_app (cs cs' : list (command Q T)) : items cs = [] -> pushed cs' = [] -> pushed_first (cs ++ cs').
Proof.
  intros Hi Hp. induction cs as [| [k | t | q] cs IH]; [| by apply IH | by apply IH | done].
  clear Hi. cbn [app]. induction cs' as [| [k | t | q] cs' IH]; [done | by apply IH | done | done].
Qed.

(** The commands of an item keep the count, and are at most one task. *)
Lemma item_commands_ok (q : Q) (cs cs' : list (command Q T)) (n : Z) :
  0 <= n -> item_commands (announced q) cs -> announces announced n (Prepare q :: cs') ->
  items cs = [] /\ (length (pushed cs) <= 1)%nat /\ announces announced n (cs ++ cs').
Proof.
  intros Hn. cbn [announces]. destruct (announced q); [intros [t ->] Ha | intros [-> | [t ->]] Ha]; (split; [done |]); (split; [simpl; lia |]); try done.
  cbn [announces app]. rewrite Z.add_simpl_r. split; [lia |]. split; [lia | done].
Qed.

Lemma uncounted_bounds (s : system Q T W) : 0 <= uncountedTasks s <= Z.of_nat (length (tasks s)).
Proof.
  split; [apply total_nonneg; intros e; destruct (uncounted e.2); lia | apply total_length; intros e; destruct (uncounted e.2); lia].
Qed.

Lemma tasks_fit (ev : list event) (s : system Q T W) :
  request_inv ev s -> Z.of_nat (length (tasks s) + length (pushed (remaining (pc s))) + length (items (remaining (pc s)))) < 2 ^ 31.
Proof.
  intros H. pose proof (ri_submitted _ _ H) as Hs. rewrite <- (ri_tasks _ _ H), length_app, length_fmap in Hs.
  rewrite <- (ri_items _ _ H), length_app in count_fits. lia.
Qed.

Lemma counter_holding (p : work_phase) : is_Some (counter p) -> holding p = true.
Proof. intros [n E]. by destruct p. Qed.

(** A task that another thread's step does not concern. *)
Lemma task_ok_frame (log log' : list (nat * esdm_status)) (s s' : system Q T W) (j : nat) (p : work_phase) :
  task_ok log s j p -> (forall r, (j, r) ∈ log <-> (j, r) ∈ log') -> (mutex s' = Some (Worker j) <-> mutex s = Some (Worker j)) ->
  (holding p = true -> pending s' = pending s /\ (pc s' = WaitSleep -> pc s = WaitSleep)) ->
  (rc s <> ESDM_SUCCESS -> rc s' <> ESDM_SUCCESS) -> (left_wait (pc s') = true -> left_wait (pc s) = true) -> task_ok log' s' j p.
Proof.
  intros [H1 H2 H3 H4 H5 H6] Hlog Hm Hh Hrc Hleft.
  assert (Hfst : j ∈ log.*1 <-> j ∈ log'.*1).
  { rewrite !list_elem_of_fmap. split; intros ([i r] & -> & Hin); exists (i, r); (split; [done |]); by apply Hlog. }
  constructor.
  - by rewrite H1, Hfst.
  - intros r Hr. by apply Hlog, H2.
  - by rewrite H3, Hm.
  - intros n Hn. destruct (Hh (counter_holding p (ex_intro _ n Hn))) as [-> Hs]. destruct (H4 n Hn) as [Hn1 Hn2]. split; [done | auto].
  - intros Hn r Hr Hne. apply Hrc. apply (H5 Hn r); [by apply Hlog | done].
  - auto.
Qed.

Lemma lookup_phase (s : system Q T W) (i j : nat) (t t' : T) (p p' : work_phase) :
  <[i := (t, p)]> (tasks s) !! j = Some (t', p') ->
  (j = i /\ p' = p /\ t' = t) \/ (j <> i /\ tasks s !! j = Some (t', p')).
Proof.
  intros E. destruct (decide (i = j)) as [<- | Hne].
  - apply list_lookup_insert_Some in E as [(_ & [= <- <-] & _) | [? _]]; [by left | done].
  - right. by rewrite list_lookup_insert_ne in E.
Qed.

Lemma tasks_types (s : system Q T W) (i : nat) (t : T) (p p' : work_phase) :
  tasks s !! i = Some (t, p) -> (<[i := (t, p')]> (tasks s)).*1 = (tasks s).*1.
Proof. intros E. rewrite list_fmap_insert. apply list_insert_id. by rewrite list_lookup_fmap, E. Qed.

Lemma uncounted_insert (s : system Q T W) (i : nat) (t : T) (p p' : work_phase) :
  tasks s !! i = Some (t, p) ->
  total (fun e : T * work_phase => if uncounted e.2 then 1 else 0) (<[i := (t, p')]> (tasks s)) =
  uncountedTasks s - (if uncounted p then 1 else 0) + (if uncounted p' then 1 else 0).
Proof. intros E. by rewrite (total_insert _ _ _ _ _ E). Qed.

Lemma log_same (log : list (nat * esdm_status)) (i : nat) (r r' : esdm_status) :
  NoDup log.*1 -> (i, r) ∈ log -> (i, r') ∈ log -> r = r'.
Proof.
  induction log as [| [k q] log IH]; simpl; [by intros _ ?%elem_of_nil |]. intros [Hni Hnd]%NoDup_cons.
  assert (Hin : forall q', (i, q') ∈ log -> i ∈ log.*1) by (intros q' H; apply list_elem_of_fmap; by exists (i, q')).
  intros [E1 | H1]%elem_of_cons [E2 | H2]%elem_of_cons; simplify_eq; [done | by destruct Hni; eauto | by destruct Hni; eauto | by apply IH].
Qed.

(** ** Steps of the main thread *)

(** The tasks when the main thread changes its state and, perhaps, takes or releases the mutex. *)
Lemma tasks_main (ev : list event) (s s' : system Q T W) :
  request_inv ev s -> tasks s' = tasks s -> rc s' = rc s ->
  (forall j, mutex s' = Some (Worker j) <-> mutex s = Some (Worker j)) ->
  (forall j t p, tasks s !! j = Some (t, p) -> holding p = true -> pc s' <> WaitSleep) ->
  (left_wait (pc s') = true -> forall j t p, tasks s !! j = Some (t, p) -> p = Unlocked \/ p = Finished) ->
  forall i t p, tasks s' !! i = Some (t, p) -> task_ok (results ev) s' i p.
Proof.
  intros H Et Er Hm Hs Hl i t p E. rewrite Et in E. pose proof (ri_task _ _ H i t p E) as [H1 H2 H3 H4 H5 H6]. constructor; try done.
  - by rewrite H3, Hm.
  - intros n Hn. split; [by apply (H4 n) |]. intros Hp. by destruct (Hs i t p E); [apply counter_holding; eauto |].
  - by rewrite Er.
  - intros Hleft. by apply (Hl Hleft i t).
Qed.

Ltac use_main H :=
  lazymatch goal with |- forall i t p, _ -> task_ok _ ?s' i p => apply (tasks_main _ _ s' H); fields end.

Lemma not_holding (ev : list event) (s : system Q T W) :
  request_inv ev s -> (forall i, mutex s <> Some (Worker i)) -> forall j t p, tasks s !! j = Some (t, p) -> holding p = false.
Proof.
  intros H Hm j t p E. pose proof (tk_mutex _ _ _ _ (ri_task _ _ H j t p E)) as Hh. destruct (holding p); [| done].
  destruct (Hm j). by apply Hh.
Qed.

Lemma all_counted (ev : list event) (s : system Q T W) :
  request_inv ev s -> remaining (pc s) = [] -> pending s = 0 -> forall j t p, tasks s !! j = Some (t, p) -> uncounted p = false.
Proof.
  intros H Er Hp j t p E. destruct (ri_pending _ _ H) as (n & _ & Ha & Hn). rewrite Er in Ha. cbn [announces] in Ha.
  assert (Hz : uncountedTasks s = 0) by lia.
  pose proof (total_elem (fun e : T * work_phase => if uncounted e.2 then 1 else 0) (tasks s) (t, p)) as Hle.
  destruct (uncounted p) eqn:Eu; [| done]. cbn [snd] in Hle. rewrite Eu in Hle. unfold uncountedTasks in Hz.
  assert (1 <= 0); [| lia]. rewrite <- Hz. apply Hle; [| by eapply list_elem_of_lookup_2]. intros e. destruct (uncounted e.2); lia.
Qed.

Lemma left_tasks (p : work_phase) : uncounted p = false -> holding p = false -> p = Unlocked \/ p = Finished.
Proof. destruct p; (done || auto). Qed.

(** Dispatching. *)
Lemma dispatch_inv (ev : list event) (s s' : system Q T W) (cs : list (command Q T)) :
  request_inv ev s -> pc s = Dispatch cs -> main_step backendOf threads prepare s = Done (Some s') -> exists ev', request_inv ev' s'.
Proof.
  intros H Epc E. unfold main_step in E. rewrite Epc in E.
  pose proof (tasks_fit _ _ H) as Hfit. pose proof (uncounted_bounds s) as Hub. pose proof H as [G1 G2 G3 Gi G4 Gf Gs G5 G6 G7 G8 G9 G10 G11 G12 G13].
  destruct G6 as (n & Hn0 & Hann & Hn). rewrite Epc in Gi, G4, Gf, G7, G11, G12, Hann, Hfit. cbn [remaining main_holds no_pending] in *.
  assert (Hf : finalized s = false) by (destruct (finalized s); [destruct G12 as [G12 _]; destruct G12 as [? [=]]; done | done]).
  assert (Hfin : forall c : list (command Q T), finalized s = true <-> exists r, Dispatch c = ReturnedMain r).
  { intros c. rewrite Hf. split; [done | by intros [? [=]]]. }
  destruct cs as [| [k | t | q] cs]; destruct (inlineBusy backendOf threads s); try discriminate E; cbn [mret outcome_ret] in E.
  - injection E as <-. exists ev. constructor; fields; try done; [by use_main H | by exists n |]. rewrite Hf. split; [done | by intros [? [=]]].
  - injection E as <-. exists ev. cbn [announces] in Hann. destruct Hann as [Hk Hann]. pose proof (announces_pushed _ _ Hann) as Hle.
    change (pushed (AddPending k :: cs)) with (pushed cs) in *. change (items (AddPending k :: cs)) with (items cs) in *.
    rewrite Hn. rewrite to_int32_ok by lia. constructor; fields; try done.
    + intros i t p Ei. pose proof (ri_task _ _ H i t p Ei) as [K1 K2 K3 K4 K5 K6]. constructor; try done.
      intros m Hm. split; [by apply (K4 m) | done].
    + exists (n + k). split_and!; [lia | done |]. unfold uncountedTasks in *. fields. lia.
  - injection E as <-. exists ev. cbn [announces] in Hann. destruct Hann as [Hk Hann].
    constructor; fields; try done.
    + intros i Hi. rewrite length_app. specialize (G3 i Hi). lia.
    + rewrite fmap_app, <- app_assoc. done.
    + intros i t' p Ei. apply lookup_app_Some in Ei as [Ei | [Hi Ei]].
      * pose proof (ri_task _ _ H i t' p Ei) as [K1 K2 K3 K4 K5 K6]. constructor; try done. intros m Hm. split; [by apply (K4 m) | done].
      * apply list_lookup_singleton_Some in Ei as [Hi0 [= <- <-]]. constructor; try done.
        -- split; [intros _ Hin; apply G3 in Hin; lia | done].
        -- split; [done |]. intros Hm. apply G8 in Hm. lia.
    + exists (n - 1). split_and!; [lia | done |]. unfold uncountedTasks in *. fields. rewrite total_app. cbn [total foldr uncounted snd]. lia.
    + intros i Hi. rewrite length_app. specialize (G8 i Hi). lia.
  - destruct (prepare q (world s)) as [[cs' w] | |] eqn:Ep; try discriminate E. injection E as <-. exists (ev ++ [Prepared q cs']).
    destruct (item_commands_ok q cs' cs n Hn0 (prepare_commands _ _ _ _ Ep) Hann) as (Hit & Hpu & Hann').
    change (pushed (Prepare q :: cs)) with (pushed cs) in *. change (items (Prepare q :: cs)) with (q :: items cs) in *.
    assert (Eres : results (ev ++ [Prepared q cs']) = results ev) by (rewrite results_app; apply app_nil_r).
    constructor; fields; rewrite ?Eres; try done.
    + apply (happens_prepare _ (world s)); [done | | done]. rewrite <- Gi. by rewrite lookup_app_r, Nat.sub_diag by done.
    + rewrite preparedItems_app, items_app, Hit, <- app_assoc. done.
    + rewrite submitted_app, pushed_app, <- G4. cbn [pushed_first] in Gf. rewrite Gf. cbn. by rewrite !app_nil_r.
    + by apply pushed_first_app.
    + rewrite submitted_app, preparedItems_app, !length_app. cbn. rewrite app_nil_r. lia.
    + intros i t p Ei. pose proof (ri_task _ _ H i t p Ei) as [K1 K2 K3 K4 K5 K6]. constructor; try done.
      intros m Hm. split; [by apply (K4 m) | done].
    + by exists n.
Qed.

(** Waiting. *)
Lemma wait_inv (ev : list event) (s s' : system Q T W) :
  request_inv ev s -> (forall cs, pc s <> Dispatch cs) -> main_step backendOf threads prepare s = Done (Some s') -> request_inv ev s'.
Proof.
  intros H Hpc E. pose proof (uncounted_bounds s) as Hub. pose proof H as [G1 G2 G3 Gi G4 Gf Gs G5 G6 G7 G8 G9 G10 G11 G12 G13].
  unfold main_step in E. destruct (pc s) as [cs | | | | | |] eqn:Epc; try discriminate E; [by destruct (Hpc cs) | ..];
    destruct G6 as (n & Hn0 & Hann & Hn); cbn [remaining main_holds no_pending announces] in *; subst n.
  - destruct (mutex s) eqn:Em; [discriminate E |]. injection E as <-.
    assert (Hf : finalized s = false) by (destruct (finalized s); [by destruct (proj1 G12 eq_refl) as [? [=]] | done]).
    constructor; fields; try done; [| by exists 0 | by rewrite Hf; split; [| intros [? [=]]]].
    use_main H; try done. intros j. cbn. by rewrite Em.
  - assert (Em : mutex s = Some MainThread) by (by apply G7).
    assert (Hf : finalized s = false) by (destruct (finalized s); [by destruct (proj1 G12 eq_refl) as [? [=]] | done]).
    destruct (Z.eqb_spec (pending_ops (request s)) 0) as [E0 | E0]; injection E as <-.
    + constructor; fields; try done; [| by exists 0 | by rewrite Hf; split; [| intros [? [=]]]].
      use_main H; try done.
    + constructor; fields; try done; [| by exists 0 | | by rewrite Hf; split; [| intros [? [=]]]].
      * use_main H; try done; [intros j; cbn; by rewrite Em |].
        intros j t p Ej Hh. exfalso. assert (holding p = false) by (apply (not_holding ev s H) with j t; [by rewrite Em | done]). congruence.
      * intros _. left. cbn. lia.
  - injection E as <-. assert (Em : mutex s = Some MainThread) by (by apply G7).
    assert (Hf : finalized s = false) by (destruct (finalized s); [by destruct (proj1 G12 eq_refl) as [? [=]] | done]).
    constructor; fields; try done; [| by exists 0 | by rewrite Hf; split; [| intros [? [=]]]].
    use_main H; try done; [intros j; cbn; by rewrite Em |].
    intros _ j t p Ej. apply left_tasks.
    + apply (all_counted ev s H) with j t; [by rewrite Epc | by apply G11 | done].
    + apply (not_holding ev s H) with j t; [by rewrite Em | done].
  - destruct (mutex s) as [th |] eqn:Em; [discriminate E |]. injection E as <-.
    constructor; fields; try done; [| by exists 0 | split; eauto | by intros r [= <-]].
    use_main H; try done; [intros j; cbn; by rewrite Em |].
    intros _ j t p Ej. apply (tk_left _ _ _ _ (G5 j t p Ej)). by rewrite Epc.
Qed.

Lemma main_inv (ev : list event) (s s' : system Q T W) :
  request_inv ev s -> main_step backendOf threads prepare s = Done (Some s') -> exists ev', request_inv ev' s'.
Proof.
  intros H E. destruct (pc s) as [cs | | | | | |] eqn:Epc; [by eapply dispatch_inv | ..]; (exists ev; apply (wait_inv ev s); [done | by rewrite Epc | done]).
Qed.

Lemma wakeup_inv (ev : list event) (s s' : system Q T W) : request_inv ev s -> spurious s s' -> request_inv ev s'.
Proof.
  intros H [Epc]. pose proof H as [G1 G2 G3 Gi G4 Gf Gs G5 G6 G7 G8 G9 G10 G11 G12 G13]. rewrite Epc in Gi, G4, Gf, G6, G7, G11, G12, G13.
  constructor; fields; try done; [by use_main H |]. rewrite G12. split; by intros [? [=]].
Qed.

(** ** Steps of the backend threads *)

(** The other tasks when a backend thread changes the phase of its task. *)
Lemma tasks_worker (ev : list event) (log' : list (nat * esdm_status)) (s s' : system Q T W) (i : nat) (t : T) (p : work_phase) :
  request_inv ev s -> tasks s' = <[i := (t, p)]> (tasks s) -> task_ok log' s' i p ->
  (forall j r, j <> i -> (j, r) ∈ results ev <-> (j, r) ∈ log') ->
  (forall j, j <> i -> mutex s' = Some (Worker j) <-> mutex s = Some (Worker j)) ->
  (forall j t' q, j <> i -> tasks s !! j = Some (t', q) -> holding q = true ->
     pending s' = pending s /\ (pc s' = WaitSleep -> pc s = WaitSleep)) ->
  (rc s <> ESDM_SUCCESS -> rc s' <> ESDM_SUCCESS) -> (left_wait (pc s') = true -> left_wait (pc s) = true) ->
  forall j t' q, tasks s' !! j = Some (t', q) -> task_ok log' s' j q.
Proof.
  intros H Et Hi Hlog Hm Hh Hrc Hl j t' q E. rewrite Et in E. apply lookup_phase in E as [(-> & -> & _) | [Hne E]]; [done |].
  apply (task_ok_frame (results ev) log' s s' j q (ri_task _ _ H j t' q E)); auto. intros Hq. by apply (Hh j t' q).
Qed.

Ltac use_worker H i t p :=
  lazymatch goal with |- forall j t' q, _ -> task_ok ?log' ?s' j q => apply (tasks_worker _ log' _ s' i t p H); fields end.

(** Steps that neither touch the status nor the mutex. *)
Lemma phase_inv (ev : list event) (s : system Q T W) (i : nat) (t : T) (p p' : work_phase) :
  request_inv ev s -> tasks s !! i = Some (t, p) -> holding p = false -> holding p' = false ->
  waiting p' = waiting p -> result p' = None -> noted p' = noted p -> uncounted p' = uncounted p -> counter p' = None ->
  (p = Unlocked \/ p = Finished -> p' = Finished) -> request_inv ev (setPhase s i t p').
Proof.
  intros H Ei Hp Hp' Hw Hr Hno Hu Hc Hfin. pose proof H as [G1 G2 G3 Gi G4 Gf Gs G5 G6 G7 G8 G9 G10 G11 G12 G13].
  pose proof (G5 i t p Ei) as [K1 K2 K3 K4 K5 K6].
  constructor; fields; try done; try (by rewrite length_insert); [by rewrite (tasks_types s i t p) | | |].
  - use_worker H i t p'; try done. constructor; fields; try done; [by rewrite Hw | by rewrite Hr | by rewrite Hp', <- K3, Hp |  by rewrite Hc | by rewrite Hno |].
    intros Hl. right. by apply Hfin, K6.
  - destruct G6 as (n & H0 & Ha & Hn). exists n. split; [done |]. split; [done |]. unfold uncountedTasks in *. fields.
    rewrite (uncounted_insert s i t p p' Ei), Hu. unfold uncountedTasks. lia.
  - intros Hs. destruct (G9 Hs) as [| (j & t' & q & Ej & Hq)]; [by left |]. right. exists j, t', q. split; [| done].
    rewrite list_lookup_insert_ne; [done |]. intros ->. rewrite Ei in Ej. injection Ej as <- <-.
    apply counter_holding in Hq. congruence.
Qed.

(** The operation of the task. *)
Lemma task_performed_inv (ev : list event) (s : system Q T W) (i : nat) (t : T) (ret : esdm_status) (w : W) :
  request_inv ev s -> tasks s !! i = Some (t, Running) -> perform t (world s) = Done (ret, w) ->
  request_inv (ev ++ [Performed i ret]) (System w (request s) (mutex s) (finalized s) (pc s) (<[i := (t, Returned ret)]> (tasks s))).
Proof.
  intros H Ei E. pose proof H as [G1 G2 G3 Gi G4 Gf Gs G5 G6 G7 G8 G9 G10 G11 G12 G13]. pose proof (G5 i t _ Ei) as [K1 K2 K3 K4 K5 K6].
  assert (Hni : i ∉ (results ev).*1) by (by apply K1).
  assert (Hlt : (i < length (tasks s))%nat) by (by apply lookup_lt_Some in Ei).
  assert (Eres : results (ev ++ [Performed i ret]) = results ev ++ [(i, ret)]) by (by rewrite results_app).
  assert (Eprep : preparedItems (ev ++ [Performed i ret]) = preparedItems ev) by (rewrite preparedItems_app; apply app_nil_r).
  assert (Esub : submitted (ev ++ [Performed i ret]) = submitted ev) by (rewrite submitted_app; apply app_nil_r).
  constructor; fields; rewrite ?Eres, ?Eprep, ?Esub; try done; try (by rewrite length_insert).
  - eapply happens_perform; [done | | done | done]. rewrite <- G4. apply lookup_app_l_Some. by rewrite list_lookup_fmap, Ei.
  - rewrite fmap_app. apply NoDup_app. split; [done |]. split; [| by apply NoDup_singleton]. intros j Hj ->%list_elem_of_singleton. done.
  - intros j. rewrite length_insert, fmap_app, elem_of_app. intros [Hj | ->%list_elem_of_singleton]; [by apply G3 | done].
  - by rewrite (tasks_types s i t Running).
  - use_worker H i t (Returned ret); try done.
    + constructor; fields; try done.
      * split; [done |]. intros []. rewrite fmap_app. set_solver.
      * intros r [= <-]. set_solver.
      * intros Hl. by destruct (K6 Hl).
    + intros j r Hne. rewrite elem_of_app, list_elem_of_singleton. naive_solver.
  - destruct G6 as (n & H0 & Ha & Hn). exists n. split; [done |]. split; [done |]. unfold uncountedTasks in *. fields.
    rewrite (uncounted_insert s i t Running (Returned ret) Ei). unfold uncountedTasks. cbn [uncounted]. lia.
  - intros Hs. destruct (G9 Hs) as [| (j & t' & q & Ej & Hq)]; [by left |]. right. exists j, t', q. split; [| done].
    rewrite list_lookup_insert_ne; [done |]. intros ->. rewrite Ei in Ej. injection Ej as <- <-. by destruct Hq.
  - intros Hne. destruct (G10 Hne) as [j Hj]. exists j. set_solver.
Qed.

(** Other threads do not hold the mutex. *)
Lemma others_free (ev : list event) (s : system Q T W) (i j : nat) (t : T) (q : work_phase) :
  request_inv ev s -> (mutex s = None \/ mutex s = Some (Worker i)) -> j <> i -> tasks s !! j = Some (t, q) -> holding q = false.
Proof.
  intros H Hm Hne Ej. pose proof (tk_mutex _ _ _ _ (ri_task _ _ H j t q Ej)) as Hh. destruct (holding q); [| done].
  pose proof (proj1 Hh eq_refl) as E. destruct Hm as [Hm | Hm]; congruence.
Qed.

Lemma holder_free (ev : list event) (s : system Q T W) (i : nat) (t : T) (p : work_phase) :
  request_inv ev s -> tasks s !! i = Some (t, p) -> holding p = true ->
  mutex s = Some (Worker i) /\ main_holds (pc s) = false /\ left_wait (pc s) = false /\ finalized s = false.
Proof.
  intros H Ei Hp. pose proof (ri_task _ _ H i t p Ei) as [_ _ K3 _ _ K6]. assert (Em : mutex s = Some (Worker i)) by (by apply K3).
  split; [done |]. assert (Hl : left_wait (pc s) = false).
  { destruct (left_wait (pc s)); [| done]. by destruct (K6 eq_refl) as [-> | ->]. }
  split; [| split; [done |]].
  - destruct (main_holds (pc s)) eqn:E; [| done]. apply (ri_main _ _ H) in E. congruence.
  - destruct (finalized s) eqn:E; [| done]. apply (ri_final _ _ H) in E as [r E]. by rewrite E in Hl.
Qed.

Lemma lock_inv (ev : list event) (s : system Q T W) (i : nat) (t : T) (ret : esdm_status) :
  request_inv ev s -> tasks s !! i = Some (t, Returned ret) -> mutex s = None ->
  request_inv ev (setPhase (setMutex s (Some (Worker i))) i t (Locked ret)).
Proof.
  intros H Ei Em. pose proof H as [G1 G2 G3 Gi G4 Gf Gs G5 G6 G7 G8 G9 G10 G11 G12 G13]. pose proof (G5 i t _ Ei) as [K1 K2 K3 K4 K5 K6].
  assert (Hlt : (i < length (tasks s))%nat) by (by apply lookup_lt_Some in Ei).
  constructor; fields; try done; try (by rewrite length_insert).
  - by rewrite (tasks_types s i t (Returned ret)).
  - use_worker H i t (Locked ret); try done.
    + constructor; fields; try done. intros Hl. by destruct (K6 Hl).
    + intros j Hne. rewrite Em. split; [intros [= ->]; done | done].
  - destruct G6 as (n & H0 & Ha & Hn). exists n. split; [done |]. split; [done |]. unfold uncountedTasks in *. fields.
    rewrite (uncounted_insert s i t (Returned ret) (Locked ret) Ei). unfold uncountedTasks. cbn [uncounted]. lia.
  - rewrite <- G7, Em. done.
  - intros j [= <-]. by rewrite length_insert.
  - intros Hs. destruct (G9 Hs) as [| (j & t' & q & Ej & Hq)]; [by left |]. right. exists j, t', q. split; [| done].
    rewrite list_lookup_insert_ne; [done |]. intros ->. rewrite Ei in Ej. injection Ej as <- <-. by destruct Hq.
Qed.

Lemma count_inv (ev : list event) (s : system Q T W) (i : nat) (t : T) (ret : esdm_status) :
  request_inv ev s -> tasks s !! i = Some (t, Locked ret) ->
  1 <= u64 (pending s) /\
  request_inv ev (setPhase (setRequest s (RequestStatus (to_int32 (pending s - 1)) (rc s))) i t (Counted ret (u64 (pending s)))).
Proof.
  intros H Ei. pose proof H as [G1 G2 G3 Gi G4 Gf Gs G5 G6 G7 G8 G9 G10 G11 G12 G13]. pose proof (G5 i t _ Ei) as [K1 K2 K3 K4 K5 K6].
  destruct (holder_free ev s i t (Locked ret) H Ei eq_refl) as (Em & Hmh & Hlw & Hf).
  assert (Hlt : (i < length (tasks s))%nat) by (by apply lookup_lt_Some in Ei).
  destruct G6 as (n & H0 & Ha & Hn). pose proof (announces_pushed _ _ Ha) as Hle. pose proof (tasks_fit _ _ H) as Hfit.
  pose proof (uncounted_bounds s) as Hub.
  assert (Hone : 1 <= uncountedTasks s).
  { apply (total_elem (fun e : T * work_phase => if uncounted e.2 then 1 else 0) (tasks s) (t, Locked ret)); [| by eapply list_elem_of_lookup_2].
    intros e. destruct (uncounted e.2); lia. }
  assert (Hu : u64 (pending s) = pending s) by (apply Z.mod_small; lia). rewrite Hu. split; [lia |]. rewrite to_int32_ok by lia.
  constructor; fields; try done; try (by rewrite length_insert).
  - by rewrite (tasks_types s i t (Locked ret)).
  - use_worker H i t (Counted ret (pending s)); try done.
    + constructor; fields; try done; [| by rewrite Hlw]. intros m [= <-]. split; lia.
    + intros j t' q Hne Ej Hq. rewrite (others_free ev s i j t' q H) in Hq; [done | by right | done | done].
  - exists n. split; [done |]. split; [done |]. unfold uncountedTasks in *. fields.
    rewrite (uncounted_insert s i t (Locked ret) (Counted ret (pending s)) Ei). unfold uncountedTasks. cbn [uncounted]. lia.
  - intros _. right. exists i, t, (Counted ret (pending s)). split; [by apply list_lookup_insert_eq | by eexists].
  - intros Hnp. destruct (pc s); done.
Qed.

Lemma note_inv (ev : list event) (s : system Q T W) (i : nat) (t : T) (ret : esdm_status) (n : Z) :
  request_inv ev s -> tasks s !! i = Some (t, Counted ret n) ->
  request_inv ev (setPhase (if decide (ret <> ESDM_SUCCESS) then setRequest s (RequestStatus (pending s) ret) else s) i t (Noted n)).
Proof.
  intros H Ei. pose proof H as [G1 G2 G3 Gi G4 Gf Gs G5 G6 G7 G8 G9 G10 G11 G12 G13]. pose proof (G5 i t _ Ei) as [K1 K2 K3 K4 K5 K6].
  destruct (holder_free ev s i t _ H Ei eq_refl) as (Em & Hmh & Hlw & Hf).
  assert (Hlt : (i < length (tasks s))%nat) by (by apply lookup_lt_Some in Ei).
  set (s1 := if decide (ret <> ESDM_SUCCESS) then setRequest s (RequestStatus (pending s) ret) else s).
  assert (Hs1 : world s1 = world s /\ mutex s1 = mutex s /\ finalized s1 = finalized s /\ pc s1 = pc s /\ tasks s1 = tasks s /\
                pending s1 = pending s /\ (rc s1 = if decide (ret <> ESDM_SUCCESS) then ret else rc s)) by (unfold s1; by case_decide).
  destruct Hs1 as (E1 & E2 & E3 & E4 & E5 & E6 & E7).
  assert (Hrc : rc s1 <> ESDM_SUCCESS -> exists j, (j, rc s1) ∈ results ev).
  { rewrite E7. case_decide; [intros _; exists i; by apply K2 | done]. }
  assert (Hrc' : rc s <> ESDM_SUCCESS -> rc s1 <> ESDM_SUCCESS) by (rewrite E7; by case_decide).
  assert (Hret : ret <> ESDM_SUCCESS -> rc s1 <> ESDM_SUCCESS) by (intros Hne; rewrite E7; by case_decide).
  clearbody s1. constructor; fields; rewrite ?E1, ?E2, ?E3, ?E4, ?E5, ?E6; try done; try (by rewrite length_insert).
  - by rewrite (tasks_types s i t (Counted ret n)).
  - rewrite <- E5. use_worker H i t (Noted n); rewrite ?E1, ?E2, ?E3, ?E4, ?E5, ?E6; try done.
    constructor; fields; rewrite ?E1, ?E2, ?E3, ?E4, ?E5, ?E6; try done; [| by rewrite Hlw].
    intros _ r Hr Hne. apply Hret. by rewrite (log_same (results ev) i ret r G2 (K2 ret eq_refl) Hr).
  - destruct G6 as (a & H0 & Ha & Hn). exists a. split; [done |]. split; [done |]. unfold uncountedTasks in *. fields. rewrite E5.
    rewrite (uncounted_insert s i t (Counted ret n) (Noted n) Ei). unfold uncountedTasks. cbn [uncounted]. lia.
  - intros _. right. exists i, t, (Noted n). split; [by apply list_lookup_insert_eq | by eexists].
  - intros r Hr. rewrite Hr in Hlw. done.
Qed.

Lemma signal_fields (s : system Q T W) :
  world (signal s) = world s /\ mutex (signal s) = mutex s /\ finalized (signal s) = finalized s /\ tasks (signal s) = tasks s /\
  request (signal s) = request s /\ pc (signal s) = match pc s with WaitSleep => WaitLock | c => c end.
Proof. unfold signal. by destruct (pc s) eqn:E. Qed.

Lemma signal_inv (ev : list event) (s : system Q T W) (i : nat) (t : T) (n : Z) :
  request_inv ev s -> tasks s !! i = Some (t, Noted n) ->
  1 <= n /\ request_inv ev (setPhase (if n =? 1 then signal s else s) i t Signalled).
Proof.
  intros H Ei. pose proof H as [G1 G2 G3 Gi G4 Gf Gs G5 G6 G7 G8 G9 G10 G11 G12 G13]. pose proof (G5 i t _ Ei) as [K1 K2 K3 K4 K5 K6].
  destruct (holder_free ev s i t _ H Ei eq_refl) as (Em & Hmh & Hlw & Hf).
  assert (Hlt : (i < length (tasks s))%nat) by (by apply lookup_lt_Some in Ei).
  destruct (K4 n eq_refl) as [Hn Hsleep]. split; [done |].
  set (s1 := if n =? 1 then signal s else s).
  assert (Hs1 : world s1 = world s /\ mutex s1 = mutex s /\ finalized s1 = finalized s /\ tasks s1 = tasks s /\ request s1 = request s /\
                (pc s1 = pc s /\ (pc s = WaitSleep -> 1 <= pending s) \/ pc s = WaitSleep /\ pc s1 = WaitLock)).
  { unfold s1. destruct (Z.eqb_spec n 1) as [E | E].
    - destruct (signal_fields s) as (-> & -> & -> & -> & -> & ->). split_and!; try done. destruct (pc s); auto; left; (split; [done | by intros [=]]).
    - split_and!; try done. left. split; [done |]. intros Hs. specialize (Hsleep Hs). lia. }
  destruct Hs1 as (E1 & E2 & E3 & E4 & E5 & Epc).
  assert (Hpc : remaining (pc s1) = remaining (pc s) /\ main_holds (pc s1) = main_holds (pc s) /\ left_wait (pc s1) = left_wait (pc s) /\
                no_pending (pc s1) = no_pending (pc s) /\ (forall r, pc s1 = ReturnedMain r <-> pc s = ReturnedMain r) /\ (pc s1 = WaitSleep -> pc s = WaitSleep)).
  { destruct Epc as [[-> _] | [-> ->]]; done. }
  destruct Hpc as (P1 & P2 & P3 & P4 & P5 & P6).
  clearbody s1. constructor; fields; rewrite ?E1, ?E2, ?E3, ?E4, ?E5, ?P1, ?P2, ?P4; try done; try (by rewrite length_insert).
  - by rewrite (tasks_types s i t (Noted n)).
  - rewrite <- E4. use_worker H i t Signalled; rewrite ?E1, ?E2, ?E3, ?E4, ?E5, ?P3; try done.
    constructor; fields; rewrite ?E1, ?E2, ?E3, ?E4, ?E5, ?P3; try done. by rewrite Hlw.
  - destruct G6 as (a & H0 & Ha & Hn'). exists a. split; [done |]. split; [done |]. unfold uncountedTasks in *. fields. rewrite E4.
    rewrite (uncounted_insert s i t (Noted n) Signalled Ei). unfold uncountedTasks. cbn [uncounted]. lia.
  - intros Hs. left. destruct Epc as [[E Hp] | [_ E]]; [apply Hp; congruence | congruence].
  - rewrite G12. split; intros [r Hr]; exists r; by apply P5.
  - intros r Hr. by apply G13, P5.
Qed.

Lemma unlock_inv (ev : list event) (s : system Q T W) (i : nat) (t : T) :
  request_inv ev s -> tasks s !! i = Some (t, Signalled) -> request_inv ev (setPhase (setMutex s None) i t Unlocked).
Proof.
  intros H Ei. pose proof H as [G1 G2 G3 Gi G4 Gf Gs G5 G6 G7 G8 G9 G10 G11 G12 G13]. pose proof (G5 i t _ Ei) as [K1 K2 K3 K4 K5 K6].
  destruct (holder_free ev s i t _ H Ei eq_refl) as (Em & Hmh & Hlw & Hf).
  constructor; fields; try done; try (by rewrite length_insert).
  - by rewrite (tasks_types s i t Signalled).
  - use_worker H i t Unlocked; try done.
    + constructor; fields; try done. by rewrite Hlw.
    + intros j Hne. rewrite Em. split; [done |]. by intros [= ->].
  - destruct G6 as (n & H0 & Ha & Hn). exists n. split; [done |]. split; [done |]. unfold uncountedTasks in *. fields.
    rewrite (uncounted_insert s i t Signalled Unlocked Ei). unfold uncountedTasks. cbn [uncounted]. lia.
  - by rewrite Hmh.
  - intros Hs. destruct (G9 Hs) as [| (j & t' & q & Ej & Hq)]; [by left |]. right. exists j, t', q. split; [| done].
    rewrite list_lookup_insert_ne; [done |]. intros ->. rewrite Ei in Ej. injection Ej as <- <-. by destruct Hq.
Qed.

Lemma worker_inv (ev : list event) (s s' : system Q T W) (i : nat) :
  request_inv ev s -> worker_step backendOf threads perform i s = Done (Some s') -> exists ev', request_inv ev' s'.
Proof.
  intros H E. unfold worker_step in E. destruct (tasks s !! i) as [[t p] |] eqn:Ei; [| discriminate E].
  destruct p; unfold live in E; try (destruct (finalized s); [discriminate E |]); cbn [mbind outcome_bind mret outcome_ret] in E.
  - destruct (_ || _); [| discriminate E]. injection E as <-. exists ev. apply (phase_inv ev s i t Queued Running); (done || naive_solver).
  - destruct (perform t (world s)) as [[ret w] | |] eqn:Ep; try discriminate E. injection E as <-. eexists. by apply task_performed_inv.
  - destruct (mutex s) eqn:Em; [discriminate E |]. injection E as <-. exists ev. by apply lock_inv.
  - injection E as <-. exists ev. by apply count_inv.
  - injection E as <-. exists ev. by apply note_inv.
  - destruct (eassert _), (finalized s); try discriminate E. cbn [mbind outcome_bind mret outcome_ret] in E. injection E as <-. exists ev. by apply signal_inv.
  - injection E as <-. exists ev. by apply unlock_inv.
  - injection E as <-. exists ev. by apply (phase_inv ev s i t Unlocked Finished).
  - discriminate E.
Qed.

Lemma start_inv (commands : list (command Q T)) :
  items commands = qs -> pushed commands = [] -> announces announced 0 commands -> request_inv [] (start w0 commands).
Proof.
  intros Hqs Hp Ha. constructor; cbn [start world request mutex finalized pc tasks remaining main_holds no_pending]; try done.
  - constructor.
  - constructor.
  - by intros i ?%elem_of_nil.
  - by apply (pushed_first_app [] commands).
  - by exists 0.
  - split; [done | by intros [r [=]]].
Qed.

Lemma execution_inv (commands : list (command Q T)) (n k : nat) (s : system Q T W) :
  items commands = qs -> pushed commands = [] -> announces announced 0 commands ->
  execution backendOf threads prepare perform (start w0 commands) n k s -> exists ev, request_inv ev s.
Proof.
  intros Hqs Hp Ha Hex. induction Hex as [| n k s1 s2 Hex [ev IH] Hs | n k s1 s2 Hex [ev IH] Hs].
  - exists []. by apply start_inv.
  - destruct Hs as [s' E | i s' E]; [by eapply main_inv | by eapply worker_inv].
  - exists ev. by eapply wakeup_inv.
Qed.

(** ** Results *)

(** Whatever has happened so far, the next item can be prepared, and the tasks that have not been
    performed return. *)
Hypothesis prepares : forall ev w q, happens ev w -> qs !! length (preparedItems ev) = Some q -> exists cs w', prepare q w = Done (cs, w').
Hypothesis performs : forall ev w i t, happens ev w -> submitted ev !! i = Some t -> i ∉ (results ev).*1 ->
  exists ret w', perform t w = Done (ret, w').

Lemma main_defined (ev : list event) (s : system Q T W) : request_inv ev s -> exists r, main_step backendOf threads prepare s = Done r.
Proof.
  intros H. unfold main_step. destruct (pc s) as [[| [k | t | q] cs] | | | | | |] eqn:Epc; try (destruct (inlineBusy _ _ _)); eauto.
  - destruct (prepares ev (world s) q) as (cs' & w & ->); [apply H | | by eexists]. rewrite <- (ri_items _ _ H), Epc.
    change (items (remaining (Dispatch (Prepare q :: cs)))) with (q :: items cs). by rewrite lookup_app_r, Nat.sub_diag by done.
  - destruct (mutex s); eauto.
  - destruct (_ =? _); eauto.
  - destruct (mutex s) as [[| i] |] eqn:Em; [| | eauto]; exfalso.
    + apply (ri_main _ _ H) in Em. by rewrite Epc in Em.
    + pose proof (ri_worker _ _ H i Em) as Hlt. apply lookup_lt_is_Some in Hlt as [[t p] Ei].
      pose proof (ri_task _ _ H i t p Ei) as [_ _ K3 _ _ K6]. rewrite Epc in K6. apply K3 in Em. by destruct (K6 eq_refl) as [-> | ->].
Qed.

Lemma worker_defined (ev : list event) (s : system Q T W) (i : nat) :
  request_inv ev s -> exists r, worker_step backendOf threads perform i s = Done r.
Proof.
  intros H. unfold worker_step. destruct (tasks s !! i) as [[t p] |] eqn:Ei; [| eauto].
  pose proof (ri_task _ _ H i t p Ei) as K.
  assert (Hlive : p <> Unlocked -> p <> Finished -> finalized s = false).
  { intros H1 H2. destruct (finalized s) eqn:E; [| done]. apply (ri_final _ _ H) in E as [r E].
    destruct (tk_left _ _ _ _ K) as [-> | ->]; [by rewrite E | done | done]. }
  destruct p; unfold live; try (rewrite Hlive by done); cbn [mbind outcome_bind mret outcome_ret]; eauto.
  - destruct (_ || _); eauto.
  - destruct (performs ev (world s) i t) as (ret & w & ->); [apply H | | by apply (tk_waiting _ _ _ _ K) | by eexists].
    rewrite <- (ri_tasks _ _ H). apply lookup_app_l_Some. by rewrite list_lookup_fmap, Ei.
  - destruct (mutex s); eauto.
  - destruct (tk_counter _ _ _ _ K pendings eq_refl) as [Hn _]. rewrite eassert_true by (rewrite Z.geb_leb; by apply Z.leb_le). run. eauto.
Qed.

(** All tasks are through when the main thread has left. *)
Lemma log_complete (ev : list event) (s : system Q T W) :
  request_inv ev s -> remaining (pc s) = [] -> (forall i t p, tasks s !! i = Some (t, p) -> waiting p = false) ->
  (results ev).*1 ≡ₚ seq 0 (length (submitted ev)).
Proof.
  intros H Er Hall. apply NoDup_Permutation; [apply H | apply NoDup_seq |]. intros i. rewrite elem_of_seq.
  assert (Hl : length (submitted ev) = length (tasks s)) by (rewrite <- (ri_tasks _ _ H), Er; cbn [pushed omap]; by rewrite app_nil_r, length_fmap).
  split.
  - intros Hi. apply (ri_range _ _ H) in Hi. lia.
  - intros [_ Hi]. destruct (lookup_lt_is_Some_2 (tasks s) i) as [[t p] Ei]; [lia |].
    destruct (decide (i ∈ (results ev).*1)) as [| Hn]; [done |]. apply (tk_waiting _ _ _ _ (ri_task _ _ H i t p Ei)) in Hn.
    by rewrite (Hall i t p Ei) in Hn.
Qed.

(** ** Progress *)

Definition rank (p : work_phase) : Z :=
  match p with
  | Queued => 8 | Running => 7 | Returned _ => 6 | Locked _ => 5 | Counted _ _ => 4 | Noted _ => 3 | Signalled => 2 | Unlocked => 1 | Finished => 0
  end.

Definition commandRank (c : command Q T) : Z := match c with AddPending _ => 1 | Push _ => 33 | Prepare _ => 35 end.

Definition mainRank (pc : main_pc Q T) : Z :=
  match pc with
  | Dispatch cs => 6 + total commandRank cs
  | WaitLock => 5 | WaitTest => 4 | WaitSleep | WaitLeave => 3 | Finalize => 2 | ReturnedMain _ => 1
  end.

(** What is left to do; a spurious wakeup costs two steps. *)
Definition work (s : system Q T W) : Z := mainRank (pc s) + 4 * total (fun e => rank e.2) (tasks s).

Lemma work_phase_change (s s1 : system Q T W) (i : nat) (t : T) (p p' : work_phase) :
  tasks s !! i = Some (t, p) -> tasks s1 = tasks s -> mainRank (pc s1) <= mainRank (pc s) + 2 -> rank p' < rank p ->
  work (setPhase s1 i t p') < work s.
Proof.
  intros Ei Et Hm Hr. unfold work. fields. rewrite Et. rewrite (total_insert (fun e : T * work_phase => rank e.2) (tasks s) i (t, p) (t, p') Ei).
  cbn [snd]. lia.
Qed.

Lemma worker_work (s s' : system Q T W) (i : nat) : worker_step backendOf threads perform i s = Done (Some s') -> work s' < work s.
Proof.
  intros E. unfold worker_step in E. destruct (tasks s !! i) as [[t p] |] eqn:Ei; [| discriminate E].
  destruct p; unfold live in E; cbn [mbind outcome_bind mret outcome_ret] in E.
  - destruct (_ || _); [| discriminate E]. injection E as <-. eapply work_phase_change; [exact Ei | done | lia | done].
  - destruct (perform t (world s)) as [[ret w] | |]; try discriminate E. injection E as <-.
    apply (work_phase_change s (System w (request s) (mutex s) (finalized s) (pc s) (tasks s)) i t Running (Returned ret)); [done | done | cbn; lia | done].
  - destruct (finalized s), (mutex s); try discriminate E. injection E as <-. eapply work_phase_change; [exact Ei | done | cbn; lia | done].
  - destruct (finalized s); try discriminate E. injection E as <-. eapply work_phase_change; [exact Ei | done | cbn; lia | done].
  - destruct (finalized s); try discriminate E. injection E as <-. eapply work_phase_change; [exact Ei | by case_decide | case_decide; cbn; lia | done].
  - destruct (eassert _), (finalized s); try discriminate E. injection E as <-. destruct (signal_fields s) as (_ & _ & _ & Et & _ & Epc).
    eapply work_phase_change; [exact Ei | by destruct (_ =? _) | | done]. destruct (_ =? _); [rewrite Epc; destruct (pc s); cbn; lia | lia].
  - destruct (finalized s); try discriminate E. injection E as <-. eapply work_phase_change; [exact Ei | done | cbn; lia | done].
  - injection E as <-. eapply work_phase_change; [exact Ei | done | lia | done].
  - discriminate E.
Qed.

Lemma item_rank (q : Q) (cs : list (command Q T)) : item_commands (announced q) cs -> total commandRank cs <= 34.
Proof. unfold item_commands. destruct (announced q); [intros [t ->] | intros [-> | [t ->]]]; simpl; lia. Qed.

Lemma main_work (s s' : system Q T W) : main_step backendOf threads prepare s = Done (Some s') -> work s' < work s.
Proof.
  intros E. unfold main_step in E. destruct (pc s) as [[| [k | t | q] cs] | | | | | |] eqn:Epc; try discriminate E;
    try (destruct (inlineBusy _ _ _); [discriminate E |]);
    try (destruct (prepare q (world s)) as [[cs' w] | |] eqn:Ep; try discriminate E); try (destruct (mutex s); [discriminate E |]); try destruct (_ =? _);
    injection E as <-; unfold work; fields; rewrite Epc; cbn [mainRank]; rewrite ?total_cons; cbn [commandRank]; try lia; [cbn [total foldr]; lia | |].
  - rewrite total_app, total_cons. cbn [total foldr rank snd]. lia.
  - rewrite total_app. pose proof (item_rank q cs' (prepare_commands _ _ _ _ Ep)). lia.
Qed.

Lemma execution_work (s s' : system Q T W) (n k : nat) :
  execution backendOf threads prepare perform s n k s' -> Z.of_nat n + work s' <= work s + 2 * Z.of_nat k.
Proof.
  intros Hex. induction Hex as [| n k s1 s2 Hex IH Hs | n k s1 s2 Hex IH Hs]; [lia | |].
  - assert (work s2 < work s1); [| lia]. destruct Hs as [s' E | i s' E]; [by apply main_work | by apply (worker_work _ _ i)].
  - destruct Hs as [Epc]. unfold work in *. fields. rewrite Epc in IH. cbn [mainRank] in *. lia.
Qed.

Lemma work_nonneg (s : system Q T W) : 0 <= work s.
Proof.
  unfold work. assert (0 <= total (fun e : T * work_phase => rank e.2) (tasks s)) by (apply total_nonneg; intros [t p]; by destruct p).
  assert (0 <= mainRank (pc s)); [| lia]. destruct (pc s); cbn [mainRank]; try lia.
  assert (0 <= total commandRank commands) by (apply total_nonneg; intros c; by destruct c). lia.
Qed.

(** Some thread can take a step unless everything is finished. *)
Lemma worker_progress (ev : list event) (s : system Q T W) (i : nat) (t : T) (p : work_phase) :
  request_inv ev s -> tasks s !! i = Some (t, p) -> p <> Finished ->
  (forall j, mutex s = Some (Worker j) -> j = i) -> mutex s <> Some MainThread ->
  (p = Queued -> inline backendOf threads t = false -> (activeOn backendOf (backendOf t) s < threads (backendOf t))%nat) ->
  exists s', step backendOf threads prepare perform s s'.
Proof.
  intros H Ei Hp Hm Hmain Hq. destruct (worker_defined ev s i H) as [[s' |] E]; [exists s'; by eapply step_worker |]. exfalso.
  unfold worker_step in E. rewrite Ei in E. pose proof (ri_task _ _ H i t p Ei) as K.
  destruct p; unfold live in E; cbn [mbind outcome_bind mret outcome_ret] in E; try (destruct (finalized s)); try discriminate E; try done.
  - destruct (inline backendOf threads t) eqn:Ein; [done |]. specialize (Hq eq_refl eq_refl). apply Nat.ltb_lt in Hq. by rewrite Hq in E.
  - destruct (inline backendOf threads t) eqn:Ein; [done |]. specialize (Hq eq_refl eq_refl). apply Nat.ltb_lt in Hq. by rewrite Hq in E.
  - destruct (perform t (world s)) as [[? ?] | |]; discriminate E.
  - destruct (perform t (world s)) as [[? ?] | |]; discriminate E.
  - destruct (mutex s) as [[| j] |] eqn:Em; [done | | discriminate E]. specialize (Hm j eq_refl) as ->.
    by apply (tk_mutex _ _ _ _ K) in Em.
  - destruct (eassert _); discriminate E.
  - destruct (eassert _); discriminate E.
Qed.

(** A task with a thread that has not finished can take a step or waits for the mutex. *)
Lemma progress (ev : list event) (s : system Q T W) :
  request_inv ev s -> finished s \/ exists s', step backendOf threads prepare perform s s'.
Proof.
  intros H. destruct (mutex s) as [[| i] |] eqn:Em.
  - (* the main thread is in its critical section *)
    right. assert (Hh : main_holds (pc s) = true) by (by apply (ri_main _ _ H)).
    destruct (main_defined ev s H) as [[s' |] E]; [exists s'; by apply step_main |]. exfalso. unfold main_step in E.
    destruct (pc s); try done. by destruct (_ =? _).
  - (* a backend thread is in its critical section *)
    right. destruct (lookup_lt_is_Some_2 (tasks s) i) as [[t p] Ei]; [by apply (ri_worker _ _ H) |].
    pose proof (tk_mutex _ _ _ _ (ri_task _ _ H i t p Ei)) as Hh. apply (proj2 Hh) in Em as Hp.
    apply (worker_progress ev s i t p); [done | done | by intros -> | by rewrite Em; intros j [= ->] | by rewrite Em | by intros ->].
  - destruct (decide (Exists (fun e => active e.2 = true) (tasks s))) as [Hact | Hact].
    { right. apply Exists_exists in Hact as ([t p] & Hin & Hp). apply list_elem_of_lookup in Hin as [i Ei].
      apply (worker_progress ev s i t p); [done | done | by intros -> | by rewrite Em | by rewrite Em | by intros ->]. }
    destruct (decide (Exists (fun e => unfinished e.2 = true) (tasks s))) as [Hun | Hun].
    { right. apply Exists_exists in Hun as ([t p] & Hin & Hp). apply list_elem_of_lookup in Hin as [i Ei].
      apply (worker_progress ev s i t p); [done | done | by intros -> | by rewrite Em | by rewrite Em |].
      intros -> Hinl. unfold inline in Hinl. apply Nat.eqb_neq in Hinl. unfold activeOn.
      destruct (filter _ (tasks s)) as [| e l] eqn:El; [simpl; lia |]. exfalso.
      assert (He : e ∈ e :: l) by (by left). rewrite <- El in He. apply list_elem_of_filter in He as [[_ Ha] He].
      apply Hact, Exists_exists. eauto. }
    assert (Hall : Forall (fun e => e.2 = Finished) (tasks s)).
    { apply Forall_forall. intros [t p] Hin. destruct (unfinished p) eqn:E; [| by destruct p]. destruct Hun. apply Exists_exists.
      by exists (t, p). }
    assert (Hbusy : inlineBusy backendOf threads s = false).
    { unfold inlineBusy. clear -Hall. induction Hall as [| [t p] l E _ IH]; [done |]. cbn [existsb fst snd] in *. by rewrite E, andb_false_r. }
    assert (Hr : (exists r, pc s = ReturnedMain r) \/ forall r, pc s <> ReturnedMain r) by (destruct (pc s); eauto; by right).
    destruct Hr as [Hr | Hr]; [by left |]. right.
    destruct (main_defined ev s H) as [[s' |] E]; [exists s'; by apply step_main |]. exfalso. unfold main_step in E.
    destruct (pc s) as [[| [k | t | q] cs] | | | | | |] eqn:Epc; rewrite ?Hbusy, ?Em in E; try discriminate E;
      [by destruct (prepare q (world s)) as [[? ?] | |] | by destruct (_ =? _) | | by destruct (Hr ret)].
    destruct (ri_sleep _ _ H Epc) as [Hp | (i & t & p & Ei & Hc)].
    + destruct (ri_pending _ _ H) as (n & _ & Ha & Hn). rewrite Epc in Ha. cbn [remaining announces] in Ha.
      assert (uncountedTasks s = 0); [| lia]. unfold uncountedTasks. clear -Hall. induction Hall as [| [t p] l E _ IH]; [done |].
      cbn [total foldr snd] in *. rewrite E. cbn [uncounted]. unfold total in IH. lia.
    + pose proof (proj1 (Forall_lookup _ _) Hall i _ Ei) as E'. cbn [snd] in E'. subst p. by destruct Hc.
Qed.

(** What the main thread finds when it returns. *)
Definition request_result (s : system Q T W) (ret : esdm_status) : Prop :=
  Forall (fun e => e.2 = Unlocked \/ e.2 = Finished) (tasks s) /\
  exists ev, happens ev (world s) /\ preparedItems ev = qs /\ (tasks s).*1 = submitted ev /\
  (results ev).*1 ≡ₚ seq 0 (length (submitted ev)) /\
  (ret = ESDM_SUCCESS <-> Forall (fun e => e.2 = ESDM_SUCCESS) (results ev)) /\ (ret <> ESDM_SUCCESS -> ret ∈ (results ev).*2).

Lemma returned_result (ev : list event) (s : system Q T W) (ret : esdm_status) :
  request_inv ev s -> pc s = ReturnedMain ret -> request_result s ret.
Proof.
  intros H Epc. pose proof (ri_return _ _ H ret Epc) as ->.
  assert (Hall : forall i t p, tasks s !! i = Some (t, p) -> p = Unlocked \/ p = Finished).
  { intros i t p Ei. apply (tk_left _ _ _ _ (ri_task _ _ H i t p Ei)). by rewrite Epc. }
  assert (Hperm : (results ev).*1 ≡ₚ seq 0 (length (submitted ev))).
  { apply (log_complete ev s H); [by rewrite Epc |]. intros i t p Ei. by destruct (Hall i t p Ei) as [-> | ->]. }
  split; [apply Forall_lookup; intros i [t p] Ei; by apply (Hall i t) |].
  pose proof (ri_items _ _ H) as Hi. pose proof (ri_tasks _ _ H) as Ht. rewrite Epc in Hi, Ht. cbn in Hi, Ht. rewrite app_nil_r in Hi, Ht.
  exists ev. split; [apply H |]. split; [done |]. split; [done |]. split; [done |]. split; [split |].
  - intros Hs. apply Forall_forall. intros [i r] Hin. cbn [snd]. destruct (decide (r = ESDM_SUCCESS)) as [| Hne]; [done |]. exfalso.
    destruct (lookup_lt_is_Some_2 (tasks s) i) as [[t p] Ei]; [apply (ri_range _ _ H); apply list_elem_of_fmap; by exists (i, r) |].
    apply (tk_noted _ _ _ _ (ri_task _ _ H i t p Ei)) with r; [by destruct (Hall i t p Ei) as [-> | ->] | done | done | done].
  - intros Hs. destruct (decide (return_code (request s) = ESDM_SUCCESS)) as [| Hne]; [done |].
    destruct (ri_rc _ _ H Hne) as [i Hin]. by apply (proj1 (Forall_forall _ _) Hs) in Hin.
  - intros Hne. destruct (ri_rc _ _ H Hne) as [i Hin]. apply list_elem_of_fmap. by exists (i, return_code (request s)).
Qed.

(** A request that has returned, for the scheduler's operations. *)
Lemma request_returns (commands : list (command Q T)) (n k : nat) (s : system Q T W) (ret : esdm_status) :
  items commands = qs -> pushed commands = [] -> announces announced 0 commands ->
  execution backendOf threads prepare perform (start w0 commands) n k s -> pc s = ReturnedMain ret -> request_result s ret.
Proof. intros Hqs Hp Ha Hex Epc. destruct (execution_inv commands n k s Hqs Hp Ha Hex) as [ev H]. by apply returned_result with ev. Qed.

(** C14: The requests of the scheduler are safe under every interleaving of the main thread and the
    backend threads, with spurious wakeups of the condition variable: no thread runs into an
    assertion or uses the status object after it was finalised; at most one thread is in the
    critical section; and when [esdm_scheduler_wait()] and [esdm_scheduler_status_finalize()] have
    returned, every item has been prepared in its order, every task of the request has been
    performed exactly once, no backend thread will touch the status again, and the return code is
    success exactly when all tasks succeeded, and otherwise the code of a task that failed. *)
Theorem request_safe (commands : list (command Q T)) (n k : nat) (s : system Q T W) :
  items commands = qs -> pushed commands = [] -> announces announced 0 commands ->
  execution backendOf threads prepare perform (start w0 commands) n k s ->
  (exists r, main_step backendOf threads prepare s = Done r) /\
  (forall i, exists r, worker_step backendOf threads perform i s = Done r) /\
  (forall i t p, tasks s !! i = Some (t, p) -> holding p = true ->
     main_holds (pc s) = false /\ forall j t' q, tasks s !! j = Some (t', q) -> holding q = true -> j = i) /\
  (forall ret, pc s = ReturnedMain ret -> request_result s ret).
Proof.
  intros Hqs Hp Ha Hex. destruct (execution_inv commands n k s Hqs Hp Ha Hex) as [ev H]. split; [by eapply main_defined |].
  split; [intros i; by eapply worker_defined |]. split.
  - intros i t p Ei Hh. destruct (holder_free ev s i t p H Ei Hh) as (Em & Hm & _). split; [done |]. intros j t' q Ej Hq.
    destruct (decide (j = i)) as [| Hne]; [done |]. rewrite (others_free ev s i j t' q H) in Hq; [done | by right | done | done].
  - intros ret. by apply returned_result with ev.
Qed.

Lemma execution_first (s s1 s2 : system Q T W) (m : nat) :
  step backendOf threads prepare perform s s1 -> execution backendOf threads prepare perform s1 m 0 s2 ->
  execution backendOf threads prepare perform s (S m) 0 s2.
Proof.
  intros Hs Hex. remember 0%nat as z eqn:Ez. revert Ez. induction Hex as [| m k s2 s3 Hex IH Hs2 | m k s2 s3 Hex IH Hs2]; intros Ez; subst.
  - eapply execution_step; [constructor | done].
  - eapply execution_step; [by apply IH | done].
  - discriminate Ez.
Qed.

Lemma request_completes (commands : list (command Q T)) (n k : nat) (s : system Q T W) :
  items commands = qs -> pushed commands = [] -> announces announced 0 commands ->
  execution backendOf threads prepare perform (start w0 commands) n k s ->
  (finished s \/ exists s', step backendOf threads prepare perform s s') /\
  exists m s', execution backendOf threads prepare perform s m 0 s' /\ finished s'.
Proof.
  intros Hqs Hp Ha Hex. destruct (execution_inv commands n k s Hqs Hp Ha Hex) as [ev H]. split; [by apply (progress ev) |].
  pose proof (work_nonneg s) as Hw. remember (Z.to_nat (work s)) as fuel eqn:Ef. revert n s ev Hex H Hw Ef.
  induction fuel as [fuel IH] using lt_wf_ind. intros n s ev Hex H Hw Ef.
  destruct (progress ev s H) as [Hf | [s' Hs]]; [exists 0%nat, s; split; [constructor | done] |].
  assert (Hdec : work s' < work s) by (destruct Hs as [s' E | i s' E]; [by apply main_work | by apply (worker_work _ _ i)]).
  destruct (execution_inv commands (S n) k s' Hqs Hp Ha) as [ev' H']; [by eapply execution_step |].
  destruct (IH (Z.to_nat (work s'))) with (n := S n) (s := s') (ev := ev') as (m & s2 & Hex2 & Hf); try done;
    [pose proof (work_nonneg s'); lia | by eapply execution_step | apply work_nonneg |].
  exists (S m), s2. split; [by eapply execution_first | done].
Qed.

(** C15: A request never deadlocks, and no wakeup is lost: in every state that the threads can reach
    some thread can take a step unless the main thread has returned and all tasks are finished,
    and from every such state a schedule leads to that end; with backends that have threads of
    their own and backends that the main thread serves itself, whatever the numbers of threads. *)
Theorem request_live (commands : list (command Q T)) (n k : nat) (s : system Q T W) :
  items commands = qs -> pushed commands = [] -> announces announced 0 commands ->
  execution backendOf threads prepare perform (start w0 commands) n k s ->
  (finished s \/ exists s', step backendOf threads prepare perform s s') /\
  exists m s', execution backendOf threads prepare perform s m 0 s' /\ finished s'.
Proof. apply request_completes. Qed.

(** C16: Every request terminates: an execution in which the condition variable wakes the main thread
    spuriously [k] times has at most [6 + 35 * length commands + 2 * k] other steps. *)
Theorem request_terminates (commands : list (command Q T)) (n k : nat) (s : system Q T W) :
  execution backendOf threads prepare perform (start w0 commands) n k s -> (n <= 6 + 35 * length commands + 2 * k)%nat.
Proof.
  intros Hex. apply execution_work in Hex. pose proof (work_nonneg s) as Hw. unfold work at 2 in Hex. cbn [start pc tasks mainRank] in Hex.
  assert (total commandRank commands <= 35 * Z.of_nat (length commands)).
  { clear. induction commands as [| c cs IH]; [done |]. rewrite total_cons. cbn [length]. destruct c; cbn [commandRank]; lia. }
  cbn [total foldr] in Hex. lia.
Qed.

End Protocol.

(** * A schedule *)

Section Schedule.

Context {Q T W : Type} (backendOf : T -> nat) (threads : nat -> nat) (prepare : Q -> W -> outcome (list (command Q T) * W))
  (perform : T -> W -> outcome (esdm_status * W)).

(** A schedule is a list of choices: which thread takes the next step, or that the main thread wakes
    up without a signal. *)
Inductive choice := Run (th : thread) | Spurious.

Definition take_step (c : choice) (s : system Q T W) : outcome (option (system Q T W)) :=
  match c with
  | Run MainThread => main_step backendOf threads prepare s
  | Run (Worker i) => worker_step backendOf threads perform i s
  | Spurious => mret (match pc s with WaitSleep => Some (setPc s WaitLock) | _ => None end)
  end.

(** [None] when a choice was not possible. *)
Fixpoint follow (schedule : list choice) (s : system Q T W) : outcome (option (system Q T W)) :=
  match schedule with
  | [] => mret (Some s)
  | c :: schedule' =>
      r ← take_step c s;
      match r with
      | Some s' => follow schedule' s'
      | None => mret None
      end
  end.

(** A request from [esdm_scheduler_status_init()] to the return of [esdm_scheduler_wait()] and
    [esdm_scheduler_status_finalize()], under a schedule: the return code and the world, or [None]
    when the schedule is not a complete one. *)
Definition run_request (schedule : list choice) (commands : list (command Q T)) (w : W) : outcome (option (esdm_status * W)) :=
  r ← follow schedule (start w commands);
  mret (match r with
        | Some s => match pc s with ReturnedMain ret => Some (ret, world s) | _ => None end
        | None => None
        end).

Lemma take_step_execution (c : choice) (s0 s s' : system Q T W) (n k : nat) :
  execution backendOf threads prepare perform s0 n k s -> take_step c s = Done (Some s') ->
  exists n' k', execution backendOf threads prepare perform s0 n' k' s'.
Proof.
  intros Hex E. destruct c as [[| i] |]; cbn [take_step] in E.
  - exists (S n), k. eapply execution_step; [exact Hex | by apply step_main].
  - exists (S n), k. eapply execution_step; [exact Hex | by eapply step_worker].
  - destruct (pc s) eqn:Epc; try discriminate E. injection E as <-. exists n, (S k). eapply execution_wakeup; [exact Hex | by constructor].
Qed.

Lemma follow_execution (schedule : list choice) (s0 s s' : system Q T W) (n k : nat) :
  execution backendOf threads prepare perform s0 n k s -> follow schedule s = Done (Some s') ->
  exists n' k', execution backendOf threads prepare perform s0 n' k' s'.
Proof.
  revert n k s. induction schedule as [| c schedule IH]; intros n k s Hex E; cbn [follow] in E.
  - injection E as <-. eauto.
  - destruct (take_step c s) as [[s1 |] | |] eqn:E1; try discriminate E.
    destruct (take_step_execution c s0 s s1 n k Hex E1) as (n1 & k1 & Hex1). by apply (IH n1 k1 s1).
Qed.

Lemma follow_app (schedule schedule' : list choice) (s s' : system Q T W) :
  follow schedule s = Done (Some s') -> follow (schedule ++ schedule') s = follow schedule' s'.
Proof.
  revert s. induction schedule as [| c schedule IH]; intros s E; cbn [follow app] in *; [by injection E as -> |].
  destruct (take_step c s) as [[s1 |] | |]; try discriminate E. by apply IH.
Qed.

Lemma execution_schedule (s s' : system Q T W) (m k : nat) :
  execution backendOf threads prepare perform s m k s' -> exists schedule, follow schedule s = Done (Some s').
Proof.
  intros Hex. induction Hex as [| m k s1 s2 Hex [schedule IH] Hs | m k s1 s2 Hex [schedule IH] Hs]; [by exists [] | |].
  - assert (exists c, take_step c s1 = Done (Some s2)) as [c Ec].
    { destruct Hs as [s2 E | i s2 E]; [by exists (Run MainThread) | by exists (Run (Worker i))]. }
    exists (schedule ++ [c]). rewrite (follow_app _ _ s s1) by done. cbn [follow]. by rewrite Ec.
  - destruct Hs as [Epc]. exists (schedule ++ [Spurious]). rewrite (follow_app _ _ s s1) by done. cbn [follow take_step]. by rewrite Epc.
Qed.

(** Every schedule of a request runs without an abort or undefined behaviour, and a complete one
    performs all tasks. *)
Lemma run_request_ok (qs : list Q) (announced : Q -> bool) (w0 : W) (schedule : list choice) (commands : list (command Q T)) :
  Z.of_nat (length qs) < 2 ^ 31 -> (forall q w cs w', prepare q w = Done (cs, w') -> item_commands (announced q) cs) ->
  (forall ev w q, happens prepare perform qs w0 ev w -> qs !! length (preparedItems ev) = Some q -> exists cs w', prepare q w = Done (cs, w')) ->
  (forall ev w i t, happens prepare perform qs w0 ev w -> submitted ev !! i = Some t -> i ∉ (results ev).*1 ->
     exists ret w', perform t w = Done (ret, w')) ->
  items commands = qs -> pushed commands = [] -> announces announced 0 commands ->
  exists r, run_request schedule commands w0 = Done r /\
  forall ret w, r = Some (ret, w) -> exists s, world s = w /\ request_result prepare perform qs w0 s ret.
Proof.
  intros Hcount Hprep Hprepares Hperforms Hqs Hp Ha.
  assert (Hfollow : forall n k s, execution backendOf threads prepare perform (start w0 commands) n k s -> exists r, follow schedule s = Done r).
  { induction schedule as [| c schedule IH]; intros n k s Hex; cbn [follow]; [by eexists |].
    destruct (execution_inv backendOf threads prepare perform qs announced w0 Hcount Hprep commands n k s Hqs Hp Ha Hex) as [ev Hinv].
    assert (Hd : exists r, take_step c s = Done r).
    { destruct c as [[| i] |]; cbn [take_step]; [| | by eexists].
      - by eapply (main_defined backendOf threads prepare perform qs announced w0).
      - by eapply (worker_defined backendOf threads prepare perform qs announced w0). }
    destruct Hd as [[s1 |] E]; rewrite E; run; [| by eexists].
    destruct (take_step_execution c _ s s1 n k Hex E) as (n1 & k1 & Hex1). by apply (IH n1 k1 s1). }
  destruct (Hfollow 0%nat 0%nat (start w0 commands)) as [r E]; [constructor |]. unfold run_request. rewrite E. run.
  eexists. split; [done |]. intros ret w Er. destruct r as [s |]; [| discriminate Er].
  destruct (pc s) eqn:Epc; try discriminate Er. injection Er as -> <-. exists s. split; [done |].
  destruct (follow_execution schedule (start w0 commands) (start w0 commands) s 0 0) as (n & k & Hex); [constructor | done |].
  by apply (request_returns backendOf threads prepare perform qs announced w0 Hcount Hprep commands n k s ret).
Qed.

(** Some schedule completes the request. *)
Lemma run_request_returns (qs : list Q) (announced : Q -> bool) (w0 : W) (commands : list (command Q T)) :
  Z.of_nat (length qs) < 2 ^ 31 -> (forall q w cs w', prepare q w = Done (cs, w') -> item_commands (announced q) cs) ->
  (forall ev w q, happens prepare perform qs w0 ev w -> qs !! length (preparedItems ev) = Some q -> exists cs w', prepare q w = Done (cs, w')) ->
  (forall ev w i t, happens prepare perform qs w0 ev w -> submitted ev !! i = Some t -> i ∉ (results ev).*1 ->
     exists ret w', perform t w = Done (ret, w')) ->
  items commands = qs -> pushed commands = [] -> announces announced 0 commands ->
  exists schedule ret w, run_request schedule commands w0 = Done (Some (ret, w)).
Proof.
  intros Hcount Hprep Hprepares Hperforms Hqs Hp Ha.
  destruct (request_completes backendOf threads prepare perform qs announced w0 Hcount Hprep Hprepares Hperforms commands 0 0 (start w0 commands))
    as (_ & m & s & Hex & (ret & Epc) & _); try done; [constructor |].
  destruct (execution_schedule _ _ _ _ Hex) as [schedule E]. exists schedule, ret, (world s). unfold run_request. rewrite E. run. by rewrite Epc.
Qed.

End Schedule.

(** Two tasks: the second one runs in the main thread, the first one ends after the main thread has
    gone to sleep, and fails. *)
Module TwoTasks.

Definition prepare (q : nat) (w : list nat) : outcome (list (command nat nat) * list nat) := mret ([Push q], w).

Definition perform (t : nat) (w : list nat) : outcome (esdm_status * list nat) :=
  mret (if bool_decide (t = 1%nat) then ESDM_ERROR else ESDM_SUCCESS, w ++ [t]).

Definition commands : list (command nat nat) := [AddPending 2; Prepare 1%nat; Prepare 0%nat].

Definition schedule : list choice :=
  replicate 5 (Run MainThread) ++ replicate 8 (Run (Worker 1)) ++ replicate 3 (Run MainThread) ++ replicate 8 (Run (Worker 0)) ++ replicate 4 (Run MainThread).

Definition final : system nat nat (list nat) :=
  System [0%nat; 1%nat] (RequestStatus 0 ESDM_ERROR) None true (ReturnedMain ESDM_ERROR) [(1%nat, Finished); (0%nat, Finished)].

Lemma runs : exists n k, execution (fun t => t) (fun b => b) prepare perform (start [] commands) n k final.
Proof. apply (follow_execution _ _ _ _ schedule _ (start [] commands) _ 0 0); [constructor | by vm_compute]. Qed.

End TwoTasks.

Lemma request_safe_witness : request_result TwoTasks.prepare TwoTasks.perform [1%nat; 0%nat] [] TwoTasks.final ESDM_ERROR.
Proof.
  destruct TwoTasks.runs as (n & k & Hex).
  apply (request_safe (fun t => t) (fun b => b) TwoTasks.prepare TwoTasks.perform [1%nat; 0%nat] (fun _ => true) [])
    with (commands := TwoTasks.commands) (n := n) (k := k).
  - done.
  - intros q w cs w' [= <- <-]. by exists q.
  - intros ev w q _ _. eexists _, _. reflexivity.
  - intros ev w i t _ _ _. eexists _, _. reflexivity.
  - reflexivity.
  - reflexivity.
  - cbn. lia.
  - exact Hex.
  - reflexivity.
Defined.

Lemma request_live_witness :
  exists m s', execution (fun t => t) (fun b => b) TwoTasks.prepare TwoTasks.perform (start [] TwoTasks.commands) m 0 s' /\ finished s'.
Proof.
  apply (request_live (fun t => t) (fun b => b) TwoTasks.prepare TwoTasks.perform [1%nat; 0%nat] (fun _ => true) [])
    with (commands := TwoTasks.commands) (n := 0%nat) (k := 0%nat).
  - done.
  - intros q w cs w' [= <- <-]. by exists q.
  - intros ev w q _ _. eexists _, _. reflexivity.
  - intros ev w i t _ _ _. eexists _, _. reflexivity.
  - reflexivity.
  - reflexivity.
  - cbn. lia.
  - constructor.
Defined.

Lemma request_terminates_witness :
  exists n k, execution (fun t => t) (fun b => b) TwoTasks.prepare TwoTasks.perform (start [] TwoTasks.commands) n k TwoTasks.final /\
  (n <= 6 + 35 * length TwoTasks.commands + 2 * k)%nat.
Proof.
  destruct TwoTasks.runs as (n & k & Hex). exists n, k. split; [exact Hex |].
  apply (request_terminates (fun t => t) (fun b => b) TwoTasks.prepare TwoTasks.perform [1%nat; 0%nat] (fun _ => true) []) with (s := TwoTasks.final).
  - intros q w cs w' [= <- <-]. by exists q.
  - exact Hex.
Defined.
