(* ===== verification/Dataset.v ===== *)
(** Datasets (src/esdm-datatypes.c, src/esdm.c): the fragments that serve a region, whether they
    cover it, the creation and registration of fragments, and the fill value. *)

From stdpp Require Import gmap.
From S2P Require Import Prelude Hypercube HypercubeSet Json Odometer Memory Dataspace Convert CopyData Partition Grid GridTree GridVisit GridRegion GridCover Fragment FragmentState Posix Fragments.

Open Scope Z_scope.

(** * Data *)

(** [fill_value] has the bytes of the attribute's value; [dset_grids] are the complete grids, the
    first [gridCount] entries of the array; the fragments of the grids are handles. *)
Record esdm_dataset_t (T : Type) := Dataset {
  dset_id : string;
  dset_space : esdm_dataspace_t;
  fill_value : option (list Z);
  actual_size : option (list Z);
  dset_fragments : T;
  dset_grids : list (esdm_grid_t nat);
  dset_status : esdm_data_status_e;
  container_status : esdm_data_status_e
}.
Arguments Dataset {T} dset_id dset_space fill_value actual_size dset_fragments dset_grids dset_status container_status.
Arguments dset_id {T} _.
Arguments dset_space {T} _.
Arguments fill_value {T} _.
Arguments actual_size {T} _.
Arguments dset_fragments {T} _.
Arguments dset_grids {T} _.
Arguments dset_status {T} _.
Arguments container_status {T} _.

(** * Operations *)

Section Operations.

Context {T : Type} `{GHashTable T}.

Definition esdm_dataset_get_type (d : esdm_dataset_t T) : esdm_type_t := type (dset_space d).

Definition esdm_dataset_set_fill_value (d : esdm_dataset_t T) (value : option (list Z)) : esdm_status * esdm_dataset_t T :=
  (ESDM_SUCCESS,
   Dataset (dset_id d) (dset_space d) (take (Z.to_nat (esdm_sizeof (type (dset_space d)))) <$> value) (actual_size d) (dset_fragments d) (dset_grids d)
     (dset_status d) (container_status d)).

Definition esdm_dataset_is_fill_value_set (d : esdm_dataset_t T) : bool := bool_decide (is_Some (fill_value d)).

(** The value is copied to the caller's buffer. *)
Definition esdm_dataset_get_fill_value (d : esdm_dataset_t T) : esdm_status * option (list Z) :=
  match fill_value d with
  | None => (ESDM_ERROR, None)
  | Some value => (ESDM_SUCCESS, Some value)
  end.

(** One dimension of [esdmI_dataset_update_actual_size()]. *)
Definition updateSize_dim (datasetSize : list Z) (space : esdm_dataspace_t) (sizes : list Z) (i : nat) : outcome (list Z) :=
  d ← deref (datasetSize !! i);
  if d =? 0 then
    s ← deref (size space !! i);
    o ← deref (offset space !! i);
    fend ← chk64 (s + o);
    a ← deref (sizes !! i);
    mret (if fend >? a then <[i := fend]> sizes else sizes)
  else mret sizes.

Definition esdmI_dataset_update_actual_size (d : esdm_dataset_t T) (frag : esdm_fragment_t) : outcome (esdm_dataset_t T) :=
  match actual_size d with
  | None => mret d
  | Some sizes =>
      sizes ← foldM (fun i sizes => updateSize_dim (size (dset_space d)) (dataspace frag) sizes i) (seq 0 (Z.to_nat (dims (dset_space d)))) sizes;
      mret (Dataset (dset_id d) (dset_space d) (fill_value d) (Some sizes) (dset_fragments d) (dset_grids d) (dset_status d) (container_status d))
  end.

(** Dataset and container are dirty after a fragment has been added. *)
Definition esdmI_dataset_register_fragment (dset : esdm_dataset_t T) (objs : gmap nat esdm_fragment_t) (frag : nat)
    : outcome (esdm_status * esdm_dataset_t T) :=
  '(result, t) ← esdmI_fragments_add (dset_fragments dset) objs frag;
  if decide (result = ESDM_SUCCESS) then
    mret (ESDM_SUCCESS, Dataset (dset_id dset) (dset_space dset) (fill_value dset) (actual_size dset) t (dset_grids dset) ESDM_DATA_DIRTY ESDM_DATA_DIRTY)
  else mret (result, dset).

Definition esdmI_dataset_lookupFragmentForShape (dataset : esdm_dataset_t T) (shape : esdm_dataspace_t) : outcome (option nat) :=
  extends ← esdmI_dataspace_getExtends shape;
  esdmI_fragments_lookupForShape (dset_fragments dataset) extends.

(** The new fragment object gets a fresh handle; the result is its handle, whether it is new, the
    dataset and the objects. *)
Definition esdmI_dataset_createFragment (dataset : esdm_dataset_t T) (objs : gmap nat esdm_fragment_t) (memspace : esdm_dataspace_t)
    (buf : option pointer) : outcome (nat * bool * esdm_dataset_t T * gmap nat esdm_fragment_t) :=
  result ← esdmI_dataset_lookupFragmentForShape dataset memspace;
  match result with
  | Some v => mret (v, false, dataset, objs)
  | None =>
      f ← esdmI_fragment_create (dset_id dataset) (size (dset_space dataset)) memspace buf;
      dataset ← esdmI_dataset_update_actual_size dataset f;
      let v := fresh (dom objs) in
      let objs := <[v := f]> objs in
      '(status, dataset) ← esdmI_dataset_register_fragment dataset objs v;
      eassert (bool_decide (status = ESDM_SUCCESS));;
      mret (v, true, dataset, objs)
  end.

(** The loop of [fragmentsCoverRegion()]. *)
Definition coverRegion_loop (fragments : list nat) (objs : gmap nat esdm_fragment_t) (uncovered : esdmI_hypercubeSet_t) : outcome esdmI_hypercubeSet_t :=
  foldM (fun v uncovered =>
           f ← deref (objs !! v);
           curCube ← esdmI_dataspace_getExtends (dataspace f);
           esdmI_hypercubeSet_subtract uncovered curCube) fragments uncovered.

Definition fragmentsCoverRegion (region : esdmI_hypercube_t) (fragments : list nat) (objs : gmap nat esdm_fragment_t)
    : outcome (bool * esdmI_hypercubeSet_t) :=
  uncovered ← esdmI_hypercubeSet_add esdmI_hypercubeSet_make region;
  if (Z.of_nat (length fragments) =? 0) then mret (false, uncovered)
  else
    uncovered ← coverRegion_loop fragments objs uncovered;
    esdmI_hypercubeSet_isEmpty uncovered.

(** The fragments, the uncovered part of the region and whether the region is covered; the status
    of the grid query is not used. *)
Definition esdmI_dataset_fragmentsCoveringRegion (dataset : esdm_dataset_t T) (objs : gmap nat esdm_fragment_t) (region : esdmI_hypercube_t)
    : outcome (list nat * esdmI_hypercubeSet_t * bool) :=
  grid ← esdmI_dataset_gridCoveringRegion (dset_grids dataset) region;
  match grid with
  | Some k =>
      g ← deref (dset_grids dataset !! k);
      '(_, fragments) ← esdmI_grid_fragmentsInRegion g region;
      fragments ← deref fragments;
      mret (fragments, esdmI_hypercubeSet_make, true)
  | None =>
      fragments ← esdmI_fragments_makeSetCoveringRegion (dset_fragments dataset) region;
      '(fullyCovered, uncovered) ← fragmentsCoverRegion region fragments objs;
      mret (fragments, uncovered, fullyCovered)
  end.

End Operations.

(** * Coverage *)

Section Coverage.

Context (objs : gmap nat esdm_fragment_t) (n : nat).

(** The fragments of a list are objects of [n] dimensions. *)
Definition shaped (vs : list nat) : Prop :=
  forall v, v ∈ vs -> exists f, objs !! v = Some f /\ space_wf (dataspace f) /\ space_int64 (dataspace f) /\ length (extends (dataspace f)) = n.

(** A point of one of the fragments. *)
Definition inFragments (vs : list nat) (p : list Z) : Prop :=
  exists v f, v ∈ vs /\ objs !! v = Some f /\ in_cube p (extends (dataspace f)).

#[local] Instance inFragments_dec (vs : list nat) (p : list Z) : Decision (inFragments vs p).
Proof.
  assert (H : Decision (Exists (fun v => match objs !! v with Some f => in_cube p (extends (dataspace f)) | None => False end) vs)).
  { apply Exists_dec. intros v. destruct (objs !! v); apply _. }
  destruct H as [H | H]; [left | right].
  - apply Exists_exists in H as (v & Hv & Hp). destruct (objs !! v) as [f |] eqn:E; [| done]. by exists v, f.
  - intros (v & f & Hv & E & Hp). apply H, Exists_exists. exists v. by rewrite E.
Qed.

Definition set_ok (me : esdmI_hypercubeSet_t) : Prop := HypercubeSet.set_wf me /\ set_dims n me /\ Forall nonempty (cubes me).

Lemma coverRegion_loop_ok (vs : list nat) (me : esdmI_hypercubeSet_t) :
  shaped vs -> set_ok me ->
  exists me', coverRegion_loop vs objs me = Done me' /\ set_ok me' /\
  forall p, covered (cubes me') p <-> covered (cubes me) p /\ ~ inFragments vs p.
Proof.
  revert me. induction vs as [| v vs IH]; intros me Hsh Hme; unfold coverRegion_loop; cbn [foldM].
  - exists me. split; [done |]. split; [done |]. intros p. split; [| by intros [? _]]. intros Hp. split; [done |]. by intros (v & f & ?%elem_of_nil & _).
  - destruct (Hsh v) as (f & Ef & Hwf & H64 & Hl); [by left |]. rewrite Ef. run. rewrite getExtends_ok by done. run.
    destruct Hme as (Hm1 & Hm2 & Hm3). destruct (subtract_ok me (extends (dataspace f)) Hm1) as (me1 & -> & Hp1 & Hp2 & Hp3 & Hp4); [by rewrite Hl |]. run.
    destruct (IH me1) as (me' & E & Hme' & Hcov); [intros u Hu; apply Hsh; by right | split_and!; [done | by rewrite Hl in Hp2 | by apply Hp3] |].
    exists me'. split; [exact E |]. split; [done |]. intros p. rewrite Hcov, !covered_count, Hp4. case_decide as Hd.
    + split; [intros [? _]; lia |]. intros [_ Hn]. destruct Hn. exists v, f. split; [by left | done].
    + split; intros [H1 H2]; (split; [done |]).
      * intros (u & g & [-> | Hu]%elem_of_cons & Eg & Hp); [rewrite Ef in Eg; by injection Eg as <- | apply H2; by exists u, g].
      * intros (u & g & Hu & Eg & Hp). apply H2. exists u, g. split; [by right | done].
Qed.

Lemma isEmpty_nonempty (me : esdmI_hypercubeSet_t) :
  Forall nonempty (cubes me) -> esdmI_hypercubeSet_isEmpty me = Done (bool_decide (cubes me = []), me).
Proof.
  intros Hn. unfold esdmI_hypercubeSet_isEmpty. destruct (cubes me) as [| c l] eqn:E.
  - cbn. unfold esdmI_hypercubeSet_count. rewrite E. done.
  - cbn [length isEmpty_loop]. destruct (lookup_lt_is_Some_2 (cubes me) (length l)) as [d Hd]; [rewrite E; simpl; lia |].
    rewrite Hd. run. rewrite E in Hd. pose proof (Forall_lookup_1 _ _ _ _ Hn Hd) as Hnd. simpl in Hnd.
    apply isEmpty_false_iff in Hnd. rewrite Hnd. by rewrite bool_decide_false.
Qed.

Lemma fragmentsCoverRegion_ok (region : esdmI_hypercube_t) (vs : list nat) :
  length region = n -> nonempty region -> shaped vs ->
  exists full uncovered, fragmentsCoverRegion region vs objs = Done (full, uncovered) /\ set_ok uncovered /\
  (forall p, covered (cubes uncovered) p <-> in_cube p region /\ ~ inFragments vs p) /\
  (full = true <-> cubes uncovered = []).
Proof.
  intros Hl Hn Hsh. unfold fragmentsCoverRegion. destruct (add_ok esdmI_hypercubeSet_make region) as (me & -> & Hwf & Hc); [apply construct_wf |]. run.
  cbn [esdmI_hypercubeSet_make esdmI_hypercubeSet_construct cubes app] in Hc.
  assert (Hme : set_ok me).
  { split; [done |]. unfold set_dims. rewrite Hc. split; by apply Forall_singleton. }
  assert (Hreg : forall p, covered (cubes me) p <-> in_cube p region).
  { intros p. rewrite Hc. unfold covered. split; [by intros (c & ->%list_elem_of_singleton & Hp) |]. intros Hp. exists region. split; [by left | done]. }
  destruct vs as [| v vs].
  - cbn. exists false, me. split; [done |]. split; [done |]. split; [| by rewrite Hc]. intros p. rewrite Hreg. split; [| by intros [? _]].
    intros Hp. split; [done |]. by intros (v & f & ?%elem_of_nil & _).
  - replace (Z.of_nat (length (v :: vs)) =? 0) with false by (symmetry; apply Z.eqb_neq; simpl; lia).
    destruct (coverRegion_loop_ok (v :: vs) me Hsh Hme) as (me' & -> & Hme' & Hcov). run. rewrite isEmpty_nonempty by apply Hme'.
    eexists _, me'. split; [done |]. split; [done |]. split; [intros p; by rewrite Hcov, Hreg |]. apply bool_decide_eq_true.
Qed.

End Coverage.

(** * Regions *)

Lemma overlaps_point (a b : esdmI_hypercube_t) : nonempty a -> nonempty b -> cube_overlaps a b <-> exists p, in_cube p a /\ in_cube p b.
Proof.
  intros Ha Hb. split.
  - intros Ho. revert Ha Hb. induction Ho as [| r r' a b Hr _ IH]; intros Ha Hb; [exists []; split; constructor |].
    apply Forall_cons in Ha as [Ha1 Ha]. apply Forall_cons in Hb as [Hb1 Hb]. destruct (IH Ha Hb) as (p & Hp & Hp').
    exists (Z.max (rstart r) (rstart r') :: p). unfold range_overlaps in Hr. split; apply in_cube_cons2; (split; [unfold in_range; lia | done]).
  - intros (p & Hp & Hp'). unfold in_cube in *. revert b Hb Hp'. induction Hp as [| x r p a Hx _ IH]; intros b Hb Hp'.
    + apply Forall2_nil_inv_l in Hp' as ->. constructor.
    + apply Forall2_cons_inv_l in Hp' as (r' & b' & Hx' & Hp' & ->). constructor; [unfold range_overlaps, in_range in *; lia |].
      apply Forall_cons in Ha as [_ Ha]. apply Forall_cons in Hb as [_ Hb]. by apply IH.
Qed.

Lemma inside_point (a b : esdmI_hypercube_t) (p : list Z) : Forall2 range_inside a b -> in_cube p a -> in_cube p b.
Proof.
  intros Hi Hp. unfold in_cube in *. revert b Hi. induction Hp as [| x r p a Hx _ IH]; intros b Hi.
  - apply Forall2_nil_inv_l in Hi as ->. constructor.
  - apply Forall2_cons_inv_l in Hi as (r' & b' & Hr & Hi & ->). constructor; [unfold range_inside, in_range in *; lia | by apply IH].
Qed.

Lemma inside_overlaps (a b : esdmI_hypercube_t) : nonempty a -> Forall2 range_inside a b -> cube_overlaps b a.
Proof.
  intros Hn Hi. revert Hn. induction Hi as [| r r' a b Hr _ IH]; intros Hn; [constructor |]. apply Forall_cons in Hn as [Hr' Hn].
  constructor; [unfold range_overlaps, range_inside in *; lia | by apply IH].
Qed.

(** The cells of a complete grid are different. *)
Lemma leaves_nodup (g : esdm_grid_t nat) : tree_wf g -> grid_complete g = true -> NoDup (leafCells g).
Proof.
  intros Hwf Hc. destruct (leaves_partition g Hwf (grid_complete_tree g Hwf Hc)) as [P1 _ P3]. apply (NoDup_fmap_1 fst), NoDup_alt. intros i j c Hi Hj.
  pose proof (nonempty_point c (Forall_lookup_1 _ _ _ _ P1 Hi)) as Hp. by apply (P3 i j c c (rstart <$> c)).
Qed.

(** * The fragments for a region *)

Section Region.

Context {T : Type} `{GHashTableLaws T} (objs : gmap nat esdm_fragment_t) (n : nat) (region : esdmI_hypercube_t).

Hypothesis Hreg : Forall range_int64 region.
Hypothesis Hkey : key_ok n region.
Hypothesis Hpos : (0 < n)%nat.
Hypothesis Hvol : volume region <= INT64_MAX.

(** A complete grid whose cells have fragments of their shape. *)
Record grid_ready (g : esdm_grid_t nat) : Prop := {
  gr_tree : tree_wf g;
  gr_complete : grid_complete g = true;
  gr_servable : servable region g;
  gr_linked : forall c o, (c, o) ∈ leafCells g -> exists v f, o = Some v /\ objs !! v = Some f /\ extends (dataspace f) = c /\
    space_wf (dataspace f) /\ space_int64 (dataspace f)
}.

Record dataset_ok (d : esdm_dataset_t T) : Prop := {
  dk_fragments : fragments_inv n (dset_fragments d) objs;
  dk_sizes : sizes_ok (dset_fragments d);
  dk_grids : Forall grid_ready (dset_grids d)
}.

Lemma region_nonempty : nonempty region.
Proof. eapply Forall_impl; [exact Hreg |]. intros r (Hr & _). lia. Qed.

(** The fragments of a grid that contains the region. *)
Lemma gridFragments_ok (g : esdm_grid_t nat) :
  grid_ready g -> contains_region region g ->
  exists vs, esdmI_grid_fragmentsInRegion g region = Done (ESDM_SUCCESS, Some vs) /\
  (forall v, v ∈ vs -> Some v ∈ (leafCells g).*2) /\ NoDup vs /\ shaped objs n vs /\
  (forall v f, v ∈ vs -> objs !! v = Some f -> exists p, in_cube p (extends (dataspace f)) /\ in_cube p region) /\
  (forall p, in_cube p region -> inFragments objs vs p).
Proof.
  intros [Hwf Hc Hsv Hlink] Hin. pose proof region_nonempty as Hne. pose proof (leaves_partition g Hwf (grid_complete_tree g Hwf Hc)) as [P1 P2 _].
  assert (Hleaf : forall c o, (c, o) ∈ leafCells g -> nonempty c /\ length c = n).
  { intros c o Hco. assert (Hc1 : c ∈ (leafCells g).*1) by (apply list_elem_of_fmap; by exists (c, o)).
    split; [by apply (proj1 (Forall_forall _ _) P1) |]. pose proof (leafCells_inside g (c, o) Hwf Hco) as Hci.
    apply Forall2_length in Hci, Hin. cbn [fst] in Hci. rewrite Hci, <- Hin. apply Hkey. }
  destruct (fragmentsInRegion_ok region Hreg g Hwf Hc (inside_overlaps region (domain g) Hne Hin)) as (vs & E & Hp).
  assert (Hmem : forall v, v ∈ vs <-> exists c, (c, Some v) ∈ leafCells g /\ cube_overlaps c region).
  { intros v. rewrite Hp. unfold regionFragments, selectFragments. rewrite list_elem_of_omap. split.
    - intros ([c o] & [Ho Hx]%list_elem_of_filter & Eo). cbn [snd fst] in *. subst o. by exists c.
    - intros (c & Hx & Ho). exists (c, Some v). split; [by apply list_elem_of_filter | done]. }
  assert (Hobj : forall v, v ∈ vs -> exists f, (extends (dataspace f), Some v) ∈ leafCells g /\ cube_overlaps (extends (dataspace f)) region /\
    objs !! v = Some f /\ space_wf (dataspace f) /\ space_int64 (dataspace f)).
  { intros v (c & Hx & Ho)%Hmem. destruct (Hlink c (Some v) Hx) as (? & f & [= <-] & Ef & <- & H1 & H2). by exists f. }
  exists vs. split; [exact E |]. split; [| split; [| split; [| split]]].
  - intros v (c & Hx & _)%Hmem. apply list_elem_of_fmap. by exists (c, Some v).
  - rewrite Hp. apply NoDup_omap_strong; [by apply NoDup_filter, leaves_nodup |].
    intros [c o] [c' o'] v [_ Hx]%list_elem_of_filter [_ Hy]%list_elem_of_filter. cbn [snd]. intros -> ->.
    destruct (Hlink c _ Hx) as (? & f & [= <-] & Ef & <- & _). destruct (Hlink c' _ Hy) as (? & f' & [= <-] & Ef' & <- & _).
    rewrite Ef in Ef'. by injection Ef' as <-.
  - intros v (f & Hx & _ & Ef & H1 & H2)%Hobj. exists f. split_and!; try done. by apply (Hleaf _ (Some v)).
  - intros v f Hv Ef. destruct (Hobj v Hv) as (f' & Hx & Ho & Ef' & _). rewrite Ef in Ef'. injection Ef' as <-.
    apply overlaps_point; [by apply (Hleaf _ (Some v)) | done | done].
  - intros p Hpr. pose proof (inside_point region (domain g) p Hin Hpr) as Hpd. apply P2 in Hpd as (c & Hcl & Hpc).
    apply list_elem_of_fmap in Hcl as ([c' o] & -> & Hco). cbn [fst] in Hpc. destruct (Hlink c' o Hco) as (v & f & -> & Ef & <- & _).
    exists v, f. split; [| done]. apply Hmem. exists (extends (dataspace f)). split; [done |]. apply overlaps_point; [by apply (Hleaf _ (Some v)) | done |].
    by exists p.
Qed.

(** The handles that the dataset offers for the region. *)
Definition listed (d : esdm_dataset_t T) (v : nat) : Prop :=
  v ∈ (g_hash_table_entries (dset_fragments d)).*2 \/ exists g, g ∈ dset_grids d /\ contains_region region g /\ Some v ∈ (leafCells g).*2.

(** The dataset has data for a point. *)
Definition available (d : esdm_dataset_t T) (p : list Z) : Prop :=
  exists v f, listed d v /\ objs !! v = Some f /\ in_cube p (extends (dataspace f)).

Lemma fragmentsCoveringRegion_ok (d : esdm_dataset_t T) :
  dataset_ok d ->
  exists vs uncovered full, esdmI_dataset_fragmentsCoveringRegion d objs region = Done (vs, uncovered, full) /\
  NoDup vs /\ shaped objs n vs /\ set_ok n uncovered /\ (full = true <-> cubes uncovered = []) /\
  (forall v f, v ∈ vs -> objs !! v = Some f -> exists p, in_cube p (extends (dataspace f)) /\ in_cube p region) /\
  (forall p, covered (cubes uncovered) p <-> in_cube p region /\ ~ inFragments objs vs p) /\
  (forall p, in_cube p region -> inFragments objs vs p <-> available d p).
Proof.
  intros [Hinv Hsz Hgr]. destruct Hkey as [Hl _]. pose proof region_nonempty as Hne. unfold esdmI_dataset_fragmentsCoveringRegion.
  destruct (gridCoveringRegion_ok region (dset_grids d)) as (r & -> & Hr); [eapply Forall_impl; [exact Hgr |]; apply gr_servable | done | by rewrite Hl | done |].
  run. destruct r as [k |].
  - destruct Hr as (g & ts & Eg & Hin & _). rewrite Eg. run. pose proof (Forall_lookup_1 _ _ _ _ Hgr Eg) as Hg.
    destruct (gridFragments_ok g Hg Hin) as (vs & -> & Hmem & Hnd & Hsh & Hpt & Hall). run. eexists vs, _, true. split; [done |].
    split; [done |]. split; [done |]. split; [by repeat constructor |]. split; [done |]. split; [done |]. split.
    + intros p. split; [by intros (c & ?%elem_of_nil & _) |]. intros [Hp Hn]. by destruct (Hn (Hall p Hp)).
    + intros p Hp. split; [| intros _; by apply Hall]. intros (v & f & Hv & Ef & Hpf). exists v, f. split; [| done]. right. exists g.
      split; [by eapply list_elem_of_lookup_2 |]. split; [done |]. by apply Hmem.
  - destruct (coveringSet_ok n (dset_fragments d) objs region Hinv Hsz Hkey Hne) as (vs & -> & Hnd & Hobj & Hcov & _). run.
    assert (Hsh : shaped objs n vs).
    { intros v Hv. destruct (Hobj v Hv) as (f & Ef & Hin & _). destruct (fs_objects _ _ _ Hinv _ _ Hin) as (f' & Ef' & [K1 K2 [K3 _]] & _).
      rewrite Ef in Ef'. injection Ef' as <-. by exists f. }
    destruct (fragmentsCoverRegion_ok objs n region vs Hl Hne Hsh) as (full & unc & -> & Hset & Hunc & Hfull). run. eexists vs, unc, full.
    split; [done |]. split; [done |]. split; [done |]. split; [done |]. split; [done |]. split; [| split; [done |]].
    + intros v f Hv Ef. destruct (Hobj v Hv) as (f' & Ef' & _ & p & Hp & Hp'). rewrite Ef in Ef'. injection Ef' as <-. by exists p.
    + intros p Hp. split; intros (v & f & Hv & Ef & Hpf).
      * exists v, f. split; [| done]. left. destruct (Hobj v Hv) as (f' & _ & Hin & _). apply list_elem_of_fmap. by eexists (_, v).
      * destruct Hv as [Hv | (g & Hg & Hin & _)]; [| by destruct (Hr g Hg)]. apply list_elem_of_fmap in Hv as ([key v'] & -> & Hin).
        destruct (fs_objects _ _ _ Hinv key v' Hin) as (f' & Ef' & _ & ->). cbn [snd] in Ef. rewrite Ef in Ef'. injection Ef' as <-.
        by apply (Hcov p (extends (dataspace f)) v').
Qed.

End Region.

(** * The size of a dataset with unlimited dimensions *)

Section Sizes.

Context {T : Type} `{GHashTableLaws T}.

(** The arrays of the dataset have the dimensions of [sp]. *)
Definition sizes_fit (sp : esdm_dataspace_t) (d : esdm_dataset_t T) : Prop :=
  space_wf (dset_space d) /\ dims (dset_space d) = dims sp /\
  forall sizes, actual_size d = Some sizes -> Z.of_nat (length sizes) = dims (dset_space d).

(** Nothing but the sizes, the table and the status of a dataset differs. *)
Definition sameDataset (d d' : esdm_dataset_t T) : Prop :=
  dset_id d' = dset_id d /\ dset_space d' = dset_space d /\ fill_value d' = fill_value d /\ dset_grids d' = dset_grids d.

(** The size of one dimension after a fragment that ends at [fend]. *)
Definition grownSize (datasetSize fend a : Z) : Z := if datasetSize =? 0 then Z.max a fend else a.

Lemma updateSize_dim_ok (datasetSize : list Z) (space : esdm_dataspace_t) (sizes : list Z) (i : nat) (d s o a : Z) :
  space_int64 space -> datasetSize !! i = Some d -> size space !! i = Some s -> offset space !! i = Some o -> sizes !! i = Some a ->
  updateSize_dim datasetSize space sizes i = Done (<[i := grownSize d (s + o) a]> sizes).
Proof.
  intros H64 Ed Es Eo Ea. unfold updateSize_dim, grownSize. rewrite Ed. run. destruct (d =? 0); [| by rewrite list_insert_id]. rewrite Es. run. rewrite Eo. run.
  destruct (Forall2_lookup_lr _ _ _ _ _ _ H64 Eo Es) as (B1 & B2 & B3 & B4). rewrite chk64_ok by lia. run. rewrite Ea. run.
  rewrite Z.gtb_ltb. destruct (Z.ltb_spec a (s + o)); [by rewrite Z.max_r by lia | by rewrite Z.max_l, list_insert_id by (done || lia)].
Qed.

Lemma updateSizes_ok (datasetSize : list Z) (space : esdm_dataspace_t) (k i : nat) (sizes : list Z) :
  space_int64 space -> (i + k = length datasetSize)%nat -> length (size space) = length datasetSize -> length (offset space) = length datasetSize ->
  length sizes = length datasetSize ->
  exists sizes', foldM (fun j sizes => updateSize_dim datasetSize space sizes j) (seq i k) sizes = Done sizes' /\ length sizes' = length sizes /\
  (forall j, (j < i)%nat -> sizes' !! j = sizes !! j) /\
  (forall j d s o a, (i <= j)%nat -> datasetSize !! j = Some d -> size space !! j = Some s -> offset space !! j = Some o -> sizes !! j = Some a ->
     sizes' !! j = Some (grownSize d (s + o) a)).
Proof.
  intros H64 Hk H1 H2. revert i sizes Hk. induction k as [| k IH]; intros i sizes Hk Hl; cbn [seq foldM].
  { exists sizes. split; [done |]. split; [done |]. split; [done |]. intros j d s o a Hj Ed. apply lookup_lt_Some in Ed. lia. }
  destruct (lookup_lt_is_Some_2 datasetSize i) as [d Ed]; [lia |]. destruct (lookup_lt_is_Some_2 (size space) i) as [s Es]; [lia |].
  destruct (lookup_lt_is_Some_2 (offset space) i) as [o Eo]; [lia |]. destruct (lookup_lt_is_Some_2 sizes i) as [a Ea]; [lia |].
  rewrite (updateSize_dim_ok datasetSize space sizes i d s o a) by done. run.
  destruct (IH (S i) (<[i := grownSize d (s + o) a]> sizes)) as (sizes' & -> & Hl' & Hlow & Hhigh); [lia | by rewrite length_insert |].
  rewrite length_insert in Hl'. exists sizes'. split; [done |]. split; [done |]. split.
  - intros j Hj. rewrite Hlow by lia. by rewrite list_lookup_insert_ne by lia.
  - intros j d' s' o' a' Hj Ed' Es' Eo' Ea'. destruct (decide (j = i)) as [-> | Hne].
    + rewrite Hlow by lia. rewrite list_lookup_insert_eq by (by eapply lookup_lt_Some). congruence.
    + apply Hhigh; try done; [lia |]. by rewrite list_lookup_insert_ne by lia.
Qed.

(** What the fragment adds to the sizes of the unlimited dimensions. *)
Definition grown (d d' : esdm_dataset_t T) (f : esdm_fragment_t) : Prop :=
  match actual_size d, actual_size d' with
  | None, None => True
  | Some sizes, Some sizes' => length sizes' = length sizes /\
      forall j s r a, size (dset_space d) !! j = Some s -> extends (dataspace f) !! j = Some r -> sizes !! j = Some a ->
      sizes' !! j = Some (grownSize s (rend r) a)
  | _, _ => False
  end.

Lemma update_actual_size_ok (sp : esdm_dataspace_t) (d : esdm_dataset_t T) (f : esdm_fragment_t) :
  sizes_fit sp d -> data_space (dataspace f) -> dims (dataspace f) = dims sp ->
  exists d', esdmI_dataset_update_actual_size d f = Done d' /\ sameDataset d d' /\ dset_fragments d' = dset_fragments d /\ sizes_fit sp d' /\
  grown d d' f /\ dset_status d' = dset_status d /\ container_status d' = container_status d.
Proof.
  intros Hfit [[_ L1 L2 _] H64 _ _ _ _] Hf. pose proof Hfit as (Hw & Hd & Ha). unfold esdmI_dataset_update_actual_size, grown.
  destruct (actual_size d) as [sizes |] eqn:E.
  2: { exists d. rewrite E. split; [done |]. split; [by repeat split |]. split; [done |]. split; [exact Hfit | done]. }
  pose proof (Ha sizes eq_refl) as Hl. pose proof (wf_size _ Hw) as Hs. pose proof (wf_dims _ Hw).
  destruct (updateSizes_ok (size (dset_space d)) (dataspace f) (Z.to_nat (dims (dset_space d))) 0 sizes H64) as (sizes' & -> & Hl' & _ & Hval); [lia | lia | lia | lia |].
  run. eexists. split; [done |]. split; [done |]. split; [done |]. cbn [actual_size dset_space]. split; [| split; [| done]].
  - split; [done |]. split; [done |]. intros l [= <-]. cbn [dset_space]. lia.
  - split; [done |]. intros j s r a Es Er Ea. unfold extends in Er. apply lookup_zip_with_Some in Er as (o & k & -> & Eo & Ek).
    rewrite (Hval j s k o a) by (done || lia). cbn [rend]. do 2 f_equal. lia.
Qed.

Lemma fragments_inv_mono (n : nat) (t : T) (objs objs' : gmap nat esdm_fragment_t) : fragments_inv n t objs -> objs ⊆ objs' -> fragments_inv n t objs'.
Proof.
  intros [Ht Ho] Hsub. constructor; [done |]. intros key v Hin. destruct (Ho key v Hin) as (f & Ef & ?). exists f. split; [by eapply lookup_weaken | done].
Qed.

Lemma fragments_inv_replace (n : nat) (t : T) (objs : gmap nat esdm_fragment_t) (v : nat) (f g : esdm_fragment_t) :
  fragments_inv n t objs -> objs !! v = Some f -> dataspace g = dataspace f -> fragments_inv n t (<[v := g]> objs).
Proof.
  intros [Ht Ho] Ef Eg. constructor; [done |]. intros key u Hin. destruct (Ho key u Hin) as (x & Ex & Hx & Hkey). destruct (decide (u = v)) as [-> | Hne].
  - rewrite Ef in Ex. injection Ex as <-. exists g. rewrite lookup_insert_eq, Eg. split; [done |]. split; [| done]. destruct Hx. constructor; by rewrite Eg.
  - exists x. by rewrite lookup_insert_ne.
Qed.

(** The sizes are those of the dataspace, in unlimited dimensions the largest end of a fragment. *)
Definition sizes_exact (d : esdm_dataset_t T) : Prop :=
  match actual_size d with
  | None => Forall (fun s => s <> 0) (size (dset_space d))
  | Some sizes => length sizes = length (size (dset_space d)) /\
      forall j s a, size (dset_space d) !! j = Some s -> sizes !! j = Some a ->
      if s =? 0 then
        (forall e r, e ∈ g_hash_table_entries (dset_fragments d) -> e.1 !! j = Some r -> rend r <= a) /\
        (a = 0 \/ exists e r, e ∈ g_hash_table_entries (dset_fragments d) /\ e.1 !! j = Some r /\ rend r = a)
      else a = s
  end.

Lemma sizes_exact_grow (d d' : esdm_dataset_t T) (f : esdm_fragment_t) (v : nat) :
  sizes_exact d -> grown d d' f -> dset_space d' = dset_space d -> length (extends (dataspace f)) = length (size (dset_space d)) ->
  g_hash_table_entries (dset_fragments d') ≡ₚ (extends (dataspace f), v) :: g_hash_table_entries (dset_fragments d) -> sizes_exact d'.
Proof.
  unfold sizes_exact, grown. intros Hex Hg Es Hlen Hp. destruct (actual_size d) as [sizes |], (actual_size d') as [sizes' |]; try done; rewrite Es; [| done].
  destruct Hex as [Hl Hex], Hg as [Hl' Hg]. split; [lia |]. intros j s a' Ej Ea'.
  destruct (lookup_lt_is_Some_2 sizes j) as [a Ea]; [apply lookup_lt_Some in Ej; lia |].
  destruct (lookup_lt_is_Some_2 (extends (dataspace f)) j) as [r Er]; [apply lookup_lt_Some in Ej; lia |].
  specialize (Hex j s a Ej Ea). rewrite (Hg j s r a Ej Er Ea) in Ea'. injection Ea' as <-. unfold grownSize. destruct (s =? 0); [| done].
  destruct Hex as [Hup Hat]. split.
  - intros e r' He Er'. rewrite Hp in He. apply elem_of_cons in He as [-> | He]; [cbn in Er'; rewrite Er in Er'; injection Er' as <-; lia |].
    specialize (Hup e r' He Er'). lia.
  - destruct (Z.max_spec a (rend r)) as [[_ ->] | [_ ->]].
    + right. exists (extends (dataspace f), v), r. rewrite Hp. split; [by left | done].
    + destruct Hat as [-> | (e & r' & He & ? & ?)]; [by left |]. right. exists e, r'. rewrite Hp. split; [by right | done].
Qed.

End Sizes.
