(* ===== verification/Metadata.v ===== *)
(** The metadata of fragments and of the fragment table (src/esdm-datatypes.c, src/fragments.c): their
    text, and the fragments that are recreated from it.

    The model is that of data backends without a [fragment_metadata_create()] and
    [fragment_metadata_load()] callback, such as the POSIX backend. *)

From Stdlib Require Import Ascii.
From stdpp Require Import gmap strings pretty.
From S2P Require Import Prelude Memory Hypercube Json JsonText Odometer Dataspace Convert CopyData Grid GridTree Fragment FragmentState Posix Fragments Dataset.

Open Scope Z_scope.

(** * Operations *)

(** [ea_is_valid_dataset_name()]: words of letters, digits and [_-%] separated by single slashes; [last]
    is the previous character. *)
Fixpoint validName_loop (last : option Ascii.ascii) (str : string) : bool :=
  match str with
  | EmptyString => negb (bool_decide (last = Some "/"%char))
  | String c str' =>
      let n := Ascii.nat_of_ascii c in
      if ((97 <=? n) && (n <=? 122) || (65 <=? n) && (n <=? 90) || (48 <=? n) && (n <=? 57))%nat
         || bool_decide (c ∈ ["_"; "-"; "%"]%char) then validName_loop (Some c) str'
      else if bool_decide (c = "/"%char) then
        if bool_decide (last = None) || bool_decide (last = Some "/"%char) then false else validName_loop (Some c) str'
      else false
  end.

Definition ea_is_valid_dataset_name (str : string) : bool :=
  match str with
  | EmptyString => false
  | _ => validName_loop None str
  end.

Section Operations.

(** [backendIds] are the ids of the configured data backends. *)
Context {T : Type} `{GHashTable T} (backendIds : list string).

(** The index of the first backend with the id. *)
Fixpoint getBackend_loop (ids : list string) (x : nat) (plugin_id : string) : option nat :=
  match ids with
  | [] => None
  | i :: ids' => if bool_decide (i = plugin_id) then Some x else getBackend_loop ids' (S x) plugin_id
  end.

(** An unknown id is reported with [ESDM_ERROR_FMT()], which ends the process. *)
Definition esdmI_get_backend (plugin_id : string) : outcome nat :=
  match getBackend_loop backendIds 0 plugin_id with
  | Some b => mret b
  | None => Abort
  end.

(** [actual_bytes] is printed with ["%ld"]. *)
Definition esdm_fragment_metadata_create (f : esdm_fragment_t) : outcome string :=
  b ← deref (backend f);
  pid ← deref (backendIds !! b);
  eassert (bool_decide (is_Some (Fragment.id f)));;
  i ← deref (Fragment.id f);
  space ← esdm_dataspace_serialize (dataspace f);
  mret ("{" ++ quoted "id" ++ ":" ++ quoted i ++ "," ++ quoted "pid" ++ ":" ++ quoted pid ++ "," ++
        quoted "act-size" ++ ":" ++ pretty (to_int64 (actual_bytes f)) ++ "," ++ quoted "space" ++ ":" ++ space ++ "}")%string.

(** The text so far and [needComma]. *)
Definition esdmI_fragments_createFragmentMetadata (objs : gmap nat esdm_fragment_t) (key : esdmI_hypercube_t) (value : nat) (state : string * bool)
    : outcome (string * bool) :=
  let '(stream, needComma) := state in
  f ← deref (objs !! value);
  t ← esdm_fragment_metadata_create f;
  mret ((if needComma : bool then stream ++ "," ++ newline else stream) ++ t, true)%string.

Definition esdmI_fragments_metadata_create (me : T) (objs : gmap nat esdm_fragment_t) : outcome string :=
  '(stream, _) ← g_hash_table_foreach (esdmI_fragments_createFragmentMetadata objs) me ("["%string, false);
  mret (stream ++ "]")%string.

(** A value of a string, [NULL] for other values. *)
Definition json_string_value (j : json) : option string := match j with JString s => Some s | _ => None end.

(** The object for a new fragment gets a fresh handle. *)
Definition esdmI_create_fragment_from_metadata (dset : esdm_dataset_t T) (objs : gmap nat esdm_fragment_t) (json : option json)
    : outcome (esdm_status * option nat * gmap nat esdm_fragment_t) :=
  let fail := mret (ESDM_INVALID_DATA_ERROR, None, objs) in
  match json with
  | None => fail
  | Some json =>
      if negb (json_is_object json) then fail
      else
        let spaceJson := jansson_object_get json "space" in
        match jansson_object_get json "pid" ≫= json_string_value, jansson_object_get json "id" ≫= json_string_value, jansson_object_get json "act-size" with
        | Some pid, Some i, Some (JInteger actualSize) =>
            match (j ← spaceJson; (esdmI_dataspace_createFromJson j (dset_space dset)).2) with
            | None => fail
            | Some space =>
                existing ← esdmI_dataset_lookupFragmentForShape dset space;
                match existing with
                | Some v => mret (ESDM_SUCCESS, Some v, objs)
                | None =>
                    elements ← esdm_dataspace_element_count space;
                    bytes ← esdm_dataspace_total_bytes space;
                    b ← esdmI_get_backend pid;
                    let v := fresh (dom objs) in
                    let f := Fragment (Some i) (dset_id dset) space (Some b) None elements (u64 bytes) (u64 actualSize) ESDM_DATA_NOT_LOADED false in
                    mret (ESDM_SUCCESS, Some v, <[v := f]> objs)
                end
            end
        | _, _, _ => fail
        end
  end.

(** One fragment of the array of [esdm_dataset_open_md_parse()]; a status is an early return.  Fragments
    that cannot be recreated are left out. *)
Definition parse_fragment {B : Type} (dset : esdm_dataset_t T) (s : store B) (fjson : json) : outcome (option esdm_status * esdm_dataset_t T * store B) :=
  '(status, frag, objs) ← esdmI_create_fragment_from_metadata dset (objects s) (Some fjson);
  let s := Store objs (memory s) (disk s) in
  if decide (status <> ESDM_SUCCESS) then mret (None, dset, s)
  else
    v ← deref frag;
    f ← deref (objs !! v);
    '(status, t) ← esdmI_fragments_add (dset_fragments dset) objs v;
    if decide (status = ESDM_INVALID_STATE_ERROR) then
      '(_, h) ← esdm_fragment_destroy f (memory s);
      mret (None, dset, Store (delete v objs) h (disk s))
    else if decide (status = ESDM_SUCCESS) then
      dset ← esdmI_dataset_update_actual_size
               (Dataset (dset_id dset) (dset_space dset) (fill_value dset) (actual_size dset) t (dset_grids dset) (dset_status dset) (container_status dset)) f;
      mret (None, dset, s)
    else mret (Some status, dset, s).

Fixpoint parse_fragments {B : Type} (dset : esdm_dataset_t T) (s : store B) (l : list json) : outcome (option esdm_status * esdm_dataset_t T * store B) :=
  match l with
  | [] => mret (None, dset, s)
  | fjson :: l' =>
      '(early, dset, s) ← parse_fragment dset s fjson;
      match early with
      | Some status => mret (Some status, dset, s)
      | None => parse_fragments dset s l'
      end
  end.

End Operations.

(** * Documents *)

(** The dataspace that is recreated from its metadata. *)
Definition reloadedSpace (space : esdm_dataspace_t) : esdm_dataspace_t :=
  Dataspace (type space) (dims space) (size space) (offset space) false (stride space).

(** The fragment that is recreated from the metadata of [f] in the dataset with the given id. *)
Definition reloaded (datasetId : string) (f : esdm_fragment_t) : esdm_fragment_t :=
  Fragment (Fragment.id f) datasetId (reloadedSpace (dataspace f)) (backend f) None (prod (size (dataspace f)))
    (prod (size (dataspace f)) * esdm_sizeof (type (dataspace f))) (actual_bytes f) ESDM_DATA_NOT_LOADED false.

Lemma to_int64_range (z : Z) : INT64_MIN <= to_int64 z <= INT64_MAX.
Proof.
  unfold to_int64. pose proof (Z.mod_pos_bound z (2 ^ 64)) as H. fold (u64 z) in H.
  destruct (Z.leb_spec (u64 z) INT64_MAX); unfold INT64_MIN, INT64_MAX in *; lia.
Qed.

Lemma u64_to_int64 (z : Z) : 0 <= z < 2 ^ 64 -> u64 (to_int64 z) = z.
Proof.
  intros Hz. assert (Hu : u64 z = z) by (by apply Z.mod_small). unfold to_int64. rewrite Hu.
  destruct (Z.leb_spec z INT64_MAX); [done |]. unfold u64. replace (z - 2 ^ 64) with (z + (-1) * 2 ^ 64) by lia.
  rewrite Z.mod_add by lia. done.
Qed.

Lemma space_json_ok (space : esdm_dataspace_t) :
  space_int64 space -> (forall s, stride space = Some s -> Forall (fun z => INT64_MIN <= z <= INT64_MAX) s) -> json_ok (space_json space).
Proof.
  intros H64 Hst. apply json_ok_object.
  assert (Hint : forall l, Forall (fun z => INT64_MIN <= z <= INT64_MAX) l -> json_ok (int_array l)).
  { intros l Hl. apply json_ok_array, Forall_fmap. eapply Forall_impl; [exact Hl |]. done. }
  apply Forall_app. split.
  - repeat constructor; apply Hint; unfold space_int64 in H64; unfold INT64_MIN, INT64_MAX in *.
    + eapply (Forall2_Forall_r _ _ _ _ H64), Forall_true. intros o s; cbn; lia.
    + eapply (Forall2_Forall_l _ _ _ _ H64), Forall_true. intros o s; cbn; lia.
  - destruct (stride space) as [s |]; repeat constructor. by apply Hint, Hst.
Qed.

Section Fragments.

Context {T : Type} `{GHashTableLaws T} (backendIds : list string).
Hypothesis Hids : NoDup backendIds.

Definition fragment_json (f : esdm_fragment_t) : json :=
  JObject [("id"%string, JString (default ""%string (Fragment.id f)));
           ("pid"%string, JString (default ""%string (backend f ≫= fun b => backendIds !! b)));
           ("act-size"%string, JInteger (to_int64 (actual_bytes f)));
           ("space"%string, space_json (dataspace f))].

(** A fragment of a dataset with the dataspace [sp] whose metadata can be stored. *)
Record storable (sp : esdm_dataspace_t) (f : esdm_fragment_t) : Prop := {
  sb_id : exists i, Fragment.id f = Some i /\ plain i = true;
  sb_backend : exists b pid, backend f = Some b /\ backendIds !! b = Some pid /\ plain pid = true;
  sb_space : data_space (dataspace f);
  sb_stride : forall s, stride (dataspace f) = Some s -> Forall (fun z => INT64_MIN <= z <= INT64_MAX) s;
  sb_type : type (dataspace f) = type sp;
  sb_dims : dims (dataspace f) = dims sp;
  sb_actual : 0 <= actual_bytes f < 2 ^ 64
}.

Lemma fragment_json_ok (sp : esdm_dataspace_t) (f : esdm_fragment_t) : storable sp f -> json_ok (fragment_json f).
Proof.
  intros [(i & Ei & Hi) (b & pid & Eb & Ep & Hp) Hs Hst _ _ _]. apply json_ok_object. unfold fragment_json. rewrite Ei, Eb. cbn [mbind option_bind].
  rewrite Ep, !Forall_cons. cbn [fst snd default]. split; [done |]. split; [done |]. split; [split; [done | apply to_int64_range] |].
  split; [split; [done | apply space_json_ok; [apply Hs | done]] | done].
Qed.

Lemma space_text (space : esdm_dataspace_t) : space_wf space -> esdm_dataspace_serialize space = Done (render (space_json space)).
Proof. intros Hw. by destruct (dataspace_json_ok space space Hw eq_refl eq_refl). Qed.

Lemma fragment_text (sp : esdm_dataspace_t) (f : esdm_fragment_t) :
  storable sp f -> esdm_fragment_metadata_create backendIds f = Done (render (fragment_json f)).
Proof.
  intros [(i & Ei & Hi) (b & pid & Eb & Ep & Hp) Hs Hst _ _ _]. unfold esdm_fragment_metadata_create, fragment_json. rewrite Eb. run. rewrite Ep. run.
  rewrite Ei. rewrite eassert_true by (apply bool_decide_eq_true; eauto). run. rewrite space_text by apply Hs. run.
  cbn [mbind option_bind]. rewrite Ep. cbn [render map commas fst snd default]. f_equal. by rewrite ?string_app_assoc.
Qed.

Lemma getBackend_ok (b : nat) (pid : string) : backendIds !! b = Some pid -> esdmI_get_backend backendIds pid = Done b.
Proof.
  unfold esdmI_get_backend. assert (Hgen : forall ids x b, NoDup ids -> ids !! b = Some pid -> getBackend_loop ids x pid = Some (x + b)%nat).
  { induction ids as [| i ids IH]; intros x k Hnd Ek; [done |]. apply NoDup_cons in Hnd as [Hni Hnd]. cbn [getBackend_loop]. destruct k as [| k].
    - injection Ek as ->. rewrite bool_decide_eq_true_2 by done. f_equal. lia.
    - rewrite bool_decide_eq_false_2 by (intros ->; apply Hni; by eapply list_elem_of_lookup_2). rewrite (IH (S x) k Hnd Ek). f_equal. lia. }
  intros E. by rewrite (Hgen backendIds 0%nat b Hids E).
Qed.

Lemma element_count_ok (space : esdm_dataspace_t) : data_space space -> esdm_dataspace_element_count space = Done (prod (size space)).
Proof.
  intros [Hw _ Hp _ Ht Hb _]. unfold esdm_dataspace_element_count. rewrite memdup_ok by apply Hw. run. unfold INT64_MAX in Hb. pose proof (prod_pos _ Hp).
  rewrite element_count_loop by (done || nia). f_equal. lia.
Qed.

Lemma reloadedSpace_ok (space : esdm_dataspace_t) : data_space space -> data_space (reloadedSpace space).
Proof. intros [[W1 W2 W3 W4] ? ? ? ? ? [? ? ? ? ?]]. by constructor. Qed.

Lemma total_bytes_prod (space : esdm_dataspace_t) :
  data_space space -> esdm_dataspace_total_bytes space = Done (prod (size space) * esdm_sizeof (type space)) /\
  u64 (prod (size space) * esdm_sizeof (type space)) = prod (size space) * esdm_sizeof (type space).
Proof.
  intros [Hw _ Hp _ Ht Hb _]. rewrite total_bytes_ok, volume_extends by done. split; [done |]. pose proof (prod_pos _ Hp).
  apply Z.mod_small. unfold INT64_MAX in Hb. nia.
Qed.

(** A fragment is found by its shape or recreated. *)
Lemma create_fragment_ok (n : nat) (d : esdm_dataset_t T) (objs : gmap nat esdm_fragment_t) (f : esdm_fragment_t) :
  storable (dset_space d) f -> fragments_inv n (dset_fragments d) objs -> key_ok n (extends (dataspace f)) ->
  exists v objs', esdmI_create_fragment_from_metadata backendIds d objs (Some (fragment_json f)) = Done (ESDM_SUCCESS, Some v, objs') /\
  ((objs' = objs /\ (extends (dataspace f), v) ∈ g_hash_table_entries (dset_fragments d)) \/
   (objs' = <[v := reloaded (dset_id d) f]> objs /\ objs !! v = None /\ extends (dataspace f) ∉ (g_hash_table_entries (dset_fragments d)).*1)).
Proof.
  intros [(i & Ei & Hi) (b & pid & Eb & Ep & Hp) Hs Hst Ht Hd Ha] Hinv Hk. unfold esdmI_create_fragment_from_metadata, fragment_json.
  rewrite Ei, Eb. cbn [mbind option_bind default]. rewrite Ep. cbn [default json_is_object negb]. unfold Datatypes.id.
  match goal with |- context [jansson_object_get ?j "pid"] => set (doc := j) end.
  assert (jansson_object_get doc "pid" = Some (JString pid)) as -> by done. assert (jansson_object_get doc "id" = Some (JString i)) as -> by done.
  assert (jansson_object_get doc "act-size" = Some (JInteger (to_int64 (actual_bytes f)))) as -> by done.
  assert (jansson_object_get doc "space" = Some (space_json (dataspace f))) as -> by done.
  destruct (dataspace_json_ok (dataspace f) (dset_space d)) as [_ Ej]; [apply Hs | done | done |]. cbn [mbind option_bind json_string_value]. rewrite Ej. cbn [snd].
  fold (reloadedSpace (dataspace f)). pose proof (reloadedSpace_ok _ Hs) as Hs'.
  unfold esdmI_dataset_lookupFragmentForShape. rewrite getExtends_ok by apply Hs'. run.
  change (extends (reloadedSpace (dataspace f))) with (extends (dataspace f)).
  destruct (lookupForShape_ok n (dset_fragments d) objs (extends (dataspace f)) Hinv Hk) as (r & -> & Hr). run. destruct r as [v |].
  - destruct Hr as (g & _ & _ & Hin). exists v, objs. split; [done |]. by left.
  - rewrite element_count_ok by done. run. destruct (total_bytes_prod _ Hs') as [-> Hu]. run. rewrite Hu.
    rewrite (getBackend_ok b pid Ep). run. eexists _, _. split; [done |]. right. split; [| split; [apply not_elem_of_dom, is_fresh | done]].
    unfold reloaded. by rewrite Ei, Eb, u64_to_int64.
Qed.

(** ** The table *)

Abbreviation linebreak := ("," ++ newline)%string.

(** The fragments [fs] are those of the entries. *)
Definition entryFragments (objs : gmap nat esdm_fragment_t) (entries : list (esdmI_hypercube_t * nat)) (fs : list esdm_fragment_t) : Prop :=
  Forall2 (fun e f => objs !! e.2 = Some f) entries fs.

Lemma fragments_loop_text (sp : esdm_dataspace_t) (objs : gmap nat esdm_fragment_t) (entries : list (esdmI_hypercube_t * nat)) (fs : list esdm_fragment_t)
    (acc : string) :
  entryFragments objs entries fs -> Forall (storable sp) fs ->
  foldM (fun e s => esdmI_fragments_createFragmentMetadata backendIds objs e.1 e.2 s) entries (acc, true) =
  Done (acc ++ continued linebreak (render ∘ fragment_json <$> fs), true)%string.
Proof.
  intros Hfs. revert acc. induction Hfs as [| e f entries fs Ef Hfs IH]; intros acc Hs; cbn [foldM].
  - cbn. by rewrite string_app_nil_r.
  - apply Forall_cons in Hs as [Hf Hs]. cbn [esdmI_fragments_createFragmentMetadata]. rewrite Ef. run. rewrite (fragment_text sp f Hf). run. rewrite IH by done.
    do 2 f_equal. rewrite fmap_cons. cbn [continued foldr compose]. by rewrite !string_app_assoc.
Qed.

(** The text of the table is one of the array of the documents of its fragments. *)
Lemma fragments_text (sp : esdm_dataspace_t) (t : T) (objs : gmap nat esdm_fragment_t) (fs : list esdm_fragment_t) :
  entryFragments objs (g_hash_table_entries t) fs -> Forall (storable sp) fs ->
  exists s, esdmI_fragments_metadata_create backendIds t objs = Done s /\ text_of (JArray (fragment_json <$> fs)) s.
Proof.
  intros Hfs Hs. unfold esdmI_fragments_metadata_create, g_hash_table_foreach.
  assert (Htext : Forall2 text_of (fragment_json <$> fs) (render ∘ fragment_json <$> fs)).
  { apply Forall2_fmap, Forall_Forall2_diag. eapply Forall_impl; [exact Hs |]. intros f Hf. by eapply text_of_render, fragment_json_ok. }
  destruct Hfs as [| e f entries fs Ef Hfs]; cbn [foldM].
  - run. eexists. split; [done |]. apply (text_of_array [] [] linebreak); [by right | done].
  - apply Forall_cons in Hs as [Hf Hs]. cbn [esdmI_fragments_createFragmentMetadata]. rewrite Ef. run. rewrite (fragment_text sp f Hf). run.
    rewrite (fragments_loop_text sp objs entries fs) by done. run. eexists. split; [done |].
    rewrite !string_app_assoc. rewrite <- (string_app_assoc _ _ "]"). rewrite <- join_continued. apply (text_of_array _ _ linebreak); [by right | exact Htext].
Qed.

(** ** Recreating the table *)

Lemma length_extends_dims (space sp : esdm_dataspace_t) : data_space space -> space_wf sp -> dims space = dims sp -> length (extends space) = length (size sp).
Proof. intros [[? ? ? ?] ? ? ? ? ?] [? ? ? ?] Hd. unfold extends. rewrite length_zip_with. lia. Qed.

(** A dataset while its table is filled. *)
Record filling (n : nat) (d : esdm_dataset_t T) (objs : gmap nat esdm_fragment_t) : Prop := {
  fl_table : fragments_inv n (dset_fragments d) objs;
  fl_sizes : sizes_fit (dset_space d) d;
  fl_exact : sizes_exact d
}.

Lemma parse_fragment_ok {B : Type} (n : nat) (d : esdm_dataset_t T) (s : store B) (f : esdm_fragment_t) :
  filling n d (objects s) -> storable (dset_space d) f -> key_ok n (extends (dataspace f)) ->
  extends (dataspace f) ∉ (g_hash_table_entries (dset_fragments d)).*1 ->
  exists v d', parse_fragment backendIds d s (fragment_json f) = Done (None, d', Store (<[v := reloaded (dset_id d) f]> (objects s)) (memory s) (disk s)) /\
  objects s !! v = None /\ filling n d' (<[v := reloaded (dset_id d) f]> (objects s)) /\ sameDataset d d' /\
  dset_status d' = dset_status d /\ container_status d' = container_status d /\
  g_hash_table_entries (dset_fragments d') ≡ₚ (extends (dataspace f), v) :: g_hash_table_entries (dset_fragments d).
Proof.
  intros [Hinv Hfit Hex] Hs Hk Hnew. unfold parse_fragment.
  destruct (create_fragment_ok n d (objects s) f Hs Hinv Hk) as (v & objs' & -> & Hcase). run.
  destruct Hcase as [[_ Hin] | (-> & Hv & _)]; [destruct Hnew; apply list_elem_of_fmap; by eexists (_, v) |].
  rewrite decide_False by (intros []; done). run. rewrite lookup_insert_eq. run. pose proof (reloadedSpace_ok _ (sb_space _ _ Hs)) as Hsp.
  assert (Hsub : objects s ⊆ <[v := reloaded (dset_id d) f]> (objects s)) by (by apply insert_subseteq).
  destruct (fragments_add_ok n (dset_fragments d) (<[v := reloaded (dset_id d) f]> (objects s)) v (reloaded (dset_id d) f)) as (st & t & -> & Hinv' & Hst).
  { by eapply fragments_inv_mono. }
  { apply lookup_insert_eq. }
  { constructor; [apply Hsp | apply Hsp | exact Hk]. }
  { intros ([key u] & Eu & Hin)%list_elem_of_fmap. cbn [snd] in Eu. subst u. destruct (fs_objects _ _ _ Hinv key v Hin) as (g & Eg & _). congruence. }
  run. destruct Hst as [(-> & _ & Hp) | (_ & Hin & _)]; [| by destruct Hnew]. rewrite decide_False, decide_True by done.
  set (d1 := Dataset _ _ _ _ t _ _ _).
  destruct (update_actual_size_ok (dset_space d) d1 (reloaded (dset_id d) f)) as (d' & -> & Hsame & Et & Hfit' & Hg & E1 & E2);
    [exact Hfit | exact Hsp | apply (sb_dims _ _ Hs) |].
  run. exists v, d'. split; [done |]. split; [done |]. split; [| split; [exact Hsame |]; split; [done |]; split; [done |]; by rewrite Et].
  constructor; [by rewrite Et | |].
  - destruct Hsame as (_ & -> & _). exact Hfit'.
  - apply (sizes_exact_grow d d' (reloaded (dset_id d) f) v Hex Hg); [by destruct Hsame as (_ & -> & _) | | by rewrite Et].
    apply (length_extends_dims (reloadedSpace (dataspace f))); [done | apply Hfit | apply (sb_dims _ _ Hs)].
Qed.

(** The fragments of a list of documents are recreated, with new handles [vs]. *)
Lemma parse_fragments_ok {B : Type} (n : nat) (fs : list esdm_fragment_t) (d : esdm_dataset_t T) (s : store B) :
  filling n d (objects s) -> Forall (storable (dset_space d)) fs -> Forall (fun f => key_ok n (extends (dataspace f))) fs ->
  NoDup (((fun f => extends (dataspace f)) <$> fs) ++ (g_hash_table_entries (dset_fragments d)).*1) ->
  exists vs d' objs', parse_fragments backendIds d s (fragment_json <$> fs) = Done (None, d', Store objs' (memory s) (disk s)) /\
  filling n d' objs' /\ sameDataset d d' /\ dset_status d' = dset_status d /\ container_status d' = container_status d /\
  objects s ⊆ objs' /\ (forall v g, objs' !! v = Some g -> objects s !! v = None -> v ∈ vs) /\
  Forall2 (fun v f => objects s !! v = None /\ objs' !! v = Some (reloaded (dset_id d) f)) vs fs /\ NoDup vs /\
  g_hash_table_entries (dset_fragments d') ≡ₚ zip ((fun f => extends (dataspace f)) <$> fs) vs ++ g_hash_table_entries (dset_fragments d).
Proof.
  revert d s. induction fs as [| f fs IH]; intros d s Hfl Hs Hk Hnd.
  { exists [], d, (objects s). split; [by destruct s |]. split; [done |]. split; [by repeat split |]. split; [done |]. split; [done |]. split; [done |].
    split; [congruence |]. split; [constructor |]. split; [constructor | done]. }
  rewrite fmap_cons in *. cbn [app] in Hnd. apply NoDup_cons in Hnd as [Hni Hnd]. apply Forall_cons in Hs as [Hf Hs], Hk as [Hkf Hk].
  cbn [parse_fragments]. destruct (parse_fragment_ok n d s f Hfl Hf Hkf) as (v & d1 & -> & Hv & Hfl1 & Hsame & E1 & E2 & Hp); [set_solver |]. run.
  pose proof Hsame as (I1 & I2 & I3 & I4).
  destruct (IH d1 (Store (<[v := reloaded (dset_id d) f]> (objects s)) (memory s) (disk s)))
    as (vs & d' & objs' & -> & Hfl' & Hsame' & E1' & E2' & Hsub & Hnew & Hvs & Hndv & Hp').
  { exact Hfl1. }
  { by rewrite I2. }
  { done. }
  { rewrite Hp. cbn [fmap list_fmap fst]. rewrite <- Permutation_middle. constructor; [| done]. set_solver. }
  cbn [objects memory disk] in *. pose proof Hsame' as (J1 & J2 & J3 & J4).
  assert (Hsub0 : objects s ⊆ objs') by (etransitivity; [by apply insert_subseteq | exact Hsub]).
  exists (v :: vs), d', objs'. split; [done |]. split; [done |]. split; [by repeat split; congruence |]. split; [congruence |]. split; [congruence |]. split; [done |].
  split; [| split; [| split]].
  - intros u g Eu Hu. destruct (decide (u = v)) as [-> | Hne]; [by left |]. right. apply (Hnew u g); [done |]. by rewrite lookup_insert_ne.
  - constructor.
    + split; [done |]. eapply lookup_weaken; [| exact Hsub]. apply lookup_insert_eq.
    + eapply Forall2_impl; [exact Hvs |]. intros u g [Hu Eu]. rewrite I1 in Eu. split; [| done]. by apply lookup_insert_None in Hu as [? _].
  - constructor; [| done]. intros Hin. apply list_elem_of_lookup in Hin as [k Ek]. destruct (Forall2_lookup_l _ _ _ _ _ Hvs Ek) as (g & _ & Hu & _).
    by rewrite lookup_insert_eq in Hu.
  - rewrite Hp', Hp. cbn [zip_with]. symmetry. apply Permutation_middle.
Qed.

End Fragments.
