(* ===== verification/Config.v ===== *)
(** The configuration (src/esdm-config.c) and the table of modules (src/esdm-modules.c,
    src/backends-data/init.c): the configuration file describes the metadata backend and the data backends, whose number, ids and
    limits the other components rely on. *)

From Stdlib Require Import Ascii.
From stdpp Require Import strings.
From S2P Require Import Prelude Memory Dataspace Json JsonText Metadata Split.

Open Scope Z_scope.

(** * Data *)

Inductive data_accessibility_t := ESDM_ACCESSIBILITY_GLOBAL | ESDM_ACCESSIBILITY_NODELOCAL.

#[global] Instance data_accessibility_eq_dec : EqDecision data_accessibility_t.
Proof. solve_decision. Defined.

Inductive bound_list_implementation := BOUND_LIST_IMPLEMENTATION_ARRAY | BOUND_LIST_IMPLEMENTATION_BTREE.

(** [esdm_config_t]. *)
Record esdm_config_t := Config { config_json : json; boundListImplementation : bound_list_implementation }.

(** [esdm_config_backend_t] of a data backend; a string that is missing is a null pointer. *)
Record esdm_config_backend_t := ConfigBackend {
  cb_type : option string;
  cb_id : option string;
  cb_target : option string;
  max_threads_per_node : Z;
  max_global_threads : Z;
  max_fragment_size : Z;
  fragmentation_method : fragmentation_method_t;
  data_accessibility : data_accessibility_t;
  write_stream_blocksize : Z;
  performance_model : option json;
  cb_backend : json
}.

(** [esdm_config_backend_t] of the metadata backend. *)
Record metadata_config := MetadataConfig {
  md_type : option string;
  md_id : string;
  md_target : string;
  md_accessibility : data_accessibility_t
}.

(** The conversions of a 64-bit integer to narrower and unsigned types. *)
Definition as_int32 (z : Z) : Z := (z + 2 ^ 31) mod 2 ^ 32 - 2 ^ 31.
Definition as_uint32 (z : Z) : Z := z mod 2 ^ 32.
Definition as_uint64 (z : Z) : Z := z mod 2 ^ 64.

(** * Strings *)

Definition lower (c : ascii) : ascii :=
  let n := nat_of_ascii c in if (65 <=? n)%nat && (n <=? 90)%nat then ascii_of_nat (n + 32) else c.

Fixpoint lowercase (s : string) : string :=
  match s with EmptyString => EmptyString | String c s' => String (lower c) (lowercase s') end.

(** [strcasecmp(a, b) == 0], [strncmp(a, b, n) == 0] and [strncasecmp(a, b, n) == 0]. *)
Definition strcasecmp_eq (a b : string) : bool := bool_decide (lowercase a = lowercase b).
Definition strncmp_eq (n : nat) (a b : string) : bool := bool_decide (String.substring 0 n a = String.substring 0 n b).
Definition strncasecmp_eq (n : nat) (a b : string) : bool := strncmp_eq n (lowercase a) (lowercase b).

(** * src/esdm-config.c *)

(** A member that must exist; without it the process exits. *)
Definition required (j : json) (key : string) : outcome json :=
  match jansson_object_get j key with Some e => mret e | None => Abort end.

Definition esdm_config_init_from_str `{Jansson} (config_str : string) : outcome esdm_config_t :=
  match load_json config_str with
  | None => Abort
  | Some json =>
      esdm_e ← required json "esdm";
      selected ← match jansson_object_get esdm_e "bound list implementation" with
                 | None => mret BOUND_LIST_IMPLEMENTATION_BTREE
                 | Some e =>
                     match json_string_value e with
                     | None => Abort
                     | Some selection =>
                         if decide (selection = "array"%string) then mret BOUND_LIST_IMPLEMENTATION_ARRAY
                         else if decide (selection = "btree"%string) then mret BOUND_LIST_IMPLEMENTATION_BTREE
                         else Abort
                     end
                 end;
      mret (Config json selected)
  end.

(** The comparison with a null pointer is undefined. *)
Definition parse_accessibility (j : json) : outcome data_accessibility_t :=
  match jansson_object_get j "accessibility" with
  | None => mret ESDM_ACCESSIBILITY_GLOBAL
  | Some e =>
      str ← deref (json_string_value e);
      if strcasecmp_eq str "global" then mret ESDM_ACCESSIBILITY_GLOBAL
      else if strcasecmp_eq str "local" then mret ESDM_ACCESSIBILITY_NODELOCAL
      else Abort
  end.

Definition esdm_config_get_metadata_coordinator (config : esdm_config_t) : outcome metadata_config :=
  esdm_e ← required (config_json config) "esdm";
  md_e ← required esdm_e "metadata";
  type_e ← required md_e "type";
  id_e ← required md_e "id";
  id ← match json_string_value id_e with Some id => mret id | None => Abort end;
  target_e ← required md_e "target";
  target ← match json_string_value target_e with Some target => mret target | None => Abort end;
  access ← parse_accessibility md_e;
  mret (MetadataConfig (json_string_value type_e) id target access).

(** The comparison with the ids of the backends before. *)
Definition compare_id (i : option string) (b : esdm_config_backend_t) : outcome unit :=
  a ← deref i; a' ← deref (cb_id b); if decide (a = a') then Abort else mret tt.

Definition check_id (i : option string) (earlier : list esdm_config_backend_t) : outcome unit := foldM (fun b _ => compare_id i b) earlier tt.

Definition parse_integer (j : json) (key : string) (default : Z) : Z :=
  match jansson_object_get j key with None => default | Some e => json_integer_value e end.

Definition parse_method (j : json) : outcome fragmentation_method_t :=
  match jansson_object_get j "fragmentation-method" with
  | Some (JString s) =>
      if decide (s = "contiguous"%string) then mret ESDMI_FRAGMENTATION_METHOD_CONTIGUOUS
      else if decide (s = "equalized"%string) then mret ESDMI_FRAGMENTATION_METHOD_EQUALIZED
      else Abort
  | _ => mret ESDMI_FRAGMENTATION_METHOD_CONTIGUOUS
  end.

Definition parse_backend (earlier : list esdm_config_backend_t) (backend : json) : outcome esdm_config_backend_t :=
  type_e ← required backend "type";
  id_e ← required backend "id";
  _ ← check_id (json_string_value id_e) earlier;
  target_e ← required backend "target";
  let performance_model := jansson_object_get backend "performance-model" in
  let max_threads_per_node := as_int32 (parse_integer backend "max-threads-per-node" 0) in
  let write_stream_blocksize := as_uint32 (parse_integer backend "write-stream-blocksize" 0) in
  let max_global_threads := as_int32 (parse_integer backend "max-global-threads" 0) in
  access ← parse_accessibility backend;
  let max_fragment_size := as_uint64 (parse_integer backend "max-fragment-size" (10 * 1024 * 1024)) in
  method ← parse_method backend;
  mret (ConfigBackend (json_string_value type_e) (json_string_value id_e) (json_string_value target_e) max_threads_per_node max_global_threads max_fragment_size
    method access write_stream_blocksize performance_model backend).

(** The loop over the array. *)
Definition parse_backends (l : list json) : outcome (list esdm_config_backend_t) :=
  foldM (fun j backends => b ← parse_backend backends j; mret (backends ++ [b])%list) l [].

(** [None] is the structure that is returned without being initialised when the element is not an array. *)
Definition esdm_config_get_backends (config : esdm_config_t) : outcome (option (list esdm_config_backend_t)) :=
  esdm_e ← required (config_json config) "esdm";
  elem ← required esdm_e "backends";
  if json_is_array elem then bs ← parse_backends (json_elements elem); mret (Some bs) else mret None.

(** * src/backends-data/init.c and src/esdm-modules.c *)

(** The backends that can be compiled in. *)
Inductive backend_kind := DUMMY | POSIX | IME | KDSA | MOTR | WOS | PMEM | S3.

#[global] Instance backend_kind_eq_dec : EqDecision backend_kind.
Proof. solve_decision. Defined.

Record esdm_modules_t := Modules {
  metadata_backend : metadata_config;
  data_backends : list (backend_kind * esdm_config_backend_t)
}.

Section Modules.

(** The backends of the build, and whether their functions accept a configuration. *)
Context (has : backend_kind -> bool) (backend_init : backend_kind -> esdm_config_backend_t -> outcome bool).

(** The tests of [esdmI_init_backend()] in their order. *)
Definition kindTests (type : string) : list (bool * backend_kind) :=
  [(strncmp_eq 5 type "DUMMY", DUMMY); (has POSIX && strncmp_eq 5 type "POSIX", POSIX); (has IME && strncasecmp_eq 3 type "IME", IME);
   (has KDSA && strncasecmp_eq 4 type "KDSA", KDSA); (has MOTR && strncasecmp_eq 6 type "MOTR", MOTR); (has WOS && strncmp_eq 3 type "WOS", WOS);
   (has PMEM && strncmp_eq 4 type "PMEM", PMEM); (has S3 && strncmp_eq 2 type "S3", S3)].

Definition esdmI_init_backend (b : esdm_config_backend_t) : outcome (option backend_kind) :=
  type ← deref (cb_type b);
  match head (filter (fun t => t.1 = true) (kindTests type)) with
  | None => mret None
  | Some (_, kind) => ok ← backend_init kind b; mret (if ok : bool then Some kind else None)
  end.

Definition register_backend (b : esdm_config_backend_t) (l : list (backend_kind * esdm_config_backend_t)) : outcome (list (backend_kind * esdm_config_backend_t)) :=
  backend ← esdmI_init_backend b;
  match backend with
  | None => Abort
  | Some kind => mret (l ++ [(kind, b)])%list
  end.

(** In a build without [ESDM_HAS_MONGODB], which src/backends-metadata/CMakeLists.txt defines only for its own directory, the branch for the
    type "mongodb" is not compiled. *)
Definition esdm_modules_init (config : esdm_config_t) : outcome esdm_modules_t :=
  config_backends ← esdm_config_get_backends config;
  metadata_coordinator ← esdm_config_get_metadata_coordinator config;
  type ← deref (md_type metadata_coordinator);
  if strncmp_eq 9 type "metadummy" then
    backends ← deref config_backends;
    registered ← foldM register_backend backends [];
    mret (Modules metadata_coordinator registered)
  else Abort.

End Modules.

(** [esdm_modules_makeBackendRecommendation()]: all backends, and the smallest fragment size; the comparison
    is unsigned. *)
Definition recommendedFragmentSize (modules : esdm_modules_t) : Z :=
  foldl (fun m b => if max_fragment_size b.2 <? as_uint64 m then max_fragment_size b.2 else m) INT64_MAX (data_backends modules).

Definition esdm_modules_makeBackendRecommendation (modules : esdm_modules_t) : list (backend_kind * esdm_config_backend_t) * Z :=
  (data_backends modules, recommendedFragmentSize modules).

(** * Properties *)

(** The fields have values of their C types. *)
Record backend_typed (b : esdm_config_backend_t) : Prop := {
  bt_threads : - 2 ^ 31 <= max_threads_per_node b < 2 ^ 31;
  bt_global : - 2 ^ 31 <= max_global_threads b < 2 ^ 31;
  bt_size : 0 <= max_fragment_size b < 2 ^ 64;
  bt_stream : 0 <= write_stream_blocksize b < 2 ^ 32
}.

Lemma as_int32_range (z : Z) : - 2 ^ 31 <= as_int32 z < 2 ^ 31.
Proof. unfold as_int32. pose proof (Z.mod_pos_bound (z + 2 ^ 31) (2 ^ 32)). lia. Qed.

Lemma check_id_ok (i : option string) (earlier : list esdm_config_backend_t) (u : unit) :
  check_id i earlier = Done u -> earlier <> [] -> exists a, i = Some a /\ forall b, b ∈ earlier -> exists a', cb_id b = Some a' /\ a <> a'.
Proof.
  unfold check_id. generalize tt. induction earlier as [| b earlier IH]; intros v E Hne; [done |]. cbn [foldM] in E.
  destruct (compare_id i b) as [[] | |] eqn:Eb; try done. cbn [mbind outcome_bind] in E. unfold compare_id in Eb. destruct i as [a |]; [| done]. cbn [deref mbind outcome_bind] in Eb.
  destruct (cb_id b) as [a' |] eqn:Ea'; [| done]. cbn in Eb. destruct (decide (a = a')) as [| Hd]; [done |]. exists a. split; [done |].
  intros b' [-> | Hb']%elem_of_cons; [by exists a' |]. destruct (decide (earlier = [])) as [-> | Hn]; [by apply elem_of_nil in Hb' |].
  destruct (IH tt E Hn) as (a0 & [= <-] & Hall). by apply Hall.
Qed.

Lemma parse_backend_ok (earlier : list esdm_config_backend_t) (j : json) (b : esdm_config_backend_t) :
  parse_backend earlier j = Done b -> backend_typed b /\ cb_backend b = j /\ check_id (cb_id b) earlier = Done tt /\
  cb_type b = (jansson_object_get j "type" ≫= json_string_value) /\ cb_id b = (jansson_object_get j "id" ≫= json_string_value) /\ cb_target b = (jansson_object_get j "target" ≫= json_string_value).
Proof.
  unfold parse_backend, required. destruct (jansson_object_get j "type") as [te |]; [| done]. destruct (jansson_object_get j "id") as [ie |]; [| done]. cbn [mbind outcome_bind mret outcome_ret].
  destruct (check_id _ _) as [[] | |] eqn:Ec; try done. cbn [mbind outcome_bind]. destruct (jansson_object_get j "target") as [ge |]; [| done]. cbn [mbind outcome_bind mret outcome_ret].
  destruct (parse_accessibility j) as [acc | |]; try done. cbn [mbind outcome_bind]. destruct (parse_method j) as [me | |]; try done. cbn [mbind outcome_bind mret outcome_ret].
  intros [= <-]. split; [| done]. constructor; cbn; [apply as_int32_range | apply as_int32_range | apply Z.mod_pos_bound; lia | apply Z.mod_pos_bound; lia].
Qed.

(** One backend per element of the array, all with different ids. *)
Record backends_wf (l : list json) (bs : list esdm_config_backend_t) : Prop := {
  bw_source : cb_backend <$> bs = l;
  bw_typed : Forall backend_typed bs;
  bw_ids : NoDup (cb_id <$> bs);
  bw_named : (1 < length bs)%nat -> Forall (fun b => is_Some (cb_id b)) bs
}.

Lemma parse_backends_from (l done : list json) (bs bs' : list esdm_config_backend_t) :
  backends_wf done bs -> foldM (fun j backends => b ← parse_backend backends j; mret (backends ++ [b])%list) l bs = Done bs' -> backends_wf (done ++ l) bs'.
Proof.
  revert done bs. induction l as [| j l IH]; intros done bs Hwf E; cbn [foldM] in E; [injection E as <-; by rewrite app_nil_r |].
  destruct (parse_backend bs j) as [b | |] eqn:Eb; try done. cbn [mbind outcome_bind mret outcome_ret] in E. rewrite cons_middle, app_assoc. apply (IH _ (bs ++ [b])%list); [| done].
  apply parse_backend_ok in Eb as (Ht & Ej & Hc & _). pose proof (check_id_ok _ _ _ Hc) as Hid. destruct Hwf as [W1 W2 W3 W4]. constructor.
  - by rewrite fmap_app, W1, <- Ej.
  - apply Forall_app. split; [done | by apply Forall_singleton].
  - rewrite fmap_app. apply NoDup_app. split; [done |]. split; [| apply NoDup_singleton]. intros x (b' & -> & Hb')%list_elem_of_fmap Hx%list_elem_of_singleton.
    destruct Hid as (a & Ea & Hall); [by intros -> ; apply elem_of_nil in Hb' |]. destruct (Hall b' Hb') as (a' & Ea' & Hne). congruence.
  - intros Hlen. rewrite length_app in Hlen. cbn in Hlen. destruct Hid as (a & Ea & Hall); [intros ->; cbn in Hlen; lia |]. apply Forall_app. split.
    + apply Forall_forall. intros b' Hb'. destruct (Hall b' Hb') as (a' & -> & _). eauto.
    + apply Forall_singleton. rewrite Ea. eauto.
Qed.

Lemma recommended_ok (mc : metadata_config) (l : list (backend_kind * esdm_config_backend_t)) :
  Forall (fun kb => backend_typed kb.2) l ->
  0 <= recommendedFragmentSize (Modules mc l) <= INT64_MAX /\ Forall (fun kb => recommendedFragmentSize (Modules mc l) <= max_fragment_size kb.2) l.
Proof.
  intros Hl. unfold recommendedFragmentSize. cbn [data_backends]. set (step := fun _ _ => _).
  assert (Hstep : forall m, 0 <= m <= INT64_MAX -> 0 <= foldl step m l <= INT64_MAX /\ foldl step m l <= m /\ Forall (fun kb => foldl step m l <= max_fragment_size kb.2) l).
  { induction Hl as [| kb l [_ _ Hs _] _ IH]; intros m Hm; [done |]. cbn [foldl].
    assert (Em : as_uint64 m = m) by (unfold as_uint64, INT64_MAX in *; apply Z.mod_small; lia).
    assert (Hs' : 0 <= step m kb <= m /\ step m kb <= max_fragment_size kb.2) by (unfold step; rewrite Em; destruct (Z.ltb_spec (max_fragment_size kb.2) m); lia).
    destruct (IH (step m kb)) as (I1 & I2 & I3); [lia |]. split; [done |]. split; [lia |]. constructor; [lia | done]. }
  destruct (Hstep INT64_MAX) as (R1 & _ & R3); [unfold INT64_MAX; lia |]. done.
Qed.

Section Initialised.

Context (has : backend_kind -> bool) (backend_init : backend_kind -> esdm_config_backend_t -> outcome bool).

Lemma register_from (bs : list esdm_config_backend_t) (l l' : list (backend_kind * esdm_config_backend_t)) :
  foldM (register_backend has backend_init) bs l = Done l' ->
  exists new, l' = (l ++ new)%list /\ new.*2 = bs /\ Forall (fun kb => is_Some (cb_type kb.2) /\ (kb.1 = DUMMY \/ has kb.1 = true)) new.
Proof.
  revert l. induction bs as [| b bs IH]; intros l E; cbn [foldM] in E; [injection E as <-; exists []; by rewrite app_nil_r |].
  destruct (register_backend has backend_init b l) as [l1 | |] eqn:E1; try done. cbn [mbind outcome_bind] in E. destruct (IH l1 E) as (new & -> & En & Hnew).
  unfold register_backend, esdmI_init_backend in E1. destruct (cb_type b) as [type |] eqn:Et; [| done]. cbn [deref mbind outcome_bind] in E1.
  destruct (head (filter _ (kindTests has type))) as [[t kind] |] eqn:Eh; [| done].
  assert (Hk : kind = DUMMY \/ has kind = true).
  { apply head_Some_elem_of, list_elem_of_filter in Eh as [E0 Hin]. cbn in E0. subst t. unfold kindTests in Hin.
    repeat (apply elem_of_cons in Hin as [[= Hb ->] | Hin]; [first [by left | right; by symmetry in Hb; apply andb_true_iff in Hb as [? _]] |]). by apply elem_of_nil in Hin. }
  destruct (backend_init kind b) as [[] | |]; try done. cbn in E1. injection E1 as <-. exists ((kind, b) :: new). split; [by rewrite <- app_assoc |]. split; [cbn; by f_equal |].
  constructor; [| done]. cbn. split; [by rewrite Et; eexists | exact Hk].
Qed.

(** C26: The table of modules is well-formed whatever the configuration says: when [esdm_modules_init()] returns, it has one data backend for every element of
    the array in the configuration, in that order, of a type that was compiled in, the ids of the backends are
    pairwise different, the numbers have the ranges of their C types, and the recommended size of
    fragments does not exceed the limit of any backend. *)
Theorem modules_wf (config : esdm_config_t) (modules : esdm_modules_t) :
  esdm_modules_init has backend_init config = Done modules ->
  exists l, (jansson_object_get (config_json config) "esdm" ≫= fun e => jansson_object_get e "backends") = Some (JArray l) /\
  cb_backend <$> (data_backends modules).*2 = l /\ NoDup (cb_id <$> (data_backends modules).*2) /\
  Forall (fun kb => (kb.1 = DUMMY \/ has kb.1 = true) /\ backend_typed kb.2) (data_backends modules) /\
  0 <= recommendedFragmentSize modules <= INT64_MAX /\ Forall (fun kb => recommendedFragmentSize modules <= max_fragment_size kb.2) (data_backends modules).
Proof.
  unfold esdm_modules_init, esdm_config_get_backends, required. destruct (jansson_object_get (config_json config) "esdm") as [e |]; [| done]. cbn [mbind outcome_bind mret outcome_ret option_bind].
  destruct (jansson_object_get e "backends") as [elem |]; [| done]. cbn [mbind outcome_bind mret outcome_ret]. destruct elem as [| | | | l |]; cbn [json_is_array json_elements]; try (by destruct (esdm_config_get_metadata_coordinator config) as [mc | |]; cbn; [destruct (md_type mc); cbn; [destruct (strncmp_eq _ _ _) |] | |]).
  destruct (parse_backends l) as [bs | |] eqn:Ep; try done. cbn [mbind outcome_bind mret outcome_ret].
  destruct (esdm_config_get_metadata_coordinator config) as [mc | |]; try done. cbn [mbind outcome_bind]. destruct (md_type mc) as [type |]; [| done]. cbn [deref mbind outcome_bind].
  destruct (strncmp_eq _ _ _); [| done]. destruct (foldM _ bs []) as [reg | |] eqn:Er; try done. intros [= <-]. cbn [data_backends]. exists l. split; [done |].
  destruct (parse_backends_from l [] [] bs) as [W1 W2 W3 _]; [constructor; try constructor; cbn; lia | exact Ep |]. destruct (register_from bs [] reg Er) as (new & -> & En & Hnew). cbn [app]. rewrite En.
  assert (Hall : Forall (fun kb => (kb.1 = DUMMY \/ has kb.1 = true) /\ backend_typed kb.2) new).
  { rewrite <- En, Forall_fmap in W2. rewrite Forall_forall in *. intros kb Hkb. split; [apply (Hnew kb Hkb) | apply (W2 kb Hkb)]. }
  split; [done |]. split; [done |]. split; [done |]. apply recommended_ok. eapply Forall_impl; [exact Hall |]. by intros kb [_ ?].
Qed.

End Initialised.

(** * Configurations and their texts *)

Section RoundTrip.

Context `{JanssonLaws} (has : backend_kind -> bool) (backend_init : backend_kind -> esdm_config_backend_t -> outcome bool).

Definition accessibility_text (a : data_accessibility_t) : string :=
  match a with ESDM_ACCESSIBILITY_GLOBAL => "global" | ESDM_ACCESSIBILITY_NODELOCAL => "local" end.

Definition method_text (m : fragmentation_method_t) : string :=
  match m with ESDMI_FRAGMENTATION_METHOD_CONTIGUOUS => "contiguous" | ESDMI_FRAGMENTATION_METHOD_EQUALIZED => "equalized" end.

(** The description of a data backend without a performance model. *)
Record description := Description {
  ds_type : string;
  ds_id : string;
  ds_target : string;
  ds_threads : Z;
  ds_global : Z;
  ds_fragment : Z;
  ds_method : fragmentation_method_t;
  ds_access : data_accessibility_t;
  ds_stream : Z
}.

Definition description_json (d : description) : json :=
  JObject [("type", JString (ds_type d)); ("id", JString (ds_id d)); ("target", JString (ds_target d)); ("max-threads-per-node", JInteger (ds_threads d));
    ("max-global-threads", JInteger (ds_global d)); ("write-stream-blocksize", JInteger (ds_stream d)); ("max-fragment-size", JInteger (ds_fragment d));
    ("fragmentation-method", JString (method_text (ds_method d))); ("accessibility", JString (accessibility_text (ds_access d)))]%string.

Definition config_document (b : bound_list_implementation) (mc : metadata_config) (type : string) (ds : list description) : json :=
  JObject [("esdm", JObject [
    ("bound list implementation", JString (match b with BOUND_LIST_IMPLEMENTATION_ARRAY => "array" | BOUND_LIST_IMPLEMENTATION_BTREE => "btree" end));
    ("backends", JArray (description_json <$> ds));
    ("metadata", JObject [("type", JString type); ("id", JString (md_id mc)); ("target", JString (md_target mc)); ("accessibility", JString (accessibility_text (md_accessibility mc)))])])]%string.

Definition described (d : description) : esdm_config_backend_t :=
  ConfigBackend (Some (ds_type d)) (Some (ds_id d)) (Some (ds_target d)) (ds_threads d) (ds_global d) (ds_fragment d) (ds_method d) (ds_access d) (ds_stream d) None (description_json d).

(** Strings that need no escapes and numbers in the range of their types. *)
Record description_ok (d : description) : Prop := {
  do_strings : plain (ds_type d) = true /\ plain (ds_id d) = true /\ plain (ds_target d) = true;
  do_threads : - 2 ^ 31 <= ds_threads d < 2 ^ 31 /\ - 2 ^ 31 <= ds_global d < 2 ^ 31;
  do_fragment : 0 <= ds_fragment d <= INT64_MAX;
  do_stream : 0 <= ds_stream d < 2 ^ 32
}.

Lemma parse_description (earlier : list description) (d : description) :
  description_ok d -> ds_id d ∉ ds_id <$> earlier -> parse_backend (described <$> earlier) (description_json d) = Done (described d).
Proof.
  intros [_ [T1 T2] Hf Hs] Hid. assert (Hc : check_id (Some (ds_id d)) (described <$> earlier) = Done tt).
  { unfold check_id. induction earlier as [| e earlier IH]; [done |]. rewrite fmap_cons in *. cbn [foldM]. apply not_elem_of_cons in Hid as [Hne Hid].
    assert (compare_id (Some (ds_id d)) (described e) = Done tt) as -> by (unfold compare_id; cbn; by rewrite decide_False). by apply IH. }
  assert (parse_accessibility (description_json d) = Done (ds_access d)) as Ha by (by destruct d as [? ? ? ? ? ? ? []]).
  assert (parse_method (description_json d) = Done (ds_method d)) as Hm by (by destruct d as [? ? ? ? ? ? []]).
  unfold parse_backend, required.
  assert (jansson_object_get (description_json d) "type" = Some (JString (ds_type d))) as -> by done.
  assert (jansson_object_get (description_json d) "id" = Some (JString (ds_id d))) as -> by done.
  assert (jansson_object_get (description_json d) "target" = Some (JString (ds_target d))) as -> by done.
  assert (jansson_object_get (description_json d) "performance-model" = None) as -> by done.
  assert (parse_integer (description_json d) "max-threads-per-node" 0 = ds_threads d) as -> by done.
  assert (parse_integer (description_json d) "max-global-threads" 0 = ds_global d) as -> by done.
  assert (parse_integer (description_json d) "write-stream-blocksize" 0 = ds_stream d) as -> by done.
  assert (parse_integer (description_json d) "max-fragment-size" (10 * 1024 * 1024) = ds_fragment d) as -> by done.
  cbn [mret outcome_ret mbind outcome_bind json_string_value]. rewrite Hc. cbn [mbind outcome_bind]. rewrite Ha. cbn [mbind outcome_bind]. rewrite Hm. cbn [mbind outcome_bind mret outcome_ret].
  unfold described, as_int32, as_uint32, as_uint64, INT64_MAX in *. rewrite !Z.mod_small by lia. do 2 f_equal; lia.
Qed.

Lemma parse_descriptions (ds earlier : list description) :
  Forall description_ok ds -> NoDup (ds_id <$> (earlier ++ ds)%list) ->
  foldM (fun j backends => b ← parse_backend backends j; mret (backends ++ [b])%list) (description_json <$> ds) (described <$> earlier) = Done (described <$> (earlier ++ ds)%list).
Proof.
  intros Hok. revert earlier. induction Hok as [| d ds Hd _ IH]; intros earlier Hnd; [by rewrite app_nil_r |]. rewrite fmap_cons. cbn [foldM].
  rewrite (parse_description earlier d); [| done |].
  - cbn [mbind outcome_bind mret outcome_ret]. assert ((described <$> earlier) ++ [described d] = described <$> (earlier ++ [d]))%list as -> by (by rewrite fmap_app).
    rewrite IH; [by rewrite <- app_assoc |]. by rewrite <- app_assoc.
  - rewrite fmap_app, fmap_cons in Hnd. apply NoDup_app in Hnd as (_ & Hni & _). intros Hin. apply (Hni _ Hin). by left.
Qed.

(** The backends that are accepted. *)
Definition accepted (d : description) (kind : backend_kind) : Prop := esdmI_init_backend has backend_init (described d) = Done (Some kind).

Lemma register_descriptions (ds : list description) (kinds : list backend_kind) (l : list (backend_kind * esdm_config_backend_t)) :
  Forall2 accepted ds kinds -> foldM (register_backend has backend_init) (described <$> ds) l = Done (l ++ zip kinds (described <$> ds))%list.
Proof.
  intros Hacc. revert l. induction Hacc as [| d kind ds kinds Hd _ IH]; intros l; [by rewrite app_nil_r |]. rewrite fmap_cons. cbn [foldM].
  assert (register_backend has backend_init (described d) l = Done (l ++ [(kind, described d)])%list) as -> by (unfold register_backend; unfold accepted in Hd; by rewrite Hd).
  cbn [mbind outcome_bind]. rewrite IH, <- app_assoc. done.
Qed.

Lemma document_ok (b : bound_list_implementation) (mc : metadata_config) (type : string) (ds : list description) :
  plain type = true -> plain (md_id mc) = true -> plain (md_target mc) = true -> Forall description_ok ds ->
  json_ok (config_document b mc type ds) /\ (json_depth (config_document b mc type ds) <= 2048)%nat.
Proof.
  intros Ht Hi Hg Hds. split.
  - assert (Hd : json_ok (JArray (description_json <$> ds))).
    { apply json_ok_array, Forall_fmap. eapply Forall_impl; [exact Hds |]. intros d [(D1 & D2 & D3) [[? ?] [? ?]] [? ?] [? ?]]. unfold compose, description_json. apply json_ok_object.
      repeat (apply Forall_cons_2; [split; [done |]; cbn [snd json_ok]; first [done | by destruct (ds_method d) | by destruct (ds_access d) | unfold INT64_MIN, INT64_MAX in *; lia] |]). constructor. }
    apply json_ok_object. constructor; [| constructor]. split; [done |]. apply json_ok_object. constructor; [split; [done |]; by destruct b |]. constructor; [by split |].
    constructor; [| constructor]. split; [done |]. apply json_ok_object. repeat (apply Forall_cons_2; [split; [done |]; first [done | by destruct (md_accessibility mc)] |]). constructor.
  - assert (Hl : (json_depth (JArray (description_json <$> ds)) <= 2)%nat).
    { cbn [json_depth]. clear Hds. induction ds as [| d ds IH]; [cbn; lia |]. rewrite fmap_cons. cbn [foldr]. cbn [description_json json_depth foldr snd Nat.max] in *. lia. }
    unfold config_document. cbn [json_depth foldr snd] in *. lia.
Qed.

(** C27: A configuration text takes effect as it is written: initialising the library with the text of a configuration
    selects its implementation of bound lists, and registers its metadata backend and its data backends with their
    types, ids, targets and limits, in their order. *)
Theorem config_roundtrip (b : bound_list_implementation) (mc : metadata_config) (type : string) (ds : list description) (kinds : list backend_kind) :
  md_type mc = Some type -> strncmp_eq 9 type "metadummy" = true -> plain type = true -> plain (md_id mc) = true -> plain (md_target mc) = true ->
  Forall description_ok ds -> NoDup (ds_id <$> ds) -> Forall2 accepted ds kinds ->
  esdm_config_init_from_str (render (config_document b mc type ds)) = Done (Config (config_document b mc type ds) b) /\
  esdm_modules_init has backend_init (Config (config_document b mc type ds) b) = Done (Modules mc (zip kinds (described <$> ds))).
Proof.
  intros Emt Hmd Ht Hi Hg Hds Hnd Hacc. destruct (document_ok b mc type ds Ht Hi Hg Hds) as [Hok Hdepth]. split.
  - unfold esdm_config_init_from_str, load_json. rewrite (loads_law _ _ (text_of_render _ Hok)) by (done || by left). unfold config_document. by destruct b.
  - unfold esdm_modules_init.
    assert (esdm_config_get_backends (Config (config_document b mc type ds) b) = Done (Some (described <$> ds))) as ->.
    { assert (Hp : parse_backends (description_json <$> ds) = Done (described <$> ds)) by exact (parse_descriptions ds [] Hds Hnd).
      transitivity (bs ← parse_backends (description_json <$> ds); mret (Some bs)); [reflexivity | by rewrite Hp]. }
    cbn [mbind outcome_bind].
    assert (esdm_config_get_metadata_coordinator (Config (config_document b mc type ds) b) = Done mc) as ->.
    { destruct mc as [mt mi mg []]; cbn in Emt; subst mt; done. }
    cbn [mbind outcome_bind]. rewrite Emt. cbn [deref mbind outcome_bind]. rewrite Hmd, (register_descriptions ds kinds [] Hacc). done.
Qed.

End RoundTrip.

(** * An example *)

(** Two POSIX backends, one of them local. *)
Definition twoBackends : list description :=
  [Description "POSIX" "shared" "/work/esdm" 4 0 10485760 ESDMI_FRAGMENTATION_METHOD_CONTIGUOUS ESDM_ACCESSIBILITY_GLOBAL 0;
   Description "POSIX" "local" "/tmp/esdm" 1 0 4096 ESDMI_FRAGMENTATION_METHOD_EQUALIZED ESDM_ACCESSIBILITY_NODELOCAL 65536]%string.

Definition mdConfig : metadata_config := MetadataConfig (Some "metadummy"%string) "md" "./_md" ESDM_ACCESSIBILITY_GLOBAL.

Definition posixOnly (kind : backend_kind) : bool := bool_decide (kind = POSIX).

Definition configText : string := render (config_document BOUND_LIST_IMPLEMENTATION_ARRAY mdConfig "metadummy" twoBackends).

Lemma config_roundtrip_witness :
  exists config modules, esdm_config_init_from_str configText = Done config /\ boundListImplementation config = BOUND_LIST_IMPLEMENTATION_ARRAY /\
  esdm_modules_init posixOnly (fun _ _ => mret true) config = Done modules /\ (cb_id <$> (data_backends modules).*2) = [Some "shared"; Some "local"]%string.
Proof.
  destruct (config_roundtrip posixOnly (fun _ _ => mret true) BOUND_LIST_IMPLEMENTATION_ARRAY mdConfig "metadummy" twoBackends [POSIX; POSIX]) as [E1 E2]; try done.
  - repeat constructor; cbn; unfold INT64_MAX; lia.
  - apply (bool_decide_unpack _). by vm_compute.
  - repeat constructor; by vm_compute.
  - eexists _, _. split; [exact E1 |]. split; [done |]. split; [exact E2 |]. done.
Defined.

Lemma modules_wf_witness :
  exists config modules, esdm_config_init_from_str configText = Done config /\ esdm_modules_init posixOnly (fun _ _ => mret true) config = Done modules /\
  NoDup (cb_id <$> (data_backends modules).*2) /\ recommendedFragmentSize modules = 4096.
Proof.
  destruct (esdm_config_init_from_str configText) as [config | |] eqn:E1; [| by vm_compute in E1 | by vm_compute in E1].
  assert (Hs : match (c ← esdm_config_init_from_str configText; esdm_modules_init posixOnly (fun _ _ => mret true) c) with Done m => recommendedFragmentSize m | _ => 0 end = 4096) by (by vm_compute).
  rewrite E1 in Hs. cbn [mbind outcome_bind] in Hs. destruct (esdm_modules_init posixOnly (fun _ _ => mret true) config) as [modules | |] eqn:E2; try done.
  exists config, modules. split; [done |]. split; [exact E2 |]. destruct (modules_wf posixOnly (fun _ _ => mret true) config modules E2) as (l & _ & _ & Hnd & _). split; [exact Hnd | exact Hs].
Defined.
