(* ===== verification/GridJson.v ===== *)
(** The metadata of grids (src/esdm-grid.c): a hierarchy of grids is written as a JSON document and
    recreated from it. *)

From Stdlib Require Import Ascii.
From stdpp Require Import gmap strings pretty.
From S2P Require Import Prelude Memory Hypercube Json JsonText Odometer Dataspace Convert CopyData Partition Grid GridTree GridRegistry GridVisit GridRegion GridCover Fragment FragmentState Posix Fragments Dataset Metadata.

#[local] Set Warnings "-register-all,-notation-for-abbreviation".

Open Scope Z_scope.

Abbreviation grid_t := (esdm_grid_t nat).
Abbreviation cell_t := (esdm_gridEntry_t (esdm_grid_t nat) nat).

(** * Operations *)

Section Operations.

(** [makeId n] is the n-th id that [ea_make_id()] returns. *)
Context {T : Type} `{GHashTable T} (backendIds : list string) (makeId : nat -> string).

Definition serialize_axis (axis : esdm_axis_t) : outcome string :=
  bounds ← memdup (allBounds axis) (intervals axis + 1);
  mret ("[" ++ printed_list true (map pretty bounds) ++ "]")%string.

(** One cell, with [esdmI_grid_serialize()] for its subgrid. *)
Definition serialize_cell (serializeSubgrid : grid_t -> nat -> outcome (string * grid_t * nat)) (objs : gmap nat esdm_fragment_t) (cell : cell_t) (n : nat)
    : outcome (string * cell_t * nat) :=
  eassert (negb (bool_decide (is_Some (subgrid cell)) && bool_decide (is_Some (fragment cell))));;
  match subgrid cell, fragment cell with
  | Some g, _ =>
      '(t, g, n) ← serializeSubgrid g n;
      mret (("{" ++ quoted "grid" ++ ":" ++ t ++ "}")%string, Entry (Some g) (fragment cell), n)
  | None, Some v =>
      f ← deref (objs !! v);
      eassert (bool_decide (is_Some (Fragment.id f)));;
      t ← esdm_fragment_metadata_create backendIds f;
      mret (("{" ++ quoted "fragment" ++ ":" ++ t ++ "}")%string, cell, n)
  | None, None => mret ("{}"%string, cell, n)
  end.

Fixpoint serialize_cells (serializeSubgrid : grid_t -> nat -> outcome (string * grid_t * nat)) (objs : gmap nat esdm_fragment_t) (cells : list cell_t) (n : nat)
    : outcome (list string * list cell_t * nat) :=
  match cells with
  | [] => mret ([], [], n)
  | cell :: cells' =>
      '(t, cell, n) ← serialize_cell serializeSubgrid objs cell n;
      '(ts, cells', n) ← serialize_cells serializeSubgrid objs cells' n;
      mret (t :: ts, cell :: cells', n)
  end.

(** The text, the grid, whose cells are allocated and which has an id afterwards, and the number of
    ids made; [fuel] bounds the depth of the hierarchy. *)
Fixpoint esdmI_grid_serialize (fuel : nat) (objs : gmap nat esdm_fragment_t) (g : grid_t) (n : nat) : outcome (string * grid_t * nat) :=
  match fuel with
  | O => Undef
  | S fuel' =>
      g ← esdm_grid_ensureGrid g;
      let '(i, n) := match Grid.id g with Some i => (i, n) | None => (makeId n, S n) end in
      axesText ← mapM (fun dim => axis ← deref (axes g !! dim); serialize_axis axis) (seq 0 (Z.to_nat (dimCount g)));
      cellCount ← esdmI_grid_cellCount g;
      cells ← deref (grid g);
      cells ← mapM (fun j => deref (cells !! j)) (seq 0 (Z.to_nat cellCount));
      '(cellTexts, cells, n) ← serialize_cells (esdmI_grid_serialize fuel' objs) objs cells n;
      mret (("{" ++ quoted "axes" ++ ":[" ++ printed_list true axesText ++ "]," ++ quoted "id" ++ ":" ++ quoted i ++ "," ++
             quoted "grid" ++ ":[" ++ printed_list true cellTexts ++ "]}")%string,
            Grid (dimCount g) (Some i) (emptyCells g) (Some cells) (axes g), n)
  end.

(** The bounds of an axis; [None] is [goto fail]. *)
Definition parse_axis (boundsArray : json) : option esdm_axis_t :=
  if negb (json_is_array boundsArray) then None
  else
    let boundCount := json_array_size boundsArray in
    if boundCount <? 2 then None
    else if forallb json_is_integer (json_elements boundsArray) then
      let bounds := json_integer_value <$> json_elements boundsArray in
      Some (Axis (boundCount - 1) (nthZ bounds 0) (nthZ bounds (Z.to_nat (boundCount - 1))) (if boundCount - 1 =? 1 then None else Some bounds))
    else None.

(** One cell, with [esdmI_grid_createFromJson()] for its subgrid; [None] is [goto fail]. *)
Definition parse_cell (createSubgrid : gmap nat esdm_fragment_t -> json -> outcome (option grid_t * gmap nat esdm_fragment_t)) (dset : esdm_dataset_t T)
    (objs : gmap nat esdm_fragment_t) (cellObject : json) : outcome (option cell_t * gmap nat esdm_fragment_t) :=
  if negb (json_is_object cellObject) then mret (None, objs)
  else
    match jansson_object_get cellObject "grid", jansson_object_get cellObject "fragment" with
    | Some _, Some _ => mret (None, objs)
    | Some gridElement, None =>
        '(g, objs) ← createSubgrid objs gridElement;
        mret (option_map (fun g => Entry (Some g) None) g, objs)
    | None, Some fragmentElement =>
        if negb (json_is_object fragmentElement) then mret (None, objs)
        else
          '(ret, v, objs) ← esdmI_create_fragment_from_metadata backendIds dset objs (Some fragmentElement);
          if decide (ret <> ESDM_SUCCESS) then mret (None, objs) else mret (Some (Entry None v), objs)
    | None, None => mret (Some (Entry None None), objs)
    end.

Fixpoint parse_cells (createSubgrid : gmap nat esdm_fragment_t -> json -> outcome (option grid_t * gmap nat esdm_fragment_t)) (dset : esdm_dataset_t T)
    (objs : gmap nat esdm_fragment_t) (cells : list json) : outcome (option (list cell_t) * gmap nat esdm_fragment_t) :=
  match cells with
  | [] => mret (Some [], objs)
  | cell :: cells' =>
      '(e, objs) ← parse_cell createSubgrid dset objs cell;
      match e with
      | None => mret (None, objs)
      | Some e =>
          '(es, objs) ← parse_cells createSubgrid dset objs cells';
          mret (option_map (cons e) es, objs)
      end
  end.

(** A grid and its subgrids; the fragments made before a failure remain allocated. *)
Fixpoint createFromJson_grid (fuel : nat) (dset : esdm_dataset_t T) (objs : gmap nat esdm_fragment_t) (json : json)
    : outcome (option grid_t * gmap nat esdm_fragment_t) :=
  match fuel with
  | O => Undef
  | S fuel' =>
      if negb (json_is_object json) then mret (None, objs)
      else
        match jansson_object_get json "axes", jansson_object_get json "grid", jansson_object_get json "id" with
        | Some (JArray axesArray), Some (JArray cellArray), Some (JString i) =>
            match mapM parse_axis axesArray with
            | None => mret (None, objs)
            | Some axs =>
                let dimCount := Z.of_nat (length axesArray) in
                cellCount ← esdmI_grid_cellCount (F := nat) (Grid dimCount (Some i) 0 None axs);
                if negb (Z.of_nat (length cellArray) =? cellCount) then mret (None, objs)
                else
                  '(cells, objs) ← parse_cells (fun objs j => createFromJson_grid fuel' dset objs j) dset objs cellArray;
                  match cells with
                  | None => mret (None, objs)
                  | Some cells =>
                      let empty := Z.of_nat (length (filter (fun e => subgrid e = None /\ fragment e = None) cells)) in
                      mret (Some (Grid dimCount (Some i) empty (Some cells) axs), objs)
                  end
            end
        | _, _, _ => mret (None, objs)
        end
  end.

(** The call without a parent: the grid is registered with the dataset. *)
Definition esdmI_grid_createFromJson (json : json) (dset : esdm_dataset_t T) (gs : datasetGrids nat) (objs : gmap nat esdm_fragment_t)
    : outcome (esdm_status * option nat * datasetGrids nat * gmap nat esdm_fragment_t) :=
  '(g, objs) ← createFromJson_grid (S (json_depth json)) dset objs json;
  match g with
  | None => mret (ESDM_ERROR, None, gs, objs)
  | Some g =>
      let h := length (trees gs) in
      r ← esdmI_dataset_registerGrid (registry gs) h;
      r ← if emptyCells g =? 0 then esdmI_dataset_registerGridCompletion r h else mret r;
      mret (ESDM_SUCCESS, Some h, DatasetGrids r (trees gs ++ [g]), objs)
  end.

End Operations.

(** * Grids that differ in their ids and fragments only *)

Section Relation.

Context (Ids : option string -> option string -> Prop) (R : nat -> nat -> Prop).

(** Allocated grids with the same structure; [Ids] relates the ids, [R] the fragments. *)
Fixpoint grid_rel (g g' : grid_t) {struct g} : Prop :=
  dimCount g' = dimCount g /\ emptyCells g' = emptyCells g /\ axes g' = axes g /\ Ids (Grid.id g) (Grid.id g') /\
  match grid g, grid g' with
  | Some cs, Some cs' =>
      (fix cells (cs cs' : list cell_t) : Prop :=
         match cs, cs' with
         | [], [] => True
         | e :: cs, e' :: cs' =>
             (match subgrid e, subgrid e' with Some s, Some s' => grid_rel s s' | None, None => True | _, _ => False end /\
              match fragment e, fragment e' with Some v, Some v' => R v v' | None, None => True | _, _ => False end) /\ cells cs cs'
         | _, _ => False
         end) cs cs'
  | _, _ => False
  end.

Definition cell_rel (e e' : cell_t) : Prop :=
  match subgrid e, subgrid e' with Some s, Some s' => grid_rel s s' | None, None => True | _, _ => False end /\
  match fragment e, fragment e' with Some v, Some v' => R v v' | None, None => True | _, _ => False end.

Lemma grid_rel_iff (g g' : grid_t) :
  grid_rel g g' <-> dimCount g' = dimCount g /\ emptyCells g' = emptyCells g /\ axes g' = axes g /\ Ids (Grid.id g) (Grid.id g') /\
    exists cs cs', grid g = Some cs /\ grid g' = Some cs' /\ Forall2 cell_rel cs cs'.
Proof.
  assert (Hcells : forall cs cs', (fix cells (cs cs' : list cell_t) : Prop :=
         match cs, cs' with
         | [], [] => True
         | e :: cs, e' :: cs' =>
             (match subgrid e, subgrid e' with Some s, Some s' => grid_rel s s' | None, None => True | _, _ => False end /\
              match fragment e, fragment e' with Some v, Some v' => R v v' | None, None => True | _, _ => False end) /\ cells cs cs'
         | _, _ => False
         end) cs cs' <-> Forall2 cell_rel cs cs').
  { induction cs as [| e cs IH]; intros [| e' cs']; rewrite ?Forall2_nil_inv_l, ?Forall2_cons; try done; [by split; intros H; inversion H | by split; intros H; inversion H |].
    rewrite <- IH. done. }
  destruct g as [d i n gr axs], g' as [d' i' n' gr' axs']. cbn [grid_rel dimCount emptyCells axes Grid.id grid].
  do 4 (apply and_iff_compat_l). destruct gr as [cs |], gr' as [cs' |]; try (split; [done | by intros (? & ? & ? & ? & _)]).
  rewrite Hcells. split; [by exists cs, cs' | by intros (? & ? & [= <-] & [= <-] & ?)].
Qed.

Lemma rel_complete (g g' : grid_t) : grid_rel g g' -> grid_complete g' = grid_complete g.
Proof. intros (_ & E & _ & _ & cs & cs' & Eg & Eg' & _)%grid_rel_iff. unfold grid_complete. by rewrite Eg, Eg', E. Qed.

Lemma cell_rel_complete (e e' : cell_t) : cell_rel e e' -> cell_complete e' = cell_complete e.
Proof.
  intros [Hs Hf]. unfold cell_complete. destruct (fragment e), (fragment e'); try done. destruct (subgrid e), (subgrid e'); try done. by apply rel_complete.
Qed.

Lemma rel_incomplete (cs cs' : list cell_t) : Forall2 cell_rel cs cs' -> incomplete cs' = incomplete cs.
Proof.
  induction 1 as [| e e' cs cs' He _ IH]; [done |]. unfold incomplete in *. cbn [foldr]. rewrite IH. unfold weight. by rewrite (cell_rel_complete e e').
Qed.

Lemma rel_wf (g g' : grid_t) : tree_wf g -> grid_rel g g' -> tree_wf g'.
Proof.
  intros Hwf. revert g'. induction Hwf as [g Hn Hs IH]. intros g' (Ed & Ee & Ea & _ & cs & cs' & Eg & Eg' & Hcs)%grid_rel_iff.
  assert (Hdom : forall s s', grid_rel s s' -> domain s' = domain s) by (intros s s' (_ & _ & E & _)%grid_rel_iff; unfold domain; by rewrite E).
  assert (Hrel : forall j e', cs' !! j = Some e' -> exists e, cs !! j = Some e /\ cell_rel e e').
  { intros j e' Ej. destruct (Forall2_lookup_r _ _ _ _ _ Hcs Ej) as (e & ? & ?). eauto. }
  constructor.
  - pose proof Hn as [N1 N2 N3 N4 N5 N6 N7]. constructor.
    + destruct N1. constructor; rewrite ?Ed, ?Ea; done.
    + destruct N2. constructor; rewrite ?Ea; done.
    + congruence.
    + intros cs0 [= <-]%(eq_trans (eq_sym Eg')). rewrite Ea, <- (Forall2_length _ _ _ Hcs). by apply N4.
    + intros cs0 [= <-]%(eq_trans (eq_sym Eg')). rewrite Ee, (rel_incomplete cs cs' Hcs). by apply N5.
    + intros cs0 j e' [= <-]%(eq_trans (eq_sym Eg')) Ej. destruct (Hrel j e' Ej) as (e & Ee0 & H1 & H2).
      destruct (N6 cs j e Eg Ee0) as [E | E]; rewrite E in *; [left; by destruct (subgrid e') | right; by destruct (fragment e')].
    + intros cs0 j e' s' [= <-]%(eq_trans (eq_sym Eg')) Ej Es'. destruct (Hrel j e' Ej) as (e & Ee0 & H1 & H2). rewrite Es' in H1.
      destruct (subgrid e) as [s |] eqn:Es; [| done]. rewrite Ea, (Hdom s s' H1). by apply (N7 cs j e).
  - intros cs0 j e' s' [= <-]%(eq_trans (eq_sym Eg')) Ej Es'. destruct (Hrel j e' Ej) as (e & Ee0 & H1 & H2). rewrite Es' in H1.
    destruct (subgrid e) as [s |] eqn:Es; [| done]. by apply (IH cs j e s Eg Ee0 Es).
Qed.

(** The leaves correspond. *)
Definition leaf_rel (x y : esdmI_hypercube_t * option nat) : Prop :=
  y.1 = x.1 /\ match x.2, y.2 with Some v, Some v' => R v v' | None, None => True | _, _ => False end.

Lemma rel_leaves (g g' : grid_t) : tree_wf g -> grid_rel g g' -> Forall2 leaf_rel (leafCells g) (leafCells g').
Proof.
  intros Hwf. revert g'. induction Hwf as [g Hn Hs IH]. intros g' (Ed & Ee & Ea & _ & cs & cs' & Eg & Eg' & Hcs)%grid_rel_iff.
  rewrite (leafCells_from g cs Eg), (leafCells_from g' cs' Eg').
  assert (Hsub : forall j e s, cs !! j = Some e -> subgrid e = Some s -> forall s', grid_rel s s' -> Forall2 leaf_rel (leafCells s) (leafCells s')).
  { intros j e s Ej Es. by apply (IH cs j e s). }
  clear Eg Eg' IH Hs Hn. revert Hsub. generalize 0%nat. induction Hcs as [| e e' cs cs' [H1 H2] _ IH]; intros j Hsub; cbn [leavesFrom]; [constructor |].
  apply Forall2_app; [| apply IH; intros k; apply (Hsub (S k))]. unfold entryLeaves. destruct (subgrid e) as [s |] eqn:Es, (subgrid e') as [s' |] eqn:Es'; try done.
  - by apply (Hsub 0%nat e s).
  - constructor; [| constructor]. split; cbn [fst snd]; [by rewrite Ea | done].
Qed.

End Relation.

(** * Documents *)

(** Reading an array by its indices. *)
Lemma mapM_seq {A B} (f : A -> outcome B) (l : list A) (k i : nat) :
  (i + k = length l)%nat -> mapM (fun j => a ← deref (l !! j); f a) (seq i k) = mapM f (drop i l).
Proof.
  revert i. induction k as [| k IH]; intros i Hi; [by rewrite drop_ge by lia |].
  destruct (lookup_lt_is_Some_2 l i) as [a Ea]; [lia |]. cbn [seq]. rewrite (drop_S l a i Ea), !mapM_cons, Ea. run. by rewrite IH by lia.
Qed.

Lemma mapM_prefix {A} (l : list A) (n : Z) :
  0 <= n <= Z.of_nat (length l) -> mapM (fun j => deref (l !! j)) (seq 0 (Z.to_nat n)) = Done (take (Z.to_nat n) l).
Proof.
  intros Hn. assert (Hgen : forall k i, (i + k <= length l)%nat -> mapM (fun j => deref (l !! j)) (seq i k) = Done (take k (drop i l))).
  { induction k as [| k IH]; intros i Hi; [done |]. destruct (lookup_lt_is_Some_2 l i) as [a Ea]; [lia |].
    cbn [seq]. rewrite (drop_S l a i Ea), mapM_cons, Ea. run. by rewrite IH by lia. }
  by rewrite Hgen by lia.
Qed.

Lemma mapM_indices {A} (l : list A) (n : Z) : Z.of_nat (length l) = n -> mapM (fun j => deref (l !! j)) (seq 0 (Z.to_nat n)) = Done l.
Proof. intros Hn. rewrite mapM_prefix by lia. by rewrite take_ge by lia. Qed.

(** All grids of a hierarchy are allocated, their ids satisfy [I] and their fragments [P]. *)
Inductive grid_all (I : option string -> Prop) (P : nat -> Prop) (g : grid_t) : Prop :=
| GridAll cs : grid g = Some cs -> I (Grid.id g) -> (forall j e v, cs !! j = Some e -> fragment e = Some v -> P v) ->
    (forall j e s, cs !! j = Some e -> subgrid e = Some s -> grid_all I P s) -> grid_all I P g.

Section Documents.

Context {T : Type} `{GHashTableLaws T} (backendIds : list string) (makeId : nat -> string) (objs : gmap nat esdm_fragment_t) (sp : esdm_dataspace_t).
Hypothesis Hmake : forall n, plain (makeId n) = true.

Fixpoint grid_json (g : grid_t) : json :=
  match g with
  | Grid _ i _ gr axs =>
      JObject [("axes"%string, JArray ((fun a => int_array (allBounds a)) <$> axs)); ("id"%string, JString (default ""%string i));
        ("grid"%string, JArray match gr with
          | None => []
          | Some cs => map (fun e : cell_t =>
              match e with
              | Entry (Some s) _ => JObject [("grid"%string, grid_json s)]
              | Entry None (Some v) => JObject [("fragment"%string, from_option (fragment_json backendIds) JNull (objs !! v))]
              | Entry None None => JObject []
              end) cs
          end)]
  end.

Definition cell_json (e : cell_t) : json :=
  match e with
  | Entry (Some s) _ => JObject [("grid"%string, grid_json s)]
  | Entry None (Some v) => JObject [("fragment"%string, from_option (fragment_json backendIds) JNull (objs !! v))]
  | Entry None None => JObject []
  end.

Lemma grid_json_unfold (g : grid_t) (cs : list cell_t) :
  grid g = Some cs -> grid_json g = JObject [("axes"%string, JArray ((fun a => int_array (allBounds a)) <$> axes g)); ("id"%string, JString (default ""%string (Grid.id g)));
    ("grid"%string, JArray (cell_json <$> cs))].
Proof. destruct g. cbn. by intros ->. Qed.

(** Grids whose ids and fragments can be stored. *)
Definition grid_storable : grid_t -> Prop :=
  grid_all (fun i => forall s, i = Some s -> plain s = true) (fun v => exists f, objs !! v = Some f /\ storable backendIds sp f).

(** The id that a grid has or gets. *)
Definition named (i i' : option string) : Prop := exists s, i' = Some s /\ plain s = true /\ (i = None \/ i = Some s).

(** What [esdmI_grid_serialize()] does with one grid. *)
Definition serialized (serialize : grid_t -> nat -> outcome (string * grid_t * nat)) (g : grid_t) : Prop :=
  forall n, exists g' n', serialize g n = Done (render (grid_json g'), g', n') /\ grid_rel named eq g g' /\ json_ok (grid_json g').

Lemma serialize_cells_ok (serialize : grid_t -> nat -> outcome (string * grid_t * nat)) (cs : list cell_t) (n : nat) :
  Forall (fun e => (subgrid e = None \/ fragment e = None) /\ (forall s, subgrid e = Some s -> serialized serialize s) /\
    (forall v, fragment e = Some v -> exists f, objs !! v = Some f /\ storable backendIds sp f)) cs ->
  exists cs' n', serialize_cells backendIds serialize objs cs n = Done (map render (cell_json <$> cs'), cs', n') /\
  Forall2 (cell_rel named eq) cs cs' /\ Forall json_ok (cell_json <$> cs').
Proof.
  intros Hcs. revert n. induction Hcs as [| e cs (Hx & Hs & Hf) _ IH]; intros n; cbn [serialize_cells].
  { exists [], n. by repeat constructor. }
  assert (exists e' n', serialize_cell backendIds serialize objs e n = Done (render (cell_json e'), e', n') /\ cell_rel named eq e e' /\ json_ok (cell_json e'))
    as (e' & n1 & E & Hr & Hj).
  { destruct e as [[s |] [v |]]; cbn [subgrid fragment] in *; unfold serialize_cell; cbn [subgrid fragment].
    - by destruct Hx.
    - run. destruct (Hs s eq_refl n) as (s' & n' & -> & Hrel & Hjs). run. exists (Entry (Some s') None), n'. split; [| split; [split; cbn; [done | done] |]].
      + cbn [cell_json]. do 2 f_equal; cbn [render map commas fst snd]; by rewrite !string_app_assoc.
      + apply json_ok_object. by repeat constructor.
    - run. destruct (Hf v eq_refl) as (f & Ef & Hst). rewrite Ef. run. destruct (sb_id _ _ _ Hst) as (i & Ei & _).
      rewrite eassert_true by (apply bool_decide_eq_true; eauto). run. rewrite (fragment_text backendIds sp f Hst). run.
      exists (Entry None (Some v)), n. cbn [cell_json]. rewrite Ef. cbn [from_option]. split; [| split; [by split |]].
      + do 2 f_equal; cbn [render map commas fst snd]; by rewrite !string_app_assoc.
      + apply json_ok_object, Forall_singleton. split; [done | by eapply fragment_json_ok].
    - run. exists (Entry None None), n. by repeat split. }
  rewrite E. run. destruct (IH n1) as (cs' & n' & -> & Hrs & Hjs). run. exists (e' :: cs'), n'. split; [done |]. split; constructor; done.
Qed.

Lemma serialize_axis_ok (a : esdm_axis_t) : axis_wf a -> serialize_axis a = Done (render (int_array (allBounds a))).
Proof.
  intros [[_ Hl] Hi _ _ _]. unfold serialize_axis. rewrite memdup_ok by (rewrite Hi; unfold cells; lia). run. by rewrite render_int_array, printed_list_commas.
Qed.

Lemma bounds_int64 (a : esdm_axis_t) : axis_wf a -> axis_int64 a -> Forall (fun z => INT64_MIN <= z <= INT64_MAX) (allBounds a).
Proof.
  intros Hw [Hlo Hhi _]. apply Forall_lookup. intros k z Ez. pose proof (lookup_lt_Some _ _ _ Ez) as Hk. destruct Hw as [[Hs Hl] _ E1 E2 _].
  assert (z = nthZ (allBounds a) k) as -> by (unfold nthZ; by rewrite Ez). rewrite E1 in Hlo. rewrite E2 in Hhi.
  pose proof (sorted_nth_le (allBounds a) 0 k Hs). pose proof (sorted_nth_le (allBounds a) k (length (allBounds a) - 1) Hs). lia.
Qed.

Lemma axes_json_ok (axs : list esdm_axis_t) :
  Forall axis_wf axs -> Forall axis_int64 axs -> json_ok (JArray ((fun a => int_array (allBounds a)) <$> axs)).
Proof.
  intros Hw H64. apply json_ok_array, Forall_fmap, Forall_lookup. intros k a Ea. cbn. apply json_ok_array, Forall_fmap.
  eapply Forall_impl; [apply bounds_int64; by eapply Forall_lookup_1 |]. done.
Qed.

Lemma serialize_ok (g : grid_t) (fuel : nat) :
  tree_wf g -> grid_storable g -> (depth g <= fuel)%nat -> serialized (esdmI_grid_serialize backendIds makeId fuel objs) g.
Proof.
  intros Hwf. revert fuel. induction Hwf as [g Hn Hs IH]. intros fuel [cs Eg Hid Hfr Hsub] Hfuel n.
  destruct fuel as [| fuel]; [destruct g; cbn in *; subst; cbn in *; lia |]. cbn [esdmI_grid_serialize]. unfold esdm_grid_ensureGrid. rewrite Eg. run.
  pose proof Hn as [N1 N2 N3 N4 N5 N6 N7]. pose proof N1 as [W1 W2 W3]. pose proof N2 as [A1 A2].
  destruct (match Grid.id g with Some i => (i, n) | None => (makeId n, S n) end) as [i n1] eqn:Ei.
  assert (Hname : named (Grid.id g) (Some i)).
  { exists i. split; [done |]. destruct (Grid.id g) as [i0 |] eqn:E0; injection Ei as <- <-; (split; [solve [by apply Hid | by apply Hmake] |]); [by right | by left]. }
  rewrite <- W1, Nat2Z.id, mapM_seq by done. rewrite drop_0.
  assert (mapM serialize_axis (axes g) = Done (map render ((fun a => int_array (allBounds a)) <$> axes g))) as ->.
  { clear -W3. induction W3 as [| a axs Ha _ IH]; [done |]. rewrite mapM_cons, serialize_axis_ok by done. run. rewrite IH. done. }
  run. rewrite cellCount_ok by done. run. rewrite Eg. run. rewrite mapM_indices by (by apply N4). run.
  destruct (serialize_cells_ok (esdmI_grid_serialize backendIds makeId fuel objs) cs n1) as (cs' & n' & -> & Hrel & Hjs).
  { apply Forall_lookup. intros j e Ej. split; [by apply (N6 cs j e) |]. split; [| intros v Ev; by apply (Hfr j e v)].
    intros s Es. apply (IH cs j e s Eg Ej Es); [by apply (Hsub j e s) |]. pose proof (depth_child g cs j e s Eg Ej Es). lia. }
  run. set (g' := Grid (dimCount g) (Some i) (emptyCells g) (Some cs') (axes g)). exists g', n'. rewrite (grid_json_unfold g' cs' eq_refl). split; [| split].
  - cbn [g' axes Grid.id default]. rewrite W1. do 3 f_equal. cbn [render map commas fst snd]. rewrite !printed_list_commas. by rewrite !string_app_assoc.
  - apply grid_rel_iff. do 3 (split; [done |]). split; [done |]. by exists cs, cs'.
  - destruct Hname as (s & [= <-] & Hp & _). apply json_ok_object. rewrite !Forall_cons. cbn [fst snd]. split; [split; [done | by apply axes_json_ok] |].
    split; [done |]. split; [split; [done | by apply json_ok_array] | constructor].
Qed.

(** ** Recreating a grid *)

Lemma parse_axis_ok (a : esdm_axis_t) : axis_wf a -> parse_axis (int_array (allBounds a)) = Some a.
Proof.
  intros Hw. rewrite <- (axisOf_allBounds a Hw) at 2. destruct Hw as [[_ Hl] _ _ _ _]. generalize (allBounds a), Hl. clear. intros bs Hl.
  unfold parse_axis, int_array, json_array_size. cbn [json_is_array negb json_elements]. rewrite length_fmap.
  destruct (Z.ltb_spec (Z.of_nat (length bs)) 2) as [|_]; [lia |].
  assert (forallb json_is_integer (JInteger <$> bs) = true) as -> by (clear; induction bs as [| z bs IH]; [done | exact IH]).
  assert (json_integer_value <$> (JInteger <$> bs) = bs) as -> by (rewrite <- list_fmap_compose; apply list_fmap_id).
  unfold axisOf, cells. f_equal. f_equal. f_equal. lia.
Qed.

(** The recreated grids belong to the dataset [d], whose table holds the shapes of their fragments. *)
Context (n : nat) (d : esdm_dataset_t T) (objs1 : gmap nat esdm_fragment_t).
Hypothesis Hids : NoDup backendIds.
Hypothesis Htable : fragments_inv n (dset_fragments d) objs1.

Definition known (v : nat) : Prop :=
  exists f, objs !! v = Some f /\ storable backendIds (dset_space d) f /\ key_ok n (extends (dataspace f)) /\
  extends (dataspace f) ∈ (g_hash_table_entries (dset_fragments d)).*1.

(** The new fragment has the shape of the old one. *)
Definition sameShape (v v' : nat) : Prop :=
  exists f, objs !! v = Some f /\ (extends (dataspace f), v') ∈ g_hash_table_entries (dset_fragments d).

Definition recreated (create : gmap nat esdm_fragment_t -> json -> outcome (option grid_t * gmap nat esdm_fragment_t)) (g : grid_t) : Prop :=
  exists g', create objs1 (grid_json g) = Done (Some g', objs1) /\ grid_rel eq sameShape g g'.

Lemma parse_cells_ok (create : gmap nat esdm_fragment_t -> json -> outcome (option grid_t * gmap nat esdm_fragment_t)) (cs : list cell_t) :
  Forall (fun e => (subgrid e = None \/ fragment e = None) /\ (forall s, subgrid e = Some s -> recreated create s) /\ (forall v, fragment e = Some v -> known v)) cs ->
  exists cs', parse_cells backendIds create d objs1 (cell_json <$> cs) = Done (Some cs', objs1) /\ Forall2 (cell_rel eq sameShape) cs cs'.
Proof.
  induction 1 as [| e cs (Hx & Hs & Hf) _ IH]; cbn [fmap list_fmap parse_cells].
  { exists []. by repeat constructor. }
  assert (exists e', parse_cell backendIds create d objs1 (cell_json e) = Done (Some e', objs1) /\ cell_rel eq sameShape e e') as (e' & E & Hr).
  { destruct e as [[s |] [v |]]; cbn [subgrid fragment cell_json] in *.
    - by destruct Hx.
    - destruct (Hs s eq_refl) as (s' & E & Hrel). unfold parse_cell. cbn [json_is_object negb].
      change (jansson_object_get (JObject [("grid"%string, grid_json s)]) "grid") with (Some (grid_json s)).
      change (jansson_object_get (JObject [("grid"%string, grid_json s)]) "fragment") with (@None json). cbn iota beta. rewrite E. run.
      exists (Entry (Some s') None). split; [done |]. by split.
    - destruct (Hf v eq_refl) as (f & Ef & Hst & Hk & Hin). rewrite Ef. cbn [from_option]. unfold parse_cell. cbn [json_is_object negb].
      set (doc := fragment_json backendIds f). change (jansson_object_get (JObject [("fragment"%string, doc)]) "grid") with (@None json).
      change (jansson_object_get (JObject [("fragment"%string, doc)]) "fragment") with (Some doc). cbn iota beta. change (json_is_object doc) with true. cbn [negb].
      destruct (create_fragment_ok backendIds Hids n d objs1 f Hst Htable Hk) as (v' & objs' & E & Hcase). fold doc in E. rewrite E. run.
      destruct Hcase as [[-> Hv'] | (_ & _ & Hni)]; [| done]. rewrite decide_False by (intros []; done). exists (Entry None (Some v')). split; [done |].
      split; [done |]. by exists f.
    - exists (Entry None None). done. }
  rewrite E. run. destruct IH as (cs' & -> & Hrs). run. exists (e' :: cs'). split; [done |]. by constructor.
Qed.

Lemma recreate_ok (g : grid_t) (fuel : nat) :
  tree_wf g -> grid_complete g = true -> grid_all is_Some known g -> (depth g <= fuel)%nat ->
  recreated (fun objs j => createFromJson_grid backendIds fuel d objs j) g.
Proof.
  intros Hwf. revert fuel. induction Hwf as [g Hn Hs IH]. intros fuel Hc [cs Eg [i Hi] Hfr Hsub] Hfuel.
  destruct fuel as [| fuel]; [destruct g; cbn in *; subst; cbn in *; lia |]. pose proof Hn as [N1 N2 N3 N4 N5 N6 N7]. pose proof N1 as [W1 W2 W3].
  unfold grid_complete in Hc. rewrite Eg in Hc. apply Z.eqb_eq in Hc. pose proof Hc as Hz. rewrite (N5 cs Eg) in Hz. pose proof (incomplete_zero cs Hz) as Hall.
  unfold recreated. rewrite (grid_json_unfold g cs Eg), Hi. cbn [createFromJson_grid json_is_object negb default].
  match goal with |- context [jansson_object_get ?j "axes"] => set (doc := j) end. unfold Datatypes.id in doc.
  assert (jansson_object_get doc "axes" = Some (JArray ((fun a => int_array (allBounds a)) <$> axes g))) as -> by done.
  assert (jansson_object_get doc "grid" = Some (JArray (cell_json <$> cs))) as -> by done. assert (jansson_object_get doc "id" = Some (JString i)) as -> by done.
  assert (mapM parse_axis ((fun a => int_array (allBounds a)) <$> axes g) = Some (axes g)) as ->.
  { apply mapM_Some_2, Forall2_fmap_l, Forall_Forall2_diag. eapply Forall_impl; [exact W3 |]. apply parse_axis_ok. }
  rewrite !length_fmap, W1.
  assert (esdmI_grid_cellCount (F := nat) (Grid (dimCount g) (Some i) 0 None (axes g)) = Done (cellTotal (axes g))) as ->.
  { apply (cellCount_ok (Grid (dimCount g) (Some i) 0 None (axes g))); [by constructor | destruct N2; by constructor]. }
  run. rewrite (proj2 (Z.eqb_eq _ _)) by (by apply N4). cbn [negb].
  destruct (parse_cells_ok (fun objs j => createFromJson_grid backendIds fuel d objs j) cs) as (cs' & -> & Hrel).
  { apply Forall_lookup. intros j e Ej. split; [by apply (N6 cs j e) |]. split; [| intros v Ev; by apply (Hfr j e v)].
    intros s Es. pose proof (depth_child g cs j e s Eg Ej Es). apply (IH cs j e s Eg Ej Es); [| by apply (Hsub j e s) | lia].
    specialize (Hall j e Ej). unfold cell_complete in Hall. destruct (N6 cs j e Eg Ej) as [E | E]; [congruence |]. by rewrite E, Es in Hall. }
  run. eexists. split; [done |]. apply grid_rel_iff. cbn [dimCount emptyCells axes Grid.id grid]. split; [done |]. split; [| split; [done |]; split; [done |]; by exists cs, cs'].
  rewrite Hc. cut (filter (fun e : cell_t => subgrid e = None /\ fragment e = None) cs' = []); [by intros -> |].
  apply elem_of_nil_inv. intros e' [[H1 H2] [j Ej]%list_elem_of_lookup]%list_elem_of_filter.
  destruct (Forall2_lookup_r _ _ _ _ _ Hrel Ej) as (e & Ee & [R1 R2]). specialize (Hall j e Ee). unfold cell_complete in Hall.
  rewrite H1 in R1. rewrite H2 in R2. destruct (subgrid e), (fragment e); done.
Qed.

End Documents.

(** ** The depth of the document *)

Lemma foldr_max_le {A} (f : A -> nat) (l : list A) (m : nat) :
  (foldr (fun x k => Nat.max (f x) k) 0 l <= m)%nat <-> Forall (fun x => (f x <= m)%nat) l.
Proof. induction l as [| x l IH]; cbn [foldr]; [split; [constructor | lia] |]. rewrite Forall_cons, <- IH. lia. Qed.

Lemma foldr_max_elem {A} (f : A -> nat) (l : list A) (j : nat) (x : A) : l !! j = Some x -> (f x <= foldr (fun x k => Nat.max (f x) k) 0 l)%nat.
Proof. intros Hx. pose proof (proj1 (foldr_max_le f l _) (Nat.le_refl _)) as Hall. by apply (Forall_lookup_1 _ _ _ _ Hall Hx). Qed.

Lemma grid_json_depth (backendIds : list string) (objs : gmap nat esdm_fragment_t) (g : grid_t) :
  tree_wf g -> (depth g <= S (json_depth (grid_json backendIds objs g)))%nat.
Proof.
  induction 1 as [g Hn Hs IH]. destruct (grid g) as [cs |] eqn:Eg; [| destruct g; cbn in *; subst; cbn; lia].
  rewrite (grid_json_unfold backendIds objs g cs Eg). assert (Ed : depth g = S (foldr (fun e k => Nat.max (from_option depth 0%nat (subgrid e)) k) 0%nat cs)).
  { destruct g. cbn in Eg. by subst. }
  rewrite Ed. apply le_n_S, foldr_max_le, Forall_lookup. intros j e Ej. destruct (subgrid e) as [s |] eqn:Es; [| cbn; lia]. cbn [from_option].
  specialize (IH cs j e s eq_refl Ej Es).
  assert (Hcell : (S (json_depth (grid_json backendIds objs s)) <= json_depth (cell_json backendIds objs e))%nat).
  { destruct e as [[s0 |] fr]; [| done]. cbn in Es. injection Es as ->. cbn [cell_json json_depth foldr snd]. lia. }
  assert (Hall : (json_depth (cell_json backendIds objs e) <= json_depth (JArray (cell_json backendIds objs <$> cs)))%nat).
  { cbn [json_depth]. apply le_S. apply (foldr_max_elem json_depth _ j). by rewrite list_lookup_fmap, Ej. }
  change (json_depth (JObject ?l)) with (S (foldr (fun m k => Nat.max (json_depth m.2) k) 0%nat l)). cbn [foldr snd]. lia.
Qed.

(** Related grids have related properties. *)
Lemma grid_all_rel (Ids : option string -> option string -> Prop) (R : nat -> nat -> Prop) (I I' : option string -> Prop) (P P' : nat -> Prop) (g g' : grid_t) :
  grid_all I P g -> grid_rel Ids R g g' -> (forall i i', Ids i i' -> I i -> I' i') -> (forall v v', R v v' -> P v -> P' v') -> grid_all I' P' g'.
Proof.
  intros Hall Hrel HI HP. revert g' Hrel. induction Hall as [g cs Eg Hi Hf Hs IH]. intros g' (_ & _ & _ & Hid & cs0 & cs' & Eg0 & Eg' & Hcs)%grid_rel_iff.
  rewrite Eg in Eg0. injection Eg0 as <-. apply (GridAll _ _ g' cs' Eg'); [by eapply HI | |].
  - intros j e' v' Ej Ev. destruct (Forall2_lookup_r _ _ _ _ _ Hcs Ej) as (e & Ee & _ & Hr). rewrite Ev in Hr. destruct (fragment e) as [v |] eqn:E; [| done].
    by apply (HP v v' Hr), (Hf j e).
  - intros j e' s' Ej Es. destruct (Forall2_lookup_r _ _ _ _ _ Hcs Ej) as (e & Ee & Hr & _). rewrite Es in Hr. destruct (subgrid e) as [s |] eqn:E; [| done].
    by apply (IH j e s Ee E).
Qed.
