(* ===== verification/DatasetMetadata.v ===== *)
(** The metadata of datasets (src/esdm-datatypes.c): the document a dataset is committed as and the
    dataset that is loaded from it.  Attributes and type descriptions belong to the library
    smd, which is a parameter. *)

From Stdlib Require Import Ascii.
From stdpp Require Import gmap strings pretty.
From S2P Require Import Prelude Memory Hypercube Json JsonText Odometer Dataspace Convert CopyData Partition Grid GridTree GridRegistry GridVisit GridRegion GridCover Fragment FragmentState Posix Fragments Dataset Metadata GridJson.

#[local] Set Warnings "-register-all,-notation-for-abbreviation".

Open Scope Z_scope.

(** * The library smd *)

(** Attributes and types and their texts; [smd_attr_create_from_json] also returns the number of
    characters it has read. *)
Class Smd (A : Type) := {
  smd_attr_variables : A;
  smd_attr_fill : esdm_type_t -> list Z -> A;
  smd_attr_value : A -> list Z;
  smd_attr_ser_json : A -> string;
  smd_attr_create_from_json : string -> nat * A;
  smd_type_ser : esdm_type_t -> string;
  smd_type_from_ser : string -> option esdm_type_t
}.

(** Its documented behaviour, for the attributes and types whose texts it can read back. *)
Class SmdLaws (A : Type) `{Smd A} := {
  attr_ok : A -> Prop;
  type_ok : esdm_type_t -> Prop;
  attr_law a rest : attr_ok a -> smd_attr_create_from_json (smd_attr_ser_json a ++ "," ++ rest) = (String.length (smd_attr_ser_json a), a);
  fill_name_law ty v : exists t, smd_attr_ser_json (smd_attr_fill ty v) = (quoted "fill-value" ++ t)%string;
  fill_value_law ty v : Z.of_nat (length v) = esdm_sizeof ty -> smd_attr_value (smd_attr_fill ty v) = v;
  type_law ty : type_ok ty -> smd_type_from_ser (smd_type_ser ty) = Some ty /\ plain (smd_type_ser ty) = true
}.

(** * Data *)

(** The fields of [esdm_dataset_t]; pointers that can be [NULL] are options. *)
Record dataset_object (A T : Type) := DatasetObject {
  o_name : string;
  o_id : option string;
  o_mode_flags : Z;
  o_refcount : Z;
  o_status : esdm_data_status_e;
  o_attr : option A;
  o_fill : option A;
  o_space : option esdm_dataspace_t;
  o_actual_size : option (list Z);
  o_dims_dset_id : option (list string);
  o_fragments : T;
  o_grids : datasetGrids nat
}.
Arguments DatasetObject {A T} o_name o_id o_mode_flags o_refcount o_status o_attr o_fill o_space o_actual_size o_dims_dset_id o_fragments o_grids.
Arguments o_name {A T} _.
Arguments o_id {A T} _.
Arguments o_mode_flags {A T} _.
Arguments o_refcount {A T} _.
Arguments o_status {A T} _.
Arguments o_attr {A T} _.
Arguments o_fill {A T} _.
Arguments o_space {A T} _.
Arguments o_actual_size {A T} _.
Arguments o_dims_dset_id {A T} _.
Arguments o_fragments {A T} _.
Arguments o_grids {A T} _.

(** The complete grids, the first [gridCount] entries of the array. *)
Definition completeGrids (gs : datasetGrids nat) : list grid_t :=
  omap (fun h => trees gs !! h) (take (Z.to_nat (gridCount (registry gs))) (grids (registry gs))).

Fixpoint string_drop (n : nat) (s : string) : string :=
  match n, s with
  | O, _ => s
  | S n', String _ s' => string_drop n' s'
  | S _, EmptyString => ""%string
  end.

(** * Operations *)

Section Operations.

Context {A : Type} `{Smd A} {T : Type} `{GHashTable T} `{Jansson} (backendIds : list string) (makeId : nat -> string).

Abbreviation object := (dataset_object A T).

Definition setDims (o : object) (names : option (list string)) (status : esdm_data_status_e) : object :=
  DatasetObject (o_name o) (o_id o) (o_mode_flags o) (o_refcount o) status (o_attr o) (o_fill o) (o_space o) (o_actual_size o) names (o_fragments o) (o_grids o).

(** The name at an index; [NULL] cannot be read. *)
Definition nameAt (names : list (option string)) (i : nat) : outcome string := name ← deref (names !! i); deref name.

(** The status, the dataset and the status of its container. *)
Definition esdm_dataset_name_dims (o : object) (container_status : esdm_data_status_e) (names : list (option string))
    : outcome (esdm_status * object * esdm_data_status_e) :=
  space ← deref (o_space o);
  let indices := seq 0 (Z.to_nat (dims space)) in
  valid ← foldM (fun i (valid : bool) => if valid then name ← nameAt names i; mret (ea_is_valid_dataset_name name) else mret false) indices true;
  if valid : bool then
    names ← mapM (nameAt names) indices;
    mret (ESDM_SUCCESS, setDims o (Some names) ESDM_DATA_DIRTY, ESDM_DATA_DIRTY)
  else mret (ESDM_ERROR, o, container_status).

(** The grids of the loop over [d->grids]: their texts, the trees and the number of ids made. *)
Fixpoint serialize_grids (objs : gmap nat esdm_fragment_t) (handles : list nat) (ts : list grid_t) (n : nat) : outcome (list string * list grid_t * nat) :=
  match handles with
  | [] => mret ([], ts, n)
  | h :: handles' =>
      g ← deref (ts !! h);
      '(t, g, n) ← esdmI_grid_serialize backendIds makeId (depth g) objs g n;
      '(texts, ts, n) ← serialize_grids objs handles' (<[h := g]> ts) n;
      mret (t :: texts, ts, n)
  end.

(** The text, the dataset, whose grids have ids afterwards, and the number of ids made. *)
Definition esdmI_dataset_metadata_create (d : object) (objs : gmap nat esdm_fragment_t) (n : nat) : outcome (string * object * nat) :=
  eassert (bool_decide (is_Some (o_space d)));;
  space ← deref (o_space d);
  attr ← deref (o_attr d);
  i ← deref (o_id d);
  sizes ← memdup (size space) (dims space);
  names ← match o_dims_dset_id d with
          | None => mret None
          | Some names => names ← mapM (fun i => deref (names !! i)) (seq 0 (Z.to_nat (dims space))); mret (Some names)
          end;
  fragmentsText ← esdmI_fragments_metadata_create backendIds (o_fragments d) objs;
  handles ← mapM (fun i => deref (grids (registry (o_grids d)) !! i)) (seq 0 (Z.to_nat (gridCount (registry (o_grids d)))));
  '(gridTexts, ts, n) ← serialize_grids objs handles (trees (o_grids d)) n;
  mret (("{" ++ smd_attr_ser_json attr ++ match o_fill d with Some fill => "," ++ smd_attr_ser_json fill | None => "" end ++
         "," ++ quoted "id" ++ ":" ++ quoted i ++ "," ++ quoted "typ" ++ ":" ++ quoted (smd_type_ser (type space)) ++
         (if (dims space =? 0)%Z then "," ++ quoted "dims" ++ ":0"
          else "," ++ quoted "dims" ++ ":" ++ pretty (dims space) ++ "," ++ quoted "size" ++ ":[" ++ printed_list true (map pretty sizes) ++ "]") ++
         match names with Some names => "," ++ quoted "dims_dset_id" ++ ":[" ++ printed_list true (map quoted names) ++ "]" | None => "" end ++
         "," ++ quoted "fragments" ++ ":" ++ fragmentsText ++ "," ++ quoted "grids" ++ ":[" ++ printed_list true gridTexts ++ "]}")%string,
        DatasetObject (o_name d) (o_id d) (o_mode_flags d) (o_refcount d) (o_status d) (o_attr d) (o_fill d) (o_space d) (o_actual_size d) (o_dims_dset_id d)
          (o_fragments d) (DatasetGrids (registry (o_grids d)) ts), n).

(** ** Loading *)

(** The dataset as the data path sees it. *)
Definition coreOf (o : object) (container_status : esdm_data_status_e) : option (esdm_dataset_t T) :=
  i ← o_id o;
  space ← o_space o;
  Some (Dataset i space (smd_attr_value <$> o_fill o) (o_actual_size o) (o_fragments o) (completeGrids (o_grids o)) (o_status o) container_status).

Definition setAttributes (o : object) (attr fill : option A) : object :=
  DatasetObject (o_name o) (o_id o) (o_mode_flags o) (o_refcount o) (o_status o) attr fill (o_space o) (o_actual_size o) (o_dims_dset_id o) (o_fragments o) (o_grids o).

Definition setShape (o : object) (i : option string) (space : option esdm_dataspace_t) (sizes : option (list Z)) : object :=
  DatasetObject (o_name o) i (o_mode_flags o) (o_refcount o) (o_status o) (o_attr o) (o_fill o) space sizes (o_dims_dset_id o) (o_fragments o) (o_grids o).

Definition setContents (o : object) (sizes : option (list Z)) (t : T) (gs : datasetGrids nat) (status : esdm_data_status_e) : object :=
  DatasetObject (o_name o) (o_id o) (o_mode_flags o) (o_refcount o) status (o_attr o) (o_fill o) (o_space o) sizes (o_dims_dset_id o) t gs.

(** The attributes in front of the text, and the text without them, which starts with a brace. *)
Definition parse_attributes (d : object) (md : string) : object * string :=
  let '(parsed, attr) := smd_attr_create_from_json (string_drop 1 md) in
  let js := string_drop (1 + parsed) md in
  let '(fill, js) :=
    if String.prefix (quoted "fill-value") (string_drop 1 js) then
      let '(parsed, fill) := smd_attr_create_from_json (string_drop 1 js) in (Some fill, string_drop (1 + parsed) js)
    else (o_fill d, js) in
  (setAttributes d (Some attr) fill, ("{" ++ string_drop 1 js)%string).

(** The names of the dimensions; a status is an early return.  Whether the names are accepted is not
    checked. *)
Definition parse_names (d : object) (container_status : esdm_data_status_e) (elem : option json)
    : outcome (option esdm_status * object * esdm_data_status_e) :=
  match elem with
  | None => mret (None, d, container_status)
  | Some elem =>
      space ← deref (o_space d);
      if negb (dims space =? json_array_size elem) then mret (Some ESDM_ERROR, d, container_status)
      else
        '(_, d, container_status) ← esdm_dataset_name_dims d container_status (json_string_value <$> json_elements elem);
        mret (None, d, container_status)
  end.

(** The loop over the grids: entry [i] of [d->grids] is written. *)
Fixpoint parse_grids (dset : esdm_dataset_t T) (gs : datasetGrids nat) (objs : gmap nat esdm_fragment_t) (i : nat) (l : list json)
    : outcome (option esdm_status * datasetGrids nat * gmap nat esdm_fragment_t) :=
  match l with
  | [] => mret (None, gs, objs)
  | j :: l' =>
      '(ret, h, gs, objs) ← esdmI_grid_createFromJson backendIds j dset gs objs;
      if decide (ret <> ESDM_SUCCESS) then mret (Some ret, gs, objs)
      else
        h ← deref h;
        let r := registry gs in
        let gs := DatasetGrids (GridRegistry (gridCount r) (incompleteGridCount r) (gridSlotCount r) (<[i := h]> (grids r))) (trees gs) in
        parse_grids dset gs objs (S i) l'
  end.

(** The fragments and grids, when dataspace and names are known. *)
Definition parse_contents {B : Type} (d : object) (container_status : esdm_data_status_e) (s : store B) (fragmentsElem gridsElem : option json)
    : outcome (esdm_status * object * esdm_data_status_e * store B) :=
  match fragmentsElem with
  | None => mret (ESDM_ERROR, d, container_status, s)
  | Some fragmentsElem =>
      c ← deref (coreOf d container_status);
      '(early, c, s) ← parse_fragments backendIds c s (json_elements fragmentsElem);
      let d := setContents d (actual_size c) (dset_fragments c) (o_grids d) (o_status d) in
      match early, gridsElem with
      | Some status, _ => mret (status, d, container_status, s)
      | None, Some (JArray l) =>
          let slots := Z.max kInitialGridSlotCount (Z.of_nat (length l)) in
          '(early, gs, objs) ← parse_grids c (DatasetGrids (GridRegistry 0 0 slots []) []) (objects s) 0 l;
          let s := Store objs (memory s) (disk s) in
          match early with
          | Some ret => mret (ret, setContents d (o_actual_size d) (o_fragments d) gs (o_status d), container_status, s)
          | None => mret (ESDM_SUCCESS, setContents d (o_actual_size d) (o_fragments d) gs ESDM_DATA_PERSISTENT, container_status, s)
          end
      | None, _ => mret (ESDM_ERROR, d, container_status, s)
      end
  end.

(** The sizes of the dimensions; [None] when their number is wrong. *)
Definition parse_sizes (dims : Z) (elem : option json) : option (list Z) :=
  match elem with
  | None => Some []
  | Some elem => if dims =? json_array_size elem then Some (json_integer_value <$> json_elements elem) else None
  end.

Definition esdm_dataset_open_md_parse {B : Type} (d : object) (container_status : esdm_data_status_e) (s : store B) (md : string)
    : outcome (esdm_status * object * esdm_data_status_e * store B) :=
  let '(d, js) := parse_attributes d md in
  let root := load_json js in
  let get key := root ≫= fun r => jansson_object_get r key in
  str ← deref (get "typ"%string ≫= json_string_value);
  match smd_type_from_ser str with
  | None => mret (ESDM_ERROR, d, container_status, s)
  | Some ty =>
      i ← deref (get "id"%string ≫= json_string_value);
      let d := setShape d (Some i) (o_space d) (o_actual_size d) in
      let dims := to_int32 (from_option json_integer_value 0 (get "dims"%string)) in
      match parse_sizes dims (get "size"%string) with
      | None => mret (ESDM_ERROR, d, container_status, s)
      | Some sizes =>
          space ← esdm_dataspace_create dims sizes ty;
          let d := setShape d (o_id d) (Some space) (if existsb (Z.eqb 0) sizes then Some sizes else o_actual_size d) in
          '(early, d, container_status) ← parse_names d container_status (get "dims_dset_id"%string);
          match early with
          | Some status => mret (status, d, container_status, s)
          | None => parse_contents d container_status s (get "fragments"%string) (get "grids"%string)
          end
      end
  end.

End Operations.

(** * Texts *)

Lemma string_drop_app (a b : string) : string_drop (String.length a) (a ++ b) = b.
Proof. induction a as [| c a IH]; [by destruct b |]. exact IH. Qed.

Lemma prefix_app (a b : string) : String.prefix a (a ++ b) = true.
Proof. induction a as [| c a IH]; [by destruct b |]. change (String c a ++ b)%string with (String c (a ++ b)). cbn [String.prefix]. by destruct (Ascii.ascii_dec c c). Qed.

(** Valid names need no escapes. *)
Lemma validName_plain (s : string) (last : option ascii) : validName_loop last s = true -> plain s = true.
Proof.
  revert last. induction s as [| c s IH]; intros last Hv; [done |]. cbn [validName_loop plain] in *. apply andb_true_iff.
  destruct (((97 <=? nat_of_ascii c) && (nat_of_ascii c <=? 122) || (65 <=? nat_of_ascii c) && (nat_of_ascii c <=? 90) ||
    (48 <=? nat_of_ascii c) && (nat_of_ascii c <=? 57))%nat) eqn:E1; cbn [orb] in Hv.
  { split; [| by apply IH in Hv]. unfold plainChar. rewrite !orb_true_iff, !andb_true_iff, !Nat.leb_le in E1.
    rewrite !andb_true_iff, !negb_true_iff, !Nat.leb_le, !Nat.eqb_neq. lia. }
  case_bool_decide as Hc.
  { split; [| by apply IH in Hv]. repeat (apply elem_of_cons in Hc as [-> | Hc]; [done |]). by apply elem_of_nil in Hc. }
  case_bool_decide as Hs; [| done]. subst c. split; [done |]. destruct (bool_decide _ || bool_decide _); [done |]. by apply IH in Hv.
Qed.

Lemma valid_plain (s : string) : ea_is_valid_dataset_name s = true -> plain s = true.
Proof. destruct s; [done |]. apply validName_plain. Qed.

(** * Grids *)

Section Grids.

Context {T : Type} `{GHashTableLaws T} (backendIds : list string) (makeId : nat -> string).
Hypothesis Hids : NoDup backendIds.
Hypothesis Hmake : forall n, plain (makeId n) = true.

(** The grids get ids and their texts are written. *)
Lemma serialize_grids_ok (objs : gmap nat esdm_fragment_t) (sp : esdm_dataspace_t) (handles : list nat) (ts : list grid_t) (n : nat) :
  NoDup handles -> Forall (fun h => exists g, ts !! h = Some g /\ tree_wf g /\ grid_storable backendIds objs sp g) handles ->
  exists gs ts' n', serialize_grids backendIds makeId objs handles ts n = Done (map render (grid_json backendIds objs <$> gs), ts', n') /\
  Forall2 (fun h g' => exists g, ts !! h = Some g /\ ts' !! h = Some g' /\ grid_rel named eq g g' /\ json_ok (grid_json backendIds objs g')) handles gs /\
  (forall h, h ∉ handles -> ts' !! h = ts !! h) /\ length ts' = length ts.
Proof.
  intros Hnd. revert ts n. induction Hnd as [| h handles Hni Hnd IH]; intros ts n Hall; cbn [serialize_grids].
  { exists [], ts, n. by repeat constructor. }
  apply Forall_cons in Hall as [(g & Eg & Hwf & Hst) Hall]. rewrite Eg. run.
  destruct (serialize_ok backendIds makeId objs sp Hmake g (depth g) Hwf Hst (Nat.le_refl _) n) as (g' & n1 & -> & Hrel & Hj). run.
  pose proof (lookup_lt_Some _ _ _ Eg) as Hlt.
  destruct (IH (<[h := g']> ts) n1) as (gs & ts' & n' & -> & Hgs & Hout & Hlen).
  { apply Forall_forall. intros k Hk. rewrite list_lookup_insert_ne by (intros ->; done). by apply (proj1 (Forall_forall _ _) Hall). }
  run. exists (g' :: gs), ts', n'. split; [done |]. split; [| split; [| by rewrite Hlen, length_insert]].
  - constructor.
    + exists g. split; [done |]. split; [| done]. by rewrite (Hout h Hni), list_lookup_insert_eq.
    + apply Forall2_same_length_lookup. pose proof (Forall2_length _ _ _ Hgs). split; [done |]. intros k x y Ex Ey.
      destruct (Forall2_lookup_lr _ _ _ _ _ _ Hgs Ex Ey) as (g0 & E0 & ?). exists g0. split; [| done].
      rewrite list_lookup_insert_ne in E0; [done |]. intros <-. apply Hni. by eapply list_elem_of_lookup_2.
  - intros k Hk. rewrite not_elem_of_cons in Hk. destruct Hk as [Hkh Hk]. by rewrite (Hout k Hk), list_lookup_insert_ne.
Qed.

(** The registry of [k] complete grids. *)
Definition fullRegistry (k : nat) (slots : Z) : gridRegistry := GridRegistry (Z.of_nat k) 0 slots (seq 0 k).

Lemma register_complete_ok (k : nat) (slots : Z) :
  Z.of_nat k < slots -> esdmI_dataset_registerGrid (fullRegistry k slots) k ≫= (fun r => esdmI_dataset_registerGridCompletion r k) = Done (fullRegistry (S k) slots).
Proof.
  intros Hk. unfold esdmI_dataset_registerGrid, fullRegistry. cbn [gridCount incompleteGridCount gridSlotCount grids].
  destruct (Z.eqb_spec (Z.of_nat k + 0) slots) as [|_]; [lia |]. rewrite eassert_true by (apply Z.ltb_lt; lia). run.
  change ([k]) with (seq (0 + k) 1) at 1. rewrite <- seq_app, Nat.add_1_r. unfold esdmI_dataset_registerGridCompletion.
  cbn [gridCount incompleteGridCount gridSlotCount grids]. rewrite eassert_true by done. run. change (0 + 1) with 1. rewrite Nat2Z.id.
  assert (Hlk : seq 0 (S k) !! k = Some k) by (apply lookup_seq; lia).
  change (Z.to_nat 1) with 1%nat. cbn [findGrid]. rewrite Hlk. run. rewrite bool_decide_eq_true_2 by done. run.
  rewrite !list_insert_id by (rewrite ?list_insert_id; done). do 2 f_equal; lia.
Qed.

Context (n : nat) (d : esdm_dataset_t T) (objs objs1 : gmap nat esdm_fragment_t).
Hypothesis Htable : fragments_inv n (dset_fragments d) objs1.

(** Complete grids are recreated in their order. *)
Lemma parse_grids_ok (slots : Z) (gs ts : list grid_t) (k : nat) :
  length ts = k -> Z.of_nat (k + length gs) <= slots ->
  Forall (fun g => tree_wf g /\ grid_complete g = true /\ grid_all is_Some (known backendIds objs n d) g) gs ->
  exists gs', parse_grids backendIds d (DatasetGrids (fullRegistry k slots) ts) objs1 k (grid_json backendIds objs <$> gs) =
    Done (None, DatasetGrids (fullRegistry (k + length gs) slots) (ts ++ gs'), objs1) /\
  Forall2 (grid_rel eq (sameShape objs d)) gs gs'.
Proof.
  revert ts k. induction gs as [| g gs IH]; intros ts k Hlen Hslots Hall.
  { exists []. rewrite app_nil_r, Nat.add_0_r. split; [done | constructor]. }
  apply Forall_cons in Hall as [(Hwf & Hc & Hg) Hall]. cbn [length] in Hslots. cbn [fmap list_fmap parse_grids]. unfold esdmI_grid_createFromJson.
  destruct (recreate_ok backendIds objs n d objs1 Hids Htable g (S (json_depth (grid_json backendIds objs g))) Hwf Hc Hg) as (g' & E & Hrel);
    [by apply grid_json_depth |].
  rewrite E. run. cbn [registry trees]. rewrite Hlen. pose proof (rel_complete _ _ _ _ Hrel) as Hc'. pose proof (register_complete_ok k slots ltac:(lia)) as Hreg.
  destruct (esdmI_dataset_registerGrid _ _) as [r | |]; [| done | done]. cbn [mbind outcome_bind] in Hreg |- *.
  assert ((emptyCells g' =? 0) = true) as ->.
  { apply grid_rel_iff in Hrel as (_ & _ & _ & _ & cs & cs' & _ & Eg' & _). rewrite Hc in Hc'. unfold grid_complete in Hc'. rewrite Eg' in Hc'. exact Hc'. }
  rewrite Hreg. run. rewrite decide_False by (intros []; done). run. cbn [registry trees].
  assert (<[k := k]> (grids (fullRegistry (S k) slots)) = seq 0 (S k)) as -> by (apply list_insert_id, lookup_seq; lia).
  change (GridRegistry _ _ _ _) with (fullRegistry (S k) slots).
  destruct (IH (ts ++ [g'])%list (S k)) as (gs' & E' & Hgs); [rewrite length_app; cbn; lia | lia | done |].
  rewrite E'. exists (g' :: gs'). rewrite <- app_assoc. cbn [app length]. rewrite Nat.add_succ_r. split; [done | by constructor].
Qed.

End Grids.

(** ** The depth of the documents *)

Lemma fragment_json_depth (backendIds : list string) (f : esdm_fragment_t) : (json_depth (fragment_json backendIds f) <= 3)%nat.
Proof.
  assert (Hint : forall l, json_depth (int_array l) = 1%nat).
  { intros l. cbn [int_array json_depth]. f_equal. apply Nat.le_0_r, foldr_max_le, Forall_fmap, Forall_true. intros ?; cbn; lia. }
  unfold fragment_json, space_json. destruct (stride (dataspace f)); cbn -[int_array]; rewrite ?Hint; lia.
Qed.

Lemma grid_depth_le (backendIds : list string) (objs : gmap nat esdm_fragment_t) (g : grid_t) :
  tree_wf g -> (json_depth (grid_json backendIds objs g) <= 3 * depth g + 3)%nat.
Proof.
  assert (Haxes : forall axs, (json_depth (JArray ((fun a => int_array (allBounds a)) <$> axs)) <= 2)%nat).
  { intros axs. cbn [json_depth]. apply le_n_S, foldr_max_le, Forall_fmap, Forall_true. intros a. cbn [int_array json_depth compose].
    apply le_n_S, foldr_max_le, Forall_fmap, Forall_true. intros ?; cbn; lia. }
  induction 1 as [g Hn Hs IH]. destruct (grid g) as [cs |] eqn:Eg.
  - rewrite (grid_json_unfold backendIds objs g cs Eg). change (json_depth (JObject ?l)) with (S (foldr (fun m k => Nat.max (json_depth m.2) k) 0%nat l)).
    cbn [foldr snd]. specialize (Haxes (axes g)). change (json_depth (JString _)) with 0%nat.
    assert (Hd : (1 <= depth g)%nat) by (destruct g; cbn in *; subst; lia).
    enough (json_depth (JArray (cell_json backendIds objs <$> cs)) <= 3 * depth g + 2)%nat by lia.
    cbn [json_depth]. replace (3 * depth g + 2)%nat with (S (3 * depth g + 1)) by lia. apply le_n_S, foldr_max_le, Forall_fmap, Forall_lookup.
    intros j [[s |] [v |]] Ej; unfold compose; cbn [cell_json json_depth foldr snd].
    1, 2: specialize (IH cs j _ s eq_refl Ej eq_refl); pose proof (depth_child g cs j _ s Eg Ej eq_refl); lia.
    + destruct (objs !! v) as [f |]; [pose proof (fragment_json_depth backendIds f) |]; cbn [from_option]; [lia | cbn; lia].
    + lia.
  - destruct g as [dc i ec gr axs]. cbn in Eg. subst gr. specialize (Haxes axs). cbn -[json_depth]. change (json_depth (JObject ?l)) with (S (foldr (fun m k => Nat.max (json_depth m.2) k) 0%nat l)).
    cbn [foldr snd]. change (json_depth (JString _)) with 0%nat. change (json_depth (JArray [])) with 1%nat. lia.
Qed.

(** * The document of a dataset *)

Section Document.

Context {A : Type} `{SmdLaws A}.

Definition dataset_members (i : string) (space : esdm_dataspace_t) (names : option (list string)) (fragments grids : list json) : list (string * json) :=
  [("id"%string, JString i); ("typ"%string, JString (smd_type_ser (type space)))] ++
  (if dims space =? 0 then [("dims"%string, JInteger 0)] else [("dims"%string, JInteger (dims space)); ("size"%string, int_array (size space))]) ++
  match names with Some names => [("dims_dset_id"%string, JArray (JString <$> names))] | None => [] end ++
  [("fragments"%string, JArray fragments); ("grids"%string, JArray grids)].

(** The text after the attributes. *)
Definition dataset_tail (i : string) (space : esdm_dataspace_t) (names : option (list string)) (fragmentsText : string) (gridTexts : list string) : string :=
  (quoted "id" ++ ":" ++ quoted i ++ "," ++ quoted "typ" ++ ":" ++ quoted (smd_type_ser (type space)) ++
   (if (dims space =? 0)%Z then "," ++ quoted "dims" ++ ":0"
    else "," ++ quoted "dims" ++ ":" ++ pretty (dims space) ++ "," ++ quoted "size" ++ ":[" ++ printed_list true (map pretty (size space)) ++ "]") ++
   match names with Some names => "," ++ quoted "dims_dset_id" ++ ":[" ++ printed_list true (map quoted names) ++ "]" | None => "" end ++
   "," ++ quoted "fragments" ++ ":" ++ fragmentsText ++ "," ++ quoted "grids" ++ ":[" ++ printed_list true gridTexts ++ "]}")%string.

(** A dataspace and names that can be stored. *)
Definition shape_storable (space : esdm_dataspace_t) (names : option (list string)) : Prop :=
  space_wf space /\ dims space < 2 ^ 31 /\ Forall (fun s => INT64_MIN <= s <= INT64_MAX) (size space) /\ type_ok (type space) /\
  forall l, names = Some l -> Z.of_nat (length l) = dims space /\ Forall (fun s => ea_is_valid_dataset_name s = true) l.

Lemma member_textI (key : string) (j : json) (t : string) : plain key = true -> text_of j t -> member_text (key, j) (quoted key ++ ":" ++ t).
Proof. by exists t. Qed.

Lemma document_text (i : string) (space : esdm_dataspace_t) (names : option (list string)) (fragments grids : list json) (fragmentsText : string) :
  shape_storable space names -> plain i = true -> text_of (JArray fragments) fragmentsText -> Forall json_ok grids ->
  text_of (JObject (dataset_members i space names fragments grids)) ("{" ++ dataset_tail i space names fragmentsText (map render grids)).
Proof.
  intros (Hw & Hd & Hsz & Hty & Hnames) Hi Hf Hg. destruct (type_law (type space) Hty) as [_ Hp]. pose proof (wf_dims _ Hw) as Hd0.
  assert (Ti : text_of (JString i) (quoted i)) by done. assert (Ty : text_of (JString (smd_type_ser (type space))) (quoted (smd_type_ser (type space)))) by done.
  assert (Tg : text_of (JArray grids) ("[" ++ printed_list true (map render grids) ++ "]")%string).
  { rewrite printed_list_commas. apply (text_of_render (JArray grids)). by apply json_ok_array. }
  assert (Td : text_of (JInteger (dims space)) (pretty (dims space))) by (apply text_of_integer; unfold INT64_MIN, INT64_MAX; lia).
  assert (Ts : text_of (int_array (size space)) ("[" ++ printed_list true (map pretty (size space)) ++ "]")%string).
  { rewrite printed_list_commas, <- render_int_array. apply text_of_render, json_ok_array, Forall_fmap. done. }
  assert (Tn : forall l, names = Some l -> text_of (JArray (JString <$> l)) ("[" ++ printed_list true (map quoted l) ++ "]")%string).
  { intros l El. destruct (Hnames l El) as [_ Hv]. rewrite printed_list_commas.
    replace (map quoted l) with (map render (JString <$> l)) by (rewrite <- list_fmap_compose; done).
    apply (text_of_render (JArray (JString <$> l))), json_ok_array, Forall_fmap. eapply Forall_impl; [exact Hv |]. intros s. apply valid_plain. }
  pose (entry key t := (quoted key ++ ":" ++ t)%string).
  pose (parts := ([entry "id"%string (quoted i); entry "typ"%string (quoted (smd_type_ser (type space)))] ++
    (if (dims space =? 0)%Z then [entry "dims"%string "0"%string]
     else [entry "dims"%string (pretty (dims space)); entry "size"%string ("["%string +:+ printed_list true (map pretty (size space)) +:+ "]"%string)]) ++
    match names with Some l => [entry "dims_dset_id"%string ("["%string +:+ printed_list true (map quoted l) +:+ "]"%string)] | None => [] end ++
    [entry "fragments"%string fragmentsText; entry "grids"%string ("["%string +:+ printed_list true (map render grids) +:+ "]"%string)])%list).
  assert (E : dataset_tail i space names fragmentsText (map render grids) = (join "," parts ++ "}")%string).
  { unfold parts, entry, dataset_tail. destruct (dims space =? 0), names; cbn [app join]; rewrite !string_app_assoc; reflexivity. }
  rewrite E. apply text_of_object. unfold dataset_members, parts.
  apply Forall2_app; [repeat (constructor; [by apply member_textI |]); constructor |]. apply Forall2_app.
  { destruct (dims space =? 0); repeat (constructor; [by apply member_textI |]); constructor. }
  apply Forall2_app; [destruct names; repeat (constructor; [apply member_textI; [done | by apply Tn] |]); constructor |].
  repeat (constructor; [by apply member_textI |]); constructor.
Qed.

End Document.

(** * The round trip *)

(** The complete grids by their handles. *)
Lemma completeGrids_handles (n : Z) (gs : datasetGrids nat) :
  grids_inv n gs -> Forall2 (fun h g => trees gs !! h = Some g) (take (Z.to_nat (gridCount (registry gs))) (grids (registry gs))) (completeGrids gs).
Proof.
  intros [_ Hh _]. unfold completeGrids.
  assert (Hall : Forall (fun h => (h < length (trees gs))%nat) (take (Z.to_nat (gridCount (registry gs))) (grids (registry gs)))).
  { apply Forall_take, Forall_forall. intros h. apply Hh. }
  induction Hall as [| h l Hlt _ IH]; [constructor |]. apply lookup_lt_is_Some_2 in Hlt as [g Eg]. cbn [omap list_omap]. rewrite Eg. by constructor.
Qed.

Lemma completeGrids_complete (n : Z) (gs : datasetGrids nat) : grids_inv n gs -> Forall (fun g => tree_wf g /\ grid_complete g = true) (completeGrids gs).
Proof.
  intros Hg. pose proof Hg as [[R1 R2 R3 R4 R5 R6] Hh Ht]. apply Forall_lookup. intros k g Eg.
  destruct (Forall2_lookup_r _ _ _ _ _ (completeGrids_handles n gs Hg) Eg) as (h & Ek & Eh). split; [by apply (Ht h) |].
  apply lookup_take_Some in Ek as [Ek Hk]. apply R6 in Ek as [Ek _]. specialize (Ek ltac:(lia)). unfold completeHandle in Ek. by rewrite Eh in Ek.
Qed.

Section RoundTrip.

Context {A : Type} `{SmdLaws A} {T : Type} `{GHashTableLaws T} `{JanssonLaws} {B : Type} (backendIds : list string) (makeId : nat -> string).
Hypothesis Hids : NoDup backendIds.
Hypothesis Hmake : forall n, plain (makeId n) = true.

Abbreviation object := (dataset_object A T).

(** A dataset whose metadata can be stored: [n] is the number of its dimensions, [i] its id, [a] its
    attributes and [sp] its dataspace. *)
Record committable (n : nat) (i : string) (a : A) (sp : esdm_dataspace_t) (d : object) (objs : gmap nat esdm_fragment_t) : Prop := {
  cm_id : o_id d = Some i /\ plain i = true;
  cm_attr : o_attr d = Some a /\ attr_ok a;
  cm_fill : forall b, o_fill d = Some b -> attr_ok b /\ exists ty v, b = smd_attr_fill ty v;
  cm_space : o_space d = Some sp;
  cm_shape : shape_storable sp (o_dims_dset_id d);
  cm_table : fragments_inv n (o_fragments d) objs;
  cm_fragments : forall key v f, (key, v) ∈ g_hash_table_entries (o_fragments d) -> objs !! v = Some f -> storable backendIds sp f;
  cm_registry : grids_inv (dims sp) (o_grids d);
  cm_grids : Forall (grid_all (fun i => forall s, i = Some s -> plain s = true) (fun v => exists f, objs !! v = Some f /\ storable backendIds sp f /\
    key_ok n (extends (dataspace f)) /\ extends (dataspace f) ∈ (g_hash_table_entries (o_fragments d)).*1)) (completeGrids (o_grids d));
  cm_depth : Forall (fun g => (depth g <= 681)%nat) (completeGrids (o_grids d))
}.

(** The attributes in the text. *)
Definition attributes_text (a : A) (fill : option A) : string :=
  (smd_attr_ser_json a ++ match fill with Some fill => "," ++ smd_attr_ser_json fill | None => "" end)%string.

Definition withTrees (d : object) (ts : list grid_t) : object :=
  DatasetObject (o_name d) (o_id d) (o_mode_flags d) (o_refcount d) (o_status d) (o_attr d) (o_fill d) (o_space d) (o_actual_size d) (o_dims_dset_id d)
    (o_fragments d) (DatasetGrids (registry (o_grids d)) ts).

Lemma grid_all_impl (I I' : option string -> Prop) (P P' : nat -> Prop) (g : grid_t) :
  grid_all I P g -> (forall i, I i -> I' i) -> (forall v, P v -> P' v) -> grid_all I' P' g.
Proof. induction 1 as [g cs Eg Hi Hf Hs IH]. intros HI HP. apply (GridAll _ _ g cs Eg); eauto. Qed.

Lemma entries_exist (n : nat) (t : T) (objs : gmap nat esdm_fragment_t) : fragments_inv n t objs -> exists fs, entryFragments objs (g_hash_table_entries t) fs.
Proof.
  intros [_ Hobj]. assert (Hall : Forall (fun e => exists f, objs !! e.2 = Some f) (g_hash_table_entries t)).
  { apply Forall_forall. intros [key v] Hin. destruct (Hobj key v Hin) as (f & Ef & _). eauto. }
  clear Hobj. induction Hall as [| e l [f Ef] _ [fs IH]]; [exists []; constructor | exists (f :: fs); by constructor].
Qed.

Lemma metadata_create_ok (n : nat) (i : string) (a : A) (sp : esdm_dataspace_t) (d : object) (objs : gmap nat esdm_fragment_t) (k : nat) :
  committable n i a sp d objs ->
  exists fs ft ts k', esdmI_dataset_metadata_create backendIds makeId d objs k =
    Done (("{" ++ attributes_text a (o_fill d) ++ "," ++
           dataset_tail i sp (o_dims_dset_id d) ft (map render (grid_json backendIds objs <$> completeGrids (o_grids (withTrees d ts)))))%string, withTrees d ts, k') /\
  entryFragments objs (g_hash_table_entries (o_fragments d)) fs /\ text_of (JArray (fragment_json backendIds <$> fs)) ft /\
  Forall2 (grid_rel named eq) (completeGrids (o_grids d)) (completeGrids (o_grids (withTrees d ts))) /\
  Forall json_ok (grid_json backendIds objs <$> completeGrids (o_grids (withTrees d ts))) /\ length ts = length (trees (o_grids d)).
Proof.
  intros [[Ei _] [Ea _] _ Es Hshape Htab Hfr Hreg Hgr _]. pose proof Hshape as (Hw & _ & _ & _ & Hnames).
  destruct (entries_exist n _ _ Htab) as [fs Hfs].
  destruct (fragments_text backendIds sp (o_fragments d) objs fs Hfs) as (ft & Eft & Hft).
  { apply Forall_lookup. intros j f Ej. destruct (Forall2_lookup_r _ _ _ _ _ Hfs Ej) as ([key v] & Ek & Ev). eapply Hfr; [by eapply list_elem_of_lookup_2 | done]. }
  unfold esdmI_dataset_metadata_create. rewrite Es. rewrite eassert_true by (apply bool_decide_eq_true; eauto). run. rewrite Ea. run. rewrite Ei. run.
  rewrite memdup_ok by apply Hw. run.
  assert (match o_dims_dset_id d with None => mret None | Some names => names ← mapM (fun i => deref (names !! i)) (seq 0 (Z.to_nat (dims sp))); mret (Some names) end
    = Done (o_dims_dset_id d)) as ->.
  { destruct (o_dims_dset_id d) as [l |]; [| done]. destruct (Hnames l eq_refl) as [Hl _]. by rewrite mapM_indices. }
  run. rewrite Eft. run. pose proof Hreg as [[R1 R2 R3 R4 R5 R6] Rh Rt]. rewrite mapM_prefix by lia. run.
  pose proof (completeGrids_handles _ _ Hreg) as Hcg. set (handles := take _ _) in *.
  destruct (serialize_grids_ok backendIds makeId Hmake objs sp handles (trees (o_grids d)) k) as (gs & ts & k' & -> & Hgs & Hout & Hlen).
  { apply (sublist_NoDup _ (grids (registry (o_grids d)))); [done | apply sublist_take]. }
  { apply Forall_lookup. intros j h Ej. destruct (Forall2_lookup_l _ _ _ _ _ Hcg Ej) as (g & Ek & Eg). exists g. split; [done |]. split; [by apply (Rt h) |].
    eapply grid_all_impl; [by eapply Forall_lookup_1 in Hgr | done | intros v (f & Ef & Hst & _); eauto]. }
  run. assert (Ecg : completeGrids (DatasetGrids (registry (o_grids d)) ts) = gs).
  { unfold completeGrids. cbn [registry trees]. fold handles. clear -Hgs. induction Hgs as [| h g l gs (g0 & _ & Eg & _) _ IH]; [done |].
    cbn [omap list_omap]. rewrite Eg. by f_equal. }
  exists fs, ft, ts, k'. unfold withTrees at 1 3 4. cbn [o_grids]. rewrite Ecg. split; [| split; [done |]; split; [done |]; split; [| split; [| done]]].
  - unfold attributes_text, dataset_tail, withTrees. rewrite Ei, Ea, Es, !string_app_assoc. done.
  - apply Forall2_same_length_lookup. pose proof (Forall2_length _ _ _ Hcg). pose proof (Forall2_length _ _ _ Hgs). split; [lia |].
    intros j g g' Eg Eg'. destruct (Forall2_lookup_r _ _ _ _ _ Hcg Eg) as (h & Eh & E1). destruct (Forall2_lookup_lr _ _ _ _ _ _ Hgs Eh Eg') as (g0 & E0 & _ & Hr & _).
    congruence.
  - apply Forall_fmap, Forall_lookup. intros j g' Eg'. destruct (Forall2_lookup_r _ _ _ _ _ Hgs Eg') as (h & _ & g0 & _ & _ & _ & Hj). exact Hj.
Qed.

(** ** Loading *)

Lemma parse_attributes_ok (target : object) (a : A) (fill : option A) (tail : string) :
  attr_ok a -> (forall b, fill = Some b -> attr_ok b /\ exists ty v, b = smd_attr_fill ty v) -> (fill = None -> o_fill target = None) ->
  parse_attributes target ("{" ++ attributes_text a fill ++ "," ++ quoted "id" ++ tail) = (setAttributes target (Some a) fill, ("{" ++ quoted "id" ++ tail)%string).
Proof.
  intros Ha Hf Ht. unfold parse_attributes, attributes_text. change (string_drop 1 ("{" ++ ?x)) with x. rewrite string_app_assoc.
  change (string_drop (1 + ?m) ("{" ++ ?x)) with (string_drop m x). destruct fill as [b |].
  - destruct (Hf b eq_refl) as [Hb (ty & v & ->)]. rewrite !string_app_assoc, attr_law by done. change (string_drop (1 + ?m) ("{" ++ ?x)) with (string_drop m x).
    rewrite string_drop_app. change (string_drop 1 ("," ++ ?x)) with x. change (string_drop (1 + ?m) ("," ++ ?x)) with (string_drop m x).
    rewrite attr_law by done. rewrite string_drop_app. destruct (fill_name_law ty v) as [t Et]. rewrite Et at 1. rewrite string_app_assoc, prefix_app. done.
  - change ("" ++ ?x)%string with x. rewrite attr_law by done. change (string_drop (1 + ?m) ("{" ++ ?x)) with (string_drop m x).
    rewrite string_drop_app. change (string_drop 1 ("," ++ ?x)) with x. rewrite Ht by done.
    assert (String.prefix (quoted "fill-value") (quoted "id" ++ tail) = false) as -> by done. done.
Qed.

Definition newSpace (sp : esdm_dataspace_t) : esdm_dataspace_t :=
  Dataspace (type sp) (dims sp) (size sp) (replicate (Z.to_nat (dims sp)) 0) false None.

Lemma newSpace_ok (sp : esdm_dataspace_t) :
  space_wf sp -> esdm_dataspace_create (dims sp) (size sp) (type sp) = Done (newSpace sp) /\ space_wf (newSpace sp).
Proof.
  intros [W1 W2 W3 W4]. unfold esdm_dataspace_create, esdm_dataspace_create_full. rewrite !eassert_true by (apply Z.geb_le; lia). run.
  rewrite !memdup_ok by (rewrite ?length_replicate; lia). run. split; [done |]. constructor; cbn; rewrite ?length_replicate; done || lia.
Qed.

Lemma parse_sizes_ok (i : string) (sp : esdm_dataspace_t) (names : option (list string)) (fragments grids : list json) :
  space_wf sp -> parse_sizes (dims sp) (jansson_object_get (JObject (dataset_members i sp names fragments grids)) "size") = Some (size sp).
Proof.
  intros [_ W2 _ _]. unfold dataset_members. destruct (Z.eqb_spec (dims sp) 0) as [E | E].
  - rewrite E in W2. destruct (size sp); [| done]. by destruct names.
  - assert (Hg : forall rest : list (string * json), jansson_object_get (JObject ([("id"%string, JString i); ("typ"%string, JString (smd_type_ser (type sp)))] ++
      [("dims"%string, JInteger (dims sp)); ("size"%string, int_array (size sp))] ++ rest)) "size" = Some (int_array (size sp))) by done.
    rewrite Hg. unfold parse_sizes, int_array, json_array_size. cbn [json_elements]. rewrite length_fmap, W2, Z.eqb_refl. f_equal. rewrite <- list_fmap_compose. apply list_fmap_id.
Qed.

Lemma names_ok (l : list string) :
  Forall (fun s => ea_is_valid_dataset_name s = true) l ->
  foldM (fun i (valid : bool) => if valid then name ← nameAt (Some <$> l) i; mret (ea_is_valid_dataset_name name) else mret false) (seq 0 (length l)) true = Done true /\
  mapM (nameAt (Some <$> l)) (seq 0 (length l)) = Done l.
Proof.
  intros Hv. assert (Hat : forall i s, l !! i = Some s -> nameAt (Some <$> l) i = Done s) by (intros i s E; unfold nameAt; by rewrite list_lookup_fmap, E).
  assert (Hgen : forall k i, (i + k = length l)%nat ->
    foldM (fun i (valid : bool) => if valid then name ← nameAt (Some <$> l) i; mret (ea_is_valid_dataset_name name) else mret false) (seq i k) true = Done true /\
    mapM (nameAt (Some <$> l)) (seq i k) = Done (drop i l)); [| by apply (Hgen (length l) 0%nat)].
  induction k as [| k IH]; intros i Hi; [by rewrite drop_ge by lia |]. destruct (lookup_lt_is_Some_2 l i) as [s Es]; [lia |]. destruct (IH (S i)) as [IH1 IH2]; [lia |].
  cbn [seq foldM]. rewrite mapM_cons, (Hat i s Es), (drop_S l s i Es). run. rewrite (Forall_lookup_1 _ _ _ _ Hv Es), IH1, IH2. done.
Qed.

Lemma parse_names_ok (target : object) (cst : esdm_data_status_e) (sp : esdm_dataspace_t) (names : option (list string)) :
  shape_storable sp names -> o_space target = Some (newSpace sp) -> (names = None -> o_dims_dset_id target = None) ->
  exists st, parse_names target cst (option_map (fun l => JArray (JString <$> l)) names) =
    Done (None, setDims target names st, match names with Some _ => ESDM_DATA_DIRTY | None => cst end).
Proof.
  intros (_ & _ & _ & _ & Hn) Es En. destruct names as [l |]; cbn [option_map parse_names].
  - destruct (Hn l eq_refl) as [Hl Hv]. rewrite Es. run. change (dims (newSpace sp)) with (dims sp). unfold json_array_size. cbn [json_elements].
    rewrite length_fmap, Hl, Z.eqb_refl. cbn [negb].
    replace (json_string_value <$> (JString <$> l)) with (Some <$> l) by (by rewrite <- list_fmap_compose).
    unfold esdm_dataset_name_dims. rewrite Es. run. change (dims (newSpace sp)) with (dims sp). rewrite <- Hl, Nat2Z.id.
    destruct (names_ok l Hv) as [-> ->].
    run. by exists ESDM_DATA_DIRTY.
  - exists (o_status target). specialize (En eq_refl). destruct target. cbn in En. subst. done.
Qed.

Lemma entries_keys (n : nat) (t : T) (objs : gmap nat esdm_fragment_t) (fs : list esdm_fragment_t) :
  fragments_inv n t objs -> entryFragments objs (g_hash_table_entries t) fs -> (g_hash_table_entries t).*1 = (fun f => extends (dataspace f)) <$> fs.
Proof.
  intros [_ Hobj] Hfs. apply list_eq_Forall2, Forall2_fmap. apply Forall2_same_length_lookup. split; [by eapply Forall2_length |].
  intros j [key v] f Ek Ef. pose proof (Forall2_lookup_lr _ _ _ _ _ _ Hfs Ek Ef) as Ev. cbn in *.
  destruct (Hobj key v) as (g & Eg & _ & ->); [by eapply list_elem_of_lookup_2 |]. congruence.
Qed.

(** ** Fragments and grids *)

Lemma full_complete (ts : list grid_t) (slots : Z) : completeGrids (DatasetGrids (fullRegistry (length ts) slots) ts) = ts.
Proof.
  unfold completeGrids, fullRegistry. cbn [registry gridCount grids trees]. rewrite Nat2Z.id, take_ge by (rewrite length_seq; done).
  assert (Hgen : forall l pre : list grid_t, omap (fun h => (pre ++ l)%list !! h) (seq (length pre) (length l)) = l); [| apply (Hgen ts [])].
  induction l as [| g l IH]; intros pre; [done |]. cbn [length seq omap list_omap]. rewrite list_lookup_middle by done. f_equal.
  specialize (IH (pre ++ [g])%list). rewrite <- app_assoc, length_app, Nat.add_1_r in IH. exact IH.
Qed.

Lemma full_inv (ts : list grid_t) (slots n : Z) :
  0 < slots -> Z.of_nat (length ts) <= slots -> Forall (fun g => tree_wf g /\ grid_complete g = true /\ dimCount g = n) ts ->
  grids_inv n (DatasetGrids (fullRegistry (length ts) slots) ts).
Proof.
  intros Hs Hl Hall. constructor; cbn [registry trees].
  - constructor; cbn [fullRegistry gridCount incompleteGridCount gridSlotCount grids]; rewrite ?length_seq; try lia; [apply NoDup_ListNoDup, seq_NoDup |].
    intros k h [-> Hk]%lookup_seq. cbn [Nat.add]. destruct (lookup_lt_is_Some_2 ts k Hk) as [g Eg]. unfold completeHandle. cbn [trees]. rewrite Eg. cbn [from_option].
    destruct (Forall_lookup_1 _ _ _ _ Hall Eg) as (_ & -> & _). split; [done | lia].
  - intros h. cbn [fullRegistry grids]. rewrite elem_of_seq. lia.
  - intros h g Eg. by destruct (Forall_lookup_1 _ _ _ _ Hall Eg) as (? & _ & ?).
Qed.

(** What is known of a dataset that was loaded from the metadata of the fragments [fs] and the grids [gs],
    whose fragments are the objects [objs]; [old] are the objects before. *)
Record reopened (n : nat) (i : string) (sp : esdm_dataspace_t) (fs : list esdm_fragment_t) (gs : list grid_t) (objs old : gmap nat esdm_fragment_t)
    (d : object) (cst : esdm_data_status_e) (objs' : gmap nat esdm_fragment_t) : Prop := {
  rd_shape : o_id d = Some i /\ o_space d = Some (newSpace sp) /\ o_status d = ESDM_DATA_PERSISTENT;
  rd_table : fragments_inv n (o_fragments d) objs';
  rd_entries : exists vs, g_hash_table_entries (o_fragments d) ≡ₚ zip ((fun f => extends (dataspace f)) <$> fs) vs /\ NoDup vs /\
    Forall2 (fun v f => old !! v = None /\ objs' !! v = Some (reloaded i f)) vs fs /\ forall v g, objs' !! v = Some g -> old !! v = None -> v ∈ vs;
  rd_old : old ⊆ objs';
  rd_sizes : forall c, coreOf d cst = Some c -> sizes_exact c;
  rd_registry : grids_inv (dims sp) (o_grids d) /\ incompleteGridCount (registry (o_grids d)) = 0;
  rd_grids : forall c, coreOf d cst = Some c -> Forall2 (grid_rel eq (sameShape objs c)) gs (completeGrids (o_grids d))
}.

(** Grids whose fragments are found by their shapes among those of [fs]. *)
Definition grid_of (n : nat) (sp : esdm_dataspace_t) (objs : gmap nat esdm_fragment_t) (fs : list esdm_fragment_t) (g : grid_t) : Prop :=
  tree_wf g /\ grid_complete g = true /\ dimCount g = dims sp /\
  grid_all is_Some (fun v => exists f, objs !! v = Some f /\ storable backendIds sp f /\ key_ok n (extends (dataspace f)) /\
    extends (dataspace f) ∈ (fun f => extends (dataspace f)) <$> fs) g.

Lemma storable_space (sp sp' : esdm_dataspace_t) (f : esdm_fragment_t) :
  type sp' = type sp -> dims sp' = dims sp -> storable backendIds sp f -> storable backendIds sp' f.
Proof. intros Et Ed [? ? ? ? ? ? ?]. constructor; done || congruence. Qed.

Lemma initial_sizes (d : esdm_dataset_t T) (sp : esdm_dataspace_t) :
  space_wf sp -> dset_space d = newSpace sp -> g_hash_table_entries (dset_fragments d) = [] ->
  actual_size d = (if existsb (Z.eqb 0) (size sp) then Some (size sp) else None) -> sizes_fit (dset_space d) d /\ sizes_exact d.
Proof.
  intros Hw Es Et Ea. split.
  - split; [rewrite Es; by apply newSpace_ok |]. split; [done |]. intros sizes. rewrite Ea, Es. destruct (existsb _ _); [| done]. intros [= <-]. apply Hw.
  - unfold sizes_exact. rewrite Ea, Es, Et. cbn [newSpace size]. destruct (existsb (Z.eqb 0) (size sp)) eqn:E.
    + split; [done |]. intros j s a Ej Ea'. rewrite Ej in Ea'. injection Ea' as <-. destruct (Z.eqb_spec s 0) as [-> |]; [| done].
      split; [by intros e r He%elem_of_nil | by left].
    + apply Forall_forall. intros s Hs ->. assert (existsb (Z.eqb 0) (size sp) = true) by (apply existsb_exists; exists 0; split; [by apply list_elem_of_In | done]). congruence.
Qed.

Lemma parse_contents_ok (n : nat) (i : string) (sp : esdm_dataspace_t) (objs : gmap nat esdm_fragment_t) (fs : list esdm_fragment_t) (gs : list grid_t)
    (d : object) (cst : esdm_data_status_e) (s : store B) :
  o_id d = Some i -> o_space d = Some (newSpace sp) -> space_wf sp -> g_hash_table_entries (o_fragments d) = [] ->
  o_actual_size d = (if existsb (Z.eqb 0) (size sp) then Some (size sp) else None) ->
  Forall (storable backendIds sp) fs -> Forall (fun f => key_ok n (extends (dataspace f))) fs -> NoDup ((fun f => extends (dataspace f)) <$> fs) ->
  Forall (grid_of n sp objs fs) gs ->
  exists sizes t ggs objs',
    parse_contents backendIds d cst s (Some (JArray (fragment_json backendIds <$> fs))) (Some (JArray (grid_json backendIds objs <$> gs))) =
    Done (ESDM_SUCCESS, setContents d sizes t ggs ESDM_DATA_PERSISTENT, cst, Store objs' (memory s) (disk s)) /\
    reopened n i sp fs gs objs (objects s) (setContents d sizes t ggs ESDM_DATA_PERSISTENT) cst objs'.
Proof.
  intros Ei Es Hw Et Ea Hst Hk Hnd Hgs. unfold parse_contents.
  destruct (coreOf d cst) as [c |] eqn:Ec; [| unfold coreOf in Ec; by rewrite Ei, Es in Ec]. run.
  pose proof Ec as Ec0. unfold coreOf in Ec0. rewrite Ei, Es in Ec0. cbn in Ec0.
  assert (C1 : dset_id c = i) by (by injection Ec0 as <-). assert (C2 : dset_space c = newSpace sp) by (by injection Ec0 as <-).
  assert (C3 : g_hash_table_entries (dset_fragments c) = []) by (by injection Ec0 as <-).
  assert (C4 : actual_size c = if existsb (Z.eqb 0) (size sp) then Some (size sp) else None) by (by injection Ec0 as <-).
  destruct (initial_sizes c sp Hw C2 C3 C4) as [Hfit Hex]. cbn [json_elements].
  destruct (parse_fragments_ok backendIds Hids n fs c s) as (vs & c' & objs1 & -> & [Htab Hfit' Hex'] & (S1 & S2 & S3 & S4) & E1 & E2 & Hold & Hnew & Hvs & Hndv & Hp).
  { constructor; [| done | done]. constructor; [constructor |]; rewrite C3; try constructor. by intros key v ?%elem_of_nil. }
  { rewrite C2. eapply Forall_impl; [exact Hst |]. intros f. by apply storable_space. }
  { done. }
  { by rewrite C3, app_nil_r. }
  rewrite C3, app_nil_r in Hp. rewrite C1 in Hvs. run.
  pose proof (Forall2_length _ _ _ Hvs) as Hlv.
  assert (Hkeys : (g_hash_table_entries (dset_fragments c')).*1 ≡ₚ (fun f => extends (dataspace f)) <$> fs) by (rewrite Hp, fst_zip by (rewrite length_fmap; lia); done).
  destruct (parse_grids_ok backendIds Hids n c' objs objs1 Htab (Z.max kInitialGridSlotCount (Z.of_nat (length (grid_json backendIds objs <$> gs)))) gs [] 0)
    as (gs' & E & Hrel); [done | rewrite length_fmap; cbn [Nat.add]; lia | |].
  { eapply Forall_impl; [exact Hgs |]. intros g (G1 & G2 & _ & G4). split; [done |]. split; [done |]. eapply grid_all_impl; [exact G4 | done |].
    intros v (f & Ef & Hf & Hkf & Hin). exists f. split; [done |]. split; [by rewrite S2, C2; eapply storable_space; [| | exact Hf] |]. split; [done |]. by rewrite Hkeys. }
  change (fullRegistry 0 ?x) with (GridRegistry 0 0 x []) in E. cbn [objects]. rewrite E. run. cbn [app Nat.add].
  pose proof (Forall2_length _ _ _ Hrel) as Hlg. rewrite Hlg. eexists _, _, _, _. split; [done |].
  set (slots := Z.max _ _). assert (0 < slots /\ Z.of_nat (length gs') <= slots) as [Hsl1 Hsl2].
  { unfold slots, kInitialGridSlotCount. rewrite length_fmap. lia. }
  assert (Hcore : forall c0, coreOf (setContents d (actual_size c') (dset_fragments c') (DatasetGrids (fullRegistry (length gs') slots) gs') ESDM_DATA_PERSISTENT) cst = Some c0 ->
    dset_fragments c0 = dset_fragments c' /\ dset_space c0 = dset_space c' /\ actual_size c0 = actual_size c').
  { intros c0. unfold coreOf. cbn [setContents o_id o_space]. rewrite Ei, Es. cbn. intros [= <-]. cbn. by rewrite S2, C2. }
  constructor; cbn [setContents o_id o_space o_status o_fragments o_grids].
  - done.
  - exact Htab.
  - exists vs. done.
  - exact Hold.
  - intros c0 Hc0. destruct (Hcore c0 Hc0) as (F1 & F2 & F3). unfold sizes_exact in *. by rewrite F1, F2, F3.
  - split; [| done]. apply full_inv; [done | done |]. apply Forall_lookup. intros k g' Eg'.
    destruct (Forall2_lookup_r _ _ _ _ _ Hrel Eg') as (g & Eg & Hr). destruct (Forall_lookup_1 _ _ _ _ Hgs Eg) as (G1 & G2 & G3 & _).
    split; [by eapply rel_wf |]. split; [by rewrite (rel_complete _ _ _ _ Hr) |]. apply grid_rel_iff in Hr as (-> & _). done.
  - intros c0 Hc0. destruct (Hcore c0 Hc0) as (F1 & F2 & F3). rewrite full_complete. unfold sameShape. by rewrite F1.
Qed.

(** ** The whole document *)

Lemma rel_depth (Ids : option string -> option string -> Prop) (R : nat -> nat -> Prop) (g g' : grid_t) : tree_wf g -> grid_rel Ids R g g' -> depth g' = depth g.
Proof.
  intros Hwf. revert g'. induction Hwf as [g Hn Hs IH]. intros g' (_ & _ & _ & _ & cs & cs' & Eg & Eg' & Hcs)%grid_rel_iff.
  assert (Hd : forall (g : grid_t) cs, grid g = Some cs -> depth g = S (foldr (fun e k => Nat.max (from_option depth 0%nat (subgrid e)) k) 0%nat cs))
    by (intros [] ? E; cbn in E; by subst).
  rewrite (Hd g cs Eg), (Hd g' cs' Eg'). f_equal.
  assert (Hsub : forall j e s, cs !! j = Some e -> subgrid e = Some s -> forall s', grid_rel Ids R s s' -> depth s' = depth s) by (intros j e s Ej Es; by apply (IH cs j e s)).
  clear Eg Eg' IH Hs Hn. induction Hcs as [| e e' cs cs' [H1' _] _ IH']; [done |]. cbn [foldr]. rewrite (IH' (fun j => Hsub (S j))). f_equal.
  destruct (subgrid e) as [s |] eqn:Es, (subgrid e') as [s' |]; try done. by apply (Hsub 0%nat e s).
Qed.

(** A dataset object that is not loaded: a new one, or one that was closed and keeps what the metadata
    set before. *)
Record unloaded (fill : option A) (sp : esdm_dataspace_t) (names : option (list string)) (d : object) : Prop := {
  ul_table : g_hash_table_entries (o_fragments d) = [];
  ul_fill : fill = None -> o_fill d = None;
  ul_sizes : existsb (Z.eqb 0) (size sp) = false -> o_actual_size d = None;
  ul_names : names = None -> o_dims_dset_id d = None
}.

Lemma document_depth (i : string) (sp : esdm_dataspace_t) (names : option (list string)) (objs : gmap nat esdm_fragment_t) (fs : list esdm_fragment_t) (gs : list grid_t) :
  Forall (fun g => tree_wf g /\ (depth g <= 681)%nat) gs ->
  (json_depth (JObject (dataset_members i sp names (fragment_json backendIds <$> fs) (grid_json backendIds objs <$> gs))) <= 2048)%nat.
Proof.
  intros Hg.
  assert (Hflat : forall l, Forall (fun j => json_depth j = 0%nat) l -> json_depth (JArray l) = 1%nat).
  { intros l Hl. cbn [json_depth]. f_equal. apply Nat.le_0_r, foldr_max_le. eapply Forall_impl; [exact Hl |]. intros j ->. done. }
  assert (Hf : (json_depth (JArray (fragment_json backendIds <$> fs)) <= 4)%nat).
  { cbn [json_depth]. apply le_n_S, foldr_max_le, Forall_fmap, Forall_true. intros f. apply fragment_json_depth. }
  assert (Hgs : (json_depth (JArray (grid_json backendIds objs <$> gs)) <= 2047)%nat).
  { cbn [json_depth]. apply le_n_S, foldr_max_le, Forall_fmap. eapply Forall_impl; [exact Hg |]. intros g [Hw Hd]. unfold compose.
    pose proof (grid_depth_le backendIds objs g Hw). lia. }
  change (json_depth (JObject ?l)) with (S (foldr (fun m k => Nat.max (json_depth m.2) k) 0%nat l)). apply le_n_S, foldr_max_le. unfold dataset_members.
  assert (Hs : json_depth (int_array (size sp)) = 1%nat) by (apply Hflat, Forall_fmap, Forall_true; done).
  assert (Hn : forall l : list string, json_depth (JArray (JString <$> l)) = 1%nat) by (intros l; apply Hflat, Forall_fmap, Forall_true; done).
  destruct (dims sp =? 0), names as [l |]; cbn [app]; repeat (apply Forall_cons; split); try apply Forall_nil; cbn [snd]; rewrite ?Hs, ?Hn; (lia || (cbn; lia)).
Qed.

Lemma open_md_parse_ok (n : nat) (i : string) (a : A) (fill : option A) (sp : esdm_dataspace_t) (names : option (list string)) (objs : gmap nat esdm_fragment_t)
    (fs : list esdm_fragment_t) (ft : string) (gs : list grid_t) (target : object) (cst : esdm_data_status_e) (s : store B) :
  plain i = true -> attr_ok a -> (forall b, fill = Some b -> attr_ok b /\ exists ty v, b = smd_attr_fill ty v) -> shape_storable sp names -> unloaded fill sp names target ->
  Forall (storable backendIds sp) fs -> Forall (fun f => key_ok n (extends (dataspace f))) fs -> NoDup ((fun f => extends (dataspace f)) <$> fs) ->
  Forall (grid_of n sp objs fs) gs -> Forall (fun g => (depth g <= 681)%nat) gs -> Forall json_ok (grid_json backendIds objs <$> gs) ->
  text_of (JArray (fragment_json backendIds <$> fs)) ft ->
  let cst' := match names with Some _ => ESDM_DATA_DIRTY | None => cst end in
  exists d objs', esdm_dataset_open_md_parse backendIds target cst s
      ("{" ++ attributes_text a fill ++ "," ++ dataset_tail i sp names ft (map render (grid_json backendIds objs <$> gs))) =
    Done (ESDM_SUCCESS, d, cst', Store objs' (memory s) (disk s)) /\
  o_attr d = Some a /\ o_fill d = fill /\ o_dims_dset_id d = names /\
  o_name d = o_name target /\ o_mode_flags d = o_mode_flags target /\ o_refcount d = o_refcount target /\ reopened n i sp fs gs objs (objects s) d cst' objs'.
Proof.
  intros Hi Ha Hfill Hshape [B1 B2 B3 B4] Hst Hk Hnd Hgs Hdep Hjs Hft cst'. pose proof Hshape as (Hw & Hd & Hsz & Hty & Hnames). pose proof (wf_dims _ Hw) as Hd0.
  pose proof (document_text i sp names _ _ ft Hshape Hi Hft Hjs) as Htext. unfold esdm_dataset_open_md_parse.
  set (tail := dataset_tail i sp names ft _) in *. assert (Etail : exists t, tail = (quoted "id" ++ t)%string) by (by eexists). destruct Etail as [t Et].
  rewrite Et, (parse_attributes_ok target a fill t Ha Hfill B2), <- Et. unfold load_json. rewrite (loads_law _ _ Htext).
  2: by left. 2: { apply document_depth. apply Forall_lookup. intros k g Eg. split; [by destruct (Forall_lookup_1 _ _ _ _ Hgs Eg) | by apply (Forall_lookup_1 _ _ _ _ Hdep Eg)]. }
  cbn [mbind option_bind]. set (doc := JObject _) in *.
  assert (jansson_object_get doc "typ" = Some (JString (smd_type_ser (type sp)))) as -> by done.
  assert (jansson_object_get doc "id" = Some (JString i)) as -> by done.
  assert (jansson_object_get doc "dims" = Some (JInteger (dims sp))) as ->.
  { unfold doc, dataset_members. destruct (Z.eqb_spec (dims sp) 0) as [-> |]; done. }
  assert (jansson_object_get doc "dims_dset_id" = option_map (fun l => JArray (JString <$> l)) names) as ->.
  { unfold doc, dataset_members. by destruct (dims sp =? 0), names. }
  assert (jansson_object_get doc "fragments" = Some (JArray (fragment_json backendIds <$> fs))) as ->.
  { unfold doc, dataset_members. by destruct (dims sp =? 0), names. }
  assert (jansson_object_get doc "grids" = Some (JArray (grid_json backendIds objs <$> gs))) as ->.
  { unfold doc, dataset_members. by destruct (dims sp =? 0), names. }
  cbn [from_option json_integer_value json_string_value mbind option_bind]. run. destruct (type_law (type sp) Hty) as [-> _].
  assert (to_int32 (dims sp) = dims sp) as ->.
  { unfold to_int32. rewrite Z.mod_small by lia. lia. }
  unfold doc. rewrite parse_sizes_ok by done. destruct (newSpace_ok sp Hw) as [-> _]. run.
  destruct (parse_names_ok (setShape (setShape (setAttributes target (Some a) fill) (Some i) (o_space target) (o_actual_size target)) (Some i) (Some (newSpace sp))
    (if existsb (Z.eqb 0) (size sp) then Some (size sp) else o_actual_size target)) cst sp names Hshape eq_refl B4) as (st & En).
  cbn [setAttributes setShape o_space o_actual_size o_id] in En |- *. rewrite En. run. fold cst'.
  match goal with |- context [parse_contents _ ?o _ _ _ _] => set (d1 := o) end.
  destruct (parse_contents_ok n i sp objs fs gs d1 cst' s) as (sizes & tb & ggs & objs' & -> & Hre); try done.
  { cbn. destruct (existsb (Z.eqb 0) (size sp)) eqn:E0; [done | by apply B3]. }
  eexists _, _. split; [done |]. repeat (split; [done |]). exact Hre.
Qed.

(** What loading a text gives: the dataset [d], with the fragments [fs] and the complete grids [gs], whose
    fragments are the objects [objs]. *)
Definition loads_as (n : nat) (i : string) (sp : esdm_dataspace_t) (d : object) (fs : list esdm_fragment_t) (gs : list grid_t) (objs : gmap nat esdm_fragment_t)
    (text : string) : Prop :=
  forall (target : object) (cst : esdm_data_status_e) (s : store B), unloaded (o_fill d) sp (o_dims_dset_id d) target ->
  exists d' objs', let cst' := match o_dims_dset_id d with Some _ => ESDM_DATA_DIRTY | None => cst end in
    esdm_dataset_open_md_parse backendIds target cst s text = Done (ESDM_SUCCESS, d', cst', Store objs' (memory s) (disk s)) /\
    o_attr d' = o_attr d /\ o_fill d' = o_fill d /\ o_dims_dset_id d' = o_dims_dset_id d /\
    o_name d' = o_name target /\ o_mode_flags d' = o_mode_flags target /\ o_refcount d' = o_refcount target /\
    reopened n i sp fs gs objs (objects s) d' cst' objs'.

Lemma metadata_roundtrip_ok (n : nat) (i : string) (a : A) (sp : esdm_dataspace_t) (d : object) (objs : gmap nat esdm_fragment_t) (k : nat) :
  committable n i a sp d objs ->
  exists text ts k' fs,
    esdmI_dataset_metadata_create backendIds makeId d objs k = Done (text, withTrees d ts, k') /\
    Forall2 (grid_rel named eq) (completeGrids (o_grids d)) (completeGrids (o_grids (withTrees d ts))) /\
    entryFragments objs (g_hash_table_entries (o_fragments d)) fs /\
    loads_as n i sp d fs (completeGrids (o_grids (withTrees d ts))) objs text.
Proof.
  intros Hc. destruct (metadata_create_ok n i a sp d objs k Hc) as (fs & ft & ts & k' & E & Hfs & Hft & Hrel & Hjs & _).
  pose proof Hc as [[Ei Hi] [Ea Ha] Hfill _ Hshape Htab Hfr Hreg Hgr Hdep]. pose proof (entries_keys n _ _ _ Htab Hfs) as Hkeys.
  pose proof (completeGrids_complete _ _ Hreg) as Hcg.
  assert (Hboth : forall j g', completeGrids (o_grids (withTrees d ts)) !! j = Some g' -> exists g, completeGrids (o_grids d) !! j = Some g /\ grid_rel named eq g g' /\
    tree_wf g /\ grid_complete g = true).
  { intros j g' Eg'. destruct (Forall2_lookup_r _ _ _ _ _ Hrel Eg') as (g & Eg & Hr). exists g. split; [done |]. split; [done |]. by apply (Forall_lookup_1 _ _ _ _ Hcg Eg). }
  eexists _, ts, k', fs. split; [exact E |]. split; [done |]. split; [done |]. intros target cst s Hu. rewrite Ea.
  apply open_md_parse_ok; try done.
  - apply Forall_lookup. intros j f Ej. destruct (Forall2_lookup_r _ _ _ _ _ Hfs Ej) as ([key v] & Ek & Ev). eapply Hfr; [by eapply list_elem_of_lookup_2 | done].
  - change (Forall (key_ok n ∘ (fun f => extends (dataspace f))) fs). apply Forall_fmap. rewrite <- Hkeys. apply Htab.
  - rewrite <- Hkeys. apply Htab.
  - apply Forall_lookup. intros j g' Eg'. destruct (Hboth j g' Eg') as (g & Eg & Hr & Hw & Hcm). split; [by eapply rel_wf |].
    split; [by rewrite (rel_complete _ _ _ _ Hr) |]. split.
    + pose proof Hr as (-> & _)%grid_rel_iff. destruct (Forall2_lookup_r _ _ _ _ _ (completeGrids_handles _ _ Hreg) Eg) as (h & _ & Eh). by apply (gv_trees _ _ Hreg h g).
    + pose proof (Forall_lookup_1 _ _ _ _ Hgr Eg) as Hall. cbn beta in Hall. eapply grid_all_rel; [exact Hall | exact Hr | intros ? ? (x & -> & _); eauto |].
      intros v ? <- (f & Ef & Hf & Hkf & Hin). exists f. split; [done |]. split; [done |]. split; [done |]. by rewrite <- Hkeys.
  - apply Forall_lookup. intros j g' Eg'. destruct (Hboth j g' Eg') as (g & Eg & Hr & Hw & _). rewrite (rel_depth _ _ _ _ Hw Hr). by apply (Forall_lookup_1 _ _ _ _ Hdep Eg).
Qed.

(** C10: Writing the metadata of a dataset and loading it gives the dataset back: the text of
    [esdmI_dataset_metadata_create()] is accepted by [esdm_dataset_open_md_parse()] for every dataset object that is not loaded, and the
    loaded dataset has the same id, attributes, fill value, dimension names, type and sizes, a fragment with the
    same id, shape, backend and sizes for every fragment of the table and nothing else, the exact
    extent of its unlimited dimensions, and every complete grid, with the fragments of the same shapes in
    its cells.  Memory and storage are not touched, and no other object changes. *)
Theorem metadata_roundtrip (n : nat) (i : string) (a : A) (sp : esdm_dataspace_t) (d : object) (objs : gmap nat esdm_fragment_t) (k : nat) :
  committable n i a sp d objs ->
  exists text ts k' fs,
    esdmI_dataset_metadata_create backendIds makeId d objs k = Done (text, withTrees d ts, k') /\
    Forall2 (grid_rel named eq) (completeGrids (o_grids d)) (completeGrids (o_grids (withTrees d ts))) /\
    entryFragments objs (g_hash_table_entries (o_fragments d)) fs /\
    loads_as n i sp d fs (completeGrids (o_grids (withTrees d ts))) objs text.
Proof. apply metadata_roundtrip_ok. Qed.

End RoundTrip.

(** * An example *)

(** Attributes as a name and numbers. *)
Module PlainSmd.

Definition attribute : Type := string * list Z.

Definition attr_text (a : attribute) : string := (quoted a.1 ++ ":" ++ render (int_array a.2))%string.

Definition attr_read (s : string) : option (nat * attribute) :=
  s1 ← JsonReader.expect dquote s;
  '(name, s2) ← JsonReader.characters s1;
  s3 ← JsonReader.expect ":" s2;
  '(j, rest) ← JsonReader.value (2 * String.length s3) s3;
  Some (String.length s - String.length rest, (name, json_integer_value <$> json_elements j))%nat.

Definition type_text (t : esdm_type_t) : string := (pretty (type_id t) ++ ":" ++ pretty (type_size t))%string.

#[global] Instance smd : Smd attribute := {|
  smd_attr_variables := ("Variables"%string, []);
  smd_attr_fill _ v := ("fill-value"%string, v);
  smd_attr_value a := a.2;
  smd_attr_ser_json := attr_text;
  smd_attr_create_from_json s := default (0%nat, (""%string, [])) (attr_read s);
  smd_type_ser := type_text;
  smd_type_from_ser s := head (filter (fun t => type_text t = s) basicTypes.*1)
|}.

Lemma attr_read_ok (a : attribute) (rest : string) :
  plain a.1 = true -> Forall (fun z => INT64_MIN <= z <= INT64_MAX) a.2 -> attr_read (attr_text a ++ "," ++ rest) = Some (String.length (attr_text a), a).
Proof.
  intros Hp Hz. unfold attr_read, attr_text, quoted. rewrite !string_app_assoc, JsonReader.expect_app. cbn [mbind option_bind].
  rewrite JsonReader.characters_ok by done. cbn [mbind option_bind]. rewrite JsonReader.expect_app. cbn [mbind option_bind].
  assert (Ht : text_of (int_array a.2) (render (int_array a.2))) by (apply text_of_render, json_ok_array, Forall_fmap; done).
  rewrite (JsonReader.value_ok (int_array a.2) _ ("," ++ rest) _ Ht) by (done || (rewrite string_length_app; lia)). cbn [mbind option_bind].
  do 2 f_equal; [rewrite !string_length_app; lia |]. destruct a as [name v]. f_equal. unfold int_array. cbn [json_elements snd]. rewrite <- list_fmap_compose. apply list_fmap_id.
Qed.

#[global] Instance smd_laws : SmdLaws attribute.
Proof.
  refine {| attr_ok a := plain a.1 = true /\ Forall (fun z => INT64_MIN <= z <= INT64_MAX) a.2; type_ok t := t ∈ basicTypes.*1 |}.
  - intros a rest [Hp Hz]. cbn [smd_attr_create_from_json smd smd_attr_ser_json]. by rewrite attr_read_ok.
  - intros ty v. by eexists.
  - done.
  - intros ty Hty. repeat (apply elem_of_cons in Hty as [-> | Hty]; [by vm_compute |]). by apply elem_of_nil in Hty.
Defined.

End PlainSmd.

(** A dataset with an unlimited dimension, named dimensions, two fragments and a grid of both. *)
Module Stored.

Definition space : esdm_dataspace_t := Dataspace SMD_DTYPE_INT16 2 [0; 4] [0; 0] false None.

Definition blocks : grid_t :=
  Grid 2 None 0 (Some [Entry None (Some 0%nat); Entry None (Some 1%nat)]) [Axis 1 0 2 None; Axis 2 0 4 (Some [0; 2; 4])].

Definition object : dataset_object PlainSmd.attribute HashList.hashList :=
  DatasetObject "temperature" (Some "dst"%string) 0 1 ESDM_DATA_DIRTY (Some smd_attr_variables) (Some (smd_attr_fill SMD_DTYPE_INT16 [7; 7])) (Some space)
    (Some [2; 4]) (Some ["time"; "height"]%string) blockTable (DatasetGrids (GridRegistry 1 0 8 [0%nat]) [blocks]).

Definition names (n : nat) : string := "grid"%string.

Lemma blocks_wf : tree_wf blocks.
Proof.
  constructor; [| intros cs [| [| j]] e s [= <-] He Hs; simpl in He; simplify_eq; simpl in Hs; simplify_eq].
  constructor; try done.
  - constructor; try done. change (axes blocks) with [axisOf [0; 2]; axisOf [0; 2; 4]].
    repeat apply Forall_cons_2; try apply Forall_nil_2; (apply axisOf_wf; split; [by repeat constructor | simpl; lia]).
  - constructor; [| by vm_compute]. repeat apply Forall_cons_2; try apply Forall_nil_2; constructor; by vm_compute.
  - by intros cs [= <-].
  - by intros cs [= <-].
  - intros cs [| [| j]] e [= <-] He; simpl in He; simplify_eq; by left.
  - intros cs [| [| j]] e s [= <-] He Hs; simpl in He; simplify_eq; simpl in Hs; simplify_eq.
Qed.

Definition objs : gmap nat esdm_fragment_t := objects blockStore.

Lemma block_storable (v : nat) (f : esdm_fragment_t) :
  objs !! v = Some f -> storable ["posix"%string] space f /\ key_ok 2 (extends (dataspace f)) /\ extends (dataspace f) ∈ blockTable.*1.
Proof.
  intros E. assert (exists i c b, f = blockFragment i c b /\ plain (MapFS.ids i) = true /\ (c = 0 \/ c = 2)) as (i & c & b & -> & Hi & Hc).
  { unfold objs, blockStore in E. cbn [objects] in E. apply lookup_insert_Some in E as [[_ <-] | [_ E]]; [by exists 0%nat, 0, 0%nat; auto |]. apply lookup_singleton_Some in E as [_ <-]. by exists 1%nat, 2, 1%nat; auto. }
  split; [constructor; try done; [by eexists | by exists 0%nat, "posix"%string | apply blockFragment_ok; lia] |].
  assert (Hin : extends (dataspace (blockFragment i c b)) ∈ blockTable.*1) by (destruct Hc as [-> | ->]; vm_compute; [right; left | left]).
  split; [| done]. apply (proj1 (Forall_forall _ _) (tw_keys _ _ (fs_table _ _ _ blockTable_inv)) _ Hin).
Qed.

Lemma stored_committable : committable ["posix"%string] 2 "dst" smd_attr_variables space object objs.
Proof.
  assert (Hcells : forall v, (v < 2)%nat -> exists f, objs !! v = Some f) by (intros [| [| v]] Hv; [by eexists | by eexists | lia]).
  constructor; cbn [object o_id o_attr o_fill o_space o_dims_dset_id o_fragments o_grids].
  - done.
  - split; [done |]. split; [done | constructor].
  - intros b [= <-]. split; [split; [done |] | by eexists SMD_DTYPE_INT16, _]. by repeat constructor.
  - done.
  - split; [by constructor |]. split; [done |]. split; [by repeat constructor |]. split; [vm_compute; right; left |]. intros l [= <-]. split; [done |]. by repeat constructor.
  - exact blockTable_inv.
  - intros key v f _ Ef. by apply block_storable in Ef as [? _].
  - constructor; cbn [registry trees].
    + constructor; try done; [apply NoDup_singleton |]. intros [| k] h [= <-]. done.
    + intros h. cbn [grids length]. rewrite list_elem_of_singleton. lia.
    + intros [| h] g [= <-]. split; [apply blocks_wf | done].
  - apply Forall_singleton. apply (GridAll _ _ blocks _ eq_refl); [done | |].
    + intros j e v Ej Ev. destruct (Hcells v) as [f Ef]; [destruct j as [| [| j]]; simpl in Ej; simplify_eq; simpl in Ev; simplify_eq; lia |].
      exists f. destruct (block_storable v f Ef) as (? & ? & ?). done.
    + intros [| [| j]] e s Ej Es; simpl in Ej; simplify_eq; simpl in Es; simplify_eq.
  - apply Forall_singleton. vm_compute. lia.
Qed.

End Stored.

Lemma metadata_roundtrip_witness :
  exists text ts k' fs,
    esdmI_dataset_metadata_create ["posix"%string] Stored.names Stored.object Stored.objs 0 = Done (text, withTrees Stored.object ts, k') /\
    Forall2 (grid_rel named eq) (completeGrids (o_grids Stored.object)) (completeGrids (o_grids (withTrees Stored.object ts))) /\
    entryFragments Stored.objs blockTable fs /\
    loads_as (B := posix_state (FS := MapFS.mapFS)) ["posix"%string] 2 "dst" Stored.space Stored.object fs (completeGrids (o_grids (withTrees Stored.object ts))) Stored.objs text.
Proof.
  destruct (metadata_roundtrip (B := posix_state (FS := MapFS.mapFS)) ["posix"%string] Stored.names (NoDup_singleton _) (fun _ => eq_refl) 2 "dst" smd_attr_variables Stored.space
    Stored.object Stored.objs 0 Stored.stored_committable) as (text & ts & k' & fs & H1 & H2 & H3 & H4).
  exists text, ts, k', fs. split; [exact H1 |]. split; [exact H2 |]. split; [exact H3 | exact H4].
Defined.
