(* ===== verification/Container.v ===== *)
(** Containers and the life cycle of datasets (src/esdm-datatypes.c): creation, opening, committing,
    closing and deletion, with reference counts and the metadata of a container.  The storage of
    the metadata documents is the interface [MetadataBackend]. *)

From Stdlib Require Import Ascii.
From stdpp Require Import gmap strings pretty.
From S2P Require Import Prelude Memory Hypercube Json JsonText Odometer Dataspace Convert CopyData Partition Grid GridTree GridRegistry GridVisit GridRegion GridCover Fragment FragmentState Posix Fragments Dataset Metadata GridJson DatasetMetadata.

#[local] Set Warnings "-register-all,-notation-for-abbreviation".

Open Scope Z_scope.

(** * The metadata backend *)

(** The callbacks of [esdm_md_backend_t]: containers are known by their name, datasets by their id. *)
Class MetadataBackend (M : Type) := {
  md_container_create : string -> bool -> M -> outcome (esdm_status * M);
  md_container_commit : string -> string -> M -> outcome (esdm_status * M);
  md_container_retrieve : string -> M -> outcome (esdm_status * string * M);
  md_container_remove : string -> M -> outcome (esdm_status * M);
  md_dataset_create : M -> outcome (esdm_status * option string * M);
  md_dataset_commit : string -> string -> M -> outcome (esdm_status * M);
  md_dataset_retrieve : string -> M -> outcome (esdm_status * string * M);
  md_dataset_remove : string -> M -> outcome (esdm_status * M)
}.

(** * Data *)

Definition ESDM_MODE_FLAG_WRITE : Z := 1.

(** [esdm_container_t]; [c_dsets] and [c_buff_size] are the fields of [esdm_datasets_t]. *)
Record container_object (A : Type) := Container {
  c_name : string;
  c_refcount : Z;
  c_mode_flags : Z;
  c_status : esdm_data_status_e;
  c_attr : option A;
  c_dsets : list nat;
  c_buff_size : Z
}.
Arguments Container {A} c_name c_refcount c_mode_flags c_status c_attr c_dsets c_buff_size.
Arguments c_name {A} _.
Arguments c_refcount {A} _.
Arguments c_mode_flags {A} _.
Arguments c_status {A} _.
Arguments c_attr {A} _.
Arguments c_dsets {A} _.
Arguments c_buff_size {A} _.

(** A container with the dataset objects, the fragments and their storage, the metadata backend and
    the number of ids made for grids. *)
Record session (A T B M : Type) := Session {
  container : container_object A;
  dsets : gmap nat (dataset_object A T);
  storage : store B;
  metadata : M;
  gridIds : nat
}.
Arguments Session {A T B M} container dsets storage metadata gridIds.
Arguments container {A T B M} _.
Arguments dsets {A T B M} _.
Arguments storage {A T B M} _.
Arguments metadata {A T B M} _.
Arguments gridIds {A T B M} _.

(** * Operations *)

Section Operations.

Context {A : Type} `{Smd A} {T : Type} `{GHashTable T} `{Jansson} {B : Type} `{DataBackend B} {M : Type} `{MetadataBackend M}.
Context (backendIds : list string) (makeId : nat -> string).

Abbreviation object := (dataset_object A T).
Abbreviation container_t := (container_object A).
Abbreviation session_t := (session A T B M).

Definition setContainer (s : session_t) (c : container_t) : session_t := Session c (dsets s) (storage s) (metadata s) (gridIds s).
Definition setDatasets (s : session_t) (ds : gmap nat object) : session_t := Session (container s) ds (storage s) (metadata s) (gridIds s).
Definition setStorage (s : session_t) (st : store B) : session_t := Session (container s) (dsets s) st (metadata s) (gridIds s).
Definition setMetadata (s : session_t) (m : M) : session_t := Session (container s) (dsets s) (storage s) m (gridIds s).

Definition setStatusC (c : container_t) (status : esdm_data_status_e) : container_t :=
  Container (c_name c) (c_refcount c) (c_mode_flags c) status (c_attr c) (c_dsets c) (c_buff_size c).

(** Handles, status and mode of a dataset. *)
Definition setHandle (o : object) (i : option string) (mode refcount : Z) (status : esdm_data_status_e) (attr : option A) (t : T) : object :=
  DatasetObject (o_name o) i mode refcount status attr (o_fill o) (o_space o) (o_actual_size o) (o_dims_dset_id o) t (o_grids o).

Definition setRefcount (o : object) (refcount : Z) : object := setHandle o (o_id o) (o_mode_flags o) refcount (o_status o) (o_attr o) (o_fragments o).
Definition setStatusD (o : object) (status : esdm_data_status_e) : object := setHandle o (o_id o) (o_mode_flags o) (o_refcount o) status (o_attr o) (o_fragments o).

(** ** Creation *)

(** The mode flags are set by the callers. *)
Definition esdmI_container_init (name : string) (mode_flags : Z) : container_t :=
  Container name 1 mode_flags ESDM_DATA_DIRTY (Some smd_attr_variables) [] 0.

(** A container without datasets is released when the backend refuses it. *)
Definition esdm_container_create (name : string) (allow_overwrite : bool) (m : M) : outcome (esdm_status * option container_t * M) :=
  eassert (negb (bool_decide (name = ""%string)));;
  '(ret, m) ← md_container_create name allow_overwrite m;
  mret (ret, if decide (ret = ESDM_SUCCESS) then Some (esdmI_container_init name ESDM_MODE_FLAG_WRITE) else None, m).

(** [strcmp()] with the name of the dataset at a handle. *)
Definition hasName (ds : gmap nat object) (name : string) (h : nat) : outcome bool :=
  d ← deref (ds !! h); mret (bool_decide (o_name d = name)).

Fixpoint findDataset (ds : gmap nat object) (name : string) (l : list nat) : outcome (option nat) :=
  match l with
  | [] => mret None
  | h :: l' => same ← hasName ds name h; if same : bool then mret (Some h) else findDataset ds name l'
  end.

Definition esdm_container_dataset_exists (s : session_t) (name : string) : outcome bool :=
  r ← findDataset (dsets s) name (c_dsets (container s)); mret (bool_decide (is_Some r)).

Definition esdm_container_dataset_count (s : session_t) : Z := Z.of_nat (length (c_dsets (container s))).

Definition esdm_container_dataset_from_array (s : session_t) (i : Z) : outcome (option nat) :=
  eassert (i >=? 0);;
  mret (if i >=? esdm_container_dataset_count s then None else c_dsets (container s) !! Z.to_nat i).

Definition esdmI_container_register_dataset (s : session_t) (h : nat) : outcome session_t :=
  d ← deref (dsets s !! h);
  let c := container s in
  let size := if c_buff_size c =? Z.of_nat (length (c_dsets c)) then c_buff_size c * 2 + 5 else c_buff_size c in
  if decide (Z.of_nat (length (c_dsets c)) < size) then
    mret (setDatasets (setContainer s (Container (c_name c) (c_refcount c) (c_mode_flags c) (c_status c) (c_attr c) (c_dsets c ++ [h]) size))
            (<[h := setRefcount d (o_refcount d + 1)]> (dsets s)))
  else Undef.

(** [NULL] for the dataspace of a dataset that is not loaded. *)
Definition esdm_dataset_init (name : string) (dspace : option esdm_dataspace_t) : outcome object :=
  space ← match dspace with None => mret None | Some sp => sp ← esdm_dataspace_copy sp; mret (Some sp) end;
  sizes ← match dspace with None => mret [] | Some sp => memdup (size sp) (dims sp) end;
  mret (DatasetObject name None 0 0 ESDM_DATA_DIRTY (Some smd_attr_variables) None space
          (if existsb (Z.eqb 0) sizes then Some sizes else None) None esdmI_fragments_construct (DatasetGrids emptyRegistry [])).

(** The fragments of the table are destroyed with it; the object is released. *)
Definition esdmI_dataset_destroy (s : session_t) (h : nat) : outcome (esdm_status * session_t) :=
  d ← deref (dsets s !! h);
  '(_, st) ← esdmI_fragments_purge (o_fragments d) (storage s);
  mret (ESDM_SUCCESS, setStorage (setDatasets s (delete h (dsets s))) st).

Definition esdm_dataset_create (s : session_t) (name : string) (dspace : esdm_dataspace_t) : outcome (esdm_status * option nat * session_t) :=
  eassert (negb (bool_decide (name = ""%string)));;
  if negb (ea_is_valid_dataset_name name) then mret (ESDM_ERROR, None, s)
  else
    exists_ ← esdm_container_dataset_exists s name;
    if exists_ : bool then mret (ESDM_ERROR, None, s)
    else
      d ← esdm_dataset_init name (Some dspace);
      '(status, i, m) ← md_dataset_create (metadata s);
      let h := fresh (dom (dsets s)) in
      let s := setMetadata (setDatasets s (<[h := setHandle d i ESDM_MODE_FLAG_WRITE (o_refcount d) (o_status d) (o_attr d) (o_fragments d)]> (dsets s))) m in
      if decide (status <> ESDM_SUCCESS) then
        '(_, s) ← esdmI_dataset_destroy s h;
        mret (status, None, s)
      else
        s ← esdmI_container_register_dataset s h;
        mret (ESDM_SUCCESS, Some h, setContainer s (setStatusC (container s) ESDM_DATA_DIRTY)).

(** ** Committing *)

Definition reference_text (ds : gmap nat object) (h : nat) : outcome string :=
  d ← deref (ds !! h);
  i ← deref (o_id d);
  mret ("{" ++ quoted "name" ++ ":" ++ quoted (o_name d) ++ "," ++ quoted "id" ++ ":" ++ quoted i ++ "}")%string.

(** The references of the datasets, each on a line. *)
Definition esdmI_datasets_reference_metadata_create (s : session_t) : outcome string :=
  texts ← mapM (reference_text (dsets s)) (c_dsets (container s));
  mret ("[" ++ join ("," ++ newline) texts ++ "]")%string.

Definition esdmI_container_metadata_create (s : session_t) : outcome string :=
  attr ← deref (c_attr (container s));
  references ← esdmI_datasets_reference_metadata_create s;
  mret ("{" ++ smd_attr_ser_json attr ++ "," ++ quoted "dsets" ++ ":" ++ references ++ "}")%string.

Definition esdm_dataset_commit (s : session_t) (h : nat) : outcome (esdm_status * session_t) :=
  d ← deref (dsets s !! h);
  if decide (o_status d <> ESDM_DATA_DIRTY) then mret (ESDM_SUCCESS, s)
  else
    '(text, d, n) ← esdmI_dataset_metadata_create backendIds makeId (setStatusD d ESDM_DATA_PERSISTENT) (objects (storage s)) (gridIds s);
    i ← deref (o_id d);
    '(ret, m) ← md_dataset_commit i text (metadata s);
    mret (ret, Session (container s) (<[h := d]> (dsets s)) (storage s) m n).

(** The results of the datasets are not looked at. *)
Definition esdm_container_commit (s : session_t) : outcome (esdm_status * session_t) :=
  if decide (c_status (container s) <> ESDM_DATA_DIRTY) then mret (ESDM_SUCCESS, s)
  else
    let s := setContainer s (setStatusC (container s) ESDM_DATA_PERSISTENT) in
    text ← esdmI_container_metadata_create s;
    '(ret, m) ← md_container_commit (c_name (container s)) text (metadata s);
    s ← foldM (fun h s => '(_, s) ← esdm_dataset_commit s h; mret s) (c_dsets (container s)) (setMetadata s m);
    mret (ret, s).

(** ** Opening *)

(** The datasets of a container that is opened are not loaded. *)
Definition esdmI_create_dataset_from_metadata (json : json) : outcome (esdm_status * object) :=
  name ← deref (jansson_object_get json "name" ≫= json_string_value);
  d ← esdm_dataset_init name None;
  i ← deref (jansson_object_get json "id" ≫= json_string_value);
  mret (ESDM_SUCCESS, setHandle d (Some i) (o_mode_flags d) (o_refcount d) ESDM_DATA_NOT_LOADED (o_attr d) (o_fragments d)).

Fixpoint parse_datasets (ds : gmap nat object) (l : list json) : outcome (list nat * gmap nat object) :=
  match l with
  | [] => mret ([], ds)
  | j :: l' =>
      '(_, d) ← esdmI_create_dataset_from_metadata j;
      let h := fresh (dom ds) in
      '(hs, ds) ← parse_datasets (<[h := d]> ds) l';
      mret (h :: hs, ds)
  end.

Definition esdm_container_open_md_parse (c : container_t) (ds : gmap nat object) (md : string) : outcome (esdm_status * container_t * gmap nat object) :=
  let '(parsed, attr) := smd_attr_create_from_json (string_drop 1 md) in
  let js := ("{" ++ string_drop 1 (string_drop (1 + parsed) md))%string in
  let c := Container (c_name c) (c_refcount c) (c_mode_flags c) (c_status c) (Some attr) (c_dsets c) (c_buff_size c) in
  match load_json js ≫= fun r => jansson_object_get r "dsets" with
  | None => mret (ESDM_ERROR, c, ds)
  | Some elem =>
      '(hs, ds) ← parse_datasets ds (json_elements elem);
      mret (ESDM_SUCCESS, Container (c_name c) 1 (c_mode_flags c) ESDM_DATA_PERSISTENT (c_attr c) hs (Z.of_nat (length hs)), ds)
  end.

(** The handle of the container in [session] is replaced by the opened one; a container that cannot
    be opened has no datasets to be released with it. *)
Definition esdm_container_open (name : string) (esdm_mode_flags : Z) (st : store B) (m : M) (n : nat) : outcome (esdm_status * option session_t * M) :=
  if decide (name = ""%string) then mret (ESDM_INVALID_ARGUMENT_ERROR, None, m)
  else
    let c := esdmI_container_init name esdm_mode_flags in
    '(ret, md, m) ← md_container_retrieve name m;
    if decide (ret <> ESDM_SUCCESS) then mret (ret, None, m)
    else
      '(ret, c, ds) ← esdm_container_open_md_parse c ∅ md;
      mret (ret, if decide (ret = ESDM_SUCCESS) then Some (Session c ds st m n) else None, m).

Definition esdm_dataset_ref (s : session_t) (h : nat) : outcome (esdm_status * session_t) :=
  d ← deref (dsets s !! h);
  if decide (o_status d <> ESDM_DATA_NOT_LOADED) then
    mret (ESDM_SUCCESS, setDatasets s (<[h := setRefcount d (o_refcount d + 1)]> (dsets s)))
  else
    i ← deref (o_id d);
    '(ret, md, m) ← md_dataset_retrieve i (metadata s);
    let s := setMetadata s m in
    if decide (ret <> ESDM_SUCCESS) then mret (ret, s)
    else
      '(ret, d, cst, st) ← esdm_dataset_open_md_parse backendIds d (c_status (container s)) (storage s) md;
      let s := setStorage (setContainer s (setStatusC (container s) cst)) st in
      if decide (ret <> ESDM_SUCCESS) then mret (ret, setDatasets s (<[h := d]> (dsets s)))
      else mret (ESDM_SUCCESS, setDatasets s (<[h := setRefcount d (o_refcount d + 1)]> (dsets s))).

Definition esdm_dataset_by_name (s : session_t) (name : string) (esdm_mode_flags : Z) : outcome (esdm_status * option nat * session_t) :=
  if decide (name = ""%string) then mret (ESDM_INVALID_ARGUMENT_ERROR, None, s)
  else
    r ← findDataset (dsets s) name (c_dsets (container s));
    match r with
    | None => mret (ESDM_ERROR, None, s)
    | Some h =>
        d ← deref (dsets s !! h);
        mret (ESDM_SUCCESS, Some h, setDatasets s (<[h := setHandle d (o_id d) esdm_mode_flags (o_refcount d) (o_status d) (o_attr d) (o_fragments d)]> (dsets s)))
    end.

Definition esdm_dataset_open (s : session_t) (name : string) (esdm_mode_flags : Z) : outcome (esdm_status * option nat * session_t) :=
  '(ret, h, s) ← esdm_dataset_by_name s name esdm_mode_flags;
  match h with
  | Some h =>
      '(ret, s) ← esdm_dataset_ref s h;
      mret (ret, if decide (ret = ESDM_SUCCESS) then Some h else None, s)
  | None => mret (ret, None, s)
  end.

(** ** Closing *)

(** [table] tells whether the hash table of the dataset still exists. *)
Definition dataset_close (table : bool) (s : session_t) (h : nat) : outcome (esdm_status * session_t) :=
  d ← deref (dsets s !! h);
  eassert (negb (bool_decide (o_status d = ESDM_DATA_NOT_LOADED)));;
  eassert (o_refcount d >? 0);;
  let d := setRefcount d (o_refcount d - 1) in
  if negb (o_refcount d =? 0) then mret (ESDM_SUCCESS, setDatasets s (<[h := d]> (dsets s)))
  else if decide (o_status d = ESDM_DATA_DIRTY) then mret (ESDM_SUCCESS, setDatasets s (<[h := d]> (dsets s)))
  else
    '(t, st) ← if table then esdmI_fragments_purge (o_fragments d) (storage s) else Undef;
    mret (ESDM_SUCCESS, setStorage (setDatasets s (<[h := setHandle d (o_id d) (o_mode_flags d) (o_refcount d) ESDM_DATA_NOT_LOADED None t]> (dsets s))) st).

Definition esdm_dataset_close : session_t -> nat -> outcome (esdm_status * session_t) := dataset_close true.

Definition destroy_dataset (h : nat) (state : esdm_status * session_t) : outcome (esdm_status * session_t) :=
  let '(ret, s) := state in
  d ← deref (dsets s !! h);
  if o_refcount d <=? 1 then
    '(lret, s) ← esdmI_dataset_destroy s h;
    mret (if decide (lret <> ESDM_SUCCESS) then lret else ret, s)
  else mret (ret, s).

(** The container is released with success only; the other datasets stay. *)
Definition esdmI_container_destroy (s : session_t) : outcome (esdm_status * session_t) :=
  foldM destroy_dataset (c_dsets (container s)) (ESDM_SUCCESS, setContainer s (setStatusC (container s) ESDM_DATA_NOT_LOADED)).

(** The flag tells whether the container has been released. *)
Definition esdm_container_close (s : session_t) : outcome (esdm_status * bool * session_t) :=
  let c := container s in
  if decide (c_status c = ESDM_DATA_NOT_LOADED) then mret (ESDM_SUCCESS, false, s)
  else
    eassert (c_refcount c >? 0);;
    let c := Container (c_name c) (c_refcount c - 1) (c_mode_flags c) (c_status c) (c_attr c) (c_dsets c) (c_buff_size c) in
    let s := setContainer s c in
    if c_refcount c >? 0 then mret (ESDM_SUCCESS, false, s)
    else
      ret ← foldM (fun h ret => d ← deref (dsets s !! h); mret (if negb (o_refcount d =? 0) then ESDM_ERROR else ret)) (c_dsets c) ESDM_SUCCESS;
      if decide (ret = ESDM_SUCCESS) then
        '(lret, s) ← esdmI_container_destroy s;
        mret (ret, bool_decide (lret = ESDM_SUCCESS), s)
      else mret (ret, false, s).

(** ** Deletion *)

Definition esdm_dataset_delete (s : session_t) (h : nat) : outcome (esdm_status * session_t) :=
  d ← deref (dsets s !! h);
  eassert (negb (bool_decide (o_status d = ESDM_DATA_DELETED)));;
  '(ret, s) ← if decide (o_status d = ESDM_DATA_NOT_LOADED) then esdm_dataset_ref s h else mret (ESDM_SUCCESS, s);
  if decide (ret <> ESDM_SUCCESS) then mret (ret, s)
  else
    d ← deref (dsets s !! h);
    '(status, t, st) ← esdmI_fragments_deleteAll (o_fragments d) (storage s);
    let s := setStorage (setDatasets s (<[h := setHandle d (o_id d) (o_mode_flags d) (o_refcount d) (o_status d) (o_attr d) t]> (dsets s))) st in
    if decide (status <> ESDM_SUCCESS) then mret (status, s)
    else
      '(t, st) ← esdmI_fragments_purge t (storage s);
      let s := setStorage (setDatasets s (<[h := setHandle d (o_id d) (o_mode_flags d) (o_refcount d) ESDM_DATA_DELETED (o_attr d) t]> (dsets s))) st in
      i ← deref (o_id d);
      '(status, m) ← md_dataset_remove i (metadata s);
      '(_, s) ← dataset_close false (setMetadata s m) h;
      mret (status, s).

(** A failure for the first dataset is returned at once. *)
Fixpoint delete_datasets (first : bool) (hs : list nat) (ret : esdm_status) (s : session_t) : outcome (option esdm_status * esdm_status * session_t) :=
  match hs with
  | [] => mret (None, ret, s)
  | h :: hs' =>
      '(status, s) ← esdm_dataset_delete s h;
      if decide (status <> ESDM_SUCCESS) then if first then mret (Some status, ret, s) else delete_datasets false hs' status s
      else delete_datasets false hs' ret s
  end.

Definition esdm_container_delete (s : session_t) : outcome (esdm_status * session_t) :=
  eassert (negb (bool_decide (c_status (container s) = ESDM_DATA_DELETED)));;
  '(early, ret, s) ← delete_datasets true (c_dsets (container s)) ESDM_SUCCESS s;
  match early with
  | Some status => mret (status, s)
  | None =>
      let c := container s in
      let s := setContainer s (Container (c_name c) (c_refcount c) (c_mode_flags c) ESDM_DATA_DELETED (c_attr c) [] (c_buff_size c)) in
      '(status, m) ← md_container_remove (c_name c) (metadata s);
      '(_, _, s) ← esdm_container_close (setMetadata s m);
      mret (if decide (status <> ESDM_SUCCESS) then status else ret, s)
  end.

(** Whether there is a container with datasets. *)
Definition esdm_container_probe (name : string) (st : store B) (m : M) (n : nat) : outcome (bool * M) :=
  '(ret, s, m) ← esdm_container_open name 0 st m n;
  match s with
  | None => mret (false, m)
  | Some s =>
      let counts := esdm_container_dataset_count s in
      '(_, _, s) ← esdm_container_close s;
      mret (counts >? 0, metadata s)
  end.

(** ** Names *)

Definition setName (o : object) (name : string) : object :=
  DatasetObject name (o_id o) (o_mode_flags o) (o_refcount o) (o_status o) (o_attr o) (o_fill o) (o_space o) (o_actual_size o) (o_dims_dset_id o) (o_fragments o) (o_grids o).

Definition esdm_dataset_rename (s : session_t) (h : nat) (name : string) : outcome (esdm_status * session_t) :=
  d ← deref (dsets s !! h);
  r ← findDataset (dsets s) name (c_dsets (container s));
  if decide (is_Some r) then mret (ESDM_ERROR, s)
  else mret (ESDM_SUCCESS, setContainer (setDatasets s (<[h := setName d name]> (dsets s))) (setStatusC (container s) ESDM_DATA_DIRTY)).

(** The name is stored before it is checked. *)
Definition esdm_dataset_rename_dim (s : session_t) (h : nat) (name : string) (i : Z) : outcome (esdm_status * session_t) :=
  d ← deref (dsets s !! h);
  eassert (i >=? 0);;
  space ← deref (o_space d);
  eassert (i <? dims space);;
  names ← deref (o_dims_dset_id d);
  _ ← deref (names !! Z.to_nat i);
  let names := <[Z.to_nat i := name]> names in
  '(ret, d, cst) ← esdm_dataset_name_dims (setDims d (Some names) (o_status d)) (c_status (container s)) (Some <$> names);
  mret (ret, setContainer (setDatasets s (<[h := d]> (dsets s))) (setStatusC (container s) cst)).

Definition esdm_dataset_set_status_dirty (d : object) : outcome object :=
  eassert (bool_decide (o_status d = ESDM_DATA_DIRTY) || bool_decide (o_status d = ESDM_DATA_PERSISTENT));;
  mret (setStatusD d ESDM_DATA_DIRTY).

Definition esdm_container_set_status_dirty (c : container_t) : outcome container_t :=
  eassert (bool_decide (c_status c = ESDM_DATA_DIRTY) || bool_decide (c_status c = ESDM_DATA_PERSISTENT));;
  mret (setStatusC c ESDM_DATA_DIRTY).

Definition esdm_dataset_get_name_dims (d : object) : esdm_status * option (list string) :=
  match o_dims_dset_id d with Some names => (ESDM_SUCCESS, Some names) | None => (ESDM_ERROR, None) end.

Definition esdm_dataset_get_actual_size (d : object) : outcome (list Z) :=
  match o_actual_size d with Some sizes => mret sizes | None => space ← deref (o_space d); mret (size space) end.

End Operations.

(** * What the metadata backend promises *)

Inductive document := ContainerDocument (name : string) | DatasetDocument (i : string).

#[global] Instance document_eq_dec : EqDecision document.
Proof. solve_decision. Defined.

Section Interface.

Context {M : Type} `{MetadataBackend M}.

Definition md_commit (doc : document) : string -> M -> outcome (esdm_status * M) :=
  match doc with ContainerDocument name => md_container_commit name | DatasetDocument i => md_dataset_commit i end.

Definition md_retrieve (doc : document) : M -> outcome (esdm_status * string * M) :=
  match doc with ContainerDocument name => md_container_retrieve name | DatasetDocument i => md_dataset_retrieve i end.

Definition md_remove (doc : document) : M -> outcome (esdm_status * M) :=
  match doc with ContainerDocument name => md_container_remove name | DatasetDocument i => md_dataset_remove i end.

End Interface.

(** Documents are stored independently of each other.  Every call may fail; a commit or removal that
    fails leaves its own document in an unknown state. *)
Class MetadataBackendLaws (M : Type) `{MetadataBackend M} := {
  md_stored : M -> document -> option string;
  md_valid : document -> Prop;
  commit_law doc text m : md_valid doc -> exists st m', md_commit doc text m = Done (st, m') /\
    (forall doc', doc' <> doc -> md_stored m' doc' = md_stored m doc') /\ (st = ESDM_SUCCESS -> md_stored m' doc = Some text);
  retrieve_law doc text m : md_valid doc -> md_stored m doc = Some text -> exists st t m', md_retrieve doc m = Done (st, t, m') /\
    (forall doc', md_stored m' doc' = md_stored m doc') /\ (st = ESDM_SUCCESS -> t = text);
  md_remove_law doc m : md_valid doc -> exists st m', md_remove doc m = Done (st, m') /\
    (forall doc', doc' <> doc -> md_stored m' doc' = md_stored m doc') /\ (st = ESDM_SUCCESS -> md_stored m' doc = None);
  container_create_law name overwrite m : md_valid (ContainerDocument name) -> exists st m', md_container_create name overwrite m = Done (st, m') /\
    (forall doc', doc' <> ContainerDocument name \/ st <> ESDM_SUCCESS -> md_stored m' doc' = md_stored m doc') /\
    (st = ESDM_SUCCESS -> md_stored m' (ContainerDocument name) = Some ""%string /\ (overwrite = false -> md_stored m (ContainerDocument name) = None));
  dataset_create_law m : exists st i m', md_dataset_create m = Done (st, i, m') /\ (forall doc', md_stored m' doc' = md_stored m doc') /\
    (st = ESDM_SUCCESS -> exists x, i = Some x /\ md_valid (DatasetDocument x) /\ md_stored m (DatasetDocument x) = None)
}.

(** * Committing and opening again *)

Section Reopen.

Context {A : Type} `{SmdLaws A} {T : Type} `{GHashTableLaws T} `{JanssonLaws} {B : Type} {M : Type} `{MetadataBackendLaws M}.
Context (backendIds : list string) (makeId : nat -> string).
Hypothesis Hids : NoDup backendIds.
Hypothesis Hmake : forall n, plain (makeId n) = true.

Abbreviation object := (dataset_object A T).
Abbreviation session_t := (session A T B M).

(** A dataset with a name and an id that can be stored; if it is dirty, so can its metadata be. *)
Record dataset_storable (objs : gmap nat esdm_fragment_t) (d : object) : Prop := {
  dt_id : exists i, o_id d = Some i /\ plain i = true /\ md_valid (DatasetDocument i);
  dt_name : plain (o_name d) = true /\ o_name d <> ""%string;
  dt_dirty : o_status d = ESDM_DATA_DIRTY -> exists n i a sp, committable backendIds n i a sp d objs
}.

(** A container whose datasets have distinct names and ids and can be stored. *)
Record session_ok (s : session_t) : Prop := {
  so_name : c_name (container s) <> ""%string /\ md_valid (ContainerDocument (c_name (container s)));
  so_attr : exists a, c_attr (container s) = Some a /\ attr_ok a;
  so_nodup : NoDup (c_dsets (container s));
  so_dsets : forall h, h ∈ c_dsets (container s) -> exists d, dsets s !! h = Some d /\ dataset_storable (objects (storage s)) d;
  so_names : forall h h' d d', h ∈ c_dsets (container s) -> h' ∈ c_dsets (container s) -> dsets s !! h = Some d -> dsets s !! h' = Some d' ->
    o_name d = o_name d' -> h = h';
  so_ids : forall h h' d d', h ∈ c_dsets (container s) -> h' ∈ c_dsets (container s) -> dsets s !! h = Some d -> dsets s !! h' = Some d' -> o_id d = o_id d' -> h = h'
}.

(** Same dataset, apart from the status and the ids of the grids. *)
Definition kept (d d' : object) : Prop := o_name d' = o_name d /\ o_id d' = o_id d.

(** ** One dataset *)

Lemma dataset_commit_ok (s : session_t) (h : nat) (d : object) (i : string) :
  dsets s !! h = Some d -> o_id d = Some i -> dataset_storable (objects (storage s)) d ->
  exists st d' m' k', esdm_dataset_commit backendIds makeId s h = Done (st, Session (container s) (<[h := d']> (dsets s)) (storage s) m' k') /\
  kept d d' /\ o_status d' <> ESDM_DATA_DIRTY /\ (o_status d = ESDM_DATA_DIRTY -> exists ts, d' = withTrees (setStatusD d ESDM_DATA_PERSISTENT) ts) /\
  (forall doc, doc <> DatasetDocument i \/ o_status d <> ESDM_DATA_DIRTY -> md_stored m' doc = md_stored (metadata s) doc) /\
  (forall n a sp, o_status d = ESDM_DATA_DIRTY -> st = ESDM_SUCCESS -> committable backendIds n i a sp d (objects (storage s)) ->
   exists text fs gs, md_stored m' (DatasetDocument i) = Some text /\ entryFragments (objects (storage s)) (g_hash_table_entries (o_fragments d)) fs /\
   Forall2 (grid_rel named eq) (completeGrids (o_grids d)) gs /\ loads_as (B := B) backendIds n i sp d fs gs (objects (storage s)) text).
Proof.
  intros Ed Ei [(i' & Ei' & _ & Hv) _ Hdirty]. rewrite Ei in Ei'. injection Ei' as <-. unfold esdm_dataset_commit. rewrite Ed. run.
  case_decide as Hst.
  - exists ESDM_SUCCESS, d, (metadata s), (gridIds s). split; [by destruct s; cbn in *; rewrite insert_id |]. split; [done |]. split; [done |]. split; [done |]. split; [done |]. done.
  - destruct (Hdirty ltac:(tauto)) as (n0 & i0 & a0 & sp0 & Hc0).
    assert (Hst' : o_status d = ESDM_DATA_DIRTY) by tauto.
    assert (Hcm : forall n i a sp, committable backendIds n i a sp d (objects (storage s)) -> committable backendIds n i a sp (setStatusD d ESDM_DATA_PERSISTENT) (objects (storage s))).
    { intros n j a sp [? ? ? ? ? ? ? ? ? ?]. by constructor. }
    destruct (metadata_roundtrip_ok (B := B) backendIds makeId Hids Hmake _ _ _ _ _ _ (gridIds s) (Hcm _ _ _ _ Hc0)) as (text & ts & k' & fs & E & Hrel & Hfs & Hload).
    rewrite E. run. change (o_id (withTrees (setStatusD d ESDM_DATA_PERSISTENT) ts)) with (o_id d). rewrite Ei. run.
    destruct (commit_law (DatasetDocument i) text (metadata s) Hv) as (st & m' & Em & Hoth & Hsucc). cbn [md_commit] in Em. rewrite Em. run.
    eexists st, _, m', k'. split; [done |]. split; [done |]. split; [done |]. split; [by eexists |]. split; [intros doc [Hd | Hn]; [by apply Hoth | done] |].
    intros n a sp _ Hs Hc. destruct (metadata_roundtrip_ok (B := B) backendIds makeId Hids Hmake _ _ _ _ _ _ (gridIds s) (Hcm _ _ _ _ Hc)) as (text2 & ts2 & k2 & fs2 & E2 & Hrel2 & Hfs2 & Hload2).
    rewrite E2 in E. injection E as -> -> ->. eexists text, fs2, _. split; [by apply Hsucc |]. split; [exact Hfs2 |]. split; [exact Hrel2 |]. exact Hload2.
Qed.

(** ** The datasets of a container *)

Lemma commits_ok (hs : list nat) (s : session_t) :
  NoDup hs -> (forall h, h ∈ hs -> exists d, dsets s !! h = Some d /\ dataset_storable (objects (storage s)) d) ->
  exists s', foldM (fun h s => '(_, s) ← esdm_dataset_commit backendIds makeId s h; mret s) hs s = Done s' /\ container s' = container s /\ storage s' = storage s /\
  forall doc, (forall h d, h ∈ hs -> dsets s !! h = Some d -> o_status d = ESDM_DATA_DIRTY -> option_map DatasetDocument (o_id d) <> Some doc) ->
    md_stored (metadata s') doc = md_stored (metadata s) doc.
Proof.
  intros Hnd. revert s. induction Hnd as [| h hs Hni Hnd IH]; intros s Hall; cbn [foldM]; [by exists s |].
  destruct (Hall h) as (d & Ed & Hst); [by left |]. pose proof (dt_id _ _ Hst) as (i & Ei & _).
  destruct (dataset_commit_ok s h d i Ed Ei Hst) as (st & d' & m' & k' & -> & _ & _ & _ & Hdoc & _). run.
  destruct (IH (Session (container s) (<[h := d']> (dsets s)) (storage s) m' k')) as (s' & -> & Hc & Hs & Hdocs).
  { intros h' Hin. cbn [dsets storage]. rewrite lookup_insert_ne by (intros ->; done). apply Hall. by right. }
  exists s'. split; [done |]. split; [done |]. split; [done |]. intros doc Hd. rewrite Hdocs.
  - cbn [metadata]. apply Hdoc. destruct (decide (o_status d = ESDM_DATA_DIRTY)) as [Hdirty |]; [left | by right]. intros ->.
    apply (Hd h d); [by left | done | done |]. by rewrite Ei.
  - cbn [dsets]. intros h' d0 Hin E0 Hdirty. rewrite lookup_insert_ne in E0 by (intros ->; done). apply (Hd h' d0); [by right | done | done].
Qed.

(** ** The document of a container *)

(** Name and id of a dataset. *)
Definition reference_json (r : string * string) : json := JObject [("name"%string, JString r.1); ("id"%string, JString r.2)].

Definition referenced (s : session_t) (h : nat) (r : string * string) : Prop :=
  exists d, dsets s !! h = Some d /\ o_name d = r.1 /\ o_id d = Some r.2 /\ plain r.1 = true /\ plain r.2 = true /\ r.1 <> ""%string.

Lemma references_exist (s : session_t) : session_ok s -> exists refs, Forall2 (referenced s) (c_dsets (container s)) refs.
Proof.
  intros [_ _ _ Hds _ _]. assert (Hall : Forall (fun h => exists r, referenced s h r) (c_dsets (container s))).
  { apply Forall_forall. intros h Hin. destruct (Hds h Hin) as (d & Ed & [(i & Ei & Hi & _) [Hn Hne] _]). exists (o_name d, i). by exists d. }
  clear Hds. induction Hall as [| h hs [r Hr] _ [refs IH]]; [exists []; constructor | exists (r :: refs); by constructor].
Qed.

Definition container_text (a : A) (refs : list (string * string)) : string :=
  ("{" ++ smd_attr_ser_json a ++ "," ++ quoted "dsets" ++ ":" ++ "[" ++ join ("," ++ newline) (render ∘ reference_json <$> refs) ++ "]" ++ "}")%string.

Lemma container_metadata_ok (s : session_t) (a : A) (refs : list (string * string)) :
  c_attr (container s) = Some a -> Forall2 (referenced s) (c_dsets (container s)) refs ->
  esdmI_container_metadata_create s = Done (container_text a refs).
Proof.
  intros Ea Hrefs. unfold esdmI_container_metadata_create, esdmI_datasets_reference_metadata_create. rewrite Ea. run.
  assert (mapM (reference_text (dsets s)) (c_dsets (container s)) = Done (render ∘ reference_json <$> refs)) as ->.
  { clear Ea. induction Hrefs as [| h r hs refs (d & Ed & En & Ei & _) _ IH]; [done |]. rewrite mapM_cons, IH. unfold reference_text. rewrite Ed. run. rewrite Ei. run.
    rewrite fmap_cons. do 2 f_equal. rewrite En. cbn [compose render reference_json map commas fst snd]. by rewrite !string_app_assoc. }
  run. unfold container_text. by rewrite !string_app_assoc.
Qed.

(** A dataset of a container that was opened. *)
Definition newDataset (r : string * string) : object :=
  DatasetObject r.1 (Some r.2) 0 0 ESDM_DATA_NOT_LOADED (Some smd_attr_variables) None None None None esdmI_fragments_construct (DatasetGrids emptyRegistry []).

Lemma parse_datasets_ok (refs : list (string * string)) (ds : gmap nat object) :
  exists hs ds', parse_datasets ds (reference_json <$> refs) = Done (hs, ds') /\ ds ⊆ ds' /\ Forall2 (fun h r => ds !! h = None /\ ds' !! h = Some (newDataset r)) hs refs.
Proof.
  revert ds. induction refs as [| r refs IH]; intros ds; cbn [fmap list_fmap parse_datasets]; [by exists [], ds |].
  assert (esdmI_create_dataset_from_metadata (reference_json r) = Done (ESDM_SUCCESS, newDataset r)) as -> by reflexivity. run.
  set (h := fresh (dom ds)). assert (Hh : ds !! h = None) by (apply not_elem_of_dom, is_fresh).
  destruct (IH (<[h := newDataset r]> ds)) as (hs & ds' & E & Hsub & Hall). rewrite E. run. exists (h :: hs), ds'. split; [done |].
  split; [etransitivity; [by apply insert_subseteq | exact Hsub] |]. constructor.
  - split; [done |]. eapply lookup_weaken; [apply lookup_insert_eq | exact Hsub].
  - eapply Forall2_impl; [exact Hall |]. intros h' r' [Hn Hs]. split; [| done]. by apply lookup_insert_None in Hn as [? _].
Qed.

Lemma container_parse_ok (name : string) (flags : Z) (a : A) (refs : list (string * string)) :
  attr_ok a -> Forall (fun r => plain r.1 = true /\ plain r.2 = true) refs ->
  exists hs ds, esdm_container_open_md_parse (T := T) (esdmI_container_init name flags) ∅ (container_text a refs) =
    Done (ESDM_SUCCESS, Container name 1 flags ESDM_DATA_PERSISTENT (Some a) hs (Z.of_nat (length hs)), ds) /\
  Forall2 (fun h r => ds !! h = Some (newDataset r)) hs refs.
Proof.
  intros Ha Hp. unfold esdm_container_open_md_parse, container_text. change (string_drop 1 ("{" ++ ?x)) with x. rewrite attr_law by done.
  change (string_drop (1 + ?m) ("{" ++ ?x)) with (string_drop m x). rewrite string_drop_app. change (string_drop 1 ("," ++ ?x)) with x.
  assert (Ht : text_of (JObject [("dsets"%string, JArray (reference_json <$> refs))])
    ("{" ++ quoted "dsets" ++ ":" ++ "[" ++ join ("," ++ newline) (render ∘ reference_json <$> refs) ++ "]" ++ "}")%string).
  { pose proof (text_of_object [("dsets"%string, JArray (reference_json <$> refs))] [(quoted "dsets" ++ ":" ++ "[" ++ join ("," ++ newline) (render ∘ reference_json <$> refs) ++ "]")%string]) as Ho.
    cbn [join] in Ho. rewrite !string_app_assoc in Ho. apply Ho. constructor; [| constructor]. apply member_textI; [done |]. apply text_of_array; [by right |].
    apply Forall2_fmap, Forall_Forall2_diag. eapply Forall_impl; [exact Hp |]. intros r [H1' H2']. apply text_of_render, json_ok_object.
    apply Forall_cons; split; [done |]. by apply Forall_singleton. }
  unfold load_json. rewrite (loads_law _ _ Ht) by first [by left | cbn [json_depth foldr snd]; rewrite Nat.max_0_r;
    cut (foldr (fun x k => Nat.max (json_depth x) k) 0%nat (reference_json <$> refs) <= 1)%nat; [lia |]; apply foldr_max_le, Forall_fmap, Forall_true; intros r; cbn; lia].
  cbn [mbind option_bind]. change (jansson_object_get _ "dsets") with (Some (JArray (reference_json <$> refs))). cbn [json_elements].
  destruct (parse_datasets_ok refs ∅) as (hs & ds & -> & _ & Hall). run. exists hs, ds. split; [done |]. eapply Forall2_impl; [exact Hall |]. by intros h r [_ ?].
Qed.

(** ** Finding a dataset by its name *)

Lemma findDataset_ok (ds : gmap nat object) (hs : list nat) (refs : list (string * string)) (k : nat) (h : nat) (r : string * string) :
  Forall2 (fun h r => exists d, ds !! h = Some d /\ o_name d = r.1) hs refs -> NoDup refs.*1 -> hs !! k = Some h -> refs !! k = Some r -> findDataset ds r.1 hs = Done (Some h).
Proof.
  intros Hall. revert k. induction Hall as [| h' r' hs refs (d & Ed & En) _ IH]; intros k Hnd Eh Er; [done |].
  cbn [findDataset]. unfold hasName. rewrite Ed. run. rewrite En. rewrite fmap_cons in Hnd. apply NoDup_cons in Hnd as [Hni Hnd]. destruct k as [| k].
  - injection Eh as <-. injection Er as <-. by rewrite bool_decide_eq_true_2.
  - rewrite bool_decide_eq_false_2; [by apply (IH k) |]. intros E. apply Hni. rewrite E. apply list_elem_of_fmap. exists r. split; [done |]. by eapply list_elem_of_lookup_2.
Qed.

(** ** The container *)

Lemma session_ok_kept (s : session_t) (h : nat) (d d' : object) (m : M) (k : nat) :
  session_ok s -> dsets s !! h = Some d -> kept d d' -> o_status d' <> ESDM_DATA_DIRTY ->
  session_ok (Session (container s) (<[h := d']> (dsets s)) (storage s) m k).
Proof.
  intros [S1 S2 S3 S4 S5 S6] Ed [Kn Ki] Hst.
  assert (Hback : forall x e', <[h := d']> (dsets s) !! x = Some e' -> exists e, dsets s !! x = Some e /\ kept e e').
  { intros x e' E. apply lookup_insert_Some in E as [[<- <-] | [_ E]]; [by exists d | by exists e']. }
  constructor; cbn [container dsets storage]; try done.
  - intros x Hx. destruct (decide (x = h)) as [-> | Hne]; [| rewrite lookup_insert_ne by done; by apply S4]. rewrite lookup_insert_eq. exists d'. split; [done |].
    destruct (S4 h Hx) as (e & Ee & [D1 D2 D3]). rewrite Ed in Ee. injection Ee as <-. constructor; [by rewrite Ki | by rewrite Kn | done].
  - intros x y e f Hx Hy Ex Ey En. apply Hback in Ex as (e0 & Ex & [Ke _]). apply Hback in Ey as (f0 & Ey & [Kf _]). apply (S5 x y e0 f0); congruence.
  - intros x y e f Hx Hy Ex Ey En. apply Hback in Ex as (e0 & Ex & [_ Ke]). apply Hback in Ey as (f0 & Ey & [_ Kf]). apply (S6 x y e0 f0); congruence.
Qed.

Lemma container_commit_ok (s : session_t) (a : A) (refs : list (string * string)) :
  session_ok s -> c_status (container s) = ESDM_DATA_DIRTY -> c_attr (container s) = Some a -> Forall2 (referenced s) (c_dsets (container s)) refs ->
  exists st s', esdm_container_commit backendIds makeId s = Done (st, s') /\ storage s' = storage s /\
  (st = ESDM_SUCCESS -> md_stored (metadata s') (ContainerDocument (c_name (container s))) = Some (container_text a refs)) /\
  (forall i, (forall h d, h ∈ c_dsets (container s) -> dsets s !! h = Some d -> o_status d = ESDM_DATA_DIRTY -> o_id d <> Some i) ->
    md_stored (metadata s') (DatasetDocument i) = md_stored (metadata s) (DatasetDocument i)).
Proof.
  intros Hok Hst Ea Hrefs. pose proof Hok as [[_ S1] _ S3 S4 _ _]. unfold esdm_container_commit. rewrite decide_False by tauto.
  set (s1 := setContainer s (setStatusC (container s) ESDM_DATA_PERSISTENT)). rewrite (container_metadata_ok s1 a refs Ea Hrefs). run.
  destruct (commit_law (ContainerDocument (c_name (container s))) (container_text a refs) (metadata s) S1) as (st & m' & Em & Hoth & Hsucc).
  cbn [md_commit] in Em. change (c_name (container s1)) with (c_name (container s)). change (metadata s1) with (metadata s). rewrite Em. run.
  destruct (commits_ok (c_dsets (container s)) (setMetadata s1 m') S3) as (s' & E & _ & Hs & Hdocs); [exact S4 |].
  change (c_dsets (container s1)) with (c_dsets (container s)). rewrite E. run. exists st, s'. split; [done |]. split; [exact Hs |]. split.
  - intros Hs'. rewrite Hdocs; [by apply Hsucc |]. intros h d _ _ _. by destruct (o_id d).
  - intros i Hi. rewrite Hdocs; [by apply Hoth |]. intros h d Hin Ed Hd Ec. apply (Hi h d Hin Ed Hd). destruct (o_id d); [| done]. by injection Ec as ->.
Qed.

(** A container that is opened has the stored attributes and datasets, none of which is loaded. *)
Lemma container_open_ok (name : string) (flags : Z) (a : A) (refs : list (string * string)) (st : store B) (m : M) (k : nat) :
  name <> ""%string -> md_valid (ContainerDocument name) -> md_stored m (ContainerDocument name) = Some (container_text a refs) -> attr_ok a ->
  Forall (fun r => plain r.1 = true /\ plain r.2 = true) refs ->
  exists ret r m', esdm_container_open name flags st m k = Done (ret, r, m') /\ (forall doc, md_stored m' doc = md_stored m doc) /\
  (ret = ESDM_SUCCESS -> exists hs ds, r = Some (Session (Container name 1 flags ESDM_DATA_PERSISTENT (Some a) hs (Z.of_nat (length hs))) ds st m' k) /\
   Forall2 (fun h r => ds !! h = Some (newDataset r)) hs refs).
Proof.
  intros Hne Hv Hst Ha Hp. unfold esdm_container_open. rewrite decide_False by done.
  destruct (retrieve_law (ContainerDocument name) (container_text a refs) m Hv Hst) as (ret & t & m' & E & Hsame & Hsucc). cbn [md_retrieve] in E. rewrite E. run.
  destruct (decide (ret = ESDM_SUCCESS)) as [-> | Hret]; [rewrite decide_False by tauto | rewrite decide_True by done; by eexists _, _, _]. rewrite (Hsucc eq_refl).
  destruct (container_parse_ok name flags a refs Ha Hp) as (hs & ds & -> & Hall). run. rewrite decide_True by done. eexists _, _, _. split; [done |]. split; [done |].
  intros _. by exists hs, ds.
Qed.

(** ** Loading a dataset *)

Lemma dataset_ref_ok (s : session_t) (h : nat) (target d : object) (n : nat) (i : string) (sp : esdm_dataspace_t) (fs : list esdm_fragment_t) (gs : list grid_t)
    (objs : gmap nat esdm_fragment_t) (text : string) :
  dsets s !! h = Some target -> o_status target = ESDM_DATA_NOT_LOADED -> o_id target = Some i -> unloaded (o_fill d) sp (o_dims_dset_id d) target ->
  md_valid (DatasetDocument i) -> md_stored (metadata s) (DatasetDocument i) = Some text -> loads_as (B := B) backendIds n i sp d fs gs objs text ->
  exists ret s', esdm_dataset_ref backendIds s h = Done (ret, s') /\ (forall doc, md_stored (metadata s') doc = md_stored (metadata s) doc) /\
  (ret = ESDM_SUCCESS -> exists d', dsets s' = <[h := d']> (dsets s) /\ o_attr d' = o_attr d /\ o_fill d' = o_fill d /\ o_dims_dset_id d' = o_dims_dset_id d /\
   o_name d' = o_name target /\ o_mode_flags d' = o_mode_flags target /\ o_refcount d' = o_refcount target + 1 /\
   reopened n i sp fs gs objs (objects (storage s)) d' (c_status (container s')) (objects (storage s')) /\
   memory (storage s') = memory (storage s) /\ disk (storage s') = disk (storage s)).
Proof.
  intros Et Hst Hi Hu Hv Htext Hload. unfold esdm_dataset_ref. rewrite Et. run. rewrite decide_False by tauto. rewrite Hi. run.
  destruct (retrieve_law (DatasetDocument i) text (metadata s) Hv Htext) as (ret & t & m' & E & Hsame & Hsucc). cbn [md_retrieve] in E. rewrite E. run.
  destruct (decide (ret = ESDM_SUCCESS)) as [-> | Hret]; [rewrite decide_False by tauto | rewrite decide_True by done; by eexists _, _]. rewrite (Hsucc eq_refl).
  destruct (Hload target (c_status (container s)) (storage s) Hu) as (d' & objs' & Ep & P1 & P2 & P3 & P4 & P5 & P6 & Hre).
  change (c_status (container (setMetadata s m'))) with (c_status (container s)). change (storage (setMetadata s m')) with (storage s). rewrite Ep. run.
  rewrite decide_False by tauto. eexists _, _. split; [done |]. split; [done |]. intros _. exists (setRefcount d' (o_refcount d' + 1)).
  cbn [setRefcount setHandle o_attr o_fill o_dims_dset_id o_name o_mode_flags o_refcount]. rewrite P6.
  do 7 (split; [done |]). split; [| done]. destruct Hre as [R1 R2 R3 R4 R5 R6 R7]. by constructor.
Qed.

(** The dataset [d] as it was opened at the handle [h] of [s]: its fragments are new objects besides those of
    [old], and nothing was read from or written to the data backends. *)
Definition opened (n : nat) (i : string) (sp : esdm_dataspace_t) (d : object) (mode : Z) (objs : gmap nat esdm_fragment_t) (old : store B) (s : session_t) (h : nat) : Prop :=
  exists d' fs gs, dsets s !! h = Some d' /\ o_name d' = o_name d /\ o_attr d' = o_attr d /\ o_fill d' = o_fill d /\ o_dims_dset_id d' = o_dims_dset_id d /\
  o_mode_flags d' = mode /\ o_refcount d' = 1 /\ entryFragments objs (g_hash_table_entries (o_fragments d)) fs /\
  Forall2 (grid_rel named eq) (completeGrids (o_grids d)) gs /\
  reopened n i sp fs gs objs (objects old) d' (c_status (container s)) (objects (storage s)) /\
  memory (storage s) = memory old /\ disk (storage s) = disk old.

(** The container at [s'] has the attributes and the datasets of [s]. *)
Definition same_contents (s s' : session_t) : Prop :=
  c_name (container s') = c_name (container s) /\ c_attr (container s') = c_attr (container s) /\
  Forall2 (fun h h' => exists d d', dsets s !! h = Some d /\ dsets s' !! h' = Some d' /\ kept d d' /\ o_status d' = ESDM_DATA_NOT_LOADED /\ o_refcount d' = 0)
    (c_dsets (container s)) (c_dsets (container s')).

Lemma refs_names (s : session_t) (refs : list (string * string)) : session_ok s -> Forall2 (referenced s) (c_dsets (container s)) refs -> NoDup refs.*1.
Proof.
  intros [_ _ S3 _ S5 _] Hrefs. apply NoDup_alt. intros j k x Ej Ek. rewrite list_lookup_fmap in Ej, Ek.
  destruct (refs !! j) as [r |] eqn:Er; [| done]. destruct (refs !! k) as [r' |] eqn:Er'; [| done]. injection Ej as <-. injection Ek as Ek.
  destruct (Forall2_lookup_r _ _ _ _ _ Hrefs Er) as (h & Eh & d & Ed & En & _). destruct (Forall2_lookup_r _ _ _ _ _ Hrefs Er') as (h' & Eh' & d' & Ed' & En' & _).
  apply (NoDup_lookup _ j k h S3 Eh). rewrite (S5 h h' d d'); [done | by eapply list_elem_of_lookup_2 | by eapply list_elem_of_lookup_2 | done | done | congruence].
Qed.

Lemma dataset_open_ok (s : session_t) (hs : list nat) (refs : list (string * string)) (j : nat) (r : string * string) (mode : Z)
    (d : object) (n : nat) (sp : esdm_dataspace_t) (fs : list esdm_fragment_t) (gs : list grid_t) (objs : gmap nat esdm_fragment_t) (text : string) :
  c_dsets (container s) = hs -> Forall2 (fun h r => dsets s !! h = Some (newDataset r)) hs refs -> NoDup refs.*1 -> refs !! j = Some r -> r.1 <> ""%string -> o_name d = r.1 ->
  md_valid (DatasetDocument r.2) -> md_stored (metadata s) (DatasetDocument r.2) = Some text -> loads_as (B := B) backendIds n r.2 sp d fs gs objs text ->
  entryFragments objs (g_hash_table_entries (o_fragments d)) fs -> Forall2 (grid_rel named eq) (completeGrids (o_grids d)) gs ->
  exists ret o s', esdm_dataset_open backendIds s r.1 mode = Done (ret, o, s') /\ (ret = ESDM_SUCCESS -> exists h, o = Some h /\ opened n r.2 sp d mode objs (storage s) s' h).
Proof.
  intros <- Hall Hnd Er Hne Hname Hv Htext Hload Hfs Hgs. destruct (Forall2_lookup_r _ _ _ _ _ Hall Er) as (h & Eh & Ed).
  unfold esdm_dataset_open, esdm_dataset_by_name. rewrite decide_False by done.
  rewrite (findDataset_ok (dsets s) (c_dsets (container s)) refs j h r); [| eapply Forall2_impl; [exact Hall |]; intros ? r0 E0; exists (newDataset r0); done | done..]. run. rewrite Ed. run.
  set (target := setHandle (newDataset r) _ _ _ _ _ _).
  destruct (dataset_ref_ok (setDatasets s (<[h := target]> (dsets s))) h target d n r.2 sp fs gs objs text) as (ret & s' & -> & _ & Hsucc); try done.
  { apply lookup_insert_eq. }
  { constructor; try done. apply new_law. }
  run. eexists _, _, _. split; [done |]. intros ->. rewrite decide_True by done. exists h. split; [done |].
  destruct (Hsucc eq_refl) as (d' & Eds & P1 & P2 & P3 & P4 & P5 & P6 & Hre & Hm & Hd). exists d', fs, gs. rewrite Eds, lookup_insert_eq. split; [done |].
  split; [by rewrite P4 |]. by repeat (split; [done |]).
Qed.

Lemma reopen_ok (s : session_t) (h : nat) (d : object) (n : nat) (i : string) (a : A) (sp : esdm_dataspace_t) :
  session_ok s -> c_status (container s) = ESDM_DATA_DIRTY -> h ∈ c_dsets (container s) -> dsets s !! h = Some d -> o_status d = ESDM_DATA_DIRTY ->
  committable backendIds n i a sp d (objects (storage s)) ->
  exists r1 s1 r2 s2, esdm_dataset_commit backendIds makeId s h = Done (r1, s1) /\ esdm_container_commit backendIds makeId s1 = Done (r2, s2) /\ storage s2 = storage s /\
  (r1 = ESDM_SUCCESS -> r2 = ESDM_SUCCESS -> forall flags mode st k,
   exists r3 o3 m3, esdm_container_open (c_name (container s)) flags st (metadata s2) k = Done (r3, o3, m3) /\
   (r3 = ESDM_SUCCESS -> exists s3, o3 = Some s3 /\ same_contents s s3 /\
    exists r4 o4 s4, esdm_dataset_open backendIds s3 (o_name d) mode = Done (r4, o4, s4) /\
    (r4 = ESDM_SUCCESS -> exists h4, o4 = Some h4 /\ opened n i sp d mode (objects (storage s)) st s4 h4))).
Proof.
  intros Hok Hcst Hin Ed Hdirty Hcm. pose proof Hok as [[S0 S1] (ca & Eca & Hca) S3 S4 S5 S6]. pose proof (cm_id _ _ _ _ _ _ _ Hcm) as [Ei Hpi].
  destruct (S4 h Hin) as (d0 & Ed0 & Hst). rewrite Ed in Ed0. injection Ed0 as <-. pose proof (dt_id _ _ Hst) as (i' & Ei' & _ & Hv). rewrite Ei in Ei'. injection Ei' as <-.
  destruct (dataset_commit_ok s h d i Ed Ei Hst) as (r1 & d1 & m1 & k1 & E1 & Hk1 & Hnd1 & _ & _ & Hload1). set (s1 := Session (container s) (<[h := d1]> (dsets s)) (storage s) m1 k1) in *.
  assert (Hok1 : session_ok s1) by (by apply (session_ok_kept s h d)). destruct (references_exist s1 Hok1) as [refs Hrefs].
  destruct (container_commit_ok s1 ca refs Hok1 Hcst Eca Hrefs) as (r2 & s2 & E2 & Hs2 & Hc2 & Hd2).
  exists r1, s1, r2, s2. split; [exact E1 |]. split; [exact E2 |]. split; [exact Hs2 |]. intros -> -> flags mode st k.
  destruct (Hload1 n a sp Hdirty eq_refl Hcm) as (text & fs & gs & Htext & Hfs & Hgs & Hload).
  assert (Hplain : Forall (fun r => plain r.1 = true /\ plain r.2 = true) refs).
  { apply Forall_lookup. intros j r Er. destruct (Forall2_lookup_r _ _ _ _ _ Hrefs Er) as (? & _ & ? & _ & _ & _ & ? & ? & _). done. }
  destruct (container_open_ok (c_name (container s)) flags ca refs st (metadata s2) k S0 S1 (Hc2 eq_refl) Hca Hplain) as (r3 & o3 & m3 & E3 & Hm3 & Hs3).
  exists r3, o3, m3. split; [exact E3 |]. intros ->. destruct (Hs3 eq_refl) as (hs & ds & -> & Hall). eexists. split; [done |]. split.
  { split; [done |]. split; [by rewrite Eca |]. cbn [container c_dsets dsets]. apply Forall2_same_length_lookup.
    pose proof (Forall2_length _ _ _ Hall). pose proof (Forall2_length _ _ _ Hrefs). change (c_dsets (container s1)) with (c_dsets (container s)) in *. split; [lia |].
    intros j x y Ex Ey. destruct (Forall2_lookup_l _ _ _ _ _ Hrefs Ex) as (r & Er & e1 & Ee1 & En & Eid & _). pose proof (Forall2_lookup_lr _ _ _ _ _ _ Hall Ey Er) as Ey'. cbn beta in Ey'.
    cbn [s1 dsets] in Ee1. apply lookup_insert_Some in Ee1 as [[<- <-] | [_ Ee1]]; [exists d | exists e1]; exists (newDataset r).
    - destruct Hk1 as [K1 K2]. split; [done |]. split; [done |]. split; [split; cbn; congruence | done].
    - split; [done |]. split; [done |]. split; [split; cbn; congruence | done]. }
  destruct (list_elem_of_lookup_1 _ _ Hin) as [j Ej]. destruct (Forall2_lookup_l _ _ _ _ _ Hrefs Ej) as (r & Er & e1 & Ee1 & En & Eid & _ & _ & Hne).
  cbn [s1 dsets] in Ee1. rewrite lookup_insert_eq in Ee1. injection Ee1 as <-. destruct Hk1 as [K1 K2]. rewrite K1 in En. rewrite K2, Ei in Eid. injection Eid as Eid.
  destruct (dataset_open_ok (Session (Container (c_name (container s)) 1 flags ESDM_DATA_PERSISTENT (Some ca) hs (Z.of_nat (length hs))) ds st m3 k) hs refs j r mode d n sp fs gs
    (objects (storage s)) text) as (r4 & o4 & s4 & E4 & Hs4); try done.
  { by apply (refs_names s1). }
  { by rewrite <- Eid. }
  { cbn [metadata]. rewrite Hm3, <- Eid. rewrite Hd2; [exact Htext |]. intros x e Hx Ex Hde. cbn [s1 dsets] in Ex.
    apply lookup_insert_Some in Ex as [[_ <-] | [Hne' Ex]]; [done |]. intros Eidx. apply Hne'. symmetry. apply (S6 x h e d); [done | done | done | done |]. congruence. }
  { by rewrite <- Eid. }
  rewrite En. exists r4, o4, s4. split; [exact E4 |]. rewrite Eid. exact Hs4.
Qed.

End Reopen.
