(* ===== verification/MdPosix.v ===== *)
(** The POSIX metadata backend (src/backends-metadata/posix/md-posix.c): the documents of containers and datasets are files
    below a target directory.  It implements the interface [MetadataBackend]. *)

From Stdlib Require Import Ascii.
From stdpp Require Import gmap strings.
From S2P Require Import Prelude Memory Json Dataspace Fragment FragmentState Posix Container.

Open Scope Z_scope.

(** * System calls *)

(** The calls that the data backend does not make: [open()] with [O_CREAT | O_TRUNC], and the size that [stat()]
    reports. *)
Class MdFileSystem (FS : Type) := {
  fs_overwrite : string -> FS -> bool * FS;
  fs_size : string -> FS -> option Z
}.

(** The metadata directories can be searched: [stat()] fails only for names that do not exist. *)
Class MdFileSystemLaws (FS : Type) `{FileSystemLaws FS} `{MdFileSystem FS} := {
  overwrite_law p fs r fs' : fs_overwrite p fs = (r, fs') -> proper p ->
    (forall q, q <> p \/ r = false -> fs_files fs' q = fs_files fs q) /\ (r = true -> fs_files fs' p = Some []);
  size_law p fs file n : proper p -> fs_files fs p = Some file -> fs_size p fs = Some n -> n = Z.of_nat (length file);
  stat_law p fs : proper p -> fs_stat p fs = true -> p ∈ fs_names fs;
  stat_none_law p fs : proper p -> fs_stat p fs = false -> fs_files fs p = None
}.

(** * Texts as bytes *)

Definition bytes_of (s : string) : list Z := (fun c => Z.of_nat (nat_of_ascii c)) <$> String.list_ascii_of_string s.

Definition text_from (l : list Z) : string := String.string_of_list_ascii ((fun z => ascii_of_nat (Z.to_nat z)) <$> l).

Lemma text_from_bytes (s : string) : text_from (bytes_of s) = s.
Proof.
  unfold text_from, bytes_of. rewrite <- list_fmap_compose. rewrite <- (String.string_of_list_ascii_of_string s) at 2. f_equal.
  transitivity (Datatypes.id <$> String.list_ascii_of_string s); [| apply list_fmap_id]. apply list_fmap_ext. intros _ c _. unfold compose. by rewrite Nat2Z.id, ascii_nat_embedding.
Qed.

(** * Operations *)

Section Operations.

Context {FS : Type} `{FileSystem FS} `{MdFileSystem FS}.
(** The target directory and the ids that [ea_make_id()] returns. *)
Context (tgt : string) (makeId : nat -> string).

Abbreviation md_state := (posix_state (FS := FS)).

Definition setFiles (s : md_state) (fs : FS) : md_state := PosixState fs (madeIds s).

(** The callers return the result as an [esdm_status], where 1 is [ESDM_ERROR]. *)
Definition entry_create (path : string) (json : option string) (s : md_state) : outcome (esdm_status * md_state) :=
  let '(opened, fs) := fs_overwrite path (files s) in
  if opened : bool then
    match json with
    | Some json =>
        '(ok, fs) ← ea_write_check path (bytes_of json) fs;
        mret (if ok : bool then ESDM_SUCCESS else ESDM_ERROR, setFiles s fs)
    | None => mret (ESDM_SUCCESS, setFiles s fs)
    end
  else mret (ESDM_ERROR, setFiles s fs).

Definition containerPath (name : string) : outcome string := sprintf_path (tgt ++ "/containers/" ++ name ++ ".md")%string.

(** Reading behind the end of an id is undefined. *)
Definition sprintfDatasetDir (i : string) : outcome string :=
  match i with
  | String c0 (String c1 _) => sprintf_path (tgt ++ "/datasets/" ++ String c0 (String c1 ""))%string
  | _ => Undef
  end.

Definition sprintfDatasetMd (i : string) : outcome string :=
  match i with
  | String c0 (String c1 rest) => sprintf_path (tgt ++ "/datasets/" ++ String c0 (String c1 ("/" ++ rest ++ ".md")))%string
  | _ => Undef
  end.

(** The position of the last slash behind the second character. *)
Fixpoint lastSlash (i : nat) (name : string) : option nat :=
  match i with
  | O => None
  | S i' => if (1 <? i)%nat then if decide (String.get i name = Some "/"%char) then Some i else lastSlash i' name else None
  end.

Definition container_create (name : string) (allow_overwrite : bool) (s : md_state) : outcome (esdm_status * md_state) :=
  fs ← match lastSlash (String.length name - 1) name with
       | Some i => path ← sprintf_path (tgt ++ "/containers/" ++ String.substring 0 i name)%string; mret (mkdir_recursive path (files s)).2
       | None => mret (files s)
       end;
  path ← containerPath name;
  let '(fd, fs) := fs_create path fs in
  match fd with
  | Created => mret (ESDM_SUCCESS, setFiles s fs)
  | AlreadyExists =>
      if allow_overwrite then
        let '(opened, fs) := fs_overwrite path fs in
        mret (if opened : bool then ESDM_SUCCESS else ESDM_ERROR, setFiles s fs)
      else mret (ESDM_ERROR, setFiles s fs)
  | CreateError => mret (ESDM_ERROR, setFiles s fs)
  end.

Definition remove_file (path : string) (s : md_state) : esdm_status * md_state :=
  let '(ok, fs) := fs_unlink path (files s) in (if ok : bool then ESDM_SUCCESS else ESDM_ERROR, setFiles s fs).

Definition container_remove (name : string) (s : md_state) : outcome (esdm_status * md_state) :=
  path ← containerPath name; mret (remove_file path s).

Definition dataset_remove (i : string) (s : md_state) : outcome (esdm_status * md_state) :=
  path ← sprintfDatasetMd i; mret (remove_file path s).

Definition container_commit (name json : string) (s : md_state) : outcome (esdm_status * md_state) :=
  path_metadata ← containerPath name; entry_create path_metadata (Some json) s.

(** The content of the file; a failure has no text. *)
Definition retrieve_file (path : string) (s : md_state) : outcome (esdm_status * string * md_state) :=
  match fs_size path (files s) with
  | None => mret (ESDM_ERROR, ""%string, s)
  | Some st_size =>
      if fs_open path (files s) then
        '(ok, json, fs) ← ea_read_check path st_size (files s);
        mret (if ok : bool then (ESDM_SUCCESS, text_from json, setFiles s fs) else (ESDM_ERROR, ""%string, setFiles s fs))
      else mret (ESDM_ERROR, ""%string, s)
  end.

Definition container_retrieve (name : string) (s : md_state) : outcome (esdm_status * string * md_state) :=
  path_metadata ← containerPath name; retrieve_file path_metadata s.

(** The loop ends with an id that no file has; [fuel] bounds the number of ids that are taken. *)
Fixpoint dataset_create_loop (fuel : nat) (s : md_state) : outcome (esdm_status * option string * md_state) :=
  match fuel with
  | O => Undef
  | S fuel' =>
      let i := makeId (madeIds s) in
      let s := PosixState (files s) (S (madeIds s)) in
      path ← sprintfDatasetMd i;
      if fs_stat path (files s) then dataset_create_loop fuel' s
      else
        dir ← sprintfDatasetDir i;
        if fs_stat dir (files s) then mret (ESDM_SUCCESS, Some i, s)
        else
          let '(ret, fs) := mkdir_recursive dir (files s) in
          mret (match ret with CreateError => ESDM_ERROR | _ => ESDM_SUCCESS end, Some i, setFiles s fs)
  end.

Definition dataset_create (s : md_state) : outcome (esdm_status * option string * md_state) := dataset_create_loop (S (length (fs_names (files s)))) s.

Definition dataset_commit (i json : string) (s : md_state) : outcome (esdm_status * md_state) :=
  path_metadata ← sprintfDatasetMd i;
  path_dataset ← sprintfDatasetDir i;
  if fs_stat path_dataset (files s) then entry_create path_metadata (Some json) s
  else
    let '(ret, fs) := mkdir_recursive path_dataset (files s) in
    match ret with
    | Created => entry_create path_metadata (Some json) (setFiles s fs)
    | _ => mret (ESDM_ERROR, setFiles s fs)
    end.

Definition dataset_retrieve (i : string) (s : md_state) : outcome (esdm_status * string * md_state) := path ← sprintfDatasetMd i; retrieve_file path s.

#[local] Instance md_posix : MetadataBackend md_state := {|
  md_container_create := container_create;
  md_container_commit := container_commit;
  md_container_retrieve := container_retrieve;
  md_container_remove := container_remove;
  md_dataset_create := dataset_create;
  md_dataset_commit := dataset_commit;
  md_dataset_retrieve := dataset_retrieve;
  md_dataset_remove := dataset_remove
|}.

End Operations.

(** * The backend keeps its promise *)

(** Relative paths in normal form: the names of containers for which every container has one name only.  The slashes
    of ["/po/test"] and ["po/test"] lead to the same file. *)
Inductive relative : string -> Prop :=
| rel_name n : fileName n -> relative n
| rel_below n p : fileName n -> relative p -> relative (n ++ "/" ++ p).

Lemma first_slash (n p a x : string) :
  no_slash n = true -> (n ++ String "/" p)%string = (a ++ String "/" x)%string ->
  (a = n /\ p = x) \/ exists a', a = (n ++ String "/" a')%string /\ p = (a' ++ String "/" x)%string.
Proof.
  revert n. induction a as [| c a IH]; intros [| d n] Hn E; cbn in E, Hn.
  - injection E as ->. by left.
  - injection E as -> _. done.
  - injection E as <- E. right. by exists a.
  - injection E as -> E. apply andb_true_iff in Hn as [_ Hn]. destruct (IH n Hn E) as [[-> ->] | (a' & -> & ->)]; [by left |]. right. by exists a'.
Qed.

Lemma relative_cut (name a x : string) : relative name -> name = (a ++ String "/" x)%string -> relative a.
Proof.
  intros Hr. revert a. induction Hr as [n Hn | n p Hn Hr IH]; intros a E.
  - exfalso. destruct Hn as [Hn _]. apply (last_no_slash _ Hn (String.length a)). rewrite E, <- (Nat.add_0_r (String.length a)). apply get_app.
  - destruct (first_slash n p a x (proj1 Hn) E) as [[-> _] | (a' & -> & Ep)]; [by apply rel_name |]. apply rel_below; [done | by apply IH].
Qed.

Lemma directoryPath_relative (d name : string) :
  relative name -> Z.of_nat (String.length (d ++ "/" ++ name)) < PATH_MAX -> directoryPath (d ++ "/" ++ name).
Proof.
  intros Hr. revert d. induction Hr as [n Hn | n p Hn Hr IH]; intros d Hl; [by apply directoryPath_child |].
  specialize (IH (d ++ "/" ++ n)%string). rewrite !string_app_assoc in IH. by apply IH.
Qed.

Lemma no_slash_both (a b : string) : no_slash a = true -> no_slash b = true -> no_slash (a ++ b) = true.
Proof. intros Ha Hb. induction a as [| c a IH]; [done |]. cbn in Ha. apply andb_true_iff in Ha as [Hc Ha]. apply andb_true_iff. split; [exact Hc | by apply IH]. Qed.

Lemma fileName_md (n : string) : fileName n -> fileName (n ++ ".md").
Proof.
  intros (Hn & Hne & _). split; [by apply no_slash_both |].
  destruct n as [| c n]; [done |]. split; [done |]. split; intros E; apply (f_equal String.length) in E; rewrite length_string_app in E; cbn in E; lia.
Qed.

Section Laws.

Context {FS : Type} `{MdFileSystemLaws FS} `{!BoundedNames FS} (tgt : string) (makeId : nat -> string).

(** The target is a directory in normal form, and the ids do not come again too soon. *)
Record md_setup : Prop := {
  ms_proper : proper tgt;
  ms_length : Z.of_nat (String.length tgt) + 300 < PATH_MAX;
  ms_ids n : valid_id (makeId n);
  ms_distinct m n : (m < n <= m + fs_capacity)%nat -> makeId m <> makeId n
}.

Hypothesis Hsetup : md_setup.

Abbreviation md_state := (posix_state (FS := FS)).

(** The file of a document. *)
Definition documentPath (doc : document) : option string :=
  match match doc with ContainerDocument name => containerPath tgt name | DatasetDocument i => sprintfDatasetMd tgt i end with
  | Done path => Some path
  | _ => None
  end.

Definition document_text (s : md_state) (doc : document) : option string :=
  path ← documentPath doc; file ← fs_files (files s) path; Some (text_from file).

Definition document_valid (doc : document) : Prop :=
  match doc with
  | ContainerDocument name => relative name /\ Z.of_nat (String.length tgt) + Z.of_nat (String.length name) + 15 < PATH_MAX
  | DatasetDocument i => valid_id i
  end.

Lemma append_cancel (a b s : string) : (a ++ s)%string = (b ++ s)%string -> a = b.
Proof.
  revert b. induction a as [| c a IH]; intros [| c' b] E; [done | | |].
  - apply (f_equal String.length) in E. rewrite !string_length_app in E. cbn in E. lia.
  - apply (f_equal String.length) in E. rewrite !string_length_app in E. cbn in E. lia.
  - injection E as -> E. f_equal. by apply IH.
Qed.

Lemma proper_relative (d name : string) : proper d -> relative name -> proper (d ++ "/" ++ name ++ ".md").
Proof.
  intros Hd Hr. revert d Hd. induction Hr as [n Hn | n p Hn Hr IH]; intros d Hd; [by apply proper_child, fileName_md |].
  specialize (IH (d ++ "/" ++ n)%string (proper_child _ _ Hd Hn)). rewrite !string_app_assoc in IH. by rewrite !string_app_assoc.
Qed.

Lemma proper_containers : proper (tgt ++ "/containers").
Proof. apply proper_child; [apply Hsetup | by repeat split]. Qed.

Lemma container_path (name : string) : document_valid (ContainerDocument name) ->
  containerPath tgt name = Done (tgt ++ "/containers/" ++ name ++ ".md")%string /\ proper (tgt ++ "/containers/" ++ name ++ ".md").
Proof.
  intros [Hr Hl]. split.
  - apply sprintf_path_ok. rewrite !length_string_app. change (String.length "/containers/") with 12%nat. change (String.length ".md") with 3%nat. lia.
  - pose proof (proper_relative _ name proper_containers Hr) as Hp. by rewrite string_app_assoc in Hp.
Qed.

(** The directory of a container. *)
Lemma container_directory (name : string) (i : nat) : document_valid (ContainerDocument name) -> (1 < i)%nat -> String.get i name = Some "/"%char ->
  let path := (tgt ++ "/containers/" ++ String.substring 0 i name)%string in sprintf_path path = Done path /\ proper path /\ directoryPath path.
Proof.
  intros Hv Hi Hg path. destruct (container_path name Hv) as [_ Hp]. destruct Hv as [Hr Hl]. destruct (prefix_cut _ _ _ Hg) as (x & Ex & Ei).
  pose proof (length_prefix i name) as Hle.
  assert (Hlen : Z.of_nat (String.length path) < PATH_MAX).
  { unfold path. rewrite !length_string_app. change (String.length "/containers/") with 12%nat. lia. }
  assert (Epath : path = ((tgt ++ "/containers") ++ "/" ++ String.substring 0 i name)%string) by (by rewrite string_app_assoc).
  split; [by apply sprintf_path_ok |]. split.
  - apply (proper_prefix _ (x ++ ".md")).
    + unfold path. rewrite Ex in Hp. rewrite !string_app_assoc in Hp. by rewrite !string_app_assoc.
    + unfold path. rewrite !length_string_app. change (String.length "/containers/") with 12%nat. lia.
  - rewrite Epath in Hlen |- *. apply directoryPath_relative; [| done]. by apply (relative_cut name _ x).
Qed.

Lemma dataset_path (i : string) : valid_id i ->
  exists path dir, sprintfDatasetMd tgt i = Done path /\ sprintfDatasetDir tgt i = Done dir /\ proper path /\ proper dir /\ directoryPath dir.
Proof.
  intros (c0 & c1 & rest & -> & H0' & H1' & Hrest & Hl)%valid_id_cons. pose proof (ms_length Hsetup) as Ht. pose proof (ms_proper Hsetup) as Hp.
  assert (Hdd : fileName (String c0 (String c1 ""))).
  { destruct H0' as (Hs0 & _ & _), H1' as (Hs1 & _ & Hd1 & _). cbn in Hs0, Hs1 |- *. rewrite !andb_true_r in *. 
    split; [cbn; by rewrite Hs0, Hs1 |]. split; [done |]. split; [done |]. intros [= _ ->]. done. }
  assert (Hdir : proper (tgt ++ "/datasets/" ++ String c0 (String c1 ""))).
  { pose proof (proper_child _ _ (proper_child _ "datasets" Hp ltac:(by repeat split)) Hdd) as Hd. by rewrite string_app_assoc in Hd. }
  eexists _, _. cbn [sprintfDatasetMd sprintfDatasetDir].
  split; [apply sprintf_path_ok; repeat (rewrite length_string_app || cbn [String.length]); lia |].
  split; [apply sprintf_path_ok; repeat (rewrite length_string_app || cbn [String.length]); lia |].
  split; [| split; [done |]].
  - pose proof (proper_child _ _ Hdir (fileName_md _ Hrest)) as Hc. by rewrite !string_app_assoc in Hc.
  - assert (E : (tgt ++ "/datasets/" ++ String c0 (String c1 ""))%string = ((tgt ++ "/datasets") ++ "/" ++ String c0 (String c1 ""))%string) by (by rewrite string_app_assoc).
    rewrite E. apply directoryPath_child; [done |]. repeat (rewrite length_string_app || cbn [String.length]). lia.
Qed.

(** Valid documents have a file with a path in normal form. *)
Lemma document_path (doc : document) : document_valid doc -> exists p, documentPath doc = Some p /\ proper p.
Proof.
  destruct doc as [name | i]; intros Hv; unfold documentPath.
  - destruct (container_path name Hv) as [-> Hp]. by eexists.
  - destruct (dataset_path i Hv) as (path & dir & -> & _ & Hp & _). by eexists.
Qed.

Lemma sprintf_path_inv (text p : string) : sprintf_path text = Done p -> p = text.
Proof. unfold sprintf_path. by destruct (_ <? _); [intros [= <-] |]. Qed.

(** The text of a path before [sprintf()]. *)
Definition documentText (doc : document) : option string :=
  match doc with
  | ContainerDocument name => Some (tgt ++ "/containers/" ++ name ++ ".md")%string
  | DatasetDocument (String c0 (String c1 rest)) => Some (tgt ++ "/datasets/" ++ String c0 (String c1 ("/" ++ rest ++ ".md")))%string
  | DatasetDocument _ => None
  end.

Lemma documentPath_text (doc : document) (p : string) : documentPath doc = Some p -> documentText doc = Some p.
Proof.
  unfold documentPath. destruct doc as [name | [| c0 [| c1 rest]]]; cbn [documentText sprintfDatasetMd]; unfold containerPath; [| done | done |];
    (destruct (sprintf_path _) as [q | |] eqn:E; [| done | done]); apply sprintf_path_inv in E; by subst.
Qed.

(** Different documents have different files. *)
Lemma documentPath_inj (doc doc' : document) (p : string) : documentPath doc = Some p -> documentPath doc' = Some p -> doc = doc'.
Proof.
  intros E%documentPath_text E'%documentPath_text. revert E E'. destruct doc as [name | i], doc' as [name' | i']; cbn [documentText].
  - intros [= <-] [= E%string_app_inj%string_app_inj%append_cancel]. by rewrite E.
  - intros [= <-]. destruct i' as [| c0 [| c1 rest]]; [done | done |]. intros [= E%string_app_inj]. discriminate E.
  - destruct i as [| c0 [| c1 rest]]; [done | done |]. intros [= <-] [= E%string_app_inj]. discriminate E.
  - destruct i as [| c0 [| c1 rest]]; [done | done |]. destruct i' as [| c0' [| c1' rest']]; [done | done |]. intros [= <-] [= E%string_app_inj%string_app_inj].
    injection E as -> -> E. apply (append_cancel rest' rest) in E. by subst.
Qed.

Lemma document_same (s s' : md_state) (doc : document) :
  (forall p, documentPath doc = Some p -> fs_files (files s') p = fs_files (files s) p) -> document_text s' doc = document_text s doc.
Proof. intros Hp. unfold document_text. destruct (documentPath doc) as [p |]; [| done]. cbn. by rewrite Hp. Qed.

Lemma document_others (s s' : md_state) (doc doc' : document) (p : string) :
  documentPath doc = Some p -> (forall q, q <> p -> fs_files (files s') q = fs_files (files s) q) -> doc' <> doc -> document_text s' doc' = document_text s doc'.
Proof. intros Hp Hq Hne. apply document_same. intros q Eq. apply Hq. intros ->. apply Hne. by eapply documentPath_inj. Qed.

Lemma entry_create_ok (path text : string) (s : md_state) : proper path ->
  completes (IoWorks FS) (entry_create path (Some text) s) (fun '(st, s') => (forall q, q <> path -> fs_files (files s') q = fs_files (files s) q) /\
    (st = ESDM_SUCCESS -> fs_files (files s') path = Some (bytes_of text))).
Proof.
  intros Hp. unfold entry_create. destruct (fs_overwrite path (files s)) as [r fs] eqn:E. apply overwrite_law in E as [Hoth Hnew]; [| done]. destruct r.
  - eapply completes_bind; [apply (write_check_ok path (bytes_of text) [] fs Hp (Hnew eq_refl)) |]. intros [ok fs'] (-> & Hq & Hok).
    apply completes_done. cbn [files setFiles]. split; [intros q Hne; rewrite Hq by done; apply Hoth; by left | done].
  - apply completes_done. split; [intros q _; apply Hoth; by right | done].
Qed.

Lemma retrieve_file_ok (path : string) (file : list Z) (s : md_state) :
  proper path -> fs_files (files s) path = Some file ->
  completes (IoWorks FS) (retrieve_file path s) (fun '(st, t, s') =>
    (forall q, fs_files (files s') q = fs_files (files s) q) /\ (st = ESDM_SUCCESS -> t = text_from file)).
Proof.
  intros Hp Ef. unfold retrieve_file. destruct (fs_size path (files s)) as [n |] eqn:En; [| by apply completes_done]. apply (size_law _ _ _ _ Hp Ef) in En as ->.
  destruct (fs_open path (files s)); [| by apply completes_done]. unfold ea_read_check. eapply completes_bind.
  { apply (read_loop_ok (Z.to_nat (Z.of_nat (length file)) + fs_interrupts (files s)) path (Z.of_nat (length file)) [] file (files s)); (done || cbn; lia). }
  intros [[ok data] fs'] (-> & Hq & Hdata & Hok). apply completes_done. split; [exact Hq |]. intros _. f_equal. rewrite Hdata. cbn in Hok. rewrite take_ge; [done | lia].
Qed.

Lemma remove_file_ok (path : string) (s : md_state) : proper path ->
  (forall q, q <> path -> fs_files (files (remove_file path s).2) q = fs_files (files s) q) /\
  ((remove_file path s).1 = ESDM_SUCCESS -> fs_files (files (remove_file path s).2) path = None).
Proof.
  intros Hp. unfold remove_file. destruct (fs_unlink path (files s)) as [ok fs] eqn:E. apply unlink_law in E as [Hoth Hok]; [| done]. cbn.
  split; [intros q Hq; apply Hoth; by left |]. intros Hst. apply Hok. by destruct ok.
Qed.

(** ** The id of a new dataset *)

Definition mdCandidate (n : nat) : string := default ""%string (documentPath (DatasetDocument (makeId n))).

Lemma mdCandidate_path (n : nat) : sprintfDatasetMd tgt (makeId n) = Done (mdCandidate n) /\ proper (mdCandidate n).
Proof.
  unfold mdCandidate, documentPath. destruct (dataset_path (makeId n) (ms_ids Hsetup n)) as (path & dir & -> & _ & Hp & _). done.
Qed.

Lemma dataset_create_loop_ok (n0 fuel : nat) (tried : list string) (s : md_state) :
  NoDup tried -> tried ⊆ fs_names (files s) -> madeIds s = (n0 + length tried)%nat ->
  (forall q, q ∈ tried -> exists n, (n0 <= n < madeIds s)%nat /\ q = mdCandidate n) -> (length (fs_names (files s)) < length tried + fuel)%nat ->
  exists st i s', dataset_create_loop tgt makeId fuel s = Done (st, Some i, s') /\ (forall q, fs_files (files s') q = fs_files (files s) q) /\
  document_valid (DatasetDocument i) /\ document_text s (DatasetDocument i) = None.
Proof.
  revert tried s. induction fuel as [| fuel IH]; intros tried s Hnd Hsub Hmade Htr Hlen; pose proof (submseteq_length tried _ (NoDup_submseteq _ _ Hnd Hsub)) as Htl; [lia |].
  pose proof (names_capacity (files s)) as Hcap. cbn [dataset_create_loop]. set (n := madeIds s) in *.
  destruct (mdCandidate_path n) as [En Hp]. rewrite En. run. cbn [files]. destruct (fs_stat (mdCandidate n) (files s)) eqn:Est.
  - destruct (IH (mdCandidate n :: tried) (PosixState (files s) (S n))) as (st & i & s' & E & Hq & Hv & Hd).
    + constructor; [| done]. intros Hin. destruct (Htr _ Hin) as (m & Hm & Em).
      assert (DatasetDocument (makeId m) = DatasetDocument (makeId n)) as [= E]; [| apply (ms_distinct Hsetup m n); [lia | done]].
      destruct (mdCandidate_path m) as [Em' _]. apply (documentPath_inj _ _ (mdCandidate n)); unfold documentPath; [rewrite Em', <- Em | rewrite En]; done.
    + intros q [-> | Hq]%elem_of_cons; [by apply stat_law | by apply Hsub].
    + cbn [madeIds length]. lia.
    + cbn [madeIds]. intros q [-> | Hq]%elem_of_cons; [exists n; split; [lia | done] |]. destruct (Htr q Hq) as (m & Hm & ->). exists m. split; [lia | done].
    + cbn [files length]. lia.
    + exists st, i, s'. done.
  - assert (Hdoc : document_text s (DatasetDocument (makeId n)) = None).
    { unfold document_text, documentPath. rewrite En. cbn. by rewrite (stat_none_law _ _ Hp Est). }
    destruct (dataset_path (makeId n) (ms_ids Hsetup n)) as (path & dir & _ & -> & _ & Hpd & Hdp). run. clear Est. destruct (fs_stat _ (files s)).
    + eexists _, _, _. split; [done |]. split; [done |]. split; [apply (ms_ids Hsetup) | exact Hdoc].
    + destruct (mkdir_recursive _ (files s)) as [ret fs] eqn:E. apply mkdir_recursive_ok in E as (Hq & _); [| done | done]. eexists _, _, _. split; [done |]. split; [exact Hq |].
      split; [apply (ms_ids Hsetup) | exact Hdoc].
Qed.

Lemma dataset_create_ok (s : md_state) :
  exists st i s', dataset_create tgt makeId s = Done (st, Some i, s') /\ (forall q, fs_files (files s') q = fs_files (files s) q) /\
  document_valid (DatasetDocument i) /\ document_text s (DatasetDocument i) = None.
Proof.
  apply (dataset_create_loop_ok (madeIds s) (S (length (fs_names (files s)))) [] s); [constructor | set_solver | cbn; lia | by intros q ?%elem_of_nil | cbn; lia].
Qed.

(** ** The callbacks *)

Abbreviation commit := (@md_commit md_state (md_posix tgt makeId)).
Abbreviation retrieve := (@md_retrieve md_state (md_posix tgt makeId)).
Abbreviation remove := (@md_remove md_state (md_posix tgt makeId)).

Lemma doc_commit_ok (doc : document) (text : string) (s : md_state) : document_valid doc ->
  completes (IoWorks FS) (commit doc text s) (fun '(st, s') =>
    (forall doc', doc' <> doc -> document_text s' doc' = document_text s doc') /\ (st = ESDM_SUCCESS -> document_text s' doc = Some text)).
Proof.
  intros Hv. destruct (document_path doc Hv) as (p & Hp & Hpr).
  assert (Hentry : forall (s1 : md_state), (forall q, fs_files (files s1) q = fs_files (files s) q) ->
    completes (IoWorks FS) (entry_create p (Some text) s1) (fun '(st, s') =>
      (forall doc', doc' <> doc -> document_text s' doc' = document_text s doc') /\ (st = ESDM_SUCCESS -> document_text s' doc = Some text))).
  { intros s1 Hs1. eapply completes_mono; [by apply (entry_create_ok p text s1) |]. intros [st s'] [Hq Hst]. split.
    - intros doc' Hne. apply (document_others s s' doc doc' p Hp); [| done]. intros q Hqp. by rewrite Hq.
    - intros Hs. unfold document_text. rewrite Hp. cbn. rewrite (Hst Hs). cbn. by rewrite text_from_bytes. }
  destruct doc as [name | i]; cbn [md_commit md_container_commit md_dataset_commit md_posix]; unfold documentPath in Hp.
  - unfold container_commit. destruct (containerPath tgt name); [| done | done]. injection Hp as ->. run. by apply Hentry.
  - unfold dataset_commit. destruct (dataset_path i Hv) as (path & dir & E1 & -> & _ & Hpd & Hdp). rewrite E1 in Hp |- *. injection Hp as ->. run.
    destruct (fs_stat _ (files s)); [by apply Hentry |]. destruct (mkdir_recursive _ (files s)) as [ret fs] eqn:E. apply mkdir_recursive_ok in E as (Hq & _); [| done | done].
    destruct ret; [by apply Hentry | |]; (apply completes_done; split; [| done]); intros doc' _; apply document_same; intros q _; apply Hq.
Qed.

Lemma doc_retrieve_ok (doc : document) (text : string) (s : md_state) : document_valid doc -> document_text s doc = Some text ->
  completes (IoWorks FS) (retrieve doc s) (fun '(st, t, s') => (forall doc', document_text s' doc' = document_text s doc') /\ (st = ESDM_SUCCESS -> t = text)).
Proof.
  intros Hv Hst. destruct (document_path doc Hv) as (p & Ep & Hpr). unfold document_text in Hst. rewrite Ep in Hst. cbn in Hst.
  destruct (fs_files (files s) p) as [file |] eqn:Ef; [| done]. injection Hst as <-.
  assert (Hret : completes (IoWorks FS) (retrieve_file p s) (fun '(st, t, s') =>
    (forall doc', document_text s' doc' = document_text s doc') /\ (st = ESDM_SUCCESS -> t = text_from file))).
  { eapply completes_mono; [by apply (retrieve_file_ok p file s) |]. intros [[st t] s'] [Hq Hs]. split; [intros doc'; apply document_same; intros q _; apply Hq | done]. }
  unfold documentPath in Ep. destruct doc as [name | i]; cbn [md_retrieve md_container_retrieve md_dataset_retrieve md_posix].
  - unfold container_retrieve. destruct (containerPath tgt name); [| done | done]. by injection Ep as ->.
  - unfold dataset_retrieve. destruct (sprintfDatasetMd tgt i); [| done | done]. by injection Ep as ->.
Qed.

Lemma doc_remove_ok (doc : document) (s : md_state) : document_valid doc ->
  exists st s', remove doc s = Done (st, s') /\ (forall doc', doc' <> doc -> document_text s' doc' = document_text s doc') /\
  (st = ESDM_SUCCESS -> document_text s' doc = None).
Proof.
  intros Hv. destruct (document_path doc Hv) as (p & Hp & Hpr). destruct (remove_file_ok p s Hpr) as [Hq Hs].
  exists (remove_file p s).1, (remove_file p s).2. split; [| split].
  - rewrite <- surjective_pairing. unfold documentPath in Hp. destruct doc as [name | i]; cbn [md_remove md_container_remove md_dataset_remove md_posix].
    + unfold container_remove. destruct (containerPath tgt name); [| done | done]. by injection Hp as ->.
    + unfold dataset_remove. destruct (sprintfDatasetMd tgt i); [| done | done]. by injection Hp as ->.
  - intros doc' Hne. by apply (document_others s _ doc doc' p Hp).
  - intros Hst. unfold document_text. rewrite Hp. cbn. by rewrite (Hs Hst).
Qed.

Lemma lastSlash_ok (i k : nat) (name : string) : lastSlash i name = Some k -> (1 < k)%nat /\ String.get k name = Some "/"%char.
Proof.
  induction i as [| i IH]; cbn [lastSlash]; [done |]. destruct (Nat.ltb_spec 1 (S i)); [| done]. case_decide; [intros [= <-]; by split; [lia |] | exact IH].
Qed.

Lemma container_create_ok (name : string) (overwrite : bool) (s : md_state) : document_valid (ContainerDocument name) ->
  exists st s', container_create tgt name overwrite s = Done (st, s') /\
  (forall doc', doc' <> ContainerDocument name \/ st <> ESDM_SUCCESS -> document_text s' doc' = document_text s doc') /\
  (st = ESDM_SUCCESS -> document_text s' (ContainerDocument name) = Some ""%string /\ (overwrite = false -> document_text s (ContainerDocument name) = None)).
Proof.
  intros Hv. unfold container_create.
  assert (Hfs0 : exists fs0, (match lastSlash (String.length name - 1) name with
       | Some i => path ← sprintf_path (tgt ++ "/containers/" ++ String.substring 0 i name)%string; mret (mkdir_recursive path (files s)).2
       | None => mret (files s)
       end) = Done fs0 /\ forall q, fs_files fs0 q = fs_files (files s) q).
  { destruct (lastSlash _ _) as [i |] eqn:Ei; [| by eexists]. apply lastSlash_ok in Ei as [Hi Hg]. destruct (container_directory name i Hv Hi Hg) as (-> & Hpd & Hdp). run.
    eexists. split; [done |]. destruct (mkdir_recursive _ (files s)) as [r fs] eqn:E. by apply mkdir_recursive_ok in E as (Hq & _). }
  destruct Hfs0 as (fs0 & -> & Hfs0). run. destruct (container_path name Hv) as [Ep Hpr]. rewrite Ep. run. set (p := (tgt ++ "/containers/" ++ name ++ ".md")%string) in *.
  assert (Hp : documentPath (ContainerDocument name) = Some p) by (unfold documentPath; by rewrite Ep).
  assert (Hdone : forall (st : esdm_status) fs, (forall q, q <> p \/ st <> ESDM_SUCCESS -> fs_files fs q = fs_files (files s) q) -> (st = ESDM_SUCCESS -> fs_files fs p = Some [] /\
    (overwrite = false -> fs_files (files s) p = None)) ->
    (forall doc', doc' <> ContainerDocument name \/ st <> ESDM_SUCCESS -> document_text (setFiles s fs) doc' = document_text s doc') /\
    (st = ESDM_SUCCESS -> document_text (setFiles s fs) (ContainerDocument name) = Some ""%string /\ (overwrite = false -> document_text s (ContainerDocument name) = None))).
  { intros st fs Hq Hs. split.
    - intros doc' [Hne | Hne]; [apply (document_others s _ (ContainerDocument name) doc' p Hp); [| done]; intros q Hqp; apply Hq; by left |].
      apply document_same. intros q _. apply Hq. by right.
    - intros Hst. destruct (Hs Hst) as [E1 E2]. unfold document_text. rewrite Hp. cbn. rewrite E1. split; [done |]. intros Ho. by rewrite (E2 Ho). }
  destruct (fs_create p fs0) as [fd fs1] eqn:E1. apply create_law in E1 as (Hq1 & Hcr & _); [| done]. destruct fd.
  - eexists _, _. split; [done |]. apply Hdone; [intros q [Hne |]; [rewrite Hq1 by (by left); apply Hfs0 | done] |]. intros _. destruct (Hcr eq_refl) as [E2 E3]. by rewrite <- Hfs0.
  - destruct overwrite; [| eexists _, _; split; [done |]; apply Hdone; [intros q _; rewrite Hq1 by (by right); apply Hfs0 | done]].
    destruct (fs_overwrite p fs1) as [r fs2] eqn:E2. apply overwrite_law in E2 as [Hq2 Hnew]; [| done]. eexists _, _. split; [done |]. apply Hdone.
    + intros q Hq. rewrite Hq2; [rewrite Hq1 by (by right); apply Hfs0 |]. destruct Hq as [| Hq]; [by left | right; by destruct r].
    + intros Hs. split; [apply Hnew; by destruct r | done].
  - eexists _, _. split; [done |]. apply Hdone; [intros q _; rewrite Hq1 by (by right); apply Hfs0 | done].
Qed.

(** ** The interface *)

#[local] Instance md_posix_laws `{!IoWorks FS} : @MetadataBackendLaws md_state (md_posix tgt makeId).
Proof.
  refine {| md_stored := document_text; md_valid := document_valid |}.
  - intros doc text s Hv. destruct (completes_returns _ _ _ _ (doc_commit_ok doc text s Hv)) as ([st s'] & E & Hs). by exists st, s'.
  - intros doc text s Hv Hst. destruct (completes_returns _ _ _ _ (doc_retrieve_ok doc text s Hv Hst)) as ([[st t] s'] & E & Hs). by exists st, t, s'.
  - apply doc_remove_ok.
  - apply container_create_ok.
  - intros s. destruct (dataset_create_ok s) as (st & i & s' & E & Hq & Hv & Hd).
    exists st, (Some i), s'. split; [exact E |]. split; [intros doc'; apply document_same; intros q _; apply Hq |]. intros _. by exists i.
Defined.

(** ** Sequences of calls *)

Inductive md_call := CommitCall (doc : document) (text : string) | RemoveCall (doc : document).

Definition callDocument (c : md_call) : document := match c with CommitCall doc _ => doc | RemoveCall doc => doc end.

Definition perform (c : md_call) (s : md_state) : outcome (esdm_status * md_state) :=
  match c with
  | CommitCall doc text => commit doc text s
  | RemoveCall doc => remove doc s
  end.

Lemma perform_ok (c : md_call) (s : md_state) :
  document_valid (callDocument c) ->
  completes (IoWorks FS) (perform c s) (fun '(st, s') => forall doc, doc <> callDocument c -> document_text s' doc = document_text s doc).
Proof.
  destruct c as [doc text | doc]; cbn [callDocument perform]; intros Hv.
  - eapply completes_mono; [by apply doc_commit_ok |]. by intros [st s'] [Hs _].
  - destruct (doc_remove_ok doc s Hv) as (st & s' & -> & Hoth & _). by apply completes_done.
Qed.

Lemma performs_ok (cs : list md_call) (s : md_state) (doc : document) :
  Forall (fun c => document_valid (callDocument c) /\ callDocument c <> doc) cs ->
  completes (IoWorks FS) (foldM (fun c s => '(_, s) ← perform c s; mret s) cs s) (fun s' => document_text s' doc = document_text s doc).
Proof.
  intros Hcs. revert s. induction Hcs as [| c cs [Hv Hne] _ IH]; intros s; cbn [foldM]; [by apply completes_done |].
  destruct (perform_ok c s Hv) as [[-> HW] | ([st s1] & -> & Hs1)]; [by left |]. run.
  eapply completes_mono; [apply IH |]. intros s2 Hs2. rewrite Hs2. apply Hs1. done.
Qed.


(** [dataset_create()] ends: it returns an id, also when the directory cannot be made, the dataset with the id has no document
    yet, and no document changes. *)
Theorem dataset_create_fresh (s : md_state) :
  exists st i s', dataset_create tgt makeId s = Done (st, Some i, s') /\ valid_id i /\
  document_text s (DatasetDocument i) = None /\ forall doc, document_text s' doc = document_text s doc.
Proof.
  destruct (dataset_create_ok s) as (st & i & s' & E & Hq & Hv & Hd).
  exists st, i, s'. split; [exact E |]. split; [exact Hv |]. split; [exact Hd |]. intros doc. apply document_same. intros q _. apply Hq.
Qed.

End Laws.

(** * A file system with directories *)

Module TreeFS.

Record treeFS := Tree { regular : gmap string (list Z); directories : list string }.

Definition names (fs : treeFS) : list string := (map_to_list (regular fs)).*1 ++ directories fs.

(** There is room for one hundred names; a tree with more of them is taken to be empty. *)
Definition cut (fs : treeFS) : treeFS := if decide (length (names fs) <= 100)%nat then fs else Tree ∅ [].

Definition setRegular (fs : treeFS) (r : gmap string (list Z)) : treeFS := Tree r (directories fs).

#[global] Instance fileSystem : FileSystem treeFS := {
  fs_stat p fs := bool_decide (p ∈ names (cut fs));
  fs_mkdir p fs :=
    let fs := cut fs in
    if decide (p ∈ names fs) then (AlreadyExists, fs)
    else if decide (length (names fs) < 100)%nat then (Created, Tree (regular fs) (p :: directories fs)) else (CreateError, fs);
  fs_create p fs :=
    let fs := cut fs in
    if decide (p ∈ names fs) then (AlreadyExists, fs)
    else if decide (length (names fs) < 100)%nat then (Created, setRegular fs (<[p := []]> (regular fs))) else (CreateError, fs);
  fs_truncate p fs := let fs := cut fs in match regular fs !! p with Some _ => (true, setRegular fs (<[p := []]> (regular fs))) | None => (false, fs) end;
  fs_open p fs := bool_decide (is_Some (regular (cut fs) !! p));
  fs_write p data fs := let fs := cut fs in
                        match regular fs !! p with
                        | Some old => (IoDone (Z.of_nat (length data)), setRegular fs (<[p := old ++ data]> (regular fs)))
                        | None => (IoError, fs)
                        end;
  fs_read p pos len fs := let fs := cut fs in
                          match regular fs !! p with
                          | Some file => (IoDone (take (Z.to_nat len) (drop (Z.to_nat pos) file)), fs)
                          | None => (IoError, fs)
                          end;
  fs_unlink p fs := let fs := cut fs in match regular fs !! p with Some _ => (true, setRegular fs (delete p (regular fs))) | None => (false, fs) end;
  fs_rmdir p fs :=
    let fs := cut fs in
    if decide (p ∈ directories fs) then (true, Tree (regular fs) (filter (fun q => q <> p) (directories fs))) else (false, fs);
  fs_interrupts fs := O;
  fs_names fs := names (cut fs)
}.

#[global] Instance mdFileSystem : MdFileSystem treeFS := {
  fs_overwrite p fs :=
    let fs := cut fs in
    if decide (p ∈ directories fs) then (false, fs)
    else match regular fs !! p with
         | Some _ => (true, setRegular fs (<[p := []]> (regular fs)))
         | None => if decide (length (names fs) < 100)%nat then (true, setRegular fs (<[p := []]> (regular fs))) else (false, fs)
         end;
  fs_size p fs := (fun file => Z.of_nat (length file)) <$> regular (cut fs) !! p
}.

Lemma regular_name (fs : treeFS) (p : string) (file : list Z) : regular fs !! p = Some file -> p ∈ names fs.
Proof. intros E. apply elem_of_app. left. apply list_elem_of_fmap. exists (p, file). split; [done |]. by apply elem_of_map_to_list. Qed.

Lemma not_name (fs : treeFS) (p : string) : p ∉ names fs -> regular fs !! p = None.
Proof. intros Hp. destruct (regular fs !! p) eqn:E; [| done]. by apply regular_name in E. Qed.

Lemma cut_room (fs : treeFS) : (length (names (cut fs)) <= 100)%nat.
Proof. unfold cut. case_decide; [done |]. apply Nat.le_0_l. Qed.

Lemma cut_small (fs : treeFS) : (length (names fs) <= 100)%nat -> cut fs = fs.
Proof. intros Hl. unfold cut. by rewrite decide_True. Qed.

Lemma cut_cut (fs : treeFS) : cut (cut fs) = cut fs.
Proof. apply cut_small, cut_room. Qed.

Lemma length_names (fs : treeFS) : length (names fs) = (length (map_to_list (regular fs)) + length (directories fs))%nat.
Proof. unfold names. by rewrite length_app, length_fmap. Qed.

(** Changes that need no more names than there is room for. *)
Lemma cut_insert (fs : treeFS) (p : string) (file : list Z) :
  is_Some (regular (cut fs) !! p) \/ (length (names (cut fs)) < 100)%nat ->
  cut (setRegular (cut fs) (<[p := file]> (regular (cut fs)))) = setRegular (cut fs) (<[p := file]> (regular (cut fs))).
Proof.
  intros Hp. pose proof (cut_room fs) as Hr. apply cut_small. revert Hr Hp. rewrite !length_names. cbn [setRegular regular directories]. intros Hr Hp.
  rewrite !length_map_to_list in *. destruct (regular (cut fs) !! p) as [old |] eqn:E.
  - rewrite map_size_insert_Some by done. done.
  - rewrite map_size_insert_None by done. destruct Hp as [[? [=]] | Hp]. lia.
Qed.

Lemma cut_delete (fs : treeFS) (p : string) :
  is_Some (regular (cut fs) !! p) -> cut (setRegular (cut fs) (delete p (regular (cut fs)))) = setRegular (cut fs) (delete p (regular (cut fs))).
Proof.
  intros [old E]. pose proof (cut_room fs) as Hr. apply cut_small. revert Hr. rewrite !length_names. cbn [setRegular regular directories]. intros Hr.
  rewrite !length_map_to_list in *. rewrite map_size_delete_Some by eauto. lia.
Qed.

Lemma cut_mkdir (fs : treeFS) (p : string) :
  (length (names (cut fs)) < 100)%nat -> cut (Tree (regular (cut fs)) (p :: directories (cut fs))) = Tree (regular (cut fs)) (p :: directories (cut fs)).
Proof. intros Hl. apply cut_small. rewrite length_names in *. cbn in *. lia. Qed.

#[global] Instance fileSystemLaws : FileSystemLaws treeFS.
Proof.
  unshelve refine {| fs_files := fun fs p => regular (cut fs) !! p; proper := fun _ => True |};
    cbn [fs_mkdir fs_create fs_truncate fs_write fs_read fs_unlink fs_rmdir fs_interrupts fs_names fileSystem].
  - done.
  - done.
  - intros p fs r fs' E _. case_decide; [injection E as <- <-; rewrite cut_cut; auto |]. case_decide; injection E as <- <-; [| rewrite cut_cut; auto].
    rewrite cut_mkdir by done. split; [done |]. split; [| done]. intros m [Hm | [-> | Hm]%elem_of_cons]%elem_of_app; [| by left |]; right; apply elem_of_app; auto.
  - intros p fs r fs' E _. case_decide as Hp; [injection E as <- <-; by rewrite cut_cut |]. case_decide; injection E as <- <-; [| by rewrite cut_cut].
    rewrite cut_insert by auto. cbn [setRegular regular].
    split; [intros q [Hq | ]; [by rewrite lookup_insert_ne | done] |]. rewrite lookup_insert_eq. split; [intros _; split; [by apply not_name | done] | done].
  - intros p fs r fs' E _. destruct (regular (cut fs) !! p) eqn:Ep; injection E as <- <-; [| by rewrite cut_cut]. rewrite cut_insert by eauto. cbn [setRegular regular].
    split; [intros q [Hq |]; [by rewrite lookup_insert_ne | done] | by rewrite lookup_insert_eq].
  - intros p data fs old r fs' E _ Ep Hne. rewrite Ep in E. injection E as <- <-. rewrite cut_insert by eauto. cbn [setRegular regular].
    split; [intros q Hq; by rewrite lookup_insert_ne |].
    split; [done |]. rewrite lookup_insert_eq, Nat2Z.id, firstn_all. split; [| done]. destruct data; [done | simpl; lia].
  - intros p pos len fs file r fs' E _ Ep Hpos Hlen. rewrite Ep in E. injection E as <- <-. rewrite cut_cut. split; [done |]. split; [done |]. by apply MapFS.read_part.
  - intros p fs r fs' E _. destruct (regular (cut fs) !! p) eqn:Ep; injection E as <- <-; [| by rewrite cut_cut]. rewrite cut_delete by eauto. cbn [setRegular regular].
    split; [intros q [Hq |]; [by rewrite lookup_delete_ne | done] | by rewrite lookup_delete_eq].
  - intros p fs r fs' E _ q. case_decide; injection E as <- <-; [| by rewrite cut_cut]. rewrite cut_small; [done |].
    pose proof (cut_room fs) as Hr. rewrite length_names in *. cbn. pose proof (length_filter (fun q => q <> p) (directories (cut fs))). lia.
Defined.

#[global] Instance boundedNames : BoundedNames treeFS := {| fs_capacity := 100; names_capacity := cut_room |}.

#[global] Instance mdFileSystemLaws : MdFileSystemLaws treeFS.
Proof.
  constructor; cbn [fs_overwrite fs_size mdFileSystem fs_stat fileSystem fs_names fs_files fileSystemLaws].
  - intros p fs r fs' E _. case_decide; [injection E as <- <-; by rewrite cut_cut |].
    assert (Hnew : (forall q, q <> p \/ true = false -> regular (setRegular (cut fs) (<[p := []]> (regular (cut fs)))) !! q = regular (cut fs) !! q) /\
                   (true = true -> regular (setRegular (cut fs) (<[p := []]> (regular (cut fs)))) !! p = Some [])).
    { cbn [setRegular regular]. split; [intros q [Hq |]; [by rewrite lookup_insert_ne | done] | by rewrite lookup_insert_eq]. }
    destruct (regular (cut fs) !! p) eqn:Ep; [injection E as <- <-; by rewrite cut_insert by eauto |].
    case_decide; injection E as <- <-; [by rewrite cut_insert by eauto | by rewrite cut_cut].
  - intros p fs file n _ -> [= <-]. done.
  - by intros p fs _ ?%bool_decide_eq_true_1.
  - intros p fs _ Hp%bool_decide_eq_false_1. by apply not_name.
Qed.

#[global] Instance ioWorks : IoWorks treeFS.
Proof.
  split; cbn [fs_write fs_read fs_files fileSystem fileSystemLaws]; [intros p data fs [? ->] | intros p pos len fs [? ->]]; done.
Qed.

End TreeFS.

(** ** Examples *)

Definition mdDirectory : string := "_md".

Definition emptyTree : posix_state (FS := TreeFS.treeFS) := PosixState (TreeFS.Tree ∅ []) 0.

Lemma mdSetup : md_setup (FS := TreeFS.treeFS) mdDirectory MapFS.ids.
Proof. constructor; [done | done | apply MapFS.ids_valid | apply (ps_distinct MapFS.posixSetup)]. Qed.


Lemma dataset_create_fresh_witness :
  exists st i s', dataset_create mdDirectory MapFS.ids emptyTree = Done (st, Some i, s') /\ valid_id i /\
  document_text mdDirectory emptyTree (DatasetDocument i) = None /\ forall doc, document_text mdDirectory s' doc = document_text mdDirectory emptyTree doc.
Proof. exact (dataset_create_fresh mdDirectory MapFS.ids mdSetup emptyTree). Defined.
