(* ===== verification/Mkfs.v ===== *)
(** Formatting: [mkfs()] of the POSIX data backend (src/backends-data/posix/posix.c) and of the POSIX metadata backend
    (src/backends-metadata/posix/md-posix.c), [posix_recursive_remove()] (src/utils/auxiliary.c) and [esdm_mkfs()]
    (src/esdm.c).  The calls on directories are the parameter [Directories]. *)

From Stdlib Require Import Ascii.
From stdpp Require Import gmap strings.
From S2P Require Import Prelude Memory Json Dataspace Fragment FragmentState Posix Container Config MdPosix.

Open Scope Z_scope.

(** * System calls *)

(** Whether [stat()] finds a directory, the names that [opendir()] and [readdir()] deliver, and whether [closedir()]
    succeeds. *)
Class Directories (FS : Type) := {
  fs_kind : string -> FS -> option bool;
  fs_readdir : string -> FS -> option (list string);
  fs_closedir : string -> FS -> bool
}.

Definition joinPath (dir name : string) : string := (dir ++ "/" ++ name)%string.

Definition ESDM_FORMAT_DELETE : Z := 1.
Definition ESDM_FORMAT_CREATE : Z := 2.
Definition ESDM_FORMAT_IGNORE_ERRORS : Z := 4.
Definition ESDM_FORMAT_PURGE_RECREATE : Z := 7.

Definition has_flag (format_flags flag : Z) : bool := negb (Z.land format_flags flag =? 0).

Definition README : string := "README-ESDM.TXT".

Definition README_TEXT : string :=
  "This directory belongs to ESDM and contains various files that are needed to make ESDM work. Do not delete it until you know what you are doing.".

Section Operations.

Context {FS : Type} `{FileSystem FS} `{MdFileSystem FS} `{Directories FS}.

(** ** src/utils/auxiliary.c *)

(** [while(!ret && (f = readdir(dir)))], with the recursive call as parameter. *)
Fixpoint remove_children (remove : string -> FS -> outcome (bool * FS)) (path : string) (names : list string) (fs : FS) : outcome (bool * FS) :=
  match names with
  | [] => mret (true, fs)
  | d_name :: names' =>
      if decide (d_name <> "."%string /\ d_name <> ".."%string) then
        child_path ← sprintf_path (joinPath path d_name);
        '(ok, fs) ← remove child_path fs;
        if ok : bool then remove_children remove path names' fs else mret (false, fs)
      else remove_children remove path names' fs
  end.

(** The result is whether everything was removed.  Every level of the recursion has a longer path. *)
Fixpoint posix_recursive_remove (fuel : nat) (path : string) (fs : FS) : outcome (bool * FS) :=
  match fuel with
  | O => Undef
  | S fuel' =>
      match fs_kind path fs with
      | None => mret (false, fs)
      | Some isDir =>
          if isDir : bool then
            dummy ← sprintf_path (joinPath path "dummy");
            let '(_, fs) := fs_overwrite dummy fs in
            match fs_readdir path fs with
            | None => mret (false, fs)
            | Some names =>
                '(ok, fs) ← remove_children (posix_recursive_remove fuel') path names fs;
                let ok := ok && fs_closedir path fs in
                if ok : bool then mret (fs_rmdir path fs) else mret (false, fs)
            end
          else mret (fs_unlink path fs)
      end
  end.

(** ** The two functions mkfs() *)

(** The part that both functions begin with: [ESDM_FORMAT_DELETE]. *)
Definition clear_target (tgt : string) (format_flags : Z) (fs : FS) : outcome (bool * FS) :=
  if has_flag format_flags ESDM_FORMAT_DELETE then
    path ← sprintf_path (joinPath tgt README);
    if fs_stat path fs then posix_recursive_remove (Z.to_nat PATH_MAX) tgt fs
    else mret (has_flag format_flags ESDM_FORMAT_IGNORE_ERRORS, fs)
  else mret (true, fs).

(** A call of [mkdir()] whose failure ends the function unless errors are ignored. *)
Definition make_directory (path : string) (ignore_err : bool) (s : posix_state (FS := FS)) : bool * posix_state (FS := FS) :=
  let '(ret, fs) := fs_mkdir path (files s) in
  (match ret with Created => true | _ => ignore_err end, setFiles s fs).

(** [contents] is what the backend writes into the new directory. *)
Definition format_target (contents : string -> bool -> posix_state (FS := FS) -> outcome (esdm_status * posix_state (FS := FS)))
    (tgt : string) (format_flags : Z) (s : posix_state (FS := FS)) : outcome (esdm_status * posix_state (FS := FS)) :=
  if Z.of_nat (String.length tgt) <? 6 then mret (ESDM_ERROR, s)
  else
    let ignore_err := has_flag format_flags ESDM_FORMAT_IGNORE_ERRORS in
    '(ok, fs) ← clear_target tgt format_flags (files s);
    let s := setFiles s fs in
    if negb ok then mret (ESDM_ERROR, s)
    else if negb (has_flag format_flags ESDM_FORMAT_CREATE) then mret (ESDM_SUCCESS, s)
    else if fs_stat tgt (files s) && negb ignore_err then mret (ESDM_ERROR, s)
    else
      let '(ok, s) := make_directory tgt ignore_err s in
      if ok : bool then contents tgt ignore_err s else mret (ESDM_ERROR, s).

(** posix.c: the file README-ESDM.TXT must be new. *)
Definition data_contents (tgt : string) (ignore_err : bool) (s : posix_state (FS := FS)) : outcome (esdm_status * posix_state (FS := FS)) :=
  path ← sprintf_path (joinPath tgt README);
  '(ret, s) ← entry_update path (bytes_of README_TEXT) false s;
  mret (if decide (ret = ESDM_SUCCESS) then ESDM_SUCCESS else if ignore_err then ESDM_SUCCESS else ESDM_ERROR, s).

(** md-posix.c: a directory for the containers, and the file, which may exist. *)
Definition md_contents (tgt : string) (ignore_err : bool) (s : posix_state (FS := FS)) : outcome (esdm_status * posix_state (FS := FS)) :=
  path ← sprintf_path (joinPath tgt "containers");
  let '(ok, s) := make_directory path ignore_err s in
  if ok : bool then
    path ← sprintf_path (joinPath tgt README);
    '(ret, s) ← entry_create path (Some README_TEXT) s;
    mret (if decide (ret = ESDM_SUCCESS) then ESDM_SUCCESS else if ignore_err then ESDM_SUCCESS else ESDM_ERROR, s)
  else mret (ESDM_ERROR, s).

Definition data_mkfs := format_target data_contents.
Definition md_mkfs := format_target md_contents.

(** ** src/esdm.c *)

(** The callbacks [mkfs] of the data backends, with the target of the configuration. *)
Context (mkfs_callback : backend_kind -> string -> Z -> posix_state (FS := FS) -> outcome (esdm_status * posix_state (FS := FS))).

(** An error is remembered, and the other backends are formatted all the same. *)
Definition remember (ret_final : esdm_status) (r : esdm_status * posix_state (FS := FS)) : esdm_status * posix_state (FS := FS) :=
  (if decide (r.1 = ESDM_SUCCESS) then ret_final else r.1, r.2).

Definition format_data_backend (format_flags : Z) (target : data_accessibility_t) (b : backend_kind * esdm_config_backend_t)
    (r : esdm_status * posix_state (FS := FS)) : outcome (esdm_status * posix_state (FS := FS)) :=
  if decide (data_accessibility b.2 = target) then
    tgt ← deref (cb_target b.2);
    remember r.1 <$> mkfs_callback b.1 tgt format_flags r.2
  else mret r.

Definition esdm_mkfs (is_initialized : bool) (modules : esdm_modules_t) (format_flags : Z) (target : data_accessibility_t)
    (s : posix_state (FS := FS)) : outcome (esdm_status * posix_state (FS := FS)) :=
  if is_initialized then
    r ← if decide (md_accessibility (metadata_backend modules) = target)
        then remember ESDM_SUCCESS <$> md_mkfs (md_target (metadata_backend modules)) format_flags s
        else mret (ESDM_SUCCESS, s);
    foldM (format_data_backend format_flags target) (data_backends modules) r
  else mret (ESDM_ERROR, s).

End Operations.

(** * What the operating system promises about directories *)

Inductive entry := File (data : list Z) | Folder.

#[global] Instance entry_eq_dec : EqDecision entry.
Proof. solve_decision. Defined.

Definition isFolder (e : entry) : bool := match e with Folder => true | File _ => false end.

(** The last component is a name, and the directory above exists. *)
Definition plain (p : string) : Prop := forall d n, p = joinPath d n -> no_slash n = true -> n <> ""%string /\ n <> "."%string /\ n <> ".."%string.

Definition below (p q : string) : Prop := exists x, q = joinPath p x.

Definition outside (p q : string) : Prop := q <> p /\ ~ below p q.

Section Views.

Context (view : string -> option entry).

Definition parent_exists (p : string) : Prop := forall d n, p = joinPath d n -> no_slash n = true -> d <> ""%string -> view d = Some Folder.

(** Below a target every entry has a name and is in a directory, and the paths fit into the arrays of the code, also with the name
    of the dummy file. *)
Record tree_below (tgt : string) : Prop := {
  tb_parent p : below tgt p -> is_Some (view p) -> plain p /\ parent_exists p;
  tb_fits p e : p = tgt \/ below tgt p -> view p = Some e -> Z.of_nat (String.length p) < PATH_MAX /\ (e = Folder -> Z.of_nat (String.length p) + 6 < PATH_MAX)
}.

Definition empty_directory (p : string) : Prop := forall n, no_slash n = true -> view (joinPath p n) = None.

End Views.

(** The entries when one of them is set or removed. *)
Definition changed (view view' : string -> option entry) (p : string) (e : option entry) : Prop :=
  forall q, view' q = if decide (q = p) then e else view q.

(** Proper paths lead through no symbolic link, so a directory with a proper path has no symbolic links in it; directories can be searched, other
    calls may fail. *)
Class DirectoryLaws (FS : Type) `{FileSystemLaws FS} `{MdFileSystem FS} `{Directories FS} := {
  fs_view : FS -> string -> option entry;
  view_files fs p : fs_files fs p = match fs_view fs p with Some (File data) => Some data | _ => None end;
  stat_view p fs : proper p -> fs_stat p fs = bool_decide (is_Some (fs_view fs p));
  kind_view p fs : proper p -> fs_kind p fs = isFolder <$> fs_view fs p;
  readdir_view p fs names : proper p -> fs_readdir p fs = Some names -> fs_view fs p = Some Folder /\ NoDup names /\
    forall n, n <> "."%string -> n <> ".."%string -> n ∈ names <-> no_slash n = true /\ is_Some (fs_view fs (joinPath p n));
  mkdir_view p fs r fs' : proper p -> fs_mkdir p fs = (r, fs') ->
    match r with
    | Created => fs_view fs p = None /\ parent_exists (fs_view fs) p /\ changed (fs_view fs) (fs_view fs') p (Some Folder)
    | _ => forall q, fs_view fs' q = fs_view fs q
    end;
  create_view p fs r fs' : proper p -> fs_create p fs = (r, fs') ->
    match r with
    | Created => fs_view fs p = None /\ parent_exists (fs_view fs) p /\ changed (fs_view fs) (fs_view fs') p (Some (File []))
    | _ => forall q, fs_view fs' q = fs_view fs q
    end;
  overwrite_view p fs (r : bool) fs' : proper p -> fs_overwrite p fs = (r, fs') ->
    if r then fs_view fs p <> Some Folder /\ parent_exists (fs_view fs) p /\ changed (fs_view fs) (fs_view fs') p (Some (File []))
    else forall q, fs_view fs' q = fs_view fs q;
  write_view p data old fs r fs' : proper p -> fs_view fs p = Some (File old) -> fs_write p data fs = (r, fs') ->
    exists new, changed (fs_view fs) (fs_view fs') p (Some (File new));
  unlink_view p fs (r : bool) fs' : proper p -> fs_unlink p fs = (r, fs') ->
    if r then (exists data, fs_view fs p = Some (File data)) /\ changed (fs_view fs) (fs_view fs') p None
    else forall q, fs_view fs' q = fs_view fs q;
  rmdir_view p fs (r : bool) fs' : proper p -> fs_rmdir p fs = (r, fs') ->
    if r then fs_view fs p = Some Folder /\ empty_directory (fs_view fs) p /\ changed (fs_view fs) (fs_view fs') p None
    else forall q, fs_view fs' q = fs_view fs q
}.

(** A process with the necessary permissions, and enough space: the calls fail only where they must. *)
Class Permissive (FS : Type) `{DirectoryLaws FS} : Prop := {
  io_works :: IoWorks FS;
  readdir_works p (fs : FS) : proper p -> fs_view fs p = Some Folder -> is_Some (fs_readdir p fs);
  closes p (fs : FS) : fs_closedir p fs = true;
  makes_directory p (fs : FS) : proper p -> fs_view fs p = None -> parent_exists (fs_view fs) p -> (fs_mkdir p fs).1 = Created;
  creates p (fs : FS) : proper p -> fs_view fs p = None -> parent_exists (fs_view fs) p -> (fs_create p fs).1 = Created;
  overwrites p (fs : FS) : proper p -> fs_view fs p <> Some Folder -> parent_exists (fs_view fs) p -> (fs_overwrite p fs).1 = true;
  unlinks p data (fs : FS) : proper p -> fs_view fs p = Some (File data) -> (fs_unlink p fs).1 = true;
  removes_directory p (fs : FS) : proper p -> fs_view fs p = Some Folder -> empty_directory (fs_view fs) p -> (fs_rmdir p fs).1 = true
}.

(** * Paths *)

Lemma string_app_cons (c : ascii) (a b : string) : (String c a ++ b = String c (a ++ b))%string.
Proof. reflexivity. Qed.

Lemma string_app_nil (b : string) : ("" ++ b = b)%string.
Proof. reflexivity. Qed.

Lemma no_slash_app (a b : string) : no_slash (a ++ b) = no_slash a && no_slash b.
Proof. induction a as [| c a IH]; [done |]. rewrite string_app_cons. cbn [no_slash]. by rewrite IH, andb_assoc. Qed.

Lemma joinPath_assoc (a b c : string) : joinPath (joinPath a b) c = joinPath a (joinPath b c).
Proof. unfold joinPath. by rewrite !string_app_assoc. Qed.

Lemma joinPath_inj (a x y : string) : joinPath a x = joinPath a y -> x = y.
Proof. unfold joinPath. intros E%string_app_inj. by injection E. Qed.

Lemma joinPath_slash (a n : string) : no_slash (joinPath a n) = false.
Proof. unfold joinPath. rewrite !no_slash_app. cbn. by rewrite andb_false_r. Qed.

Lemma length_joinPath (a n : string) : String.length (joinPath a n) = (String.length a + 1 + String.length n)%nat.
Proof. unfold joinPath. rewrite !length_string_app. simpl. lia. Qed.

(** The last component of a path. *)
Lemma joinPath_last (a b n m : string) : no_slash n = true -> no_slash m = true -> joinPath a n = joinPath b m -> a = b /\ n = m.
Proof.
  intros Hn Hm. unfold joinPath. revert b. induction a as [| c a IH]; intros [| d b] E; rewrite ?string_app_cons, ?string_app_nil in E.
  - by injection E as ->.
  - injection E as _ E. exfalso. rewrite E in Hn. change (no_slash (joinPath b m) = true) in Hn. by rewrite joinPath_slash in Hn.
  - injection E as _ E. exfalso. rewrite <- E in Hm. change (no_slash (joinPath a n) = true) in Hm. by rewrite joinPath_slash in Hm.
  - injection E as -> E. by destruct (IH b E) as [-> ->].
Qed.

Lemma split_last (x : string) : no_slash x = true \/ exists a n, x = joinPath a n /\ no_slash n = true.
Proof.
  induction x as [| c x IH]; [by left |]. destruct IH as [Hx | (a & n & -> & Hn)].
  - cbn [no_slash]. rewrite Hx. destruct (Ascii.eqb_spec c "/") as [-> | Hc]; [right; by exists ""%string, x | by left].
  - right. exists (String c a), n. done.
Qed.

Lemma below_joinPath (p n q : string) : below (joinPath p n) q -> below p q.
Proof. intros [x ->]. exists (joinPath n x). apply joinPath_assoc. Qed.

Lemma below_trans (p q r : string) : below p q -> below q r -> below p r.
Proof. intros [x ->] Hr. by apply below_joinPath in Hr. Qed.

Lemma below_longer (p q : string) : below p q -> (String.length p < String.length q)%nat.
Proof. intros [x ->]. rewrite length_joinPath. lia. Qed.

Lemma outside_child (p n q : string) : ~ below p q -> outside (joinPath p n) q.
Proof. intros Hq. split; [intros -> ; apply Hq; by exists n | intros Hb; by apply Hq, (below_joinPath p n)]. Qed.

Lemma outside_sibling (p n m : string) : no_slash n = true -> no_slash m = true -> m <> n -> outside (joinPath p n) (joinPath p m).
Proof.
  intros Hn Hm Hne. split; [by intros E%joinPath_inj |]. intros [x E]. rewrite joinPath_assoc in E. apply joinPath_inj in E as ->.
  by rewrite joinPath_slash in Hm.
Qed.

(** Two paths that have something in common are in one another. *)
Lemma common_below (t u q : string) : below t q -> below u q -> t = u \/ below t u \/ below u t.
Proof.
  intros [x ->] [y E]. revert u E. unfold joinPath. induction t as [| c t IH]; intros [| d u] E; rewrite ?string_app_cons, ?string_app_nil in E.
  - by left.
  - injection E as <- E. right; left. exists u. done.
  - injection E as -> E. right; right. exists t. done.
  - injection E as -> E. destruct (IH u E) as [-> | [[z ->] | [z ->]]]; [by left | right; left; by exists z | right; right; by exists z].
Qed.

Lemma plain_child (p n : string) : no_slash n = true -> n <> ""%string -> n <> "."%string -> n <> ".."%string -> plain (joinPath p n).
Proof. intros Hn H1 H2 H3 d m E Hm. apply joinPath_last in E as [-> ->]; done. Qed.

Lemma parent_child (view : string -> option entry) (p n : string) : no_slash n = true -> view p = Some Folder -> parent_exists view (joinPath p n).
Proof. intros Hn Hp d m E Hm _. by apply joinPath_last in E as [<- _]. Qed.

(** What a directory that does not exist would contain does not exist. *)
Lemma below_gone (view : string -> option entry) (tgt p : string) : tree_below view tgt -> tgt <> ""%string -> p = tgt \/ below tgt p -> view p <> Some Folder ->
  forall q, below p q -> view q = None.
Proof.
  intros Htree Htgt Hp Hgone q [x ->]. remember (String.length x) as len eqn:Hlen. revert x Hlen. induction len as [len IH] using lt_wf_ind. intros x ->.
  destruct (view (joinPath p x)) as [e |] eqn:E; [exfalso | done].
  assert (Hne : forall y, joinPath p y <> ""%string) by (intros y Ey; apply (f_equal String.length) in Ey; rewrite length_joinPath in Ey; simpl in Ey; lia).
  assert (Hbelow : forall y, below tgt (joinPath p y)).
  { intros y. destruct Hp as [-> | Hp]; [by exists y |]. apply (below_trans _ p); [done | by exists y]. }
  destruct (tb_parent _ _ Htree (joinPath p x)) as [_ Hpar]; [done | by eexists |]. destruct (split_last x) as [Hx | (a & n & -> & Hn)].
  - apply Hgone. apply (Hpar p x); [done | done |]. destruct Hp as [-> | [y ->]]; [done |]. intros Ey. apply (f_equal String.length) in Ey. rewrite length_joinPath in Ey. simpl in Ey. lia.
  - specialize (Hpar (joinPath p a) n). rewrite joinPath_assoc in Hpar. specialize (Hpar eq_refl Hn (Hne a)). rewrite (IH (String.length a)) in Hpar; [done | rewrite length_joinPath; lia | done].
Qed.

(** * Removing a directory *)

Section Remove.

Context {FS : Type} `{DirectoryLaws FS} (tgt : string) (Htgt : tgt <> ""%string).

Definition within (p : string) : Prop := p = tgt \/ below tgt p.

Lemma within_child (p n : string) : within p -> below tgt (joinPath p n).
Proof. intros [-> | Hp]; [by exists n | apply (below_trans _ p); [done | by exists n]]. Qed.

Lemma proper_join (d n : string) : proper d -> fileName n -> proper (joinPath d n).
Proof. apply proper_child. Qed.

(** Setting an entry whose directory exists, and removing an entry that is not a directory in use, keep the tree. *)
Lemma tree_set (view view' : string -> option entry) (p : string) (e : entry) : tree_below view tgt -> changed view view' p (Some e) ->
  (view p = Some Folder -> e = Folder) -> plain p -> parent_exists view p -> Z.of_nat (String.length p) < PATH_MAX -> (e = Folder -> Z.of_nat (String.length p) + 6 < PATH_MAX) -> tree_below view' tgt.
Proof.
  intros Htree Hch Hp Hplain Hpar Hlen Hdummy.
  assert (Hkeep : forall d, view d = Some Folder -> view' d = Some Folder) by (intros d Hd; rewrite Hch; case_decide; [subst; by rewrite Hp | done]).
  constructor.
  - intros q Hq Hsome. rewrite Hch in Hsome. destruct (decide (q = p)) as [-> | Hne].
    + split; [done |]. intros d n E Hn Hd. apply Hkeep. by apply (Hpar d n).
    + destruct (tb_parent _ _ Htree q Hq Hsome) as [Hplq Hparq]. split; [done |]. intros d n E Hn Hd. apply Hkeep. by apply (Hparq d n).
  - intros q e' Hq E. rewrite Hch in E. case_decide; [injection E as <-; subst; by split |]. by apply (tb_fits _ _ Htree).
Qed.

Lemma tree_unset (view view' : string -> option entry) (p : string) : tree_below view tgt -> changed view view' p None ->
  empty_directory view p -> tree_below view' tgt.
Proof.
  intros Htree Hch Hempty. constructor.
  - intros q Hq Hsome. rewrite Hch in Hsome. destruct (decide (q = p)) as [-> | Hne]; [by destruct Hsome |].
    destruct (tb_parent _ _ Htree q Hq Hsome) as [Hpl Hpar]. split; [done |]. intros d n E Hn Hd. rewrite Hch. destruct (decide (d = p)) as [-> | Hdp]; [| by apply (Hpar d n)].
    exfalso. rewrite E, (Hempty n Hn) in Hsome. by destruct Hsome.
  - intros q e Hq E. rewrite Hch in E. case_decide; [done |]. by apply (tb_fits _ _ Htree).
Qed.

Lemma tree_same (view view' : string -> option entry) : (forall q, view' q = view q) -> tree_below view tgt -> tree_below view' tgt.
Proof.
  intros Hsame Htree. constructor.
  - intros q Hq Hsome. rewrite Hsame in Hsome. destruct (tb_parent _ _ Htree q Hq Hsome) as [Hpl Hpar]. split; [done |]. intros d n E Hn Hd. rewrite Hsame. by apply (Hpar d n).
  - intros q e Hq E. rewrite Hsame in E. by apply (tb_fits _ _ Htree).
Qed.

(** A file has nothing below it. *)
Lemma file_leaf (view : string -> option entry) (p : string) (data : list Z) : tree_below view tgt -> within p -> view p = Some (File data) -> empty_directory view p.
Proof. intros Htree Hp Ep n Hn. apply (below_gone view tgt p); [done | done | done | congruence | by exists n]. Qed.

(** The outcome of removing [p]. *)
Record removed (p : string) (fs : FS) (ok : bool) (fs' : FS) : Prop := {
  rm_tree : tree_below (fs_view fs') tgt;
  rm_frame q : outside p q -> fs_view fs' q = fs_view fs q;
  rm_gone : ok = true -> fs_view fs' p = None;
  rm_works : Permissive FS -> ok = true
}.

Lemma remove_children_ok (remove : string -> FS -> outcome (bool * FS)) (p : string) (names : list string) (fs : FS) :
  (forall n fs0, fileName n -> is_Some (fs_view fs0 (joinPath p n)) -> tree_below (fs_view fs0) tgt ->
    exists ok fs1, remove (joinPath p n) fs0 = Done (ok, fs1) /\ removed (joinPath p n) fs0 ok fs1) ->
  within p -> tree_below (fs_view fs) tgt -> NoDup names ->
  (forall n, n ∈ names -> n <> "."%string -> n <> ".."%string -> no_slash n = true /\ is_Some (fs_view fs (joinPath p n))) ->
  exists ok fs', remove_children remove p names fs = Done (ok, fs') /\ tree_below (fs_view fs') tgt /\
  (forall q, ~ below p q -> fs_view fs' q = fs_view fs q) /\
  (ok = true -> forall n, no_slash n = true -> n <> "."%string -> n <> ".."%string -> n ∈ names \/ fs_view fs (joinPath p n) = None -> fs_view fs' (joinPath p n) = None) /\
  (Permissive FS -> ok = true).
Proof.
  intros Hrec Hp. revert fs. induction names as [| n names IH]; intros fs Htree Hdup Hnames.
  { exists true, fs. split; [done |]. split; [done |]. split; [done |]. split; [| done]. intros _ n _ _ _ [Hn | Hn]; [by apply not_elem_of_nil in Hn | done]. }
  apply NoDup_cons in Hdup as [Hn Hdup]. cbn [remove_children]. case_decide as Hdot.
  - destruct Hdot as [Hd1 Hd2]. destruct (Hnames n) as [Hslash Hsome]; [left | done | done |].
    rewrite sprintf_path_ok; [| destruct Hsome as [e E]; apply (tb_fits _ _ Htree _ _ (or_intror (within_child p n Hp)) E)]. run.
    assert (Hname : fileName n).
    { destruct (tb_parent _ _ Htree (joinPath p n) (within_child p n Hp) Hsome) as [Hpl _]. split; [done |]. by apply (Hpl p n). }
    destruct (Hrec n fs Hname Hsome Htree) as (ok & fs1 & -> & Hrm). run.
    assert (Hsib : forall m, no_slash m = true -> m <> n -> fs_view fs1 (joinPath p m) = fs_view fs (joinPath p m)) by (intros m Hm Hmn; apply (rm_frame _ _ _ _ Hrm), outside_sibling; done).
    assert (Hout : forall q, ~ below p q -> fs_view fs1 q = fs_view fs q) by (intros q Hq; apply (rm_frame _ _ _ _ Hrm), outside_child; done).
    destruct ok.
    2: { exists false, fs1. split; [done |]. split; [apply (rm_tree _ _ _ _ Hrm) |]. split; [done |]. split; [done | apply (rm_works _ _ _ _ Hrm)]. }
    destruct (IH fs1) as (ok & fs2 & E2 & Htree2 & Hframe & Hgone & Hworks); [apply (rm_tree _ _ _ _ Hrm) | done | |].
    { intros m Hm Hm1 Hm2. destruct (Hnames m) as [Hms Hmsome]; [by right | done | done |]. split; [done |]. rewrite Hsib; [done | done | by intros ->]. }
    exists ok, fs2. split; [done |]. split; [done |]. split; [intros q Hq; by rewrite Hframe, Hout |]. split; [| done].
    intros Hok m Hm Hm1 Hm2 Hin. apply (Hgone Hok m Hm Hm1 Hm2). destruct (decide (m = n)) as [-> | Hmn]; [right; by apply (rm_gone _ _ _ _ Hrm) |].
    destruct Hin as [Hin | Hnone]; [left; apply elem_of_cons in Hin as [? | ?]; done | right; by rewrite Hsib].
  - destruct (IH fs Htree Hdup) as (ok & fs2 & E2 & Htree2 & Hframe & Hgone & Hworks); [intros m Hm; apply Hnames; by right |].
    exists ok, fs2. split; [done |]. split; [done |]. split; [done |]. split; [| done]. intros Hok m Hm Hm1 Hm2 Hin. apply (Hgone Hok m Hm Hm1 Hm2).
    destruct Hin as [Hin | Hnone]; [left; apply elem_of_cons in Hin as [-> | ?]; [exfalso; tauto | done] | by right].
Qed.

(** The dummy file. *)
Lemma dummy_ok (p : string) (fs fs' : FS) (r : bool) : proper p -> tree_below (fs_view fs) tgt -> within p -> fs_view fs p = Some Folder ->
  fs_overwrite (joinPath p "dummy") fs = (r, fs') ->
  tree_below (fs_view fs') tgt /\ (forall q, ~ below p q -> fs_view fs' q = fs_view fs q) /\ fs_view fs' p = Some Folder.
Proof.
  intros Hpr Htree Hp Ep E. assert (Hnot : ~ below p p) by (intros Hb%below_longer; lia).
  pose proof (overwrite_view _ _ _ _ (proper_join p "dummy" Hpr ltac:(by repeat split)) E) as Hov. destruct r.
  - destruct Hov as (Hfile & Hpar & Hch). assert (Hout : forall q, ~ below p q -> fs_view fs' q = fs_view fs q).
    { intros q Hq. rewrite Hch, decide_False; [done |]. intros ->. apply Hq. by exists "dummy"%string. }
    split; [| split; [done | by rewrite Hout]]. apply (tree_set _ _ _ _ Htree Hch); [done | by apply plain_child | done | | done].
    destruct (tb_fits _ _ Htree p Folder Hp Ep) as [_ Hfit]. specialize (Hfit eq_refl). rewrite length_joinPath. change (String.length "dummy") with 5%nat. lia.
  - split; [by apply (tree_same (fs_view fs)) |]. split; [done | by rewrite Hov].
Qed.

(** [posix_recursive_remove()] returns, touches nothing outside of the path, and removes everything when the system permits it. *)
Lemma remove_ok (fuel : nat) (p : string) (fs : FS) : proper p -> within p -> is_Some (fs_view fs p) -> tree_below (fs_view fs) tgt -> PATH_MAX <= Z.of_nat (fuel + String.length p) ->
  exists ok fs', posix_recursive_remove fuel p fs = Done (ok, fs') /\ removed p fs ok fs'.
Proof.
  revert p fs. induction fuel as [| fuel IH]; intros p fs Hpr Hp [e Ep] Htree Hfuel; destruct (tb_fits _ _ Htree p e Hp Ep) as [Hlen Hdummy]; [lia |].
  cbn [posix_recursive_remove]. rewrite kind_view, Ep by done. destruct e as [data |]; cbn [fmap option_fmap option_map isFolder].
  - run. destruct (fs_unlink p fs) as [ok fs'] eqn:E. exists ok, fs'. split; [done |]. pose proof (unlink_view _ _ _ _ Hpr E) as Hun. constructor.
    + destruct ok; [| by apply (tree_same (fs_view fs))]. apply (tree_unset _ _ p Htree); [apply Hun | by apply (file_leaf _ _ data)].
    + intros q [Hq _]. destruct ok; [destruct Hun as [_ ->]; by rewrite decide_False | done].
    + intros ->. destruct Hun as [_ ->]. by rewrite decide_True.
    + intros Hperm. pose proof (unlinks p data fs Hpr Ep) as Hw. by rewrite E in Hw.
  - specialize (Hdummy eq_refl). rewrite sprintf_path_ok; [run | rewrite length_joinPath; change (String.length "dummy") with 5%nat; lia].
    destruct (fs_overwrite (joinPath p "dummy") fs) as [r0 fs0] eqn:E0. destruct (dummy_ok _ _ _ _ Hpr Htree Hp Ep E0) as (Htree0 & Hout0 & Ep0).
    destruct (fs_readdir p fs0) as [names |] eqn:Er.
    2: { exists false, fs0. split; [done |]. constructor; [done | intros q [_ Hq]; by apply Hout0 | done |]. intros Hperm. destruct (readdir_works p fs0 Hpr Ep0) as [? Hr]. congruence. }
    destruct (readdir_view _ _ _ Hpr Er) as (_ & Hdup & Hnames). destruct (remove_children_ok (posix_recursive_remove fuel) p names fs0) as (ok & fs1 & -> & Htree1 & Hout1 & Hgone1 & Hworks1); [| done | done | done | | ].
    { intros n fs2 Hn Hsome Htree2. apply IH; [by apply proper_join | right; by apply within_child | done | done | rewrite length_joinPath; lia]. }
    { intros n Hn Hd1 Hd2. by apply Hnames. }
    run. assert (Hnot : ~ below p p) by (intros Hb%below_longer; lia). destruct (ok && fs_closedir p fs1) eqn:Eok.
    2: { exists false, fs1. split; [done |]. constructor; [done | intros q [_ Hq]; by rewrite Hout1, Hout0 | done |].
         intros Hperm. by rewrite (Hworks1 Hperm), closes in Eok. }
    apply andb_true_iff in Eok as [-> _].
    assert (Ep1 : fs_view fs1 p = Some Folder) by by rewrite Hout1.
    destruct (fs_rmdir p fs1) as [ok fs2] eqn:E2. exists ok, fs2. split; [done |]. pose proof (rmdir_view _ _ _ _ Hpr E2) as Hrm. constructor.
    + destruct ok; [| by apply (tree_same (fs_view fs1))]. apply (tree_unset _ _ p Htree1); apply Hrm.
    + intros q [Hq1 Hq2]. transitivity (fs_view fs1 q); [| by rewrite Hout1, Hout0]. destruct ok; [destruct Hrm as (_ & _ & ->); by rewrite decide_False | done].
    + intros ->. destruct Hrm as (_ & _ & ->). by rewrite decide_True.
    + intros Hperm. assert (Hempty : empty_directory (fs_view fs1) p).
      { intros n Hn. destruct (decide (n = "."%string \/ n = ".."%string)) as [Hdot | Hdot].
        - destruct (fs_view fs1 (joinPath p n)) eqn:E; [exfalso | done].
          destruct (tb_parent _ _ Htree1 (joinPath p n)) as [Hplain _]; [by apply within_child | by eexists |]. destruct (Hplain p n) as (_ & Hd1 & Hd2); [done | done |]. by destruct Hdot.
        - apply (Hgone1 eq_refl n Hn); [tauto | tauto |]. destruct (fs_view fs0 (joinPath p n)) eqn:E; [left | by right]. apply Hnames; [tauto | tauto |]. split; [done | by eexists]. }
      pose proof (removes_directory p fs1 Hpr Ep1 Hempty) as Hw. by rewrite E2 in Hw.
Qed.

(** * The two functions *)

Context (Hplain : plain tgt) (Hproper : proper tgt) (Hlen : Z.of_nat (String.length tgt) + 17 < PATH_MAX).

Abbreviation readme := (joinPath tgt README).

Lemma child_fits (n : string) : (String.length n <= 15)%nat -> Z.of_nat (String.length (joinPath tgt n)) < PATH_MAX.
Proof. rewrite length_joinPath. lia. Qed.

Lemma proper_readme : proper readme.
Proof. apply proper_join; [done | by repeat split]. Qed.

Lemma readme_exists (fs : FS) : tree_below (fs_view fs) tgt -> is_Some (fs_view fs readme) -> fs_view fs tgt = Some Folder.
Proof. intros Htree Hsome. destruct (tb_parent _ _ Htree readme) as [_ Hpar]; [by exists README | done |]. by apply (Hpar tgt README). Qed.

(** What [ESDM_FORMAT_DELETE] does. *)
Lemma clear_ok (format_flags : Z) (fs : FS) : tree_below (fs_view fs) tgt ->
  exists ok fs', clear_target tgt format_flags fs = Done (ok, fs') /\ tree_below (fs_view fs') tgt /\
  (forall q, outside tgt q -> fs_view fs' q = fs_view fs q) /\
  (has_flag format_flags ESDM_FORMAT_DELETE = false -> ok = true /\ fs' = fs) /\
  (has_flag format_flags ESDM_FORMAT_DELETE = true -> fs_view fs readme = None -> ok = has_flag format_flags ESDM_FORMAT_IGNORE_ERRORS /\ fs' = fs) /\
  (has_flag format_flags ESDM_FORMAT_DELETE = true -> is_Some (fs_view fs readme) -> (ok = true -> fs_view fs' tgt = None) /\ (Permissive FS -> ok = true)).
Proof.
  intros Htree. unfold clear_target. destruct (has_flag format_flags ESDM_FORMAT_DELETE); [| by exists true, fs].
  rewrite sprintf_path_ok by (apply child_fits; vm_compute; lia). run. rewrite stat_view by apply proper_readme. case_bool_decide as Hreadme.
  - destruct (remove_ok (Z.to_nat PATH_MAX) tgt fs) as (ok & fs' & -> & Hrm); [done | by left | rewrite readme_exists; [by eexists | done | done] | done | lia |].
    exists ok, fs'. split; [done |]. split; [apply (rm_tree _ _ _ _ Hrm) |]. split; [apply (rm_frame _ _ _ _ Hrm) |]. split; [done |]. split; [intros _ Hnone; rewrite Hnone in Hreadme; by destruct Hreadme |].
    intros _ _. split; [apply (rm_gone _ _ _ _ Hrm) | apply (rm_works _ _ _ _ Hrm)].
  - eexists _, fs. split; [done |]. split; [done |]. split; [done |]. split; [done |]. split; [done |]. done.
Qed.

(** A directory below the target, or the target itself. *)
Lemma make_directory_ok (p : string) (ignore_err : bool) (s : posix_state (FS := FS)) : within p -> plain p -> proper p -> Z.of_nat (String.length p) + 6 < PATH_MAX ->
  tree_below (fs_view (files s)) tgt ->
  exists ok s', make_directory p ignore_err s = (ok, s') /\ tree_below (fs_view (files s')) tgt /\
  (forall q, q <> p \/ is_Some (fs_view (files s) q) -> fs_view (files s') q = fs_view (files s) q) /\ (ignore_err = true -> ok = true) /\
  (Permissive FS -> fs_view (files s) p = None -> parent_exists (fs_view (files s)) p -> ok = true /\ fs_view (files s') p = Some Folder).
Proof.
  intros Hp Hpl Hpr Hfit Htree. unfold make_directory. destruct (fs_mkdir p (files s)) as [r fs'] eqn:E. pose proof (mkdir_view _ _ _ _ Hpr E) as Hmk.
  eexists _, _. split; [done |]. cbn [files setFiles]. assert (r = Created \/ r <> Created) as [-> | Hr] by (destruct r; auto).
  - destruct Hmk as (Hnone & Hpar & Hch). split; [apply (tree_set _ _ _ _ Htree Hch); [congruence | done | done | lia | done] |]. split; [| split; [done |]].
    + intros q Hq. rewrite Hch. case_decide; [subst; destruct Hq as [Hq | Hq]; [done | rewrite Hnone in Hq; by destruct Hq] | done].
    + intros _ _ _. split; [done |]. rewrite Hch. by rewrite decide_True.
  - assert (Hsame : forall q, fs_view fs' q = fs_view (files s) q) by by destruct r. split; [by apply (tree_same (fs_view (files s))) |]. split; [by intros |]. split; [by intros ->; destruct r |].
    intros Hperm Hnone Hpar. pose proof (makes_directory p (files s) Hpr Hnone Hpar) as Hw. by rewrite E in Hw.
Qed.

(** Writing to a file that exists. *)
Lemma write_loop_view (fuel : nat) (p : string) (data old : list Z) (fs : FS) :
  proper p -> fs_view fs p = Some (File old) -> (length data + fs_interrupts fs <= fuel)%nat ->
  completes (IoWorks FS) (write_loop fuel p data fs) (fun '(ok, fs') => ok = true /\ changed (fs_view fs) (fs_view fs') p (Some (File (old ++ data)))).
Proof.
  intros Hpr. revert data old fs. induction fuel as [| fuel IH]; intros data old fs Hp Hfuel.
  { destruct data; [| simpl in Hfuel; lia]. apply completes_done. split; [done |]. intros q. rewrite app_nil_r. case_decide; by subst. }
  assert (Hfile : fs_files fs p = Some old) by by rewrite view_files, Hp.
  destruct data as [| x data]; [apply completes_done; split; [done |]; intros q; rewrite app_nil_r; case_decide; by subst |].
  cbn [write_loop]. destruct (fs_write p (x :: data) fs) as [r fs1] eqn:Ew. destruct (write_view _ _ _ _ _ _ Hpr Hp Ew) as [mid Hmid].
  destruct (write_law _ _ _ _ _ _ Ew Hpr Hfile) as (_ & Hint & Hr); [done |]. assert (Hp1 : fs_view fs1 p = Some (File mid)) by (rewrite Hmid; by rewrite decide_True).
  assert (Htrans : forall fs' e, changed (fs_view fs1) (fs_view fs') p e -> changed (fs_view fs) (fs_view fs') p e).
  { intros fs' e Hnew q. rewrite Hnew. case_decide; [done |]. rewrite Hmid. by rewrite decide_False. }
  destruct r as [n | |].
  - destruct Hr as [Hn Hfile1]. rewrite view_files, Hp1 in Hfile1. injection Hfile1 as ->.
    eapply completes_mono; [apply (IH (drop (Z.to_nat n) (x :: data)) _ fs1 Hp1); rewrite length_drop; simpl in *; lia |].
    intros [ok fs'] [-> Hnew]. split; [done |]. apply Htrans. by rewrite <- app_assoc, take_drop in Hnew.
  - destruct Hr as [Hfile1 Hlt]. rewrite view_files, Hp1 in Hfile1. injection Hfile1 as ->.
    eapply completes_mono; [apply (IH (x :: data) _ fs1 Hp1); simpl in *; lia |]. intros [ok fs'] [-> Hnew]. split; [done | by apply Htrans].
  - left. split; [done |]. intros W. apply (write_works p (x :: data) fs); [by eexists | by rewrite Ew].
Qed.

(** The file README-ESDM.TXT has been written, or the attempt has failed. *)
Record written (s : posix_state (FS := FS)) (st : esdm_status) (s' : posix_state (FS := FS)) : Prop := {
  wr_tree : tree_below (fs_view (files s')) tgt;
  wr_frame q : q <> readme -> fs_view (files s') q = fs_view (files s) q;
  wr_text : st = ESDM_SUCCESS -> fs_view (files s') readme = Some (File (bytes_of README_TEXT));
  wr_works : Permissive FS -> fs_view (files s) tgt = Some Folder -> fs_view (files s) readme = None -> st = ESDM_SUCCESS
}.

Lemma plain_readme : plain readme.
Proof. by apply plain_child. Qed.

Lemma readme_written (s : posix_state (FS := FS)) (fs1 : FS) : tree_below (fs_view (files s)) tgt -> fs_view (files s) readme <> Some Folder ->
  parent_exists (fs_view (files s)) readme -> changed (fs_view (files s)) (fs_view fs1) readme (Some (File [])) ->
  completes (IoWorks FS) (ea_write_check readme (bytes_of README_TEXT) fs1) (fun '(ok, fs') => ok = true /\ written s ESDM_SUCCESS (setFiles s fs')).
Proof.
  intros Htree Hfile Hpar Hch. assert (E1 : fs_view fs1 readme = Some (File [])) by (rewrite Hch; by rewrite decide_True). unfold ea_write_check.
  eapply completes_mono; [apply (write_loop_view _ readme (bytes_of README_TEXT) [] fs1 proper_readme E1); done |]. intros [ok fs'] [-> Hnew]. split; [done |].
  assert (Hall : changed (fs_view (files s)) (fs_view fs') readme (Some (File (bytes_of README_TEXT)))).
  { intros q. rewrite Hnew. case_decide; [done |]. rewrite Hch. by rewrite decide_False. }
  constructor; cbn [files setFiles].
  - apply (tree_set _ _ _ _ Htree Hall); [done | apply plain_readme | done | apply child_fits; vm_compute; lia | done].
  - intros q Hq. rewrite Hall. by rewrite decide_False.
  - intros _. by rewrite Hall, decide_True.
  - done.
Qed.

Lemma not_written (s s' : posix_state (FS := FS)) : tree_below (fs_view (files s)) tgt -> (forall q, fs_view (files s') q = fs_view (files s) q) ->
  (Permissive FS -> fs_view (files s) tgt = Some Folder -> fs_view (files s) readme = None -> False) -> written s ESDM_ERROR s'.
Proof. intros Htree Hsame Hno. constructor; [by apply (tree_same (fs_view (files s))) | by intros | done | intros Hp Ht Hr; by destruct (Hno Hp Ht Hr)]. Qed.

Lemma data_readme_ok (s : posix_state (FS := FS)) : tree_below (fs_view (files s)) tgt ->
  completes (IoWorks FS) (entry_update readme (bytes_of README_TEXT) false s) (fun '(st, s') => written s st s').
Proof.
  intros Htree. unfold entry_update. destruct (fs_create readme (files s)) as [r fs1] eqn:E. pose proof (create_view _ _ _ _ proper_readme E) as Hcr.
  assert (Hno : r <> Created -> Permissive FS -> fs_view (files s) tgt = Some Folder -> fs_view (files s) readme = None -> False).
  { intros Hr Hperm Ht Hnone. pose proof (creates readme (files s) proper_readme Hnone (parent_child _ tgt README eq_refl Ht)) as Hw. by rewrite E in Hw. }
  destruct r.
  - destruct Hcr as (Hnone & Hpar & Hch). eapply completes_bind; [apply (readme_written s fs1); [done | congruence | done | done] |].
    intros [ok fs'] [-> Hw]. by apply completes_done.
  - apply completes_done, not_written; [done | done | by apply Hno].
  - apply completes_done, not_written; [done | done | by apply Hno].
Qed.

Lemma md_readme_ok (s : posix_state (FS := FS)) : tree_below (fs_view (files s)) tgt ->
  completes (IoWorks FS) (entry_create readme (Some README_TEXT) s) (fun '(st, s') => written s st s').
Proof.
  intros Htree. unfold entry_create. destruct (fs_overwrite readme (files s)) as [r fs1] eqn:E. pose proof (overwrite_view _ _ _ _ proper_readme E) as Hov. destruct r.
  - destruct Hov as (Hfile & Hpar & Hch). eapply completes_bind; [apply (readme_written s fs1); done |].
    intros [ok fs'] [-> Hw]. by apply completes_done.
  - apply completes_done, not_written; [done | done |]. intros Hperm Ht Hnone.
    assert (Hnf : fs_view (files s) readme <> Some Folder) by (rewrite Hnone; done). pose proof (overwrites readme (files s) proper_readme Hnf (parent_child _ tgt README eq_refl Ht)) as Hw. by rewrite E in Hw.
Qed.

(** The entries of a new store: the target, the file README-ESDM.TXT, some empty directories, and nothing else. *)
Record formatted (dirs : list string) (view : string -> option entry) : Prop := {
  fm_target : view tgt = Some Folder;
  fm_readme : view readme = Some (File (bytes_of README_TEXT));
  fm_dirs d : d ∈ dirs -> view (joinPath tgt d) = Some Folder;
  fm_rest q : below tgt q -> q <> readme -> q ∉ joinPath tgt <$> dirs -> view q = None
}.

(** What the two functions that fill the new directory have in common. *)
Definition contents_ok (contents : string -> bool -> posix_state (FS := FS) -> outcome (esdm_status * posix_state (FS := FS))) (dirs : list string) : Prop :=
  (README ∉ dirs) /\
  forall ignore_err s, tree_below (fs_view (files s)) tgt -> completes (IoWorks FS) (contents tgt ignore_err s) (fun '(st, s') => tree_below (fs_view (files s')) tgt /\
  (forall q, q <> readme -> (q ∉ joinPath tgt <$> dirs) \/ is_Some (fs_view (files s) q) -> fs_view (files s') q = fs_view (files s) q) /\
  (Permissive FS -> fs_view (files s) tgt = Some Folder -> fs_view (files s) readme = None ->
    (ignore_err = true \/ forall d, d ∈ dirs -> fs_view (files s) (joinPath tgt d) = None) ->
    st = ESDM_SUCCESS /\ fs_view (files s') readme = Some (File (bytes_of README_TEXT)) /\
    forall d, d ∈ dirs -> fs_view (files s) (joinPath tgt d) = None -> fs_view (files s') (joinPath tgt d) = Some Folder)).

Lemma data_contents_ok : contents_ok data_contents [].
Proof.
  split; [apply not_elem_of_nil |]. intros ignore_err s Htree. unfold data_contents. rewrite sprintf_path_ok by (apply child_fits; vm_compute; lia). run.
  eapply completes_bind; [apply (data_readme_ok s Htree) |]. intros [st s'] Hw. apply completes_done. split; [apply (wr_tree _ _ _ Hw) |].
  split; [intros q Hq _; by apply (wr_frame _ _ _ Hw) |]. intros Hperm Ht Hr _. pose proof (wr_works _ _ _ Hw Hperm Ht Hr) as ->. split; [done |].
  split; [by apply (wr_text _ _ _ Hw) |]. intros d Hd. by apply not_elem_of_nil in Hd.
Qed.

Lemma md_contents_ok : contents_ok md_contents ["containers"%string].
Proof.
  split; [by intros Hin%list_elem_of_singleton |]. intros ignore_err s Htree. unfold md_contents. rewrite (sprintf_path_ok (joinPath tgt "containers")) by (apply child_fits; vm_compute; lia). run.
  assert (Hplc : plain (joinPath tgt "containers")) by by apply plain_child.
  destruct (make_directory_ok (joinPath tgt "containers") ignore_err s) as (ok & s1 & E1 & Htree1 & Hframe1 & Hign & Hmade); [right; by exists "containers"%string | done | apply proper_join; [done | by repeat split] | rewrite length_joinPath; change (String.length "containers") with 10%nat; lia | done |].
  rewrite E1. assert (Hother : forall q, (q ∉ joinPath tgt <$> ["containers"%string]) \/ is_Some (fs_view (files s) q) -> fs_view (files s1) q = fs_view (files s) q).
  { intros q [Hq | Hq]; apply Hframe1; [left; intros ->; apply Hq; by left | by right]. }
  assert (Htgtkeep : fs_view (files s) tgt = Some Folder -> fs_view (files s1) tgt = Some Folder) by (intros Ht; rewrite Hframe1; [done | right; by eexists]).
  assert (Hreadme : fs_view (files s1) readme = fs_view (files s) readme) by (apply Hframe1; left; by intros E%joinPath_inj).
  assert (Hnew : Permissive FS -> fs_view (files s) tgt = Some Folder -> fs_view (files s) (joinPath tgt "containers") = None -> ok = true /\ fs_view (files s1) (joinPath tgt "containers") = Some Folder).
  { intros Hperm Ht Hnone. apply Hmade; [done | done | by apply parent_child]. }
  destruct ok.
  - rewrite sprintf_path_ok by (apply child_fits; vm_compute; lia). run. eapply completes_bind; [apply (md_readme_ok s1 Htree1) |]. intros [st s'] Hw. apply completes_done. split; [apply (wr_tree _ _ _ Hw) |].
    split; [intros q Hq Hq'; rewrite (wr_frame _ _ _ Hw) by done; by apply Hother |]. intros Hperm Ht Hr Hd. rewrite <- Hreadme in Hr. pose proof (wr_works _ _ _ Hw Hperm (Htgtkeep Ht) Hr) as ->. split; [done |].
    split; [by apply (wr_text _ _ _ Hw) |]. intros d ->%list_elem_of_singleton Hnone. rewrite (wr_frame _ _ _ Hw) by by intros Ej%joinPath_inj. by apply Hnew.
  - apply completes_done. split; [done |]. split; [intros q _ Hq; by apply Hother |]. intros Hperm Ht Hr Hd. exfalso.
    destruct Hd as [-> | Hd]; [by specialize (Hign eq_refl) |]. destruct (Hnew Hperm Ht) as [[=] _]. apply Hd. by left.
Qed.

(** What [mkfs()] promises. *)
Record mkfs_result (dirs : list string) (format_flags : Z) (s : posix_state (FS := FS)) (st : esdm_status) (s' : posix_state (FS := FS)) : Prop := {
  mk_tree : tree_below (fs_view (files s')) tgt;
  mk_outside q : outside tgt q -> fs_view (files s') q = fs_view (files s) q;
  mk_keeps : has_flag format_flags ESDM_FORMAT_DELETE = false \/ fs_view (files s) readme = None ->
    forall q e, q <> readme -> fs_view (files s) q = Some e -> fs_view (files s') q = Some e;
  mk_refuses : has_flag format_flags ESDM_FORMAT_DELETE = true -> has_flag format_flags ESDM_FORMAT_IGNORE_ERRORS = false -> fs_view (files s) readme = None ->
    st = ESDM_ERROR /\ s' = s;
  mk_fresh : Permissive FS -> has_flag format_flags ESDM_FORMAT_CREATE = true -> parent_exists (fs_view (files s)) tgt ->
    (has_flag format_flags ESDM_FORMAT_DELETE = true /\ is_Some (fs_view (files s) readme)) \/
    (fs_view (files s) tgt = None /\ (has_flag format_flags ESDM_FORMAT_DELETE = true -> has_flag format_flags ESDM_FORMAT_IGNORE_ERRORS = true)) ->
    st = ESDM_SUCCESS /\ formatted dirs (fs_view (files s'));
  mk_marks : Permissive FS -> has_flag format_flags ESDM_FORMAT_CREATE = true -> has_flag format_flags ESDM_FORMAT_IGNORE_ERRORS = true ->
    fs_view (files s) tgt = Some Folder -> fs_view (files s) readme = None -> st = ESDM_SUCCESS /\ is_Some (fs_view (files s') readme)
}.

(** Filling the directory after it has been made. *)
Lemma fill_target_ok (contents : string -> bool -> posix_state (FS := FS) -> outcome (esdm_status * posix_state (FS := FS))) (dirs : list string) (ignore_err : bool) (s : posix_state (FS := FS)) :
  contents_ok contents dirs -> tree_below (fs_view (files s)) tgt ->
  completes (IoWorks FS) (let '(ok, s) := make_directory tgt ignore_err s in if ok : bool then contents tgt ignore_err s else mret (ESDM_ERROR, s)) (fun '(st, s') =>
  tree_below (fs_view (files s')) tgt /\ (forall q, outside tgt q -> fs_view (files s') q = fs_view (files s) q) /\
  (forall q e, q <> readme -> fs_view (files s) q = Some e -> fs_view (files s') q = Some e) /\
  (Permissive FS -> parent_exists (fs_view (files s)) tgt -> fs_view (files s) tgt = None -> st = ESDM_SUCCESS /\ formatted dirs (fs_view (files s'))) /\
  (Permissive FS -> ignore_err = true -> fs_view (files s) tgt = Some Folder -> fs_view (files s) readme = None -> st = ESDM_SUCCESS /\ is_Some (fs_view (files s') readme))).
Proof.
  intros [Hdirs Hcont] Htree. destruct (make_directory_ok tgt ignore_err s) as (ok & s1 & -> & Htree1 & Hframe1 & Hign & Hmade); [by left | done | done | lia | done |].
  assert (Hbr : readme <> tgt) by (intros E; apply (f_equal String.length) in E; rewrite length_joinPath in E; simpl in E; lia).
  destruct ok.
  2: { apply completes_done. split; [done |]. split; [intros q [Hq _]; apply Hframe1; by left |]. split; [intros q e _ E; rewrite Hframe1; [done | right; by eexists] |].
       split; [intros Hperm Hpar Hnone; by destruct (Hmade Hperm Hnone Hpar) | intros _ Hi; by specialize (Hign Hi)]. }
  eapply completes_mono; [apply (Hcont ignore_err s1 Htree1) |]. intros [st s'] (Htree' & Hframe & Hworks). split; [done |]. split; [| split; [| split]].
  - intros q [Hq Hb]. rewrite Hframe, Hframe1; [done | by left | intros ->; apply Hb; by exists README |]. left. intros (d & -> & _)%list_elem_of_fmap. apply Hb. by exists d.
  - intros q e Hq E. assert (E1 : fs_view (files s1) q = Some e) by (rewrite Hframe1; [done | right; by eexists]). rewrite Hframe; [done | done | right; by eexists].
  - intros Hperm Hpar Hnone. destruct (Hmade Hperm Hnone Hpar) as [_ Ht1]. assert (Hgone : forall q, below tgt q -> fs_view (files s1) q = None).
    { intros q Hq. rewrite Hframe1; [| left; intros ->; apply below_longer in Hq; lia]. apply (below_gone (fs_view (files s)) tgt tgt); [done | done | by left | congruence | done]. }
    assert (Hbelow : forall d, fs_view (files s1) (joinPath tgt d) = None) by (intros d; apply Hgone; by exists d).
    destruct (Hworks Hperm Ht1 (Hbelow README)) as (Hst & Hr & Hd); [right; by intros |]. split; [done |]. constructor; [| done | by intros d Hin; apply Hd |].
    + rewrite Hframe; [done | done | right; by eexists].
    + intros q Hq Hqr Hqd. rewrite Hframe; [by apply Hgone | done | by left].
  - intros Hperm Hi Ht Hr. assert (Ht1 : fs_view (files s1) tgt = Some Folder) by (rewrite Hframe1; [done | right; by eexists]).
    destruct (Hworks Hperm Ht1) as (Hst & Hr' & _); [rewrite Hframe1; [done | by left] | by left |]. split; [done | by eexists].
Qed.

Context (Hlong : 6 <= Z.of_nat (String.length tgt)).

Lemma mkfs_ok (contents : string -> bool -> posix_state (FS := FS) -> outcome (esdm_status * posix_state (FS := FS))) (dirs : list string) (format_flags : Z) (s : posix_state (FS := FS)) :
  contents_ok contents dirs -> tree_below (fs_view (files s)) tgt ->
  completes (IoWorks FS) (format_target contents tgt format_flags s) (fun '(st, s') => mkfs_result dirs format_flags s st s').
Proof.
  intros Hcont Htree. unfold format_target. destruct (Z.ltb_spec (Z.of_nat (String.length tgt)) 6); [lia |].
  destruct (clear_ok format_flags (files s) Htree) as (ok & fs1 & -> & Htree1 & Hout1 & Hnodel & Hnoreadme & Hdel). run.
  assert (Hsame : has_flag format_flags ESDM_FORMAT_DELETE = false \/ fs_view (files s) readme = None -> fs1 = files s).
  { intros [Hf | Hnone]; [by apply Hnodel |]. destruct (has_flag format_flags ESDM_FORMAT_DELETE); [by apply Hnoreadme | by apply Hnodel]. }
  assert (Hst : setFiles s (files s) = s) by by destruct s.
  assert (Hunder : fs_view (files s) tgt = None -> fs_view (files s) readme = None).
  { intros Hnone. apply (below_gone (fs_view (files s)) tgt tgt); [done | done | by left | congruence | by exists README]. }
  destruct ok; cbn [negb].
  2: { apply completes_done. constructor; cbn [files setFiles]; [done | done | by intros Hk; rewrite (Hsame Hk) | intros _ _ Hnone; rewrite (Hsame (or_intror Hnone)); by split | |].
       - intros Hperm _ _ [[Hf Hr] | [Hnone Hi]]; [destruct (Hdel Hf Hr) as [_ Hok]; by specialize (Hok Hperm) |].
         destruct (has_flag format_flags ESDM_FORMAT_DELETE); [destruct (Hnoreadme eq_refl (Hunder Hnone)) as [Hok _]; by rewrite (Hi eq_refl) in Hok | by destruct (Hnodel eq_refl)].
       - intros Hperm _ Hi _ Hr. destruct (has_flag format_flags ESDM_FORMAT_DELETE); [destruct (Hnoreadme eq_refl Hr) as [Hok _]; by rewrite Hi in Hok | by destruct (Hnodel eq_refl)]. }
  assert (Hrefuse : forall P : Prop, has_flag format_flags ESDM_FORMAT_DELETE = true -> has_flag format_flags ESDM_FORMAT_IGNORE_ERRORS = false -> fs_view (files s) readme = None -> P).
  { intros P Hf Hi Hr. destruct (Hnoreadme Hf Hr) as [Hok _]. congruence. }
  assert (Htgt1 : (has_flag format_flags ESDM_FORMAT_DELETE = true /\ is_Some (fs_view (files s) readme)) \/
    (fs_view (files s) tgt = None /\ (has_flag format_flags ESDM_FORMAT_DELETE = true -> has_flag format_flags ESDM_FORMAT_IGNORE_ERRORS = true)) -> fs_view fs1 tgt = None).
  { intros [[Hf Hr] | [Hnone _]]; [by apply (Hdel Hf Hr) | by rewrite (Hsame (or_intror (Hunder Hnone)))]. }
  destruct (has_flag format_flags ESDM_FORMAT_CREATE) eqn:Ecreate; cbn [negb].
  2: { apply completes_done. constructor; cbn [files setFiles]; [done | done | by intros Hk; rewrite (Hsame Hk) | by apply Hrefuse | congruence | congruence]. }
  destruct (fs_stat tgt (files (setFiles s fs1)) && negb (has_flag format_flags ESDM_FORMAT_IGNORE_ERRORS)) eqn:Estat.
  { apply andb_true_iff in Estat as [Estat Eign]. apply negb_true_iff in Eign. cbn [files setFiles] in Estat. rewrite stat_view in Estat by done. apply bool_decide_eq_true in Estat.
    apply completes_done. constructor; cbn [files setFiles]; [done | done | by intros Hk; rewrite (Hsame Hk) | by apply Hrefuse | | congruence].
    intros _ _ _ Hready. rewrite (Htgt1 Hready) in Estat. by destruct Estat. }
  eapply completes_mono; [apply (fill_target_ok contents dirs (has_flag format_flags ESDM_FORMAT_IGNORE_ERRORS) (setFiles s fs1) Hcont Htree1) |].
  intros [st s'] (Htree' & Hout & Hkeep & Hfresh & Hmark). cbn [files setFiles] in *. constructor; [done | intros q Hq; by rewrite Hout, Hout1 | intros Hk q e Hq Eq; apply Hkeep; [done | by rewrite (Hsame Hk)] | by apply Hrefuse | |].
  - intros Hperm _ Hpar Hready. apply Hfresh; [done | | by apply Htgt1]. intros d n En Hn Hd. rewrite Hout1; [by apply (Hpar d n) |].
    assert (Hlt : (String.length d < String.length tgt)%nat) by (rewrite En, length_joinPath; lia). split; [intros ->; lia | intros Hb%below_longer; lia].
  - intros Hperm _ Hi Ht Hr. by apply Hmark; rewrite ?(Hsame (or_intror Hr)).
Qed.

End Remove.
