(* ===== verification/Format.v ===== *)
(** Theorems on formatting: what [mkfs()] and [esdm_mkfs()] keep, what they remove and what they create; a file system with
    directories and one with symbolic links as examples. *)

From Stdlib Require Import Ascii.
From stdpp Require Import gmap strings.
From S2P Require Import Prelude Memory Json Dataspace Split Fragment FragmentState Posix Container Config MdPosix Mkfs.

Open Scope Z_scope.

(** * Several targets *)

Definition apart (t u : string) : Prop := t <> u /\ ~ below t u /\ ~ below u t.

Lemma apart_sym (t u : string) : apart t u -> apart u t.
Proof. intros (Hne & H1 & H2). by repeat split; [congruence | |]. Qed.

Lemma apart_outside (t u q : string) : apart t u -> q = t \/ below t q -> outside u q.
Proof.
  intros (Hne & Htu & Hut) [-> | Hq]; [split; [done | done] |]. split; [by intros -> |].
  intros Hu. by destruct (common_below t u q Hq Hu) as [? | [? | ?]].
Qed.

Lemma parent_within (t d n : string) : no_slash n = true -> below t (joinPath d n) -> d = t \/ below t d.
Proof.
  intros Hn [x E]. destruct (split_last x) as [Hx | (a & m & -> & Hm)]; [left; by apply joinPath_last in E as [-> _] |].
  right. exists a. rewrite <- joinPath_assoc in E. by apply joinPath_last in E as [-> _].
Qed.

(** A target that can be formatted: a store of ESDM, or nothing. *)
Record ready (view : string -> option entry) (t : string) : Prop := {
  rd_plain : plain t;
  rd_length : 6 <= Z.of_nat (String.length t) /\ Z.of_nat (String.length t) + 17 < PATH_MAX;
  rd_tree : tree_below view t;
  rd_parent : parent_exists view t;
  rd_store : is_Some (view (joinPath t README)) \/ view t = None
}.

Lemma tree_frame (view view' : string -> option entry) (t : string) : (forall q, q = t \/ below t q -> view' q = view q) -> tree_below view t -> tree_below view' t.
Proof.
  intros Hsame Htree. constructor.
  - intros p Hp Hsome. rewrite Hsame in Hsome by by right. destruct (tb_parent _ _ Htree p Hp Hsome) as [Hpl Hpar]. split; [done |].
    intros d n -> Hn Hd. rewrite Hsame; [by apply (Hpar d n) | by apply (parent_within t d n)].
  - intros p e Hp E. rewrite Hsame in E by done. by apply (tb_fits _ _ Htree).
Qed.

Lemma ready_frame (view view' : string -> option entry) (t u : string) : apart t u -> (forall q, outside t q -> view' q = view q) -> ready view u -> ready view' u.
Proof.
  intros Hap Hout [Hpl Hlen Htree Hpar Hstore]. assert (Hsame : forall q, q = u \/ below u q -> view' q = view q) by (intros q Hq; apply Hout, (apart_outside u); [by apply apart_sym | done]).
  constructor; [done | done | by apply (tree_frame view) | | rewrite !Hsame; [done | by left | right; by exists README]].
  intros d n -> Hn Hd. rewrite Hout; [by apply (Hpar d n) |]. destruct Hap as (Hne & Htu & _). split; [intros ->; apply Htu; by exists n |].
  intros Hb. apply Htu. apply (below_trans _ d); [done | by exists n].
Qed.

Lemma formatted_frame (dirs : list string) (view view' : string -> option entry) (t : string) : (forall q, q = t \/ below t q -> view' q = view q) ->
  formatted t dirs view -> formatted t dirs view'.
Proof.
  intros Hsame [Ht Hr Hd Hrest]. constructor.
  - rewrite Hsame; [done | by left].
  - rewrite Hsame; [done | right; by exists README].
  - intros d Hin. rewrite Hsame; [by apply Hd | right; by exists d].
  - intros q Hq Hqr Hqd. rewrite Hsame; [by apply Hrest | by right].
Qed.

Section Format.

Context {FS : Type} `{DirectoryLaws FS}.

Abbreviation state := (posix_state (FS := FS)).

(** The functions of the two backends, with the directories they create. *)
Definition mkfsOf (metadata : bool) : string -> Z -> state -> outcome (esdm_status * state) := if metadata then md_mkfs else data_mkfs.

Definition dirsOf (metadata : bool) : list string := if metadata then ["containers"%string] else [].

Lemma mkfsOf_ok (metadata : bool) (t : string) (format_flags : Z) (s : state) :
  plain t -> proper t -> 6 <= Z.of_nat (String.length t) -> Z.of_nat (String.length t) + 17 < PATH_MAX -> tree_below (fs_view (files s)) t ->
  completes (IoWorks FS) (mkfsOf metadata t format_flags s) (fun '(st, s') => mkfs_result t (dirsOf metadata) format_flags s st s').
Proof.
  intros Hpl Hpr Hlong Hlen Htree. assert (Hne : t <> ""%string) by by intros ->.
  destruct metadata; apply (mkfs_ok t Hne Hpl Hpr Hlen Hlong); [by apply md_contents_ok | done | by apply data_contents_ok | done].
Qed.


Context `{!Permissive FS}.

Lemma mkfsOf_returns (metadata : bool) (t : string) (format_flags : Z) (s : state) :
  plain t -> proper t -> 6 <= Z.of_nat (String.length t) -> Z.of_nat (String.length t) + 17 < PATH_MAX -> tree_below (fs_view (files s)) t ->
  exists st s', mkfsOf metadata t format_flags s = Done (st, s') /\ mkfs_result t (dirsOf metadata) format_flags s st s'.
Proof.
  intros Hpl Hpr Hlong Hlen Htree. destruct (completes_returns _ _ _ io_works (mkfsOf_ok metadata t format_flags s Hpl Hpr Hlong Hlen Htree)) as ([st s'] & E & Hres).
  by exists st, s'.
Qed.

(** A directory that does not belong to ESDM is kept by the first call of [mkfs()] with [ESDM_FORMAT_PURGE_RECREATE], which
    puts the file README-ESDM.TXT into it, and is emptied by the second call. *)
Lemma second_mkfs_wipes (metadata : bool) (t : string) (s : state) :
  plain t -> proper t -> 6 <= Z.of_nat (String.length t) -> Z.of_nat (String.length t) + 17 < PATH_MAX -> tree_below (fs_view (files s)) t -> parent_exists (fs_view (files s)) t ->
  fs_view (files s) t = Some Folder -> fs_view (files s) (joinPath t README) = None ->
  exists s1 s2, mkfsOf metadata t ESDM_FORMAT_PURGE_RECREATE s = Done (ESDM_SUCCESS, s1) /\ mkfsOf metadata t ESDM_FORMAT_PURGE_RECREATE s1 = Done (ESDM_SUCCESS, s2) /\
  (forall q e, q <> joinPath t README -> fs_view (files s) q = Some e -> fs_view (files s1) q = Some e) /\ formatted t (dirsOf metadata) (fs_view (files s2)).
Proof.
  intros Hpl Hpr Hlong Hlen Htree Hpar Ht Hr. destruct (mkfsOf_returns metadata t ESDM_FORMAT_PURGE_RECREATE s Hpl Hpr Hlong Hlen Htree) as (st1 & s1 & E1 & Hres1).
  destruct (mk_marks _ _ _ _ _ _ Hres1) as [-> Hr1]; [done | done | done | done | done |].
  destruct (mkfsOf_returns metadata t ESDM_FORMAT_PURGE_RECREATE s1 Hpl Hpr Hlong Hlen (mk_tree _ _ _ _ _ _ Hres1)) as (st2 & s2 & E2 & Hres2).
  destruct (mk_fresh _ _ _ _ _ _ Hres2) as [-> Hfm]; [done | done | | left; done |].
  { intros d n -> Hn Hd. rewrite (mk_outside _ _ _ _ _ _ Hres1); [by apply (Hpar d n) |]. split; [intros Ed; apply (f_equal String.length) in Ed; rewrite length_joinPath in Ed; lia |].
    intros Hb%below_longer. rewrite length_joinPath in Hb. lia. }
  exists s1, s2. split; [done |]. split; [done |]. split; [| done]. apply (mk_keeps _ _ _ _ _ _ Hres1). by right.
Qed.

Lemma mkfs_fresh (metadata : bool) (t : string) (s : state) : proper t -> ready (fs_view (files s)) t ->
  exists s', mkfsOf metadata t ESDM_FORMAT_PURGE_RECREATE s = Done (ESDM_SUCCESS, s') /\ formatted t (dirsOf metadata) (fs_view (files s')) /\
  (forall q, outside t q -> fs_view (files s') q = fs_view (files s) q).
Proof.
  intros Hpr [Hpl [Hlong Hlen] Htree Hpar Hstore]. destruct (mkfsOf_returns metadata t ESDM_FORMAT_PURGE_RECREATE s Hpl Hpr Hlong Hlen Htree) as (st & s' & E & Hres).
  destruct (mk_fresh _ _ _ _ _ _ Hres) as [-> Hfm]; [done | done | done | destruct Hstore; [by left | by right] |].
  exists s'. split; [done |]. split; [done |]. apply (mk_outside _ _ _ _ _ _ Hres).
Qed.

Section Modules.

Context (mkfs_callback : backend_kind -> string -> Z -> state -> outcome (esdm_status * state)).
Context (Hcallback : mkfs_callback POSIX = data_mkfs).

(** The targets of the data backends that are formatted. *)
Definition dataTargets (target : data_accessibility_t) (bs : list (backend_kind * esdm_config_backend_t)) : list string :=
  omap (fun b => if decide (data_accessibility b.2 = target) then cb_target b.2 else None) bs.

Definition mdTargets (target : data_accessibility_t) (mc : metadata_config) : list string :=
  if decide (md_accessibility mc = target) then [md_target mc] else [].

Definition posix_selected (target : data_accessibility_t) (b : backend_kind * esdm_config_backend_t) : Prop :=
  data_accessibility b.2 = target -> b.1 = POSIX /\ is_Some (cb_target b.2).

Lemma dataTargets_cons (target : data_accessibility_t) (b : backend_kind * esdm_config_backend_t) (bs : list (backend_kind * esdm_config_backend_t)) :
  dataTargets target (b :: bs) = (if decide (data_accessibility b.2 = target) then option_list (cb_target b.2) else []) ++ dataTargets target bs.
Proof. unfold dataTargets. csimpl. case_decide; [by destruct (cb_target b.2) | done]. Qed.

Lemma format_step (target : data_accessibility_t) (b : backend_kind * esdm_config_backend_t) (t : string) (s s1 : state) :
  data_accessibility b.2 = target -> b.1 = POSIX -> cb_target b.2 = Some t -> data_mkfs t ESDM_FORMAT_PURGE_RECREATE s = Done (ESDM_SUCCESS, s1) ->
  format_data_backend mkfs_callback ESDM_FORMAT_PURGE_RECREATE target b (ESDM_SUCCESS, s) = Done (ESDM_SUCCESS, s1).
Proof. intros Ha Hkind Et E. unfold format_data_backend. rewrite decide_True, Et by done. run. cbn [fst snd]. rewrite Hkind, Hcallback, E. done. Qed.

Lemma format_backends_ok (target : data_accessibility_t) (bs : list (backend_kind * esdm_config_backend_t)) (s : state) :
  Forall (posix_selected target) bs -> ForallOrdPairs apart (dataTargets target bs) -> Forall proper (dataTargets target bs) -> Forall (ready (fs_view (files s))) (dataTargets target bs) ->
  exists s', foldM (format_data_backend mkfs_callback ESDM_FORMAT_PURGE_RECREATE target) bs (ESDM_SUCCESS, s) = Done (ESDM_SUCCESS, s') /\
  (forall t, t ∈ dataTargets target bs -> formatted t [] (fs_view (files s'))) /\
  (forall q, (forall t, t ∈ dataTargets target bs -> outside t q) -> fs_view (files s') q = fs_view (files s) q).
Proof.
  intros Hbs. revert s. induction Hbs as [| b bs Hb Hbs IH]; intros s Hap Hprs Hready.
  { exists s. split; [done |]. split; [intros t Hin; by apply not_elem_of_nil in Hin | done]. }
  cbn [foldM]. rewrite dataTargets_cons in *. destruct (decide (data_accessibility b.2 = target)) as [Ha | Ha].
  2: { cbn [app] in *. replace (format_data_backend mkfs_callback ESDM_FORMAT_PURGE_RECREATE target b (ESDM_SUCCESS, s)) with (Done (ESDM_SUCCESS, s)); [run; by apply IH |].
       unfold format_data_backend. by rewrite decide_False. }
  destruct (Hb Ha) as [Hkind [t Et]]. rewrite Et in *. cbn [option_list app] in *. apply Forall_cons in Hready as [Ht Hready]. apply Forall_cons in Hprs as [Hpr Hprs].
  assert (Hhd : Forall (apart t) (dataTargets target bs) /\ ForallOrdPairs apart (dataTargets target bs)) by by inversion Hap. destruct Hhd as [Hhd Hap'].
  destruct (mkfs_fresh false t s Hpr Ht) as (s1 & E1 & Hfm & Hout). cbn [mkfsOf dirsOf] in *. rewrite (format_step target b t s s1) by done. run.
  destruct (IH s1 Hap' Hprs) as (s' & E' & Hfm' & Hout').
  { rewrite Forall_forall in Hhd, Hready |- *. intros u Hu. apply (ready_frame (fs_view (files s)) _ t); [by apply Hhd | done | by apply Hready]. }
  exists s'. split; [exact E' |]. split.
  - intros u [-> | Hu]%elem_of_cons; [| by apply Hfm']. apply (formatted_frame [] (fs_view (files s1))); [| done]. intros q Hq. apply Hout'.
    intros u Hu. rewrite Forall_forall in Hhd. by apply (apart_outside t); [apply Hhd |].
  - intros q Hq. rewrite Hout', Hout; [done | apply Hq; by left | intros u Hu; apply Hq; by right].
Qed.


End Modules.

End Format.

(** * A file system with directories *)

Module DirFS.

(** The directory and the name of a path. *)
Fixpoint splitLast (p : string) : option (string * string) :=
  match p with
  | EmptyString => None
  | String c p' =>
      match splitLast p' with
      | Some (d, n) => Some (String c d, n)
      | None => if Ascii.eqb c "/" then Some (""%string, p') else None
      end
  end.

Lemma splitLast_none (p : string) : splitLast p = None -> no_slash p = true.
Proof.
  induction p as [| c p IH]; [done |]. cbn [splitLast no_slash]. destruct (splitLast p) as [[d n] |]; [done |]. rewrite IH by done.
  by destruct (Ascii.eqb c "/").
Qed.

Lemma splitLast_some (p d n : string) : splitLast p = Some (d, n) <-> p = joinPath d n /\ no_slash n = true.
Proof.
  split.
  - revert d. induction p as [| c p IH]; intros d; [done |]. cbn [splitLast]. destruct (splitLast p) as [[d' n'] |] eqn:E.
    + intros [= <- ->]. destruct (IH d' eq_refl) as [-> Hn]. done.
    + destruct (Ascii.eqb_spec c "/") as [-> | ?]; [| done]. intros [= <- ->]. split; [done | by apply splitLast_none].
  - intros [-> Hn]. induction d as [| c d IH].
    + assert (splitLast n = None) as E.
      { clear -Hn. induction n as [| c n IH]; [done |]. cbn [no_slash] in Hn. apply andb_true_iff in Hn as [Hc Hn]. cbn [splitLast]. rewrite IH by done. by apply negb_true_iff in Hc as ->. }
      change (splitLast (String "/" n) = Some (""%string, n)). cbn [splitLast]. by rewrite E.
    + change (splitLast (String c (joinPath d n)) = Some (String c d, n)). cbn [splitLast]. by rewrite IH.
Qed.

Abbreviation dirFS := (gmap string entry).

Definition parentb (p : string) (fs : dirFS) : bool :=
  match splitLast p with Some (d, _) => bool_decide (d = ""%string \/ fs !! d = Some Folder) | None => true end.

Lemma parentb_ok (p : string) (fs : dirFS) : parentb p fs = true <-> parent_exists (fun q => fs !! q) p.
Proof.
  unfold parentb, parent_exists. destruct (splitLast p) as [[d n] |] eqn:E.
  - apply splitLast_some in E as [-> Hn]. rewrite bool_decide_eq_true. split.
    + intros Hd d' n' Ej Hn' Hne. apply joinPath_last in Ej as [-> ->]; [| done | done]. by destruct Hd.
    + intros Hpar. destruct (decide (d = ""%string)); [by left | right; by apply (Hpar d n)].
  - split; [| done]. intros _ d n -> Hn. apply splitLast_none in E. by rewrite joinPath_slash in E.
Qed.

(** The names in a directory. *)
Definition childOf (d k : string) : option string :=
  match splitLast k with Some (d', n) => if decide (d' = d) then Some n else None | None => None end.

Definition children (d : string) (fs : dirFS) : list string := omap (childOf d) (map_to_list fs).*1.

Lemma childOf_some (d k n : string) : childOf d k = Some n <-> k = joinPath d n /\ no_slash n = true.
Proof.
  unfold childOf. rewrite <- splitLast_some. destruct (splitLast k) as [[d' n'] |]; [| done]. case_decide; [subst; split; congruence | split; congruence].
Qed.

Lemma children_ok (d n : string) (fs : dirFS) : n ∈ children d fs <-> no_slash n = true /\ is_Some (fs !! joinPath d n).
Proof.
  unfold children. rewrite list_elem_of_omap. split.
  - intros (k & Hk & [-> Hn]%childOf_some). split; [done |]. apply list_elem_of_fmap in Hk as ([k e] & Ek & Hk). cbn in Ek. subst. apply elem_of_map_to_list in Hk. by eexists.
  - intros [Hn [e He]]. exists (joinPath d n). split; [| by apply childOf_some]. apply list_elem_of_fmap. exists (joinPath d n, e). split; [done | by apply elem_of_map_to_list].
Qed.

Definition notDot (n : string) : Prop := n <> "."%string /\ n <> ".."%string.

#[global] Instance fileSystem : FileSystem dirFS := {
  fs_stat p fs := bool_decide (is_Some (fs !! p));
  fs_mkdir p fs := match fs !! p with
                   | Some _ => (AlreadyExists, fs)
                   | None => if parentb p fs then (Created, <[p := Folder]> fs) else (CreateError, fs)
                   end;
  fs_create p fs := match fs !! p with
                    | Some _ => (AlreadyExists, fs)
                    | None => if parentb p fs then (Created, <[p := File []]> fs) else (CreateError, fs)
                    end;
  fs_truncate p fs := match fs !! p with Some (File _) => (true, <[p := File []]> fs) | _ => (false, fs) end;
  fs_open p fs := match fs !! p with Some (File _) => true | _ => false end;
  fs_write p data fs := match fs !! p with
                        | Some (File old) => (IoDone (Z.of_nat (length data)), <[p := File (old ++ data)]> fs)
                        | _ => (IoError, fs)
                        end;
  fs_read p pos len fs := match fs !! p with
                          | Some (File file) => (IoDone (take (Z.to_nat len) (drop (Z.to_nat pos) file)), fs)
                          | _ => (IoError, fs)
                          end;
  fs_unlink p fs := match fs !! p with Some (File _) => (true, delete p fs) | _ => (false, fs) end;
  fs_rmdir p fs := match fs !! p with Some Folder => if decide (children p fs = []) then (true, delete p fs) else (false, fs) | _ => (false, fs) end;
  fs_interrupts fs := O;
  fs_names fs := (map_to_list fs).*1
}.

#[global] Instance mdFileSystem : MdFileSystem dirFS := {
  fs_overwrite p fs := match fs !! p with
                       | Some Folder => (false, fs)
                       | _ => if parentb p fs then (true, <[p := File []]> fs) else (false, fs)
                       end;
  fs_size p fs := match fs !! p with Some (File file) => Some (Z.of_nat (length file)) | _ => None end
}.

#[global] Instance directories : Directories dirFS := {
  fs_kind p fs := isFolder <$> fs !! p;
  fs_readdir p fs := match fs !! p with Some Folder => Some ("." :: ".." :: filter notDot (children p fs))%string | _ => None end;
  fs_closedir p fs := true
}.

Lemma NoDup_children (d : string) (fs : dirFS) : NoDup (children d fs).
Proof.
  unfold children. induction (NoDup_fst_map_to_list fs) as [| k l Hk _ IH]; [constructor |]. csimpl. destruct (childOf d k) as [n |] eqn:E; [| done].
  constructor; [| done]. intros (k' & Hk' & E')%list_elem_of_omap. apply childOf_some in E as [-> _]. apply childOf_some in E' as [-> _]. done.
Qed.

Lemma insert_changed (fs : dirFS) (p : string) (e : entry) : changed (fun q => fs !! q) (fun q => <[p := e]> fs !! q) p (Some e).
Proof. intros q. case_decide as Hq; [subst; by rewrite lookup_insert_eq | by rewrite lookup_insert_ne]. Qed.

Lemma delete_changed (fs : dirFS) (p : string) : changed (fun q => fs !! q) (fun q => delete p fs !! q) p None.
Proof. intros q. case_decide as Hq; [subst; by rewrite lookup_delete_eq | by rewrite lookup_delete_ne]. Qed.

Definition filesOf (fs : dirFS) (p : string) : option (list Z) := match fs !! p with Some (File data) => Some data | _ => None end.

Lemma filesOf_other (fs : dirFS) (p q : string) (e : entry) : q <> p -> filesOf (<[p := e]> fs) q = filesOf fs q.
Proof. intros Hq. unfold filesOf. by rewrite lookup_insert_ne. Qed.

Lemma filesOf_insert (fs : dirFS) (p : string) (data : list Z) : filesOf (<[p := File data]> fs) p = Some data.
Proof. unfold filesOf. by rewrite lookup_insert_eq. Qed.

Lemma filesOf_folder (fs : dirFS) (p q : string) : fs !! p = None -> filesOf (<[p := Folder]> fs) q = filesOf fs q.
Proof. intros Hp. unfold filesOf. destruct (decide (q = p)) as [-> | Hq]; [by rewrite lookup_insert_eq, Hp | by rewrite lookup_insert_ne]. Qed.

Lemma filesOf_some (fs : dirFS) (p : string) (data : list Z) : filesOf fs p = Some data -> fs !! p = Some (File data).
Proof. unfold filesOf. destruct (fs !! p) as [[old |] |]; by intros [= ->]. Qed.

Lemma names_insert (fs : dirFS) (p : string) (e : entry) (n : string) : fs !! p = None -> n ∈ (map_to_list (<[p := e]> fs)).*1 -> n = p \/ n ∈ (map_to_list fs).*1.
Proof. intros Hp Hn. rewrite map_to_list_insert in Hn by done. by apply elem_of_cons in Hn. Qed.

Lemma name_exists (fs : dirFS) (p : string) (e : entry) : fs !! p = Some e -> p ∈ (map_to_list fs).*1.
Proof. intros E. apply list_elem_of_fmap. exists (p, e). split; [done | by apply elem_of_map_to_list]. Qed.

#[global] Instance fileSystemLaws : FileSystemLaws dirFS.
Proof.
  unshelve refine {| fs_files := filesOf; proper := fun _ => True |}; cbn [fs_mkdir fs_create fs_truncate fs_write fs_read fs_unlink fs_rmdir fs_interrupts fs_names fileSystem].
  - done.
  - done.
  - intros p fs r fs' E _. destruct (fs !! p) eqn:Ep; [injection E as <- <-; by auto |]. destruct (parentb p fs); injection E as <- <-; [| by auto].
    split; [intros q; by apply filesOf_folder |]. split; [| done]. intros n Hn. by apply names_insert in Hn.
  - intros p fs r fs' E _. destruct (fs !! p) as [e |] eqn:Ep; [injection E as <- <- |].
    { split; [done |]. split; [done |]. split; [| done]. intros _. split; [by apply (name_exists fs p e) | done]. }
    destruct (parentb p fs); injection E as <- <-; [| done]. split; [intros q [Hq | ?]; [by apply filesOf_other | done] |].
    split; [intros _; split; [unfold filesOf; by rewrite Ep | apply filesOf_insert] | done].
  - intros p fs r fs' E _. destruct (fs !! p) as [[old |] |] eqn:Ep; injection E as <- <-; [| done | done].
    split; [intros q [Hq | ?]; [by apply filesOf_other | done] | intros _; apply filesOf_insert].
  - intros p data fs old r fs' E _ Ep%filesOf_some Hne. rewrite Ep in E. injection E as <- <-. split; [intros q Hq; by apply filesOf_other |].
    split; [done |]. rewrite filesOf_insert, Nat2Z.id, firstn_all. split; [| done]. destruct data; [done | simpl; lia].
  - intros p pos len fs file r fs' E _ Ep%filesOf_some Hpos Hlen. rewrite Ep in E. injection E as <- <-. split; [done |]. split; [done |]. by apply MapFS.read_part.
  - intros p fs r fs' E _. destruct (fs !! p) as [[old |] |] eqn:Ep; injection E as <- <-; [| done | done]. unfold filesOf.
    split; [intros q [Hq | ?]; [by rewrite lookup_delete_ne | done] | by rewrite lookup_delete_eq].
  - intros p fs r fs' E _ q. destruct (fs !! p) as [[old |] |] eqn:Ep; [by injection E as <- <- | | by injection E as <- <-]. destruct (decide _) in E; injection E as <- <-; [| done].
    unfold filesOf. destruct (decide (q = p)) as [-> | Hq]; [by rewrite lookup_delete_eq, Ep | by rewrite lookup_delete_ne].
Defined.

#[global] Instance directoryLaws : DirectoryLaws dirFS.
Proof.
  unshelve refine {| fs_view := fun fs p => fs !! p |}; cbn [fs_mkdir fs_create fs_write fs_unlink fs_rmdir fs_overwrite fs_stat fs_kind fs_readdir fileSystem mdFileSystem directories].
  - done.
  - done.
  - done.
  - intros p fs names _ E. destruct (fs !! p) as [[old |] |] eqn:Ep; [done | | done]. injection E as <-. split; [done |]. split.
    + constructor; [intros [? | Hin]%elem_of_cons; [done |]; by apply list_elem_of_filter in Hin as [[? ?] _] |]. constructor; [intros Hin; by apply list_elem_of_filter in Hin as [[? ?] _] |].
      apply NoDup_filter, NoDup_children.
    + intros n Hn1 Hn2. rewrite !elem_of_cons, list_elem_of_filter, children_ok. unfold notDot. tauto.
  - intros p fs r fs' _ E. destruct (fs !! p) eqn:Ep; [by injection E as <- <- |]. destruct (parentb p fs) eqn:Epar; injection E as <- <-; [| done]. apply parentb_ok in Epar. split; [done |]. split; [done | apply insert_changed].
  - intros p fs r fs' _ E. destruct (fs !! p) eqn:Ep; [by injection E as <- <- |]. destruct (parentb p fs) eqn:Epar; injection E as <- <-; [| done]. apply parentb_ok in Epar. split; [done |]. split; [done | apply insert_changed].
  - intros p fs r fs' _ E. destruct (fs !! p) as [[old |] |] eqn:Ep; [| by injection E as <- <- |];
      (destruct (parentb p fs) eqn:Epar; injection E as <- <-; [| done]; apply parentb_ok in Epar; split; [done |]; split; [done | apply insert_changed]).
  - intros p data old fs r fs' _ Ep E. rewrite Ep in E. injection E as <- <-. eexists. apply insert_changed.
  - intros p fs r fs' _ E. destruct (fs !! p) as [[old |] |] eqn:Ep; injection E as <- <-; [| done | done]. split; [by eexists | apply delete_changed].
  - intros p fs r fs' _ E. destruct (fs !! p) as [[old |] |] eqn:Ep; [by injection E as <- <- | | by injection E as <- <-]. destruct (decide _) as [Hnil | _] in E; injection E as <- <-; [| done].
    split; [done |]. split; [| apply delete_changed]. intros n Hn. destruct (fs !! joinPath p n) eqn:En; [exfalso | done].
    assert (Hin : n ∈ children p fs) by (apply children_ok; split; [done | by eexists]). rewrite Hnil in Hin. by apply not_elem_of_nil in Hin.
Defined.

#[global] Instance ioWorks : IoWorks dirFS.
Proof.
  split; cbn [fs_write fs_read fs_files fileSystem fileSystemLaws]; [intros p data fs [old Ep%filesOf_some] | intros p pos len fs [old Ep%filesOf_some]]; by rewrite Ep.
Qed.

#[global] Instance permissive : Permissive dirFS.
Proof.
  constructor; cbn [fs_view fs_files fileSystemLaws directoryLaws fs_mkdir fs_create fs_write fs_unlink fs_rmdir fs_overwrite fs_readdir fileSystem mdFileSystem directories].
  - apply ioWorks.
  - intros p fs _ ->. by eexists.
  - done.
  - intros p fs _ -> Hpar%parentb_ok. by rewrite Hpar.
  - intros p fs _ -> Hpar%parentb_ok. by rewrite Hpar.
  - intros p fs _ Hnf Hpar%parentb_ok. rewrite Hpar. by destruct (fs !! p) as [[old |] |].
  - intros p data fs _ ->. done.
  - intros p fs _ Ep Hempty. rewrite Ep. rewrite decide_True; [done |]. destruct (children p fs) as [| n l] eqn:E; [done |]. exfalso.
    assert (Hin : n ∈ children p fs) by (rewrite E; left). apply children_ok in Hin as [Hn [e He]]. by rewrite Hempty in He.
Qed.

(** Tests for the hypotheses of the theorems. *)
Definition plainb (p : string) : bool :=
  match splitLast p with Some (_, n) => bool_decide (n <> ""%string /\ n <> "."%string /\ n <> ".."%string) | None => true end.

Lemma plainb_ok (p : string) : plainb p = true -> plain p.
Proof.
  unfold plainb. intros E d n -> Hn. destruct (splitLast (joinPath d n)) as [[d' n'] |] eqn:Es.
  - apply splitLast_some in Es as [Ej Hn']. apply joinPath_last in Ej as [-> ->]; [| done | done]. by apply bool_decide_eq_true in E.
  - apply splitLast_none in Es. by rewrite joinPath_slash in Es.
Qed.

Definition treeb (fs : dirFS) : bool :=
  forallb (fun x => plainb x.1 && parentb x.1 fs && (Z.of_nat (String.length x.1) + 6 <? PATH_MAX)) (map_to_list fs).

Lemma treeb_ok (fs : dirFS) (t : string) : treeb fs = true -> tree_below (fun p => fs !! p) t.
Proof.
  intros Htree. unfold treeb in Htree. rewrite forallb_forall in Htree.
  assert (Hall : forall p e, fs !! p = Some e -> plain p /\ parent_exists (fun q => fs !! q) p /\ Z.of_nat (String.length p) + 6 < PATH_MAX).
  { intros p e E. specialize (Htree (p, e)). apply elem_of_map_to_list, list_elem_of_In in E. specialize (Htree E). cbn [fst] in Htree. rewrite !andb_true_iff, Z.ltb_lt in Htree.
    destruct Htree as [[Hpl%plainb_ok Hpar%parentb_ok] Hlen]. done. }
  constructor.
  - intros p _ [e E]. by destruct (Hall p e E) as (Hpl & Hpar & _).
  - intros p e _ E. destruct (Hall p e E) as (_ & _ & Hlen). split; [lia | done].
Qed.

Definition readyb (fs : dirFS) (t : string) : bool :=
  plainb t && (6 <=? Z.of_nat (String.length t)) && (Z.of_nat (String.length t) + 17 <? PATH_MAX) && treeb fs && parentb t fs &&
  bool_decide (is_Some (fs !! joinPath t README) \/ fs !! t = None).

Lemma readyb_ok (fs : dirFS) (t : string) : readyb fs t = true -> ready (fun p => fs !! p) t.
Proof.
  unfold readyb. rewrite !andb_true_iff, Z.leb_le, Z.ltb_lt, bool_decide_eq_true. intros [[[[[Hpl Hlong] Hlen] Htree] Hpar] Hstore].
  constructor; [by apply plainb_ok | done | by apply treeb_ok | by apply parentb_ok | done].
Qed.

Lemma below_test (t q : string) : String.prefix (joinPath t "") q = false -> ~ below t q.
Proof.
  intros E [x ->]. assert (Hp : forall a, String.prefix (joinPath a "") (joinPath a x) = true); [| by rewrite Hp in E].
  intros a. induction a as [| c a IH]; [by destruct x |]. change (String.prefix (String c (joinPath a "")) (String c (joinPath a x)) = true). cbn [String.prefix]. by destruct (Ascii.ascii_dec c c).
Qed.

End DirFS.

(** ** Examples *)

(** A store with a fragment, a directory of somebody else, and a target that does not exist yet. *)
Definition exampleDisk : gmap string entry :=
  <["stores" := Folder]> (<["stores/data" := Folder]> (<["stores/data/README-ESDM.TXT" := File []]> (<["stores/data/d" := Folder]> (<["stores/data/d/frag" := File [1; 2; 3]]>
    (<["stores/thesis" := Folder]> {["stores/thesis/chapter" := File [4; 5]]})))))%string.

Definition exampleState : posix_state (FS := gmap string entry) := PosixState exampleDisk 0.

Definition exampleModules : esdm_modules_t :=
  Modules (MetadataConfig (Some "metadummy") "md" "stores/md" ESDM_ACCESSIBILITY_GLOBAL)
    [(POSIX, ConfigBackend (Some "POSIX") (Some "p1") (Some "stores/data") 0 0 1000 ESDMI_FRAGMENTATION_METHOD_CONTIGUOUS ESDM_ACCESSIBILITY_GLOBAL 0 None JNull);
     (KDSA, ConfigBackend (Some "KDSA") (Some "p2") (Some "volume") 0 0 1000 ESDMI_FRAGMENTATION_METHOD_CONTIGUOUS ESDM_ACCESSIBILITY_NODELOCAL 0 None JNull)]%string.

Definition exampleCallback (kind : backend_kind) : string -> Z -> posix_state (FS := gmap string entry) -> outcome (esdm_status * posix_state (FS := gmap string entry)) :=
  match kind with POSIX => data_mkfs | _ => fun _ _ s => mret (ESDM_ERROR, s) end.



(** * Symbolic links

    [posix_recursive_remove()] calls [stat()], which follows links, so it enters the directory that a link names and removes what it finds
    there. *)

Module LinkFS.

Inductive link_entry := Entry (e : entry) | Link (target : string).

Abbreviation linkFS := (gmap string link_entry).

(** The components of a path, and the path without links in the directories; [stat()] also follows a link at the end. *)
Fixpoint components (p : string) : string * list string :=
  match p with
  | EmptyString => (""%string, [])
  | String c p' => let '(first, rest) := components p' in if Ascii.eqb c "/" then (""%string, first :: rest) else (String c first, rest)
  end.

Definition follow (fs : linkFS) (p : string) : string := match fs !! p with Some (Link t) => t | _ => p end.

Definition walk (fs : linkFS) (p : string) : string := let '(first, rest) := components p in fold_left (fun d n => joinPath (follow fs d) n) rest first.

Definition resolve (fs : linkFS) (p : string) : string := follow fs (walk fs p).

Definition children (d : string) (fs : linkFS) : list string := omap (DirFS.childOf d) (map_to_list fs).*1.

Definition isFile (fs : linkFS) (p : string) : option (list Z) := match fs !! p with Some (Entry (File data)) => Some data | _ => None end.

#[global] Instance fileSystem : FileSystem linkFS := {
  fs_stat p fs := bool_decide (is_Some (fs !! resolve fs p));
  fs_mkdir p fs := match fs !! walk fs p with Some _ => (AlreadyExists, fs) | None => (Created, <[walk fs p := Entry Folder]> fs) end;
  fs_create p fs := match fs !! walk fs p with Some _ => (AlreadyExists, fs) | None => (Created, <[walk fs p := Entry (File [])]> fs) end;
  fs_truncate p fs := match isFile fs (resolve fs p) with Some _ => (true, <[resolve fs p := Entry (File [])]> fs) | None => (false, fs) end;
  fs_open p fs := bool_decide (is_Some (isFile fs (resolve fs p)));
  fs_write p data fs := match isFile fs (resolve fs p) with
                        | Some old => (IoDone (Z.of_nat (length data)), <[resolve fs p := Entry (File (old ++ data))]> fs)
                        | None => (IoError, fs)
                        end;
  fs_read p pos len fs := match isFile fs (resolve fs p) with
                          | Some file => (IoDone (take (Z.to_nat len) (drop (Z.to_nat pos) file)), fs)
                          | None => (IoError, fs)
                          end;
  fs_unlink p fs := match fs !! walk fs p with Some (Entry (File _)) | Some (Link _) => (true, delete (walk fs p) fs) | _ => (false, fs) end;
  fs_rmdir p fs := match fs !! walk fs p with
                   | Some (Entry Folder) => if decide (children (walk fs p) fs = []) then (true, delete (walk fs p) fs) else (false, fs)
                   | _ => (false, fs)
                   end;
  fs_interrupts fs := O;
  fs_names fs := (map_to_list fs).*1
}.

#[global] Instance mdFileSystem : MdFileSystem linkFS := {
  fs_overwrite p fs := match fs !! resolve fs p with Some (Entry Folder) => (false, fs) | _ => (true, <[resolve fs p := Entry (File [])]> fs) end;
  fs_size p fs := (fun file => Z.of_nat (length file)) <$> isFile fs (resolve fs p)
}.

#[global] Instance directories : Directories linkFS := {
  fs_kind p fs := match fs !! resolve fs p with Some (Entry e) => Some (isFolder e) | _ => None end;
  fs_readdir p fs := match fs !! resolve fs p with Some (Entry Folder) => Some ("." :: ".." :: children (resolve fs p) fs)%string | _ => None end;
  fs_closedir p fs := true
}.

(** A link in the store leads to the directory of somebody else. *)
Definition disk : linkFS :=
  (<["stores" := Entry Folder]> (<["stores/data" := Entry Folder]> (<["stores/data/README-ESDM.TXT" := Entry (File [])]> (<["stores/data/shared" := Link "home"]>
    (<["home" := Entry Folder]> {["home/letter" := Entry (File [7; 8])]})))))%string.

End LinkFS.

Lemma remove_follows_links : exists s', data_mkfs "stores/data" ESDM_FORMAT_DELETE (PosixState LinkFS.disk 0) = Done (ESDM_ERROR, s') /\
  is_Some (LinkFS.disk !! "home/letter"%string) /\ files s' !! "home/letter"%string = None.
Proof. eexists. split; [vm_compute; reflexivity |]. split; [by eexists | vm_compute; reflexivity]. Qed.
