(* ===== verification/Lifecycle.v ===== *)
(** The life cycle of containers and datasets (src/esdm-datatypes.c): closing a dataset releases its fragments
    and opening it again loads them, a container cannot be closed while its datasets are in use, and
    two calls that do not work. *)

From Stdlib Require Import Ascii.
From stdpp Require Import gmap strings pretty.
From S2P Require Import Prelude Memory Hypercube Json JsonText Odometer Dataspace Convert CopyData Partition Grid GridTree GridRegistry GridVisit GridRegion GridCover Fragment FragmentState Posix Fragments Dataset Metadata GridJson DatasetMetadata Container MdPosix.

#[local] Set Warnings "-register-all,-notation-for-abbreviation".

Open Scope Z_scope.

(** * Committing and opening again *)

Section Reopen.

Context {A : Type} `{SmdLaws A} {T : Type} `{GHashTableLaws T} `{JanssonLaws} {B : Type} {M : Type} `{MetadataBackendLaws M}.
Context (backendIds : list string) (makeId : nat -> string).
Hypothesis Hids : NoDup backendIds.
Hypothesis Hmake : forall n, plain (makeId n) = true.

(** C11: A dataset that was committed, together with its container, can be opened again: when the calls succeed, the container that
    is opened under the name has the attributes and datasets of the old one, none of them
    loaded, and opening the dataset by its name gives a dataset with one reference and the
    attributes, fill value, dimension names, dataspace, fragments and complete grids that
    were committed, whatever process opens it and whatever other datasets the container has. *)
Theorem reopen_correct (s : session A T B M) (h : nat) (d : dataset_object A T) (n : nat) (i : string) (a : A) (sp : esdm_dataspace_t) :
  session_ok backendIds s -> c_status (container s) = ESDM_DATA_DIRTY -> h ∈ c_dsets (container s) -> dsets s !! h = Some d -> o_status d = ESDM_DATA_DIRTY ->
  committable backendIds n i a sp d (objects (storage s)) ->
  exists r1 s1 r2 s2, esdm_dataset_commit backendIds makeId s h = Done (r1, s1) /\ esdm_container_commit backendIds makeId s1 = Done (r2, s2) /\ storage s2 = storage s /\
  (r1 = ESDM_SUCCESS -> r2 = ESDM_SUCCESS -> forall flags mode st k,
   exists r3 o3 m3, esdm_container_open (c_name (container s)) flags st (metadata s2) k = Done (r3, o3, m3) /\
   (r3 = ESDM_SUCCESS -> exists s3, o3 = Some s3 /\ same_contents s s3 /\
    exists r4 o4 s4, esdm_dataset_open backendIds s3 (o_name d) mode = Done (r4, o4, s4) /\
    (r4 = ESDM_SUCCESS -> exists h4, o4 = Some h4 /\ opened n i sp d mode (objects (storage s)) st s4 h4))).
Proof. by apply reopen_ok. Qed.

End Reopen.

(** * Releasing fragments *)

Section Purge.

Context {T : Type} `{GHashTableLaws T} {B : Type} `{DataBackendLaws B}.

(** All objects of the table are destroyed, and nothing else changes. *)
Lemma purge_loop_ok (es : list (esdmI_hypercube_t * nat)) (s : store B) :
  all_disposable s es.*2 ->
  exists s', foldM (fun e s => esdmI_fragments_deallocateValue e.2 s) es s = Done s' /\ disk s' = disk s /\
  forall v, objects s' !! v = if bool_decide (v ∈ es.*2) then None else objects s !! v.
Proof.
  revert s. induction es as [| e es IH]; intros s Hall; cbn [foldM].
  { exists s. split; [done |]. split; [done |]. intros v. by rewrite bool_decide_eq_false_2 by apply not_elem_of_nil. }
  rewrite fmap_cons in *. destruct (proj1 (proj2 Hall) e.2) as [f Hf]; [by left |]. pose proof (dp_object _ _ _ Hf) as Ef.
  destruct (deallocate_ok s e.2 f Hf) as (h & -> & Hmem). run.
  destruct (IH (Store (delete e.2 (objects s)) h (disk s))) as (s' & -> & Hd & Hobj).
  { eapply all_disposable_tail; [exact Hall | exact Ef | | exact Hmem]. intros u Hu. by apply lookup_delete_ne. }
  exists s'. split; [done |]. split; [done |]. intros v. rewrite Hobj. cbn [objects]. rewrite (bool_decide_ext (v ∈ e.2 :: es.*2) (v = e.2 \/ v ∈ es.*2)) by apply elem_of_cons.
  destruct (decide (v ∈ es.*2)) as [Hin | Hni].
  - by rewrite !bool_decide_eq_true_2 by auto.
  - rewrite (bool_decide_eq_false_2 _ Hni). destruct (decide (v = e.2)) as [-> | Hne].
    + rewrite bool_decide_eq_true_2 by auto. apply lookup_delete_eq.
    + rewrite bool_decide_eq_false_2 by tauto. by apply lookup_delete_ne.
Qed.

Lemma purge_ok (t : T) (s : store B) :
  all_disposable s (g_hash_table_entries t).*2 ->
  exists s', esdmI_fragments_purge t s = Done (g_hash_table_new_full, s') /\ disk s' = disk s /\
  forall v, objects s' !! v = if bool_decide (v ∈ (g_hash_table_entries t).*2) then None else objects s !! v.
Proof.
  intros Hall. destruct (purge_loop_ok (g_hash_table_entries t) s Hall) as (s' & E & Hd & Hobj). unfold esdmI_fragments_purge. rewrite E. run. by exists s'.
Qed.

End Purge.

(** * Closing and loading again *)

Section Close.

Context {A : Type} `{SmdLaws A} {T : Type} `{GHashTableLaws T} `{JanssonLaws} {B : Type} `{DataBackendLaws B} {M : Type} `{MetadataBackendLaws M}.
Context (backendIds : list string) (makeId : nat -> string).
Hypothesis Hids : NoDup backendIds.
Hypothesis Hmake : forall n, plain (makeId n) = true.

Abbreviation object := (dataset_object A T).
Abbreviation session_t := (session A T B M).

Lemma close_last_ok (s : session_t) (h : nat) (d : object) :
  dsets s !! h = Some d -> o_status d = ESDM_DATA_PERSISTENT -> o_refcount d = 1 -> all_disposable (storage s) (g_hash_table_entries (o_fragments d)).*2 ->
  exists st, esdm_dataset_close s h =
    Done (ESDM_SUCCESS, setStorage (setDatasets s (<[h := setHandle d (o_id d) (o_mode_flags d) 0 ESDM_DATA_NOT_LOADED None g_hash_table_new_full]> (dsets s))) st) /\
  disk st = disk (storage s) /\
  forall v, objects st !! v = if bool_decide (v ∈ (g_hash_table_entries (o_fragments d)).*2) then None else objects (storage s) !! v.
Proof.
  intros Ed Hst Hr Hdis. unfold esdm_dataset_close, dataset_close. rewrite Ed. run. rewrite (eassert_true (negb _)) by (by rewrite Hst). run. rewrite eassert_true by (rewrite Hr; done). run.
  cbn [setRefcount setHandle o_refcount o_status]. rewrite Hr. cbn [Z.sub Z.eqb negb Z.add Z.opp Z.pos_sub]. rewrite decide_False by (rewrite Hst; done).
  change (o_fragments (setRefcount d (1 - 1))) with (o_fragments d). destruct (purge_ok (o_fragments d) (storage s) Hdis) as (st & -> & Hd & Hobj). run. by exists st.
Qed.

(** C12: Closing the last reference of a committed dataset releases its fragments, and referencing it again loads it: when the
    calls succeed, the dataset has the same name, attributes, fill value, dimension names, dataspace, fragments
    and complete grids as before it was closed, and one reference; the objects and the storage of
    other datasets are not touched. *)
Theorem close_reload_correct (s : session_t) (h : nat) (d : object) (n : nat) (i : string) (a : A) (sp : esdm_dataspace_t) :
  dsets s !! h = Some d -> o_status d = ESDM_DATA_DIRTY -> o_refcount d = 1 -> dataset_storable backendIds (objects (storage s)) d ->
  committable backendIds n i a sp d (objects (storage s)) -> (existsb (Z.eqb 0) (size sp) = false -> o_actual_size d = None) ->
  all_disposable (storage s) (g_hash_table_entries (o_fragments d)).*2 ->
  exists r1 s1, esdm_dataset_commit backendIds makeId s h = Done (r1, s1) /\
  (r1 = ESDM_SUCCESS -> exists s2 d2, esdm_dataset_close s1 h = Done (ESDM_SUCCESS, s2) /\ dsets s2 !! h = Some d2 /\ o_status d2 = ESDM_DATA_NOT_LOADED /\
   (forall v, objects (storage s2) !! v = if bool_decide (v ∈ (g_hash_table_entries (o_fragments d)).*2) then None else objects (storage s) !! v) /\
   exists r3 s3, esdm_dataset_ref backendIds s2 h = Done (r3, s3) /\
   (r3 = ESDM_SUCCESS -> opened n i sp d (o_mode_flags d) (objects (storage s)) (storage s2) s3 h /\ disk (storage s3) = disk (storage s))).
Proof.
  intros Ed Hdirty Hr Hst Hcm Hsz Hdis. pose proof (cm_id _ _ _ _ _ _ _ Hcm) as [Ei Hpi]. pose proof (dt_id _ _ _ Hst) as (i' & Ei' & _ & Hv). rewrite Ei in Ei'. injection Ei' as <-.
  destruct (dataset_commit_ok backendIds makeId Hids Hmake s h d i Ed Ei Hst) as (r1 & d1 & m1 & k1 & E1 & _ & _ & Hd1 & _ & Hload).
  eexists r1, _. split; [exact E1 |]. intros ->. destruct (Hload n a sp Hdirty eq_refl Hcm) as (text & fs & gs & Htext & Hfs & Hgs & Hl). destruct (Hd1 Hdirty) as [ts ->].
  set (s1 := Session (container s) _ _ _ _).
  destruct (close_last_ok s1 h (withTrees (setStatusD d ESDM_DATA_PERSISTENT) ts)) as (st & E2 & Hdisk & Hobj); [apply lookup_insert_eq | done | exact Hr | exact Hdis |].
  eexists _, _. split; [exact E2 |]. split; [apply lookup_insert_eq |]. split; [done |]. split; [exact Hobj |].
  set (s2 := setStorage _ st). set (target := setHandle _ _ _ _ _ _ _) in *.
  destruct (dataset_ref_ok backendIds s2 h target d n i sp fs gs (objects (storage s)) text) as (r3 & s3 & E3 & _ & Hsucc); try done.
  { apply lookup_insert_eq. }
  { constructor; [apply new_law | done | exact Hsz | done]. }
  eexists r3, s3. split; [exact E3 |]. intros Hr3. destruct (Hsucc Hr3) as (d' & Eds & P1 & P2 & P3 & P4 & P5 & P6 & Hre & Hm & Hdk). split.
  - exists d', fs, gs. rewrite Eds, lookup_insert_eq. by repeat (split; [done |]).
  - rewrite Hdk. exact Hdisk.
Qed.

(** ** Calls that do not work *)

(** C40: A container whose close was refused can never be closed: while a dataset is in use, the call returns an error, but
    it has already dropped the last reference of the container, and the next call aborts, also after the
    datasets were closed. *)
Theorem container_close_aborts (s : session_t) (h : nat) (d : object) :
  c_refcount (container s) = 1 -> c_status (container s) <> ESDM_DATA_NOT_LOADED ->
  (forall h', h' ∈ c_dsets (container s) -> is_Some (dsets s !! h')) -> h ∈ c_dsets (container s) -> dsets s !! h = Some d -> o_refcount d <> 0 ->
  exists s', esdm_container_close s = Done (ESDM_ERROR, false, s') /\ dsets s' = dsets s /\
  forall s'' : session_t, container s'' = container s' -> esdm_container_close s'' = Abort.
Proof.
  intros Hr Hst Hall Hin Ed Hd. unfold esdm_container_close at 1. rewrite decide_False by done. rewrite eassert_true by (rewrite Hr; done). run.
  cbn [c_refcount]. rewrite Hr. cbn [Z.gtb Z.sub Z.compare Z.add Z.opp Z.pos_sub].
  set (s1 := setContainer s _). assert (Hfold : forall hs ret, (forall h', h' ∈ hs -> is_Some (dsets s !! h')) -> h ∈ hs \/ ret = ESDM_ERROR ->
    foldM (fun h ret => d ← deref (dsets s1 !! h); mret (if negb (o_refcount d =? 0) then ESDM_ERROR else ret)) hs ret = Done ESDM_ERROR).
  { change (dsets s1) with (dsets s). induction hs as [| x hs IH]; intros ret Hx Hc; cbn [foldM]; [destruct Hc as [?%elem_of_nil | ->]; done |].
    destruct (Hx x) as [e Ee]; [by left |]. rewrite Ee. run. apply IH; [intros y Hy; apply Hx; by right |]. destruct Hc as [[-> | Hc]%elem_of_cons | ->].
    - right. rewrite Ed in Ee. injection Ee as <-. by destruct (Z.eqb_spec (o_refcount d) 0).
    - by left.
    - right. by destruct (negb _). }
  rewrite Hfold by auto. run. rewrite decide_False by done. exists s1. split; [done |]. split; [done |]. intros s'' Es. unfold esdm_container_close. rewrite Es.
  rewrite decide_False by done. done.
Qed.

(** Deleting a dataset that has one reference runs into undefined behaviour: when the fragments are deleted,
    [esdm_dataset_delete()] destroys the hash table of the fragments, and [esdm_dataset_close()], which it calls at the end,
    empties the table again. *)
Theorem dataset_delete_undefined (s : session_t) (h : nat) (d : object) (i : string) (t : T) (st : store B) :
  dsets s !! h = Some d -> o_status d <> ESDM_DATA_NOT_LOADED -> o_status d <> ESDM_DATA_DELETED -> o_refcount d = 1 -> o_id d = Some i -> md_valid (DatasetDocument i) ->
  esdmI_fragments_deleteAll (o_fragments d) (storage s) = Done (ESDM_SUCCESS, t, st) -> g_hash_table_entries t = [] ->
  esdm_dataset_delete backendIds s h = Undef.
Proof.
  intros Ed Hn Hdel Hr Hi Hv Edel Et. unfold esdm_dataset_delete. rewrite Ed. run. rewrite (eassert_true (negb _)) by (by rewrite bool_decide_eq_false_2). run.
  rewrite decide_False by done. run. rewrite decide_False by tauto. rewrite Ed. run. rewrite Edel. run. rewrite decide_False by tauto.
  unfold esdmI_fragments_purge. rewrite Et. cbn [foldM]. run. rewrite Hi. run.
  destruct (md_remove_law (DatasetDocument i) (metadata s) Hv) as (r & m' & Em & _). cbn [md_remove] in Em.
  match goal with |- context [md_dataset_remove i ?m] => change m with (metadata s) end. rewrite Em. run.
  unfold dataset_close. cbn [setMetadata setStorage setDatasets dsets]. rewrite lookup_insert_eq. run. cbn [setHandle o_status o_refcount]. rewrite (eassert_true (negb _)) by done. run.
  rewrite Hr. done.
Qed.

End Close.

(** * Examples *)

(** A container with the dataset of [Stored]; the metadata is kept by the POSIX backend. *)
Module Model.

#[local] Instance backend : MetadataBackend (posix_state (FS := TreeFS.treeFS)) := md_posix mdDirectory MapFS.ids.
#[local] Instance backendLaws : MetadataBackendLaws (posix_state (FS := TreeFS.treeFS)) := md_posix_laws mdDirectory MapFS.ids mdSetup.

Definition start : session PlainSmd.attribute HashList.hashList (posix_state (FS := MapFS.mapFS)) (posix_state (FS := TreeFS.treeFS)) :=
  Session (Container "model" 1 0 ESDM_DATA_DIRTY (Some smd_attr_variables) [0%nat] 1) {[0%nat := Stored.object]} blockStore (PosixState (TreeFS.Tree ∅ ["_md"; "_md/containers"; "_md/datasets"]%string) 0) 0.

Lemma object_storable : dataset_storable (M := posix_state (FS := TreeFS.treeFS)) ["posix"%string] (objects blockStore) Stored.object.
Proof.
  constructor; [exists "dst"%string; split; [done | split; [done | solve_id]] | done |]. intros _. exists 2%nat, "dst"%string, smd_attr_variables, Stored.space. exact Stored.stored_committable.
Qed.

Lemma start_ok : session_ok ["posix"%string] start.
Proof.
  assert (Hone : forall h h' : nat, h ∈ [0%nat] -> h' ∈ [0%nat] -> h = h') by (intros h h' ->%list_elem_of_singleton ->%list_elem_of_singleton; done).
  constructor; cbn [start container dsets storage c_name c_attr c_dsets].
  - split; [done |]. split; [apply rel_name; by repeat split | done].
  - eexists. split; [done |]. split; [done | constructor].
  - apply NoDup_singleton.
  - intros h ->%list_elem_of_singleton. exists Stored.object. split; [done | exact object_storable].
  - intros h h' d d' Hh Hh' _ _ _. by apply Hone.
  - intros h h' d d' Hh Hh' _ _ _. by apply Hone.
Qed.

Definition commitStored := esdm_dataset_commit ["posix"%string] Stored.names start 0.

(** Committing, opening in a process that has no fragments yet, and the status of every call. *)
Definition reopenAll : outcome (esdm_status * esdm_status * esdm_status * esdm_status) :=
  '(r1, s1) ← commitStored;
  '(r2, s2) ← esdm_container_commit ["posix"%string] Stored.names s1;
  '(r3, o3, _) ← esdm_container_open (A := PlainSmd.attribute) (T := HashList.hashList) "model" 0 (Store ∅ ∅ (disk blockStore)) (metadata s2) 0;
  s3 ← deref o3;
  '(r4, _, _) ← esdm_dataset_open ["posix"%string] s3 "temperature" 0;
  mret (r1, r2, r3, r4).

Lemma reopenAll_done : reopenAll = Done (ESDM_SUCCESS, ESDM_SUCCESS, ESDM_SUCCESS, ESDM_SUCCESS).
Proof. by vm_compute. Qed.

Definition reloadAll : outcome (esdm_status * esdm_status) :=
  '(r1, s1) ← commitStored;
  '(_, s2) ← esdm_dataset_close s1 0;
  '(r3, _) ← esdm_dataset_ref ["posix"%string] s2 0;
  mret (r1, r3).

Lemma reloadAll_done : reloadAll = Done (ESDM_SUCCESS, ESDM_SUCCESS).
Proof. by vm_compute. Qed.

End Model.

Import Model.
#[local] Existing Instance Model.backend.
#[local] Existing Instance Model.backendLaws.

Lemma reopen_correct_witness :
  exists s1 s2 s3 m3 h4 s4, commitStored = Done (ESDM_SUCCESS, s1) /\ esdm_container_commit ["posix"%string] Stored.names s1 = Done (ESDM_SUCCESS, s2) /\
  esdm_container_open "model" 0 (Store ∅ ∅ (disk blockStore)) (metadata s2) 0 = Done (ESDM_SUCCESS, Some s3, m3) /\ same_contents start s3 /\
  esdm_dataset_open ["posix"%string] s3 "temperature" 0 = Done (ESDM_SUCCESS, Some h4, s4) /\
  opened 2 "dst" Stored.space Stored.object 0 (objects blockStore) (Store ∅ ∅ (disk blockStore)) s4 h4.
Proof.
  pose proof reopenAll_done as Hrun. unfold reopenAll in Hrun.
  destruct (reopen_correct ["posix"%string] Stored.names (NoDup_singleton _) (fun _ => eq_refl) start 0 Stored.object 2 "dst" smd_attr_variables Stored.space
    start_ok eq_refl (proj2 (list_elem_of_singleton _ _) eq_refl) eq_refl eq_refl Stored.stored_committable) as (r1 & s1 & r2 & s2 & E1 & E2 & _ & Hopen).
  unfold commitStored in *. rewrite E1 in Hrun. cbn [mbind outcome_bind] in Hrun. rewrite E2 in Hrun. cbn [mbind outcome_bind] in Hrun.
  destruct (esdm_container_open _ _ _ _ _) as [[[r3 [s3 |]] m3] | |] eqn:E3 in Hrun; try discriminate Hrun. cbn [mbind outcome_bind deref] in Hrun.
  destruct (esdm_dataset_open _ _ _ _) as [[[r4 o4] s4] | |] eqn:E4 in Hrun; try discriminate Hrun. injection Hrun as -> -> -> ->.
  destruct (Hopen eq_refl eq_refl 0 0 (Store ∅ ∅ (disk blockStore)) 0%nat) as (r3' & o3 & m3' & E3' & H3). change (c_name (container start)) with "model"%string in E3'. rewrite E3 in E3'. injection E3' as <- <- <-.
  destruct (H3 eq_refl) as (s3' & [= <-] & Hsame & r4' & o4' & s4' & E4' & H4). change (o_name Stored.object) with "temperature"%string in E4'. rewrite E4 in E4'. injection E4' as <- <- <-.
  destruct (H4 eq_refl) as (h4 & -> & Hop). exists s1, s2, s3, m3, h4, s4. split; [exact E1 |]. split; [exact E2 |]. split; [exact E3 |]. split; [exact Hsame |]. split; [exact E4 | exact Hop].
Defined.

Lemma close_reload_correct_witness :
  exists s1 s2 s3, commitStored = Done (ESDM_SUCCESS, s1) /\ esdm_dataset_close s1 0 = Done (ESDM_SUCCESS, s2) /\ esdm_dataset_ref ["posix"%string] s2 0 = Done (ESDM_SUCCESS, s3) /\
  opened 2 "dst" Stored.space Stored.object 0 (objects blockStore) (storage s2) s3 0.
Proof.
  pose proof reloadAll_done as Hrun. unfold reloadAll in Hrun.
  destruct (close_reload_correct ["posix"%string] Stored.names (NoDup_singleton _) (fun _ => eq_refl) start 0 Stored.object 2 "dst" smd_attr_variables Stored.space
    eq_refl eq_refl eq_refl object_storable Stored.stored_committable (fun E => False_ind _ (diff_true_false E)) blocks_disposable) as (r1 & s1 & E1 & H1).
  unfold commitStored in *. rewrite E1 in Hrun. cbn [mbind outcome_bind] in Hrun.
  destruct (esdm_dataset_close s1 0) as [[r2 s2] | |] eqn:E2 in Hrun; try discriminate Hrun. cbn [mbind outcome_bind] in Hrun.
  destruct (esdm_dataset_ref _ s2 0) as [[r3 s3] | |] eqn:E3 in Hrun; try discriminate Hrun. injection Hrun as -> ->.
  destruct (H1 eq_refl) as (s2' & d2 & E2' & _ & _ & _ & r3' & s3' & E3' & H3). rewrite E2 in E2'. injection E2' as -> <-. rewrite E3 in E3'. injection E3' as <- <-.
  destruct (H3 eq_refl) as [Hop _]. exists s1, s2, s3. split; [exact E1 |]. split; [exact E2 |]. split; [exact E3 | exact Hop].
Defined.

Lemma container_close_aborts_witness :
  exists s', esdm_container_close start = Done (ESDM_ERROR, false, s') /\ dsets s' = dsets start /\ esdm_container_close s' = Abort.
Proof.
  destruct (container_close_aborts start 0 Stored.object) as (s' & E & Hd & Ha); [done | done | | by apply list_elem_of_singleton | done | done |].
  - intros h ->%list_elem_of_singleton. by eexists.
  - exists s'. split; [exact E |]. split; [exact Hd |]. by apply Ha.
Defined.

Lemma dataset_delete_undefined_witness : esdm_dataset_delete ["posix"%string] start 0 = Undef.
Proof.
  assert (Hdel : exists st, esdmI_fragments_deleteAll blockTable blockStore = Done (ESDM_SUCCESS, [], st)) by (eexists; vm_compute; reflexivity).
  destruct Hdel as [st Hdel]. apply (dataset_delete_undefined ["posix"%string] start 0 Stored.object "dst" [] st); [done | done | done | done | done | solve_id | exact Hdel | done].
Defined.
