(* ===== verification/Scheduler.v ===== *)
(** The scheduler (src/esdm-scheduler.c): the tasks of the backend threads, the requests that read
    and write fragments, and the blocking operations.  The threads and the request status are
    those of Request.v. *)

From stdpp Require Import gmap.
From S2P Require Import Prelude Hypercube HypercubeSet Json Odometer Memory Dataspace Convert CopyData Partition Split Grid GridTree GridVisit GridRegion GridCover Fragment FragmentState Posix Fragments Request Dataset.

Open Scope Z_scope.

(** * Data *)

Inductive io_operation_t := ESDM_OP_WRITE | ESDM_OP_READ.

#[global] Instance io_operation_eq_dec : EqDecision io_operation_t.
Proof. solve_decision. Defined.

Inductive io_callback := read_copy | buffer_cleanup.

(** [io_work_t]: the fragment is a handle, [work_backend] is the pool the task is pushed to.  The
    parent is the status of the request. *)
Record io_work_t := IoWork {
  work_fragment : nat;
  work_op : io_operation_t;
  work_callback : option io_callback;
  mem_buf : option pointer;
  buf_space : option esdm_dataspace_t;
  work_backend : nat
}.

(** [esdm_statistics_t], all counters are [uint64_t]. *)
Record esdm_statistics_t := Statistics {
  bytesUser : Z;
  bytesInternal : Z;
  bytesIo : Z;
  requests : Z;
  internalRequests : Z;
  ioFragments : Z
}.

Definition updateIoStats (stats : esdm_statistics_t) (fragmentCount byteCount : Z) : esdm_statistics_t :=
  Statistics (bytesUser stats) (bytesInternal stats) (u64 (bytesIo stats + byteCount)) (requests stats) (internalRequests stats)
    (u64 (ioFragments stats + fragmentCount)).

Definition updateRequestStats (stats : esdm_statistics_t) (requestCount byteCount : Z) (requestIsInternal : bool) : esdm_statistics_t :=
  if requestIsInternal then
    Statistics (bytesUser stats) (u64 (bytesInternal stats + byteCount)) (bytesIo stats) (requests stats)
      (u64 (internalRequests stats + requestCount)) (ioFragments stats)
  else
    Statistics (u64 (bytesUser stats + byteCount)) (bytesInternal stats) (bytesIo stats) (u64 (requests stats + requestCount))
      (internalRequests stats) (ioFragments stats).

(** * Threads per backend *)

(** Signed [int] arithmetic. *)
Definition chk32 (z : Z) : outcome Z := if (- 2 ^ 31 <=? z) && (z <? 2 ^ 31) then mret z else Undef.

Definition div32 (a b : Z) : outcome Z := if b =? 0 then Undef else chk32 (Z.quot a b).

(** The number of threads that [esdm_scheduler_init()] gives a backend; without threads the backend
    has no pool. *)
Definition backendThreads (ppn gt max_threads_per_node max_global_threads : Z) (accessibilityGlobal : bool) : outcome Z :=
  a ← chk32 (max_threads_per_node + ppn);
  a ← chk32 (a - 1);
  max_local ← div32 a ppn;
  b ← chk32 (max_global_threads + gt);
  b ← chk32 (b - 1);
  max_global ← div32 b gt;
  mret (if accessibilityGlobal then (if max_local <? max_global then max_local else max_global) else max_local).

(** * The operations *)

Section Scheduler.

(** Copying, uninitialised memory; the backends, the hash table of the dataset. *)
Context (floatCast : esdm_type_t -> esdm_type_t -> list Z -> list Z) (junk : mem).
Context {B : Type} `{DataBackend B} {T : Type} `{GHashTable T}.

(** Single precision numbers, as in Split.v. *)
Context {F : Type} (fzero : F) (fle : F -> F -> bool) (fadd : F -> F -> F) (scaled : F -> Z -> F -> Z).

(** The powers of [makeSplitRecommendation_balancedDims()], the C library's sort, and the test
    [ioBytes/(double)requestBytes >= 8]. *)
Context (splitFactor : Z -> Z -> Z -> Z -> Z) (qsort : list dimInfo_t -> list dimInfo_t) (manyBytes : Z -> Z -> bool).

(** The configured data backends. *)
Record data_backend := DataBackendConfig {
  db_handle : nat;
  db_throughput : option F;
  db_method : fragmentation_method_t;
  db_max_fragment_size : Z
}.

Context (data_backends : list data_backend) (threads : nat -> nat).

(** What a request works on: fragments, memory and storage, the dataset, the statistics of the
    instance. *)
Record io_world := IoWorld {
  w_store : store B;
  w_dataset : esdm_dataset_t T;
  w_readStats : esdm_statistics_t;
  w_writeStats : esdm_statistics_t
}.

Definition setStore (w : io_world) (s : store B) : io_world := IoWorld s (w_dataset w) (w_readStats w) (w_writeStats w).

Definition setObject (s : store B) (v : nat) (f : esdm_fragment_t) : store B := Store (<[v := f]> (objects s)) (memory s) (disk s).

(** ** Tasks *)

Definition read_copy_callback (work : io_work_t) (return_code : esdm_status) (s : store B) : outcome (store B) :=
  if decide (return_code = ESDM_SUCCESS) then
    f ← deref (objects s !! work_fragment work);
    source ← deref (buf f);
    space ← deref (buf_space work);
    dest ← deref (mem_buf work);
    h ← copyData floatCast (dataspace f) source space dest (memory s);
    mret (Store (objects s) h (disk s))
  else mret s.

(** The return code of the unload goes into the work object, which nobody reads afterwards. *)
Definition buffer_cleanup_callback (work : io_work_t) (return_code : esdm_status) (s : store B) : outcome (store B) :=
  if decide (return_code = ESDM_SUCCESS) then
    f ← deref (objects s !! work_fragment work);
    '(_, f, h, b) ← esdm_fragment_unload f (memory s) (disk s);
    mret (Store (<[work_fragment work := f]> (objects s)) h b)
  else mret s.

(** [backend_thread()] up to its critical section. *)
Definition backend_thread (work : io_work_t) (s : store B) : outcome (esdm_status * store B) :=
  f ← deref (objects s !! work_fragment work);
  eassert (bool_decide (backend f = Some (work_backend work)));;
  '(ret, f, h, b) ← match work_op work with
                    | ESDM_OP_READ => esdm_fragment_load junk f (memory s) (disk s)
                    | ESDM_OP_WRITE => esdm_fragment_commit f (memory s) (disk s)
                    end;
  let s := Store (<[work_fragment work := f]> (objects s)) h b in
  s ← match work_callback work with
      | Some read_copy => read_copy_callback work ret s
      | Some buffer_cleanup => buffer_cleanup_callback work ret s
      | None => mret s
      end;
  mret (ret, s).

Definition perform_work (work : io_work_t) (w : io_world) : outcome (esdm_status * io_world) :=
  '(ret, s) ← backend_thread work (w_store w);
  mret (ret, setStore w s).

(** ** Items *)

(** A fragment to read, a region to write as a fragment, an existing fragment to write. *)
Inductive io_item :=
| ReadItem (fragment : nat) (buf : pointer) (space : esdm_dataspace_t)
| WriteItem (cube : esdmI_hypercube_t) (backend : nat) (buf : pointer) (space : esdm_dataspace_t) (requestIsInternal : bool)
| WriteFragment (fragment : nat) (requestIsInternal : bool).

(** The body of the loop of [esdm_scheduler_enqueue_read()]. *)
Definition enqueue_read_fragment (v : nat) (buf0 : pointer) (space : esdm_dataspace_t) (w : io_world)
    : outcome (list (command io_item io_work_t) * io_world) :=
  let s := w_store w in
  f ← deref (objects s !! v);
  backend_to_use ← deref (backend f);
  '(direct, offset) ← esdmI_scheduler_try_direct_io (dataspace f) (bool_decide (is_Some (buf f))) space;
  let f' := match offset with Some o => withBuf f (Some (offsetPointer buf0 o)) (ownsBuf f) | None => f end in
  let task := if direct : bool then IoWork v ESDM_OP_READ (Some buffer_cleanup) None None backend_to_use
              else IoWork v ESDM_OP_READ (Some read_copy) (Some buf0) (Some space) backend_to_use in
  mret ([Push task], setStore w (setObject s v f')).

(** The loop of [esdm_modules_fastestBackend()]; [None] is a null pointer. *)
Fixpoint fastestBackend_loop (backends : list data_backend) (bestBackend : option nat) (bestThroughput : F) : outcome (option nat) :=
  match backends with
  | [] => mret bestBackend
  | b :: backends' =>
      curThroughput ← deref (db_throughput b);
      if fle bestThroughput curThroughput then fastestBackend_loop backends' (Some (db_handle b)) curThroughput
      else fastestBackend_loop backends' bestBackend bestThroughput
  end.

Definition esdm_modules_fastestBackend : outcome (option nat) := fastestBackend_loop data_backends None fzero.

(** The statistics belong to the main thread and are updated with the preparation of the task. *)
Definition esdmI_scheduler_writeFragmentNonblocking (v : nat) (requestIsInternal : bool) (w : io_world)
    : outcome (list (command io_item io_work_t) * io_world) :=
  let s := w_store w in
  f ← deref (objects s !! v);
  k ← match backend f with
      | Some k => mret k
      | None => best ← esdm_modules_fastestBackend; deref best
      end;
  let f := Fragment (id f) (datasetId f) (dataspace f) (Some k) (buf f) (elements f) (bytes f) (actual_bytes f) (status f) (ownsBuf f) in
  let task := IoWork v ESDM_OP_WRITE (Some buffer_cleanup) None None k in
  byteCount ← esdm_dataspace_total_bytes (dataspace f);
  let stats := updateRequestStats (updateIoStats (w_writeStats w) 1 byteCount) 1 byteCount requestIsInternal in
  mret ([AddPending 1; Push task], IoWorld (setObject s v f) (w_dataset w) (w_readStats w) stats).

(** The body of the inner loop of [esdm_scheduler_enqueue_write()]. *)
Definition enqueue_write_cube (cube : esdmI_hypercube_t) (curBackend : nat) (buf0 : pointer) (space : esdm_dataspace_t) (requestIsInternal : bool)
    (w : io_world) : outcome (list (command io_item io_work_t) * io_world) :=
  '(offset, _) ← esdmI_hypercube_getOffsetAndSize cube;
  subspace ← esdmI_dataspace_createFromHypercube cube (esdm_dataspace_get_type space);
  '(ret, subspace) ← esdm_dataspace_copyDatalayout subspace space;
  eassert (bool_decide (ret = ESDM_SUCCESS));;
  o ← esdm_dataspace_elementOffset space offset;
  '(v, isNewFragment, dataset, objs) ← esdmI_dataset_createFragment (w_dataset w) (objects (w_store w)) subspace (Some (offsetPointer buf0 o));
  let w := IoWorld (Store objs (memory (w_store w)) (disk (w_store w))) dataset (w_readStats w) (w_writeStats w) in
  if negb isNewFragment then mret ([], w)
  else
    f ← deref (objs !! v);
    let f := Fragment (id f) (datasetId f) (dataspace f) (Some curBackend) (buf f) (elements f) (bytes f) (actual_bytes f) (status f) (ownsBuf f) in
    esdmI_scheduler_writeFragmentNonblocking v requestIsInternal (setStore w (setObject (w_store w) v f)).

Definition prepare_item (item : io_item) (w : io_world) : outcome (list (command io_item io_work_t) * io_world) :=
  match item with
  | ReadItem v buf space => enqueue_read_fragment v buf space w
  | WriteItem cube k buf space internal => enqueue_write_cube cube k buf space internal w
  | WriteFragment v internal => esdmI_scheduler_writeFragmentNonblocking v internal w
  end.

(** ** Requests *)

(** A request under a schedule. *)
Definition submit (schedule : list choice) (commands : list (command io_item io_work_t)) (w : io_world) : outcome (option (esdm_status * io_world)) :=
  run_request work_backend threads prepare_item perform_work schedule commands w.

(** [esdm_scheduler_enqueue_read()]: the tasks are announced together. *)
Definition esdm_scheduler_enqueue_read (fragments : list nat) (buf : pointer) (space : esdm_dataspace_t) : list (command io_item io_work_t) :=
  AddPending (Z.of_nat (length fragments)) :: ((fun v => Prepare (ReadItem v buf space)) <$> fragments).

(** The items of one backend in [esdm_scheduler_enqueue_write()]. *)
Definition enqueue_write_backend (slot : option (option esdmI_hypercube_t)) (b : data_backend) (buf : pointer) (space : esdm_dataspace_t)
    (requestIsInternal : bool) : outcome (list (command io_item io_work_t)) :=
  curExtends ← deref slot;
  match curExtends with
  | None => mret []
  | Some curExtends =>
      backendSpace ← esdmI_dataspace_createFromHypercube curExtends (esdm_dataspace_get_type space);
      '(ret, backendSpace) ← esdm_dataspace_copyDatalayout backendSpace space;
      eassert (bool_decide (ret = ESDM_SUCCESS));;
      cubes ← esdm_scheduler_makeSplitRecommendation splitFactor qsort backendSpace (db_method b) (db_max_fragment_size b);
      mret ((fun c => Prepare (WriteItem c (db_handle b) buf space requestIsInternal)) <$> esdmI_hypercubeSet_list cubes)
  end.

(** [esdm_scheduler_enqueue_write()]; [esdm_modules_makeBackendRecommendation()] returns all data backends.
    The partition does not depend on the tasks, which are prepared one after the other. *)
Definition esdm_scheduler_enqueue_write (buf : pointer) (space : esdm_dataspace_t) (requestIsInternal : bool)
    : outcome (list (command io_item io_work_t)) :=
  backendExtends ← splitToBackends fzero fle fadd scaled space (db_throughput <$> data_backends);
  commands ← mapM (fun p => enqueue_write_backend p.1 p.2 buf space requestIsInternal) (zip backendExtends data_backends);
  mret (concat commands).

Definition esdm_scheduler_write_blocking (schedule : list choice) (buf : pointer) (subspace : esdm_dataspace_t) (requestIsInternal : bool)
    (w : io_world) : outcome (option (esdm_status * io_world)) :=
  commands ← esdm_scheduler_enqueue_write buf subspace requestIsInternal;
  submit schedule commands w.

Definition esdmI_scheduler_writeFragmentBlocking (schedule : list choice) (v : nat) (requestIsInternal : bool) (w : io_world)
    : outcome (option (esdm_status * io_world)) :=
  submit schedule [Prepare (WriteFragment v requestIsInternal)] w.

Definition esdmI_scheduler_readSingleFragmentBlocking (schedule : list choice) (buffer : pointer) (memspace : esdm_dataspace_t) (fragment : nat)
    (w : io_world) : outcome (option (esdm_status * io_world)) :=
  r ← submit schedule (esdm_scheduler_enqueue_read [fragment] buffer memspace) w;
  match r with
  | None => mret None
  | Some (ret, w) =>
      requestBytes ← esdm_dataspace_total_bytes memspace;
      let stats := updateRequestStats (updateIoStats (w_readStats w) 1 requestBytes) 1 requestBytes false in
      mret (Some (ret, IoWorld (w_store w) (w_dataset w) stats (w_writeStats w)))
  end.

(** ** Reading *)

(** One region of [esdm_scheduler_enqueue_fill()]. *)
Definition fill_cube (fillValue : mem) (buf : pointer) (bufSpace : esdm_dataspace_t) (curCube : esdmI_hypercube_t) (state : esdm_dataspace_t * heap)
    : outcome (esdm_dataspace_t * heap) :=
  let '(sourceSpace, h) := state in
  eassert (esdmI_hypercube_dimensions curCube =? esdm_dataspace_get_dims bufSpace);;
  sourceSpace ← esdmI_dataspace_setExtends sourceSpace curCube;
  data ← view buf h;
  '(_, data) ← esdm_dataspace_copy_data floatCast sourceSpace fillValue bufSpace data;
  h ← put buf data h;
  mret (sourceSpace, h).

Definition esdm_scheduler_enqueue_fill (fillValue : mem) (buf : pointer) (bufSpace : esdm_dataspace_t) (fillRegion : list esdmI_hypercube_t) (h : heap)
    : outcome (esdm_status * heap) :=
  let dimensions := esdm_dataspace_get_dims bufSpace in
  sourceSpace ← esdm_dataspace_create dimensions (replicate (Z.to_nat dimensions) INT64_MAX) (esdm_dataspace_get_type bufSpace);
  '(ret, sourceSpace) ← esdm_dataspace_set_stride sourceSpace (replicate (Z.to_nat dimensions) 0);
  eassert (bool_decide (ret = ESDM_SUCCESS));;
  '(_, h) ← foldM (fill_cube fillValue buf bufSpace) fillRegion (sourceSpace, h);
  mret (ESDM_SUCCESS, h).

(** The coverage check of [esdm_scheduler_read_blocking()]: holes are filled when the dataset has a
    fill value. *)
Definition read_coverage (dataIsComplete : bool) (uncovered : esdmI_hypercubeSet_t) (buf : pointer) (subspace : esdm_dataspace_t) (w : io_world)
    : outcome (esdm_status * io_world) :=
  if dataIsComplete then mret (ESDM_SUCCESS, w)
  else
    eassert (bool_decide (esdm_dataspace_get_type subspace = esdm_dataset_get_type (w_dataset w)));;
    match esdm_dataset_get_fill_value (w_dataset w) with
    | (ESDM_SUCCESS, Some value) =>
        let s := w_store w in
        '(ret, h) ← esdm_scheduler_enqueue_fill (mem_of value) buf subspace (esdmI_hypercubeSet_list uncovered) (memory s);
        mret (ret, setStore w (Store (objects s) h (disk s)))
    | _ => mret (ESDM_INCOMPLETE_DATA, w)
    end.

(** The loop that adds up the bytes of the fragments. *)
Definition sumBytes (fragments : list nat) (objs : gmap nat esdm_fragment_t) : outcome Z :=
  foldM (fun v ioBytes =>
           f ← deref (objs !! v);
           b ← esdm_dataspace_total_bytes (dataspace f);
           chk64 (ioBytes + b)) fragments 0.

(** The end of [esdm_scheduler_read_blocking()]: the statistics, and a copy of the data when much more
    had to be read than was asked for; its return code is ignored. *)
Definition finish_read (writeback : list choice) (read_frag : list nat) (uncovered : esdmI_hypercubeSet_t) (dataIsComplete : bool) (buf : pointer)
    (subspace : esdm_dataspace_t) (allowWriteback requestIsInternal : bool) (ret : esdm_status) (w : io_world)
    : outcome (option (esdm_status * esdmI_hypercubeSet_t * io_world)) :=
  requestBytes ← esdm_dataspace_total_bytes subspace;
  ioBytes ← sumBytes read_frag (objects (w_store w));
  let stats := updateRequestStats (updateIoStats (w_readStats w) (Z.of_nat (length read_frag)) ioBytes) 1 requestBytes requestIsInternal in
  let w := IoWorld (w_store w) (w_dataset w) stats (w_writeStats w) in
  if allowWriteback && bool_decide (ret = ESDM_SUCCESS) && dataIsComplete && manyBytes ioBytes requestBytes then
    r ← esdm_scheduler_write_blocking writeback buf subspace true w;
    mret ((fun x => (ret, uncovered, x.2)) <$> r)
  else mret (Some (ret, uncovered, w)).

(** The result has the return code and the region without data. *)
Definition esdm_scheduler_read_blocking (schedule writeback : list choice) (buf : pointer) (subspace : esdm_dataspace_t)
    (allowWriteback requestIsInternal : bool) (w : io_world) : outcome (option (esdm_status * esdmI_hypercubeSet_t * io_world)) :=
  readExtends ← esdmI_dataspace_getExtends subspace;
  '(read_frag, uncovered, dataIsComplete) ← esdmI_dataset_fragmentsCoveringRegion (w_dataset w) (objects (w_store w)) readExtends;
  '(ret, w) ← read_coverage dataIsComplete uncovered buf subspace w;
  if decide (ret = ESDM_SUCCESS) then
    r ← submit schedule (esdm_scheduler_enqueue_read read_frag buf subspace) w;
    match r with
    | None => mret None
    | Some (ret, w) => finish_read writeback read_frag uncovered dataIsComplete buf subspace allowWriteback requestIsInternal ret w
    end
  else mret (Some (ret, uncovered, w)).

End Scheduler.
