(* ===== verification/Library.v ===== *)
(** Start and stop of the library (src/esdm.c): the settings that must precede [esdm_init()], the initialisation of the
    configuration, the modules and the thread pools, and [esdm_finalize()].  The instance of the library is global state. *)

From Stdlib Require Import Ascii.
From stdpp Require Import gmap strings.
From S2P Require Import Prelude Memory Json JsonText Dataspace Split Fragment FragmentState Posix Metadata Config MdPosix Scheduler.

Open Scope Z_scope.

(** * Operations *)

Section Operations.

Context `{Jansson} {FS : Type} `{FileSystem FS} `{MdFileSystem FS}.
(** The backends of the build, and whether their functions accept a configuration. *)
Context (has : backend_kind -> bool) (backend_init : backend_kind -> esdm_config_backend_t -> outcome bool).

(** [esdm_instance_t] and the variable [is_initialized]; the scheduler is the number of threads of each data backend. *)
Record library := Library {
  is_initialized : bool;
  procs_per_node : Z;
  total_procs : Z;
  config : option esdm_config_t;
  modules : option esdm_modules_t;
  scheduler : option (list Z);
  os : FS
}.

(** [ESDM_INSTANCE_INITIALIZERS]. *)
Definition initial (fs : FS) : library := Library false 1 1 None None None fs.

(** ** src/utils/auxiliary.c *)

(** A text ends at the first zero. *)
Fixpoint until_zero (data : list Z) : list Z := match data with [] => [] | z :: data' => if z =? 0 then [] else z :: until_zero data' end.

(** A buffer that was not filled is not initialised. *)
Definition ea_read_file (filepath : string) (fs : FS) : outcome (option string * FS) :=
  if fs_open filepath fs then
    fsize ← deref (fs_size filepath fs);
    '(ok, string, fs) ← ea_read_check filepath fsize fs;
    if ok : bool then mret (Some (text_from (until_zero string)), fs) else Undef
  else mret (None, fs).

(** ** src/esdm-config.c *)

Definition esdm_config_gather (fs : FS) : outcome (option string * FS) := ea_read_file "esdm.conf" fs.

Definition withConfig (l : library) (c : option esdm_config_t) (fs : FS) : library :=
  Library (is_initialized l) (procs_per_node l) (total_procs l) c (modules l) (scheduler l) fs.

(** The result is whether there is a configuration. *)
Definition esdm_config_init (l : library) : outcome (bool * library) :=
  '(config_str, fs) ← esdm_config_gather (os l);
  match config_str with
  | None => mret (false, withConfig l (config l) fs)
  | Some config_str => c ← esdm_config_init_from_str config_str; mret (true, withConfig l (Some c) fs)
  end.

Definition esdm_config_finalize (l : library) : library := withConfig l None (os l).

(** ** src/esdm-scheduler.c and src/esdm-modules.c *)

Definition threads_of (l : library) (b : backend_kind * esdm_config_backend_t) : outcome Z :=
  backendThreads (procs_per_node l) (total_procs l) (max_threads_per_node b.2) (max_global_threads b.2) (bool_decide (data_accessibility b.2 = ESDM_ACCESSIBILITY_GLOBAL)).

Definition esdm_scheduler_init (l : library) : outcome library :=
  m ← deref (modules l);
  threads ← mapM (threads_of l) (data_backends m);
  mret (Library (is_initialized l) (procs_per_node l) (total_procs l) (config l) (modules l) (Some threads) (os l)).

(** The pools and the scheduler are released. *)
Definition esdm_scheduler_finalize (l : library) : library :=
  Library (is_initialized l) (procs_per_node l) (total_procs l) (config l) (modules l) None (os l).

Definition setModules (l : library) (m : option esdm_modules_t) : library :=
  Library (is_initialized l) (procs_per_node l) (total_procs l) (config l) m (scheduler l) (os l).

Definition esdm_modules_finalize (l : library) : library := setModules l None.

(** ** src/esdm.c *)

Definition esdm_set_procs_per_node (procs : Z) (l : library) : outcome (esdm_status * library) :=
  eassert (0 <? procs);;
  eassert (negb (is_initialized l));;
  mret (ESDM_SUCCESS, Library (is_initialized l) procs (total_procs l) (config l) (modules l) (scheduler l) (os l)).

Definition esdm_set_total_procs (procs : Z) (l : library) : outcome (esdm_status * library) :=
  eassert (0 <? procs);;
  eassert (negb (is_initialized l));;
  mret (ESDM_SUCCESS, Library (is_initialized l) (procs_per_node l) procs (config l) (modules l) (scheduler l) (os l)).

Definition esdm_load_config_str (str : string) (l : library) : outcome (esdm_status * library) :=
  eassert (negb (is_initialized l));;
  eassert (match config l with None => true | Some _ => false end);;
  c ← esdm_config_init_from_str str;
  mret (ESDM_SUCCESS, withConfig l (Some c) (os l)).

Definition esdm_init (l : library) : outcome (esdm_status * library) :=
  if negb (is_initialized l) then
    '(ok, l) ← match config l with Some _ => mret (true, l) | None => esdm_config_init l end;
    if negb ok then mret (ESDM_ERROR, l)
    else
      c ← deref (config l);
      m ← esdm_modules_init has backend_init c;
      l ← esdm_scheduler_init (setModules l (Some m));
      mret (ESDM_SUCCESS, Library true (procs_per_node l) (total_procs l) (config l) (modules l) (scheduler l) (os l))
  else mret (ESDM_SUCCESS, l).

Definition esdm_get_modules (l : library) : outcome (option esdm_modules_t) := if negb (is_initialized l) then Abort else mret (modules l).

Definition esdm_finalize (l : library) : outcome (esdm_status * library) :=
  let l := esdm_scheduler_finalize l in
  let l := esdm_modules_finalize l in
  let l := esdm_config_finalize l in
  mret (ESDM_SUCCESS, initial (os l)).

(** * The calls of a program *)

Inductive call := SetProcsPerNode (procs : Z) | SetTotalProcs (procs : Z) | LoadConfig (str : string) | Init | Finalize.

Definition perform (c : call) (l : library) : outcome (esdm_status * library) :=
  match c with
  | SetProcsPerNode procs => esdm_set_procs_per_node procs l
  | SetTotalProcs procs => esdm_set_total_procs procs l
  | LoadConfig str => esdm_load_config_str str l
  | Init => esdm_init l
  | Finalize => esdm_finalize l
  end.

(** Other calls and other processes change the file system in between. *)
Inductive reachable : library -> Prop :=
| reach_start fs : reachable (initial fs)
| reach_call c l st l' : reachable l -> perform c l = Done (st, l') -> reachable l'
| reach_files l fs : reachable l -> reachable (withConfig l (config l) fs).

End Operations.
Arguments library FS : clear implicits.

(** * The threads of a backend *)

(** The share of one of [procs] processes in a limit, rounded up: the least number with which the processes together reach the limit. *)
Definition rounded_share (limit procs q : Z) : Prop := procs * (q - 1) < limit <= procs * q.

Lemma rounded_share_quot (limit procs : Z) : 0 < procs -> 0 <= limit -> rounded_share limit procs (Z.quot (limit + procs - 1) procs).
Proof.
  intros Hn Hm. unfold rounded_share. rewrite Z.quot_div_nonneg by lia. pose proof (Z.div_mod (limit + procs - 1) procs). pose proof (Z.mod_pos_bound (limit + procs - 1) procs). nia.
Qed.

Lemma chk32_inv (z v : Z) : chk32 z = Done v -> v = z.
Proof. unfold chk32. destruct (_ && _); [by intros [= <-] | done]. Qed.

Lemma div32_inv (a b v : Z) : div32 a b = Done v -> v = Z.quot a b.
Proof. unfold div32. destruct (b =? 0); [done | apply chk32_inv]. Qed.

(** The threads of a backend are the share of a process in the limit per node and, when all nodes share the backend, in the global limit if
    that is less. *)
Definition threads_ok (ppn gt : Z) (b : backend_kind * esdm_config_backend_t) (threads : Z) : Prop :=
  exists max_local max_global, rounded_share (max_threads_per_node b.2) ppn max_local /\ rounded_share (max_global_threads b.2) gt max_global /\
  threads = if decide (data_accessibility b.2 = ESDM_ACCESSIBILITY_GLOBAL) then Z.min max_local max_global else max_local.

Lemma backendThreads_ok (ppn gt : Z) (b : backend_kind * esdm_config_backend_t) (threads : Z) : 0 < ppn -> 0 < gt -> 0 <= max_threads_per_node b.2 -> 0 <= max_global_threads b.2 ->
  backendThreads ppn gt (max_threads_per_node b.2) (max_global_threads b.2) (bool_decide (data_accessibility b.2 = ESDM_ACCESSIBILITY_GLOBAL)) = Done threads -> threads_ok ppn gt b threads.
Proof.
  intros Hppn Hgt Hm Hg E. unfold backendThreads in E. inv_outcome. repeat match goal with H : chk32 _ = Done _ |- _ => apply chk32_inv in H; subst | H : div32 _ _ = Done _ |- _ => apply div32_inv in H; subst end.
  eexists _, _. split; [by apply rounded_share_quot |]. split; [by apply rounded_share_quot |].
  case_bool_decide; [rewrite decide_True by done | by rewrite decide_False]. destruct (Z.ltb_spec (Z.quot (max_threads_per_node b.2 + ppn - 1) ppn) (Z.quot (max_global_threads b.2 + gt - 1) gt)); lia.
Qed.

(** * Reachable states *)

Section Reachable.

Context `{Jansson} {FS : Type} `{FileSystem FS} `{MdFileSystem FS}.
Context (has : backend_kind -> bool) (backend_init : backend_kind -> esdm_config_backend_t -> outcome bool).

(** A library that runs has a configuration, the modules of that configuration and a number of threads for each data backend; a library that
    does not run has neither modules nor threads. *)
Record library_ok (l : library FS) : Prop := {
  lo_procs : 0 < procs_per_node l /\ 0 < total_procs l;
  lo_running : is_initialized l = true -> exists c m threads, config l = Some c /\ modules l = Some m /\ scheduler l = Some threads /\
    esdm_modules_init has backend_init c = Done m /\
    Forall2 (fun b t => 0 <= max_threads_per_node b.2 -> 0 <= max_global_threads b.2 -> threads_ok (procs_per_node l) (total_procs l) b t) (data_backends m) threads;
  lo_stopped : is_initialized l = false -> modules l = None /\ scheduler l = None
}.

Lemma initial_ok (fs : FS) : library_ok (initial fs).
Proof. constructor; [done | done | done]. Qed.

Lemma mapM_done {A B} (f : A -> outcome B) (l : list A) (k : list B) : mapM f l = Done k -> Forall2 (fun a b => f a = Done b) l k.
Proof. revert k. induction l as [| a l IH]; intros k E; [injection E as <-; constructor |]. rewrite mapM_cons in E. inv_outcome. constructor; [done | by apply IH]. Qed.

Lemma init_ok (l l' : library FS) (st : esdm_status) : library_ok l -> esdm_init has backend_init l = Done (st, l') ->
  library_ok l' /\ (st = ESDM_SUCCESS <-> is_initialized l' = true) /\ (is_initialized l = true -> l' = l).
Proof.
  intros Hok E. unfold esdm_init in E. destruct (is_initialized l) eqn:Ei; cbn [negb] in E; [inv_outcome; done |].
  apply bind_done_inv in E as ([ok l1] & E1 & E).
  assert (Hl1 : is_initialized l1 = false /\ procs_per_node l1 = procs_per_node l /\ total_procs l1 = total_procs l /\ modules l1 = modules l /\ scheduler l1 = scheduler l).
  { destruct (config l); [by injection E1 as _ <- |]. unfold esdm_config_init in E1. apply bind_done_inv in E1 as ([[str |] fs] & _ & E1); [apply bind_done_inv in E1 as (c & _ & E1) |]; by injection E1 as _ <-. }
  destruct Hl1 as (Hi & Hp & Hg & Hm & Hs). destruct ok; cbn [negb] in E.
  2: { injection E as <- <-. split; [| split; [split; [done | congruence] | done]]. destruct (lo_stopped _ Hok Ei). constructor; [rewrite Hp, Hg; apply (lo_procs _ Hok) | congruence | by rewrite Hm, Hs]. }
  apply bind_done_inv in E as (c & Ec & E). apply bind_done_inv in E as (m & Em & E). apply bind_done_inv in E as (l2 & E2 & E). injection E as <- <-.
  unfold esdm_scheduler_init in E2. cbn [modules setModules deref] in E2. apply bind_done_inv in E2 as (m' & [= <-] & E2). apply bind_done_inv in E2 as (threads & Et & [= <-]).
  cbn [is_initialized]. split; [| done]. destruct (lo_procs _ Hok) as [Hppn Hgt]. constructor; cbn [is_initialized procs_per_node total_procs config modules scheduler setModules]; [by rewrite Hp, Hg | | done].
  intros _. exists c, m, threads. split; [destruct (config l1); [by injection Ec as -> | done] |]. split; [done |]. split; [done |]. split; [done |].
  apply mapM_done in Et. eapply Forall2_impl; [exact Et |]. cbn beta. intros b t Hb Hmx Hgx. apply (backendThreads_ok _ _ b t); [by rewrite Hp | by rewrite Hg | done | done | exact Hb].
Qed.

Lemma reachable_ok (l : library FS) : reachable has backend_init l -> library_ok l.
Proof.
  induction 1 as [fs | c l st l' _ Hok E | l fs _ Hok]; [apply initial_ok | | destruct Hok; by constructor].
  destruct c; cbn [perform] in E.
  - unfold esdm_set_procs_per_node in E. inv_outcome. reflect_bools. destruct Hok as [[? ?] ? ?]. constructor; cbn; [lia | congruence | done].
  - unfold esdm_set_total_procs in E. inv_outcome. reflect_bools. destruct Hok as [[? ?] ? ?]. constructor; cbn; [lia | congruence | done].
  - unfold esdm_load_config_str in E. inv_outcome. reflect_bools. destruct Hok. constructor; cbn; [done | congruence | done].
  - by apply (init_ok l l' st).
  - injection E as _ <-. apply initial_ok.
Qed.


End Reachable.

(** * Examples *)

(** The configuration of the example in Config.v in the file "esdm.conf"; four processes on two nodes. *)
Definition confDisk : TreeFS.treeFS := TreeFS.Tree {["esdm.conf"%string := bytes_of configText]} [].

Definition prepared : library TreeFS.treeFS := Library false 2 4 None None None confDisk.

Definition running : library TreeFS.treeFS :=
  match esdm_init posixOnly (fun _ _ => mret true) prepared with Done (_, l) => l | _ => prepared end.


(** Because of the rounding the processes together can have more threads than [max_global_threads]: four processes have one thread each for a backend
    that is limited to one. *)
Lemma threads_exceed_limit : backendThreads 1 4 1 1 true = Done 1 /\ 4 * 1 > 1.
Proof. split; [reflexivity | lia]. Qed.
