(* ===== verification/Stream.v ===== *)
(** Streams of dataset writes (src/esdm-stream.c, src/include/esdm-stream.h): the region of a dataset is written element by
    element in C order; the elements are collected in chunks, which the backend appends to the current
    fragment ([fragment_write_stream_blocksize()] of src/backends-data/posix/posix.c). *)

From stdpp Require Import gmap strings.
From S2P Require Import Prelude Memory Hypercube HypercubeSet Json Odometer Dataspace Partition Split Grid GridTree Fragment FragmentState Posix Fragments Request Dataset Scheduler.

Open Scope Z_scope.

(** * Counting objects *)

(** The remainder of the C division. *)
Definition crem (a b : Z) : outcome Z := if b =? 0 then Undef else mret (Z.rem a b).

(** [kMaxChunkSize]. *)
Definition kMaxChunkSize : Z := 16 * 1024.

(** The loop of [initCounts()] from the last dimension to the first; the counts are in that order.  The second
    component is the dimension at which objects are split and their width there.  In the increment of the loop, [i] is decremented
    before the slice is multiplied with the size of dimension [i].  Unless the loop ends with [break], the increment after the first
    dimension reads [dataspaceSize[-1]], the word before the array, which is undefined. *)
Fixpoint initCounts_loop (maxObjectSize sliceSize : Z) (revSize : list Z) : outcome (list Z * option (nat * Z)) :=
  match revSize with
  | [] => mret ([], None)
  | s :: rest =>
      maxSlices ← cdiv maxObjectSize sliceSize;
      if maxSlices <? s then
        sum ← chk64 (s + maxSlices - 1);
        count ← cdiv sum maxSlices;
        mret (count :: rest, Some (length rest, maxSlices))
      else
        sliceSize ← match rest with [] => Undef | s' :: _ => chk64 (sliceSize * s') end;
        '(counts, split) ← initCounts_loop maxObjectSize sliceSize rest;
        mret (1 :: counts, split)
  end.

Fixpoint cumulate (counts : list Z) : outcome (list Z) :=
  match counts with
  | [] => mret [1]
  | c :: rest => cum ← cumulate rest; next ← deref (head cum); v ← chk64 (c * next); mret (v :: cum)
  end.

(** [initCounts()]: the counts, the cumulative counts and the split. *)
Definition initCounts (elementSize maxObjectSize : Z) (dataspaceSize : list Z) : outcome (list Z * list Z * option (nat * Z)) :=
  '(revCounts, split) ← initCounts_loop maxObjectSize elementSize (rev dataspaceSize);
  cum ← cumulate (rev revCounts);
  mret (rev revCounts, cum, split).

Definition getBounds (dataspace : esdm_dataspace_t) (dim : nat) (cumulativeCounts : list Z) (objectIndex : Z) : outcome esdmI_range_t :=
  if dims dataspace =? 0 then mret (Range 0 1)
  else
    a ← deref (cumulativeCounts !! dim);
    b ← deref (cumulativeCounts !! S dim);
    dimSize ← cdiv a b;
    q ← cdiv objectIndex b;
    index ← crem q dimSize;
    o ← deref (offset dataspace !! dim);
    s ← deref (size dataspace !! dim);
    lo ← chk64 (index * s);
    lo ← cdiv lo dimSize;
    lo ← chk64 (o + lo);
    hi ← chk64 ((index + 1) * s);
    hi ← cdiv hi dimSize;
    hi ← chk64 (o + hi);
    mret (Range lo hi).

(** * Streams of the POSIX backend *)

Section Posix.

Context {FS : Type} `{FileSystem FS} (target : nat -> string) (makeId : nat -> string).

(** The open file of a stream is named by its path; the result of [ea_write_check()] is not used.  After the last
    chunk the state of the stream is freed. *)
Definition fragment_write_stream_blocksize (k : nat) (f : esdm_fragment_t) (backend_state : option string) (c_buf : list Z) (c_off : Z) (s : posix_state (FS := FS))
    : outcome (esdm_status * esdm_fragment_t * option string * posix_state (FS := FS)) :=
  let tgt := target k in
  let c_size := Z.of_nat (length c_buf) in
  '(ret, f, state, s) ←
    if c_off =? 0 then
      match Fragment.id f with
      | Some _ =>
          path ← sprintfFragmentPath tgt f;
          let '(ok, fs) := fs_truncate path (files s) in
          mret (if ok : bool then (ESDM_SUCCESS, f, Some path, PosixState fs (madeIds s)) else (ESDM_ERROR, f, backend_state, PosixState fs (madeIds s)))
      | None =>
          '(ret, f, path, s) ← create_posix_id makeId (S (length (fs_names (files s)))) tgt f s;
          mret (if decide (ret = ESDM_SUCCESS) then (ESDM_SUCCESS, f, Some path, s) else (ret, f, backend_state, s))
      end
    else mret (ESDM_SUCCESS, f, backend_state, s);
  if decide (ret = ESDM_SUCCESS) then
    eassert (c_off + c_size <=? bytes f);;
    path ← deref state;
    '(_, fs) ← ea_write_check path c_buf (files s);
    mret (ESDM_SUCCESS, f, if c_off + c_size =? bytes f then None else state, PosixState fs (madeIds s))
  else mret (ret, f, state, s).

End Posix.

(** * src/esdm-stream.c *)

(** [esdm_wstream_metadata_t]; [ws_fragment] and [ws_state] are the fields of [backendState]. *)
Record esdm_wstream_metadata_t := Wstream {
  ws_space : esdm_dataspace_t;
  ws_backend : nat;
  ws_fragment : option nat;
  ws_state : option string;
  fragmentationDim : Z;
  chunkingDim : Z;
  maxChunkWidth : Z;
  fragmentCounts : list Z;
  chunkCounts : list Z;
  cumulativeFragmentCounts : list Z;
  cumulativeChunkCounts : list Z;
  fragCapacityRemaining : Z;
  curFragment : Z;
  nextChunk : Z;
  chunkOffset : Z
}.

(** The fields that change while data is written. *)
Definition setIterator (m : esdm_wstream_metadata_t) (fragment : option nat) (state : option string) (capacity fragmentIndex chunk chunkOff : Z) : esdm_wstream_metadata_t :=
  Wstream (ws_space m) (ws_backend m) fragment state (fragmentationDim m) (chunkingDim m) (maxChunkWidth m) (fragmentCounts m) (chunkCounts m) (cumulativeFragmentCounts m)
    (cumulativeChunkCounts m) capacity fragmentIndex chunk chunkOff.

Section Streams.

Context {FS : Type} `{FileSystem FS} (target : nat -> string) (makeId : nat -> string) {T : Type} `{GHashTable T}.
(** [max_fragment_size] of the data backends. *)
Context (maxFragmentSize : nat -> Z).

Abbreviation world := (io_world (B := posix_state (FS := FS)) (T := T)).

Definition setFragmentBackend (f : esdm_fragment_t) (k : nat) : esdm_fragment_t :=
  Fragment (Fragment.id f) (datasetId f) (dataspace f) (Some k) (buf f) (elements f) (bytes f) (actual_bytes f) (status f) (ownsBuf f).

Definition rangeSize (r : esdmI_range_t) : outcome Z := chk64 (rend r - rstart r).

Definition wstream_create_newFragment (m : esdm_wstream_metadata_t) (w : world) : outcome (esdm_wstream_metadata_t * world) :=
  cur ← chk64 (curFragment m + 1);
  let dimCount := Z.to_nat (dims (ws_space m)) in
  ranges ← mapM (fun dim => getBounds (ws_space m) dim (cumulativeFragmentCounts m) cur) (seq 0 dimCount);
  sizes ← mapM rangeSize ranges;
  capacity ← foldM (fun s c => chk64 (c * s)) (rev sizes) (esdm_sizeof (type (ws_space m)));
  memspace ← esdm_dataspace_create_full (dims (ws_space m)) sizes (rstart <$> ranges) (type (ws_space m));
  '(v, isNewFragment, dataset, objs) ← esdmI_dataset_createFragment (w_dataset w) (objects (w_store w)) memspace None;
  eassert isNewFragment;;
  f ← deref (objs !! v);
  mret (setIterator m (Some v) (ws_state m) capacity cur (nextChunk m) 0,
        IoWorld (Store (<[v := setFragmentBackend f (ws_backend m)]> objs) (memory (w_store w)) (disk (w_store w))) dataset (w_readStats w) (w_writeStats w)).

(** [backend] is the one that [esdm_modules_randomWeightedBackend()] picks. *)
Definition esdm_wstream_metadata_create (backend : nat) (dimCount : Z) (offset size : list Z) (type : esdm_type_t) (w : world)
    : outcome (esdm_wstream_metadata_t * world) :=
  eassert (dims (dset_space (w_dataset w)) =? dimCount);;
  space ← esdm_dataspace_create_full dimCount size offset type;
  width ← if dimCount =? 0 then mret 1 else deref (head size);
  '(chunks, cumulativeChunks, chunkSplit) ← initCounts (esdm_sizeof type) kMaxChunkSize size;
  '(fragments, cumulativeFragments, fragmentSplit) ← initCounts (esdm_sizeof type) (to_int64 (maxFragmentSize backend)) size;
  let '(chunkDim, chunkWidth) := match chunkSplit with Some (d, width) => (Z.of_nat d, width) | None => (0, width) end in
  let fragmentDim := match fragmentSplit with Some (d, _) => Z.of_nat d | None => 0 end in
  wstream_create_newFragment
    (Wstream space backend None None fragmentDim chunkDim chunkWidth fragments chunks cumulativeFragments cumulativeChunks 0 (-1) 0 0) w.

(** [for(dim = dims; dim-- > chunkingDim; sliceSize *= size[dim]) ;] *)
Definition esdm_wstream_metadata_max_chunk_size (m : esdm_wstream_metadata_t) : outcome Z :=
  sliceSize ← foldM (fun s c => chk64 (c * s)) (rev (drop (Z.to_nat (chunkingDim m)) (size (ws_space m)))) 1;
  chk64 (maxChunkWidth m * sliceSize).

Definition isFinished (m : esdm_wstream_metadata_t) : outcome bool :=
  if fragCapacityRemaining m =? 0 then
    next ← chk64 (curFragment m + 1);
    total ← deref (head (cumulativeFragmentCounts m));
    mret (next =? total)
  else mret false.

(** The comparison and the division are unsigned. *)
Definition esdm_wstream_metadata_next_chunk_size (m : esdm_wstream_metadata_t) : outcome Z :=
  finished ← isFinished m;
  if finished : bool then mret 0
  else
    chunkSize ← foldM (fun dim c => r ← getBounds (ws_space m) dim (cumulativeChunkCounts m) (nextChunk m); n ← esdmI_range_size r; chk64 (c * n))
                  (rev (seq 0 (Z.to_nat (dims (ws_space m))))) 1;
    room ← cdiv (u64 (fragCapacityRemaining m)) (u64 (esdm_sizeof (type (ws_space m))));
    mret (if room <? u64 chunkSize then to_int64 room else chunkSize).

(** The chunk is given by its bytes; the size that is passed to the backend has 32 bits. *)
Definition esdm_wstream_flush (m : esdm_wstream_metadata_t) (buffer : list Z) (w : world) : outcome (esdm_wstream_metadata_t * world) :=
  finished ← isFinished m;
  eassert (negb finished);;
  let curChunkSize := Z.of_nat (length buffer) in
  eassert (fragCapacityRemaining m >=? curChunkSize);;
  '(state, w) ←
    match ws_fragment m with
    | None => mret (ws_state m, w)
    | Some v =>
        f ← deref (objects (w_store w) !! v);
        '(ret, f, state, s) ← fragment_write_stream_blocksize target makeId (ws_backend m) f (ws_state m) (take (Z.to_nat (u32 curChunkSize)) buffer) (chunkOffset m) (disk (w_store w));
        if decide (ret = ESDM_SUCCESS) then mret (state, setStore w (Store (<[v := f]> (objects (w_store w))) (memory (w_store w)) s)) else Abort
    end;
  off ← chk64 (chunkOffset m + curChunkSize);
  chunk ← chk64 (nextChunk m + 1);
  capacity ← chk64 (fragCapacityRemaining m - curChunkSize);
  let m := setIterator m (ws_fragment m) state capacity (curFragment m) chunk off in
  if capacity =? 0 then
    finished ← isFinished m;
    if finished : bool then mret (m, w) else wstream_create_newFragment m w
  else mret (m, w).

(** The asserts of [esdm_wstream_metadata_destroy()]. *)
Definition esdm_wstream_metadata_destroy (m : esdm_wstream_metadata_t) : outcome unit := finished ← isFinished m; eassert finished.

(** * The macros of src/include/esdm-stream.h *)

(** A stream with the elements that are in its buffer; [pushed] and [capacity] are [iter - buffer] and [iterEnd - buffer]. *)
Record wstream := WstreamHandle {
  wh_metadata : esdm_wstream_metadata_t;
  wh_pushed : list Z;
  wh_chunk : Z;
  wh_buffer : Z
}.

(** [esdm_wstream_start()]; [wh_buffer] is the number of elements of the buffer. *)
Definition esdm_wstream_start (backend : nat) (dimCount : Z) (offset size : list Z) (type : esdm_type_t) (w : world) : outcome (wstream * world) :=
  '(m, w) ← esdm_wstream_metadata_create backend dimCount offset size type w;
  count ← esdm_wstream_metadata_max_chunk_size m;
  chunk ← esdm_wstream_metadata_next_chunk_size m;
  mret (WstreamHandle m [] chunk count, w).

(** [esdm_wstream_pack()] for the bytes of one element; a write behind the end of the buffer is undefined. *)
Definition esdm_wstream_pack (s : wstream) (value : list Z) (w : world) : outcome (wstream * world) :=
  let elementSize := esdm_sizeof (type (ws_space (wh_metadata s))) in
  let iter := Z.of_nat (length (wh_pushed s)) in
  if iter >=? wh_chunk s * elementSize then Abort
  else if iter + elementSize >? wh_buffer s * elementSize then Undef
  else
    let pushed := (wh_pushed s ++ value)%list in
    if Z.of_nat (length pushed) =? wh_chunk s * elementSize then
      '(m, w) ← esdm_wstream_flush (wh_metadata s) pushed w;
      chunk ← esdm_wstream_metadata_next_chunk_size m;
      mret (WstreamHandle m [] chunk (wh_buffer s), w)
    else mret (WstreamHandle (wh_metadata s) pushed (wh_chunk s) (wh_buffer s), w).

Definition esdm_wstream_commit (s : wstream) : outcome unit :=
  if decide (wh_pushed s = []) then esdm_wstream_metadata_destroy (wh_metadata s) else Abort.

(** The whole use of a stream: start, the elements of the region in C order, commit. *)
Definition stream_region (backend : nat) (space : esdm_dataspace_t) (elements : list (list Z)) (w : world) : outcome world :=
  '(s, w) ← esdm_wstream_start backend (dims space) (offset space) (size space) (type space) w;
  '(s, w) ← foldM (fun value sw => esdm_wstream_pack sw.1 value sw.2) elements (s, w);
  _ ← esdm_wstream_commit s;
  mret w.

End Streams.
