(* ===== verification/StreamCounts.v ===== *)
(** Streams of dataset writes: how [initCounts()] and [getBounds()] (src/esdm-stream.c) cut a region into objects.  The objects partition the region, and
    in the order of their indices they are consecutive parts of the C order of its elements. *)

From stdpp Require Import gmap strings.
From S2P Require Import Prelude Memory Hypercube HypercubeSet Json Odometer Dataspace Convert CopyData Partition Split Stream.

Open Scope Z_scope.

(** * Division *)

Lemma cdiv_pos (a b : Z) : 0 <= a -> 0 < b -> cdiv a b = Done (a / b).
Proof. intros Ha Hb. unfold cdiv. rewrite (proj2 (Z.eqb_neq b 0)) by lia. by rewrite Z.quot_div_nonneg by lia. Qed.

Lemma crem_pos (a b : Z) : 0 <= a -> 0 < b -> crem a b = Done (a mod b).
Proof. intros Ha Hb. unfold crem. rewrite (proj2 (Z.eqb_neq b 0)) by lia. by rewrite Z.rem_mod_nonneg by lia. Qed.

(** * Counts *)

(** [initCounts()] divides by no zero: at every dimension that it visits a slice fits into an object; and it cuts the region at one of the
    dimensions, so that it does not read in front of the array. *)
Fixpoint slices_fit (maxObjectSize sliceSize : Z) (revSize : list Z) : Prop :=
  match revSize with
  | [] => True
  | s :: rest =>
      sliceSize <= maxObjectSize /\
      (maxObjectSize / sliceSize < s \/ match rest with [] => False | s' :: _ => sliceSize * s' <= INT64_MAX /\ slices_fit maxObjectSize (sliceSize * s') rest end)
  end.

(** Counts for which the objects are consecutive: the outer dimensions are cut into single indices, the inner ones are not cut. *)
Inductive consecutive : list Z -> list Z -> Prop :=
| consecutive_nil : consecutive [] []
| consecutive_split s c ss cs : 1 <= c <= s -> Forall (fun c => c = 1) cs -> length cs = length ss -> Forall (fun s => 1 <= s) ss -> consecutive (s :: ss) (c :: cs)
| consecutive_unit s ss cs : 1 <= s -> consecutive ss cs -> consecutive (s :: ss) (s :: cs).

Lemma consecutive_ones (ss : list Z) : Forall (fun s => 1 <= s) ss -> consecutive ss (replicate (length ss) 1).
Proof.
  intros Hss. destruct Hss as [| s ss Hs Hss]; [constructor |]. cbn [length replicate]. apply consecutive_split; [lia | by apply Forall_replicate | by rewrite length_replicate | done].
Qed.

Lemma consecutive_bounds (ss cs : list Z) : consecutive ss cs -> Forall2 (fun c s => 1 <= c <= s) cs ss.
Proof.
  induction 1 as [| s c ss cs Hc Hone Hlen Hss | s ss cs Hs _ IH]; [constructor | | constructor; [lia | done]]. constructor; [done |].
  revert ss Hlen Hss. induction Hone as [| x cs -> _ IH]; intros [| s' ss] Hlen Hss; try done. apply Forall_cons in Hss as [? Hss]. constructor; [lia |].
  apply IH; [by injection Hlen | done].
Qed.

Lemma prod_ge_1 (cs : list Z) : Forall (fun c => 1 <= c) cs -> 1 <= prod cs.
Proof. induction 1 as [| c cs Hc _ IH]; [done |]. change (1 <= c * prod cs). nia. Qed.

(** The products with the sizes fit into 64 bits. *)
Definition side (s : Z) : Prop := 1 <= s /\ s * s <= INT64_MAX.

(** What is known of the counts: where they cut, and how large an object is. *)
Definition split_ok (elementSize maxObjectSize : Z) (ss cs : list Z) (split : option (nat * Z)) : Prop :=
  match split with
  | Some (d, ms) => 1 <= ms /\ take d cs = take d ss /\ (exists s, ss !! d = Some s /\ ms < s /\ cs !! d = Some ((s + ms - 1) / ms)) /\ Forall (fun c => c = 1) (drop (S d) cs) /\
      ms * prod (drop (S d) ss) * elementSize <= maxObjectSize * maxObjectSize
  | None => Forall (fun c => c = 1) cs /\ prod ss * elementSize <= maxObjectSize * maxObjectSize
  end.

Lemma cut_bound (ms volume slice s max : Z) : 1 <= s -> 0 <= ms -> 0 <= volume -> 0 <= max -> volume * s <= max * slice -> slice * ms <= max -> ms * volume <= max * max.
Proof.
  intros Hs Hm Hv Hx Hj Hmul. transitivity (ms * (volume * s)); [nia |]. transitivity (ms * (max * slice)); [by apply Z.mul_le_mono_nonneg_l |].
  replace (ms * (max * slice)) with (max * (slice * ms)) by lia. by apply Z.mul_le_mono_nonneg_l.
Qed.

(** The counts from the last dimension to the first; [inner] are the dimensions that were not cut. *)
Lemma initCounts_loop_ok (elementSize maxObjectSize : Z) (rs inner : list Z) (slice : Z) :
  1 <= elementSize <= slice -> Forall side rs -> Forall (fun s => 1 <= s) inner -> slices_fit maxObjectSize slice rs ->
  match rs with
  | [] => prod inner * elementSize <= maxObjectSize * maxObjectSize
  | s :: _ => prod inner * elementSize * s <= maxObjectSize * slice \/ (inner = [] /\ slice = elementSize)
  end ->
  exists cs split, initCounts_loop maxObjectSize slice rs = Done (cs, split) /\ length cs = length rs /\
  consecutive (rev rs ++ inner) (rev cs ++ replicate (length inner) 1) /\ split_ok elementSize maxObjectSize (rev rs ++ inner) (rev cs ++ replicate (length inner) 1) split.
Proof.
  revert inner slice. induction rs as [| s rs IH]; intros inner slice Hsl Hrs Hin Hfit Hj.
  { exists [], None. split; [done |]. split; [done |]. split; [by apply consecutive_ones |]. split; [by apply Forall_replicate | done]. }
  apply Forall_cons in Hrs as [[Hs Hss] Hrs]. cbn [slices_fit] in Hfit. destruct Hfit as [Hle Hfit]. cbn [initCounts_loop]. rewrite (cdiv_pos maxObjectSize slice) by lia. run.
  set (ms := maxObjectSize / slice) in *. assert (Hms : 1 <= ms) by (apply Z.div_le_lower_bound; lia). assert (Hmul : slice * ms <= maxObjectSize) by (apply Z.mul_div_le; lia).
  pose proof (prod_ge_1 inner Hin) as Hpi. destruct (Z.ltb_spec ms s) as [Hlt | Hge].
  - assert (Hsum : s + ms - 1 <= INT64_MAX) by (unfold INT64_MAX in *; nia). rewrite chk64_ok by (unfold INT64_MIN; lia). run.
    rewrite (cdiv_pos _ ms) by lia. run. eexists _, _. split; [done |]. split; [done |]. cbn [rev]. rewrite <- !app_assoc. cbn [app].
    assert (Hc : 1 <= (s + ms - 1) / ms <= s) by (split; [apply Z.div_le_lower_bound; lia | apply Z.div_le_upper_bound; nia]).
    assert (Hcons : forall l, Forall side l -> consecutive (l ++ s :: inner) (l ++ (s + ms - 1) / ms :: replicate (length inner) 1)).
    { induction 1 as [| x l [Hx _] _ IHl]; cbn [app]; [apply consecutive_split; [done | by apply Forall_replicate | by rewrite length_replicate | done] | apply consecutive_unit; [lia | done]]. }
    split; [apply Hcons; by apply Forall_rev |]. split; [done |]. rewrite <- (length_rev rs). rewrite !take_app_length. split; [done |]. split.
    + exists s. by rewrite !list_lookup_middle by done.
    + rewrite !cons_middle, !app_assoc. rewrite !drop_app_length' by (rewrite length_app; cbn; lia). split; [by apply Forall_replicate |].
      assert (Hm : 1 <= maxObjectSize) by lia. destruct Hj as [Hj | [-> ->]]; [rewrite <- Z.mul_assoc; apply (cut_bound _ _ slice s); nia | change (prod []) with 1; nia].
  - destruct Hfit as [| Hfit]; [lia |].
    assert (exists slice', match rs with [] => Undef | s' :: _ => chk64 (slice * s') end = Done slice' /\ elementSize <= slice' /\ slices_fit maxObjectSize slice' rs /\
      match rs with [] => prod (s :: inner) * elementSize <= maxObjectSize * maxObjectSize
      | s' :: _ => prod (s :: inner) * elementSize * s' <= maxObjectSize * slice' \/ (s :: inner = [] /\ slice' = elementSize) end) as (slice' & -> & Hsl' & Hfit' & Hj').
    { change (prod (s :: inner)) with (s * prod inner). destruct rs as [| s' rs].
      - by destruct Hfit.
      - destruct Hfit as [F1 F2]. apply Forall_cons in Hrs as [[Hs' _] _]. rewrite chk64_ok by (unfold INT64_MIN; nia). exists (slice * s'). split; [done |]. split; [nia |]. split; [done |]. left.
        transitivity (maxObjectSize * slice * s'); [apply Z.mul_le_mono_nonneg_r; [lia |] | lia]. destruct Hj as [Hj | [-> ->]]; [lia |]. change (prod []) with 1. nia. }
    run. destruct (IH (s :: inner) slice' ltac:(lia) Hrs ltac:(by constructor) Hfit' Hj') as (cs & split & -> & Hl & Hc & Hsp). run. eexists _, split. split; [done |]. split; [cbn; lia |].
    cbn [rev length replicate] in *. rewrite <- !app_assoc. done.
Qed.

(** A slice that does not fit leads to a division by zero. *)
Lemma initCounts_crash (maxObjectSize slice s : Z) (rs : list Z) :
  0 <= maxObjectSize < slice -> 1 <= s <= INT64_MAX -> initCounts_loop maxObjectSize slice (s :: rs) = Undef.
Proof.
  intros Hm Hs. cbn [initCounts_loop]. rewrite (cdiv_pos maxObjectSize slice) by lia. run. rewrite Z.div_small by lia. rewrite (proj2 (Z.ltb_lt 0 s)) by lia.
  rewrite chk64_ok by (unfold INT64_MIN; lia). done.
Qed.

Lemma initCounts_loop_error (maxObjectSize : Z) (rs : list Z) (slice : Z) :
  0 <= maxObjectSize -> 1 <= slice -> Forall (fun s => 1 <= s <= INT64_MAX) rs -> ~ slices_fit maxObjectSize slice rs -> initCounts_loop maxObjectSize slice rs = Undef.
Proof.
  intros Hm Hsl Hrs. revert slice Hsl. induction Hrs as [| s rs Hs Hrs IH]; intros slice Hsl Hfit; [by destruct Hfit |].
  destruct (decide (maxObjectSize < slice)) as [Hlt | Hge]; [by apply initCounts_crash |]. cbn [slices_fit] in Hfit. cbn [initCounts_loop]. rewrite (cdiv_pos maxObjectSize slice) by lia. run.
  destruct (Z.ltb_spec (maxObjectSize / slice) s) as [Hsp | Hno]; [destruct Hfit; split; [lia | by left] |]. destruct Hrs as [| s' rs Hs' Hrs]; [done |].
  destruct (decide (slice * s' <= INT64_MAX)) as [Hle | Hgt].
  - rewrite chk64_ok by (unfold INT64_MIN; nia). run. rewrite IH; [done | nia |]. intros Hf. apply Hfit. split; [lia |]. right. by split.
  - unfold chk64. destruct (int64_ok (slice * s')) eqn:E; [apply int64_ok_iff in E; lia | done].
Qed.

(** [initCounts()] of the streams fails exactly where a slice does not fit: when at some dimension that the loop visits the "slice", which it multiplies with
    the size of the next outer dimension instead of the current one, is larger than an object, it divides by zero; and when it cuts the region at no
    dimension, it reads in front of the array. *)
Theorem initCounts_error (elementSize maxObjectSize : Z) (ss : list Z) :
  0 <= maxObjectSize -> 1 <= elementSize -> Forall (fun s => 1 <= s <= INT64_MAX) ss -> ~ slices_fit maxObjectSize elementSize (rev ss) -> initCounts elementSize maxObjectSize ss = Undef.
Proof. intros Hm He Hs Hf. unfold initCounts. by rewrite initCounts_loop_error by (done || by apply Forall_rev). Qed.

(** A region of one dimension that fits into one object: the loop ends with a read of [dataspaceSize[-1]]. *)
Lemma initCounts_before_array (elementSize maxObjectSize s : Z) :
  1 <= elementSize -> 1 <= s -> elementSize * s <= maxObjectSize -> initCounts elementSize maxObjectSize [s] = Undef.
Proof.
  intros He Hs Hm. unfold initCounts. cbn [rev app initCounts_loop]. rewrite (cdiv_pos maxObjectSize elementSize) by nia. run.
  destruct (Z.ltb_spec (maxObjectSize / elementSize) s) as [Hlt | _]; [| done]. pose proof (Z.div_le_lower_bound maxObjectSize elementSize s). lia.
Qed.

(** A stream of 4096 x 100 numbers of 8 bytes, of which 20 rows fit into a chunk. *)
Lemma initCounts_error_witness : initCounts 8 kMaxChunkSize [4096; 100] = Undef.
Proof. apply initCounts_error; [done | done | by repeat constructor |]. vm_compute. intros [_ [E | (_ & E & _)]]; [discriminate E | by apply E]. Defined.

(** The products of the counts from each dimension on. *)
Fixpoint suffixes (cs : list Z) : list Z := match cs with [] => [1] | c :: cs' => prod (c :: cs') :: suffixes cs' end.

Lemma suffixes_lookup (cs : list Z) (d : nat) : (d <= length cs)%nat -> suffixes cs !! d = Some (prod (drop d cs)).
Proof. revert d. induction cs as [| c cs IH]; intros [| d] Hd; try done; [cbn in Hd; lia |]. cbn [suffixes lookup list_lookup drop]. apply IH. cbn in Hd. lia. Qed.

Lemma cumulate_ok (cs : list Z) : Forall (fun c => 1 <= c) cs -> prod cs <= INT64_MAX -> cumulate cs = Done (suffixes cs).
Proof.
  induction 1 as [| c cs Hc Hcs IH]; intros Hp; [done |]. cbn [cumulate]. assert (0 < prod cs) by (apply prod_pos; eapply Forall_impl; [exact Hcs |]; cbn; lia).
  change (prod (c :: cs)) with (c * prod cs) in Hp. rewrite IH by nia. run. assert (head (suffixes cs) = Some (prod cs)) as -> by (by destruct cs). run.
  rewrite chk64_ok by (unfold INT64_MIN; nia). done.
Qed.

Lemma prod_le (cs ss : list Z) : Forall2 (fun c s => 1 <= c <= s) cs ss -> 1 <= prod cs <= prod ss.
Proof. induction 1 as [| c s cs ss Hc _ IH]; [done |]. change (1 <= c * prod cs <= s * prod ss). nia. Qed.

Lemma initCounts_ok (elementSize maxObjectSize : Z) (ss : list Z) :
  1 <= elementSize -> Forall side ss -> slices_fit maxObjectSize elementSize (rev ss) -> prod ss <= INT64_MAX -> elementSize <= maxObjectSize ->
  exists cs split, initCounts elementSize maxObjectSize ss = Done (cs, suffixes cs, split) /\ consecutive ss cs /\ split_ok elementSize maxObjectSize ss cs split.
Proof.
  intros He Hss Hfit Hp Hle. destruct (initCounts_loop_ok elementSize maxObjectSize (rev ss) [] elementSize) as (cs & split & E & Hl & Hc & Hsp);
    [lia | by apply Forall_rev | done | done | destruct (rev ss); [change (prod []) with 1; nia | by right] |].
  unfold initCounts. rewrite E. run. rewrite rev_involutive, !app_nil_r in Hc, Hsp. pose proof (consecutive_bounds _ _ Hc) as Hb.
  rewrite cumulate_ok; [run; eauto | eapply Forall2_Forall_l; [exact Hb |]; apply Forall_true; cbn; lia |]. pose proof (prod_le _ _ Hb). lia.
Qed.

(** * Objects *)

(** The object with index [j]: the digits of the index select a part of every dimension. *)
Fixpoint object (os ss cs : list Z) (j : Z) : esdmI_hypercube_t :=
  match os, ss, cs with
  | o :: os', s :: ss', c :: cs' =>
      let q := (j / prod cs') mod c in Range (o + q * s / c) (o + (q + 1) * s / c) :: object os' ss' cs' j
  | _, _, _ => []
  end.

Lemma length_object (os ss cs : list Z) (j : Z) : length os = length ss -> length cs = length ss -> length (object os ss cs j) = length ss.
Proof. revert os cs. induction ss as [| s ss IH]; intros [| o os] [| c cs] Ho Hc; try done. cbn in *. f_equal. apply IH; lia. Qed.

(** The number of elements before the first one of the object. *)
Fixpoint first (ss cs : list Z) (j : Z) : Z :=
  match ss, cs with
  | s :: ss', c :: cs' => (((j / prod cs') mod c) * s / c) * prod ss' + first ss' cs' j
  | _, _ => 0
  end.

(** Indices with the same digits. *)
Lemma same_digits (c P j j' : Z) : 1 <= c -> 1 <= P -> j mod (c * P) = j' mod (c * P) -> (j / P) mod c = (j' / P) mod c /\ j mod P = j' mod P.
Proof.
  intros Hc HP E. rewrite (Z.mul_comm c P), !Z.rem_mul_r in E by lia. pose proof (Z.mod_pos_bound j P). pose proof (Z.mod_pos_bound j' P).
  destruct (Z.div_mod_unique P ((j / P) mod c) ((j' / P) mod c) (j mod P) (j' mod P)); lia.
Qed.

Lemma object_mod (os ss cs : list Z) (j j' : Z) :
  Forall (fun c => 1 <= c) cs -> j mod prod cs = j' mod prod cs -> object os ss cs j = object os ss cs j' /\ first ss cs j = first ss cs j'.
Proof.
  intros Hcs. revert os ss. induction Hcs as [| c cs Hc Hcs IH]; intros [| o os] [| s ss] E; cbn [object first]; try done;
    (change (prod (c :: cs)) with (c * prod cs) in E; pose proof (prod_ge_1 cs Hcs)).
  - destruct (same_digits c (prod cs) j j') as [-> E']; [done | done | done |]. split; [done |]. f_equal. by apply (IH [] ss).
  - destruct (same_digits c (prod cs) j j') as [-> E']; [done | done | done |]. destruct (IH os ss E') as [-> ->]. done.
Qed.

(** An uncut region. *)
Lemma object_whole (os ss cs : list Z) (j : Z) :
  Forall (fun c => c = 1) cs -> length os = length ss -> length cs = length ss -> object os ss cs j = box os ss /\ first ss cs j = 0 /\ prod cs = 1.
Proof.
  intros Hcs. revert os ss. induction Hcs as [| c cs -> _ IH]; intros [| o os] [| s ss] Ho Hc; try done. cbn in Ho, Hc. destruct (IH os ss) as (E1 & E2 & E3); [lia | lia |].
  cbn [object first]. rewrite E1, E2, Z.mod_1_r, !Z.mul_0_l, Z.add_0_l, Z.mul_1_l, !Z.div_1_r by lia. split; [by rewrite Z.add_0_r | split; [lia |]]. change (1 * prod cs = 1). lia.
Qed.

Lemma osizes_box (os ss : list Z) : length os = length ss -> osizes (box os ss) = ss /\ rstart <$> box os ss = os.
Proof.
  revert ss. induction os as [| o os IH]; intros [| s ss] Hl; try done. cbn in Hl. destruct (IH ss) as [E1 E2]; [lia |]. unfold osizes, box in *. cbn. rewrite E1, E2. split; [f_equal; lia | done].
Qed.

(** * The objects in their order *)

Lemma first_zero (ss cs : list Z) : Forall (fun c => 1 <= c) cs -> first ss cs 0 = 0.
Proof.
  intros Hcs. revert ss. induction Hcs as [| c cs Hc Hcs IH]; intros [| s ss]; try done. cbn [first]. pose proof (prod_ge_1 cs Hcs). rewrite IH, (Z.div_0_l (prod cs)), Zmod_0_l, Z.mul_0_l by lia. lia.
Qed.

(** The objects are consecutive. *)
Lemma object_next (os ss cs : list Z) (j : Z) :
  consecutive ss cs -> length os = length ss -> 0 <= j < prod cs ->
  0 <= first ss cs j /\ 1 <= prod (osizes (object os ss cs j)) /\
  first ss cs j + prod (osizes (object os ss cs j)) = (if j + 1 <? prod cs then first ss cs (j + 1) else prod ss).
Proof.
  intros Hcon. revert os j. induction Hcon as [| s c ss cs Hc Hone Hlen Hss | s ss cs Hs Hcon IH]; intros [| o os] j Hos Hj; try done.
  - cbn [object first prod foldr osizes fmap list_fmap] in *. destruct (Z.ltb_spec (j + 1) 1); [lia | done].
  - cbn in Hos. destruct (object_whole os ss cs j) as (E1 & E2 & E3); [done | lia | done |]. destruct (object_whole os ss cs (j + 1)) as (_ & E2' & _); [done | lia | done |].
    change (prod (c :: cs)) with (c * prod cs) in Hj |- *. rewrite E3, Z.mul_1_r in *. cbn [object first]. rewrite E1, E2, E2', E3, !Z.div_1_r, (Z.mod_small j c) by lia.
    destruct (osizes_box os ss) as [Ew _]; [lia |]. change (prod (osizes (Range (o + j * s / c) (o + (j + 1) * s / c) :: box os ss))) with
      ((o + (j + 1) * s / c - (o + j * s / c)) * prod (osizes (box os ss))). rewrite Ew. pose proof (prod_ge_1 ss Hss). pose proof (slices_step j s c Hc).
    assert (0 <= j * s / c) by (apply Z.div_pos; nia). split; [nia |]. split; [nia |]. destruct (Z.ltb_spec (j + 1) c) as [Hlt | Hge].
    + rewrite (Z.mod_small (j + 1) c) by lia. nia.
    + assert (j + 1 = c) as -> by lia. rewrite (Z.mul_comm c s), Z.div_mul by lia. change (prod (s :: ss)) with (s * prod ss). nia.
  - cbn in Hos. pose proof (consecutive_bounds _ _ Hcon) as Hb. pose proof (prod_le _ _ Hb) as Hp.
    assert (Hcs : Forall (fun c => 1 <= c) cs) by (eapply Forall2_Forall_l; [exact Hb |]; apply Forall_true; cbn; lia).
    change (prod (s :: cs)) with (s * prod cs) in Hj |- *. change (prod (s :: ss)) with (s * prod ss). set (P := prod cs) in *. set (q := j / P). set (r := j mod P).
    assert (Hr : 0 <= r < P) by (apply Z.mod_pos_bound; lia). assert (Ej : j = P * q + r) by (apply Z.div_mod; lia). assert (Hq : 0 <= q < s) by nia.
    destruct (object_mod os ss cs j r Hcs) as [Eo Ef]; [unfold r, P; by rewrite Z.mod_mod by lia |]. cbn [object first]. fold P. fold q. rewrite Eo, Ef, (Z.mod_small q s), Z.div_mul, Z.div_mul by lia.
    destruct (IH os r ltac:(lia) Hr) as (I1 & I2 & I3). change (prod (osizes (Range (o + q) (o + (q + 1)) :: object os ss cs r))) with ((o + (q + 1) - (o + q)) * prod (osizes (object os ss cs r))).
    split; [nia |]. split; [lia |]. destruct (Z.ltb_spec (r + 1) P) as [Hlt | Hge].
    + assert (Hdiv : (j + 1) / P = q /\ (j + 1) mod P = r + 1) by (split; [symmetry; apply (Z.div_unique_pos _ _ _ (r + 1)); lia | symmetry; apply (Z.mod_unique_pos _ _ q); lia]).
      destruct Hdiv as [-> Em]. destruct (object_mod os ss cs (j + 1) (r + 1) Hcs) as [_ ->]; [fold P; rewrite Em; symmetry; apply Z.mod_small; lia |].
      rewrite (proj2 (Z.ltb_lt (j + 1) (s * P))) by nia. rewrite (Z.mod_small q s), Z.div_mul by lia. lia.
    + assert (Hdiv : (j + 1) / P = q + 1 /\ (j + 1) mod P = 0) by (split; [symmetry; apply (Z.div_unique_pos _ _ _ 0); lia | symmetry; apply (Z.mod_unique_pos _ _ (q + 1)); lia]).
      destruct Hdiv as [-> Em]. destruct (object_mod os ss cs (j + 1) 0 Hcs) as [_ ->]; [fold P; by rewrite Em, Z.mod_0_l by lia |]. rewrite first_zero by done.
      destruct (Z.ltb_spec (j + 1) (s * P)) as [Hlt' | Hge'].
      * rewrite (Z.mod_small (q + 1) s), Z.div_mul by nia. lia.
      * assert (q + 1 = s) by nia. nia.
Qed.

(** The place of a point in C order. *)
Lemma object_index (os ss cs : list Z) (j : Z) (p : list Z) :
  consecutive ss cs -> length os = length ss -> 0 <= j < prod cs -> in_cube p (object os ss cs j) ->
  dot p os (cstrides ss) = first ss cs j + dot p (rstart <$> object os ss cs j) (cstrides (osizes (object os ss cs j))).
Proof.
  intros Hcon. revert os j p. induction Hcon as [| s c ss cs Hc Hone Hlen Hss | s ss cs Hs Hcon IH]; intros [| o os] j p Hos Hj Hp; try done.
  - cbn in Hos. destruct (object_whole os ss cs j) as (E1 & E2 & E3); [done | lia | done |]. change (prod (c :: cs)) with (c * prod cs) in Hj. rewrite E3, Z.mul_1_r in *.
    cbn [object first] in *. rewrite E1, E2, E3, !Z.div_1_r, (Z.mod_small j c) in * by lia. apply in_cube_cons in Hp as (x & p' & -> & Hx & Hp).
    destruct (osizes_box os ss) as [Ew Es]; [lia |]. unfold osizes in *. rewrite !fmap_cons, Ew, Es. cbn [dot cstrides rstart]. lia.
  - cbn in Hos. pose proof (consecutive_bounds _ _ Hcon) as Hb. pose proof (prod_le _ _ Hb) as Hpr.
    assert (Hcs : Forall (fun c => 1 <= c) cs) by (eapply Forall2_Forall_l; [exact Hb |]; apply Forall_true; cbn; lia).
    change (prod (s :: cs)) with (s * prod cs) in Hj. set (P := prod cs) in *. set (q := j / P). set (r := j mod P).
    assert (Hr : 0 <= r < P) by (apply Z.mod_pos_bound; lia). assert (Ej : j = P * q + r) by (apply Z.div_mod; lia). assert (Hq : 0 <= q < s) by nia.
    destruct (object_mod os ss cs j r Hcs) as [Eo Ef]; [unfold r, P; by rewrite Z.mod_mod by lia |]. cbn [object first] in *. fold P in Hp |- *. fold q in Hp |- *.
    rewrite Eo in *. rewrite Ef, (Z.mod_small q s), Z.div_mul, ?Z.div_mul in * by lia. apply in_cube_cons in Hp as (x & p' & -> & Hx & Hp). unfold in_range in Hx. cbn in Hx.
    specialize (IH os r p' ltac:(lia) Hr Hp). unfold osizes in *. rewrite !fmap_cons. cbn [dot cstrides rstart rend]. rewrite IH. assert (x = o + q) as -> by lia. lia.
Qed.

(** * The objects partition the region *)

Lemma prod_rev (l : list Z) : prod (rev l) = prod l.
Proof. apply prod_perm. symmetry. apply Permutation_rev. Qed.

Lemma object_balanced (os ss cs : list Z) (j : Z) :
  Forall2 (fun c s => 1 <= c <= s) cs ss -> 0 <= j -> object os ss cs j = balancedCells os ss cs (rev (digits (rev cs) j)).
Proof.
  intros Hb Hj. revert os. induction Hb as [| c s cs ss Hc Hb IH]; intros [| o os]; try done.
  assert (Hpos : Forall (fun c => 0 < c) cs) by (eapply Forall2_Forall_l; [exact Hb |]; apply Forall_true; cbn; lia).
  cbn [rev]. rewrite digits_snoc by (by apply Forall_rev). rewrite rev_app_distr. cbn [rev app balancedCells object]. rewrite prod_rev, <- IH. pose proof (prod_pos cs Hpos).
  assert (Hq : 0 <= (j / prod cs) mod c < c) by (apply Z.mod_pos_bound; lia). by rewrite !Z.quot_div_nonneg by nia.
Qed.

Lemma objects_partition (os ss cs : list Z) :
  length os = length ss -> Forall2 (fun c s => 1 <= c <= s) cs ss -> partitions (object os ss cs <$> seqZ 0 (prod cs)) (box os ss).
Proof.
  intros Ho Hb. pose proof (balanced_cubes_partition os ss cs (length ss) Ho eq_refl (Forall2_length _ _ _ Hb) Hb) as Hp. rewrite prod_rev in Hp.
  assert (Hwhole : (fun d => Range (nthZ os d) (nthZ os d + nthZ ss d)) <$> seq 0 (length ss) = box os ss).
  { apply list_eq. intros i. unfold box. rewrite lookup_zip_with, list_lookup_fmap. destruct (ss !! i) as [x |] eqn:Ex.
    - rewrite lookup_seq_lt by (by apply lookup_lt_Some in Ex). destruct (lookup_lt_is_Some_2 os i) as [y Hy]; [apply lookup_lt_Some in Ex; lia |]. cbn. unfold nthZ. by rewrite Hy, Ex.
    - rewrite lookup_seq_ge by (by apply lookup_ge_None in Ex). by destruct (os !! i). }
  rewrite Hwhole in Hp. assert (E : object os ss cs <$> seqZ 0 (prod cs) = (fun k => balancedCells os ss cs (rev (digits (rev cs) k))) <$> seqZ 0 (prod cs)); [| by rewrite E].
  apply list_fmap_ext. intros i j Hj. apply object_balanced; [done |]. apply lookup_seqZ in Hj. lia.
Qed.

(** * The bounds of the objects *)

Lemma object_lookup (os ss cs : list Z) (j o s c : Z) (d : nat) :
  os !! d = Some o -> ss !! d = Some s -> cs !! d = Some c ->
  object os ss cs j !! d = Some (let q := (j / prod (drop (S d) cs)) mod c in Range (o + q * s / c) (o + (q + 1) * s / c)).
Proof.
  revert os ss cs. induction d as [| d IH]; intros [| o' os] [| s' ss] [| c' cs] Ho Hs Hc; try done; cbn in Ho, Hs, Hc.
  - by injection Ho as ->; injection Hs as ->; injection Hc as ->.
  - cbn [object]. by apply IH.
Qed.

Lemma getBounds_ok (space : esdm_dataspace_t) (cs : list Z) (j : Z) (d : nat) :
  space_wf space -> space_int64 space -> Forall2 (fun c s => 1 <= c <= s) cs (size space) -> Forall side (size space) -> 0 <= j -> (d < length (size space))%nat ->
  exists r, object (offset space) (size space) cs j !! d = Some r /\ getBounds space d (suffixes cs) j = Done r.
Proof.
  intros [Hd Hls Hlo _] H64 Hb Hside Hj Hlt. pose proof (Forall2_length _ _ _ Hb) as Hlc.
  destruct (lookup_lt_is_Some_2 (size space) d) as [s Es]; [lia |]. destruct (lookup_lt_is_Some_2 (offset space) d) as [o Eo]; [lia |]. destruct (lookup_lt_is_Some_2 cs d) as [c Ec]; [lia |].
  rewrite (object_lookup _ _ _ _ _ _ _ _ Eo Es Ec). eexists. split; [done |]. unfold getBounds. rewrite (proj2 (Z.eqb_neq (dims space) 0)) by lia.
  assert (Hcs : Forall (fun c => 1 <= c) cs) by (eapply Forall2_Forall_l; [exact Hb |]; apply Forall_true; cbn; lia).
  rewrite !suffixes_lookup by lia. run. rewrite (drop_S cs c d Ec). change (prod (c :: drop (S d) cs)) with (c * prod (drop (S d) cs)).
  pose proof (prod_ge_1 (drop (S d) cs) (Forall_drop _ _ _ Hcs)) as HP. set (P := prod (drop (S d) cs)) in *. pose proof (Forall2_lookup_lr _ _ _ _ _ _ Hb Ec Es) as Hc. cbn beta in Hc.
  rewrite (cdiv_pos (c * P) P), Z.div_mul by nia. run. rewrite (cdiv_pos j P) by lia. run. pose proof (Z.div_pos j P Hj ltac:(lia)). rewrite crem_pos by lia. run.
  set (q := (j / P) mod c). assert (Hq : 0 <= q < c) by (apply Z.mod_pos_bound; lia). rewrite Eo. run. rewrite Es. run.
  destruct (Forall_lookup_1 _ _ _ _ Hside Es) as [Hs1 Hs2]. destruct (Forall2_lookup_lr _ _ _ _ _ _ H64 Eo Es) as (B1 & B2 & B3 & B4).
  assert (Hx : 0 <= q * s / c /\ (q + 1) * s / c <= s).
  { split; [apply Z.div_pos; nia |]. apply Z.div_le_upper_bound; nia. }
  pose proof (slices_step q s c Hc). rewrite chk64_ok by (unfold INT64_MIN; nia). run. rewrite cdiv_pos by nia. run. rewrite chk64_ok by lia. run.
  rewrite chk64_ok by (unfold INT64_MIN; nia). run. rewrite cdiv_pos by nia. run. by rewrite chk64_ok by lia.
Qed.
