(* ===== verification/SchedulerRead.v ===== *)
(** Reading through the scheduler: under every schedule of the backend threads the requested region of
    the user's buffer receives the content of the fragments. *)

From stdpp Require Import gmap.
From S2P Require Import Prelude Hypercube HypercubeSet Json Odometer Memory Dataspace Convert CopyData Partition Split Grid GridTree GridVisit GridRegion GridCover Fragment FragmentState Posix Fragments Request Dataset Scheduler.

Open Scope Z_scope.

Section Reading.

Context (floatCast : esdm_type_t -> esdm_type_t -> list Z -> list Z).
Context (Hcast : forall d s bytes, 0 <= esdm_sizeof d -> Z.of_nat (length (floatCast d s bytes)) = esdm_sizeof d).
Context (junk : mem) {B : Type} `{DataBackendLaws B}.

(** The user's buffer and the requested region. *)
Context (buf0 : pointer) (sp : esdm_dataspace_t).
Hypothesis Hsp : data_space sp.
Hypothesis Hinj : injective_layout sp.

(** The content of every fragment. *)
Context (content : nat -> content_t).

(** * Fragments next to each other *)

(** The fragment reads straight into the user's buffer: each of its points has its place there. *)
Record aligned (f : esdm_fragment_t) (ptr : pointer) : Prop := {
  al_block : ptr.1 = buf0.1;
  al_type : type (dataspace f) = type sp;
  al_points : forall p, in_cube p (extends (dataspace f)) -> in_cube p (extends sp) /\
    ptr.2 + index (dataspace f) p * esdm_sizeof (type sp) = buf0.2 + index sp p * esdm_sizeof (type sp)
}.

(** The fragments of a store have their content, share no buffer but the user's, and no entry of the
    storage. *)
Record store_ok (s : store B) : Prop := {
  so_fragment : forall v f, objects s !! v = Some f -> fragment_inv f (memory s) (disk s) (content v) /\ status f <> ESDM_DATA_DELETED;
  so_user : forall v f ptr, objects s !! v = Some f -> buf f = Some ptr -> ptr.1 = buf0.1 ->
    aligned f ptr /\ ownsBuf f = false /\ status f = ESDM_DATA_NOT_LOADED;
  so_apart : forall v w f g p q, v <> w -> objects s !! v = Some f -> objects s !! w = Some g -> buf f = Some p -> buf g = Some q ->
    p.1 = q.1 -> p.1 = buf0.1;
  so_keys : forall v w f g key, v <> w -> objects s !! v = Some f -> objects s !! w = Some g -> keyOf f = Some key -> keyOf g <> Some key;
  so_disk : backend_inv (disk s);
  so_block : is_Some (memory s !! buf0.1)
}.

(** A fragment whose neighbour evolves. *)
Lemma neighbour_inv (f g f' : esdm_fragment_t) (h h' : heap) (b b' : B) (c cg : content_t) :
  fragment_inv g h b cg -> evolves f h b c f' h' b' ->
  (forall p q, buf f = Some p -> buf g = Some q -> p.1 = q.1 -> ownsBuf f = false /\ status g = ESDM_DATA_NOT_LOADED) ->
  (forall key, keyOf g = Some key -> keyOf f' <> Some key) -> fragment_inv g h' b' cg.
Proof.
  intros [Hok Hbk Hbuf Hown Hc] Hev Hap Hkey. pose proof Hev as [_ _ _ _ Hoth _ _ _ Hheap Hfbuf].
  assert (Hkeep : forall q m, buf g = Some q -> h !! q.1 = Some m -> is_Some (h' !! q.1) /\ (status g <> ESDM_DATA_NOT_LOADED -> h' !! q.1 = Some m)).
  { intros q m Eq Em. destruct (buf f) as [p |] eqn:Ep; [| assert (h' !! q.1 = Some m) by (by apply Hheap); eauto].
    destruct (decide (p.1 = q.1)) as [E | E].
    - destruct (Hap p q eq_refl Eq E) as [Ho Hs]. destruct (Hfbuf p m eq_refl Ho) as (m' & Em' & _); [by rewrite E |].
      rewrite <- E. split; [eauto | done].
    - assert (h' !! q.1 = Some m) by (apply Hheap; [done |]; by intros ? [= <-]). eauto. }
  assert (Hstore : inStorage g b cg -> inStorage g b' cg).
  { apply (inStorage_same g g b b'); try done. intros key Ek. by apply Hoth, Hkey. }
  assert (Hmem : status g <> ESDM_DATA_NOT_LOADED -> inMemory g h cg -> inMemory g h' cg).
  { intros Hs (q & m & Eq & Em & Hp). exists q, m. split; [done |]. split; [by apply (Hkeep q m) | done]. }
  constructor; try done.
  - intros q Eq. destruct (Hbuf q Eq) as [m Em]. by apply (Hkeep q m).
  - unfold hasContent in *. destruct (status g) eqn:Est; [| by apply Hmem | | done].
    + destruct Hc as [H1 H2]. split; [by apply Hstore | done].
    + destruct Hc as [H1 H2]. split; [by apply Hmem | by apply Hstore].
Qed.

(** The store after an operation on one fragment. *)
Lemma store_evolves (s : store B) (v : nat) (f f' : esdm_fragment_t) (h' : heap) (b' : B) :
  store_ok s -> objects s !! v = Some f -> evolves f (memory s) (disk s) (content v) f' h' b' -> status f' <> ESDM_DATA_DELETED ->
  keyOf f' = keyOf f ->
  (forall ptr, buf f' = Some ptr -> ptr.1 = buf0.1 -> aligned f' ptr /\ ownsBuf f' = false /\ status f' = ESDM_DATA_NOT_LOADED) ->
  (forall ptr, buf f' = Some ptr -> buf f = Some ptr \/ memory s !! ptr.1 = None \/ ptr.1 = buf0.1) ->
  (forall ptr, buf f = Some ptr -> ptr.1 = buf0.1 -> ownsBuf f = false) ->
  store_ok (Store (<[v := f']> (objects s)) h' b').
Proof.
  intros [S1 S2 S3 S4 S5 S6] Ev Hev Hst Hkey Huser Hbuf Hown.
  assert (Hother : forall w g, w <> v -> objects s !! w = Some g -> fragment_inv g h' b' (content w)).
  { intros w g Hne Eg. destruct (S1 w g Eg) as [Hg _]. apply (neighbour_inv f g f' (memory s) h' (disk s) b' (content v)); try done.
    - intros p q Ep Eq E. assert (Hu : p.1 = buf0.1) by (by apply (S3 v w f g p q)). split; [by apply (Hown p) |].
      apply (S2 w g q); [done | done | by rewrite <- E].
    - intros key Ek. rewrite Hkey. by apply (S4 w v g f key). }
  assert (Hlook : forall w g, <[v := f']> (objects s) !! w = Some g -> (w = v /\ g = f') \/ (w <> v /\ objects s !! w = Some g)).
  { intros w g E. destruct (decide (w = v)) as [-> | Hne]; [rewrite lookup_insert_eq in E; injection E as <-; by left |].
    rewrite lookup_insert_ne in E by done. by right. }
  assert (Hfresh : forall w g p q, w <> v -> objects s !! w = Some g -> buf f' = Some p -> buf g = Some q -> p.1 = q.1 -> p.1 = buf0.1).
  { intros w g p q Hne Eg Ep Eq E. destruct (Hbuf p Ep) as [Ep' | [Hnone | Hu]]; [by apply (S3 v w f g p q) | | done].
    destruct (fi_buf _ _ _ _ (proj1 (S1 w g Eg)) q Eq) as [m Em]. rewrite <- E in Em. congruence. }
  constructor; cbn [objects memory disk].
  - intros w g [[-> ->] | [Hne Eg]]%Hlook; [split; [apply Hev | done] |]. split; [by apply Hother | by apply (S1 w g Eg)].
  - intros w g ptr [[-> ->] | [Hne Eg]]%Hlook; [apply Huser | by apply (S2 w g)].
  - intros w u g g' p q Hne [[-> ->] | [Hw Eg]]%Hlook [[-> ->] | [Hu Eg']]%Hlook; [done | by apply (Hfresh u g' p q) | | by apply (S3 w u g g')].
    intros Ep Eq E. rewrite E. by apply (Hfresh w g q p).
  - intros w u g g' key Hne [[-> ->] | [Hw Eg]]%Hlook [[-> ->] | [Hu Eg']]%Hlook; [done | | | by apply (S4 w u g g')].
    + rewrite Hkey. by apply (S4 v u f g').
    + rewrite Hkey. by apply (S4 w v g f).
  - apply Hev.
  - destruct S6 as [m Em]. destruct (buf f) as [p |] eqn:Ep.
    + destruct (decide (p.1 = buf0.1)) as [E | E].
      * destruct (ev_buf _ _ _ _ _ _ _ Hev p m) as (m' & Em' & _); [done | by apply (Hown p) | by rewrite E |]. rewrite <- E. eauto.
      * exists m. apply (ev_heap _ _ _ _ _ _ _ Hev); [done |]. intros ptr E'. rewrite Ep in E'. by injection E' as <-.
    + exists m. apply (ev_heap _ _ _ _ _ _ _ Hev); [done |]. intros ptr E'. by rewrite Ep in E'.
Qed.

(** Writing to the user's buffer. *)
Lemma store_user_write (s : store B) (m : mem) : store_ok s -> store_ok (Store (objects s) (<[buf0.1 := m]> (memory s)) (disk s)).
Proof.
  intros [S1 S2 S3 S4 S5 S6]. constructor; cbn [objects memory disk]; try done; [| rewrite lookup_insert_eq; eauto].
  intros v f Ef. destruct (S1 v f Ef) as [[Hok Hbk Hbuf Hown Hc] Hd]. split; [| done].
  assert (Hmem : status f <> ESDM_DATA_NOT_LOADED -> inMemory f (memory s) (content v) -> inMemory f (<[buf0.1 := m]> (memory s)) (content v)).
  { intros Hs (q & mq & Eq & Em & Hp). exists q, mq. split; [done |]. split; [| done]. rewrite lookup_insert_ne; [done |]. intros E.
    by destruct (S2 v f q Ef Eq) as (_ & _ & ?). }
  constructor; try done.
  - intros q Eq. destruct (decide (buf0.1 = q.1)) as [<- | Hne]; [rewrite lookup_insert_eq; eauto |]. rewrite lookup_insert_ne by done. by apply Hbuf.
  - unfold hasContent in *. destruct (status f); [done | by apply Hmem | | done]. destruct Hc. split; [by apply Hmem | done].
Qed.

(** * One task *)

(** The bytes of the user's buffer that do not belong to an element of the points are the same. *)
Definition landed (P : list Z -> Prop) (m m' : mem) : Prop := forall a, ~ elementByte sp P a -> seen buf0 m' a = seen buf0 m a.

Lemma load_key (f f' : esdm_fragment_t) (h h' : heap) (b b' : B) (c : content_t) (st : esdm_status) :
  fragment_inv f h b c -> evolves f h b c f' h' b' -> status f <> ESDM_DATA_DELETED -> esdm_fragment_load junk f h b = Done (st, f', h', b') -> keyOf f' = keyOf f.
Proof.
  intros Hi Hev Hd E. destruct (keyOf f) as [key |] eqn:Ek; [rewrite <- Ek; apply Hev; by rewrite Ek |].
  pose proof (fi_content _ _ _ _ Hi) as Hc. unfold hasContent in Hc.
  assert (status f = ESDM_DATA_DIRTY) as Hs.
  { destruct (status f); try done; [destruct Hc as [(key & ? & ? & _) _] | destruct Hc as [_ (key & ? & ? & _)]]; congruence. }
  unfold esdm_fragment_load in E. rewrite decide_True in E by done. by injection E as _ <- _ _.
Qed.

(** The places of an aligned fragment in the user's buffer. *)
Lemma aligned_element (f : esdm_fragment_t) (ptr : pointer) (m : mem) (p : list Z) :
  aligned f ptr -> in_cube p (extends (dataspace f)) -> elementAt sp (seen buf0 m) p = elementAt (dataspace f) (seen ptr m) p.
Proof.
  intros [_ Ht Hp] Hin. destruct (Hp p Hin) as [_ E]. unfold elementAt. rewrite Ht. unfold read_bytes. apply list_fmap_ext.
  intros i x _. unfold seen. f_equal. lia.
Qed.

Lemma aligned_landed (f : esdm_fragment_t) (ptr : pointer) (m m' : mem) :
  aligned f ptr -> (forall a, ~ elementByte (dataspace f) (fun _ => True) a -> seen ptr m' a = seen ptr m a) ->
  landed (fun p => in_cube p (extends (dataspace f))) m m'.
Proof.
  intros [_ Ht Hp] Hout a Ha. specialize (Hout (buf0.2 + a - ptr.2)). unfold seen in *.
  replace (ptr.2 + (buf0.2 + a - ptr.2)) with (buf0.2 + a) in Hout by lia. apply Hout. intros (p & Hin & _ & Hr).
  destruct (Hp p Hin) as [Hsp' E]. apply Ha. exists p. split; [done |]. split; [done |]. rewrite Ht in Hr. lia.
Qed.

(** A fragment that can serve the request. *)
Record serves (f : esdm_fragment_t) : Prop := {
  sv_type : type (dataspace f) = type sp;
  sv_dims : dims (dataspace f) = dims sp;
  sv_shared : exists p, in_cube p (extends (dataspace f)) /\ in_cube p (extends sp)
}.

Lemma serves_same (f f' : esdm_fragment_t) : contiguous (dataspace f') = contiguous (dataspace f) -> serves f -> serves f'.
Proof.
  intros E [H1 H2 H3]. destruct (contiguous_shape f' f E) as [Ee _]. injection E as E1 E2 _ _. constructor; [congruence | congruence | by rewrite Ee].
Qed.

(** What a task leaves. *)
Definition task_result (s : store B) (v : nat) (f : esdm_fragment_t) (ret : esdm_status) (s' : store B) : Prop :=
  store_ok s' /\ (exists f', objects s' !! v = Some f' /\ contiguous (dataspace f') = contiguous (dataspace f) /\ backend f' = backend f) /\
  (forall w, w <> v -> objects s' !! w = objects s !! w) /\
  exists m m', memory s !! buf0.1 = Some m /\ memory s' !! buf0.1 = Some m' /\ landed (fun p => in_cube p (extends (dataspace f))) m m' /\
  (ret = ESDM_SUCCESS -> forall p, in_cube p (extends (dataspace f)) -> in_cube p (extends sp) -> elementAt sp (seen buf0 m') p = content v p).

(** The task loads the fragment and copies its data. *)
Lemma copy_task_ok (s : store B) (v k : nat) (f : esdm_fragment_t) :
  store_ok s -> objects s !! v = Some f -> backend f = Some k -> serves f -> (forall ptr, buf f = Some ptr -> ptr.1 <> buf0.1) ->
  exists ret s', backend_thread floatCast junk (IoWork v ESDM_OP_READ (Some read_copy) (Some buf0) (Some sp) k) s = Done (ret, s') /\
  task_result s v f ret s'.
Proof.
  intros Hs Ef Ek Hserve Hnu. pose proof Hs as [S1 S2 S3 S4 S5 [mu Emu]]. destruct (S1 v f Ef) as [Hi Hd].
  unfold backend_thread. cbn [work_fragment work_op work_callback work_backend]. rewrite Ef. run. rewrite bool_decide_true by done. cbn [eassert]. run.
  destruct (load_ok junk f (memory s) (disk s) (content v) Hi S5 Hd) as (ret & f' & h' & b' & E & Hev & Hsame & Hd' & Hin). rewrite E. run.
  assert (Hnu' : forall ptr, buf f' = Some ptr -> ptr.1 <> buf0.1).
  { intros ptr Eb. destruct Hsame as [(Eb' & _) | (_ & _ & block & Eb' & Hb)]; [rewrite Eb' in Eb; by apply Hnu |].
    rewrite Eb' in Eb. injection Eb as <-. cbn [fst]. intros ->. congruence. }
  assert (Hs1 : store_ok (Store (<[v := f']> (objects s)) h' b')).
  { apply (store_evolves s v f f' h' b'); try done.
    - by apply (load_key f f' (memory s) h' (disk s) b' (content v) ret).
    - intros ptr Eb Eu. by destruct (Hnu' ptr Eb).
    - intros ptr Eb. destruct Hsame as [(Eb' & _) | (_ & _ & block & Eb' & Hb)]; [left; congruence | right; left].
      rewrite Eb' in Eb. by injection Eb as <-.
    - intros ptr Eb Eu. by destruct (Hnu ptr Eb). }
  assert (Emu' : h' !! buf0.1 = Some mu) by (apply (ev_heap _ _ _ _ _ _ _ Hev); [done | intros ptr Eb; by apply Hnu]).
  assert (Hc' := ev_shape _ _ _ _ _ _ _ Hev). destruct (contiguous_shape f' f Hc') as [Ee _].
  assert (Hobj : exists f'', <[v := f']> (objects s) !! v = Some f'' /\ contiguous (dataspace f'') = contiguous (dataspace f) /\ backend f'' = backend f).
  { exists f'. rewrite lookup_insert_eq. split; [done |]. split; [done | apply Hev]. }
  assert (Hrest : forall w, w <> v -> <[v := f']> (objects s) !! w = objects s !! w) by (intros w Hne; by rewrite lookup_insert_ne).
  unfold read_copy_callback. cbn [work_fragment mem_buf buf_space objects memory disk]. case_decide as Hret.
  - destruct (Hin Hret) as (ptr & m & Eb & Em & Hel). rewrite lookup_insert_eq. run. rewrite Eb. run.
    destruct (serves_same f f' Hc' Hserve) as [Ht Hdim (p0 & Hp0 & Hp0')].
    destruct (copyData_ok floatCast Hcast (dataspace f') sp ptr buf0 h' m mu p0) as (md & -> & Hcopy & Hout); try done.
    { apply (so_fragment _ Hs1 v f'). apply lookup_insert_eq. }
    run. eexists _, _. split; [done |]. split; [by apply (store_user_write _ md) in Hs1 |]. cbn [objects memory disk].
    split; [done |]. split; [done |]. exists mu, md. split; [done |]. rewrite lookup_insert_eq. split; [done |]. rewrite <- Ee. split; [done |].
    intros _ p Hp Hp'. rewrite Hcopy by done. by apply Hel.
  - run. eexists _, _. split; [done |]. split; [done |]. split; [done |]. split; [done |]. exists mu, mu. by split_and!.
Qed.

(** The task loads the fragment into the user's buffer and forgets the buffer. *)
Lemma direct_task_ok (s : store B) (v k : nat) (f : esdm_fragment_t) (ptr : pointer) :
  store_ok s -> objects s !! v = Some f -> backend f = Some k -> buf f = Some ptr -> ptr.1 = buf0.1 ->
  exists ret s', backend_thread floatCast junk (IoWork v ESDM_OP_READ (Some buffer_cleanup) None None k) s = Done (ret, s') /\
  task_result s v f ret s'.
Proof.
  intros Hs Ef Ek Ebuf Eu. pose proof Hs as [S1 S2 S3 S4 S5 [mu Emu]]. destruct (S1 v f Ef) as [Hi Hd].
  destruct (S2 v f ptr Ef Ebuf Eu) as (Hal & Hown & Hst).
  unfold backend_thread. cbn [work_fragment work_op work_callback work_backend]. rewrite Ef. run. rewrite bool_decide_true by done. cbn [eassert]. run.
  unfold esdm_fragment_load. rewrite decide_False by (by rewrite Hst).
  destruct (retrieve_ok junk f (memory s) (disk s) (content v) Hi S5) as (ret & f' & h' & b' & E & Hev & Hsame & Hst' & Hok). rewrite E. run.
  destruct Hsame as [(Eb' & Esp & Eown) | (Hnone & _)]; [| congruence].
  assert (Hkey : keyOf f' = keyOf f).
  { apply Hev. pose proof (fi_content _ _ _ _ Hi) as Hc. unfold hasContent in Hc. rewrite Hst in Hc. destruct Hc as [(key & ? & -> & _) _]. eauto. }
  destruct (ev_buf _ _ _ _ _ _ _ Hev ptr mu Ebuf Hown) as (m' & Em' & Hout); [by rewrite Eu |]. rewrite Eu in Em'.
  pose proof (aligned_landed f ptr mu m' Hal Hout) as Hland.
  assert (Hobj : forall f'' : esdm_fragment_t, dataspace f'' = dataspace f' -> backend f'' = backend f' ->
     exists g, <[v := f'']> (objects s) !! v = Some g /\ contiguous (dataspace g) = contiguous (dataspace f) /\ backend g = backend f).
  { intros f'' E1 E2. exists f''. rewrite lookup_insert_eq, E1, E2. split; [done |]. split; [apply Hev | apply Hev]. }
  assert (Hrest : forall g w, w <> v -> <[v := g]> (objects s) !! w = objects s !! w) by (intros g w Hne; by rewrite lookup_insert_ne).
  unfold buffer_cleanup_callback. cbn [work_fragment objects memory disk]. destruct (decide (ret = ESDM_SUCCESS)) as [Hret | Hret].
  - rewrite lookup_insert_eq. run. pose proof (Hok Hret) as Hpers. unfold esdm_fragment_unload. rewrite Hpers.
    destruct (unload_persistent_ok f' h' b' (content v)) as (f2 & h2 & -> & Hev2 & Ef2 & Hh2); [apply Hev | apply Hev | done |]. run.
    rewrite Hh2 in * by congruence. eexists _, _. split; [done |]. rewrite insert_insert_eq. split; [| split; [| split; [by apply Hrest |]]].
    + apply (store_evolves s v f f2 h' b'); try done.
      * eapply evolves_trans; try done. by rewrite Hpers.
      * by rewrite Ef2.
      * rewrite Ef2. exact Hkey.
      * intros q. by rewrite Ef2.
      * intros q. by rewrite Ef2.
    + apply Hobj; by rewrite Ef2.
    + cbn [memory]. exists mu, m'. split; [done |]. split; [done |]. split; [done |]. intros _ p Hp _.
      rewrite (aligned_element f ptr m' p Hal Hp).
      pose proof (fi_content _ _ _ _ (ev_inv _ _ _ _ _ _ _ Hev)) as Hc. unfold hasContent in Hc. rewrite Hpers in Hc.
      destruct Hc as [(q & mq & Eq & Em & Hel) _]. rewrite Eb', Ebuf in Eq. injection Eq as <-. rewrite Eu, Em' in Em. injection Em as <-.
      rewrite Esp in Hel. by apply Hel.
  - run. rewrite decide_False in Hst' by naive_solver. eexists _, _. split; [done |]. split; [| split; [by apply Hobj | split; [by apply Hrest |]]].
    + apply (store_evolves s v f f' h' b'); try done.
      * by rewrite Hst', Hst.
      * intros q Eq Euq. rewrite Eb', Ebuf in Eq. injection Eq as <-. split; [| by rewrite Eown, Hst', Hst].
        destruct Hal as [A1 A2 A3]. constructor; [done | by rewrite Esp | by rewrite Esp].
      * intros q Eq. left. by rewrite <- Eb'.
    + cbn [memory]. exists mu, m'. by split_and!.
Qed.

(** * Dispatching a fragment *)

(** The layout of the fragment has no negative strides. *)
Definition forward (f : esdm_fragment_t) : Prop := Forall (fun t => 0 <= t) (eff (dataspace f)).

Lemma serves_spaces (f : esdm_fragment_t) : data_space (dataspace f) -> serves f -> spaces_ok (dataspace f) sp.
Proof. intros [? ? ? ? ? ?] [? ? _]. destruct Hsp. by constructor. Qed.

(** A fragment that is ready for its task, and the task. *)
Definition ready (f : esdm_fragment_t) (v : nat) (task : io_work_t) : Prop :=
  exists k, backend f = Some k /\
  ((task = IoWork v ESDM_OP_READ (Some buffer_cleanup) None None k /\ exists ptr, buf f = Some ptr /\ ptr.1 = buf0.1) \/
   (task = IoWork v ESDM_OP_READ (Some read_copy) (Some buf0) (Some sp) k /\ forall ptr, buf f = Some ptr -> ptr.1 <> buf0.1)).

Lemma enqueue_ok {T : Type} `{GHashTable T} (w : io_world (B := B) (T := T)) (v : nat) (f : esdm_fragment_t) :
  store_ok (w_store w) -> objects (w_store w) !! v = Some f -> serves f -> forward f -> (forall ptr, buf f = Some ptr -> ptr.1 <> buf0.1) ->
  exists task f', enqueue_read_fragment v buf0 sp w = Done ([Push task], setStore w (setObject (w_store w) v f')) /\
  store_ok (setObject (w_store w) v f') /\ ready f' v task /\ dataspace f' = dataspace f /\ backend f' = backend f.
Proof.
  intros Hs Ef Hserve Hfwd Hnu. pose proof Hs as [S1 S2 S3 S4 S5 S6]. destruct (S1 v f Ef) as [Hi Hd].
  pose proof (fr_space _ (fi_ok _ _ _ _ Hi)) as Hspace. pose proof (serves_spaces f Hspace Hserve) as Hok.
  destruct (fi_backend _ _ _ _ Hi) as [k Ek]. destruct (sv_shared _ Hserve) as (p0 & Hp0 & Hp0').
  unfold enqueue_read_fragment. rewrite Ef. run. rewrite Ek. run.
  destruct (direct_io_defined (dataspace f) sp (bool_decide (is_Some (buf f))) p0 Hok (ds_size _ Hspace) (ds_bytes _ Hspace) Hfwd Hp0 Hp0')
    as [-> | [off E]].
  - run. eexists _, f. split; [done |]. unfold setObject. rewrite insert_id by done. split; [by destruct (w_store w) |].
    split; [| done]. exists k. split; [done |]. right. done.
  - rewrite E. run. destruct (direct_io_ok (dataspace f) sp _ off p0 Hok (ds_size _ Hspace) (ds_bytes _ Hspace) Hp0 Hp0' E) as (Ht & Hnobuf & total & _ & Hpl).
    assert (Ebuf : buf f = None) by (destruct (buf f); [done | done]).
    set (f' := withBuf f (Some (offsetPointer buf0 off)) (ownsBuf f)). eexists _, f'. split; [done |].
    assert (Hown : ownsBuf f = false).
    { destruct (ownsBuf f) eqn:Eo; [| done]. destruct (fi_owns _ _ _ _ Hi Eo) as [block Eb]. congruence. }
    assert (Hst : status f = ESDM_DATA_NOT_LOADED).
    { pose proof (fi_content _ _ _ _ Hi) as Hc. unfold hasContent in Hc.
      destruct (status f); try done; [destruct Hc as (? & ? & ? & _) | destruct Hc as [(? & ? & ? & _) _]]; congruence. }
    assert (Hal : aligned f' (offsetPointer buf0 off)).
    { constructor; [done | done |]. intros p Hp. destruct (Hpl p Hp) as (Hp' & s & E1 & E2 & _). split; [done |].
      rewrite elementOffset_index in E1, E2 by (done || apply Hspace || apply Hsp). injection E1 as <-. injection E2 as E2.
      cbn [offsetPointer fst snd]. cbn [f' withBuf dataspace]. rewrite Ht in E2. lia. }
    split; [| split; [exists k; split; [done |]; left; split; [done |]; by eexists | done]].
    unfold setObject. apply (store_evolves (w_store w) v f f' (memory (w_store w)) (disk (w_store w))); try done.
    + constructor; try done; [| intros key E1 _ E2; change (keyOf f') with (keyOf f) in E2; congruence | intros q m Eq; congruence].
      destruct Hi as [I1 I2 I3 I4 I5]. constructor; try done.
      * by destruct I1.
      * intros q [= <-]. done.
      * cbn [f' withBuf ownsBuf]. congruence.
      * unfold hasContent in *. cbn [f' withBuf status]. rewrite Hst in I5 |- *. destruct I5 as [I5 _]. split; [exact I5 |].
        intros _ p q Hp Hq Epq. destruct (al_points _ _ Hal p Hp) as [Hp1 Hp2]. destruct (al_points _ _ Hal q Hq) as [Hq1 Hq2].
        apply Hinj; [done | done |]. change (dataspace f') with (dataspace f) in *. rewrite Epq in Hp2. pose proof (ds_type _ Hsp). nia.
    + intros q [= <-] _. split; [done |]. split; [done |]. cbn [f' withBuf status]. done.
    + intros q [= <-]. by right; right.
Qed.

(** Bytes of other points. *)
Lemma landed_element (P : list Z -> Prop) (m m' : mem) (p : list Z) :
  landed P m m' -> in_cube p (extends sp) -> ~ P p -> elementAt sp (seen buf0 m') p = elementAt sp (seen buf0 m) p.
Proof.
  intros Hl Hp Hn. apply read_bytes_ext. intros a Ha. apply Hl. intros (q & Hq & HP & Hr). pose proof (ds_type _ Hsp) as Hz.
  assert (index sp p = index sp q) as E by nia. apply Hinj in E; [| done | done]. by subst q.
Qed.

Lemma landed_trans (P Q R : list Z -> Prop) (m1 m2 m3 : mem) :
  landed P m1 m2 -> landed Q m2 m3 -> (forall p, P p \/ Q p -> R p) -> landed R m1 m3.
Proof.
  intros H1 H2 HR a Ha. rewrite H2, H1; [done | |]; intros (p & Hp & HP & Hr); apply Ha; exists p; auto.
Qed.

(** * The request *)

Context {T : Type} `{GHashTable T} {F : Type} (fzero : F) (fle : F -> F -> bool) (data_backends : list (data_backend (F := F))).

Abbreviation prepare := (prepare_item (B := B) (T := T) fzero fle data_backends).
Abbreviation perform := (perform_work floatCast junk (B := B) (T := T)).

Definition announcedItem (q : io_item) : bool := match q with ReadItem _ _ _ => true | _ => false end.

Lemma prepare_item_commands (q : io_item) (w : io_world) (cs : list (command io_item io_work_t)) (w' : io_world) :
  prepare q w = Done (cs, w') -> item_commands (announcedItem q) cs.
Proof.
  assert (Hw : forall v i w, prepare (WriteFragment v i) w = Done (cs, w') -> item_commands false cs).
  { intros v i w1 E. cbn [prepare_item] in E. unfold esdmI_scheduler_writeFragmentNonblocking in E. inv_outcome. right. by eexists. }
  intros E. destruct q as [v b space | cube k b space i | v i]; cbn [announcedItem].
  - cbn [prepare_item] in E. unfold enqueue_read_fragment in E. inv_outcome. destruct v2 as [d o]. injection E as <- _. by eexists.
  - cbn [prepare_item] in E. unfold enqueue_write_cube in E. repeat (inv_outcome; repeat match goal with x : (_ * _)%type |- _ => destruct x end).
    match type of E with (if negb ?isNew then _ else _) = _ => destruct isNew end; cbn [negb] in E; inv_outcome; [by apply Hw in E | by left].
  - by apply Hw in E.
Qed.

(** The fragments to read, the store and the buffer before the request. *)
Context (vs : list nat) (w0 : io_world (B := B) (T := T)) (m0 : mem).
Hypothesis Hnodup : NoDup vs.
Hypothesis Hstore0 : store_ok (w_store w0).
Hypothesis Hmem0 : memory (w_store w0) !! buf0.1 = Some m0.
Hypothesis Hfragments : forall v, v ∈ vs -> exists f, objects (w_store w0) !! v = Some f /\ serves f /\ forward f /\
  forall ptr, buf f = Some ptr -> ptr.1 <> buf0.1.

(** Where fragments overlap they have the same content. *)
Hypothesis Hconsistent : forall v w f g p, v ∈ vs -> w ∈ vs -> objects (w_store w0) !! v = Some f -> objects (w_store w0) !! w = Some g ->
  in_cube p (extends (dataspace f)) -> in_cube p (extends (dataspace g)) -> content v p = content w p.

Definition readItems : list io_item := (fun v => ReadItem v buf0 sp) <$> vs.

(** The points of the fragments. *)
Definition offered (p : list Z) : Prop := exists v f, v ∈ vs /\ objects (w_store w0) !! v = Some f /\ in_cube p (extends (dataspace f)).

Record read_inv (ev : list (event (Q := io_item) (T := io_work_t))) (w : io_world) : Prop := {
  rv_store : store_ok (w_store w);
  rv_submitted : length (submitted ev) = length (preparedItems ev) /\ (length (preparedItems ev) <= length vs)%nat;
  rv_fragment : forall k v f0, vs !! k = Some v -> objects (w_store w0) !! v = Some f0 ->
    exists f, objects (w_store w) !! v = Some f /\ contiguous (dataspace f) = contiguous (dataspace f0) /\
    (forall task, submitted ev !! k = Some task -> k ∉ (results ev).*1 -> ready f v task);
  rv_waiting : forall k v, vs !! k = Some v -> (length (preparedItems ev) <= k)%nat -> objects (w_store w) !! v = objects (w_store w0) !! v;
  rv_others : forall v, v ∉ vs -> objects (w_store w) !! v = objects (w_store w0) !! v;
  rv_dataset : w_dataset w = w_dataset w0;
  rv_memory : exists m, memory (w_store w) !! buf0.1 = Some m /\ landed offered m0 m /\
    (Forall (fun e => e.2 = ESDM_SUCCESS) (results ev) -> forall k v f0 p, k ∈ (results ev).*1 -> vs !! k = Some v ->
       objects (w_store w0) !! v = Some f0 -> in_cube p (extends (dataspace f0)) -> in_cube p (extends sp) ->
       elementAt sp (seen buf0 m) p = content v p)
}.

Lemma read_inv_start : read_inv [] w0.
Proof.
  constructor; try done.
  - simpl. lia.
  - intros k v f0 Ev Ef. by exists f0.
  - exists m0. split; [done |]. split; [done |]. by intros _ k v f0 p ?%elem_of_nil.
Qed.

(** The task of a fragment that is ready. *)
Lemma ready_task_ok (s : store B) (v : nat) (f : esdm_fragment_t) (task : io_work_t) :
  store_ok s -> objects s !! v = Some f -> serves f -> ready f v task ->
  exists ret s', backend_thread floatCast junk task s = Done (ret, s') /\ task_result s v f ret s'.
Proof.
  intros Hs Ef Hserve (k & Ek & [(-> & ptr & Eb & Eu) | (-> & Hnu)]); [by apply (direct_task_ok s v k f ptr) | by apply copy_task_ok].
Qed.

Lemma object_of (v : nat) : v ∈ vs -> exists f0, objects (w_store w0) !! v = Some f0 /\ serves f0 /\ forward f0 /\
  forall ptr, buf f0 = Some ptr -> ptr.1 <> buf0.1.
Proof. apply Hfragments. Qed.

Lemma position_unique (j k : nat) (v : nat) : vs !! j = Some v -> vs !! k = Some v -> j = k.
Proof. intros Hj Hk. by apply (NoDup_lookup vs j k v). Qed.

Lemma read_prepare (ev : list event) (w : io_world) (q : io_item) :
  read_inv ev w -> readItems !! length (preparedItems ev) = Some q ->
  exists task w', prepare q w = Done ([Push task], w') /\ read_inv (ev ++ [Prepared q [Push task]]) w'.
Proof.
  intros [R1 [R2 R2'] R3 R4 R5 R6 R7] Eq. unfold readItems in Eq. rewrite list_lookup_fmap in Eq.
  set (n := length (preparedItems ev)) in *. destruct (vs !! n) as [v |] eqn:Ev; [| discriminate Eq]. injection Eq as <-.
  assert (Hv : v ∈ vs) by (by eapply list_elem_of_lookup_2). destruct (object_of v Hv) as (f & Ef & Hserve & Hfwd & Hnu).
  pose proof (R4 n v Ev ltac:(done)) as Eobj. rewrite Ef in Eobj.
  destruct (enqueue_ok w v f R1 Eobj Hserve Hfwd Hnu) as (task & f' & E & Hs' & Hready & Esp & Ebk).
  exists task, (setStore w (setObject (w_store w) v f')). split; [exact E |].
  assert (Eres : results (ev ++ [Prepared (ReadItem v buf0 sp) [Push task]]) = results ev) by (rewrite results_app; apply app_nil_r).
  assert (Esub : submitted (ev ++ [Prepared (ReadItem v buf0 sp) [Push task]]) = submitted ev ++ [task]) by (by rewrite submitted_app).
  assert (Eprep : length (preparedItems (ev ++ [Prepared (ReadItem v buf0 sp) [Push task]])) = S n).
  { rewrite preparedItems_app, length_app. cbn. unfold n. lia. }
  assert (Hlt : (n < length vs)%nat) by (by apply lookup_lt_Some in Ev).
  assert (Hobj : forall u, objects (setObject (w_store w) v f') !! u = if decide (u = v) then Some f' else objects (w_store w) !! u).
  { intros u. cbn [setObject objects]. case_decide as Hu; [subst; by rewrite lookup_insert_eq | by rewrite lookup_insert_ne]. }
  constructor; rewrite ?Eres, ?Eprep, ?Esub; cbn [setStore w_store w_dataset]; try done.
  - rewrite length_app. simpl. lia.
  - intros k u f0 Eu Ef0. rewrite Hobj. case_decide as Hu.
    + subst u. rewrite Ef in Ef0. injection Ef0 as <-. exists f'. split; [done |]. split; [by rewrite Esp |]. intros t Et _.
      rewrite (position_unique k n v Eu Ev), lookup_app_r in Et by lia. rewrite R2, Nat.sub_diag in Et. by injection Et as <-.
    + destruct (R3 k u f0 Eu Ef0) as (g & Eg & Hc & Ht). exists g. split; [done |]. split; [done |]. intros t Et Hk.
      apply lookup_app_Some in Et as [Et | [Hge Et]]; [by apply Ht |]. apply list_lookup_singleton_Some in Et as [Hz _].
      assert (k = n) as -> by lia. congruence.
  - intros k u Eu Hk. rewrite Hobj. case_decide as Hu; [subst u; pose proof (position_unique k n v Eu Ev); lia |]. apply (R4 k u Eu). lia.
  - intros u Hu. rewrite Hobj. case_decide as E'; [by subst u |]. by apply R5.
Qed.

Lemma read_perform (ev : list event) (w : io_world) (i : nat) (task : io_work_t) :
  read_inv ev w -> submitted ev !! i = Some task -> i ∉ (results ev).*1 ->
  exists ret w', perform task w = Done (ret, w') /\ read_inv (ev ++ [Performed i ret]) w'.
Proof.
  intros [R1 [R2 R2'] R3 R4 R5 R6 (m & Em & Hland & Hdata)] Et Hi.
  pose proof (lookup_lt_Some _ _ _ Et) as Hlt. destruct (lookup_lt_is_Some_2 vs i) as [v Ev]; [lia |].
  assert (Hv : v ∈ vs) by (by eapply list_elem_of_lookup_2). destruct (object_of v Hv) as (f0 & Ef0 & Hserve & _ & _).
  destruct (R3 i v f0 Ev Ef0) as (f & Ef & Hc & Hready). destruct (contiguous_shape f f0 Hc) as [Ee _].
  destruct (ready_task_ok (w_store w) v f task R1 Ef (serves_same f0 f Hc Hserve) (Hready task Et Hi)) as (ret & s' & E & Hs' & (f' & Ef' & Hc' & Ebk) & Hoth & m1 & m' & Em1 & Em' & Hland' & Hdata').
  rewrite Em in Em1. injection Em1 as <-. rewrite Ee in Hland', Hdata'.
  exists ret, (setStore w s'). unfold perform_work. rewrite E. run. split; [done |].
  assert (Eres : results (ev ++ [Performed i ret]) = results ev ++ [(i, ret)]) by (by rewrite results_app).
  assert (Eprep : preparedItems (ev ++ [Performed i ret]) = preparedItems ev) by (rewrite preparedItems_app; apply app_nil_r).
  assert (Esub : submitted (ev ++ [Performed i ret]) = submitted ev) by (rewrite submitted_app; apply app_nil_r).
  constructor; rewrite ?Eres, ?Eprep, ?Esub; cbn [setStore w_store w_dataset]; try done.
  - intros k u g0 Eu Eg0. destruct (decide (u = v)) as [-> | Hne].
    + rewrite Ef0 in Eg0. injection Eg0 as <-. exists f'. split; [done |]. split; [by rewrite Hc' |]. intros t _ Hk. destruct Hk.
      rewrite (position_unique k i v Eu Ev), fmap_app. apply elem_of_app. right. by left.
    + destruct (R3 k u g0 Eu Eg0) as (g & Eg & Hcg & Hrg). exists g. split; [by rewrite Hoth |]. split; [done |]. intros t Etk Hk.
      apply Hrg; [done |]. intros Hin. apply Hk. rewrite fmap_app. apply elem_of_app. by left.
  - intros k u Eu Hk. rewrite Hoth; [by apply (R4 k) |]. intros ->. pose proof (position_unique k i v Eu Ev). lia.
  - intros u Hu. rewrite Hoth; [by apply R5 |]. by intros ->.
  - exists m'. split; [done |]. split.
    { apply (landed_trans offered (fun p => in_cube p (extends (dataspace f0))) offered m0 m m'); [done | done |].
      intros p [Hp | Hp]; [done |]. by exists v, f0. }
    intros Hall k u g0 p Hk Eu Eg0 Hp Hp'. apply Forall_app in Hall as [Hall Hret]. apply Forall_cons in Hret as [Hret _]. cbn [snd] in Hret.
    rewrite fmap_app in Hk. destruct (decide (in_cube p (extends (dataspace f0)))) as [Hin | Hout].
    + rewrite (Hdata' Hret p Hin Hp'). apply (Hconsistent v u f0 g0); try done. by eapply list_elem_of_lookup_2.
    + rewrite (landed_element _ m m' p Hland' Hp' Hout). apply elem_of_app in Hk as [Hk | ->%list_elem_of_singleton].
      * by apply (Hdata Hall k u g0).
      * cbn [fst] in Eu. rewrite Ev in Eu. injection Eu as <-. rewrite Ef0 in Eg0. injection Eg0 as <-. done.
Qed.

Lemma happens_read_inv (ev : list event) (w : io_world) : happens prepare perform readItems w0 ev w -> read_inv ev w.
Proof.
  induction 1 as [| ev w q cs w' Hh IH Eq E | ev w i t ret w' Hh IH Et Hi E].
  - apply read_inv_start.
  - destruct (read_prepare ev w q IH Eq) as (task & w2 & E2 & Hinv). rewrite E in E2. by injection E2 as -> ->.
  - destruct (read_perform ev w i t IH Et Hi) as (ret2 & w2 & E2 & Hinv). rewrite E in E2. by injection E2 as -> ->.
Qed.

(** A complete request. *)
Definition read_done (ret : esdm_status) (w : io_world) : Prop :=
  store_ok (w_store w) /\ w_dataset w = w_dataset w0 /\
  (forall v, v ∉ vs -> objects (w_store w) !! v = objects (w_store w0) !! v) /\
  (forall v f0, v ∈ vs -> objects (w_store w0) !! v = Some f0 ->
     exists f, objects (w_store w) !! v = Some f /\ contiguous (dataspace f) = contiguous (dataspace f0)) /\
  exists m, memory (w_store w) !! buf0.1 = Some m /\ landed offered m0 m /\
  (ret = ESDM_SUCCESS -> forall v f0 p, v ∈ vs -> objects (w_store w0) !! v = Some f0 -> in_cube p (extends (dataspace f0)) ->
     in_cube p (extends sp) -> elementAt sp (seen buf0 m) p = content v p).

Lemma enqueue_read_commands :
  items (esdm_scheduler_enqueue_read vs buf0 sp) = readItems /\ pushed (esdm_scheduler_enqueue_read vs buf0 sp) = [] /\
  announces announcedItem 0 (esdm_scheduler_enqueue_read vs buf0 sp).
Proof.
  unfold esdm_scheduler_enqueue_read. split; [| split].
  - unfold items, readItems. cbn [omap list_omap]. clear. induction vs as [| v l IH]; [done |]. cbn. by f_equal.
  - unfold pushed. cbn [omap list_omap]. clear. induction vs as [| v l IH]; done.
  - cbn [announces]. split; [lia |]. rewrite Z.add_0_l. clear. induction vs as [| v l IH]; [done |].
    cbn [fmap list_fmap announces announcedItem length]. split; [lia |]. by replace (Z.of_nat (S (length l)) - 1) with (Z.of_nat (length l)) by lia.
Qed.

Lemma read_prepares (ev : list event) (w : io_world) (q : io_item) :
  happens prepare perform readItems w0 ev w -> readItems !! length (preparedItems ev) = Some q -> exists cs w', prepare q w = Done (cs, w').
Proof. intros Hh Eq. destruct (read_prepare ev w q (happens_read_inv ev w Hh) Eq) as (task & w' & E & _). eauto. Qed.

Lemma read_performs (ev : list event) (w : io_world) (i : nat) (t : io_work_t) :
  happens prepare perform readItems w0 ev w -> submitted ev !! i = Some t -> i ∉ (results ev).*1 -> exists ret w', perform t w = Done (ret, w').
Proof. intros Hh Et Hi. destruct (read_perform ev w i t (happens_read_inv ev w Hh) Et Hi) as (ret & w' & E & _). eauto. Qed.

(** Some schedule completes the request. *)
Lemma read_request_returns (threads : nat -> nat) :
  Z.of_nat (length vs) < 2 ^ 31 ->
  exists schedule ret w, submit floatCast junk fzero fle data_backends threads schedule (esdm_scheduler_enqueue_read vs buf0 sp) w0 = Done (Some (ret, w)).
Proof.
  intros Hcount. destruct enqueue_read_commands as (Hitems & Hpushed & Hann). unfold submit.
  apply (run_request_returns work_backend threads prepare perform readItems announcedItem w0); try done.
  - unfold readItems. by rewrite length_fmap.
  - intros q w cs w'. apply prepare_item_commands.
  - apply read_prepares.
  - apply read_performs.
Qed.

Lemma read_request_ok (threads : nat -> nat) (schedule : list choice) :
  Z.of_nat (length vs) < 2 ^ 31 ->
  exists r, submit floatCast junk fzero fle data_backends threads schedule (esdm_scheduler_enqueue_read vs buf0 sp) w0 = Done r /\
  forall ret w, r = Some (ret, w) -> read_done ret w.
Proof.
  intros Hcount. destruct enqueue_read_commands as (Hitems & Hpushed & Hann). unfold submit.
  destruct (run_request_ok work_backend threads prepare perform readItems announcedItem w0 schedule (esdm_scheduler_enqueue_read vs buf0 sp)) as (r & E & Hr); try done.
  - unfold readItems. by rewrite length_fmap.
  - intros q w cs w'. apply prepare_item_commands.
  - apply read_prepares.
  - apply read_performs.
  - exists r. split; [exact E |]. intros ret w Er. destruct (Hr ret w Er) as (s & Ew & _ & ev & Hh & Hprepared & _ & Hperm & Hret & _). subst w.
    pose proof (happens_read_inv ev (world s) Hh) as [R1 [R2 _] R3 R4 R5 R6 (m & Em & Hland & Hdata)].
    split; [done |]. split; [done |]. split; [done |]. split.
    { intros v f0 Hv Ef0. apply list_elem_of_lookup in Hv as [k Ek]. destruct (R3 k v f0 Ek Ef0) as (f & Ef & Hc & _). by exists f. }
    exists m. split; [done |]. split; [done |]. intros Hs v f0 p Hv Ef0 Hp Hp'. apply list_elem_of_lookup in Hv as [k Ek].
    apply (Hdata (proj1 Hret Hs) k v f0); try done. rewrite Hperm. apply elem_of_seq. split; [lia |].
    rewrite R2, Hprepared. unfold readItems. rewrite length_fmap. by apply lookup_lt_Some in Ek.
Qed.

End Reading.
