(* ===== verification/ReadBlocking.v ===== *)
(** Reading a region of a dataset (src/esdm-scheduler.c): the holes are filled, the fragments are
    read, and the user's buffer has the content of the dataset. *)

From stdpp Require Import gmap.
From S2P Require Import Prelude Hypercube HypercubeSet Json Odometer Memory Dataspace Convert CopyData Partition Split Grid GridTree GridVisit GridRegion GridCover Fragment FragmentState Posix Fragments Request Dataset Scheduler SchedulerRead.

Open Scope Z_scope.

(** * Regions *)

#[global] Instance covered_dec (cs : list esdmI_hypercube_t) (p : list Z) : Decision (covered cs p).
Proof. refine (cast_if (decide (Exists (in_cube p) cs))); by rewrite Exists_exists in *. Qed.

Lemma points_inside (c r : esdmI_hypercube_t) : nonempty c -> (forall p, in_cube p c -> in_cube p r) -> Forall2 range_inside c r.
Proof.
  intros Hn Hp. assert (H1 : in_cube (rstart <$> c) r) by (by apply Hp, nonempty_point).
  assert (H2 : in_cube ((fun x => rend x - 1) <$> c) r).
  { apply Hp. unfold in_cube. clear -Hn. induction Hn; cbn [fmap list_fmap]; constructor; [unfold in_range; lia | done]. }
  unfold in_cube in *. clear Hp. revert r H1 H2. induction Hn as [| x c Hx _ IH]; intros r H1 H2.
  - apply Forall2_nil_inv_l in H1 as ->. constructor.
  - apply Forall2_cons_inv_l in H1 as (y & r' & Hy & H1 & ->). apply Forall2_cons in H2 as [Hy' H2].
    constructor; [unfold range_inside, in_range in *; lia | by apply IH].
Qed.

Lemma int64_nonempty (c : esdmI_hypercube_t) : Forall range_int64 c -> nonempty c.
Proof. induction 1 as [| r c (? & _) _ IH]; constructor; [lia | done]. Qed.

Lemma sub_product (c r : esdmI_hypercube_t) :
  nonempty c -> Forall2 range_inside c r ->
  1 <= prod ((fun x => rend x - rstart x) <$> c) <= prod ((fun x => rend x - rstart x) <$> r).
Proof.
  intros Hn Hi. revert Hn. induction Hi as [| x y c r [Hx1 Hx2] _ IH]; intros Hn; [done |]. apply Forall_cons in Hn as [Hx Hn]. specialize (IH Hn).
  cbn [fmap list_fmap]. change (prod (?a :: ?l)) with (a * prod l). cbn [prod foldr]. fold (prod ((fun z => rend z - rstart z) <$> c)).
  fold (prod ((fun z => rend z - rstart z) <$> r)). nia.
Qed.

(** * Filling holes *)

Section Fill.

Context (floatCast : esdm_type_t -> esdm_type_t -> list Z -> list Z).
Context (Hcast : forall d s bytes, 0 <= esdm_sizeof d -> Z.of_nat (length (floatCast d s bytes)) = esdm_sizeof d).
Context (buf0 : pointer) (sp : esdm_dataspace_t).
Hypothesis Hsp : data_space sp.
Hypothesis Hinj : injective_layout sp.

(** The fill value, seen as a dataspace. *)
Definition cubeSource (c : esdmI_hypercube_t) : esdm_dataspace_t :=
  Dataspace (type sp) (dims sp) ((fun r => rend r - rstart r) <$> c) (rstart <$> c) false (Some (replicate (Z.to_nat (dims sp)) 0)).

Lemma cubeSource_extends (c : esdmI_hypercube_t) : extends (cubeSource c) = c.
Proof.
  unfold extends. cbn [cubeSource offset size]. induction c as [| r c IH]; [done |]. cbn [fmap list_fmap zip_with]. rewrite IH.
  destruct r as [a b]. cbn [rstart rend]. do 2 f_equal. lia.
Qed.

Lemma extends_sizes : (fun r => rend r - rstart r) <$> extends sp = size sp.
Proof.
  pose proof Hsp as [[_ H1 H2 _] _ _ _ _ _]. unfold extends. assert (Hl : length (offset sp) = length (size sp)) by lia. revert Hl.
  generalize (offset sp) as o, (size sp) as s. induction o as [| x o IH]; intros [| y s] Hl; simpl in Hl; try lia; [done |].
  cbn [zip_with fmap list_fmap rstart rend]. f_equal; [lia | apply IH; lia].
Qed.

Lemma extends_int64 : Forall range_int64 (extends sp) /\ Forall (fun r => 0 <= rstart r) (extends sp).
Proof.
  pose proof Hsp as [_ H64 Hpos Hoff _ _]. unfold space_int64 in H64. unfold extends. revert Hpos Hoff.
  induction H64 as [| o s os ss (H1 & H2 & H3 & H4) _ IH]; intros Hpos Hoff; [split; constructor |].
  apply Forall_cons in Hpos as [? Hpos]. apply Forall_cons in Hoff as [? Hoff]. destruct (IH Hpos Hoff) as [I1 I2].
  cbn [zip_with]. split; constructor; try done. unfold range_int64. cbn [rstart rend]. lia.
Qed.

Lemma inside_int64 (c : esdmI_hypercube_t) :
  nonempty c -> Forall2 range_inside c (extends sp) -> Forall range_int64 c /\ Forall (fun r => 0 <= rstart r) c.
Proof.
  intros Hn Hi. destruct extends_int64 as [Hr1 Hr2]. revert Hn Hr1 Hr2. induction Hi as [| x y c r [Hx1 Hx2] _ IH]; intros Hn Hr1 Hr2; [split; constructor |].
  apply Forall_cons in Hn as [? Hn]. apply Forall_cons in Hr1 as [(? & ? & ?) Hr1]. apply Forall_cons in Hr2 as [? Hr2]. destruct (IH Hn Hr1 Hr2) as [I1 I2].
  split; constructor; try done; unfold range_int64; lia.
Qed.

Lemma cubeSource_ok (c : esdmI_hypercube_t) : nonempty c -> Forall2 range_inside c (extends sp) -> data_space (cubeSource c).
Proof.
  intros Hn Hi. destruct (inside_int64 c Hn Hi) as [H1 H2]. pose proof Hsp as [Hwf _ _ _ Ht Hb]. pose proof (length_extends sp Hwf) as Hl.
  pose proof (Forall2_length _ _ _ Hi) as Hlc. pose proof (wf_dims _ Hwf).
  assert (Hsize : Forall (fun s => 0 < s) ((fun r => rend r - rstart r) <$> c)).
  { apply Forall_fmap. clear -Hn. induction Hn; constructor; [simpl; lia | done]. }
  assert (Hbytes : prod ((fun r => rend r - rstart r) <$> c) * esdm_sizeof (type sp) <= INT64_MAX).
  { pose proof (sub_product c (extends sp) Hn Hi) as Hp. rewrite extends_sizes in Hp. nia. }
  constructor; cbn [cubeSource dims size offset stride type]; try done.
  - constructor; cbn [cubeSource dims size offset stride]; rewrite ?length_fmap; [lia | lia | lia |]. intros s [= <-]. rewrite length_replicate. lia.
  - unfold space_int64. cbn [cubeSource size offset]. clear -H1. induction H1 as [| r c (? & ? & ?) _ IH]; cbn [fmap list_fmap]; constructor; [lia | done].
  - by apply Forall_fmap.
  - change (space_fits (fillSource (Dataspace (type sp) (dims sp) ((fun r => rend r - rstart r) <$> c) (rstart <$> c) false None))).
    by apply fillSource_fits, positive_fits.
Qed.

Context (value : list Z).
Hypothesis Hvalue : Z.of_nat (length value) = esdm_sizeof (type sp).

Lemma cubeSource_element (c : esdmI_hypercube_t) (p : list Z) : elementAt (cubeSource c) (mem_of value) p = value.
Proof.
  unfold elementAt, index, eff. cbn [cubeSource stride type offset]. rewrite dot_zero_strides, Z.mul_0_l, read_mem_of by lia.
  cbn [Z.to_nat drop]. rewrite drop_0. apply take_ge. lia.
Qed.

(** One hole. *)
Lemma fill_cube_ok (c : esdmI_hypercube_t) (source : esdm_dataspace_t) (h : heap) (m : mem) :
  nonempty c -> Forall2 range_inside c (extends sp) -> h !! buf0.1 = Some m ->
  type source = type sp -> dims source = dims sp -> strideBacking source = false -> stride source = Some (replicate (Z.to_nat (dims sp)) 0) ->
  exists m', fill_cube floatCast (mem_of value) buf0 sp c (source, h) = Done (cubeSource c, <[buf0.1 := m']> h) /\
  landed buf0 sp (fun p => in_cube p c) m m' /\ forall p, in_cube p c -> elementAt sp (seen buf0 m') p = value.
Proof.
  intros Hn Hi Em E1 E2 E3 E4. destruct (inside_int64 c Hn Hi) as [H1 _]. pose proof (cubeSource_ok c Hn Hi) as Hc.
  pose proof (length_extends sp (ds_wf _ Hsp)) as Hl. pose proof (Forall2_length _ _ _ Hi) as Hlc.
  unfold fill_cube, esdmI_hypercube_dimensions, esdm_dataspace_get_dims. rewrite eassert_true by (apply Z.eqb_eq; lia). run.
  unfold esdmI_dataspace_setExtends, esdmI_hypercube_dimensions. rewrite eassert_true by (apply Z.eqb_eq; lia). run.
  rewrite offsetAndSize_ok by done. run. rewrite E1, E2, E3, E4. fold (cubeSource c). rewrite (view_ok _ _ _ Em). run.
  destruct (copy_same_type floatCast Hcast (cubeSource c) sp (mem_of value) (seen buf0 m) (rstart <$> c)) as (d' & -> & Hin & Hout); try done.
  - rewrite cubeSource_extends. by apply nonempty_point.
  - by apply (inside_point c (extends sp)); [| apply nonempty_point].
  - run. rewrite (put_ok _ _ m) by done. run. eexists. split; [done |]. rewrite cubeSource_extends in Hin, Hout. split.
    + intros a Ha. rewrite seen_unseen. by apply Hout.
    + intros p Hp. rewrite <- (cubeSource_element c p), <- Hin; [| done | by eapply inside_point]. apply elementAt_ext, seen_unseen.
Qed.

Lemma fill_cubes_ok (cs : list esdmI_hypercube_t) (source : esdm_dataspace_t) (h : heap) (m : mem) :
  Forall (fun c => nonempty c /\ Forall2 range_inside c (extends sp)) cs -> h !! buf0.1 = Some m ->
  type source = type sp -> dims source = dims sp -> strideBacking source = false -> stride source = Some (replicate (Z.to_nat (dims sp)) 0) ->
  exists source' m', foldM (fill_cube floatCast (mem_of value) buf0 sp) cs (source, h) = Done (source', <[buf0.1 := m']> h) /\
  landed buf0 sp (covered cs) m m' /\ forall p, covered cs p -> elementAt sp (seen buf0 m') p = value.
Proof.
  intros Hcs. revert source h m. induction Hcs as [| c cs [Hn Hi] Hcs IH]; intros source h m Em E1 E2 E3 E4; cbn [foldM].
  - exists source, m. split; [by rewrite insert_id |]. split; [done |]. by intros p (c & ?%elem_of_nil & _).
  - destruct (fill_cube_ok c source h m Hn Hi Em E1 E2 E3 E4) as (m1 & -> & Hl1 & Hp1). run.
    destruct (IH (cubeSource c) (<[buf0.1 := m1]> h) m1) as (source' & m' & -> & Hl & Hp); try done; [apply lookup_insert_eq |].
    exists source', m'. split; [by rewrite insert_insert_eq |].
    assert (Hcov : forall p, covered (c :: cs) p <-> in_cube p c \/ covered cs p).
    { intros p. unfold covered. setoid_rewrite elem_of_cons. naive_solver. }
    split; [eapply landed_trans; [exact Hl1 | exact Hl |]; intros p; apply Hcov |].
    intros p Hpc. destruct (decide (covered cs p)) as [Hd | Hd]; [by apply Hp |]. apply Hcov in Hpc as [Hpc | Hpc]; [| done].
    rewrite (landed_element buf0 sp Hsp Hinj (covered cs) m1 m' p); try done; [by apply Hp1 | by eapply inside_point].
Qed.

(** [esdm_scheduler_enqueue_fill()] puts the value at the points of the regions and nowhere else. *)
Lemma enqueue_fill_ok (cs : list esdmI_hypercube_t) (h : heap) (m : mem) :
  Forall (fun c => nonempty c /\ Forall2 range_inside c (extends sp)) cs -> h !! buf0.1 = Some m ->
  exists m', esdm_scheduler_enqueue_fill floatCast (mem_of value) buf0 sp cs h = Done (ESDM_SUCCESS, <[buf0.1 := m']> h) /\
  landed buf0 sp (covered cs) m m' /\ forall p, covered cs p -> elementAt sp (seen buf0 m') p = value.
Proof.
  intros Hcs Em. pose proof (wf_dims _ (ds_wf _ Hsp)) as Hd. unfold esdm_scheduler_enqueue_fill, esdm_dataspace_create, esdm_dataspace_create_full, esdm_dataspace_get_dims.
  rewrite !eassert_true by (apply Z.geb_le; lia). run. rewrite !memdup_ok by (rewrite length_replicate; lia). run.
  unfold esdm_dataspace_set_stride. cbn [dims]. rewrite memdup_ok by (rewrite length_replicate; lia). run.
  rewrite eassert_true by (by apply bool_decide_eq_true). run.
  destruct (fill_cubes_ok cs (setStrideBuffer (Dataspace (esdm_dataspace_get_type sp) (dims sp) (replicate (Z.to_nat (dims sp)) INT64_MAX)
    (replicate (Z.to_nat (dims sp)) 0) false None) (replicate (Z.to_nat (dims sp)) 0)) h m) as (source' & m' & -> & H1 & H2); try done. run. by exists m'.
Qed.

End Fill.

(** * Reading a region *)

Section Blocking.

Context (floatCast : esdm_type_t -> esdm_type_t -> list Z -> list Z).
Context (Hcast : forall d s bytes, 0 <= esdm_sizeof d -> Z.of_nat (length (floatCast d s bytes)) = esdm_sizeof d).
Context (junk : mem) {B : Type} `{DataBackendLaws B} {T : Type} `{GHashTableLaws T}.
Context {F : Type} (fzero : F) (fle : F -> F -> bool) (fadd : F -> F -> F) (scaled : F -> Z -> F -> Z).
Context (splitFactor : Z -> Z -> Z -> Z -> Z) (qsort : list dimInfo_t -> list dimInfo_t) (manyBytes : Z -> Z -> bool).
Context (data_backends : list (data_backend (F := F))) (threads : nat -> nat).

(** The user's buffer, the requested region and the data of the dataset. *)
Context (buf0 : pointer) (sp : esdm_dataspace_t) (data : content_t).
Hypothesis Hsp : data_space sp.
Hypothesis Hinj : injective_layout sp.

Abbreviation region := (extends sp).

Definition spaceBytes (f : esdm_fragment_t) : Z := volume (extends (dataspace f)) * esdm_sizeof (type (dataspace f)).

(** The state in which a region can be read: the fragments of the dataset are in order, have the data
    of the dataset, its type and dimensions, and do not use the user's buffer; the counters of the
    statistics do not overflow. *)
Record read_ready (w : io_world (B := B) (T := T)) : Prop := {
  rr_store : store_ok buf0 sp (fun _ => data) (w_store w);
  rr_dataset : dataset_ok (objects (w_store w)) (length region) region (w_dataset w);
  rr_key : key_ok (length region) region;
  rr_dims : 0 < dims sp;
  rr_objects : forall v f, objects (w_store w) !! v = Some f -> type (dataspace f) = type sp /\ dims (dataspace f) = dims sp /\ forward f /\
    forall ptr, buf f = Some ptr -> ptr.1 <> buf0.1;
  rr_type : type sp = type (dset_space (w_dataset w));
  rr_fill : forall value, fill_value (w_dataset w) = Some value -> Z.of_nat (length value) = esdm_sizeof (type sp);
  rr_count : Z.of_nat (base.size (objects (w_store w))) < 2 ^ 31;
  rr_bytes : total (fun e => spaceBytes e.2) (map_to_list (objects (w_store w))) <= INT64_MAX
}.

(** ** Sizes *)

Lemma total_nonneg_in {A} (f : A -> Z) (l : list A) : (forall a, a ∈ l -> 0 <= f a) -> 0 <= total f l.
Proof.
  induction l as [| a l IH]; intros Hf; [done |]. rewrite total_cons.
  assert (0 <= f a) by (apply Hf; by left). assert (0 <= total f l) by (apply IH; intros b Hb; apply Hf; by right). lia.
Qed.

Lemma total_submseteq {A} (f : A -> Z) (l k : list A) : (forall a, a ∈ k -> 0 <= f a) -> l ⊆+ k -> total f l <= total f k.
Proof.
  intros Hf Hs. apply submseteq_Permutation in Hs as [r Hp].
  assert (E : total f k = total f (l ++ r)).
  { clear Hf. induction Hp as [| x k k' _ IH | x y k | k k' k'' _ IH1 _ IH2]; rewrite ?total_cons; [done | lia | rewrite ?total_cons; lia | lia]. }
  rewrite E, total_app. assert (0 <= total f r); [| lia]. apply total_nonneg_in. intros a Ha. apply Hf. rewrite Hp. apply elem_of_app. by right.
Qed.

Lemma space_bytes_ok (space : esdm_dataspace_t) :
  data_space space -> esdm_dataspace_total_bytes space = Done (volume (extends space) * esdm_sizeof (type space)) /\
  1 <= volume (extends space) * esdm_sizeof (type space).
Proof.
  intros Hd. pose proof Hd as [Hwf H64 Hpos _ Ht Hb]. split; [by apply total_bytes_ok |].
  assert (0 < volume (extends space)); [| nia]. apply volume_pos_iff, int64_nonempty. by destruct (extends_int64 space Hd).
Qed.

(** The handles of a list are objects of the store, which holds no more than those. *)
Lemma objects_bounds (objs : gmap nat esdm_fragment_t) (vs : list nat) :
  NoDup vs -> (forall v, v ∈ vs -> is_Some (objs !! v)) -> (forall v f, objs !! v = Some f -> 0 <= spaceBytes f) ->
  (length vs <= base.size objs)%nat /\ exists fs, Forall2 (fun v f => objs !! v = Some f) vs fs /\ total spaceBytes fs <= total (fun e => spaceBytes e.2) (map_to_list objs).
Proof.
  intros Hnd Hin Hpos.
  assert (exists fs, Forall2 (fun v f => objs !! v = Some f) vs fs) as [fs Hfs].
  { clear Hnd. induction vs as [| v vs IH]; [by exists [] |]. destruct IH as [fs Hfs]; [intros u Hu; apply Hin; by right |].
    destruct (Hin v) as [f Ef]; [by left |]. exists (f :: fs). by constructor. }
  assert (Hsub : zip vs fs ⊆+ map_to_list objs).
  { apply NoDup_submseteq.
    - apply (NoDup_fmap_1 fst). rewrite fst_zip by (by rewrite (Forall2_length _ _ _ Hfs)). done.
    - intros [v f] Hx. apply elem_of_map_to_list. apply list_elem_of_lookup in Hx as [k Hk]. apply lookup_zip_Some in Hk as [L1 L2].
      by apply (Forall2_lookup_lr _ _ _ _ _ _ Hfs L1 L2). }
  split.
  - pose proof (submseteq_length _ _ Hsub) as Hl. rewrite length_map_to_list in Hl. rewrite length_zip_with, (Forall2_length _ _ _ Hfs) in Hl.
    rewrite (Forall2_length _ _ _ Hfs). lia.
  - exists fs. split; [done |]. transitivity (total (fun e => spaceBytes e.2) (zip vs fs)).
    + apply Z.eq_le_incl. clear -Hfs. induction Hfs as [| v f vs fs _ _ IH]; [done |]. cbn [zip_with]. rewrite !total_cons. cbn [snd]. lia.
    + apply total_submseteq; [| done]. intros [v f] Hx%elem_of_map_to_list. by apply (Hpos v).
Qed.

Lemma sumBytes_ok (objs : gmap nat esdm_fragment_t) (vs : list nat) (fs : list esdm_fragment_t) (acc : Z) :
  Forall2 (fun v f => exists f', objs !! v = Some f' /\ data_space (dataspace f') /\ spaceBytes f' = spaceBytes f) vs fs ->
  0 <= acc -> acc + total spaceBytes fs <= INT64_MAX ->
  foldM (fun v ioBytes => f ← deref (objs !! v); b ← esdm_dataspace_total_bytes (dataspace f); chk64 (ioBytes + b)) vs acc = Done (acc + total spaceBytes fs).
Proof.
  intros Hfs. revert acc. induction Hfs as [| v f vs fs (f' & Ef & Hd & Eb) Hfs IH]; intros acc Hacc Hmax; cbn [foldM].
  - f_equal. cbn. lia.
  - rewrite total_cons in *. rewrite Ef. run. destruct (space_bytes_ok (dataspace f') Hd) as [-> Hp]. run. fold (spaceBytes f') in *. rewrite Eb in *.
    assert (0 <= total spaceBytes fs).
    { apply total_nonneg_in. intros g Hg. apply list_elem_of_lookup in Hg as [k Hk]. destruct (Forall2_lookup_r _ _ _ _ _ Hfs Hk) as (u & _ & g' & _ & Hd' & <-).
      pose proof (space_bytes_ok _ Hd') as [_ ?]. unfold spaceBytes. lia. }
    rewrite chk64_ok by (unfold INT64_MIN; lia). run. rewrite IH by lia. f_equal. lia.
Qed.

(** ** The holes *)

Lemma region_facts (w : io_world (B := B) (T := T)) :
  read_ready w -> Forall range_int64 region /\ (0 < length region)%nat /\ volume region <= INT64_MAX.
Proof.
  intros Hw. destruct (extends_int64 sp Hsp) as [Hr _]. split; [done |]. pose proof (length_extends sp (ds_wf _ Hsp)) as Hl.
  pose proof (rr_dims _ Hw) as Hd. split; [lia |]. pose proof (int64_nonempty _ Hr) as Hn. pose proof (ds_bytes _ Hsp) as Hb.
  pose proof (ds_type _ Hsp) as Ht. rewrite (volume_osizes _ Hn). unfold osizes. rewrite (extends_sizes sp Hsp).
  assert (0 < prod (size sp)) by (apply prod_pos, Hsp). nia.
Qed.

(** What a fill value puts at the points without data. *)
Definition holesFilled (w : io_world (B := B) (T := T)) (holes : list Z -> Prop) (m : mem) : Prop :=
  forall p, holes p -> fill_value (w_dataset w) = Some (elementAt sp (seen buf0 m) p).

Lemma coverage_ok (w : io_world (B := B) (T := T)) (uncovered : esdmI_hypercubeSet_t) (m0 : mem) :
  read_ready w -> memory (w_store w) !! buf0.1 = Some m0 -> Forall nonempty (cubes uncovered) ->
  (forall p, covered (cubes uncovered) p -> in_cube p region) ->
  exists ret w', read_coverage floatCast (bool_decide (cubes uncovered = [])) uncovered buf0 sp w = Done (ret, w') /\
  ((ret = ESDM_INCOMPLETE_DATA /\ w' = w /\ cubes uncovered <> [] /\ fill_value (w_dataset w) = None) \/
   (ret = ESDM_SUCCESS /\ exists m, w' = setStore w (Store (objects (w_store w)) (<[buf0.1 := m]> (memory (w_store w))) (disk (w_store w))) /\
    landed buf0 sp (covered (cubes uncovered)) m0 m /\ holesFilled w (covered (cubes uncovered)) m)).
Proof.
  intros Hw Em Hn Hin. unfold read_coverage. case_bool_decide as Hc.
  - eexists _, w. split; [done |]. right. split; [done |]. exists m0. split; [| split; [done |]].
    + unfold setStore. rewrite insert_id by done. by destruct w as [[? ? ?] ? ? ?].
    + intros p (c & Hp & _). rewrite Hc in Hp. by apply elem_of_nil in Hp.
  - unfold esdm_dataspace_get_type, esdm_dataset_get_type, esdm_dataset_get_fill_value.
    rewrite eassert_true by (by apply bool_decide_eq_true, rr_type). run. destruct (fill_value (w_dataset w)) as [value |] eqn:Ev; [| eexists _, w; split; [done |]; by left].
    destruct (enqueue_fill_ok floatCast Hcast buf0 sp Hsp Hinj value (rr_fill _ Hw value Ev) (cubes uncovered) (memory (w_store w)) m0) as (m & E & Hland & Hval); [| done |].
    { apply Forall_forall. intros c Hcc. pose proof (proj1 (Forall_forall _ _) Hn c Hcc) as Hnc. split; [done |]. apply points_inside; [done |].
      intros p Hp. apply Hin. by exists c. }
    unfold esdmI_hypercubeSet_list. rewrite E. run. eexists _, _. split; [done |]. right. split; [done |]. exists m. split; [done |]. split; [done |].
    intros p Hp. by rewrite Hval.
Qed.

(** The state after the holes have been filled. *)
Lemma filled_ready (w : io_world (B := B) (T := T)) (m : mem) :
  read_ready w -> read_ready (setStore w (Store (objects (w_store w)) (<[buf0.1 := m]> (memory (w_store w))) (disk (w_store w)))).
Proof. intros [H1' H2' H3 H4 H5 H6 H7 H8 H9]. constructor; try done. by apply store_user_write. Qed.

(** ** The whole operation *)

(** The fragments keep their shapes; loading can make their layout contiguous. *)
Definition sameShapes (objs objs' : gmap nat esdm_fragment_t) : Prop :=
  forall v f, objs !! v = Some f -> exists f', objs' !! v = Some f' /\ contiguous (dataspace f') = contiguous (dataspace f).

Lemma read_shapes (w1 w2 : io_world (B := B) (T := T)) (vs : list nat) (m : mem) (ret : esdm_status) :
  read_done buf0 sp (fun _ => data) vs w1 m ret w2 -> sameShapes (objects (w_store w1)) (objects (w_store w2)).
Proof.
  intros (_ & _ & Hother & Hkeep & _) v f Ef. destruct (decide (v ∈ vs)) as [Hv | Hv]; [by apply Hkeep |]. exists f. by rewrite Hother.
Qed.

(** What a read leaves: the user's buffer has the data of the dataset, or the fill value where it has
    none. *)
Definition read_result (w : io_world (B := B) (T := T)) (m0 : mem) (ret : esdm_status) (uncovered : esdmI_hypercubeSet_t) (w' : io_world (B := B) (T := T)) : Prop :=
  (forall p, covered (cubes uncovered) p <-> in_cube p region /\ ~ available (objects (w_store w)) region (w_dataset w) p) /\
  store_ok buf0 sp (fun _ => data) (w_store w') /\ w_dataset w' = w_dataset w /\ sameShapes (objects (w_store w)) (objects (w_store w')) /\
  exists m, memory (w_store w') !! buf0.1 = Some m /\ landed buf0 sp (fun _ => True) m0 m /\
  (ret = ESDM_SUCCESS -> forall p, in_cube p region ->
     (available (objects (w_store w)) region (w_dataset w) p /\ elementAt sp (seen buf0 m) p = data p) \/
     (~ available (objects (w_store w)) region (w_dataset w) p /\ fill_value (w_dataset w) = Some (elementAt sp (seen buf0 m) p))).

(** No copy of the data is written back. *)
Definition noWriteback (allowWriteback : bool) (w : io_world (B := B) (T := T)) : Prop :=
  allowWriteback = true -> forall ioBytes, ioBytes <= total (fun e => spaceBytes e.2) (map_to_list (objects (w_store w))) ->
  manyBytes ioBytes (volume region * esdm_sizeof (type sp)) = false.

Abbreviation read_blocking := (esdm_scheduler_read_blocking floatCast junk fzero fle fadd scaled splitFactor qsort manyBytes data_backends threads).

Abbreviation finish := (finish_read floatCast junk fzero fle fadd scaled splitFactor qsort manyBytes data_backends threads).

(** The bytes of the fragments, which keep their shapes. *)
Lemma request_bytes (w : io_world (B := B) (T := T)) (vs : list nat) (objs : gmap nat esdm_fragment_t) :
  read_ready w -> NoDup vs -> (forall v, v ∈ vs -> is_Some (objects (w_store w) !! v)) ->
  (forall v f0, v ∈ vs -> objects (w_store w) !! v = Some f0 ->
     exists f, objs !! v = Some f /\ data_space (dataspace f) /\ contiguous (dataspace f) = contiguous (dataspace f0)) ->
  Z.of_nat (length vs) < 2 ^ 31 /\ exists ioBytes, sumBytes vs objs = Done ioBytes /\
  ioBytes <= total (fun e => spaceBytes e.2) (map_to_list (objects (w_store w))).
Proof.
  intros Hw Hnd Hin Hobj. destruct (objects_bounds (objects (w_store w)) vs Hnd Hin) as (Hlen & fs & Hfs & Htot).
  { intros v f Ef. pose proof (so_fragment _ _ _ _ (rr_store _ Hw) v f Ef) as [Hi _].
    pose proof (space_bytes_ok _ (fr_space _ (fi_ok _ _ _ _ Hi))) as [_ ?]. unfold spaceBytes. lia. }
  split; [pose proof (rr_count _ Hw); lia |]. exists (total spaceBytes fs). split; [| done]. unfold sumBytes.
  rewrite (sumBytes_ok objs vs fs 0); [f_equal; lia | | done | pose proof (rr_bytes _ Hw); lia].
  apply Forall2_same_length_lookup. split; [by eapply Forall2_length |]. intros i v f Ev Ef. pose proof (Forall2_lookup_lr _ _ _ _ _ _ Hfs Ev Ef) as E0.
  destruct (Hobj v f) as (f' & Ef' & Hd & Hc); [by eapply list_elem_of_lookup_2 | done |]. exists f'. split; [done |]. split; [done |].
  destruct (contiguous_shape f' f Hc) as [Ee _]. unfold spaceBytes. rewrite Ee. injection Hc as -> _ _ _. done.
Qed.

(** The operation behind the request. *)
Lemma after_request (w w1 w2 : io_world (B := B) (T := T)) (vs : list nat) (m1 : mem) (ret : esdm_status) (allowWriteback requestIsInternal full : bool)
    (uncovered : esdmI_hypercubeSet_t) :
  read_ready w -> objects (w_store w1) = objects (w_store w) -> noWriteback allowWriteback w ->
  NoDup vs -> (forall v, v ∈ vs -> is_Some (objects (w_store w) !! v)) -> read_done buf0 sp (fun _ => data) vs w1 m1 ret w2 ->
  exists w3,
  (forall writeback, finish writeback vs uncovered full buf0 sp allowWriteback requestIsInternal ret w2 = Done (Some (ret, uncovered, w3))) /\
  w_store w3 = w_store w2 /\ w_dataset w3 = w_dataset w2.
Proof.
  intros Hw Eobj Hwb Hnd Hin (Hs & _ & _ & Hkeep & _).
  destruct (request_bytes w vs (objects (w_store w2)) Hw Hnd Hin) as (_ & ioBytes & Eio & Hle).
  { intros v f0 Hv Ef0. rewrite <- Eobj in Ef0. destruct (Hkeep v f0 Hv Ef0) as (f & Ef & Hc). exists f. split; [done |]. split; [| done].
    apply (so_fragment _ _ _ _ Hs v f Ef). }
  unfold finish_read. destruct (space_bytes_ok sp Hsp) as [-> _]. run. rewrite Eio. run.
  replace (allowWriteback && bool_decide (ret = ESDM_SUCCESS) && full && manyBytes ioBytes (volume region * esdm_sizeof (type sp))) with false.
  - eexists. split; [done |]. done.
  - destruct allowWriteback; [| done]. rewrite (Hwb eq_refl ioBytes Hle). by rewrite andb_false_r.
Qed.

(** The fragments that the dataset returns serve the request. *)
Lemma fragments_serve (w : io_world (B := B) (T := T)) (vs : list nat) (v : nat) :
  read_ready w -> shaped (objects (w_store w)) (length region) vs ->
  (forall v f, v ∈ vs -> objects (w_store w) !! v = Some f -> exists p, in_cube p (extends (dataspace f)) /\ in_cube p region) -> v ∈ vs ->
  exists f, objects (w_store w) !! v = Some f /\ serves sp f /\ forward f /\ forall ptr, buf f = Some ptr -> ptr.1 <> buf0.1.
Proof.
  intros Hw Hsh Hpt Hv. destruct (Hsh v Hv) as (f & Ef & _). destruct (rr_objects _ Hw v f Ef) as (E1 & E2 & Hf & Hp). exists f.
  split; [done |]. split; [constructor; [done | done | by apply (Hpt v)] | done].
Qed.

(** The request behind the coverage check. *)
Definition requested (vs : list nat) (unc : esdmI_hypercubeSet_t) (allowWriteback requestIsInternal : bool) (w1 : io_world (B := B) (T := T))
    (schedule writeback : list choice) : outcome (option (esdm_status * esdmI_hypercubeSet_t * io_world)) :=
  r ← submit floatCast junk fzero fle data_backends threads schedule (esdm_scheduler_enqueue_read vs buf0 sp) w1;
  match r with
  | None => mret None
  | Some (ret, w2) => finish writeback vs unc (bool_decide (cubes unc = [])) buf0 sp allowWriteback requestIsInternal ret w2
  end.

Lemma readRequested_ok (w w1 : io_world (B := B) (T := T)) (vs : list nat) (unc : esdmI_hypercubeSet_t) (m1 : mem) (allowWriteback requestIsInternal : bool) :
  read_ready w -> noWriteback allowWriteback w -> read_ready w1 -> objects (w_store w1) = objects (w_store w) -> memory (w_store w1) !! buf0.1 = Some m1 ->
  NoDup vs -> shaped (objects (w_store w)) (length region) vs ->
  (forall v f, v ∈ vs -> objects (w_store w) !! v = Some f -> exists p, in_cube p (extends (dataspace f)) /\ in_cube p region) ->
  (forall schedule writeback, exists r, requested vs unc allowWriteback requestIsInternal w1 schedule writeback = Done r /\
     forall ret u w', r = Some (ret, u, w') -> u = unc /\ exists w2, read_done buf0 sp (fun _ => data) vs w1 m1 ret w2 /\ w_store w' = w_store w2 /\ w_dataset w' = w_dataset w2) /\
  (exists schedule r, forall writeback, requested vs unc allowWriteback requestIsInternal w1 schedule writeback = Done (Some r)).
Proof.
  intros Hw Hwb Hw1 Eo Em1 Hnd Hsh Hpt.
  assert (Hobjs : forall v, v ∈ vs -> is_Some (objects (w_store w) !! v)) by (intros v Hv; destruct (Hsh v Hv) as (f & -> & _); eauto).
  assert (Hserve : forall v, v ∈ vs -> exists f, objects (w_store w1) !! v = Some f /\ serves sp f /\ forward f /\ forall ptr, buf f = Some ptr -> ptr.1 <> buf0.1).
  { intros v Hv. rewrite Eo. by apply (fragments_serve w vs). }
  assert (Hcount : Z.of_nat (length vs) < 2 ^ 31).
  { destruct (request_bytes w vs (objects (w_store w)) Hw Hnd Hobjs) as [? _]; [| done]. intros v f0 _ Ef0. exists f0.
    pose proof (so_fragment _ _ _ _ (rr_store _ Hw) v f0 Ef0) as [Hi _]. split; [done |]. split; [apply Hi | done]. }
  assert (Hreq : forall schedule, exists r, submit floatCast junk fzero fle data_backends threads schedule (esdm_scheduler_enqueue_read vs buf0 sp) w1 = Done r /\
    forall ret w2, r = Some (ret, w2) -> read_done buf0 sp (fun _ => data) vs w1 m1 ret w2).
  { intros schedule. by apply (read_request_ok floatCast Hcast junk buf0 sp Hsp Hinj (fun _ => data) fzero fle data_backends vs w1 m1 Hnd (rr_store _ Hw1) Em1 Hserve). }
  unfold requested. split.
  - intros schedule writeback. destruct (Hreq schedule) as (r & -> & Hdone). run. destruct r as [[ret w2] |]; [| by eexists].
    destruct (after_request w w1 w2 vs m1 ret allowWriteback requestIsInternal (bool_decide (cubes unc = [])) unc) as (w3 & E3 & Es & Eds); try done; [by apply Hdone |].
    rewrite E3. eexists. split; [done |]. intros ret' u w' [= <- <- <-]. split; [done |]. exists w2. split; [by apply Hdone | done].
  - destruct (read_request_returns floatCast Hcast junk buf0 sp Hsp Hinj (fun _ => data) fzero fle data_backends vs w1 m1 Hnd (rr_store _ Hw1) Em1 Hserve)
      with (threads := threads) as (schedule & ret & w2 & E2); [done | done |].
    destruct (Hreq schedule) as (r & E & Hdone). rewrite E2 in E. injection E as <-.
    destruct (after_request w w1 w2 vs m1 ret allowWriteback requestIsInternal (bool_decide (cubes unc = [])) unc) as (w3 & E3 & _); try done; [by apply Hdone |].
    exists schedule, (ret, unc, w3). intros writeback. rewrite E2. run. apply E3.
Qed.

Lemma read_blocking_ok (w : io_world (B := B) (T := T)) (m0 : mem) (allowWriteback requestIsInternal : bool) :
  read_ready w -> memory (w_store w) !! buf0.1 = Some m0 -> noWriteback allowWriteback w ->
  (forall schedule writeback, exists r, read_blocking schedule writeback buf0 sp allowWriteback requestIsInternal w = Done r /\
     forall ret uncovered w', r = Some (ret, uncovered, w') -> read_result w m0 ret uncovered w') /\
  (exists schedule r, forall writeback, read_blocking schedule writeback buf0 sp allowWriteback requestIsInternal w = Done (Some r)) /\
  (fill_value (w_dataset w) = None -> (exists p, in_cube p region /\ ~ available (objects (w_store w)) region (w_dataset w) p) ->
   exists uncovered, forall schedule writeback, read_blocking schedule writeback buf0 sp allowWriteback requestIsInternal w = Done (Some (ESDM_INCOMPLETE_DATA, uncovered, w))).
Proof.
  intros Hw Em Hwb. destruct (region_facts w Hw) as (Hr & Hpos & Hvol).
  destruct (fragmentsCoveringRegion_ok (objects (w_store w)) (length region) region Hr (rr_key _ Hw) Hpos Hvol (w_dataset w) (rr_dataset _ Hw))
    as (vs & unc & full & Ecov & Hnd & Hsh & (Hset & _ & Hne) & Hfull & Hpt & Hunc & Havail).
  assert (full = bool_decide (cubes unc = [])) as -> by (destruct full; symmetry; [by apply bool_decide_eq_true, Hfull | apply bool_decide_eq_false; intros E; by apply Hfull in E]).
  assert (Hunc' : forall p, covered (cubes unc) p <-> in_cube p region /\ ~ available (objects (w_store w)) region (w_dataset w) p).
  { intros p. rewrite Hunc. split; intros [Hp Hn]; (split; [done |]); by rewrite Havail in *. }
  destruct (coverage_ok w unc m0 Hw Em Hne) as (ret1 & w1 & Ec & Hcase); [intros p Hp; by apply Hunc |].
  assert (Hrun : forall schedule writeback, read_blocking schedule writeback buf0 sp allowWriteback requestIsInternal w =
    if decide (ret1 = ESDM_SUCCESS) then requested vs unc allowWriteback requestIsInternal w1 schedule writeback else mret (Some (ret1, unc, w1))).
  { intros schedule writeback. unfold esdm_scheduler_read_blocking. rewrite getExtends_ok by apply Hsp. run. rewrite Ecov. run. by rewrite Ec. }
  destruct Hcase as [(-> & -> & Hhole & Hnone) | (-> & m1 & E1 & Hland1 & Hfill)].
  - split; [| split].
    + intros schedule writeback. rewrite Hrun. eexists. split; [done |]. intros ret u w' [= <- <- <-]. split; [done |]. split; [apply Hw |]. split; [done |].
      split; [intros v f Ef; by exists f |]. by exists m0.
    + eexists [], _. intros writeback. by rewrite Hrun.
    + intros _ _. exists unc. intros schedule writeback. by rewrite Hrun.
  - assert (Eo : objects (w_store w1) = objects (w_store w)) by (by subst w1).
    destruct (readRequested_ok w w1 vs unc m1 allowWriteback requestIsInternal) as [Hall (schedule & r & Hone)]; try done;
      [subst w1; by apply filled_ready | subst w1; cbn; by rewrite lookup_insert_eq |]. split; [| split].
    + intros schedule' writeback. rewrite Hrun, decide_True by done. destruct (Hall schedule' writeback) as (r' & -> & Hdone). eexists. split; [done |].
      intros ret u w' Er. destruct (Hdone ret u w' Er) as (-> & w2 & Hrd & Es & Ed). pose proof Hrd as (Hs2 & Ed2 & _ & _ & m & Em2 & Hland2 & Hdata).
      split; [done |]. rewrite Es, Ed. split; [done |]. split; [by rewrite Ed2; subst w1 |]. split; [rewrite <- Eo; by eapply read_shapes |]. exists m. split; [done |].
      split; [by eapply landed_trans |]. intros Hret p Hp. destruct (decide (covered (cubes unc) p)) as [Hd | Hd].
      * right. split; [by apply Hunc' |]. rewrite (Hfill p Hd). f_equal. symmetry.
        eapply (landed_element buf0 sp Hsp Hinj); [exact Hland2 | done |]. intros (v & f & Hv & Ef & Hpf). apply Hunc in Hd as [_ Hd]. apply Hd.
        exists v, f. by rewrite <- Eo.
      * left. assert (Hav : inFragments (objects (w_store w)) vs p).
        { destruct (inFragments_dec (objects (w_store w)) vs p) as [| Hn]; [done |]. by destruct Hd; apply Hunc. }
        split; [by apply Havail |]. destruct Hav as (v & f & Hv & Ef & Hpf). apply (Hdata Hret v f p); try done. by rewrite Eo.
    + exists schedule, r. intros writeback. rewrite Hrun, decide_True by done. apply Hone.
    + intros Hnone (p & Hp & Hn). assert (Hc : covered (cubes unc) p) by (by apply Hunc'). specialize (Hfill p Hc). congruence.
Qed.


End Blocking.

(** * An example *)

(** A dataset of 3 x 4 numbers whose first two rows are stored in two fragments; the last row gets the
    fill value. *)
Module Rows.

Definition column (id : nat) (c : Z) : esdm_fragment_t :=
  Fragment (Some (MapFS.ids id)) "dst" (Dataspace SMD_DTYPE_INT16 2 [2; 2] [0; c] false None) (Some 0%nat) None 4 8 SIZE_NONE ESDM_DATA_NOT_LOADED false.

Definition space : esdm_dataspace_t := Dataspace SMD_DTYPE_INT16 2 [3; 4] [0; 0] false None.

Definition dataset : esdm_dataset_t HashList.hashList :=
  Dataset "dst" space (Some [7; 7]) None blockTable [] ESDM_DATA_PERSISTENT ESDM_DATA_PERSISTENT.

Definition objs : gmap nat esdm_fragment_t := {[0%nat := column 0 0; 1%nat := column 1 2]}.

Definition zeroStats : esdm_statistics_t := Statistics 0 0 0 0 0 0.

Definition world : io_world := IoWorld (Store objs {[2%nat := fun a => 0]} (disk blockStore)) dataset zeroStats zeroStats.

Definition data (p : list Z) : list Z :=
  match p with
  | [r; c] => [4 * r + 2 * (c mod 2); 4 * r + 2 * (c mod 2) + 1]
  | _ => []
  end.

Definition buffer : pointer := (2%nat, 0).

Lemma rows_space_ok : data_space space.
Proof. solve_data_space. Qed.

Lemma objs_inv (v : nat) (f : esdm_fragment_t) : objs !! v = Some f -> (v = 0%nat /\ f = column 0 0) \/ (v = 1%nat /\ f = column 1 2).
Proof.
  unfold objs. intros E. apply lookup_insert_Some in E as [[<- <-] | [_ E]]; [by left |]. apply lookup_singleton_Some in E as [<- <-]. by right.
Qed.

Lemma column_ok (id : nat) (c : Z) : 0 <= c <= 2 -> fragment_ok (column id c).
Proof. intros Hc. destruct (blockFragment_ok id c 0 Hc) as [H1 H2 H3 H4 H5]. by constructor. Qed.

Lemma column_content (id : nat) (c : Z) (p : list Z) :
  c = 0 \/ c = 2 -> in_cube p (extends (dataspace (column id c))) -> fileElement (dataspace (column id c)) [0; 1; 2; 3; 4; 5; 6; 7] p = data p.
Proof.
  intros Hc Hp. apply in_cube_cons in Hp as (a & p' & -> & Ha & Hp). apply in_cube_cons in Hp as (b & p'' & -> & Hb & Hp).
  apply in_cube_nil in Hp as ->. unfold in_range in *. simpl in Ha, Hb.
  assert (a = 0 \/ a = 1) as [-> | ->] by lia; assert (b = c \/ b = c + 1) as [-> | ->] by lia; destruct Hc as [-> | ->]; reflexivity.
Qed.

Lemma column_inv (v : nat) (f : esdm_fragment_t) : objs !! v = Some f -> fragment_inv f (memory (w_store world)) (disk (w_store world)) data.
Proof.
  intros [[-> ->] | [-> ->]]%objs_inv; constructor; try done; try (by eexists); try (by apply column_ok);
    (split; [| by intros [? ?]]); eexists _, _; (split; [reflexivity |]); (split; [reflexivity |]); (split; [reflexivity |]); intros p; apply column_content; lia.
Qed.

Lemma rows_ready : read_ready buffer space data world.
Proof.
  assert (Hpos : forall v f, objs !! v = Some f -> buf f = None) by (by intros v f [[-> ->] | [-> ->]]%objs_inv).
  constructor; try done.
  - constructor; try done; [| | |]; cbn [world w_store objects].
    + intros v f Ef. split; [by apply (column_inv v) |]. by apply objs_inv in Ef as [[-> ->] | [-> ->]].
    + intros v f ptr Ef Eb. by rewrite (Hpos v f Ef) in Eb.
    + intros v u f g p q _ Ef _ Eb. by rewrite (Hpos v f Ef) in Eb.
    + intros v u f g key Hne [[-> ->] | [-> ->]]%objs_inv [[-> ->] | [-> ->]]%objs_inv [= <-]; done.
  - destruct blockTable_inv as [Ht Ho]. constructor; [constructor; [exact Ht |] | split; [by repeat constructor | done] | done].
    intros key v [[= -> ->] | [[= -> ->] | []%elem_of_nil]%elem_of_cons]%elem_of_cons.
    + destruct (Ho (extends (dataspace (column 1 2))) 1%nat) as (f & Ef & [K1 K2 K3] & _); [by left |]. vm_compute in Ef. injection Ef as <-. exists (column 1 2). split; [done |]. split; [by constructor | done].
    + destruct (Ho (extends (dataspace (column 0 0))) 0%nat) as (f & Ef & [K1 K2 K3] & _); [by right; left |]. vm_compute in Ef. injection Ef as <-. exists (column 0 0). split; [done |]. split; [by constructor | done].
  - split; [done |]. eexists. vm_compute. reflexivity.
  - intros v f Ef. pose proof (Hpos v f Ef) as Eb. apply objs_inv in Ef as [[-> ->] | [-> ->]]; (split_and!; [done | done | by repeat constructor | congruence]).
  - by intros value [= <-].
Qed.

End Rows.

