(* ===== verification/SchedulerWrite.v ===== *)
(** Writing through the scheduler: under every schedule of the backend threads the cubes of the
    request become fragments of the dataset, and the storage receives their data. *)

From stdpp Require Import gmap.
From S2P Require Import Prelude Hypercube HypercubeSet Json Odometer Memory Dataspace Convert CopyData Partition Split Grid GridTree GridVisit GridRegion GridCover Fragment FragmentState Posix Fragments Request Dataset Scheduler SchedulerRead ReadBlocking.

Open Scope Z_scope.

(** * The fragment of a cube *)

Lemma dot_chain (p o o' t : list Z) : length p = length o -> length o' = length o -> dot p o t = dot p o' t + dot o' o t.
Proof.
  revert o o' t. induction p as [| x p IH]; intros [| y o] [| z o'] [| w t] H1 H2; simpl in *; try lia. rewrite (IH o o' t) by lia. lia.
Qed.

Lemma to_int64_small (z : Z) : 0 <= z <= INT64_MAX -> to_int64 z = z.
Proof.
  intros Hz. assert (Eu : u64 z = z) by (apply Z.mod_small; unfold INT64_MAX in *; lia). unfold to_int64. rewrite Eu. by rewrite (proj2 (Z.leb_le _ _)) by lia.
Qed.

Section Cube.

Context (buf0 : pointer) (sp : esdm_dataspace_t).
Hypothesis Hsp : data_space sp.

(** The part of the user's dataspace that a cube selects. *)
Record selects (c : esdmI_hypercube_t) (sub : esdm_dataspace_t) : Prop := {
  sl_space : data_space sub;
  sl_type : type sub = type sp;
  sl_dims : dims sub = dims sp;
  sl_extends : extends sub = c;
  sl_offset : offset sub = rstart <$> c;
  sl_eff : eff sub = eff sp
}.

Lemma selects_index (c : esdmI_hypercube_t) (sub : esdm_dataspace_t) (p : list Z) :
  selects c sub -> in_cube p c -> index sp p = index sub p + index sp (rstart <$> c).
Proof.
  intros [Hs _ Hd He Ho Hf] Hp. unfold index. rewrite Hf, Ho. apply in_cube_length in Hp. pose proof (wf_offset _ (ds_wf _ Hsp)) as H1.
  pose proof (wf_offset _ (ds_wf _ Hs)) as H2. rewrite Ho, length_fmap in H2. apply dot_chain; rewrite ?length_fmap; lia.
Qed.

(** The layout of the cube, as [esdm_scheduler_enqueue_write()] makes it. *)
Lemma subspace_ok (c : esdmI_hypercube_t) :
  nonempty c -> Forall2 range_inside c (extends sp) ->
  exists s0 sub, esdmI_dataspace_createFromHypercube c (esdm_dataspace_get_type sp) = Done s0 /\
  esdm_dataspace_copyDatalayout s0 sp = Done (ESDM_SUCCESS, sub) /\ selects c sub.
Proof.
  intros Hn Hi. destruct (inside_int64 sp Hsp c Hn Hi) as [H1 H2]. pose proof (cubeSource_ok sp Hsp c Hn Hi) as [Hw H64 Hpos Hoff Ht Hb Hfits].
  pose proof (length_extends sp (ds_wf _ Hsp)) as Hl. pose proof (Forall2_length _ _ _ Hi) as Hlc.
  set (s0 := Dataspace (type sp) (Z.of_nat (length c)) ((fun r => rend r - rstart r) <$> c) (rstart <$> c) false None).
  assert (Hd : dims s0 = dims sp) by (cbn; lia).
  assert (Hw0 : space_wf s0).
  { constructor; cbn; rewrite ?length_fmap; (done || lia). }
  pose proof (sf_count _ (ds_fits _ Hsp)) as Hcount. assert (Hc0 : count_fits s0) by apply (sf_count _ Hfits).
  destruct (copyDatalayout_ok s0 sp Hw0 (ds_wf _ Hsp) Hc0 Hcount Hd) as (sub & E & He & E1 & E2 & E3 & E4 & Hws).
  exists s0, sub. split; [| split; [exact E |]].
  { unfold esdmI_dataspace_createFromHypercube, esdmI_hypercube_dimensions, esdm_dataspace_get_type.
    rewrite eassert_true by (apply Z.geb_le; lia). run. rewrite offsetAndSize_ok by done. by run. }
  assert (Hcs : count_fits sub) by (unfold count_fits; rewrite E3; exact Hc0).
  rewrite (getEffectiveStride_ok sub Hws Hcs), (getEffectiveStride_ok sp (ds_wf _ Hsp) Hcount) in He. injection He as He.
  assert (Hx : extends sub = c) by (rewrite <- (cubeSource_extends sp c); unfold extends; by rewrite E3, E4).
  constructor; try done; [| by rewrite E2]. constructor; rewrite ?E1, ?E3, ?E4; try done.
  - unfold space_int64. rewrite E3, E4. exact H64.
  - apply (space_fits_mono sp); rewrite ?E1, ?E3; [apply Hsp | done | done | by apply Hc0 | | pose proof (ds_type _ Hsp); lia].
    rewrite <- (extends_sizes sp Hsp). cbn [s0 size]. clear -Hi. induction Hi as [| x y c r [Hx1 Hx2] _ IH]; cbn [fmap list_fmap]; constructor; [lia | done].
Qed.

(** The place of the cube in the user's buffer. *)
Lemma cube_pointer (c : esdmI_hypercube_t) : nonempty c -> Forall2 range_inside c (extends sp) ->
  esdm_dataspace_elementOffset sp (rstart <$> c) = Done (index sp (rstart <$> c) * esdm_sizeof (type sp)).
Proof. intros Hn Hi. apply elementOffset_index; [apply Hsp | apply Hsp | apply Hsp |]. by eapply inside_point, nonempty_point. Qed.

Definition cubePointer (c : esdmI_hypercube_t) : pointer := offsetPointer buf0 (index sp (rstart <$> c) * esdm_sizeof (type sp)).

Lemma selects_element (c : esdmI_hypercube_t) (sub : esdm_dataspace_t) (m : mem) (p : list Z) :
  selects c sub -> in_cube p c -> elementAt sub (seen (cubePointer c) m) p = elementAt sp (seen buf0 m) p.
Proof.
  intros Hs Hp. pose proof (selects_index c sub p Hs Hp) as E. unfold elementAt. rewrite (sl_type _ _ Hs). unfold read_bytes. apply list_fmap_ext.
  intros i x _. unfold seen, cubePointer, offsetPointer. cbn [fst snd]. f_equal. nia.
Qed.

(** * A new fragment *)

(** The dataspace is inside the dataset, where that is limited. *)
Definition fitsDataset (datasetSize : list Z) (sub : esdm_dataspace_t) : Prop :=
  length datasetSize = length (size sub) /\
  forall i d s o, datasetSize !! i = Some d -> size sub !! i = Some s -> offset sub !! i = Some o -> d = 0 \/ s + o <= d.

Lemma checkDims_ok (datasetSize : list Z) (sub : esdm_dataspace_t) (k i : nat) :
  data_space sub -> fitsDataset datasetSize sub -> (i + k = length (size sub))%nat ->
  exists l, mapM (create_checkDim datasetSize sub) (seq i k) = Done l.
Proof.
  intros Hs [Hl Hf]. pose proof Hs as [[Hd Hls Hlo _] H64 Hpos _ _ _]. revert i. induction k as [| k IH]; intros i Hi; [by exists [] |].
  cbn [seq]. rewrite mapM_cons. destruct (lookup_lt_is_Some_2 (size sub) i) as [s Es]; [lia |]. destruct (lookup_lt_is_Some_2 (offset sub) i) as [o Eo]; [lia |].
  destruct (lookup_lt_is_Some_2 datasetSize i) as [d Ed]; [lia |]. destruct (IH (S i)) as [l El]; [lia |].
  assert (E : exists u, create_checkDim datasetSize sub i = Done u).
  { unfold create_checkDim. rewrite Es. run. pose proof (Forall_lookup_1 _ _ _ _ Hpos Es) as Hp. cbn beta in Hp.
    rewrite eassert_true by (apply Z.gtb_lt; lia). run. rewrite Ed. run. destruct (Z.eqb_spec d 0) as [-> | Hne]; [by eexists |].
    rewrite Eo. run. destruct (Forall2_lookup_lr _ _ _ _ _ _ H64 Eo Es) as (B1 & B2 & B3 & B4). rewrite chk64_ok by lia. run.
    rewrite eassert_true by (apply Z.leb_le; destruct (Hf i d s o Ed Es Eo); lia). by eexists. }
  destruct E as [u ->]. run. rewrite El. run. by eexists.
Qed.

(** The fragment for a cube that selects a part of the user's buffer. *)
Record newFragment (did : string) (c : esdmI_hypercube_t) (f : esdm_fragment_t) : Prop := {
  nf_id : id f = None;
  nf_dataset : datasetId f = did;
  nf_space : selects c (dataspace f);
  nf_buf : buf f = Some (cubePointer c);
  nf_bytes : bytes f = prod (size (dataspace f)) * esdm_sizeof (type (dataspace f));
  nf_plain : actual_bytes f = SIZE_NONE;
  nf_status : status f = ESDM_DATA_DIRTY;
  nf_owns : ownsBuf f = false
}.

(** What [esdmI_fragment_create()] makes of a dataspace. *)
Definition createdFragment (did : string) (sub : esdm_dataspace_t) (b : option pointer) : esdm_fragment_t :=
  Fragment None did (Dataspace (type sub) (dims sub) (size sub) (offset sub) false (stride sub)) None b (prod (size sub))
    (prod (size sub) * esdm_sizeof (type sub)) SIZE_NONE (if b is Some _ then ESDM_DATA_DIRTY else ESDM_DATA_NOT_LOADED) false.

Lemma fragment_created (did : string) (datasetSize : list Z) (sub : esdm_dataspace_t) (b : option pointer) :
  data_space sub -> fitsDataset datasetSize sub -> esdmI_fragment_create did datasetSize sub b = Done (createdFragment did sub b).
Proof.
  intros Hds Hf. pose proof Hds as [Hw H64 Hpos Hoff Hty Hb]. pose proof Hw as [Hd0 Hls Hlo Hst].
  unfold esdmI_fragment_create. destruct (checkDims_ok datasetSize sub (Z.to_nat (dims sub)) 0 Hds Hf) as [l ->]; [lia |]. run.
  pose proof (prod_pos _ Hpos) as Hp. unfold esdm_dataspace_element_count. rewrite memdup_ok by done. run.
  rewrite element_count_loop by (unfold INT64_MAX in *; nia || done). rewrite Z.mul_1_l.
  assert (Eu : u64 (prod (size sub) * esdm_sizeof (type sub)) = prod (size sub) * esdm_sizeof (type sub)).
  { apply Z.mod_small. unfold INT64_MAX in *. nia. }
  assert (E64 : to_int64 (prod (size sub) * esdm_sizeof (type sub)) = prod (size sub) * esdm_sizeof (type sub)).
  { apply to_int64_small. nia. }
  rewrite E64, Eu. unfold esdm_dataspace_copy. rewrite !memdup_ok by done. run.
  assert (Ecopy : exists st, match stride sub with Some s => s' ← memdup s (dims sub); mret (Some s') | None => mret None end = Done st /\ st = stride sub).
  { destruct (stride sub) as [s |] eqn:Es; [| by eexists]. rewrite memdup_ok by (by apply Hst). run. by eexists. }
  destruct Ecopy as (st & -> & ->). by run.
Qed.

Lemma created_new (did : string) (c : esdmI_hypercube_t) (sub : esdm_dataspace_t) :
  selects c sub -> newFragment did c (createdFragment did sub (Some (cubePointer c))).
Proof.
  intros [Hds Ht Hd He Ho Hef]. pose proof Hds as [[Hd0 Hls Hlo Hst] H64 Hpos Hoff Hty Hb [? ? ? ? ?]].
  assert (Hsub : data_space (Dataspace (type sub) (dims sub) (size sub) (offset sub) false (stride sub))) by (by constructor).
  unfold createdFragment. by constructor; try constructor.
Qed.

End Cube.

(** * Adding a fragment to the dataset *)

Section Create.

Context {T : Type} `{GHashTableLaws T} (buf0 : pointer) (sp : esdm_dataspace_t) (n : nat).
Hypothesis Hsp : data_space sp.

(** The fragment for a dataspace exists or is added. *)
Lemma createFragment_added (d : esdm_dataset_t T) (objs : gmap nat esdm_fragment_t) (sub : esdm_dataspace_t) (b : option pointer) :
  fragments_inv n (dset_fragments d) objs -> key_ok n (extends sub) -> data_space sub -> dims sub = dims sp -> fitsDataset (size (dset_space d)) sub -> sizes_fit sp d ->
  exists v isNew d' objs', esdmI_dataset_createFragment d objs sub b = Done (v, isNew, d', objs') /\
  ((isNew = false /\ d' = d /\ objs' = objs /\ (extends sub, v) ∈ g_hash_table_entries (dset_fragments d)) \/
   (isNew = true /\ objs !! v = None /\ sameDataset d d' /\ sizes_fit sp d' /\
    g_hash_table_entries (dset_fragments d') ≡ₚ ((extends sub, v) :: g_hash_table_entries (dset_fragments d)) /\
    objs' = <[v := createdFragment (dset_id d) sub b]> objs /\ fragments_inv n (dset_fragments d') objs')).
Proof.
  intros Hinv Hkey Hds Hd Hf Hfit. pose proof Hds as [Hw H64 Hpos Hoff Hty Hb]. unfold esdmI_dataset_createFragment, esdmI_dataset_lookupFragmentForShape.
  rewrite getExtends_ok by done. run. destruct (lookupForShape_ok n (dset_fragments d) objs (extends sub) Hinv Hkey) as (r & -> & Hr). run.
  destruct r as [v |].
  { destruct Hr as (f & _ & _ & Hin). eexists v, false, d, objs. split; [done |]. by left. }
  rewrite fragment_created by done. run. set (f := createdFragment (dset_id d) sub b). assert (Hfs : data_space (dataspace f)) by (destruct Hw, ds_fits; by constructor).
  destruct (update_actual_size_ok sp d f Hfit Hfs Hd) as (d1 & -> & Hsame & Et & Hfit1 & _). run. set (v := fresh (dom objs)).
  assert (Hv : objs !! v = None) by (apply not_elem_of_dom, is_fresh).
  assert (Hinv1 : fragments_inv n (dset_fragments d1) (<[v := f]> objs)) by (rewrite Et; eapply fragments_inv_mono; [done | by apply insert_subseteq]).
  assert (Hvn : v ∉ (g_hash_table_entries (dset_fragments d1)).*2).
  { rewrite Et. intros ([key u] & Eu & Hin)%list_elem_of_fmap. cbn [snd] in Eu. subst u. destruct (fs_objects _ _ _ Hinv key v Hin) as (g & Eg & _). congruence. }
  unfold esdmI_dataset_register_fragment.
  destruct (fragments_add_ok n (dset_fragments d1) (<[v := f]> objs) v f Hinv1) as (st & t' & -> & Hinv2 & Hcase); [apply lookup_insert_eq | by constructor; try apply Hfs | done |].
  change (extends (dataspace f)) with (extends sub) in Hcase. rewrite Et in Hcase. run. destruct Hcase as [(-> & _ & Hp) | (-> & Hin & _)]; [| done].
  rewrite decide_True by done. run. rewrite eassert_true by (by apply bool_decide_eq_true). run. eexists v, true, _, _. split; [done |]. by right.
Qed.

(** The fragment for a cube of the user's buffer exists or is added. *)
Lemma createFragment_ok (d : esdm_dataset_t T) (objs : gmap nat esdm_fragment_t) (c : esdmI_hypercube_t) (sub : esdm_dataspace_t) :
  fragments_inv n (dset_fragments d) objs -> key_ok n c -> selects sp c sub -> fitsDataset (size (dset_space d)) sub -> sizes_fit sp d ->
  exists v isNew d' objs', esdmI_dataset_createFragment d objs sub (Some (cubePointer buf0 sp c)) = Done (v, isNew, d', objs') /\
  ((isNew = false /\ d' = d /\ objs' = objs /\ (c, v) ∈ g_hash_table_entries (dset_fragments d)) \/
   (isNew = true /\ objs !! v = None /\ sameDataset d d' /\ sizes_fit sp d' /\
    g_hash_table_entries (dset_fragments d') ≡ₚ ((c, v) :: g_hash_table_entries (dset_fragments d)) /\
    exists f, newFragment buf0 sp (dset_id d) c f /\ backend f = None /\ objs' = <[v := f]> objs /\ fragments_inv n (dset_fragments d') objs')).
Proof.
  intros Hinv Hkey Hs Hf Hfit. pose proof (sl_extends _ _ _ Hs) as He.
  destruct (createFragment_added d objs sub (Some (cubePointer buf0 sp c)) Hinv) as (v & isNew & d' & objs' & E & Hcase); [by rewrite He | apply Hs | apply Hs | done | done |].
  rewrite He in Hcase. exists v, isNew, d', objs'. split; [done |]. destruct Hcase as [? | (-> & Hv & H1 & H2 & H3 & -> & H4)]; [by left | right].
  repeat (split; [done |]). eexists. split; [by apply created_new |]. done.
Qed.

End Create.

(** * The request *)

Section Writing.

Context (floatCast : esdm_type_t -> esdm_type_t -> list Z -> list Z) (junk : mem) {B : Type} `{DataBackendLaws B} {T : Type} `{GHashTableLaws T}.
Context {F : Type} (fzero : F) (fle : F -> F -> bool) (data_backends : list (data_backend (F := F))).

(** The user's buffer, the region to write and the data of the dataset. *)
Context (buf0 : pointer) (sp : esdm_dataspace_t) (data : content_t) (n : nat).
Hypothesis Hsp : data_space sp.

(** The fragments have the data of the dataset; those that are being written use the user's buffer. *)
Record writing_ok (s : store B) : Prop := {
  wo_fragment : forall v f, objects s !! v = Some f -> fragment_inv f (memory s) (disk s) data /\ status f <> ESDM_DATA_DELETED;
  wo_user : forall v f ptr, objects s !! v = Some f -> buf f = Some ptr -> ptr.1 = buf0.1 -> ownsBuf f = false;
  wo_apart : forall v w f g p q, v <> w -> objects s !! v = Some f -> objects s !! w = Some g -> buf f = Some p -> buf g = Some q ->
    p.1 = q.1 -> p.1 = buf0.1;
  wo_keys : forall v w f g key, v <> w -> objects s !! v = Some f -> objects s !! w = Some g -> status f <> ESDM_DATA_DIRTY -> status g <> ESDM_DATA_DIRTY ->
    keyOf f = Some key -> keyOf g <> Some key;
  wo_disk : backend_inv (disk s)
}.

(** A fragment while memory is only added and its entry of the storage stays. *)
Lemma fragment_mono (g : esdm_fragment_t) (h h' : heap) (b b' : B) :
  fragment_inv g h b data -> h ⊆ h' -> (forall key file, stored b key = Some file -> stored b' key = Some file) -> fragment_inv g h' b' data.
Proof.
  intros [Hok Hbk Hbuf Hown Hc] Hsub Hst.
  assert (Hmem : inMemory g h data -> inMemory g h' data).
  { intros (q & m & Eq & Em & Hp). exists q, m. split; [done |]. split; [by eapply lookup_weaken | done]. }
  assert (Hsto : inStorage g b data -> inStorage g b' data).
  { intros (key & file & Ek & Es & ?). exists key, file. split; [done |]. split; [by apply Hst | done]. }
  constructor; try done.
  - intros q Eq. destruct (Hbuf q Eq) as [m Em]. exists m. by eapply lookup_weaken.
  - unfold hasContent in *. destruct (status g); [| by apply Hmem | | done]; destruct Hc; auto.
Qed.

(** A fragment that has its data in storage has its key there. *)
Lemma stored_key (g : esdm_fragment_t) (h : heap) (b : B) (key : storageKey) :
  fragment_inv g h b data -> status g <> ESDM_DATA_DELETED -> status g <> ESDM_DATA_DIRTY -> keyOf g = Some key -> exists file, stored b key = Some file.
Proof.
  intros [_ _ _ _ Hc] Hd Hn Ek. unfold hasContent in Hc.
  destruct (status g); try done; [destruct Hc as [(key' & file & Ek' & Es & _) _] | destruct Hc as [_ (key' & file & Ek' & Es & _)]]; rewrite Ek in Ek'; injection Ek' as <-; eauto.
Qed.

(** ** The task of a new fragment *)

Definition writeTask (v k : nat) : io_work_t := IoWork v ESDM_OP_WRITE (Some buffer_cleanup) None None k.

Lemma new_valid (did : string) (c : esdmI_hypercube_t) (f : esdm_fragment_t) :
  valid_id did -> (forall k, backend f = Some k -> valid_backend k) -> newFragment buf0 sp did c f -> fragment_ok f.
Proof. intros Hid Hvb [N1 N2 N3 N4 N5 N6 N7 N8]. constructor; try done; [by rewrite N2 | by rewrite N1 | apply N3]. Qed.

Lemma write_task_ok (s : store B) (v k : nat) (did : string) (c : esdmI_hypercube_t) (f : esdm_fragment_t) :
  writing_ok s -> objects s !! v = Some f -> newFragment buf0 sp did c f -> backend f = Some k ->
  exists ret s' f', backend_thread floatCast junk (writeTask v k) s = Done (ret, s') /\ writing_ok s' /\ memory s ⊆ memory s' /\
  objects s' = <[v := f']> (objects s) /\ dataspace f' = dataspace f /\
  (ret = ESDM_SUCCESS -> status f' = ESDM_DATA_NOT_LOADED /\ buf f' = None).
Proof.
  intros Hs Ef Hnew Ek. pose proof Hs as [S1 S2 S3 S4 S5]. destruct (S1 v f Ef) as [Hi Hd]. pose proof Hnew as [N1 N2 N3 N4 N5 N6 N7 N8].
  assert (Hkey : keyOf f = None) by (unfold keyOf; by rewrite Ek, N1).
  unfold backend_thread, writeTask. cbn [work_fragment work_op work_callback work_backend]. rewrite Ef. run. rewrite bool_decide_true by done. cbn [eassert]. run.
  destruct (commit_ok f (memory s) (disk s) data Hi S5 N7) as (st & f1 & h1 & b1 & -> & Hev & B1 & B2 & B3 & Hsub & Hst). run.
  assert (Hkept : forall key file, stored (disk s) key = Some file -> stored b1 key = Some file) by (intros key file; by apply (ev_kept _ _ _ _ _ _ _ Hev)).
  assert (Hgen : forall f2, fragment_inv f2 h1 b1 data -> status f2 <> ESDM_DATA_DELETED -> ownsBuf f2 = false ->
     (forall ptr, buf f2 = Some ptr -> ptr.1 = buf0.1) ->
     (status f2 <> ESDM_DATA_DIRTY -> forall key, keyOf f2 = Some key -> stored (disk s) key = None) ->
     writing_ok (Store (<[v := f2]> (objects s)) h1 b1)).
  { intros f2 Hi2 Hd2 Ho2 Hb2 Hk2.
    assert (Hlook : forall u g, <[v := f2]> (objects s) !! u = Some g -> (u = v /\ g = f2) \/ (u <> v /\ objects s !! u = Some g)).
    { intros u g [[<- <-] | [Hne E]]%lookup_insert_Some; [by left | by right]. }
    constructor; cbn [objects memory disk].
    - intros u g [[-> ->] | [Hne Eg]]%Hlook; [done |]. destruct (S1 u g Eg) as [Hg ?]. split; [by eapply fragment_mono | done].
    - intros u g ptr [[-> ->] | [Hne Eg]]%Hlook; [done | by apply (S2 u)].
    - intros u x g g' p q Hne [[-> ->] | [Hu Eg]]%Hlook [[-> ->] | [Hx Eg']]%Hlook; [done | intros; by apply Hb2 | | by apply (S3 u x g g')].
      intros _ Eq E. rewrite E. by apply Hb2.
    - intros u x g g' key Hne [[-> ->] | [Hu Eg]]%Hlook [[-> ->] | [Hx Eg']]%Hlook Hn1 Hn2 E1 E2; [done | | | by apply (S4 u x g g' key)].
      + destruct (stored_key g' (memory s) (disk s) key) as [file Es]; [by apply (S1 x) | by apply (S1 x) | done | done |].
        by rewrite (Hk2 Hn1 key E1) in Es.
      + destruct (stored_key g (memory s) (disk s) key) as [file Es]; [by apply (S1 u) | by apply (S1 u) | done | done |].
        by rewrite (Hk2 Hn2 key E2) in Es.
    - apply Hev. }
  assert (Huser : forall ptr, buf f1 = Some ptr -> ptr.1 = buf0.1) by (intros ptr; rewrite B1, N4; by intros [= <-]).
  unfold buffer_cleanup_callback. cbn [work_fragment objects memory disk]. destruct (decide (st = ESDM_SUCCESS)) as [Hret | Hret].
  - rewrite lookup_insert_eq. run. unfold esdm_fragment_unload. rewrite Hst.
    destruct (unload_persistent_ok f1 h1 b1 data) as (f2 & h2 & -> & Hev2 & Ef2 & Hh2); [apply Hev | apply Hev | done |]. run.
    rewrite Hh2 in * by congruence. eexists _, _, f2. split; [done |]. rewrite insert_insert_eq. split; [| split; [done |]; split; [done |]; split; [by rewrite Ef2 | by rewrite Ef2]].
    apply Hgen; try by rewrite Ef2.
    + apply Hev2.
    + intros _ key. rewrite Ef2. change (keyOf (withStatus (withBuf f1 None false) ESDM_DATA_NOT_LOADED)) with (keyOf f1).
      apply (ev_fresh _ _ _ _ _ _ _ Hev); [done | by rewrite Hst].
  - run. eexists _, _, f1. split; [done |]. split; [| split; [done |]; split; [done |]; split; [done | done]].
    apply Hgen; [apply Hev | by rewrite Hst | congruence | done |]. by rewrite Hst.
Qed.

(** ** Preparing a cube *)

Abbreviation prepare := (prepare_item (B := B) (T := T) fzero fle data_backends).
Abbreviation perform := (perform_work floatCast junk (B := B) (T := T)).

(** The dataset and its fragments while cubes are added. *)
Record growing_ok (w : io_world (B := B) (T := T)) : Prop := {
  go_store : writing_ok (w_store w);
  go_table : fragments_inv n (dset_fragments (w_dataset w)) (objects (w_store w));
  go_sizes : sizes_fit sp (w_dataset w);
  go_id : valid_id (dset_id (w_dataset w));
  go_fits : fitsDataset (size (dset_space (w_dataset w))) sp
}.

(** A cube of the region. *)
Definition cube_ok (c : esdmI_hypercube_t) : Prop := nonempty c /\ Forall2 range_inside c (extends sp) /\ key_ok n c.

Lemma part_fits (datasetSize : list Z) (c : esdmI_hypercube_t) (sub : esdm_dataspace_t) :
  fitsDataset datasetSize sp -> Forall2 range_inside c (extends sp) -> dims sub = dims sp -> data_space sub ->
  size sub = (fun r => rend r - rstart r) <$> c -> offset sub = rstart <$> c -> fitsDataset datasetSize sub.
Proof.
  intros [Hl Hf] Hi Hd Hs Hsz Ho. pose proof (wf_size _ (ds_wf _ Hs)) as L1. pose proof (wf_size _ (ds_wf _ Hsp)) as L2.
  split; [lia |]. intros i d s o Ed Es Eo. rewrite Hsz, list_lookup_fmap in Es. rewrite Ho, list_lookup_fmap in Eo.
  destruct (c !! i) as [r |] eqn:Er; [| done]. cbn in Es, Eo. injection Es as <-. injection Eo as <-.
  destruct (Forall2_lookup_l _ _ _ _ _ Hi Er) as (r' & Er' & [Hr1 Hr2]). unfold extends in Er'. apply lookup_zip_with_Some in Er' as (o' & s' & -> & Eo' & Es').
  cbn [rstart rend] in *. destruct (Hf i d s' o' Ed Es' Eo'); [by left | right; lia].
Qed.

Lemma cube_fits (datasetSize : list Z) (c : esdmI_hypercube_t) (sub : esdm_dataspace_t) :
  fitsDataset datasetSize sp -> cube_ok c -> selects sp c sub -> size sub = (fun r => rend r - rstart r) <$> c -> fitsDataset datasetSize sub.
Proof. intros Hf (_ & Hi & _) [Hs Ht Hd He Ho _] Hsz. by eapply part_fits. Qed.

(** The fragment of the cube, with the backend it goes to. *)
Definition withBackend (f : esdm_fragment_t) (k : nat) : esdm_fragment_t :=
  Fragment (id f) (datasetId f) (dataspace f) (Some k) (buf f) (elements f) (bytes f) (actual_bytes f) (status f) (ownsBuf f).

Lemma newFragment_backend (did : string) (c : esdmI_hypercube_t) (f : esdm_fragment_t) (k : nat) :
  newFragment buf0 sp did c f -> newFragment buf0 sp did c (withBackend f k).
Proof. intros [N1 N2 N3 N4 N5 N6 N7 N8]. by constructor. Qed.

Lemma writing_new (s : store B) (v k : nat) (did : string) (c : esdmI_hypercube_t) (f : esdm_fragment_t) (m : mem) :
  writing_ok s -> objects s !! v = None -> valid_id did -> newFragment buf0 sp did c f -> backend f = Some k -> valid_backend k -> memory s !! buf0.1 = Some m ->
  (forall p, in_cube p c -> elementAt sp (seen buf0 m) p = data p) -> writing_ok (Store (<[v := f]> (objects s)) (memory s) (disk s)).
Proof.
  intros [S1 S2 S3 S4 S5] Ev Hid Hnew Ek Hk Em Hdata. pose proof (new_valid did c f Hid ltac:(congruence) Hnew) as Hok. pose proof Hnew as [N1 N2 N3 N4 N5 N6 N7 N8].
  assert (Hlook : forall u g, <[v := f]> (objects s) !! u = Some g -> (u = v /\ g = f) \/ (u <> v /\ objects s !! u = Some g)).
  { intros u g [[<- <-] | [Hne E]]%lookup_insert_Some; [by left | by right]. }
  assert (Huser : forall ptr, buf f = Some ptr -> ptr.1 = buf0.1) by (rewrite N4; by intros ptr [= <-]).
  constructor; cbn [objects memory disk]; try done.
  - intros u g [[-> ->] | [Hne Eg]]%Hlook; [| by apply (S1 u)]. split; [| by rewrite N7]. constructor; [done | by eexists | | by rewrite N8 |].
    + intros ptr E. rewrite (Huser ptr E). eauto.
    + unfold hasContent. rewrite N7. exists (cubePointer buf0 sp c), m. split; [done |]. split; [exact Em |]. intros p Hp.
      rewrite (sl_extends _ _ _ N3) in Hp. rewrite (selects_element buf0 sp Hsp c); [by apply Hdata | done | done].
  - intros u g ptr [[-> ->] | [Hne Eg]]%Hlook; [done | by apply (S2 u)].
  - intros u x g g' p q Hne [[-> ->] | [Hu Eg]]%Hlook [[-> ->] | [Hx Eg']]%Hlook; [done | intros; by apply Huser | | by apply (S3 u x g g')].
    intros _ Eq E. rewrite E. by apply Huser.
  - intros u x g g' key Hne [[-> ->] | [Hu Eg]]%Hlook [[-> ->] | [Hx Eg']]%Hlook; [done | by rewrite N7 | by rewrite N7 | by apply (S4 u x g g')].
Qed.

Lemma enqueue_cube_ok (w : io_world (B := B) (T := T)) (c : esdmI_hypercube_t) (k : nat) (internal : bool) (m : mem) :
  growing_ok w -> cube_ok c -> valid_backend k -> memory (w_store w) !! buf0.1 = Some m -> (forall p, in_cube p c -> elementAt sp (seen buf0 m) p = data p) ->
  exists v cs w', prepare (WriteItem c k buf0 sp internal) w = Done (cs, w') /\ growing_ok w' /\ memory (w_store w') = memory (w_store w) /\
  sameDataset (w_dataset w) (w_dataset w') /\ (c, v) ∈ g_hash_table_entries (dset_fragments (w_dataset w')) /\
  ((cs = [] /\ w' = w) \/
   (cs = [AddPending 1; Push (writeTask v k)] /\ objects (w_store w) !! v = None /\
    (exists f, objects (w_store w') = <[v := f]> (objects (w_store w)) /\ newFragment buf0 sp (dset_id (w_dataset w)) c f /\ backend f = Some k) /\
    g_hash_table_entries (dset_fragments (w_dataset w')) ≡ₚ ((c, v) :: g_hash_table_entries (dset_fragments (w_dataset w))))).
Proof.
  intros [G1 G2 G3 G4 G5] Hc Hk Em Hdata. pose proof Hc as (Hn & Hi & Hkey). cbn [prepare_item]. unfold enqueue_write_cube.
  destruct (inside_int64 sp Hsp c Hn Hi) as [H64 _]. rewrite offsetAndSize_ok by done. run.
  destruct (subspace_ok sp Hsp c Hn Hi) as (s0 & sub & E0 & E1 & Hsel). rewrite E0. run. rewrite E1. run.
  rewrite eassert_true by (by apply bool_decide_eq_true). run. rewrite (cube_pointer sp Hsp c Hn Hi). run. fold (cubePointer buf0 sp c).
  assert (Hsz : size sub = (fun r => rend r - rstart r) <$> c).
  { pose proof (extends_sizes sub (sl_space _ _ _ Hsel)) as E. by rewrite (sl_extends _ _ _ Hsel) in E. }
  destruct (createFragment_ok buf0 sp n (w_dataset w) (objects (w_store w)) c sub G2 Hkey Hsel (cube_fits _ c sub G5 Hc Hsel Hsz) G3) as (v & isNew & d' & objs' & -> & Hcase).
  run. destruct Hcase as [(-> & -> & -> & Hin) | (-> & Hv & Hsame & Hfit & Hp & f & Hnew & Ebk & -> & Hinv)]; cbn [negb].
  - exists v, [], w. split; [run; by destruct w as [[? ? ?] ? ? ?] |]. split; [done |]. split; [done |]. split; [by repeat split |]. split; [done |]. by left.
  - rewrite lookup_insert_eq. run. unfold esdmI_scheduler_writeFragmentNonblocking, setStore, setObject. cbn [w_store objects memory disk w_dataset w_readStats w_writeStats].
    rewrite !lookup_insert_eq. run. cbn [Fragment.backend Fragment.dataspace]. run.
    destruct (space_bytes_ok (dataspace f)) as [-> _]; [apply (nf_space _ _ _ _ _ Hnew) |]. run. rewrite !insert_insert_eq. fold (withBackend f k).
    pose proof (newFragment_backend _ _ _ k Hnew) as Hnew'. eexists v, _, _. split; [done |]. cbn [w_store objects memory disk w_dataset].
    split; [| split; [done |]; split; [done |]; split; [rewrite Hp; by left |]; right; split; [done |]; split; [done |]; split; [by eexists | done]].
    destruct Hsame as (Es1 & Es2 & Es3 & Es4). constructor; cbn [w_store objects memory disk w_dataset]; try done.
    + by apply (writing_new (w_store w) v k (dset_id (w_dataset w)) c (withBackend f k) m).
    + rewrite <- (insert_insert_eq _ v (withBackend f k) f). eapply fragments_inv_replace; [done | apply lookup_insert_eq | done].
    + by rewrite Es1.
    + by rewrite Es2.
Qed.

(** ** The invariant of the request *)

(** The cubes with their backends, the world and the user's memory before the request. *)
Context (cks : list (esdmI_hypercube_t * nat)) (internal : bool) (w0 : io_world (B := B) (T := T)) (m0 : mem).
Hypothesis Hcubes : Forall (fun e => cube_ok e.1 /\ valid_backend e.2) cks.
Hypothesis Hgrow0 : growing_ok w0.
Hypothesis Hmem0 : memory (w_store w0) !! buf0.1 = Some m0.
Hypothesis Hdata0 : forall p, in_cube p (extends sp) -> elementAt sp (seen buf0 m0) p = data p.

Definition writeItems : list io_item := (fun e => WriteItem e.1 e.2 buf0 sp internal) <$> cks.

Abbreviation entriesOf := (fun w : io_world (B := B) (T := T) => g_hash_table_entries (dset_fragments (w_dataset w))).

(** The fragment of a task: untouched before the task is performed, stored after a success. *)
Definition task_fragment (ev : list (event (Q := io_item) (T := io_work_t))) (w : io_world (B := B) (T := T)) (i : nat) (t : io_work_t) : Prop :=
  exists v k c f, t = writeTask v k /\ objects (w_store w0) !! v = None /\ objects (w_store w) !! v = Some f /\ selects sp c (dataspace f) /\
  (i ∉ (results ev).*1 -> newFragment buf0 sp (dset_id (w_dataset w0)) c f /\ backend f = Some k) /\
  ((i, ESDM_SUCCESS) ∈ results ev -> status f = ESDM_DATA_NOT_LOADED /\ buf f = None).

Record write_inv (ev : list (event (Q := io_item) (T := io_work_t))) (w : io_world) : Prop := {
  wi_grow : growing_ok w;
  wi_memory : memory (w_store w0) ⊆ memory (w_store w);
  wi_old : forall v f, objects (w_store w0) !! v = Some f -> objects (w_store w) !! v = Some f;
  wi_same : sameDataset (w_dataset w0) (w_dataset w);
  wi_length : (length (preparedItems ev) <= length cks)%nat;
  wi_entries : forall e, e ∈ entriesOf w0 -> e ∈ entriesOf w;
  wi_keys : forall e, e ∈ entriesOf w -> e ∈ entriesOf w0 \/ e.1 ∈ cks.*1;
  wi_count : (length (entriesOf w) <= length (entriesOf w0) + length (preparedItems ev))%nat;
  wi_prepared : forall j e, cks !! j = Some e -> (j < length (preparedItems ev))%nat -> e.1 ∈ (entriesOf w).*1;
  wi_task : forall i t, submitted ev !! i = Some t -> task_fragment ev w i t;
  wi_new : forall v f, objects (w_store w) !! v = Some f -> objects (w_store w0) !! v = None -> exists i t, submitted ev !! i = Some t /\ work_fragment t = v;
  wi_once : forall i j t t', submitted ev !! i = Some t -> submitted ev !! j = Some t' -> work_fragment t = work_fragment t' -> i = j;
  wi_results : forall i, i ∈ (results ev).*1 -> (i < length (submitted ev))%nat
}.

Lemma write_inv_start : write_inv [] w0.
Proof.
  constructor; try done.
  - simpl. lia.
  - auto.
  - simpl. lia.
  - intros j e _ Hj. simpl in Hj. lia.
  - intros v f E1 E2. congruence.
  - by intros i ?%elem_of_nil.
Qed.

Lemma cube_data (c : esdmI_hypercube_t) (m : mem) (p : list Z) : cube_ok c -> m = m0 -> in_cube p c -> elementAt sp (seen buf0 m) p = data p.
Proof. intros (_ & Hi & _) -> Hp. apply Hdata0. by eapply inside_point. Qed.

Lemma write_prepare (ev : list event) (w : io_world) (q : io_item) :
  write_inv ev w -> writeItems !! length (preparedItems ev) = Some q ->
  exists cs w', prepare q w = Done (cs, w') /\ write_inv (ev ++ [Prepared q cs]) w'.
Proof.
  intros [R1 R2 R3 R4 R5 R6 R7 R8 R9 R10 R11 R12 R13] Eq. unfold writeItems in Eq. rewrite list_lookup_fmap in Eq.
  destruct (cks !! length (preparedItems ev)) as [[c k] |] eqn:Ec; [| discriminate Eq]. injection Eq as <-. cbn [fst snd].
  pose proof (Forall_lookup_1 _ _ _ _ Hcubes Ec) as [Hc Hk]. cbn [fst snd] in Hc, Hk. pose proof (lookup_lt_Some _ _ _ Ec) as Hlt.
  assert (Em : memory (w_store w) !! buf0.1 = Some m0) by (by eapply lookup_weaken).
  destruct (enqueue_cube_ok w c k internal m0 R1 Hc Hk Em) as (v & cs & w' & E & Hg & Emem & Hsame & Hin & Hcase); [intros p; by apply cube_data |].
  exists cs, w'. split; [exact E |]. set (q := WriteItem c k buf0 sp internal).
  assert (Eres : results (ev ++ [Prepared q cs]) = results ev) by (rewrite results_app; apply app_nil_r).
  assert (Eprep : length (preparedItems (ev ++ [Prepared q cs])) = S (length (preparedItems ev))) by (rewrite preparedItems_app, length_app; cbn; lia).
  assert (Esub : submitted (ev ++ [Prepared q cs]) = submitted ev ++ pushed cs) by (rewrite submitted_app; f_equal; apply app_nil_r).
  assert (Hkeys : forall e, e ∈ entriesOf w' -> e ∈ entriesOf w \/ e = (c, v)).
  { destruct Hcase as [(_ & ->) | (_ & _ & _ & Hp)]; [by left |]. intros e. rewrite Hp, elem_of_cons. tauto. }
  assert (Hmono : forall e, e ∈ entriesOf w -> e ∈ entriesOf w').
  { destruct Hcase as [(_ & ->) | (_ & _ & _ & Hp)]; [done |]. intros e He. rewrite Hp. by right. }
  assert (Hobj : forall u g, objects (w_store w) !! u = Some g -> objects (w_store w') !! u = Some g).
  { destruct Hcase as [(_ & ->) | (_ & Hv & (f & -> & _) & _)]; [done |]. intros u g Eg. rewrite lookup_insert_ne; [done |]. congruence. }
  assert (Htrans : sameDataset (w_dataset w0) (w_dataset w')).
  { destruct R4 as (A1 & A2 & A3 & A4), Hsame as (C1 & C2 & C3 & C4). split_and!; congruence. }
  assert (Hfrag : forall i t, submitted ev !! i = Some t -> task_fragment (ev ++ [Prepared q cs]) w' i t).
  { intros i t Et. destruct (R10 i t Et) as (u & k' & c' & f & -> & Hu & Ef & Hsel & H1' & H2'). exists u, k', c', f. rewrite Eres. split_and!; auto. }
  constructor; rewrite ?Eres, ?Eprep, ?Esub; try done.
  - by rewrite Emem.
  - intros u g Eg. by apply Hobj, R3.
  - intros e He. by apply Hmono, R6.
  - intros e [He | ->]%Hkeys; [by apply R7 |]. right. apply list_elem_of_fmap. exists (c, k). split; [done |]. by eapply list_elem_of_lookup_2.
  - destruct Hcase as [(_ & ->) | (_ & _ & _ & Hp)]; [lia |]. rewrite Hp. simpl. lia.
  - intros j e Ej Hj. destruct (decide (j = length (preparedItems ev))) as [-> | Hne].
    + rewrite Ec in Ej. injection Ej as <-. apply list_elem_of_fmap. by exists (c, v).
    + assert (Hold : e.1 ∈ (entriesOf w).*1) by (apply (R9 j); [done | lia]). apply list_elem_of_fmap in Hold as (x & -> & Hx). apply list_elem_of_fmap. eauto.
  - intros i t. destruct Hcase as [(-> & ->) | (-> & Hv & (f & Eo & Hnew & Ek) & Hp)].
    + cbn [pushed omap list_omap]. rewrite app_nil_r. apply Hfrag.
    + cbn [pushed omap list_omap]. rewrite lookup_app_Some. intros [Et | [Hge Et]]; [by apply Hfrag |]. apply list_lookup_singleton_Some in Et as [Hz <-].
      assert (i = length (submitted ev)) as -> by lia. exists v, k, c, f. split; [done |].
      split; [destruct (objects (w_store w0) !! v) as [g |] eqn:Eg; [| done]; by rewrite (R3 v g Eg) in Hv |].
      rewrite Eo, lookup_insert_eq. split; [done |]. split; [apply Hnew |]. rewrite Eres. destruct R4 as (A1 & _). split; [by rewrite <- A1 |].
      intros Hin'. assert (Hx : (length (submitted ev) < length (submitted ev))%nat); [| lia]. apply R13, list_elem_of_fmap. by eexists (_, _).
  - intros u g Eg Hu. destruct Hcase as [(-> & ->) | (-> & Hv & (f & Eo & Hnew & Ek) & Hp)]; cbn [pushed omap list_omap].
    + rewrite app_nil_r. by apply (R11 u g).
    + rewrite Eo in Eg. apply lookup_insert_Some in Eg as [[<- <-] | [Hne Eg]].
      * exists (length (submitted ev)), (writeTask v k). split; [by rewrite lookup_app_r, Nat.sub_diag by lia | done].
      * destruct (R11 u g Eg Hu) as (i & t & Et & Ev). exists i, t. split; [by apply lookup_app_l_Some | done].
  - destruct Hcase as [(-> & ->) | (-> & Hv & _)]; cbn [pushed omap list_omap]; [by rewrite app_nil_r |].
    assert (Hfresh : forall i t, submitted ev !! i = Some t -> work_fragment t <> v).
    { intros i t Et Ev. destruct (R10 i t Et) as (u & k' & c' & f & -> & _ & Ef & _). cbn [writeTask work_fragment] in Ev. subst u. congruence. }
    intros i j t t'. rewrite !lookup_app_Some. intros [Ei | [Hi Ei]] [Ej | [Hj Ej]] Ev; [by apply (R12 i j t t') | | |].
    + apply list_lookup_singleton_Some in Ej as [_ <-]. by destruct (Hfresh i t Ei).
    + apply list_lookup_singleton_Some in Ei as [_ <-]. by destruct (Hfresh j t' Ej).
    + apply list_lookup_singleton_Some in Ei as [? _]. apply list_lookup_singleton_Some in Ej as [? _]. lia.
  - intros i Hi. rewrite length_app. specialize (R13 i Hi). lia.
Qed.

Lemma write_perform (ev : list event) (w : io_world) (i : nat) (t : io_work_t) :
  write_inv ev w -> submitted ev !! i = Some t -> i ∉ (results ev).*1 ->
  exists ret w', perform t w = Done (ret, w') /\ write_inv (ev ++ [Performed i ret]) w'.
Proof.
  intros [R1 R2 R3 R4 R5 R6 R7 R8 R9 R10 R11 R12 R13] Et Hi. destruct (R10 i t Et) as (v & k & c & f & -> & Hv & Ef & Hsel & Hnew & _).
  destruct (Hnew Hi) as [Hn Ek].
  destruct (write_task_ok (w_store w) v k (dset_id (w_dataset w0)) c f (go_store _ R1) Ef Hn Ek) as (ret & s' & f' & E & Hs' & Hsub & Eo & Esp & Hok).
  exists ret, (setStore w s'). unfold perform_work. cbn [writeTask work_fragment] in *. fold (writeTask v k). rewrite E. run. split; [done |].
  assert (Eres : results (ev ++ [Performed i ret]) = results ev ++ [(i, ret)]) by (by rewrite results_app).
  assert (Eprep : preparedItems (ev ++ [Performed i ret]) = preparedItems ev) by (rewrite preparedItems_app; apply app_nil_r).
  assert (Esub : submitted (ev ++ [Performed i ret]) = submitted ev) by (rewrite submitted_app; apply app_nil_r).
  assert (Hoth : forall u, u <> v -> objects s' !! u = objects (w_store w) !! u) by (intros u Hu; by rewrite Eo, lookup_insert_ne).
  constructor; rewrite ?Eres, ?Eprep, ?Esub; cbn [setStore w_store w_dataset]; try done.
  - destruct R1 as [G1 G2 G3 G4 G5]. constructor; cbn [setStore w_store w_dataset]; try done. destruct G2 as [Ht Hobj]. constructor; [done |].
    intros key u Hu. destruct (Hobj key u Hu) as (g & Eg & Hg & Hke). destruct (decide (u = v)) as [-> | Hne]; [| exists g; by rewrite Hoth].
    rewrite Ef in Eg. injection Eg as <-. exists f'. rewrite Eo, lookup_insert_eq, Esp. split; [done |]. split; [| done]. destruct Hg. constructor; by rewrite Esp.
  - by etransitivity.
  - intros u g Eg. rewrite Hoth; [by apply R3 |]. intros ->. congruence.
  - intros j t' Ej. unfold task_fragment. rewrite Eres. cbn [setStore w_store]. destruct (R10 j t' Ej) as (u & k' & c' & g & -> & Hu & Eg & Hsel' & H1' & H2'). destruct (decide (u = v)) as [-> | Hne].
    + assert (j = i) as -> by (by apply (R12 j i (writeTask v k') (writeTask v k))). rewrite Ej in Et. injection Et as ->.
      exists v, k, c, f'. rewrite Eo, lookup_insert_eq, Esp. split; [done |]. split; [done |]. split; [done |]. split; [done |]. split.
      * intros Hn'. destruct Hn'. rewrite fmap_app. apply elem_of_app. right. by left.
      * intros Hin. apply Hok. apply elem_of_app in Hin as [Hin | Hin]; [destruct Hi; apply list_elem_of_fmap; by exists (i, ESDM_SUCCESS) |].
        apply list_elem_of_singleton in Hin. by injection Hin.
    + exists u, k', c', g. rewrite Hoth by done. split; [done |]. split; [done |]. split; [done |]. split; [done |]. split.
      * intros Hn'. apply H1'. intros Hin. apply Hn'. rewrite fmap_app. apply elem_of_app. by left.
      * intros [Hin | Hin]%elem_of_app; [by apply H2' |]. apply list_elem_of_singleton in Hin as [= -> _]. rewrite Ej in Et. by injection Et as ->.
  - intros u g Eg Hu. destruct (decide (u = v)) as [-> | Hne]; [by exists i, (writeTask v k) |]. rewrite Hoth in Eg by done. by apply (R11 u g).
  - intros j. rewrite fmap_app, elem_of_app. intros [Hj | Hj]; [by apply R13 |]. apply list_elem_of_singleton in Hj as ->. by apply lookup_lt_Some in Et.
Qed.

Lemma happens_write_inv (ev : list event) (w : io_world) : happens prepare perform writeItems w0 ev w -> write_inv ev w.
Proof.
  induction 1 as [| ev w q cs w' Hh IH Eq E | ev w i t ret w' Hh IH Et Hi E].
  - apply write_inv_start.
  - destruct (write_prepare ev w q IH Eq) as (cs2 & w2 & E2 & Hinv). rewrite E in E2. by injection E2 as -> ->.
  - destruct (write_perform ev w i t IH Et Hi) as (ret2 & w2 & E2 & Hinv). rewrite E in E2. by injection E2 as -> ->.
Qed.

(** ** Complete requests *)

(** What a request leaves: every cube has a fragment; after a success all new fragments are stored and
    have left the user's buffer, which is unchanged. *)
Definition write_done (ret : esdm_status) (w : io_world) : Prop :=
  growing_ok w /\ memory (w_store w0) ⊆ memory (w_store w) /\ sameDataset (w_dataset w0) (w_dataset w) /\
  (forall v f, objects (w_store w0) !! v = Some f -> objects (w_store w) !! v = Some f) /\
  (forall e, e ∈ entriesOf w0 -> e ∈ entriesOf w) /\ (forall e, e ∈ entriesOf w -> e ∈ entriesOf w0 \/ e.1 ∈ cks.*1) /\
  (length (entriesOf w) <= length (entriesOf w0) + length cks)%nat /\ (forall c, c ∈ cks.*1 -> c ∈ (entriesOf w).*1) /\
  (forall v f, objects (w_store w) !! v = Some f -> objects (w_store w0) !! v = None ->
     (exists c, selects sp c (dataspace f)) /\ (ret = ESDM_SUCCESS -> status f = ESDM_DATA_NOT_LOADED /\ buf f = None)).

Definition writeCommands : list (command io_item io_work_t) := Prepare <$> writeItems.

Lemma write_commands : items writeCommands = writeItems /\ pushed writeCommands = [] /\ announces announcedItem 0 writeCommands.
Proof.
  unfold writeCommands, writeItems. clear. induction cks as [| e l (IH1 & IH2 & IH3)]; [done |]. cbn [fmap list_fmap]. split_and!.
  - unfold items in *. cbn [omap list_omap]. by f_equal.
  - unfold pushed in *. by cbn [omap list_omap].
  - done.
Qed.

Lemma write_prepares (ev : list event) (w : io_world) (q : io_item) :
  happens prepare perform writeItems w0 ev w -> writeItems !! length (preparedItems ev) = Some q -> exists cs w', prepare q w = Done (cs, w').
Proof. intros Hh Eq. destruct (write_prepare ev w q (happens_write_inv ev w Hh) Eq) as (cs & w' & E & _). eauto. Qed.

Lemma write_performs (ev : list event) (w : io_world) (i : nat) (t : io_work_t) :
  happens prepare perform writeItems w0 ev w -> submitted ev !! i = Some t -> i ∉ (results ev).*1 -> exists ret w', perform t w = Done (ret, w').
Proof. intros Hh Et Hi. destruct (write_perform ev w i t (happens_write_inv ev w Hh) Et Hi) as (ret & w' & E & _). eauto. Qed.

Lemma write_request_returns (threads : nat -> nat) :
  Z.of_nat (length cks) < 2 ^ 31 -> exists schedule ret w, submit floatCast junk fzero fle data_backends threads schedule writeCommands w0 = Done (Some (ret, w)).
Proof.
  intros Hcount. destruct write_commands as (Hitems & Hpushed & Hann). unfold submit.
  apply (run_request_returns work_backend threads prepare perform writeItems announcedItem w0); try done.
  - unfold writeItems. by rewrite length_fmap.
  - intros q w cs w'. apply prepare_item_commands.
  - apply write_prepares.
  - apply write_performs.
Qed.

Lemma write_request_ok (threads : nat -> nat) (schedule : list choice) :
  Z.of_nat (length cks) < 2 ^ 31 ->
  exists r, submit floatCast junk fzero fle data_backends threads schedule writeCommands w0 = Done r /\ forall ret w, r = Some (ret, w) -> write_done ret w.
Proof.
  intros Hcount. destruct write_commands as (Hitems & Hpushed & Hann). unfold submit.
  destruct (run_request_ok work_backend threads prepare perform writeItems announcedItem w0 schedule writeCommands) as (r & E & Hr); try done.
  - unfold writeItems. by rewrite length_fmap.
  - intros q w cs w'. apply prepare_item_commands.
  - apply write_prepares.
  - apply write_performs.
  - exists r. split; [exact E |]. intros ret w Er. destruct (Hr ret w Er) as (s & <- & _ & ev & Hh & Hprep & _ & Hperm & Hret & _).
    pose proof (happens_write_inv ev (world s) Hh) as [R1 R2 R3 R4 R5 R6 R7 R8 R9 R10 R11 R12 R13].
    assert (Elen : length (preparedItems ev) = length cks) by (rewrite Hprep; unfold writeItems; apply length_fmap).
    split_and!; try done; [lia | |].
    + intros c (e & -> & [j Ej]%list_elem_of_lookup)%list_elem_of_fmap. apply (R9 j e Ej). rewrite Elen. by apply lookup_lt_Some in Ej.
    + intros v f Ef Hv. destruct (R11 v f Ef Hv) as (i & t & Et & Ev). destruct (R10 i t Et) as (u & k & c & g & -> & _ & Eg & Hsel & _ & Hok).
      cbn [writeTask work_fragment] in Ev. subst u. rewrite Ef in Eg. injection Eg as <-. split; [by exists c |]. intros Hs. apply Hok.
      assert (Hin : i ∈ (results ev).*1) by (rewrite Hperm; apply elem_of_seq; apply lookup_lt_Some in Et; lia).
      apply list_elem_of_fmap in Hin as ([i' r'] & -> & Hin). pose proof (proj1 (Forall_forall _ _) (proj1 Hret Hs) _ Hin) as Hr'. cbn [snd] in Hr'. by subst r'.
Qed.

End Writing.
