(* ===== verification/WriteBlocking.v ===== *)
(** Writing a region of a dataset (src/esdm-scheduler.c), and reading back what was written. *)

From stdpp Require Import gmap.
From S2P Require Import Prelude Hypercube HypercubeSet Json Odometer Memory Dataspace Convert CopyData Partition Split Grid GridTree GridVisit GridRegion GridCover Fragment FragmentState Posix Fragments Request Dataset Scheduler SchedulerRead ReadBlocking SchedulerWrite.

Open Scope Z_scope.

Section Blocking.

Context (floatCast : esdm_type_t -> esdm_type_t -> list Z -> list Z).
Context (Hcast : forall d s bytes, 0 <= esdm_sizeof d -> Z.of_nat (length (floatCast d s bytes)) = esdm_sizeof d).
Context (junk : mem) {B : Type} `{DataBackendLaws B} {T : Type} `{GHashTableLaws T}.
Context {F : Type} (fzero : F) (fle : F -> F -> bool) (fadd : F -> F -> F) (scaled : F -> Z -> F -> Z).
Context (splitFactor : Z -> Z -> Z -> Z -> Z) (qsort : list dimInfo_t -> list dimInfo_t) (manyBytes : Z -> Z -> bool).
Context (data_backends : list (data_backend (F := F))) (threads : nat -> nat).

(** The user's buffer, the region to write and the data of the dataset. *)
Context (buf0 : pointer) (sp : esdm_dataspace_t) (data : content_t).
Hypothesis Hsp : data_space sp.

Abbreviation region := (extends sp).

(** * The plan *)

(** The configured backends can share the region: all have a throughput and get a part of every
    dimension that can be split, a fragment can have an element, and the C library's functions do
    what they should.  The indices of the slices of a dimension are multiplied with its size. *)
Record backends_ok : Prop := {
  bo_dims : 1 <= dims sp;
  bo_weights : exists w ws, db_throughput <$> data_backends = Some <$> (w :: ws) /\ fle fzero w = true /\
    forall s total, s ∈ size sp -> 1 < s -> last (w :: cumulative fadd w ws) = Some total ->
      StronglySorted Z.lt (shares scaled (w :: cumulative fadd w ws) total s);
  bo_limit : Forall (fun b => esdm_sizeof (type sp) <= db_max_fragment_size b) data_backends;
  bo_factor : forall limit z dims s, 1 <= s -> 1 <= splitFactor limit z dims s <= s;
  bo_qsort : forall l, qsort l ≡ₚ l;
  bo_squares : Forall (fun s => s * s <= INT64_MAX) (size sp);
  bo_handles : Forall (fun b => valid_backend (db_handle b)) data_backends
}.

Lemma volume_pos_sizes (space : esdm_dataspace_t) : data_space space -> Forall (fun s => 1 <= s) (size space).
Proof. intros [_ _ Hpos _ _ _ _]. eapply Forall_impl; [exact Hpos |]. intros s Hs. cbn beta in Hs. lia. Qed.

Lemma squares_inside (c : esdmI_hypercube_t) : backends_ok -> nonempty c -> Forall2 range_inside c region ->
  Forall (fun s => s * s <= INT64_MAX) ((fun r => rend r - rstart r) <$> c).
Proof.
  intros Hb Hn Hi. pose proof (bo_squares Hb) as Hsq. rewrite <- (extends_sizes sp Hsp) in Hsq. revert Hn Hsq.
  induction Hi as [| x y c r [Hx1 Hx2] _ IH]; intros Hn Hsq; cbn [fmap list_fmap] in *; [constructor |].
  apply Forall_cons in Hn as [Hx Hn]. apply Forall_cons in Hsq as [Hy Hsq]. constructor; [nia | by apply IH].
Qed.

Lemma splitRecommendation_ok (space : esdm_dataspace_t) (method : fragmentation_method_t) (limit : Z) :
  backends_ok -> data_space space -> type space = type sp -> dims space = dims sp -> esdm_sizeof (type sp) <= limit ->
  Forall (fun s => s * s <= INT64_MAX) (size space) ->
  exists cubes, esdm_scheduler_makeSplitRecommendation splitFactor qsort space method limit = Done cubes /\
  partitions (esdmI_hypercubeSet_list cubes) (extends space).
Proof.
  intros [B1 _ _ B4 B5 _ _] Hs Ht Hd Hl Hsq. pose proof (volume_pos_sizes _ Hs) as Hp. pose proof Hs as [Hw H64 _ _ Hty Hb Hfits].
  destruct (space_fits_strides space Hw Hfits Hty) as [_ Hst]. destruct method; cbn [esdm_scheduler_makeSplitRecommendation].
  - destruct (contiguousFragments_ok qsort space limit B5 Hw H64) as (r & -> & Hpart & _); [lia | done | rewrite Ht in *; lia | done | done | done |]. by exists r.
  - destruct (balanced_ok splitFactor space limit Hw H64 Hp) as (r & -> & _ & Hpart); [| by exists r]. intros d s Hin.
    pose proof (proj1 (Forall_forall _ _) Hp s Hin) as H1s. pose proof (proj1 (Forall_forall _ _) Hsq s Hin) as H2s. cbn beta in H1s, H2s.
    destruct (B4 limit (esdm_sizeof (type space)) d s H1s). split; [done | nia].
Qed.

Definition writeItem (internal : bool) (e : esdmI_hypercube_t * nat) : command io_item io_work_t := Prepare (WriteItem e.1 e.2 buf0 sp internal).

(** The fragments of one backend. *)
Lemma enqueue_backend_ok (c : esdmI_hypercube_t) (b : data_backend (F := F)) (internal : bool) :
  backends_ok -> nonempty c -> Forall2 range_inside c region -> esdm_sizeof (type sp) <= db_max_fragment_size b ->
  exists cs, enqueue_write_backend splitFactor qsort (Some (Some c)) b buf0 sp internal = Done (writeItem internal <$> ((fun c => (c, db_handle b)) <$> cs)) /\ partitions cs c.
Proof.
  intros Hb Hn Hi Hl. unfold enqueue_write_backend. run. destruct (subspace_ok sp Hsp c Hn Hi) as (s0 & sub & -> & E1 & [Hs Ht Hd He _ _]). run. rewrite E1. run.
  rewrite eassert_true by (by apply bool_decide_eq_true). run.
  assert (Hsq : Forall (fun s => s * s <= INT64_MAX) (size sub)) by (rewrite <- (extends_sizes sub Hs), He; by apply squares_inside).
  destruct (splitRecommendation_ok sub (db_method b) (db_max_fragment_size b) Hb Hs Ht Hd Hl Hsq) as (cubes & -> & Hp). run. rewrite He in Hp.
  exists (esdmI_hypercubeSet_list cubes). split; [| done]. f_equal. by rewrite <- list_fmap_compose.
Qed.

(** The cubes of the backends that get one. *)
Definition assigned (out : list (option esdmI_hypercube_t)) : list esdmI_hypercube_t := omap (M := list) Datatypes.id out.

Lemma enqueue_backends_ok (out : list (option esdmI_hypercube_t)) (bs : list (data_backend (F := F))) (internal : bool) :
  backends_ok -> length out = length bs -> Forall (fun b => esdm_sizeof (type sp) <= db_max_fragment_size b) bs -> Forall (fun b => valid_backend (db_handle b)) bs ->
  Forall (fun c => nonempty c /\ Forall2 range_inside c region) (assigned out) ->
  exists (ess : list (list (esdmI_hypercube_t * nat))) (parts : list (list esdmI_hypercube_t)), mapM (M := outcome) (fun p => enqueue_write_backend splitFactor qsort p.1 p.2 buf0 sp internal) (zip (fmap (M := list) Some out) bs) = Done (fmap (M := list) (fun es => fmap (M := list) (writeItem internal) es) ess) /\
  (concat ess).*1 = concat parts /\ Forall (fun e => valid_backend e.2) (concat ess) /\ Forall2 (fun c l => partitions l c) (assigned out) parts.
Proof.
  intros Hb Hl. revert bs Hl. induction out as [| o out IH]; intros [| b bs] Hl Hlim Hk Hin; try discriminate Hl; [by exists [], [] |].
  apply Forall_cons in Hlim as [Hlb Hlim]. apply Forall_cons in Hk as [Hkb Hk]. injection Hl as Hl. cbn [fmap list_fmap zip_with]. rewrite mapM_cons. cbn [fst snd]. destruct o as [c |]; cbn [assigned omap list_omap Datatypes.id] in *.
  - apply Forall_cons in Hin as [[Hn Hi] Hin]. destruct (enqueue_backend_ok c b internal Hb Hn Hi Hlb) as (cs & -> & Hp). run.
    destruct (IH bs Hl Hlim Hk Hin) as (ess & parts & -> & Hc & Hv & Hf). run. exists (((fun c => (c, db_handle b)) <$> cs) :: ess), (cs :: parts).
    split; [done |]. cbn [concat]. split; [| split; [| by constructor]].
    + rewrite fmap_app, Hc, <- list_fmap_compose. f_equal. by apply list_fmap_id.
    + apply Forall_app. split; [| done]. apply Forall_fmap, Forall_true. by intros c'.
  - cbn [enqueue_write_backend]. run. destruct (IH bs Hl Hlim Hk Hin) as (ess & parts & -> & Hc & Hv & Hf). run. exists ([] :: ess), parts. done.
Qed.

(** The commands of a write request: the region is divided into the cubes. *)
Lemma enqueue_write_ok (internal : bool) :
  backends_ok -> exists cks, esdm_scheduler_enqueue_write fzero fle fadd scaled splitFactor qsort data_backends buf0 sp internal = Done (writeCommands buf0 sp cks internal) /\
  partitions cks.*1 region /\ Forall (fun e => valid_backend e.2) cks.
Proof.
  intros Hb. pose proof Hb as [B1 (w & ws & Ew & Hw & Hsh) B3 _ _ _ B7]. pose proof Hsp as [Hwf H64 _ _ Hty _ Hfits]. unfold esdm_scheduler_enqueue_write. rewrite Ew.
  destruct (splitToBackends_ok fzero fle fadd scaled sp w ws Hwf H64 (volume_pos_sizes _ Hsp) (space_fits_strides sp Hwf Hfits Hty) Hw Hsh) as (out & -> & Hlen & Hp). run.
  destruct (enqueue_backends_ok out data_backends internal Hb) as (ess & parts & -> & Hc & Hv & Hf); [| done | done | |].
  - apply (f_equal length) in Ew. rewrite !length_fmap in Ew. by rewrite Hlen, Ew.
  - destruct Hp as [P1 P2 _]. apply Forall_forall. intros c Hcin. pose proof (proj1 (Forall_forall _ _) P1 c Hcin) as Hn. split; [done |].
    apply points_inside; [done |]. intros p Hpc. apply P2. by exists c.
  - run. exists (concat ess). split; [| split; [rewrite Hc; by eapply partitions_refine | exact Hv]]. f_equal. unfold writeCommands, writeItems. rewrite <- list_fmap_compose.
    symmetry. apply List.concat_map.
Qed.

(** * Writing a region *)

Abbreviation write_blocking := (esdm_scheduler_write_blocking floatCast junk fzero fle fadd scaled splitFactor qsort data_backends threads).
Abbreviation entriesOf := (fun w : io_world (B := B) (T := T) => g_hash_table_entries (dset_fragments (w_dataset w))).

(** The state in which the region can be written: the fragments of the dataset are in order, the region
    is inside the dataset and has the data in the user's buffer, the cubes of the region have hashes,
    and the counter of the request does not overflow. *)
Record write_ready (w : io_world (B := B) (T := T)) (m0 : mem) (internal : bool) : Prop := {
  wr_grow : growing_ok buf0 sp data (length region) w;
  wr_memory : memory (w_store w) !! buf0.1 = Some m0;
  wr_data : forall p, in_cube p region -> elementAt sp (seen buf0 m0) p = data p;
  wr_hash : forall c, nonempty c -> Forall2 range_inside c region -> exists h, esdmI_fragments_hashKey c = Done h;
  wr_count : forall commands, esdm_scheduler_enqueue_write fzero fle fadd scaled splitFactor qsort data_backends buf0 sp internal = Done commands ->
    Z.of_nat (length commands) < 2 ^ 31
}.

Lemma write_plan (w : io_world (B := B) (T := T)) (m0 : mem) (internal : bool) :
  backends_ok -> write_ready w m0 internal ->
  exists cks, esdm_scheduler_enqueue_write fzero fle fadd scaled splitFactor qsort data_backends buf0 sp internal = Done (writeCommands buf0 sp cks internal) /\
  partitions cks.*1 region /\ Forall (fun e => cube_ok sp (length region) e.1 /\ valid_backend e.2) cks /\ Z.of_nat (length cks) < 2 ^ 31.
Proof.
  intros Hb [W1 W2 W3 W4 W5]. destruct (enqueue_write_ok internal Hb) as (cks & E & Hp & Hv). exists cks. split; [done |]. split; [done |]. split.
  - destruct Hp as [P1 P2 _]. apply Forall_forall. intros e He.
    assert (Hin : e.1 ∈ cks.*1) by (apply list_elem_of_fmap; by exists e). pose proof (proj1 (Forall_forall _ _) P1 _ Hin) as Hn.
    assert (Hi : Forall2 range_inside e.1 region) by (apply points_inside; [done |]; intros p Hpc; apply P2; by exists e.1).
    split; [| by apply (proj1 (Forall_forall _ _) Hv e)]. split; [done |]. split; [done |]. split; [by apply Forall2_length in Hi | by apply W4].
  - specialize (W5 _ E). unfold writeCommands, writeItems in W5. by rewrite !length_fmap in W5.
Qed.

(** What a write leaves. *)
Definition write_result (w : io_world (B := B) (T := T)) (ret : esdm_status) (w' : io_world (B := B) (T := T)) : Prop :=
  growing_ok buf0 sp data (length region) w' /\ memory (w_store w) ⊆ memory (w_store w') /\ sameDataset (w_dataset w) (w_dataset w') /\
  (forall v f, objects (w_store w) !! v = Some f -> objects (w_store w') !! v = Some f) /\
  (forall e, e ∈ entriesOf w -> e ∈ entriesOf w') /\
  (forall e, e ∈ entriesOf w' -> e ∈ entriesOf w \/ (nonempty e.1 /\ Forall2 range_inside e.1 region)) /\
  (forall p, in_cube p region -> exists v f, (extends (dataspace f), v) ∈ entriesOf w' /\ objects (w_store w') !! v = Some f /\ in_cube p (extends (dataspace f))) /\
  (forall v f, objects (w_store w') !! v = Some f -> objects (w_store w) !! v = None ->
     type (dataspace f) = type sp /\ dims (dataspace f) = dims sp /\ eff (dataspace f) = eff sp /\
     (ret = ESDM_SUCCESS -> status f = ESDM_DATA_NOT_LOADED /\ buf f = None /\ inStorage f (disk (w_store w')) data)).

Lemma write_done_result (w w' : io_world (B := B) (T := T)) (cks : list (esdmI_hypercube_t * nat)) (ret : esdm_status) :
  partitions cks.*1 region -> Forall (fun e => cube_ok sp (length region) e.1 /\ valid_backend e.2) cks -> write_done buf0 sp data (length region) cks w ret w' -> write_result w ret w'.
Proof.
  intros [P1 P2 _] Hc (D1 & D2 & D3 & D4 & D5 & D6 & _ & D8 & D9). split_and!; try done.
  - intros e He. destruct (D6 e He) as [Hold | (x & Ex & Hx)%list_elem_of_fmap]; [by left | right]. rewrite Ex.
    pose proof (proj1 (Forall_forall _ _) Hc x Hx) as ((Hn & Hi & _) & _). done.
  - intros p Hp. apply P2 in Hp as (c & Hcin & Hpc). apply D8, list_elem_of_fmap in Hcin as ([key v] & Ec & Hin). cbn [fst] in Ec. subst key.
    destruct (fs_objects _ _ _ (go_table _ _ _ _ _ D1) c v Hin) as (f & Ef & _ & ->). by exists v, f.
  - intros v f Ef Hv. destruct (D9 v f Ef Hv) as ((c & [S1 S2 S3 S4 S5 S6]) & Hok). split; [done |]. split; [done |]. split; [done |]. intros Hs. destruct (Hok Hs) as [Est Eb].
    split; [done |]. split; [done |]. pose proof (wo_fragment _ _ _ (go_store _ _ _ _ _ D1) v f Ef) as [[_ _ _ _ Hcont] _]. unfold hasContent in Hcont.
    rewrite Est in Hcont. apply Hcont.
Qed.

Lemma write_blocking_ok (w : io_world (B := B) (T := T)) (m0 : mem) (internal : bool) :
  backends_ok -> write_ready w m0 internal ->
  (forall schedule, exists r, write_blocking schedule buf0 sp internal w = Done r /\ forall ret w', r = Some (ret, w') -> write_result w ret w') /\
  exists schedule ret w', write_blocking schedule buf0 sp internal w = Done (Some (ret, w')).
Proof.
  intros Hb Hw. destruct (write_plan w m0 internal Hb Hw) as (cks & E & Hp & Hc & Hcount). pose proof Hw as [W1 W2 W3 _ _].
  unfold esdm_scheduler_write_blocking. split.
  - intros schedule. rewrite E. run.
    destruct (write_request_ok floatCast junk fzero fle data_backends buf0 sp data (length region) Hsp cks internal w m0 Hc W1 W2 W3 threads schedule Hcount) as (r & -> & Hr).
    exists r. split; [done |]. intros ret w' Er. by apply (write_done_result w w' cks ret), Hr.
  - destruct (write_request_returns floatCast junk fzero fle data_backends buf0 sp data (length region) Hsp cks internal w m0 Hc W1 W2 W3 threads Hcount) as (schedule & ret & w' & E').
    exists schedule, ret, w'. rewrite E. by run.
Qed.


(** * Reading what was written *)

(** Another buffer and a region of the dataset. *)
Context (buf1 : pointer) (sp1 : esdm_dataspace_t).
Hypothesis Hsp1 : data_space sp1.
Hypothesis Hinj1 : injective_layout sp1.
Hypothesis Htype : type sp1 = type sp.
Hypothesis Hdims : dims sp1 = dims sp.
Hypothesis Hforward : Forall (fun t => 0 <= t) (eff sp).

(** The counters of a state do not overflow. *)
Definition counters_fit (w : io_world (B := B) (T := T)) : Prop :=
  Z.of_nat (base.size (objects (w_store w))) < 2 ^ 31 /\ Z.of_nat (length (entriesOf w)) < 2 ^ 60 /\
  total (fun e => spaceBytes e.2) (map_to_list (objects (w_store w))) <= INT64_MAX.

Lemma grid_ready_mono (objs objs' : gmap nat esdm_fragment_t) (r : esdmI_hypercube_t) (g : esdm_grid_t nat) :
  objs ⊆ objs' -> grid_ready objs r g -> grid_ready objs' r g.
Proof.
  intros Hsub [G1 G2 G3 G4]. constructor; try done. intros c o Hco. destruct (G4 c o Hco) as (v & f & E & Ef & ?). exists v, f. split; [done |].
  split; [by eapply lookup_weaken | done].
Qed.

Lemma volume_inside (c : esdmI_hypercube_t) : nonempty c -> Forall2 range_inside c region -> volume c <= INT64_MAX.
Proof.
  intros Hn Hi. pose proof (sub_product c region Hn Hi) as Hs. rewrite (extends_sizes sp Hsp) in Hs. rewrite (volume_osizes c Hn). unfold osizes.
  pose proof (ds_bytes _ Hsp). pose proof (ds_type _ Hsp). nia.
Qed.

(** Fragments that have left the user's buffer do not disturb a reader. *)
Lemma store_grows (s s' : store B) :
  store_ok buf1 sp1 (fun _ => data) s -> writing_ok buf0 data s' -> memory s ⊆ memory s' ->
  (forall v f, objects s' !! v = Some f -> objects s !! v = Some f \/ buf f = None) ->
  (forall v f, objects s' !! v = Some f -> status f <> ESDM_DATA_DIRTY) -> store_ok buf1 sp1 (fun _ => data) s'.
Proof.
  intros [O1 O2 O3 O4 O5 [m O6]] [S1 S2 S3 S4 S5] Hmem Hcase Hnd. constructor; try done.
  - intros v f ptr [Eo | Eb]%Hcase Ep; [by apply (O2 v) | congruence].
  - intros v u f g p q Hne [Ef | Eb]%Hcase [Eg | Eb']%Hcase Ep Eq; [by apply (O3 v u f g) | congruence..].
  - intros v u f g key Hne Ef Eg. apply (S4 v u f g key Hne Ef Eg); [by apply (Hnd v) | by apply (Hnd u)].
  - exists m. by eapply lookup_weaken.
Qed.

(** A successful write keeps the dataset readable. *)
Lemma write_keeps_ready (w w' : io_world (B := B) (T := T)) :
  read_ready buf1 sp1 data w -> (forall v f, objects (w_store w) !! v = Some f -> status f <> ESDM_DATA_DIRTY) -> counters_fit w' ->
  write_result w ESDM_SUCCESS w' -> read_ready buf1 sp1 data w'.
Proof.
  intros [Q1 Q2 Q3 Q4 Q5 Q6 Q7 Q8 Q9] Hclean (F1 & F2 & F3) ([D1 D2 D3 D4 D5] & Hmem & (E1 & E2 & E3 & E4) & Hold & Hent & Hkeys & _ & Hnew).
  assert (Hsub : objects (w_store w) ⊆ objects (w_store w')) by (by apply map_subseteq_spec).
  assert (Hcase : forall v f, objects (w_store w') !! v = Some f -> objects (w_store w) !! v = Some f \/ (objects (w_store w) !! v = None /\ status f = ESDM_DATA_NOT_LOADED /\ buf f = None)).
  { intros v f Ef. destruct (objects (w_store w) !! v) as [g |] eqn:Eg.
    - left. rewrite (Hold v g Eg) in Ef. by injection Ef as ->.
    - right. destruct (Hnew v f Ef Eg) as (_ & _ & _ & Hok). destruct (Hok eq_refl) as (? & ? & _). done. }
  assert (Hnd : forall v f, objects (w_store w') !! v = Some f -> status f <> ESDM_DATA_DIRTY).
  { intros v f [Eo | (_ & -> & _)]%Hcase; [by apply (Hclean v) | done]. }
  constructor; try done.
  - apply (store_grows (w_store w)); [done | done | done | | done]. intros v f [Eo | (_ & _ & Eb)]%Hcase; [by left | by right].
  - destruct Q2 as [K1 K2 K3]. pose proof (length_extends sp (ds_wf _ Hsp)) as L0. pose proof (length_extends sp1 (ds_wf _ Hsp1)) as L1.
    replace (length (extends sp1)) with (length region) by lia. constructor; [done | | by rewrite E4; eapply Forall_impl; [exact K3 |]; intros g; apply grid_ready_mono].
    split; [| done]. apply Forall_forall. intros e [He | [Hn Hi]]%Hkeys; [by apply (proj1 (Forall_forall _ _) (proj1 K2)) | split; [done | by apply volume_inside]].
  - intros v f Ef. destruct (objects (w_store w) !! v) as [g |] eqn:Eg.
    + rewrite (Hold v g Eg) in Ef. injection Ef as <-. by apply (Q5 v).
    + destruct (Hnew v f Ef Eg) as (T1 & T2 & T3 & Hok). destruct (Hok eq_refl) as (_ & Eb & _). rewrite T1, T2, Htype, Hdims. split; [done |]. split; [done |].
      split; [unfold forward; by rewrite T3 | congruence].
  - by rewrite E2.
  - by rewrite E3.
Qed.

Abbreviation read_blocking := (esdm_scheduler_read_blocking floatCast junk fzero fle fadd scaled splitFactor qsort manyBytes data_backends threads).


End Blocking.

(** * An example *)

(** An empty dataset of 2 x 4 numbers and a backend with one thread, which takes fragments of at most 8
    bytes. *)
Module Blocks.

Definition space : esdm_dataspace_t := Dataspace SMD_DTYPE_INT16 2 [2; 4] [0; 0] false None.

(** The two middle columns, in the order of the columns. *)
Definition middle : esdm_dataspace_t := Dataspace SMD_DTYPE_INT16 2 [2; 2] [0; 1] false (Some [1; 2]).

Definition dataset : esdm_dataset_t HashList.hashList := Dataset "dst" space None None [] [] ESDM_DATA_PERSISTENT ESDM_DATA_PERSISTENT.

Definition world : io_world :=
  IoWorld (Store ∅ {[0%nat := fun a => a; 1%nat := fun _ => 0]} (PosixState (FS := MapFS.mapFS) ∅ 0)) dataset Rows.zeroStats Rows.zeroStats.

Definition data : content_t := elementAt space (seen (0%nat, 0) (fun a => a)).

Definition backends : list (data_backend (F := Z)) := [DataBackendConfig 0%nat (Some 1) ESDMI_FRAGMENTATION_METHOD_CONTIGUOUS 8].

Definition scaled (w s total : Z) : Z := (2 * w * s + total) / (2 * total).

(** The main thread dispatches both tasks before the first one is performed. *)
Definition schedule : list choice :=
  replicate 6 (Run MainThread) ++ replicate 8 (Run (Worker 0)) ++ replicate 8 (Run (Worker 1)) ++ replicate 5 (Run MainThread).

Definition write : outcome (option (esdm_status * io_world)) :=
  esdm_scheduler_write_blocking zeroCast (fun _ => 0) 0 Z.leb Z.add scaled (fun _ _ _ _ => 1) (fun l => l) backends (fun _ => 1%nat) schedule (0%nat, 0) space false world.

Lemma blocks_space_ok : data_space space.
Proof. solve_data_space. Qed.

Lemma middle_ok : data_space middle.
Proof.
  solve_data_space.
Qed.

Lemma middle_injective : injective_layout middle.
Proof.
  intros p q Hp Hq E. apply in_cube_cons in Hp as (a & p' & -> & Ha & Hp). apply in_cube_cons in Hp as (b & p'' & -> & Hb & Hp). apply in_cube_nil in Hp as ->.
  apply in_cube_cons in Hq as (a' & q' & -> & Ha' & Hq). apply in_cube_cons in Hq as (b' & q'' & -> & Hb' & Hq). apply in_cube_nil in Hq as ->.
  unfold in_range in *. simpl in Ha, Hb, Ha', Hb'. unfold index, eff in E. simpl in E. f_equal; [lia |]. f_equal. lia.
Qed.

Lemma configured : backends_ok 0 Z.leb Z.add scaled (fun _ _ _ _ => 1) (fun l => l) backends space.
Proof.
  constructor; try done; [| constructor; [by vm_compute | constructor] | by repeat constructor | constructor; [unfold valid_backend; cbn; lia | constructor]]. exists 1, []. split; [done |]. split; [done |]. intros s total _ Hs [= <-]. vm_compute shares.
  constructor; [constructor; [constructor | constructor] | constructor; [lia | constructor]].
Qed.

Lemma growing : growing_ok (0%nat, 0) space data 2 world.
Proof.
  constructor; [constructor; try done | | | solve_id |].
  - exact (construct_inv (T := HashList.hashList) 2 ∅).
  - split; [by constructor | done].
  - split; [done |]. intros [| [| i]] d s o [= <-] [= <-] [= <-]; right; lia.
Qed.

Lemma blocks_ready : write_ready 0 Z.leb Z.add scaled (fun _ _ _ _ => 1) (fun l => l) backends (0%nat, 0) space data world (fun a => a) false.
Proof.
  constructor; try done; [exact growing | |].
  - intros c Hn Hi. apply hash_defined; [| by rewrite (Forall2_length _ _ _ Hi)].
    apply Forall2_cons_inv_r in Hi as (r & c' & [L1 L2] & Hi & ->). apply Forall2_cons_inv_r in Hi as (r' & c'' & [L3 L4] & Hi & ->).
    apply Forall2_nil_inv_r in Hi as ->. apply Forall_cons in Hn as [N1 Hn]. apply Forall_cons in Hn as [N2 _]. simpl in *. repeat constructor; lia.
  - intros commands E. vm_compute in E. injection E as <-. done.
Qed.

Lemma readable : read_ready (1%nat, 0) middle data world.
Proof.
  constructor; try done.
  - constructor; try done. exact (construct_inv (T := HashList.hashList) 2 ∅).
  - split; [done |]. eexists. vm_compute. reflexivity.
Qed.

End Blocks.


