(* ===== verification/GridIO.v ===== *)
(** Writing and reading the cells of a grid (src/esdm-grid.c): the search of the cell, the fragment of
    its shape, the request of the scheduler, and the completion of the grid. *)

From stdpp Require Import gmap.
From S2P Require Import Prelude Hypercube HypercubeSet Json Odometer Memory Dataspace Convert CopyData Partition Split Grid GridTree GridRegistry GridVisit GridRegion GridCover Fragment FragmentState Posix Fragments Request Dataset DatasetMetadata Scheduler SchedulerRead ReadBlocking SchedulerWrite WriteBlocking.

#[local] Set Warnings "-register-all,-notation-for-abbreviation".
Open Scope Z_scope.

Section Operations.

(** The parameters of the scheduler. *)
Context (floatCast : esdm_type_t -> esdm_type_t -> list Z -> list Z) (junk : mem).
Context {B : Type} `{DataBackend B} {T : Type} `{GHashTable T}.
Context {F : Type} (fzero : F) (fle : F -> F -> bool) (fadd : F -> F -> F) (scaled : F -> Z -> F -> Z).
Context (splitFactor : Z -> Z -> Z -> Z -> Z) (qsort : list dimInfo_t -> list dimInfo_t) (manyBytes : Z -> Z -> bool).
Context (data_backends : list (data_backend (F := F))) (threads : nat -> nat).

(** What a request works on, and all grids of the dataset; the dataset itself lists the complete ones. *)
Record grid_world := GridWorld { gw_io : io_world (B := B) (T := T); gw_grids : datasetGrids nat }.

Definition withGrids (d : esdm_dataset_t T) (gs : datasetGrids nat) : esdm_dataset_t T :=
  Dataset (dset_id d) (dset_space d) (fill_value d) (actual_size d) (dset_fragments d) (completeGrids gs) (dset_status d) (container_status d).

Definition setGrids (w : grid_world) (gs : datasetGrids nat) : grid_world :=
  let io := gw_io w in
  GridWorld (IoWorld (w_store io) (withGrids (w_dataset io) gs) (w_readStats io) (w_writeStats io)) gs.

Definition setFragments (w : grid_world) (d : esdm_dataset_t T) (objs : gmap nat esdm_fragment_t) : grid_world :=
  let io := gw_io w in
  GridWorld (IoWorld (Store objs (memory (w_store io)) (disk (w_store io))) d (w_readStats io) (w_writeStats io)) (gw_grids w).

(** The first steps of both operations, for the grid at a path below the top-level grid [h]: the path to
    the cell from the top-level grid, and the cell; [None] is [ESDM_INVALID_ARGUMENT_ERROR]. *)
Definition locateCell (h : nat) (at_ : list nat) (memspace : esdm_dataspace_t) (w : grid_world)
    : outcome (option (list nat * esdm_gridEntry_t (esdm_grid_t nat) nat) * grid_world) :=
  top ← deref (trees (gw_grids w) !! h);
  grid ← deref (gridAt top at_);
  if negb (dimCount grid =? dims memspace) then mret (None, w)
  else
    '(path, grid) ← esdm_grid_findCellInHierarchy grid memspace;
    gs ← onGrid (gw_grids w) h at_ (fun _ => mret (ESDM_SUCCESS, grid));
    let w := setGrids w gs in
    match path with
    | None => mret (None, w)
    | Some path => cell ← deref (cellAtPath grid path); mret (Some ((at_ ++ path)%list, cell), w)
    end.

(** [cell->fragment = fragment; esdmI_grid_registerCompletedCell(grid);] *)
Definition fillCell (h : nat) (path : list nat) (fragment : nat) (w : grid_world) : outcome grid_world :=
  gs ← perform (dims (dset_space (w_dataset (gw_io w)))) (FillCell h path fragment) (gw_grids w);
  mret (setGrids w gs).

(** The new fragment of a cell: its handle, whether it is new, and the state. *)
Definition createCell (h : nat) (path : list nat) (memspace : esdm_dataspace_t) (buffer : pointer) (w : grid_world)
    : outcome (nat * bool * grid_world) :=
  '(v, isNewFragment, d, objs) ← esdmI_dataset_createFragment (w_dataset (gw_io w)) (objects (w_store (gw_io w))) memspace (Some buffer);
  w ← fillCell h path v (setFragments w d objs);
  mret (v, isNewFragment, w).

(** The state after a request. *)
Definition afterRequest (w : grid_world) (r : option (esdm_status * io_world (B := B) (T := T))) : option (esdm_status * grid_world) :=
  match r with
  | Some (ret, io) => Some (ret, GridWorld io (gw_grids w))
  | None => None
  end.

Definition writeCell (schedule : list choice) (v : nat) (requestIsInternal : bool) (w : grid_world) : outcome (option (esdm_status * grid_world)) :=
  r ← esdmI_scheduler_writeFragmentBlocking floatCast junk fzero fle data_backends threads schedule v requestIsInternal (gw_io w);
  mret (afterRequest w r).

Definition esdm_write_grid (schedule : list choice) (h : nat) (at_ : list nat) (memspace : esdm_dataspace_t) (buffer : pointer) (w : grid_world)
    : outcome (option (esdm_status * grid_world)) :=
  '(result, w) ← locateCell h at_ memspace w;
  match result with
  | None => mret (Some (ESDM_INVALID_ARGUMENT_ERROR, w))
  | Some (path, cell) =>
      match fragment cell with
      | Some _ => mret (Some (ESDM_SUCCESS, w))
      | None =>
          f ← esdmI_dataset_lookupFragmentForShape (w_dataset (gw_io w)) memspace;
          match f with
          | Some v => w ← fillCell h path v w; mret (Some (ESDM_SUCCESS, w))
          | None =>
              '(v, isNewFragment, w) ← createCell h path memspace buffer w;
              if negb isNewFragment then mret (Some (ESDM_SUCCESS, w)) else writeCell schedule v false w
          end
      end
  end.

(** The fragment of the cell, which may be found by its shape. *)
Definition cellFragment (h : nat) (path : list nat) (cell : esdm_gridEntry_t (esdm_grid_t nat) nat) (memspace : esdm_dataspace_t) (w : grid_world)
    : outcome (option nat * grid_world) :=
  match fragment cell with
  | Some v => mret (Some v, w)
  | None =>
      f ← esdmI_dataset_lookupFragmentForShape (w_dataset (gw_io w)) memspace;
      match f with
      | Some v => w ← fillCell h path v w; mret (Some v, w)
      | None => mret (None, w)
      end
  end.

(** The three schedules are those of the read request, of its own write-back, which is not allowed here,
    and of the write of the new fragment, whose return code is ignored. *)
Definition esdm_read_grid (schedule writeback store : list choice) (h : nat) (at_ : list nat) (memspace : esdm_dataspace_t) (buffer : pointer)
    (w : grid_world) : outcome (option (esdm_status * grid_world)) :=
  '(result, w) ← locateCell h at_ memspace w;
  match result with
  | None => mret (Some (ESDM_INVALID_ARGUMENT_ERROR, w))
  | Some (path, cell) =>
      '(f, w) ← cellFragment h path cell memspace w;
      match f with
      | Some v =>
          r ← esdmI_scheduler_readSingleFragmentBlocking floatCast junk fzero fle data_backends threads schedule buffer memspace v (gw_io w);
          mret (afterRequest w r)
      | None =>
          r ← esdm_scheduler_read_blocking floatCast junk fzero fle fadd scaled splitFactor qsort manyBytes data_backends threads schedule writeback
                buffer memspace false false (gw_io w);
          match r with
          | None => mret None
          | Some (result, _, io) =>
              let w := GridWorld io (gw_grids w) in
              if decide (result = ESDM_SUCCESS) then
                '(v, isNewFragment, w) ← createCell h path memspace buffer w;
                if negb isNewFragment then mret (Some (ESDM_SUCCESS, w))
                else
                  r ← writeCell store v true w;
                  mret (match r with Some (_, w) => Some (ESDM_SUCCESS, w) | None => None end)
              else mret (Some (result, w))
          end
      end
  end.

End Operations.

(** * A request with one task *)

Section Single.

Context {Q T W : Type} (backendOf : T -> nat) (threads : nat -> nat) (prepare : Q -> W -> outcome (list (command Q T) * W))
  (perform : T -> W -> outcome (esdm_status * W)) (announced : Q -> bool).
Context (q : Q) (t : T) (w0 w1 w2 : W) (ret : esdm_status).
Hypothesis Hcommands : forall q w cs w', prepare q w = Done (cs, w') -> item_commands (announced q) cs.
Hypothesis Hsilent : announced q = false.
Hypothesis Hprepare : prepare q w0 = Done ([AddPending 1; Push t], w1).
Hypothesis Hperform : perform t w1 = Done (ret, w2).

Abbreviation log := [Prepared q [AddPending 1; Push t]].

(** The three states of the request. *)
Lemma single_happens (ev : list event) (w : W) :
  happens prepare perform [q] w0 ev w -> (ev = [] /\ w = w0) \/ (ev = log /\ w = w1) \/ (ev = (log ++ [Performed 0%nat ret])%list /\ w = w2).
Proof.
  induction 1 as [| ev w q' cs w' Hh IH Eq E | ev w i t' ret' w' Hh IH Et Hi E]; [by left | |].
  - destruct IH as [(-> & ->) | [(-> & ->) | (-> & ->)]]; try discriminate Eq. injection Eq as <-. rewrite Hprepare in E. injection E as <- <-. by right; left.
  - destruct IH as [(-> & ->) | [(-> & ->) | (-> & ->)]]; [discriminate Et | |].
    + apply list_lookup_singleton_Some in Et as [-> <-]. rewrite Hperform in E. injection E as <- <-. by right; right.
    + apply list_lookup_singleton_Some in Et as [-> _]. destruct Hi. by left.
Qed.

Lemma single_prepares (ev : list event) (w : W) (q' : Q) :
  happens prepare perform [q] w0 ev w -> [q] !! length (preparedItems ev) = Some q' -> exists cs w', prepare q' w = Done (cs, w').
Proof.
  intros [(-> & ->) | [(-> & ->) | (-> & ->)]]%single_happens Eq; try discriminate Eq. injection Eq as <-. eauto.
Qed.

Lemma single_performs (ev : list event) (w : W) (i : nat) (t' : T) :
  happens prepare perform [q] w0 ev w -> submitted ev !! i = Some t' -> i ∉ (results ev).*1 -> exists r w', perform t' w = Done (r, w').
Proof.
  intros [(-> & ->) | [(-> & ->) | (-> & ->)]]%single_happens Et Hi; [discriminate Et | |].
  - apply list_lookup_singleton_Some in Et as [-> <-]. eauto.
  - apply list_lookup_singleton_Some in Et as [-> _]. destruct Hi. by left.
Qed.

(** Every schedule gives the same result, and some schedule completes the request. *)
Lemma single_request :
  (forall schedule, run_request backendOf threads prepare perform schedule [Prepare q] w0 = Done None \/
                    run_request backendOf threads prepare perform schedule [Prepare q] w0 = Done (Some (ret, w2))) /\
  exists schedule, run_request backendOf threads prepare perform schedule [Prepare q] w0 = Done (Some (ret, w2)).
Proof.
  assert (Hann : announces announced 0 [@Prepare Q T q]) by (cbn; by rewrite Hsilent).
  assert (Hall : forall schedule, run_request backendOf threads prepare perform schedule [Prepare q] w0 = Done None \/
                    run_request backendOf threads prepare perform schedule [Prepare q] w0 = Done (Some (ret, w2))).
  { intros schedule. destruct (run_request_ok backendOf threads prepare perform [q] announced w0 schedule [Prepare q]) as (r & -> & Hr); try done;
      [apply single_prepares | apply single_performs |].
    destruct r as [[ret' w'] |]; [right | by left]. destruct (Hr ret' w' eq_refl) as (s & Ew & _ & ev & Hh & Hp & _ & Hperm & Hs & Hn). rewrite Ew in Hh.
    destruct (single_happens ev w' Hh) as [(-> & ->) | [(-> & ->) | (-> & ->)]]; [discriminate Hp | by apply Permutation_nil_cons in Hperm |].
    repeat f_equal. destruct (decide (ret' = ESDM_SUCCESS)) as [E | E].
    - rewrite E. symmetry. exact (Forall_inv (proj1 Hs E)).
    - by specialize (Hn E) as Hin%list_elem_of_singleton. }
  split; [exact Hall |].
  destruct (run_request_returns backendOf threads prepare perform [q] announced w0 [Prepare q]) as (schedule & ret' & w' & E); try done;
    [apply single_prepares | apply single_performs |].
  exists schedule. destruct (Hall schedule) as [E' | E']; [by rewrite E in E' | done].
Qed.

End Single.

(** * Paths *)

Section Paths.

Context {F : Type}.

Notation esdm_grid_t := (esdm_grid_t F).

Lemma gridAt_cons (top g : esdm_grid_t) (i : nat) (path : list nat) :
  gridAt top (i :: path) = Some g ->
  exists cs e child, grid top = Some cs /\ cs !! i = Some e /\ subgrid e = Some child /\ gridAt child path = Some g.
Proof.
  cbn [gridAt]. destruct (grid top) as [cs |] eqn:Hg; [| done]. simpl. destruct (cs !! i) as [e |] eqn:He; [| done]. simpl.
  destruct (subgrid e) as [child |] eqn:Hs; [| done]. simpl. eauto 10.
Qed.

(** The cells below the grid at a path. *)
Lemma cellAtPath_app (top g : esdm_grid_t) (path p : list nat) :
  gridAt top path = Some g -> p <> [] -> cellAtPath top (path ++ p) = cellAtPath g p.
Proof.
  revert top. induction path as [| i path IH]; intros top Hg Hp; [by injection Hg as -> |].
  apply gridAt_cons in Hg as (cs & e & child & Hg & He & Hs & Hc). cbn [app]. rewrite (cellAtPath_cons top cs i e _ Hg He) by (by destruct path).
  rewrite Hs. cbn [mbind option_bind]. by apply IH.
Qed.

Lemma leafExtents_app (top g : esdm_grid_t) (path p : list nat) : gridAt top path = Some g -> leafExtents top (path ++ p) = leafExtents g p.
Proof.
  revert top. induction path as [| i path IH]; intros top Hg; [by injection Hg as -> |].
  apply gridAt_cons in Hg as (cs & e & child & Hg & He & Hs & Hc). cbn [app leafExtents]. rewrite Hg. rewrite He. cbn [mbind option_bind]. rewrite Hs. by apply IH.
Qed.

(** The grid at a path is replaced by one with the same structure and contents. *)
Lemma atPath_same (path : list nat) (top g g' : esdm_grid_t) (st : esdm_status) :
  tree_wf top -> gridAt top path = Some g -> tree_wf g' -> same_tree g g' ->
  exists top', atPath (fun _ => mret (st, g')) top path = Done (st, top') /\ tree_wf top' /\ same_tree top top' /\ gridAt top' path = Some g'.
Proof.
  revert top. induction path as [| i path IH]; intros top Hwf Hg Hw' Hs; [injection Hg as ->; by exists g' |].
  apply gridAt_cons in Hg as (cs & e & child & Hg & He & Hse & Hc). destruct (child_dims top cs i e child Hwf Hg He Hse) as [Hwc _].
  destruct (IH child Hwc Hc Hw' Hs) as (child' & E & Hw2 & Hs2 & Hg2). cbn [atPath]. rewrite (getCell_lookup top cs i e Hg He). run. rewrite Hse. run. rewrite E. run.
  destruct (same_tree_child top cs i e child child' Hwf Hg He Hse Hw2 Hs2) as [Hw3 Hs3]. eexists. split; [done |]. split; [exact Hw3 |]. split; [exact Hs3 |].
  cbn [gridAt setCell grid]. rewrite Hg. cbn [fmap option_fmap option_map mbind option_bind].
  rewrite list_lookup_insert_eq by (by eapply lookup_lt_Some). exact Hg2.
Qed.

Lemma same_domain (g g' : esdm_grid_t) : same_tree g g' -> domain g' = domain g.
Proof. intros Hs. unfold domain. by rewrite (sm_axes _ _ Hs). Qed.

End Paths.

(** * The cells of a dataset *)

Section Cells.

(** The fragment and the extents of a cell without subgrid. *)
Definition fragmentOf (gs : datasetGrids nat) (h : nat) (p : list nat) : option nat := trees gs !! h ≫= fun top => fragmentAt top p.
Definition extentsOf (gs : datasetGrids nat) (h : nat) (p : list nat) : option esdmI_hypercube_t := trees gs !! h ≫= fun top => leafExtents top p.

(** Every cell has its extents and its fragment, except for one, whose fragment is set. *)
Record placed (n : Z) (gs gs' : datasetGrids nat) (h : nat) (path : list nat) (o : option nat) : Prop := {
  pl_inv : grids_inv n gs';
  pl_axes : forall k, axes <$> trees gs' !! k = axes <$> trees gs !! k;
  pl_extents : forall k p, extentsOf gs' k p = extentsOf gs k p;
  pl_fragments : forall k p, fragmentOf gs' k p = if decide (k = h /\ p = path) then o else fragmentOf gs k p
}.

(** The fragments in the cells have the extents of their cells. *)
Definition linked (gs : datasetGrids nat) (objs : gmap nat esdm_fragment_t) : Prop :=
  forall h p v, fragmentOf gs h p = Some v -> exists f, objs !! v = Some f /\ extentsOf gs h p = Some (extends (dataspace f)).

Lemma placed_trans (n : Z) (gs1 gs2 gs3 : datasetGrids nat) (h : nat) (path : list nat) (o o' : option nat) :
  placed n gs1 gs2 h path o -> placed n gs2 gs3 h path o' -> placed n gs1 gs3 h path o'.
Proof.
  intros [_ A1 E1 F1] [I2 A2 E2 F2]. constructor; [done | intros k; by rewrite A2 | intros k p; by rewrite E2 |]. intros k p. rewrite F2. case_decide; [done |]. rewrite F1. by rewrite decide_False.
Qed.

Lemma placed_linked (n : Z) (gs gs' : datasetGrids nat) (objs : gmap nat esdm_fragment_t) (h : nat) (path : list nat) (o : option nat) :
  placed n gs gs' h path o -> linked gs objs ->
  (forall v, o = Some v -> exists f, objs !! v = Some f /\ extentsOf gs h path = Some (extends (dataspace f))) -> linked gs' objs.
Proof.
  intros [_ _ E F] Hl Ho k p v. rewrite F, E. case_decide as Hd; [destruct Hd as [-> ->]; apply Ho | apply Hl].
Qed.

Lemma linked_mono (gs : datasetGrids nat) (objs objs' : gmap nat esdm_fragment_t) :
  linked gs objs -> (forall v f, objs !! v = Some f -> exists f', objs' !! v = Some f' /\ extends (dataspace f') = extends (dataspace f)) -> linked gs objs'.
Proof.
  intros Hl Ho h p v Hv. destruct (Hl h p v Hv) as (f & Ef & He). destruct (Ho v f Ef) as (f' & Ef' & E). exists f'. by rewrite E.
Qed.

Lemma lookup_insert_tree (ts : list (esdm_grid_t nat)) (h k : nat) (top top' : esdm_grid_t nat) :
  ts !! h = Some top -> <[h := top']> ts !! k = if decide (k = h) then Some top' else ts !! k.
Proof.
  intros Ht. case_decide as Hd; [subst k; apply list_lookup_insert_eq; by eapply lookup_lt_Some | by rewrite list_lookup_insert_ne by congruence].
Qed.

(** The grid in which the cell lies has been replaced. *)
Lemma placed_tree (n : Z) (gs gs' : datasetGrids nat) (h : nat) (path : list nat) (o : option nat) (top top' : esdm_grid_t nat) :
  grids_inv n gs' -> trees gs !! h = Some top -> trees gs' = <[h := top']> (trees gs) -> axes top' = axes top -> (forall p, leafExtents top' p = leafExtents top p) ->
  (forall p, fragmentAt top' p = if decide (p = path) then o else fragmentAt top p) -> placed n gs gs' h path o.
Proof.
  intros Hi Ht Et Ha Hl Hf. constructor; [done | intros k | intros k p | intros k p]; unfold extentsOf, fragmentOf; rewrite Et, (lookup_insert_tree _ h k top top' Ht).
  - destruct (decide (k = h)) as [-> | Hne]; [| done]. rewrite Ht. cbn [fmap option_fmap option_map]. by rewrite Ha.
  - destruct (decide (k = h)) as [-> | Hne]; [| done]. rewrite Ht. cbn [mbind option_bind]. by rewrite Hl.
  - destruct (decide (k = h)) as [-> | Hne]; [| rewrite decide_False by (by intros [? _]); done]. rewrite Ht. cbn [mbind option_bind]. rewrite Hf.
    destruct (decide (p = path)) as [-> | Hp]; [by rewrite decide_True | by rewrite decide_False by (by intros [_ ?])].
Qed.

Context {B : Type} `{DataBackend B} {T : Type} `{GHashTable T} (sp : esdm_dataspace_t).
Hypothesis Hsp : data_space sp.

Abbreviation region := (extends sp).

(** The grids of a dataset and its fragments. *)
Record cells_ok (w : grid_world (B := B) (T := T)) : Prop := {
  ck_grids : grids_inv (dims sp) (gw_grids w);
  ck_linked : linked (gw_grids w) (objects (w_store (gw_io w)));
  ck_view : dset_grids (w_dataset (gw_io w)) = completeGrids (gw_grids w)
}.

(** The search of the cell below a grid. *)
Lemma locate_ok (w : grid_world (B := B) (T := T)) (h : nat) (at_ : list nat) (top g : esdm_grid_t nat) :
  cells_ok w -> trees (gw_grids w) !! h = Some top -> gridAt top at_ = Some g ->
  exists r gs, locateCell h at_ sp w = Done (r, setGrids w gs) /\
  match r with
  | Some (path, cell) => exists p o top', path = (at_ ++ p)%list /\ cell = Entry None o /\ leafExtents g p = Some region /\ trees gs !! h = Some top' /\
      cellAtPath top' path = Some (Entry None o) /\ fragmentOf (gw_grids w) h path = o /\ placed (dims sp) (gw_grids w) gs h path o
  | None => (forall p, leafExtents g p <> Some region) /\ placed (dims sp) (gw_grids w) gs h [] None
  end.
Proof.
  intros [Hi _ _] Ht Hg. destruct (gv_trees _ _ Hi h top Ht) as [Hwf Hd]. destruct (gridAt_wf at_ top g Hwf Hg) as [Hwg Hdg].
  pose proof Hsp as [Hw H64 Hpos _ _ _]. unfold locateCell. rewrite Ht. run. rewrite Hg. run. rewrite Hdg, Hd, Z.eqb_refl. cbn [negb].
  destruct (findCellInHierarchy_loop_ok sp Hw H64 (volume_pos_sizes sp Hsp) (depth g) g Hwg) as (r & g' & E & Hw' & Hs & Hr); [congruence | lia |].
  unfold esdm_grid_findCellInHierarchy. rewrite E. run.
  destruct (atPath_same at_ top g g' ESDM_SUCCESS Hwf Hg Hw' Hs) as (top' & Ea & Hwt & Hst & Hgt).
  destruct (onGrid_inv (dims sp) (gw_grids w) h at_ top g (fun _ => mret (ESDM_SUCCESS, g')) Hi Ht Hg) as (gs & Eo & Hi').
  { intros _. exists ESDM_SUCCESS, g'. split; [done |]. split; [done |]. split; [by apply same_domain | apply Hs]. }
  rewrite Eo. run. assert (Et : trees gs = <[h := top']> (trees (gw_grids w))).
  { unfold onGrid in Eo. rewrite Ht in Eo. cbn [deref mbind outcome_bind] in Eo. rewrite Ea in Eo. by injection Eo as <-. }
  assert (Hpl : forall path, placed (dims sp) (gw_grids w) gs h path (fragmentOf (gw_grids w) h path)).
  { intros path. eapply placed_tree; [exact Hi' | exact Ht | exact Et | apply Hst | apply Hst |]. intros p. rewrite (sm_fragments _ _ Hst). case_decide as Hp; [subst p | done].
    unfold fragmentOf. by rewrite Ht. }
  destruct r as [p |].
  - destruct Hr as [Hl (o & Hc)]. rewrite Hc. run. assert (Hp : p <> []) by (by intros ->). rewrite <- (cellAtPath_app top' g' at_ p Hgt Hp) in Hc.
    assert (Hfo : fragmentOf (gw_grids w) h (at_ ++ p) = o).
    { unfold fragmentOf. rewrite Ht. cbn [mbind option_bind]. rewrite <- (sm_fragments _ _ Hst). unfold fragmentAt. by rewrite Hc. }
    eexists _, gs. split; [done |]. exists p, o, top'. split; [done |]. split; [done |]. split; [done |].
    split; [rewrite Et; apply list_lookup_insert_eq; by eapply lookup_lt_Some |]. split; [done |]. split; [done |]. specialize (Hpl (at_ ++ p)%list). by rewrite Hfo in Hpl.
  - eexists _, gs. split; [done |]. split; [exact Hr |]. specialize (Hpl []). unfold fragmentOf in Hpl. by rewrite Ht in Hpl.
Qed.

(** An empty cell is filled. *)
Lemma fill_ok (w : grid_world (B := B) (T := T)) (h : nat) (path : list nat) (v : nat) (top : esdm_grid_t nat) :
  grids_inv (dims sp) (gw_grids w) -> trees (gw_grids w) !! h = Some top -> cellAtPath top path = Some (Entry None None) ->
  exists gs, fillCell h path v w = Done (setGrids w gs) /\ placed (dims sp) (gw_grids w) gs h path (Some v).
Proof.
  intros Hi Ht Hc. destruct (fillCell_inv (dims sp) (gw_grids w) h path v top Hi Ht Hc) as (gs & top' & E & Hi' & Et & Hcomp). exists gs. unfold fillCell.
  change (perform (dims (dset_space (w_dataset (gw_io w)))) (FillCell h path v) (gw_grids w)) with (perform (dims sp) (FillCell h path v) (gw_grids w)).
  rewrite E. run. split; [done |]. eapply placed_tree; [exact Hi' | exact Ht | exact Et | apply Hcomp | apply Hcomp | apply Hcomp].
Qed.

End Cells.
