(* ===== verification/GridMerge.v ===== *)
(** Merging a grid with the grid of another process (src/esdm-grid.c): the holes of the grid are filled
    with the fragments that the serialised grid of the other process has. *)

From Stdlib Require Import Ascii.
From stdpp Require Import gmap strings pretty.
From S2P Require Import Prelude Memory Hypercube HypercubeSet Json JsonText Odometer Dataspace Convert CopyData Partition Split Grid GridTree GridRegistry GridVisit GridRegion GridCover Fragment FragmentState Posix Fragments Request Dataset Metadata GridJson DatasetMetadata GridIO.

#[local] Set Warnings "-register-all,-notation-for-abbreviation".
Open Scope Z_scope.

(** * Operations *)

Section Operations.

Context {T : Type} `{GHashTable T} `{Jansson} (backendIds : list string).

(** What a merge changes: the grids and the fragment objects. *)
Definition merge_state : Type := datasetGrids nat * gmap nat esdm_fragment_t.

(** One cell of the grid at a path of the top-level grid [h], with the call for a subgrid; the shared grid is
    read again for every cell. *)
Definition merge_cell (mergeSubgrid : list nat -> json -> merge_state -> outcome (esdm_status * merge_state)) (dset : esdm_dataset_t T) (h : nat) (path : list nat)
    (i : nat) (jsonCell : json) (s : merge_state) : outcome (esdm_status * merge_state) :=
  top ← deref (trees s.1 !! h);
  g ← deref (gridAt top path);
  cell ← getCell g i;
  eassert (negb (bool_decide (is_Some (fragment cell)) && bool_decide (is_Some (subgrid cell))));;
  match fragment cell, subgrid cell with
  | Some _, _ => mret (ESDM_SUCCESS, s)
  | None, Some child =>
      if emptyCells child =? 0 then mret (ESDM_SUCCESS, s)
      else if negb (json_is_object jsonCell) then mret (ESDM_INVALID_DATA_ERROR, s)
      else
        match jansson_object_get jsonCell "subgrid" with
        | None => mret (ESDM_SUCCESS, s)
        | Some jsonSubgrid =>
            if negb (json_is_object jsonSubgrid) then mret (ESDM_INVALID_DATA_ERROR, s)
            else mergeSubgrid (path ++ [i])%list jsonSubgrid s
        end
  | None, None =>
      if negb (json_is_object jsonCell) then mret (ESDM_INVALID_DATA_ERROR, s)
      else
        match jansson_object_get jsonCell "fragment" with
        | None => mret (ESDM_SUCCESS, s)
        | Some jsonFragment =>
            if negb (json_is_object jsonFragment) then mret (ESDM_INVALID_DATA_ERROR, s)
            else
              '(result, v, objs) ← esdmI_create_fragment_from_metadata backendIds dset s.2 (Some jsonFragment);
              if decide (result = ESDM_SUCCESS) then
                v ← deref v;
                gs ← perform (dims (dset_space dset)) (FillCell h (path ++ [i])%list v) s.1;
                mret (ESDM_SUCCESS, (gs, objs))
              else mret (result, (s.1, objs))
        end
  end.

(** The loop over the cells; an error is returned at once. *)
Fixpoint merge_cells (mergeSubgrid : list nat -> json -> merge_state -> outcome (esdm_status * merge_state)) (dset : esdm_dataset_t T) (h : nat) (path : list nat)
    (i : nat) (jsonCells : list json) (s : merge_state) : outcome (esdm_status * merge_state) :=
  match jsonCells with
  | [] => mret (ESDM_SUCCESS, s)
  | jsonCell :: jsonCells' =>
      '(result, s) ← merge_cell mergeSubgrid dset h path i jsonCell s;
      if decide (result = ESDM_SUCCESS) then merge_cells mergeSubgrid dset h path (S i) jsonCells' s else mret (result, s)
  end.

(** The merge of the grid at a path; [fuel] bounds the depth of the document. *)
Fixpoint esdmI_grid_mergeWithJson (fuel : nat) (dset : esdm_dataset_t T) (h : nat) (path : list nat) (json : json) (s : merge_state)
    : outcome (esdm_status * merge_state) :=
  match fuel with
  | O => Undef
  | S fuel' =>
      top ← deref (trees s.1 !! h);
      g ← deref (gridAt top path);
      eassert (bool_decide (is_Some (Grid.id g)));;
      eassert (bool_decide (is_Some (grid g)));;
      if negb (json_is_object json) then mret (ESDM_INVALID_DATA_ERROR, s)
      else
        match jansson_object_get json "id" with
        | Some (JString i) =>
            if decide (Grid.id g = Some i) then
              match jansson_object_get json "grid" with
              | Some (JArray jsonGrid) =>
                  cellCount ← esdmI_grid_cellCount g;
                  if negb (Z.of_nat (length jsonGrid) =? cellCount) then mret (ESDM_INVALID_DATA_ERROR, s)
                  else merge_cells (fun path json s => esdmI_grid_mergeWithJson fuel' dset h path json s) dset h path 0 jsonGrid s
              | _ => mret (ESDM_INVALID_DATA_ERROR, s)
              end
            else mret (ESDM_INVALID_STATE_ERROR, s)
        | _ => mret (ESDM_INVALID_DATA_ERROR, s)
        end
  end.

Definition esdmI_grid_mergeWithString (dset : esdm_dataset_t T) (h : nat) (path : list nat) (serializedGrid : string) (s : merge_state)
    : outcome (esdm_status * merge_state) :=
  match load_json serializedGrid with
  | None => mret (ESDM_ERROR, s)
  | Some json => esdmI_grid_mergeWithJson (S (json_depth json)) dset h path json s
  end.

(** A new grid of the dataset from a text. *)
Definition esdmI_grid_createFromString (serializedGrid : string) (dset : esdm_dataset_t T) (s : merge_state) : outcome (esdm_status * option nat * merge_state) :=
  match load_json serializedGrid with
  | None => mret (ESDM_ERROR, None, s)
  | Some json =>
      '(result, g, gs, objs) ← esdmI_grid_createFromJson backendIds json dset s.1 s.2;
      mret (result, g, (gs, objs))
  end.

End Operations.

(** * Correctness *)

Section Merging.

Context {T : Type} `{GHashTableLaws T} `{JanssonLaws} (backendIds : list string) (makeId : nat -> string).
Hypothesis Hids : NoDup backendIds.
Hypothesis Hmake : forall k, plain (makeId k) = true.

(** The dataset and the number of its dimensions, the top-level grid, and the fragments of the other process. *)
Context (d : esdm_dataset_t T) (n : nat) (h : nat) (remote : gmap nat esdm_fragment_t).

Abbreviation N := (Z.of_nat n).

(** The fragment of the other process fits into a cell. *)
Definition fits (c : esdmI_hypercube_t) (v : nat) : Prop :=
  exists f, remote !! v = Some f /\ storable backendIds (dset_space d) f /\ key_ok n c /\ extends (dataspace f) = c.

(** A merge from [s] to [s'] represents the fragment [v] of the other process by [u]: by the fragment of the same shape in the
    table of the dataset when there is one, otherwise by a new object that the description of the fragment gives. *)
Definition represents (s s' : merge_state) (v u : nat) : Prop :=
  exists f, remote !! v = Some f /\
  ((extends (dataspace f), u) ∈ g_hash_table_entries (dset_fragments d) \/
   ((extends (dataspace f) ∉ (g_hash_table_entries (dset_fragments d)).*1) /\ s.2 !! u = None /\ s'.2 !! u = Some (reloaded (dset_id d) f))).

Lemma represents_mono (s0 s s' s1 : merge_state) (v u : nat) : s0.2 ⊆ s.2 -> s'.2 ⊆ s1.2 -> represents s s' v u -> represents s0 s1 v u.
Proof.
  intros Hs Hs' (f & Ef & [Hin | (Hn & Hu & Eu)]); exists f; (split; [done |]); [by left | right]. split; [done |].
  split; [by eapply lookup_weaken_None | by eapply lookup_weaken].
Qed.

(** What a merge leaves of the cell with number [j] when the other process has the cell [e]: an empty cell
    without subgrid gets the fragment that the other process has. *)
Definition cell_merged (s s' : merge_state) (j : nat) (e : cell_t) : Prop :=
  match fragmentOf s.1 h [j], extentsOf s.1 h [j], e with
  | None, Some _, Entry None (Some v) => exists u, fragmentOf s'.1 h [j] = Some u /\ represents s s' v u
  | o, _, _ => fragmentOf s'.1 h [j] = o
  end.

(** The state during a merge. *)
Record merging (s : merge_state) : Prop := {
  mg_grids : grids_inv N s.1;
  mg_linked : linked s.1 s.2;
  mg_table : fragments_inv n (dset_fragments d) s.2;
  mg_top : exists top cs, trees s.1 !! h = Some top /\ grid top = Some cs
}.

(** What the cells numbered from [k] can have changed. *)
Record merged_from (k : nat) (es : list cell_t) (s s' : merge_state) : Prop := {
  mf_state : merging s';
  mf_objects : s.2 ⊆ s'.2;
  mf_axes : forall x, axes <$> trees s'.1 !! x = axes <$> trees s.1 !! x;
  mf_extents : forall x p, extentsOf s'.1 x p = extentsOf s.1 x p;
  mf_others : forall x p, (x = h -> forall j, p = [j] -> (j < k \/ k + length es <= j)%nat) -> fragmentOf s'.1 x p = fragmentOf s.1 x p;
  mf_cells : forall j e, es !! j = Some e -> cell_merged s s' (k + j) e;
  mf_new : forall u, s.2 !! u = None -> is_Some (s'.2 !! u) -> exists j, (j < k + length es)%nat /\ fragmentOf s'.1 h [j] = Some u
}.

Lemma merged_nil (k : nat) (s : merge_state) : merging s -> merged_from k [] s s.
Proof. intros Hs. constructor; try done. intros u -> [? [=]]. Qed.

(** One step, and the rest of the cells. *)
Lemma merged_cons (k : nat) (e : cell_t) (es : list cell_t) (s s1 s2 : merge_state) :
  merged_from k [e] s s1 -> merged_from (S k) es s1 s2 -> merged_from k (e :: es) s s2.
Proof.
  intros [A1 A2 A3 A4 A5 A6 A7] [B1 B2 B3 B4 B5 B6 B7]. constructor.
  - done.
  - by etransitivity.
  - intros x. by rewrite B3.
  - intros x p. by rewrite B4.
  - intros x p Hx. rewrite B5, A5; [done | |]; intros E j Ej; specialize (Hx E j Ej); cbn [length] in *; lia.
  - intros [| j] e' Ej.
    + injection Ej as <-. specialize (A6 0%nat e eq_refl). rewrite Nat.add_0_r in *. unfold cell_merged in *. rewrite (B5 h [k]) by (intros _ j [= <-]; lia).
      destruct (fragmentOf s.1 h [k]), (extentsOf s.1 h [k]), e as [[] []]; try exact A6. destruct A6 as (u & Eu & Hu). exists u. split; [exact Eu |].
      by apply (represents_mono s s s1 s2).
    + specialize (B6 j e' Ej). replace (k + S j)%nat with (S k + j)%nat by lia. unfold cell_merged in *. rewrite A4, (A5 h [(S k + j)%nat]) in B6 by (intros _ j' [= <-]; cbn [length]; lia).
      destruct (fragmentOf s.1 h [(S k + j)%nat]), (extentsOf s.1 h [(S k + j)%nat]), e' as [[] []]; try exact B6. destruct B6 as (u & Eu & Hu). exists u. split; [exact Eu |].
      by apply (represents_mono s s1 s2 s2).
  - intros u Hu Hu2. cbn [length] in *. destruct (s1.2 !! u) as [f |] eqn:E1.
    + destruct (A7 u Hu) as (j & Hj & Ej); [by eexists |]. exists j. split; [lia |]. rewrite B5; [done |]. intros _ j' [= <-]. lia.
    + destruct (B7 u E1 Hu2) as (j & Hj & Ej). exists j. split; [lia | done].
Qed.

(** The cell is left as it is. *)
Lemma merged_same (k : nat) (e : cell_t) (s : merge_state) :
  merging s -> (fragmentOf s.1 h [k] = None -> extentsOf s.1 h [k] = None \/ fragment e = None \/ is_Some (subgrid e)) -> merged_from k [e] s s.
Proof.
  intros Hs Hc. constructor; try done; [| intros u -> [? [=]]]. intros [| j] e' Ej; [| done]. injection Ej as <-. rewrite Nat.add_0_r. unfold cell_merged.
  destruct (fragmentOf s.1 h [k]) as [v |] eqn:E; [done |]. destruct (Hc eq_refl) as [-> | [Hf | [g Hg]]]; [done | |].
  - destruct (extentsOf s.1 h [k]), e as [[] []]; cbn in Hf; done.
  - destruct (extentsOf s.1 h [k]), e as [[] []]; cbn in Hg; done.
Qed.

(** The cell gets the fragment of the other process. *)
Lemma merged_filled (k u v : nat) (s : merge_state) (gs : datasetGrids nat) (objs : gmap nat esdm_fragment_t) (f : esdm_fragment_t) :
  merging s -> placed N s.1 gs h [k] (Some v) -> s.2 ⊆ objs -> objs !! v = Some f -> extentsOf s.1 h [k] = Some (extends (dataspace f)) ->
  fragmentOf s.1 h [k] = None -> represents s (gs, objs) u v -> (forall x, s.2 !! x = None -> is_Some (objs !! x) -> x = v) ->
  merged_from k [Entry None (Some u)] s (gs, objs).
Proof.
  intros [M1 M2 M3 M4] Hp Hsub Ef He Hn Hrep Hnew. pose proof Hp as [P1 P2 P3 P4]. constructor; cbn [fst snd]; try done.
  - constructor; cbn [fst snd]; [done | | by eapply fragments_inv_mono |].
    + eapply placed_linked; [exact Hp | | intros ? [= <-]; by exists f]. eapply linked_mono; [exact M2 |]. intros x g Eg. exists g. split; [by eapply lookup_weaken | done].
    + destruct M4 as (top & cs & Ht & Hg). specialize (P2 h). rewrite Ht in P2. destruct (trees gs !! h) as [top' |] eqn:Ht'; [| discriminate P2].
      specialize (P4 h [k]). rewrite decide_True in P4 by done. unfold fragmentOf in P4. rewrite Ht' in P4. cbn in P4. unfold fragmentAt in P4. cbn [cellAtPath] in P4.
      destruct (grid top') as [cs' |] eqn:Eg; [by exists top', cs' | discriminate P4].
  - intros x p Hx. rewrite P4, decide_False; [done |]. intros [-> ->]. specialize (Hx eq_refl k eq_refl). cbn [length] in Hx. lia.
  - intros [| j] e' Ej; [| done]. injection Ej as <-. rewrite Nat.add_0_r. unfold cell_merged. rewrite Hn, He, P4, decide_True by done.
    by exists v.
  - intros x Ex Hx. specialize (Hnew x Ex Hx) as ->. exists k. cbn [length]. split; [lia |]. by rewrite P4, decide_True.
Qed.

(** ** One cell *)

Section Cell.

Context (mergeSubgrid : list nat -> json -> merge_state -> outcome (esdm_status * merge_state)).

(** The cell of the other process fits. *)
Definition cell_fits (k : nat) (e : cell_t) (gs : datasetGrids nat) : Prop :=
  (forall v c, e = Entry None (Some v) -> extentsOf gs h [k] = Some c -> fits c v) /\
  (forall top, trees gs !! h = Some top -> Z.of_nat k < cellTotal (axes top)).

Lemma merge_cell_ok (k : nat) (e : cell_t) (s : merge_state) :
  merging s -> cell_fits k e s.1 ->
  exists s', merge_cell backendIds mergeSubgrid d h [] k (cell_json backendIds remote e) s = Done (ESDM_SUCCESS, s') /\ merged_from k [e] s s'.
Proof.
  intros Hs [Hfit Hk]. pose proof Hs as [M1 M2 M3 (top & cs & Ht & Hg)]. specialize (Hk top Ht). destruct (gv_trees _ _ M1 h top Ht) as [Hwf _].
  pose proof (tree_node top Hwf) as Hnode. destruct (lookup_lt_is_Some_2 cs k) as [le Hle]; [pose proof (nw_cells _ Hnode cs Hg); lia |].
  assert (Efr : fragmentOf s.1 h [k] = fragment le) by (unfold fragmentOf; rewrite Ht; cbn; unfold fragmentAt; cbn [cellAtPath]; rewrite Hg; cbn; by rewrite Hle).
  assert (Eex : subgrid le <> None -> extentsOf s.1 h [k] = None).
  { intros Hsub. unfold extentsOf. rewrite Ht. cbn [mbind option_bind leafExtents]. rewrite Hg. rewrite Hle. cbn [mbind option_bind]. by destruct (subgrid le). }
  assert (Hstay : (fragmentOf s.1 h [k] = None -> extentsOf s.1 h [k] = None \/ fragment e = None \/ is_Some (subgrid e)) ->
    exists s', mret (M := outcome) (ESDM_SUCCESS, s) = Done (ESDM_SUCCESS, s') /\ merged_from k [e] s s') by (intros Hc; exists s; split; [done | by apply merged_same]).
  unfold merge_cell. rewrite Ht. run. cbn [gridAt]. run. rewrite (getCell_lookup top cs k le Hg Hle). run.
  rewrite eassert_true by (destruct (nw_exclusive _ Hnode cs k le Hg Hle) as [-> | ->]; [by rewrite andb_comm | done]). run.
  destruct (fragment le) as [v |] eqn:Ef; [apply Hstay; by rewrite Efr |]. destruct (subgrid le) as [child |] eqn:Es.
  - assert (Hno : extentsOf s.1 h [k] = None) by (by apply Eex). destruct (emptyCells child =? 0); [apply Hstay; by left |].
    assert (Hobj : json_is_object (cell_json backendIds remote e) = true) by (by destruct e as [[] []]). rewrite Hobj. cbn [negb].
    assert (Hget : jansson_object_get (cell_json backendIds remote e) "subgrid" = None) by (by destruct e as [[] []]). rewrite Hget. apply Hstay. by left.
  - destruct e as [[g |] [v |]]; [apply Hstay; right; right; by eexists | apply Hstay; right; right; by eexists | | apply Hstay; by right; left].
    assert (Hcell : cellAtPath top [k] = Some (Entry None None)).
    { cbn [cellAtPath]. rewrite Hg. cbn [mbind option_bind]. rewrite Hle. cbn [mbind option_bind]. destruct le as [a b]. cbn in *. by subst. }
    assert (Hx : exists c, extentsOf s.1 h [k] = Some c).
    { unfold extentsOf. rewrite Ht. cbn [mbind option_bind leafExtents]. rewrite Hg, Hle. cbn [mbind option_bind]. rewrite Es. by eexists. }
    destruct Hx as [c Hc]. destruct (Hfit v c eq_refl Hc) as (f & Er & Hst & Hkey & Efc). cbn [cell_json]. rewrite Er. cbn [from_option json_is_object negb].
    set (doc := fragment_json backendIds f). change (jansson_object_get (JObject [("fragment"%string, doc)]) "fragment") with (Some doc). cbn iota beta.
    change (json_is_object doc) with true. cbn [negb].
    destruct (create_fragment_ok backendIds Hids n d s.2 f Hst M3) as (v' & objs' & E & Hcase); [by rewrite Efc |]. fold doc in E. rewrite E. run.
    rewrite decide_True by done. run. cbn [app]. change (perform (dims (dset_space d)) (FillCell h [k] v') s.1) with (perform N (FillCell h [k] v') s.1).
    destruct (fillCell_inv N s.1 h [k] v' top M1 Ht Hcell) as (gs & top' & -> & Hgs & Et & Hcomp). run. eexists. split; [done |].
    assert (Hp : placed N s.1 gs h [k] (Some v')) by (eapply placed_tree; [exact Hgs | exact Ht | exact Et | apply Hcomp | apply Hcomp | apply Hcomp]).
    destruct Hcase as [(-> & Hin) | (-> & Hv & Hfresh)].
    + destruct (fs_objects _ _ _ M3 _ _ Hin) as (f' & Ef' & _ & Ex'). eapply merged_filled; [done | done | done | exact Ef' | congruence | done | by exists f; split; [| left] |].
      intros x -> [? [=]].
    + eapply merged_filled; [done | done | by apply insert_subseteq | apply lookup_insert_eq | | done | |].
      * rewrite Hc. by rewrite <- Efc.
      * exists f. split; [done |]. right. cbn [snd]. by rewrite lookup_insert_eq.
      * intros x Ex Hx. destruct (decide (x = v')) as [-> | Hne]; [done |]. rewrite lookup_insert_ne in Hx by done. rewrite Ex in Hx. by destruct Hx.
Qed.

Lemma merge_cells_ok (es : list cell_t) (k : nat) (s : merge_state) :
  merging s -> (forall j e, es !! j = Some e -> cell_fits (k + j) e s.1) ->
  exists s', merge_cells backendIds mergeSubgrid d h [] k (cell_json backendIds remote <$> es) s = Done (ESDM_SUCCESS, s') /\ merged_from k es s s'.
Proof.
  revert k s. induction es as [| e es IH]; intros k s Hs Hfit; cbn [fmap list_fmap merge_cells]; [exists s; split; [done | by apply merged_nil] |].
  destruct (merge_cell_ok k e s Hs) as (s1 & -> & Hm); [specialize (Hfit 0%nat e eq_refl); by rewrite Nat.add_0_r in Hfit |]. run. rewrite decide_True by done.
  destruct (IH (S k) s1) as (s2 & -> & Hm2); [apply Hm | | exists s2; split; [done | by eapply merged_cons]].
  intros j e' Ej. specialize (Hfit (S j) e' Ej). replace (S k + j)%nat with (k + S j)%nat by lia. destruct Hfit as [F1 F2]. destruct Hm as [_ _ A3 A4 _ _ _]. split.
  - intros v c Ee Hc. rewrite A4 in Hc. by apply (F1 v c).
  - intros top1 Ht1. specialize (A3 h). rewrite Ht1 in A3. destruct (trees s.1 !! h) as [top |]; [| discriminate A3]. injection A3 as ->. by apply F2.
Qed.

End Cell.

(** ** The whole grid *)

(** The other process has the same grid, with fragments that fit. *)
Record counterpart (top r : grid_t) : Prop := {
  cn_wf : tree_wf r;
  cn_storable : grid_storable backendIds remote (dset_space d) r;
  cn_id : exists i, Grid.id top = Some i /\ Grid.id r = Some i;
  cn_axes : axes r = axes top;
  cn_depth : (depth r <= 681)%nat;
  cn_linked : forall j v f, fragmentAt r [j] = Some v -> remote !! v = Some f -> leafExtents r [j] = Some (extends (dataspace f)) /\ key_ok n (extends (dataspace f))
}.

Lemma counterpart_fits (top r : grid_t) (csr : list cell_t) (j v : nat) (c : esdmI_hypercube_t) (e : cell_t) :
  counterpart top r -> grid r = Some csr -> csr !! j = Some e -> subgrid e = None -> fragment e = Some v ->
  leafExtents top [j] = Some c -> fits c v.
Proof.
  intros [C1 C2 C3 C4 C5 C6] Hg He Hs Hf Hl. destruct C2 as [cs Eg _ Hfr _]. rewrite Hg in Eg. injection Eg as <-. destruct (Hfr j e v He Hf) as (f & Er & Hst).
  assert (Hfa : fragmentAt r [j] = Some v) by (unfold fragmentAt; cbn [cellAtPath]; rewrite Hg; cbn [mbind option_bind]; rewrite He; exact Hf).
  destruct (C6 j v f Hfa Er) as [Hlr Hk]. exists f. split; [done |]. split; [done |]. cut (extends (dataspace f) = c); [intros <-; done |].
  cbn [leafExtents] in Hlr, Hl. rewrite Hg, He, C4 in Hlr. cbn [mbind option_bind] in Hlr. rewrite Hs in Hlr. destruct (grid top) as [cs |].
  - destruct (cs !! j) as [le |]; [| done]. cbn [mbind option_bind] in Hl. destruct (subgrid le); [done |]. congruence.
  - destruct (Z.of_nat j <? cellTotal (axes top)); [congruence | done].
Qed.

Lemma merge_document (s : merge_state) (top r' : grid_t) (csr : list cell_t) (i : string) (fuel : nat) :
  merging s -> trees s.1 !! h = Some top -> Grid.id top = Some i -> Grid.id r' = Some i -> grid r' = Some csr -> Z.of_nat (length csr) = cellTotal (axes top) ->
  (forall j e, csr !! j = Some e -> cell_fits j e s.1) ->
  exists s', esdmI_grid_mergeWithJson backendIds (S fuel) d h [] (grid_json backendIds remote r') s = Done (ESDM_SUCCESS, s') /\ merged_from 0 csr s s'.
Proof.
  intros Hs Ht Hi Hir Hg Hlen Hfit. pose proof Hs as [M1 _ _ (top0 & cs & Ht0 & Hg0)]. rewrite Ht in Ht0. injection Ht0 as <-.
  destruct (gv_trees _ _ M1 h top Ht) as [Hwf _]. pose proof (tree_node top Hwf) as Hnode. rewrite (grid_json_unfold backendIds remote r' csr Hg), Hir.
  cbn [esdmI_grid_mergeWithJson default]. unfold Datatypes.id. rewrite Ht. run. cbn [gridAt]. run.
  rewrite Hi, Hg0. rewrite !eassert_true by (by apply bool_decide_eq_true). run. cbn [json_is_object negb].
  match goal with |- context [jansson_object_get ?j "id"] => set (doc := j) end. assert (jansson_object_get doc "id" = Some (JString i)) as -> by done.
  rewrite decide_True by done. assert (jansson_object_get doc "grid" = Some (JArray (cell_json backendIds remote <$> csr))) as -> by done.
  rewrite (cellCount_ok top (nw_grid _ Hnode) (nw_int64 _ Hnode)). run. rewrite length_fmap, (proj2 (Z.eqb_eq _ _) Hlen). cbn [negb]. by apply merge_cells_ok.
Qed.

(** The cells of the other process and those of the serialised grid. *)
Definition cells_of (r : grid_t) (es : list cell_t) : Prop :=
  exists cs, grid r = Some cs /\ length cs = length es /\ forall j e, es !! j = Some e ->
  exists e0, cs !! j = Some e0 /\ fragment e0 = fragment e /\ (subgrid e0 = None <-> subgrid e = None) /\ fragmentAt r [j] = fragment e /\ (is_Some (fragment e) -> subgrid e = None).

Lemma cells_related (r : grid_t) (cs es : list cell_t) :
  tree_wf r -> grid r = Some cs -> Forall2 (cell_rel named eq) cs es -> cells_of r es.
Proof.
  intros Hwf Hg Hcs. exists cs. split; [done |]. split; [by apply Forall2_length in Hcs |]. intros j e Ej. destruct (Forall2_lookup_r _ _ _ _ _ Hcs Ej) as (e0 & Ee & H1' & H2').
  assert (Hf : fragment e0 = fragment e) by (destruct (fragment e0), (fragment e); congruence || done).
  assert (Hsub : subgrid e0 = None <-> subgrid e = None) by (by destruct (subgrid e0), (subgrid e)). exists e0. split; [done |]. split; [done |]. split; [done |]. split.
  - unfold fragmentAt. cbn [cellAtPath]. rewrite Hg. cbn [mbind option_bind]. rewrite Ee. done.
  - intros [v Hv]. apply Hsub. destruct (nw_exclusive _ (tree_node r Hwf) cs j e0 Hg Ee); [done | congruence].
Qed.

(** The cells that a complete merge has filled. *)
Lemma merged_exact (r : grid_t) (es : list cell_t) (s s' : merge_state) :
  cells_of r es -> merged_from 0 es s s' ->
  (forall x p v, fragmentOf s.1 x p = Some v -> fragmentOf s'.1 x p = Some v) /\
  (forall x p, fragmentOf s.1 x p = None ->
     is_Some (fragmentOf s'.1 x p) <-> x = h /\ exists j, p = [j] /\ is_Some (extentsOf s.1 h [j]) /\ is_Some (fragmentAt r [j])) /\
  (forall j v, fragmentOf s.1 h [j] = None -> is_Some (extentsOf s.1 h [j]) -> fragmentAt r [j] = Some v ->
     exists u, fragmentOf s'.1 h [j] = Some u /\ represents s s' v u) /\
  (forall u, s.2 !! u = None -> is_Some (s'.2 !! u) -> exists j, fragmentOf s'.1 h [j] = Some u).
Proof.
  intros (cs & Hg & Hlen & Hcell) [F1 F2 F3 F4 F5 F6 F7].
  assert (Hwhere : forall x p, (exists j e, x = h /\ p = [j] /\ es !! j = Some e) \/ fragmentOf s'.1 x p = fragmentOf s.1 x p).
  { intros x p. destruct (decide (x = h)) as [-> | Hne]; [| right; by apply F5]. destruct p as [| j [| ]]; [right; apply F5; by intros _ ? [=] | | right; apply F5; by intros _ ? [=]].
    destruct (es !! j) as [e |] eqn:Ej; [left; by exists j, e |]. right. apply F5. intros _ ? [= <-]. right. by apply lookup_ge_None in Ej. }
  assert (Hgot : forall j v, fragmentOf s.1 h [j] = None -> is_Some (extentsOf s.1 h [j]) -> fragmentAt r [j] = Some v ->
     exists u, fragmentOf s'.1 h [j] = Some u /\ represents s s' v u).
  { intros j v Hn [c Hx] Hr. destruct (es !! j) as [e |] eqn:Ej.
    - destruct (Hcell j e Ej) as (_ & _ & _ & _ & Hfr & Hsub). rewrite Hfr in Hr. specialize (F6 j e Ej). unfold cell_merged in F6. cbn [Nat.add] in F6.
      rewrite Hn, Hx in F6. destruct e as [[] [v' |]]; cbn in Hr; simplify_eq; [| done]. discriminate (Hsub (ex_intro _ _ eq_refl)).
    - exfalso. unfold fragmentAt in Hr. cbn [cellAtPath] in Hr. rewrite Hg in Hr. cbn [mbind option_bind] in Hr.
      rewrite lookup_ge_None_2 in Hr; [discriminate Hr |]. apply lookup_ge_None in Ej. lia. }
  split; [| split; [| split; [exact Hgot |]]].
  - intros x p v Hv. destruct (Hwhere x p) as [(j & e & -> & -> & Ej) | ->]; [| done]. specialize (F6 j e Ej). unfold cell_merged in F6. cbn [Nat.add] in F6.
    by rewrite Hv in F6.
  - intros x p Hn. split.
    + intros Hsome. destruct (Hwhere x p) as [(j & e & -> & -> & Ej) | Heq]; [| rewrite Heq, Hn in Hsome; by destruct Hsome]. split; [done |]. exists j. split; [done |].
      destruct (Hcell j e Ej) as (_ & _ & _ & _ & -> & _). specialize (F6 j e Ej). unfold cell_merged in F6. cbn [Nat.add] in F6. rewrite Hn in F6.
      destruct (extentsOf s.1 h [j]) as [c |]; [| rewrite F6 in Hsome; by destruct Hsome]. split; [by eexists |]. destruct e as [[] [v |]]; cbn [fragment]; [by eexists | | by eexists |];
        rewrite F6 in Hsome; by destruct Hsome.
    + intros (-> & j & -> & Hx & [v Hr]). destruct (Hgot j v Hn Hx Hr) as (u & Eu & _). by exists u.
  - intros u Hu Hu'. destruct (F7 u Hu Hu') as (j & _ & Ej). by exists j.
Qed.

(** C9: Merging a grid with the text that another process made of its grid fills exactly the holes that the
    other process can fill: [esdmI_grid_mergeWithString()] on the result of [esdmI_grid_serialize()]
    succeeds; all cells keep their extents and their fragments; an empty cell gets a fragment if
    and only if it is a cell of the merged grid itself, not of a subgrid, and the other process has
    a fragment there; the fragment that it gets is the one of that shape in the table of the dataset when there is one, and
    otherwise a new object with the id, the backend, the extents and the size that the other process's fragment has; no other
    objects are made; the fragments of the cells have the extents of their cells, and the registry lists the
    grid as complete when its last cell is filled.  The other process has the same grid, with fragments of its cells' extents
    that fit the dataset. *)
Theorem grid_merge_correct (s : merge_state) (top r : grid_t) (k : nat) :
  merging s -> trees s.1 !! h = Some top -> counterpart top r ->
  exists text r' k', esdmI_grid_serialize backendIds makeId (depth r) remote r k = Done (text, r', k') /\
  exists s', esdmI_grid_mergeWithString backendIds d h [] text s = Done (ESDM_SUCCESS, s') /\ merging s' /\ s.2 ⊆ s'.2 /\
  (forall x p, extentsOf s'.1 x p = extentsOf s.1 x p) /\
  (forall x p v, fragmentOf s.1 x p = Some v -> fragmentOf s'.1 x p = Some v) /\
  (forall x p, fragmentOf s.1 x p = None ->
     is_Some (fragmentOf s'.1 x p) <-> x = h /\ exists j, p = [j] /\ is_Some (extentsOf s.1 h [j]) /\ is_Some (fragmentAt r [j])) /\
  (forall j v, fragmentOf s.1 h [j] = None -> is_Some (extentsOf s.1 h [j]) -> fragmentAt r [j] = Some v ->
     exists u, fragmentOf s'.1 h [j] = Some u /\ represents s s' v u) /\
  (forall u, s.2 !! u = None -> is_Some (s'.2 !! u) -> exists j, fragmentOf s'.1 h [j] = Some u).
Proof.
  intros Hs Ht Hc. pose proof Hc as [C1 C2 (i & Hi & Hir) C4 C5 C6]. pose proof (tree_node r C1) as Hnr.
  destruct (serialize_ok backendIds makeId remote (dset_space d) Hmake r (depth r) C1 C2 (Nat.le_refl _) k) as (r' & k' & E & Hrel & Hok).
  exists (render (grid_json backendIds remote r')), r', k'. split; [done |].
  pose proof (rel_wf _ _ _ _ C1 Hrel) as Hwr. pose proof (rel_depth _ _ _ _ C1 Hrel) as Hdr. apply grid_rel_iff in Hrel as (_ & _ & _ & Hname & cs & es & Hg & Hg' & Hcs).
  destruct Hname as (i' & Hi' & _ & [Hbad | Hsame]); [congruence |]. assert (i' = i) as -> by congruence.
  pose proof (cells_related r cs es C1 Hg Hcs) as Hcells. pose proof (Forall2_length _ _ _ Hcs) as Hlen.
  unfold esdmI_grid_mergeWithString, load_json. rewrite (loads_law _ _ (text_of_render _ Hok)).
  2: { left. rewrite (grid_json_unfold backendIds remote r' es Hg'). done. }
  2: { pose proof (grid_depth_le backendIds remote r' Hwr). lia. }
  destruct (merge_document s top r' es i (json_depth (grid_json backendIds remote r')) Hs Ht Hi Hi' Hg') as (s' & -> & Hm).
  - rewrite <- Hlen, <- C4. by apply (nw_cells _ Hnr).
  - intros j e Ej. destruct Hcells as (cs0 & Hg0 & _ & Hcell). destruct (Hcell j e Ej) as (e0 & Ee & Hf & Hsub & _ & _). split.
    + intros v c -> Hx. cbn in Hf, Hsub. unfold extentsOf in Hx. rewrite Ht in Hx. cbn [mbind option_bind] in Hx.
      eapply (counterpart_fits top r cs0 j v c e0); [done | done | done | by apply Hsub | done | done].
    + intros top0 Ht0. rewrite Ht in Ht0. injection Ht0 as <-. rewrite <- C4, <- (nw_cells _ Hnr cs Hg), Hlen. apply lookup_lt_Some in Ej. lia.
  - exists s'. split; [done |]. split; [apply Hm |]. split; [apply Hm |]. split; [apply Hm |]. by apply merged_exact with es.
Qed.

End Merging.

(** * An example *)

(** Two processes share a grid of two blocks; the other process has written both of them. *)
Module Shared.

Definition gridAxes : list esdm_axis_t := [Axis 1 0 2 None; Axis 2 0 4 (Some [0; 2; 4])].

Definition twoCells (i : string) (empty : Z) (a b : option nat) : grid_t := Grid 2 (Some i) empty (Some [Entry None a; Entry None b]) gridAxes.

Definition local : grid_t := twoCells "g" 2 None None.
Definition other : grid_t := twoCells "g" 0 (Some 0%nat) (Some 1%nat).

Definition dataset : esdm_dataset_t HashList.hashList := Dataset "dst" Stored.space None (Some [0; 4]) [] [] ESDM_DATA_PERSISTENT ESDM_DATA_PERSISTENT.

Definition state : merge_state := (DatasetGrids (GridRegistry 0 1 8 [0%nat]) [local], ∅).

Lemma twoCells_wf (i : string) (empty : Z) (a b : option nat) : empty = incomplete [Entry (G := grid_t) None a; Entry None b] -> tree_wf (twoCells i empty a b).
Proof.
  intros He. constructor; [| intros cs [| [| j]] e s [= <-] He' Hs; simpl in He'; simplify_eq; simpl in Hs; simplify_eq].
  constructor; try done.
  - constructor; try done. change (axes (twoCells i empty a b)) with [axisOf [0; 2]; axisOf [0; 2; 4]].
    repeat apply Forall_cons_2; try apply Forall_nil_2; (apply axisOf_wf; split; [by repeat constructor | simpl; lia]).
  - constructor; [| by vm_compute]. repeat apply Forall_cons_2; try apply Forall_nil_2; constructor; by vm_compute.
  - by intros cs [= <-].
  - by intros cs [= <-].
  - intros cs [| [| j]] e [= <-] He'; simpl in He'; simplify_eq; by left.
  - intros cs [| [| j]] e s [= <-] He' Hs; simpl in He'; simplify_eq; simpl in Hs; simplify_eq.
Qed.

Lemma shared_state : merging dataset 2 0 state.
Proof.
  constructor.
  - constructor; cbn [registry trees state fst].
    + constructor; try done; [apply NoDup_singleton |]. intros [| k] h [= <-]. done.
    + intros h. cbn [grids length]. rewrite list_elem_of_singleton. lia.
    + intros [| h] g [= <-]. split; [by apply twoCells_wf | done].
  - intros [| h] p v Hf; [| done]. exfalso. destruct p as [| [| [| j]] [| k p]]; done.
  - exact (construct_inv (T := HashList.hashList) 2 ∅).
  - by eexists local, _.
Qed.

Lemma shared_counterpart : counterpart ["posix"%string] dataset 2 Stored.objs local other.
Proof.
  assert (Hcells : forall v, (v < 2)%nat -> exists f, Stored.objs !! v = Some f) by (intros [| [| v]] Hv; [by eexists | by eexists | lia]).
  constructor.
  - by apply twoCells_wf.
  - apply (GridAll _ _ other _ eq_refl); [by intros s [= <-] | |].
    + intros j e v Ej Ev. destruct (Hcells v) as [f Ef]; [destruct j as [| [| j]]; simpl in Ej; simplify_eq; simpl in Ev; simplify_eq; lia |].
      exists f. by destruct (Stored.block_storable v f Ef) as [? _].
    + intros [| [| j]] e s Ej Es; simpl in Ej; simplify_eq; simpl in Es; simplify_eq.
  - by exists "g"%string.
  - done.
  - by vm_compute; lia.
  - intros [| [| j]] v f [= <-] Ef; destruct (Stored.block_storable _ f Ef) as (_ & Hk & _); (split; [| exact Hk]); vm_compute in Ef; injection Ef as <-; by vm_compute.
Qed.

(** A grid with a subgrid in its only cell. *)
Definition nested (inner : grid_t) (empty : Z) : grid_t := Grid 2 (Some "outer"%string) empty (Some [Entry (Some inner) None]) [Axis 1 0 2 None; Axis 1 0 4 None].

Definition nestedState : merge_state := (DatasetGrids (GridRegistry 0 1 8 [0%nat]) [nested local 1], ∅).

Definition mergeNested : outcome (esdm_status * merge_state) :=
  '(text, _, _) ← esdmI_grid_serialize ["posix"%string] Stored.names 2 Stored.objs (nested other 0) 0;
  esdmI_grid_mergeWithString ["posix"%string] dataset 0 [] text nestedState.

End Shared.

(** The merged grid is complete. *)
Lemma grid_merge_correct_witness :
  exists text r' k', esdmI_grid_serialize ["posix"%string] Stored.names (depth Shared.other) Stored.objs Shared.other 0 = Done (text, r', k') /\
  exists s', esdmI_grid_mergeWithString ["posix"%string] Shared.dataset 0 [] text Shared.state = Done (ESDM_SUCCESS, s') /\
  is_Some (fragmentOf s'.1 0 [0%nat]) /\ is_Some (fragmentOf s'.1 0 [1%nat]).
Proof.
  destruct (grid_merge_correct ["posix"%string] Stored.names (NoDup_singleton _) (fun _ => eq_refl) Shared.dataset 2 0 Stored.objs Shared.state Shared.local Shared.other 0
    Shared.shared_state eq_refl Shared.shared_counterpart) as (text & r' & k' & E & s' & Em & _ & _ & _ & _ & Hfill & _).
  exists text, r', k'. split; [exact E |]. exists s'. split; [exact Em |]. split.
  - apply Hfill; [reflexivity |]. split; [reflexivity |]. exists 0%nat. split; [reflexivity |]. split; eexists; vm_compute; reflexivity.
  - apply Hfill; [reflexivity |]. split; [reflexivity |]. exists 1%nat. split; [reflexivity |]. split; eexists; vm_compute; reflexivity.
Defined.

(** The document has the subgrid of a cell as its member "grid", the merge looks for "subgrid": the data
    of the other process in subgrids is dropped although the merge reports success. *)
Lemma merge_drops_subgrids : Shared.mergeNested = Done (ESDM_SUCCESS, Shared.nestedState).
Proof. vm_compute. reflexivity. Qed.
