(* ===== verification/GridWrite.v ===== *)
(** The correctness of writing a cell of a grid: under every schedule the cell gets the fragment of its
    shape, and the storage its data. *)

From stdpp Require Import gmap.
From S2P Require Import Prelude Hypercube HypercubeSet Json Odometer Memory Dataspace Convert CopyData Partition Split Grid GridTree GridRegistry GridVisit GridRegion GridCover Fragment FragmentState Posix Fragments Request Dataset DatasetMetadata Scheduler SchedulerRead ReadBlocking SchedulerWrite WriteBlocking GridIO.

Open Scope Z_scope.

Section Writing.

Context (floatCast : esdm_type_t -> esdm_type_t -> list Z -> list Z) (junk : mem) {B : Type} `{DataBackendLaws B} {T : Type} `{GHashTableLaws T}.
Context {F : Type} (fzero : F) (fle : F -> F -> bool) (data_backends : list (data_backend (F := F))) (threads : nat -> nat).

(** The user's buffer, the region to write and the data of the dataset. *)
Context (buf0 : pointer) (sp : esdm_dataspace_t) (data : content_t).
Hypothesis Hsp : data_space sp.

Abbreviation region := (extends sp).
Abbreviation n := (length region).

(** All backends have a throughput, and the first one is not slower than nothing. *)
Hypothesis Hbackends : (exists t ts, db_throughput <$> data_backends = Some <$> (t :: ts) /\ fle fzero t = true) /\ Forall (fun b => valid_backend (db_handle b)) data_backends.

Lemma fastest_ok : exists k, esdm_modules_fastestBackend fzero fle data_backends = Done (Some k) /\ valid_backend k.
Proof.
  destruct Hbackends as ((t & ts & E & Ht) & Hv). unfold esdm_modules_fastestBackend. destruct data_backends as [| b bs]; [discriminate E |].
  injection E as Eb E. cbn [fastestBackend_loop]. rewrite Eb. run. rewrite Ht. clear Hbackends Eb Ht. apply Forall_cons in Hv as [Hk Hv]. revert Hk. generalize (db_handle b) as k. revert t ts E.
  induction bs as [| b' bs IH]; intros t [| t' ts] E k Hk; try discriminate E; [by exists k |]. injection E as Eb E. cbn [fastestBackend_loop]. rewrite Eb. run.
  apply Forall_cons in Hv as [Hk' Hv]. destruct (fle t t'); by apply IH with ts.
Qed.

(** * The fragment of the whole region *)

Lemma region_start : rstart <$> region = offset sp.
Proof.
  pose proof (wf_size _ (ds_wf _ Hsp)). pose proof (wf_offset _ (ds_wf _ Hsp)). unfold extends. apply list_eq. intros i. rewrite list_lookup_fmap, lookup_zip_with.
  destruct (offset sp !! i) as [o |] eqn:Eo; [| done]. cbn [mbind option_bind].
  destruct (lookup_lt_is_Some_2 (size sp) i) as [s Es]; [apply lookup_lt_Some in Eo; lia |]. by rewrite Es.
Qed.

Lemma dot_same (o t : list Z) : dot o o t = 0.
Proof. revert t. induction o as [| x o IH]; intros [| y t]; simpl; try done. rewrite IH. lia. Qed.

Lemma region_pointer : cubePointer buf0 sp region = buf0.
Proof.
  unfold cubePointer. rewrite region_start. unfold index. rewrite dot_same. unfold offsetPointer. destruct buf0 as [b o]. cbn [fst snd]. f_equal. lia.
Qed.

Lemma selects_region : selects sp region sp.
Proof. constructor; try done. symmetry. apply region_start. Qed.

(** * The request of a new fragment *)

Abbreviation growing := (growing_ok buf0 sp data n (B := B) (T := T)).
Abbreviation entriesOf := (fun w : io_world (B := B) (T := T) => g_hash_table_entries (dset_fragments (w_dataset w))).

(** What never changes of a dataset. *)
Definition sameKind (d d' : esdm_dataset_t T) : Prop :=
  dset_id d' = dset_id d /\ dset_space d' = dset_space d /\ fill_value d' = fill_value d.

(** A fragment has been added that has no backend yet. *)
Record added (w w1 : io_world (B := B) (T := T)) (v : nat) (f : esdm_fragment_t) : Prop := {
  ad_grow : growing w;
  ad_none : objects (w_store w) !! v = None;
  ad_new : newFragment buf0 sp (dset_id (w_dataset w)) region f;
  ad_backend : backend f = None;
  ad_store : w_store w1 = Store (<[v := f]> (objects (w_store w))) (memory (w_store w)) (disk (w_store w));
  ad_table : fragments_inv n (dset_fragments (w_dataset w1)) (objects (w_store w1));
  ad_sizes : sizes_fit sp (w_dataset w1);
  ad_entries : entriesOf w1 ≡ₚ (region, v) :: entriesOf w;
  ad_same : sameKind (w_dataset w) (w_dataset w1)
}.

(** What the request of a new fragment leaves. *)
Definition stored_as (w w1 : io_world (B := B) (T := T)) (v : nat) (f : esdm_fragment_t) (ret : esdm_status) (w2 : io_world (B := B) (T := T)) : Prop :=
  growing w2 /\ memory (w_store w) ⊆ memory (w_store w2) /\ w_dataset w2 = w_dataset w1 /\
  exists f2, objects (w_store w2) = <[v := f2]> (objects (w_store w)) /\ dataspace f2 = dataspace f /\
  (ret = ESDM_SUCCESS -> status f2 = ESDM_DATA_NOT_LOADED /\ buf f2 = None /\ inStorage f2 (disk (w_store w2)) data).

Lemma write_new_ok (w w1 : io_world (B := B) (T := T)) (v : nat) (f : esdm_fragment_t) (m : mem) (internal : bool) :
  added w w1 v f -> memory (w_store w) !! buf0.1 = Some m -> (forall p, in_cube p region -> elementAt sp (seen buf0 m) p = data p) ->
  exists ret w2, stored_as w w1 v f ret w2 /\
  (forall schedule, esdmI_scheduler_writeFragmentBlocking floatCast junk fzero fle data_backends threads schedule v internal w1 = Done None \/
                    esdmI_scheduler_writeFragmentBlocking floatCast junk fzero fle data_backends threads schedule v internal w1 = Done (Some (ret, w2))) /\
  exists schedule, esdmI_scheduler_writeFragmentBlocking floatCast junk fzero fle data_backends threads schedule v internal w1 = Done (Some (ret, w2)).
Proof.
  intros [[G1 G2 G3 G4 G5] Hv Hnew Hbk Es Hinv Hfit _ (Ei & Esp & _)] Em Hdata. destruct fastest_ok as (k & Ek & Hk).
  set (fk := withBackend f k). pose proof (newFragment_backend buf0 sp _ _ _ k Hnew) as Hnew'. fold fk in Hnew'.
  set (wk := IoWorld (setObject (w_store w1) v fk) (w_dataset w1) (w_readStats w1)
    (updateRequestStats (updateIoStats (w_writeStats w1) 1 (volume region * esdm_sizeof (type (dataspace f)))) 1 (volume region * esdm_sizeof (type (dataspace f))) internal)).
  assert (Eprep : prepare_item fzero fle data_backends (WriteFragment v internal) w1 = Done ([AddPending 1; Push (writeTask v k)], wk)).
  { cbn [prepare_item]. unfold esdmI_scheduler_writeFragmentNonblocking. rewrite Es. cbn [objects]. rewrite lookup_insert_eq. run. rewrite Hbk, Ek. run.
    cbn [Fragment.dataspace]. destruct (space_bytes_ok (dataspace f)) as [-> _]; [apply (nf_space _ _ _ _ _ Hnew) |]. run.
    rewrite (sl_extends _ _ _ (nf_space _ _ _ _ _ Hnew)). unfold wk. by rewrite Es. }
  assert (Estore : w_store wk = Store (<[v := fk]> (objects (w_store w))) (memory (w_store w)) (disk (w_store w))).
  { unfold wk. cbn [w_store]. rewrite Es. unfold setObject. cbn [objects memory disk]. by rewrite insert_insert_eq. }
  assert (Hwk : writing_ok buf0 data (w_store wk)) by (rewrite Estore; by eapply (writing_new buf0 sp data Hsp)).
  destruct (write_task_ok floatCast junk buf0 sp data (w_store wk) v k (dset_id (w_dataset w)) region fk Hwk) as (ret & s2 & f2 & Eperf & Hs2 & Hmem & Eobj & Efs & Hret);
    [by rewrite Estore; apply lookup_insert_eq | done | done |].
  assert (Ework : perform_work floatCast junk (writeTask v k) wk = Done (ret, setStore wk s2)) by (unfold perform_work; by rewrite Eperf).
  assert (Eobj2 : objects s2 = <[v := f2]> (objects (w_store w))) by (rewrite Eobj, Estore; cbn [objects]; by rewrite insert_insert_eq).
  exists ret, (setStore wk s2). split; [split; [| split; [| split; [done |]]] |].
  - constructor; cbn [setStore w_store w_dataset wk]; [done | | done | by rewrite Ei | by rewrite Esp].
    rewrite Eobj2. rewrite Es in Hinv. cbn [objects] in Hinv. rewrite <- (insert_insert_eq _ v f2 f). eapply fragments_inv_replace; [done | apply lookup_insert_eq | by rewrite Efs].
  - etransitivity; [| exact Hmem]. by rewrite Estore.
  - exists f2. split; [done |]. split; [by rewrite Efs |]. intros Hok. destruct (Hret Hok) as [H1' H2']. split; [done |]. split; [done |].
    assert (Ef2 : objects s2 !! v = Some f2) by (rewrite Eobj2; apply lookup_insert_eq).
    pose proof (wo_fragment _ _ _ Hs2 v f2 Ef2) as [[_ _ _ _ Hcont] _]. unfold hasContent in Hcont. rewrite H1' in Hcont. apply Hcont.
  - apply (single_request work_backend threads _ _ announcedItem (WriteFragment v internal) (writeTask v k) w1 wk (setStore wk s2) ret); try done.
    intros q w' cs w''. apply prepare_item_commands.
Qed.

(** * Filling a cell *)

Abbreviation cells := (cells_ok (B := B) (T := T) sp).

(** The state of a dataset with grids in which a cell can be written. *)
Record grid_state (w : grid_world (B := B) (T := T)) : Prop := {
  gt_io : growing (gw_io w);
  gt_cells : cells w
}.

Lemma setGrids_grow (w : grid_world (B := B) (T := T)) (gs : datasetGrids nat) : growing (gw_io w) -> growing (gw_io (setGrids w gs)).
Proof. intros [G1 G2 G3 G4 G5]. by constructor. Qed.

Lemma setGrids_cells (w : grid_world (B := B) (T := T)) (gs : datasetGrids nat) (h : nat) (path : list nat) (o : option nat) :
  cells w -> placed (dims sp) (gw_grids w) gs h path o ->
  (forall v, o = Some v -> exists f, objects (w_store (gw_io w)) !! v = Some f /\ extentsOf (gw_grids w) h path = Some (extends (dataspace f))) ->
  cells (setGrids w gs).
Proof. intros [C1 C2 C3] Hp Ho. constructor; [apply Hp | by eapply placed_linked | done]. Qed.

(** The cell with the extents of the region is empty. *)
Record empty_cell (w : grid_world (B := B) (T := T)) (h : nat) (path : list nat) : Prop := {
  ec_cell : exists top, trees (gw_grids w) !! h = Some top /\ cellAtPath top path = Some (Entry None None);
  ec_extents : extentsOf (gw_grids w) h path = Some region
}.

(** A fragment of the table is entered. *)
Lemma fill_known (w : grid_world (B := B) (T := T)) (h : nat) (path : list nat) (v : nat) :
  grid_state w -> empty_cell w h path -> (region, v) ∈ entriesOf (gw_io w) ->
  exists gs f, fillCell h path v w = Done (setGrids w gs) /\ grid_state (setGrids w gs) /\ placed (dims sp) (gw_grids w) gs h path (Some v) /\
  objects (w_store (gw_io w)) !! v = Some f /\ extends (dataspace f) = region.
Proof.
  intros [Hg Hc] [(top & Ht & Hcell) He] Hin. destruct (fill_ok sp w h path v top (ck_grids _ _ Hc) Ht Hcell) as (gs & E & Hp).
  destruct (fs_objects _ _ _ (go_table _ _ _ _ _ Hg) region v Hin) as (f & Ef & _ & Ek). exists gs, f. split; [done |].
  split; [| split; [exact Hp |]; split; [exact Ef | by symmetry]]. split; [by apply setGrids_grow |]. eapply setGrids_cells; [done | done |]. intros ? [= <-]. exists f. by rewrite He, Ek.
Qed.

(** The fragment of the region exists or is created. *)
Lemma createCell_ok (w : grid_world (B := B) (T := T)) (h : nat) (path : list nat) :
  grid_state w -> empty_cell w h path -> key_ok n region ->
  exists v isNew w1, createCell h path sp buf0 w = Done (v, isNew, w1) /\ placed (dims sp) (gw_grids w) (gw_grids w1) h path (Some v) /\ cells w1 /\
  ((isNew = false /\ grid_state w1 /\ gw_io w1 = gw_io (setGrids w (gw_grids w1)) /\
    exists f, objects (w_store (gw_io w)) !! v = Some f /\ extends (dataspace f) = region) \/
   (isNew = true /\ exists f, added (gw_io w) (gw_io w1) v f)).
Proof.
  intros [Hg Hc] Hec Hkey. pose proof Hec as [(top & Ht & Hcell) He]. pose proof Hg as [G1 G2 G3 G4 G5]. unfold createCell.
  destruct (createFragment_ok buf0 sp n (w_dataset (gw_io w)) (objects (w_store (gw_io w))) region sp G2 Hkey selects_region G5 G3) as (v & isNew & d & objs & E & Hcase).
  rewrite region_pointer in E. rewrite E. run. destruct Hcase as [(-> & -> & -> & Hin) | (-> & Hv & (E1 & E2 & E3 & E4) & Hfit & Hperm & f & Hnew & Ebk & -> & Hinv)].
  - assert (Ew : setFragments w (w_dataset (gw_io w)) (objects (w_store (gw_io w))) = w) by (by destruct w as [[[? ? ?] ? ? ?] ?]).
    rewrite Ew. destruct (fill_known w h path v (Build_grid_state _ Hg Hc) Hec Hin) as (gs & f & -> & Hgs & Hp & Ef & Ex). run. eexists v, false, _. split; [done |].
    split; [done |]. split; [apply Hgs |]. left. split; [done |]. split; [done |]. split; [done |]. by exists f.
  - set (w1 := setFragments w d (<[v := f]> (objects (w_store (gw_io w))))).
    assert (Hc1 : cells w1).
    { destruct Hc as [C1 C2 C3]. constructor; cbn; [done | | by rewrite E4]. eapply linked_mono; [exact C2 |]. intros u g Eg. exists g. split; [| done].
      rewrite lookup_insert_ne; [done |]. congruence. }
    destruct (fill_ok sp w1 h path v top (ck_grids _ _ Hc1) Ht Hcell) as (gs & -> & Hp). run. eexists v, true, _. split; [done |]. split; [done |]. split.
    + eapply setGrids_cells; [done | done |]. intros ? [= <-]. exists f. split; [apply lookup_insert_eq |]. by rewrite (sl_extends _ _ _ (nf_space _ _ _ _ _ Hnew)).
    + right. split; [done |]. exists f. by constructor.
Qed.

(** The request of the new fragment has ended. *)
Lemma stored_state (io io' : io_world (B := B) (T := T)) (w : grid_world (B := B) (T := T)) (v : nat) (f : esdm_fragment_t) (ret : esdm_status) :
  cells w -> added io (gw_io w) v f -> stored_as io (gw_io w) v f ret io' -> grid_state (GridWorld io' (gw_grids w)).
Proof.
  intros [C1 C2 C3] Hadd (Hgr & _ & Ed & f2 & Eobj & Efs & _). split; [done |]. constructor; cbn [gw_io gw_grids]; [done | | by rewrite Ed].
  eapply linked_mono; [exact C2 |]. intros u x Eu. rewrite (ad_store _ _ _ _ Hadd) in Eu. cbn [objects] in Eu. rewrite Eobj.
  apply lookup_insert_Some in Eu as [[<- <-] | [Hne Eu]]; [exists f2; by rewrite lookup_insert_eq, Efs | exists x; by rewrite lookup_insert_ne].
Qed.

(** * Writing a cell *)

Abbreviation write_grid := (esdm_write_grid floatCast junk fzero fle data_backends threads (B := B) (T := T)).

(** What the write of a cell leaves: the cell has a fragment of its shape, which is in storage when it is
    new and the write succeeds; all other cells, fragments and memory are as before. *)
Definition cell_written (w : grid_world (B := B) (T := T)) (h : nat) (at_ : list nat) (ret : esdm_status) (w' : grid_world (B := B) (T := T)) : Prop :=
  exists p v f, extentsOf (gw_grids w) h (at_ ++ p) = Some region /\ placed (dims sp) (gw_grids w) (gw_grids w') h (at_ ++ p) (Some v) /\ grid_state w' /\
  memory (w_store (gw_io w)) ⊆ memory (w_store (gw_io w')) /\
  (forall u g, u <> v -> objects (w_store (gw_io w')) !! u = Some g <-> objects (w_store (gw_io w)) !! u = Some g) /\
  objects (w_store (gw_io w')) !! v = Some f /\ extends (dataspace f) = region /\ sameKind (w_dataset (gw_io w)) (w_dataset (gw_io w')) /\
  ((ret = ESDM_SUCCESS /\ w_store (gw_io w') = w_store (gw_io w) /\ dset_fragments (w_dataset (gw_io w')) = dset_fragments (w_dataset (gw_io w))) \/
   (objects (w_store (gw_io w)) !! v = None /\ entriesOf (gw_io w') ≡ₚ (region, v) :: entriesOf (gw_io w) /\ fragmentOf (gw_grids w) h (at_ ++ p) = None /\ type (dataspace f) = type sp /\ dims (dataspace f) = dims sp /\ eff (dataspace f) = eff sp /\
    (ret = ESDM_SUCCESS -> status f = ESDM_DATA_NOT_LOADED /\ buf f = None /\ inStorage f (disk (w_store (gw_io w'))) data))).

(** No cell has the extents of the region. *)
Definition no_cell (w : grid_world (B := B) (T := T)) (g : esdm_grid_t nat) (ret : esdm_status) (w' : grid_world (B := B) (T := T)) : Prop :=
  ret = ESDM_INVALID_ARGUMENT_ERROR /\ (forall p, leafExtents g p <> Some region) /\ grid_state w' /\ w_store (gw_io w') = w_store (gw_io w) /\
  forall k p, fragmentOf (gw_grids w') k p = fragmentOf (gw_grids w) k p.

Section Cell.

Context (w : grid_world (B := B) (T := T)) (h : nat) (at_ : list nat) (top g : esdm_grid_t nat) (m : mem).
Hypothesis Hw : grid_state w.
Hypothesis Htop : trees (gw_grids w) !! h = Some top.
Hypothesis Hg : gridAt top at_ = Some g.
Hypothesis Hkey : key_ok n region.
Hypothesis Hmem : memory (w_store (gw_io w)) !! buf0.1 = Some m.
Hypothesis Hdata : forall p, in_cube p region -> elementAt sp (seen buf0 m) p = data p.

Lemma extents_below (p : list nat) : extentsOf (gw_grids w) h (at_ ++ p) = leafExtents g p.
Proof. unfold extentsOf. rewrite Htop. cbn [mbind option_bind]. by apply leafExtents_app. Qed.

(** After the search. *)
Lemma located_ok :
  exists r w1, locateCell h at_ sp w = Done (r, w1) /\ grid_state w1 /\ gw_io w1 = gw_io (setGrids w (gw_grids w1)) /\
  match r with
  | Some (path, cell) => exists p, path = (at_ ++ p)%list /\ extentsOf (gw_grids w) h path = Some region /\
      placed (dims sp) (gw_grids w) (gw_grids w1) h path (fragment cell) /\ fragmentOf (gw_grids w) h path = fragment cell /\
      (fragment cell = None -> empty_cell w1 h path)
  | None => (forall p, leafExtents g p <> Some region) /\ forall k p, fragmentOf (gw_grids w1) k p = fragmentOf (gw_grids w) k p
  end.
Proof.
  destruct Hw as [W1 W2]. destruct (locate_ok sp Hsp w h at_ top g W2 Htop Hg) as (r & gs & E & Hr). exists r, (setGrids w gs). split; [exact E |].
  destruct r as [[path cell] |].
  - destruct Hr as (p & o & top' & -> & -> & Hl & Ht' & Hc & Hf & Hp). cbn [fragment]. split; [| split; [done |]].
    + split; [by apply setGrids_grow |]. eapply setGrids_cells; [done | exact Hp |]. intros v ->. by apply (ck_linked _ _ W2).
    + exists p. split; [done |]. rewrite extents_below. split; [done |]. split; [done |]. split; [done |]. intros ->. constructor; [by exists top' |].
      cbn [setGrids gw_grids]. by rewrite (pl_extents _ _ _ _ _ _ Hp), extents_below.
  - destruct Hr as [Hl Hp]. split; [| split; [done |]].
    + split; [by apply setGrids_grow |]. by eapply setGrids_cells.
    + split; [done |]. intros k p. cbn [setGrids gw_grids]. rewrite (pl_fragments _ _ _ _ _ _ Hp). case_decide as Hd; [| done]. destruct Hd as [-> ->].
      unfold fragmentOf. by rewrite Htop.
Qed.

(** The cell has a fragment that existed before. *)
Lemma known_written (p : list nat) (v : nat) (f : esdm_fragment_t) (w' : grid_world (B := B) (T := T)) :
  extentsOf (gw_grids w) h (at_ ++ p) = Some region -> placed (dims sp) (gw_grids w) (gw_grids w') h (at_ ++ p) (Some v) -> grid_state w' ->
  gw_io w' = gw_io (setGrids w (gw_grids w')) -> objects (w_store (gw_io w)) !! v = Some f -> extends (dataspace f) = region -> cell_written w h at_ ESDM_SUCCESS w'.
Proof. intros He Hp Hs Es Ef Ex. exists p, v, f. rewrite Es. split_and!; try done. by left. Qed.

(** The cell has a new fragment. *)
Lemma new_written (p : list nat) (v : nat) (f : esdm_fragment_t) (w1 w2 : grid_world (B := B) (T := T)) (ret : esdm_status) (io : io_world (B := B) (T := T)) :
  extentsOf (gw_grids w) h (at_ ++ p) = Some region -> fragmentOf (gw_grids w) h (at_ ++ p) = None -> gw_io w1 = gw_io (setGrids w (gw_grids w1)) ->
  placed (dims sp) (gw_grids w) (gw_grids w2) h (at_ ++ p) (Some v) ->
  cells w2 -> added (gw_io w1) (gw_io w2) v f -> stored_as (gw_io w1) (gw_io w2) v f ret io -> cell_written w h at_ ret (GridWorld io (gw_grids w2)).
Proof.
  intros He Hnone Eio Hp Hc Hadd Hst. pose proof (stored_state _ _ _ _ _ _ Hc Hadd Hst) as Hgs. destruct Hadd as [_ Hv Hnew _ _ _ _ Hent Hkind], Hst as (_ & Hsub & Ed & f2 & Eobj & Efs & Hok). pose proof (nf_space _ _ _ _ _ Hnew) as [S1 S2 S3 S4 S5 S6].
  assert (Est : w_store (gw_io w1) = w_store (gw_io w)) by (by rewrite Eio). rewrite Est in *. exists p, v, f2. cbn [gw_io gw_grids]. rewrite Eobj, !Efs, Ed.
  rewrite Eio in Hent, Hkind.
  split; [done |]. split; [done |]. split; [done |].
  split; [done |]. split; [intros u x Hu; by rewrite lookup_insert_ne |]. split; [apply lookup_insert_eq |]. split; [done |]. split; [done |].
  right. split; [done |]. split; [done |]. by split_and!.
Qed.

Lemma write_grid_ok :
  (forall schedule, exists r, write_grid schedule h at_ sp buf0 w = Done r /\
     forall ret w', r = Some (ret, w') -> no_cell w g ret w' \/ cell_written w h at_ ret w') /\
  exists schedule ret w', write_grid schedule h at_ sp buf0 w = Done (Some (ret, w')).
Proof.
  destruct located_ok as (r & w1 & E & Hw1 & Eio & Hr). unfold esdm_write_grid. rewrite E. run.
  assert (Hnow : forall ret w', no_cell w g ret w' \/ cell_written w h at_ ret w' ->
    (forall schedule : list choice, exists r, mret (M := outcome) (Some (ret, w')) = Done r /\ forall ret w', r = Some (ret, w') -> no_cell w g ret w' \/ cell_written w h at_ ret w') /\
    exists (schedule : list choice) ret' w'', mret (M := outcome) (Some (ret, w')) = Done (Some (ret', w''))).
  { intros ret w' Hres. split; [intros schedule; eexists; split; [done |]; by intros ? ? [= <- <-] | by eexists [], ret, w']. }
  assert (Est : w_store (gw_io w1) = w_store (gw_io w)) by (by rewrite Eio). destruct r as [[path cell] |].
  2: { destruct Hr as [Hl Hf]. apply Hnow. left. unfold no_cell. by split_and!. }
  destruct Hr as (p & -> & He & Hp & Hfo & Hec). destruct (fragment cell) as [v |].
  { apply Hnow. right. destruct (ck_linked _ _ (gt_cells _ Hw) h (at_ ++ p)%list v Hfo) as (f & Ef & Ex). rewrite He in Ex. injection Ex as Ex.
    by eapply known_written. }
  specialize (Hec eq_refl). unfold esdmI_dataset_lookupFragmentForShape. rewrite getExtends_ok by apply Hsp. run.
  destruct (lookupForShape_ok n _ _ region (go_table _ _ _ _ _ (gt_io _ Hw1)) Hkey) as (r & -> & Hr). run. destruct r as [v |].
  { destruct Hr as (f & _ & _ & Hin). destruct (fill_known w1 h _ v Hw1 Hec Hin) as (gs & f' & -> & Hgs & Hpl & Ef & Ex). run. apply Hnow. right.
    rewrite Est in Ef. eapply known_written; [done | by eapply placed_trans | done | cbn [setGrids gw_io gw_grids]; by rewrite Eio | done | done]. }
  destruct (createCell_ok w1 h _ Hw1 Hec Hkey) as (v & isNew & w2 & -> & Hpl & Hc2 & Hcase). run. pose proof (placed_trans _ _ _ _ _ _ _ _ Hp Hpl) as Hpl2.
  destruct Hcase as [(-> & Hs2 & Es2 & f & Ef & Ex) | (-> & f & Hadd)]; cbn [negb].
  { apply Hnow. right. rewrite Est in Ef. eapply known_written; [done | done | done | rewrite Es2; cbn [setGrids gw_io gw_grids]; by rewrite Eio | done | done]. }
  destruct (write_new_ok (gw_io w1) (gw_io w2) v f m false Hadd) as (ret & io & Hst & Hall & schedule & Hone); [by rewrite Est | done |].
  assert (Hres : cell_written w h at_ ret (GridWorld io (gw_grids w2))) by (by eapply new_written). unfold writeCell. split.
  - intros schedule'. destruct (Hall schedule') as [-> | ->]; run; eexists; (split; [done |]); [by intros ? ? [=] |]. intros ? ? [= <- <-]. by right.
  - exists schedule, ret, (GridWorld io (gw_grids w2)). by rewrite Hone.
Qed.

End Cell.

(** C6: [esdm_write_grid()] writes the cell of a grid correctly, under every schedule of the backend
    threads, none of which runs into an assertion or undefined behaviour, and some schedule completes
    it. When the hierarchy below the grid has no cell with exactly the extents of the dataspace, the
    call reports ESDM_INVALID_ARGUMENT_ERROR and changes no fragment, no cell and no memory. Otherwise
    the cell afterwards has a fragment of its extents, found in the table of the dataset or created
    from the user's buffer; a created fragment has the data of the buffer in storage when the write
    succeeds; every other cell and fragment is unchanged, the registry still lists the complete grids
    first, and every cell with a fragment still has one of its extents. *)
Theorem write_grid_correct (w : grid_world (B := B) (T := T)) (h : nat) (at_ : list nat) (top g : esdm_grid_t nat) (m : mem) :
  grid_state w -> trees (gw_grids w) !! h = Some top -> gridAt top at_ = Some g -> key_ok n region ->
  memory (w_store (gw_io w)) !! buf0.1 = Some m -> (forall p, in_cube p region -> elementAt sp (seen buf0 m) p = data p) ->
  (forall schedule, exists r, write_grid schedule h at_ sp buf0 w = Done r /\
     forall ret w', r = Some (ret, w') -> no_cell w g ret w' \/ cell_written w h at_ ret w') /\
  exists schedule ret w', write_grid schedule h at_ sp buf0 w = Done (Some (ret, w')).
Proof. intros Hw Ht Hg Hk Hm Hd. by eapply write_grid_ok. Qed.

End Writing.

(** * An example *)

(** A dataset of 2 x 4 numbers with a grid of two halves; the data of the left one is in the user's
    buffer. *)
Module Halves.

Definition left : esdm_dataspace_t := Dataspace SMD_DTYPE_INT16 2 [2; 2] [0; 0] false None.

Definition grids : datasetGrids nat := DatasetGrids (GridRegistry 0 1 8 [0%nat]) [Grid 2 None 0 None [Axis 1 0 2 None; Axis 2 0 4 (Some [0; 2; 4])]].

Definition world : grid_world := GridWorld Blocks.world grids.

Definition data : content_t := elementAt left (seen (0%nat, 0) (fun a => a)).

Definition schedule : list choice := replicate 3 (Run MainThread) ++ replicate 8 (Run (Worker 0)) ++ replicate 5 (Run MainThread).

Definition write : outcome (option (esdm_status * grid_world)) :=
  esdm_write_grid zeroCast (fun _ => 0) 0 Z.leb Blocks.backends (fun _ => 1%nat) schedule 0 [] left (0%nat, 0) world.

Lemma left_ok : data_space left.
Proof. solve_data_space. Qed.

Lemma grids_reachable : reachable 2 grids.
Proof.
  assert (R1 : reachable (F := nat) 2 (DatasetGrids (GridRegistry 0 1 8 [0%nat]) [Grid 2 None 0 None [Axis 1 0 2 None; Axis 1 0 4 None]])).
  { eapply (reachable_step 2 _ (CreateGrid [0; 0] [2; 4])); [apply reachable_init | | reflexivity]. split; [done |]. by repeat constructor. }
  eapply (reachable_step 2 _ (SubdivideGrid 0 [] (Flexible 2) 1)); [exact R1 | | reflexivity].
  eexists _, _, _. split; [reflexivity |]. split; [reflexivity |]. split; [simpl; lia |]. split; [reflexivity |].
  split; [repeat split; by vm_compute |]. intros st g' E. vm_compute in E. injection E as <- <-.
  constructor; [| by vm_compute]. repeat constructor; by vm_compute.
Qed.

Lemma halves_state : grid_state (0%nat, 0) left data world.
Proof.
  split.
  - constructor; [constructor; try done | | | solve_id |].
    + exact (construct_inv (T := HashList.hashList) 2 ∅).
    + split; [by constructor | done].
    + split; [done |]. intros [| [| i]] d s o [= <-] [= <-] [= <-]; right; lia.
  - constructor; [exact (reachable_inv 2 grids ltac:(lia) grids_reachable) | | done]. intros h p v Hf. exfalso. destruct h as [| h]; [| done]. by destruct p.
Qed.

Lemma left_key : key_ok (length (extends left)) (extends left).
Proof. split; [done |]. eexists. vm_compute. reflexivity. Qed.

End Halves.

(** The left half is written. *)
Lemma write_grid_correct_witness :
  exists w', Halves.write = Done (Some (ESDM_SUCCESS, w')) /\ cell_written (0%nat, 0) Halves.left Halves.data Halves.world 0 [] ESDM_SUCCESS w'.
Proof.
  destruct (write_grid_correct zeroCast (fun _ => 0) 0 Z.leb Blocks.backends (fun _ => 1%nat) (0%nat, 0) Halves.left Halves.data Halves.left_ok)
    with (w := Halves.world) (h := 0%nat) (at_ := @nil nat) (top := Grid (F := nat) 2 None 0 None [Axis 1 0 2 None; Axis 2 0 4 (Some [0; 2; 4])])
      (g := Grid (F := nat) 2 None 0 None [Axis 1 0 2 None; Axis 2 0 4 (Some [0; 2; 4])]) (m := fun a : Z => a) as [Hall _].
  - split; [exists 1, []; done |]. constructor; [unfold valid_backend; cbn; lia | constructor].
  - exact Halves.halves_state.
  - reflexivity.
  - reflexivity.
  - exact Halves.left_key.
  - reflexivity.
  - reflexivity.
  - destruct (Hall Halves.schedule) as (r & E & Hr). fold Halves.write in E.
    assert (Hs : match Halves.write with Done (Some (ret, _)) => ret | _ => ESDM_ERROR end = ESDM_SUCCESS) by (by vm_compute).
    rewrite E in Hs. destruct r as [[ret w'] |]; [| done]. subst ret. exists w'. split; [exact E |]. destruct (Hr _ _ eq_refl) as [(Hbad & _) | Hc]; [discriminate Hbad | exact Hc].
Defined.
