(* ===== verification/GridRead.v ===== *)
(** The correctness of reading a cell of a grid: the buffer gets the data of the dataset, and the cell
    its fragment, also when the data had to be collected from other fragments. *)

From stdpp Require Import gmap.
From S2P Require Import Prelude Hypercube HypercubeSet Json Odometer Memory Dataspace Convert CopyData Partition Split Grid GridTree GridRegistry GridVisit GridRegion GridCover Fragment FragmentState Posix Fragments Request Dataset DatasetMetadata Scheduler SchedulerRead ReadBlocking SchedulerWrite WriteBlocking GridIO GridWrite.

Open Scope Z_scope.

(** * Complete grids *)

(** A leaf of a complete hierarchy has a path and a fragment. *)
Lemma leaf_path {F} (g : esdm_grid_t F) (c : esdmI_hypercube_t) (o : option F) :
  tree_complete g -> (c, o) ∈ leafCells g -> exists p v, o = Some v /\ leafExtents g p = Some c /\ fragmentAt g p = Some v.
Proof.
  induction 1 as [g cs Hg Hfull _ IH]. rewrite (leafCells_from g cs Hg). intros (j & e & He & Hx)%leavesFrom_elem. unfold entryLeaves in Hx.
  destruct (subgrid e) as [s |] eqn:Hs.
  - destruct (IH j e s He Hs Hx) as (p & v & -> & Hl & Hf). exists (j :: p), v. split; [done |]. split.
    + cbn [leafExtents]. rewrite Hg, He. cbn [mbind option_bind]. by rewrite Hs.
    + unfold fragmentAt in *. rewrite (cellAtPath_cons g cs j e p Hg He) by (by intros ->). by rewrite Hs.
  - apply list_elem_of_singleton in Hx as [= -> ->]. destruct (Hfull j e He Hs) as [v Ev]. exists [j], v. split; [done |]. split.
    + cbn [leafExtents]. rewrite Hg, He. cbn [mbind option_bind]. by rewrite Hs.
    + unfold fragmentAt. cbn [cellAtPath]. rewrite Hg. cbn [mbind option_bind]. by rewrite He.
Qed.

Section Reading.

Context (floatCast : esdm_type_t -> esdm_type_t -> list Z -> list Z).
Context (Hcast : forall d s bytes, 0 <= esdm_sizeof d -> Z.of_nat (length (floatCast d s bytes)) = esdm_sizeof d).
Context (junk : mem) {B : Type} `{DataBackendLaws B} {T : Type} `{GHashTableLaws T}.
Context {F : Type} (fzero : F) (fle : F -> F -> bool) (fadd : F -> F -> F) (scaled : F -> Z -> F -> Z).
Context (splitFactor : Z -> Z -> Z -> Z -> Z) (qsort : list dimInfo_t -> list dimInfo_t) (manyBytes : Z -> Z -> bool).
Context (data_backends : list (data_backend (F := F))) (threads : nat -> nat).
Hypothesis Hbackends : (exists t ts, db_throughput <$> data_backends = Some <$> (t :: ts) /\ fle fzero t = true) /\ Forall (fun b => valid_backend (db_handle b)) data_backends.

(** The user's buffer, the region to read and the data of the dataset. *)
Context (buf0 : pointer) (sp : esdm_dataspace_t) (data : content_t).
Hypothesis Hsp : data_space sp.
Hypothesis Hinj : injective_layout sp.

Abbreviation region := (extends sp).
Abbreviation n := (length region).
Abbreviation storeOk := (store_ok buf0 sp (fun _ => data) (B := B)).

(** The computations on the axes of the grids stay within their integer types. *)
Definition axes_serve (gs : datasetGrids nat) : Prop :=
  forall h top, trees gs !! h = Some top -> cover_ok (axes top) region /\ volume (domain top) <= INT64_MAX.

Lemma placed_serve (k : Z) (gs gs' : datasetGrids nat) (h : nat) (path : list nat) (o : option nat) :
  placed k gs gs' h path o -> axes_serve gs -> axes_serve gs'.
Proof.
  intros Hp Hs x top' Ht'. pose proof (pl_axes _ _ _ _ _ _ Hp x) as Ha. rewrite Ht' in Ha. destruct (trees gs !! x) as [top |] eqn:Ht; [| discriminate Ha].
  injection Ha as Ha. unfold domain. rewrite Ha. by apply (Hs x).
Qed.

(** The complete grids can serve a request. *)
Lemma complete_ready (gs : datasetGrids nat) (s : store B) :
  grids_inv (dims sp) gs -> linked gs (objects s) -> axes_serve gs -> storeOk s -> Forall (grid_ready (objects s) region) (completeGrids gs).
Proof.
  intros Hi Hl Hs Hst. apply Forall_lookup. intros k g Eg. pose proof (completeGrids_complete _ gs Hi) as Hc. apply (Forall_lookup_1 _ _ k g) in Hc as [Hwf Hc]; [| done].
  destruct (Forall2_lookup_r _ _ _ _ _ (completeGrids_handles _ gs Hi) Eg) as (h & _ & Eh). destruct (Hs h g Eh) as [Hcov Hvol].
  constructor; [done | done | constructor; [apply (nw_grid _ (tree_node g Hwf)) | done | done] |].
  intros c o Hco. destruct (leaf_path g c o (grid_complete_tree g Hwf Hc) Hco) as (p & v & -> & Hle & Hf).
  destruct (Hl h p v) as (f & Ef & He); [unfold fragmentOf; by rewrite Eh |]. unfold extentsOf in He. rewrite Eh in He. cbn [mbind option_bind] in He.
  rewrite Hle in He. injection He as ->. exists v, f. pose proof (so_fragment _ _ _ _ Hst v f Ef) as [Hfi _]. pose proof (fi_ok _ _ _ _ Hfi) as Hok.
  split; [done |]. split; [done |]. split; [done |]. split; apply (fr_space _ Hok).
Qed.

(** * The state *)

(** The dataset is readable and its fragments are all in its table. *)
Record grid_open (w : grid_world (B := B) (T := T)) : Prop := {
  gd_read : read_ready buf0 sp data (gw_io w);
  gd_cells : cells_ok sp w;
  gd_axes : axes_serve (gw_grids w);
  gd_listed : forall v f, objects (w_store (gw_io w)) !! v = Some f -> v ∈ (g_hash_table_entries (dset_fragments (w_dataset (gw_io w)))).*2;
  gd_sizes : sizes_fit sp (w_dataset (gw_io w));
  gd_id : valid_id (dset_id (w_dataset (gw_io w)));
  gd_fits : fitsDataset (size (dset_space (w_dataset (gw_io w)))) sp
}.

(** Moreover the data of the dataset is the fill value at the points that no fragment has. *)
Record grid_readable (w : grid_world (B := B) (T := T)) : Prop := {
  gd_open :> grid_open w;
  gd_holes : forall p value, in_cube p region -> fill_value (w_dataset (gw_io w)) = Some value ->
    (forall v f, objects (w_store (gw_io w)) !! v = Some f -> ~ in_cube p (extends (dataspace f))) -> data p = value
}.

Lemma reading_writing (s : store B) : storeOk s -> writing_ok buf0 data s.
Proof.
  intros [S1 S2 S3 S4 S5 S6]. constructor; try done.
  - intros v f ptr Ef Ep Hu. by destruct (S2 v f ptr Ef Ep Hu) as (_ & ? & _).
  - intros v u f g key Hne Ef Eg _ _. by apply (S4 v u f g key).
Qed.

Lemma readable_state (w : grid_world (B := B) (T := T)) : grid_readable w -> grid_state buf0 sp data w.
Proof.
  intros [[R1 R2 R3 R4 R6 R7 R8] R5]. split; [| done]. constructor; try done; [apply reading_writing, R1 | apply (rr_dataset _ _ _ _ R1)].
Qed.

(** The grids change, the fragments do not. *)
Lemma setGrids_readable (w : grid_world (B := B) (T := T)) (gs : datasetGrids nat) (h : nat) (path : list nat) (o : option nat) :
  grid_readable w -> placed (dims sp) (gw_grids w) gs h path o ->
  (forall v, o = Some v -> exists f, objects (w_store (gw_io w)) !! v = Some f /\ extentsOf (gw_grids w) h path = Some (extends (dataspace f))) ->
  grid_readable (setGrids w gs).
Proof.
  intros [[R1 R2 R3 R4 R6 R7 R8] R5] Hp Ho. pose proof (setGrids_cells sp w gs h path o R2 Hp Ho) as Hc. pose proof (placed_serve _ _ _ _ _ _ Hp R3) as Hs.
  split; [| done]. constructor; try done. destruct R1 as [Q1 [K1 K2 K3] Q3 Q4 Q5 Q6 Q7 Q8 Q9]. constructor; try done. constructor; try done. apply complete_ready; [apply Hc | apply Hc | done | done].
Qed.

(** * Reading the fragment of a cell *)

(** The fragments have been loaded. *)
Lemma shapes_table (t : T) (objs : gmap nat esdm_fragment_t) (s : store B) :
  fragments_inv n t objs -> sameShapes objs (objects s) -> storeOk s -> fragments_inv n t (objects s).
Proof.
  intros [Ht Ho] Hs Hst. constructor; [done |]. intros key v Hin. destruct (Ho key v Hin) as (f & Ef & [_ _ Hk] & ->). destruct (Hs v f Ef) as (f' & Ef' & Hc).
  pose proof (so_fragment _ _ _ _ Hst v f' Ef') as [Hfi _]. destruct (contiguous_shape _ _ Hc) as [Ee _]. exists f'. split; [done |]. rewrite <- Ee in *.
  split; [| done]. constructor; [apply (fr_space _ (fi_ok _ _ _ _ Hfi)) | apply (fr_space _ (fi_ok _ _ _ _ Hfi)) | done].
Qed.

(** The state after a request has read fragments. *)
Lemma after_read (w : grid_world (B := B) (T := T)) (io : io_world (B := B) (T := T)) :
  grid_readable w -> storeOk (w_store io) -> w_dataset io = w_dataset (gw_io w) -> sameShapes (objects (w_store (gw_io w))) (objects (w_store io)) ->
  grid_state buf0 sp data (GridWorld io (gw_grids w)).
Proof.
  intros [[R1 [C1 C2 C3] R3 R4 R6 R7 R8] R5] Hst Ed Hs. split.
  - constructor; cbn [gw_io]; rewrite ?Ed; try done; [by apply reading_writing |]. eapply shapes_table; [apply (rr_dataset _ _ _ _ R1) | done | done].
  - constructor; cbn [gw_io gw_grids]; [done | | by rewrite Ed]. eapply linked_mono; [exact C2 |]. intros v f Ef. destruct (Hs v f Ef) as (f' & Ef' & Hc).
    exists f'. split; [done |]. by apply contiguous_shape.
Qed.

Abbreviation read_single := (esdmI_scheduler_readSingleFragmentBlocking floatCast junk fzero fle data_backends threads (B := B) (T := T)).

Lemma read_single_ok (io : io_world (B := B) (T := T)) (v : nat) (f : esdm_fragment_t) (m0 : mem) :
  storeOk (w_store io) -> memory (w_store io) !! buf0.1 = Some m0 -> objects (w_store io) !! v = Some f -> extends (dataspace f) = region ->
  type (dataspace f) = type sp -> dims (dataspace f) = dims sp -> forward f -> (forall ptr, buf f = Some ptr -> ptr.1 <> buf0.1) ->
  (forall schedule, exists r, read_single schedule buf0 sp v io = Done r /\ forall ret io', r = Some (ret, io') ->
     storeOk (w_store io') /\ w_dataset io' = w_dataset io /\ sameShapes (objects (w_store io)) (objects (w_store io')) /\
     exists m, memory (w_store io') !! buf0.1 = Some m /\ landed buf0 sp (fun _ => True) m0 m /\
     (ret = ESDM_SUCCESS -> forall p, in_cube p region -> elementAt sp (seen buf0 m) p = data p)) /\
  exists schedule r, read_single schedule buf0 sp v io = Done (Some r).
Proof.
  intros Hst Em Ef Ex Ety Ed Hfw Hbuf.
  assert (Hserve : forall u, u ∈ [v] -> exists g, objects (w_store io) !! u = Some g /\ serves sp g /\ forward g /\ forall ptr, buf g = Some ptr -> ptr.1 <> buf0.1).
  { intros u ->%list_elem_of_singleton. exists f. split; [done |]. split; [| done]. constructor; [done | done |]. rewrite Ex.
    destruct (extends_int64 sp Hsp) as [Hr _]. exists (rstart <$> region). split; by apply nonempty_point, int64_nonempty. }
  assert (Hnd : NoDup [v]) by apply NoDup_singleton.
  assert (Hcons : forall u x g g' p, u ∈ [v] -> x ∈ [v] -> objects (w_store io) !! u = Some g -> objects (w_store io) !! x = Some g' ->
    in_cube p (extends (dataspace g)) -> in_cube p (extends (dataspace g')) -> data p = data p) by done.
  unfold esdmI_scheduler_readSingleFragmentBlocking. split.
  - intros schedule. destruct (read_request_ok floatCast Hcast junk buf0 sp Hsp Hinj (fun _ => data) fzero fle data_backends [v] io m0 Hnd Hst Em Hserve Hcons threads schedule)
      as (r & -> & Hr); [done |]. run. destruct r as [[ret io1] |]; [| by eexists].
    destruct (space_bytes_ok sp Hsp) as [-> _]. run. eexists. split; [done |]. intros ? ? [= <- <-]. cbn [w_store w_dataset]. specialize (Hr ret io1 eq_refl).
    pose proof (read_shapes buf0 sp data io io1 [v] m0 ret Hr) as Hsh. destruct Hr as (Hs1 & Ed1 & _ & _ & m & Em1 & Hland & Hdata). split; [done |]. split; [done |]. split; [done |].
    exists m. split; [done |]. split; [by eapply (landed_trans buf0 sp _ (fun _ => False)); [exact Hland | by intros a Ha | done] |].
    intros Hret p Hp. apply (Hdata Hret v f p); [by left | done | by rewrite Ex | done].
  - destruct (read_request_returns floatCast Hcast junk buf0 sp Hsp Hinj (fun _ => data) fzero fle data_backends [v] io m0 Hnd Hst Em Hserve Hcons threads)
      as (schedule & ret & io1 & E); [done |]. exists schedule. rewrite E. run. destruct (space_bytes_ok sp Hsp) as [-> _]. run. by eexists.
Qed.

(** * Reading a cell *)

Abbreviation read_grid := (esdm_read_grid floatCast junk fzero fle fadd scaled splitFactor qsort manyBytes data_backends threads (B := B) (T := T)).

Section Cell.

Context (w : grid_world (B := B) (T := T)) (h : nat) (at_ : list nat) (top g : esdm_grid_t nat) (m0 : mem).
Hypothesis Hw : grid_readable w.
Hypothesis Htop : trees (gw_grids w) !! h = Some top.
Hypothesis Hg : gridAt top at_ = Some g.
Hypothesis Hmem : memory (w_store (gw_io w)) !! buf0.1 = Some m0.

(** The cell and its fragment, if there is one. *)
Lemma fragment_found :
  (exists w1, locateCell h at_ sp w = Done (None, w1) /\ no_cell buf0 sp data w g ESDM_INVALID_ARGUMENT_ERROR w1) \/
  exists p cell w1 o w2, locateCell h at_ sp w = Done (Some ((at_ ++ p)%list, cell), w1) /\ cellFragment h (at_ ++ p) cell sp w1 = Done (o, w2) /\
  extentsOf (gw_grids w) h (at_ ++ p) = Some region /\ grid_readable w2 /\ w_store (gw_io w2) = w_store (gw_io w) /\
  placed (dims sp) (gw_grids w) (gw_grids w2) h (at_ ++ p) o /\
  match o with
  | Some v => exists f, objects (w_store (gw_io w)) !! v = Some f /\ extends (dataspace f) = region
  | None => empty_cell sp w2 h (at_ ++ p)
  end.
Proof.
  pose proof (readable_state w Hw) as Hs. destruct (located_ok buf0 sp data Hsp w h at_ top g Hs Htop Hg) as (r & w1 & E & Hs1 & Eio & Hr).
  assert (Ew1 : w1 = setGrids w (gw_grids w1)) by (destruct w1 as [io gs]; cbn [gw_grids gw_io] in *; by rewrite Eio).
  assert (Est : w_store (gw_io w1) = w_store (gw_io w)) by (by rewrite Ew1).
  destruct r as [[path cell] |]; [right | left].
  2: { exists w1. split; [done |]. destruct Hr as [Hl Hf]. unfold no_cell. by split_and!. }
  destruct Hr as (p & -> & He & Hp & Hfo & Hec). exists p, cell, w1.
  assert (Hlink : forall v, fragment cell = Some v -> exists f, objects (w_store (gw_io w)) !! v = Some f /\ extentsOf (gw_grids w) h (at_ ++ p) = Some (extends (dataspace f))).
  { intros v Ev. apply (ck_linked _ _ (gd_cells _ Hw)). by rewrite Hfo. }
  assert (Hw1 : grid_readable w1) by (rewrite Ew1; by eapply setGrids_readable).
  unfold cellFragment. destruct (fragment cell) as [v |].
  { eexists _, _. split; [done |]. split; [done |]. split; [done |]. split; [done |]. split; [done |]. split; [done |].
    destruct (Hlink v eq_refl) as (f & Ef & Ex). exists f. split; [done |]. rewrite He in Ex. by injection Ex. }
  specialize (Hec eq_refl). unfold esdmI_dataset_lookupFragmentForShape. rewrite getExtends_ok by apply Hsp. run.
  destruct (lookupForShape_ok n _ _ region (go_table _ _ _ _ _ (gt_io _ _ _ _ Hs1)) (rr_key _ _ _ _ (gd_read _ Hw))) as (r & -> & Hr). run. destruct r as [v |].
  - destruct Hr as (f & _ & _ & Hin). destruct (fill_known buf0 sp data w1 h _ v Hs1 Hec Hin) as (gs & f' & -> & Hgs & Hpl & Ef & Ex). run.
    eexists _, _. split; [done |]. split; [done |]. split; [done |]. split.
    + eapply setGrids_readable; [done | exact Hpl |]. intros ? [= <-]. exists f'. split; [done |]. by rewrite Ex, (ec_extents _ _ _ _ Hec).
    + split; [done |]. split; [by eapply placed_trans |]. exists f'. by rewrite <- Est.
  - eexists None, w1. split; [done |]. split; [done |]. split; [done |]. split; [done |]. split; [done |]. split; [done |]. done.
Qed.

(** What the read of a cell leaves. *)
Definition cell_read (ret : esdm_status) (w' : grid_world (B := B) (T := T)) : Prop :=
  exists p m o, extentsOf (gw_grids w) h (at_ ++ p) = Some region /\ memory (w_store (gw_io w')) !! buf0.1 = Some m /\ landed buf0 sp (fun _ => True) m0 m /\
  grid_state buf0 sp data w' /\ placed (dims sp) (gw_grids w) (gw_grids w') h (at_ ++ p) o /\
  (ret = ESDM_SUCCESS -> is_Some o /\ forall q, in_cube q region -> elementAt sp (seen buf0 m) q = data q).

(** The data has been collected, and becomes the fragment of the cell. *)
Lemma collected_ok (p : list nat) (w2 : grid_world (B := B) (T := T)) (io : io_world (B := B) (T := T)) (m : mem) :
  grid_readable w2 -> extentsOf (gw_grids w) h (at_ ++ p) = Some region -> placed (dims sp) (gw_grids w) (gw_grids w2) h (at_ ++ p) None -> empty_cell sp w2 h (at_ ++ p) ->
  grid_state buf0 sp data (GridWorld io (gw_grids w2)) -> memory (w_store io) !! buf0.1 = Some m -> landed buf0 sp (fun _ => True) m0 m ->
  (forall q, in_cube q region -> elementAt sp (seen buf0 m) q = data q) ->
  exists v isNew w3, createCell h (at_ ++ p) sp buf0 (GridWorld io (gw_grids w2)) = Done (v, isNew, w3) /\
  ((isNew = false /\ cell_read ESDM_SUCCESS w3) \/
   (isNew = true /\ exists ret w4, cell_read ESDM_SUCCESS w4 /\
     (forall schedule, writeCell floatCast junk fzero fle data_backends threads schedule v true w3 = Done None \/
                       writeCell floatCast junk fzero fle data_backends threads schedule v true w3 = Done (Some (ret, w4))) /\
     exists schedule, writeCell floatCast junk fzero fle data_backends threads schedule v true w3 = Done (Some (ret, w4)))).
Proof.
  intros Hw2 He Hp Hec Hs Em Hland Hdata. destruct Hec as [(t2 & Ht2 & Hc2) He2].
  destruct (createCell_ok buf0 sp data Hsp (GridWorld io (gw_grids w2)) h (at_ ++ p) Hs) as (v & isNew & w3 & -> & Hpl & Hc3 & Hcase);
    [constructor; [by exists t2 | done] | apply (rr_key _ _ _ _ (gd_read _ Hw2)) |].
  cbn [gw_grids gw_io] in *. pose proof (placed_trans _ _ _ _ _ _ _ _ Hp Hpl) as Hpl3. exists v, isNew, w3. split; [done |].
  destruct Hcase as [(-> & Hs3 & Es3 & _) | (-> & f & Hadd)]; [left | right]; (split; [done |]).
  - exists p, m, (Some v). rewrite Es3. cbn [setGrids gw_io w_store]. by split_and!.
  - destruct (write_new_ok floatCast junk fzero fle data_backends threads buf0 sp data Hsp Hbackends io (gw_io w3) v f m true Hadd Em Hdata)
      as (ret & io4 & Hst & Hall & schedule & Hone). pose proof Hst as (_ & Hsub & _).
    exists ret, (GridWorld io4 (gw_grids w3)). split; [| split].
    + exists p, m, (Some v). cbn [gw_io gw_grids]. split; [done |]. split; [by eapply lookup_weaken |]. split; [done |]. split; [by eapply stored_state | by split_and!].
    + intros schedule'. unfold writeCell. destruct (Hall schedule') as [-> | ->]; run; [by left | by right].
    + exists schedule. unfold writeCell. by rewrite Hone.
Qed.

(** All points of the region get their data. *)
Lemma holes_filled (w2 : grid_world (B := B) (T := T)) (uncovered : esdmI_hypercubeSet_t) (io : io_world (B := B) (T := T)) :
  grid_readable w2 -> read_result buf0 sp data (gw_io w2) m0 ESDM_SUCCESS uncovered io ->
  exists m, memory (w_store io) !! buf0.1 = Some m /\ landed buf0 sp (fun _ => True) m0 m /\ forall q, in_cube q region -> elementAt sp (seen buf0 m) q = data q.
Proof.
  intros Hw2 (_ & _ & _ & _ & m & Em & Hland & Hdata). exists m. split; [done |]. split; [done |]. intros q Hq.
  destruct (Hdata eq_refl q Hq) as [[_ Hd] | [Hn Hfill]]; [done |]. symmetry. apply (gd_holes _ Hw2); [done | done |].
  intros v f Ef Hqf. apply Hn. exists v, f. split; [| done]. left. by apply (gd_listed _ Hw2 v f).
Qed.

Lemma read_grid_ok :
  (forall schedule writeback store, exists r, read_grid schedule writeback store h at_ sp buf0 w = Done r /\
     forall ret w', r = Some (ret, w') -> no_cell buf0 sp data w g ret w' \/ cell_read ret w') /\
  exists schedule writeback store r, read_grid schedule writeback store h at_ sp buf0 w = Done (Some r).
Proof.
  unfold esdm_read_grid. destruct fragment_found as [(w1 & E & Hno) | (p & cell & w1 & o & w2 & E & E2 & He & Hw2 & Est & Hp & Ho)]; rewrite E; run.
  { split; [| by eexists [], [], [], _]. intros schedule writeback store. eexists. split; [done |]. intros ? ? [= <- <-]. by left. }
  rewrite E2. run. assert (Em : memory (w_store (gw_io w2)) !! buf0.1 = Some m0) by (by rewrite Est). pose proof (gd_read _ Hw2) as Hr2. destruct o as [v |].
  - destruct Ho as (f & Ef & Ex). rewrite <- Est in Ef. destruct (rr_objects _ _ _ _ Hr2 v f Ef) as (T1 & T2 & T3 & T4).
    destruct (read_single_ok (gw_io w2) v f m0 (rr_store _ _ _ _ Hr2) Em Ef Ex T1 T2 T3 T4) as (Hall & schedule & r & Hone). split.
    + intros schedule' writeback store. destruct (Hall schedule') as (r' & -> & Hr'). run. eexists. split; [done |]. intros ret w' Ew.
      destruct r' as [[ret' io] |]; [| discriminate Ew]. injection Ew as <- <-. right. destruct (Hr' _ _ eq_refl) as (S1 & S2 & S3 & m & Em' & Hland & Hdata).
      exists p, m, (Some v). cbn [gw_io gw_grids]. split; [done |]. split; [done |]. split; [done |]. split; [by apply after_read |]. split; [done |].
      intros Hret. split; [by eexists | by apply Hdata].
    + exists schedule, [], [], (r.1, GridWorld r.2 (gw_grids w2)). rewrite Hone. run. by destruct r.
  - assert (Hnowb : noWriteback manyBytes sp false (gw_io w2)) by done.
    destruct (read_blocking_ok floatCast Hcast junk fzero fle fadd scaled splitFactor qsort manyBytes data_backends threads buf0 sp data Hsp Hinj (gw_io w2) m0 false false Hr2 Em Hnowb)
      as (Hall & (schedule & [[ret unc] io] & Hone) & _).
    assert (Hstate : forall ret' unc' io', read_result buf0 sp data (gw_io w2) m0 ret' unc' io' -> grid_state buf0 sp data (GridWorld io' (gw_grids w2))).
    { intros ret' unc' io' (_ & S1 & S2 & S3 & _). by apply after_read. }
    split.
    + intros schedule' writeback store. destruct (Hall schedule' writeback) as (r' & -> & Hres). run. destruct r' as [[[ret' unc'] io'] |]; [| by eexists].
      specialize (Hres _ _ _ eq_refl). pose proof (Hstate _ _ _ Hres) as Hs'. destruct (decide (ret' = ESDM_SUCCESS)) as [-> | Hne].
      * destruct (holes_filled w2 unc' io' Hw2 Hres) as (m & Em' & Hland & Hdata).
        destruct (collected_ok p w2 io' m Hw2 He Hp Ho Hs' Em' Hland Hdata) as (v & isNew & w3 & -> & [(-> & Hcr) | (-> & ret' & w4 & Hcr & Hw4 & _)]); run; cbn [negb].
        -- eexists. split; [done |]. intros ? ? [= <- <-]. by right.
        -- destruct (Hw4 store) as [-> | ->]; run; eexists; (split; [done |]); [by intros ? ? [=] |]. intros ? ? [= <- <-]. by right.
      * eexists. split; [done |]. intros ? ? [= <- <-]. right. destruct Hres as (_ & _ & _ & _ & m & Em' & Hland & _). exists p, m, None. by split_and!.
    + destruct (Hall schedule []) as (r' & Er & Hres). rewrite Hone in Er. injection Er as <-. specialize (Hres _ _ _ eq_refl). pose proof (Hstate _ _ _ Hres) as Hs'.
      destruct (decide (ret = ESDM_SUCCESS)) as [-> | Hne].
      * destruct (holes_filled w2 unc io Hw2 Hres) as (m & Em' & Hland & Hdata).
        destruct (collected_ok p w2 io m Hw2 He Hp Ho Hs' Em' Hland Hdata) as (v & isNew & w3 & Ec & [(-> & Hcr) | (-> & ret' & w4 & Hcr & _ & store & Hst)]).
        -- eexists schedule, [], [], _. rewrite Hone. run. rewrite decide_True by done. rewrite Ec. by run.
        -- eexists schedule, [], store, _. rewrite Hone. run. rewrite decide_True by done. rewrite Ec. run. cbn [negb]. by rewrite Hst.
      * eexists schedule, [], [], _. rewrite Hone. run. by rewrite decide_False.
Qed.

End Cell.


End Reading.

(** * Reading what was written *)

Lemma leaf_gridAt {F} (top : esdm_grid_t F) (path p : list nat) (c : esdmI_hypercube_t) :
  leafExtents top (path ++ p) = Some c -> p <> [] -> exists g, gridAt top path = Some g.
Proof.
  revert top. induction path as [| i path IH]; intros top Hl Hp; [by exists top |]. cbn [app leafExtents] in Hl. cbn [gridAt].
  destruct (grid top) as [cs |]; [| by destruct path, p]. cbn [mbind option_bind] in *. destruct (cs !! i) as [e |]; [| done]. cbn [mbind option_bind] in *.
  destruct (subgrid e) as [s |]; [by apply IH | by destruct path, p].
Qed.

Section RoundTrip.

Context (floatCast : esdm_type_t -> esdm_type_t -> list Z -> list Z).
Context (Hcast : forall d s bytes, 0 <= esdm_sizeof d -> Z.of_nat (length (floatCast d s bytes)) = esdm_sizeof d).
Context (junk : mem) {B : Type} `{DataBackendLaws B} {T : Type} `{GHashTableLaws T}.
Context {F : Type} (fzero : F) (fle : F -> F -> bool) (fadd : F -> F -> F) (scaled : F -> Z -> F -> Z).
Context (splitFactor : Z -> Z -> Z -> Z -> Z) (qsort : list dimInfo_t -> list dimInfo_t) (manyBytes : Z -> Z -> bool).
Context (data_backends : list (data_backend (F := F))) (threads : nat -> nat).
Hypothesis Hbackends : (exists t ts, db_throughput <$> data_backends = Some <$> (t :: ts) /\ fle fzero t = true) /\ Forall (fun b => valid_backend (db_handle b)) data_backends.

(** Two buffers for the cell, and the data of the dataset. *)
Context (buf0 buf1 : pointer) (sp sp1 : esdm_dataspace_t) (data : content_t).
Hypothesis Hsp : data_space sp.
Hypothesis Hsp1 : data_space sp1.
Hypothesis Hinj1 : injective_layout sp1.
Hypothesis Hregion : extends sp1 = extends sp.
Hypothesis Htype : type sp1 = type sp.
Hypothesis Hdims : dims sp1 = dims sp.
Hypothesis Hforward : Forall (fun t => 0 <= t) (eff sp).

Abbreviation region := (extends sp).
Abbreviation entriesOf := (fun w : io_world (B := B) (T := T) => g_hash_table_entries (dset_fragments (w_dataset w))).

(** After a successful write the dataset is readable: the cell has no points without data. *)
Lemma write_keeps_readable (w w1 : grid_world (B := B) (T := T)) (h : nat) (at_ : list nat) :
  grid_open buf1 sp1 data w -> (forall v f, objects (w_store (gw_io w)) !! v = Some f -> status f <> ESDM_DATA_DIRTY) -> counters_fit (gw_io w1) ->
  cell_written buf0 sp data w h at_ ESDM_SUCCESS w1 -> grid_readable buf1 sp1 data w1.
Proof.
  intros [R1 R2 R3 R4 R6 R7 R8] Hclean (F1 & F2 & F3) (p & v & f & He & Hp & [Hgr [C1 C2 C3]] & Hmem & Hoth & Ef & Ex & (K1 & K2 & K3) & Hcase).
  assert (Hnew : forall u g, objects (w_store (gw_io w1)) !! u = Some g -> objects (w_store (gw_io w)) !! u = Some g \/
    (u = v /\ g = f /\ type (dataspace f) = type sp /\ dims (dataspace f) = dims sp /\ eff (dataspace f) = eff sp /\ status f = ESDM_DATA_NOT_LOADED /\ buf f = None)).
  { intros u g Eg. destruct (decide (u = v)) as [-> | Hne]; [| left; by apply Hoth]. rewrite Ef in Eg. injection Eg as <-.
    destruct Hcase as [(_ & Es & _) | (_ & _ & _ & T1 & T2 & T3 & Hok)]; [left; by rewrite <- Es | right]. destruct (Hok eq_refl) as (? & ? & _). by split_and!. }
  assert (Hold : forall u g, objects (w_store (gw_io w)) !! u = Some g -> objects (w_store (gw_io w1)) !! u = Some g).
  { intros u g Eg. destruct (decide (u = v)) as [-> | Hne]; [| by apply Hoth]. destruct Hcase as [(_ & -> & _) | (Hn & _)]; [done | congruence]. }
  assert (Hent : forall e, e ∈ entriesOf (gw_io w1) -> e ∈ entriesOf (gw_io w) \/ e = (region, v)).
  { intros e. destruct Hcase as [(_ & _ & ->) | (_ & Hperm & _)]; [by left |]. rewrite Hperm, elem_of_cons. tauto. }
  assert (Hst : store_ok buf1 sp1 (fun _ => data) (w_store (gw_io w1))).
  { apply (store_grows buf0 data buf1 sp1 (w_store (gw_io w))); [apply R1 | apply Hgr | done | |].
    - intros u g [Eg | (_ & -> & _ & _ & _ & _ & Eb)]%Hnew; [by left | by right].
    - intros u g [Eg | (_ & -> & _ & _ & _ & Es & _)]%Hnew; [by apply (Hclean u) | by rewrite Es]. }
  assert (Hserve : axes_serve sp1 (gw_grids w1)) by (by eapply placed_serve). rewrite <- Hdims in C1.
  split; [constructor | intros q value Hq _ Hno; destruct (Hno v f Ef); by rewrite Ex, <- Hregion].
  - destruct R1 as [_ [_ [Q2 _] _] Q3 Q4 Q5 Q6 Q7 _ _]. constructor; try done.
    + constructor; [rewrite Hregion; apply Hgr | split; [| done] | rewrite C3; by apply (complete_ready buf1 sp1 data)].
      apply Forall_forall. intros e [Hin | ->]%Hent; [by apply (proj1 (Forall_forall _ _) Q2) |]. cbn [fst].
      destruct (extends_int64 sp Hsp) as [Hr _]. split; [by apply int64_nonempty |]. apply (volume_inside sp Hsp); [by apply int64_nonempty | apply cube_inside_refl].
    + intros u g [Eg | (-> & -> & T1 & T2 & T3 & _ & Eb)]%Hnew; [by apply (Q5 u) |]. rewrite T1, T2, Htype, Hdims. split; [done |]. split; [done |].
      split; [unfold forward; by rewrite T3 | congruence].
    + by rewrite K2.
    + by rewrite K3.
  - by constructor.
  - done.
  - intros u g [Eg | (-> & _)]%Hnew.
    + specialize (R4 u g Eg). destruct Hcase as [(_ & _ & ->) | (_ & Hperm & _)]; [done |]. rewrite Hperm. by right.
    + destruct Hcase as [(_ & Es & ->) | (_ & Hperm & _)]; [by apply (R4 v f); rewrite <- Es | rewrite Hperm; by left].
  - destruct Hgr as [_ _ (Z1 & Z2 & Z3) _ _]. split_and!; [done | congruence | done].
  - by rewrite K1.
  - by rewrite K2.
Qed.

Abbreviation write_grid := (esdm_write_grid floatCast junk fzero fle data_backends threads (B := B) (T := T)).
Abbreviation read_grid := (esdm_read_grid floatCast junk fzero fle fadd scaled splitFactor qsort manyBytes data_backends threads (B := B) (T := T)).

(** The grid is still there. *)
Lemma written_grid (w w1 : grid_world (B := B) (T := T)) (h : nat) (at_ : list nat) (top g : esdm_grid_t nat) (ret : esdm_status) :
  trees (gw_grids w) !! h = Some top -> gridAt top at_ = Some g -> cell_written buf0 sp data w h at_ ret w1 ->
  exists top1 g1, trees (gw_grids w1) !! h = Some top1 /\ gridAt top1 at_ = Some g1.
Proof.
  intros Ht Hg (p & v & f & He & Hp & _). assert (Hne : p <> []).
  { intros ->. unfold extentsOf in He. rewrite Ht in He. cbn [mbind option_bind] in He. by rewrite (leafExtents_app top g at_ [] Hg) in He. }
  rewrite <- (pl_extents _ _ _ _ _ _ Hp) in He. unfold extentsOf in He. destruct (trees (gw_grids w1) !! h) as [top1 |]; [| done]. cbn [mbind option_bind] in He.
  destruct (leaf_gridAt top1 at_ p region He Hne) as [g1 Hg1]. by exists top1, g1.
Qed.


End RoundTrip.

(** * An example *)

Module Cell.

(** The left half in the order of the columns. *)
Definition turned : esdm_dataspace_t := Dataspace SMD_DTYPE_INT16 2 [2; 2] [0; 0] false (Some [1; 2]).

(** The dataset with a fill value. *)
Definition dataset : esdm_dataset_t HashList.hashList := Dataset "dst" Blocks.space (Some [7; 0]) None [] [] ESDM_DATA_PERSISTENT ESDM_DATA_PERSISTENT.

Definition filled : grid_world := GridWorld (IoWorld (w_store Blocks.world) dataset Rows.zeroStats Rows.zeroStats) Halves.grids.

Definition readWith (schedule : list choice) (w : grid_world) : outcome (option (esdm_status * grid_world)) :=
  esdm_read_grid zeroCast (fun _ => 0) 0 Z.leb Z.add Blocks.scaled (fun _ _ _ _ => 1) (fun l => l) (fun _ _ => false) Blocks.backends (fun _ => 1%nat)
    schedule [] Halves.schedule 0 [] turned (1%nat, 0) w.

Lemma turned_ok : data_space turned.
Proof.
  solve_data_space.
Qed.

Lemma turned_injective : injective_layout turned.
Proof.
  intros p q Hp Hq E. apply in_cube_cons in Hp as (a & p' & -> & Ha & Hp). apply in_cube_cons in Hp as (b & p'' & -> & Hb & Hp). apply in_cube_nil in Hp as ->.
  apply in_cube_cons in Hq as (a' & q' & -> & Ha' & Hq). apply in_cube_cons in Hq as (b' & q'' & -> & Hb' & Hq). apply in_cube_nil in Hq as ->.
  unfold in_range in *. simpl in Ha, Hb, Ha', Hb'. unfold index, eff in E. simpl in E. f_equal; [lia |]. f_equal. lia.
Qed.

Lemma halves_axes : axes_serve turned Halves.grids.
Proof.
  intros [| h] top [= <-]. split; [| by vm_compute]. constructor; repeat constructor; by vm_compute.
Qed.

(** A dataset without fragments is open. *)
Lemma cell_open (w : grid_world) (data : content_t) :
  gw_io w = IoWorld (w_store Blocks.world) (w_dataset (gw_io w)) Rows.zeroStats Rows.zeroStats -> gw_grids w = Halves.grids ->
  (exists fill, w_dataset (gw_io w) = Dataset "dst" Blocks.space fill None [] [] ESDM_DATA_PERSISTENT ESDM_DATA_PERSISTENT /\
    forall value, fill = Some value -> Z.of_nat (length value) = 2) -> grid_open (1%nat, 0) turned data w.
Proof.
  destruct w as [[s d rs ws] gs]. cbn [gw_io gw_grids w_dataset w_store]. intros [= -> -> ->] -> (fill & -> & Hfill).
  constructor; cbn [gw_io gw_grids w_dataset w_store fill_value dset_space dset_id dset_fragments].
  - constructor; try done.
    + constructor; try done. exact (construct_inv (T := HashList.hashList) 2 ∅).
    + split; [done |]. eexists. vm_compute. reflexivity.
  - constructor; [exact (reachable_inv 2 Halves.grids ltac:(lia) Halves.grids_reachable) | | done]. intros h p v Hf. exfalso. destruct h as [| h]; [| done]. by destruct p.
  - exact halves_axes.
  - intros v f Ef. discriminate Ef.
  - split; [by constructor | done].
  - solve_id.
  - split; [done |]. intros [| [| i]] d s o [= <-] [= <-] [= <-]; right; lia.
Qed.

Definition collect : list choice := replicate 6 (Run MainThread).

Definition world_t : Type := grid_world (B := posix_state (FS := MapFS.mapFS)) (T := HashList.hashList).

(** The statuses of a sequence of calls, and an element of the second buffer at the end. *)
Definition outcomeOf (r : outcome (option (esdm_status * world_t))) (k : world_t -> option (list esdm_status * list Z)) : option (list esdm_status * list Z) :=
  match r with
  | Done (Some (ret, w)) => (fun x => (ret :: x.1, x.2)) <$> k w
  | _ => None
  end.

Definition elementOf (p : list Z) (w : world_t) : option (list esdm_status * list Z) :=
  (fun m => ([], elementAt turned (seen (1%nat, 0) m) p)) <$> memory (w_store (gw_io w)) !! 1%nat.

Definition writeLeft (w : world_t) : outcome (option (esdm_status * world_t)) :=
  esdm_write_grid zeroCast (fun _ => 0) 0 Z.leb Blocks.backends (fun _ => 1%nat) Halves.schedule 0 [] Halves.left (0%nat, 0) w.

End Cell.



(** A read of a cell that has no data makes a fragment of the fill value, and a later write of the
    cell reports success without writing: the next read returns the fill value and not the data. *)
Lemma read_hides_write :
  Cell.outcomeOf (Cell.writeLeft Cell.filled) (fun w => Cell.outcomeOf (Cell.readWith Halves.schedule w) (Cell.elementOf [1; 0])) = Some ([ESDM_SUCCESS; ESDM_SUCCESS], [4; 5]) /\
  Cell.outcomeOf (Cell.readWith Cell.collect Cell.filled) (fun w => Cell.outcomeOf (Cell.writeLeft w) (fun w => Cell.outcomeOf (Cell.readWith Halves.schedule w) (Cell.elementOf [1; 0])))
  = Some ([ESDM_SUCCESS; ESDM_SUCCESS; ESDM_SUCCESS], [7; 0]).
Proof. split; vm_compute; reflexivity. Qed.

(** A backend whose writes fail. *)
Module Failing.

#[local] Instance failing : DataBackend unit := {
  esdmI_backend_fragment_retrieve k f h b := mret (ESDM_ERROR, h, b);
  esdmI_backend_fragment_update k f h b := mret (ESDM_ERROR, f, h, b);
  esdmI_backend_fragment_delete k f b := mret (ESDM_ERROR, b)
}.

Definition world : grid_world (B := unit) := GridWorld (IoWorld (Store ∅ {[0%nat := fun a => a]} tt) Cell.dataset Rows.zeroStats Rows.zeroStats) Halves.grids.

Definition write (w : grid_world (B := unit)) : outcome (option (esdm_status * grid_world)) :=
  esdm_write_grid zeroCast (fun _ => 0) 0 Z.leb Blocks.backends (fun _ => 1%nat) Halves.schedule 0 [] Halves.left (0%nat, 0) w.

Definition statuses : option (esdm_status * esdm_status) :=
  match write world with
  | Done (Some (ret, w)) => match write w with Done (Some (ret', _)) => Some (ret, ret') | _ => None end
  | _ => None
  end.

End Failing.

(** A write that fails leaves its fragment in the cell, so that the repeated write reports success
    although the backend cannot store anything. *)
Lemma failed_write_hidden : Failing.statuses = Some (ESDM_ERROR, ESDM_SUCCESS).
Proof. vm_compute. reflexivity. Qed.
