(* ===== verification/StreamWrite.v ===== *)
(** Streams of dataset writes: a stream that receives the elements of a region in C order returns, and the fragments that it leaves
    in the dataset partition the region and hold the elements. *)

From stdpp Require Import gmap strings.
From S2P Require Import Prelude Memory Hypercube HypercubeSet Json Odometer Dataspace Convert CopyData Partition Split Grid GridTree Fragment FragmentState Posix Fragments Request Dataset Scheduler Stream StreamCounts SchedulerRead ReadBlocking SchedulerWrite.

Open Scope Z_scope.

(** * Loops over the dimensions *)

Lemma mapM_lookup {A} (f : nat -> outcome A) (l : list A) : (forall i x, l !! i = Some x -> f i = Done x) -> mapM f (seq 0 (length l)) = Done l.
Proof.
  intros Hf. assert (Hgen : forall i m, (i + length m)%nat = length l -> drop i l = m -> mapM f (seq i (length m)) = Done m).
  { intros i m. revert i. induction m as [| x m IH]; intros i Hi Hm; [done |]. cbn [length seq]. rewrite mapM_cons.
    assert (Hx : l !! i = Some x) by (rewrite <- (Nat.add_0_r i), <- lookup_drop, Hm; done). rewrite (Hf i x Hx). run. cbn in Hi.
    rewrite IH; [done | lia |]. rewrite (drop_S l x i Hx) in Hm. by injection Hm. }
  by apply Hgen.
Qed.

Lemma foldM_lookup {A S} (f : nat -> S -> outcome S) (g : A -> S -> outcome S) (l : list A) (s : S) :
  (forall i x s, l !! i = Some x -> f i s = g x s) -> foldM f (rev (seq 0 (length l))) s = foldM g (rev l) s.
Proof.
  revert s. induction l as [| x l IH] using rev_ind; intros s Hf; [done |]. rewrite length_app, seq_app, !rev_app_distr. cbn [rev app foldM length seq Nat.add].
  rewrite (Hf _ x) by (by apply list_lookup_middle). destruct (g x s); [| done | done]. cbn. apply IH. intros i y s'' Hy. apply Hf. by apply lookup_app_l_Some.
Qed.

(** * Sizes of chunks *)

Lemma fold_prod_ok (l : list Z) (acc : Z) :
  Forall (fun s => 1 <= s) l -> 0 <= acc -> acc * prod l <= INT64_MAX -> foldM (fun s c => chk64 (c * s)) l acc = Done (acc * prod l).
Proof.
  intros Hl. revert acc. induction Hl as [| s l Hs Hl IH]; intros acc Ha Hm; cbn [foldM]; [cbn; by rewrite Z.mul_1_r |].
  change (prod (s :: l)) with (s * prod l) in *. pose proof (prod_ge_1 l Hl). rewrite chk64_ok by (unfold INT64_MIN; nia). run. rewrite IH by nia. f_equal. lia.
Qed.

Lemma fold_prod_rev (l : list Z) (acc : Z) :
  Forall (fun s => 1 <= s) l -> 0 <= acc -> acc * prod l <= INT64_MAX -> foldM (fun s c => chk64 (c * s)) (rev l) acc = Done (acc * prod l).
Proof. intros Hl Ha Hm. rewrite fold_prod_ok; [by rewrite prod_rev | by apply Forall_rev | done | by rewrite prod_rev]. Qed.

(** The largest object. *)
Definition objectBound (ss : list Z) (split : option (nat * Z)) : Z :=
  match split with Some (d, ms) => ms * prod (drop (S d) ss) | None => prod ss end.

Lemma part_width (q s c ms : Z) : 1 <= ms < s -> c = (s + ms - 1) / ms -> (q + 1) * s / c - q * s / c <= ms.
Proof.
  intros Hm ->. set (c := (s + ms - 1) / ms). assert (Hc : 1 <= c) by (apply Z.div_le_lower_bound; lia).
  assert (Hs : s <= c * ms).
  { unfold c. pose proof (Z.div_mod (s + ms - 1) ms ltac:(lia)). pose proof (Z.mod_pos_bound (s + ms - 1) ms ltac:(lia)). nia. }
  assert ((q + 1) * s / c <= q * s / c + ms); [| lia]. transitivity ((q * s + ms * c) / c); [apply Z.div_le_mono; nia |]. by rewrite Z.div_add by lia.
Qed.

Lemma object_bound (elementSize max : Z) (os ss cs : list Z) (split : option (nat * Z)) (j : Z) :
  length os = length ss -> length cs = length ss -> Forall (fun s => 1 <= s) ss -> split_ok elementSize max ss cs split -> prod (osizes (object os ss cs j)) <= objectBound ss split.
Proof.
  intros Ho Hc Hs Hok. destruct split as [[d ms] |]; cbn [split_ok objectBound] in *.
  - destruct Hok as (Hms & Htake & (s & Es & Hlt & Ec) & Hone & _). revert os ss cs Ho Hc Hs Htake Es Ec Hone. induction d as [| d IH]; intros [| o os] [| s' ss] [| c cs]; intros; try done.
    + cbn in Es, Ec, Ho, Hc. injection Es as ->. injection Ec as ->. cbn [drop] in *. destruct (object_whole os ss cs j) as (E & _ & _); [done | lia | lia |].
      cbn [object]. rewrite E. destruct (osizes_box os ss) as [Ew _]; [lia |]. unfold osizes in *. rewrite fmap_cons. cbn [rstart rend].
      match goal with |- prod (?x :: ?l) <= _ => change (prod (x :: l)) with (x * prod l) end. rewrite Ew. apply Forall_cons in Hs as [_ Hs]. pose proof (prod_ge_1 ss Hs).
      rewrite drop_0; apply Z.mul_le_mono_nonneg_r; [lia |]. set (q := _ mod _). pose proof (part_width q s _ ms ltac:(lia) eq_refl). lia.
    + cbn in Ho, Hc. cbn [take] in Htake. injection Htake as -> Htake. cbn in Es, Ec. apply Forall_cons in Hs as [Hs1 Hs]. cbn [object]. unfold osizes in *. rewrite fmap_cons. cbn [rstart rend].
      match goal with |- prod (?x :: ?l) <= _ => change (prod (x :: l)) with (x * prod l) end. rewrite !Z.div_mul by lia. cbn [drop] in *.
      specialize (IH os ss cs ltac:(lia) ltac:(lia) Hs Htake Es Ec Hone). lia.
  - destruct Hok as [Hone _]. destruct (object_whole os ss cs j) as (-> & _ & _); [done | done | done |]. destruct (osizes_box os ss) as [-> _]; [done |]. lia.
Qed.

(** * The chunks of one fragment *)

(** An operating system that has room for a number of new files, and permits to create them: as long as there is room, [mkdir()] and [open()]
    do not fail.  Directories and the contents of files are not counted. *)
Class Reliable (FS : Type) `{FileSystemLaws FS} := {
  fs_room : FS -> nat;
  mkdir_works p fs r fs' : fs_mkdir p fs = (r, fs') -> (0 < fs_room fs)%nat -> r <> CreateError /\ (fs_room fs <= fs_room fs')%nat;
  create_works p fs r fs' : fs_create p fs = (r, fs') -> (0 < fs_room fs)%nat ->
    r <> CreateError /\ (fs_room fs <= match r with Created => S (fs_room fs') | _ => fs_room fs' end)%nat;
  write_room p data fs r fs' : fs_write p data fs = (r, fs') -> (fs_room fs <= fs_room fs')%nat
}.

Section Backend.

Context {FS : Type} `{Reliable FS} `{!BoundedNames FS, !IoWorks FS} (target : nat -> string) (makeId : nat -> string).
Context (Hsetup : posix_setup FS target makeId).

Abbreviation stored := (posix_stored (FS := FS) target).

Lemma write_loop_room (fuel : nat) (p : string) (data : list Z) (fs fs' : FS) (ok : bool) :
  write_loop fuel p data fs = Done (ok, fs') -> (fs_room fs <= fs_room fs')%nat.
Proof.
  revert data fs. induction fuel as [| fuel IH]; intros [| x data] fs E; cbn [write_loop] in E; try (by injection E as _ ->); [done |].
  destruct (fs_write p (x :: data) fs) as [r fs1] eqn:Ew. apply write_room in Ew. destruct r; try done; apply IH in E; lia.
Qed.

Lemma write_check_works (p : string) (data old : list Z) (fs : FS) : proper p -> fs_files fs p = Some old ->
  exists fs', ea_write_check p data fs = Done (true, fs') /\ (forall q, q <> p -> fs_files fs' q = fs_files fs q) /\ fs_files fs' p = Some (old ++ data)%list /\
  (fs_room fs <= fs_room fs')%nat.
Proof.
  intros Hpr Hp. destruct (completes_returns _ _ _ _ (write_check_ok p data old fs Hpr Hp)) as ([ok fs'] & E & -> & Hoth & Hd).
  exists fs'. split; [done |]. split; [done |]. split; [done |]. by eapply write_loop_room.
Qed.

Lemma mkdir_loop_works (n k : nat) (tmp : string) (fs fs' : FS) (r : create_result) :
  mkdir_loop n k tmp fs = (r, fs') -> (0 < fs_room fs)%nat -> r <> CreateError /\ (fs_room fs <= fs_room fs')%nat.
Proof.
  revert k fs. induction n as [| n IH]; intros k fs E Hr; cbn [mkdir_loop] in E; [by eapply mkdir_works |].
  match type of E with mkdir_loop _ _ _ ?x = _ => assert (Hx : (fs_room fs <= fs_room x)%nat) end.
  { case_decide; [| done]. destruct (fs_mkdir (String.substring 0 k tmp) fs) as [r1 fs1] eqn:E1. by apply mkdir_works in E1 as [_ ?]. }
  apply IH in E as [? ?]; [split; [done | lia] | lia].
Qed.

Lemma create_posix_id_works (fuel : nat) (tgt : string) (g f : esdm_fragment_t) (s s' : posix_state) (st : esdm_status) (path : string) :
  create_posix_id makeId fuel tgt g s = Done (st, f, path, s') -> (0 < fs_room (files s))%nat -> st = ESDM_SUCCESS /\ (fs_room (files s) <= S (fs_room (files s')))%nat.
Proof.
  revert g s. induction fuel as [| fuel IH]; intros g s E Hroom; cbn [create_posix_id] in E; [done |].
  destruct (sprintfFragmentDir tgt (withId g (Some (makeId (madeIds s))))) as [dir | |] eqn:Ed; cbn [mbind outcome_bind] in E; try done. cbn [files madeIds] in E.
  destruct (if fs_stat dir (files s) then (Created, files s) else mkdir_recursive dir (files s)) as [r fs1] eqn:E1.
  assert (Hr : r <> CreateError /\ (fs_room (files s) <= fs_room fs1)%nat).
  { destruct (fs_stat dir (files s)); [by injection E1 as <- <- |]. unfold mkdir_recursive in E1. by eapply mkdir_loop_works. }
  destruct Hr as [Hr Hle]. cbn [files madeIds] in E. replace (match r with CreateError => true | _ => false end) with false in E by (by destruct r).
  destruct (sprintfFragmentPath tgt (withId g (Some (makeId (madeIds s))))) as [pth | |]; cbn [mbind outcome_bind] in E; try done. cbn [files madeIds] in E.
  destruct (fs_create pth fs1) as [fd fs2] eqn:E2. apply create_works in E2 as [Hc Hle2]; [| lia].
  destruct fd; [injection E as <- _ _ <-; cbn [files]; split; [done | lia] | apply IH in E as [-> ?]; cbn [files] in *; [split; [done | lia] | lia] | done].
Qed.

(** The first chunk of a fragment creates its file. *)
Lemma stream_first_ok (k : nat) (f : esdm_fragment_t) (state : option string) (chunk : list Z) (s : posix_state) :
  valid_backend k -> valid_id (datasetId f) -> id f = None -> Z.of_nat (length chunk) <= bytes f -> (0 < fs_room (files s))%nat ->
  exists i state' s', fragment_write_stream_blocksize target makeId k f state chunk 0 s = Done (ESDM_SUCCESS, withId f (Some i), state', s') /\ valid_id i /\
  stored s (k, datasetId f, i) = None /\ stored s' (k, datasetId f, i) = Some chunk /\ (forall key, key <> (k, datasetId f, i) -> stored s' key = stored s key) /\
  (Z.of_nat (length chunk) < bytes f -> state' = Some (pathOf (target k) (datasetId f) i)) /\ (fs_room (files s) <= S (fs_room (files s')))%nat.
Proof.
  intros Hk Hds Eid Hle Hroom. unfold fragment_write_stream_blocksize. rewrite Z.eqb_refl, Eid. 
  destruct (create_id_ok target makeId Hsetup k f s Hk Hds) as (st & n & path & s1 & E & Hs1 & Hsucc).
  destruct (create_posix_id_works _ _ _ _ _ _ _ _ E Hroom) as [-> Hroom1]. rewrite E. run. rewrite decide_True by done. run. destruct (Hsucc eq_refl) as (-> & Hproper & Hnone & Hempty).
  rewrite decide_True by done. cbn [withId bytes]. rewrite Z.add_0_l. rewrite eassert_true by lia. run.
  destruct (write_check_works _ chunk [] (files s1) Hproper Hempty) as (fs2 & -> & Hoth & Hnew & Hroom2). run. pose proof (ps_ids Hsetup n) as Hv.
  eexists (makeId n), _, _. split; [done |]. split; [done |]. rewrite !stored_path by done. cbn [files]. split; [done |]. split; [done |]. split.
  - intros key Hne. apply (stored_others target makeId Hsetup _ _ k (datasetId f) (makeId n)); try done. cbn [files]. intros q Hq. rewrite Hoth by done. apply Hs1. by left.
  - split; [| lia]. intros Hlt. rewrite (proj2 (Z.eqb_neq _ _)) by lia. done.
Qed.

(** The next chunks are appended. *)
Lemma stream_next_ok (k : nat) (f : esdm_fragment_t) (i : string) (chunk old : list Z) (s : posix_state) (off : Z) :
  valid_backend k -> valid_id (datasetId f) -> valid_id i -> id f = Some i -> off <> 0 -> off + Z.of_nat (length chunk) <= bytes f -> stored s (k, datasetId f, i) = Some old ->
  exists state' s', fragment_write_stream_blocksize target makeId k f (Some (pathOf (target k) (datasetId f) i)) chunk off s = Done (ESDM_SUCCESS, f, state', s') /\
  stored s' (k, datasetId f, i) = Some (old ++ chunk)%list /\ (forall key, key <> (k, datasetId f, i) -> stored s' key = stored s key) /\
  (off + Z.of_nat (length chunk) < bytes f -> state' = Some (pathOf (target k) (datasetId f) i)) /\ (fs_room (files s) <= fs_room (files s'))%nat.
Proof.
  intros Hk Hds Hi Eid Hoff Hle Hold. unfold fragment_write_stream_blocksize. rewrite (proj2 (Z.eqb_neq off 0)) by done. run. rewrite decide_True by done. rewrite eassert_true by lia. run.
  rewrite stored_path in Hold by done. destruct (fragment_paths target makeId Hsetup k f i Hk Hds Hi Eid) as (_ & _ & Hproper & _).
  destruct (write_check_works _ chunk old (files s) Hproper Hold) as (fs2 & -> & Hoth & Hnew & Hroom). run.
  eexists _, _. split; [done |]. rewrite stored_path by done. cbn [files]. split; [done |]. split.
  - intros key Hne. apply (stored_others target makeId Hsetup _ _ k (datasetId f) i); try done.
  - split; [| done]. intros Hlt. by rewrite (proj2 (Z.eqb_neq _ _)) by lia.
Qed.

End Backend.

(** * Data *)

(** Elements [a] to [a + n] of the data. *)
Definition slice (elementSize : Z) (data : list Z) (a n : Z) : list Z := take (Z.to_nat (n * elementSize)) (drop (Z.to_nat (a * elementSize)) data).

Section Slices.

Context (e : Z) (data : list Z) (total : Z).
Hypothesis He : 0 < e.
Hypothesis Hdata : Z.of_nat (length data) = total * e.

Lemma slice_length (a n : Z) : 0 <= a -> 0 <= n -> a + n <= total -> Z.of_nat (length (slice e data a n)) = n * e.
Proof. intros Ha Hn Hle. unfold slice. rewrite length_take, length_drop. nia. Qed.

Lemma slice_app (a n n' : Z) : 0 <= a -> 0 <= n -> 0 <= n' -> (slice e data a n ++ slice e data (a + n) n')%list = slice e data a (n + n').
Proof.
  intros Ha Hn Hn'. unfold slice. rewrite !Z.mul_add_distr_r, !Z2Nat.inj_add by nia. rewrite <- drop_drop. apply take_take_drop.
Qed.

Lemma slice_slice (a n b k : Z) : 0 <= a -> 0 <= b -> 0 <= k -> b + k <= n -> slice e (slice e data a n) b k = slice e data (a + b) k.
Proof.
  intros Ha Hb Hk Hle. unfold slice. rewrite take_drop_commute, take_take, Nat.min_l by nia. rewrite <- take_drop_commute, drop_drop. f_equal. f_equal. nia.
Qed.

End Slices.

Lemma concat_slice (e : Z) (elements : list (list Z)) (i : Z) (x : list Z) :
  0 < e -> Forall (fun x => Z.of_nat (length x) = e) elements -> 0 <= i -> elements !! Z.to_nat i = Some x -> slice e (concat elements) i 1 = x.
Proof.
  intros He Hl. unfold slice. rewrite Z.mul_1_l. revert i. induction Hl as [| y l Hy Hl IH]; intros i Hi Hx; [by rewrite lookup_nil in Hx |].
  cbn [concat]. destruct (decide (i = 0)) as [-> | Hne].
  - cbn in Hx. injection Hx as ->. rewrite Z.mul_0_l. change (Z.to_nat 0) with O. rewrite drop_0, take_app_length' by lia. done.
  - rewrite <- (Z.succ_pred i), Z2Nat.inj_succ in Hx by lia. cbn in Hx. rewrite drop_app_ge by nia.
    replace (Z.to_nat (i * e) - length y)%nat with (Z.to_nat (Z.pred i * e)) by nia. apply IH; [lia | done].
Qed.

Lemma concat_length (e : Z) (elements : list (list Z)) : Forall (fun x => Z.of_nat (length x) = e) elements -> Z.of_nat (length (concat elements)) = Z.of_nat (length elements) * e.
Proof. induction 1 as [| x l Hx _ IH]; [done |]. cbn [concat length]. rewrite length_app. lia. Qed.

(** * The fragments of a stream *)

Section Region.

Context (sp : esdm_dataspace_t) (cs : list Z).
Hypothesis Hsp : data_space sp.
Hypothesis Hcs : consecutive (size sp) cs.

Abbreviation fragmentCube := (object (offset sp) (size sp) cs).

Definition fragmentSpace (j : Z) : esdm_dataspace_t := Dataspace (type sp) (dims sp) (osizes (fragmentCube j)) (rstart <$> fragmentCube j) false None.

Definition fragmentVolume (j : Z) : Z := prod (osizes (fragmentCube j)).

Lemma region_lengths : length (offset sp) = length (size sp) /\ length cs = length (size sp) /\ Z.of_nat (length (size sp)) = dims sp /\ extends sp = box (offset sp) (size sp).
Proof.
  pose proof Hsp as [[Hd Hs Ho _] _ _ _ _ _ _]. pose proof (Forall2_length _ _ _ (consecutive_bounds _ _ Hcs)). split; [lia |]. split; [lia |]. by split; [lia |].
Qed.

Lemma fragments_partition : partitions (fragmentCube <$> seqZ 0 (prod cs)) (extends sp).
Proof. destruct region_lengths as (H1 & _ & _ & ->). apply objects_partition; [done | by apply consecutive_bounds]. Qed.

Lemma fragmentCube_inside (j : Z) : 0 <= j < prod cs -> nonempty (fragmentCube j) /\ Forall2 range_inside (fragmentCube j) (extends sp).
Proof.
  intros Hj. pose proof fragments_partition as [P1 P2 _].
  assert (Hin : fragmentCube j ∈ fragmentCube <$> seqZ 0 (prod cs)) by (apply list_elem_of_fmap; exists j; split; [done |]; apply elem_of_seqZ; lia).
  pose proof (proj1 (Forall_forall _ _) P1 _ Hin) as Hn. split; [done |]. apply points_inside; [done |]. intros p Hp. apply P2. by exists (fragmentCube j).
Qed.

Lemma fragmentCube_inj (i j : Z) : 0 <= i < prod cs -> 0 <= j < prod cs -> fragmentCube i = fragmentCube j -> i = j.
Proof.
  intros Hi Hj E. pose proof fragments_partition as [_ _ P3]. destruct (fragmentCube_inside i Hi) as [Hn _]. pose proof (nonempty_point _ Hn) as Hp.
  assert (Hl : forall x, 0 <= x < prod cs -> (fragmentCube <$> seqZ 0 (prod cs)) !! Z.to_nat x = Some (fragmentCube x)).
  { intros x Hx. rewrite list_lookup_fmap, lookup_seqZ_lt by lia. cbn. do 2 f_equal. lia. }
  pose proof (P3 _ _ _ _ _ (Hl i Hi) (Hl j Hj) Hp ltac:(by rewrite <- E)). lia.
Qed.

Lemma fragmentSpace_ok (j : Z) : 0 <= j < prod cs -> data_space (fragmentSpace j) /\ extends (fragmentSpace j) = fragmentCube j.
Proof.
  intros Hj. destruct (fragmentCube_inside j Hj) as [Hn Hi]. change (fragmentSpace j) with (contiguous (cubeSource sp (fragmentCube j))).
  split; [by apply data_space_contiguous, cubeSource_ok | apply (cubeSource_extends sp)].
Qed.

Lemma fragment_next (j : Z) : 0 <= j < prod cs ->
  0 <= first (size sp) cs j /\ 1 <= fragmentVolume j /\ first (size sp) cs j + fragmentVolume j = (if j + 1 <? prod cs then first (size sp) cs (j + 1) else prod (size sp)).
Proof. destruct region_lengths as (H1 & _ & _ & _). by apply object_next. Qed.

Lemma fragment_end (j : Z) : 0 <= j < prod cs -> first (size sp) cs j + fragmentVolume j <= prod (size sp).
Proof.
  intros Hj. destruct (fragment_next j Hj) as (H1 & H2 & ->). destruct (Z.ltb_spec (j + 1) (prod cs)) as [Hlt |]; [| done]. clear H1 H2.
  assert (Hall : forall (d : nat) (i : Z), Z.of_nat d = prod cs - i -> 0 <= i < prod cs -> first (size sp) cs i <= prod (size sp)).
  { induction d as [| d IH]; intros i Hd Hi; [lia |]. destruct (fragment_next i Hi) as (H1 & H2 & H3). destruct (Z.ltb_spec (i + 1) (prod cs)); [| lia].
    specialize (IH (i + 1) ltac:(lia) ltac:(lia)). lia. }
  apply (Hall (Z.to_nat (prod cs - (j + 1)))); lia.
Qed.

(** The content of the region, given by its elements in C order. *)
Context (elements : list (list Z)).
Hypothesis Hcount : Z.of_nat (length elements) = prod (size sp).
Hypothesis Hlength : Forall (fun x => Z.of_nat (length x) = esdm_sizeof (type sp)) elements.

Definition streamed (p : list Z) : list Z := default [] (elements !! Z.to_nat (index (contiguous sp) p)).

Definition fragmentData (j : Z) : list Z := slice (esdm_sizeof (type sp)) (concat elements) (first (size sp) cs j) (fragmentVolume j).

(** A file with the data of a fragment has its elements. *)
Lemma fragmentData_element (j : Z) (p : list Z) : 0 <= j < prod cs -> in_cube p (fragmentCube j) -> fileElement (fragmentSpace j) (fragmentData j) p = streamed p.
Proof.
  intros Hj Hp. destruct (fragmentSpace_ok j Hj) as [Hf He]. destruct (fragmentCube_inside j Hj) as [Hn Hi]. pose proof (inside_point _ _ _ Hi Hp) as Hpr. rewrite <- He in Hp.
  pose proof (contiguous_bounds _ _ Hf Hp) as Hb. pose proof (contiguous_bounds _ _ Hsp Hpr) as Hbr. rewrite He in Hp. pose proof (ds_type _ Hsp) as Hsz.
  destruct region_lengths as (Hl & _ & _ & _). pose proof (object_index _ _ _ _ _ Hcs Hl Hj Hp) as Hidx. unfold fileElement, elementAt. change (contiguous (fragmentSpace j)) with (fragmentSpace j) in *.
  change (index (contiguous sp) p) with (dot p (offset sp) (cstrides (size sp))) in *. rewrite Hidx in Hbr.
  change (index (fragmentSpace j) p) with (dot p (rstart <$> fragmentCube j) (cstrides (osizes (fragmentCube j)))) in *. set (i := dot p (rstart <$> fragmentCube j) _) in *.
  change (prod (size (fragmentSpace j))) with (fragmentVolume j) in Hb. cbn [type fragmentSpace]. set (e := esdm_sizeof (type sp)) in *.
  pose proof (fragment_end j Hj) as Hend. destruct (fragment_next j Hj) as (H1 & _ & _).
  assert (Hlen : Z.of_nat (length (fragmentData j)) = fragmentVolume j * e).
  { unfold fragmentData. apply (slice_length e (concat elements) (prod (size sp))); [done | | lia | lia | done]. rewrite (concat_length e) by done. lia. }
  rewrite read_mem_of by nia. transitivity (slice e (fragmentData j) i 1); [unfold slice; by rewrite Z.mul_1_l |]. unfold fragmentData. fold e. rewrite slice_slice by lia.
  destruct (lookup_lt_is_Some_2 elements (Z.to_nat (first (size sp) cs j + i))) as [x Ex]; [lia |]. rewrite (concat_slice e elements _ x) by (done || lia).
  unfold streamed. change (index (contiguous sp) p) with (dot p (offset sp) (cstrides (size sp))). rewrite Hidx. fold i. by rewrite Ex.
Qed.

End Region.

(** * A stream *)

Section Stream.

Context {FS : Type} `{Reliable FS} `{!BoundedNames FS, !IoWorks FS} (target : nat -> string) (makeId : nat -> string).
Context (Hsetup : posix_setup FS target makeId).
Context {T : Type} `{GHashTableLaws T} (maxFragmentSize : nat -> Z).

Abbreviation world := (io_world (B := posix_state (FS := FS)) (T := T)).
Abbreviation stored := (posix_stored (FS := FS) target).
Abbreviation entriesOf := (fun w : world => g_hash_table_entries (dset_fragments (w_dataset w))).

(** The backend, the region, its elements in C order and the state before the stream. *)
Context (k : nat) (sp : esdm_dataspace_t) (elements : list (list Z)) (w0 : world).

Abbreviation elementSize := (esdm_sizeof (type sp)).
Abbreviation data := (concat elements).

(** The region is inside the dataset, no fragment of the dataset lies inside the region, the parts of the region have hashes,
    the products that the stream computes fit into 64 bits, and the file system has room for the fragments. *)
Record stream_ready : Prop := {
  sr_space : data_space sp;
  sr_count : Z.of_nat (length elements) = prod (size sp);
  sr_length : Forall (fun x => Z.of_nat (length x) = elementSize) elements;
  sr_table : fragments_inv (length (size sp)) (dset_fragments (w_dataset w0)) (objects (w_store w0));
  sr_sizes : sizes_fit sp (w_dataset w0);
  sr_id : valid_id (dset_id (w_dataset w0));
  sr_fits : fitsDataset (size (dset_space (w_dataset w0))) sp;
  sr_free : forall key v, (key, v) ∈ entriesOf w0 -> Forall2 range_inside key (extends sp) -> False;
  sr_hash : forall c, nonempty c -> Forall2 range_inside c (extends sp) -> exists h, esdmI_fragments_hashKey c = Done h;
  sr_products : Forall (fun s => s * prod (size sp) <= INT64_MAX) (size sp);
  sr_backend : valid_backend k;
  sr_room : forall cs cumulative split, initCounts elementSize (to_int64 (maxFragmentSize k)) (size sp) = Done (cs, cumulative, split) ->
    prod cs <= Z.of_nat (fs_room (files (disk (w_store w0))))
}.

Hypothesis Hready : stream_ready.

Lemma region_sides : Forall (fun s => 1 <= s) (size sp) /\ Forall side (size sp).
Proof.
  pose proof Hready as [[Hwf H64 Hpos Hoff Hsz Hb _] _ _ _ _ _ _ _ _ Hp _ _].
  assert (Hs : Forall (fun s => 1 <= s) (size sp)) by (eapply Forall_impl; [exact Hpos |]; cbn; lia). split; [done |].
  assert (Hle : Forall (fun s => s <= prod (size sp)) (size sp)).
  { clear -Hs. induction Hs as [| s l Hs Hl IH]; [constructor |]. change (prod (s :: l)) with (s * prod l). pose proof (prod_ge_1 l Hl). constructor; [nia |].
    eapply Forall_impl; [exact IH |]. cbn. nia. }
  apply Forall_forall. intros s Hin. pose proof (proj1 (Forall_forall _ _) Hs s Hin). pose proof (proj1 (Forall_forall _ _) Hp s Hin). pose proof (proj1 (Forall_forall _ _) Hle s Hin). cbn in *. split; nia.
Qed.

Section Counts.

(** The counts of fragments and chunks. *)
Context (cs ks : list Z) (ksplit : option (nat * Z)).
Hypothesis Hcs : consecutive (size sp) cs.
Hypothesis Hks : consecutive (size sp) ks.
Hypothesis Hsplit : split_ok elementSize kMaxChunkSize (size sp) ks ksplit.
Hypothesis Hroom0 : prod cs <= Z.of_nat (fs_room (files (disk (w_store w0)))).

Abbreviation fragmentCube := (object (offset sp) (size sp) cs).
Abbreviation volumeOf := (fragmentVolume sp cs).
Abbreviation firstOf := (first (size sp) cs).
Abbreviation did := (dset_id (w_dataset w0)).

(** The fragment with index [j]. *)
Definition streamFragment (j : Z) (i : option string) : esdm_fragment_t := withId (setFragmentBackend (createdFragment did (fragmentSpace sp cs j) None) k) i.

Definition complete (objs : gmap nat esdm_fragment_t) (s : posix_state) (j : Z) (v : nat) : Prop :=
  exists i, valid_id i /\ objs !! v = Some (streamFragment j (Some i)) /\ stored s (k, did, i) = Some (fragmentData sp cs elements j) /\
  stored (disk (w_store w0)) (k, did, i) = None.

(** The fragments [vs] were added and the first [c] ones are complete in the storage [s]. *)
Record added (c : nat) (vs : list nat) (s : posix_state) (w : world) : Prop := {
  ad_table : fragments_inv (length (size sp)) (dset_fragments (w_dataset w)) (objects (w_store w));
  ad_sizes : sizes_fit sp (w_dataset w);
  ad_same : sameDataset (w_dataset w0) (w_dataset w);
  ad_memory : memory (w_store w) = memory (w_store w0);
  ad_old : objects (w_store w0) ⊆ objects (w_store w);
  ad_new : Forall (fun v => objects (w_store w0) !! v = None /\ is_Some (objects (w_store w) !! v)) vs;
  ad_nodup : NoDup vs;
  ad_entries : entriesOf w ≡ₚ (zip (fragmentCube <$> seqZ 0 (Z.of_nat (length vs))) vs ++ entriesOf w0)%list;
  ad_complete : forall i v, (i < c)%nat -> vs !! i = Some v -> complete (objects (w_store w)) s (Z.of_nat i) v;
  ad_all : forall v, is_Some (objects (w_store w) !! v) -> is_Some (objects (w_store w0) !! v) \/ v ∈ vs;
  ad_keys : forall i i' v v' f f' key, (i < c)%nat -> (i' < c)%nat -> i <> i' -> vs !! i = Some v -> vs !! i' = Some v' ->
    objects (w_store w) !! v = Some f -> objects (w_store w) !! v' = Some f' -> keyOf f = Some key -> keyOf f' <> Some key;
  ad_stored : forall key file, stored (disk (w_store w0)) key = Some file -> stored s key = Some file;
  ad_room : prod cs <= Z.of_nat (c + fs_room (files s))
}.

(** The fields of the stream that do not change. *)
Record stream_of (m : esdm_wstream_metadata_t) : Prop := {
  so_space : ws_space m = contiguous sp;
  so_backend : ws_backend m = k;
  so_fragments : cumulativeFragmentCounts m = suffixes cs;
  so_chunks : cumulativeChunkCounts m = suffixes ks
}.

(** Where the stream is: [off] elements of fragment [j] are written. *)
Record at_position (j off : Z) (m : esdm_wstream_metadata_t) : Prop := {
  ap_stream : stream_of m;
  ap_fragment : curFragment m = j;
  ap_offset : chunkOffset m = off * elementSize;
  ap_capacity : fragCapacityRemaining m = (volumeOf j - off) * elementSize;
  ap_next : 0 <= nextChunk m <= firstOf j + off
}.

(** The fragment that is being written; [s] is the storage before its first chunk. *)
Definition current (j off : Z) (v : nat) (s : posix_state) (m : esdm_wstream_metadata_t) (w : world) : Prop :=
  (off = 0 /\ objects (w_store w) !! v = Some (streamFragment j None) /\ disk (w_store w) = s) \/
  (0 < off /\ exists i, valid_id i /\ objects (w_store w) !! v = Some (streamFragment j (Some i)) /\ ws_state m = Some (pathOf (target k) did i) /\
   stored (disk (w_store w)) (k, did, i) = Some (slice elementSize data (firstOf j) off) /\ stored s (k, did, i) = None /\
   (forall key, key <> (k, did, i) -> stored (disk (w_store w)) key = stored s key) /\ (fs_room (files s) <= S (fs_room (files (disk (w_store w)))))%nat).

(** The stream between two flushes: [n] elements are written. *)
Definition writing (n : Z) (m : esdm_wstream_metadata_t) (w : world) : Prop :=
  exists j vs v s, length vs = S j /\ vs !! j = Some v /\ Z.of_nat j < prod cs /\ ws_fragment m = Some v /\
  firstOf (Z.of_nat j) <= n < firstOf (Z.of_nat j) + volumeOf (Z.of_nat j) /\
  at_position (Z.of_nat j) (n - firstOf (Z.of_nat j)) m /\ added j vs s w /\ current (Z.of_nat j) (n - firstOf (Z.of_nat j)) v s m w.

(** The stream after its last element. *)
Definition finished (m : esdm_wstream_metadata_t) (w : world) : Prop :=
  stream_of m /\ curFragment m + 1 = prod cs /\ fragCapacityRemaining m = 0 /\ exists vs, Z.of_nat (length vs) = prod cs /\ added (length vs) vs (disk (w_store w)) w.

Definition progress (n : Z) (m : esdm_wstream_metadata_t) (w : world) : Prop := if n <? prod (size sp) then writing n m w else finished m w.

(** ** Adding a fragment *)

Lemma stream_facts : Forall (fun s => 1 <= s) (size sp) /\ Forall side (size sp) /\ Forall2 (fun c s => 1 <= c <= s) cs (size sp) /\ 1 <= prod cs <= prod (size sp) /\
  0 < elementSize /\ prod (size sp) * elementSize <= INT64_MAX.
Proof.
  pose proof (sr_space Hready) as [_ _ _ _ Hsz Hb _]. destruct region_sides as [Hs Hside]. pose proof (consecutive_bounds _ _ Hcs) as Hbd. split; [done |]. split; [done |]. by split; [| split; [apply prod_le |]].
Qed.

Lemma bound_at (ls : list Z) (j : Z) (d : nat) (r : esdmI_range_t) : consecutive (size sp) ls -> 0 <= j ->
  object (offset sp) (size sp) ls j !! d = Some r -> getBounds (contiguous sp) d (suffixes ls) j = Done r.
Proof.
  intros Hls Hj Hr. destruct stream_facts as (_ & Hside & _). pose proof (data_space_contiguous sp (sr_space Hready)) as [Hwf H64 _ _ _ _ _].
  destruct (region_lengths sp ls (sr_space Hready) Hls) as (R1 & R2 & R3 & _). pose proof (length_object (offset sp) (size sp) ls j R1 R2) as Hl.
  destruct (getBounds_ok (contiguous sp) ls j d Hwf H64 (consecutive_bounds _ _ Hls) Hside Hj) as (r' & Er & ->); [apply lookup_lt_Some in Hr; cbn; lia |]. cbn in Er. congruence.
Qed.

Lemma bounds_ok (ls : list Z) (j : Z) : consecutive (size sp) ls -> 0 <= j ->
  mapM (fun dim => getBounds (contiguous sp) dim (suffixes ls) j) (seq 0 (Z.to_nat (dims sp))) = Done (object (offset sp) (size sp) ls j).
Proof.
  intros Hls Hj. destruct (region_lengths sp ls (sr_space Hready) Hls) as (R1 & R2 & R3 & _). pose proof (length_object (offset sp) (size sp) ls j R1 R2).
  replace (Z.to_nat (dims sp)) with (length (object (offset sp) (size sp) ls j)) by lia. apply mapM_lookup. intros d r. by apply bound_at.
Qed.

(** The sizes of a part of the region. *)
Lemma sizes_int64 (c : esdmI_hypercube_t) : nonempty c -> Forall2 range_inside c (extends sp) ->
  mapM rangeSize c = Done (osizes c) /\ Forall (fun s => 1 <= s) (osizes c) /\ 1 <= prod (osizes c) <= prod (size sp).
Proof.
  intros Hn Hi. pose proof (sr_space Hready) as Hsp. pose proof (sub_product c (extends sp) Hn Hi) as Hp. rewrite (extends_sizes sp Hsp) in Hp.
  destruct (inside_int64 sp Hsp c Hn Hi) as [H64 _]. split; [| split; [| done]].
  - unfold osizes. clear -H64. induction H64 as [| r c Hr _ IH]; [done |]. destruct Hr as (R1 & R2 & R3). assert (Er : rangeSize r = Done (rend r - rstart r)) by (unfold rangeSize; by rewrite chk64_ok by (unfold INT64_MIN; lia)). rewrite mapM_cons, Er. run. by rewrite IH.
  - unfold osizes. apply Forall_fmap. eapply Forall_impl; [exact Hn |]. cbn. lia.
Qed.

(** The fragments of the stream are not in the table yet. *)
Lemma fragment_absent (c : nat) (vs : list nat) (s : posix_state) (w : world) (j : Z) (v : nat) :
  added c vs s w -> Z.of_nat (length vs) <= j < prod cs -> (fragmentCube j, v) ∉ entriesOf w.
Proof.
  intros Ha Hj Hin. rewrite (ad_entries _ _ _ _ Ha) in Hin. apply elem_of_app in Hin as [Hin | Hin].
  - apply elem_of_zip_l, list_elem_of_fmap in Hin as (i & E & Hi%elem_of_seqZ). apply (fragmentCube_inj sp cs (sr_space Hready) Hcs) in E; lia.
  - apply (sr_free Hready _ _ Hin). apply (fragmentCube_inside sp cs (sr_space Hready) Hcs). lia.
Qed.

Lemma zip_snoc (j : nat) (vs : list nat) (v : nat) : length vs = j ->
  zip (fragmentCube <$> seqZ 0 (Z.of_nat (S j))) (vs ++ [v]) = (zip (fragmentCube <$> seqZ 0 (Z.of_nat j)) vs ++ [(fragmentCube (Z.of_nat j), v)])%list.
Proof.
  intros Hl. rewrite Nat2Z.inj_succ, <- Z.add_1_r, seqZ_app, fmap_app by lia. rewrite zip_with_app by (rewrite length_fmap, length_seqZ; lia). done.
Qed.

Lemma newFragment_ok (j : nat) (vs : list nat) (m : esdm_wstream_metadata_t) (w : world) :
  stream_of m -> curFragment m + 1 = Z.of_nat j -> Z.of_nat j < prod cs -> length vs = j -> added j vs (disk (w_store w)) w -> 0 <= nextChunk m <= firstOf (Z.of_nat j) ->
  exists m' w', wstream_create_newFragment m w = Done (m', w') /\ (chunkingDim m', maxChunkWidth m') = (chunkingDim m, maxChunkWidth m) /\
    writing (firstOf (Z.of_nat j)) m' w'.
Proof.
  intros [M1 M2 M3 M4] Ecur Hj Hl Ha Hnext. destruct stream_facts as (_ & _ & _ & Hp & Hsz & Hb). pose proof (sr_space Hready) as Hsp.
  destruct (fragmentCube_inside sp cs Hsp Hcs (Z.of_nat j)) as [Hn Hi]; [lia |]. destruct (sizes_int64 _ Hn Hi) as (Es & Hones & Hvol).
  destruct (fragmentSpace_ok sp cs Hsp Hcs (Z.of_nat j)) as [Hfs Hfe]; [lia |]. destruct (fragment_next sp cs Hsp Hcs (Z.of_nat j)) as (F1 & F2 & F3); [lia |].
  unfold wstream_create_newFragment. rewrite Ecur, M1, M2, M3. rewrite chk64_ok by (unfold INT64_MIN; nia). run. cbn [contiguous dims type]. rewrite bounds_ok by (done || lia). run.
  rewrite Es. run. rewrite fold_prod_rev by (done || nia). run. pose proof Hfs as [Hwf H64 Hpos Hoff Hty Hbytes _]. pose proof Hwf as [W1 W2 W3 _].
  unfold esdm_dataspace_create_full. rewrite eassert_true by (apply Z.geb_le; exact W1). run. rewrite !memdup_ok by done. run.
  change (Dataspace (type sp) (dims sp) _ _ false None) with (fragmentSpace sp cs (Z.of_nat j)). pose proof Ha as [A1 A2 A3 A4 A5 A6 A7 A8 A9 A12 A11 A10 A13].
  assert (Hspace : sameDataset (w_dataset w0) (w_dataset w)) by done. destruct Hspace as (S1 & S2 & S3 & S4).
  destruct (createFragment_added sp (length (size sp)) (w_dataset w) (objects (w_store w)) (fragmentSpace sp cs (Z.of_nat j)) None A1) as (v & isNew & d' & objs' & -> & Hcase).
  { rewrite Hfe. split; [apply Forall2_length in Hi; destruct (region_lengths sp cs Hsp Hcs) as (R1 & _ & _ & R4); rewrite R4 in Hi; unfold box in Hi; rewrite length_zip_with in Hi; lia |].
    by apply (sr_hash Hready). }
  { done. } { done. }
  { rewrite S2. apply (part_fits sp Hsp _ (fragmentCube (Z.of_nat j))); [apply (sr_fits Hready) | done | done | done | done | done]. }
  { done. }
  run. destruct Hcase as [(-> & -> & -> & Hin) | (-> & Hv & Hsame & Hfit & Hent & -> & Hinv)].
  { rewrite Hfe in Hin. destruct (fragment_absent _ _ _ _ (Z.of_nat j) v Ha ltac:(lia) Hin). }
  rewrite eassert_true by done. run. rewrite lookup_insert_eq. run. rewrite insert_insert_eq. rewrite Hfe in Hent. eexists _, _. split; [done |]. split; [done |].
  assert (Hv0 : objects (w_store w0) !! v = None) by (destruct (objects (w_store w0) !! v) eqn:E; [| done]; pose proof (lookup_weaken _ _ _ _ E A5); congruence).
  assert (Hne : forall u, u ∈ vs -> u <> v).
  { intros u Hu ->. pose proof (proj1 (Forall_forall _ _) A6 v Hu) as [_ [? Hx]]. congruence. }
  exists j, (vs ++ [v])%list, v, (disk (w_store w)). split; [rewrite length_app; cbn; lia |]. split; [rewrite <- Hl; by apply list_lookup_middle |]. split; [done |].
  split; [done |]. split; [lia |]. rewrite Z.sub_diag. split; [| split].
  - constructor; cbn; try done; [fold (fragmentVolume sp cs (Z.of_nat j)); lia | lia].
  - constructor; cbn [w_store w_dataset objects memory disk]; try done.
    + rewrite <- (insert_insert_eq _ v _ (createdFragment (dset_id (w_dataset w)) (fragmentSpace sp cs (Z.of_nat j)) None)).
      eapply fragments_inv_replace; [done | apply lookup_insert_eq | done].
    + destruct Hsame as (U1 & U2 & U3 & U4). split_and!; congruence.
    + etrans; [exact A5 | by apply insert_subseteq].
    + apply Forall_app. split; [| constructor; [split; [done | rewrite lookup_insert_eq; eauto] | constructor]]. apply Forall_forall. intros u Hu.
      pose proof (proj1 (Forall_forall _ _) A6 u Hu) as [? ?]. split; [done |]. by rewrite lookup_insert_ne by (apply not_eq_sym; by apply Hne).
    + apply NoDup_app. split; [done |]. split; [| apply NoDup_singleton]. intros u Hu ->%list_elem_of_singleton. by apply (Hne v).
    + rewrite Hent, A8, length_app, Nat.add_1_r, zip_snoc, Hl by done. rewrite <- app_assoc. cbn [app]. by rewrite Permutation_middle.
    + intros i u Hlt Hu. rewrite lookup_app_l in Hu by lia. destruct (A9 i u Hlt Hu) as (id & I1 & I2 & I3). exists id. split; [done |]. split; [| done].
      rewrite lookup_insert_ne; [done |]. apply not_eq_sym, Hne. by eapply list_elem_of_lookup_2.
    + intros u [x [[<- _] | [_ Hu]]%lookup_insert_Some]; [right; apply elem_of_app; right; by left |].
      destruct (A12 u) as [? | ?]; [eauto | by left | right; apply elem_of_app; by left].
    + intros i i' u u' f f' key L1 L2 Hii Hu Hu'. rewrite lookup_app_l in Hu, Hu' by lia.
      rewrite !lookup_insert_ne by (apply not_eq_sym, Hne; by eapply list_elem_of_lookup_2). by apply (A11 i i' u u' f f' key).
  - left. cbn. split; [done |]. split; [| done]. rewrite lookup_insert_eq. unfold streamFragment. by rewrite S1.
Qed.

(** ** Writing a chunk *)

Lemma position_facts (j n : Z) : 0 <= j < prod cs -> firstOf j <= n < firstOf j + volumeOf j ->
  0 <= firstOf j /\ n < prod (size sp) /\ firstOf j + volumeOf j <= prod (size sp).
Proof.
  intros Hj Hn. pose proof (fragment_end sp cs (sr_space Hready) Hcs j Hj). destruct (fragment_next sp cs (sr_space Hready) Hcs j Hj) as (? & _ & _). lia.
Qed.

Lemma data_length : Z.of_nat (length data) = prod (size sp) * elementSize.
Proof. rewrite (concat_length elementSize) by apply (sr_length Hready). by rewrite (sr_count Hready). Qed.

(** The backend appends the chunk to the file of the fragment. *)
Lemma chunk_ok (j off n : Z) (v : nat) (s : posix_state) (m : esdm_wstream_metadata_t) (w : world) (f : esdm_fragment_t) :
  0 <= j < prod cs -> 0 <= off -> 1 <= n -> off + n <= volumeOf j -> current j off v s m w -> objects (w_store w) !! v = Some f ->
  (0 < fs_room (files s))%nat ->
  exists i state' s', fragment_write_stream_blocksize target makeId k f (ws_state m) (slice elementSize data (firstOf j + off) n) (off * elementSize) (disk (w_store w)) =
    Done (ESDM_SUCCESS, streamFragment j (Some i), state', s') /\ valid_id i /\ stored s' (k, did, i) = Some (slice elementSize data (firstOf j) (off + n)) /\
    stored s (k, did, i) = None /\ (forall key, key <> (k, did, i) -> stored s' key = stored s key) /\ (off + n < volumeOf j -> state' = Some (pathOf (target k) did i)) /\
    (fs_room (files s) <= S (fs_room (files s')))%nat.
Proof.
  intros Hj Hoff Hn Hle Hcur Ef Hroom. pose proof (sr_backend Hready) as Hk. destruct stream_facts as (_ & _ & _ & _ & Hsz & _). pose proof data_length as Hd.
  destruct (fragment_next sp cs (sr_space Hready) Hcs j Hj) as (F1 & F2 & _). pose proof (fragment_end sp cs (sr_space Hready) Hcs j Hj) as Hend.
  assert (Hlen : Z.of_nat (length (slice elementSize data (firstOf j + off) n)) = n * elementSize) by (apply (slice_length _ _ (prod (size sp))); lia).
  assert (Hbytes : forall i, bytes (streamFragment j i) = volumeOf j * elementSize) by done. assert (Hds : forall i, valid_id (datasetId (streamFragment j i))) by (intros i; apply (sr_id Hready)).
  destruct Hcur as [(-> & Ef' & Es) | (Hpos & i & Hi & Ef' & Est & Hst & Hnone & Hoth & Hroom1)]; rewrite Ef in Ef'; apply (inj Some) in Ef'; subst f.
  - destruct (stream_first_ok target makeId Hsetup k (streamFragment j None) (ws_state m) (slice elementSize data (firstOf j + 0) n) (disk (w_store w)))
      as (i & state' & s' & E & Hi & H1' & H2' & H3' & H4' & H5'); [done | done | done | rewrite Hbytes; nia | by rewrite Es |].
    rewrite Es in *. rewrite Z.add_0_r, Z.add_0_l in *. exists i, state', s'. split; [exact E |]. split; [done |]. split; [done |]. split; [done |]. split; [done |].
    split; [| done]. intros Hlt. apply H4'. rewrite Hlen, Hbytes. nia.
  - destruct (stream_next_ok target makeId Hsetup k (streamFragment j (Some i)) i (slice elementSize data (firstOf j + off) n) (slice elementSize data (firstOf j) off) (disk (w_store w)) (off * elementSize))
      as (state' & s' & E & H1' & H2' & H3' & H4'); [done | done | done | done | nia | rewrite Hlen, Hbytes; nia | done |].
    rewrite Est. exists i, state', s'. split; [exact E |]. split; [done |]. split; [rewrite <- slice_app by lia; exact H1' |]. split; [done |].
    split; [intros key Hne; by rewrite H2', Hoth |]. split; [| lia]. intros Hlt. apply H3'. rewrite Hlen, Hbytes. nia.
Qed.

(** The current fragment changes. *)
Lemma added_replace (c : nat) (vs : list nat) (s b : posix_state) (w : world) (v : nat) (f g : esdm_fragment_t) :
  added c vs s w -> vs !! c = Some v -> objects (w_store w) !! v = Some f -> dataspace g = dataspace f ->
  added c vs s (setStore w (Store (<[v := g]> (objects (w_store w))) (memory (w_store w)) b)).
Proof.
  intros [A1 A2 A3 A4 A5 A6 A7 A8 A9 A12 A11 A10 A13] Hv Ef Eg. constructor; cbn [setStore w_store w_dataset objects memory disk]; try done.
  - by eapply fragments_inv_replace.
  - apply map_subseteq_spec. intros u x Hu. pose proof (lookup_weaken _ _ _ _ Hu A5) as Hw. rewrite lookup_insert_ne; [done |]. intros <-.
    pose proof (Forall_lookup_1 _ _ _ _ A6 Hv) as [? _]. congruence.
  - eapply Forall_impl; [exact A6 |]. cbn. intros u [Hu Hs]. split; [done |]. destruct (decide (v = u)) as [<- |]; [rewrite lookup_insert_eq; eauto | by rewrite lookup_insert_ne].
  - intros i u Hi Hu. destruct (A9 i u Hi Hu) as (id & I1 & I2 & I3). exists id. split; [done |]. split; [| done]. rewrite lookup_insert_ne; [done |]. intros <-.
    pose proof (NoDup_lookup _ _ _ _ A7 Hv Hu). lia.
  - intros u [x [[<- _] | [_ Hu]]%lookup_insert_Some]; [right; by eapply list_elem_of_lookup_2 |]. apply A12. eauto.
  - intros i i' u u' x x' key L1 L2 Hii Hu Hu'. rewrite !lookup_insert_ne; [by apply (A11 i i' u u' x x' key) | |]; intros <-.
    + pose proof (NoDup_lookup _ _ _ _ A7 Hv Hu'). lia.
    + pose proof (NoDup_lookup _ _ _ _ A7 Hv Hu). lia.
Qed.

(** The current fragment is complete. *)
Lemma added_complete (c : nat) (vs : list nat) (s s' : posix_state) (w : world) (v : nat) (i : string) :
  added c vs s w -> vs !! c = Some v -> objects (w_store w) !! v = Some (streamFragment (Z.of_nat c) (Some i)) -> valid_id i ->
  stored s' (k, did, i) = Some (fragmentData sp cs elements (Z.of_nat c)) -> stored s (k, did, i) = None -> (forall key, key <> (k, did, i) -> stored s' key = stored s key) ->
  (fs_room (files s) <= S (fs_room (files s')))%nat -> added (S c) vs s' w.
Proof.
  intros [A1 A2 A3 A4 A5 A6 A7 A8 A9 A12 A11 A10 A13] Hv Ef Hi Hdata Hnone Hoth Hroom.
  assert (Hkeep : forall key file, stored s key = Some file -> stored s' key = Some file).
  { intros key file E. rewrite Hoth; [done |]. intros ->. congruence. }
  assert (Hkey : forall l u f key, (l < c)%nat -> vs !! l = Some u -> objects (w_store w) !! u = Some f -> keyOf f = Some key -> key <> (k, did, i)).
  { intros l u f key Hl Hu Eu Ek ->. destruct (A9 l u Hl Hu) as (id & _ & I2 & I3 & _). rewrite I2 in Eu. apply (inj Some) in Eu. subst f. injection Ek as ->. congruence. }
  assert (Hfresh : stored (disk (w_store w0)) (k, did, i) = None) by (destruct (stored (disk (w_store w0)) (k, did, i)) eqn:E; [apply A10 in E; congruence | done]).
  constructor; try done; [| | auto | lia].
  - intros l u Hl Hu. destruct (decide (l = c)) as [-> | Hne]; [rewrite Hv in Hu; injection Hu as <-; by exists i |].
    destruct (A9 l u ltac:(lia) Hu) as (id & I1 & I2 & I3 & I4). exists id. auto.
  - intros l l' u u' f f' key L1 L2 Hne Hu Hu' Eu Eu' Ek. destruct (decide (l = c)) as [-> | Hlc]; [| destruct (decide (l' = c)) as [-> | Hlc']].
    + rewrite Hv in Hu. injection Hu as <-. rewrite Ef in Eu. apply (inj Some) in Eu. subst f. injection Ek as <-. intros Ek'. by eapply (Hkey l' u' f'); [lia | ..].
    + rewrite Hv in Hu'. injection Hu' as <-. rewrite Ef in Eu'. apply (inj Some) in Eu'. subst f'. intros [= <-]. by eapply (Hkey l u f); [lia | ..].
    + by apply (A11 l l' u u' f f' key ltac:(lia) ltac:(lia)).
Qed.

Lemma head_suffixes (l : list Z) : head (suffixes l) = Some (prod l).
Proof. by destruct l. Qed.

Lemma writing_unfinished (n : Z) (m : esdm_wstream_metadata_t) (w : world) : writing n m w -> isFinished m = Done false.
Proof.
  intros (j & vs & v & s & _ & _ & _ & _ & Hn & [_ _ _ Hcap _] & _). destruct stream_facts as (_ & _ & _ & _ & Hsz & _).
  unfold isFinished. rewrite Hcap, (proj2 (Z.eqb_neq _ 0)) by nia. done.
Qed.

Lemma capacity_of (n : Z) (m : esdm_wstream_metadata_t) (w : world) : writing n m w ->
  exists room, fragCapacityRemaining m = room * elementSize /\ 1 <= room /\ n + room <= prod (size sp).
Proof.
  intros (j & vs & v & s & _ & _ & Hj & _ & Hn & [_ _ _ Hcap _] & _). exists (firstOf (Z.of_nat j) + volumeOf (Z.of_nat j) - n).
  destruct (position_facts (Z.of_nat j) n) as (P1 & P2 & P3); [lia | done |]. rewrite Hcap. split; [f_equal; lia | lia].
Qed.

(** A chunk that fits into the rest of the fragment. *)
Lemma flush_ok (n count : Z) (m : esdm_wstream_metadata_t) (w : world) :
  writing n m w -> 1 <= count -> count * elementSize <= fragCapacityRemaining m -> count * elementSize < 2 ^ 32 ->
  exists m' w', esdm_wstream_flush target makeId m (slice elementSize data n count) w = Done (m', w') /\ progress (n + count) m' w'.
Proof.
  intros Hw Hc Hcap H32. pose proof (writing_unfinished n m w Hw) as Hun. destruct Hw as (j & vs & v & s & Hvs & Hv & Hj & Em & Hn & Hpos & Ha & Hcur).
  pose proof Hpos as [Hstream P2 P3 P4 P5]. pose proof Hstream as [M1 M2 M3 M4].
  destruct stream_facts as (_ & _ & _ & Hp & Hsz & Hb). destruct (position_facts (Z.of_nat j) n ltac:(lia) Hn) as (F1 & F2 & F3). set (off := n - firstOf (Z.of_nat j)) in *.
  assert (Hroom : off + count <= volumeOf (Z.of_nat j)) by (rewrite P4 in Hcap; nia).
  assert (Hlen : Z.of_nat (length (slice elementSize data n count)) = count * elementSize) by (apply (slice_length _ _ (prod (size sp))); [done | apply data_length | lia | lia | lia]).
  unfold esdm_wstream_flush. rewrite Hun. run. cbn [negb eassert]. run. rewrite Hlen, P4. rewrite eassert_true by (apply Z.geb_le; nia). run. rewrite Em.
  assert (Hf : exists f, objects (w_store w) !! v = Some f) by (destruct Hcur as [(_ & -> & _) | (_ & i & _ & -> & _)]; eauto). destruct Hf as [f Ef]. rewrite Ef. run.
  assert (Hu : u32 (count * elementSize) = count * elementSize) by (apply Z.mod_small; nia). rewrite Hu, M2, P3. rewrite take_ge by lia.
  destruct (chunk_ok (Z.of_nat j) off count v s m w f ltac:(lia) ltac:(lia) Hc Hroom Hcur Ef) as (i & state' & s' & E & Hi & Hst & Hnone & Hoth & Hstate' & Hroom'); [pose proof (ad_room _ _ _ _ Ha); lia |].
  replace (firstOf (Z.of_nat j) + off) with n in E by lia. rewrite E. run. rewrite decide_True by done. run.
  assert (Hsp : dataspace (streamFragment (Z.of_nat j) (Some i)) = dataspace f).
  { destruct Hcur as [(_ & E' & _) | (_ & i' & _ & E' & _)]; rewrite Ef in E'; apply (inj Some) in E'; by subst f. }
  pose proof (added_replace j vs s s' w v f _ Ha Hv Ef Hsp) as Ha1. set (w1 := setStore w _) in *.
  rewrite !chk64_ok by (unfold INT64_MIN; nia). run.
  replace ((volumeOf (Z.of_nat j) - off) * elementSize - count * elementSize) with ((volumeOf (Z.of_nat j) - (off + count)) * elementSize) by lia.
  set (m1 := setIterator m _ _ _ _ _ _). assert (Hstream1 : stream_of m1) by (by constructor).
  assert (Ef1 : objects (w_store w1) !! v = Some (streamFragment (Z.of_nat j) (Some i))) by apply lookup_insert_eq.
  destruct (fragment_next sp cs (sr_space Hready) Hcs (Z.of_nat j) ltac:(lia)) as (_ & _ & Hnext).
  destruct (Z.eqb_spec ((volumeOf (Z.of_nat j) - (off + count)) * elementSize) 0) as [Hz | Hnz].
  - assert (Hfull : off + count = volumeOf (Z.of_nat j)) by nia. rewrite Hfull in Hst.
    pose proof (added_complete j vs s s' w1 v i Ha1 Hv Ef1 Hi Hst Hnone Hoth Hroom') as Ha2. unfold isFinished. cbn [m1 setIterator fragCapacityRemaining curFragment cumulativeFragmentCounts].
    rewrite Hz, Z.eqb_refl, P2, M3, head_suffixes. rewrite chk64_ok by (unfold INT64_MIN; nia). run. unfold progress. replace (n + count) with (firstOf (Z.of_nat j) + volumeOf (Z.of_nat j)) by lia.
    rewrite Hnext in F3 |- *. destruct (Z.eqb_spec (Z.of_nat j + 1) (prod cs)) as [Hlast | Hmore].
    + rewrite (proj2 (Z.ltb_ge (Z.of_nat j + 1) (prod cs))) by lia. rewrite (proj2 (Z.ltb_ge _ _)) by lia. eexists m1, w1. split; [done |]. split; [done |].
      cbn [m1 setIterator fragCapacityRemaining curFragment]. split; [lia |]. split; [done |]. exists vs. split; [lia |]. by rewrite Hvs.
    + assert (Hlt : Z.of_nat j + 1 < prod cs) by lia. rewrite (proj2 (Z.ltb_lt (Z.of_nat j + 1) (prod cs)) Hlt) in *.
      destruct (newFragment_ok (S j) vs m1 w1) as (m2 & w2 & -> & _ & Hw2); [done | change (curFragment m + 1 = Z.of_nat (S j)); lia | lia | done | done | |].
      { change (0 <= nextChunk m + 1 <= firstOf (Z.of_nat (S j))). replace (Z.of_nat (S j)) with (Z.of_nat j + 1) by lia. lia. }
      exists m2, w2. split; [done |]. replace (Z.of_nat (S j)) with (Z.of_nat j + 1) in Hw2 by lia.
      destruct (fragment_next sp cs (sr_space Hready) Hcs (Z.of_nat j + 1) ltac:(lia)) as (_ & Hv1 & _).
      pose proof (fragment_end sp cs (sr_space Hready) Hcs (Z.of_nat j + 1) ltac:(lia)). by rewrite (proj2 (Z.ltb_lt _ _)) by lia.
  - eexists m1, w1. split; [done |]. unfold progress. rewrite (proj2 (Z.ltb_lt _ _)) by nia. exists j, vs, v, s. split; [done |]. split; [done |]. split; [done |]. split; [done |].
    split; [nia |]. replace (n + count - firstOf (Z.of_nat j)) with (off + count) by lia. split; [| split; [done |]].
    + constructor; cbn; try done; lia.
    + right. split; [lia |]. exists i. split; [done |]. split; [done |]. split; [apply Hstate'; nia |]. done.
Qed.

(** ** The sizes of the chunks *)

Lemma chunk_object (j : Z) : 0 <= j ->
  exists c, object (offset sp) (size sp) ks j = c /\ nonempty c /\ Forall2 range_inside c (extends sp) /\ prod (osizes c) <= objectBound (size sp) ksplit.
Proof.
  intros Hj. pose proof (consecutive_bounds _ _ Hks) as Hb. assert (Hone : Forall (fun c => 1 <= c) ks) by (eapply Forall2_Forall_l; [exact Hb |]; apply Forall_true; cbn; lia).
  pose proof (prod_ge_1 ks Hone). pose proof (Z.mod_pos_bound j (prod ks) ltac:(lia)).
  destruct (object_mod (offset sp) (size sp) ks j (j mod prod ks) Hone) as [E _]; [by rewrite Z.mod_mod by lia |]. exists (object (offset sp) (size sp) ks j). split; [done |].
  rewrite E. destruct (fragmentCube_inside sp ks (sr_space Hready) Hks (j mod prod ks)) as [Hn Hi]; [lia |]. split; [done |]. split; [done |].
  destruct (region_lengths sp ks (sr_space Hready) Hks) as (R1 & R2 & _). destruct stream_facts as (Hs & _). by apply (object_bound elementSize kMaxChunkSize).
Qed.

Lemma bound_bytes : objectBound (size sp) ksplit * elementSize < 2 ^ 32.
Proof. pose proof Hsplit as Hs. destruct ksplit as [[d ms] |]; cbn [split_ok objectBound] in *; unfold kMaxChunkSize in *; lia. Qed.

(** What the next chunk of a stream is. *)
Definition chunk_fits (n count : Z) (m : esdm_wstream_metadata_t) : Prop :=
  if n <? prod (size sp) then 1 <= count <= objectBound (size sp) ksplit /\ count * elementSize <= fragCapacityRemaining m else count = 0.

Lemma nextChunk_volume (j : Z) (c : esdmI_hypercube_t) : 0 <= j -> object (offset sp) (size sp) ks j = c -> nonempty c -> Forall2 range_inside c (extends sp) ->
  foldM (fun dim acc => r ← getBounds (contiguous sp) dim (suffixes ks) j; n ← esdmI_range_size r; chk64 (acc * n)) (rev (seq 0 (Z.to_nat (dims sp)))) 1 = Done (prod (osizes c)).
Proof.
  intros Hj Ec Hn Hi. destruct (sizes_int64 c Hn Hi) as (_ & Hones & Hvol). destruct (inside_int64 sp (sr_space Hready) c Hn Hi) as [H64 _]. destruct stream_facts as (_ & _ & _ & _ & Hsz & Hb).
  destruct (region_lengths sp ks (sr_space Hready) Hks) as (R1 & R2 & R3 & _). pose proof (length_object (offset sp) (size sp) ks j R1 R2) as Hl. rewrite Ec in Hl.
  replace (Z.to_nat (dims sp)) with (length c) by lia. rewrite (foldM_lookup _ (fun r acc => chk64 (acc * (rend r - rstart r)))).
  - rewrite <- (Z.mul_1_l (prod (osizes c))), <- fold_prod_rev by (done || nia). unfold osizes. rewrite <- fmap_rev. generalize 1. generalize (rev c). intros l. induction l as [| r l IH]; intros a; [done |].
    cbn. destruct (chk64 _); [| done | done]. apply IH.
  - intros d r acc Hr. rewrite (bound_at ks j d r Hks Hj) by (by rewrite Ec). run. destruct (Forall_lookup_1 _ _ _ _ H64 Hr) as (B1 & B2 & B3). rewrite range_size_ok by lia. unfold rsize. by rewrite Z.max_r by lia.
Qed.

Lemma next_chunk_ok (n : Z) (m : esdm_wstream_metadata_t) (w : world) : progress n m w ->
  exists count, esdm_wstream_metadata_next_chunk_size m = Done count /\ chunk_fits n count m.
Proof.
  intros Hp. unfold progress, chunk_fits in *. unfold esdm_wstream_metadata_next_chunk_size. destruct (n <? prod (size sp)).
  - rewrite (writing_unfinished n m w Hp). run. destruct (capacity_of n m w Hp) as (room & Hcap & Hroom & Htot). destruct stream_facts as (_ & _ & _ & _ & Hsz & Hb).
    destruct Hp as (j & vs & v & s & _ & _ & _ & _ & _ & [[M1 M2 M3 M4] _ _ _ P5] & _). rewrite M1, M4. cbn [contiguous dims type]. destruct (chunk_object (nextChunk m) ltac:(lia)) as (c & Ec & Hn & Hi & Hbound).
    destruct (sizes_int64 c Hn Hi) as (_ & _ & Hvol). rewrite (nextChunk_volume (nextChunk m) c) by (done || lia). run. rewrite Hcap.
    assert (U1 : u64 (room * elementSize) = room * elementSize) by (apply Z.mod_small; unfold INT64_MAX in *; nia).
    assert (U2 : u64 elementSize = elementSize) by (apply Z.mod_small; unfold INT64_MAX in *; nia).
    assert (U3 : u64 (prod (osizes c)) = prod (osizes c)) by (apply Z.mod_small; unfold INT64_MAX in *; nia).
    rewrite U1, U2, U3, cdiv_pos, Z.div_mul by nia. run. rewrite to_int64_small by (unfold INT64_MAX in *; nia). destruct (Z.ltb_spec room (prod (osizes c))); eexists; (split; [done |]); nia.
  - destruct Hp as ([M1 M2 M3 M4] & Hcur & Hcap & _). unfold isFinished. rewrite Hcap, Z.eqb_refl, Hcur, M3, head_suffixes. destruct stream_facts as (_ & _ & _ & Hp & Hsz & Hb).
    rewrite chk64_ok by (unfold INT64_MIN; nia). run. rewrite Z.eqb_refl. run. by exists 0.
Qed.

(** ** Packing elements *)

(** [n] elements are written and [t] ones are in the buffer. *)
Record handle_ok (n t : Z) (h : wstream) (w : world) : Prop := {
  ho_position : 0 <= n /\ 0 <= t /\ (t = 0 \/ t < wh_chunk h) /\ n <= prod (size sp);
  ho_progress : progress n (wh_metadata h) w;
  ho_chunk : chunk_fits n (wh_chunk h) (wh_metadata h);
  ho_buffer : objectBound (size sp) ksplit <= wh_buffer h;
  ho_pushed : wh_pushed h = slice elementSize data n t
}.

Lemma pack_element_ok (n t : Z) (h : wstream) (w : world) (x : list Z) :
  handle_ok n t h w -> n + t < prod (size sp) -> elements !! Z.to_nat (n + t) = Some x ->
  exists n' t' h' w', esdm_wstream_pack target makeId h x w = Done (h', w') /\ handle_ok n' t' h' w' /\ n' + t' = n + t + 1.
Proof.
  intros [(Hn & Ht & Hlt & _) Hp Hc Hbuf Hpush] Hnt Hx. unfold chunk_fits in Hc. unfold progress in Hp. rewrite (proj2 (Z.ltb_lt n (prod (size sp)))) in Hp, Hc by lia. destruct Hc as [Hc Hcap].
  destruct stream_facts as (_ & _ & _ & _ & Hsz & _). pose proof bound_bytes as H32. destruct (capacity_of n _ w Hp) as (room & Eroom & Hroom & Htot).
  assert (Hstream : stream_of (wh_metadata h)) by (destruct Hp as (j & vs & v & s & _ & _ & _ & _ & _ & [? _ _ _ _] & _); done).
  unfold esdm_wstream_pack. rewrite (so_space _ Hstream). cbn [contiguous type]. rewrite Hpush.
  rewrite (slice_length elementSize data (prod (size sp)) ltac:(done) data_length n t) by lia.
  assert (Hnew : (slice elementSize data n t ++ x)%list = slice elementSize data n (t + 1)).
  { rewrite <- slice_app by lia. f_equal. symmetry. apply concat_slice; [done | apply (sr_length Hready) | lia | done]. }
  rewrite Hnew, (slice_length elementSize data (prod (size sp)) ltac:(done) data_length n (t + 1)) by lia. rewrite Z.geb_leb, (proj2 (Z.leb_gt _ _)) by nia. rewrite Z.gtb_ltb, (proj2 (Z.ltb_ge _ _)) by nia.
  destruct (Z.eqb_spec ((t + 1) * elementSize) (wh_chunk h * elementSize)) as [Hfull | Hmore].
  - assert (Hchunk : t + 1 = wh_chunk h) by nia. rewrite Hchunk. destruct (flush_ok n (wh_chunk h) (wh_metadata h) w Hp ltac:(lia) Hcap ltac:(nia)) as (m' & w' & -> & Hp'). run.
    destruct (next_chunk_ok _ m' w' Hp') as (count & -> & Hfit). run. eexists (n + wh_chunk h), 0, _, w'. split; [done |]. split; [| lia].
    assert (n + wh_chunk h <= prod (size sp)) by (rewrite Eroom in Hcap; nia). constructor; cbn; try done. lia.
  - run. eexists n, (t + 1), _, w. split; [done |]. split; [| lia]. constructor; cbn; try done; [nia | |]; unfold progress, chunk_fits; by rewrite (proj2 (Z.ltb_lt n (prod (size sp)))) by lia.
Qed.

Lemma pack_elements_ok (rest : list (list Z)) (n t : Z) (h : wstream) (w : world) :
  handle_ok n t h w -> drop (Z.to_nat (n + t)) elements = rest ->
  exists h' w', foldM (fun value sw => esdm_wstream_pack target makeId sw.1 value sw.2) rest (h, w) = Done (h', w') /\ handle_ok (prod (size sp)) 0 h' w'.
Proof.
  revert n t h w. induction rest as [| x rest IH]; intros n t h w Hh Hd; cbn [foldM].
  - exists h, w. split; [done |]. pose proof Hh as [(Hn & Ht & Hlt & Hle) Hp Hc _ _].
    assert (Hend : prod (size sp) <= n + t) by (rewrite <- (sr_count Hready); apply (f_equal length) in Hd; rewrite length_drop in Hd; cbn in Hd; lia).
    destruct (Z.ltb_spec n (prod (size sp))) as [Hlt' | Hge].
    + unfold progress, chunk_fits in *. rewrite (proj2 (Z.ltb_lt n (prod (size sp)))) in Hp, Hc by lia. destruct (capacity_of n _ w Hp) as (room & Eroom & _ & Htot).
      destruct stream_facts as (_ & _ & _ & _ & Hsz & _). nia.
    + assert (n = prod (size sp)) as -> by lia. unfold chunk_fits in Hc. rewrite (proj2 (Z.ltb_ge _ _)) in Hc by lia. by assert (t = 0) as -> by lia.
  - assert (Hx : elements !! Z.to_nat (n + t) = Some x) by (rewrite <- (Nat.add_0_r (Z.to_nat (n + t))), <- lookup_drop, Hd; done).
    pose proof Hh as [(Hn & Ht & _ & _) _ _ _ _]. assert (Hlt : n + t < prod (size sp)) by (rewrite <- (sr_count Hready); apply lookup_lt_Some in Hx; lia).
    destruct (pack_element_ok n t h w x Hh Hlt Hx) as (n' & t' & h' & w' & E & Hh' & Hnt). cbn [fst snd]. rewrite E. run. apply (IH n' t'); [done |].
    rewrite Hnt. rewrite (drop_S elements x _ Hx) in Hd. injection Hd as Hd. rewrite <- Hd. f_equal. lia.
Qed.

(** ** The whole stream *)

(** The sizes that [esdm_wstream_metadata_create()] and [esdm_wstream_metadata_max_chunk_size()] use: the buffer holds every chunk. *)
Lemma max_chunk_ok (m : esdm_wstream_metadata_t) (width : Z) :
  ws_space m = contiguous sp -> width = match head (size sp) with Some s => s | None => 1 end ->
  (chunkingDim m, maxChunkWidth m) = match ksplit with Some (d, width) => (Z.of_nat d, width) | None => (0, width) end ->
  exists count, esdm_wstream_metadata_max_chunk_size m = Done count /\ objectBound (size sp) ksplit <= count.
Proof.
  intros Em Ew Esp. destruct stream_facts as (Hs & _ & _ & Hp & Hsz & Hb). pose proof (sr_products Hready) as Hprod. unfold esdm_wstream_metadata_max_chunk_size. rewrite Em. cbn [contiguous size].
  assert (Hdrop : forall d, 1 <= prod (drop d (size sp)) <= prod (size sp)).
  { intros d. pose proof (prod_ge_1 _ (Forall_drop _ d _ Hs)). pose proof (prod_ge_1 _ (Forall_take _ d _ Hs)). split; [done |].
    rewrite <- (take_drop d (size sp)) at 2. rewrite prod_app. nia. }
  rewrite fold_prod_rev; [| by apply Forall_drop | lia | pose proof (Hdrop (Z.to_nat (chunkingDim m))); nia]. run. rewrite Z.mul_1_l.
  destruct ksplit as [[d ms] |] eqn:Ek; injection Esp as -> ->; cbn [objectBound].
  - rewrite Nat2Z.id. pose proof Hsplit as (Hms & _ & (s & Es & Hlt & _) & _ & _). pose proof (Hdrop d) as Hd. pose proof (Forall_lookup_1 _ _ _ _ Hprod Es) as Hps. cbn in Hps.
    rewrite chk64_ok by (unfold INT64_MIN; nia). eexists. split; [done |]. rewrite (drop_S _ _ _ Es). change (prod (s :: ?l)) with (s * prod l). pose proof (Hdrop (S d)). pose proof (Forall_lookup_1 _ _ _ _ Hs Es). cbn in *. nia.
  - rewrite drop_0. destruct (size sp) as [| s ss] eqn:E; cbn [head] in Ew; subst width.
    + rewrite chk64_ok by (unfold INT64_MIN, INT64_MAX; cbn; lia). by eexists.
    + apply Forall_cons in Hprod as [Hps _]. apply Forall_cons in Hs as [Hs1 _]. rewrite chk64_ok by (unfold INT64_MIN; nia). eexists. split; [done |]. nia.
Qed.

Lemma stream_start_ok (csplit : option (nat * Z)) :
  initCounts elementSize kMaxChunkSize (size sp) = Done (ks, suffixes ks, ksplit) -> initCounts elementSize (to_int64 (maxFragmentSize k)) (size sp) = Done (cs, suffixes cs, csplit) ->
  exists h w, esdm_wstream_start maxFragmentSize k (dims sp) (offset sp) (size sp) (type sp) w0 = Done (h, w) /\ handle_ok 0 0 h w.
Proof.
  intros Ek Ec. pose proof Hready as [Hsp _ _ R4 R5 _ _ _ _ _ _ _]. pose proof Hsp as [[W1 W2 W3 _] _ _ _ _ _ _]. destruct stream_facts as (Hs & _ & Hb & Hp & Hsz & Hbytes).
  assert (Hcs1 : Forall (fun c => 1 <= c) cs) by (eapply Forall2_Forall_l; [exact Hb |]; apply Forall_true; cbn; lia). pose proof (first_zero (size sp) cs Hcs1) as H0'.
  unfold esdm_wstream_start, esdm_wstream_metadata_create. rewrite eassert_true by (apply Z.eqb_eq; apply R5). run. unfold esdm_dataspace_create_full. rewrite eassert_true by (by apply Z.geb_le). run.
  rewrite !memdup_ok by done. run. set (width := match head (size sp) with Some s => s | None => 1 end).
  assert (Hwidth : (if dims sp =? 0 then mret 1 else deref (head (size sp))) = Done width).
  { unfold width. destruct (size sp) as [| s ss]; cbn in *; [by replace (dims sp) with 0 by lia | by rewrite (proj2 (Z.eqb_neq _ _)) by lia]. }
  rewrite Hwidth. run. rewrite Ek. run. rewrite Ec. run.
  destruct (match ksplit with Some (d, width) => (Z.of_nat d, width) | None => (0, width) end) as [chunkDim chunkWidth] eqn:Esp.
  set (m0 := Wstream _ _ _ _ _ _ _ _ _ _ _ _ _ _ _).
  destruct (newFragment_ok 0 [] m0 w0) as (m & w & E & Edim & Hw); [by constructor | done | lia | done | | change (0 <= 0 <= firstOf 0); lia |].
  { constructor; try done; try apply NoDup_nil_2; try lia. by left. }
  rewrite E. run. change (firstOf (Z.of_nat 0)) with (firstOf 0) in Hw. rewrite H0' in Hw.
  assert (Hm : ws_space m = contiguous sp) by (destruct Hw as (j & vs & v & s & _ & _ & _ & _ & _ & [[? _ _ _] _ _ _ _] & _); done).
  destruct (max_chunk_ok m width Hm eq_refl) as (count & -> & Hcount); [rewrite Edim; by rewrite Esp |]. run.
  assert (Hprog : progress 0 m w) by (unfold progress; by rewrite (proj2 (Z.ltb_lt _ _)) by lia). destruct (next_chunk_ok 0 m w Hprog) as (chunk & -> & Hchunk). run.
  eexists _, w. split; [done |]. constructor; cbn; try done. lia.
Qed.

(** The stream returns, and its fragments are complete. *)
Lemma stream_ok (csplit : option (nat * Z)) :
  initCounts elementSize kMaxChunkSize (size sp) = Done (ks, suffixes ks, ksplit) -> initCounts elementSize (to_int64 (maxFragmentSize k)) (size sp) = Done (cs, suffixes cs, csplit) ->
  exists w vs, stream_region target makeId maxFragmentSize k sp elements w0 = Done w /\ Z.of_nat (length vs) = prod cs /\ added (length vs) vs (disk (w_store w)) w.
Proof.
  intros Ek Ec. destruct (stream_start_ok csplit Ek Ec) as (h & w & E & Hh). unfold stream_region. rewrite E. run. destruct (pack_elements_ok elements 0 0 h w Hh) as (h' & w' & -> & Hh'); [done |]. run.
  destruct Hh' as [_ Hp _ _ Hpush]. unfold esdm_wstream_commit. rewrite decide_True by (rewrite Hpush; unfold slice; by rewrite Z.mul_0_l). unfold progress in Hp. rewrite Z.ltb_irrefl in Hp.
  destruct Hp as ([M1 M2 M3 M4] & Hcur & Hcap & vs & Hvs & Ha). destruct stream_facts as (_ & _ & _ & Hp & Hsz & Hb).
  unfold esdm_wstream_metadata_destroy, isFinished. rewrite Hcap, Z.eqb_refl, Hcur, M3, head_suffixes. rewrite chk64_ok by (unfold INT64_MIN; nia). run. rewrite Z.eqb_refl. run. by exists w', vs.
Qed.

End Counts.

(** What a fragment of the stream is: nothing of it is in memory, and its new file has the elements that were packed. *)
Definition holds_stream (w : world) (c : esdmI_hypercube_t) (v : nat) : Prop :=
  exists f key file, objects (w_store w) !! v = Some f /\ fragment_ok f /\ backend f = Some k /\ status f = ESDM_DATA_NOT_LOADED /\ buf f = None /\ ownsBuf f = false /\
  type (dataspace f) = type sp /\ dims (dataspace f) = dims sp /\ stride (dataspace f) = None /\ extends (dataspace f) = c /\ keyOf f = Some key /\ stored (disk (w_store w0)) key = None /\
  stored (disk (w_store w)) key = Some file /\ Z.of_nat (length file) = bytes f /\ forall p, in_cube p c -> fileElement (dataspace f) file p = streamed sp elements p.

Lemma complete_holds (cs : list Z) (w : world) (s : posix_state) (j : Z) (v : nat) :
  consecutive (size sp) cs -> 0 <= j < prod cs -> s = disk (w_store w) -> complete cs (objects (w_store w)) s j v -> holds_stream w (object (offset sp) (size sp) cs j) v.
Proof.
  intros Hcs Hj -> (i & Hi & Ef & Hst & Hnone). pose proof Hready as [Hsp Hcount Hlen _ _ Hid _ _ _ _ Hk _]. destruct (fragmentSpace_ok sp cs Hsp Hcs j Hj) as [Hfs Hfe].
  assert (Hfs' : data_space (dataspace (streamFragment cs j (Some i)))) by exact Hfs.
  exists (streamFragment cs j (Some i)), (k, dset_id (w_dataset w0), i), (fragmentData sp cs elements j). split; [done |]. split; [constructor; try done; [by intros ? [= <-] | by intros ? [= <-]] |].
  repeat (split; [done |]). split; [| by intros p Hp; apply (fragmentData_element sp cs Hsp Hcs elements Hcount Hlen j p Hj Hp)].
  pose proof (fragment_end sp cs Hsp Hcs j Hj). destruct (fragment_next sp cs Hsp Hcs j Hj) as (F1 & F2 & _). unfold fragmentData.
  rewrite (slice_length _ _ (prod (size sp)) (ds_type _ Hsp) (data_length)) by lia. done.
Qed.

(** What a stream leaves: the [vs] are the fragments for the [cubes]. *)
Record stream_result (w : world) (cubes : list esdmI_hypercube_t) (vs : list nat) : Prop := {
  st_partition : partitions cubes (extends sp);
  st_length : length vs = length cubes;
  st_entries : entriesOf w ≡ₚ (zip cubes vs ++ entriesOf w0)%list;
  st_holds : forall c v, (c, v) ∈ zip cubes vs -> objects (w_store w0) !! v = None /\ holds_stream w c v;
  st_keys : forall v v' f f' key, v ∈ vs -> v' ∈ vs -> v <> v' -> objects (w_store w) !! v = Some f -> objects (w_store w) !! v' = Some f' -> keyOf f = Some key -> keyOf f' <> Some key;
  st_table : fragments_inv (length (size sp)) (dset_fragments (w_dataset w)) (objects (w_store w));
  st_same : sameDataset (w_dataset w0) (w_dataset w);
  st_memory : memory (w_store w) = memory (w_store w0);
  st_old : objects (w_store w0) ⊆ objects (w_store w);
  st_new : forall v, is_Some (objects (w_store w) !! v) -> is_Some (objects (w_store w0) !! v) \/ v ∈ vs;
  st_stored : forall key file, stored (disk (w_store w0)) key = Some file -> stored (disk (w_store w)) key = Some file
}.

(** The sizes for which [initCounts()] is defined: no slice is larger than a chunk or a fragment (otherwise it divides by zero), and the region is larger than
    both (otherwise it reads in front of the array of sizes). *)
Definition sizes_divisible : Prop :=
  elementSize <= kMaxChunkSize /\ slices_fit kMaxChunkSize elementSize (rev (size sp)) /\
  elementSize <= to_int64 (maxFragmentSize k) /\ slices_fit (to_int64 (maxFragmentSize k)) elementSize (rev (size sp)).

Lemma stream_run_ok : sizes_divisible -> exists w cubes vs, stream_region target makeId maxFragmentSize k sp elements w0 = Done w /\ stream_result w cubes vs.
Proof.
  intros (Hk1 & Hk2 & Hc1 & Hc2). pose proof (sr_space Hready) as Hsp. pose proof Hsp as [_ _ Hpos _ Hsz Hb _]. pose proof (prod_pos _ Hpos).
  assert (Hside : Forall side (size sp) /\ prod (size sp) <= INT64_MAX) by (split; [apply region_sides | nia]). destruct Hside as [Hside Hp].
  destruct (initCounts_ok elementSize kMaxChunkSize (size sp)) as (ks & ksplit & Ek & Hks & Hksp); [lia | done | done | done | done |].
  destruct (initCounts_ok elementSize (to_int64 (maxFragmentSize k)) (size sp)) as (cs & csplit & Ec & Hcs & _); [lia | done | done | done | done |].
  destruct (stream_ok cs ks ksplit Hcs Hks Hksp (sr_room Hready _ _ _ Ec) csplit Ek Ec) as (w & vs & E & Hl & [A1 A2 A3 A4 A5 A6 A7 A8 A9 A12 A11 A10 A13]).
  exists w, (object (offset sp) (size sp) cs <$> seqZ 0 (Z.of_nat (length vs))), vs. split; [done |]. constructor; try done.
  - rewrite Hl. by apply fragments_partition.
  - rewrite length_fmap, length_seqZ. lia.
  - intros c v Hin. apply list_elem_of_lookup_1 in Hin as (i & Hi). apply lookup_zip_with_Some in Hi as (c' & v' & [= <- <-] & Ec' & Ev). rewrite list_lookup_fmap in Ec'.
    apply lookup_lt_Some in Ev as Hlt. rewrite lookup_seqZ_lt in Ec' by lia. cbn in Ec'. injection Ec' as <-.
    split; [by apply (Forall_lookup_1 _ _ _ _ A6 Ev) |]. apply (complete_holds cs w (disk (w_store w))); [done | lia | done |]. by apply A9.
  - intros v v' f f' key (i & Hi)%list_elem_of_lookup_1 (i' & Hi')%list_elem_of_lookup_1 Hne Ef Ef' Ekey.
    apply (A11 i i' v v' f f' key); try done; [by eapply lookup_lt_Some | by eapply lookup_lt_Some | congruence].
Qed.


End Stream.

(** * Witness *)

Lemma map_room_insert (fs : MapFS.mapFS) (p : string) (old data : list Z) :
  fs !! p = Some old -> length (map_to_list (<[p := data]> fs)) = length (map_to_list fs).
Proof. intros E. rewrite !length_map_to_list. apply map_size_insert_Some. by exists old. Qed.

#[global] Instance mapReliable : Reliable MapFS.mapFS.
Proof.
  refine {| fs_room := fun fs => (100 - length (map_to_list fs))%nat |}; cbn [fs_mkdir fs_create fs_write MapFS.fileSystem].
  - by intros p fs r fs' [= <- <-] _.
  - intros p fs r fs' E Hr. case_decide as Hin; [by injection E as <- <- |]. destruct (fs !! p) as [old |] eqn:Ep.
    + destruct Hin. unfold MapFS.names. rewrite take_ge by (rewrite length_fmap; lia). apply list_elem_of_fmap. exists (p, old). by rewrite elem_of_map_to_list.
    + rewrite decide_True in E by lia. injection E as <- <-. split; [done |]. rewrite (Permutation_length (map_to_list_insert fs p [] Ep)). cbn [length]. lia.
  - intros p data fs r fs' E. destruct (fs !! p) as [old |] eqn:Ep; injection E as <- <-; [by rewrite (map_room_insert fs p old) | done].
Defined.

(** Two of three rows of a dataset of 64 bit numbers, which are larger than a chunk; a fragment has at most 16 KiB. *)
Module Stripes.

Definition space : esdm_dataspace_t := Dataspace SMD_DTYPE_INT64 2 [2; 2049] [1; 0] false None.

Definition dataset : esdm_dataset_t HashList.hashList :=
  Dataset "dst" (Dataspace SMD_DTYPE_INT64 2 [3; 2049] [0; 0] false None) None None [] [] ESDM_DATA_PERSISTENT ESDM_DATA_PERSISTENT.

Definition world : io_world (B := posix_state (FS := MapFS.mapFS)) :=
  IoWorld (Store ∅ {[0%nat := fun _ => 0]} (PosixState (FS := MapFS.mapFS) ∅ 0)) dataset Rows.zeroStats Rows.zeroStats.

Definition element (i : Z) : list Z := [i mod 256; i / 256; 0; 0; 0; 0; 0; 0].

Definition elements : list (list Z) := element <$> seqZ 0 4098.

Definition maxSize (k : nat) : Z := 16384.

Lemma rows_space : data_space space.
Proof. solve_data_space. Qed.

Lemma rows_hash (c : esdmI_hypercube_t) : nonempty c -> Forall2 range_inside c (extends space) -> exists h, esdmI_fragments_hashKey c = Done h.
Proof.
  intros Hn Hi. apply hash_defined; [| by rewrite (Forall2_length _ _ _ Hi)].
  apply Forall2_cons_inv_r in Hi as (r & c' & [L1 L2] & Hi & ->). apply Forall2_cons_inv_r in Hi as (r' & c'' & [L3 L4] & Hi & ->).
  apply Forall2_nil_inv_r in Hi as ->. apply Forall_cons in Hn as [N1 Hn]. apply Forall_cons in Hn as [N2 _]. simpl in *. repeat constructor; lia.
Qed.

Lemma rows_stream_ready : stream_ready maxSize 0 space elements world.
Proof.
  constructor.
  - exact rows_space.
  - unfold elements. by rewrite length_fmap, length_seqZ.
  - unfold elements. apply Forall_fmap, Forall_true. done.
  - exact (construct_inv (T := HashList.hashList) 2 ∅).
  - split; [by repeat constructor | done].
  - solve_id.
  - split; [done |]. intros [| [| i]] d s o [= <-] [= <-] [= <-]; right; lia.
  - by intros key v ?%elem_of_nil.
  - exact rows_hash.
  - by repeat constructor.
  - unfold valid_backend. lia.
  - intros cs cumulative split E. vm_compute in E. injection E as <- _ _. by vm_compute.
Qed.

Lemma rows_divisible : sizes_divisible maxSize 0 space.
Proof. split_and!; try done; (split; [done | by left]). Qed.

End Stripes.

