(* ===== verification/StreamRead.v ===== *)
(** Streams of dataset writes: what a stream wrote, a blocking read returns. *)

From stdpp Require Import gmap strings.
From S2P Require Import Prelude Memory Hypercube HypercubeSet Json Odometer Dataspace Convert CopyData Partition Split Grid GridTree GridVisit GridRegion GridCover Fragment FragmentState Posix Fragments Request Dataset Scheduler Stream StreamCounts SchedulerRead ReadBlocking SchedulerWrite WriteBlocking StreamWrite.

Open Scope Z_scope.

Lemma cstrides_forward (ss : list Z) : Forall (fun s => 0 < s) ss -> Forall (fun t => 0 <= t) (cstrides ss).
Proof. induction 1 as [| s ss Hs Hss IH]; [constructor |]. cbn [cstrides]. constructor; [| done]. pose proof (prod_pos ss Hss). lia. Qed.

Section Reading.

Context (floatCast : esdm_type_t -> esdm_type_t -> list Z -> list Z).
Context (Hcast : forall d s bytes, 0 <= esdm_sizeof d -> Z.of_nat (length (floatCast d s bytes)) = esdm_sizeof d).
Context (junk : mem) {FS : Type} `{Reliable FS} `{!BoundedNames FS, !IoWorks FS} (target : nat -> string) (makeId : nat -> string).
Context (Hsetup : posix_setup FS target makeId).
Context {T : Type} `{GHashTableLaws T} (maxFragmentSize : nat -> Z).
Context {F : Type} (fzero : F) (fle : F -> F -> bool) (fadd : F -> F -> F) (scaled : F -> Z -> F -> Z).
Context (splitFactor : Z -> Z -> Z -> Z -> Z) (qsort : list dimInfo_t -> list dimInfo_t) (manyBytes : Z -> Z -> bool).
Context (data_backends : list (data_backend (F := F))) (threads : nat -> nat).

#[local] Instance streamBackend : DataBackend (posix_state (FS := FS)) := posix_backend floatCast junk target makeId.
#[local] Instance streamBackendLaws : DataBackendLaws (posix_state (FS := FS)) := posix_laws floatCast junk Hcast target makeId Hsetup.

Abbreviation world := (io_world (B := posix_state (FS := FS)) (T := T)).

(** The region that is streamed and the one that is read, with the buffer it is read into and the data of the dataset. *)
Context (k : nat) (sp : esdm_dataspace_t) (elements : list (list Z)) (w0 : world).
Context (buf1 : pointer) (sp1 : esdm_dataspace_t) (data : content_t).
Hypothesis Hready : stream_ready maxFragmentSize k sp elements w0.
Hypothesis Hsp1 : data_space sp1.
Hypothesis Hinj1 : injective_layout sp1.
Hypothesis Htype : type sp1 = type sp.
Hypothesis Hdims : dims sp1 = dims sp.
Hypothesis Hdata : forall p, in_cube p (extends sp) -> data p = streamed sp elements p.

(** A new fragment has the data of the dataset. *)
Lemma holds_inv (w : world) (c : esdmI_hypercube_t) (v : nat) (f : esdm_fragment_t) :
  holds_stream target k sp elements w0 w c v -> Forall2 range_inside c (extends sp) -> objects (w_store w) !! v = Some f ->
  fragment_inv f (memory (w_store w)) (disk (w_store w)) data /\ status f = ESDM_DATA_NOT_LOADED /\ buf f = None /\ type (dataspace f) = type sp1 /\ dims (dataspace f) = dims sp1 /\ forward f /\
  (forall key, keyOf f = Some key -> stored (disk (w_store w0)) key = None).
Proof.
  intros (f' & key & file & Ef' & Hok & Hk & Hst & Hb & Ho & Ht & Hd & Hs & He & Ek & Hnone & Hfile & Hl & Hel) Hi Ef. rewrite Ef in Ef'. apply (inj Some) in Ef'. subst f'.
  split; [| split; [done |]; split; [done |]; split; [by rewrite Ht |]; split; [by rewrite Hd |]; split; [| intros key'; rewrite Ek; by intros [= <-]]].
  - constructor; [done | by rewrite Hk; eexists | intros ptr; by rewrite Hb | by rewrite Ho |]. unfold hasContent. rewrite Hst. split; [| rewrite Hb; by intros [? [=]]].
    exists key, file. split; [done |]. split; [done |]. split; [done |]. rewrite He. intros p Hp. rewrite Hel by done. symmetry. apply Hdata. by eapply inside_point.
  - unfold forward, eff. rewrite Hs. apply cstrides_forward. apply (ds_size _ (fr_space _ Hok)).
Qed.

(** Which fragments there are after the stream. *)
Lemma stream_objects (w : world) (cubes : list esdmI_hypercube_t) (vs : list nat) (v : nat) (f : esdm_fragment_t) :
  stream_result target k sp elements w0 w cubes vs -> objects (w_store w) !! v = Some f ->
  (objects (w_store w0) !! v = Some f) \/
  (v ∈ vs /\ objects (w_store w0) !! v = None /\ exists c, nonempty c /\ Forall2 range_inside c (extends sp) /\ holds_stream target k sp elements w0 w c v).
Proof.
  intros [[P1 P2 _] R2 _ R4 _ _ _ _ R9 R10 _] Ef. destruct (R10 v ltac:(eauto)) as [[g Eg] | Hin].
  - left. pose proof (lookup_weaken _ _ _ _ Eg R9). congruence.
  - right. apply list_elem_of_lookup_1 in Hin as Hi. destruct Hi as [i Hi]. destruct (lookup_lt_is_Some_2 cubes i) as [c Hc]; [apply lookup_lt_Some in Hi; lia |].
    destruct (R4 c v) as [Hnone Hh]; [apply (list_elem_of_lookup_2 _ i); rewrite lookup_zip_with, Hc; cbn; by rewrite Hi |]. split; [done |]. split; [done |]. exists c.
    pose proof (list_elem_of_lookup_2 _ _ _ Hc) as Hcin. pose proof (proj1 (Forall_forall _ _) P1 c Hcin) as Hn. split; [done |]. split; [| done].
    apply points_inside; [done |]. intros p Hp. apply P2. by exists c.
Qed.

(** A stream keeps the dataset readable. *)
Lemma stream_keeps_ready (w : world) (cubes : list esdmI_hypercube_t) (vs : list nat) :
  read_ready buf1 sp1 data w0 -> (forall v f, objects (w_store w0) !! v = Some f -> status f <> ESDM_DATA_DIRTY) -> counters_fit w ->
  stream_result target k sp elements w0 w cubes vs -> read_ready buf1 sp1 data w.
Proof.
  intros [Q1 Q2 Q3 Q4 Q5 Q6 Q7 Q8 Q9] Hclean (F1 & F2 & F3) Hres. pose proof Hres as [[P1 P2 _] R2 R3 R4 R5 R6 (E1 & E2 & E3 & E4) R8 R9 R10 R11].
  assert (Hcase : forall v f, objects (w_store w) !! v = Some f -> objects (w_store w0) !! v = Some f \/ (v ∈ vs /\ fragment_inv f (memory (w_store w)) (disk (w_store w)) data /\
    status f = ESDM_DATA_NOT_LOADED /\ buf f = None /\ type (dataspace f) = type sp1 /\ dims (dataspace f) = dims sp1 /\ forward f /\
    (forall key, keyOf f = Some key -> stored (disk (w_store w0)) key = None))).
  { intros v f Ef. destruct (stream_objects w cubes vs v f Hres Ef) as [? | (Hin & _ & c & _ & Hi & Hh)]; [by left | right]. split; [done |]. by apply (holds_inv w c v). }
  assert (Hkey : forall v f key, objects (w_store w0) !! v = Some f -> keyOf f = Some key -> exists file, stored (disk (w_store w0)) key = Some file).
  { intros v f key Ef Ek. destruct (so_fragment _ _ _ _ Q1 v f Ef) as [Hi Hd]. by apply (stored_key data f (memory (w_store w0)) _ key Hi Hd (Hclean v f Ef)). }
  constructor; try done.
  - pose proof Q1 as [O1 O2 O3 O4 O5 O6]. constructor; try done; [| | | | by rewrite R8].
    + intros v f [Ef | (_ & Hi & Hst & _)]%Hcase; [| by rewrite Hst]. destruct (O1 v f Ef) as [Hi Hd]. split; [| done]. rewrite R8. by apply (fragment_mono data f (memory (w_store w0)) (memory (w_store w0)) (disk (w_store w0))).
    + intros v f ptr [Ef | (_ & _ & _ & Eb & _)]%Hcase Ep; [by apply (O2 v) | congruence].
    + intros v u f g p q Hne [Ef | (_ & _ & _ & Eb & _)]%Hcase [Eg | (_ & _ & _ & Eb' & _)]%Hcase Ep Eq; [by apply (O3 v u f g) | congruence..].
    + intros v u f g key Hne Ef Eg Ek Ek'. destruct (Hcase v f Ef) as [Ef0 | (Hv & _ & _ & _ & _ & _ & _ & Hn)], (Hcase u g Eg) as [Eg0 | (Hu & _ & _ & _ & _ & _ & _ & Hn')].
      * by apply (O4 v u f g key).
      * destruct (Hkey v f key Ef0 Ek) as [file Hf]. rewrite (Hn' key Ek') in Hf. done.
      * destruct (Hkey u g key Eg0 Ek') as [file Hf]. rewrite (Hn key Ek) in Hf. done.
      * by apply (R5 v u f g key).
  - destruct Q2 as [K1 K2 K3]. pose proof (sr_space _ _ _ _ _ Hready) as Hsp. pose proof (length_extends sp1 (ds_wf _ Hsp1)) as L1. pose proof (wf_size _ (ds_wf _ Hsp)) as L2.
    replace (length (extends sp1)) with (length (size sp)) in * by lia. constructor; [done | | by rewrite E4; eapply Forall_impl; [exact K3 |]; intros g; apply grid_ready_mono].
    split; [| done]. apply Forall_forall. intros e. rewrite R3. intros [He | He]%elem_of_app; [| by apply (proj1 (Forall_forall _ _) (proj1 K2))].
    destruct e as [c v]. apply elem_of_zip_l in He as Hc. pose proof (proj1 (Forall_forall _ _) P1 c Hc) as Hn. split; [done |].
    apply (volume_inside sp Hsp); [done |]. apply points_inside; [done |]. intros p Hp. apply P2. by exists c.
  - intros v f [Ef | (_ & _ & _ & Eb & Et & Ed & Hf & _)]%Hcase; [by apply (Q5 v) |]. split; [done |]. split; [done |]. split; [done | congruence].
  - by rewrite E2.
  - by rewrite E3.
Qed.

Abbreviation read_blocking := (esdm_scheduler_read_blocking floatCast junk fzero fle fadd scaled splitFactor qsort manyBytes data_backends threads).


End Reading.

(** * Witness *)

(** Two columns of the streamed rows, in the order of the columns. *)
Module Columns.

Definition space : esdm_dataspace_t := Dataspace SMD_DTYPE_INT64 2 [2; 2] [1; 1023] false (Some [1; 2]).

Definition backends : list (data_backend (F := Z)) := [DataBackendConfig 0%nat (Some 1) ESDMI_FRAGMENTATION_METHOD_CONTIGUOUS 8].

Definition streaming : outcome io_world := stream_region MapFS.targets MapFS.ids Stripes.maxSize 0 Stripes.space Stripes.elements Stripes.world.

Lemma columns_ok : data_space space.
Proof.
  solve_data_space.
Qed.

Lemma columns_injective : injective_layout space.
Proof.
  intros p q Hp Hq E. apply in_cube_cons in Hp as (x & p' & -> & Hx & Hp). apply in_cube_cons in Hp as (y & p'' & -> & Hy & Hp). apply in_cube_cons in Hq as (x' & q' & -> & Hx' & Hq).
  apply in_cube_cons in Hq as (y' & q'' & -> & Hy' & Hq). apply Forall2_nil_inv_r in Hp as ->. apply Forall2_nil_inv_r in Hq as ->. unfold in_range, index in *. cbn in *. f_equal; [| f_equal]; lia.
Qed.

Lemma columns_ready : read_ready (0%nat, 0) space (streamed Stripes.space Stripes.elements) Stripes.world.
Proof.
  constructor; try done.
  - constructor; try done. exact (construct_inv (T := HashList.hashList) 2 ∅).
  - split; [done |]. eexists. vm_compute. reflexivity.
Qed.

End Columns.

