(* ===== verification/Persistence.v ===== *)
(** Data that is written in one process is read in another: a dataset that was committed and opened again by
    its name can be read, and has the data that it had. *)

From stdpp Require Import gmap strings.
From S2P Require Import Prelude Memory Hypercube HypercubeSet Json JsonText Odometer Dataspace Convert CopyData Partition Split Grid GridTree GridRegistry GridVisit GridRegion GridCover Fragment FragmentState Posix Fragments Request Dataset Metadata GridJson DatasetMetadata Container MdPosix Lifecycle Scheduler SchedulerRead ReadBlocking SchedulerWrite WriteBlocking.

Open Scope Z_scope.

(** * The fragments of a dataset that was loaded *)

Section Reloaded.

Context {B : Type} `{DataBackendLaws B}.

Lemma reloaded_spaces (sp : esdm_dataspace_t) :
  contiguous (reloadedSpace sp) = contiguous sp /\ extends (reloadedSpace sp) = extends sp /\ eff (reloadedSpace sp) = eff sp.
Proof. done. Qed.

(** A fragment that is in the storage keeps its content. *)
Lemma reloaded_inv (i : string) (f : esdm_fragment_t) (h h' : heap) (b : B) (content : content_t) :
  fragment_inv f h b content -> status f <> ESDM_DATA_DELETED -> status f <> ESDM_DATA_DIRTY -> datasetId f = i ->
  fragment_inv (reloaded i f) h' b content /\ keyOf (reloaded i f) = keyOf f.
Proof.
  intros [[F1 F2 F3 F4 F5] Hb _ _ Hc] Hdel Hdirty Ei.
  assert (Hkey : keyOf (reloaded i f) = keyOf f) by (unfold keyOf, reloaded; cbn [backend Fragment.id datasetId]; by rewrite Ei). split; [| done].
  assert (Hst : inStorage f b content) by (unfold hasContent in Hc; destruct (status f); [apply Hc | done | apply Hc | done]).
  constructor; try done.
  - constructor; cbn [reloaded datasetId Fragment.id dataspace bytes actual_bytes]; try done; [by rewrite <- Ei | by apply reloadedSpace_ok].
  - unfold hasContent. cbn [reloaded status buf]. split; [| by intros [? [=]]]. destruct Hst as (key & file & K1 & K2 & K3 & K4). exists key, file. rewrite Hkey.
    split; [done |]. split; [done |]. cbn [reloaded bytes dataspace]. split; [by rewrite <- F4 | exact K4].
Qed.

End Reloaded.

(** * The dataset can be read *)

Section Reading.

Context {A : Type} `{SmdLaws A} {T : Type} `{GHashTableLaws T} {B : Type} `{DataBackendLaws B}.

Abbreviation object := (dataset_object A T).

(** The region and the data of the dataset, and the user's buffers in both processes. *)
Context (buf1 buf2 : pointer) (sp : esdm_dataspace_t) (data : content_t).

Abbreviation region := (extends sp).

(** The world [w] of the process that committed the dataset [d]: everything is in the storage. *)
Context (w : io_world (B := B) (T := T)) (d : object) (cst : esdm_data_status_e) (n : nat) (i : string) (sp0 : esdm_dataspace_t).
Hypothesis Hready : read_ready buf1 sp data w.
Hypothesis Hcore : coreOf d cst = Some (w_dataset w).
Hypothesis Hstored : forall v f, objects (w_store w) !! v = Some f -> status f <> ESDM_DATA_DIRTY /\ datasetId f = i.
Hypothesis Hspace : o_space d = Some sp0.

Abbreviation objs := (objects (w_store w)).
Abbreviation entries := (g_hash_table_entries (o_fragments d)).

(** The dataset [d'] that was loaded in the other process, whose fragments are [objs']. *)
Context (fs : list esdm_fragment_t) (gs : list grid_t) (d' : object) (cst' : esdm_data_status_e) (objs' : gmap nat esdm_fragment_t) (c' : esdm_dataset_t T).
Hypothesis Hfs : entryFragments objs entries fs.
Hypothesis Hgs : Forall2 (grid_rel named eq) (completeGrids (o_grids d)) gs.
Hypothesis Hre : reopened n i sp0 fs gs objs ∅ d' cst' objs'.
(** Their handles, in the order of [fs]. *)
Context (vs : list nat).
Hypothesis Hp : g_hash_table_entries (o_fragments d') ≡ₚ zip ((fun f => extends (dataspace f)) <$> fs) vs.
Hypothesis Hnd : NoDup vs.
Hypothesis Hvs : Forall2 (fun v f => objs' !! v = Some (reloaded i f)) vs fs.
Hypothesis Hall : forall v g, objs' !! v = Some g -> v ∈ vs.
Hypothesis Hfill : o_fill d' = o_fill d.
Hypothesis Hcore' : coreOf d' cst' = Some c'.

Lemma core_parts :
  dset_fragments (w_dataset w) = o_fragments d /\ dset_grids (w_dataset w) = completeGrids (o_grids d) /\ dset_space (w_dataset w) = sp0 /\ fill_value (w_dataset w) = smd_attr_value <$> o_fill d /\
  dset_fragments c' = o_fragments d' /\ dset_grids c' = completeGrids (o_grids d') /\ dset_space c' = newSpace sp0 /\ fill_value c' = smd_attr_value <$> o_fill d.
Proof.
  destruct Hre as [(Ei & Es & _) _ _ _ _ _ _]. unfold coreOf in Hcore, Hcore'. rewrite Ei, Es in Hcore'. rewrite Hspace in Hcore. destruct (o_id d); [| done].
  cbn in Hcore, Hcore'. injection Hcore as <-. injection Hcore' as <-. cbn [fill_value]. by rewrite Hfill.
Qed.

(** The objects of the two processes correspond. *)
Lemma object_source (v' : nat) (f' : esdm_fragment_t) :
  objs' !! v' = Some f' -> exists j key v f, vs !! j = Some v' /\ entries !! j = Some (key, v) /\ objs !! v = Some f /\ f' = reloaded i f.
Proof.
  intros Ef'. pose proof (Hall v' f' Ef') as [j Ej]%list_elem_of_lookup_1. destruct (Forall2_lookup_l _ _ _ _ _ Hvs Ej) as (f & Ef & Ev). rewrite Ef' in Ev. injection Ev as ->.
  destruct (Forall2_lookup_r _ _ _ _ _ Hfs Ef) as ([key v] & Ek & Eo). by exists j, key, v, f.
Qed.

Lemma entry_key (key : esdmI_hypercube_t) (v : nat) (f : esdm_fragment_t) : (key, v) ∈ entries -> objs !! v = Some f -> key = extends (dataspace f).
Proof.
  intros Hin Ef. destruct core_parts as (E1 & _). destruct (fs_objects _ _ _ (dk_fragments _ _ _ _ (rr_dataset _ _ _ _ Hready)) key v) as (g & Eg & _ & ->); [by rewrite E1 |]. congruence.
Qed.

Lemma object_target (key : esdmI_hypercube_t) (v : nat) :
  (key, v) ∈ entries -> exists v' f, objs !! v = Some f /\ objs' !! v' = Some (reloaded i f) /\ key = extends (dataspace f) /\ (key, v') ∈ g_hash_table_entries (o_fragments d').
Proof.
  intros Hin. pose proof Hin as [j Ej]%list_elem_of_lookup_1. destruct (Forall2_lookup_l _ _ _ _ _ Hfs Ej) as (f & Ef & Eo). cbn in Eo. pose proof (entry_key key v f Hin Eo) as ->.
  destruct (Forall2_lookup_r _ _ _ _ _ Hvs Ef) as (v' & Ev' & Eo'). exists v', f. split; [done |]. split; [done |]. split; [done |].
  rewrite Hp. apply (list_elem_of_lookup_2 _ j). apply lookup_zip_Some. split; [| done]. by rewrite list_lookup_fmap, Ef.
Qed.

(** ** The storage *)

Lemma reloaded_store (mem' : heap) : is_Some (mem' !! buf2.1) -> store_ok buf2 sp (fun _ => data) (Store objs' mem' (disk (w_store w))).
Proof.
  intros Hblock. destruct Hready as [[S1 S2 S3 S4 S5 S6] _ _ _ _ _ _ _ _].
  assert (Hobj : forall v' f', objs' !! v' = Some f' -> exists j key v f, vs !! j = Some v' /\ entries !! j = Some (key, v) /\ objs !! v = Some f /\ f' = reloaded i f /\
    fragment_inv f' mem' (disk (w_store w)) data /\ keyOf f' = keyOf f).
  { intros v' f' Ef'. destruct (object_source v' f' Ef') as (j & key & v & f & Ev & Ej & Eo & ->). destruct (S1 v f Eo) as [Hinv Hdel]. destruct (Hstored v f Eo) as [Hd Hi].
    destruct (reloaded_inv i f _ mem' _ data Hinv Hdel Hd Hi) as [Hinv' Hkey]. by exists j, key, v, f. }
  constructor; cbn [objects memory disk]; try done.
  - intros v' f' Ef'. destruct (Hobj v' f' Ef') as (j & key & v & f & _ & _ & _ & E & Hinv & _). split; [done |]. by rewrite E.
  - intros v' f' ptr Ef'. by destruct (Hobj v' f' Ef') as (j & key & v & f & _ & _ & _ & -> & _).
  - intros v' w' f' g' p q _ Ef'. by destruct (Hobj v' f' Ef') as (j & key & v & f & _ & _ & _ & -> & _).
  - intros v1 v2 f1 f2 key Hne E1 E2. destruct (Hobj v1 f1 E1) as (j1 & k1 & u1 & g1 & Ev1 & Ej1 & Eo1 & _ & _ & ->).
    destruct (Hobj v2 f2 E2) as (j2 & k2 & u2 & g2 & Ev2 & Ej2 & Eo2 & _ & _ & ->). apply (S4 u1 u2); try done. intros ->. apply Hne.
    assert (j1 = j2) as ->; [| congruence]. destruct core_parts as (Ec & _). pose proof (tw_values _ _ (fs_table _ _ _ (dk_fragments _ _ _ _ (rr_dataset _ _ _ _ Hready)))) as Hvals.
    rewrite Ec in Hvals. apply (NoDup_lookup _ j1 j2 u2 Hvals); rewrite list_lookup_fmap; [by rewrite Ej1 | by rewrite Ej2].
Qed.

(** ** The counters *)

Lemma reloaded_entries : map_to_list objs' ≡ₚ zip vs (reloaded i <$> fs).
Proof.
  pose proof (Forall2_length _ _ _ Hvs) as Hl. apply NoDup_Permutation.
  - apply NoDup_map_to_list.
  - apply (NoDup_fmap_1 fst). rewrite fst_zip by (rewrite length_fmap; lia). exact Hnd.
  - intros [v f]. rewrite elem_of_map_to_list. split.
    + intros Ef. destruct (list_elem_of_lookup_1 _ _ (Hall v f Ef)) as [j Ej]. destruct (Forall2_lookup_l _ _ _ _ _ Hvs Ej) as (g & Eg & Eo). rewrite Ef in Eo. injection Eo as ->.
      apply (list_elem_of_lookup_2 _ j). apply lookup_zip_Some. by rewrite list_lookup_fmap, Eg.
    + intros [j [Ej Ef]%lookup_zip_Some]%list_elem_of_lookup_1. rewrite list_lookup_fmap in Ef. destruct (fs !! j) as [g |] eqn:Eg; [| done]. injection Ef as <-.
      by apply (Forall2_lookup_lr _ _ _ _ _ _ Hvs Ej Eg).
Qed.

Lemma source_entries : zip entries.*2 fs ⊆+ map_to_list objs.
Proof.
  pose proof (Forall2_length _ _ _ Hfs) as Hl. destruct core_parts as (Ec & _). pose proof (tw_values _ _ (fs_table _ _ _ (dk_fragments _ _ _ _ (rr_dataset _ _ _ _ Hready)))) as Hvals.
  rewrite Ec in Hvals. apply NoDup_submseteq.
  - apply (NoDup_fmap_1 fst). by rewrite fst_zip by (rewrite length_fmap; lia).
  - intros [v f] [j [Ej Ef]%lookup_zip_Some]%list_elem_of_lookup_1. rewrite list_lookup_fmap in Ej. destruct (entries !! j) as [[key u] |] eqn:Ee; [| done]. injection Ej as <-.
    apply elem_of_map_to_list. exact (Forall2_lookup_lr _ _ _ _ _ _ Hfs Ee Ef).
Qed.

Lemma reloaded_count : Z.of_nat (base.size objs') <= Z.of_nat (base.size objs).
Proof.
  rewrite <- !length_map_to_list, reloaded_entries. pose proof (submseteq_length _ _ source_entries) as Hle. pose proof (Forall2_length _ _ _ Hvs). pose proof (Forall2_length _ _ _ Hfs).
  rewrite length_zip_with, ?length_fmap in *. lia.
Qed.

Lemma total_perm {X} (f : X -> Z) (l k : list X) : l ≡ₚ k -> total f l = total f k.
Proof. induction 1 as [| x l k _ IH | x y l | l k m _ IH1 _ IH2]; rewrite ?total_cons; [done | lia | lia | lia]. Qed.

Lemma total_zip (ws : list nat) (l : list esdm_fragment_t) : length ws = length l -> total (fun e => spaceBytes e.2) (zip ws l) = total spaceBytes l.
Proof. revert l. induction ws as [| v ws IH]; intros [| f l] E; try done. cbn [zip zip_with]. rewrite !total_cons. cbn in E. rewrite IH by lia. done. Qed.

Lemma total_reloaded (l : list esdm_fragment_t) : total spaceBytes (reloaded i <$> l) = total spaceBytes l.
Proof. induction l as [| f l IH]; [done |]. rewrite fmap_cons, !total_cons, IH. done. Qed.

Lemma reloaded_bytes : total (fun e => spaceBytes e.2) (map_to_list objs') <= total (fun e => spaceBytes e.2) (map_to_list objs).
Proof.
  pose proof (Forall2_length _ _ _ Hvs). pose proof (Forall2_length _ _ _ Hfs). rewrite (total_perm _ _ _ reloaded_entries), total_zip by (rewrite length_fmap; lia).
  rewrite total_reloaded, <- (total_zip entries.*2 fs) by (rewrite length_fmap; lia). apply total_submseteq; [| exact source_entries].
  intros [v f] Ef%elem_of_map_to_list. cbn [snd]. destruct Hready as [[S1 _ _ _ _ _] _ _ _ _ _ _ _ _]. destruct (S1 v f Ef) as [[[_ _ Hsp _ _ _] _ _ _ _] _].
  destruct (space_bytes_ok (dataspace f) Hsp) as [_ Hp0]. unfold spaceBytes. lia.
Qed.

(** ** The grids *)

Lemma grid_pair (g' : grid_t) : g' ∈ completeGrids (o_grids d') -> exists g g1, g ∈ completeGrids (o_grids d) /\ grid_rel named eq g g1 /\ grid_rel eq (sameShape objs c') g1 g'.
Proof.
  intros [j Ej]%list_elem_of_lookup_1. pose proof (rd_grids _ _ _ _ _ _ _ _ _ _ Hre c' Hcore') as Hrel. destruct (Forall2_lookup_r _ _ _ _ _ Hrel Ej) as (g1 & E1 & R1).
  destruct (Forall2_lookup_r _ _ _ _ _ Hgs E1) as (g & Eg & R0). exists g, g1. split; [by eapply list_elem_of_lookup_2 | done].
Qed.

Lemma grid_pair_of (g : grid_t) : g ∈ completeGrids (o_grids d) -> exists g1 g', g' ∈ completeGrids (o_grids d') /\ grid_rel named eq g g1 /\ grid_rel eq (sameShape objs c') g1 g'.
Proof.
  intros [j Ej]%list_elem_of_lookup_1. pose proof (rd_grids _ _ _ _ _ _ _ _ _ _ Hre c' Hcore') as Hrel. destruct (Forall2_lookup_l _ _ _ _ _ Hgs Ej) as (g1 & E1 & R0).
  destruct (Forall2_lookup_l _ _ _ _ _ Hrel E1) as (g' & E' & R1). exists g1, g'. split; [by eapply list_elem_of_lookup_2 | done].
Qed.

(** Leaves of a grid and of the grid that was loaded for it. *)
Definition leaf_pair (x y : esdmI_hypercube_t * option nat) : Prop :=
  y.1 = x.1 /\ match x.2, y.2 with Some v, Some v' => sameShape objs c' v v' | None, None => True | _, _ => False end.

Lemma pair_leaves (g g1 g' : grid_t) : tree_wf g -> grid_rel named eq g g1 -> grid_rel eq (sameShape objs c') g1 g' -> Forall2 leaf_pair (leafCells g) (leafCells g').
Proof.
  intros Hwf R0 R1. pose proof (rel_leaves _ _ _ _ Hwf R0) as L0. pose proof (rel_leaves _ _ _ _ (rel_wf _ _ _ _ Hwf R0) R1) as L1.
  apply Forall2_same_length_lookup. split; [etransitivity; [by eapply Forall2_length | by eapply Forall2_length] |]. intros j x z Ex Ez.
  destruct (Forall2_lookup_l _ _ _ _ _ L0 Ex) as (y & Ey & [E1 E2]). destruct (Forall2_lookup_lr _ _ _ _ _ _ L1 Ey Ez) as [E3 E4]. split; [congruence |].
  destruct x as [cx [v |]], y as [cy [u |]], z as [cz [v' |]]; cbn in *; try done. by subst.
Qed.

Lemma same_shape_object (v v' : nat) : sameShape objs c' v v' -> exists f f', objs !! v = Some f /\ objs' !! v' = Some f' /\ extends (dataspace f') = extends (dataspace f).
Proof.
  intros (f & Ef & Hin). destruct core_parts as (_ & _ & _ & _ & E5 & _). rewrite E5 in Hin. destruct (fs_objects _ _ _ (rd_table _ _ _ _ _ _ _ _ _ _ Hre) _ _ Hin) as (f' & Ef' & _ & E).
  by exists f, f'.
Qed.

Lemma reloaded_grid (g' : grid_t) : g' ∈ completeGrids (o_grids d') -> grid_ready objs' region g'.
Proof.
  intros (g & g1 & Hg & R0 & R1)%grid_pair. destruct core_parts as (_ & E2 & _). pose proof (dk_grids _ _ _ _ (rr_dataset _ _ _ _ Hready)) as Hgr. rewrite E2, Forall_forall in Hgr.
  destruct (Hgr g Hg) as [Hwf Hc [Hsw Hsc Hsv] Hlink]. pose proof (rel_wf _ _ _ _ (rel_wf _ _ _ _ Hwf R0) R1) as Hwf'.
  assert (Ea : axes g' = axes g) by (apply grid_rel_iff in R0 as (_ & _ & E0 & _); apply grid_rel_iff in R1 as (_ & _ & E1 & _); congruence).
  constructor; [done | by rewrite (rel_complete _ _ _ _ R1), (rel_complete _ _ _ _ R0) | |].
  - constructor; [destruct Hwf' as [[Hg0 _ _ _ _ _ _] _]; exact Hg0 | by rewrite Ea | unfold domain in *; by rewrite Ea].
  - intros c o Hco. destruct (list_elem_of_lookup_1 _ _ Hco) as [j Ej]. destruct (Forall2_lookup_r _ _ _ _ _ (pair_leaves g g1 g' Hwf R0 R1) Ej) as ([c0 o0] & E0 & [E1 Hs]). cbn in E1, Hs. subst c0.
    destruct (Hlink c o0) as (v & f & -> & Ef & Hext & _); [by eapply list_elem_of_lookup_2 |]. destruct o as [v' |]; [| done].
    destruct (same_shape_object v v' Hs) as (f0 & f' & Ef0 & Ef' & E'). rewrite Ef in Ef0. injection Ef0 as <-. exists v', f'. split; [done |]. split; [done |]. split; [congruence |].
    destruct (object_source v' f' Ef') as (_ & _ & u & h & _ & _ & Eh & ->). destruct Hready as [[S1 _ _ _ _ _] _ _ _ _ _ _ _ _]. destruct (S1 u h Eh) as [[[_ _ Hsp _ _ _] _ _ _ _] _].
    destruct (reloadedSpace_ok _ Hsp) as [? ? _ _ _ _]. done.
Qed.

(** ** Reading *)

Lemma reloaded_ready (mem' : heap) (rs ws : esdm_statistics_t) :
  n = length region -> is_Some (mem' !! buf2.1) -> read_ready buf2 sp data (IoWorld (Store objs' mem' (disk (w_store w))) c' rs ws).
Proof.
  intros En Hblock. destruct core_parts as (E1 & E2 & E3 & E4 & E5 & E6 & E7 & E8). pose proof reloaded_count. pose proof reloaded_bytes. pose proof (reloaded_store mem' Hblock) as Hstore.
  destruct Hready as [Q1 Q2 Q3 Q4 Q5 Q6 Q7 Q8 Q9]. constructor; cbn [w_store w_dataset objects]; try done || lia.
  - constructor; rewrite ?E5, ?E6; [rewrite <- En; apply (rd_table _ _ _ _ _ _ _ _ _ _ Hre) | | apply Forall_forall; exact reloaded_grid].
    destruct (dk_sizes _ _ _ _ Q2) as [Z1 Z2]. rewrite E1 in Z1, Z2. pose proof (Forall2_length _ _ _ Hvs). pose proof (Forall2_length _ _ _ Hfs). split.
    + apply Forall_forall. intros [key v'] Hin. rewrite Hp in Hin. apply list_elem_of_lookup_1 in Hin as [j [Ej _]%lookup_zip_Some]. rewrite list_lookup_fmap in Ej.
      destruct (fs !! j) as [f |] eqn:Ef; [| done]. injection Ej as <-. destruct (Forall2_lookup_r _ _ _ _ _ Hfs Ef) as ([key v] & Ee & Eo). cbn in Eo |- *.
      rewrite <- (entry_key key v f); [| by eapply list_elem_of_lookup_2 | done]. by apply (Forall_lookup_1 _ _ _ _ Z1 Ee).
    + rewrite Hp, length_zip_with, length_fmap. lia.
  - intros v' f' Ef'. destruct (object_source v' f' Ef') as (_ & _ & v & f & _ & _ & Ef & ->). destruct (Q5 v f Ef) as (? & ? & ? & _). done.
  - rewrite E7, Q6, E3. done.
  - intros value. rewrite E8, <- E4. apply Q7.
Qed.

Lemma reloaded_available (p : list Z) : available objs' region c' p <-> available objs region (w_dataset w) p.
Proof.
  destruct core_parts as (E1 & E2 & E3 & E4 & E5 & E6 & E7 & E8). pose proof (dk_grids _ _ _ _ (rr_dataset _ _ _ _ Hready)) as Hgr. rewrite E2, Forall_forall in Hgr.
  assert (Hdom : forall g g1 g', grid_rel named eq g g1 -> grid_rel eq (sameShape objs c') g1 g' -> contains_region region g' <-> contains_region region g).
  { intros g g1 g' R0 R1. apply grid_rel_iff in R0 as (_ & _ & A0 & _). apply grid_rel_iff in R1 as (_ & _ & A1 & _). unfold contains_region, domain. by rewrite A1, A0. }
  split; intros (v & f & Hl & Ef & Hpf); unfold listed in Hl; rewrite ?E1, ?E2, ?E5, ?E6 in Hl; destruct Hl as [Hin | (g & Hg & Hc & Hleaf)].
  - destruct (object_source v f Ef) as (j & key & u & h & _ & Ej & Eh & ->). exists u, h. split; [| done]. left. rewrite E1. apply list_elem_of_fmap. exists (key, u). split; [done | by eapply list_elem_of_lookup_2].
  - destruct (grid_pair g Hg) as (g0 & g1 & Hg0 & R0 & R1). apply list_elem_of_fmap in Hleaf as ([c o] & Eo & [j Ej]%list_elem_of_lookup_1). cbn in Eo. subst o.
    destruct (Forall2_lookup_r _ _ _ _ _ (pair_leaves g0 g1 g (gr_tree _ _ _ (Hgr g0 Hg0)) R0 R1) Ej) as ([c0 [u |]] & E0 & [_ Hs]); [| done]. cbn in Hs.
    destruct (same_shape_object u v Hs) as (h & f0 & Eh & Ef0 & Ee). rewrite Ef in Ef0. injection Ef0 as <-. exists u, h. split; [right; exists g0 | by rewrite <- Ee].
    rewrite E2. split; [done |]. split; [by apply (Hdom g0 g1 g) |]. apply list_elem_of_fmap. exists (c0, Some u). split; [done | by eapply list_elem_of_lookup_2].
  - apply list_elem_of_fmap in Hin as ([key u] & -> & Hin). destruct (object_target key u Hin) as (v' & h & Eh & Ev' & _ & Hin'). cbn in Ef. rewrite Eh in Ef. injection Ef as ->.
    exists v', (reloaded i f). split; [| done]. left. rewrite E5. apply list_elem_of_fmap. by exists (key, v').
  - destruct (grid_pair_of g Hg) as (g1 & g' & Hg' & R0 & R1). apply list_elem_of_fmap in Hleaf as ([c o] & Eo & [j Ej]%list_elem_of_lookup_1). cbn in Eo. subst o.
    destruct (Forall2_lookup_l _ _ _ _ _ (pair_leaves g g1 g' (gr_tree _ _ _ (Hgr g Hg)) R0 R1) Ej) as ([c0 [u |]] & E0 & [_ Hs]); [| done]. cbn in Hs.
    destruct (same_shape_object v u Hs) as (h & f0 & Eh & Ef0 & Ee). rewrite Ef in Eh. injection Eh as <-. exists u, f0. split; [right; exists g' | by rewrite Ee].
    rewrite E6. split; [done |]. split; [by apply (Hdom g g1 g') |]. apply list_elem_of_fmap. exists (c0, Some u). split; [done | by eapply list_elem_of_lookup_2].
Qed.

End Reading.

(** * Writing, committing, opening and reading *)

Section Persistence.

Context (floatCast : esdm_type_t -> esdm_type_t -> list Z -> list Z).
Context (Hcast : forall d s bytes, 0 <= esdm_sizeof d -> Z.of_nat (length (floatCast d s bytes)) = esdm_sizeof d).
Context (junk : mem) {A : Type} `{SmdLaws A} {T : Type} `{GHashTableLaws T} `{JanssonLaws} {B : Type} `{DataBackendLaws B} {M : Type} `{MetadataBackendLaws M}.
Context {F : Type} (fzero : F) (fle : F -> F -> bool) (fadd : F -> F -> F) (scaled : F -> Z -> F -> Z).
Context (splitFactor : Z -> Z -> Z -> Z -> Z) (qsort : list dimInfo_t -> list dimInfo_t) (manyBytes : Z -> Z -> bool).
Context (data_backends : list (data_backend (F := F))) (threads : nat -> nat).
Context (backendIds : list string) (makeId : nat -> string).
Hypothesis Hids : NoDup backendIds.
Hypothesis Hmake : forall n, plain (makeId n) = true.

(** The region that is read, the data, and a buffer in each process. *)
Context (sp1 : esdm_dataspace_t) (data : content_t) (buf1 buf2 : pointer).
Hypothesis Hsp1 : data_space sp1.
Hypothesis Hinj1 : injective_layout sp1.

Abbreviation world := (io_world (B := B) (T := T)).
Abbreviation session_t := (session A T B M).

(** A session with the dataset that [w] works on; both are to be committed, and all data is in the storage. *)
Record to_commit (s : session_t) (h : nat) (d : dataset_object A T) (i : string) (a : A) (sp0 : esdm_dataspace_t) (w : world) : Prop := {
  tc_session : session_ok backendIds s;
  tc_container : c_status (container s) = ESDM_DATA_DIRTY;
  tc_listed : h ∈ c_dsets (container s);
  tc_dataset : dsets s !! h = Some d;
  tc_status : o_status d = ESDM_DATA_DIRTY;
  tc_committable : committable backendIds (length (extends sp1)) i a sp0 d (objects (storage s));
  tc_store : w_store w = storage s;
  tc_core : coreOf d (c_status (container s)) = Some (w_dataset w);
  tc_fragments : forall v f, objects (w_store w) !! v = Some f -> status f <> ESDM_DATA_DIRTY /\ datasetId f = i
}.

Abbreviation read_blocking := (esdm_scheduler_read_blocking floatCast junk fzero fle fadd scaled splitFactor qsort manyBytes data_backends threads).

(** What a read of the region delivers in the world [w']: the data, wherever the dataset of [w] has some. *)
Definition delivers (w w' : world) (allowWriteback internal : bool) : Prop :=
  (forall schedule writeback, exists r, read_blocking schedule writeback buf2 sp1 allowWriteback internal w' = Done r /\
     forall uncovered w2, r = Some (ESDM_SUCCESS, uncovered, w2) -> exists m, memory (w_store w2) !! buf2.1 = Some m /\
     forall p, in_cube p (extends sp1) -> available (objects (w_store w)) (extends sp1) (w_dataset w) p -> elementAt sp1 (seen buf2 m) p = data p) /\
  (exists schedule r, forall writeback, read_blocking schedule writeback buf2 sp1 allowWriteback internal w' = Done (Some r)).

(** What is done with the dataset: both documents are committed, then another process, which has the
    store [st], opens the container and the dataset; if all calls succeed, the world of the dataset has the
    property [P]. *)
Definition reopened_elsewhere (s : session_t) (h : nat) (name : string) (flags mode : Z) (st : store B) (k : nat) (P : world -> Prop) : Prop :=
  exists r1 s1 r2 s2, esdm_dataset_commit backendIds makeId s h = Done (r1, s1) /\ esdm_container_commit backendIds makeId s1 = Done (r2, s2) /\
  (r1 = ESDM_SUCCESS -> r2 = ESDM_SUCCESS ->
   exists r3 o3 m3, esdm_container_open (c_name (container s)) flags st (metadata s2) k = Done (r3, o3, m3) /\
   (r3 = ESDM_SUCCESS -> exists s3, o3 = Some s3 /\
    exists r4 o4 s4, esdm_dataset_open backendIds s3 name mode = Done (r4, o4, s4) /\
    (r4 = ESDM_SUCCESS -> exists h4 d4 c4, o4 = Some h4 /\ dsets s4 !! h4 = Some d4 /\ coreOf d4 (c_status (container s4)) = Some c4 /\
     forall rs ws, P (IoWorld (storage s4) c4 rs ws)))).

Lemma reopened_mono (s : session_t) (h : nat) (name : string) (flags mode : Z) (st : store B) (k : nat) (P Q : world -> Prop) :
  (forall w, P w -> Q w) -> reopened_elsewhere s h name flags mode st k P -> reopened_elsewhere s h name flags mode st k Q.
Proof.
  intros HPQ (r1 & s1 & r2 & s2 & E1 & E2 & Hopen). exists r1, s1, r2, s2. split; [done |]. split; [done |]. intros Hr1 Hr2. destruct (Hopen Hr1 Hr2) as (r3 & o3 & m3 & E3 & K3).
  exists r3, o3, m3. split; [done |]. intros Hr3. destruct (K3 Hr3) as (s3 & -> & r4 & o4 & s4 & E4 & K4). exists s3. split; [done |]. exists r4, o4, s4. split; [done |].
  intros Hr4. destruct (K4 Hr4) as (h4 & d4 & c4 & ? & ? & ? & HP). exists h4, d4, c4. do 3 (split; [done |]). intros rs ws. apply HPQ, HP.
Qed.

Lemma persistent_read_ok (s : session_t) (h : nat) (d : dataset_object A T) (i : string) (a : A) (sp0 : esdm_dataspace_t) (w : world)
    (flags mode : Z) (st : store B) (k : nat) (m2 : mem) (allowWriteback internal : bool) :
  to_commit s h d i a sp0 w -> read_ready buf1 sp1 data w -> noWriteback manyBytes sp1 allowWriteback w ->
  objects st = ∅ -> disk st = disk (storage s) -> memory st !! buf2.1 = Some m2 ->
  reopened_elsewhere s h (o_name d) flags mode st k (fun w' => delivers w w' allowWriteback internal).
Proof.
  intros [T1 T2 T3 T4 T5 T6 T7 T8 T9] Hready Hwb Eobj Edisk Em.
  destruct (reopen_ok backendIds makeId Hids Hmake s h d _ i a sp0 T1 T2 T3 T4 T5 T6) as (r1 & s1 & r2 & s2 & E1 & E2 & _ & Hopen).
  exists r1, s1, r2, s2. split; [done |]. split; [done |]. intros Hr1 Hr2. destruct (Hopen Hr1 Hr2 flags mode st k) as (r3 & o3 & m3 & E3 & K3).
  exists r3, o3, m3. split; [done |]. intros Hr3. destruct (K3 Hr3) as (s3 & -> & _ & r4 & o4 & s4 & E4 & K4). exists s3. split; [done |]. exists r4, o4, s4. split; [done |].
  intros Hr4. destruct (K4 Hr4) as (h4 & -> & d4 & fs & gs & Ed & _ & _ & Hfill & _ & _ & _ & Hfs & Hgs & Hre & Hmem & Hdisk). rewrite Eobj in Hre.
  pose proof Hre as [(Ei & Es & _) _ (vs & Hp & Hnd & Hvs & Hall) _ _ _ _].
  assert (exists c4, coreOf d4 (c_status (container s4)) = Some c4) as [c4 Ec4] by (unfold coreOf; rewrite Ei, Es; by eexists).
  exists h4, d4, c4. split; [done |]. split; [done |]. split; [done |]. intros rs ws. rewrite <- T7 in *.
  assert (Hvs' : Forall2 (fun v f => objects (storage s4) !! v = Some (reloaded i f)) vs fs) by (eapply Forall2_impl; [exact Hvs | by intros v f [_ ?]]).
  assert (Hall' : forall v g, objects (storage s4) !! v = Some g -> v ∈ vs) by (intros v g Eg; apply (Hall v g Eg), lookup_empty).
  assert (Hst : storage s4 = Store (objects (storage s4)) (memory (storage s4)) (disk (w_store w))) by (rewrite <- Edisk, <- Hdisk; by destruct (storage s4)).
  pose proof (reloaded_ready buf1 buf2 sp1 data w d _ _ i sp0 Hready T8 T9 (cm_space _ _ _ _ _ _ _ T6) fs gs d4 _ _ c4 Hfs Hgs Hre vs Hp Hnd Hvs' Hall' Hfill Ec4 (memory (storage s4)) rs ws eq_refl) as Hr.
  rewrite <- Hst in Hr. specialize (Hr ltac:(rewrite Hmem, Em; eauto)).
  destruct (read_blocking_ok floatCast Hcast junk fzero fle fadd scaled splitFactor qsort manyBytes data_backends threads buf2 sp1 data Hsp1 Hinj1 (IoWorld (storage s4) c4 rs ws) m2
    allowWriteback internal Hr) as (Hread & Hsome & _).
  { cbn [w_store]. by rewrite Hmem. }
  { intros Haw io Hio. apply Hwb; [done |]. etransitivity; [exact Hio |].
    apply (reloaded_bytes buf1 sp1 data w d _ _ i sp0 Hready T8 (cm_space _ _ _ _ _ _ _ T6) fs gs d4 _ _ c4 Hfs Hre vs Hnd Hvs' Hall' Hfill Ec4). }
  split; [| exact Hsome]. intros schedule writeback. destruct (Hread schedule writeback) as (r & Er & Hres). exists r. split; [done |]. intros unc w2 ->.
  destruct (Hres _ _ _ eq_refl) as (_ & _ & _ & _ & m & Em' & _ & Hdata). exists m. split; [done |]. intros p Hp1 Hav. destruct (Hdata eq_refl p Hp1) as [[_ Hd] | [Hn _]]; [done |].
  destruct Hn. cbn [w_store w_dataset]. by apply (reloaded_available buf1 sp1 data w d _ _ i sp0 Hready T8 (cm_space _ _ _ _ _ _ _ T6) fs gs d4 _ _ c4 Hfs Hgs Hre vs Hp Hvs' Hall' Hfill Ec4 p).
Qed.

(** The region that is written. *)
Context (buf0 : pointer) (sp : esdm_dataspace_t).
Hypothesis Hsp : data_space sp.
Hypothesis Htype : type sp1 = type sp.
Hypothesis Hdims : dims sp1 = dims sp.
Hypothesis Hforward : Forall (fun t => 0 <= t) (eff sp).

Abbreviation write_blocking := (esdm_scheduler_write_blocking floatCast junk fzero fle fadd scaled splitFactor qsort data_backends threads).


End Persistence.

(** * An example *)

(** The dataset of [Blocks] in a container. *)
Module Saved.

#[local] Existing Instance Model.backend.
#[local] Existing Instance Model.backendLaws.

Abbreviation world := (io_world (B := posix_state (FS := MapFS.mapFS)) (T := HashList.hashList)).

Definition piece (id : nat) (column : Z) : esdm_fragment_t :=
  Fragment (Some (MapFS.ids id)) "dst" (Dataspace SMD_DTYPE_INT16 2 [2; 2] [0; column] false (Some [4; 1])) (Some 0%nat) None 4 8 SIZE_NONE ESDM_DATA_NOT_LOADED false.

Definition pieces : gmap nat esdm_fragment_t := {[0%nat := piece 0 0; 1%nat := piece 1 2]}.

Definition dataset : dataset_object PlainSmd.attribute HashList.hashList :=
  DatasetObject "temperature" (Some "dst"%string) 0 1 ESDM_DATA_DIRTY (Some smd_attr_variables) None (Some Blocks.space) None None blockTable (DatasetGrids (GridRegistry 0 0 8 []) []).

Definition inProcess (w : world) : session PlainSmd.attribute HashList.hashList (posix_state (FS := MapFS.mapFS)) (posix_state (FS := TreeFS.treeFS)) :=
  Session (Container "model" 1 0 ESDM_DATA_DIRTY (Some smd_attr_variables) [0%nat] 1) {[0%nat := dataset]} (w_store w) emptyTree 0.

Definition otherProcess (w : world) : store (posix_state (FS := MapFS.mapFS)) := Store ∅ {[5%nat := fun _ => 0]} (disk (w_store w)).

(** The status of every call. *)
Definition calls (w : world) : outcome (esdm_status * esdm_status * esdm_status * esdm_status) :=
  '(r1, s1) ← esdm_dataset_commit ["posix"%string] Stored.names (inProcess w) 0;
  '(r2, s2) ← esdm_container_commit ["posix"%string] Stored.names s1;
  '(r3, o3, _) ← esdm_container_open (A := PlainSmd.attribute) (T := HashList.hashList) "model" 0 (otherProcess w) (metadata s2) 0;
  s3 ← deref o3;
  '(r4, _, _) ← esdm_dataset_open ["posix"%string] s3 "temperature" 0;
  mret (r1, r2, r3, r4).

Lemma written : exists w, Blocks.write = Done (Some (ESDM_SUCCESS, w)) /\ objects (w_store w) = pieces /\ coreOf dataset ESDM_DATA_DIRTY = Some (w_dataset w) /\
  calls w = Done (ESDM_SUCCESS, ESDM_SUCCESS, ESDM_SUCCESS, ESDM_SUCCESS).
Proof.
  assert (Hc : match Blocks.write with
    | Done (Some (ret, w)) => Some (ret, objects (w_store w), w_dataset w, calls w)
    | _ => None end = (c ← coreOf dataset ESDM_DATA_DIRTY; Some (ESDM_SUCCESS, pieces, c, Done (ESDM_SUCCESS, ESDM_SUCCESS, ESDM_SUCCESS, ESDM_SUCCESS)))) by (vm_compute; reflexivity).
  destruct Blocks.write as [[[ret w] |] | |]; try discriminate Hc. injection Hc as -> C1 C2 C3. exists w. split; [done |]. split; [done |]. split; [by rewrite C2 | done].
Qed.

Lemma piece_storable (v : nat) (f : esdm_fragment_t) : pieces !! v = Some f -> storable ["posix"%string] Blocks.space f /\ status f <> ESDM_DATA_DIRTY /\ datasetId f = "dst"%string.
Proof.
  intros E. assert (exists i c, f = piece i c /\ plain (MapFS.ids i) = true /\ (c = 0 \/ c = 2)) as (i & c & -> & Hi & Hc).
  { unfold pieces in E. apply lookup_insert_Some in E as [[_ <-] | [_ E]]; [by exists 0%nat, 0; auto |]. apply lookup_singleton_Some in E as [_ <-]. by exists 1%nat, 2; auto. }
  split; [| done]. constructor; try done; [by eexists | by exists 0%nat, "posix"%string | | by intros s [= <-]; repeat constructor].
  destruct Hc as [-> | ->]; solve_data_space.
Qed.

Lemma table_ok : fragments_inv 2 blockTable pieces.
Proof.
  constructor; [exact (fs_table _ _ _ blockTable_inv) |]. intros key v Hin.
  assert (exists f, pieces !! v = Some f /\ key_ok 2 key /\ key = extends (dataspace f)) as (f & Ef & Hk & Ek).
  { apply elem_of_cons in Hin as [[= -> ->] | [[= -> ->] | []%elem_of_nil]%elem_of_cons]; [exists (piece 1 2) | exists (piece 0 0)];
      (split; [done |]; split; [| done]; split; [done |]; eexists; vm_compute; reflexivity). }
  exists f. destruct (piece_storable v f Ef) as [[_ _ [? ? _ _ _ _ _] _ _ _ _] _]. split; [done |]. split; [| done]. constructor; [done | done | by rewrite <- Ek].
Qed.

Lemma dataset_committable : committable ["posix"%string] 2 "dst" smd_attr_variables Blocks.space dataset pieces.
Proof.
  constructor; cbn [dataset o_id o_attr o_fill o_space o_dims_dset_id o_fragments o_grids]; try done.
  - split; [done |]. split; [by constructor |]. split; [by repeat constructor | split; [vm_compute; right; left | done]].
  - exact table_ok.
  - intros key v f _ Ef. by apply piece_storable in Ef as [? _].
  - constructor; cbn [registry trees]; [constructor; try done; apply NoDup_nil_2 | | done]. intros h. cbn [grids length]. split; [by intros ?%elem_of_nil | lia].
Qed.

Lemma in_process (w : world) : objects (w_store w) = pieces -> coreOf dataset ESDM_DATA_DIRTY = Some (w_dataset w) ->
  to_commit ["posix"%string] Blocks.middle (inProcess w) 0 dataset "dst" smd_attr_variables Blocks.space w.
Proof.
  intros Eo Ec. assert (Hone : forall h h' : nat, h ∈ [0%nat] -> h' ∈ [0%nat] -> h = h') by (intros h h' ->%list_elem_of_singleton ->%list_elem_of_singleton; done).
  constructor; try done; [| by apply list_elem_of_singleton | cbn [inProcess storage]; rewrite Eo; exact dataset_committable | intros v f; rewrite Eo; by intros [_ ?]%piece_storable].
  constructor; cbn [inProcess container dsets storage c_name c_attr c_dsets].
  - split; [done |]. split; [apply rel_name; by repeat split | done].
  - eexists. split; [done |]. split; [done | constructor].
  - apply NoDup_singleton.
  - intros h ->%list_elem_of_singleton. exists dataset. split; [done |]. constructor; [exists "dst"%string; split; [done | split; [done | solve_id]] | done |]. intros _.
    exists 2%nat, "dst"%string, smd_attr_variables, Blocks.space. rewrite Eo. exact dataset_committable.
  - intros h h' d d' Hh Hh' _ _ _. by apply Hone.
  - intros h h' d d' Hh Hh' _ _ _. by apply Hone.
Qed.

End Saved.

#[local] Existing Instance Model.backend.
#[local] Existing Instance Model.backendLaws.

