(* ===== verification/KdsaVolume.v ===== *)
(** A volume that several nodes share (src/backends-data/kdsa/dummy/kdsa-dummy.c), and programs that
    access it: sequential execution, interleaved execution, and a logic of block ownership for
    the latter. *)

From stdpp Require Import relations.
From S2P Require Import Prelude Memory Convert.

Open Scope Z_scope.

(** * The volume *)

(** The file behind a volume: its bytes and its length. *)
Record volume := Volume { content : mem; extent : Z }.

Definition kdsa_get_volume_size : Z := 10 * 1024 * 1024 * 1024.

(** [pwrite()]: the file grows when the range ends behind it. *)
Definition pwrite (off : Z) (data : list Z) (v : volume) : volume :=
  match data with
  | [] => v
  | _ => Volume (write_bytes (content v) off data) (Z.max (extent v) (off + Z.of_nat (length data)))
  end.

(** [pread()]: the bytes in front of the end of the file. *)
Definition pread (off bytes : Z) (v : volume) : list Z := read_bytes (content v) off (Z.min bytes (extent v - off)).

(** Opens the file or creates an empty one. *)
Definition kdsa_connect (file : option volume) : volume :=
  pwrite kdsa_get_volume_size [kdsa_get_volume_size mod 256] (default (Volume (fun _ => 0) 0) file).

Definition kdsa_write_unregistered (off : Z) (buf : list Z) (v : volume) : bool * volume := (true, pwrite off buf v).

(** The bytes that arrive in the buffer; the call succeeds when they are as many as requested. *)
Definition kdsa_read_unregistered (off bytes : Z) (v : volume) : list Z := pread off bytes v.

(** [*out_res] and the volume, when the lock of the word could be taken. *)
Definition kdsa_compare_and_swap (off compare swap : Z) (v : volume) : outcome (Z * volume) :=
  let word := pread off 8 v in
  eassert (length word =? 8)%nat;;
  let cur := decode_unsigned word in
  mret (cur, if cur =? compare then pwrite off (encode 8 swap) v else v).

(** * Programs that call the library *)

(** A program ends with an outcome, or calls the library and goes on with its answer: the
    bytes that were read, whether the write succeeded, the word that was found or no answer
    when the call failed.  [OutOfFuel] stands for a loop that has not ended yet. *)
Inductive prog (A : Type) : Type :=
| Return (o : outcome A)
| OutOfFuel
| KRead (off bytes : Z) (k : list Z -> prog A)
| KWrite (off : Z) (data : list Z) (k : bool -> prog A)
| KSwap (off compare swap : Z) (k : option Z -> prog A).
Arguments Return {A} o.
Arguments OutOfFuel {A}.
Arguments KRead {A} off bytes k.
Arguments KWrite {A} off data k.
Arguments KSwap {A} off compare swap k.

#[global] Instance prog_ret : MRet prog := fun A a => Return (Done a).

#[global] Instance prog_bind : MBind prog := fun A B f =>
  fix bind (p : prog A) : prog B :=
    match p with
    | Return (Done a) => f a
    | Return Abort => Return Abort
    | Return Undef => Return Undef
    | OutOfFuel => OutOfFuel
    | KRead off bytes k => KRead off bytes (fun r => bind (k r))
    | KWrite off data k => KWrite off data (fun r => bind (k r))
    | KSwap off compare swap k => KSwap off compare swap (fun r => bind (k r))
    end.

Definition kread (off bytes : Z) : prog (list Z) := KRead off bytes mret.
Definition kwrite (off : Z) (data : list Z) : prog bool := KWrite off data mret.
Definition kswap (off compare swap : Z) : prog (option Z) := KSwap off compare swap mret.

(** * Execution without other nodes *)

Fixpoint exec {A} (p : prog A) (v : volume) : outcome (A * volume) :=
  match p with
  | Return o => a ← o; mret (a, v)
  | OutOfFuel => Undef
  | KRead off bytes k => exec (k (kdsa_read_unregistered off bytes v)) v
  | KWrite off data k => let '(r, v) := kdsa_write_unregistered off data v in exec (k r) v
  | KSwap off compare swap k => '(cur, v) ← kdsa_compare_and_swap off compare swap v; exec (k (Some cur)) v
  end.

Lemma exec_bind {A B} (p : prog A) (f : A -> prog B) (v : volume) :
  exec (p ≫= f) v = ('(a, v) ← exec p v; exec (f a) v).
Proof.
  revert v. induction p as [[a | |] | | off bytes k IH | off data k IH | off c s k IH]; intros v; try done.
  - apply IH.
  - apply IH.
  - simpl. destruct (kdsa_compare_and_swap off c s v) as [[cur v'] | |]; simpl; [apply IH | done | done].
Qed.

(** * Execution among other nodes *)

(** One call of a program.  Reads and writes may fail, and an atomic operation fails when the lock is taken;
    what a failed write leaves in its range is not known. *)
Inductive call {A} : prog A -> volume -> prog A -> volume -> Prop :=
| call_read off bytes k v :
    call (KRead off bytes k) v (k (kdsa_read_unregistered off bytes v)) v
| call_read_error off bytes k v part :
    Z.of_nat (length part) < bytes -> call (KRead off bytes k) v (k part) v
| call_write off data k v r v' :
    kdsa_write_unregistered off data v = (r, v') -> call (KWrite off data k) v (k r) v'
| call_write_error off data k v v' :
    (forall a, ~ (off <= a < off + Z.of_nat (length data)) -> content v' a = content v a) ->
    call (KWrite off data k) v (k false) v'
| call_swap off compare swap k v cur v' :
    kdsa_compare_and_swap off compare swap v = Done (cur, v') -> call (KSwap off compare swap k) v (k (Some cur)) v'
| call_swap_abort off compare swap k v :
    kdsa_compare_and_swap off compare swap v = Abort -> call (KSwap off compare swap k) v (Return Abort) v
| call_swap_error off compare swap k v :
    call (KSwap off compare swap k) v (k None) v.

(** A call of one of the nodes. *)
Inductive interleave {A} : volume * list (prog A) -> volume * list (prog A) -> Prop :=
| interleave_node n p v p' v' ps :
    ps !! n = Some p -> call p v p' v' -> interleave (v, ps) (v', <[n := p']> ps).

(** * Schedules *)

(** The call of a program when nothing fails. *)
Definition next {A} (p : prog A) (v : volume) : prog A * volume :=
  match p with
  | Return _ | OutOfFuel => (p, v)
  | KRead off bytes k => (k (kdsa_read_unregistered off bytes v), v)
  | KWrite off data k => let '(r, v') := kdsa_write_unregistered off data v in (k r, v')
  | KSwap off compare swap k =>
      match kdsa_compare_and_swap off compare swap v with
      | Done (cur, v') => (k (Some cur), v')
      | _ => (p, v)
      end
  end.

(** The nodes take turns in the given order. *)
Fixpoint schedule {A} (order : list nat) (s : volume * list (prog A)) : volume * list (prog A) :=
  match order with
  | [] => s
  | n :: order =>
      match s.2 !! n with
      | None => schedule order s
      | Some p => let '(p', v') := next p s.1 in schedule order (v', <[n := p']> s.2)
      end
  end.

Lemma next_call {A} (p : prog A) (v : volume) : next p v = (p, v) \/ call p v (next p v).1 (next p v).2.
Proof.
  destruct p as [o | | off bytes k | off data k | off c s k]; cbn [next]; [by left | by left | right; constructor | right; by constructor |].
  destruct (kdsa_compare_and_swap off c s v) as [[cur v'] | |] eqn:E; [right; by constructor | by left | by left].
Qed.

(** A schedule is one of the interleavings. *)
Lemma schedule_interleaves {A} (order : list nat) (s : volume * list (prog A)) : rtc interleave s (schedule order s).
Proof.
  revert s. induction order as [| n order IH]; intros [v ps]; [done |]. cbn [schedule fst snd].
  destruct (ps !! n) as [p |] eqn:Ep; [| apply IH]. destruct (next_call p v) as [E | Hc].
  - rewrite E. rewrite list_insert_id by done. apply IH.
  - destruct (next p v) as [p' v']. cbn [fst snd] in Hc. eapply rtc_l; [by apply (interleave_node n p) | apply IH].
Qed.
