(* ===== verification/Kdsa.v ===== *)
(** The KDSA data backend (src/backends-data/kdsa/esdm-kdsa.c): a volume with a header, a bitmap of its
    blocks and the blocks, one per fragment.  The operations are programs over the shared
    volume; the memory and the data of the backend belong to one node, which performs one operation at a time. *)

From Stdlib Require Import Ascii.
From stdpp Require Import pretty.
From S2P Require Import Prelude Memory Hypercube Json JsonText Odometer Dataspace Convert CopyData Fragment FragmentState KdsaVolume.

Open Scope Z_scope.

(** * Data *)

Definition ESDM_MAGIC : Z := 69083068077013010.
Definition UINT64_MAX : Z := 2 ^ 64 - 1.

Record kdsa_persistent_header_t := Header { magic : Z; blocksize : Z; blockcount : Z; offset_to_data : Z }.

(** [sizeof(kdsa_persistent_header_t)] *)
Definition headerSize : Z := 32.

(** The header as it lies in memory. *)
Definition headerBytes (h : kdsa_persistent_header_t) : list Z :=
  (encode 8 (magic h) ++ encode 8 (blocksize h) ++ encode 8 (blockcount h) ++ encode 8 (offset_to_data h))%list.

(** The words of an array of [uint64_t]. *)
Definition wordAt (bytes : list Z) (i : nat) : Z := decode_unsigned (take 8 (drop (8 * i) bytes)).
Definition wordsOf (n : nat) (bytes : list Z) : list Z := wordAt bytes <$> seq 0 n.
Definition bytesOf (words : list Z) : list Z := words ≫= encode 8.

Definition headerOf (bytes : list Z) : kdsa_persistent_header_t :=
  Header (wordAt bytes 0) (wordAt bytes 1) (wordAt bytes 2) (wordAt bytes 3).

(** [data->size] is [kdsa_size] and [data->h] is [header]; [rands] counts the calls of [rand()] of the process. *)
Record kdsa_backend_data_t := BackendData {
  kdsa_size : Z;
  header : kdsa_persistent_header_t;
  block_map : option (list Z);
  free_blocks_estimate : Z;
  rands : nat
}.

Definition withHeader (d : kdsa_backend_data_t) (hd : kdsa_persistent_header_t) : kdsa_backend_data_t :=
  BackendData (kdsa_size d) hd (block_map d) (free_blocks_estimate d) (rands d).
Definition withMap (d : kdsa_backend_data_t) (m : list Z) : kdsa_backend_data_t :=
  BackendData (kdsa_size d) (header d) (Some m) (free_blocks_estimate d) (rands d).
Definition withEstimate (d : kdsa_backend_data_t) (e : Z) : kdsa_backend_data_t :=
  BackendData (kdsa_size d) (header d) (block_map d) e (rands d).

(** * Geometry of a volume *)

Definition calc_block_map_size (blocks : Z) : Z := u64 (blocks + 63) / 64.

Definition calc_block_count (blocksize volume_size : Z) : Z :=
  if volume_size <=? headerSize then 0
  else u64 (64 * (volume_size - headerSize)) / u64 (1 + 64 * blocksize).

(** * The bitmap *)

(** The loop over the bits of a word. *)
Fixpoint count_bits (n : nat) (val freeb : Z) : Z :=
  match n with
  | O => freeb
  | S n' => count_bits n' (Z.shiftr val 1) (if Z.testbit val 0 then freeb + 1 else freeb)
  end.

(** The number of clear bits of all words. *)
Definition count_free (map : list Z) : Z := foldl (fun freeb w => count_bits 64 (Z.land (Z.lnot w) UINT64_MAX) freeb) 0 map.

Definition load_block_bitmap (data : kdsa_backend_data_t) : prog (Z * kdsa_backend_data_t) :=
  let blockmap_size := calc_block_map_size (blockcount (header data)) in
  bytes ← kread headerSize (blockmap_size * 8);
  old ← Return (deref (block_map data));
  let map := wordsOf (length old) (bytes ++ drop (length bytes) (bytesOf old))%list in
  if Z.of_nat (length bytes) =? blockmap_size * 8 then
    mret (0, withEstimate (withMap data map) (count_free map))
  else mret (-1, withEstimate (withMap data map) 0).

(** The iterations of [try_to_use_block()] for the given bits. *)
Fixpoint try_bits (data : kdsa_backend_data_t) (bitmap_pos : Z) (bits : list nat) : prog (Z * kdsa_backend_data_t) :=
  match bits with
  | [] => mret (0, data)
  | bit :: rest =>
      let b := Z.of_nat bit in
      map ← Return (deref (block_map data));
      expected ← Return (deref (map !! Z.to_nat bitmap_pos));
      if expected =? UINT64_MAX then mret (0, data)
      else if Z.testbit (Z.lnot expected) b then
        let swap := Z.lor expected (Z.shiftl 1 b) in
        let offset := u64 (bitmap_pos * 8 + headerSize) in
        res ← kswap offset expected swap;
        match res with
        | None => Return Abort
        | Some cur =>
            let data := withMap data (<[Z.to_nat bitmap_pos := cur]> map) in
            if cur =? expected then
              mret (u64 ((b + 64 * bitmap_pos) * blocksize (header data) + offset_to_data (header data)),
                    withMap data (<[Z.to_nat bitmap_pos := swap]> map))
            else try_bits data bitmap_pos rest
        end
      else try_bits data bitmap_pos rest
  end.

Definition try_to_use_block (data : kdsa_backend_data_t) (bitmap_pos : Z) : prog (Z * kdsa_backend_data_t) :=
  try_bits data bitmap_pos (seq 0 64).

Section Backend.

Context (floatCast : esdm_type_t -> esdm_type_t -> list Z -> list Z) (junk : mem).

(** The results of [rand()], and the content of memory that is not initialised. *)
Context (rand : nat -> Z) (junkWord : Z).

(** [rand() % blockmap_size] *)
Definition randomPos (blockmap_size : Z) (data : kdsa_backend_data_t) : prog (Z * kdsa_backend_data_t) :=
  if blockmap_size =? 0 then Return Undef
  else mret (rand (rands data) mod blockmap_size,
             BackendData (kdsa_size data) (header data) (block_map data) (free_blocks_estimate data) (S (rands data))).

(** The loop over random positions. *)
Fixpoint random_tries (n : nat) (blockmap_size : Z) (data : kdsa_backend_data_t) : prog (Z * kdsa_backend_data_t) :=
  match n with
  | O => mret (0, data)
  | S n' =>
      '(bitmap_pos, data) ← randomPos blockmap_size data;
      '(offset, data) ← try_to_use_block data bitmap_pos;
      if negb (offset =? 0) then mret (offset, data) else random_tries n' blockmap_size data
  end.

(** The loop over all positions; its counter is an [int]. *)
Fixpoint sequential_tries (todo : list nat) (blockmap_size bitmap_pos : Z) (data : kdsa_backend_data_t) : prog (Z * kdsa_backend_data_t) :=
  match todo with
  | [] => mret (0, data)
  | i :: rest =>
      if 2 ^ 31 <=? Z.of_nat i then Return Undef
      else
        '(offset, data) ← try_to_use_block data (u64 (Z.of_nat i + bitmap_pos) mod blockmap_size);
        if negb (offset =? 0) then mret (offset, data) else sequential_tries rest blockmap_size bitmap_pos data
  end.

(** [block_lock] is only taken by the threads of one node. *)
Definition find_offset_to_store_fragment (data : kdsa_backend_data_t) : prog (Z * kdsa_backend_data_t) :=
  if blockcount (header data) =? 0 then Return Undef
  else
    '(full, data) ← (if u64 (free_blocks_estimate data * 100) / blockcount (header data) <=? 3 then
                       '(ret, data) ← load_block_bitmap data;
                       mret (negb (ret =? 0) || (free_blocks_estimate data =? 0), data)
                     else mret (false, data));
    if full : bool then mret (0, data)
    else
      let blockmap_size := calc_block_map_size (blockcount (header data)) in
      '(offset, data) ← random_tries 30 blockmap_size data;
      '(offset, data) ← (if offset =? 0 then
                           '(bitmap_pos, data) ← randomPos blockmap_size data;
                           sequential_tries (seq 0 (Z.to_nat blockmap_size)) blockmap_size bitmap_pos data
                         else mret (offset, data));
      mret (offset, if negb (offset =? 0) then withEstimate data (u64 (free_blocks_estimate data - 1)) else data).

(** * Formatting *)

(** The magic number, in a variable that may not be initialised. *)
Definition readMagic (old : option Z) : prog (option Z) :=
  bytes ← kread 0 8;
  mret (if (length bytes =? 8)%nat then Some (decode_unsigned bytes)
        else old ← old; Some (decode_unsigned (bytes ++ drop (length bytes) (encode 8 old))%list)).

(** The bits of the last word that do not belong to a block. *)
Fixpoint occupied (n : nat) (val : Z) : Z :=
  match n with
  | O => val
  | S n' => occupied n' (Z.lor (Z.shiftr val 1) (Z.shiftl 1 63))
  end.

(** The part of [mkfs()] that creates the file system. *)
Definition format (ignore_err : bool) (data : kdsa_backend_data_t) : prog (esdm_status * kdsa_backend_data_t) :=
  let blocks := calc_block_count (blocksize (header data)) (kdsa_size data) in
  let blockmap_size := calc_block_map_size blocks in
  let offset_to_data := headerSize + blockmap_size * 8 in
  let offset_to_data := (offset_to_data + 63) / 64 * 64 in
  let data := withHeader data (Header ESDM_MAGIC (blocksize (header data)) blocks offset_to_data) in
  ret ← kwrite 0 (headerBytes (header data));
  if negb ret && negb ignore_err then mret (ESDM_ERROR, data)
  else
    let map := replicate (Z.to_nat blockmap_size) 0 in
    let data := withEstimate data blocks in
    let occupy_blocks := 64 - blocks mod 64 in
    let val := occupied (Z.to_nat occupy_blocks) 0 in
    if blockmap_size =? 0 then Return Undef
    else
      let map := <[Z.to_nat (blockmap_size - 1) := val]> map in
      ret ← kwrite headerSize (bytesOf map);
      mret (if negb ret && negb ignore_err then ESDM_ERROR else ESDM_SUCCESS, withMap data map).

(** The flags of [format_flags] are booleans. *)
Definition mkfs (tgt : string) (format_delete format_create ignore_err : bool) (data : kdsa_backend_data_t)
    : prog (esdm_status * kdsa_backend_data_t) :=
  if (String.length tgt <? 6)%nat then mret (ESDM_ERROR, data)
  else
    '(failed, magic) ← (if format_delete then
        magic ← readMagic None;
        m ← Return (deref magic);
        if m =? ESDM_MAGIC then
          _ ← kwrite 0 (encode 8 0);
          mret (false, Some 0)
        else mret (negb ignore_err, magic)
      else mret (false, None));
    if failed : bool then mret (ESDM_ERROR, data)
    else if negb format_create then mret (ESDM_SUCCESS, data)
    else
      magic ← readMagic magic;
      m ← Return (deref magic);
      if (m =? ESDM_MAGIC) && negb ignore_err then mret (ESDM_ERROR, data)
      else format ignore_err data.

(** [kdsa_backend_init()] from the first access of the volume on; [None] when it returns a null pointer. *)
Definition kdsa_backend_init (max_fragment_size volume_size : Z) : prog (option kdsa_backend_data_t) :=
  let blocksize' := u64 max_fragment_size in
  bytes ← kread 0 headerSize;
  if negb (Z.of_nat (length bytes) =? headerSize) then mret None
  else
    let hd := headerOf bytes in
    let disabled := BackendData volume_size (Header (magic hd) blocksize' 0 0) None junkWord 0 in
    if negb (magic hd =? ESDM_MAGIC) || negb (blocksize' =? blocksize hd) then
      if blocksize' =? 0 then Return Abort else mret (Some disabled)
    else if negb (blockcount hd =? calc_block_count (blocksize hd) volume_size) then mret (Some disabled)
    else
      let map := replicate (Z.to_nat (calc_block_map_size (blockcount hd))) junkWord in
      '(ret, data) ← load_block_bitmap (BackendData volume_size hd (Some map) junkWord 0);
      if negb (ret =? 0) then Return Abort else mret (Some data).

(** * Fragments *)

(** The offset in [f->backend_md] is the second component of a fragment's operations. *)

(** [sscanf(id, %llu)] of a number that fits into the type; a sign is accepted and negates. *)
Definition scanUnsigned (s : string) : outcome Z :=
  match JsonReader.integer s with
  | Some (JInteger z, _) => if (- 2 ^ 64 <? z) && (z <? 2 ^ 64) then mret (u64 z) else Undef
  | _ => Undef
  end.

Definition fragment_metadata_load (f : esdm_fragment_t) : outcome Z :=
  match id f with
  | None => Abort
  | Some i => scanUnsigned i
  end.

Definition fragment_retrieve (f : esdm_fragment_t) (fragmd : option Z) (hp : heap) (data : kdsa_backend_data_t)
    : prog (esdm_status * heap) :=
  if bytes f >? blocksize (header data) then mret (ESDM_ERROR, hp)
  else
    match stride (dataspace f) with
    | Some _ =>
        let '(readBuffer, hp) := malloc junk hp in
        offset ← Return (deref fragmd);
        arrived ← kread offset (bytes f);
        hp ← Return (store readBuffer arrived hp);
        if negb (Z.of_nat (length arrived) =? bytes f) then
          hp ← Return (free (Some readBuffer) hp);
          mret (ESDM_ERROR, hp)
        else
          contiguousSpace ← Return ('(_, space) ← esdm_dataspace_makeContiguous (dataspace f); deref space);
          dest ← Return (deref (buf f));
          hp ← Return (copyData floatCast contiguousSpace readBuffer (dataspace f) dest hp);
          hp ← Return (free (Some readBuffer) hp);
          mret (ESDM_SUCCESS, hp)
    | None =>
        offset ← Return (deref fragmd);
        dest ← Return (deref (buf f));
        arrived ← kread offset (bytes f);
        hp ← Return (store dest arrived hp);
        mret (if negb (Z.of_nat (length arrived) =? bytes f) then ESDM_ERROR else ESDM_SUCCESS, hp)
    end.

(** The part of [fragment_update()] that writes the data; the buffer is leaked when writing fails. *)
Definition writeFragment (f : esdm_fragment_t) (offset : Z) (hp : heap) : prog (esdm_status * heap) :=
  inBuff ← Return (deref (buf f));
  match stride (dataspace f) with
  | Some _ =>
      let '(writeBuffer, hp) := malloc junk hp in
      contiguousSpace ← Return ('(_, space) ← esdm_dataspace_makeContiguous (dataspace f); deref space);
      hp ← Return (copyData floatCast (dataspace f) inBuff contiguousSpace writeBuffer hp);
      m ← Return (view writeBuffer hp);
      ret ← kwrite offset (read_bytes m 0 (bytes f));
      if negb ret then mret (ESDM_ERROR, hp)
      else hp ← Return (free (Some writeBuffer) hp); mret (ESDM_SUCCESS, hp)
  | None =>
      m ← Return (view inBuff hp);
      ret ← kwrite offset (read_bytes m 0 (bytes f));
      mret (if negb ret then ESDM_ERROR else ESDM_SUCCESS, hp)
  end.

Definition fragment_update (f : esdm_fragment_t) (fragmd : option Z) (hp : heap) (data : kdsa_backend_data_t)
    : prog (esdm_status * esdm_fragment_t * option Z * heap * kdsa_backend_data_t) :=
  '(found, f, fragmd, data) ← match id f with
    | Some _ => mret (true, f, fragmd, data)
    | None =>
        '(offset, data) ← find_offset_to_store_fragment data;
        if offset =? 0 then mret (false, f, fragmd, data)
        else mret (true, withId f (Some (pretty (to_int64 offset))), Some offset, data)
    end;
  if negb found then mret (ESDM_ERROR, f, fragmd, hp, data)
  else if bytes f >? blocksize (header data) then mret (ESDM_ERROR, f, fragmd, hp, data)
  else
    offset ← Return (deref fragmd);
    '(ret, hp) ← writeFragment f offset hp;
    mret (ret, f, fragmd, hp, data).

(** The mask is stored in an [int] and converted back to [uint64_t]. *)
Definition deleteMask (pos : Z) : Z := u64 (to_int32 (Z.lnot (Z.shiftl 1 (pos mod 64)))).

Fixpoint delete_loop (fuel : nat) (bitmap_pos bit : Z) (data : kdsa_backend_data_t) : prog (esdm_status * kdsa_backend_data_t) :=
  match fuel with
  | O => OutOfFuel
  | S fuel' =>
      map ← Return (deref (block_map data));
      expected ← Return (deref (map !! Z.to_nat bitmap_pos));
      let swap := Z.land expected bit in
      res ← kswap (u64 (bitmap_pos * 8 + headerSize)) expected swap;
      match res with
      | None => Return Abort
      | Some cur =>
          if cur =? expected then mret (ESDM_SUCCESS, withMap data (<[Z.to_nat bitmap_pos := swap]> map))
          else delete_loop fuel' bitmap_pos bit (withMap data (<[Z.to_nat bitmap_pos := cur]> map))
      end
  end.

Definition fragment_delete (fuel : nat) (fragmd : option Z) (data : kdsa_backend_data_t) : prog (esdm_status * kdsa_backend_data_t) :=
  match fragmd with
  | None => mret (ESDM_SUCCESS, data)
  | Some offset =>
      if blocksize (header data) =? 0 then Return Undef
      else
        let pos := u64 (offset - offset_to_data (header data)) / blocksize (header data) in
        delete_loop fuel (pos / 64) (deleteMask pos) data
  end.

End Backend.
