(* ===== verification/KdsaLogic.v ===== *)
(** Ownership of the blocks of a KDSA volume by the nodes that share it: what a program may
    do to the volume, and that programs which keep to it do not disturb each other in any
    interleaving. *)

From stdpp Require Import relations.
From S2P Require Import Prelude Memory Convert KdsaVolume Kdsa.

Open Scope Z_scope.

(** * Words of the volume *)

Definition loadWord (v : volume) (off : Z) : Z := decode_unsigned (read_bytes (content v) off 8).

Lemma loadWord_ext (v w : volume) (off : Z) :
  (forall a, off <= a < off + 8 -> content w a = content v a) -> loadWord w off = loadWord v off.
Proof. intros E. unfold loadWord. f_equal. apply read_bytes_ext. intros b Hb. apply E. lia. Qed.

Lemma pwrite_content (off a : Z) (data : list Z) (v : volume) :
  content (pwrite off data v) a = write_bytes (content v) off data a.
Proof. destruct data; [| done]. simpl. symmetry. apply write_bytes_out. simpl. lia. Qed.

Lemma read_write_bytes (m : mem) (a : Z) (data : list Z) : read_bytes (write_bytes m a data) a (Z.of_nat (length data)) = data.
Proof.
  apply list_eq. intros i. destruct (decide (i < length data)%nat) as [Hi | Hi].
  - destruct (lookup_lt_is_Some_2 data i Hi) as [x Hx]. rewrite Hx. rewrite <- (Nat2Z.id i) at 1.
    rewrite lookup_read_bytes by lia. f_equal. apply write_bytes_in; [lia |]. by replace (Z.to_nat (a + Z.of_nat i - a)) with i by lia.
  - rewrite !lookup_ge_None_2; [done | lia |]. unfold read_bytes. rewrite length_fmap, length_seq. lia.
Qed.

Lemma testbit_word (z b : Z) : 0 <= b < 64 -> Z.testbit (decode_unsigned (encode 8 z)) b = Z.testbit z b.
Proof. intros Hb. rewrite decode_unsigned_encode. apply Z.mod_pow2_bits_low. simpl. lia. Qed.

(** The atomic operation, where it answers. *)
Lemma compare_and_swap_inv (off compare swap cur : Z) (v v' : volume) :
  kdsa_compare_and_swap off compare swap v = Done (cur, v') ->
  cur = loadWord v off /\ (forall a, ~ (off <= a < off + 8) -> content v' a = content v a) /\
  (cur <> compare -> v' = v) /\ (cur = compare -> forall b, 0 <= b < 64 -> Z.testbit (loadWord v' off) b = Z.testbit swap b).
Proof.
  unfold kdsa_compare_and_swap. set (word := pread off 8 v). remember (pwrite off (encode 8 swap) v) as w eqn:Ew. intros ([] & E & Er)%bind_done_inv. apply eassert_inv, Nat.eqb_eq in E.
  injection Er as <- <-.
  assert (Hw : word = read_bytes (content v) off 8).
  { unfold word, pread in *. unfold read_bytes in E. rewrite length_fmap, length_seq in E. f_equal. lia. }
  rewrite Hw in *. split; [done |]. destruct (Z.eqb_spec (decode_unsigned (read_bytes (content v) off 8)) compare) as [Ec | Ec].
  - split; [| split; [done |]].
    + intros a Ha. rewrite Ew, pwrite_content. apply write_bytes_out. by rewrite length_encode.
    + intros _ b Hb. rewrite Ew. unfold loadWord. rewrite (read_bytes_ext _ (write_bytes (content v) off (encode 8 swap))) by (intros; apply pwrite_content).
      change 8 with (Z.of_nat 8) at 1. rewrite <- (length_encode 8 swap) at 2. rewrite read_write_bytes. by apply testbit_word.
  - by split.
Qed.

(** * Geometry *)

(** The blocks of a node, each with the bytes the node knows to be at its start. *)
Abbreviation owned_t := (gmap Z (list Z)).

Section Logic.

Context (hd : kdsa_persistent_header_t).

Definition mapSize : Z := calc_block_map_size (blockcount hd).
Definition blockOffset (i : Z) : Z := offset_to_data hd + i * blocksize hd.

(** The header of a formatted volume whose blocks have 64 bit addresses. *)
Record geometry_ok : Prop := {
  ge_size : 0 < blocksize hd;
  ge_count : 0 < blockcount hd < 2 ^ 37;
  ge_data : headerSize + 8 * mapSize <= offset_to_data hd;
  ge_end : offset_to_data hd + blockcount hd * blocksize hd < 2 ^ 64
}.

Definition bitSet (v : volume) (i : Z) : bool := Z.testbit (loadWord v (headerSize + 8 * (i / 64))) (i mod 64).

(** * Ownership *)

Record shared (v : volume) (owned : list owned_t) : Prop := {
  sh_reserved : forall i, blockcount hd <= i < 64 * mapSize -> bitSet v i = true;
  sh_block : forall n mine i c, owned !! n = Some mine -> mine !! i = Some c ->
    0 <= i < blockcount hd /\ bitSet v i = true /\ Z.of_nat (length c) <= blocksize hd /\
    read_bytes (content v) (blockOffset i) (Z.of_nat (length c)) = c;
  sh_disjoint : forall n m a b, n <> m -> owned !! n = Some a -> owned !! m = Some b -> a ##ₘ b
}.

(** What a successful atomic operation on the word [pos] may do: bits are only cleared for blocks that are given up, and
    a block that is taken had a clear bit. *)
Record exchange (pos old new : Z) (mine mine' : owned_t) : Prop := {
  ex_clear : forall b, 0 <= b < 64 -> Z.testbit old b = true ->
    Z.testbit new b = true \/ (is_Some (mine !! (64 * pos + b)) /\ mine' !! (64 * pos + b) = None);
  ex_take : forall i c, mine' !! i = Some c -> mine !! i = Some c \/
    (i / 64 = pos /\ Z.testbit old (i mod 64) = false /\ Z.testbit new (i mod 64) = true /\ c = [])
}.

(** The program runs without undefined behaviour from any state of the volume in which it owns
    [mine], keeps to the rules, and [Q] holds of its result and the blocks it owns at the end. *)
Fixpoint wp {A} (p : prog A) (mine : owned_t) (Q : A -> owned_t -> Prop) : Prop :=
  match p with
  | Return (Done a) => Q a mine
  | Return Abort => True
  | Return Undef => False
  | OutOfFuel => True
  | KRead off bytes k => forall l,
      Z.of_nat (length l) <= Z.max 0 bytes ->
      (forall i c, mine !! i = Some c -> off = blockOffset i -> bytes = Z.of_nat (length c) -> Z.of_nat (length l) = bytes -> l = c) ->
      wp (k l) mine Q
  | KWrite off data k => exists i c,
      mine !! i = Some c /\ off = blockOffset i /\ Z.of_nat (length data) <= blocksize hd /\
      wp (k true) (<[i := data]> mine) Q /\ wp (k false) (<[i := []]> mine) Q
  | KSwap off compare swap k => exists pos,
      off = headerSize + 8 * pos /\ 0 <= pos < mapSize /\
      (forall cur, cur <> compare -> wp (k (Some cur)) mine Q) /\
      ((forall b, 0 <= b < 64 -> Z.testbit compare b = false -> mine !! (64 * pos + b) = None /\ 64 * pos + b < blockcount hd) ->
       exists mine', exchange pos compare swap mine mine' /\ wp (k (Some compare)) mine' Q) /\
      wp (k None) mine Q
  end.

Lemma wp_mono {A} (p : prog A) (mine : owned_t) (Q R : A -> owned_t -> Prop) :
  wp p mine Q -> (forall a mine', Q a mine' -> R a mine') -> wp p mine R.
Proof.
  intros Hp HQ. revert mine Hp. induction p as [[a | |] | | off bytes k IH | off data k IH | off c s k IH]; simpl; intros mine Hp; auto.
  - destruct Hp as (i & c & H1 & H2 & H3 & H4 & H5). exists i, c. auto 10.
  - destruct Hp as (pos & H1 & H2 & H3 & H4 & H5). exists pos. repeat (split; [auto |]); [| auto].
    intros Hb. destruct (H4 Hb) as (mine' & He & Hw). exists mine'. auto.
Qed.

Lemma wp_bind {A B} (p : prog A) (f : A -> prog B) (mine : owned_t) (Q : B -> owned_t -> Prop) :
  wp p mine (fun a mine' => wp (f a) mine' Q) -> wp (p ≫= f) mine Q.
Proof.
  revert mine. induction p as [[a | |] | | off bytes k IH | off data k IH | off c s k IH]; intros mine Hp; try done.
  - intros l H1 H2. apply IH. by apply Hp.
  - destruct Hp as (i & c & H1 & H2 & H3 & H4 & H5). exists i, c. repeat (split; [done |]). split; by apply IH.
  - destruct Hp as (pos & H1 & H2 & H3 & H4 & H5). exists pos. repeat (split; [done |]). split; [intros cur Hc; apply IH; by apply H3 |].
    split; [| by apply IH]. intros Hb. destruct (H4 Hb) as (mine' & He & Hw). exists mine'. split; [done | by apply IH].
Qed.

(** A program whose first part satisfies a specification. *)
Lemma wp_seq {A B} (p : prog A) (f : A -> prog B) (mine : owned_t) (R : A -> owned_t -> Prop) (Q : B -> owned_t -> Prop) :
  wp p mine R -> (forall a mine', R a mine' -> wp (f a) mine' Q) -> wp (p ≫= f) mine Q.
Proof. intros Hp Hf. apply wp_bind. by apply (wp_mono p mine R). Qed.

Lemma wp_done {A B} (a : A) (f : A -> prog B) (mine : owned_t) (Q : B -> owned_t -> Prop) :
  wp (f a) mine Q -> wp (Return (Done a) ≫= f) mine Q.
Proof. done. Qed.

Lemma wp_read {B} (off bytes : Z) (f : list Z -> prog B) (mine : owned_t) (Q : B -> owned_t -> Prop) :
  (forall l, Z.of_nat (length l) <= Z.max 0 bytes ->
    (forall i c, mine !! i = Some c -> off = blockOffset i -> bytes = Z.of_nat (length c) -> Z.of_nat (length l) = bytes -> l = c) ->
    wp (f l) mine Q) ->
  wp (kread off bytes ≫= f) mine Q.
Proof. done. Qed.

(** * Steps keep the ownership *)

Context (Hgeo : geometry_ok).

Lemma mapSize_count : blockcount hd <= 64 * mapSize /\ 0 < mapSize.
Proof.
  destruct Hgeo as [_ Hc _ _]. unfold mapSize, calc_block_map_size, u64. rewrite Z.mod_small by lia.
  pose proof (Z.div_mod (blockcount hd + 63) 64 ltac:(lia)). pose proof (Z.mod_pos_bound (blockcount hd + 63) 64 ltac:(lia)). lia.
Qed.

Lemma bitSet_ext (v w : volume) (i : Z) :
  0 <= i < 64 * mapSize -> (forall a, headerSize <= a < offset_to_data hd -> content w a = content v a) -> bitSet w i = bitSet v i.
Proof.
  intros Hi E. unfold bitSet. f_equal. apply loadWord_ext. intros a Ha. apply E. pose proof (ge_data Hgeo).
  assert (i / 64 < mapSize) by (apply Z.div_lt_upper_bound; lia). pose proof (Z.div_pos i 64 ltac:(lia) ltac:(lia)). lia.
Qed.

Lemma block_after_header (i a : Z) : 0 <= i -> blockOffset i <= a -> offset_to_data hd <= a.
Proof. unfold blockOffset. pose proof (ge_size Hgeo). nia. Qed.

Lemma blocks_apart (i j a b : Z) :
  i <> j -> 0 <= a < blocksize hd -> 0 <= b < blocksize hd -> blockOffset i + a <> blockOffset j + b.
Proof. unfold blockOffset. intros Hne Ha Hb E. assert (i < j \/ j < i) as [|] by lia; nia. Qed.

Lemma disjoint_update (owned : list owned_t) (n : nat) (mine mine' : owned_t) :
  (forall n m a b, n <> m -> owned !! n = Some a -> owned !! m = Some b -> a ##ₘ b) -> owned !! n = Some mine ->
  (forall m b, m <> n -> owned !! m = Some b -> mine' ##ₘ b) ->
  forall m1 m2 a b, m1 <> m2 -> <[n := mine']> owned !! m1 = Some a -> <[n := mine']> owned !! m2 = Some b -> a ##ₘ b.
Proof.
  intros Hdis En Hd m1 m2 a b Hne E1 E2. pose proof (lookup_lt_Some _ _ _ En) as Hn.
  destruct (decide (m1 = n)) as [-> | H1], (decide (m2 = n)) as [-> | H2]; [done | | |].
  - rewrite list_lookup_insert_eq in E1 by done. rewrite list_lookup_insert_ne in E2 by done. injection E1 as <-. by apply (Hd m2).
  - rewrite list_lookup_insert_eq in E2 by done. rewrite list_lookup_insert_ne in E1 by done. injection E2 as <-.
    symmetry. by apply (Hd m1).
  - rewrite list_lookup_insert_ne in E1, E2 by done. by apply (Hdis m1 m2).
Qed.

(** The write of a node to one of its blocks. *)
Lemma shared_write (v v' : volume) (owned : list owned_t) (n : nat) (mine : owned_t) (i len : Z) (c data : list Z) :
  shared v owned -> owned !! n = Some mine -> mine !! i = Some c -> len <= blocksize hd -> Z.of_nat (length data) <= blocksize hd ->
  (forall a, ~ (blockOffset i <= a < blockOffset i + len) -> content v' a = content v a) ->
  read_bytes (content v') (blockOffset i) (Z.of_nat (length data)) = data ->
  shared v' (<[n := <[i := data]> mine]> owned).
Proof.
  intros [Hres Hblk Hdis] En Ei Hlen Hdata Hout Hin. destruct (Hblk n mine i c En Ei) as (Hi & _).
  assert (Hmap : forall j, 0 <= j < 64 * mapSize -> bitSet v' j = bitSet v j).
  { intros j Hj. apply bitSet_ext; [done |]. intros a Ha. apply Hout. intros [H1 _]. pose proof (block_after_header i a). lia. }
  pose proof mapSize_count as [Hms _]. pose proof (lookup_lt_Some _ _ _ En) as Hn.
  constructor.
  - intros j Hj. rewrite Hmap by lia. by apply Hres.
  - intros m b j e Em Ej.
    assert (Hold : forall b0 e0, owned !! m = Some b0 -> b0 !! j = Some e0 -> (m = n -> j <> i) ->
      0 <= j < blockcount hd /\ bitSet v' j = true /\ Z.of_nat (length e0) <= blocksize hd /\
      read_bytes (content v') (blockOffset j) (Z.of_nat (length e0)) = e0).
    { intros b0 e0 Eb0 Ej0 Hne. destruct (Hblk m b0 j e0 Eb0 Ej0) as (H1 & H2 & H3 & H4). rewrite Hmap by lia.
      repeat (split; [done |]). rewrite <- H4 at 2. apply read_bytes_ext. intros x Hx. apply Hout. intros Hr.
      assert (j <> i) as Hji.
      { intros ->. destruct (decide (m = n)) as [-> | Hmn]; [by apply Hne |].
        pose proof (Hdis m n b0 mine Hmn Eb0 En) as Hd. rewrite map_disjoint_spec in Hd. by apply (Hd i e0 c). }
      apply (blocks_apart i j (blockOffset j + x - blockOffset i) x); [done | lia | lia | lia]. }
    destruct (decide (m = n)) as [-> | Hmn].
    + rewrite list_lookup_insert_eq in Em by done. injection Em as <-. destruct (decide (j = i)) as [-> | Hji].
      * rewrite lookup_insert_eq in Ej. injection Ej as <-. rewrite Hmap by lia. destruct (Hblk n mine i c En Ei) as (_ & ? & _). done.
      * rewrite lookup_insert_ne in Ej by done. by apply (Hold mine e).
    + rewrite list_lookup_insert_ne in Em by done. by apply (Hold b e).
  - apply (disjoint_update owned n mine); [done | done |]. intros m b Hmn Eb.
    apply map_disjoint_insert_l_2; [| by apply (Hdis n m)].
    apply (map_disjoint_Some_l mine b i c); [by apply (Hdis n m) | done].
Qed.

Lemma block_bit (j pos : Z) : j / 64 = pos -> j = 64 * pos + j mod 64 /\ 0 <= j mod 64 < 64.
Proof. intros <-. split; [apply Z.div_mod; lia | apply Z.mod_pos_bound; lia]. Qed.

(** A successful atomic operation of a node. *)
Lemma shared_swap (v v' : volume) (owned : list owned_t) (n : nat) (mine mine' : owned_t) (pos new : Z) :
  shared v owned -> owned !! n = Some mine -> 0 <= pos < mapSize -> exchange pos (loadWord v (headerSize + 8 * pos)) new mine mine' ->
  (forall a, ~ (headerSize + 8 * pos <= a < headerSize + 8 * pos + 8) -> content v' a = content v a) ->
  (forall b, 0 <= b < 64 -> Z.testbit (loadWord v' (headerSize + 8 * pos)) b = Z.testbit new b) ->
  shared v' (<[n := mine']> owned).
Proof.
  intros [Hres Hblk Hdis] En Hpos [Hclear Htake] Hout Hnew. pose proof mapSize_count as [Hms _]. pose proof (ge_count Hgeo) as Hcount. pose proof (lookup_lt_Some _ _ _ En) as Hn.
  set (old := loadWord v (headerSize + 8 * pos)) in *.
  assert (Hbit : forall j, 0 <= j < 64 * mapSize -> bitSet v' j = if decide (j / 64 = pos) then Z.testbit new (j mod 64) else bitSet v j).
  { intros j Hj. case_decide as Hjp; unfold bitSet.
    - rewrite Hjp. apply Hnew. by apply (block_bit j pos).
    - f_equal. apply loadWord_ext. intros a Ha. apply Hout. intros Hr. apply Hjp. lia. }
  assert (Hkeep : forall j, 0 <= j < 64 * mapSize -> bitSet v j = true -> bitSet v' j = true \/ (is_Some (mine !! j) /\ mine' !! j = None)).
  { intros j Hj Hs. rewrite Hbit by done. case_decide as Hjp; [| by left]. destruct (block_bit j pos Hjp) as [Ej Hm]. unfold bitSet in Hs.
    rewrite Hjp in Hs. destruct (Hclear (j mod 64) Hm Hs) as [| Hlost]; [by left | right]. by rewrite <- Ej in Hlost. }
  assert (Hread : forall i c, 0 <= i -> read_bytes (content v) (blockOffset i) (Z.of_nat (length c)) = c ->
    read_bytes (content v') (blockOffset i) (Z.of_nat (length c)) = c).
  { intros i c Hi Hr. rewrite <- Hr at 2. apply read_bytes_ext. intros b Hb. apply Hout.
    pose proof (block_after_header i (blockOffset i + b) Hi ltac:(lia)). pose proof (ge_data Hgeo). lia. }
  assert (Hnone : forall i, i / 64 = pos -> Z.testbit old (i mod 64) = false -> bitSet v i = false).
  { intros i Hip Hf. unfold bitSet. by rewrite Hip. }
  constructor.
  - intros i Hi. destruct (Hkeep i) as [| [[c Hc] _]]; [lia | by apply Hres | done |].
    destruct (Hblk n mine i c En Hc) as (Hlt & _). lia.
  - intros m b i c Em Ei. destruct (decide (m = n)) as [-> | Hmn].
    + rewrite list_lookup_insert_eq in Em by done. injection Em as <-. destruct (Htake i c Ei) as [Hold | (Hip & Hf & Ht & ->)].
      * destruct (Hblk n mine i c En Hold) as (H1 & H2 & H3 & H4). destruct (Hkeep i) as [| [_ Hl]]; [lia | done | | by rewrite Ei in Hl].
        repeat (split; [done |]). apply Hread; [lia | done].
      * destruct (block_bit i pos Hip) as [Ei' Hm].
        assert (Hr : i < blockcount hd).
        { destruct (Z.lt_ge_cases i (blockcount hd)); [done |]. specialize (Hres i ltac:(lia)). by rewrite Hnone in Hres. }
        rewrite Hbit by lia. rewrite decide_True by done. repeat split; try (done || lia). simpl. pose proof (ge_size Hgeo). lia.
    + rewrite list_lookup_insert_ne in Em by done. destruct (Hblk m b i c Em Ei) as (H1 & H2 & H3 & H4).
      destruct (Hkeep i) as [| [[e He] _]]; [lia | done | repeat (split; [done |]); apply Hread; [lia | done] |].
      pose proof (Hdis m n b mine Hmn Em En) as Hd. rewrite map_disjoint_spec in Hd. destruct (Hd i c e Ei He).
  - apply (disjoint_update owned n mine); [done | done |]. intros m b Hmn Eb. apply map_disjoint_spec. intros i c e Ei Ej.
    destruct (Htake i c Ei) as [Hold | (Hip & Hf & _)].
    + pose proof (Hdis n m mine b (not_eq_sym Hmn) En Eb) as Hd. rewrite map_disjoint_spec in Hd. by apply (Hd i c e).
    + destruct (Hblk m b i e Eb Ej) as (_ & Hs & _). by rewrite Hnone in Hs.
Qed.

(** One call of a program that keeps to the rules. *)
Lemma wp_call {A} (p p' : prog A) (v v' : volume) (owned : list owned_t) (n : nat) (mine : owned_t) (Q : A -> owned_t -> Prop) :
  call p v p' v' -> shared v owned -> owned !! n = Some mine -> wp p mine Q ->
  exists mine', shared v' (<[n := mine']> owned) /\ wp p' mine' Q.
Proof.
  intros Hc Hsh En Hp. assert (Hsame : <[n := mine]> owned = owned) by (by apply list_insert_id).
  destruct Hc as [off bytes k v | off bytes k v part Hpart | off data k v r v' Hw | off data k v v' Hw | off c s k v cur v' Hs | off c s k v _ | off c s k v]; simpl in Hp.
  - exists mine. rewrite Hsame. split; [done |]. apply Hp.
    + unfold kdsa_read_unregistered, pread, read_bytes. rewrite length_fmap, length_seq. lia.
    + intros i c Hi -> -> Hl. destruct (sh_block _ _ Hsh n mine i c En Hi) as (_ & _ & _ & Hr). rewrite <- Hr at 2.
      unfold kdsa_read_unregistered, pread, read_bytes in *. rewrite length_fmap, length_seq in Hl. do 2 f_equal. lia.
  - exists mine. rewrite Hsame. split; [done |]. apply Hp; [lia |]. intros; lia.
  - destruct Hp as (i & c & Hi & -> & Hl & Hok & _). injection Hw as <- <-. exists (<[i := data]> mine). split; [| done].
    apply (shared_write v _ owned n mine i (Z.of_nat (length data)) c); try done.
    + intros a Ha. rewrite pwrite_content. by apply write_bytes_out.
    + rewrite (read_bytes_ext _ (write_bytes (content v) (blockOffset i) data)) by (intros; apply pwrite_content). apply read_write_bytes.
  - destruct Hp as (i & c & Hi & -> & Hl & _ & Herr). exists (<[i := []]> mine). split; [| done].
    apply (shared_write v _ owned n mine i (Z.of_nat (length data)) c); try done. simpl. pose proof (ge_size Hgeo). lia.
  - destruct Hp as (pos & -> & Hpos & Hne & Heq & _). apply compare_and_swap_inv in Hs as (-> & Hout & Hkeep & Hnew).
    destruct (decide (loadWord v (headerSize + 8 * pos) = c)) as [E | E].
    + rewrite <- E in *. destruct Heq as (mine' & Hex & Hw).
      * intros b Hb Hf. pose proof mapSize_count as [Hms _]. pose proof (ge_count Hgeo) as Hcount.
        assert (Hclear : bitSet v (64 * pos + b) = false).
        { unfold bitSet. replace ((64 * pos + b) / 64) with pos by (rewrite Z.mul_comm, Z.div_add_l, Z.div_small; lia).
          by replace ((64 * pos + b) mod 64) with b by (rewrite Z.add_comm, Z.mul_comm, Z.mod_add, Z.mod_small; lia). }
        split.
        -- destruct (mine !! (64 * pos + b)) as [e |] eqn:Ee; [| done].
           destruct (sh_block _ _ Hsh n mine _ e En Ee) as (_ & Hs & _). congruence.
        -- destruct (Z.lt_ge_cases (64 * pos + b) (blockcount hd)) as [| Hge]; [done |].
           rewrite (sh_reserved _ _ Hsh) in Hclear by lia. done.
      * exists mine'. split; [| done]. by apply (shared_swap v v' owned n mine mine' pos s); auto.
    + rewrite (Hkeep E). exists mine. rewrite Hsame. split; [done |]. by apply Hne.
  - exists mine. by rewrite Hsame.
  - exists mine. rewrite Hsame. split; [done |]. destruct Hp as (pos & _ & _ & _ & _ & Hn). exact Hn.
Qed.

(** All nodes keep to the rules. *)
Record together {A} (Q : nat -> A -> owned_t -> Prop) (v : volume) (ps : list (prog A)) (owned : list owned_t) : Prop := {
  to_length : length owned = length ps;
  to_shared : shared v owned;
  to_wp : forall n p mine, ps !! n = Some p -> owned !! n = Some mine -> wp p mine (Q n)
}.

Lemma together_step {A} (Q : nat -> A -> owned_t -> Prop) (v v' : volume) (ps ps' : list (prog A)) (owned : list owned_t) :
  interleave (v, ps) (v', ps') -> together Q v ps owned -> exists owned', together Q v' ps' owned'.
Proof.
  intros Hi [Hl Hsh Hwp]. inversion Hi as [n p v0 p' v0' ps0 Ep Hc]; subst. pose proof (lookup_lt_Some _ _ _ Ep) as Hn.
  destruct (lookup_lt_is_Some_2 owned n) as [mine Em]; [lia |].
  destruct (wp_call p p' v v' owned n mine (Q n) Hc Hsh Em (Hwp n p mine Ep Em)) as (mine' & Hsh' & Hp').
  exists (<[n := mine']> owned). constructor; [by rewrite !length_insert | done |]. intros m q b Eq Eb.
  destruct (decide (m = n)) as [-> | Hne].
  - rewrite list_lookup_insert_eq in Eq by done. rewrite list_lookup_insert_eq in Eb by lia. by simplify_eq.
  - rewrite list_lookup_insert_ne in Eq by done. rewrite list_lookup_insert_ne in Eb by done. by apply Hwp.
Qed.

(** In every interleaving. *)
Lemma together_steps {A} (Q : nat -> A -> owned_t -> Prop) (s s' : volume * list (prog A)) (owned : list owned_t) :
  rtc interleave s s' -> together Q s.1 s.2 owned -> exists owned', together Q s'.1 s'.2 owned'.
Proof.
  intros Hs. revert owned. induction Hs as [s | [v ps] [v1 ps1] s2 Hi _ IH]; intros owned Ht; [by exists owned |].
  destruct (together_step Q v v1 ps ps1 owned Hi Ht) as (owned1 & Ht1). by apply (IH owned1).
Qed.

End Logic.
