(* ===== verification/KdsaClients.v ===== *)
(** Nodes that share a KDSA volume: the operations of the backend keep to the rules of ownership, so that
    no interleaving of updates, retrievals and deletions on several nodes mixes up their fragments. *)

From stdpp Require Import pretty relations.
From S2P Require Import Prelude Memory Hypercube Json JsonText Odometer Dataspace Convert CopyData Fragment FragmentState KdsaVolume Kdsa KdsaLogic.

Open Scope Z_scope.

(** * Nodes *)

(** A fragment of a node, [f->backend_md], and the data of the last successful update. *)
Record slot := Slot { fragment : esdm_fragment_t; backend_md : option Z; saved : option content_t }.

(** [loadedSlot] is the fragment that the last request retrieved. *)
Record node := Node {
  backendData : kdsa_backend_data_t;
  memory : heap;
  slots : list slot;
  loadedSlot : option nat
}.

(** What a node is asked to do with one of its fragments; [ChangeBuffer] stands for the code of the user that changes the buffer. *)
Inductive request :=
| UpdateFragment (n : nat)
| RetrieveFragment (n : nat)
| DeleteFragment (n : nat)
| ChangeBuffer (n : nat) (m : mem).

(** The elements in the buffer of a fragment. *)
Definition bufferContent (f : esdm_fragment_t) (hp : heap) : option content_t :=
  ptr ← buf f; m ← hp !! ptr.1; Some (elementAt (dataspace f) (seen ptr m)).

(** The deletion clears the bit of this block only, see [delete_frees_others] below. *)
Definition deletable (d : kdsa_backend_data_t) (offset : Z) : bool :=
  negb (u64 (offset - offset_to_data (header d)) / blocksize (header d) mod 64 =? 31).

Section Requests.

Context (floatCast : esdm_type_t -> esdm_type_t -> list Z -> list Z) (junk : mem) (rand : nat -> Z).

Definition run_request (fuel : nat) (r : request) (nd : node) : prog node :=
  match r with
  | UpdateFragment n =>
      match slots nd !! n with
      | None => mret nd
      | Some s =>
          '(st, f, md, hp, d) ← fragment_update floatCast junk rand (fragment s) (backend_md s) (memory nd) (backendData nd);
          let saved := if decide (st = ESDM_SUCCESS) then bufferContent (fragment s) (memory nd) else None in
          mret (Node d hp (<[n := Slot f md saved]> (slots nd)) None)
      end
  | RetrieveFragment n =>
      match slots nd !! n with
      | Some (Slot f (Some offset) _) =>
          '(st, hp) ← fragment_retrieve floatCast junk f (Some offset) (memory nd) (backendData nd);
          mret (Node (backendData nd) hp (slots nd) (if decide (st = ESDM_SUCCESS) then Some n else None))
      | _ => mret nd
      end
  | DeleteFragment n =>
      match slots nd !! n with
      | Some (Slot f (Some offset) _) =>
          if deletable (backendData nd) offset then
            '(_, d) ← fragment_delete fuel (Some offset) (backendData nd);
            mret (Node d (memory nd) (<[n := Slot (withId f None) None None]> (slots nd)) None)
          else mret nd
      | _ => mret nd
      end
  | ChangeBuffer n m =>
      match slots nd !! n with
      | None => mret nd
      | Some s =>
          ptr ← Return (deref (buf (fragment s)));
          mret (Node (backendData nd) (<[ptr.1 := m]> (memory nd)) (slots nd) None)
      end
  end.

Fixpoint run_requests (fuel : nat) (rs : list request) (nd : node) : prog node :=
  match rs with
  | [] => mret nd
  | r :: rs => nd ← run_request fuel r nd; run_requests fuel rs nd
  end.

End Requests.

Section Nodes.

Context (floatCast : esdm_type_t -> esdm_type_t -> list Z -> list Z) (junk : mem) (rand : nat -> Z).
Context (Hcast : forall d s bytes, 0 <= esdm_sizeof d -> Z.of_nat (length (floatCast d s bytes)) = esdm_sizeof d).
Context (hd : kdsa_persistent_header_t) (Hgeo : geometry_ok hd).

Abbreviation wp := (wp hd).
Abbreviation mapSize := (mapSize hd).
Abbreviation blockOffset := (blockOffset hd).

(** * Allocation *)

(** The data of a node that is connected to the volume; nothing is assumed of its copy of the bitmap. *)
Record data_ok (d : kdsa_backend_data_t) : Prop := {
  da_header : header d = hd;
  da_map : exists m, block_map d = Some m /\ Z.of_nat (length m) = mapSize
}.

(** No block, or one the node did not have. *)
Definition allocated (mine : owned_t) (r : Z * kdsa_backend_data_t) (mine' : owned_t) : Prop :=
  data_ok r.2 /\
  ((r.1 = 0 /\ mine' = mine) \/
   exists i, 0 <= i < blockcount hd /\ r.1 = blockOffset i /\ mine !! i = None /\ mine' = <[i := []]> mine).

Lemma blockOffset_word (i : Z) : 0 <= i < blockcount hd -> 0 < blockOffset i < 2 ^ 64 /\ u64 (blockOffset i) = blockOffset i.
Proof.
  intros Hi. destruct Hgeo as [Hs Hc Hd He]. pose proof (mapSize_count hd Hgeo) as [_ Hm].
  assert (0 < blockOffset i < 2 ^ 64) by (unfold KdsaLogic.blockOffset, headerSize in *; nia). split; [done |]. apply Z.mod_small. lia.
Qed.

Lemma mapSize_bound : 0 < mapSize <= 2 ^ 31.
Proof.
  split; [apply (mapSize_count hd Hgeo) |]. destruct Hgeo as [_ Hc _ _]. unfold KdsaLogic.mapSize, calc_block_map_size.
  apply Z.lt_succ_r, Z.div_lt_upper_bound; [lia |]. unfold u64. rewrite Z.mod_small; lia.
Qed.

Lemma data_ok_map (d : kdsa_backend_data_t) (m m' : list Z) :
  data_ok d -> block_map d = Some m -> length m' = length m -> data_ok (withMap d m').
Proof. intros [Hh (m0 & Em & Hl)] E Hm. constructor; [done |]. exists m'. split; [done |]. simplify_eq. lia. Qed.

Lemma data_ok_same (d : kdsa_backend_data_t) (e : Z) (r : nat) :
  data_ok d -> data_ok (BackendData (kdsa_size d) (header d) (block_map d) e r).
Proof. by intros [? ?]. Qed.

Lemma taken_bit (pos b e : Z) (mine : owned_t) :
  0 <= pos < mapSize -> 0 <= b < 64 -> Z.testbit e b = false ->
  exchange pos e (Z.lor e (Z.shiftl 1 b)) mine (<[64 * pos + b := []]> mine).
Proof.
  intros Hpos Hb He. constructor.
  - intros b' _ Hs. left. by rewrite Z.lor_spec, Hs.
  - intros j c [[<- <-] | [Hne Hj]]%lookup_insert_Some; [right | by left].
    replace ((64 * pos + b) / 64) with pos by (rewrite Z.mul_comm, Z.div_add_l, Z.div_small; lia).
    replace ((64 * pos + b) mod 64) with b by (rewrite Z.add_comm, Z.mul_comm, Z.mod_add, Z.mod_small; lia).
    rewrite Z.lor_spec, Z.shiftl_spec, Z.sub_diag, He by lia. done.
Qed.

Lemma try_bits_wp (d : kdsa_backend_data_t) (pos : Z) (bits : list nat) (mine : owned_t) :
  data_ok d -> 0 <= pos < mapSize -> Forall (fun b => (b < 64)%nat) bits ->
  wp (try_bits d pos bits) mine (allocated mine).
Proof.
  intros Hd Hpos Hbits. revert d Hd. induction Hbits as [| b bits Hb _ IH]; intros d Hd; [split; [done | by left] |].
  pose proof Hd as [Hh (m & Em & Hl)]. cbn [try_bits]. rewrite Em. apply wp_done.
  destruct (lookup_lt_is_Some_2 m (Z.to_nat pos)) as [e Ee]; [lia |]. rewrite Ee. apply wp_done.
  destruct (e =? UINT64_MAX); [split; [done | by left] |].
  destruct (Z.testbit (Z.lnot e) (Z.of_nat b)) eqn:Eb; [| by apply IH].
  rewrite Z.lnot_spec in Eb by lia. apply negb_true_iff in Eb. pose proof mapSize_bound as Hms.
  exists pos. split; [unfold u64, headerSize; rewrite Z.mod_small; lia |]. split; [done |]. split; [| split; [| done]].
  - intros cur Hne. cbn. destruct (Z.eqb_spec cur e); [done |]. apply IH. apply (data_ok_map d m); [done | done | apply length_insert].
  - intros Hfree. destruct (Hfree (Z.of_nat b) ltac:(lia) Eb) as [Hnone Hlt]. eexists. split; [apply taken_bit; (done || lia) |]. cbn.
    rewrite Z.eqb_refl. split; [apply (data_ok_map (withMap d _) (<[Z.to_nat pos := e]> m)); [by apply (data_ok_map d m); [| | apply length_insert] | done | by rewrite !length_insert] |].
    right. exists (64 * pos + Z.of_nat b). split; [lia |]. split; [| done]. cbn. rewrite Hh.
    rewrite <- (proj2 (blockOffset_word (64 * pos + Z.of_nat b) ltac:(lia))). f_equal. unfold KdsaLogic.blockOffset. lia.
Qed.

Lemma try_to_use_block_wp (d : kdsa_backend_data_t) (pos : Z) (mine : owned_t) :
  data_ok d -> 0 <= pos < mapSize -> wp (try_to_use_block d pos) mine (allocated mine).
Proof. intros Hd Hpos. apply try_bits_wp; [done | done |]. apply Forall_forall. intros b Hb%elem_of_seq. lia. Qed.

Lemma randomPos_wp (d : kdsa_backend_data_t) (mine : owned_t) :
  data_ok d -> wp (randomPos rand mapSize d) mine (fun r mine' => 0 <= r.1 < mapSize /\ data_ok r.2 /\ mine' = mine).
Proof.
  intros Hd. pose proof mapSize_bound. unfold randomPos. destruct (Z.eqb_spec mapSize 0); [lia |].
  split; [apply Z.mod_pos_bound; lia |]. split; [by apply data_ok_same | done].
Qed.

(** Trying goes on while there is no block. *)
Lemma try_next_wp (p : prog (Z * kdsa_backend_data_t)) (q : kdsa_backend_data_t -> prog (Z * kdsa_backend_data_t)) (mine : owned_t) :
  wp p mine (allocated mine) -> (forall d, data_ok d -> wp (q d) mine (allocated mine)) ->
  wp ('(offset, d) ← p; if negb (offset =? 0) then mret (offset, d) else q d) mine (allocated mine).
Proof.
  intros Hp Hq. apply (wp_seq hd _ _ _ (allocated mine)); [done |]. intros [o d] mine' [Hd [[Ho ->] | (i & Hi & Ho & Hn & ->)]]; cbn in *.
  - subst o. by apply Hq.
  - destruct (Z.eqb_spec o 0) as [E | _]; [pose proof (blockOffset_word i Hi); lia |]. split; [done |]. right. by exists i.
Qed.

Lemma random_tries_wp (n : nat) (d : kdsa_backend_data_t) (mine : owned_t) :
  data_ok d -> wp (random_tries rand n mapSize d) mine (allocated mine).
Proof.
  revert d. induction n as [| n IH]; intros d Hd; [split; [done | by left] |]. cbn [random_tries].
  eapply wp_seq; [by apply randomPos_wp |]. intros [pos d1] mine' (Hpos & Hd1 & ->).
  apply (try_next_wp _ (random_tries rand n mapSize)); [by apply try_to_use_block_wp | done].
Qed.

Lemma sequential_tries_wp (todo : list nat) (pos : Z) (d : kdsa_backend_data_t) (mine : owned_t) :
  data_ok d -> 0 <= pos < mapSize -> Forall (fun i => Z.of_nat i < 2 ^ 31) todo ->
  wp (sequential_tries todo mapSize pos d) mine (allocated mine).
Proof.
  intros Hd Hpos Htodo. pose proof mapSize_bound. revert d Hd. induction Htodo as [| i todo Hi _ IH]; intros d Hd; [split; [done | by left] |].
  cbn [sequential_tries]. destruct (Z.leb_spec (2 ^ 31) (Z.of_nat i)); [lia |].
  apply (try_next_wp _ (sequential_tries todo mapSize pos)); [| done]. apply try_to_use_block_wp; [done |]. apply Z.mod_pos_bound. lia.
Qed.

Lemma load_block_bitmap_wp (d : kdsa_backend_data_t) (mine : owned_t) :
  data_ok d -> wp (load_block_bitmap d) mine (fun r mine' => data_ok r.2 /\ mine' = mine).
Proof.
  intros [Hh (m & Em & Hl)]. unfold load_block_bitmap. rewrite Em. apply wp_read. intros l _ _. apply wp_done.
  assert (Hok : forall e, data_ok (withEstimate (withMap d (wordsOf (length m) (l ++ drop (length l) (bytesOf m)))) e)).
  { intros e. constructor; [done |]. eexists. split; [reflexivity |]. unfold wordsOf. by rewrite length_fmap, length_seq. }
  destruct (_ =? _); exact (conj (Hok _) eq_refl).
Qed.

Lemma find_offset_wp (d : kdsa_backend_data_t) (mine : owned_t) :
  data_ok d -> wp (find_offset_to_store_fragment rand d) mine (allocated mine).
Proof.
  intros Hd. pose proof Hgeo as [_ Hc _ _]. unfold find_offset_to_store_fragment. rewrite (da_header d Hd).
  destruct (Z.eqb_spec (blockcount hd) 0); [lia |].
  apply (wp_seq hd _ _ _ (fun r mine' => data_ok r.2 /\ mine' = mine)).
  { destruct (_ <=? 3); [| exact (conj Hd eq_refl)]. eapply wp_seq; [by apply load_block_bitmap_wp |]. by intros [ret d1] mine' H. }
  intros [full d1] mine' [Hd1 ->]. destruct full; [split; [done | by left] |]. cbn beta iota in Hd1 |- *. cbn [snd] in Hd1. rewrite (da_header d1 Hd1).
  change (calc_block_map_size (blockcount hd)) with mapSize. pose proof mapSize_bound.
  eapply wp_seq; [by apply random_tries_wp |]. intros [o d2] mine' Ha.
  apply (wp_seq hd _ _ _ (allocated mine)).
  - destruct Ha as [Hd2 [[Ho ->] | (i & Hi & Ho & Hn & ->)]]; cbn in *; subst o.
    + eapply wp_seq; [by apply randomPos_wp |]. intros [pos d3] mine' (Hpos & Hd3 & ->). apply sequential_tries_wp; [done | done |].
      apply Forall_forall. intros i Hi%elem_of_seq. lia.
    + destruct (Z.eqb_spec (blockOffset i) 0) as [E | _]; [pose proof (blockOffset_word i Hi); lia |]. split; [done |]. right. by exists i.
  - intros [o' d3] mine'' [Hd3 Hcase]. cbn in *. split; [| done]. cbn. destruct (negb _); [by apply data_ok_same | done].
Qed.

(** * Deletion *)

(** Whether the bit [b] of a word survives the deletion of the block at position [k] of the word. *)
Definition survives (k b : Z) : bool := if k <? 31 then negb (b =? k) else if k =? 31 then b <? 31 else true.

Lemma deleteMask_exact (pos b : Z) : 0 <= b < 64 -> Z.testbit (deleteMask pos) b = survives (pos mod 64) b.
Proof.
  intros Hb. pose proof (Z.mod_pos_bound pos 64 ltac:(lia)) as Hk. unfold deleteMask. set (k := pos mod 64) in *. clearbody k.
  assert (H : forallb (fun k => forallb (fun b => Bool.eqb (Z.testbit (u64 (to_int32 (Z.lnot (Z.shiftl 1 (Z.of_nat k))))) (Z.of_nat b)) (survives (Z.of_nat k) (Z.of_nat b)))
    (seq 0 64)) (seq 0 64) = true) by (vm_compute; reflexivity).
  rewrite forallb_forall in H. specialize (H (Z.to_nat k)). rewrite forallb_forall in H.
  specialize (H ltac:(apply in_seq; lia) (Z.to_nat b) ltac:(apply in_seq; lia)). rewrite !Z2Nat.id in H by lia. by apply eqb_prop.
Qed.

(** All bits but one stay, unless the block is the 32nd of its word. *)
Lemma deleteMask_bits (pos b : Z) :
  pos mod 64 <> 31 -> 0 <= b < 64 -> b <> pos mod 64 -> Z.testbit (deleteMask pos) b = true.
Proof.
  intros Hne Hb Hb'. rewrite deleteMask_exact by done. unfold survives.
  destruct (Z.ltb_spec (pos mod 64) 31), (Z.eqb_spec (pos mod 64) 31), (Z.eqb_spec b (pos mod 64)); done.
Qed.

Lemma delete_loop_wp (fuel : nat) (i : Z) (d : kdsa_backend_data_t) (mine : owned_t) :
  data_ok d -> 0 <= i < blockcount hd -> i mod 64 <> 31 -> is_Some (mine !! i) ->
  wp (delete_loop fuel (i / 64) (deleteMask i) d) mine (fun r mine' => r.1 = ESDM_SUCCESS /\ data_ok r.2 /\ mine' = delete i mine).
Proof.
  intros Hd Hi Hmod Hown. pose proof mapSize_bound as Hms. pose proof (mapSize_count hd Hgeo) as [Hcount _].
  assert (Hpos : 0 <= i / 64 < mapSize) by (split; [apply Z.div_pos; lia | apply Z.div_lt_upper_bound; lia]).
  revert d Hd. induction fuel as [| fuel IH]; intros d Hd; [done |]. pose proof Hd as [Hh (m & Em & Hl)].
  cbn [delete_loop]. rewrite Em. apply wp_done.
  destruct (lookup_lt_is_Some_2 m (Z.to_nat (i / 64))) as [e Ee]; [lia |]. rewrite Ee. apply wp_done.
  exists (i / 64). split; [unfold u64, headerSize; rewrite Z.mod_small; lia |]. split; [done |]. split; [| split; [| done]].
  - intros cur Hne. cbn. destruct (Z.eqb_spec cur e); [done |]. apply IH. apply (data_ok_map d m); [done | done | apply length_insert].
  - intros _. exists (delete i mine). split.
    + destruct (block_bit i (i / 64) eq_refl) as [Ei Hb]. constructor.
      * intros b Hb' Hs. rewrite Z.land_spec, Hs. destruct (decide (b = i mod 64)) as [-> | Hne].
        -- right. rewrite <- Ei. by rewrite lookup_delete_eq.
        -- left. by rewrite deleteMask_bits.
      * intros j c [Hne Hj]%lookup_delete_Some. by left.
    + cbn. rewrite Z.eqb_refl. split; [done |]. split; [| done]. apply (data_ok_map d m); [done | done | apply length_insert].
Qed.

Lemma block_of_offset (i : Z) :
  0 <= i < blockcount hd -> u64 (blockOffset i - offset_to_data hd) / blocksize hd = i.
Proof.
  intros Hi. pose proof Hgeo as [Hs Hc _ He]. pose proof (blockOffset_word i Hi) as [Hb _].
  pose proof (mapSize_count hd Hgeo) as [_ Hm]. pose proof (ge_data hd Hgeo) as Hdata. unfold headerSize in Hdata.
  unfold KdsaLogic.blockOffset in *. replace (offset_to_data hd + i * blocksize hd - offset_to_data hd) with (i * blocksize hd) by lia.
  unfold u64. rewrite Z.mod_small by nia. rewrite Z.div_mul; lia.
Qed.

Lemma fragment_delete_wp (fuel : nat) (i : Z) (d : kdsa_backend_data_t) (mine : owned_t) :
  data_ok d -> 0 <= i < blockcount hd -> i mod 64 <> 31 -> is_Some (mine !! i) ->
  wp (fragment_delete fuel (Some (blockOffset i)) d) mine (fun r mine' => r.1 = ESDM_SUCCESS /\ data_ok r.2 /\ mine' = delete i mine).
Proof.
  intros Hd Hi Hmod Hown. pose proof (ge_size hd Hgeo). unfold fragment_delete. rewrite (da_header d Hd).
  destruct (Z.eqb_spec (blocksize hd) 0); [lia |]. rewrite block_of_offset by done. by apply delete_loop_wp.
Qed.

(** * Data *)

(** A fragment with a buffer. *)
Record buffered (f : esdm_fragment_t) (hp : heap) (ptr : pointer) (m : mem) : Prop := {
  bu_ok : fragment_ok (withId f None);
  bu_buf : buf f = Some ptr;
  bu_mem : hp !! ptr.1 = Some m
}.

(** The bytes of a block are the data of the fragment. *)
Definition holds (f : esdm_fragment_t) (c : list Z) (content : content_t) : Prop :=
  Z.of_nat (length c) = bytes f /\ forall p, in_cube p (extends (dataspace f)) -> fileElement (dataspace f) c p = content p.

Lemma buffered_bytes (f : esdm_fragment_t) (hp : heap) (ptr : pointer) (m : mem) : buffered f hp ptr m -> 0 < bytes f.
Proof.
  intros [[_ _ Hs Hb _ _] _ _]. cbn [withId dataspace bytes] in *. rewrite Hb. pose proof (ds_type _ Hs).
  pose proof (prod_pos _ (ds_size _ Hs)). nia.
Qed.

(** The copy into the buffer that is written, for a fragment with a stride. *)
Lemma linearize_ok (f : esdm_fragment_t) (hp : heap) (ptr : pointer) (m : mem) :
  buffered f hp ptr m -> is_Some (stride (dataspace f)) ->
  exists hp' mo, copyData floatCast (dataspace f) ptr (contiguous (dataspace f)) (malloc junk hp).1 (malloc junk hp).2 = Done hp' /\
  view (malloc junk hp).1 hp' = Done mo /\ holds f (read_bytes mo 0 (bytes f)) (elementAt (dataspace f) (seen ptr m)) /\
  free (Some (malloc junk hp).1) hp' = Done hp /\ hp ⊆ hp'.
Proof.
  intros Hbuf [st Est]. pose proof (buffered_bytes f hp ptr m Hbuf) as Hpos. destruct Hbuf as [Hok Eb Em].
  destruct (pack_ok floatCast Hcast junk (withId f None) hp ptr m Hok Eb Em) as (out & mo & hp' & Ep & Eo & Hfile & Hcase).
  unfold estream_mem_pack_fragment in Ep. cbn [withId dataspace buf bytes malloc] in Ep. rewrite Est, Eb in Ep.
  rewrite makeContiguous_ok in Ep by apply (fr_space _ Hok). rewrite !bind_done in Ep. cbn [deref] in Ep. rewrite !bind_done in Ep.
  apply bind_done_inv in Ep as (hp1 & Ec & E). injection E as <- <-. cbn [malloc fst snd] in *. exists hp1, (seen (fresh (dom hp), 0) mo).
  split; [done |]. split; [by apply view_ok |].
  assert (Hdel : hp !! fresh (dom hp) = None /\ delete (fresh (dom hp)) hp1 = hp).
  { destruct Hcase as [[E _] | (_ & Hn & Hd)]; [| done]. rewrite <- E in Em. cbn [fst] in Em.
    pose proof (malloc_fresh junk hp) as Hf. cbn [malloc fst] in Hf. by rewrite Hf in Em. }
  destruct Hdel as [Hn Hd]. split; [| split].
  - unfold seen. rewrite read_bytes_shift. split; [apply length_read_bytes; lia |]. intros p Hp. by apply (Hfile p).
  - cbn [free fst snd]. rewrite decide_True by eauto. by rewrite Hd.
  - rewrite <- Hd. apply delete_subseteq.
Qed.

(** The block holds the data after a success; nothing is known of it after a failure. *)
Lemma writeFragment_wp (f : esdm_fragment_t) (hp : heap) (ptr : pointer) (m : mem) (i : Z) (mine : owned_t) :
  buffered f hp ptr m -> bytes f <= blocksize hd -> is_Some (mine !! i) ->
  wp (writeFragment floatCast junk f (blockOffset i) hp) mine (fun r mine' =>
    hp ⊆ r.2 /\ exists c, mine' = <[i := c]> mine /\ (r.1 = ESDM_SUCCESS -> holds f c (elementAt (dataspace f) (seen ptr m)))).
Proof.
  intros Hbuf Hfit [c0 Hc0]. pose proof (buffered_bytes f hp ptr m Hbuf) as Hpos. pose proof Hbuf as [Hok Eb Em].
  unfold writeFragment. rewrite Eb. apply wp_done. destruct (stride (dataspace f)) as [st |] eqn:Est.
  - destruct (linearize_ok f hp ptr m Hbuf ltac:(eauto)) as (hp' & mo & Ec & Ev & Hh & Ef & Hsub). destruct (malloc junk hp) as [wb hp1]. cbn [fst snd] in *.
    rewrite makeContiguous_ok by apply (fr_space _ Hok). apply wp_done. rewrite Ec. apply wp_done. rewrite Ev. apply wp_done.
    exists i, c0. split; [done |]. split; [done |]. split; [rewrite length_read_bytes; lia |]. split.
    + cbn [negb]. apply wp_bind. cbn [wp mret prog_ret]. rewrite Ef. split; [done |]. by eexists.
    + split; [done |]. by eexists.
  - rewrite (view_ok _ _ _ Em). apply wp_done.
    exists i, c0. split; [done |]. split; [done |]. split; [rewrite length_read_bytes; lia |]. split; (split; [done |]); eexists; (split; [done |]); [| done].
    intros _. unfold seen. rewrite read_bytes_shift. split; [apply length_read_bytes; lia |]. intros p Hp.
    pose proof (fr_space _ Hok) as Hsp. pose proof (fr_bytes _ Hok) as Hby. cbn [withId dataspace bytes] in Hsp, Hby.
    rewrite Hby, Z.add_0_r, fileElement_read by done. unfold elementAt, index, eff. by rewrite Est.
Qed.

Lemma fragment_retrieve_wp (f : esdm_fragment_t) (hp : heap) (ptr : pointer) (m : mem) (i : Z) (d : kdsa_backend_data_t) (mine : owned_t) :
  data_ok d -> buffered f hp ptr m -> injective_layout (dataspace f) ->
  wp (fragment_retrieve floatCast junk f (Some (blockOffset i)) hp d) mine (fun r mine' =>
    mine' = mine /\ exists m', r.2 = <[ptr.1 := m']> hp /\
    (r.1 = ESDM_SUCCESS -> forall c content, mine !! i = Some c -> holds f c content ->
       forall p, in_cube p (extends (dataspace f)) -> elementAt (dataspace f) (seen ptr m') p = content p)).
Proof.
  intros Hd Hbuf Hinj. pose proof (buffered_bytes f hp ptr m Hbuf) as Hpos. pose proof Hbuf as [Hok Eb Em].
  assert (Hid : <[ptr.1 := m]> hp = hp) by (by apply insert_id).
  assert (Hfull : forall l, Z.of_nat (length l) = bytes f -> exists need rb h1 mr m',
    estream_mem_unpack_fragment_param junk (withId f None) hp = (need, Some rb, bytes f, h1) /\ h1 !! rb.1 = Some mr /\
    (let h2 := <[rb.1 := write_bytes mr rb.2 l]> h1 in
     (if need then estream_mem_unpack_fragment floatCast (withId f None) rb h2 else Done (ESDM_SUCCESS, h2)) = Done (ESDM_SUCCESS, <[ptr.1 := m']> hp)) /\
    loaded (dataspace f) ptr l m m') by (intros l Hl; by apply (unpack_ok floatCast Hcast junk (withId f None) hp ptr m l)).
  assert (Hknown : forall l m', Z.of_nat (length l) = bytes f -> loaded (dataspace f) ptr l m m' ->
    (forall j c, mine !! j = Some c -> blockOffset i = blockOffset j -> bytes f = Z.of_nat (length c) -> Z.of_nat (length l) = bytes f -> l = c) ->
    forall c content, mine !! i = Some c -> holds f c content -> forall p, in_cube p (extends (dataspace f)) -> elementAt (dataspace f) (seen ptr m') p = content p).
  { intros l m' Hl [Hin _] Hk c content Hc [Hlc Hcont] p Hp. rewrite Hin by done. rewrite (Hk i c Hc eq_refl ltac:(lia) Hl). by apply Hcont. }
  unfold estream_mem_unpack_fragment_param, estream_mem_unpack_fragment in Hfull. cbn [withId actual_bytes dataspace buf bytes] in Hfull.
  pose proof (fr_plain _ Hok) as Hplain. cbn [withId actual_bytes] in Hplain. rewrite Hplain, Z.eqb_refl in Hfull. cbn [negb] in Hfull.
  unfold fragment_retrieve. destruct (bytes f >? _); [split; [done |]; exists m; by rewrite Hid |].
  destruct (stride (dataspace f)) as [st |] eqn:Est.
  - pose proof (malloc_fresh junk hp) as Hf. cbn [malloc fst] in Hf. cbn [malloc] in *. set (b := fresh (dom hp)) in *. apply wp_done, wp_read. intros l Hle Hk.
    unfold store. cbn [fst snd]. rewrite lookup_insert_eq. cbn [deref fmap outcome_fmap]. apply wp_done.
    destruct (Z.eqb_spec (Z.of_nat (length l)) (bytes f)) as [Hl | Hl]; cbn [negb].
    + destruct (Hfull l Hl) as (need & rb & h1 & mr & m' & Ep & Er & Eun & Hload). injection Ep as <- <- <-. cbn [fst snd] in *.
      rewrite lookup_insert_eq in Er. injection Er as <-. cbn zeta in Eun. rewrite makeContiguous_ok in Eun |- * by apply (fr_space _ Hok).
      rewrite Eb in Eun |- *. rewrite !bind_done in Eun. cbn [deref] in Eun. rewrite !bind_done in Eun. apply bind_done_inv in Eun as (h3 & Ec & Eun).
      apply bind_done_inv in Eun as (h4 & Ef & E). injection E as ->. do 2 apply wp_done. rewrite Ec. apply wp_done. rewrite Ef. apply wp_done.
      split; [done |]. exists m'. split; [done |]. intros _. by apply (Hknown l m').
    + cbn [free fst snd]. rewrite decide_True by (split; [done |]; rewrite lookup_insert_eq; eauto). apply wp_done. split; [done |]. exists m.
      cbn [snd]. by rewrite insert_insert_eq, delete_insert_id, Hid by done.
  - apply wp_done. rewrite Eb. apply wp_done, wp_read. intros l Hle Hk. unfold store. rewrite Em. cbn [deref fmap outcome_fmap]. apply wp_done.
    split; [done |]. exists (write_bytes m ptr.2 l). split; [done |]. cbn [fst].
    destruct (Z.eqb_spec (Z.of_nat (length l)) (bytes f)) as [Hl | Hl]; cbn [negb]; [| done]. intros _. apply (Hknown l); [done | | done].
    destruct (Hfull l Hl) as (need & rb & h1 & mr & m' & Ep & Er & Eun & Hload). rewrite Eb in Ep. injection Ep as <- <- <-. rewrite Em in Er. injection Er as <-.
    cbn zeta in Eun. injection Eun as E. assert (m' = write_bytes m ptr.2 l) as <-; [| done].
    apply (f_equal (lookup ptr.1)) in E. rewrite !lookup_insert_eq in E. by injection E.
Qed.

(** The id in the metadata of a fragment leads back to its block. *)
Lemma scan_offset (off : Z) : 0 <= off < 2 ^ 64 -> scanUnsigned (pretty (to_int64 off)) = Done off.
Proof.
  intros Ho. unfold scanUnsigned, to_int64. assert (Hu : u64 off = off) by (by apply Z.mod_small). rewrite Hu. unfold INT64_MAX.
  set (z := if off <=? 2 ^ 63 - 1 then off else off - 2 ^ 64).
  assert (Hz : - 2 ^ 64 < z < 2 ^ 64 /\ u64 z = off).
  { unfold z. destruct (Z.leb_spec off (2 ^ 63 - 1)); [by split; [lia |] |]. split; [lia |]. rewrite <- Hu at 2. unfold u64.
    rewrite <- (Z.mod_add off (-1) (2 ^ 64)) by lia. f_equal. }
  pose proof (JsonReader.integer_ok z "" I) as E. rewrite string_app_nil_r in E. rewrite E.
  destruct (Z.ltb_spec (- 2 ^ 64) z), (Z.ltb_spec z (2 ^ 64)); try lia. cbn [andb]. by rewrite (proj2 Hz).
Qed.

(** Where the data of a fragment is: the block, and that the id names it. *)
Definition placed (f : esdm_fragment_t) (fragmd : option Z) (i : Z) : Prop :=
  0 <= i < blockcount hd /\ fragmd = Some (blockOffset i) /\ fragment_metadata_load f = Done (blockOffset i).

Lemma fragment_update_wp (f : esdm_fragment_t) (fragmd : option Z) (hp : heap) (ptr : pointer) (m : mem) (d : kdsa_backend_data_t) (mine : owned_t) :
  data_ok d -> buffered f hp ptr m -> (id f = None \/ exists i, placed f fragmd i /\ is_Some (mine !! i)) ->
  wp (fragment_update floatCast junk rand f fragmd hp d) mine (fun '(st, f', fragmd', hp', d') mine' =>
    data_ok d' /\ hp ⊆ hp' /\ f' = withId f (id f') /\
    ((id f = None /\ f' = f /\ fragmd' = fragmd /\ mine' = mine /\ st <> ESDM_SUCCESS) \/
     exists i c, placed f' fragmd' i /\ (id f = None /\ mine !! i = None \/ placed f fragmd i) /\ mine' = <[i := c]> mine /\
     (st = ESDM_SUCCESS -> holds f c (elementAt (dataspace f) (seen ptr m))))).
Proof.
  intros Hd Hbuf Hplace. unfold fragment_update.
  apply (wp_seq hd _ _ _ (fun '(found, f1, fragmd1, d1) mine1 => data_ok d1 /\ f1 = withId f (id f1) /\
    ((found = false /\ id f = None /\ f1 = f /\ fragmd1 = fragmd /\ mine1 = mine) \/
     (found = true /\ exists i c, placed f1 fragmd1 i /\ (id f = None /\ mine !! i = None \/ placed f fragmd i) /\ mine1 = <[i := c]> mine)))).
  { destruct (id f) as [j |] eqn:Ej.
    - destruct Hplace as [| (i & Hp & [c Hc])]; [done |]. split; [done |]. split; [by destruct f |]. right. split; [done |]. exists i, c.
      split; [done |]. split; [by right |]. by rewrite insert_id.
    - eapply wp_seq; [by apply find_offset_wp |]. intros [o d1] mine1 [Hd1 [[Ho ->] | (i & Hi & Ho & Hn & ->)]]; cbn in Hd1, Ho; subst o.
      + split; [done |]. split; [by destruct f |]. by left.
      + pose proof (blockOffset_word i Hi) as [Hw _]. destruct (Z.eqb_spec (blockOffset i) 0); [lia |]. split; [done |]. split; [done |].
        right. split; [done |]. exists i, []. split; [| by auto]. split; [done |]. split; [done |]. cbn [fragment_metadata_load withId id].
        apply scan_offset. lia. }
  intros [[[found f1] fragmd1] d1] mine1 (Hd1 & Ef1 & Hcase). destruct Hcase as [(-> & Hid & -> & -> & ->) | (-> & i & c & Hp & Hold & ->)]; cbn [negb].
  { split; [done |]. split; [done |]. split; [done |]. by left. }
  assert (Hfields : bytes f1 = bytes f /\ dataspace f1 = dataspace f) by (by rewrite Ef1). destruct Hfields as [Eby Esp].
  rewrite (da_header d1 Hd1), Eby. destruct (Z.gtb_spec (bytes f) (blocksize hd)) as [Hgt | Hle].
  { split; [done |]. split; [done |]. split; [done |]. right. by exists i, c. }
  destruct Hp as (Hi & -> & Hload). apply wp_done.
  eapply wp_seq; [apply (writeFragment_wp f1 hp ptr m i); [| lia | rewrite lookup_insert_eq; eauto] |].
  { destruct Hbuf as [H1 H2 H3]. rewrite Ef1. by constructor. }
  intros [st hp1] mine2 (Hsub & c2 & -> & Hdata). split; [done |]. split; [done |]. split; [done |]. right. exists i, c2.
  split; [done |]. split; [done |]. rewrite insert_insert_eq. split; [done |]. cbn in Hdata. intros Hst. specialize (Hdata Hst).
  unfold holds in *. by rewrite Eby, Esp in Hdata.
Qed.

(** * The state of a node *)

Record slot_ok (mine : owned_t) (hp : heap) (s : slot) : Prop := {
  sl_layout : injective_layout (dataspace (fragment s));
  sl_buffer : exists ptr m, buffered (fragment s) hp ptr m;
  sl_place : (id (fragment s) = None /\ backend_md s = None /\ saved s = None) \/
    exists i c, placed (fragment s) (backend_md s) i /\ mine !! i = Some c /\
    forall content, saved s = Some content -> holds (fragment s) c content
}.

Record node_ok (nd : node) (mine : owned_t) : Prop := {
  no_data : data_ok (backendData nd);
  no_slot : forall n s, slots nd !! n = Some s -> slot_ok mine (memory nd) s;
  no_apart : forall n k s t o, slots nd !! n = Some s -> slots nd !! k = Some t -> backend_md s = Some o -> backend_md t = Some o -> n = k;
  no_loaded : forall n s content, loadedSlot nd = Some n -> slots nd !! n = Some s -> saved s = Some content ->
    exists actual, bufferContent (fragment s) (memory nd) = Some actual /\
    forall p, in_cube p (extends (dataspace (fragment s))) -> actual p = content p
}.

Lemma blockOffset_inj (i j : Z) : blockOffset i = blockOffset j -> i = j.
Proof. unfold KdsaLogic.blockOffset. pose proof (ge_size hd Hgeo). nia. Qed.

(** A buffer stays where it is when other memory changes. *)
Lemma slot_ok_heap (mine : owned_t) (hp hp' : heap) (s : slot) :
  (forall b, is_Some (hp !! b) -> is_Some (hp' !! b)) -> slot_ok mine hp s -> slot_ok mine hp' s.
Proof.
  intros Hsub [Hl (ptr & m & [H1 H2 H3]) Hp]. destruct (Hsub ptr.1) as [m' Hm']; [eauto |]. constructor; [done | | done].
  exists ptr, m'. by constructor.
Qed.

Lemma subset_blocks (hp hp' : heap) : hp ⊆ hp' -> forall b, is_Some (hp !! b) -> is_Some (hp' !! b).
Proof. intros Hsub b [m Hm]. exists m. by eapply lookup_weaken. Qed.

(** A fragment whose block is not touched. *)
Lemma slot_ok_mine (mine mine' : owned_t) (hp : heap) (s : slot) :
  (forall i, backend_md s = Some (blockOffset i) -> mine' !! i = mine !! i) -> slot_ok mine hp s -> slot_ok mine' hp s.
Proof.
  intros Hsame [Hl Hb [Hn | (i & c & Hp & Hc & Hs)]]; constructor; try done; [by left |]. right. exists i, c.
  split; [done |]. split; [| done]. rewrite Hsame; [done |]. apply Hp.
Qed.

(** One of the fragments changes, with its block. *)
Lemma node_ok_slot (nd : node) (mine mine' : owned_t) (d : kdsa_backend_data_t) (hp : heap) (n : nat) (s s' : slot) :
  node_ok nd mine -> slots nd !! n = Some s -> data_ok d -> (forall b, is_Some (memory nd !! b) -> is_Some (hp !! b)) ->
  slot_ok mine' hp s' ->
  (forall k t i, k <> n -> slots nd !! k = Some t -> backend_md t = Some (blockOffset i) -> mine' !! i = mine !! i) ->
  (forall k t o, k <> n -> slots nd !! k = Some t -> backend_md t = Some o -> backend_md s' <> Some o) ->
  node_ok (Node d hp (<[n := s']> (slots nd)) None) mine'.
Proof.
  intros [_ Hslot Hapart _] En Hd Hsub Hs' Hmine Hother. pose proof (lookup_lt_Some _ _ _ En) as Hn. constructor; [done | | | done]; cbn [slots memory].
  - intros k t Et. destruct (decide (k = n)) as [-> | Hne].
    + rewrite list_lookup_insert_eq in Et by done. by injection Et as <-.
    + rewrite list_lookup_insert_ne in Et by done. apply (slot_ok_heap _ (memory nd)); [done |].
      apply (slot_ok_mine mine); [by intros i; apply (Hmine k t) | by apply (Hslot k)].
  - intros k1 k2 t1 t2 o E1 E2 H1 H2. destruct (decide (k1 = n)) as [-> | N1], (decide (k2 = n)) as [-> | N2]; [done | | |].
    + rewrite list_lookup_insert_eq in E1 by done. rewrite list_lookup_insert_ne in E2 by done. injection E1 as <-. by destruct (Hother k2 t2 o).
    + rewrite list_lookup_insert_eq in E2 by done. rewrite list_lookup_insert_ne in E1 by done. injection E2 as <-. by destruct (Hother k1 t1 o).
    + rewrite list_lookup_insert_ne in E1, E2 by done. by apply (Hapart k1 k2 t1 t2 o).
Qed.

Lemma update_request_wp (fuel n : nat) (nd : node) (mine : owned_t) :
  node_ok nd mine -> wp (run_request floatCast junk rand fuel (UpdateFragment n) nd) mine node_ok.
Proof.
  intros Hnd. cbn [run_request]. destruct (slots nd !! n) as [s |] eqn:En; [| done]. pose proof Hnd as [Hd Hslot Hapart _].
  destruct (Hslot n s En) as [Hl (ptr & m & Hbuf) Hplace].
  eapply wp_seq; [apply (fragment_update_wp _ _ _ ptr m); [done | done |] |].
  { destruct Hplace as [(? & _) | (i & c & ? & ? & _)]; [by left | right; eauto]. }
  intros [[[[st f'] md'] hp'] d'] mine' (Hd' & Hsub & Ef & Hcase).
  assert (Hbuf' : exists ptr m, buffered f' hp' ptr m).
  { destruct Hbuf as [H1 H2 H3]. exists ptr, m. rewrite Ef. constructor; [done | done |]. by eapply lookup_weaken. }
  assert (Hl' : injective_layout (dataspace f')) by (by rewrite Ef). pose proof (subset_blocks _ _ Hsub) as Hsub'.
  assert (Hkeep : forall i, (id (fragment s) = None /\ mine !! i = None \/ placed (fragment s) (backend_md s) i) ->
    forall k t, k <> n -> slots nd !! k = Some t -> backend_md t <> Some (blockOffset i)).
  { intros i Hi k t Hk Et Emd. destruct Hi as [[_ Hnone] | (_ & Hp & _)]; [| by apply Hk, (Hapart k n t s (blockOffset i))].
    destruct (Hslot k t Et) as [_ _ [(_ & E & _) | (j & c & (_ & E & _) & Hc & _)]]; [by rewrite E in Emd |].
    rewrite E in Emd. injection Emd as Ej%blockOffset_inj. subst j. by rewrite Hnone in Hc. }
  destruct Hcase as [(Hid & -> & -> & -> & Hst) | (i & c & Hp & Hold & -> & Hdata)].
  - apply (node_ok_slot nd mine mine d' hp' n s); try done.
    + constructor; [done | done |]. cbn [fragment backend_md saved]. rewrite decide_False by done. left.
      destruct Hplace as [(? & ? & _) | (i & c & (_ & _ & E) & _)]; [done |]. unfold fragment_metadata_load in E. by rewrite Hid in E.
    + intros k t o Hk Et Eo. cbn [backend_md]. intros Eo'. apply Hk. by apply (Hapart k n t s o).
  - apply (node_ok_slot nd mine _ d' hp' n s); try done.
    + constructor; [done | done |]. cbn [fragment backend_md saved]. right. exists i, c. split; [done |]. rewrite lookup_insert_eq. split; [done |].
      intros content Hc. case_decide as Hst; [| done]. unfold bufferContent in Hc. rewrite (bu_buf _ _ _ _ Hbuf) in Hc. cbn in Hc.
      rewrite (bu_mem _ _ _ _ Hbuf) in Hc. cbn in Hc. injection Hc as <-. specialize (Hdata Hst). unfold holds in *. by rewrite Ef.
    + intros k t j Hk Et Emd. rewrite lookup_insert_ne; [done |]. intros ->. by apply (Hkeep j Hold k t).
    + intros k t o Hk Et Eo. cbn [backend_md]. destruct Hp as (_ & -> & _). intros [= <-]. by apply (Hkeep i Hold k t).
Qed.

Lemma retrieve_request_wp (fuel n : nat) (nd : node) (mine : owned_t) :
  node_ok nd mine -> wp (run_request floatCast junk rand fuel (RetrieveFragment n) nd) mine node_ok.
Proof.
  intros Hnd. cbn [run_request]. destruct (slots nd !! n) as [[f [o |] sv] |] eqn:En; [| done..]. pose proof Hnd as [Hd Hslot Hapart _].
  destruct (Hslot n _ En) as [Hl (ptr & m & Hbuf) [(_ & [=] & _) | (i & c & (Hi & [= ->] & _) & Hc & Hsaved)]]. cbn [fragment saved] in *.
  eapply wp_seq; [by apply (fragment_retrieve_wp f _ ptr m i) |]. intros [st hp'] mine' (-> & m' & Ehp & Hdata). cbn [fst snd] in *. subst hp'.
  constructor; [done | | done |]; cbn [slots memory loadedSlot].
  - intros k t Et. apply (slot_ok_heap _ (memory nd)); [| by apply (Hslot k)]. intros b Hb. apply lookup_insert_is_Some'. by right.
  - intros k t content Hk. case_decide as Hst; [| done]. injection Hk as <-. rewrite En. intros [= <-]. cbn [fragment saved]. intros Hsv.
    eexists. unfold bufferContent. rewrite (bu_buf _ _ _ _ Hbuf). cbn. rewrite lookup_insert_eq. cbn. split; [done |].
    by apply (Hdata Hst c content Hc), Hsaved.
Qed.

Lemma delete_request_wp (fuel n : nat) (nd : node) (mine : owned_t) :
  node_ok nd mine -> wp (run_request floatCast junk rand fuel (DeleteFragment n) nd) mine node_ok.
Proof.
  intros Hnd. cbn [run_request]. destruct (slots nd !! n) as [[f [o |] sv] |] eqn:En; [| done..]. pose proof Hnd as [Hd Hslot Hapart _].
  destruct (Hslot n _ En) as [Hl (ptr & m & Hbuf) [(_ & [=] & _) | (i & c & (Hi & [= ->] & _) & Hc & _)]]. cbn [fragment saved] in *.
  destruct (deletable (backendData nd) (blockOffset i)) eqn:Edel; [| done].
  assert (Hmod : i mod 64 <> 31).
  { unfold deletable in Edel. rewrite (da_header _ Hd) in Edel. rewrite block_of_offset in Edel by done. by apply negb_true_iff, Z.eqb_neq in Edel. }
  eapply wp_seq; [apply (fragment_delete_wp fuel i); eauto |]. intros [st d'] mine' (_ & Hd' & ->).
  apply (node_ok_slot nd mine _ d' (memory nd) n _ _ Hnd En); [done | done | | |].
  - constructor; [done | | by left]. exists ptr, m. destruct Hbuf as [H1 H2 H3]. by constructor.
  - intros k t j Hk Et Emd. apply lookup_delete_ne. intros ->. apply Hk. by apply (Hapart k n t _ (blockOffset j) Et En).
  - done.
Qed.

Lemma run_request_wp (fuel : nat) (r : request) (nd : node) (mine : owned_t) :
  node_ok nd mine -> wp (run_request floatCast junk rand fuel r nd) mine node_ok.
Proof.
  destruct r as [n | n | n | n m']; [apply update_request_wp | apply retrieve_request_wp | apply delete_request_wp |].
  intros Hnd. cbn [run_request]. destruct (slots nd !! n) as [s |] eqn:En; [| done]. pose proof Hnd as [Hd Hslot Hapart _].
  destruct (Hslot n s En) as [_ (ptr & m & Hbuf) _]. rewrite (bu_buf _ _ _ _ Hbuf). apply wp_done.
  constructor; [done | | done | done]. intros k t Et. apply (slot_ok_heap _ (memory nd)); [| by apply (Hslot k)].
  intros b Hb. apply lookup_insert_is_Some'. by right.
Qed.

Lemma run_requests_wp (fuel : nat) (rs : list request) (nd : node) (mine : owned_t) :
  node_ok nd mine -> wp (run_requests floatCast junk rand fuel rs nd) mine node_ok.
Proof.
  revert nd mine. induction rs as [| r rs IH]; intros nd mine Hnd; [done |].
  eapply wp_seq; [by apply run_request_wp |]. intros nd' mine' Hnd'. by apply IH.
Qed.

(** * All nodes *)

(** A node that has stored nothing yet. *)
Record fresh_node (nd : node) : Prop := {
  fn_data : data_ok (backendData nd);
  fn_slot : forall n s, slots nd !! n = Some s ->
    id (fragment s) = None /\ backend_md s = None /\ saved s = None /\ injective_layout (dataspace (fragment s)) /\
    exists ptr m, buffered (fragment s) (memory nd) ptr m;
  fn_loaded : loadedSlot nd = None
}.

Lemma fresh_node_ok (nd : node) : fresh_node nd -> node_ok nd ∅.
Proof.
  intros [Hd Hs Hl]. constructor; [done | | |].
  - intros n s En. destruct (Hs n s En) as (H1 & H2 & H3 & H4 & H5). constructor; auto.
  - intros n k s t o En _ Ho _. destruct (Hs n s En) as (_ & H2 & _). by rewrite H2 in Ho.
  - intros n s c E. by rewrite Hl in E.
Qed.

(** The fragments of a node that has processed all its requests: each id leads to a block of the volume, the block
    holds the data of the last successful update, and a fragment that was just retrieved has it in its buffer. *)
Record node_result (v : volume) (nd : node) : Prop := {
  nr_place : forall n s o, slots nd !! n = Some s -> backend_md s = Some o ->
    fragment_metadata_load (fragment s) = Done o /\ exists i, 0 <= i < blockcount hd /\ o = blockOffset i;
  nr_saved : forall n s content, slots nd !! n = Some s -> saved s = Some content -> exists o, backend_md s = Some o /\
    forall p, in_cube p (extends (dataspace (fragment s))) ->
    fileElement (dataspace (fragment s)) (read_bytes (KdsaVolume.content v) o (bytes (fragment s))) p = content p;
  nr_loaded : forall n s content, loadedSlot nd = Some n -> slots nd !! n = Some s -> saved s = Some content ->
    exists actual, bufferContent (fragment s) (memory nd) = Some actual /\
    forall p, in_cube p (extends (dataspace (fragment s))) -> actual p = content p
}.

Lemma node_ok_result (v : volume) (owned : list owned_t) (n : nat) (mine : owned_t) (nd : node) :
  shared hd v owned -> owned !! n = Some mine -> node_ok nd mine -> node_result v nd.
Proof.
  intros Hsh En [_ Hslot _ Hloaded]. constructor; [| | exact Hloaded].
  - intros k s o Ek Eo. destruct (Hslot k s Ek) as [_ _ [(_ & E & _) | (i & c & (Hi & E & Hm) & _ & _)]]; rewrite Eo in E; [done |].
    injection E as ->. eauto.
  - intros k s content Ek Es. destruct (Hslot k s Ek) as [_ _ [(_ & _ & E) | (i & c & (Hi & E & Hm) & Hc & Hh)]]; [by rewrite Es in E |].
    exists (blockOffset i). split; [done |]. destruct (Hh content Es) as [Hl Hp]. rewrite <- Hl.
    destruct (sh_block _ _ _ Hsh n mine i c En Hc) as (_ & _ & _ & ->). done.
Qed.

(** The block of a fragment belongs to its node. *)
Lemma node_ok_owns (nd : node) (mine : owned_t) (n : nat) (s : slot) (o : Z) :
  node_ok nd mine -> slots nd !! n = Some s -> backend_md s = Some o -> exists i c, o = blockOffset i /\ mine !! i = Some c.
Proof.
  intros [_ Hslot _ _] En Eo. destruct (Hslot n s En) as [_ _ [(_ & E & _) | (i & c & (_ & E & _) & Hc & _)]]; rewrite Eo in E; [done |].
  injection E as ->. eauto.
Qed.

Definition programs (fuel : nat) (nodes : list (node * list request)) : list (prog node) :=
  (fun '(nd, rs) => run_requests floatCast junk rand fuel rs nd) <$> nodes.

Lemma nodes_together (v v' : volume) (fuel : nat) (nodes : list (node * list request)) (ps : list (prog node)) :
  (forall i, blockcount hd <= i < 64 * mapSize -> bitSet v i = true) -> Forall (fun nd => fresh_node nd.1) nodes ->
  rtc interleave (v, programs fuel nodes) (v', ps) ->
  exists owned, together hd (fun _ => node_ok) v' ps owned.
Proof.
  intros Hres Hfresh Hsteps. apply (together_steps hd Hgeo (fun _ => node_ok) _ _ (replicate (length nodes) ∅) Hsteps). cbn [fst snd]. constructor.
  - unfold programs. by rewrite length_replicate, length_fmap.
  - constructor; [done | |].
    + intros n mine i c [-> _]%lookup_replicate. done.
    + intros n m a b _ [-> _]%lookup_replicate _. apply map_disjoint_empty_l.
  - intros n p mine Ep [-> _]%lookup_replicate. unfold programs in Ep. rewrite list_lookup_fmap in Ep.
    destruct (nodes !! n) as [[nd rs] |] eqn:En; [| done]. injection Ep as <-. apply run_requests_wp, fresh_node_ok.
    by apply (Forall_lookup_1 _ _ _ _ Hfresh En).
Qed.

(** C21: Any number of nodes that share a KDSA volume update, retrieve and delete fragments, in any interleaving of their
    accesses to the volume, with failing accesses and with outdated copies of the bitmap: no node runs into
    undefined behaviour, no two fragments ever share a byte of the volume, and
    at the end each block holds what its node last stored, and retrievals returned it.  Fragments in
    every 32nd block of a word of the bitmap are not deleted. *)
Theorem kdsa_nodes_safe (v v' : volume) (fuel : nat) (nodes : list (node * list request)) (ps : list (prog node)) :
  (forall i, blockcount hd <= i < 64 * mapSize -> bitSet v i = true) -> Forall (fun nd => fresh_node nd.1) nodes ->
  rtc interleave (v, programs fuel nodes) (v', ps) ->
  (forall n, ps !! n <> Some (Return Undef)) /\
  (forall n nd, ps !! n = Some (Return (Done nd)) -> node_result v' nd) /\
  (forall n k nd ne a b s t o o' x y, ps !! n = Some (Return (Done nd)) -> ps !! k = Some (Return (Done ne)) ->
     slots nd !! a = Some s -> slots ne !! b = Some t -> backend_md s = Some o -> backend_md t = Some o' -> (n, a) <> (k, b) ->
     0 <= x < blocksize hd -> 0 <= y < blocksize hd -> o + x <> o' + y).
Proof.
  intros Hres Hfresh Hsteps. destruct (nodes_together v v' fuel nodes ps Hres Hfresh Hsteps) as (owned & [Hl Hsh Hwp]).
  assert (Hown : forall n p, ps !! n = Some p -> exists mine, owned !! n = Some mine /\ wp p mine node_ok).
  { intros n p Ep. destruct (lookup_lt_is_Some_2 owned n) as [mine Em]; [rewrite Hl; by eapply lookup_lt_Some |]. exists mine. split; [done |]. by apply (Hwp n). }
  split; [| split].
  - intros n E. by destruct (Hown n _ E) as (mine & _ & Hf).
  - intros n nd E. destruct (Hown n _ E) as (mine & Em & Hnd). by apply (node_ok_result v' owned n mine).
  - intros n k nd ne a b s t o o' x y E1 E2 Ea Eb Eo Eo' Hne Hx Hy. destruct (Hown n _ E1) as (mine & Em & Hnd), (Hown k _ E2) as (mine' & Em' & Hne').
    destruct (node_ok_owns nd mine a s o Hnd Ea Eo) as (i & c & -> & Hi), (node_ok_owns ne mine' b t o' Hne' Eb Eo') as (j & c' & -> & Hj).
    apply (blocks_apart hd); [| done | done]. intros <-. destruct (decide (n = k)) as [-> | Hnk].
    + rewrite E1 in E2. injection E2 as <-. apply Hne. f_equal. by apply (no_apart nd mine Hnd a b s t (blockOffset i)).
    + pose proof (sh_disjoint _ _ _ Hsh n k mine mine' Hnk Em Em') as Hd. rewrite map_disjoint_spec in Hd. by apply (Hd i c c').
Qed.
End Nodes.

(** * An example *)

(** Two nodes with the same copy of the bitmap of a volume of three blocks. *)
Module TwoNodes.

Definition hd : kdsa_persistent_header_t := Header ESDM_MAGIC 8 3 64.

Definition vol : volume := Volume (fun a => if a =? 32 then 248 else if (32 <? a) && (a <? 40) then 255 else 0) 88.

Definition piece : esdm_fragment_t :=
  Fragment None "dst" (Dataspace SMD_DTYPE_INT16 2 [2; 2] [0; 3] false None) (Some 0%nat) (Some (0%nat, 4)) 4 8 SIZE_NONE ESDM_DATA_DIRTY false.

Definition start (byte : Z) : node :=
  Node (BackendData 88 hd (Some [2 ^ 64 - 8]) 3 0) {[0%nat := fun _ => byte]} [Slot piece None None] None.

Definition nodes : list (node * list request) :=
  [(start 1, [UpdateFragment 0; ChangeBuffer 0 (fun _ => 0); RetrieveFragment 0]);
   (start 2, [UpdateFragment 0; ChangeBuffer 0 (fun _ => 0); RetrieveFragment 0; DeleteFragment 0; UpdateFragment 0])].

Definition rand (_ : nat) : Z := 0.

Lemma geometry : geometry_ok hd.
Proof. constructor; vm_compute; repeat split; discriminate. Qed.

Lemma formatted (i : Z) : blockcount hd <= i < 64 * mapSize hd -> bitSet vol i = true.
Proof.
  intros Hi. change (3 <= i < 64) in Hi. unfold bitSet. rewrite Z.div_small, Z.mod_small by lia. change (Z.testbit (2 ^ 64 - 8) i = true).
  assert (H : forallb (fun i => (i <? 3)%nat || Z.testbit (2 ^ 64 - 8) (Z.of_nat i)) (seq 0 64) = true) by (vm_compute; reflexivity).
  rewrite forallb_forall in H. specialize (H (Z.to_nat i) ltac:(apply in_seq; lia)). rewrite Z2Nat.id in H by lia.
  destruct (Nat.ltb_spec (Z.to_nat i) 3); [lia | done].
Qed.

Lemma piece_ok : fragment_ok piece.
Proof.
  constructor; [solve_id | done | solve_data_space | done | done | solve_backend].
Qed.

Lemma start_fresh (byte : Z) : fresh_node hd (start byte).
Proof.
  constructor; [| | done].
  - constructor; [done |]. by exists [2 ^ 64 - 8].
  - intros n s. destruct n; [| done]. intros [= <-]. repeat (split; [done |]). split.
    + apply (contiguous_injective (dataspace piece)), (fr_space _ piece_ok).
    + exists (0%nat, 4), (fun _ => byte). constructor; [apply piece_ok | done | done].
Qed.

(** The second node loses the race for the first block. *)
Definition final : volume * list (prog node) :=
  schedule [0; 1; 1; 0; 1; 1; 0; 1; 1; 1; 1]%nat (vol, programs zeroCast (fun _ => 0) rand 3 nodes).

Definition offsets (p : prog node) : list (option Z) :=
  match p with Return (Done nd) => backend_md <$> slots nd | _ => [] end.

Lemma final_offsets : offsets <$> final.2 = [[Some 64]; [Some 72]].
Proof. vm_compute. reflexivity. Qed.

End TwoNodes.

(** Two nodes that race for a block get different ones, and both read their data. *)
Lemma kdsa_nodes_safe_witness :
  TwoNodes.offsets <$> TwoNodes.final.2 = [[Some 64]; [Some 72]] /\
  (forall n nd, TwoNodes.final.2 !! n = Some (Return (Done nd)) -> node_result TwoNodes.hd TwoNodes.final.1 nd).
Proof.
  split; [exact TwoNodes.final_offsets |].
  destruct (kdsa_nodes_safe zeroCast (fun _ => 0) TwoNodes.rand length_zeroCast TwoNodes.hd TwoNodes.geometry TwoNodes.vol TwoNodes.final.1 3
              TwoNodes.nodes TwoNodes.final.2) as (_ & Hr & _).
  - exact TwoNodes.formatted.
  - constructor; [apply TwoNodes.start_fresh | constructor; [apply TwoNodes.start_fresh | constructor]].
  - rewrite <- (surjective_pairing TwoNodes.final). apply schedule_interleaves.
  - exact Hr.
Defined.
