(* ===== verification/KdsaAlloc.v ===== *)
(** The KDSA backend on a volume that no other node changes: the search for a free block, the effect
    of a deletion, and formatting. *)

From S2P Require Import Prelude Memory Json Dataspace Convert Fragment KdsaVolume Kdsa KdsaLogic KdsaClients.

Open Scope Z_scope.

(** * The bitmap of a node *)

Section Alloc.

Context (rand : nat -> Z).
Context (hd : kdsa_persistent_header_t) (Hgeo : geometry_ok hd).

Abbreviation mapSize := (mapSize hd).
Abbreviation blockOffset := (blockOffset hd).

Definition wordOffset (pos : Z) : Z := headerSize + 8 * pos.

(** The bitmap in the volume. *)
Definition wordsIn (v : volume) : list Z := (fun i => loadWord v (wordOffset (Z.of_nat i))) <$> seq 0 (Z.to_nat mapSize).

(** A volume with a bitmap in which the bits behind the last block are set. *)
Record bitmap_ok (v : volume) : Prop := {
  bm_extent : headerSize + 8 * mapSize <= extent v;
  bm_range : Forall (fun w => 0 <= w < 2 ^ 64) (wordsIn v);
  bm_reserved : forall i, blockcount hd <= i < 64 * mapSize -> bitSet v i = true
}.

(** The node has an up to date copy. *)
Record synced (d : kdsa_backend_data_t) (v : volume) : Prop := {
  sy_header : header d = hd;
  sy_map : block_map d = Some (wordsIn v);
  sy_volume : bitmap_ok v
}.

(** One more block is in use, and nothing but its bit changed. *)
Record takes (v : volume) (i : Z) (v' : volume) : Prop := {
  ta_block : 0 <= i < blockcount hd;
  ta_free : bitSet v i = false;
  ta_bits : forall j, 0 <= j < 64 * mapSize -> bitSet v' j = bitSet v j || (j =? i);
  ta_data : forall a, ~ (headerSize <= a < headerSize + 8 * mapSize) -> content v' a = content v a
}.

Lemma lookup_wordsIn (v : volume) (pos : Z) : 0 <= pos < mapSize -> wordsIn v !! Z.to_nat pos = Some (loadWord v (wordOffset pos)).
Proof. intros Hp. unfold wordsIn. rewrite list_lookup_fmap, lookup_seq_lt by lia. cbn. by rewrite Z2Nat.id by lia. Qed.

Lemma word_range (v : volume) (pos : Z) : bitmap_ok v -> 0 <= pos < mapSize -> 0 <= loadWord v (wordOffset pos) < 2 ^ 64.
Proof. intros [_ Hr _] Hp. by apply (Forall_lookup_1 _ _ _ _ Hr (lookup_wordsIn v pos Hp)). Qed.

(** The atomic operation with an up to date word. *)
Lemma swap_ok (v : volume) (pos new : Z) :
  bitmap_ok v -> 0 <= pos < mapSize -> 0 <= new < 2 ^ 64 ->
  exists v', kdsa_compare_and_swap (wordOffset pos) (loadWord v (wordOffset pos)) new v = Done (loadWord v (wordOffset pos), v') /\
  wordsIn v' = <[Z.to_nat pos := new]> (wordsIn v) /\ extent v' = extent v /\
  (forall a, ~ (wordOffset pos <= a < wordOffset pos + 8) -> content v' a = content v a).
Proof.
  intros Hv Hp Hnew. assert (Eread : pread (wordOffset pos) 8 v = read_bytes (content v) (wordOffset pos) 8).
  { unfold pread. f_equal. pose proof (bm_extent v Hv). unfold wordOffset in *. lia. }
  exists (pwrite (wordOffset pos) (encode 8 new) v). unfold kdsa_compare_and_swap. rewrite Eread, eassert_true by apply Nat.eqb_refl.
  change (decode_unsigned (read_bytes (content v) (wordOffset pos) 8)) with (loadWord v (wordOffset pos)). rewrite bind_done, Z.eqb_refl.
  split; [done |].
  assert (Hout : forall a, ~ (wordOffset pos <= a < wordOffset pos + 8) -> content (pwrite (wordOffset pos) (encode 8 new) v) a = content v a).
  { intros a Ha. rewrite pwrite_content. apply write_bytes_out. by rewrite length_encode. }
  split; [| split; [| exact Hout]].
  - apply list_eq. intros i. destruct (decide (i = Z.to_nat pos)) as [-> | Hne].
    + rewrite list_lookup_insert_eq by (unfold wordsIn; rewrite length_fmap, length_seq; lia). rewrite lookup_wordsIn by done. f_equal.
      unfold loadWord. rewrite (read_bytes_ext _ (write_bytes (content v) (wordOffset pos) (encode 8 new))) by (intros; apply pwrite_content).
      change 8 with (Z.of_nat 8) at 1. rewrite <- (length_encode 8 new) at 1. rewrite read_write_bytes, decode_unsigned_encode. by apply Z.mod_small.
    + rewrite list_lookup_insert_ne by done. unfold wordsIn. rewrite !list_lookup_fmap. destruct (seq 0 _ !! i) as [j |] eqn:Ej; [| done].
      apply lookup_seq in Ej as [-> Hj]. cbn. f_equal. apply loadWord_ext. intros a Ha. apply Hout. unfold wordOffset in *. lia.
  - pose proof (bm_extent v Hv). cbn [pwrite encode extent length]. unfold wordOffset in *. lia.
Qed.

Lemma bitSet_update (v v' : volume) (pos new j : Z) :
  wordsIn v' = <[Z.to_nat pos := new]> (wordsIn v) -> 0 <= pos < mapSize -> 0 <= j < 64 * mapSize ->
  bitSet v' j = if decide (j / 64 = pos) then Z.testbit new (j mod 64) else bitSet v j.
Proof.
  intros Ew Hp Hj. assert (Hj' : 0 <= j / 64 < mapSize) by (split; [apply Z.div_pos; lia | apply Z.div_lt_upper_bound; lia]).
  pose proof (lookup_wordsIn v' (j / 64) Hj') as E. rewrite Ew in E. unfold bitSet. fold (wordOffset (j / 64)). case_decide as Hd.
  - rewrite Hd in *. rewrite list_lookup_insert_eq in E by (unfold wordsIn; rewrite length_fmap, length_seq; lia). by injection E as <-.
  - rewrite list_lookup_insert_ne, lookup_wordsIn in E by lia. by injection E as <-.
Qed.

Lemma word_lor (w b : Z) : 0 <= w < 2 ^ 64 -> 0 <= b < 64 -> 0 <= Z.lor w (Z.shiftl 1 b) < 2 ^ 64.
Proof.
  intros Hw Hb. assert (0 <= Z.shiftl 1 b) by (apply Z.shiftl_nonneg; lia). assert (H0 : 0 <= Z.lor w (Z.shiftl 1 b)) by (apply Z.lor_nonneg; lia).
  split; [done |]. apply Z.bounded_iff_bits_nonneg; [lia | done |]. intros l Hl.
  rewrite Z.lor_spec, Z.shiftl_spec by lia. apply orb_false_iff. split.
  - revert l Hl. apply Z.bounded_iff_bits_nonneg; lia.
  - apply (Z.bounded_iff_bits_nonneg 1 1); lia.
Qed.

(** Setting the bit of a free block. *)
Lemma swap_takes (v v' : volume) (pos b : Z) :
  bitmap_ok v -> 0 <= pos < mapSize -> 0 <= b < 64 -> Z.testbit (loadWord v (wordOffset pos)) b = false ->
  wordsIn v' = <[Z.to_nat pos := Z.lor (loadWord v (wordOffset pos)) (Z.shiftl 1 b)]> (wordsIn v) -> extent v' = extent v ->
  (forall a, ~ (wordOffset pos <= a < wordOffset pos + 8) -> content v' a = content v a) ->
  takes v (64 * pos + b) v' /\ bitmap_ok v'.
Proof.
  intros Hv Hp Hb Hclear Ew Ee Hout. pose proof (word_range v pos Hv Hp) as Hw. pose proof (mapSize_count hd Hgeo) as [Hms _].
  pose proof (ge_count hd Hgeo) as Hcount. set (w := loadWord v (wordOffset pos)) in *.
  assert (Hdiv : (64 * pos + b) / 64 = pos) by (rewrite Z.mul_comm, Z.div_add_l, Z.div_small; lia).
  assert (Hmod : (64 * pos + b) mod 64 = b) by (rewrite Z.add_comm, Z.mul_comm, Z.mod_add, Z.mod_small; lia).
  assert (Hfree : bitSet v (64 * pos + b) = false) by (unfold bitSet; by rewrite Hdiv, Hmod).
  assert (Hbits : forall j, 0 <= j < 64 * mapSize -> bitSet v' j = bitSet v j || (j =? 64 * pos + b)).
  { intros j Hj. rewrite (bitSet_update v v' pos _ j Ew Hp Hj). case_decide as Hd.
    - destruct (block_bit j pos Hd) as [Ej Hm]. rewrite Z.lor_spec, Z.shiftl_spec by lia. unfold bitSet. rewrite Hd. fold (wordOffset pos). fold w. f_equal.
      destruct (Z.eqb_spec j (64 * pos + b)) as [-> |]; [by rewrite Hmod, Z.sub_diag |].
      assert (j mod 64 - b <> 0) by lia. by destruct (j mod 64 - b).
    - destruct (Z.eqb_spec j (64 * pos + b)) as [-> |]; [done |]. by rewrite orb_false_r. }
  assert (Hlt : 64 * pos + b < blockcount hd).
  { destruct (Z.lt_ge_cases (64 * pos + b) (blockcount hd)) as [| Hge]; [done |]. rewrite (bm_reserved v Hv) in Hfree by lia. done. }
  split; [constructor; [lia | done | done |] | constructor].
  - intros a Ha. apply Hout. unfold wordOffset. lia.
  - rewrite Ee. apply (bm_extent v Hv).
  - rewrite Ew. apply Forall_insert; [apply (bm_range v Hv) | by apply word_lor].
  - intros i Hi. rewrite Hbits by lia. by rewrite (bm_reserved v Hv).
Qed.

(** * The search for a free block *)

(** The result of trying: a block, or nothing happened and [full] holds. *)
Definition tried (full : Prop) (d : kdsa_backend_data_t) (v : volume) (r : outcome (Z * kdsa_backend_data_t * volume)) : Prop :=
  exists o d' v', r = Done (o, d', v') /\ synced d' v' /\ free_blocks_estimate d' = free_blocks_estimate d /\
  ((o = 0 /\ v' = v /\ full) \/ exists i, o = blockOffset i /\ takes v i v').

Lemma all_ones (b : Z) : 0 <= b < 64 -> Z.testbit UINT64_MAX b = true.
Proof. intros Hb. change UINT64_MAX with (Z.ones 64). apply Z.ones_spec_low. lia. Qed.

Lemma try_bits_exec (d : kdsa_backend_data_t) (v : volume) (pos : Z) (bits : list nat) :
  synced d v -> 0 <= pos < mapSize -> Forall (fun b => (b < 64)%nat) bits ->
  tried (Forall (fun b => Z.testbit (loadWord v (wordOffset pos)) (Z.of_nat b) = true) bits) d v (exec (try_bits d pos bits) v).
Proof.
  intros Hs Hp Hbits. pose proof Hs as [Hh Em Hv]. set (w := loadWord v (wordOffset pos)).
  induction Hbits as [| b bits Hb Hbits IH]; [exists 0, d, v; repeat (split; [done |]); by left |].
  cbn [try_bits]. rewrite Em. cbn [deref]. rewrite exec_bind. cbn [exec]. rewrite !bind_done.
  rewrite lookup_wordsIn by done. cbn [deref]. rewrite exec_bind. cbn [exec]. rewrite !bind_done. fold w.
  destruct (Z.eqb_spec w UINT64_MAX) as [Emax |].
  { exists 0, d, v. repeat (split; [done |]). left. split; [done |]. split; [done |]. rewrite Emax. constructor; [apply all_ones; lia |].
    eapply Forall_impl; [exact Hbits |]. cbn beta. intros x Hx. apply all_ones. lia. }
  destruct (Z.testbit (Z.lnot w) (Z.of_nat b)) eqn:Eb.
  - rewrite Z.lnot_spec in Eb by lia. apply negb_true_iff in Eb. pose proof (word_range v pos Hv Hp) as Hw. fold w in Hw.
    destruct (swap_ok v pos (Z.lor w (Z.shiftl 1 (Z.of_nat b))) Hv Hp) as (v' & Esw & Ew & Ee & Hout); [apply word_lor; lia |].
    pose proof (mapSize_bound hd Hgeo) as Hms.
    replace (u64 (pos * 8 + headerSize)) with (wordOffset pos) by (unfold u64, wordOffset, headerSize; rewrite Z.mod_small; lia).
    rewrite exec_bind. cbn [exec kswap]. fold w in Esw. rewrite Esw. cbn [mbind outcome_bind mret outcome_ret prog_ret exec].
    rewrite Z.eqb_refl. cbn [exec mret prog_ret mbind outcome_bind outcome_ret].
    destruct (swap_takes v v' pos (Z.of_nat b) Hv Hp ltac:(lia) Eb Ew Ee Hout) as [Ht Hv'].
    eexists _, _, _. split; [reflexivity |]. split; [constructor; [done | by rewrite Ew | done] |]. split; [done |]. right.
    exists (64 * pos + Z.of_nat b). split; [| done]. cbn [withMap header]. rewrite Hh.
    rewrite <- (proj2 (blockOffset_word hd Hgeo (64 * pos + Z.of_nat b) (ta_block _ _ _ Ht))). f_equal. unfold KdsaLogic.blockOffset. lia.
  - rewrite Z.lnot_spec in Eb by lia. apply negb_false_iff in Eb. destruct IH as (o & d' & v' & E & Hs' & Hest & Hcase).
    exists o, d', v'. split; [done |]. split; [done |]. split; [done |]. destruct Hcase as [(Ho & Hv0 & Hall) |]; [left | by right]. by repeat constructor.
Qed.

Definition wordFull (v : volume) (pos : Z) : Prop := forall b, 0 <= b < 64 -> bitSet v (64 * pos + b) = true.

Lemma tried_mono (full full' : Prop) (d d' : kdsa_backend_data_t) (v : volume) (r : outcome (Z * kdsa_backend_data_t * volume)) :
  tried full d v r -> (full -> full') -> free_blocks_estimate d' = free_blocks_estimate d -> tried full' d' v r.
Proof. intros (o & d1 & v1 & -> & Hs & He & Hc) Hf Hd. exists o, d1, v1. rewrite Hd. naive_solver. Qed.

Lemma try_to_use_block_exec (d : kdsa_backend_data_t) (v : volume) (pos : Z) :
  synced d v -> 0 <= pos < mapSize -> tried (wordFull v pos) d v (exec (try_to_use_block d pos) v).
Proof.
  intros Hs Hp. eapply tried_mono; [apply try_bits_exec; [done | done |] | | done].
  - apply Forall_forall. intros b Hb%elem_of_seq. lia.
  - intros Hall b Hb. unfold bitSet. replace ((64 * pos + b) / 64) with pos by (rewrite Z.mul_comm, Z.div_add_l, Z.div_small; lia).
    replace ((64 * pos + b) mod 64) with b by (rewrite Z.add_comm, Z.mul_comm, Z.mod_add, Z.mod_small; lia).
    rewrite <- (Z2Nat.id b) by lia. apply (Forall_lookup_1 _ _ (Z.to_nat b) (Z.to_nat b) Hall). rewrite lookup_seq_lt by lia. done.
Qed.

Lemma tried_next (full full' : Prop) (d : kdsa_backend_data_t) (v : volume) (p : prog (Z * kdsa_backend_data_t))
    (q : kdsa_backend_data_t -> prog (Z * kdsa_backend_data_t)) :
  tried full d v (exec p v) ->
  (forall d', synced d' v -> free_blocks_estimate d' = free_blocks_estimate d -> tried full' d' v (exec (q d') v)) ->
  tried (full /\ full') d v (exec ('(offset, d) ← p; if negb (offset =? 0) then mret (offset, d) else q d) v).
Proof.
  intros (o & d1 & v1 & E & Hs & He & Hc) Hq. rewrite exec_bind, E. cbn [mbind outcome_bind].
  destruct Hc as [(-> & -> & Hf) | (i & -> & Ht)].
  - cbn [Z.eqb negb]. destruct (Hq d1 Hs He) as (o2 & d2 & v2 & E2 & Hs2 & He2 & Hc2). exists o2, d2, v2. rewrite He in He2. naive_solver.
  - pose proof (blockOffset_word hd Hgeo i (ta_block _ _ _ Ht)) as [Hb _]. destruct (Z.eqb_spec (blockOffset i) 0); [lia |].
    exists (blockOffset i), d1, v1. repeat (split; [done |]). right. by exists i.
Qed.

Lemma synced_same (d : kdsa_backend_data_t) (v : volume) (e : Z) (r : nat) :
  synced d v -> synced (BackendData (kdsa_size d) (header d) (block_map d) e r) v.
Proof. by intros [? ? ?]. Qed.

Lemma randomPos_exec (d : kdsa_backend_data_t) (v : volume) : exists pos d', exec (randomPos rand mapSize d) v = Done (pos, d', v) /\
  0 <= pos < mapSize /\ free_blocks_estimate d' = free_blocks_estimate d /\ (synced d v -> synced d' v).
Proof.
  pose proof (mapSize_bound hd Hgeo). unfold randomPos. destruct (Z.eqb_spec mapSize 0); [lia |]. eexists _, _. split; [reflexivity |].
  split; [apply Z.mod_pos_bound; lia |]. split; [done | apply synced_same].
Qed.

Lemma random_tries_exec (n : nat) (d : kdsa_backend_data_t) (v : volume) :
  synced d v -> tried True d v (exec (random_tries rand n mapSize d) v).
Proof.
  revert d. induction n as [| n IH]; intros d Hs; [exists 0, d, v; repeat (split; [done |]); by left |]. cbn [random_tries].
  destruct (randomPos_exec d v) as (pos & d1 & E & Hp & He & Hs1). rewrite exec_bind, E. cbn [mbind outcome_bind].
  eapply tried_mono; [apply (tried_next (wordFull v pos) True d1 v _ (random_tries rand n mapSize)); [apply try_to_use_block_exec; [by apply Hs1 | done] |] | done | done].
  intros d' Hs' _. by apply IH.
Qed.

Lemma sequential_tries_exec (todo : list nat) (pos : Z) (d : kdsa_backend_data_t) (v : volume) :
  synced d v -> 0 <= pos < mapSize -> Forall (fun i => Z.of_nat i < 2 ^ 31) todo ->
  tried (Forall (fun i => wordFull v ((Z.of_nat i + pos) mod mapSize)) todo) d v (exec (sequential_tries todo mapSize pos d) v).
Proof.
  intros Hs Hp Htodo. pose proof (mapSize_bound hd Hgeo). revert d Hs. induction Htodo as [| i todo Hi _ IH]; intros d Hs.
  { exists 0, d, v. repeat (split; [done |]). by left. }
  cbn [sequential_tries]. destruct (Z.leb_spec (2 ^ 31) (Z.of_nat i)); [lia |].
  eapply tried_mono; [| intros Hf; apply Forall_cons; exact Hf | done].
  apply (tried_next _ _ d v _ (sequential_tries todo mapSize pos)); [| intros d' Hs' _; by apply IH].
  assert (Hu : u64 (Z.of_nat i + pos) = Z.of_nat i + pos) by (apply Z.mod_small; lia). rewrite Hu.
  apply try_to_use_block_exec; [done |]. apply Z.mod_pos_bound. lia.
Qed.

(** Every word is visited. *)
Lemma rotation_covers (v : volume) (pos : Z) :
  0 <= pos < mapSize -> Forall (fun i => wordFull v ((Z.of_nat i + pos) mod mapSize)) (seq 0 (Z.to_nat mapSize)) ->
  forall j, 0 <= j < 64 * mapSize -> bitSet v j = true.
Proof.
  intros Hp Hall j Hj. assert (Hw : 0 <= j / 64 < mapSize) by (split; [apply Z.div_pos; lia | apply Z.div_lt_upper_bound; lia]).
  destruct (block_bit j (j / 64) eq_refl) as [Ej Hb]. set (i := (j / 64 - pos) mod mapSize).
  pose proof (Z.mod_pos_bound (j / 64 - pos) mapSize ltac:(lia)) as Hi. fold i in Hi.
  assert (E : (i + pos) mod mapSize = j / 64).
  { unfold i. rewrite Zplus_mod_idemp_l. replace (j / 64 - pos + pos) with (j / 64) by lia. apply Z.mod_small. lia. }
  pose proof (Forall_lookup_1 _ _ (Z.to_nat i) (Z.to_nat i) Hall) as Hf. rewrite Ej. cbn beta in Hf. rewrite Z2Nat.id, E in Hf by lia.
  apply Hf; [rewrite lookup_seq_lt by lia; done | done].
Qed.

(** * Loading the bitmap *)

Lemma take_drop_read (m : mem) (a n : Z) (k j : nat) :
  (k + j <= Z.to_nat n)%nat -> take j (drop k (read_bytes m a n)) = read_bytes m (a + Z.of_nat k) (Z.of_nat j).
Proof.
  intros Hk. apply list_eq. intros i. destruct (decide (i < j)%nat) as [Hi | Hi].
  - rewrite lookup_take_lt, lookup_drop by done. pose proof (lookup_read_bytes m a n (Z.of_nat (k + i)) ltac:(lia)) as E1.
    pose proof (lookup_read_bytes m (a + Z.of_nat k) (Z.of_nat j) (Z.of_nat i) ltac:(lia)) as E2. rewrite Nat2Z.id in E1, E2. rewrite E1, E2.
    do 2 f_equal. lia.
  - rewrite lookup_take_ge by lia. symmetry. apply lookup_ge_None_2. unfold read_bytes. rewrite length_fmap, length_seq. lia.
Qed.

Lemma wordsOf_read (v : volume) : wordsOf (Z.to_nat mapSize) (read_bytes (content v) headerSize (mapSize * 8)) = wordsIn v.
Proof.
  unfold wordsOf, wordsIn. apply list_fmap_ext. intros k i [-> Hi]%lookup_seq. unfold wordAt, loadWord. f_equal.
  rewrite take_drop_read by lia. f_equal. unfold wordOffset. lia.
Qed.

Lemma count_bits_spec (n : nat) (val freeb : Z) :
  freeb <= count_bits n val freeb /\ (count_bits n val freeb = freeb -> forall b, 0 <= b < Z.of_nat n -> Z.testbit val b = false).
Proof.
  revert val freeb. induction n as [| n IH]; intros val freeb; cbn [count_bits]; [split; [lia |]; lia |].
  destruct (IH (Z.shiftr val 1) (if Z.testbit val 0 then freeb + 1 else freeb)) as [Hle Heq].
  destruct (Z.testbit val 0) eqn:E0; [split; [lia |]; lia |]. split; [done |]. intros E b Hb. destruct (decide (b = 0)) as [-> | Hne]; [done |].
  specialize (Heq E (b - 1) ltac:(lia)). rewrite Z.shiftr_spec in Heq by lia. by replace (b - 1 + 1) with b in Heq by lia.
Qed.

Lemma count_free_zero (map : list Z) : count_free map = 0 -> Forall (fun w => forall b, 0 <= b < 64 -> Z.testbit w b = true) map.
Proof.
  unfold count_free. set (f := fun freeb w => count_bits 64 (Z.land (Z.lnot w) UINT64_MAX) freeb).
  assert (Hmono : forall l n, n <= foldl f n l).
  { induction l as [| w l IH]; intros n; cbn [foldl]; [lia |]. etrans; [| apply IH]. apply (count_bits_spec 64). }
  enough (H : forall n, foldl f n map = n -> Forall (fun w => forall b, 0 <= b < 64 -> Z.testbit w b = true) map) by apply H.
  induction map as [| w map IH]; intros n E; [constructor |]. cbn [foldl] in E. pose proof (Hmono map (f n w)) as H1.
  destruct (count_bits_spec 64 (Z.land (Z.lnot w) UINT64_MAX) n) as [H2 H3]. fold (f n w) in H2, H3.
  assert (Ef : f n w = n) by lia. constructor; [| apply (IH n); by rewrite Ef in E].
  intros b Hb. specialize (H3 Ef b ltac:(lia)). rewrite Z.land_spec, all_ones, Z.lnot_spec, andb_true_r in H3 by lia. by apply negb_false_iff in H3.
Qed.

(** Loading makes the copy up to date, and counts the free blocks. *)
Lemma load_block_bitmap_exec (d : kdsa_backend_data_t) (v : volume) :
  data_ok hd d -> bitmap_ok v ->
  exists d', exec (load_block_bitmap d) v = Done (0, d', v) /\ synced d' v /\
  (free_blocks_estimate d' = 0 -> forall j, 0 <= j < 64 * mapSize -> bitSet v j = true).
Proof.
  intros [Hh (m & Em & Hl)] Hv. unfold load_block_bitmap. rewrite Em, Hh. change (calc_block_map_size (blockcount hd)) with mapSize.
  pose proof (mapSize_bound hd Hgeo) as Hms. pose proof (bm_extent v Hv) as Hext.
  rewrite exec_bind. cbn [exec kread]. cbn [mret prog_ret exec mbind outcome_bind outcome_ret deref]. rewrite exec_bind. cbn [exec]. rewrite !bind_done.
  assert (Er : kdsa_read_unregistered headerSize (mapSize * 8) v = read_bytes (content v) headerSize (mapSize * 8)).
  { unfold kdsa_read_unregistered, pread. f_equal. lia. }
  rewrite Er. pose proof (length_read_bytes (content v) headerSize (mapSize * 8) ltac:(lia)) as Hlen.
  assert (Hb : (length (bytesOf m) <= length (read_bytes (content v) headerSize (mapSize * 8)))%nat).
  { enough (length (bytesOf m) = 8 * length m)%nat by lia. unfold bytesOf. clear.
    induction m as [| w m IH]; [done |]. cbn [mbind list_bind]. rewrite length_app, IH, length_encode. cbn [length]. lia. }
  rewrite drop_ge, app_nil_r by done. replace (length m) with (Z.to_nat mapSize) by lia. rewrite wordsOf_read, Hlen, Z.eqb_refl.
  eexists. split; [reflexivity |]. split; [by constructor |]. cbn [withEstimate free_blocks_estimate]. intros Hz%count_free_zero j Hj.
  assert (Hw : 0 <= j / 64 < mapSize) by (split; [apply Z.div_pos; lia | apply Z.div_lt_upper_bound; lia]).
  apply (Forall_lookup_1 _ _ _ _ Hz (lookup_wordsIn v (j / 64) Hw)). apply Z.mod_pos_bound. lia.
Qed.

Lemma synced_data (d : kdsa_backend_data_t) (v : volume) : synced d v -> data_ok hd d.
Proof.
  intros [Hh Em _]. constructor; [done |]. exists (wordsIn v). split; [done |]. unfold wordsIn. rewrite length_fmap, length_seq.
  pose proof (mapSize_bound hd Hgeo). lia.
Qed.

(** Random tries, then all words. *)
Lemma search_exec (d : kdsa_backend_data_t) (v : volume) :
  synced d v ->
  tried (forall j, 0 <= j < 64 * mapSize -> bitSet v j = true) d v
    (exec ('(offset, data) ← random_tries rand 30 mapSize d;
           if offset =? 0 then
             '(bitmap_pos, data) ← randomPos rand mapSize data;
             sequential_tries (seq 0 (Z.to_nat mapSize)) mapSize bitmap_pos data
           else mret (offset, data)) v).
Proof.
  intros Hs. destruct (random_tries_exec 30 d v Hs) as (o & d1 & v1 & E & Hs1 & He & Hcase). rewrite exec_bind, E. cbn [mbind outcome_bind].
  destruct Hcase as [(-> & -> & _) | (i & -> & Ht)].
  - cbn [Z.eqb]. destruct (randomPos_exec d1 v) as (pos & d2 & E2 & Hp & He2 & Hs2). rewrite exec_bind, E2. cbn [mbind outcome_bind].
    eapply tried_mono; [apply sequential_tries_exec; [by apply Hs2 | done |] | by apply rotation_covers | congruence].
    apply Forall_forall. intros i Hi%elem_of_seq. pose proof (mapSize_bound hd Hgeo). lia.
  - pose proof (blockOffset_word hd Hgeo i (ta_block _ _ _ Ht)) as [Hb _]. destruct (Z.eqb_spec (blockOffset i) 0); [lia |].
    exists (blockOffset i), d1, v1. repeat (split; [done |]). right. by exists i.
Qed.

(** C23: On a volume that no other node changes, with an up to date copy of the bitmap, [find_offset_to_store_fragment()] returns for all
    results of [rand()]: it returns 0 exactly when no block is free, and otherwise the offset of a free block, whose
    bit it sets, without any other change of the volume; the copy of the bitmap stays up to date. *)
Theorem find_offset_complete (d : kdsa_backend_data_t) (v : volume) :
  synced d v ->
  exists o d' v', exec (find_offset_to_store_fragment rand d) v = Done (o, d', v') /\ synced d' v' /\
  ((o = 0 /\ v' = v /\ forall i, 0 <= i < blockcount hd -> bitSet v i = true) \/
   (o <> 0 /\ exists i, o = blockOffset i /\ takes v i v')).
Proof.
  intros Hs. pose proof (ge_count hd Hgeo) as Hc. pose proof (mapSize_count hd Hgeo) as [Hms _]. unfold find_offset_to_store_fragment.
  rewrite (sy_header d v Hs). destruct (Z.eqb_spec (blockcount hd) 0); [lia |].
  assert (Hload : exists full d1, exec (if u64 (free_blocks_estimate d * 100) / blockcount hd <=? 3 then
      '(ret, data) ← load_block_bitmap d; mret (negb (ret =? 0) || (free_blocks_estimate data =? 0), data) else mret (false, d)) v =
      Done (full, d1, v) /\ synced d1 v /\ (full = true -> forall j, 0 <= j < 64 * mapSize -> bitSet v j = true)).
  { destruct (_ <=? 3); [| by exists false, d]. destruct (load_block_bitmap_exec d v (synced_data d v Hs) (sy_volume d v Hs)) as (d1 & E & Hs1 & Hz).
    rewrite exec_bind, E. eexists _, d1. split; [reflexivity |]. split; [done |]. intros Hf%Z.eqb_eq. by apply Hz. }
  destruct Hload as (full & d1 & E1 & Hs1 & Hfull). rewrite exec_bind, E1. cbn [mbind outcome_bind]. destruct full.
  { exists 0, d1, v. split; [done |]. split; [done |]. left. split; [done |]. split; [done |]. intros i Hi. apply Hfull; [done | lia]. }
  rewrite (sy_header d1 v Hs1). change (calc_block_map_size (blockcount hd)) with mapSize.
  destruct (search_exec d1 v Hs1) as (o & d2 & v2 & E2 & Hs2 & _ & Hcase). rewrite exec_bind in E2. rewrite exec_bind.
  destruct (exec (random_tries rand 30 mapSize d1) v) as [[[o1 d1'] v1'] | |]; [| done | done]. cbn [mbind outcome_bind] in E2 |- *.
  rewrite exec_bind, E2. cbn [mbind outcome_bind]. eexists o, _, v2. split; [reflexivity |].
  split; [destruct (negb (o =? 0)); [by apply synced_same | done] |].
  destruct Hcase as [(-> & -> & Hall) | (i & -> & Ht)]; [left | right].
  - split; [done |]. split; [done |]. intros i Hi. apply Hall. lia.
  - split; [pose proof (blockOffset_word hd Hgeo i (ta_block _ _ _ Ht)); lia |]. by exists i.
Qed.

(** * Deletion *)

Lemma word_land (w m : Z) : 0 <= w < 2 ^ 64 -> 0 <= Z.land w m < 2 ^ 64.
Proof.
  intros Hw. assert (H0 : 0 <= Z.land w m) by (apply Z.land_nonneg; lia). split; [done |].
  apply Z.bounded_iff_bits_nonneg; [lia | done |]. intros l Hl. rewrite Z.land_spec. apply andb_false_iff. left.
  revert l Hl. apply Z.bounded_iff_bits_nonneg; lia.
Qed.

(** The atomic operation with an outdated word. *)
Lemma swap_outdated (v : volume) (pos e new : Z) :
  bitmap_ok v -> 0 <= pos < mapSize -> e <> loadWord v (wordOffset pos) ->
  kdsa_compare_and_swap (wordOffset pos) e new v = Done (loadWord v (wordOffset pos), v).
Proof.
  intros Hv Hp Hne. unfold kdsa_compare_and_swap.
  assert (Eread : pread (wordOffset pos) 8 v = read_bytes (content v) (wordOffset pos) 8).
  { unfold pread. f_equal. pose proof (bm_extent v Hv). unfold wordOffset in *. lia. }
  rewrite Eread, eassert_true by apply Nat.eqb_refl. fold (loadWord v (wordOffset pos)). rewrite bind_done.
  destruct (Z.eqb_spec (loadWord v (wordOffset pos)) e); [congruence | done].
Qed.

(** One round of the loop. *)
Lemma delete_round (n : nat) (pos bit : Z) (d : kdsa_backend_data_t) (v : volume) (m : list Z) (e : Z) :
  0 <= pos < mapSize -> block_map d = Some m -> m !! Z.to_nat pos = Some e ->
  exec (delete_loop (S n) pos bit d) v =
  '(cur, v') ← kdsa_compare_and_swap (wordOffset pos) e (Z.land e bit) v;
  if cur =? e then Done (ESDM_SUCCESS, withMap d (<[Z.to_nat pos := Z.land e bit]> m), v')
  else exec (delete_loop n pos bit (withMap d (<[Z.to_nat pos := cur]> m))) v'.
Proof.
  intros Hp Em Ee. pose proof (mapSize_bound hd Hgeo).
  assert (Eoff : u64 (pos * 8 + headerSize) = wordOffset pos) by (unfold u64, wordOffset, headerSize; rewrite Z.mod_small; lia).
  cbn [delete_loop]. rewrite Em, Eoff. cbn [deref]. rewrite exec_bind. cbn [exec]. rewrite !bind_done, Ee. cbn [deref].
  rewrite exec_bind. cbn [exec]. rewrite !bind_done, exec_bind. cbn [exec kswap].
  destruct (kdsa_compare_and_swap (wordOffset pos) e (Z.land e bit) v) as [[cur v'] | |]; [| done | done].
  cbn [mbind outcome_bind mret outcome_ret prog_ret exec]. by destruct (cur =? e).
Qed.

(** [fragment_delete()] returns after at most two atomic operations, also with an outdated copy of the bitmap.  It frees the block of the
    fragment if that is one of the first 31 of its word, frees nothing if it is one of the last 32, and otherwise also frees
    all blocks that follow in the word, whoever they belong to. *)
Theorem delete_frees_others (fuel : nat) (d : kdsa_backend_data_t) (v : volume) (i : Z) :
  data_ok hd d -> bitmap_ok v -> 0 <= i < blockcount hd ->
  exists d' v', exec (fragment_delete (2 + fuel) (Some (blockOffset i)) d) v = Done (ESDM_SUCCESS, d', v') /\
  (forall a, ~ (headerSize <= a < headerSize + 8 * mapSize) -> content v' a = content v a) /\
  (forall j, 0 <= j < 64 * mapSize -> bitSet v' j = bitSet v j && (negb (j / 64 =? i / 64) || survives (i mod 64) (j mod 64))).
Proof.
  intros Hd Hv Hi. pose proof Hd as [Hh (m & Em & Hl)]. pose proof (ge_size hd Hgeo). pose proof (mapSize_bound hd Hgeo) as Hms.
  pose proof (mapSize_count hd Hgeo) as [Hcount _]. set (pos := i / 64).
  assert (Hp : 0 <= pos < mapSize) by (split; [apply Z.div_pos; lia | apply Z.div_lt_upper_bound; lia]).
  unfold fragment_delete. rewrite Hh. destruct (Z.eqb_spec (blocksize hd) 0); [lia |]. rewrite (block_of_offset hd Hgeo) by done. fold pos.
  set (w := loadWord v (wordOffset pos)). pose proof (word_range v pos Hv Hp) as Hw. fold w in Hw.
  destruct (swap_ok v pos (Z.land w (deleteMask i)) Hv Hp (word_land w _ Hw)) as (v' & Esw & Ew & Ee & Hout). fold w in Esw.
  assert (Hsuccess : forall n d0 m0, block_map d0 = Some m0 -> m0 !! Z.to_nat pos = Some w -> exists d', exec (delete_loop (S n) pos (deleteMask i) d0) v = Done (ESDM_SUCCESS, d', v')).
  { intros n0 d0 m0 Em0 Ew0. rewrite (delete_round n0 pos _ d0 v m0 w Hp Em0 Ew0), Esw. cbn [mbind outcome_bind]. rewrite Z.eqb_refl. eauto. }
  assert (Hrun : exists d', exec (delete_loop (2 + fuel) pos (deleteMask i) d) v = Done (ESDM_SUCCESS, d', v')).
  { destruct (lookup_lt_is_Some_2 m (Z.to_nat pos)) as [e Ee0]; [lia |]. destruct (decide (e = w)) as [-> | Hne]; [by apply (Hsuccess (S fuel) d m) |].
    rewrite (delete_round (S fuel) pos _ d v m e Hp Em Ee0), swap_outdated by done. cbn [mbind outcome_bind]. fold w.
    destruct (Z.eqb_spec w e); [done |]. apply (Hsuccess fuel _ (<[Z.to_nat pos := w]> m)); [done |]. apply list_lookup_insert_eq. lia. }
  destruct Hrun as (d' & E). exists d', v'. split; [done |]. split; [intros a Ha; apply Hout; unfold wordOffset; lia |].
  intros j Hj. rewrite (bitSet_update v v' pos _ j Ew Hp Hj). case_decide as Hjp.
  - destruct (block_bit j pos Hjp) as [_ Hb]. rewrite Z.land_spec, deleteMask_exact by done. unfold bitSet. rewrite Hjp, Z.eqb_refl. done.
  - destruct (Z.eqb_spec (j / 64) pos); [done |]. by rewrite andb_true_r.
Qed.
End Alloc.

(** The first of three blocks is found. *)
Lemma find_offset_complete_witness :
  exists o d' v', exec (find_offset_to_store_fragment (fun _ => 0) (backendData (TwoNodes.start 0))) TwoNodes.vol = Done (o, d', v') /\
  synced TwoNodes.hd d' v' /\ o = 64.
Proof.
  destruct (find_offset_complete (fun _ => 0) TwoNodes.hd TwoNodes.geometry (backendData (TwoNodes.start 0)) TwoNodes.vol) as (o & d' & v' & E & Hs & _).
  - constructor; [reflexivity | vm_compute; reflexivity |]. constructor; [vm_compute; discriminate | | exact TwoNodes.formatted].
    constructor; [vm_compute; split; [discriminate | reflexivity] | constructor].
  - exists o, d', v'. split; [exact E |]. split; [exact Hs |].
    apply (f_equal (fun r => match r with Done (o, _, _) => o | _ => 0 end)) in E. rewrite <- E. vm_compute. reflexivity.
Defined.
