(* ===== verification/KdsaFormat.v ===== *)
(** Formatting a volume for the KDSA backend and connecting to it. *)

From S2P Require Import Prelude Memory Json Dataspace Convert Fragment KdsaVolume Kdsa KdsaLogic KdsaClients KdsaAlloc.

Open Scope Z_scope.

(** * Words in bytes *)

Lemma length_bytesOf (words : list Z) : length (bytesOf words) = (8 * length words)%nat.
Proof. induction words as [| w words IH]; [done |]. cbn [bytesOf mbind list_bind]. fold (bytesOf words). rewrite length_app, IH, length_encode. cbn [length]. lia. Qed.

Lemma wordAt_bytesOf (words : list Z) (i : nat) (w : Z) :
  words !! i = Some w -> 0 <= w < 2 ^ 64 -> wordAt (bytesOf words) i = w.
Proof.
  intros Hi Hw. unfold wordAt. revert i Hi. induction words as [| x words IH]; intros i Hi; [done |].
  change (bytesOf (x :: words)) with (encode 8 x ++ bytesOf words)%list. destruct i as [| i].
  - injection Hi as ->. rewrite drop_0, take_app_length' by (by rewrite length_encode). rewrite decode_unsigned_encode. by apply Z.mod_small.
  - replace (8 * S i)%nat with (8 + 8 * i)%nat by lia. rewrite <- drop_drop, drop_app_length' by (by rewrite length_encode). by apply IH.
Qed.

Lemma wordsOf_bytesOf (words : list Z) : Forall (fun w => 0 <= w < 2 ^ 64) words -> wordsOf (length words) (bytesOf words) = words.
Proof.
  intros Hr. apply list_eq. intros i. unfold wordsOf. rewrite list_lookup_fmap. destruct (decide (i < length words)%nat) as [Hi | Hi].
  - rewrite lookup_seq_lt by done. destruct (lookup_lt_is_Some_2 words i Hi) as [w Ew]. rewrite Ew. cbn. f_equal.
    apply wordAt_bytesOf; [done |]. by apply (Forall_lookup_1 _ _ _ _ Hr Ew).
  - rewrite lookup_seq_ge by lia. rewrite lookup_ge_None_2 by lia. done.
Qed.

Lemma headerBytes_words (h : kdsa_persistent_header_t) :
  headerBytes h = bytesOf [magic h; blocksize h; blockcount h; offset_to_data h].
Proof. reflexivity. Qed.

Lemma headerOf_bytes (h : kdsa_persistent_header_t) :
  0 <= magic h < 2 ^ 64 -> 0 <= blocksize h < 2 ^ 64 -> 0 <= blockcount h < 2 ^ 64 -> 0 <= offset_to_data h < 2 ^ 64 ->
  headerOf (headerBytes h) = h.
Proof.
  intros H1 H2 H3 H4. rewrite headerBytes_words. unfold headerOf. destruct h as [m bs bc o]. cbn [magic blocksize blockcount offset_to_data] in *.
  f_equal; by apply wordAt_bytesOf.
Qed.

(** * The bits behind the last block *)

Lemma occupied_bits (n b : Z) : 0 <= n <= 64 -> 0 <= b < 64 -> Z.testbit (occupied (Z.to_nat n) 0) b = (64 - n <=? b).
Proof.
  intros Hn Hb.
  assert (H : forallb (fun n => forallb (fun b => Bool.eqb (Z.testbit (occupied n 0) (Z.of_nat b)) (64 - Z.of_nat n <=? Z.of_nat b)) (seq 0 64)) (seq 0 65) = true)
    by (vm_compute; reflexivity).
  rewrite forallb_forall in H. specialize (H (Z.to_nat n)). rewrite forallb_forall in H.
  specialize (H ltac:(apply in_seq; lia) (Z.to_nat b) ltac:(apply in_seq; lia)). rewrite !Z2Nat.id in H by lia. by apply eqb_prop.
Qed.

Lemma occupied_range (n : Z) : 0 <= n <= 64 -> 0 <= occupied (Z.to_nat n) 0 < 2 ^ 64.
Proof.
  intros Hn. assert (H : forallb (fun n => (0 <=? occupied n 0) && (occupied n 0 <? 2 ^ 64)) (seq 0 65) = true) by (vm_compute; reflexivity).
  rewrite forallb_forall in H. specialize (H (Z.to_nat n) ltac:(apply in_seq; lia)). lia.
Qed.

(** * Formatting *)

Section Format.

Context (data : kdsa_backend_data_t) (ignore_err : bool) (junkWord : Z).

Definition blocks : Z := calc_block_count (blocksize (header data)) (kdsa_size data).

(** The header [mkfs()] writes. *)
Definition newHeader : kdsa_persistent_header_t :=
  Header ESDM_MAGIC (blocksize (header data)) blocks ((headerSize + calc_block_map_size blocks * 8 + 63) / 64 * 64).

(** A block size that gives at least one block, and blocks that have 64 bit addresses. *)
Record formattable : Prop := {
  fo_size : 0 < blocksize (header data) < 2 ^ 64;
  fo_blocks : 0 < blocks < 2 ^ 37;
  fo_end : headerSize + calc_block_map_size blocks * 8 + 63 + blocks * blocksize (header data) < 2 ^ 64
}.

Context (Hok : formattable).

Lemma newHeader_geometry : geometry_ok newHeader.
Proof.
  destruct Hok as [Hs Hb He]. set (x := headerSize + calc_block_map_size blocks * 8) in *.
  pose proof (Z.div_mod (x + 63) 64 ltac:(lia)) as Hd. pose proof (Z.mod_pos_bound (x + 63) 64 ltac:(lia)) as Hm.
  constructor; unfold newHeader, mapSize; cbn [blocksize blockcount offset_to_data]; fold x; [lia | lia | | lia].
  unfold x in *. lia.
Qed.

(** The blocks [mkfs()] leaves free: the last 64 of them are lost when they fill the last word. *)
Definition usable : Z := 64 * (calc_block_map_size blocks - 1) + blocks mod 64.

Lemma usable_blocks : usable = if blocks mod 64 =? 0 then blocks - 64 else blocks.
Proof.
  pose proof (fo_blocks Hok) as Hb. unfold usable, calc_block_map_size, u64. rewrite Z.mod_small by lia.
  pose proof (Z.div_mod blocks 64 ltac:(lia)) as H1. pose proof (Z.mod_pos_bound blocks 64 ltac:(lia)) as H2.
  pose proof (Z.div_mod (blocks + 63) 64 ltac:(lia)) as H3. pose proof (Z.mod_pos_bound (blocks + 63) 64 ltac:(lia)) as H4.
  destruct (Z.eqb_spec (blocks mod 64) 0); lia.
Qed.

(** The bitmap [mkfs()] writes. *)
Definition newMap : list Z :=
  <[Z.to_nat (calc_block_map_size blocks - 1) := occupied (Z.to_nat (64 - blocks mod 64)) 0]> (replicate (Z.to_nat (calc_block_map_size blocks)) 0).

Lemma newMap_range : Forall (fun w => 0 <= w < 2 ^ 64) newMap.
Proof.
  apply Forall_insert; [apply Forall_replicate; lia |]. apply occupied_range. pose proof (Z.mod_pos_bound blocks 64 ltac:(lia)). lia.
Qed.

Lemma length_newMap : length newMap = Z.to_nat (mapSize newHeader).
Proof. unfold newMap. by rewrite length_insert, length_replicate. Qed.

(** The volume after formatting. *)
Definition formatted (v : volume) : volume := pwrite headerSize (bytesOf newMap) (pwrite 0 (headerBytes newHeader) v).

Lemma mapSize_newHeader : calc_block_map_size blocks = mapSize newHeader /\ 0 < mapSize newHeader <= 2 ^ 31.
Proof. split; [done |]. apply (mapSize_bound newHeader newHeader_geometry). Qed.

Lemma length_headerBytes (h : kdsa_persistent_header_t) : length (headerBytes h) = 32%nat.
Proof. by rewrite headerBytes_words, length_bytesOf. Qed.

Lemma length_mapBytes : Z.of_nat (length (bytesOf newMap)) = mapSize newHeader * 8.
Proof. rewrite length_bytesOf, length_newMap. pose proof mapSize_newHeader. lia. Qed.

Lemma formatted_content (v : volume) (a : Z) : content (formatted v) a =
  write_bytes (write_bytes (content v) 0 (headerBytes newHeader)) headerSize (bytesOf newMap) a.
Proof.
  unfold formatted. rewrite pwrite_content. unfold write_bytes. destruct (_ && _); [done |]. by rewrite pwrite_content.
Qed.

Lemma formatted_data (v : volume) (a : Z) : ~ (0 <= a < headerSize + mapSize newHeader * 8) -> content (formatted v) a = content v a.
Proof.
  intros Ha. pose proof mapSize_newHeader. rewrite formatted_content, !write_bytes_out; [done | |].
  - rewrite length_headerBytes. unfold headerSize in *. lia.
  - rewrite length_mapBytes. unfold headerSize in *. lia.
Qed.

Lemma formatted_header (v : volume) : read_bytes (content (formatted v)) 0 headerSize = headerBytes newHeader.
Proof.
  change headerSize with (Z.of_nat 32) at 1. rewrite <- (length_headerBytes newHeader). rewrite <- (read_write_bytes (content v) 0 (headerBytes newHeader)) at 2.
  apply read_bytes_ext. rewrite length_headerBytes. intros b Hb. rewrite formatted_content. apply write_bytes_out. unfold headerSize. lia.
Qed.

Lemma formatted_map (v : volume) : wordsIn newHeader (formatted v) = newMap.
Proof.
  rewrite <- wordsOf_read, <- length_mapBytes.
  rewrite (read_bytes_ext _ (write_bytes (write_bytes (content v) 0 (headerBytes newHeader)) headerSize (bytesOf newMap))) by (intros; apply formatted_content).
  rewrite read_write_bytes, <- length_newMap. apply wordsOf_bytesOf, newMap_range.
Qed.

Lemma formatted_extent (v : volume) : headerSize + mapSize newHeader * 8 <= extent (formatted v).
Proof.
  unfold formatted. pose proof length_mapBytes as Hl. pose proof mapSize_newHeader.
  destruct (bytesOf newMap) as [| b l]; [cbn [length] in Hl; lia |]. cbn [pwrite extent]. lia.
Qed.

Lemma formatted_bits (v : volume) (i : Z) : 0 <= i < 64 * mapSize newHeader -> bitSet (formatted v) i = (usable <=? i).
Proof.
  intros Hi. pose proof mapSize_newHeader as [Ems Hms]. unfold usable. rewrite Ems.
  assert (Hw : 0 <= i / 64 < mapSize newHeader) by (split; [apply Z.div_pos; lia | apply Z.div_lt_upper_bound; lia]).
  pose proof (lookup_wordsIn newHeader (formatted v) (i / 64) Hw) as E. rewrite formatted_map in E. unfold newMap in E. rewrite Ems in E.
  unfold bitSet. fold (wordOffset (i / 64)). destruct (block_bit i (i / 64) eq_refl) as [Ei Hb]. pose proof (Z.mod_pos_bound blocks 64 ltac:(lia)).
  destruct (decide (i / 64 = mapSize newHeader - 1)) as [Hlast | Hlast].
  - rewrite Hlast, list_lookup_insert_eq in E by (rewrite length_replicate; lia). injection E as E. rewrite Hlast, <- E, occupied_bits by lia.
    destruct (Z.leb_spec (64 - (64 - blocks mod 64)) (i mod 64)), (Z.leb_spec (64 * (mapSize newHeader - 1) + blocks mod 64) i); (done || lia).
  - rewrite list_lookup_insert_ne, lookup_replicate_2 in E by lia. injection E as <-. rewrite Z.testbit_0_l.
    destruct (Z.leb_spec (64 * (mapSize newHeader - 1) + blocks mod 64) i); (done || lia).
Qed.

Lemma formatted_ok (v : volume) : bitmap_ok newHeader (formatted v).
Proof.
  constructor.
  - pose proof (formatted_extent v). lia.
  - rewrite formatted_map. apply newMap_range.
  - intros i Hi. pose proof (fo_blocks Hok) as Hb. cbn [blockcount newHeader] in Hi. rewrite formatted_bits by lia. rewrite usable_blocks.
    destruct (blocks mod 64 =? 0); lia.
Qed.

Lemma format_exec (v : volume) : exists d, exec (format ignore_err data) v = Done (ESDM_SUCCESS, d, formatted v) /\
  header d = newHeader /\ block_map d = Some newMap.
Proof.
  pose proof mapSize_newHeader as [Ems Hms]. unfold format. fold blocks. rewrite exec_bind. cbn [exec kwrite kdsa_write_unregistered].
  cbn [mret prog_ret exec mbind outcome_bind outcome_ret negb andb]. destruct (Z.eqb_spec (calc_block_map_size blocks) 0); [lia |].
  rewrite exec_bind. cbn [exec kwrite kdsa_write_unregistered]. cbn [mret prog_ret exec mbind outcome_bind outcome_ret negb andb].
  eexists. split; [reflexivity |]. split; done.
Qed.

(** Creating a file system where there is none, or over an existing one. *)
Lemma mkfs_exec (tgt : string) (v : volume) :
  (6 <= String.length tgt)%nat -> 8 <= extent v -> (loadWord v 0 <> ESDM_MAGIC \/ ignore_err = true) ->
  exec (mkfs tgt false true ignore_err data) v = exec (format ignore_err data) v.
Proof.
  intros Htgt Hext Hmagic. unfold mkfs. destruct (Nat.ltb_spec (String.length tgt) 6); [lia |]. cbn [negb]. rewrite exec_bind.
  cbn [exec mret prog_ret mbind outcome_bind outcome_ret].
  unfold readMagic. rewrite exec_bind, exec_bind. cbn [exec kread mret prog_ret mbind outcome_bind outcome_ret].
  assert (Er : kdsa_read_unregistered 0 8 v = read_bytes (content v) 0 8) by (unfold kdsa_read_unregistered, pread; f_equal; lia).
  rewrite Er. replace (length (read_bytes (content v) 0 8) =? 8)%nat with true by reflexivity. cbn [deref]. rewrite exec_bind. cbn [exec].
  rewrite !bind_done. fold (loadWord v 0). destruct (Z.eqb_spec (loadWord v 0) ESDM_MAGIC); destruct Hmagic as [| ->]; try done; cbn [andb negb].
  all: by rewrite ?andb_false_r.
Qed.

(** Connecting to the formatted volume. *)
Lemma init_exec (v : volume) :
  exists d, exec (kdsa_backend_init junkWord (blocksize (header data)) (kdsa_size data)) (formatted v) = Done (Some d, formatted v) /\
  synced newHeader d (formatted v).
Proof.
  pose proof newHeader_geometry as Hgeo. pose proof Hgeo as [Hs Hc Hd He]. pose proof (fo_size Hok) as Hsize. pose proof (fo_blocks Hok) as Hb.
  pose proof mapSize_newHeader as [Ems Hms]. pose proof (formatted_extent v) as Hext.
  assert (Er : kdsa_read_unregistered 0 headerSize (formatted v) = headerBytes newHeader).
  { rewrite <- formatted_header with (v := v). unfold kdsa_read_unregistered, pread. f_equal. lia. }
  assert (Eh : headerOf (headerBytes newHeader) = newHeader).
  { apply headerOf_bytes; [done | cbn [blocksize newHeader]; lia | cbn [blockcount newHeader]; lia |]. unfold headerSize in Hd. nia. }
  assert (Hdata : data_ok newHeader (BackendData (kdsa_size data) newHeader (Some (replicate (Z.to_nat (mapSize newHeader)) junkWord)) junkWord 0)).
  { constructor; [done |]. eexists. split; [reflexivity |]. rewrite length_replicate. lia. }
  destruct (load_block_bitmap_exec newHeader Hgeo _ (formatted v) Hdata (formatted_ok v)) as (d & El & Hd' & _).
  exists d. split; [| done]. unfold kdsa_backend_init.
  assert (Eu : u64 (blocksize (header data)) = blocksize newHeader) by (change (blocksize newHeader) with (blocksize (header data)); apply Z.mod_small; lia).
  rewrite exec_bind. cbn [exec kread mret prog_ret mbind outcome_bind outcome_ret]. rewrite Er, length_headerBytes, Eh, Eu. cbn [Z.of_nat].
  replace (Z.of_nat 32 =? headerSize) with true by reflexivity. cbn [negb]. rewrite !Z.eqb_refl. cbn [orb negb].
  replace (blockcount newHeader =? calc_block_count (blocksize newHeader) (kdsa_size data)) with true by (symmetry; apply Z.eqb_refl). cbn [negb].
  change (calc_block_map_size (blockcount newHeader)) with (mapSize newHeader). rewrite exec_bind, El. done.
Qed.

(** C22: [mkfs()] formats a volume and [kdsa_backend_init()] accepts it with the header that was written and an up to date copy of the bitmap.  No
    byte behind the bitmap changes.  The blocks are free but for the last 64, which are lost when
    the number of blocks is a multiple of 64. *)
Theorem kdsa_format_roundtrip (tgt : string) (v : volume) :
  (6 <= String.length tgt)%nat -> 8 <= extent v -> (loadWord v 0 <> ESDM_MAGIC \/ ignore_err = true) ->
  exists d v' d', exec (mkfs tgt false true ignore_err data) v = Done (ESDM_SUCCESS, d, v') /\
  exec (kdsa_backend_init junkWord (blocksize (header data)) (kdsa_size data)) v' = Done (Some d', v') /\
  synced newHeader d v' /\ synced newHeader d' v' /\ geometry_ok newHeader /\
  (forall a, offset_to_data newHeader <= a -> content v' a = content v a) /\
  (forall i, 0 <= i < blocks -> bitSet v' i = if blocks mod 64 =? 0 then blocks - 64 <=? i else false).
Proof.
  intros Htgt Hext Hmagic. destruct (format_exec v) as (d & E & Eh & Em), (init_exec v) as (d' & Ei & Hs'). exists d, (formatted v), d'.
  split; [by rewrite mkfs_exec |]. split; [done |]. split; [constructor; [done | by rewrite formatted_map | apply formatted_ok] |].
  split; [done |]. pose proof newHeader_geometry as Hgeo. split; [done |]. pose proof (ge_data _ Hgeo). pose proof (mapSize_count _ Hgeo) as [Hcount _].
  split.
  - intros a Ha. apply formatted_data. lia.
  - intros i Hi. cbn [blockcount newHeader] in Hcount. rewrite formatted_bits, usable_blocks by lia. destruct (_ =? 0); [done |]. apply Z.leb_gt. lia.
Qed.

(** * The end of the data *)

(** The blocks may end behind the volume, but by less than the size of the bitmap and its padding: [calc_block_count()] reserves one
    byte instead of eight for each word of the bitmap, and nothing for the rounding. *)
Lemma data_end_bound :
  headerSize < kdsa_size data -> 64 * kdsa_size data < 2 ^ 64 -> 64 * blocksize (header data) + 1 < 2 ^ 64 ->
  offset_to_data newHeader + blocks * blocksize (header data) < kdsa_size data + 8 * mapSize newHeader + 64.
Proof.
  intros Hmin Hmax Hbs. pose proof (fo_blocks Hok) as Hb. pose proof (fo_size Hok) as Hs. pose proof mapSize_newHeader as [Ems _]. unfold newHeader at 1. cbn [offset_to_data]. rewrite Ems.
  set (x := headerSize + mapSize newHeader * 8 + 63). assert (x / 64 * 64 <= x) by (pose proof (Z.mul_div_le x 64 ltac:(lia)); lia).
  assert (Hcount : blocks * (64 * blocksize (header data) + 1) <= 64 * (kdsa_size data - headerSize)).
  { unfold blocks, calc_block_count, headerSize in *. destruct (Z.leb_spec (kdsa_size data) 32); [lia |]. unfold u64. rewrite !Z.mod_small by lia.
    pose proof (Z.mul_div_le (64 * (kdsa_size data - 32)) (1 + 64 * blocksize (header data)) ltac:(lia)). lia. }
  unfold x in *. lia.
Qed.
End Format.

(** A volume of 10 GiB with blocks of 4 KiB: the last blocks are outside of the volume. *)
Lemma data_end_overrun :
  let data := BackendData kdsa_get_volume_size (Header 0 4096 0 0) None 0 0 in
  kdsa_get_volume_size < offset_to_data (newHeader data) + blocks data * 4096.
Proof. vm_compute. reflexivity. Qed.

(** A small volume is formatted. *)
Module SmallVolume.

Definition data : kdsa_backend_data_t := BackendData 10000 (Header 0 100 0 0) None 0 0.

Lemma can_format : formattable data.
Proof. constructor; vm_compute; (reflexivity || (split; reflexivity)). Qed.

End SmallVolume.

(** All 99 blocks are free. *)
Lemma kdsa_format_roundtrip_witness :
  exists d v', exec (mkfs "kdsa://volume" false true false SmallVolume.data) (Volume (fun _ => 0) 10001) = Done (ESDM_SUCCESS, d, v') /\
  forall i, 0 <= i < 99 -> bitSet v' i = false.
Proof.
  destruct (kdsa_format_roundtrip SmallVolume.data false 7 SmallVolume.can_format "kdsa://volume" (Volume (fun _ => 0) 10001))
    as (d & v' & d' & E & _ & _ & _ & _ & _ & Hbits).
  - vm_compute. lia.
  - vm_compute. discriminate.
  - left. vm_compute. discriminate.
  - exists d, v'. split; [exact E | exact Hbits].
Defined.
